(* ===== verification/_CoqProject ===== *)
-Q . S2P
Prelude.v
StdNet.v
StdIo.v
Route.v
Dns.v
TunPacket.v
TunPacketBuild.v
TunPlan.v
TunSession.v
TunSessionInv.v
TunProcess.v
TunProcessInv.v
TunProcessSpec.v
TunStream.v
TunSummary.v
TunLoop.v
TunLoopSpec.v
Socks5.v
WebSocket.v
WebSocketSpec.v
Relay.v
RelaySpec.v
StdText.v
Profile.v
Codec.v
CodecSpec.v
ProxyWire.v
Framed.v
Vmess.v
Network.v
Outbound.v
OutboundVless.v
OutboundTrojan.v
OutboundVmess.v
OutboundOther.v
Registry.v
StreamSpec.v
Mieru.v
ProxyWireSpec.v
ScriptedNetwork.v
FramedSpec.v
RegistrySpec.v
TunRelay.v
TunRelaySpec.v
H2Stream.v
H2Spec.v
Quic.v
HttpConnect.v
HttpProxy.v
HttpSpec.v
Subscription.v
SubscriptionSpec.v
ClientCore.v
ClientRuntime.v
ClientSpec.v
Panel.v
PanelHttp.v
PanelSpec.v
MixedMetrics.v
MixedServer.v
MixedServerSpec.v
Mixed.v
MixedConfig.v
MixedSpec.v
Platform.v
PlatformWindows.v
PlatformTun.v
PlatformSpec.v
TunText.v
ManagedHealth.v
ManagedLoop.v
ManagedLoopSpec.v
ManagedTun.v
ManagedMixed.v
ManagedSpec.v
SubscriptionFetch.v
Desktop.v
DesktopService.v
DesktopShell.v
DesktopSpec.v
