(* ===== verification/Prelude.v ===== *)
(** * Keli Native Client: a verification library

    The program is a proxy client: its network core ([crates/keli-net-core] of the
    repository), its subscriptions and protocols ([crates/keli-protocol]) and its client
    core ([crates/keli-client-core]). It opens a TUN device, reads the
    IP packets that applications send, decides by routing rules what to do with
    each of them, and plays the other end of the conversation: it answers DNS
    queries itself, refuses blocked connections, relays UDP datagrams, and
    terminates TCP connections in user space, so that their byte streams can be
    carried through an outbound.

    ** Parts and how they interact

    A round of the loop reads one packet from the device. The packet parser
    ([TunPacket]) gives its flow; the route engine ([Route]) gives the action for
    the flow's destination; [TunPlan] turns that into a relay action. A hijacked
    DNS query goes to the DNS engine ([Dns]), whose answer is wrapped into a
    packet; a blocked TCP packet is answered with a reset; a datagram goes to the
    UDP relay; a segment goes to the session table ([TunSession]) and the TCP
    relay through the dispatcher ([TunProcess]), whose step says which packets to
    write back. Each round is an event, and the loop ([TunLoop]) keeps a summary
    ([TunSummary]) of the events and, between rounds, prunes idle sessions.

    Applications that know of the proxy speak SOCKS5 or HTTP to it instead ([Socks5],
    [HttpConnect], [HttpProxy]): the mixed inbound of [crates/keli-cli] accepts them
    ([MixedServer]), routes and relays each of them in a worker ([Mixed]) and counts what
    became of them ([MixedMetrics]); its rules and its registry are made from the command
    line and a subscription ([MixedConfig]).

    What is sent through an outbound goes to the registry ([Registry]), which was built
    from the profiles of a configuration ([Profile]) and gives every tag one of 43 kinds
    of outbound ([OutboundVless], [OutboundTrojan], [OutboundVmess], [OutboundOther]). An
    outbound resolves and connects its server ([Network]), opens a transport, performs
    the handshake of its protocol ([ProxyWire], [Vmess], with the wire formats of
    [Codec]) and gives back a connection ([Outbound]), which may be one of the framed
    streams ([Framed]), the messages of a WebSocket ([WebSocket]) or a stream over HTTP/2
    ([H2Stream]) or over QUIC ([Quic]). The relay pump
    ([Relay]) then moves bytes between the application and the connection; for the TUN loop
    the relays over the registry ([TunRelay]) do, one connection per session.

    The profiles come from a subscription, a Mihomo configuration or a list of share links
    ([Subscription]). The client core checks it, plans which node to use ([ClientCore]) and
    keeps the state of the running client ([ClientRuntime]); the account, the nodes and
    the configurations come from a panel over HTTP ([Panel], [PanelHttp]).

    The managed core of [crates/keli-cli] puts these together for the desktop: a session
    binds the listener, plans a node and sets the system proxy; its handle reloads it,
    probes the nodes ([ManagedHealth]) and stops it; a controller holds at most one handle
    and lets the state of the account refuse what needs traffic ([ManagedMixed]). Around it,
    guards set up the device and the proxy and take them down ([ManagedTun]), and the packet
    loop runs in a thread ([ManagedLoop]). The platform ([Platform], [PlatformWindows],
    [PlatformTun]) gives the proxy, the routes and the device: commands on the registry and
    the routing table, and the Wintun driver.

    The desktop ([crates/keli-desktop]) drives the managed core: its service keeps the
    subscription, the node and the mode between runs ([DesktopService]), its commands add
    the session of the panel, and the controller of the shell ([DesktopShell]) turns what
    the user asks into commands, shows what they leave ([Desktop]) and keeps the
    subscription on disk.

    ** Files

    - [Prelude]: machine integers, byte strings, results with panics, a
      state-and-error monad, record updates, ASCII and UTF-8 strings, the shared
      tactics and the hint database [keli].
    - [StdNet]: the addresses of the standard library, with their printer and
      parser.
    - [StdIo]: streams as classes, a pipe as their instance, and text functions of
      the standard library.
    - [Route]: [lib.rs], the route engine.
    - [Dns]: [dns.rs], the wire format, the cache and the resolution policies.
    - [TunPacket]: [tun.rs], the parser and builder of packets and the checksums.
      [TunPacketBuild] holds its theorems.
    - [TunPlan]: [tun.rs], routing of a packet.
    - [TunSession]: [tun.rs], the operations of the session table;
      [TunSessionInv] its invariant.
    - [TunProcess]: [tun.rs], the processing of one segment and pruning;
      [TunProcessInv], [TunProcessSpec] and [TunStream] hold its theorems.
    - [TunSummary]: [tun.rs], events and summaries.
    - [TunLoop]: [tun.rs], the DNS hijack, the dispatch of a packet and the
      loops; [TunLoopSpec] its theorems.
    - [Socks5]: [socks5.rs], the handshake, requests, replies and datagrams.
    - [WebSocket]: [websocket.rs], the handshake and the frames; [WebSocketSpec] its
      theorems.
    - [Relay]: [direct.rs], the relay pump, and [metrics.rs], the report of a
      connection; [RelaySpec] its theorems.
    - [StdText]: lemmas on text of the standard library.
    - [Profile]: [keli-protocol/src/lib.rs], profiles and their validation.
    - [Codec]: [keli-protocol/src/lib.rs], request headers and packets of the
      protocols; [CodecSpec] its theorems.
    - [ProxyWire]: [direct.rs], handshakes of the client and packets of VLESS and
      Trojan; [ProxyWireSpec] its theorems.
    - [Framed]: [direct.rs], the streams of AnyTLS, Shadowsocks and VMess; [StreamSpec]
      what it means that a stream delivers, [FramedSpec] the theorems.
    - [Vmess]: [direct.rs], the request and response headers of VMess.
    - [Network]: [direct.rs], resolution and direct connections, and the class of what
      the outbounds use of the system and of transports.
    - [Outbound], [OutboundVless], [OutboundTrojan], [OutboundVmess], [OutboundOther]:
      [direct.rs], [naive.rs], [mieru.rs], one record per outbound with its connection and
      its datagrams.
    - [Mieru]: [mieru.rs], the stream of Mieru with its segments and datagrams, and its
      theorems.
    - [Registry]: [direct.rs], the registry; [RegistrySpec] its theorems against a
      reference that connects a profile layer by layer, and what it does not promise.
    - [TunRelay]: [tun.rs], the relays of the loop over the registry; [TunRelaySpec] their
      theorems.
    - [H2Stream]: [http2.rs], with what its stream and those of [grpc.rs] and [naive.rs]
      share, and [grpc.rs], hunks and the reader task; [H2Spec] the theorems.
    - [Quic]: [quic.rs], packets under a cipher, the streams and datagrams of Hysteria 2,
      TUIC and the QUIC transport; [naive.rs], the stream over HTTP/3 and its task; and
      their theorems.
    - [HttpConnect]: [http_connect.rs]; [HttpProxy]: [http_proxy.rs]; [HttpSpec] the
      theorems.
    - [Subscription]: JSON values, the class of the URL library and [keli-protocol/src/lib.rs],
      both formats of a subscription; [SubscriptionSpec] the theorems.
    - [ClientCore]: [keli-client-core/src/lib.rs], preflight, plans, updates and the account;
      [ClientRuntime]: the same file, the runtime; [ClientSpec] the theorems.
    - [Panel]: [keli-client-core/src/panel/], endpoints, sessions, requests, answers and the
      client; [PanelHttp]: its transport ([client.rs]); [PanelSpec] the theorems.
    - [MixedMetrics]: [keli-cli/src/lib.rs], counters, gauge and registry of the mixed
      inbound; [MixedServer]: its accept loop; [MixedServerSpec] their theorems.
    - [Mixed]: [keli-cli/src/lib.rs], the handlers of the mixed inbound; [MixedConfig]: its
      rules and runtimes; [MixedSpec] their theorems.
    - [Platform]: [keli-platform/src/lib.rs], configurations, traits and preflight;
      [PlatformWindows]: the registry, the commands and the routes; [PlatformTun]: the Wintun
      library and the controller of the device; [PlatformSpec] the theorems.
    - [TunText]: [tun.rs] and [keli-cli/src/lib.rs], the texts and notes of the TUN path.
    - [ManagedHealth]: [keli-cli/src/lib.rs], the health of the nodes and the recommendation.
    - [ManagedLoop]: [keli-cli/src/lib.rs], the packet loops of a managed core;
      [ManagedLoopSpec] what the loop behind the lock does to connections.
    - [ManagedTun]: [keli-cli/src/lib.rs], the guards of the proxy and of the device.
    - [ManagedMixed]: [keli-cli/src/lib.rs], session, handle, status and controller;
      [ManagedSpec] the theorems of the managed files.
    - [SubscriptionFetch]: [keli-cli/src/lib.rs], the fetch of a subscription from a URL, with
      its theorems.
    - [Desktop]: [keli-desktop/src/], [status.rs], [subscription.rs], [readiness.rs],
      [dependencies.rs], [panel.rs] and [support.rs], what the desktop shows.
    - [DesktopService]: [managed.rs], [service.rs] and [commands.rs]; [DesktopShell]:
      [shell.rs], [persistence.rs] and [app.rs]; [DesktopSpec] the theorems of the three.
    - [ScriptedNetwork]: instances of the classes on which the outbounds evaluate.

    ** Correspondence

    Definitions keep the names of the source; the fields of a record carry a
    short prefix, and methods of different types with one name carry the type's
    name ([RouteEngine_new]). A Rust integer is a [Z], with wrap-around and
    truncation written out; a byte string is a [list Z]; [Result] is
    [Prelude.result], whose third constructor is a panic (an index or slice out of
    range, a subtraction below zero, a failed [expect]), so that its absence is a
    theorem and not an assumption. A method on [&mut self] is a computation in
    [Prelude.SM]: what it did before an error stays done. A [HashMap] is a
    [gmap]; where the code iterates over one, the order is an argument, with the
    hypothesis that it is a permutation of the keys. [Instant::now()] is an
    argument: one instant per call site. Counters that grow with each event (summaries,
    generations, event and byte totals of 64 bits, where the code does not saturate them) are
    unbounded, and so is the sum of an instant and a duration.

    The traits of the source are classes: [DnsResolver], [TunPacketDevice],
    [TunUdpRelay], [TunTcpSessionRelay], and [Read] and [Write] of the standard
    library, for which the theorems on [Socks5] and [WebSocket] take the instance
    [StdIo.Pipe]: bytes that have arrived, what comes after them, and bytes that
    were written. For the others theorems hold for all instances; where
    they need that a method returns, this is a class of its own ([RelayReturns],
    [DeviceReturns], [ResolverReturns], [UdpReturns]), with instances that show
    that it can hold.

    Two loops of the source have no structural measure. The walk over IPv6 extension headers
    and the loop over DNS labels take as fuel one more than the length of the packet; every
    turn consumes at least one byte, and the theorems on the parsers show that the fuel does
    not run out (running out is a panic in the model). The loops over the frames of a
    WebSocket have no bound at all: their fuel is a number of frames, and the theorems hold
    for every fuel that is larger than the number of frames on the wire. The same holds of
    the frames of an AnyTLS stream. The loop that waits for capacity of an HTTP/2 stream has
    a number of polls, and the theorems hold where the stream assigns capacity before. The
    read loop of the TCP relay has a number of turns; one for each millisecond of the time
    limit, and two more, are enough. The loop over the fields of a hunk has the length of
    the message as fuel, since each turn reads a byte of it. The relay pump runs for a
    number of turns; a theorem gives one that is enough. The loops of the panel's transport
    have as fuel what they can at most read: a round of the reader adds a byte until the
    limit is passed, and a chunk moves the cursor; running out is a panic, which the
    theorems exclude. So have those of the fetch of a subscription.

    The relay and the SOCKS5 association of a worker run for a number of turns ([turns]),
    with [None] as their value while they still run; for a silent client a theorem gives a
    number that is enough. The accept loop and its workers are a step relation: an
    interleaving of atomic steps, with invariants by induction on reachable states.

    The libraries that read YAML, JSON, Base64 and URLs are classes
    ([Subscription.ShareLibrary], [Panel.PanelLibrary], [Subscription.UrlLibrary]): a call
    gives a value or the text of an error. Theorems hold for all of them or state what they
    need of one call; [SubscriptionSpec.Sample] is an instance with a small URL parser and
    Base64. The clock of the client core is an argument, one reading per call of
    [SystemTime::now].

    The outbounds are parameterised by [Network.Network] (sockets, clocks, random numbers,
    TLS, QUIC, HTTP/2, gRPC and the sessions of Hysteria 2, TUIC, Naive and Mieru) and by
    the ciphers and digests ([Framed.ShadowsocksCrypto], [Framed.VmessCrypto],
    [Mieru.MieruCrypto]). What a theorem needs of them is a class of its own
    ([ReliableStream], [VmessAead], [ShadowsocksAead], [MieruAead], [PacketAead]), with
    instances. The streams over HTTP/2 take the sending half of the h2 crate as the class
    [H2SendStream]; what the theorems need of it is [OpenSendStream].

    The managed core takes the outside as [ManagedMixed.ManagedSystem] (the clock, the
    listener and its thread, probes, the fetch of a subscription (which [SubscriptionFetch]
    models), the counters that workers share) and as the traits of the platform, which are
    classes; a packet loop that runs in a thread is a step of the world that happens when
    the thread is joined. Of the system below the platform the theorems state what they need
    as classes ([PlatformSpec.Registry], [PlatformSpec.RouteTable]), with a machine that
    satisfies them.

    The controller of the shell takes its host as the class
    [DesktopShell.DesktopShellCommandHost], of which [DesktopShell.native_host] is the
    instance over the service, and the disk with the JSON of a record as
    [DesktopShell.SubscriptionDisk].

    ** What is shown

    - Routing: the first matching rule decides; CIDR blocks are prefixes; domains
      match without regard to case and at label boundaries; a packet's plan is
      the one of its route, and a round touches only the component that the plan
      names.
    - DNS: the query parser is total and inverts the encoding; responses decode
      to what was asked; under the leak-prevention policy no name reaches the
      resolver; caching and the address-family policy; an intercepted query is
      answered end to end.
    - Packets: no input makes the parser panic; what it accepts is well formed
      and unfragmented; built packets parse back to what was put into them, and
      their checksums verify at a receiver.
    - TCP: a well-formedness invariant of the session table under every
      operation, every reachable table within its limit; the handshake, resets,
      the session limit, retransmission, pruning; and the refinement of the
      client's side to a reliable stream: what the relay has accepted is exactly a
      prefix of the client's bytes, the one the session acknowledges, under any cutting, repetition and reordering
      of segments, across the wrap-around of sequence numbers. One theorem records
      a defect: a payload the relay refuses is acknowledged on retransmission.
    - The loop: a run never panics, ends for a stated reason, keeps the table
      within its limit; its summary accounts for every event.
    - SOCKS5: the parsers accept exactly the requests and datagrams of the wire
      format, and consume exactly their bytes; datagrams round trip.
    - WebSocket: what is written is read back; the messages of a server arrive as
      one byte stream and its pings are answered; the handshake is accepted exactly
      on the headers required. Two theorems record defects: a frame that arrives in
      pieces on a non-blocking stream is lost, and an announced length of 2^63 or
      more panics.
    - The relay: no byte is lost, added or reordered in either direction; a remote that
      stays silent for the limit's time is not waited for; the pump ends once the remote has
      ended.
    - Protocols: packets of TUIC, Hysteria 2 and Trojan round trip, the decoders are
      total, and the SOCKS5 client says what the SOCKS5 server understands. What is
      written to a VMess, Shadowsocks or AnyTLS stream is read back, however the stream
      below cuts it, as long as that one waits for bytes and does not fail
      ([ReliableStream]); a frame that arrives in part on a non-blocking stream is lost.
    - QUIC: sealed packets are opened to the same packets, and no datagram makes the socket
      panic; a connection through Hysteria 2 gives the bytes behind its response, in whatever
      pieces they arrive; whatever the order of turns, Naive sends what was written.
      Theorems record defects: fragments are not put together, and the end of a server's side
      or an empty frame ends both sides of a Naive stream.
    - Mieru: what is written to its stream is read back; datagrams come out of their frames;
      the nonces of a stream differ. Two theorems record defects: a stream cut off inside a
      segment reads as a closed one, and a write that fails goes on to the next nonce.
    - The registry: it accepts exactly the valid profiles, and with distinct tags it
      refines the reference [RegistrySpec.profile_connect] for connections and
      [RegistrySpec.profile_relay_udp] for datagrams. Two theorems record limits: datagrams
      to names need the system's resolver, and a tag of two profiles is split.

    - The relays over the registry: a method touches only its own session; a read ends
      within its time limit and gives what fits a packet; a payload accepted is written
      whole, and one refused up to some point.
    - gRPC and HTTP/2: what is written and shut down at one end is read at the other, however
      the HTTP/2 stack cuts it, and only the last frame ends the stream. Two theorems record
      defects: a length in a hunk that overflows, and an empty frame taken for the end.
    - HTTP inbounds: exactly one header is read, whatever arrives; the CONNECT inbound
      understands the HTTP outbound; a proxied request goes where its target or its Host
      field says, with its fields as they were. One theorem records a defect: a URL in the
      query of a request in origin form is taken for a scheme.

    - Subscriptions: parsing ends, and what it gives passes validation; a share link and the
      Mihomo entry that says the same give the same profile; a list of links and its Base64
      form are the same subscription; the registry takes the profiles exactly if the VMess
      ciphers are known.
    - The client: the runtime refines an abstract client with an unbounded history; in every
      reachable state its plan is the plan of its configuration; a rejected reload changes
      nothing; the client can always be started and stopped; a planned update can be
      started.
    - The panel: responses in every framing are understood, no response makes the client
      panic or read without end, and a session's token is sent to its own panel only.

    - The mixed inbound: blocked targets are refused without a step of the network; a
      connection is reported at most once; the counters are those of the history of
      reports; under every interleaving the limit on workers holds and everything is given
      back; a silent association ends; blocking options survive their texts; the supported
      profiles of a subscription always make a runtime. Theorems record defects: datagrams
      to names escape the DNS policy, a failed connection counts as direct, a malformed
      datagram ends an association.

    - The platform: applying and restoring the system proxy leaves the registry as it was;
      the routes are taken over all or not at all; the preflight is ready exactly if the
      device can be started or runs with the configuration; the controller of the device
      holds an adapter, a session and routes together or not at all. Theorems record
      defects: a failed stop cannot be tried again, a failed application leaves the proxy
      enabled, and routes are found as substrings.
    - The managed core: after any operations the handle is in step with the plan of its
      configuration; a reload is all or nothing; the recommendation is the best healthy node,
      and a switch goes only to a healthy one; a restricted account refuses whatever needs
      traffic; a stop puts the proxy back and a run stops its device whatever else failed.
      Theorems record defects: the loop behind the lock loses every TCP connection after the
      packet that opened it, and a failed packet loop leaves the device of a handle up.

    - The fetch of a subscription: what is returned is within the limit of the caller and is
      the body the server sent, in both framings; the reader ends. A theorem records a defect:
      a chunk length close to 2^64 makes the client panic; without a length that large it does
      not.
    - The desktop: whatever was asked before, a start or stop reaches the host exactly when
      what is shown allows it; the service remembers the subscription and the node that its
      core runs; what is saved is what the next process restores. A theorem records a defect:
      a subscription imported as a text while the core runs (a login to the panel does it) is
      remembered and saved, and not run.

    ** What is not modelled

    Input and output on sockets, TLS and the set-up of gRPC, HTTP/2, QUIC and HTTP/3
    connections, which is asynchronous code over third-party stacks: for the outbounds a
    session is a field of the class [Network]. The two-thread relay over cloned sockets. The
    texts of error messages, where no theorem reads them. The error exits of the accept loop
    and the reload of its runtime. The search for the Wintun library and its installation.
    The support bundle and the JSON of reports. The window of the desktop
    ([crates/keli-desktop-shell]) and the rest of the command line are user interface,
    reports, probes of the environment and process management. *)

From stdpp Require Import base gmap strings list fin_maps numbers.
#[local] Open Scope Z_scope.

(** ** Machine integers

    Every Rust integer ([u8], [u16], [u32], [u64], [u128], [usize]) is a [Z];
    its width is written out where an operation wraps or truncates. *)

Definition u8_max : Z := 255.
Definition u16_max : Z := 65535.
Definition u32_modulus : Z := 4294967296.

(** [x as u8], [x as u16], [x as u32]: truncation. *)
Definition as_u8 (x : Z) : Z := x mod 256.
Definition as_u16 (x : Z) : Z := x mod 65536.
Definition as_u32 (x : Z) : Z := x mod u32_modulus.

(** [u32::wrapping_add]. *)
Definition wrapping_add32 (x y : Z) : Z := (x + y) mod u32_modulus.

Definition is_u8 (x : Z) : Prop := 0 <= x < 256.
Definition is_u16 (x : Z) : Prop := 0 <= x < 65536.
Definition is_u32 (x : Z) : Prop := 0 <= x < u32_modulus.

(** [slice.len()] as a [usize]. *)
Definition len {A} (l : list A) : Z := Z.of_nat (length l).

(** [slice.is_empty()]. *)
Definition is_empty {A} (l : list A) : bool :=
  match l with [] => true | _ => false end.

(** [option.is_some()], [option.is_none()]. *)
Definition is_some {A} (o : option A) : bool :=
  match o with Some _ => true | None => false end.

Definition is_none {A} (o : option A) : bool :=
  match o with Some _ => false | None => true end.

(** [uN::from_be_bytes]. *)
Definition from_be_bytes (l : list Z) : Z :=
  fold_left (fun acc b => acc * 256 + b) l 0.

(** [x.to_be_bytes()] of an [n]-byte integer. *)
Fixpoint to_be_bytes (n : nat) (x : Z) : list Z :=
  match n with
  | O => []
  | S n' => (x / 256 ^ Z.of_nat n') mod 256 :: to_be_bytes n' x
  end.

Definition bytes_ok (l : list Z) : Prop := Forall is_u8 l.

(** ** Results

    [Result<A, E>] with a third outcome for the panics the language raises: an
    index or a slice range out of bounds, an integer subtraction below zero, a
    failed [expect]. *)

Inductive result (E A : Type) : Type :=
| Ok (a : A)
| Err (e : E)
| Panic.

Arguments Ok {E A} a.
Arguments Err {E A} e.
Arguments Panic {E A}.

Definition result_bind {E A B} (m : result E A) (k : A -> result E B) : result E B :=
  match m with
  | Ok a => k a
  | Err e => Err e
  | Panic => Panic
  end.

Definition result_map {E A B} (f : A -> B) (m : result E A) : result E B :=
  match m with
  | Ok a => Ok (f a)
  | Err e => Err e
  | Panic => Panic
  end.

(** [result.map_err(f)]. *)
Definition map_err {E F A} (f : E -> F) (m : result E A) : result F A :=
  match m with
  | Ok a => Ok a
  | Err e => Err (f e)
  | Panic => Panic
  end.

(** [option.ok_or(e)]. *)
Definition ok_or {E A} (e : E) (o : option A) : result E A :=
  match o with Some a => Ok a | None => Err e end.

Definition is_ok {E A} (m : result E A) : bool :=
  match m with Ok _ => true | _ => false end.

(** The computation does not panic, and what it returns satisfies [Q]. *)
Definition returns {E A} (m : result E A) (Q : A -> Prop) : Prop :=
  match m with
  | Ok a => Q a
  | Err _ => True
  | Panic => False
  end.

(** [slice[i]]. *)
Definition index {E A} (l : list A) (i : Z) : result E A :=
  if 0 <=? i then
    match l !! Z.to_nat i with Some x => Ok x | None => Panic end
  else Panic.

(** The elements [a .. b] of a list, for ranges known to be in bounds. *)
Definition sub_list {A} (l : list A) (a b : Z) : list A :=
  take (Z.to_nat (b - a)) (drop (Z.to_nat a) l).

(** [&slice[a..b]]. *)
Definition slice {E A} (l : list A) (a b : Z) : result E (list A) :=
  if (0 <=? a) && (a <=? b) && (b <=? len l) then Ok (sub_list l a b) else Panic.

(** [slice.get(a..b)]. *)
Definition get_range {A} (l : list A) (a b : Z) : option (list A) :=
  if (0 <=? a) && (a <=? b) && (b <=? len l) then Some (sub_list l a b) else None.

(** [slice.get(a..)]. *)
Definition get_from {A} (l : list A) (a : Z) : option (list A) :=
  get_range l a (len l).

(** [slice.get(i)]. *)
Definition get_index {A} (l : list A) (i : Z) : option A :=
  if 0 <=? i then l !! Z.to_nat i else None.

(** [a - b] on an unsigned integer. *)
Definition checked_sub {E} (a b : Z) : result E Z :=
  if b <=? a then Ok (a - b) else Panic.

(** [buffer[a..b].copy_from_slice(source)]. *)
Definition copy_range {E} (buffer : list Z) (a b : Z) (source : list Z)
  : result E (list Z) :=
  if (0 <=? a) && (a <=? b) && (b <=? len buffer) && (len source =? b - a) then
    Ok (take (Z.to_nat a) buffer ++ source ++ drop (Z.to_nat b) buffer)
  else Panic.

(** [buffer[i] = x]. *)
Definition set_index {E} (buffer : list Z) (i x : Z) : result E (list Z) :=
  if (0 <=? i) && (i <? len buffer) then Ok (<[Z.to_nat i := x]> buffer) else Panic.

(** [vec![0; n]]. *)
Definition zeroed (n : Z) : list Z := replicate (Z.to_nat n) 0.

(** ** A state-and-error monad

    A method on [&mut self] (or a function on several [&mut] arguments) that
    returns a [Result]: what it did to the state before an error stays done. *)

Definition SM (S E A : Type) : Type := S -> S * result E A.

Definition sm_ret {S E A} (a : A) : SM S E A := fun s => (s, Ok a).

Definition sm_bind {S E A B} (m : SM S E A) (k : A -> SM S E B) : SM S E B :=
  fun s =>
    match m s with
    | (s', Ok a) => k a s'
    | (s', Err e) => (s', Err e)
    | (s', Panic) => (s', Panic)
    end.

Definition sm_get {S E} : SM S E S := fun s => (s, Ok s).

Definition sm_modify {S E} (f : S -> S) : SM S E unit := fun s => (f s, Ok tt).

(** A pure fallible computation; the [?] operator on it. *)
Definition sm_lift {S E A} (m : result E A) : SM S E A := fun s => (s, m).

(** A method on a component of the state, its error converted. *)
Definition sm_zoom {S T E F A} (get : S -> T) (put : T -> S -> S) (f : E -> F)
  (m : SM T E A) : SM S F A :=
  fun s => let '(t, r) := m (get s) in (put t s, map_err f r).

Declare Scope keli_scope.
Delimit Scope keli_scope with keli.

Notation "x '<-?' m ';' k" := (result_bind m (fun x => k))
  (at level 20, m at level 100, k at level 200, right associativity) : keli_scope.
Notation "''' p '<-?' m ';' k" := (result_bind m (fun x => match x with p => k end))
  (at level 20, p pattern, m at level 100, k at level 200, right associativity) : keli_scope.
Notation "x '<-!' m ';' k" := (sm_bind m (fun x => k))
  (at level 20, m at level 100, k at level 200, right associativity) : keli_scope.
Notation "''' p '<-!' m ';' k" := (sm_bind m (fun x => match x with p => k end))
  (at level 20, p pattern, m at level 100, k at level 200, right associativity) : keli_scope.
Notation "'do!' m ';' k" := (sm_bind m (fun _ => k))
  (at level 20, m at level 100, k at level 200, right associativity) : keli_scope.

#[global] Open Scope keli_scope.

(** ** Field updates of records

    [r <| field := v |>] for a record whose eta expansion is registered with
    [Settable]. *)

Class Settable (R : Type) := eta : R -> R.

Class Setter {R T : Type} (proj : R -> T) := set_field : (T -> T) -> R -> R.

Ltac solve_setter proj :=
  match type of proj with
  | ?R -> _ =>
      let e := constr:(ltac:(let i := constr:(_ : Settable R) in
                             let v := eval hnf in i in exact v)) in
      let p := eval pattern proj in e in
      match p with
      | ?g _ => exact (fun f => g (fun r => f (proj r)))
      end
  end.

#[export] Hint Extern 1 (Setter ?proj) => (solve_setter proj) : typeclass_instances.

Notation "r '<|' proj ':=' v '|>'" := (set_field (proj := proj) (fun _ => v) r)
  (at level 1, left associativity,
   format "r  <|  proj  :=  v  |>") : keli_scope.

(** ** Strings

    A Rust [String] or [&str] is the string of its UTF-8 bytes. *)

Definition byte_of_ascii (a : Ascii.ascii) : Z := Z.of_N (Ascii.N_of_ascii a).
Definition ascii_of_byte (b : Z) : Ascii.ascii := Ascii.ascii_of_N (Z.to_N b).

(** [str.as_bytes()]. *)
Fixpoint as_bytes (s : string) : list Z :=
  match s with
  | EmptyString => []
  | String a s' => byte_of_ascii a :: as_bytes s'
  end.

(** The string with the given bytes, once they are known to be UTF-8. *)
Fixpoint string_of_bytes (l : list Z) : string :=
  match l with
  | [] => EmptyString
  | b :: l' => String (ascii_of_byte b) (string_of_bytes l')
  end.

Definition in_range (lo hi b : Z) : bool := (lo <=? b) && (b <=? hi).

Definition is_continuation (b : Z) : bool := in_range 128 191 b.

(** [str::from_utf8]: the well-formed byte sequences of the Unicode standard
    (table 3-7), as the standard library checks them. *)
Fixpoint utf8_valid (l : list Z) : bool :=
  match l with
  | [] => true
  | b0 :: l1 =>
      if in_range 0 127 b0 then utf8_valid l1
      else
        match l1 with
        | [] => false
        | b1 :: l2 =>
            if in_range 194 223 b0 then is_continuation b1 && utf8_valid l2
            else
              match l2 with
              | [] => false
              | b2 :: l3 =>
                  if in_range 224 239 b0 then
                    (if b0 =? 224 then in_range 160 191 b1
                     else if b0 =? 237 then in_range 128 159 b1
                     else is_continuation b1)
                    && is_continuation b2 && utf8_valid l3
                  else
                    match l3 with
                    | [] => false
                    | b3 :: l4 =>
                        in_range 240 244 b0
                        && (if b0 =? 240 then in_range 144 191 b1
                            else if b0 =? 244 then in_range 128 143 b1
                            else is_continuation b1)
                        && is_continuation b2 && is_continuation b3 && utf8_valid l4
                    end
              end
        end
  end.

(** [str::from_utf8(bytes).ok()], [String::from_utf8(bytes).ok()]. *)
Definition from_utf8 (l : list Z) : option string :=
  if utf8_valid l then Some (string_of_bytes l) else None.

(** [u8::to_ascii_lowercase]. *)
Definition lower_ascii (a : Ascii.ascii) : Ascii.ascii :=
  let b := byte_of_ascii a in
  if in_range 65 90 b then ascii_of_byte (b + 32) else a.

(** [str.to_ascii_lowercase()]. *)
Fixpoint to_ascii_lowercase (s : string) : string :=
  match s with
  | EmptyString => EmptyString
  | String a s' => String (lower_ascii a) (to_ascii_lowercase s')
  end.

(** [a.eq_ignore_ascii_case(b)]. *)
Definition eq_ignore_ascii_case (a b : string) : bool :=
  String.eqb (to_ascii_lowercase a) (to_ascii_lowercase b).

(** [str.starts_with(prefix)]. *)
Definition starts_with (s p : string) : bool := String.prefix p s.

(** [str.ends_with(suffix)]. *)
Fixpoint ends_with (s suffix : string) : bool :=
  String.eqb s suffix ||
  match s with
  | EmptyString => false
  | String _ s' => ends_with s' suffix
  end.

(** [str.contains(needle)]. *)
Fixpoint contains (s needle : string) : bool :=
  String.prefix needle s ||
  match s with
  | EmptyString => false
  | String _ s' => contains s' needle
  end.

(** [str.trim_start_matches(c)] for a one-byte character. *)
Fixpoint trim_start_matches (c : Ascii.ascii) (s : string) : string :=
  match s with
  | EmptyString => EmptyString
  | String a s' => if Ascii.eqb a c then trim_start_matches c s' else s
  end.

(** [str.trim_end_matches(c)] for a one-byte character. *)
Fixpoint trim_end_matches (c : Ascii.ascii) (s : string) : string :=
  match s with
  | EmptyString => EmptyString
  | String a s' =>
      match trim_end_matches c s' with
      | EmptyString => if Ascii.eqb a c then EmptyString else String a EmptyString
      | t => String a t
      end
  end.

(** [parts.join(separator)]. *)
Definition join (sep : string) (parts : list string) : string := String.concat sep parts.

(** ** Case analysis *)

(** Case analysis on the first stuck match or conditional of the goal. *)
Ltac break_goal :=
  match goal with
  | |- context [match ?x with _ => _ end] =>
      lazymatch x with
      | context [match _ with _ => _ end] => fail
      | _ => destruct x eqn:?
      end
  end.

(** The same on a hypothesis. *)
Ltac break_hyp H :=
  match type of H with
  | context [match ?x with _ => _ end] =>
      lazymatch x with
      | context [match _ with _ => _ end] => fail
      | _ => destruct x eqn:?
      end
  end.

(** Boolean guards of the code as hypotheses for [lia]. *)
Ltac bools :=
  repeat match goal with
  | H : _ && _ = true |- _ => apply andb_true_iff in H as [? ?]
  | H : _ || _ = false |- _ => apply orb_false_iff in H as [? ?]
  | H : negb _ = true |- _ => apply negb_true_iff in H
  | H : negb _ = false |- _ => apply negb_false_iff in H
  end.

(** ** Lemmas on machine integers, byte lists and results *)

Lemma len_app {A} (l k : list A) : len (l ++ k) = len l + len k.
Proof. unfold len. rewrite length_app. lia. Qed.

Lemma len_nonneg {A} (l : list A) : 0 <= len l.
Proof. unfold len. lia. Qed.

Lemma len_cons {A} (x : A) l : len (x :: l) = 1 + len l.
Proof. unfold len. cbn [length]. lia. Qed.

Lemma len_nil {A} : len (@nil A) = 0.
Proof. reflexivity. Qed.

Lemma len_zero_inv {A} (l : list A) : len l = 0 -> l = [].
Proof. destruct l; [done|]. rewrite len_cons. pose proof (len_nonneg l). lia. Qed.

Lemma is_empty_spec {A} (l : list A) : is_empty l = true <-> l = [].
Proof. destruct l; split; done. Qed.

Lemma is_empty_false_len {A} (l : list A) : is_empty l = false -> 0 < len l.
Proof. destruct l; [done|]. rewrite len_cons. pose proof (len_nonneg l). lia. Qed.

Lemma length_to_be_bytes n x : length (to_be_bytes n x) = n.
Proof. induction n; cbn; [done | by rewrite IHn]. Qed.

Lemma len_to_be_bytes n x : len (to_be_bytes n x) = Z.of_nat n.
Proof. unfold len. by rewrite length_to_be_bytes. Qed.

Lemma to_be_bytes_ok n x : bytes_ok (to_be_bytes n x).
Proof.
  induction n; cbn; constructor; [|done].
  unfold is_u8. pose proof (Z.mod_pos_bound (x / 256 ^ Z.of_nat n) 256). lia.
Qed.

Lemma from_be_bytes_acc l a :
  fold_left (fun acc b => acc * 256 + b) l a = a * 256 ^ len l + from_be_bytes l.
Proof.
  unfold from_be_bytes. revert a. induction l as [|b l IH]; intros a; cbn [fold_left].
  - rewrite len_nil. lia.
  - rewrite IH, (IH (0 * 256 + b)), len_cons, Z.pow_add_r by (pose proof (len_nonneg l); lia).
    lia.
Qed.

Lemma from_be_bytes_cons b l : from_be_bytes (b :: l) = b * 256 ^ len l + from_be_bytes l.
Proof. unfold from_be_bytes at 1. cbn [fold_left]. by rewrite from_be_bytes_acc. Qed.

Lemma from_be_bytes_bound l : bytes_ok l -> 0 <= from_be_bytes l < 256 ^ len l.
Proof.
  induction 1 as [|b l Hb _ IH]; [vm_compute; split; congruence|].
  rewrite from_be_bytes_cons, len_cons, Z.pow_add_r by (pose proof (len_nonneg l); lia).
  unfold is_u8 in Hb. nia.
Qed.

Lemma from_be_bytes_u16 a b : is_u8 a -> is_u8 b -> is_u16 (from_be_bytes [a; b]).
Proof.
  intros. apply (from_be_bytes_bound [a; b]). repeat (apply List.Forall_cons; [done|]); apply List.Forall_nil.
Qed.

Lemma from_be_bytes_u32 a b c d :
  is_u8 a -> is_u8 b -> is_u8 c -> is_u8 d -> is_u32 (from_be_bytes [a; b; c; d]).
Proof.
  intros. apply (from_be_bytes_bound [a; b; c; d]). repeat (apply List.Forall_cons; [done|]); apply List.Forall_nil.
Qed.

Lemma from_to_be_bytes n x : from_be_bytes (to_be_bytes n x) = x mod 256 ^ Z.of_nat n.
Proof.
  induction n as [|n IH]; cbn [to_be_bytes].
  - cbn. by rewrite Z.mod_1_r.
  - rewrite from_be_bytes_cons, IH, len_to_be_bytes.
    replace (Z.of_nat (S n)) with (Z.of_nat n + 1) by lia.
    rewrite Z.pow_add_r, Z.pow_1_r by lia.
    rewrite (Z.rem_mul_r x (256 ^ Z.of_nat n) 256) by (try apply Z.pow_nonzero; lia).
    ring.
Qed.

Lemma from_to_be_bytes_id n x :
  0 <= x < 256 ^ Z.of_nat n -> from_be_bytes (to_be_bytes n x) = x.
Proof. intros. by rewrite from_to_be_bytes, Z.mod_small. Qed.

Lemma to_be_bytes_mod n x y :
  x mod 256 ^ Z.of_nat n = y mod 256 ^ Z.of_nat n -> to_be_bytes n x = to_be_bytes n y.
Proof.
  revert x y. induction n as [|n IH]; intros x y; [done|]. cbn [to_be_bytes].
  replace (Z.of_nat (S n)) with (Z.of_nat n + 1) by lia.
  rewrite Z.pow_add_r, Z.pow_1_r by lia.
  rewrite !(Z.rem_mul_r _ (256 ^ Z.of_nat n) 256) by (try apply Z.pow_nonzero; lia).
  intros H.
  assert (0 < 256 ^ Z.of_nat n) by (apply Z.pow_pos_nonneg; lia).
  pose proof (Z.mod_pos_bound x (256 ^ Z.of_nat n) ltac:(done)).
  pose proof (Z.mod_pos_bound y (256 ^ Z.of_nat n) ltac:(done)).
  destruct (Z.div_mod_unique (256 ^ Z.of_nat n)
    ((x / 256 ^ Z.of_nat n) mod 256) ((y / 256 ^ Z.of_nat n) mod 256)
    (x mod 256 ^ Z.of_nat n) (y mod 256 ^ Z.of_nat n)) as [-> ?]; [lia..|].
  f_equal. by apply IH.
Qed.

Lemma to_from_be_bytes l : bytes_ok l -> to_be_bytes (length l) (from_be_bytes l) = l.
Proof.
  induction 1 as [|b l Hb Hl IH]; [done|].
  cbn [length to_be_bytes]. rewrite from_be_bytes_cons. fold (len l).
  pose proof (from_be_bytes_bound l Hl) as Hf.
  rewrite Z.div_add_l by lia. rewrite (Z.div_small (from_be_bytes l)) by lia.
  unfold is_u8 in Hb. rewrite Z.add_0_r, Z.mod_small by lia. f_equal.
  transitivity (to_be_bytes (length l) (from_be_bytes l)); [|done].
  apply to_be_bytes_mod. fold (len l). by rewrite Z.add_comm, Z_mod_plus_full.
Qed.

Lemma bytes_ok_app l k : bytes_ok (l ++ k) <-> bytes_ok l /\ bytes_ok k.
Proof. apply Forall_app. Qed.

Lemma bytes_ok_sub_list l a b : bytes_ok l -> bytes_ok (sub_list l a b).
Proof. intros. by apply Forall_take, Forall_drop. Qed.

Lemma len_sub_list {A} (l : list A) a b :
  0 <= a -> a <= b -> b <= len l -> len (sub_list l a b) = b - a.
Proof. unfold len, sub_list. rewrite length_take, length_drop. lia. Qed.

Lemma sub_list_sub_list_gen {A} (l : list A) a b c d :
  0 <= a -> 0 <= c -> c <= d -> d <= b - a ->
  sub_list (sub_list l a b) c d = sub_list l (a + c) (a + d).
Proof.
  intros. unfold sub_list. rewrite skipn_firstn_comm, take_take, drop_drop.
  f_equal; [lia|]. f_equal. lia.
Qed.

Lemma sub_list_sub_list {A} (l : list A) a b c :
  0 <= a -> 0 <= c -> c <= b - a ->
  sub_list (sub_list l a b) c (b - a) = sub_list l (a + c) b.
Proof. intros. rewrite sub_list_sub_list_gen by lia. f_equal. lia. Qed.

Lemma index_ok {E A} (l : list A) i :
  0 <= i < len l -> exists x, @index E A l i = Ok x /\ l !! Z.to_nat i = Some x.
Proof.
  intros H. unfold index. replace (0 <=? i) with true by lia.
  destruct (lookup_lt_is_Some_2 l (Z.to_nat i)) as [x Hx]; [unfold len in H; lia|].
  rewrite Hx. eauto.
Qed.

Lemma index_Ok_inv {E A} (l : list A) i x :
  @index E A l i = Ok x -> 0 <= i < len l /\ l !! Z.to_nat i = Some x.
Proof.
  unfold index. destruct (0 <=? i) eqn:Hi; [|done].
  destruct (l !! Z.to_nat i) eqn:Hl; [|done]. intros [= ->].
  apply lookup_lt_Some in Hl as ?. unfold len. split; [lia|done].
Qed.

Lemma slice_ok {E A} (l : list A) a b :
  0 <= a -> a <= b -> b <= len l -> @slice E A l a b = Ok (sub_list l a b).
Proof. intros. unfold slice. by replace (_ && _ && _) with true by lia. Qed.

Lemma bytes_ok_lookup l i x : bytes_ok l -> l !! i = Some x -> is_u8 x.
Proof. intros. by eapply Forall_lookup_1. Qed.

Lemma get_range_Some {A} (l : list A) a b k :
  get_range l a b = Some k -> 0 <= a <= b /\ b <= len l /\ k = sub_list l a b.
Proof.
  unfold get_range. destruct (_ && _ && _) eqn:H; [|done]. intros [= <-]. split_and!; try lia; done.
Qed.

Lemma get_index_Some {A} (l : list A) i x :
  get_index l i = Some x -> 0 <= i < len l /\ l !! Z.to_nat i = Some x.
Proof.
  unfold get_index. destruct (0 <=? i) eqn:Hi; [|done]. intros H.
  apply lookup_lt_Some in H as ?. unfold len. split; [lia|done].
Qed.

Lemma sub_list_app_mid {A} (pre mid post : list A) a b :
  a = len pre -> b = len pre + len mid -> sub_list (pre ++ mid ++ post) a b = mid.
Proof.
  intros -> ->. unfold sub_list, len. rewrite !Nat2Z.id.
  rewrite drop_app_length. replace (Z.to_nat _) with (length mid) by lia.
  apply take_app_length.
Qed.

Lemma get_range_app_mid {A} (pre mid post : list A) a b :
  a = len pre -> b = len pre + len mid -> get_range (pre ++ mid ++ post) a b = Some mid.
Proof.
  intros Ha Hb. unfold get_range. rewrite sub_list_app_mid by done.
  pose proof (len_nonneg pre). pose proof (len_nonneg mid). pose proof (len_nonneg post).
  rewrite !len_app. by replace (_ && _ && _) with true by lia.
Qed.

Lemma get_index_app_mid {A} (pre post : list A) x a :
  a = len pre -> get_index (pre ++ x :: post) a = Some x.
Proof.
  intros ->. unfold get_index. pose proof (len_nonneg pre).
  replace (0 <=? len pre) with true by lia. unfold len. rewrite Nat2Z.id.
  by apply list_lookup_middle.
Qed.

Lemma sub_list_app_end {A} (pre mid : list A) a b :
  a = len pre -> b = len pre + len mid -> sub_list (pre ++ mid) a b = mid.
Proof. rewrite <- (app_nil_r mid) at 2. apply sub_list_app_mid. Qed.

(** Accesses to a buffer whose front part is known. *)
Lemma index_app_pre {E A} (pre tl : list A) i :
  0 <= i < len pre -> @index E A (pre ++ tl) i = index pre i.
Proof.
  intros Hi. unfold index. rewrite lookup_app_l by (unfold len in Hi; lia). done.
Qed.

Lemma slice_app_tail {E A} (pre tl : list A) a b :
  a = len pre -> b = len pre + len tl -> @slice E A (pre ++ tl) a b = Ok tl.
Proof.
  intros -> ->. pose proof (len_nonneg pre). pose proof (len_nonneg tl).
  rewrite slice_ok by (rewrite ?len_app; lia). f_equal. by apply sub_list_app_end.
Qed.

Lemma slice_app_pre {E A} (pre tl : list A) a b :
  0 <= a -> a <= b -> b <= len pre -> @slice E A (pre ++ tl) a b = Ok (sub_list pre a b).
Proof.
  intros. pose proof (len_nonneg tl). rewrite slice_ok by (rewrite ?len_app; lia). f_equal.
  unfold sub_list, len in *. rewrite drop_app_le, take_app_le; rewrite ?length_drop; try lia. done.
Qed.

Lemma copy_range_app {E} (pre tl src pre' : list Z) a b :
  (0 <=? a) && (a <=? b) && (b <=? len pre) && (len src =? b - a) = true ->
  take (Z.to_nat a) pre ++ src ++ drop (Z.to_nat b) pre = pre' ->
  @copy_range E (pre ++ tl) a b src = Ok (pre' ++ tl).
Proof.
  intros H <-. bools. unfold copy_range. rewrite len_app. pose proof (len_nonneg tl).
  replace (_ && _ && _ && _) with true by lia. f_equal. unfold len in *.
  rewrite take_app_le, drop_app_le by lia. by rewrite <- !app_assoc.
Qed.

Lemma copy_range_tail {E} (pre tl src : list Z) a b :
  a = len pre -> b = len pre + len tl -> len tl = len src ->
  @copy_range E (pre ++ tl) a b src = Ok (pre ++ src).
Proof.
  intros -> -> H. unfold copy_range. rewrite len_app.
  pose proof (len_nonneg pre). pose proof (len_nonneg tl).
  replace (_ && _ && _ && _) with true by lia. f_equal. unfold len in *.
  rewrite Nat2Z.id, take_app_length.
  rewrite drop_ge by (rewrite length_app; lia). by rewrite app_nil_r.
Qed.

Lemma set_index_app {E} (pre tl pre' : list Z) i x :
  (0 <=? i) && (i <? len pre) = true -> <[Z.to_nat i := x]> pre = pre' ->
  @set_index E (pre ++ tl) i x = Ok (pre' ++ tl).
Proof.
  intros H <-. bools. unfold set_index. rewrite len_app. pose proof (len_nonneg tl).
  replace (_ && _) with true by lia. f_equal. unfold len in *.
  rewrite insert_app_l by lia. done.
Qed.

Lemma zeroed_add n m : 0 <= n -> 0 <= m -> zeroed (n + m) = zeroed n ++ zeroed m.
Proof. intros. unfold zeroed. rewrite Z2Nat.inj_add by lia. apply replicate_add. Qed.

Lemma len_zeroed n : 0 <= n -> len (zeroed n) = n.
Proof. intros. unfold len, zeroed. rewrite length_replicate. lia. Qed.

(** The bytes of an integer, one by one. *)
Lemma to_be_bytes_2_ex x : exists a b, to_be_bytes 2 x = [a; b].
Proof. cbn [to_be_bytes]. eauto. Qed.

Lemma to_be_bytes_4_ex x : exists a b c d, to_be_bytes 4 x = [a; b; c; d].
Proof. cbn [to_be_bytes]. eauto. Qed.

Lemma to_be_bytes_16_ex x : exists a0 a1 a2 a3 a4 a5 a6 a7 b0 b1 b2 b3 b4 b5 b6 b7,
  to_be_bytes 16 x = [a0; a1; a2; a3; a4; a5; a6; a7; b0; b1; b2; b3; b4; b5; b6; b7].
Proof. cbn [to_be_bytes]. eauto 20. Qed.

Lemma result_bind_Ok {E A B} (m : result E A) (k : A -> result E B) b :
  result_bind m k = Ok b -> exists a, m = Ok a /\ k a = Ok b.
Proof. destruct m; cbn; eauto; done. Qed.

(** ** Rules for [returns] *)

Lemma returns_bind {E A B} (m : result E A) (k : A -> result E B) P Q :
  returns m P -> (forall a, P a -> returns (k a) Q) -> returns (result_bind m k) Q.
Proof. destruct m; cbn; auto. Qed.

Lemma returns_mono {E A} (m : result E A) (P Q : A -> Prop) :
  returns m P -> (forall a, P a -> Q a) -> returns m Q.
Proof. destruct m; cbn; auto. Qed.

Lemma returns_index {E} (l : list Z) i :
  bytes_ok l -> 0 <= i < len l -> returns (@index E Z l i) is_u8.
Proof.
  intros Hok Hi. destruct (@index_ok E Z l i Hi) as (x & -> & Hx). cbn.
  by eapply bytes_ok_lookup.
Qed.

Lemma returns_slice {E A} (l : list A) a b :
  0 <= a -> a <= b -> b <= len l ->
  returns (@slice E A l a b) (fun k => k = sub_list l a b).
Proof. intros. by rewrite slice_ok. Qed.

Lemma returns_Ok {E A} (m : result E A) Q a : returns m Q -> m = Ok a -> Q a.
Proof. by intros H ->. Qed.

Lemma returns_no_panic {E A} (m : result E A) Q : returns m Q -> m <> Panic.
Proof. by intros H ->. Qed.

(** ** Lemmas on the state-and-error monad *)

Lemma sm_bind_Ok {S E A B} (m : SM S E A) (k : A -> SM S E B) s s' b :
  sm_bind m k s = (s', Ok b) <-> exists s1 a, m s = (s1, Ok a) /\ k a s1 = (s', Ok b).
Proof.
  unfold sm_bind. destruct (m s) as [s1 [a| |]]; split; try done;
    try (by intros (? & ? & [= ] & _)).
  - intros H. by exists s1, a.
  - by intros (? & ? & [= <- <-] & H).
Qed.

Lemma sm_lift_Ok {S E A} (r : result E A) (s s' : S) a :
  sm_lift r s = (s', Ok a) <-> s' = s /\ r = Ok a.
Proof. unfold sm_lift. split; [by intros [= -> ->]|by intros [-> ->]]. Qed.

Lemma sm_ret_Ok {S E A} (b : A) (s s' : S) a :
  @sm_ret S E A b s = (s', Ok a) <-> s' = s /\ a = b.
Proof. unfold sm_ret. split; [by intros [= -> ->]|by intros [-> ->]]. Qed.

(** ** Safe computations *)

(** From a state satisfying [I] the computation does not panic, leaves [I], and
    returns a value satisfying [Q] in the state it leaves. *)
Definition safe {S E A} (I : S -> Prop) (m : SM S E A) (Q : A -> S -> Prop) : Prop :=
  forall s, I s -> I (fst (m s)) /\
    match snd (m s) with
    | Ok a => Q a (fst (m s))
    | Err _ => True
    | Panic => False
    end.

Section Safe.
Context {S E : Type} (I : S -> Prop).

Lemma safe_ret {A} (a : A) : safe I (@sm_ret S E A a) (fun b _ => b = a).
Proof. intros s Hs. done. Qed.

Lemma safe_mono {A} (m : SM S E A) (P Q : A -> S -> Prop) :
  safe I m P -> (forall a s, I s -> P a s -> Q a s) -> safe I m Q.
Proof.
  intros Hm H s Hs. destruct (Hm s Hs) as [HI Hr]. split; [done|].
  destruct (m s) as [s' [a| |]]; cbn in *; auto.
Qed.

Lemma safe_bind {A B} (m : SM S E A) (k : A -> SM S E B) P Q :
  safe I m (fun a _ => P a) -> (forall a, P a -> safe I (k a) Q) -> safe I (sm_bind m k) Q.
Proof.
  intros Hm Hk s Hs. unfold sm_bind. destruct (Hm s Hs) as [HI Hr].
  destruct (m s) as [s' [a| |]]; cbn in *; [|done..]. by apply Hk.
Qed.

Lemma safe_lift {A} (r : result E A) (Q : A -> Prop) :
  returns r Q -> safe I (sm_lift r) (fun a _ => Q a).
Proof. intros Hr s Hs. split; [done|]. by destruct r. Qed.

Lemma safe_zoom {S' F A} (get : S -> S') put (f : F -> E) (m : SM S' F A) (Q : A -> Prop) :
  (forall s, I s -> I (put (fst (m (get s))) s) /\ returns (snd (m (get s))) Q) ->
  safe I (sm_zoom get put f m) (fun a _ => Q a).
Proof.
  intros Hm s Hs. unfold sm_zoom. destruct (Hm s Hs) as [HI Hr].
  destruct (m (get s)) as [s' [a| |]]; cbn in *; done.
Qed.
End Safe.

(** ** Lemmas on strings *)

Lemma length_as_bytes s : length (as_bytes s) = String.length s.
Proof. induction s; cbn; [done|by f_equal]. Qed.

Lemma string_of_as_bytes s : string_of_bytes (as_bytes s) = s.
Proof.
  induction s as [|a s IH]; [done|]. cbn. rewrite IH. f_equal.
  unfold ascii_of_byte, byte_of_ascii. by rewrite N2Z.id, Ascii.ascii_N_embedding.
Qed.

Lemma as_bytes_of_string l : bytes_ok l -> as_bytes (string_of_bytes l) = l.
Proof.
  induction 1 as [|b l Hb Hl IH]; [done|]. cbn. rewrite IH. f_equal.
  unfold byte_of_ascii, ascii_of_byte. unfold is_u8 in Hb.
  rewrite Ascii.N_ascii_embedding by lia. lia.
Qed.

Lemma as_bytes_ok s : bytes_ok (as_bytes s).
Proof.
  induction s as [|a s IH]; [apply List.Forall_nil|]. apply List.Forall_cons; [|done].
  unfold is_u8, byte_of_ascii. pose proof (Ascii.N_ascii_bounded a). lia.
Qed.

Lemma lower_ascii_idem a : lower_ascii (lower_ascii a) = lower_ascii a.
Proof. destruct a as [[] [] [] [] [] [] [] []]; reflexivity. Qed.

Lemma to_ascii_lowercase_idem s :
  to_ascii_lowercase (to_ascii_lowercase s) = to_ascii_lowercase s.
Proof. induction s; cbn; [done|]. by rewrite lower_ascii_idem, IHs. Qed.

(** ** Automation of the development *)

Create HintDb keli.

#[export] Hint Resolve len_nonneg to_be_bytes_ok bytes_ok_sub_list : keli.

(** A successful run of the [result] monad, taken apart bind by bind. *)
Ltac inv_ok :=
  repeat match goal with
  | H : result_bind _ _ = Ok _ |- _ =>
      let a := fresh "a" in let Ha := fresh "Hok" in
      apply result_bind_Ok in H; destruct H as (a & Ha & H)
  | H : Ok _ = Ok _ |- _ => injection H as H
  | H : Err _ = Ok _ |- _ => discriminate H
  | H : Panic = Ok _ |- _ => discriminate H
  end.

(** One step of a [returns] goal: an access in bounds, a guard of the code. *)
Ltac ret_index x H :=
  eapply returns_bind; [apply returns_index; [done|lia] | intros x H; cbn beta].

Ltac ret_slice :=
  eapply returns_bind; [apply returns_slice; lia | intros ? ->; cbn beta].

Ltac ret_guard :=
  match goal with
  | |- returns (if ?c then Err _ else _) _ => destruct c eqn:?; [exact I|]
  end.
