(* ===== verification/StdNet.v ===== *)
(** * Internet addresses of the standard library

    [std::net::{IpAddr, Ipv4Addr, Ipv6Addr, SocketAddr}] as the crates use them:
    an IPv4 address is its 32-bit value, an IPv6 address its 128-bit value;
    [octets], the [Display] text ([to_string]) and the [FromStr] parser
    ([parse::<IpAddr>]). The parser follows the standard library's recursive
    descent (four decimal octets without leading zeros, or up to eight groups
    of at most four hexadecimal digits with one [::] and an optional trailing
    IPv4 part), and accepts only when the whole text is consumed. *)

From Stdlib Require Import Ascii.
From stdpp Require Import base gmap strings list countable numbers.
From S2P Require Import Prelude.
#[local] Open Scope Z_scope.

Inductive IpAddr : Type :=
| V4 (a : Z)
| V6 (a : Z).

Record SocketAddr : Type := mkSocketAddr { sa_ip : IpAddr; sa_port : Z }.

#[export] Instance IpAddr_eq_dec : EqDecision IpAddr.
Proof. solve_decision. Defined.

#[export] Instance SocketAddr_eq_dec : EqDecision SocketAddr.
Proof. solve_decision. Defined.

Definition ip_to_sum (ip : IpAddr) : Z + Z :=
  match ip with V4 a => inl a | V6 a => inr a end.

Definition ip_of_sum (s : Z + Z) : IpAddr :=
  match s with inl a => V4 a | inr a => V6 a end.

#[export] Instance IpAddr_countable : Countable IpAddr.
Proof. refine (inj_countable' ip_to_sum ip_of_sum _). by intros []. Defined.

Definition is_ipv4 (ip : IpAddr) : bool := match ip with V4 _ => true | V6 _ => false end.
Definition is_ipv6 (ip : IpAddr) : bool := match ip with V4 _ => false | V6 _ => true end.

Definition ip_ok (ip : IpAddr) : Prop :=
  match ip with V4 a => 0 <= a < 2 ^ 32 | V6 a => 0 <= a < 2 ^ 128 end.

(** [Ipv4Addr::octets], [Ipv6Addr::octets]. *)
Definition v4_octets (a : Z) : list Z := to_be_bytes 4 a.
Definition v6_octets (a : Z) : list Z := to_be_bytes 16 a.

Definition ipv4_localhost : Z := 2130706433.
Definition ipv6_localhost : Z := 1.

(** ** [Display] *)

Definition digit_char (d : Z) : Ascii.ascii :=
  if d <? 10 then ascii_of_byte (48 + d) else ascii_of_byte (87 + d).

(** The digits of [n] in [base]; 128 rounds exhaust every integer the code
    prints. *)
Fixpoint digits_acc (fuel : nat) (base n : Z) (acc : string) : string :=
  match fuel with
  | O => acc
  | S fuel' =>
      let acc' := String (digit_char (n mod base)) acc in
      if n / base =? 0 then acc' else digits_acc fuel' base (n / base) acc'
  end.

Definition to_decimal (n : Z) : string := digits_acc 128 10 n EmptyString.
Definition to_hex (n : Z) : string := digits_acc 128 16 n EmptyString.

Definition v4_to_string (a : Z) : string := join "." (map to_decimal (v4_octets a)).

(** [Ipv6Addr::segments]. *)
Fixpoint pair_up (l : list Z) : list Z :=
  match l with
  | a :: b :: l' => (a * 256 + b) :: pair_up l'
  | _ => []
  end.

Definition v6_segments (a : Z) : list Z := pair_up (v6_octets a).

(** The first longest run of zero segments, as (start, length). *)
Fixpoint longest_zeroes (i : nat) (segs : list Z) (longest current : nat * nat) : nat * nat :=
  match segs with
  | [] => longest
  | s :: segs' =>
      if s =? 0 then
        let current' := ((if (current.2 =? 0)%nat then i else current.1), S current.2) in
        longest_zeroes (S i) segs'
          (if (longest.2 <? current'.2)%nat then current' else longest) current'
      else longest_zeroes (S i) segs' longest (0%nat, 0%nat)
  end.

Definition fmt_subslice (segs : list Z) : string := join ":" (map to_hex segs).

Definition v6_to_string (a : Z) : string :=
  let segs := v6_segments a in
  if decide (take 6 segs = [0; 0; 0; 0; 0; 65535]) then
    "::ffff:" +:+ v4_to_string (a mod 2 ^ 32)
  else
    let zeroes := longest_zeroes 0 segs (0%nat, 0%nat) (0%nat, 0%nat) in
    if (1 <? zeroes.2)%nat then
      fmt_subslice (take zeroes.1 segs) +:+ "::" +:+
      fmt_subslice (drop (zeroes.1 + zeroes.2) segs)
    else fmt_subslice segs.

(** [IpAddr::to_string]. *)
Definition ip_to_string (ip : IpAddr) : string :=
  match ip with V4 a => v4_to_string a | V6 a => v6_to_string a end.

(** ** [FromStr]

    A reader takes the text that is left and gives a value with what follows
    it; [None] leaves the text where it was. *)

Definition to_digit (radix : Z) (c : Ascii.ascii) : option Z :=
  let b := byte_of_ascii c in
  let d := if in_range 48 57 b then Some (b - 48)
           else if in_range 97 122 b then Some (b - 87)
           else if in_range 65 90 b then Some (b - 55)
           else None in
  match d with
  | Some v => if v <? radix then Some v else None
  | None => None
  end.

Definition read_given_char (c : Ascii.ascii) (s : string) : option string :=
  match s with
  | String a s' => if Ascii.eqb a c then Some s' else None
  | EmptyString => None
  end.

(** The digit loop: the value, the number of digits and the rest; [None] as
    soon as there are more than [max_digits]. *)
Fixpoint read_digits (radix max_digits : Z) (value count : Z) (s : string)
  : option (Z * Z * string) :=
  match s with
  | String a s' =>
      match to_digit radix a with
      | Some d =>
          if max_digits <? count + 1 then None
          else read_digits radix max_digits (value * radix + d) (count + 1) s'
      | None => Some (value, count, s)
      end
  | EmptyString => Some (value, count, s)
  end.

Definition has_leading_zero (s : string) : bool :=
  match s with String a _ => Ascii.eqb a "0"%char | EmptyString => false end.

Definition read_number (radix max_digits limit : Z) (allow_zero_prefix : bool) (s : string)
  : option (Z * string) :=
  match read_digits radix max_digits 0 0 s with
  | Some (value, count, rest) =>
      if limit <? value then None
      else if count =? 0 then None
      else if negb allow_zero_prefix && has_leading_zero s && (1 <? count) then None
      else Some (value, rest)
  | None => None
  end.

Definition read_separator {A} (sep : Ascii.ascii) (i : nat)
  (inner : string -> option (A * string)) (s : string) : option (A * string) :=
  match i with
  | O => inner s
  | S _ => match read_given_char sep s with Some s' => inner s' | None => None end
  end.

Definition read_octet (i : nat) (s : string) : option (Z * string) :=
  read_separator "."%char i (read_number 10 3 255 false) s.

Definition read_ipv4_addr (s : string) : option (Z * string) :=
  match read_octet 0 s with
  | Some (a, s1) =>
      match read_octet 1 s1 with
      | Some (b, s2) =>
          match read_octet 2 s2 with
          | Some (c, s3) =>
              match read_octet 3 s3 with
              | Some (d, s4) => Some (from_be_bytes [a; b; c; d], s4)
              | None => None
              end
          | None => None
          end
      | None => None
      end
  | None => None
  end.

(** Groups from index [i]: the groups read, whether they end in an IPv4 part,
    and the rest. [left] is the number of slots left. *)
Fixpoint read_groups (left i : nat) (s : string) : list Z * bool * string :=
  match left with
  | O => ([], false, s)
  | S left' =>
      let v4 := if (0 <? left')%nat then read_separator ":"%char i read_ipv4_addr s else None in
      match v4 with
      | Some (a, s') => ([a / 65536; a mod 65536], true, s')
      | None =>
          match read_separator ":"%char i (read_number 16 4 65535 true) s with
          | Some (g, s') =>
              let '(gs, b, s'') := read_groups left' (S i) s' in (g :: gs, b, s'')
          | None => ([], false, s)
          end
      end
  end.

Definition from_segments (segs : list Z) : Z :=
  fold_left (fun acc g => acc * 65536 + g) segs 0.

Definition read_ipv6_addr (s : string) : option (Z * string) :=
  let '(head, head_ipv4, s1) := read_groups 8 0 s in
  if (length head =? 8)%nat then Some (from_segments head, s1)
  else if head_ipv4 then None
  else
    match read_given_char ":"%char s1 with
    | Some s2 =>
        match read_given_char ":"%char s2 with
        | Some s3 =>
            let '(tail, _, s4) := read_groups (8 - (length head + 1)) 0 s3 in
            Some (from_segments
                    (head ++ replicate (8 - length head - length tail) 0 ++ tail), s4)
        | None => None
        end
    | None => None
    end.

(** [s.parse::<IpAddr>().ok()]. *)
Definition parse_ip_addr (s : string) : option IpAddr :=
  let whole {A} (r : option (A * string)) : option A :=
    match r with Some (a, EmptyString) => Some a | _ => None end in
  match read_ipv4_addr s with
  | Some (a, rest) => if String.eqb rest "" then Some (V4 a) else None
  | None =>
      match whole (read_ipv6_addr s) with Some a => Some (V6 a) | None => None end
  end.

(** [s.parse::<Ipv4Addr>().ok()], [s.parse::<Ipv6Addr>().ok()]. *)
Definition parse_ipv4 (s : string) : option Z :=
  match read_ipv4_addr s with Some (a, EmptyString) => Some a | _ => None end.

Definition parse_ipv6 (s : string) : option Z :=
  match read_ipv6_addr s with Some (a, EmptyString) => Some a | _ => None end.

(** [s.parse::<u16>().ok()]: an optional plus sign and decimal digits, without limit on
    their number, of a value below 2^16. *)
Fixpoint decimal_value (value : Z) (s : string) : option Z :=
  match s with
  | EmptyString => Some value
  | String a s' =>
      match to_digit 10 a with
      | Some d => if u16_max <? value * 10 + d then None else decimal_value (value * 10 + d) s'
      | None => None
      end
  end.

Definition parse_u16 (s : string) : option Z :=
  let digits := match s with String "+"%char s' => s' | _ => s end in
  if String.eqb digits "" then None else decimal_value 0 digits.

(** ** The IPv4 text round trip *)

Lemma ip_to_string_samples :
  ip_to_string (V4 3232235818) = "192.168.1.42" /\
  ip_to_string (V6 1) = "::1" /\
  ip_to_string (V6 42540766411282592856903984951653826560) = "2001:db8::" /\
  ip_to_string (V6 281473913979178) = "::ffff:192.168.1.42" /\
  parse_ip_addr "::" = Some (V6 0) /\
  parse_ip_addr "2001:DB8::8:800:200c:417a" =
    Some (V6 42540766411282592856906245548098208122) /\
  parse_ip_addr "::ffff:192.168.1.42" = Some (V6 281473913979178) /\
  parse_ip_addr "192.168.01.42" = None /\
  parse_ip_addr "1.2.3.4.5" = None /\
  parse_ip_addr "example.com" = None.
Proof. vm_compute. split_and!; reflexivity. Qed.

(** A decimal octet is read back up to the next separator. *)
Definition stops_number (s : string) : bool :=
  match s with
  | EmptyString => true
  | String a _ => match to_digit 10 a with Some _ => false | None => true end
  end.

Lemma read_digits_stop max v c s :
  stops_number s = true -> read_digits 10 max v c s = Some (v, c, s).
Proof.
  destruct s as [|a s]; [done|]. cbn [stops_number read_digits].
  by destruct (to_digit 10 a).
Qed.

Lemma read_digits_app max v c v' c' s t :
  read_digits 10 max v c s = Some (v', c', "") ->
  stops_number t = true ->
  read_digits 10 max v c (s +:+ t) = Some (v', c', t).
Proof.
  revert v c. induction s as [|a s IH]; intros v c H Ht.
  - injection H as -> ->. by apply read_digits_stop.
  - change (String a s +:+ t) with (String a (s +:+ t)). cbn [read_digits] in *.
    destruct (to_digit 10 a); [|done]. destruct (max <? c + 1); [done|]. by apply IH.
Qed.

Definition octet_reads_back (n : nat) : bool :=
  let b := Z.of_nat n in
  match read_digits 10 3 0 0 (to_decimal b) with
  | Some (v, c, EmptyString) =>
      (v =? b) && (0 <? c) && (c <=? 3) &&
      negb (has_leading_zero (to_decimal b) && (1 <? c)) &&
      negb (String.eqb (to_decimal b) "")
  | _ => false
  end.

Lemma octets_read_back : forallb octet_reads_back (seq 0 256) = true.
Proof. vm_compute. reflexivity. Qed.

Lemma has_leading_zero_app s t : s <> "" -> has_leading_zero (s +:+ t) = has_leading_zero s.
Proof. by destruct s. Qed.

Lemma read_number_octet b t :
  is_u8 b -> stops_number t = true ->
  read_number 10 3 255 false (to_decimal b +:+ t) = Some (b, t).
Proof.
  intros Hb Ht.
  pose proof octets_read_back as Hall. rewrite forallb_forall in Hall.
  specialize (Hall (Z.to_nat b)). unfold is_u8 in Hb.
  rewrite in_seq in Hall. specialize (Hall ltac:(lia)).
  unfold octet_reads_back in Hall. rewrite Z2Nat.id in Hall by lia.
  destruct (read_digits 10 3 0 0 (to_decimal b)) as [[[v c] [|]]|] eqn:Hr; try done.
  bools. apply Z.eqb_eq in H as ->.
  unfold read_number. rewrite (read_digits_app _ _ _ _ _ _ _ Hr Ht).
  replace (255 <? b) with false by lia. replace (c =? 0) with false by lia.
  cbn [negb andb]. rewrite has_leading_zero_app; [|intros Hs; rewrite Hs in *; done].
  by rewrite H1.
Qed.

Lemma read_octet_S i b t :
  is_u8 b -> stops_number t = true ->
  read_octet (S i) ("." +:+ to_decimal b +:+ t) = Some (b, t).
Proof. intros. by apply read_number_octet. Qed.

Lemma read_octet_O b t :
  is_u8 b -> stops_number t = true -> read_octet 0 (to_decimal b +:+ t) = Some (b, t).
Proof. intros. by apply read_number_octet. Qed.

Lemma string_app_nil_r s : s +:+ "" = s.
Proof. induction s as [|a s IH]; [done|]. change (String a (s +:+ "") = String a s). by rewrite IH. Qed.

Lemma read_ipv4_to_string a :
  0 <= a < 2 ^ 32 -> read_ipv4_addr (v4_to_string a) = Some (a, "").
Proof.
  intros Ha. unfold v4_to_string, v4_octets.
  pose proof (to_be_bytes_ok 4 a) as Hok.
  pose proof (from_to_be_bytes_id 4 a Ha) as Hfrom.
  destruct (to_be_bytes 4 a) as [|b0 [|b1 [|b2 [|b3 [|]]]]] eqn:Hl;
    try (apply (f_equal length) in Hl; rewrite length_to_be_bytes in Hl; done).
  unfold bytes_ok in Hok. rewrite List.Forall_forall in Hok.
  assert (is_u8 b0 /\ is_u8 b1 /\ is_u8 b2 /\ is_u8 b3) as (? & ? & ? & ?)
    by (split_and!; apply Hok; cbn; tauto).
  unfold join. cbn [map String.concat]. rewrite <- (string_app_nil_r (to_decimal b3)).
  unfold read_ipv4_addr. rewrite read_octet_O by done.
  rewrite !read_octet_S by done.
  by rewrite Hfrom.
Qed.

Lemma parse_v4_to_string a :
  0 <= a < 2 ^ 32 -> parse_ip_addr (ip_to_string (V4 a)) = Some (V4 a).
Proof. intros Ha. unfold parse_ip_addr. cbn [ip_to_string]. by rewrite read_ipv4_to_string. Qed.
