(* ===== verification/StdIo.v ===== *)
(** * Streams and text of the standard library

    What the stream parsers use of [std::io] and [str]: errors with their kind,
    the traits [Read] and [Write] as classes, a pipe as their instance, and the
    text functions that look at Unicode white space. *)

From Stdlib Require Import Ascii.
From stdpp Require Import base strings list numbers.
From S2P Require Import Prelude.
#[local] Open Scope Z_scope.

(** ** Errors *)

(** The kinds of [io::ErrorKind] that the code distinguishes. *)
Inductive ErrorKind : Type :=
| UnexpectedEof
| InvalidData
| WouldBlock
| TimedOut
| Interrupted
| WriteZero
| ConnectionRefusedKind
| AddrNotAvailable
| NotFound
| Unsupported
| InvalidInput
| PermissionDenied
| BrokenPipe
| ConnectionReset
| ConnectionAborted
| OtherKind.

#[export] Instance ErrorKind_eq_dec : EqDecision ErrorKind.
Proof. solve_decision. Defined.

Record IoError : Type := mkIoError {
  io_kind : ErrorKind;
  io_message : string
}.

(** ** Streams *)

(** [reader.read_exact(&mut buffer)] on a zeroed buffer of the given length: the
    buffer filled, or the error that stopped it; what was read before the error is
    lost. *)
Class Read (S : Type) := {
  read_exact : Z -> SM S IoError (list Z)
}.

(** [writer.write_all(bytes)] and [writer.flush()]. *)
Class Write (S : Type) := {
  write_all : list Z -> SM S IoError unit;
  flush : SM S IoError unit
}.

(** A stream at one moment: the bytes that have arrived, what a read past them
    meets (the end of the stream, or no data yet on a non-blocking stream), and the
    bytes written so far. *)
Record Pipe : Type := mkPipe {
  incoming : list Z;
  at_end : IoError;
  outgoing : list Z
}.

(** [read_exact] of a stream that has ended. *)
Definition end_of_stream : IoError := mkIoError UnexpectedEof "failed to fill whole buffer".

(** [read_exact] of a non-blocking stream without data. *)
Definition no_data_yet : IoError := mkIoError WouldBlock "operation would block".

#[export] Instance Pipe_read : Read Pipe := {
  read_exact n p :=
    if n <=? len (incoming p)
    then (mkPipe (drop (Z.to_nat n) (incoming p)) (at_end p) (outgoing p),
          Ok (take (Z.to_nat n) (incoming p)))
    else (mkPipe [] (at_end p) (outgoing p), Err (at_end p))
}.

#[export] Instance Pipe_write : Write Pipe := {
  write_all bytes p := (mkPipe (incoming p) (at_end p) (outgoing p ++ bytes), Ok tt);
  flush p := (p, Ok tt)
}.

(** A read of bytes that have arrived. *)
Lemma pipe_read_exact (bytes rest : list Z) e out n :
  n = len bytes ->
  read_exact n (mkPipe (bytes ++ rest) e out) = (mkPipe rest e out, Ok bytes).
Proof.
  intros ->. unfold read_exact, Pipe_read; cbn [incoming at_end outgoing].
  rewrite len_app. pose proof (len_nonneg rest). replace (_ <=? _) with true by lia.
  unfold len. rewrite Nat2Z.id. by rewrite drop_app_length, take_app_length.
Qed.

Lemma pipe_read_exact_inv n p p' bytes :
  0 <= n -> read_exact n p = (p', Ok bytes) ->
  incoming p = bytes ++ incoming p' /\ len bytes = n /\ at_end p' = at_end p /\
  outgoing p' = outgoing p.
Proof.
  intros Hn. unfold read_exact, Pipe_read.
  destruct (Z.leb_spec n (len (incoming p))) as [Hle|]; [|done].
  intros [= <- <-]. cbn. rewrite take_drop. split_and!; try done.
  unfold len in *. rewrite length_take. lia.
Qed.

Lemma pipe_read_exact_short n p :
  len (incoming p) < n ->
  read_exact n p = (mkPipe [] (at_end p) (outgoing p), Err (at_end p)).
Proof. intros H. unfold read_exact, Pipe_read. by replace (_ <=? _) with false by lia. Qed.

(** ** Streams consumed exactly *)

(** From [p] to [p'] exactly [bytes] were read. *)
Definition consumed (p : Pipe) (bytes : list Z) (p' : Pipe) : Prop :=
  incoming p = bytes ++ incoming p' /\ at_end p' = at_end p /\ outgoing p' = outgoing p.

Lemma consumed_pipe p bytes p' :
  consumed p bytes p' <-> p = mkPipe (bytes ++ incoming p') (at_end p') (outgoing p').
Proof.
  destruct p as [i e o], p' as [i' e' o']. unfold consumed. cbn. split.
  - by intros (-> & -> & ->).
  - by intros [= -> -> ->].
Qed.

Lemma consumed_app p l k p' p'' : consumed p l p' -> consumed p' k p'' -> consumed p (l ++ k) p''.
Proof.
  intros (H1 & H2 & H3) (K1 & K2 & K3). split_and!; [|congruence..]. by rewrite H1, K1, app_assoc.
Qed.

Lemma consumed_ok p bytes p' :
  bytes_ok (incoming p) -> consumed p bytes p' -> bytes_ok bytes /\ bytes_ok (incoming p').
Proof. intros Hok (H & _). rewrite H in Hok. by apply bytes_ok_app. Qed.

Lemma consumed_split p l k p'' :
  consumed p (l ++ k) p'' ->
  consumed p l (mkPipe (k ++ incoming p'') (at_end p'') (outgoing p'')) /\
  consumed (mkPipe (k ++ incoming p'') (at_end p'') (outgoing p'')) k p''.
Proof.
  intros (H & He & Ho). unfold consumed. cbn. rewrite <- app_assoc in H. by rewrite H.
Qed.

(** ** White space *)

(** [char::is_whitespace], on the UTF-8 encodings of the characters with the
    property White_Space: one, two or three bytes. *)
Definition is_ws1 (b : Z) : bool := in_range 9 13 b || (b =? 32).

Definition is_ws2 (b0 b1 : Z) : bool := (b0 =? 194) && ((b1 =? 133) || (b1 =? 160)).

Definition is_ws3 (b0 b1 b2 : Z) : bool :=
  ((b0 =? 225) && (b1 =? 154) && (b2 =? 128))
  || ((b0 =? 226) && (b1 =? 128)
      && (in_range 128 138 b2 || (b2 =? 168) || (b2 =? 169) || (b2 =? 175)))
  || ((b0 =? 226) && (b1 =? 129) && (b2 =? 159))
  || ((b0 =? 227) && (b1 =? 128) && (b2 =? 128)).

(** [str.trim_start()] on the bytes. *)
Fixpoint trim_start (l : list Z) : list Z :=
  match l with
  | [] => []
  | b0 :: l1 =>
      if is_ws1 b0 then trim_start l1
      else
        match l1 with
        | [] => l
        | b1 :: l2 =>
            if is_ws2 b0 b1 then trim_start l2
            else
              match l2 with
              | [] => l
              | b2 :: l3 => if is_ws3 b0 b1 b2 then trim_start l3 else l
              end
        end
  end.

(** [str.trim_end()], on the reversed bytes. *)
Fixpoint trim_end_rev (l : list Z) : list Z :=
  match l with
  | [] => []
  | b0 :: l1 =>
      if is_ws1 b0 then trim_end_rev l1
      else
        match l1 with
        | [] => l
        | b1 :: l2 =>
            if is_ws2 b1 b0 then trim_end_rev l2
            else
              match l2 with
              | [] => l
              | b2 :: l3 => if is_ws3 b2 b1 b0 then trim_end_rev l3 else l
              end
        end
  end.

Definition trim_bytes (l : list Z) : list Z := rev (trim_end_rev (rev (trim_start l))).

(** [str.trim()]. *)
Definition trim (s : string) : string := string_of_bytes (trim_bytes (as_bytes s)).

(** [str.trim_start()]. *)
Definition trim_start_text (s : string) : string := string_of_bytes (trim_start (as_bytes s)).

(** ** Lines and separators *)

(** [str.split_once(c)] for a one-byte character. *)
Fixpoint split_once (c : Ascii.ascii) (s : string) : option (string * string) :=
  match s with
  | EmptyString => None
  | String a s' =>
      if Ascii.eqb a c then Some (EmptyString, s')
      else
        match split_once c s' with
        | Some (before, after) => Some (String a before, after)
        | None => None
        end
  end.

(** [str.rsplit_once(c)] for a one-byte character. *)
Fixpoint rsplit_once (c : Ascii.ascii) (s : string) : option (string * string) :=
  match s with
  | EmptyString => None
  | String a s' =>
      match rsplit_once c s' with
      | Some (before, after) => Some (String a before, after)
      | None => if Ascii.eqb a c then Some (EmptyString, s') else None
      end
  end.

(** [str.trim_matches(['[', ']'])]. *)
Definition is_bracket (a : Ascii.ascii) : bool :=
  Ascii.eqb a "["%char || Ascii.eqb a "]"%char.

Fixpoint trim_start_brackets (s : string) : string :=
  match s with
  | EmptyString => EmptyString
  | String a s' => if is_bracket a then trim_start_brackets s' else s
  end.

Fixpoint trim_end_brackets (s : string) : string :=
  match s with
  | EmptyString => EmptyString
  | String a s' =>
      match trim_end_brackets s' with
      | EmptyString => if is_bracket a then EmptyString else String a EmptyString
      | t => String a t
      end
  end.

Definition trim_brackets (s : string) : string := trim_end_brackets (trim_start_brackets s).

(** [str.split(c)] for a one-byte character. *)
Fixpoint split_on (c : Ascii.ascii) (s : string) : list string :=
  match s with
  | EmptyString => [EmptyString]
  | String a s' =>
      if Ascii.eqb a c then EmptyString :: split_on c s'
      else
        match split_on c s' with
        | part :: parts => String a part :: parts
        | [] => [String a EmptyString]
        end
  end.

Definition newline : Ascii.ascii := Ascii.ascii_of_nat 10.
Definition carriage_return : Ascii.ascii := Ascii.ascii_of_nat 13.

(** Carriage return and line feed. *)
Definition crlf : string := string_of_bytes [13; 10].

(** [line.strip_suffix('\r').unwrap_or(line)]. *)
Fixpoint strip_carriage_return (s : string) : string :=
  match s with
  | EmptyString => EmptyString
  | String a EmptyString => if Ascii.eqb a carriage_return then EmptyString else s
  | String a s' => String a (strip_carriage_return s')
  end.

(** [str.lines()]: a line ends in a line feed, which takes a carriage return before it
    along; what follows the last line feed is a line if it is not empty. *)
Fixpoint strip_ends (parts : list string) : list string :=
  match parts with
  | [] => []
  | [last] => if String.eqb last "" then [] else [last]
  | line :: parts' => strip_carriage_return line :: strip_ends parts'
  end.

Definition lines (s : string) : list string := strip_ends (split_on newline s).

(** [str.split("\r\n")]. *)
Fixpoint split_crlf (s : string) : list string :=
  match s with
  | EmptyString => [EmptyString]
  | String a s' =>
      match s' with
      | String b s'' =>
          if Ascii.eqb a carriage_return && Ascii.eqb b newline then EmptyString :: split_crlf s''
          else
            match split_crlf s' with
            | part :: parts => String a part :: parts
            | [] => [String a EmptyString]
            end
      | EmptyString => [s]
      end
  end.

(** [str.strip_prefix(prefix)]. *)
Fixpoint strip_prefix (prefix s : string) : option string :=
  match prefix, s with
  | EmptyString, _ => Some s
  | String a prefix', String b s' => if Ascii.eqb a b then strip_prefix prefix' s' else None
  | String _ _, EmptyString => None
  end.

(** [str.split_once(separator)] for a text. *)
Fixpoint split_once_text (separator s : string) : option (string * string) :=
  match strip_prefix separator s with
  | Some after => Some (EmptyString, after)
  | None =>
      match s with
      | EmptyString => None
      | String a s' =>
          match split_once_text separator s' with
          | Some (before, after) => Some (String a before, after)
          | None => None
          end
      end
  end.

(** [str.find(c)] for a one-byte character, and the text cut there: [(&s[..i], &s[i..])]. *)
Fixpoint cut_at (c : Ascii.ascii) (s : string) : option (string * string) :=
  match s with
  | EmptyString => None
  | String a s' =>
      if Ascii.eqb a c then Some (EmptyString, s)
      else
        match cut_at c s' with
        | Some (before, from) => Some (String a before, from)
        | None => None
        end
  end.

(** [str.split_whitespace()] on the bytes: [word] is the part of a word seen so far, in
    reverse. *)
Definition close_word (word : list Z) (words : list (list Z)) : list (list Z) :=
  if is_empty word then words else rev word :: words.

Fixpoint split_ws_bytes (l : list Z) (word : list Z) : list (list Z) :=
  match l with
  | [] => close_word word []
  | b0 :: l1 =>
      if is_ws1 b0 then close_word word (split_ws_bytes l1 [])
      else
        match l1 with
        | [] => close_word (b0 :: word) []
        | b1 :: l2 =>
            if is_ws2 b0 b1 then close_word word (split_ws_bytes l2 [])
            else
              match l2 with
              | [] => split_ws_bytes l1 (b0 :: word)
              | b2 :: l3 =>
                  if is_ws3 b0 b1 b2 then close_word word (split_ws_bytes l3 [])
                  else split_ws_bytes l1 (b0 :: word)
              end
        end
  end.

Definition split_whitespace (s : string) : list string :=
  map string_of_bytes (split_ws_bytes (as_bytes s) []).
