(* ===== verification/Route.v ===== *)
(** * The route engine

    [crates/keli-net-core/src/lib.rs]: destinations, CIDR blocks, matchers and
    the ordered rule list of [RouteEngine], with what its decisions mean: the
    first matching rule wins, a CIDR block matches by its leading bits, domain
    matchers ignore ASCII case and respect label boundaries. *)

From Stdlib Require Import Ascii.
From stdpp Require Import base gmap strings list numbers.
From S2P Require Import Prelude.
From S2P Require Import StdNet.
#[local] Open Scope Z_scope.

Inductive LocalInbound : Type :=
| Inbound_Mixed (listen : string) (port : Z)
| Inbound_Socks (listen : string) (port : Z)
| Inbound_Http (listen : string) (port : Z)
| Inbound_Tun (interface_name : option string).

Inductive RouteTarget : Type :=
| Target_Domain (domain : string)
| Target_Ip (ip : IpAddr).

Record RouteDestination : Type := mkRouteDestination {
  dest_target : RouteTarget;
  dest_port : Z
}.

Definition RouteDestination_new (target : RouteTarget) (port : Z) : RouteDestination :=
  mkRouteDestination target port.

Record RouteIpCidr : Type := mkRouteIpCidr {
  cidr_network : IpAddr;
  cidr_prefix_len : Z
}.

Inductive RouteCidrError : Type :=
| InvalidPrefixLength (network : IpAddr) (prefix_len : Z).

Definition ipv4_prefix_mask (prefix_len : Z) : Z :=
  if prefix_len =? 0 then 0
  else Z.shiftl (2 ^ 32 - 1) (32 - prefix_len) mod 2 ^ 32.

Definition ipv6_prefix_mask (prefix_len : Z) : Z :=
  if prefix_len =? 0 then 0
  else Z.shiftl (2 ^ 128 - 1) (128 - prefix_len) mod 2 ^ 128.

Definition mask_ip (ip : IpAddr) (prefix_len : Z) : IpAddr :=
  match ip with
  | V4 a => V4 (Z.land a (ipv4_prefix_mask prefix_len))
  | V6 a => V6 (Z.land a (ipv6_prefix_mask prefix_len))
  end.

Definition RouteIpCidr_new (network : IpAddr) (prefix_len : Z)
  : result RouteCidrError RouteIpCidr :=
  let max_prefix_len := match network with V4 _ => 32 | V6 _ => 128 end in
  if max_prefix_len <? prefix_len then Err (InvalidPrefixLength network prefix_len)
  else Ok (mkRouteIpCidr (mask_ip network prefix_len) prefix_len).

Definition RouteIpCidr_matches (self : RouteIpCidr) (ip : IpAddr) : bool :=
  match cidr_network self, ip with
  | V4 network, V4 a =>
      let mask := ipv4_prefix_mask (cidr_prefix_len self) in
      network =? Z.land a mask
  | V6 network, V6 a =>
      let mask := ipv6_prefix_mask (cidr_prefix_len self) in
      network =? Z.land a mask
  | _, _ => false
  end.

Inductive RouteAction : Type :=
| Route_Direct
| Route_Block
| Route_Outbound (tag : string)
| Route_HijackDns.

Inductive RouteMatcher : Type :=
| DomainExact (expected : string)
| DomainKeyword (expected : string)
| DomainSuffix (expected : string)
| IpExact (expected : IpAddr)
| IpCidr (cidr : RouteIpCidr)
| PortExact (expected : Z)
| PortRange (start_port end_port : Z).

Definition RouteMatcher_matches (self : RouteMatcher) (destination : RouteDestination) : bool :=
  match self, dest_target destination with
  | DomainExact expected, Target_Domain actual => eq_ignore_ascii_case expected actual
  | DomainKeyword expected, Target_Domain actual =>
      contains (to_ascii_lowercase actual) (to_ascii_lowercase expected)
  | DomainSuffix expected, Target_Domain actual =>
      let expected := trim_start_matches "."%char expected in
      eq_ignore_ascii_case actual expected
      || ends_with (to_ascii_lowercase actual) ("." +:+ to_ascii_lowercase expected)
  | IpExact expected, Target_Ip actual => bool_decide (expected = actual)
  | IpCidr cidr, Target_Ip actual => RouteIpCidr_matches cidr actual
  | PortExact expected, _ => dest_port destination =? expected
  | PortRange start_port end_port, _ =>
      (start_port <=? dest_port destination) && (dest_port destination <=? end_port)
  | _, _ => false
  end.

Record RouteRule : Type := mkRouteRule {
  rule_name : string;
  rule_matcher : RouteMatcher;
  rule_action : RouteAction
}.

Record RouteDecision : Type := mkRouteDecision {
  decision_action : RouteAction;
  decision_matched_rule : option string
}.

Record RouteEngine : Type := mkRouteEngine {
  engine_rules : list RouteRule;
  engine_default_action : RouteAction
}.

#[export] Instance RouteAction_eq_dec : EqDecision RouteAction.
Proof. solve_decision. Defined.

Definition RouteEngine_new (default_action : RouteAction) : RouteEngine :=
  mkRouteEngine [] default_action.

Definition RouteEngine_add_rule (self : RouteEngine) (rule : RouteRule) : RouteEngine :=
  mkRouteEngine (engine_rules self ++ [rule]) (engine_default_action self).

(** The [for] loop of [decide_destination] over the rules. *)
Fixpoint decide_rules (rules : list RouteRule) (default_action : RouteAction)
  (destination : RouteDestination) : RouteDecision :=
  match rules with
  | [] => mkRouteDecision default_action None
  | rule :: rules' =>
      if RouteMatcher_matches (rule_matcher rule) destination
      then mkRouteDecision (rule_action rule) (Some (rule_name rule))
      else decide_rules rules' default_action destination
  end.

Definition RouteEngine_decide_destination (self : RouteEngine)
  (destination : RouteDestination) : RouteDecision :=
  decide_rules (engine_rules self) (engine_default_action self) destination.

Definition RouteEngine_decide (self : RouteEngine) (target : RouteTarget) : RouteDecision :=
  RouteEngine_decide_destination self (RouteDestination_new target 0).

(** ** CIDR blocks *)

(** The mask of [p] leading bits of a [w]-bit address. *)
Definition prefix_mask (w p : Z) : Z :=
  if p =? 0 then 0 else Z.shiftl (2 ^ w - 1) (w - p) mod 2 ^ w.

Lemma prefix_mask_shift w p :
  0 <= p <= w -> prefix_mask w p = Z.shiftl (Z.ones p) (w - p).
Proof.
  intros H. unfold prefix_mask. destruct (Z.eqb_spec p 0) as [->|Hp].
  - by rewrite Z.shiftl_0_l.
  - replace (2 ^ w - 1) with (Z.ones w) by (rewrite Z.ones_equiv; lia).
    rewrite <- Z.land_ones by lia. apply Z.bits_inj'. intros i Hi.
    rewrite Z.land_spec, !Z.shiftl_spec, !Z.testbit_ones by lia. lia.
Qed.

(** Masking keeps the leading bits and clears the others. *)
Lemma land_prefix_mask w p a :
  0 <= p <= w -> 0 <= a < 2 ^ w ->
  Z.land a (prefix_mask w p) = Z.shiftl (Z.shiftr a (w - p)) (w - p).
Proof.
  intros Hp Ha. rewrite prefix_mask_shift by done.
  apply Z.bits_inj'. intros i Hi.
  rewrite Z.land_spec, !Z.shiftl_spec, Z.testbit_ones by lia.
  destruct (Z.ltb_spec i (w - p)) as [Hlt|Hge].
  - rewrite (Z.testbit_neg_r (Z.shiftr a (w - p))) by lia.
    replace (0 <=? i - (w - p)) with false by lia. by rewrite andb_false_r.
  - rewrite Z.shiftr_spec by lia. replace (i - (w - p) + (w - p)) with i by lia.
    destruct (Z.ltb_spec i w) as [Hw|Hw].
    + replace (0 <=? i - (w - p)) with true by lia.
      replace (i - (w - p) <? p) with true by lia. by rewrite andb_true_r.
    + replace (Z.testbit a i) with false; [done|]. symmetry.
      destruct (Z.eq_dec a 0) as [->|]; [by rewrite Z.bits_0|].
      apply Z.bits_above_log2; [lia|]. apply Z.log2_lt_pow2; [lia|].
      apply Z.lt_le_trans with (2 ^ w); [lia|]. apply Z.pow_le_mono_r; lia.
Qed.

Lemma land_prefix_mask_eq w p a b :
  0 <= p <= w -> 0 <= a < 2 ^ w -> 0 <= b < 2 ^ w ->
  Z.land a (prefix_mask w p) = Z.land b (prefix_mask w p) <->
  Z.shiftr a (w - p) = Z.shiftr b (w - p).
Proof.
  intros Hp Ha Hb. rewrite !land_prefix_mask by done. split; [|by intros ->].
  intros H. apply (f_equal (fun z => Z.shiftr z (w - p))) in H.
  by rewrite !Z.shiftr_shiftl_l, !Z.sub_diag, !Z.shiftl_0_r in H by lia.
Qed.

(** Two addresses of one family with the same [p] leading bits. *)
Definition same_prefix (p : Z) (ip ip' : IpAddr) : Prop :=
  match ip, ip' with
  | V4 a, V4 b => Z.shiftr a (32 - p) = Z.shiftr b (32 - p)
  | V6 a, V6 b => Z.shiftr a (128 - p) = Z.shiftr b (128 - p)
  | _, _ => False
  end.

(** The width of an address of the family of [ip]. *)
Definition ip_width (ip : IpAddr) : Z := match ip with V4 _ => 32 | V6 _ => 128 end.

Lemma RouteIpCidr_new_unfold network p :
  RouteIpCidr_new network p =
  if ip_width network <? p then Err (InvalidPrefixLength network p)
  else Ok (mkRouteIpCidr (mask_ip network p) p).
Proof. by destruct network. Qed.

Lemma RouteIpCidr_new_Ok network p cidr :
  RouteIpCidr_new network p = Ok cidr ->
  p <= ip_width network /\ cidr = mkRouteIpCidr (mask_ip network p) p.
Proof.
  rewrite RouteIpCidr_new_unfold. destruct (Z.ltb_spec (ip_width network) p); [done|].
  by intros [= <-].
Qed.

Lemma mask_ip_idem ip p : mask_ip (mask_ip ip p) p = mask_ip ip p.
Proof. destruct ip; cbn; by rewrite <- Z.land_assoc, Z.land_diag. Qed.

(** A CIDR block built from an address matches exactly the addresses of the
    same family that share its first [prefix_len] bits, whatever the host bits
    of the address it was built from. *)
Theorem cidr_matches_prefix network prefix_len cidr ip
  (Hnet : ip_ok network) (Hip : ip_ok ip) (Hlen : 0 <= prefix_len)
  (Hnew : RouteIpCidr_new network prefix_len = Ok cidr) :
  RouteIpCidr_matches cidr ip = true <-> same_prefix prefix_len network ip.
Proof.
  apply RouteIpCidr_new_Ok in Hnew as [Hp ->].
  destruct network as [n|n], ip as [a|a]; cbn -[Z.pow] in *;
    unfold RouteIpCidr_matches; cbn -[Z.pow]; try (split; done);
    rewrite Z.eqb_eq.
  - apply (land_prefix_mask_eq 32); lia.
  - apply (land_prefix_mask_eq 128); lia.
Qed.

Lemma cidr_matches_prefix_witness :
  same_prefix 24 (V4 3232235818) (V4 3232235875).
Proof.
  refine (proj1 (cidr_matches_prefix (V4 3232235818) 24 (mkRouteIpCidr (V4 3232235776) 24)
    (V4 3232235875) _ _ _ _) _); [vm_compute; split; congruence..|lia|reflexivity|reflexivity].
Defined.

(** [RouteIpCidr::new] refuses exactly the prefixes longer than the
    address family's width; what it accepts is normalised: building again from
    the stored network gives the same block. *)
Theorem cidr_new_normalised network prefix_len :
  match RouteIpCidr_new network prefix_len with
  | Ok cidr =>
      prefix_len <= ip_width network /\
      cidr_prefix_len cidr = prefix_len /\
      RouteIpCidr_new (cidr_network cidr) prefix_len = Ok cidr
  | Err e =>
      e = InvalidPrefixLength network prefix_len /\ ip_width network < prefix_len
  | Panic => False
  end.
Proof.
  rewrite RouteIpCidr_new_unfold. destruct (Z.ltb_spec (ip_width network) prefix_len); [done|].
  split_and!; [done|done|]. rewrite RouteIpCidr_new_unfold. cbn [cidr_network].
  rewrite mask_ip_idem. destruct (Z.ltb_spec (ip_width (mask_ip network prefix_len)) prefix_len);
    [|done]. destruct network; cbn in *; lia.
Qed.

(** ** Rules *)

Lemma decide_rules_spec rules default destination :
  (Forall (fun r => RouteMatcher_matches (rule_matcher r) destination = false) rules /\
   decide_rules rules default destination = mkRouteDecision default None) \/
  (exists pre r post, rules = pre ++ r :: post /\
     Forall (fun r => RouteMatcher_matches (rule_matcher r) destination = false) pre /\
     RouteMatcher_matches (rule_matcher r) destination = true /\
     decide_rules rules default destination =
       mkRouteDecision (rule_action r) (Some (rule_name r))).
Proof.
  induction rules as [|r rules IH]; [by left|]. cbn [decide_rules].
  destruct (RouteMatcher_matches (rule_matcher r) destination) eqn:Hr.
  - right. by exists [], r, rules.
  - destruct IH as [[Hf ->]|(pre & r' & post & -> & Hf & Hm & ->)].
    + left. by split; [constructor|].
    + right. exists (r :: pre), r', post. by split_and!; [|constructor|..].
Qed.

(** [decide_destination] applies the first rule, in the order the rules
    were added, whose matcher accepts the destination, and reports its name; the
    default action is taken, without a rule name, exactly when no rule matches. *)
Theorem decide_destination_first_match engine destination :
  let d := RouteEngine_decide_destination engine destination in
  match decision_matched_rule d with
  | Some name =>
      exists pre r post,
        engine_rules engine = pre ++ r :: post /\
        Forall (fun r => RouteMatcher_matches (rule_matcher r) destination = false) pre /\
        RouteMatcher_matches (rule_matcher r) destination = true /\
        rule_name r = name /\ decision_action d = rule_action r
  | None =>
      Forall (fun r => RouteMatcher_matches (rule_matcher r) destination = false)
        (engine_rules engine) /\
      decision_action d = engine_default_action engine
  end.
Proof.
  cbn zeta. unfold RouteEngine_decide_destination.
  destruct (decide_rules_spec (engine_rules engine) (engine_default_action engine) destination)
    as [[Hf ->]|(pre & r & post & -> & Hf & Hm & ->)]; cbn; [done|].
  by exists pre, r, post.
Qed.

(** ** Domain matchers *)

Lemma matches_lowercase m d port :
  RouteMatcher_matches m (mkRouteDestination (Target_Domain d) port) =
  RouteMatcher_matches m (mkRouteDestination (Target_Domain (to_ascii_lowercase d)) port).
Proof.
  unfold RouteMatcher_matches, eq_ignore_ascii_case; destruct m; cbn [dest_target dest_port];
    by rewrite ?to_ascii_lowercase_idem.
Qed.

(** The decision for a domain does not depend on the ASCII case of its
    letters, for any rules. *)
Theorem decide_domain_ignores_case engine d d' port
  (Hcase : to_ascii_lowercase d = to_ascii_lowercase d') :
  RouteEngine_decide_destination engine (RouteDestination_new (Target_Domain d) port) =
  RouteEngine_decide_destination engine (RouteDestination_new (Target_Domain d') port).
Proof.
  unfold RouteEngine_decide_destination, RouteDestination_new.
  induction (engine_rules engine) as [|r rules IH]; cbn [decide_rules]; [done|].
  by rewrite matches_lowercase, Hcase, <- matches_lowercase, IH.
Qed.

Lemma decide_domain_ignores_case_witness :
  RouteEngine_decide_destination
    (mkRouteEngine [mkRouteRule "r" (DomainKeyword "Video") Route_Block] Route_Direct)
    (RouteDestination_new (Target_Domain "CDN.VIDEO.example") 443) =
  mkRouteDecision Route_Block (Some "r").
Proof.
  rewrite (decide_domain_ignores_case _ _ "cdn.video.example" 443) by reflexivity. reflexivity.
Defined.

Lemma ends_with_spec s t : ends_with s t = true <-> exists p, s = p +:+ t.
Proof.
  induction s as [|a s IH].
  - cbn [ends_with]. rewrite orb_false_r, String.eqb_eq. split.
    + intros <-. by exists "".
    + intros [[|b p] H]; [done|discriminate H].
  - cbn [ends_with]. rewrite orb_true_iff, String.eqb_eq, IH. split.
    + intros [<-|[p ->]]; [by exists ""|by exists (String a p)].
    + intros [[|b p] H]; [by left|right]. injection H as -> ->. by exists p.
Qed.

(** A suffix rule matches a domain only at a label boundary: the domain,
    in lower case, is the suffix (leading dots removed) or ends in a dot
    followed by it. *)
Theorem domain_suffix_label_boundary expected d port :
  let suffix := to_ascii_lowercase (trim_start_matches "."%char expected) in
  RouteMatcher_matches (DomainSuffix expected)
    (RouteDestination_new (Target_Domain d) port) = true <->
  to_ascii_lowercase d = suffix \/
  exists labels, to_ascii_lowercase d = labels +:+ "." +:+ suffix.
Proof.
  cbn zeta. unfold RouteMatcher_matches, eq_ignore_ascii_case. cbn [dest_target RouteDestination_new].
  by rewrite orb_true_iff, String.eqb_eq, ends_with_spec.
Qed.
