(* ===== verification/Dns.v ===== *)
(** * The DNS engine and the DNS wire format

    [crates/keli-net-core/src/dns.rs]: the query parser and the response
    builders the TUN hijack path uses, the answer cache, and [DnsEngine] with its
    local-resolution and address-family policies. A resolver is an instance of
    [DnsResolver]; its answer may depend on the instant it is asked.

    The results: the parser never panics and reads back what a query encodes;
    a response answers the question it was built for; under
    [PreventPublicLeak] the resolver is never consulted; every address handed
    out obeys the family policy; a cached answer is served until it expires. *)

From Stdlib Require Import Ascii.
From stdpp Require Import base gmap strings list numbers.
From S2P Require Import Prelude.
From S2P Require Import StdNet.
#[local] Open Scope Z_scope.

(** ** Data *)

Record ResolvedAddress : Type := mkResolvedAddress {
  resolved_ip : IpAddr;
  resolved_port : Z
}.

Inductive DnsLocalResolutionPolicy : Type :=
| AllowSystem
| PreventPublicLeak.

Inductive DnsAddressFamilyPolicy : Type :=
| DualStack
| Ipv4Only
| Ipv6Only.

Inductive DnsError : Type :=
| ResolveFailed (host detail : string)
| NoRecords (host : string)
| LocalResolutionBlocked (host : string) (policy : DnsLocalResolutionPolicy)
| AddressFamilyFiltered (host : string) (policy : DnsAddressFamilyPolicy).

Inductive DnsQuestionType : Type :=
| QType_A
| QType_Aaaa
| QType_Unsupported (code : Z).

#[export] Instance DnsLocalResolutionPolicy_eq_dec : EqDecision DnsLocalResolutionPolicy.
Proof. solve_decision. Defined.

#[export] Instance DnsAddressFamilyPolicy_eq_dec : EqDecision DnsAddressFamilyPolicy.
Proof. solve_decision. Defined.

#[export] Instance DnsError_eq_dec : EqDecision DnsError.
Proof. solve_decision. Defined.

#[export] Instance DnsQuestionType_eq_dec : EqDecision DnsQuestionType.
Proof. solve_decision. Defined.

Definition DnsQuestionType_from_code (code : Z) : DnsQuestionType :=
  if code =? 1 then QType_A
  else if code =? 28 then QType_Aaaa
  else QType_Unsupported code.

Definition DnsQuestionType_code (self : DnsQuestionType) : Z :=
  match self with
  | QType_A => 1
  | QType_Aaaa => 28
  | QType_Unsupported code => code
  end.

Definition DnsQuestionType_matches_ip (self : DnsQuestionType) (ip : IpAddr) : bool :=
  match self with
  | QType_A => is_ipv4 ip
  | QType_Aaaa => is_ipv6 ip
  | QType_Unsupported _ => false
  end.

Record DnsWireQuestion : Type := mkDnsWireQuestion {
  q_id : Z;
  q_name : string;
  q_question_type : DnsQuestionType;
  q_raw_question : list Z;
  q_recursion_desired : bool
}.

#[export] Instance DnsWireQuestion_eq_dec : EqDecision DnsWireQuestion.
Proof. solve_decision. Defined.

Inductive DnsWireError : Type :=
| Dns_PacketTooShort
| Dns_ResponsePacket
| Dns_UnsupportedOpcode (opcode : Z)
| Dns_QuestionCount (count : Z)
| Dns_LabelOutOfBounds
| Dns_CompressedQuestionName
| Dns_InvalidLabel
| Dns_QuestionTooShort
| Dns_UnsupportedClass (class : Z).

#[export] Instance DnsWireError_eq_dec : EqDecision DnsWireError.
Proof. solve_decision. Defined.

(** ** The wire format *)

(** The label loop of [parse_dns_query]. Each round moves [offset] forward, so
    a fuel of one more than the packet's length is never used up. *)
Fixpoint parse_dns_labels (fuel : nat) (packet : list Z) (offset : Z) (labels : list string)
  : result DnsWireError (list string * Z) :=
  match fuel with
  | O => Panic
  | S fuel' =>
      match get_index packet offset with
      | None => Err Dns_LabelOutOfBounds
      | Some label_len =>
          let offset := offset + 1 in
          if label_len =? 0 then Ok (labels, offset)
          else if negb (Z.land label_len 192 =? 0) then Err Dns_CompressedQuestionName
          else
            let label_end := offset + label_len in
            match get_range packet offset label_end with
            | None => Err Dns_LabelOutOfBounds
            | Some label =>
                match from_utf8 label with
                | None => Err Dns_InvalidLabel
                | Some text =>
                    parse_dns_labels fuel' packet label_end
                      (labels ++ [to_ascii_lowercase text])
                end
            end
      end
  end.

Definition parse_dns_query (packet : list Z) : result DnsWireError DnsWireQuestion :=
  if len packet <? 12 then Err Dns_PacketTooShort
  else
    b0 <-? index packet 0; b1 <-? index packet 1;
    let id := from_be_bytes [b0; b1] in
    b2 <-? index packet 2; b3 <-? index packet 3;
    let flags := from_be_bytes [b2; b3] in
    if negb (Z.land flags 32768 =? 0) then Err Dns_ResponsePacket
    else
      let opcode := Z.land (Z.shiftr flags 11) 15 in
      if negb (opcode =? 0) then Err (Dns_UnsupportedOpcode opcode)
      else
        b4 <-? index packet 4; b5 <-? index packet 5;
        let qdcount := from_be_bytes [b4; b5] in
        if negb (qdcount =? 1) then Err (Dns_QuestionCount qdcount)
        else
          '(labels, offset) <-? parse_dns_labels (S (length packet)) packet 12 [];
          let question_end := offset + 4 in
          match get_range packet offset question_end with
          | None => Err Dns_QuestionTooShort
          | Some question_tail =>
              t0 <-? index question_tail 0; t1 <-? index question_tail 1;
              let qtype := from_be_bytes [t0; t1] in
              t2 <-? index question_tail 2; t3 <-? index question_tail 3;
              let qclass := from_be_bytes [t2; t3] in
              if negb (qclass =? 1) then Err (Dns_UnsupportedClass qclass)
              else
                raw_question <-? slice packet 12 question_end;
                Ok (mkDnsWireQuestion id (join "." labels) (DnsQuestionType_from_code qtype)
                      raw_question (negb (Z.land flags 256 =? 0)))
          end.

Definition dns_response_header (question : DnsWireQuestion) (rcode answer_count : Z) : list Z :=
  let flags := Z.lor (Z.lor 32768 128) (Z.land rcode 15) in
  let flags := if q_recursion_desired question then Z.lor flags 256 else flags in
  to_be_bytes 2 (q_id question) ++ to_be_bytes 2 flags ++ to_be_bytes 2 1
  ++ to_be_bytes 2 answer_count ++ to_be_bytes 2 0 ++ to_be_bytes 2 0.

(** One answer record, as the loop of [build_dns_response] appends it. *)
Definition dns_answer_record (question_type : DnsQuestionType) (ttl_seconds : Z) (ip : IpAddr)
  : list Z :=
  [192; 12] ++ to_be_bytes 2 (DnsQuestionType_code question_type)
  ++ to_be_bytes 2 1 ++ to_be_bytes 4 ttl_seconds
  ++ match ip with
     | V4 a => to_be_bytes 2 4 ++ v4_octets a
     | V6 a => to_be_bytes 2 16 ++ v6_octets a
     end.

Definition build_dns_response (question : DnsWireQuestion) (ips : list IpAddr) (ttl_seconds : Z)
  : list Z :=
  let answers := List.filter (DnsQuestionType_matches_ip (q_question_type question)) ips in
  dns_response_header question 0 (as_u16 (len answers))
  ++ q_raw_question question
  ++ flat_map (dns_answer_record (q_question_type question) ttl_seconds) answers.

Definition build_dns_error_response (question : DnsWireQuestion) (rcode : Z) : list Z :=
  dns_response_header question (Z.land rcode 15) 0 ++ q_raw_question question.

(** ** Resolver, cache and engine *)

(** The trait [DnsResolver]: [resolve(&self, host)], asked at an instant. *)
Class DnsResolver (R : Type) := {
  resolver_resolve : R -> Z -> string -> result DnsError (list IpAddr)
}.

(** [SystemDnsResolver]: the operating system's lookup is a parameter; the code
    keeps the first occurrence of each address. *)
Fixpoint push_new_ips (ips addresses : list IpAddr) : list IpAddr :=
  match addresses with
  | [] => ips
  | ip :: rest =>
      if bool_decide (ip ∈ ips) then push_new_ips ips rest
      else push_new_ips (ips ++ [ip]) rest
  end.

Definition SystemDnsResolver_resolve (to_socket_addrs : string -> result string (list IpAddr))
  (host : string) : result DnsError (list IpAddr) :=
  match to_socket_addrs host with
  | Err error => Err (ResolveFailed host error)
  | Ok addresses => Ok (push_new_ips [] addresses)
  | Panic => Panic
  end.

Record DnsCacheEntry : Type := mkDnsCacheEntry {
  entry_ips : list IpAddr;
  entry_expires_at : Z
}.

Record DnsCache : Type := mkDnsCache {
  cache_ttl : Z;
  cache_entries : gmap string DnsCacheEntry
}.

Definition normalize_host (host : string) : string :=
  to_ascii_lowercase (trim_end_matches "."%char host).

Definition DnsCache_new (ttl : Z) : DnsCache := mkDnsCache ttl ∅.

Definition DnsCache_get (self : DnsCache) (host : string) (now : Z) : option (list IpAddr) :=
  match cache_entries self !! normalize_host host with
  | Some entry => if now <? entry_expires_at entry then Some (entry_ips entry) else None
  | None => None
  end.

Definition DnsCache_insert (self : DnsCache) (host : string) (ips : list IpAddr) (now : Z)
  : DnsCache :=
  mkDnsCache (cache_ttl self)
    (<[normalize_host host := mkDnsCacheEntry ips (now + cache_ttl self)]> (cache_entries self)).

Record DnsEngine (R : Type) : Type := mkDnsEngine {
  dns_resolver : R;
  dns_cache : DnsCache;
  dns_policy : DnsLocalResolutionPolicy;
  dns_address_family_policy : DnsAddressFamilyPolicy
}.

Arguments mkDnsEngine {R}.
Arguments dns_resolver {R}.
Arguments dns_cache {R}.
Arguments dns_policy {R}.
Arguments dns_address_family_policy {R}.

Definition DnsEngine_with_policies {R} (resolver : R) (cache : DnsCache)
  (policy : DnsLocalResolutionPolicy) (address_family_policy : DnsAddressFamilyPolicy)
  : DnsEngine R :=
  mkDnsEngine resolver cache policy address_family_policy.

Definition DnsEngine_with_policy {R} (resolver : R) (cache : DnsCache)
  (policy : DnsLocalResolutionPolicy) : DnsEngine R :=
  DnsEngine_with_policies resolver cache policy DualStack.

Definition DnsEngine_new {R} (resolver : R) (cache : DnsCache) : DnsEngine R :=
  DnsEngine_with_policy resolver cache AllowSystem.

Definition address_family_matches (ip : IpAddr) (policy : DnsAddressFamilyPolicy) : bool :=
  match policy with
  | DualStack => true
  | Ipv4Only => is_ipv4 ip
  | Ipv6Only => is_ipv6 ip
  end.

Definition localhost_ips (policy : DnsAddressFamilyPolicy) : list IpAddr :=
  match policy with
  | DualStack => [V4 ipv4_localhost; V6 ipv6_localhost]
  | Ipv4Only => [V4 ipv4_localhost]
  | Ipv6Only => [V6 ipv6_localhost]
  end.

Definition set_dns_cache {R} (cache : DnsCache) (self : DnsEngine R) : DnsEngine R :=
  mkDnsEngine (dns_resolver self) cache (dns_policy self) (dns_address_family_policy self).

(** The part of [resolve] that answers from the cache or asks the resolver. *)
Definition lookup_ips {R} `{DnsResolver R} (normalized_host : string) (now : Z)
  : SM (DnsEngine R) DnsError (list IpAddr) :=
  self <-! sm_get;
  match DnsCache_get (dns_cache self) normalized_host now with
  | Some ips => sm_ret ips
  | None =>
      ips <-! sm_lift (resolver_resolve (dns_resolver self) now normalized_host);
      if is_empty ips then sm_lift (Err (NoRecords normalized_host))
      else
        do! sm_modify (set_dns_cache (DnsCache_insert (dns_cache self) normalized_host ips now));
        sm_ret ips
  end.

Definition DnsEngine_resolve {R} `{DnsResolver R} (host : string) (port : Z) (now : Z)
  : SM (DnsEngine R) DnsError (list ResolvedAddress) :=
  let normalized_host := normalize_host host in
  self <-! sm_get;
  let family := dns_address_family_policy self in
  match parse_ip_addr normalized_host with
  | Some ip =>
      if negb (address_family_matches ip family)
      then sm_lift (Err (AddressFamilyFiltered normalized_host family))
      else sm_ret [mkResolvedAddress ip port]
  | None =>
      if bool_decide (dns_policy self = PreventPublicLeak) then
        if String.eqb normalized_host "localhost"
        then sm_ret (map (fun ip => mkResolvedAddress ip port) (localhost_ips family))
        else sm_lift (Err (LocalResolutionBlocked normalized_host (dns_policy self)))
      else
        ips <-! lookup_ips normalized_host now;
        let ips := List.filter (fun ip => address_family_matches ip family) ips in
        if is_empty ips then sm_lift (Err (AddressFamilyFiltered normalized_host family))
        else sm_ret (map (fun ip => mkResolvedAddress ip port) ips)
  end.

(** ** The parser is total *)

Lemma parse_dns_labels_total fuel packet offset labels :
  bytes_ok packet -> 0 <= offset -> len packet - offset < Z.of_nat fuel -> (0 < fuel)%nat ->
  returns (parse_dns_labels fuel packet offset labels)
    (fun r => offset < r.2 <= len packet).
Proof.
  revert offset labels. induction fuel as [|fuel IH]; intros offset labels Hok Hoff Hfuel Hpos;
    [lia|]. cbn [parse_dns_labels].
  destruct (get_index packet offset) as [n|] eqn:Hn; [|done].
  apply get_index_Some in Hn as [Hb Hl].
  destruct (Z.eqb_spec n 0); [cbn; lia|].
  pose proof (bytes_ok_lookup _ _ _ Hok Hl) as Hn8. unfold is_u8 in Hn8.
  ret_guard.
  destruct (get_range packet _ _) eqn:Hr; [|done]. apply get_range_Some in Hr as (? & ? & ->).
  destruct (from_utf8 _) as [text|]; [|done].
  eapply returns_mono; [apply IH; (done || lia)|]. cbn. lia.
Qed.

Lemma question_type_code code : DnsQuestionType_code (DnsQuestionType_from_code code) = code.
Proof.
  unfold DnsQuestionType_from_code. destruct (Z.eqb_spec code 1) as [->|]; [done|].
  by destruct (Z.eqb_spec code 28) as [->|].
Qed.

Lemma parse_dns_query_total packet :
  bytes_ok packet ->
  returns (parse_dns_query packet)
    (fun q => (exists e, 12 < e <= len packet /\ q_raw_question q = sub_list packet 12 e) /\
              is_u16 (q_id q) /\ is_u16 (DnsQuestionType_code (q_question_type q))).
Proof.
  intros Hok. unfold parse_dns_query. ret_guard.
  ret_index b0 H0. ret_index b1 H1. ret_index b2 H2. ret_index b3 H3. ret_guard. ret_guard.
  ret_index b4 H4. ret_index b5 H5. ret_guard.
  eapply returns_bind; [apply parse_dns_labels_total; (done || (unfold len; lia) || lia)|].
  intros [labels offset] Hoff. cbn [snd] in Hoff.
  destruct (get_range packet offset (offset + 4)) as [tl|] eqn:Htl; [|done].
  apply get_range_Some in Htl as (? & ? & ->).
  pose proof (len_sub_list packet offset (offset + 4) ltac:(lia) ltac:(lia) ltac:(lia)) as Hlen.
  assert (bytes_ok (sub_list packet offset (offset + 4))) by auto with keli.
  ret_index t0 T0. ret_index t1 T1. ret_index t2 T2. ret_index t3 T3. ret_guard.
  ret_slice. split; [exists (offset + 4); split; [lia|done]|].
  cbn [q_id q_question_type]. rewrite question_type_code. auto using from_be_bytes_u16.
Qed.

(** On every byte string the query parser returns a question or an error;
    no access is out of bounds and its loop ends. The raw question it keeps for
    the response is the packet's bytes from offset 12 on. *)
Theorem parse_dns_query_safe packet (Hok : bytes_ok packet) :
  parse_dns_query packet <> Panic /\
  forall q, parse_dns_query packet = Ok q ->
    exists e, 12 < e <= len packet /\ q_raw_question q = sub_list packet 12 e.
Proof.
  split; [by eapply returns_no_panic, parse_dns_query_total|].
  intros q Hq. by apply (returns_Ok _ _ _ (parse_dns_query_total packet Hok) Hq).
Qed.

(** ** The query round trip *)

Definition encode_label (label : string) : list Z :=
  Z.of_nat (String.length label) :: as_bytes label.

(** A standard query with one question of class IN. *)
Definition encode_dns_query (id : Z) (rd : bool) (labels : list string) (qtype : Z) : list Z :=
  to_be_bytes 2 id ++ (if rd then [1; 0] else [0; 0]) ++ [0; 1; 0; 0; 0; 0; 0; 0]
  ++ flat_map encode_label labels ++ [0] ++ to_be_bytes 2 qtype ++ [0; 1].

Definition label_ok (label : string) : Prop :=
  0 < Z.of_nat (String.length label) < 64 /\ utf8_valid (as_bytes label) = true.

Lemma label_len_not_compressed n : 0 < n < 64 -> Z.land n 192 = 0.
Proof.
  intros Hn.
  assert (forallb (fun k => Z.land (Z.of_nat k) 192 =? 0) (seq 0 64) = true) as H by reflexivity.
  rewrite forallb_forall in H. specialize (H (Z.to_nat n)).
  rewrite in_seq, Z2Nat.id in H by lia. apply Z.eqb_eq, H. lia.
Qed.

Lemma parse_dns_labels_encoded labels : forall fuel pre post acc offset,
  Forall label_ok labels -> (length labels < fuel)%nat -> offset = len pre ->
  parse_dns_labels fuel (pre ++ flat_map encode_label labels ++ 0 :: post) offset acc =
  Ok (acc ++ map to_ascii_lowercase labels, offset + len (flat_map encode_label labels) + 1).
Proof.
  induction labels as [|l labels IH]; intros fuel pre post acc offset Hok Hfuel Hoff;
    (destruct fuel as [|fuel]; [cbn in *; lia|]); cbn [parse_dns_labels flat_map app].
  - rewrite (get_index_app_mid pre post 0) by done. cbn [map Z.eqb]. by rewrite app_nil_r, len_nil, Z.add_0_r.
  - apply Forall_cons_iff in Hok as [[Hlen Hutf] Hok].
    set (n := Z.of_nat (String.length l)) in *.
    assert (len (as_bytes l) = n) as Hn by (unfold len; by rewrite length_as_bytes).
    assert (pre ++ (encode_label l ++ flat_map encode_label labels) ++ 0 :: post =
            (pre ++ [n]) ++ as_bytes l ++ (flat_map encode_label labels ++ 0 :: post)) as ->
      by (unfold encode_label at 1; fold n; rewrite <- !app_assoc; done).
    assert (len (pre ++ [n]) = offset + 1) as Hpre
      by (rewrite len_app, len_cons, len_nil; lia).
    replace (get_index _ offset) with (Some n)
      by (rewrite <- (app_assoc pre); symmetry; by apply get_index_app_mid).
    destruct (Z.eqb_spec n 0); [lia|].
    rewrite label_len_not_compressed by done. cbn [Z.eqb negb].
    rewrite get_range_app_mid by lia.
    unfold from_utf8. rewrite Hutf, string_of_as_bytes.
    rewrite (app_assoc (pre ++ [n])), IH; [|done|cbn in *; lia|rewrite len_app; lia].
    cbn [map]. rewrite <- !app_assoc. cbn [app]. do 2 f_equal.
    unfold encode_label at 2. fold n. rewrite len_app, len_cons. lia.
Qed.

(** The header of a query, of which the identifier and the recursion flag vary. *)
Definition query_header (i0 i1 : Z) (rd : bool) : list Z :=
  [i0; i1] ++ (if rd then [1; 0] else [0; 0]) ++ [0; 1; 0; 0; 0; 0; 0; 0].

(** A query whose labels have been read is decided by the four bytes behind them. *)
Lemma parse_after_labels i0 i1 rd body rest labels t0 t1 :
  let packet := query_header i0 i1 rd ++ body ++ 0 :: [t0; t1; 0; 1] ++ rest in
  parse_dns_labels (S (length packet)) packet 12 [] = Ok (labels, 13 + len body) ->
  parse_dns_query packet =
  Ok (mkDnsWireQuestion (from_be_bytes [i0; i1]) (join "." labels)
        (DnsQuestionType_from_code (from_be_bytes [t0; t1])) (body ++ 0 :: [t0; t1; 0; 1]) rd).
Proof.
  intros packet Hlabels. set (header := query_header i0 i1 rd) in *.
  assert (len header = 12) as Hh by (unfold header; by destruct rd).
  pose proof (len_nonneg body). pose proof (len_nonneg rest).
  assert (len packet = 17 + len body + len rest) as Hlen
    by (unfold packet; rewrite !len_app, len_cons, len_app, Hh, !len_cons, len_nil; lia).
  unfold parse_dns_query. replace (len packet <? 12) with false by lia.
  replace (index packet 0) with (@Ok DnsWireError _ i0) by by destruct rd.
  replace (index packet 1) with (@Ok DnsWireError _ i1) by by destruct rd.
  replace (index packet 2) with (@Ok DnsWireError _ (if rd then 1 else 0)) by by destruct rd.
  replace (index packet 3) with (@Ok DnsWireError _ 0) by by destruct rd.
  replace (index packet 4) with (@Ok DnsWireError _ 0) by by destruct rd.
  replace (index packet 5) with (@Ok DnsWireError _ 1) by by destruct rd.
  cbn [result_bind]. rewrite Hlabels. cbn [result_bind].
  replace (get_range packet _ _) with (Some [t0; t1; 0; 1]).
  2: { symmetry. unfold packet. rewrite app_assoc.
       change (0 :: [t0; t1; 0; 1] ++ rest) with ([0] ++ [t0; t1; 0; 1] ++ rest).
       rewrite app_assoc. apply get_range_app_mid; rewrite !len_app, !len_cons, !len_nil; lia. }
  rewrite slice_ok by lia.
  assert (sub_list packet 12 (13 + len body + 4) = body ++ 0 :: [t0; t1; 0; 1]) as ->.
  { unfold packet. change (0 :: [t0; t1; 0; 1] ++ rest) with ((0 :: [t0; t1; 0; 1]) ++ rest).
    rewrite (app_assoc body). apply sub_list_app_mid; [done|]. rewrite len_app, !len_cons, len_nil. lia. }
  destruct rd; reflexivity.
Qed.

(** Parsing an encoded query gives its identifier, its recursion flag, its
    question type, and the name made of its labels in lower case; the raw
    question is exactly what follows the header. *)
Theorem parse_dns_query_roundtrip id rd labels qtype
  (Hid : is_u16 id) (Htype : is_u16 qtype) (Hlabels : Forall label_ok labels) :
  parse_dns_query (encode_dns_query id rd labels qtype) =
  Ok (mkDnsWireQuestion id (join "." (map to_ascii_lowercase labels))
        (DnsQuestionType_from_code qtype)
        (flat_map encode_label labels ++ [0] ++ to_be_bytes 2 qtype ++ [0; 1]) rd).
Proof.
  unfold is_u16 in *. unfold encode_dns_query.
  rewrite <- (from_to_be_bytes_id 2 id Hid) at 2. rewrite <- (from_to_be_bytes_id 2 qtype Htype) at 2.
  destruct (to_be_bytes_2_ex id) as (i0 & i1 & ->). destruct (to_be_bytes_2_ex qtype) as (t0 & t1 & ->).
  set (body := flat_map encode_label labels).
  assert (length labels <= length body)%nat as Hlb.
  { unfold body. clear. induction labels; cbn; [lia|]. rewrite length_app. lia. }
  pose proof (parse_after_labels i0 i1 rd body [] (map to_ascii_lowercase labels) t0 t1) as Hparse.
  cbv zeta in Hparse. unfold query_header in Hparse. rewrite <- !app_assoc in Hparse. apply Hparse.
  rewrite !app_assoc, <- (app_assoc _ body). unfold body. rewrite parse_dns_labels_encoded.
  - do 2 f_equal. lia.
  - done.
  - fold body. rewrite !length_app. lia.
  - by destruct rd.
Qed.

Lemma parse_dns_query_roundtrip_witness :
  parse_dns_query (encode_dns_query 4660 true ["WWW"; "Example"; "com"] 28) =
  Ok (mkDnsWireQuestion 4660 "www.example.com" QType_Aaaa
        [3; 87; 87; 87; 7; 69; 120; 97; 109; 112; 108; 101; 3; 99; 111; 109; 0; 0; 28; 0; 1] true).
Proof.
  rewrite (parse_dns_query_roundtrip 4660 true ["WWW"; "Example"; "com"] 28);
    [reflexivity | unfold is_u16; lia | unfold is_u16; lia |].
  repeat constructor.
Defined.

Lemma parse_dns_query_safe_witness :
  parse_dns_query (encode_dns_query 1 false ["a"] 1) <> Panic.
Proof.
  refine (proj1 (parse_dns_query_safe _ _)).
  vm_compute. repeat constructor; congruence.
Defined.

(** ** Responses *)

(** What a client reads in a response whose question section has [raw_len]
    bytes: a reference decoder, written from RFC 1035. *)
Record DnsResponseView : Type := mkDnsResponseView {
  view_id : Z;
  view_is_response : bool;
  view_recursion_desired : bool;
  view_rcode : Z;
  view_question_count : Z;
  view_question : list Z;
  view_answers : list (Z * Z * IpAddr)
}.

Definition decode_answer (l : list Z) : option ((Z * Z * IpAddr) * list Z) :=
  match l with
  | 192 :: 12 :: t0 :: t1 :: 0 :: 1 :: s0 :: s1 :: s2 :: s3 :: 0 :: n :: rest =>
      let info := (from_be_bytes [t0; t1], from_be_bytes [s0; s1; s2; s3]) in
      if n =? 4 then
        if len rest <? 4 then None
        else Some ((info, V4 (from_be_bytes (take 4 rest))), drop 4 rest)
      else if n =? 16 then
        if len rest <? 16 then None
        else Some ((info, V6 (from_be_bytes (take 16 rest))), drop 16 rest)
      else None
  | _ => None
  end.

Fixpoint decode_answers (count : nat) (l : list Z) : option (list (Z * Z * IpAddr)) :=
  match count with
  | O => match l with [] => Some [] | _ => None end
  | S count' =>
      match decode_answer l with
      | Some (a, rest) =>
          match decode_answers count' rest with Some r => Some (a :: r) | None => None end
      | None => None
      end
  end.

Definition decode_dns_response (raw_len : Z) (l : list Z) : option DnsResponseView :=
  match l with
  | i0 :: i1 :: f0 :: f1 :: q0 :: q1 :: a0 :: a1 :: 0 :: 0 :: 0 :: 0 :: rest =>
      match decode_answers (Z.to_nat (from_be_bytes [a0; a1])) (drop (Z.to_nat raw_len) rest) with
      | Some answers =>
          Some (mkDnsResponseView (from_be_bytes [i0; i1]) (128 <=? f0) (Z.odd f0) (f1 mod 16)
                  (from_be_bytes [q0; q1]) (take (Z.to_nat raw_len) rest) answers)
      | None => None
      end
  | _ => None
  end.

Lemma to_be_bytes_2 x : to_be_bytes 2 x = [(x / 256) mod 256; (x / 1) mod 256].
Proof. reflexivity. Qed.

Lemma from_be_bytes_2 x : is_u16 x -> from_be_bytes [(x / 256) mod 256; (x / 1) mod 256] = x.
Proof. intros. by apply (from_to_be_bytes_id 2). Qed.

Lemma decode_answer_record ty ttl ip rest :
  is_u16 (DnsQuestionType_code ty) -> is_u32 ttl -> ip_ok ip ->
  decode_answer (dns_answer_record ty ttl ip ++ rest) =
  Some ((DnsQuestionType_code ty, ttl, ip), rest).
Proof.
  intros Hty Httl Hip. unfold dns_answer_record, v4_octets, v6_octets.
  rewrite to_be_bytes_2. rewrite <- (from_be_bytes_2 _ Hty) at 3.
  pose proof (from_to_be_bytes_id 4 ttl Httl) as Ht.
  destruct (to_be_bytes 4 ttl) as [|s0 [|s1 [|s2 [|s3 [|]]]]] eqn:Es;
    try (apply (f_equal length) in Es; rewrite length_to_be_bytes in Es; done).
  destruct ip as [a|a]; cbn [ip_ok] in Hip; rewrite <- !app_assoc.
  - change (to_be_bytes 2 4) with [0; 4]. change (to_be_bytes 2 1) with [0; 1].
    cbn [app decode_answer Z.eqb Pos.eqb].
    rewrite take_app_length' by (by rewrite length_to_be_bytes).
    rewrite drop_app_length' by (by rewrite length_to_be_bytes).
    rewrite len_app, len_to_be_bytes. pose proof (len_nonneg rest).
    change (Z.of_nat 4) with 4. replace (4 + len rest <? 4) with false by lia.
    by rewrite Ht, (from_to_be_bytes_id 4 a).
  - change (to_be_bytes 2 16) with [0; 16]. change (to_be_bytes 2 1) with [0; 1].
    cbn [app decode_answer Z.eqb Pos.eqb].
    rewrite take_app_length' by (by rewrite length_to_be_bytes).
    rewrite drop_app_length' by (by rewrite length_to_be_bytes).
    rewrite len_app, len_to_be_bytes. pose proof (len_nonneg rest).
    change (Z.of_nat 16) with 16. replace (16 + len rest <? 16) with false by lia.
    by rewrite Ht, (from_to_be_bytes_id 16 a).
Qed.

Lemma decode_answers_records ty ttl ips :
  is_u16 (DnsQuestionType_code ty) -> is_u32 ttl -> Forall ip_ok ips ->
  decode_answers (length ips) (flat_map (dns_answer_record ty ttl) ips) =
  Some (map (fun ip => (DnsQuestionType_code ty, ttl, ip)) ips).
Proof.
  intros Hty Httl. induction 1 as [|ip ips Hip Hips IH]; [done|].
  cbn [length flat_map decode_answers map]. by rewrite decode_answer_record, IH.
Qed.

Lemma decode_response_header q rcode count body :
  is_u16 (q_id q) -> 0 <= rcode < 16 -> is_u16 count ->
  decode_dns_response (len (q_raw_question q))
    (dns_response_header q rcode count ++ q_raw_question q ++ body) =
  match decode_answers (Z.to_nat count) body with
  | Some answers =>
      Some (mkDnsResponseView (q_id q) true (q_recursion_desired q) rcode 1
              (q_raw_question q) answers)
  | None => None
  end.
Proof.
  intros Hid Hrc Hcount. unfold dns_response_header.
  set (flags := if q_recursion_desired q then _ else _).
  assert ((128 <=? (flags / 256) mod 256) = true /\
          Z.odd ((flags / 256) mod 256) = q_recursion_desired q /\
          ((flags / 1) mod 256) mod 16 = rcode) as (Hqr & Hrd & Hr).
  { assert (In rcode (map Z.of_nat (seq 0 16))) as Hin.
    { apply in_map_iff. exists (Z.to_nat rcode). rewrite in_seq. lia. }
    cbn [map seq In] in Hin.
    unfold flags. destruct (q_recursion_desired q);
      repeat (destruct Hin as [<-|Hin]; [split_and!; reflexivity|]); done. }
  rewrite !to_be_bytes_2. cbn [app decode_dns_response].
  rewrite !from_be_bytes_2 by (done || (unfold is_u16; lia)).
  unfold len. rewrite Nat2Z.id, take_app_length, drop_app_length.
  destruct (decode_answers _ _); [|done]. by rewrite Hqr, Hrd, Hr.
Qed.

Lemma decode_built_response q ips ttl_seconds
  (Hid : is_u16 (q_id q)) (Htype : is_u16 (DnsQuestionType_code (q_question_type q)))
  (Httl : is_u32 ttl_seconds) (Hips : Forall ip_ok ips) (Hcount : len ips < 65536) :
  decode_dns_response (len (q_raw_question q)) (build_dns_response q ips ttl_seconds) =
  Some (mkDnsResponseView (q_id q) true (q_recursion_desired q) 0 1 (q_raw_question q)
          (map (fun ip => (DnsQuestionType_code (q_question_type q), ttl_seconds, ip))
             (List.filter (DnsQuestionType_matches_ip (q_question_type q)) ips))).
Proof.
  unfold build_dns_response. set (answers := List.filter _ ips).
  assert (len answers <= len ips) as Hle.
  { unfold answers, len. apply Nat2Z.inj_le, List.filter_length_le. }
  assert (Forall ip_ok answers) as Hans.
  { apply List.Forall_forall. intros ip Hin. apply List.filter_In in Hin as [Hin _].
    by apply (proj1 (List.Forall_forall _ _) Hips). }
  pose proof (len_nonneg answers).
  unfold as_u16. rewrite Z.mod_small by lia.
  rewrite decode_response_header by (done || (unfold is_u16; lia)).
  unfold len at 1. rewrite Nat2Z.id. by rewrite decode_answers_records.
Qed.

(** A client that decodes a built response finds the identifier, the
    recursion flag and the question of the query it sent, return code 0, and
    exactly the addresses of the family it asked for, in order, with the given
    TTL. *)
Theorem build_dns_response_decodes q ips ttl_seconds
  (Hid : is_u16 (q_id q)) (Htype : is_u16 (DnsQuestionType_code (q_question_type q)))
  (Httl : is_u32 ttl_seconds) (Hips : Forall ip_ok ips) (Hcount : len ips < 65536) :
  decode_dns_response (len (q_raw_question q)) (build_dns_response q ips ttl_seconds) =
  Some (mkDnsResponseView (q_id q) true (q_recursion_desired q) 0 1 (q_raw_question q)
          (map (fun ip => (DnsQuestionType_code (q_question_type q), ttl_seconds, ip))
             (List.filter (DnsQuestionType_matches_ip (q_question_type q)) ips))).
Proof. by apply decode_built_response. Qed.

Lemma build_dns_response_decodes_witness :
  decode_dns_response 7
    (build_dns_response (mkDnsWireQuestion 7 "a" QType_A [1; 97; 0; 0; 1; 0; 1] true)
       [V4 3232235777; V6 1; V4 16909060] 60) =
  Some (mkDnsResponseView 7 true true 0 1 [1; 97; 0; 0; 1; 0; 1]
          [(1, 60, V4 3232235777); (1, 60, V4 16909060)]).
Proof.
  apply (build_dns_response_decodes
           (mkDnsWireQuestion 7 "a" QType_A [1; 97; 0; 0; 1; 0; 1] true)
           [V4 3232235777; V6 1; V4 16909060] 60).
  - split; vm_compute; congruence.
  - split; vm_compute; congruence.
  - split; vm_compute; congruence.
  - repeat constructor; vm_compute; congruence.
  - reflexivity.
Defined.

Lemma decode_error_response q rcode
  (Hid : is_u16 (q_id q)) (Hrcode : 0 <= rcode < 16) :
  decode_dns_response (len (q_raw_question q)) (build_dns_error_response q rcode) =
    Some (mkDnsResponseView (q_id q) true (q_recursion_desired q) rcode 1
            (q_raw_question q) []).
Proof.
  unfold build_dns_error_response.
  replace (Z.land rcode 15) with rcode
    by (change 15 with (Z.ones 4); rewrite Z.land_ones, Z.mod_small by lia; done).
  rewrite <- (app_nil_r (q_raw_question q)) at 2.
  by rewrite decode_response_header by (done || (unfold is_u16; lia)).
Qed.

(** An error response decodes to the query's identifier and question with
    the return code asked for and no answers; and no response is taken for a
    query again. *)
Theorem build_dns_error_response_decodes q rcode
  (Hid : is_u16 (q_id q)) (Hrcode : 0 <= rcode < 16) :
  decode_dns_response (len (q_raw_question q)) (build_dns_error_response q rcode) =
    Some (mkDnsResponseView (q_id q) true (q_recursion_desired q) rcode 1
            (q_raw_question q) []) /\
  parse_dns_query (build_dns_error_response q rcode) = Err Dns_ResponsePacket.
Proof.
  split; [by apply decode_error_response|]. unfold build_dns_error_response.
  replace (Z.land rcode 15) with rcode
    by (change 15 with (Z.ones 4); rewrite Z.land_ones, Z.mod_small by lia; done).
  assert (In rcode (map Z.of_nat (seq 0 16))) as Hin.
  { apply in_map_iff. exists (Z.to_nat rcode). rewrite in_seq. lia. }
  cbn [map seq In] in Hin. unfold parse_dns_query.
  rewrite len_app. pose proof (len_nonneg (q_raw_question q)).
  change (len (dns_response_header q rcode 0)) with 12.
  replace (_ <? 12) with false by lia.
  unfold dns_response_header. destruct (q_recursion_desired q);
    repeat (destruct Hin as [<-|Hin]; [reflexivity|]); done.
Qed.

Lemma build_dns_error_response_decodes_witness :
  parse_dns_query (build_dns_error_response
    (mkDnsWireQuestion 7 "a" QType_A [1; 97; 0; 0; 1; 0; 1] true) 3) = Err Dns_ResponsePacket.
Proof.
  apply build_dns_error_response_decodes; [split; vm_compute; congruence | lia].
Defined.

(** ** Policies and cache *)

Section Engine.
Context {R : Type} `{DnsResolver R}.

(** The engine with another resolver in place of its own. *)
Definition with_resolver (r : R) (self : DnsEngine R) : DnsEngine R :=
  mkDnsEngine r (dns_cache self) (dns_policy self) (dns_address_family_policy self).

Lemma lower_ascii_dot a : Ascii.eqb (lower_ascii a) "."%char = Ascii.eqb a "."%char.
Proof. destruct a as [[] [] [] [] [] [] [] []]; reflexivity. Qed.

Lemma trim_end_lowercase s :
  trim_end_matches "."%char (to_ascii_lowercase s) =
  to_ascii_lowercase (trim_end_matches "."%char s).
Proof.
  induction s as [|a s IH]; [done|]. cbn [to_ascii_lowercase trim_end_matches]. rewrite IH.
  destruct (trim_end_matches "."%char s); cbn [to_ascii_lowercase]; [|done].
  rewrite lower_ascii_dot. by destruct (Ascii.eqb a "."%char).
Qed.

Lemma trim_end_idem s :
  trim_end_matches "."%char (trim_end_matches "."%char s) = trim_end_matches "."%char s.
Proof.
  induction s as [|a s IH]; [done|]. cbn [trim_end_matches].
  destruct (trim_end_matches "."%char s) as [|b t].
  - destruct (Ascii.eqb a "."%char) eqn:Ha; cbn; [done|by rewrite Ha].
  - cbn [trim_end_matches] in *. by rewrite IH.
Qed.

Lemma normalize_host_idem h : normalize_host (normalize_host h) = normalize_host h.
Proof. unfold normalize_host. by rewrite trim_end_lowercase, to_ascii_lowercase_idem, trim_end_idem. Qed.

(** C7: no DNS leak. Under [PreventPublicLeak] a resolution neither depends
    on the resolver nor changes the engine: with any other resolver, and at any
    other instant, the result is the same, whatever the host. *)
Theorem prevent_public_leak_no_lookup self r host port now now'
  (Hpolicy : dns_policy self = PreventPublicLeak) :
  DnsEngine_resolve host port now self =
    (self, snd (DnsEngine_resolve host port now' (with_resolver r self))) /\
  fst (DnsEngine_resolve host port now' (with_resolver r self)) = with_resolver r self.
Proof.
  unfold DnsEngine_resolve, sm_bind, sm_get. cbn [dns_policy dns_address_family_policy with_resolver].
  destruct (parse_ip_addr _); [by destruct (negb _)|].
  rewrite bool_decide_true by done. by destruct (String.eqb _ _).
Qed.

(** Under [PreventPublicLeak] a name that is no address literal resolves
    only if it is [localhost], and then to loopback addresses. *)
Theorem prevent_public_leak_loopback_only self host port now engine addresses
  (Hpolicy : dns_policy self = PreventPublicLeak)
  (Hname : parse_ip_addr (normalize_host host) = None)
  (Hok : DnsEngine_resolve host port now self = (engine, Ok addresses)) :
  normalize_host host = "localhost" /\
  Forall (fun a => resolved_ip a = V4 ipv4_localhost \/ resolved_ip a = V6 ipv6_localhost)
    addresses.
Proof.
  unfold DnsEngine_resolve, sm_bind, sm_get in Hok. rewrite Hname in Hok.
  rewrite bool_decide_true in Hok by done.
  destruct (String.eqb_spec (normalize_host host) "localhost"); [|done].
  injection Hok as _ <-. split; [done|].
  destruct (dns_address_family_policy self);
    repeat first [apply List.Forall_nil | apply List.Forall_cons; [cbn; auto|]].
Qed.

Lemma filter_family_ok family port ips :
  Forall (fun a => address_family_matches (resolved_ip a) family = true /\ resolved_port a = port)
    (map (fun ip => mkResolvedAddress ip port)
       (List.filter (fun ip => address_family_matches ip family) ips)).
Proof.
  apply List.Forall_forall. intros a Ha. apply in_map_iff in Ha as (ip & <- & Hin).
  apply List.filter_In in Hin as [_ Hin]. done.
Qed.

(** A successful resolution gives at least one address, and every
    address has the port asked for and a family the policy admits. *)
Theorem resolve_respects_family self host port now engine addresses
  (Hok : DnsEngine_resolve host port now self = (engine, Ok addresses)) :
  addresses <> [] /\
  Forall (fun a => address_family_matches (resolved_ip a) (dns_address_family_policy self) = true
                   /\ resolved_port a = port) addresses.
Proof.
  unfold DnsEngine_resolve, sm_bind, sm_get, sm_lift, sm_ret in Hok.
  destruct (parse_ip_addr _) as [ip|].
  - destruct (address_family_matches ip _) eqn:Hf; [|done]. injection Hok as _ <-. eauto.
  - destruct (bool_decide _).
    + destruct (String.eqb _ _); [|done]. injection Hok as _ <-.
      destruct (dns_address_family_policy self); cbn; split; first [done | repeat constructor].
    + destruct (lookup_ips _ _ self) as [e [ips|?|]]; [|done|done].
      set (l := List.filter _ ips) in Hok. destruct (is_empty l) eqn:Hl; [done|].
      injection Hok as _ <-. split; [|apply filter_family_ok].
      by destruct l.
Qed.

Lemma lookup_ips_cached self host now ips :
  DnsCache_get (dns_cache self) host now = Some ips -> lookup_ips host now self = (self, Ok ips).
Proof. intros Hg. unfold lookup_ips, sm_bind, sm_get. by rewrite Hg. Qed.

Lemma DnsCache_get_insert cache host ips now now' :
  DnsCache_get (DnsCache_insert cache (normalize_host host) ips now) (normalize_host host) now' =
  if now' <? now + cache_ttl cache then Some ips else None.
Proof.
  unfold DnsCache_get, DnsCache_insert. cbn [cache_entries cache_ttl].
  by rewrite normalize_host_idem, lookup_insert_eq.
Qed.

(** Two resolutions of one name in a row, the resolver changed in between. *)
Definition resolve_twice (self : DnsEngine R) (r : R) (host : string) (port now now' : Z)
  : result DnsError (list ResolvedAddress) * result DnsError (list ResolvedAddress) :=
  let '(engine, first) := DnsEngine_resolve host port now self in
  (first, snd (DnsEngine_resolve host port now' (with_resolver r engine))).

(** An answer of the resolver is cached: until [ttl] after it was stored
    the same name resolves to the same addresses, whatever the resolver would
    answer then. *)
Theorem resolve_cached self r host port now now' addresses
  (Hmiss : DnsCache_get (dns_cache self) (normalize_host host) now = None)
  (Hlive : now' < now + cache_ttl (dns_cache self))
  (Hok : fst (resolve_twice self r host port now now') = Ok addresses) :
  snd (resolve_twice self r host port now now') = Ok addresses.
Proof.
  unfold resolve_twice in *.
  destruct (DnsEngine_resolve host port now self) as [engine first] eqn:He.
  cbn [fst snd] in *. subst first.
  unfold DnsEngine_resolve, sm_bind, sm_get, sm_lift, sm_ret in *.
  destruct (parse_ip_addr (normalize_host host)) as [ip|].
  { destruct (negb _) eqn:Hn; [done|]. injection He as <- <-. cbn. by rewrite Hn. }
  destruct (bool_decide (dns_policy self = _)) eqn:Hp.
  { destruct (String.eqb _ _) eqn:Hl; [|done]. injection He as <- <-.
    cbn [with_resolver dns_policy dns_address_family_policy]. by rewrite Hp. }
  unfold lookup_ips, sm_bind, sm_get, sm_lift, sm_ret, sm_modify in He. rewrite Hmiss in He.
  destruct (resolver_resolve _ _ _) as [ips|?|]; [|done|done].
  destruct (is_empty ips); [done|]. destruct (is_empty (List.filter _ ips)) eqn:Hf; [done|].
  injection He as <- <-. cbn [with_resolver set_dns_cache dns_policy dns_address_family_policy].
  rewrite Hp. erewrite lookup_ips_cached.
  2:{ cbn [dns_cache with_resolver set_dns_cache]. rewrite DnsCache_get_insert.
      by rewrite (proj2 (Z.ltb_lt _ _) Hlive). }
  by rewrite Hf.
Qed.

(** Failures are not cached: a resolution that fails at the resolver, or
    that the resolver answers with no address, leaves the engine unchanged. *)
Theorem resolve_failure_not_cached self host port now
  (Hfail : match resolver_resolve (dns_resolver self) now (normalize_host host) with
           | Ok ips => ips = []
           | _ => True
           end) :
  fst (DnsEngine_resolve host port now self) = self.
Proof.
  unfold DnsEngine_resolve, lookup_ips, sm_bind, sm_get, sm_lift, sm_ret, sm_modify.
  destruct (parse_ip_addr _); [by destruct (negb _)|].
  destruct (bool_decide _); [by destruct (String.eqb _ _)|].
  destruct (DnsCache_get _ _ _); [by destruct (is_empty _)|].
  destruct (resolver_resolve _ _ _); [|done|done]. by subst.
Qed.

End Engine.

(** A resolver with one fixed answer, and one that always fails. *)
Definition fixed_answer : DnsResolver (option (list IpAddr)) := {|
  resolver_resolve r _ host :=
    match r with Some ips => Ok ips | None => Err (ResolveFailed host "down") end
|}.

#[local] Existing Instance fixed_answer.

Definition sample_engine (policy : DnsLocalResolutionPolicy) (family : DnsAddressFamilyPolicy)
  : DnsEngine (option (list IpAddr)) :=
  DnsEngine_with_policies (Some [V4 16909060; V6 1]) (DnsCache_new 30) policy family.

Lemma prevent_public_leak_no_lookup_witness :
  DnsEngine_resolve "Example.com." 53 5 (sample_engine PreventPublicLeak DualStack) =
  (sample_engine PreventPublicLeak DualStack,
   Err (LocalResolutionBlocked "example.com" PreventPublicLeak)).
Proof.
  rewrite (proj1 (prevent_public_leak_no_lookup (sample_engine PreventPublicLeak DualStack) None
    "Example.com." 53 5 9 eq_refl)).
  reflexivity.
Defined.

Lemma prevent_public_leak_loopback_only_witness :
  Forall (fun a => resolved_ip a = V4 ipv4_localhost \/ resolved_ip a = V6 ipv6_localhost)
    [mkResolvedAddress (V4 ipv4_localhost) 80].
Proof.
  refine (proj2 (prevent_public_leak_loopback_only (sample_engine PreventPublicLeak Ipv4Only)
    "LOCALHOST" 80 0 (sample_engine PreventPublicLeak Ipv4Only) _ _ _ _)); reflexivity.
Defined.

Lemma resolve_respects_family_witness :
  [mkResolvedAddress (V6 1) 80] <> [].
Proof.
  refine (proj1 (resolve_respects_family (sample_engine AllowSystem Ipv6Only)
    "example.com" 80 0 (fst (DnsEngine_resolve "example.com" 80 0 (sample_engine AllowSystem Ipv6Only)))
    _ _)).
  vm_compute. reflexivity.
Defined.

Lemma resolve_cached_witness :
  snd (resolve_twice (sample_engine AllowSystem Ipv4Only) None "example.com" 80 100 129) =
  Ok [mkResolvedAddress (V4 16909060) 80].
Proof.
  apply resolve_cached; [reflexivity | cbn; lia | vm_compute; reflexivity].
Defined.

Lemma resolve_failure_not_cached_witness :
  fst (DnsEngine_resolve "example.com" 80 0
    (DnsEngine_new (None : option (list IpAddr)) (DnsCache_new 30))) =
  DnsEngine_new None (DnsCache_new 30).
Proof. apply resolve_failure_not_cached. exact I. Defined.
