(* ===== verification/TunPacket.v ===== *)
(** * IP, TCP and UDP packets on the TUN device

    [crates/keli-net-core/src/tun.rs]: flows, the IPv4/IPv6 packet parser, the
    TCP segment and UDP payload views, the Internet checksums and the response
    packet builders. Slice accesses and buffer writes are modelled with their
    bounds ([Panic] outside), so that the parser's safety is a theorem and not
    an assumption. *)

From stdpp Require Import base gmap strings list numbers.
From S2P Require Import Prelude.
From S2P Require Import StdNet.
From S2P Require Import Route.
From S2P Require Import Dns.
#[local] Open Scope Z_scope.

(** ** Flows *)

Inductive TunIpVersion : Type := Ipv4 | Ipv6.

Inductive TunTransportProtocol : Type :=
| Proto_Tcp
| Proto_Udp
| Proto_Icmp
| Proto_Icmpv6
| Proto_Other (value : Z).

Definition from_ip_protocol_number (value : Z) : TunTransportProtocol :=
  if value =? 1 then Proto_Icmp
  else if value =? 6 then Proto_Tcp
  else if value =? 17 then Proto_Udp
  else if value =? 58 then Proto_Icmpv6
  else Proto_Other value.

Definition ip_protocol_number (self : TunTransportProtocol) : Z :=
  match self with
  | Proto_Icmp => 1
  | Proto_Tcp => 6
  | Proto_Udp => 17
  | Proto_Icmpv6 => 58
  | Proto_Other value => value
  end.

Record TunPacketFlow : Type := mkTunPacketFlow {
  flow_ip_version : TunIpVersion;
  flow_protocol : TunTransportProtocol;
  flow_source_ip : IpAddr;
  flow_destination_ip : IpAddr;
  flow_source_port : option Z;
  flow_destination_port : option Z
}.

#[export] Instance TunIpVersion_eq_dec : EqDecision TunIpVersion.
Proof. solve_decision. Defined.

#[export] Instance TunTransportProtocol_eq_dec : EqDecision TunTransportProtocol.
Proof. solve_decision. Defined.

#[export] Instance TunPacketFlow_eq_dec : EqDecision TunPacketFlow.
Proof. solve_decision. Defined.

(** [OutboundTarget] of [direct.rs]. *)
Record OutboundTarget : Type := mkOutboundTarget {
  target_host : string;
  target_port : Z
}.

#[export] Instance OutboundTarget_eq_dec : EqDecision OutboundTarget.
Proof. solve_decision. Defined.

Definition OutboundTarget_new (host : string) (port : Z) : OutboundTarget :=
  mkOutboundTarget host port.

Definition route_destination (self : TunPacketFlow) : RouteDestination :=
  RouteDestination_new (Target_Ip (flow_destination_ip self))
    (default 0 (flow_destination_port self)).

Definition source_socket_addr (self : TunPacketFlow) : option SocketAddr :=
  mkSocketAddr (flow_source_ip self) <$> flow_source_port self.

Definition destination_socket_addr (self : TunPacketFlow) : option SocketAddr :=
  mkSocketAddr (flow_destination_ip self) <$> flow_destination_port self.

Definition destination_outbound_target (self : TunPacketFlow) : option OutboundTarget :=
  OutboundTarget_new (ip_to_string (flow_destination_ip self)) <$> flow_destination_port self.

Definition is_dns_hijack_candidate (self : TunPacketFlow) : bool :=
  bool_decide (flow_protocol self = Proto_Udp)
  && bool_decide (flow_destination_port self = Some 53).

(** ** TCP flags *)

Record TunTcpFlags : Type := mkTunTcpFlags { flag_bits : Z }.

#[export] Instance TunTcpFlags_eq_dec : EqDecision TunTcpFlags.
Proof. solve_decision. Defined.

Definition from_bits (bits : Z) : TunTcpFlags := mkTunTcpFlags (Z.land bits 511).

Definition has_flag (mask : Z) (self : TunTcpFlags) : bool :=
  negb (Z.land (flag_bits self) mask =? 0).

Definition flag_ns : TunTcpFlags -> bool := has_flag 256.
Definition flag_cwr : TunTcpFlags -> bool := has_flag 128.
Definition flag_ece : TunTcpFlags -> bool := has_flag 64.
Definition flag_urg : TunTcpFlags -> bool := has_flag 32.
Definition flag_ack : TunTcpFlags -> bool := has_flag 16.
Definition flag_psh : TunTcpFlags -> bool := has_flag 8.
Definition flag_rst : TunTcpFlags -> bool := has_flag 4.
Definition flag_syn : TunTcpFlags -> bool := has_flag 2.
Definition flag_fin : TunTcpFlags -> bool := has_flag 1.

(** ** Views and errors *)

Record TunUdpPayload : Type := mkTunUdpPayload {
  udp_flow : TunPacketFlow;
  udp_payload : list Z
}.

Record TunTcpSegment : Type := mkTunTcpSegment {
  seg_flow : TunPacketFlow;
  seg_sequence_number : Z;
  seg_acknowledgment_number : Z;
  seg_header_len : Z;
  seg_flags : TunTcpFlags;
  seg_window_size : Z;
  seg_payload : list Z
}.

Inductive TunPacketError : Type :=
| PacketTooShort
| UnsupportedIpVersion (version : Z)
| Ipv4HeaderTooShort (header_len packet_len : Z)
| Ipv4TotalLengthTooShort (total_length header_len : Z)
| Ipv4PacketTruncated (total_length packet_len : Z)
| Ipv4FragmentedPacket (fragment_offset : Z) (more_fragments : bool)
| Ipv6PacketTruncated (total_length packet_len : Z)
| Ipv6ExtensionHeaderUnsupported (next_header : Z)
| Ipv6ExtensionHeaderTruncated (next_header required_len available_len : Z)
| TransportHeaderTooShort (protocol : TunTransportProtocol) (required_len available_len : Z)
| ExpectedUdpPayload (protocol : TunTransportProtocol)
| ExpectedTcpSegment (protocol : TunTransportProtocol)
| ExpectedTcpSynSegment (flags : TunTcpFlags)
| TcpSessionLimitExceeded (active_sessions max_active_sessions : Z)
| TcpDataOffsetTooSmall (data_offset : Z)
| TcpSegmentTruncated (header_len available_len : Z)
| UdpLengthTooShort (udp_length : Z)
| UdpPacketTruncated (udp_length available_len : Z)
| NotDnsHijackCandidate (destination_port : option Z)
| MissingUdpSocketAddress
| MissingTcpSocketAddress
| IpVersionAddressMismatch (ip_version : TunIpVersion) (source_ip destination_ip : IpAddr)
| UdpResponsePayloadTooLarge (ip_version : TunIpVersion) (payload_len max_payload_len : Z)
| TcpResponsePayloadTooLarge (ip_version : TunIpVersion) (payload_len max_payload_len : Z)
| DnsResolve (error : DnsError)
| DnsWire (error : DnsWireError).

#[export] Instance TunPacketError_eq_dec : EqDecision TunPacketError.
Proof. solve_decision. Defined.

(** ** The packet parser *)

Record TunPacketParts : Type := mkTunPacketParts {
  parts_flow : TunPacketFlow;
  parts_transport_payload : list Z
}.

Definition parse_transport_ports (protocol : TunTransportProtocol) (payload : list Z)
  : result TunPacketError (option Z * option Z) :=
  match protocol with
  | Proto_Tcp | Proto_Udp =>
      if len payload <? 4 then Err (TransportHeaderTooShort protocol 4 (len payload))
      else
        p0 <-? index payload 0; p1 <-? index payload 1;
        p2 <-? index payload 2; p3 <-? index payload 3;
        Ok (Some (from_be_bytes [p0; p1]), Some (from_be_bytes [p2; p3]))
  | _ => Ok (None, None)
  end.

Definition parse_ipv4_packet_parts (packet : list Z) : result TunPacketError TunPacketParts :=
  if len packet <? 20 then Err PacketTooShort
  else
    b0 <-? index packet 0;
    let header_len := Z.land b0 15 * 4 in
    if (header_len <? 20) || (len packet <? header_len)
    then Err (Ipv4HeaderTooShort header_len (len packet))
    else
      b2 <-? index packet 2; b3 <-? index packet 3;
      let total_length := from_be_bytes [b2; b3] in
      if total_length <? header_len then Err (Ipv4TotalLengthTooShort total_length header_len)
      else if len packet <? total_length
      then Err (Ipv4PacketTruncated total_length (len packet))
      else
        b6 <-? index packet 6; b7 <-? index packet 7;
        let fragment_control := from_be_bytes [b6; b7] in
        let more_fragments := negb (Z.land fragment_control 8192 =? 0) in
        let fragment_offset := Z.land fragment_control 8191 in
        if more_fragments || negb (fragment_offset =? 0)
        then Err (Ipv4FragmentedPacket fragment_offset more_fragments)
        else
          b9 <-? index packet 9;
          let protocol := from_ip_protocol_number b9 in
          source <-? slice packet 12 16;
          destination <-? slice packet 16 20;
          transport_payload <-? slice packet header_len total_length;
          '(source_port, destination_port) <-? parse_transport_ports protocol transport_payload;
          Ok (mkTunPacketParts
                (mkTunPacketFlow Ipv4 protocol (V4 (from_be_bytes source))
                   (V4 (from_be_bytes destination)) source_port destination_port)
                transport_payload).

Definition is_ipv6_skippable_extension_header (next_header : Z) : bool :=
  (next_header =? 0) || (next_header =? 43) || (next_header =? 60).

Definition is_ipv6_extension_header (next_header : Z) : bool :=
  (next_header =? 0) || (next_header =? 43) || (next_header =? 44)
  || (next_header =? 50) || (next_header =? 51) || (next_header =? 60).

(** The [while] loop of [parse_ipv6_transport_header]. Every round moves
    [offset] by at least 8 bytes and never past [total_length], so a fuel of one
    more than the packet's length is never used up. *)
Fixpoint skip_ipv6_extension_headers (fuel : nat) (packet : list Z)
  (total_length next_header offset : Z) : result TunPacketError (Z * Z) :=
  match fuel with
  | O => Panic
  | S fuel' =>
      if is_ipv6_skippable_extension_header next_header then
        available_len <-? checked_sub total_length offset;
        if available_len <? 2
        then Err (Ipv6ExtensionHeaderTruncated next_header 2 available_len)
        else
          ext <-? index packet (offset + 1);
          let extension_len := (ext + 1) * 8 in
          if available_len <? extension_len
          then Err (Ipv6ExtensionHeaderTruncated next_header extension_len available_len)
          else
            next_header <-? index packet offset;
            skip_ipv6_extension_headers fuel' packet total_length next_header
              (offset + extension_len)
      else Ok (next_header, offset)
  end.

Definition parse_ipv6_transport_header (packet : list Z) (total_length next_header : Z)
  : result TunPacketError (Z * Z) :=
  '(next_header, offset) <-?
    skip_ipv6_extension_headers (S (length packet)) packet total_length next_header 40;
  if is_ipv6_extension_header next_header
  then Err (Ipv6ExtensionHeaderUnsupported next_header)
  else Ok (next_header, offset).

Definition parse_ipv6_packet_parts (packet : list Z) : result TunPacketError TunPacketParts :=
  if len packet <? 40 then Err PacketTooShort
  else
    b4 <-? index packet 4; b5 <-? index packet 5;
    let payload_length := from_be_bytes [b4; b5] in
    let total_length := 40 + payload_length in
    if len packet <? total_length then Err (Ipv6PacketTruncated total_length (len packet))
    else
      b6 <-? index packet 6;
      '(next_header, transport_offset) <-? parse_ipv6_transport_header packet total_length b6;
      let protocol := from_ip_protocol_number next_header in
      source <-? slice packet 8 24;
      destination <-? slice packet 24 40;
      transport_payload <-? slice packet transport_offset total_length;
      '(source_port, destination_port) <-? parse_transport_ports protocol transport_payload;
      Ok (mkTunPacketParts
            (mkTunPacketFlow Ipv6 protocol (V6 (from_be_bytes source))
               (V6 (from_be_bytes destination)) source_port destination_port)
            transport_payload).

Definition parse_tun_packet_parts (packet : list Z) : result TunPacketError TunPacketParts :=
  first <-? ok_or PacketTooShort (get_index packet 0);
  let version := Z.shiftr first 4 in
  if version =? 4 then parse_ipv4_packet_parts packet
  else if version =? 6 then parse_ipv6_packet_parts packet
  else Err (UnsupportedIpVersion version).

Definition parse_tun_packet_flow (packet : list Z) : result TunPacketError TunPacketFlow :=
  parts <-? parse_tun_packet_parts packet; Ok (parts_flow parts).

Definition parse_tun_tcp_segment (packet : list Z) : result TunPacketError TunTcpSegment :=
  parts <-? parse_tun_packet_parts packet;
  let protocol := flow_protocol (parts_flow parts) in
  let tp := parts_transport_payload parts in
  if negb (bool_decide (protocol = Proto_Tcp)) then Err (ExpectedTcpSegment protocol)
  else if len tp <? 20 then Err (TransportHeaderTooShort Proto_Tcp 20 (len tp))
  else
    b12 <-? index tp 12;
    let header_len := Z.shiftr b12 4 * 4 in
    if header_len <? 20 then Err (TcpDataOffsetTooSmall header_len)
    else if len tp <? header_len then Err (TcpSegmentTruncated header_len (len tp))
    else
      b13 <-? index tp 13;
      let flags := Z.lor (Z.shiftl (Z.land b12 1) 8) b13 in
      s0 <-? index tp 4; s1 <-? index tp 5; s2 <-? index tp 6; s3 <-? index tp 7;
      a0 <-? index tp 8; a1 <-? index tp 9; a2 <-? index tp 10; a3 <-? index tp 11;
      w0 <-? index tp 14; w1 <-? index tp 15;
      payload <-? slice tp header_len (len tp);
      Ok (mkTunTcpSegment (parts_flow parts) (from_be_bytes [s0; s1; s2; s3])
            (from_be_bytes [a0; a1; a2; a3]) header_len (from_bits flags)
            (from_be_bytes [w0; w1]) payload).

Definition parse_tun_udp_payload (packet : list Z) : result TunPacketError TunUdpPayload :=
  parts <-? parse_tun_packet_parts packet;
  let protocol := flow_protocol (parts_flow parts) in
  let tp := parts_transport_payload parts in
  if negb (bool_decide (protocol = Proto_Udp)) then Err (ExpectedUdpPayload protocol)
  else if len tp <? 8 then Err (TransportHeaderTooShort Proto_Udp 8 (len tp))
  else
    b4 <-? index tp 4; b5 <-? index tp 5;
    let udp_length := from_be_bytes [b4; b5] in
    if udp_length <? 8 then Err (UdpLengthTooShort udp_length)
    else if len tp <? udp_length then Err (UdpPacketTruncated udp_length (len tp))
    else
      payload <-? slice tp 8 udp_length;
      Ok (mkTunUdpPayload (parts_flow parts) payload).

(** ** Checksums *)

(** [*sum += ...] on a [u32], with the wrap-around of a release build;
    [checksum_sum_exact] below shows that it never wraps. *)
Fixpoint add_checksum_bytes (sum : Z) (bytes : list Z) : Z :=
  match bytes with
  | a :: b :: rest => add_checksum_bytes (as_u32 (sum + from_be_bytes [a; b])) rest
  | [last] => as_u32 (sum + Z.shiftl last 8)
  | [] => sum
  end.

(** The [while] loop of [finish_checksum]: two rounds fold any [u32]. *)
Fixpoint fold_checksum (fuel : nat) (sum : Z) : Z :=
  match fuel with
  | O => sum
  | S fuel' =>
      if 65535 <? sum
      then fold_checksum fuel' (Z.land sum 65535 + Z.shiftr sum 16)
      else sum
  end.

(** [!x] on a [u16]. *)
Definition not_u16 (x : Z) : Z := u16_max - x.

Definition finish_checksum (sum : Z) : Z := not_u16 (as_u16 (fold_checksum 4 sum)).

Definition checksum (bytes : list Z) : Z := finish_checksum (add_checksum_bytes 0 bytes).

Definition nonzero_checksum (sum : Z) : Z :=
  let checksum := finish_checksum sum in
  if checksum =? 0 then u16_max else checksum.

Definition udp_checksum_ipv4 (source_ip destination_ip : Z) (udp_datagram : list Z) : Z :=
  let sum := add_checksum_bytes 0 (v4_octets source_ip) in
  let sum := add_checksum_bytes sum (v4_octets destination_ip) in
  let sum := add_checksum_bytes sum [0; ip_protocol_number Proto_Udp] in
  let sum := add_checksum_bytes sum (to_be_bytes 2 (as_u16 (len udp_datagram))) in
  let sum := add_checksum_bytes sum udp_datagram in
  nonzero_checksum sum.

Definition udp_checksum_ipv6 (source_ip destination_ip : Z) (udp_datagram : list Z) : Z :=
  let sum := add_checksum_bytes 0 (v6_octets source_ip) in
  let sum := add_checksum_bytes sum (v6_octets destination_ip) in
  let sum := add_checksum_bytes sum (to_be_bytes 4 (as_u32 (len udp_datagram))) in
  let sum := add_checksum_bytes sum [0; 0; 0; ip_protocol_number Proto_Udp] in
  let sum := add_checksum_bytes sum udp_datagram in
  nonzero_checksum sum.

Definition tcp_checksum_ipv4 (source_ip destination_ip : Z) (tcp_segment : list Z) : Z :=
  let sum := add_checksum_bytes 0 (v4_octets source_ip) in
  let sum := add_checksum_bytes sum (v4_octets destination_ip) in
  let sum := add_checksum_bytes sum [0; ip_protocol_number Proto_Tcp] in
  let sum := add_checksum_bytes sum (to_be_bytes 2 (as_u16 (len tcp_segment))) in
  let sum := add_checksum_bytes sum tcp_segment in
  finish_checksum sum.

Definition tcp_checksum_ipv6 (source_ip destination_ip : Z) (tcp_segment : list Z) : Z :=
  let sum := add_checksum_bytes 0 (v6_octets source_ip) in
  let sum := add_checksum_bytes sum (v6_octets destination_ip) in
  let sum := add_checksum_bytes sum (to_be_bytes 4 (as_u32 (len tcp_segment))) in
  let sum := add_checksum_bytes sum [0; 0; 0; ip_protocol_number Proto_Tcp] in
  let sum := add_checksum_bytes sum tcp_segment in
  finish_checksum sum.

(** ** The packet builders *)

Definition write_udp_datagram (datagram : list Z) (source_port destination_port : Z)
  (payload : list Z) : result TunPacketError (list Z) :=
  let udp_length := 8 + len payload in
  datagram <-? copy_range datagram 0 2 (to_be_bytes 2 source_port);
  datagram <-? copy_range datagram 2 4 (to_be_bytes 2 destination_port);
  datagram <-? copy_range datagram 4 6 (to_be_bytes 2 (as_u16 udp_length));
  datagram <-? copy_range datagram 6 8 (to_be_bytes 2 0);
  copy_range datagram 8 (len datagram) payload.

Definition write_tcp_segment (segment : list Z) (source_port destination_port : Z)
  (sequence_number acknowledgment_number : Z) (flags : TunTcpFlags) (window_size : Z)
  (payload : list Z) : result TunPacketError (list Z) :=
  segment <-? copy_range segment 0 2 (to_be_bytes 2 source_port);
  segment <-? copy_range segment 2 4 (to_be_bytes 2 destination_port);
  segment <-? copy_range segment 4 8 (to_be_bytes 4 sequence_number);
  segment <-? copy_range segment 8 12 (to_be_bytes 4 acknowledgment_number);
  segment <-? set_index segment 12
    (Z.lor (Z.shiftl 5 4) (as_u8 (Z.land (Z.shiftr (flag_bits flags) 8) 1)));
  segment <-? set_index segment 13 (as_u8 (flag_bits flags));
  segment <-? copy_range segment 14 16 (to_be_bytes 2 window_size);
  segment <-? copy_range segment 16 18 (to_be_bytes 2 0);
  segment <-? copy_range segment 18 20 (to_be_bytes 2 0);
  copy_range segment 20 (len segment) payload.

(** [f(&mut packet[offset..])]. *)
Definition write_tail (packet : list Z) (offset : Z)
  (f : list Z -> result TunPacketError (list Z)) : result TunPacketError (list Z) :=
  tail <-? slice packet offset (len packet);
  tail <-? f tail;
  copy_range packet offset (len packet) tail.

Definition build_ipv4_udp_response_packet (source_ip destination_ip : Z)
  (source_port destination_port : Z) (payload : list Z) : result TunPacketError (list Z) :=
  let udp_length := 8 + len payload in
  let total_length := 20 + udp_length in
  let packet := zeroed total_length in
  packet <-? set_index packet 0 69;
  packet <-? copy_range packet 2 4 (to_be_bytes 2 (as_u16 total_length));
  packet <-? set_index packet 8 64;
  packet <-? set_index packet 9 (ip_protocol_number Proto_Udp);
  packet <-? copy_range packet 12 16 (v4_octets source_ip);
  packet <-? copy_range packet 16 20 (v4_octets destination_ip);
  packet <-? write_tail packet 20 (fun tail =>
    write_udp_datagram tail source_port destination_port payload);
  datagram <-? slice packet 20 (len packet);
  let udp_checksum := udp_checksum_ipv4 source_ip destination_ip datagram in
  packet <-? copy_range packet 26 28 (to_be_bytes 2 udp_checksum);
  header <-? slice packet 0 20;
  let header_checksum := checksum header in
  copy_range packet 10 12 (to_be_bytes 2 header_checksum).

Definition build_ipv6_udp_response_packet (source_ip destination_ip : Z)
  (source_port destination_port : Z) (payload : list Z) : result TunPacketError (list Z) :=
  let udp_length := 8 + len payload in
  let packet := zeroed (40 + udp_length) in
  packet <-? set_index packet 0 96;
  packet <-? copy_range packet 4 6 (to_be_bytes 2 (as_u16 udp_length));
  packet <-? set_index packet 6 (ip_protocol_number Proto_Udp);
  packet <-? set_index packet 7 64;
  packet <-? copy_range packet 8 24 (v6_octets source_ip);
  packet <-? copy_range packet 24 40 (v6_octets destination_ip);
  packet <-? write_tail packet 40 (fun tail =>
    write_udp_datagram tail source_port destination_port payload);
  datagram <-? slice packet 40 (len packet);
  let udp_checksum := udp_checksum_ipv6 source_ip destination_ip datagram in
  copy_range packet 46 48 (to_be_bytes 2 udp_checksum).

Definition build_ipv4_tcp_response_packet (source_ip destination_ip : Z)
  (source_port destination_port sequence_number acknowledgment_number : Z)
  (flags : TunTcpFlags) (window_size : Z) (payload : list Z)
  : result TunPacketError (list Z) :=
  let tcp_length := 20 + len payload in
  let total_length := 20 + tcp_length in
  let packet := zeroed total_length in
  packet <-? set_index packet 0 69;
  packet <-? copy_range packet 2 4 (to_be_bytes 2 (as_u16 total_length));
  packet <-? set_index packet 8 64;
  packet <-? set_index packet 9 (ip_protocol_number Proto_Tcp);
  packet <-? copy_range packet 12 16 (v4_octets source_ip);
  packet <-? copy_range packet 16 20 (v4_octets destination_ip);
  packet <-? write_tail packet 20 (fun tail =>
    write_tcp_segment tail source_port destination_port sequence_number
      acknowledgment_number flags window_size payload);
  segment <-? slice packet 20 (len packet);
  let tcp_checksum := tcp_checksum_ipv4 source_ip destination_ip segment in
  packet <-? copy_range packet 36 38 (to_be_bytes 2 tcp_checksum);
  header <-? slice packet 0 20;
  let header_checksum := checksum header in
  copy_range packet 10 12 (to_be_bytes 2 header_checksum).

Definition build_ipv6_tcp_response_packet (source_ip destination_ip : Z)
  (source_port destination_port sequence_number acknowledgment_number : Z)
  (flags : TunTcpFlags) (window_size : Z) (payload : list Z)
  : result TunPacketError (list Z) :=
  let tcp_length := 20 + len payload in
  let packet := zeroed (40 + tcp_length) in
  packet <-? set_index packet 0 96;
  packet <-? copy_range packet 4 6 (to_be_bytes 2 (as_u16 tcp_length));
  packet <-? set_index packet 6 (ip_protocol_number Proto_Tcp);
  packet <-? set_index packet 7 64;
  packet <-? copy_range packet 8 24 (v6_octets source_ip);
  packet <-? copy_range packet 24 40 (v6_octets destination_ip);
  packet <-? write_tail packet 40 (fun tail =>
    write_tcp_segment tail source_port destination_port sequence_number
      acknowledgment_number flags window_size payload);
  segment <-? slice packet 40 (len packet);
  let tcp_checksum := tcp_checksum_ipv6 source_ip destination_ip segment in
  copy_range packet 56 58 (to_be_bytes 2 tcp_checksum).

Definition build_tun_udp_response_packet (flow : TunPacketFlow) (payload : list Z)
  : result TunPacketError (list Z) :=
  if negb (bool_decide (flow_protocol flow = Proto_Udp))
  then Err (ExpectedUdpPayload (flow_protocol flow))
  else
    source_port <-? ok_or MissingUdpSocketAddress (flow_destination_port flow);
    destination_port <-? ok_or MissingUdpSocketAddress (flow_source_port flow);
    match flow_ip_version flow, flow_destination_ip flow, flow_source_ip flow with
    | Ipv4, V4 source_ip, V4 destination_ip =>
        let max_payload_len := u16_max - 20 - 8 in
        if max_payload_len <? len payload
        then Err (UdpResponsePayloadTooLarge (flow_ip_version flow) (len payload) max_payload_len)
        else build_ipv4_udp_response_packet source_ip destination_ip source_port
               destination_port payload
    | Ipv6, V6 source_ip, V6 destination_ip =>
        let max_payload_len := u16_max - 8 in
        if max_payload_len <? len payload
        then Err (UdpResponsePayloadTooLarge (flow_ip_version flow) (len payload) max_payload_len)
        else build_ipv6_udp_response_packet source_ip destination_ip source_port
               destination_port payload
    | _, _, _ =>
        Err (IpVersionAddressMismatch (flow_ip_version flow) (flow_source_ip flow)
               (flow_destination_ip flow))
    end.

Definition build_tun_tcp_response_packet (flow : TunPacketFlow)
  (sequence_number acknowledgment_number : Z) (flags : TunTcpFlags) (window_size : Z)
  (payload : list Z) : result TunPacketError (list Z) :=
  if negb (bool_decide (flow_protocol flow = Proto_Tcp))
  then Err (ExpectedTcpSegment (flow_protocol flow))
  else
    source_port <-? ok_or MissingTcpSocketAddress (flow_destination_port flow);
    destination_port <-? ok_or MissingTcpSocketAddress (flow_source_port flow);
    match flow_ip_version flow, flow_destination_ip flow, flow_source_ip flow with
    | Ipv4, V4 source_ip, V4 destination_ip =>
        let max_payload_len := u16_max - 20 - 20 in
        if max_payload_len <? len payload
        then Err (TcpResponsePayloadTooLarge (flow_ip_version flow) (len payload) max_payload_len)
        else build_ipv4_tcp_response_packet source_ip destination_ip source_port
               destination_port sequence_number acknowledgment_number flags window_size payload
    | Ipv6, V6 source_ip, V6 destination_ip =>
        let max_payload_len := u16_max - 20 in
        if max_payload_len <? len payload
        then Err (TcpResponsePayloadTooLarge (flow_ip_version flow) (len payload) max_payload_len)
        else build_ipv6_tcp_response_packet source_ip destination_ip source_port
               destination_port sequence_number acknowledgment_number flags window_size payload
    | _, _, _ =>
        Err (IpVersionAddressMismatch (flow_ip_version flow) (flow_source_ip flow)
               (flow_destination_ip flow))
    end.

(** ** Sequence arithmetic of a segment *)

Definition tcp_segment_sequence_len (segment : TunTcpSegment) : Z :=
  let sequence_len := as_u32 (len (seg_payload segment)) in
  let sequence_len :=
    if flag_syn (seg_flags segment) then wrapping_add32 sequence_len 1 else sequence_len in
  if flag_fin (seg_flags segment) then wrapping_add32 sequence_len 1 else sequence_len.

Definition tcp_segment_next_sequence_number (segment : TunTcpSegment) : Z :=
  wrapping_add32 (seg_sequence_number segment) (tcp_segment_sequence_len segment).

Definition is_initial_tcp_syn_segment (segment : TunTcpSegment) : bool :=
  flag_syn (seg_flags segment) && negb (flag_ack (seg_flags segment))
  && negb (flag_rst (seg_flags segment)).

Definition tcp_reset_sequence_number (segment : TunTcpSegment) : Z :=
  if flag_ack (seg_flags segment) then seg_acknowledgment_number segment else 0.

Definition tcp_reset_acknowledgment_number (segment : TunTcpSegment) : Z :=
  tcp_segment_next_sequence_number segment.

Definition build_tun_tcp_reset_response_packet (segment : TunTcpSegment)
  : result TunPacketError (list Z) :=
  build_tun_tcp_response_packet (seg_flow segment) (tcp_reset_sequence_number segment)
    (tcp_reset_acknowledgment_number segment) (from_bits 20) 0 [].

Definition build_tun_tcp_syn_ack_response_packet (segment : TunTcpSegment)
  (server_initial_sequence_number window_size : Z) : result TunPacketError (list Z) :=
  if negb (is_initial_tcp_syn_segment segment)
  then Err (ExpectedTcpSynSegment (seg_flags segment))
  else
    build_tun_tcp_response_packet (seg_flow segment) server_initial_sequence_number
      (tcp_segment_next_sequence_number segment) (from_bits 18) window_size [].

Definition build_tun_tcp_ack_response_packet (flow : TunPacketFlow)
  (sequence_number acknowledgment_number window_size : Z) : result TunPacketError (list Z) :=
  build_tun_tcp_response_packet flow sequence_number acknowledgment_number
    (from_bits 16) window_size [].

Definition build_tun_tcp_payload_response_packet (flow : TunPacketFlow)
  (sequence_number acknowledgment_number window_size : Z) (payload : list Z)
  : result TunPacketError (list Z) :=
  build_tun_tcp_response_packet flow sequence_number acknowledgment_number
    (from_bits 24) window_size payload.

Definition build_tun_tcp_fin_ack_response_packet (flow : TunPacketFlow)
  (sequence_number acknowledgment_number window_size : Z) : result TunPacketError (list Z) :=
  build_tun_tcp_response_packet flow sequence_number acknowledgment_number
    (from_bits 17) window_size [].
