(* ===== verification/TunPacketBuild.v ===== *)
(** * Packets: safety of the parser, layout, round trips and checksums of what is built

    No input makes the parsers of [tun.rs] panic, and what they accept is well formed.

    The builders of [tun.rs] write headers into a zeroed buffer; here their result is shown
    to be the concatenation of the protocol headers and the payload, which the parser reads
    back, and whose checksums a receiver accepts. *)

From stdpp Require Import base gmap strings list numbers.
From S2P Require Import Prelude.
From S2P Require Import StdNet.
From S2P Require Import Dns.
From S2P Require Import TunPacket.
#[local] Open Scope Z_scope.

(** * Safety of the parsers *)

(** ** Well-formed flows *)

Definition ip_version_of (ip : IpAddr) : TunIpVersion :=
  match ip with V4 _ => Ipv4 | V6 _ => Ipv6 end.

Definition has_ports (protocol : TunTransportProtocol) : bool :=
  match protocol with Proto_Tcp | Proto_Udp => true | _ => false end.

(** The addresses are of the flow's family; there are ports, in range, exactly
    for TCP and UDP. *)
Record flow_ok (f : TunPacketFlow) : Prop := mk_flow_ok {
  flow_ok_source : ip_version_of (flow_source_ip f) = flow_ip_version f;
  flow_ok_destination : ip_version_of (flow_destination_ip f) = flow_ip_version f;
  flow_ok_source_range : ip_ok (flow_source_ip f);
  flow_ok_destination_range : ip_ok (flow_destination_ip f);
  flow_ok_ports :
    if has_ports (flow_protocol f)
    then exists sp dp, flow_source_port f = Some sp /\ flow_destination_port f = Some dp
                       /\ is_u16 sp /\ is_u16 dp
    else flow_source_port f = None /\ flow_destination_port f = None
}.

(** [l] is a contiguous part of [packet]. *)
Definition part_of (packet l : list Z) : Prop :=
  exists a b, 0 <= a <= b /\ b <= len packet /\ l = sub_list packet a b.

Definition parts_ok (packet : list Z) (parts : TunPacketParts) : Prop :=
  flow_ok (parts_flow parts) /\ part_of packet (parts_transport_payload parts) /\
  len (parts_transport_payload parts) <= 65535.

(** ** Ranges of what is read *)

Lemma from_be_bytes_slice_range packet a b n :
  bytes_ok packet -> 0 <= a -> a <= b -> b <= len packet -> n = b - a ->
  0 <= from_be_bytes (sub_list packet a b) < 256 ^ n.
Proof.
  intros Hok ? ? ? ->. rewrite <- (len_sub_list packet a b) by done.
  apply from_be_bytes_bound. auto with keli.
Qed.

Lemma part_of_bytes_ok packet l : bytes_ok packet -> part_of packet l -> bytes_ok l.
Proof. intros Hok (a & b & _ & _ & ->). auto with keli. Qed.

#[local] Hint Resolve from_be_bytes_u16 from_be_bytes_u32 part_of_bytes_ok : keli.

(** ** The parser, function by function *)

Lemma parse_transport_ports_total protocol payload :
  bytes_ok payload ->
  returns (parse_transport_ports protocol payload) (fun ports =>
    if has_ports protocol
    then exists sp dp, ports = (Some sp, Some dp) /\ is_u16 sp /\ is_u16 dp
    else ports = (None, None)).
Proof.
  intros Hok. destruct protocol; cbn [parse_transport_ports has_ports]; try done;
    ret_guard; ret_index p0 H0; ret_index p1 H1; ret_index p2 H2; ret_index p3 H3;
    cbn; eauto 8 with keli.
Qed.

Lemma flow_ok_intro version protocol src dst sp dp :
  ip_version_of src = version -> ip_version_of dst = version -> ip_ok src -> ip_ok dst ->
  (if has_ports protocol
   then exists s d, (sp, dp) = (Some s, Some d) /\ is_u16 s /\ is_u16 d
   else (sp, dp) = (None, None)) ->
  flow_ok (mkTunPacketFlow version protocol src dst sp dp).
Proof.
  intros Hs Hd Hsr Hdr Hports. constructor; cbn; try done.
  destruct (has_ports protocol).
  - destruct Hports as (s & d & [= -> ->] & ? & ?). eauto 6.
  - by injection Hports as -> ->.
Qed.

Lemma parse_ipv4_packet_parts_total packet :
  bytes_ok packet -> returns (parse_ipv4_packet_parts packet) (parts_ok packet).
Proof.
  intros Hok. unfold parse_ipv4_packet_parts. ret_guard. ret_index b0 H0. ret_guard. bools.
  ret_index b2 H2. ret_index b3 H3.
  pose proof (from_be_bytes_u16 b2 b3 H2 H3) as Hlen. unfold is_u16 in Hlen.
  ret_guard. ret_guard.
  ret_index b6 H6. ret_index b7 H7. ret_guard. ret_index b9 H9.
  ret_slice. ret_slice. ret_slice.
  eapply returns_bind; [apply parse_transport_ports_total; auto with keli|].
  intros [sp dp] Hports. cbn [returns]. unfold parts_ok. cbn [parts_flow parts_transport_payload].
  split_and!.
  - apply flow_ok_intro; try done; cbn [ip_ok];
      apply (from_be_bytes_slice_range packet _ _ 4); (done || lia).
  - exists (Z.land b0 15 * 4), (from_be_bytes [b2; b3]). split_and!; try lia; done.
  - rewrite len_sub_list by lia. lia.
Qed.

Lemma skip_ipv6_extension_headers_total fuel packet total next offset :
  bytes_ok packet -> 0 <= offset <= total -> total <= len packet ->
  total - offset < Z.of_nat fuel ->
  returns (skip_ipv6_extension_headers fuel packet total next offset) (fun r =>
    is_ipv6_skippable_extension_header r.1 = false /\ offset <= r.2 <= total).
Proof.
  intros Hok. revert next offset. induction fuel as [|fuel IH]; intros next offset Hoff Htot Hfuel;
    [lia|]. cbn [skip_ipv6_extension_headers].
  destruct (is_ipv6_skippable_extension_header next) eqn:Hs; [|cbn; split; [done|lia]].
  unfold checked_sub. replace (offset <=? total) with true by lia. cbn [result_bind].
  ret_guard. ret_index ext Hext. ret_guard. ret_index n Hn. unfold is_u8 in Hext.
  eapply returns_mono; [apply IH; lia|]. cbn. intros r [? ?]. split; [done|lia].
Qed.

Lemma parse_ipv6_transport_header_total packet total next :
  bytes_ok packet -> 40 <= total -> total <= len packet ->
  returns (parse_ipv6_transport_header packet total next) (fun r =>
    is_ipv6_extension_header r.1 = false /\ 40 <= r.2 <= total).
Proof.
  intros Hok Hlo Hhi. unfold parse_ipv6_transport_header.
  eapply returns_bind; [apply skip_ipv6_extension_headers_total; (done || (unfold len in *; lia) || lia)|].
  intros [n off] [_ Hoff]. ret_guard. by cbn.
Qed.

Lemma parse_ipv6_packet_parts_total packet :
  bytes_ok packet -> returns (parse_ipv6_packet_parts packet) (parts_ok packet).
Proof.
  intros Hok. unfold parse_ipv6_packet_parts. ret_guard. ret_index b4 H4. ret_index b5 H5.
  pose proof (from_be_bytes_u16 b4 b5 H4 H5) as Hlen. unfold is_u16 in Hlen.
  ret_guard. ret_index b6 H6.
  eapply returns_bind; [apply parse_ipv6_transport_header_total; (done || lia)|].
  intros [next offset] [_ Hoff]. cbn [fst snd] in *.
  ret_slice. ret_slice. ret_slice.
  eapply returns_bind; [apply parse_transport_ports_total; auto with keli|].
  intros [sp dp] Hports. cbn [returns]. unfold parts_ok. cbn [parts_flow parts_transport_payload].
  split_and!.
  - apply flow_ok_intro; try done; cbn [ip_ok];
      apply (from_be_bytes_slice_range packet _ _ 16); (done || lia).
  - exists offset, (40 + from_be_bytes [b4; b5]). split_and!; try lia; done.
  - rewrite len_sub_list by lia. lia.
Qed.

Lemma parse_tun_packet_parts_total packet :
  bytes_ok packet -> returns (parse_tun_packet_parts packet) (parts_ok packet).
Proof.
  intros Hok. unfold parse_tun_packet_parts.
  destruct (get_index packet 0) as [b|]; cbn [ok_or result_bind]; [|done].
  destruct (Z.shiftr b 4 =? 4); [by apply parse_ipv4_packet_parts_total|].
  destruct (Z.shiftr b 4 =? 6); [by apply parse_ipv6_packet_parts_total|done].
Qed.

(** A segment as the parser gives it: a TCP flow, 32-bit sequence numbers, a
    header length the data offset can express, nine flag bits. *)
Record segment_ok (s : TunTcpSegment) : Prop := mk_segment_ok {
  segment_ok_flow : flow_ok (seg_flow s);
  segment_ok_tcp : flow_protocol (seg_flow s) = Proto_Tcp;
  segment_ok_seq : is_u32 (seg_sequence_number s);
  segment_ok_ack : is_u32 (seg_acknowledgment_number s);
  segment_ok_header : 20 <= seg_header_len s;
  segment_ok_flags : 0 <= flag_bits (seg_flags s) < 512;
  segment_ok_window : is_u16 (seg_window_size s);
  segment_ok_payload : bytes_ok (seg_payload s);
  segment_ok_len : len (seg_payload s) <= 65535
}.

Lemma from_bits_range bits : 0 <= flag_bits (from_bits bits) < 512.
Proof.
  cbn. change 511 with (Z.ones 9). rewrite Z.land_ones by lia.
  apply Z.mod_pos_bound. lia.
Qed.


Lemma parse_tun_tcp_segment_total packet :
  bytes_ok packet -> returns (parse_tun_tcp_segment packet) (fun s =>
    segment_ok s /\ part_of packet (seg_payload s)).
Proof.
  intros Hok. unfold parse_tun_tcp_segment.
  eapply returns_bind; [by apply parse_tun_packet_parts_total|].
  intros [flow tp] (Hflow & Hpart & Hlen). cbn [parts_flow parts_transport_payload] in *.
  assert (bytes_ok tp) as Htp by eauto with keli.
  ret_guard. bools. apply bool_decide_eq_true in Heqb.
  ret_guard. ret_index b12 H12. ret_guard. ret_guard. ret_index b13 H13.
  ret_index s0 S0. ret_index s1 S1. ret_index s2 S2. ret_index s3 S3.
  ret_index a0 A0. ret_index a1 A1. ret_index a2 A2. ret_index a3 A3.
  ret_index w0 W0. ret_index w1 W1. ret_slice. cbn [returns]. split.
  - constructor; cbn [seg_flow seg_sequence_number seg_acknowledgment_number seg_header_len
      seg_flags seg_window_size seg_payload]; auto using from_bits_range with keli; [lia|].
    rewrite len_sub_list by lia. lia.
  - destruct Hpart as (a & b & Hab & Hb & ->). cbn [seg_payload].
    rewrite len_sub_list in * by lia.
    exists (a + Z.shiftr b12 4 * 4), b. split_and!; [lia..|].
    apply sub_list_sub_list; lia.
Qed.

Lemma parse_tun_udp_payload_total packet :
  bytes_ok packet -> returns (parse_tun_udp_payload packet) (fun u =>
    flow_ok (udp_flow u) /\ flow_protocol (udp_flow u) = Proto_Udp /\
    part_of packet (udp_payload u) /\ len (udp_payload u) <= 65527).
Proof.
  intros Hok. unfold parse_tun_udp_payload.
  eapply returns_bind; [by apply parse_tun_packet_parts_total|].
  intros [flow tp] (Hflow & Hpart & Hlen). cbn [parts_flow parts_transport_payload] in *.
  assert (bytes_ok tp) as Htp by eauto with keli.
  ret_guard. bools. apply bool_decide_eq_true in Heqb.
  ret_guard. ret_index b4 H4. ret_index b5 H5. ret_guard. ret_guard. ret_slice.
  cbn [returns udp_flow udp_payload]. split_and!; [done|done| |rewrite len_sub_list by lia; lia].
  destruct Hpart as (a & b & Hab & Hb & ->). rewrite len_sub_list in * by lia.
  exists (a + 8), (a + from_be_bytes [b4; b5]). split_and!; [lia..|].
  rewrite sub_list_sub_list_gen by lia. f_equal; lia.
Qed.

(** ** Properties *)

(** Whatever bytes the device delivers, the flow, segment and datagram
    parsers return a value or an error: no index or slice is out of bounds, no
    subtraction underflows, and the extension-header walk ends. *)
Theorem tun_parser_never_panics packet (Hok : bytes_ok packet) :
  parse_tun_packet_flow packet <> Panic /\
  parse_tun_tcp_segment packet <> Panic /\
  parse_tun_udp_payload packet <> Panic.
Proof.
  split_and!.
  - apply (returns_no_panic _ (fun _ => True)). eapply returns_bind;
      [by apply parse_tun_packet_parts_total|done].
  - by eapply returns_no_panic, parse_tun_tcp_segment_total.
  - by eapply returns_no_panic, parse_tun_udp_payload_total.
Qed.

Lemma tun_parser_never_panics_witness :
  parse_tun_packet_flow [96; 0; 0; 0; 0; 9] <> Panic.
Proof.
  apply (tun_parser_never_panics [96; 0; 0; 0; 0; 9]).
  repeat (apply List.Forall_cons; [unfold is_u8; lia|]). apply List.Forall_nil.
Defined.

(** An accepted segment is well formed: its flow's addresses are of the
    packet's IP version, its ports and numbers are in range, it has at most nine
    flag bits, and its payload is a contiguous part of the packet. *)
Theorem parsed_segment_well_formed packet segment
  (Hok : bytes_ok packet) (Hparse : parse_tun_tcp_segment packet = Ok segment) :
  segment_ok segment /\ part_of packet (seg_payload segment).
Proof. exact (returns_Ok _ _ _ (parse_tun_tcp_segment_total packet Hok) Hparse). Qed.

(** An IPv4 SYN from 10.7.0.2:49152 to 93.184.216.34:443. *)
Definition sample_syn_packet : list Z :=
  [69; 0; 0; 40; 0; 0; 0; 0; 64; 6; 0; 0; 10; 7; 0; 2; 93; 184; 216; 34;
   192; 0; 1; 187; 0; 0; 3; 232; 0; 0; 0; 0; 80; 2; 255; 255; 0; 0; 0; 0].

Definition sample_flow : TunPacketFlow :=
  mkTunPacketFlow Ipv4 Proto_Tcp (V4 168230914) (V4 1572395042) (Some 49152) (Some 443).

Definition sample_syn_segment : TunTcpSegment :=
  mkTunTcpSegment sample_flow 1000 0 20 (from_bits 2) 65535 [].

Lemma sample_syn_packet_ok : bytes_ok sample_syn_packet.
Proof.
  unfold sample_syn_packet.
  repeat (apply List.Forall_cons; [unfold is_u8; lia|]). apply List.Forall_nil.
Qed.

Lemma parsed_segment_well_formed_witness : segment_ok sample_syn_segment.
Proof.
  refine (proj1 (parsed_segment_well_formed sample_syn_packet _ sample_syn_packet_ok _)).
  reflexivity.
Defined.

Lemma parsed_ipv4_unfragmented packet parts :
  parse_ipv4_packet_parts packet = Ok parts ->
  flow_ip_version (parts_flow parts) = Ipv4 /\
  exists b6 b7, packet !! 6%nat = Some b6 /\ packet !! 7%nat = Some b7 /\
    Z.land (from_be_bytes [b6; b7]) 8192 = 0 /\ Z.land (from_be_bytes [b6; b7]) 8191 = 0.
Proof.
  unfold parse_ipv4_packet_parts. intros H.
  repeat (inv_ok; break_hyp H; [done|]). inv_ok.
  match goal with x : (option Z * option Z)%type |- _ => destruct x end.
  inv_ok. subst parts. split; [done|]. bools.
  repeat match goal with
    | Hi : index packet _ = Ok _ |- _ => apply index_Ok_inv in Hi as [_ Hi]
    | Hz : (_ =? 0) = true |- _ => apply Z.eqb_eq in Hz
    end.
  eauto 6.
Qed.

Lemma parse_ipv6_transport_header_Ok packet total n next off :
  parse_ipv6_transport_header packet total n = Ok (next, off) ->
  is_ipv6_extension_header next = false.
Proof.
  unfold parse_ipv6_transport_header. intros H. inv_ok. destruct a as [n' o].
  destruct (is_ipv6_extension_header n') eqn:He; [done|]. by injection H as -> ->.
Qed.

Lemma parsed_ipv6_no_extension packet parts :
  bytes_ok packet -> parse_ipv6_packet_parts packet = Ok parts ->
  flow_ip_version (parts_flow parts) = Ipv6 /\
  is_ipv6_extension_header (ip_protocol_number (flow_protocol (parts_flow parts))) = false.
Proof.
  unfold parse_ipv6_packet_parts. intros Hok H.
  repeat (inv_ok; break_hyp H; [done|]). inv_ok.
  match goal with x : (Z * Z)%type |- _ => destruct x as [next off] end.
  inv_ok.
  match goal with x : (option Z * option Z)%type |- _ => destruct x end.
  inv_ok. subst parts. split; [done|]. cbn [parts_flow flow_protocol].
  replace (ip_protocol_number (from_ip_protocol_number next)) with next
    by (unfold from_ip_protocol_number; repeat (case_match; [cbn; lia|]); done).
  by eapply parse_ipv6_transport_header_Ok.
Qed.

(** Fragments and encapsulated payloads never reach the relays: an
    accepted IPv4 packet has no More-Fragments bit and fragment offset zero, and
    an accepted IPv6 packet's transport is no extension header (so neither a
    fragment nor AH/ESP). *)
Theorem parsed_packet_unfragmented packet flow
  (Hok : bytes_ok packet) (Hparse : parse_tun_packet_flow packet = Ok flow) :
  match flow_ip_version flow with
  | Ipv4 =>
      exists b6 b7, packet !! 6%nat = Some b6 /\ packet !! 7%nat = Some b7 /\
        Z.land (from_be_bytes [b6; b7]) 8192 = 0 /\ Z.land (from_be_bytes [b6; b7]) 8191 = 0
  | Ipv6 =>
      is_ipv6_extension_header (ip_protocol_number (flow_protocol flow)) = false
  end.
Proof.
  unfold parse_tun_packet_flow, parse_tun_packet_parts in Hparse. inv_ok. subst flow.
  break_hyp Hok0; [|break_hyp Hok0; [|done]].
  - apply parsed_ipv4_unfragmented in Hok0 as [-> ?]. done.
  - apply parsed_ipv6_no_extension in Hok0 as [-> ?]; done.
Qed.

Lemma parsed_packet_unfragmented_witness :
  exists b6 b7, sample_syn_packet !! 6%nat = Some b6 /\ sample_syn_packet !! 7%nat = Some b7 /\
    Z.land (from_be_bytes [b6; b7]) 8192 = 0 /\ Z.land (from_be_bytes [b6; b7]) 8191 = 0.
Proof.
  exact (parsed_packet_unfragmented sample_syn_packet sample_flow sample_syn_packet_ok eq_refl).
Defined.

(** * Packets that are built *)

(** ** Header layouts *)

Definition ipv4_header (total_length protocol source_ip destination_ip header_checksum : Z)
  : list Z :=
  [69; 0] ++ to_be_bytes 2 total_length ++ [0; 0; 0; 0; 64; protocol]
  ++ to_be_bytes 2 header_checksum ++ v4_octets source_ip ++ v4_octets destination_ip.

Definition ipv6_header (payload_length protocol source_ip destination_ip : Z) : list Z :=
  [96; 0; 0; 0] ++ to_be_bytes 2 payload_length ++ [protocol; 64]
  ++ v6_octets source_ip ++ v6_octets destination_ip.

Definition udp_header (source_port destination_port length udp_checksum : Z) : list Z :=
  to_be_bytes 2 source_port ++ to_be_bytes 2 destination_port ++ to_be_bytes 2 length
  ++ to_be_bytes 2 udp_checksum.

Definition tcp_header (source_port destination_port sequence_number acknowledgment_number : Z)
  (flags : TunTcpFlags) (window_size tcp_checksum : Z) : list Z :=
  to_be_bytes 2 source_port ++ to_be_bytes 2 destination_port
  ++ to_be_bytes 4 sequence_number ++ to_be_bytes 4 acknowledgment_number
  ++ [Z.lor (Z.shiftl 5 4) (as_u8 (Z.land (Z.shiftr (flag_bits flags) 8) 1));
      as_u8 (flag_bits flags)]
  ++ to_be_bytes 2 window_size ++ to_be_bytes 2 tcp_checksum ++ [0; 0].

(** ** The builders produce these layouts *)

(** Replaces the bytes of every integer of the goal by named bytes. *)
Ltac explode_bytes :=
  repeat match goal with
  | |- context [to_be_bytes 2 ?x] =>
      lazymatch x with
      | 0 => change (to_be_bytes 2 0) with [0; 0]
      | _ => let E := fresh "E" in destruct (to_be_bytes_2_ex x) as (? & ? & E); rewrite E; clear E
      end
  | |- context [to_be_bytes 4 ?x] =>
      let E := fresh "E" in destruct (to_be_bytes_4_ex x) as (? & ? & ? & ? & E); rewrite E; clear E
  | |- context [to_be_bytes 16 ?x] =>
      let E := fresh "E" in
      destruct (to_be_bytes_16_ex x) as (?&?&?&?&?&?&?&?&?&?&?&?&?&?&?&?& E); rewrite E; clear E
  end.

(** One write of a builder. *)
Ltac write_step :=
  first
    [ erewrite copy_range_app; [| reflexivity | cbv; reflexivity]
    | erewrite set_index_app; [| reflexivity | cbv; reflexivity] ];
  cbn [result_bind].

(** The last write: the payload fills the rest of the buffer. *)
Ltac write_payload :=
  rewrite copy_range_tail; [done | reflexivity | by rewrite len_app | by rewrite len_zeroed].

Lemma write_udp_datagram_layout sp dp payload :
  write_udp_datagram (zeroed (8 + len payload)) sp dp payload =
  Ok (udp_header sp dp (as_u16 (8 + len payload)) 0 ++ payload).
Proof.
  pose proof (len_nonneg payload). rewrite zeroed_add by lia.
  change (zeroed 8) with [0; 0; 0; 0; 0; 0; 0; 0].
  unfold write_udp_datagram, udp_header. explode_bytes.
  do 4 write_step. write_payload.
Qed.

Lemma write_tcp_segment_layout sp dp seq ack flags window payload :
  write_tcp_segment (zeroed (20 + len payload)) sp dp seq ack flags window payload =
  Ok (tcp_header sp dp seq ack flags window 0 ++ payload).
Proof.
  pose proof (len_nonneg payload). rewrite zeroed_add by lia.
  change (zeroed 20) with [0; 0; 0; 0; 0; 0; 0; 0; 0; 0; 0; 0; 0; 0; 0; 0; 0; 0; 0; 0].
  unfold write_tcp_segment, tcp_header. explode_bytes.
  generalize (Z.lor (Z.shiftl 5 4) (as_u8 (Z.land (Z.shiftr (flag_bits flags) 8) 1))) as b12.
  generalize (as_u8 (flag_bits flags)) as b13. intros b13 b12.
  do 9 write_step. write_payload.
Qed.

Lemma write_tail_app pre tl tl' a f :
  a = len pre -> f tl = Ok tl' -> len tl' = len tl ->
  write_tail (pre ++ tl) a f = Ok (pre ++ tl').
Proof.
  intros Ha Hf Hl. unfold write_tail. rewrite slice_app_tail by (rewrite ?len_app; done).
  cbn [result_bind]. rewrite Hf. cbn [result_bind].
  apply copy_range_tail; [done|by rewrite len_app|done].
Qed.

Lemma len_udp_header sp dp n c : len (udp_header sp dp n c) = 8.
Proof. reflexivity. Qed.

Lemma len_tcp_header sp dp seq ack flags w c : len (tcp_header sp dp seq ack flags w c) = 20.
Proof. reflexivity. Qed.

Lemma len_ipv4_header t p s d c : len (ipv4_header t p s d c) = 20.
Proof. reflexivity. Qed.

Lemma len_ipv6_header n p s d : len (ipv6_header n p s d) = 40.
Proof. reflexivity. Qed.

(** Patching the checksum field of a header that the buffer starts with. *)
Lemma patch_udp_checksum sp dp n c rest :
  copy_range (E := TunPacketError) (udp_header sp dp n 0 ++ rest) 6 8 (to_be_bytes 2 c) =
  Ok (udp_header sp dp n c ++ rest).
Proof. unfold udp_header. explode_bytes. by write_step. Qed.

Lemma patch_tcp_checksum sp dp seq ack flags w c rest :
  copy_range (E := TunPacketError) (tcp_header sp dp seq ack flags w 0 ++ rest) 16 18
    (to_be_bytes 2 c) =
  Ok (tcp_header sp dp seq ack flags w c ++ rest).
Proof.
  unfold tcp_header. explode_bytes.
  generalize (Z.lor (Z.shiftl 5 4) (as_u8 (Z.land (Z.shiftr (flag_bits flags) 8) 1))) as b12.
  generalize (as_u8 (flag_bits flags)) as b13. intros b13 b12. by write_step.
Qed.

Lemma patch_ipv4_checksum total protocol src dst c rest :
  copy_range (E := TunPacketError) (ipv4_header total protocol src dst 0 ++ rest) 10 12
    (to_be_bytes 2 c) =
  Ok (ipv4_header total protocol src dst c ++ rest).
Proof. unfold ipv4_header, v4_octets. explode_bytes. by write_step. Qed.

(** A write behind a prefix is a write at a smaller offset. *)
Lemma copy_range_shift {E} (pre l l' src : list Z) a b :
  len pre <= a -> copy_range (E := E) l (a - len pre) (b - len pre) src = Ok l' ->
  copy_range (E := E) (pre ++ l) a b src = Ok (pre ++ l').
Proof.
  unfold copy_range. intros Ha. destruct (_ && _ && _ && _) eqn:Hc; [|done]. intros [= <-].
  bools. rewrite len_app. replace (_ && _ && _ && _) with true by (pose proof (len_nonneg pre); lia).
  f_equal. unfold len in *. rewrite take_app_ge, drop_app_ge by lia.
  rewrite <- !app_assoc. do 4 f_equal; lia.
Qed.

(** The fixed part of an IPv4 header, written into a zeroed buffer. *)
Lemma write_ipv4_header total protocol src dst tl (k : list Z -> result TunPacketError (list Z)) :
  (packet <-? set_index (zeroed 20 ++ tl) 0 69;
   packet <-? copy_range packet 2 4 (to_be_bytes 2 total);
   packet <-? set_index packet 8 64;
   packet <-? set_index packet 9 protocol;
   packet <-? copy_range packet 12 16 (v4_octets src);
   packet <-? copy_range packet 16 20 (v4_octets dst);
   k packet) = k (ipv4_header total protocol src dst 0 ++ tl).
Proof.
  change (zeroed 20) with [0; 0; 0; 0; 0; 0; 0; 0; 0; 0; 0; 0; 0; 0; 0; 0; 0; 0; 0; 0].
  unfold ipv4_header, v4_octets. explode_bytes. do 6 write_step. done.
Qed.

Lemma write_ipv6_header n protocol src dst tl (k : list Z -> result TunPacketError (list Z)) :
  (packet <-? set_index (zeroed 40 ++ tl) 0 96;
   packet <-? copy_range packet 4 6 (to_be_bytes 2 n);
   packet <-? set_index packet 6 protocol;
   packet <-? set_index packet 7 64;
   packet <-? copy_range packet 8 24 (v6_octets src);
   packet <-? copy_range packet 24 40 (v6_octets dst);
   k packet) = k (ipv6_header n protocol src dst ++ tl).
Proof.
  change (zeroed 40) with
    [0; 0; 0; 0; 0; 0; 0; 0; 0; 0; 0; 0; 0; 0; 0; 0; 0; 0; 0; 0;
     0; 0; 0; 0; 0; 0; 0; 0; 0; 0; 0; 0; 0; 0; 0; 0; 0; 0; 0; 0].
  unfold ipv6_header, v6_octets. explode_bytes. do 6 write_step. done.
Qed.

(** What follows the IP header: the transport part is written, its checksum
    computed and patched in. *)
Ltac finish_transport writer patch :=
  erewrite write_tail_app;
    [| reflexivity | apply writer | rewrite len_zeroed, len_app by lia; reflexivity];
  cbn [result_bind]; rewrite slice_app_tail; [| reflexivity | by rewrite len_app];
  cbn [result_bind]; erewrite copy_range_shift; [| cbv; congruence | apply patch];
  cbn [result_bind].

Ltac finish_ipv4 :=
  rewrite slice_app_pre by (rewrite ?len_ipv4_header; lia); cbn [result_bind];
  rewrite patch_ipv4_checksum; do 3 f_equal.

Lemma build_ipv4_udp_layout src dst sp dp payload :
  let total := as_u16 (20 + (8 + len payload)) in
  let n := as_u16 (8 + len payload) in
  let uc := udp_checksum_ipv4 src dst (udp_header sp dp n 0 ++ payload) in
  build_ipv4_udp_response_packet src dst sp dp payload =
  Ok (ipv4_header total 17 src dst (checksum (ipv4_header total 17 src dst 0))
      ++ udp_header sp dp n uc ++ payload).
Proof.
  cbn zeta. pose proof (len_nonneg payload). unfold build_ipv4_udp_response_packet.
  rewrite (zeroed_add 20), write_ipv4_header by lia.
  finish_transport write_udp_datagram_layout patch_udp_checksum. finish_ipv4.
Qed.

Lemma build_ipv6_udp_layout src dst sp dp payload :
  let n := as_u16 (8 + len payload) in
  let uc := udp_checksum_ipv6 src dst (udp_header sp dp n 0 ++ payload) in
  build_ipv6_udp_response_packet src dst sp dp payload =
  Ok (ipv6_header n 17 src dst ++ udp_header sp dp n uc ++ payload).
Proof.
  cbn zeta. pose proof (len_nonneg payload). unfold build_ipv6_udp_response_packet.
  rewrite (zeroed_add 40), write_ipv6_header by lia.
  erewrite write_tail_app;
    [| reflexivity | apply write_udp_datagram_layout | rewrite len_zeroed, len_app by lia; reflexivity].
  cbn [result_bind]. rewrite slice_app_tail; [| reflexivity | by rewrite len_app].
  cbn [result_bind]. apply copy_range_shift; [cbv; congruence | apply patch_udp_checksum].
Qed.

Lemma build_ipv4_tcp_layout src dst sp dp seq ack flags w payload :
  let total := as_u16 (20 + (20 + len payload)) in
  let tc := tcp_checksum_ipv4 src dst (tcp_header sp dp seq ack flags w 0 ++ payload) in
  build_ipv4_tcp_response_packet src dst sp dp seq ack flags w payload =
  Ok (ipv4_header total 6 src dst (checksum (ipv4_header total 6 src dst 0))
      ++ tcp_header sp dp seq ack flags w tc ++ payload).
Proof.
  cbn zeta. pose proof (len_nonneg payload). unfold build_ipv4_tcp_response_packet.
  rewrite (zeroed_add 20), write_ipv4_header by lia.
  finish_transport write_tcp_segment_layout patch_tcp_checksum. finish_ipv4.
Qed.

Lemma build_ipv6_tcp_layout src dst sp dp seq ack flags w payload :
  let tc := tcp_checksum_ipv6 src dst (tcp_header sp dp seq ack flags w 0 ++ payload) in
  build_ipv6_tcp_response_packet src dst sp dp seq ack flags w payload =
  Ok (ipv6_header (as_u16 (20 + len payload)) 6 src dst
      ++ tcp_header sp dp seq ack flags w tc ++ payload).
Proof.
  cbn zeta. pose proof (len_nonneg payload). unfold build_ipv6_tcp_response_packet.
  rewrite (zeroed_add 40), write_ipv6_header by lia.
  erewrite write_tail_app;
    [| reflexivity | apply write_tcp_segment_layout | rewrite len_zeroed, len_app by lia; reflexivity].
  cbn [result_bind]. rewrite slice_app_tail; [| reflexivity | by rewrite len_app].
  cbn [result_bind]. apply copy_range_shift; [cbv; congruence | apply patch_tcp_checksum].
Qed.

(** ** Reading a layout back *)

(** Names the bytes of an integer and keeps the equation that defines them. *)
Ltac name_bytes_2 x E := destruct (to_be_bytes_2_ex x) as (? & ? & E); rewrite E.
Ltac name_bytes_4 x E := destruct (to_be_bytes_4_ex x) as (? & ? & ? & ? & E); rewrite E.
Ltac name_bytes_16 x E :=
  destruct (to_be_bytes_16_ex x) as (?&?&?&?&?&?&?&?&?&?&?&?&?&?&?&?& E); rewrite E.

(** The first read of a buffer whose front is explicit. *)
Ltac read_index :=
  match goal with
  | |- context [result_bind (index ?l ?i) _] =>
      let r := eval cbv [index Z.leb Z.compare Pos.compare Pos.compare_cont Z.to_nat Pos.to_nat
                         Pos.iter_op lookup list_lookup Init.Nat.add] in
                 (@index TunPacketError Z l i) in
      change (index l i) with r; cbn [result_bind]
  end.

Ltac read_slice Hl :=
  match goal with
  | |- context [slice ?l ?a ?b] =>
      rewrite (slice_ok l a b) by (rewrite ?Hl; lia); cbn [result_bind];
      let r := eval cbv [sub_list Z.to_nat Pos.to_nat Z.sub Z.add Z.opp Z.pos_sub Pos.pred_double
                         Z.succ_double Z.pred_double Z.double
                         Pos.iter_op take drop firstn skipn Init.Nat.add] in (sub_list l a b) in
      change (sub_list l a b) with r
  end.

Lemma from_to_be_2 x : is_u16 x -> from_be_bytes (to_be_bytes 2 x) = x.
Proof. intros. by apply from_to_be_bytes_id. Qed.

Lemma from_to_be_4 x : is_u32 x -> from_be_bytes (to_be_bytes 4 x) = x.
Proof. intros. by apply from_to_be_bytes_id. Qed.

Lemma from_to_be_16 x : 0 <= x < 2 ^ 128 -> from_be_bytes (to_be_bytes 16 x) = x.
Proof. intros. by apply from_to_be_bytes_id. Qed.

Lemma parse_ipv4_layout protocol src dst c tp sp dp :
  is_u32 src -> is_u32 dst -> 20 + len tp <= 65535 ->
  parse_transport_ports (from_ip_protocol_number protocol) tp = Ok (sp, dp) ->
  parse_tun_packet_parts (ipv4_header (20 + len tp) protocol src dst c ++ tp) =
  Ok (mkTunPacketParts
        (mkTunPacketFlow Ipv4 (from_ip_protocol_number protocol) (V4 src) (V4 dst) sp dp) tp).
Proof.
  intros Hs Hd Hlen Hports. pose proof (len_nonneg tp).
  unfold parse_tun_packet_parts.
  assert (Hl : len (ipv4_header (20 + len tp) protocol src dst c ++ tp) = 20 + len tp)
    by (by rewrite len_app).
  assert (Ht : slice (E := TunPacketError)
    (ipv4_header (20 + len tp) protocol src dst c ++ tp) 20 (20 + len tp) = Ok tp)
    by (by apply slice_app_tail).
  change (get_index _ 0) with (Some 69). cbn [ok_or result_bind].
  change (Z.shiftr 69 4 =? 4) with true. cbn iota.
  unfold parse_ipv4_packet_parts. rewrite Hl.
  replace (20 + len tp <? 20) with false by lia.
  revert Hl Ht. unfold ipv4_header, v4_octets.
  name_bytes_2 (20 + len tp) Et. name_bytes_2 c Ec. name_bytes_4 src Es. name_bytes_4 dst Ed.
  cbn [app]. intros Hl Ht. read_index.
  change (Z.land 69 15 * 4) with 20. replace (20 + len tp <? 20) with false by lia. cbn [orb Z.ltb Z.compare Pos.compare Pos.compare_cont].
  do 2 read_index. rewrite <- Et, from_to_be_2 by (unfold is_u16; lia).
  rewrite Z.ltb_irrefl. replace (20 + len tp <? 20) with false by lia.
  do 2 read_index. change (from_be_bytes [0; 0]) with 0. cbn [Z.land Z.eqb negb orb].
  read_index. do 2 read_slice Hl.
  rewrite <- Es, <- Ed, !from_to_be_4 by done. rewrite Ht. cbn [result_bind].
  rewrite Hports. done.
Qed.

Lemma parse_ipv6_layout protocol src dst tp sp dp :
  0 <= src < 2 ^ 128 -> 0 <= dst < 2 ^ 128 -> len tp <= 65535 ->
  is_ipv6_extension_header protocol = false ->
  parse_transport_ports (from_ip_protocol_number protocol) tp = Ok (sp, dp) ->
  parse_tun_packet_parts (ipv6_header (len tp) protocol src dst ++ tp) =
  Ok (mkTunPacketParts
        (mkTunPacketFlow Ipv6 (from_ip_protocol_number protocol) (V6 src) (V6 dst) sp dp) tp).
Proof.
  intros Hs Hd Hlen Hext Hports. pose proof (len_nonneg tp).
  unfold parse_tun_packet_parts.
  assert (Hl : len (ipv6_header (len tp) protocol src dst ++ tp) = 40 + len tp)
    by (by rewrite len_app).
  assert (Ht : slice (E := TunPacketError)
    (ipv6_header (len tp) protocol src dst ++ tp) 40 (40 + len tp) = Ok tp)
    by (by apply slice_app_tail).
  change (get_index _ 0) with (Some 96). cbn [ok_or result_bind].
  change (Z.shiftr 96 4 =? 4) with false. change (Z.shiftr 96 4 =? 6) with true. cbn iota.
  unfold parse_ipv6_packet_parts. rewrite Hl.
  replace (40 + len tp <? 40) with false by lia.
  revert Hl Ht. unfold ipv6_header, v6_octets.
  name_bytes_2 (len tp) Et. name_bytes_16 src Es. name_bytes_16 dst Ed.
  cbn [app]. intros Hl Ht. do 2 read_index.
  rewrite <- Et, from_to_be_2 by (unfold is_u16; lia). rewrite Z.ltb_irrefl. read_index.
  unfold parse_ipv6_transport_header. cbn [skip_ipv6_extension_headers].
  replace (is_ipv6_skippable_extension_header protocol) with false
    by (unfold is_ipv6_extension_header, is_ipv6_skippable_extension_header in *; lia).
  cbn [result_bind]. rewrite Hext. cbn [result_bind].
  do 2 read_slice Hl. rewrite <- Es, <- Ed, !from_to_be_16 by done. rewrite Ht. cbn [result_bind].
  rewrite Hports. done.
Qed.

Lemma parse_ports_front sp dp rest protocol :
  is_u16 sp -> is_u16 dp -> has_ports protocol = true ->
  parse_transport_ports protocol (to_be_bytes 2 sp ++ to_be_bytes 2 dp ++ rest) =
  Ok (Some sp, Some dp).
Proof.
  intros Hs Hd Hp. name_bytes_2 sp Es. name_bytes_2 dp Ed. cbn [app].
  unfold parse_transport_ports. rewrite !len_cons. pose proof (len_nonneg rest).
  replace (_ <? 4) with false by lia.
  destruct protocol; try done; do 4 read_index; rewrite <- Es, <- Ed, !from_to_be_2 by done; done.
Qed.

(** The flags survive their split over two header bytes. *)
Lemma flags_bytes flags :
  0 <= flag_bits flags < 512 ->
  let b12 := Z.lor (Z.shiftl 5 4) (as_u8 (Z.land (Z.shiftr (flag_bits flags) 8) 1)) in
  Z.shiftr b12 4 = 5 /\
  from_bits (Z.lor (Z.shiftl (Z.land b12 1) 8) (as_u8 (flag_bits flags))) = flags.
Proof.
  destruct flags as [n]. cbn [flag_bits]. intros Hn.
  set (ok n := (Z.shiftr (Z.lor (Z.shiftl 5 4) (as_u8 (Z.land (Z.shiftr n 8) 1))) 4 =? 5) &&
    (Z.land (Z.lor (Z.shiftl (Z.land (Z.lor (Z.shiftl 5 4) (as_u8 (Z.land (Z.shiftr n 8) 1))) 1) 8)
       (as_u8 n)) 511 =? n)).
  assert (Hall : forallb ok (seqZ 0 512) = true) by (vm_compute; reflexivity).
  rewrite forallb_forall in Hall. specialize (Hall n).
  rewrite <- list_elem_of_In, elem_of_seqZ in Hall. specialize (Hall ltac:(lia)).
  unfold ok in Hall. bools. split; [lia|]. unfold from_bits. f_equal. lia.
Qed.

Lemma parse_tcp_of_parts packet flow sp dp seq ack flags w c payload :
  flow_protocol flow = Proto_Tcp -> is_u32 seq -> is_u32 ack -> is_u16 w ->
  0 <= flag_bits flags < 512 ->
  parse_tun_packet_parts packet =
    Ok (mkTunPacketParts flow (tcp_header sp dp seq ack flags w c ++ payload)) ->
  parse_tun_tcp_segment packet = Ok (mkTunTcpSegment flow seq ack 20 flags w payload).
Proof.
  intros Hp Hs Ha Hw Hf Hparts. unfold parse_tun_tcp_segment. rewrite Hparts.
  cbn [result_bind parts_flow parts_transport_payload]. rewrite Hp, bool_decide_true by done.
  cbn [negb]. pose proof (len_nonneg payload). destruct (flags_bytes flags Hf) as [H12 Hflags].
  assert (Hl : len (tcp_header sp dp seq ack flags w c ++ payload) = 20 + len payload)
    by (by rewrite len_app).
  assert (Ht : slice (E := TunPacketError) (tcp_header sp dp seq ack flags w c ++ payload) 20
    (20 + len payload) = Ok payload) by (by apply slice_app_tail).
  rewrite Hl. replace (20 + len payload <? 20) with false by lia.
  revert Ht. unfold tcp_header. revert H12 Hflags.
  generalize (Z.lor (Z.shiftl 5 4) (as_u8 (Z.land (Z.shiftr (flag_bits flags) 8) 1))) as b12.
  generalize (as_u8 (flag_bits flags)) as b13. intros b13 b12 H12 Hflags.
  name_bytes_2 sp E1. name_bytes_2 dp E2. name_bytes_2 w Ew. name_bytes_2 c Ec.
  name_bytes_4 seq Es. name_bytes_4 ack Ea. cbn [app]. intros Ht. read_index. rewrite H12.
  change (5 * 4) with 20. replace (20 + len payload <? 20) with false by lia.
  change (20 <? 20) with false. cbn iota. read_index. do 10 read_index.
  rewrite Ht. cbn [result_bind]. rewrite <- Es, <- Ea, <- Ew, !from_to_be_4, from_to_be_2 by done.
  by rewrite Hflags.
Qed.

Lemma parse_udp_of_parts packet flow sp dp c payload :
  flow_protocol flow = Proto_Udp -> 8 + len payload <= 65535 ->
  parse_tun_packet_parts packet =
    Ok (mkTunPacketParts flow (udp_header sp dp (8 + len payload) c ++ payload)) ->
  parse_tun_udp_payload packet = Ok (mkTunUdpPayload flow payload).
Proof.
  intros Hp Hn Hparts. unfold parse_tun_udp_payload. rewrite Hparts.
  cbn [result_bind parts_flow parts_transport_payload]. rewrite Hp, bool_decide_true by done.
  cbn [negb]. pose proof (len_nonneg payload).
  assert (Hl : len (udp_header sp dp (8 + len payload) c ++ payload) = 8 + len payload)
    by (by rewrite len_app).
  assert (Ht : slice (E := TunPacketError) (udp_header sp dp (8 + len payload) c ++ payload) 8
    (8 + len payload) = Ok payload) by (by apply slice_app_tail).
  rewrite Hl. replace (8 + len payload <? 8) with false by lia.
  revert Ht. unfold udp_header.
  name_bytes_2 sp E1. name_bytes_2 dp E2. name_bytes_2 (8 + len payload) En. name_bytes_2 c Ec.
  cbn [app]. intros Ht. do 2 read_index. rewrite <- En, from_to_be_2 by (unfold is_u16; lia).
  replace (8 + len payload <? 8) with false by lia. rewrite Z.ltb_irrefl, Ht. done.
Qed.

(** ** Round trips *)

(** The flow of the packets that answer a flow. *)
Definition reply_flow (f : TunPacketFlow) : TunPacketFlow :=
  mkTunPacketFlow (flow_ip_version f) (flow_protocol f) (flow_destination_ip f)
    (flow_source_ip f) (flow_destination_port f) (flow_source_port f).

(** The payload that fits into one TCP (UDP) packet of the flow's family. *)
Definition max_tcp_payload (v : TunIpVersion) : Z :=
  match v with Ipv4 => 65495 | Ipv6 => 65515 end.

Definition max_udp_payload (v : TunIpVersion) : Z :=
  match v with Ipv4 => 65507 | Ipv6 => 65527 end.

Lemma flow_ok_cases flow :
  flow_ok flow -> has_ports (flow_protocol flow) = true ->
  exists src dst sp dp, is_u16 sp /\ is_u16 dp /\
  ((is_u32 src /\ is_u32 dst /\ flow = mkTunPacketFlow Ipv4 (flow_protocol flow) (V4 src) (V4 dst) (Some sp) (Some dp)) \/
   (0 <= src < 2 ^ 128 /\ 0 <= dst < 2 ^ 128 /\ flow = mkTunPacketFlow Ipv6 (flow_protocol flow) (V6 src) (V6 dst) (Some sp) (Some dp))).
Proof.
  intros [Hs Hd Hsr Hdr Hp] Hhas. rewrite Hhas in Hp. destruct Hp as (sp & dp & Esp & Edp & ? & ?).
  destruct flow as [v p s d ? ?]; cbn in *. subst. destruct s as [s|s], d as [d|d]; cbn in *; subst; try done.
  - exists s, d, sp, dp. split_and!; auto.
  - exists s, d, sp, dp. split_and!; auto.
Qed.

(** The answer to a flow, laid out: the reply's addresses and ports, and the
    checksums over what they cover. *)
Definition tcp_packet (flow : TunPacketFlow) (seq ack : Z) (flags : TunTcpFlags) (w : Z)
  (payload : list Z) : list Z :=
  match flow with
  | mkTunPacketFlow Ipv4 _ (V4 src) (V4 dst) (Some sp) (Some dp) =>
      let total := 20 + (20 + len payload) in
      ipv4_header total 6 dst src (checksum (ipv4_header total 6 dst src 0))
      ++ tcp_header dp sp seq ack flags w
           (tcp_checksum_ipv4 dst src (tcp_header dp sp seq ack flags w 0 ++ payload))
      ++ payload
  | mkTunPacketFlow Ipv6 _ (V6 src) (V6 dst) (Some sp) (Some dp) =>
      ipv6_header (20 + len payload) 6 dst src
      ++ tcp_header dp sp seq ack flags w
           (tcp_checksum_ipv6 dst src (tcp_header dp sp seq ack flags w 0 ++ payload))
      ++ payload
  | _ => []
  end.

Definition udp_packet (flow : TunPacketFlow) (payload : list Z) : list Z :=
  let n := 8 + len payload in
  match flow with
  | mkTunPacketFlow Ipv4 _ (V4 src) (V4 dst) (Some sp) (Some dp) =>
      ipv4_header (20 + n) 17 dst src (checksum (ipv4_header (20 + n) 17 dst src 0))
      ++ udp_header dp sp n (udp_checksum_ipv4 dst src (udp_header dp sp n 0 ++ payload))
      ++ payload
  | mkTunPacketFlow Ipv6 _ (V6 src) (V6 dst) (Some sp) (Some dp) =>
      ipv6_header n 17 dst src
      ++ udp_header dp sp n (udp_checksum_ipv6 dst src (udp_header dp sp n 0 ++ payload))
      ++ payload
  | _ => []
  end.

(** Opens a builder on a well-formed flow of its protocol. *)
Ltac open_builder Hok Hp :=
  let Hv := fresh "Hv" in
  destruct (flow_ok_cases _ Hok) as (src & dst & sp & dp & Hsp & Hdp & Hv); [by rewrite Hp|];
  rewrite Hp in Hv; destruct Hv as [(Hsrc & Hdst & ->)|(Hsrc & Hdst & ->)];
  cbn [flow_protocol flow_source_port flow_destination_port flow_ip_version flow_source_ip
       flow_destination_ip max_tcp_payload max_udp_payload] in *;
  rewrite ?bool_decide_true by done; cbn [negb ok_or result_bind].

Lemma build_tcp_response_cases flow seq ack flags w payload :
  flow_ok flow -> flow_protocol flow = Proto_Tcp ->
  build_tun_tcp_response_packet flow seq ack flags w payload =
  if len payload <=? max_tcp_payload (flow_ip_version flow)
  then Ok (tcp_packet flow seq ack flags w payload)
  else Err (TcpResponsePayloadTooLarge (flow_ip_version flow) (len payload)
              (max_tcp_payload (flow_ip_version flow))).
Proof.
  intros Hok Hp. pose proof (len_nonneg payload). unfold build_tun_tcp_response_packet.
  open_builder Hok Hp; rewrite Z.ltb_antisym.
  - change (u16_max - 20 - 20) with 65495. destruct (len payload <=? 65495) eqn:Hle; [|done].
    cbn [negb]. rewrite build_ipv4_tcp_layout. unfold as_u16. by rewrite Z.mod_small by lia.
  - change (u16_max - 20) with 65515. destruct (len payload <=? 65515) eqn:Hle; [|done].
    cbn [negb]. rewrite build_ipv6_tcp_layout. unfold as_u16. by rewrite Z.mod_small by lia.
Qed.

Lemma build_udp_response_cases flow payload :
  flow_ok flow -> flow_protocol flow = Proto_Udp ->
  build_tun_udp_response_packet flow payload =
  if len payload <=? max_udp_payload (flow_ip_version flow)
  then Ok (udp_packet flow payload)
  else Err (UdpResponsePayloadTooLarge (flow_ip_version flow) (len payload)
              (max_udp_payload (flow_ip_version flow))).
Proof.
  intros Hok Hp. pose proof (len_nonneg payload). unfold build_tun_udp_response_packet.
  open_builder Hok Hp; rewrite Z.ltb_antisym.
  - change (u16_max - 20 - 8) with 65507. destruct (len payload <=? 65507) eqn:Hle; [|done].
    cbn [negb]. rewrite build_ipv4_udp_layout. unfold as_u16. by rewrite !Z.mod_small by lia.
  - change (u16_max - 8) with 65527. destruct (len payload <=? 65527) eqn:Hle; [|done].
    cbn [negb]. rewrite build_ipv6_udp_layout. unfold as_u16. by rewrite !Z.mod_small by lia.
Qed.

Lemma parse_tcp_packet flow seq ack flags w payload :
  flow_ok flow -> flow_protocol flow = Proto_Tcp ->
  is_u32 seq -> is_u32 ack -> 0 <= flag_bits flags < 512 -> is_u16 w ->
  len payload <= max_tcp_payload (flow_ip_version flow) ->
  parse_tun_tcp_segment (tcp_packet flow seq ack flags w payload) =
    Ok (mkTunTcpSegment (reply_flow flow) seq ack 20 flags w payload).
Proof.
  intros Hok Hp Hs Ha Hf Hw Hlen. pose proof (len_nonneg payload). open_builder Hok Hp.
  - eapply parse_tcp_of_parts; [done..|]. unfold tcp_packet.
    set (c := tcp_checksum_ipv4 _ _ _). set (h := tcp_header _ _ _ _ _ _ c).
    replace (20 + len payload) with (len (h ++ payload)) by (by rewrite len_app).
    apply parse_ipv4_layout; [done|done|rewrite len_app, len_tcp_header; lia|].
    by apply parse_ports_front.
  - eapply parse_tcp_of_parts; [done..|]. unfold tcp_packet.
    set (c := tcp_checksum_ipv6 _ _ _). set (h := tcp_header _ _ _ _ _ _ c).
    replace (20 + len payload) with (len (h ++ payload)) by (by rewrite len_app).
    apply parse_ipv6_layout; [done|done|rewrite len_app, len_tcp_header; lia|done|].
    by apply parse_ports_front.
Qed.

Lemma parse_udp_packet flow payload :
  flow_ok flow -> flow_protocol flow = Proto_Udp ->
  len payload <= max_udp_payload (flow_ip_version flow) ->
  parse_tun_udp_payload (udp_packet flow payload) =
    Ok (mkTunUdpPayload (reply_flow flow) payload).
Proof.
  intros Hok Hp Hlen. pose proof (len_nonneg payload). open_builder Hok Hp.
  - eapply parse_udp_of_parts; [done|lia|]. unfold udp_packet.
    set (c := udp_checksum_ipv4 _ _ _). set (n := 8 + len payload) in *.
    set (h := udp_header dp sp n c).
    replace (20 + n) with (20 + len (h ++ payload)) by (by rewrite len_app).
    apply parse_ipv4_layout; [done|done|rewrite len_app, len_udp_header; lia|].
    by apply parse_ports_front.
  - eapply parse_udp_of_parts; [done|lia|]. unfold udp_packet.
    set (c := udp_checksum_ipv6 _ _ _). set (n := 8 + len payload) in *.
    set (h := udp_header dp sp n c).
    assert (En : n = len (h ++ payload)) by (by rewrite len_app).
    replace (ipv6_header n) with (ipv6_header (len (h ++ payload))) by (by rewrite <- En).
    apply parse_ipv6_layout; [done|done|rewrite len_app, len_udp_header; lia|done|].
    by apply parse_ports_front.
Qed.

(** Every TCP response the client can build is read back by its own parser
    as the same segment on the reversed flow: addresses and ports swapped,
    sequence, acknowledgment, flags, window and payload unchanged, no options.
    Building fails only for a payload that does not fit into the packet. *)
Theorem tcp_response_roundtrip flow seq ack flags w payload :
  flow_ok flow -> flow_protocol flow = Proto_Tcp ->
  is_u32 seq -> is_u32 ack -> 0 <= flag_bits flags < 512 -> is_u16 w ->
  if len payload <=? max_tcp_payload (flow_ip_version flow) then
    exists packet,
      build_tun_tcp_response_packet flow seq ack flags w payload = Ok packet /\
      parse_tun_tcp_segment packet =
        Ok (mkTunTcpSegment (reply_flow flow) seq ack 20 flags w payload)
  else
    build_tun_tcp_response_packet flow seq ack flags w payload =
      Err (TcpResponsePayloadTooLarge (flow_ip_version flow) (len payload)
             (max_tcp_payload (flow_ip_version flow))).
Proof.
  intros Hok Hp Hs Ha Hf Hw. rewrite build_tcp_response_cases by done.
  destruct (_ <=? _) eqn:Hle; [|done]. eexists. split; [done|]. apply parse_tcp_packet; try done. lia.
Qed.

(** Every UDP response the client can build is read back by its own parser
    as the same payload on the reversed flow; building fails only for a payload
    that does not fit into the packet. *)
Theorem udp_response_roundtrip flow payload :
  flow_ok flow -> flow_protocol flow = Proto_Udp ->
  if len payload <=? max_udp_payload (flow_ip_version flow) then
    exists packet,
      build_tun_udp_response_packet flow payload = Ok packet /\
      parse_tun_udp_payload packet = Ok (mkTunUdpPayload (reply_flow flow) payload)
  else
    build_tun_udp_response_packet flow payload =
      Err (UdpResponsePayloadTooLarge (flow_ip_version flow) (len payload)
             (max_udp_payload (flow_ip_version flow))).
Proof.
  intros Hok Hp. rewrite build_udp_response_cases by done.
  destruct (_ <=? _) eqn:Hle; [|done]. eexists. split; [done|]. apply parse_udp_packet; try done. lia.
Qed.

Definition sample_udp_flow : TunPacketFlow :=
  mkTunPacketFlow Ipv6 Proto_Udp (V6 1) (V6 (2 ^ 127 + 5)) (Some 50000) (Some 443).

Lemma sample_flow_ok : flow_ok sample_flow.
Proof.
  constructor; try done; try (vm_compute; split; congruence).
  do 2 eexists. split_and!; [reflexivity|reflexivity|unfold is_u16; lia..].
Qed.

Lemma sample_udp_flow_ok : flow_ok sample_udp_flow.
Proof.
  constructor; try done; try (vm_compute; split; congruence).
  do 2 eexists. split_and!; [reflexivity|reflexivity|unfold is_u16; lia..].
Qed.

Lemma tcp_response_roundtrip_witness :
  exists packet,
    build_tun_tcp_response_packet sample_flow 7000 1001 (from_bits 18) 65535 [1; 2; 3] = Ok packet /\
    parse_tun_tcp_segment packet =
      Ok (mkTunTcpSegment (reply_flow sample_flow) 7000 1001 20 (from_bits 18) 65535 [1; 2; 3]).
Proof.
  refine (tcp_response_roundtrip sample_flow 7000 1001 (from_bits 18) 65535 [1; 2; 3]
    sample_flow_ok eq_refl _ _ _ _); vm_compute; split; congruence.
Defined.

Lemma udp_response_roundtrip_witness :
  exists packet,
    build_tun_udp_response_packet sample_udp_flow [9; 8; 7] = Ok packet /\
    parse_tun_udp_payload packet = Ok (mkTunUdpPayload (reply_flow sample_udp_flow) [9; 8; 7]).
Proof. exact (udp_response_roundtrip sample_udp_flow [9; 8; 7] sample_udp_flow_ok eq_refl). Defined.

(** * Checksums *)

(** ** The reference sum *)

(** The sum of the 16-bit words of a byte string, an odd last byte padded with
    zero, over the integers. *)
Fixpoint word_sum (l : list Z) : Z :=
  match l with
  | a :: b :: rest => from_be_bytes [a; b] + word_sum rest
  | [last] => last * 256
  | [] => 0
  end.

(** Induction two elements at a time. *)
Lemma pair_ind {A} (P : list A -> Prop) :
  P [] -> (forall x, P [x]) -> (forall x y l, P l -> P (x :: y :: l)) -> forall l, P l.
Proof.
  intros H0 H1 H2 l. enough (P l /\ forall x, P (x :: l)) by tauto.
  induction l as [|y l [IH1 IH2]]; split; auto.
Qed.

Lemma word_sum_bound l : bytes_ok l -> 0 <= word_sum l <= 65535 * ((len l + 1) / 2).
Proof.
  induction l as [|x|x y l IH] using pair_ind; intros Hok.
  - vm_compute. split; congruence.
  - apply Forall_cons_iff in Hok as [Hx _]. unfold is_u8 in Hx. cbn.
    change ((len [x] + 1) / 2) with 1. lia.
  - apply Forall_cons_iff in Hok as [Hx Hok]. apply Forall_cons_iff in Hok as [Hy Hok].
    specialize (IH Hok). cbn [word_sum]. rewrite !len_cons.
    replace (1 + (1 + len l) + 1) with (len l + 1 + 1 * 2) by lia.
    rewrite Z.div_add by lia. pose proof (from_be_bytes_u16 x y Hx Hy) as Hw. unfold is_u16 in Hw. lia.
Qed.

Lemma word_sum_app l k :
  Nat.Even (length l) -> word_sum (l ++ k) = word_sum l + word_sum k.
Proof.
  induction l as [|x|x y l IH] using pair_ind; intros He; [done| |].
  - destruct He as [n Hn]. cbn in Hn. lia.
  - cbn [app word_sum]. rewrite IH; [lia|]. destruct He as [n Hn]. exists (pred n). cbn in Hn. lia.
Qed.

(** The accumulator of the code holds the exact sum as long as it fits into its
    32 bits. *)
Lemma checksum_sum_exact s l :
  0 <= s -> bytes_ok l -> s + word_sum l < u32_modulus ->
  add_checksum_bytes s l = s + word_sum l.
Proof.
  revert s. induction l as [|x|x y l IH] using pair_ind; intros s Hs Hok Hb.
  - cbn. lia.
  - apply Forall_cons_iff in Hok as [Hx _]. unfold is_u8 in Hx. cbn in *.
    rewrite Z.shiftl_mul_pow2 by lia. change (2 ^ 8) with 256.
    unfold as_u32. apply Z.mod_small. lia.
  - apply Forall_cons_iff in Hok as [Hx Hok]. apply Forall_cons_iff in Hok as [Hy Hok].
    cbn [add_checksum_bytes word_sum] in *.
    pose proof (from_be_bytes_u16 x y Hx Hy) as Hw. unfold is_u16 in Hw.
    pose proof (word_sum_bound l Hok).
    unfold as_u32. rewrite Z.mod_small by lia. rewrite IH; [lia|lia|done|lia].
Qed.

(** ** Folding *)

Lemma fold_step s :
  Z.land s 65535 + Z.shiftr s 16 = s - 65535 * (s / 65536).
Proof.
  change 65535 with (Z.ones 16) at 1. rewrite Z.land_ones, Z.shiftr_div_pow2 by lia.
  change (2 ^ 16) with 65536. pose proof (Z.div_mod s 65536). lia.
Qed.

(** One's complement of a sum: what is left after folding is the residue modulo
    65535, zero only for a zero sum. *)
Lemma fold_checksum_spec s :
  0 <= s < u32_modulus ->
  exists q, fold_checksum 4 s = s - 65535 * q /\ 0 <= fold_checksum 4 s <= 65535
            /\ (fold_checksum 4 s = 0 <-> s = 0).
Proof.
  unfold u32_modulus. intros Hs. cbn [fold_checksum]. rewrite !fold_step.
  set (s1 := s - 65535 * (s / 65536)). set (s2 := s1 - 65535 * (s1 / 65536)).
  pose proof (Z.div_mod s 65536 ltac:(lia)). pose proof (Z.mod_pos_bound s 65536 ltac:(lia)).
  pose proof (Z.div_mod s1 65536 ltac:(lia)). pose proof (Z.mod_pos_bound s1 65536 ltac:(lia)).
  destruct (65535 <? s) eqn:C1; [|exists 0; split_and!; lia].
  destruct (65535 <? s1) eqn:C2; [|exists (s / 65536); split_and!; lia].
  assert (s1 <= 131070) by lia. assert (s1 / 65536 = 1) by lia.
  destruct (65535 <? s2) eqn:C3; [lia|].
  exists (s / 65536 + s1 / 65536). split_and!; lia.
Qed.

(** The loop of the code stops after two rounds: more fuel changes nothing. *)
Lemma fold_checksum_fuel s n :
  0 <= s < u32_modulus -> fold_checksum (2 + n) s = fold_checksum 2 s.
Proof.
  unfold u32_modulus. intros Hs. cbn [Nat.add fold_checksum]. rewrite !fold_step.
  set (s1 := s - 65535 * (s / 65536)). set (s2 := s1 - 65535 * (s1 / 65536)).
  pose proof (Z.div_mod s 65536 ltac:(lia)). pose proof (Z.mod_pos_bound s 65536 ltac:(lia)).
  pose proof (Z.div_mod s1 65536 ltac:(lia)). pose proof (Z.mod_pos_bound s1 65536 ltac:(lia)).
  destruct (65535 <? s) eqn:C1; [|done]. destruct (65535 <? s1) eqn:C2; [|done].
  assert (s2 <= 65535) by lia. destruct n; [done|]. cbn [fold_checksum].
  by replace (65535 <? s2) with false by lia.
Qed.

Lemma finish_checksum_u16 s : 0 <= s < u32_modulus -> is_u16 (finish_checksum s).
Proof.
  intros Hs. destruct (fold_checksum_spec s Hs) as (q & _ & Hb & _).
  unfold finish_checksum, not_u16, as_u16, u16_max, is_u16. rewrite Z.mod_small by lia. lia.
Qed.

(** A sum completed with its own checksum folds to zero. *)
Lemma finish_checksum_cancels s c :
  0 <= s -> s + 65535 < u32_modulus ->
  c = finish_checksum s \/ (finish_checksum s = 0 /\ c = 65535) ->
  finish_checksum (s + c) = 0.
Proof.
  intros Hs Hb Hc.
  destruct (fold_checksum_spec s ltac:(lia)) as (q & Hq & Hf & Hz).
  assert (Hfin : finish_checksum s = 65535 - fold_checksum 4 s)
    by (unfold finish_checksum, not_u16, as_u16, u16_max; rewrite Z.mod_small by lia; done).
  assert (Hsum : exists k, s + c = 65535 * k /\ 0 < k) by
    (destruct Hc as [->|[Hc0 ->]]; [exists (q + 1) | exists (q + 2)]; lia).
  destruct Hsum as (k & Hk & Hkpos).
  destruct (fold_checksum_spec (s + c)) as (q' & Hq' & Hf' & Hz'); [lia|].
  unfold finish_checksum, not_u16, as_u16, u16_max. rewrite Z.mod_small by lia.
  assert (fold_checksum 4 (s + c) = 65535) by lia. lia.
Qed.

(** ** Sums of headers *)

Lemma even_length_of {A} (l : list A) n : length l = n -> Nat.even n = true -> Nat.Even (length l).
Proof. intros -> H. by apply Nat.even_spec. Qed.

Lemma tcp_header_ok sp dp seq ack flags w c : bytes_ok (tcp_header sp dp seq ack flags w c).
Proof.
  unfold tcp_header. repeat (apply bytes_ok_app; split); try apply to_be_bytes_ok.
  - assert (Hb : exists k, as_u8 (Z.land (Z.shiftr (flag_bits flags) 8) 1) = k /\ 0 <= k <= 1).
    { eexists. split; [done|]. unfold as_u8.
      rewrite (Z.land_ones (Z.shiftr (flag_bits flags) 8) 1 ltac:(lia) :
        Z.land (Z.shiftr (flag_bits flags) 8) 1 = _).
      pose proof (Z.mod_pos_bound (Z.shiftr (flag_bits flags) 8) (2 ^ 1) ltac:(lia)).
      rewrite Z.mod_small; lia. }
    destruct Hb as (k & -> & Hk). assert (k = 0 \/ k = 1) as [-> | ->] by lia;
      repeat (apply List.Forall_cons; [try (vm_compute; split; congruence);
        apply Z.mod_pos_bound; lia|]); apply List.Forall_nil.
  - repeat (apply List.Forall_cons; [vm_compute; split; congruence|]). apply List.Forall_nil.
Qed.

Lemma udp_header_ok sp dp n c : bytes_ok (udp_header sp dp n c).
Proof. unfold udp_header. repeat (apply bytes_ok_app; split); apply to_be_bytes_ok. Qed.

Lemma ipv4_header_ok total protocol src dst c :
  is_u8 protocol -> bytes_ok (ipv4_header total protocol src dst c).
Proof.
  intros Hp. unfold ipv4_header.
  repeat (apply bytes_ok_app; split); try apply to_be_bytes_ok;
    repeat (apply List.Forall_cons; [try done; vm_compute; split; congruence|]); apply List.Forall_nil.
Qed.

(** A checksum field adds its value to the sum of the header. *)
Lemma word_sum_tcp_header sp dp seq ack flags w c rest :
  is_u16 c ->
  word_sum (tcp_header sp dp seq ack flags w c ++ rest) =
  word_sum (tcp_header sp dp seq ack flags w 0 ++ rest) + c.
Proof.
  intros Hc. rewrite !word_sum_app by (by apply (even_length_of _ 20)). unfold tcp_header.
  name_bytes_2 c Ec. explode_bytes. cbn [app word_sum]. rewrite <- Ec, from_to_be_2 by done.
  change (from_be_bytes [0; 0]) with 0. lia.
Qed.

Lemma word_sum_udp_header sp dp n c rest :
  is_u16 c ->
  word_sum (udp_header sp dp n c ++ rest) = word_sum (udp_header sp dp n 0 ++ rest) + c.
Proof.
  intros Hc. rewrite !word_sum_app by (by apply (even_length_of _ 8)). unfold udp_header.
  name_bytes_2 c Ec. explode_bytes. cbn [app word_sum]. rewrite <- Ec, from_to_be_2 by done.
  change (from_be_bytes [0; 0]) with 0. lia.
Qed.

Lemma word_sum_ipv4_header total protocol src dst c :
  is_u16 c ->
  word_sum (ipv4_header total protocol src dst c) =
  word_sum (ipv4_header total protocol src dst 0) + c.
Proof.
  intros Hc. unfold ipv4_header, v4_octets.
  name_bytes_2 c Ec. explode_bytes. cbn [app word_sum]. rewrite <- Ec, from_to_be_2 by done.
  change (from_be_bytes [0; 0]) with 0. lia.
Qed.

(** ** The checksums, as folded sums *)

(** The sum over the IPv4 (IPv6) pseudo header and the transport bytes. *)
Definition pseudo_sum_v4 (protocol src dst : Z) (bytes : list Z) : Z :=
  word_sum (v4_octets src) + word_sum (v4_octets dst) + protocol
  + word_sum (to_be_bytes 2 (as_u16 (len bytes))) + word_sum bytes.

Definition pseudo_sum_v6 (protocol src dst : Z) (bytes : list Z) : Z :=
  word_sum (v6_octets src) + word_sum (v6_octets dst)
  + word_sum (to_be_bytes 4 (as_u32 (len bytes))) + protocol + word_sum bytes.

Lemma word_sum_be_bytes n x : 0 <= word_sum (to_be_bytes n x) <= 65535 * ((Z.of_nat n + 1) / 2).
Proof. rewrite <- (len_to_be_bytes n x). apply word_sum_bound, to_be_bytes_ok. Qed.

Lemma word_sum_packet l : bytes_ok l -> len l <= 65535 -> 0 <= word_sum l <= 65535 * 32768.
Proof.
  intros Hok Hl. pose proof (word_sum_bound l Hok).
  assert ((len l + 1) / 2 <= 65536 / 2) by (apply Z.div_le_mono; lia).
  change (65536 / 2) with 32768 in *. lia.
Qed.

Ltac pose_sums src dst bytes Hok Hl :=
  pose proof (word_sum_be_bytes 4 src); pose proof (word_sum_be_bytes 4 dst);
  pose proof (word_sum_be_bytes 16 src); pose proof (word_sum_be_bytes 16 dst);
  pose proof (word_sum_be_bytes 2 (as_u16 (len bytes)));
  pose proof (word_sum_be_bytes 4 (as_u32 (len bytes)));
  pose proof (word_sum_packet bytes Hok Hl);
  change ((Z.of_nat 4 + 1) / 2) with 2 in *; change ((Z.of_nat 16 + 1) / 2) with 8 in *;
  change ((Z.of_nat 2 + 1) / 2) with 1 in *.

Lemma pseudo_sum_v4_bound protocol src dst bytes :
  bytes_ok bytes -> len bytes <= 65535 -> 0 <= protocol < 256 ->
  0 <= pseudo_sum_v4 protocol src dst bytes /\
  pseudo_sum_v4 protocol src dst bytes + 65535 < u32_modulus.
Proof.
  intros Hok Hl Hp. unfold pseudo_sum_v4, v4_octets, u32_modulus.
  pose_sums src dst bytes Hok Hl. lia.
Qed.

Lemma pseudo_sum_v6_bound protocol src dst bytes :
  bytes_ok bytes -> len bytes <= 65535 -> 0 <= protocol < 256 ->
  0 <= pseudo_sum_v6 protocol src dst bytes /\
  pseudo_sum_v6 protocol src dst bytes + 65535 < u32_modulus.
Proof.
  intros Hok Hl Hp. unfold pseudo_sum_v6, v6_octets, u32_modulus.
  pose_sums src dst bytes Hok Hl. lia.
Qed.

(** Replaces every accumulation of the code by the exact sum. *)
Ltac exact_sums :=
  repeat (match goal with
    | |- context [add_checksum_bytes ?s ?l] =>
        lazymatch s with
        | context [add_checksum_bytes] => fail
        | _ => rewrite (checksum_sum_exact s l)
        end
    end;
    [| cbn [word_sum from_be_bytes fold_left] in *; lia
     | first [apply to_be_bytes_ok | done
             | repeat (apply List.Forall_cons; [vm_compute; split; congruence|]); apply List.Forall_nil]
     | unfold u32_modulus; cbn [word_sum from_be_bytes fold_left] in *; lia]).

Lemma tcp_checksum_ipv4_exact src dst bytes :
  bytes_ok bytes -> len bytes <= 65535 ->
  tcp_checksum_ipv4 src dst bytes = finish_checksum (pseudo_sum_v4 6 src dst bytes).
Proof.
  intros Hok Hl. unfold tcp_checksum_ipv4, pseudo_sum_v4, v4_octets.
  pose_sums src dst bytes Hok Hl. cbn [ip_protocol_number]. unfold u32_modulus in *. by exact_sums.
Qed.

Lemma tcp_checksum_ipv6_exact src dst bytes :
  bytes_ok bytes -> len bytes <= 65535 ->
  tcp_checksum_ipv6 src dst bytes = finish_checksum (pseudo_sum_v6 6 src dst bytes).
Proof.
  intros Hok Hl. unfold tcp_checksum_ipv6, pseudo_sum_v6, v6_octets.
  pose_sums src dst bytes Hok Hl. cbn [ip_protocol_number]. unfold u32_modulus in *. by exact_sums.
Qed.

Lemma udp_checksum_ipv4_exact src dst bytes :
  bytes_ok bytes -> len bytes <= 65535 ->
  udp_checksum_ipv4 src dst bytes = nonzero_checksum (pseudo_sum_v4 17 src dst bytes).
Proof.
  intros Hok Hl. unfold udp_checksum_ipv4, pseudo_sum_v4, v4_octets.
  pose_sums src dst bytes Hok Hl. cbn [ip_protocol_number]. unfold u32_modulus in *. by exact_sums.
Qed.

Lemma udp_checksum_ipv6_exact src dst bytes :
  bytes_ok bytes -> len bytes <= 65535 ->
  udp_checksum_ipv6 src dst bytes = nonzero_checksum (pseudo_sum_v6 17 src dst bytes).
Proof.
  intros Hok Hl. unfold udp_checksum_ipv6, pseudo_sum_v6, v6_octets.
  pose_sums src dst bytes Hok Hl. cbn [ip_protocol_number]. unfold u32_modulus in *. by exact_sums.
Qed.

(** ** What a receiver checks *)

(** The checks of a receiver of an IP packet on the reply of [flow]: the IPv4
    header sums to zero, and so does the transport part with its pseudo header. *)
Definition receiver_accepts_tcp (flow : TunPacketFlow) (packet : list Z) : Prop :=
  match flow_destination_ip flow, flow_source_ip flow with
  | V4 src, V4 dst =>
      checksum (sub_list packet 0 20) = 0 /\
      tcp_checksum_ipv4 src dst (sub_list packet 20 (len packet)) = 0
  | V6 src, V6 dst => tcp_checksum_ipv6 src dst (sub_list packet 40 (len packet)) = 0
  | _, _ => False
  end.

(** UDP: the checksum field (at offset 6 of the datagram) is never zero, which
    would say that there is none, and the datagram sums to zero, which the code's
    own routine reports as 65535. *)
Definition receiver_accepts_udp (flow : TunPacketFlow) (packet : list Z) : Prop :=
  match flow_destination_ip flow, flow_source_ip flow with
  | V4 src, V4 dst =>
      checksum (sub_list packet 0 20) = 0 /\ sub_list packet 26 28 <> [0; 0] /\
      udp_checksum_ipv4 src dst (sub_list packet 20 (len packet)) = 65535
  | V6 src, V6 dst =>
      sub_list packet 46 48 <> [0; 0] /\
      udp_checksum_ipv6 src dst (sub_list packet 40 (len packet)) = 65535
  | _, _ => False
  end.

Lemma ipv4_header_verifies total protocol src dst :
  is_u8 protocol ->
  checksum (ipv4_header total protocol src dst (checksum (ipv4_header total protocol src dst 0))) = 0.
Proof.
  intros Hp.
  pose proof (word_sum_bound _ (ipv4_header_ok total protocol src dst 0 Hp)) as Hb.
  rewrite len_ipv4_header in Hb. change ((20 + 1) / 2) with 10 in Hb.
  set (s0 := word_sum (ipv4_header total protocol src dst 0)) in *.
  assert (Hc : checksum (ipv4_header total protocol src dst 0) = finish_checksum s0).
  { unfold checksum. rewrite checksum_sum_exact; [done|lia|by apply ipv4_header_ok|].
    unfold u32_modulus. fold s0. lia. }
  rewrite Hc. pose proof (finish_checksum_u16 s0 ltac:(unfold u32_modulus; lia)) as Hu.
  unfold checksum. rewrite checksum_sum_exact; [|lia|by apply ipv4_header_ok|];
    rewrite word_sum_ipv4_header by done; fold s0; unfold is_u16, u32_modulus in *; [|lia].
  rewrite Z.add_0_l. apply finish_checksum_cancels; [lia|unfold u32_modulus; lia|by left].
Qed.

Lemma bytes_ok_transport h payload : bytes_ok h -> bytes_ok payload -> bytes_ok (h ++ payload).
Proof. intros. by apply bytes_ok_app. Qed.

(** The tail of a packet behind its IP header. *)
Lemma sub_list_tail (h tl : list Z) a : a = len h -> sub_list (h ++ tl) a (len (h ++ tl)) = tl.
Proof. intros ->. apply sub_list_app_end; [done|by rewrite len_app]. Qed.

Lemma sub_list_front (h tl : list Z) a : a = len h -> sub_list (h ++ tl) 0 a = h.
Proof.
  intros ->. unfold sub_list, len. rewrite Z.sub_0_r, Nat2Z.id. apply take_app_length.
Qed.

Lemma pseudo_sum_v4_patch protocol src dst l l' c :
  len l' = len l -> word_sum l' = word_sum l + c ->
  pseudo_sum_v4 protocol src dst l' = pseudo_sum_v4 protocol src dst l + c.
Proof. unfold pseudo_sum_v4. intros -> ->. lia. Qed.

Lemma pseudo_sum_v6_patch protocol src dst l l' c :
  len l' = len l -> word_sum l' = word_sum l + c ->
  pseudo_sum_v6 protocol src dst l' = pseudo_sum_v6 protocol src dst l + c.
Proof. unfold pseudo_sum_v6. intros -> ->. lia. Qed.

Lemma nonzero_checksum_cancels s :
  0 <= s -> s + 65535 < u32_modulus ->
  is_u16 (nonzero_checksum s) /\ nonzero_checksum s <> 0 /\
  nonzero_checksum (s + nonzero_checksum s) = 65535.
Proof.
  intros Hs Hb. pose proof (finish_checksum_u16 s ltac:(lia)) as Hu.
  assert (Hfin : finish_checksum (s + nonzero_checksum s) = 0).
  { apply finish_checksum_cancels; [done..|]. unfold nonzero_checksum, u16_max.
    destruct (finish_checksum s =? 0) eqn:Hz; [right; lia|by left]. }
  unfold nonzero_checksum at 3. rewrite Hfin. split_and!; [| |done]; unfold nonzero_checksum, u16_max, is_u16 in *;
    destruct (finish_checksum s =? 0) eqn:Hz; lia.
Qed.

(** The four checksum fields. [l0] is the transport part with a zero field. *)
Lemma tcp_v4_verifies src dst sp dp seq ack flags w payload :
  bytes_ok payload -> 20 + len payload <= 65535 ->
  let l0 := tcp_header sp dp seq ack flags w 0 ++ payload in
  tcp_checksum_ipv4 src dst
    (tcp_header sp dp seq ack flags w (tcp_checksum_ipv4 src dst l0) ++ payload) = 0.
Proof.
  intros Hok Hl l0.
  assert (H0 : forall c, bytes_ok (tcp_header sp dp seq ack flags w c ++ payload) /\
    len (tcp_header sp dp seq ack flags w c ++ payload) <= 65535)
    by (intros c; split; [apply bytes_ok_transport; [apply tcp_header_ok|done]|rewrite len_app, len_tcp_header; lia]).
  destruct (H0 0) as [Hok0 Hl0]. fold l0 in Hok0, Hl0.
  rewrite (tcp_checksum_ipv4_exact src dst l0) by done.
  pose proof (pseudo_sum_v4_bound 6 src dst l0 Hok0 Hl0 ltac:(lia)) as [Hs Hb].
  set (s := pseudo_sum_v4 6 src dst l0) in *.
  rewrite tcp_checksum_ipv4_exact by apply H0.
  rewrite (pseudo_sum_v4_patch _ _ _ l0 _ (finish_checksum s)); fold s.
  - apply finish_checksum_cancels; [done..|by left].
  - unfold l0. by rewrite !len_app.
  - apply word_sum_tcp_header, finish_checksum_u16. lia.
Qed.

Lemma tcp_v6_verifies src dst sp dp seq ack flags w payload :
  bytes_ok payload -> 20 + len payload <= 65535 ->
  let l0 := tcp_header sp dp seq ack flags w 0 ++ payload in
  tcp_checksum_ipv6 src dst
    (tcp_header sp dp seq ack flags w (tcp_checksum_ipv6 src dst l0) ++ payload) = 0.
Proof.
  intros Hok Hl l0.
  assert (H0 : forall c, bytes_ok (tcp_header sp dp seq ack flags w c ++ payload) /\
    len (tcp_header sp dp seq ack flags w c ++ payload) <= 65535)
    by (intros c; split; [apply bytes_ok_transport; [apply tcp_header_ok|done]|rewrite len_app, len_tcp_header; lia]).
  destruct (H0 0) as [Hok0 Hl0]. fold l0 in Hok0, Hl0.
  rewrite (tcp_checksum_ipv6_exact src dst l0) by done.
  pose proof (pseudo_sum_v6_bound 6 src dst l0 Hok0 Hl0 ltac:(lia)) as [Hs Hb].
  set (s := pseudo_sum_v6 6 src dst l0) in *.
  rewrite tcp_checksum_ipv6_exact by apply H0.
  rewrite (pseudo_sum_v6_patch _ _ _ l0 _ (finish_checksum s)); fold s.
  - apply finish_checksum_cancels; [done..|by left].
  - unfold l0. by rewrite !len_app.
  - apply word_sum_tcp_header, finish_checksum_u16. lia.
Qed.

Lemma udp_v4_verifies src dst sp dp n payload :
  bytes_ok payload -> 8 + len payload <= 65535 ->
  let c := udp_checksum_ipv4 src dst (udp_header sp dp n 0 ++ payload) in
  is_u16 c /\ c <> 0 /\ udp_checksum_ipv4 src dst (udp_header sp dp n c ++ payload) = 65535.
Proof.
  intros Hok Hl. set (l0 := udp_header sp dp n 0 ++ payload).
  assert (H0 : forall c, bytes_ok (udp_header sp dp n c ++ payload) /\
    len (udp_header sp dp n c ++ payload) <= 65535)
    by (intros c; split; [apply bytes_ok_transport; [apply udp_header_ok|done]|rewrite len_app, len_udp_header; lia]).
  destruct (H0 0) as [Hok0 Hl0]. fold l0 in Hok0, Hl0.
  rewrite (udp_checksum_ipv4_exact src dst l0) by done. cbn zeta.
  pose proof (pseudo_sum_v4_bound 17 src dst l0 Hok0 Hl0 ltac:(lia)) as [Hs Hb].
  set (s := pseudo_sum_v4 17 src dst l0) in *.
  destruct (nonzero_checksum_cancels s Hs Hb) as (Hu & Hnz & Hc). split_and!; [done..|].
  rewrite udp_checksum_ipv4_exact by apply H0.
  rewrite (pseudo_sum_v4_patch _ _ _ l0 _ (nonzero_checksum s)); fold s;
    [done|by unfold l0; rewrite !len_app|by apply word_sum_udp_header].
Qed.

Lemma udp_v6_verifies src dst sp dp n payload :
  bytes_ok payload -> 8 + len payload <= 65535 ->
  let c := udp_checksum_ipv6 src dst (udp_header sp dp n 0 ++ payload) in
  is_u16 c /\ c <> 0 /\ udp_checksum_ipv6 src dst (udp_header sp dp n c ++ payload) = 65535.
Proof.
  intros Hok Hl. set (l0 := udp_header sp dp n 0 ++ payload).
  assert (H0 : forall c, bytes_ok (udp_header sp dp n c ++ payload) /\
    len (udp_header sp dp n c ++ payload) <= 65535)
    by (intros c; split; [apply bytes_ok_transport; [apply udp_header_ok|done]|rewrite len_app, len_udp_header; lia]).
  destruct (H0 0) as [Hok0 Hl0]. fold l0 in Hok0, Hl0.
  rewrite (udp_checksum_ipv6_exact src dst l0) by done. cbn zeta.
  pose proof (pseudo_sum_v6_bound 17 src dst l0 Hok0 Hl0 ltac:(lia)) as [Hs Hb].
  set (s := pseudo_sum_v6 17 src dst l0) in *.
  destruct (nonzero_checksum_cancels s Hs Hb) as (Hu & Hnz & Hc). split_and!; [done..|].
  rewrite udp_checksum_ipv6_exact by apply H0.
  rewrite (pseudo_sum_v6_patch _ _ _ l0 _ (nonzero_checksum s)); fold s;
    [done|by unfold l0; rewrite !len_app|by apply word_sum_udp_header].
Qed.

(** The checksum field of a UDP datagram behind an IP header. *)
Lemma udp_field_nonzero (h : list Z) sp dp n c payload a b :
  a = len h + 6 -> b = len h + 8 -> is_u16 c -> c <> 0 ->
  sub_list (h ++ udp_header sp dp n c ++ payload) a b <> [0; 0].
Proof.
  intros -> -> Hc Hnz. unfold udp_header.
  set (h' := h ++ to_be_bytes 2 sp ++ to_be_bytes 2 dp ++ to_be_bytes 2 n).
  assert (Hh : len h' = len h + 6) by (unfold h'; rewrite len_app; reflexivity).
  replace (h ++ _ ++ payload) with (h' ++ to_be_bytes 2 c ++ payload)
    by (unfold h'; by rewrite <- !app_assoc).
  rewrite sub_list_app_mid by (rewrite Hh, ?len_to_be_bytes; lia).
  intros He. apply Hnz. by rewrite <- (from_to_be_2 c Hc), He.
Qed.

(** The checksums of every TCP packet the client builds verify at a
    receiver: the IPv4 header checksum and the TCP checksum over the pseudo
    header, for IPv4 and IPv6, for every payload that fits. *)
Theorem tcp_response_checksums_verify flow seq ack flags w payload packet :
  flow_ok flow -> flow_protocol flow = Proto_Tcp -> bytes_ok payload ->
  build_tun_tcp_response_packet flow seq ack flags w payload = Ok packet ->
  receiver_accepts_tcp flow packet.
Proof.
  intros Hok Hp Hb. rewrite build_tcp_response_cases by done.
  destruct (_ <=? _) eqn:Hle; [|done]. intros [= <-]. pose proof (len_nonneg payload).
  open_builder Hok Hp; unfold receiver_accepts_tcp, tcp_packet; cbn [flow_destination_ip flow_source_ip].
  - rewrite sub_list_tail, sub_list_front by done. split.
    + apply ipv4_header_verifies. unfold is_u8. lia.
    + apply tcp_v4_verifies; [done|lia].
  - rewrite sub_list_tail by done. apply tcp_v6_verifies; [done|lia].
Qed.

(** The checksums of every UDP packet the client builds verify at a
    receiver, and the UDP checksum field is never the zero that would mean that
    no checksum was computed. *)
Theorem udp_response_checksums_verify flow payload packet :
  flow_ok flow -> flow_protocol flow = Proto_Udp -> bytes_ok payload ->
  build_tun_udp_response_packet flow payload = Ok packet ->
  receiver_accepts_udp flow packet.
Proof.
  intros Hok Hp Hb. rewrite build_udp_response_cases by done.
  destruct (_ <=? _) eqn:Hle; [|done]. intros [= <-]. pose proof (len_nonneg payload).
  open_builder Hok Hp; unfold receiver_accepts_udp, udp_packet; cbn [flow_destination_ip flow_source_ip].
  - destruct (udp_v4_verifies dst src dp sp (8 + len payload) payload Hb ltac:(lia)) as (Hu & Hnz & Hv).
    rewrite sub_list_tail, sub_list_front by done. split_and!; [|by apply udp_field_nonzero|done].
    apply ipv4_header_verifies. unfold is_u8. lia.
  - destruct (udp_v6_verifies dst src dp sp (8 + len payload) payload Hb ltac:(lia)) as (Hu & Hnz & Hv).
    rewrite sub_list_tail by done. split; [by apply udp_field_nonzero|done].
Qed.

Definition sample_tcp_packet : list Z := tcp_packet sample_flow 7000 1001 (from_bits 24) 65535 [1; 2; 255].

Lemma tcp_response_checksums_verify_witness : receiver_accepts_tcp sample_flow sample_tcp_packet.
Proof.
  refine (tcp_response_checksums_verify sample_flow 7000 1001 (from_bits 24) 65535 [1; 2; 255] _
    sample_flow_ok eq_refl _ eq_refl).
  repeat (apply List.Forall_cons; [vm_compute; split; congruence|]). apply List.Forall_nil.
Defined.

Lemma udp_response_checksums_verify_witness :
  receiver_accepts_udp sample_udp_flow (udp_packet sample_udp_flow [9; 8; 7]).
Proof.
  refine (udp_response_checksums_verify sample_udp_flow [9; 8; 7] _ sample_udp_flow_ok eq_refl _ eq_refl).
  repeat (apply List.Forall_cons; [vm_compute; split; congruence|]). apply List.Forall_nil.
Defined.
