(* ===== verification/TunPlan.v ===== *)
(** * Routing of packets

    [crates/keli-net-core/src/tun.rs]: the route decision for a packet read from
    the device and the relay action it is turned into. *)

From stdpp Require Import base gmap strings list numbers.
From S2P Require Import Prelude.
From S2P Require Import StdNet.
From S2P Require Import Route.
From S2P Require Import Dns.
From S2P Require Import TunPacket.
From S2P Require Import TunPacketBuild.
#[local] Open Scope Z_scope.

Record TunPacketRouteDecision : Type := mkTunPacketRouteDecision {
  route_flow : TunPacketFlow;
  route_action : RouteAction;
  route_matched_rule : option string;
  route_dns_hijacked : bool
}.

Inductive TunPacketRelayAction : Type :=
| Action_Drop
| Action_HijackDns
| Action_DirectTcp (target : OutboundTarget)
| Action_DirectUdp (target : OutboundTarget)
| Action_OutboundTcp (tag : string) (target : OutboundTarget)
| Action_OutboundUdp (tag : string) (target : OutboundTarget)
| Action_UnsupportedTransport (protocol : TunTransportProtocol).

#[export] Instance TunPacketRelayAction_eq_dec : EqDecision TunPacketRelayAction.
Proof. solve_decision. Defined.

Record TunPacketRelayPlan : Type := mkTunPacketRelayPlan {
  plan_route : TunPacketRouteDecision;
  plan_relay_action : TunPacketRelayAction
}.

Definition decide_tun_packet_route (packet : list Z) (routes : RouteEngine)
  (dns_hijack_enabled : bool) : result TunPacketError TunPacketRouteDecision :=
  flow <-? parse_tun_packet_flow packet;
  if dns_hijack_enabled && is_dns_hijack_candidate flow
  then Ok (mkTunPacketRouteDecision flow Route_HijackDns None true)
  else
    let decision := RouteEngine_decide_destination routes (route_destination flow) in
    Ok (mkTunPacketRouteDecision flow (decision_action decision) (decision_matched_rule decision)
          false).

Definition tun_relay_action_for_transport (flow : TunPacketFlow) (outbound_tag : option string)
  : TunPacketRelayAction :=
  match destination_outbound_target flow with
  | None => Action_UnsupportedTransport (flow_protocol flow)
  | Some target =>
      match flow_protocol flow, outbound_tag with
      | Proto_Tcp, Some tag => Action_OutboundTcp tag target
      | Proto_Udp, Some tag => Action_OutboundUdp tag target
      | Proto_Tcp, None => Action_DirectTcp target
      | Proto_Udp, None => Action_DirectUdp target
      | protocol, _ => Action_UnsupportedTransport protocol
      end
  end.

Definition plan_tun_packet_relay (packet : list Z) (routes : RouteEngine)
  (dns_hijack_enabled : bool) : result TunPacketError TunPacketRelayPlan :=
  route <-? decide_tun_packet_route packet routes dns_hijack_enabled;
  let relay_action :=
    match route_action route with
    | Route_Block => Action_Drop
    | Route_HijackDns => Action_HijackDns
    | Route_Direct => tun_relay_action_for_transport (route_flow route) None
    | Route_Outbound tag => tun_relay_action_for_transport (route_flow route) (Some tag)
    end in
  Ok (mkTunPacketRelayPlan route relay_action).

(** [matches!(plan.relay_action, DirectTcp { .. } | OutboundTcp { .. })] and the
    same for UDP. *)
Definition is_tcp_action (a : TunPacketRelayAction) : bool :=
  match a with Action_DirectTcp _ | Action_OutboundTcp _ _ => true | _ => false end.

Definition is_udp_action (a : TunPacketRelayAction) : bool :=
  match a with Action_DirectUdp _ | Action_OutboundUdp _ _ => true | _ => false end.

(** ** The specification of a plan *)

(** What the routing table says of a packet's flow. *)
Definition routed_action (routes : RouteEngine) (hijack : bool) (flow : TunPacketFlow)
  : RouteAction :=
  if hijack && is_dns_hijack_candidate flow then Route_HijackDns
  else decision_action (RouteEngine_decide_destination routes (route_destination flow)).

(** The relay action a route action asks for on a flow. *)
Definition planned_action (flow : TunPacketFlow) (a : RouteAction) : TunPacketRelayAction :=
  match a with
  | Route_Block => Action_Drop
  | Route_HijackDns => Action_HijackDns
  | Route_Direct => tun_relay_action_for_transport flow None
  | Route_Outbound tag => tun_relay_action_for_transport flow (Some tag)
  end.

Lemma plan_tun_packet_relay_spec packet routes hijack :
  plan_tun_packet_relay packet routes hijack =
  (flow <-? parse_tun_packet_flow packet;
   let action := routed_action routes hijack flow in
   Ok (mkTunPacketRelayPlan
         (mkTunPacketRouteDecision flow action
            (if hijack && is_dns_hijack_candidate flow then None
             else decision_matched_rule
                    (RouteEngine_decide_destination routes (route_destination flow)))
            (hijack && is_dns_hijack_candidate flow))
         (planned_action flow action))).
Proof.
  unfold plan_tun_packet_relay, decide_tun_packet_route, routed_action.
  destruct (parse_tun_packet_flow packet) as [flow| |]; [|done..]. cbn [result_bind].
  by destruct (hijack && is_dns_hijack_candidate flow).
Qed.

(** The target a relay action dials. *)
Definition action_target (a : TunPacketRelayAction) : option OutboundTarget :=
  match a with
  | Action_DirectTcp t | Action_DirectUdp t | Action_OutboundTcp _ t | Action_OutboundUdp _ t =>
      Some t
  | _ => None
  end.

Lemma relay_action_target flow tag target :
  action_target (tun_relay_action_for_transport flow tag) = Some target ->
  destination_outbound_target flow = Some target.
Proof.
  unfold tun_relay_action_for_transport. destruct (destination_outbound_target flow); [|done].
  destruct (flow_protocol flow), tag; cbn; congruence.
Qed.

Lemma relay_action_transport flow tag :
  (is_tcp_action (tun_relay_action_for_transport flow tag) = true -> flow_protocol flow = Proto_Tcp) /\
  (is_udp_action (tun_relay_action_for_transport flow tag) = true -> flow_protocol flow = Proto_Udp).
Proof.
  unfold tun_relay_action_for_transport. destruct (destination_outbound_target flow); [|done].
  destruct (flow_protocol flow), tag; cbn; split; congruence.
Qed.

Lemma planned_action_transport flow a :
  (is_tcp_action (planned_action flow a) = true -> flow_protocol flow = Proto_Tcp) /\
  (is_udp_action (planned_action flow a) = true -> flow_protocol flow = Proto_Udp).
Proof. destruct a; cbn; try (split; congruence); apply relay_action_transport. Qed.

(** A packet is relayed exactly where its route allows: it is dropped if
    and only if its route is blocked, answered as DNS if and only if its route
    hijacks it, sent directly only on a direct route and to an outbound only on
    the route of that outbound; whatever is dialled is the packet's own
    destination address and port. *)
Theorem plan_follows_route packet routes hijack plan :
  plan_tun_packet_relay packet routes hijack = Ok plan ->
  exists flow,
    parse_tun_packet_flow packet = Ok flow /\ route_flow (plan_route plan) = flow /\
    let action := routed_action routes hijack flow in
    route_action (plan_route plan) = action /\
    (plan_relay_action plan = Action_Drop <-> action = Route_Block) /\
    (plan_relay_action plan = Action_HijackDns <-> action = Route_HijackDns) /\
    (forall target, action_target (plan_relay_action plan) = Some target ->
       destination_outbound_target flow = Some target /\
       (action = Route_Direct \/ exists tag, action = Route_Outbound tag)) /\
    (forall tag target,
       plan_relay_action plan = Action_OutboundTcp tag target \/
       plan_relay_action plan = Action_OutboundUdp tag target -> action = Route_Outbound tag).
Proof.
  rewrite plan_tun_packet_relay_spec. intros H.
  apply result_bind_Ok in H as (a & Ha & H). injection H as <-. cbn.
  exists a. split_and!; [done..| | | |]; set (act := routed_action routes hijack a).
  - destruct act; cbn; try (split; congruence);
      unfold tun_relay_action_for_transport; repeat break_goal; split; congruence.
  - destruct act; cbn; try (split; congruence);
      unfold tun_relay_action_for_transport; repeat break_goal; split; congruence.
  - intros target Ht. destruct act; cbn in *; try done; eauto using relay_action_target.
  - intros tag target Ht. destruct act; cbn in *; try (by destruct Ht);
      unfold tun_relay_action_for_transport in Ht; destruct (destination_outbound_target a);
      destruct (flow_protocol a); cbn in *; destruct Ht; congruence.
Qed.

(** A table that blocks 93.184.216.0/24 and sends the rest through [proxy]. *)
Definition sample_routes : RouteEngine :=
  RouteEngine_add_rule (RouteEngine_new (Route_Outbound "proxy"))
    (mkRouteRule "ads" (IpCidr (mkRouteIpCidr (V4 1572395008) 24)) Route_Block).

Lemma plan_follows_route_witness :
  exists plan, plan_tun_packet_relay sample_syn_packet sample_routes true = Ok plan /\
    plan_relay_action plan = Action_Drop /\
    route_action (plan_route plan) = Route_Block.
Proof.
  eexists. split; [vm_compute; reflexivity|].
  destruct (plan_follows_route sample_syn_packet sample_routes true _ eq_refl)
    as (flow & Hflow & _ & Hact & Hdrop & _).
  vm_compute in Hflow. injection Hflow as <-. split; [by apply Hdrop|exact Hact].
Defined.
