(* ===== verification/TunSession.v ===== *)
(** * The TCP session table of the TUN data plane

    [crates/keli-net-core/src/tun.rs]: the user-space TCP endpoint that answers
    the client's segments. Every session is a record of sequence cursors and a
    phase; sessions the server has closed and sessions both sides have closed
    leave a marker, so that late segments can still be answered.

    A method on [&mut self] is a computation of the state monad on the table.
    [Instant] is a reading of the monotonic clock, as a number of nanoseconds;
    the reading that [Instant::now()] gives is the argument [now] of the method. *)

From stdpp Require Import base gmap strings list numbers fin_maps countable.
From S2P Require Import Prelude.
From S2P Require Import StdNet.
From S2P Require Import Dns.
From S2P Require Import TunPacket.
#[local] Open Scope Z_scope.

(** ** Data *)

Record TunTcpSessionKey : Type := mkTunTcpSessionKey {
  key_source_ip : IpAddr;
  key_source_port : Z;
  key_destination_ip : IpAddr;
  key_destination_port : Z
}.

#[export] Instance TunTcpSessionKey_eq_dec : EqDecision TunTcpSessionKey.
Proof. solve_decision. Defined.

#[export] Instance TunTcpSessionKey_countable : Countable TunTcpSessionKey.
Proof.
  refine (inj_countable'
    (fun k => (key_source_ip k, key_source_port k, key_destination_ip k, key_destination_port k))
    (fun '(a, b, c, d) => mkTunTcpSessionKey a b c d) _).
  by intros [].
Defined.

Inductive TunTcpSessionPhase : Type :=
| SynReceived
| Established
| ClientFinReceived.

#[export] Instance TunTcpSessionPhase_eq_dec : EqDecision TunTcpSessionPhase.
Proof. solve_decision. Defined.

Record TunTcpServerUnackedPayload : Type := mkTunTcpServerUnackedPayload {
  unacked_sequence_number : Z;
  unacked_acknowledgment_number : Z;
  unacked_payload : list Z
}.

Record TunTcpSessionRecord : Type := mkTunTcpSessionRecord {
  ses_key : TunTcpSessionKey;
  ses_flow : TunPacketFlow;
  ses_client_initial_sequence_number : Z;
  ses_client_next_sequence_number : Z;
  ses_server_initial_sequence_number : Z;
  ses_server_next_sequence_number : Z;
  ses_server_unacked_payload : option TunTcpServerUnackedPayload;
  ses_window_size : Z;
  ses_phase : TunTcpSessionPhase;
  ses_last_activity_at : Z
}.

#[export] Instance TunTcpSessionRecord_settable : Settable TunTcpSessionRecord := fun r =>
  mkTunTcpSessionRecord (ses_key r) (ses_flow r) (ses_client_initial_sequence_number r)
    (ses_client_next_sequence_number r) (ses_server_initial_sequence_number r)
    (ses_server_next_sequence_number r) (ses_server_unacked_payload r) (ses_window_size r)
    (ses_phase r) (ses_last_activity_at r).

Record TunTcpClientPayloadFrame : Type := mkTunTcpClientPayloadFrame {
  cpf_session : TunTcpSessionRecord;
  cpf_sequence_number : Z;
  cpf_acknowledgment_number : Z;
  cpf_payload : list Z;
  cpf_ack_packet : list Z
}.

Record TunTcpDuplicateClientPayloadAck : Type := mkTunTcpDuplicateClientPayloadAck {
  dup_session : TunTcpSessionRecord;
  dup_sequence_number : Z;
  dup_acknowledgment_number : Z;
  dup_payload : list Z;
  dup_ack_packet : list Z
}.

Record TunTcpOutOfOrderClientPayloadAck : Type := mkTunTcpOutOfOrderClientPayloadAck {
  ooo_session : TunTcpSessionRecord;
  ooo_sequence_number : Z;
  ooo_acknowledgment_number : Z;
  ooo_payload : list Z;
  ooo_ack_packet : list Z
}.

Record TunTcpServerPayloadFrame : Type := mkTunTcpServerPayloadFrame {
  spf_session : TunTcpSessionRecord;
  spf_sequence_number : Z;
  spf_acknowledgment_number : Z;
  spf_payload : list Z;
  spf_packet : list Z
}.

Record TunTcpServerCloseFrame : Type := mkTunTcpServerCloseFrame {
  scf_session : TunTcpSessionRecord;
  scf_sequence_number : Z;
  scf_acknowledgment_number : Z;
  scf_packet : list Z
}.

Record TunTcpServerClosedSession : Type := mkTunTcpServerClosedSession {
  closed_response : TunTcpServerCloseFrame;
  closed_last_activity_at : Z
}.

#[export] Instance TunTcpServerClosedSession_settable : Settable TunTcpServerClosedSession :=
  fun r => mkTunTcpServerClosedSession (closed_response r) (closed_last_activity_at r).

Record TunTcpPostCloseSession : Type := mkTunTcpPostCloseSession {
  pc_session : TunTcpSessionRecord;
  pc_server_next_sequence_number : Z;
  pc_client_next_sequence_number : Z;
  pc_client_fin_sequence_number : option Z;
  pc_client_fin_ack_packet : option (list Z);
  pc_last_activity_at : Z
}.

#[export] Instance TunTcpPostCloseSession_settable : Settable TunTcpPostCloseSession := fun r =>
  mkTunTcpPostCloseSession (pc_session r) (pc_server_next_sequence_number r)
    (pc_client_next_sequence_number r) (pc_client_fin_sequence_number r)
    (pc_client_fin_ack_packet r) (pc_last_activity_at r).

Record TunTcpCloseFrame : Type := mkTunTcpCloseFrame {
  cf_session : TunTcpSessionRecord;
  cf_sequence_number : Z;
  cf_acknowledgment_number : Z;
  cf_packet : list Z
}.

Record TunTcpSynAckResponse : Type := mkTunTcpSynAckResponse {
  syn_session : TunTcpSessionRecord;
  syn_packet : list Z
}.

Record TunTcpSessionTableState : Type := mkTunTcpSessionTableState {
  state_active_sessions : Z;
  state_server_close_markers : Z;
  state_post_close_markers : Z;
  state_max_active_sessions : Z
}.

Record TunTcpSessionTable : Type := mkTunTcpSessionTable {
  tbl_sessions : gmap TunTcpSessionKey TunTcpSessionRecord;
  tbl_server_closed_sessions : gmap TunTcpSessionKey TunTcpServerClosedSession;
  tbl_post_closed_sessions : gmap TunTcpSessionKey TunTcpPostCloseSession;
  tbl_max_active_sessions : Z
}.

#[export] Instance TunTcpSessionTable_settable : Settable TunTcpSessionTable := fun r =>
  mkTunTcpSessionTable (tbl_sessions r) (tbl_server_closed_sessions r)
    (tbl_post_closed_sessions r) (tbl_max_active_sessions r).

(** A method of the table. *)
Definition TableM (A : Type) : Type := SM TunTcpSessionTable TunPacketError A.

(** [map.len()]. *)
Definition map_len {V} (m : gmap TunTcpSessionKey V) : Z := Z.of_nat (size m).

(** Writes through [&mut] references into the three maps, and removals. *)
Definition put_session (key : TunTcpSessionKey) (session : TunTcpSessionRecord) : TableM unit :=
  sm_modify (fun t => t <| tbl_sessions := <[key := session]> (tbl_sessions t) |>).

Definition remove_session (key : TunTcpSessionKey) : TableM unit :=
  sm_modify (fun t => t <| tbl_sessions := delete key (tbl_sessions t) |>).

Definition put_server_closed (key : TunTcpSessionKey) (c : TunTcpServerClosedSession)
  : TableM unit :=
  sm_modify (fun t =>
    t <| tbl_server_closed_sessions := <[key := c]> (tbl_server_closed_sessions t) |>).

Definition remove_server_closed (key : TunTcpSessionKey) : TableM unit :=
  sm_modify (fun t =>
    t <| tbl_server_closed_sessions := delete key (tbl_server_closed_sessions t) |>).

Definition put_post_closed (key : TunTcpSessionKey) (p : TunTcpPostCloseSession)
  : TableM unit :=
  sm_modify (fun t =>
    t <| tbl_post_closed_sessions := <[key := p]> (tbl_post_closed_sessions t) |>).

Definition remove_post_closed (key : TunTcpSessionKey) : TableM unit :=
  sm_modify (fun t =>
    t <| tbl_post_closed_sessions := delete key (tbl_post_closed_sessions t) |>).

(** [let Some(x) = self.map.get(&key) else { return Ok(None) }; k] *)
Definition with_session {A} (key : TunTcpSessionKey)
  (k : TunTcpSessionRecord -> TableM (option A)) : TableM (option A) :=
  t <-! sm_get;
  match tbl_sessions t !! key with Some s => k s | None => sm_ret None end.

Definition with_server_closed {A} (key : TunTcpSessionKey)
  (k : TunTcpServerClosedSession -> TableM (option A)) : TableM (option A) :=
  t <-! sm_get;
  match tbl_server_closed_sessions t !! key with Some c => k c | None => sm_ret None end.

Definition with_post_closed {A} (key : TunTcpSessionKey)
  (k : TunTcpPostCloseSession -> TableM (option A)) : TableM (option A) :=
  t <-! sm_get;
  match tbl_post_closed_sessions t !! key with Some p => k p | None => sm_ret None end.

(** ** Keys and construction *)

Definition from_flow (flow : TunPacketFlow) : result TunPacketError TunTcpSessionKey :=
  if negb (bool_decide (flow_protocol flow = Proto_Tcp))
  then Err (ExpectedTcpSegment (flow_protocol flow))
  else
    source_port <-? ok_or MissingTcpSocketAddress (flow_source_port flow);
    destination_port <-? ok_or MissingTcpSocketAddress (flow_destination_port flow);
    Ok (mkTunTcpSessionKey (flow_source_ip flow) source_port (flow_destination_ip flow)
          destination_port).

Definition DEFAULT_TUN_TCP_MAX_ACTIVE_SESSIONS : Z := 4096.

Definition with_max_active_sessions (max_active_sessions : Z) : TunTcpSessionTable :=
  mkTunTcpSessionTable ∅ ∅ ∅ (Z.max max_active_sessions 1).

Definition TunTcpSessionTable_new : TunTcpSessionTable :=
  with_max_active_sessions DEFAULT_TUN_TCP_MAX_ACTIVE_SESSIONS.

Definition table_len (self : TunTcpSessionTable) : Z := map_len (tbl_sessions self).

Definition state_counts (self : TunTcpSessionTable) : TunTcpSessionTableState :=
  mkTunTcpSessionTableState (map_len (tbl_sessions self))
    (map_len (tbl_server_closed_sessions self)) (map_len (tbl_post_closed_sessions self))
    (tbl_max_active_sessions self).

Definition table_get (self : TunTcpSessionTable) (key : TunTcpSessionKey)
  : option TunTcpSessionRecord := tbl_sessions self !! key.

Definition get_flow (self : TunTcpSessionTable) (flow : TunPacketFlow)
  : result TunPacketError (option TunTcpSessionRecord) :=
  key <-? from_flow flow; Ok (tbl_sessions self !! key).

(** ** Sequence tests *)

Definition tcp_segment_acknowledges_known_server_sequence (segment : TunTcpSegment)
  (session : TunTcpSessionRecord) : bool :=
  let acknowledged_syn := wrapping_add32 (ses_server_initial_sequence_number session) 1 in
  if acknowledged_syn <=? ses_server_next_sequence_number session then
    (acknowledged_syn <=? seg_acknowledgment_number segment)
    && (seg_acknowledgment_number segment <=? ses_server_next_sequence_number session)
  else
    (acknowledged_syn <=? seg_acknowledgment_number segment)
    || (seg_acknowledgment_number segment <=? ses_server_next_sequence_number session).

Definition clear_server_unacked_payload_if_latest_acknowledged (segment : TunTcpSegment)
  (session : TunTcpSessionRecord) : TunTcpSessionRecord :=
  if seg_acknowledgment_number segment =? ses_server_next_sequence_number session
  then session <| ses_server_unacked_payload := None |>
  else session.

Definition server_close_next_sequence_number (response : TunTcpServerCloseFrame) : Z :=
  wrapping_add32 (scf_sequence_number response) 1.

Definition tun_tcp_phase_accepts_server_response (phase : TunTcpSessionPhase) : bool :=
  match phase with Established | ClientFinReceived => true | SynReceived => false end.

Definition tcp_close_segment_matches_session (segment : TunTcpSegment)
  (session : TunTcpSessionRecord) : bool :=
  match ses_phase session with
  | SynReceived => true
  | Established =>
      flag_ack (seg_flags segment)
      && (seg_sequence_number segment =? ses_client_next_sequence_number session)
      && (seg_acknowledgment_number segment =? ses_server_next_sequence_number session)
  | ClientFinReceived =>
      flag_rst (seg_flags segment) && flag_ack (seg_flags segment)
      && negb (flag_fin (seg_flags segment))
      && (seg_sequence_number segment =? ses_client_next_sequence_number session)
      && tcp_segment_acknowledges_known_server_sequence segment session
  end.

(** Guards that several methods open with. *)
Definition is_phase (p q : TunTcpSessionPhase) : bool := bool_decide (p = q).

(** A bare acknowledgment: ACK, neither SYN, RST nor FIN, no payload. *)
Definition is_pure_ack (segment : TunTcpSegment) : bool :=
  flag_ack (seg_flags segment) && negb (flag_syn (seg_flags segment))
  && negb (flag_rst (seg_flags segment)) && negb (flag_fin (seg_flags segment))
  && is_empty (seg_payload segment).

(** ACK and FIN, neither SYN nor RST. *)
Definition is_fin_ack (segment : TunTcpSegment) : bool :=
  flag_ack (seg_flags segment) && flag_fin (seg_flags segment)
  && negb (flag_syn (seg_flags segment)) && negb (flag_rst (seg_flags segment)).

(** ** Opening a session *)

Definition start_from_syn (segment : TunTcpSegment) (server_initial_sequence_number window_size : Z)
  (now : Z) : TableM TunTcpSynAckResponse :=
  if negb (is_initial_tcp_syn_segment segment)
  then sm_lift (Err (ExpectedTcpSynSegment (seg_flags segment)))
  else
    key <-! sm_lift (from_flow (seg_flow segment));
    t <-! sm_get;
    if is_none (tbl_sessions t !! key)
       && (tbl_max_active_sessions t <=? map_len (tbl_sessions t))
    then sm_lift (Err (TcpSessionLimitExceeded (map_len (tbl_sessions t))
                         (tbl_max_active_sessions t)))
    else
      let session :=
        mkTunTcpSessionRecord key (seg_flow segment) (seg_sequence_number segment)
          (tcp_segment_next_sequence_number segment) server_initial_sequence_number
          (wrapping_add32 server_initial_sequence_number 1) None window_size SynReceived now in
      packet <-! sm_lift (build_tun_tcp_syn_ack_response_packet segment
                            server_initial_sequence_number window_size);
      do! remove_server_closed key;
      do! remove_post_closed key;
      do! put_session key session;
      sm_ret (mkTunTcpSynAckResponse session packet).

Definition acknowledge_retransmitted_syn (segment : TunTcpSegment) (now : Z)
  : TableM (option TunTcpSynAckResponse) :=
  if negb (is_initial_tcp_syn_segment segment) then sm_ret None
  else
    key <-! sm_lift (from_flow (seg_flow segment));
    with_session key (fun session =>
      if negb (is_phase (ses_phase session) SynReceived)
         || negb (seg_sequence_number segment =? ses_client_initial_sequence_number session)
      then sm_ret None
      else
        let session := session <| ses_last_activity_at := now |> in
        do! put_session key session;
        packet <-! sm_lift (build_tun_tcp_syn_ack_response_packet segment
                              (ses_server_initial_sequence_number session)
                              (ses_window_size session));
        sm_ret (Some (mkTunTcpSynAckResponse session packet))).

Definition apply_ack (segment : TunTcpSegment) (now : Z) : TableM (option TunTcpSessionRecord) :=
  key <-! sm_lift (from_flow (seg_flow segment));
  with_session key (fun session =>
    if is_phase (ses_phase session) SynReceived
       && flag_ack (seg_flags segment) && negb (flag_syn (seg_flags segment))
       && negb (flag_rst (seg_flags segment))
       && (seg_sequence_number segment =? ses_client_next_sequence_number session)
       && (seg_acknowledgment_number segment =? ses_server_next_sequence_number session)
    then
      let session := session <| ses_phase := Established |> <| ses_last_activity_at := now |> in
      do! put_session key session;
      sm_ret (Some session)
    else sm_ret None).

(** ** Client payload *)

(** [session.client_next..] ACK packet, built after the session was updated. *)
Definition build_session_ack (session : TunTcpSessionRecord) : result TunPacketError (list Z) :=
  build_tun_tcp_ack_response_packet (ses_flow session) (ses_server_next_sequence_number session)
    (ses_client_next_sequence_number session) (ses_window_size session).

Definition accept_client_payload (segment : TunTcpSegment) (now : Z)
  : TableM (option TunTcpClientPayloadFrame) :=
  key <-! sm_lift (from_flow (seg_flow segment));
  with_session key (fun session =>
    if negb (is_phase (ses_phase session) Established)
       || is_empty (seg_payload segment)
       || negb (flag_ack (seg_flags segment)) || flag_syn (seg_flags segment)
       || flag_rst (seg_flags segment)
       || negb (seg_sequence_number segment =? ses_client_next_sequence_number session)
       || negb (tcp_segment_acknowledges_known_server_sequence segment session)
    then sm_ret None
    else
      let session := clear_server_unacked_payload_if_latest_acknowledged segment session in
      let session := session
        <| ses_client_next_sequence_number := tcp_segment_next_sequence_number segment |>
        <| ses_last_activity_at := now |> in
      do! put_session key session;
      ack_packet <-! sm_lift (build_session_ack session);
      sm_ret (Some (mkTunTcpClientPayloadFrame session (seg_sequence_number segment)
                      (ses_client_next_sequence_number session) (seg_payload segment)
                      ack_packet))).

Definition accept_overlapping_client_payload (segment : TunTcpSegment) (now : Z)
  : TableM (option TunTcpClientPayloadFrame) :=
  key <-! sm_lift (from_flow (seg_flow segment));
  with_session key (fun session =>
    let segment_next_sequence_number := tcp_segment_next_sequence_number segment in
    if negb (is_phase (ses_phase session) Established)
       || is_empty (seg_payload segment)
       || negb (flag_ack (seg_flags segment)) || flag_syn (seg_flags segment)
       || flag_rst (seg_flags segment) || flag_fin (seg_flags segment)
       || (ses_client_next_sequence_number session <=? seg_sequence_number segment)
       || (segment_next_sequence_number <=? ses_client_next_sequence_number session)
       || negb (tcp_segment_acknowledges_known_server_sequence segment session)
    then sm_ret None
    else
      payload_offset <-! sm_lift (checked_sub (ses_client_next_sequence_number session)
                                    (seg_sequence_number segment));
      match get_from (seg_payload segment) payload_offset with
      | None => sm_ret None
      | Some payload =>
          let session := clear_server_unacked_payload_if_latest_acknowledged segment session in
          let sequence_number := ses_client_next_sequence_number session in
          let session := session
            <| ses_client_next_sequence_number := segment_next_sequence_number |>
            <| ses_last_activity_at := now |> in
          do! put_session key session;
          ack_packet <-! sm_lift (build_session_ack session);
          sm_ret (Some (mkTunTcpClientPayloadFrame session sequence_number
                          (ses_client_next_sequence_number session) payload ack_packet))
      end).

Definition acknowledge_duplicate_client_payload (segment : TunTcpSegment) (now : Z)
  : TableM (option TunTcpDuplicateClientPayloadAck) :=
  key <-! sm_lift (from_flow (seg_flow segment));
  with_session key (fun session =>
    let segment_next_sequence_number := tcp_segment_next_sequence_number segment in
    if negb (is_phase (ses_phase session) Established)
       || is_empty (seg_payload segment)
       || negb (flag_ack (seg_flags segment)) || flag_syn (seg_flags segment)
       || flag_rst (seg_flags segment) || flag_fin (seg_flags segment)
       || (ses_client_next_sequence_number session <=? seg_sequence_number segment)
       || (ses_client_next_sequence_number session <? segment_next_sequence_number)
       || negb (tcp_segment_acknowledges_known_server_sequence segment session)
    then sm_ret None
    else
      let session := clear_server_unacked_payload_if_latest_acknowledged segment session in
      let session := session <| ses_last_activity_at := now |> in
      do! put_session key session;
      ack_packet <-! sm_lift (build_session_ack session);
      sm_ret (Some (mkTunTcpDuplicateClientPayloadAck session (seg_sequence_number segment)
                      (ses_client_next_sequence_number session) (seg_payload segment)
                      ack_packet))).

Definition acknowledge_out_of_order_client_payload (segment : TunTcpSegment) (now : Z)
  : TableM (option TunTcpOutOfOrderClientPayloadAck) :=
  key <-! sm_lift (from_flow (seg_flow segment));
  with_session key (fun session =>
    if negb (is_phase (ses_phase session) Established)
       || is_empty (seg_payload segment)
       || negb (flag_ack (seg_flags segment)) || flag_syn (seg_flags segment)
       || flag_rst (seg_flags segment) || flag_fin (seg_flags segment)
       || (seg_sequence_number segment <=? ses_client_next_sequence_number session)
       || negb (tcp_segment_acknowledges_known_server_sequence segment session)
    then sm_ret None
    else
      let session := clear_server_unacked_payload_if_latest_acknowledged segment session in
      let session := session <| ses_last_activity_at := now |> in
      do! put_session key session;
      ack_packet <-! sm_lift (build_session_ack session);
      sm_ret (Some (mkTunTcpOutOfOrderClientPayloadAck session (seg_sequence_number segment)
                      (ses_client_next_sequence_number session) (seg_payload segment)
                      ack_packet))).

(** ** Server payload *)

Definition send_server_payload (flow : TunPacketFlow) (payload : list Z) (now : Z)
  : TableM (option TunTcpServerPayloadFrame) :=
  key <-! sm_lift (from_flow flow);
  with_session key (fun session =>
    if negb (tun_tcp_phase_accepts_server_response (ses_phase session)) || is_empty payload
    then sm_ret None
    else
      let sequence_number := ses_server_next_sequence_number session in
      let acknowledgment_number := ses_client_next_sequence_number session in
      packet <-! sm_lift (build_tun_tcp_payload_response_packet (ses_flow session)
                            sequence_number acknowledgment_number (ses_window_size session)
                            payload);
      let session := session
        <| ses_server_next_sequence_number :=
             wrapping_add32 (ses_server_next_sequence_number session) (as_u32 (len payload)) |>
        <| ses_server_unacked_payload :=
             Some (mkTunTcpServerUnackedPayload sequence_number acknowledgment_number payload) |>
        <| ses_last_activity_at := now |> in
      do! put_session key session;
      sm_ret (Some (mkTunTcpServerPayloadFrame session sequence_number acknowledgment_number
                      payload packet))).

Definition retransmit_server_payload (segment : TunTcpSegment) (now : Z)
  : TableM (option TunTcpServerPayloadFrame) :=
  if negb (is_pure_ack segment) then sm_ret None
  else
    key <-! sm_lift (from_flow (seg_flow segment));
    with_session key (fun session =>
      match ses_server_unacked_payload session with
      | None => sm_ret None
      | Some unacked =>
          if negb (tun_tcp_phase_accepts_server_response (ses_phase session))
             || negb (seg_sequence_number segment =? ses_client_next_sequence_number session)
             || negb (seg_acknowledgment_number segment =? unacked_sequence_number unacked)
          then sm_ret None
          else
            let acknowledgment_number := ses_client_next_sequence_number session in
            packet <-! sm_lift (build_tun_tcp_payload_response_packet (ses_flow session)
                                  (unacked_sequence_number unacked) acknowledgment_number
                                  (ses_window_size session) (unacked_payload unacked));
            let session := session <| ses_last_activity_at := now |> in
            do! put_session key session;
            sm_ret (Some (mkTunTcpServerPayloadFrame session (unacked_sequence_number unacked)
                            acknowledgment_number (unacked_payload unacked) packet))
      end).

Definition retransmit_server_payload_for_duplicate_client_fin (segment : TunTcpSegment) (now : Z)
  : TableM (option TunTcpServerPayloadFrame) :=
  if negb (is_fin_ack segment) then sm_ret None
  else
    key <-! sm_lift (from_flow (seg_flow segment));
    with_session key (fun session =>
      match ses_server_unacked_payload session with
      | None => sm_ret None
      | Some unacked =>
          if negb (is_phase (ses_phase session) ClientFinReceived)
             || negb (tcp_segment_next_sequence_number segment
                      =? ses_client_next_sequence_number session)
             || negb (seg_acknowledgment_number segment =? unacked_sequence_number unacked)
          then sm_ret None
          else
            let acknowledgment_number := ses_client_next_sequence_number session in
            packet <-! sm_lift (build_tun_tcp_payload_response_packet (ses_flow session)
                                  (unacked_sequence_number unacked) acknowledgment_number
                                  (ses_window_size session) (unacked_payload unacked));
            let session := session <| ses_last_activity_at := now |> in
            do! put_session key session;
            sm_ret (Some (mkTunTcpServerPayloadFrame session (unacked_sequence_number unacked)
                            acknowledgment_number (unacked_payload unacked) packet))
      end).

(** ** Closing: the server's side *)

Definition close_server_side (key : TunTcpSessionKey) (now : Z)
  : TableM (option TunTcpServerCloseFrame) :=
  with_session key (fun session =>
    do! remove_session key;
    if negb (tun_tcp_phase_accepts_server_response (ses_phase session)) then sm_ret None
    else
      let sequence_number := ses_server_next_sequence_number session in
      let acknowledgment_number := ses_client_next_sequence_number session in
      packet <-! sm_lift (build_tun_tcp_fin_ack_response_packet (ses_flow session)
                            sequence_number acknowledgment_number (ses_window_size session));
      let response :=
        mkTunTcpServerCloseFrame session sequence_number acknowledgment_number packet in
      do! put_server_closed key (mkTunTcpServerClosedSession response now);
      sm_ret (Some response)).

Definition retransmit_server_close (segment : TunTcpSegment) (now : Z)
  : TableM (option TunTcpServerCloseFrame) :=
  if negb (is_pure_ack segment) then sm_ret None
  else
    key <-! sm_lift (from_flow (seg_flow segment));
    with_server_closed key (fun closed =>
      let response := closed_response closed in
      if negb (seg_sequence_number segment =? scf_acknowledgment_number response)
         || negb (seg_acknowledgment_number segment =? scf_sequence_number response)
      then sm_ret None
      else
        do! put_server_closed key (closed <| closed_last_activity_at := now |>);
        sm_ret (Some response)).

Definition retransmit_server_close_for_duplicate_client_fin (segment : TunTcpSegment) (now : Z)
  : TableM (option TunTcpServerCloseFrame) :=
  if negb (is_fin_ack segment) then sm_ret None
  else
    key <-! sm_lift (from_flow (seg_flow segment));
    with_server_closed key (fun closed =>
      let response := closed_response closed in
      if negb (tcp_segment_next_sequence_number segment =? scf_acknowledgment_number response)
         || negb (seg_acknowledgment_number segment =? scf_sequence_number response)
      then sm_ret None
      else
        do! put_server_closed key (closed <| closed_last_activity_at := now |>);
        sm_ret (Some response)).

Definition acknowledge_server_close (segment : TunTcpSegment) (now : Z)
  : TableM (option TunTcpSessionRecord) :=
  if negb (is_pure_ack segment) then sm_ret None
  else
    key <-! sm_lift (from_flow (seg_flow segment));
    with_server_closed key (fun closed =>
      let response := closed_response closed in
      if negb (seg_sequence_number segment =? scf_acknowledgment_number response)
         || negb (seg_acknowledgment_number segment =? server_close_next_sequence_number response)
      then sm_ret None
      else
        do! remove_server_closed key;
        let session := scf_session response in
        do! put_post_closed key
              (mkTunTcpPostCloseSession session (server_close_next_sequence_number response)
                 (scf_acknowledgment_number response) None None now);
        sm_ret (Some session)).

Definition acknowledge_server_close_with_client_fin (segment : TunTcpSegment) (now : Z)
  : TableM (option TunTcpCloseFrame) :=
  if negb (is_fin_ack segment) || negb (is_empty (seg_payload segment)) then sm_ret None
  else
    key <-! sm_lift (from_flow (seg_flow segment));
    with_server_closed key (fun closed =>
      let closing := closed_response closed in
      if negb (seg_sequence_number segment =? scf_acknowledgment_number closing)
         || negb (seg_acknowledgment_number segment =? server_close_next_sequence_number closing)
      then sm_ret None
      else
        do! remove_server_closed key;
        let sequence_number := server_close_next_sequence_number closing in
        let acknowledgment_number := tcp_segment_next_sequence_number segment in
        packet <-! sm_lift (build_tun_tcp_ack_response_packet (ses_flow (scf_session closing))
                              sequence_number acknowledgment_number
                              (ses_window_size (scf_session closing)));
        do! put_post_closed key
              (mkTunTcpPostCloseSession (scf_session closing) sequence_number
                 acknowledgment_number (Some (seg_sequence_number segment)) (Some packet) now);
        sm_ret (Some (mkTunTcpCloseFrame (scf_session closing) sequence_number
                        acknowledgment_number packet))).

(** ** After both sides have closed *)

(** The segment is at the client's cursor, or repeats its FIN. *)
Definition matches_client_sequence (segment : TunTcpSegment) (post_close : TunTcpPostCloseSession)
  : bool :=
  (seg_sequence_number segment =? pc_client_next_sequence_number post_close)
  || bool_decide (pc_client_fin_sequence_number post_close = Some (seg_sequence_number segment)).

Definition acknowledge_post_close_ack (segment : TunTcpSegment) (now : Z)
  : TableM (option TunTcpSessionRecord) :=
  if negb (is_pure_ack segment) then sm_ret None
  else
    key <-! sm_lift (from_flow (seg_flow segment));
    with_post_closed key (fun post_close =>
      if negb (matches_client_sequence segment post_close)
         || negb (seg_acknowledgment_number segment =? pc_server_next_sequence_number post_close)
      then sm_ret None
      else
        do! put_post_closed key (post_close <| pc_last_activity_at := now |>);
        sm_ret (Some (pc_session post_close))).

Definition acknowledge_post_close_client_fin (segment : TunTcpSegment) (now : Z)
  : TableM (option TunTcpCloseFrame) :=
  if negb (is_fin_ack segment) then sm_ret None
  else
    key <-! sm_lift (from_flow (seg_flow segment));
    with_post_closed key (fun post_close =>
      if negb (seg_acknowledgment_number segment =? pc_server_next_sequence_number post_close)
      then sm_ret None
      else
        match pc_client_fin_sequence_number post_close with
        | Some client_fin_sequence_number =>
            if negb (seg_sequence_number segment =? client_fin_sequence_number)
               || negb (tcp_segment_next_sequence_number segment
                        =? pc_client_next_sequence_number post_close)
            then sm_ret None
            else
              match pc_client_fin_ack_packet post_close with
              | None => sm_ret None
              | Some packet =>
                  do! put_post_closed key (post_close <| pc_last_activity_at := now |>);
                  sm_ret (Some (mkTunTcpCloseFrame (pc_session post_close)
                                  (pc_server_next_sequence_number post_close)
                                  (pc_client_next_sequence_number post_close) packet))
              end
        | None =>
            if negb (seg_sequence_number segment =? pc_client_next_sequence_number post_close)
            then sm_ret None
            else
              let sequence_number := pc_server_next_sequence_number post_close in
              let acknowledgment_number := tcp_segment_next_sequence_number segment in
              packet <-! sm_lift (build_tun_tcp_ack_response_packet
                                    (ses_flow (pc_session post_close)) sequence_number
                                    acknowledgment_number
                                    (ses_window_size (pc_session post_close)));
              do! put_post_closed key
                    (post_close
                       <| pc_client_next_sequence_number := acknowledgment_number |>
                       <| pc_client_fin_sequence_number := Some (seg_sequence_number segment) |>
                       <| pc_client_fin_ack_packet := Some packet |>
                       <| pc_last_activity_at := now |>);
              sm_ret (Some (mkTunTcpCloseFrame (pc_session post_close) sequence_number
                              acknowledgment_number packet))
        end).

(** RST, neither SYN nor FIN. *)
Definition is_bare_rst (segment : TunTcpSegment) : bool :=
  flag_rst (seg_flags segment) && negb (flag_syn (seg_flags segment))
  && negb (flag_fin (seg_flags segment)).

Definition remove_server_close_on_rst (segment : TunTcpSegment)
  : TableM (option TunTcpSessionRecord) :=
  if negb (is_bare_rst segment) then sm_ret None
  else
    key <-! sm_lift (from_flow (seg_flow segment));
    with_server_closed key (fun closed =>
      let response := closed_response closed in
      if negb (seg_sequence_number segment =? scf_acknowledgment_number response) then sm_ret None
      else if flag_ack (seg_flags segment)
              && negb (seg_acknowledgment_number segment =? scf_sequence_number response)
              && negb (seg_acknowledgment_number segment
                       =? server_close_next_sequence_number response)
      then sm_ret None
      else
        do! remove_server_closed key;
        sm_ret (Some (scf_session response))).

Definition remove_post_close_on_rst (segment : TunTcpSegment)
  : TableM (option TunTcpSessionRecord) :=
  if negb (is_bare_rst segment) then sm_ret None
  else
    key <-! sm_lift (from_flow (seg_flow segment));
    with_post_closed key (fun post_close =>
      if negb (matches_client_sequence segment post_close) then sm_ret None
      else if flag_ack (seg_flags segment)
              && negb (seg_acknowledgment_number segment
                       =? pc_server_next_sequence_number post_close)
      then sm_ret None
      else
        do! remove_post_closed key;
        sm_ret (Some (pc_session post_close))).

(** ** Closing: the client's side *)

Definition accept_client_fin_with_payload (segment : TunTcpSegment) (now : Z)
  : TableM (option (TunTcpClientPayloadFrame * TunTcpCloseFrame)) :=
  if negb (is_fin_ack segment) || is_empty (seg_payload segment) then sm_ret None
  else
    key <-! sm_lift (from_flow (seg_flow segment));
    with_session key (fun session =>
      if negb (is_phase (ses_phase session) Established)
         || negb (seg_sequence_number segment =? ses_client_next_sequence_number session)
         || negb (tcp_segment_acknowledges_known_server_sequence segment session)
      then sm_ret None
      else
        let session := clear_server_unacked_payload_if_latest_acknowledged segment session in
        do! put_session key session;
        let sequence_number := ses_server_next_sequence_number session in
        let acknowledgment_number := tcp_segment_next_sequence_number segment in
        packet <-! sm_lift (build_tun_tcp_ack_response_packet (ses_flow session) sequence_number
                              acknowledgment_number (ses_window_size session));
        let session := session
          <| ses_client_next_sequence_number := acknowledgment_number |>
          <| ses_phase := ClientFinReceived |>
          <| ses_last_activity_at := now |> in
        do! put_session key session;
        sm_ret (Some
          (mkTunTcpClientPayloadFrame session (seg_sequence_number segment)
             acknowledgment_number (seg_payload segment) packet,
           mkTunTcpCloseFrame session sequence_number acknowledgment_number packet))).

Definition acknowledge_client_fin (segment : TunTcpSegment) (now : Z)
  : TableM (option TunTcpCloseFrame) :=
  if negb (is_fin_ack segment) || negb (is_empty (seg_payload segment)) then sm_ret None
  else
    key <-! sm_lift (from_flow (seg_flow segment));
    with_session key (fun session =>
      if negb (is_phase (ses_phase session) Established)
         || negb (seg_sequence_number segment =? ses_client_next_sequence_number session)
         || negb (tcp_segment_acknowledges_known_server_sequence segment session)
      then sm_ret None
      else
        let session := clear_server_unacked_payload_if_latest_acknowledged segment session in
        do! put_session key session;
        let sequence_number := ses_server_next_sequence_number session in
        let acknowledgment_number := tcp_segment_next_sequence_number segment in
        packet <-! sm_lift (build_tun_tcp_ack_response_packet (ses_flow session) sequence_number
                              acknowledgment_number (ses_window_size session));
        let session := session
          <| ses_client_next_sequence_number := acknowledgment_number |>
          <| ses_phase := ClientFinReceived |>
          <| ses_last_activity_at := now |> in
        do! put_session key session;
        sm_ret (Some (mkTunTcpCloseFrame session sequence_number acknowledgment_number packet))).

Definition acknowledge_duplicate_client_fin (segment : TunTcpSegment) (now : Z)
  : TableM (option TunTcpCloseFrame) :=
  if negb (is_fin_ack segment) then sm_ret None
  else
    key <-! sm_lift (from_flow (seg_flow segment));
    with_session key (fun session =>
      if negb (is_phase (ses_phase session) ClientFinReceived)
         || negb (tcp_segment_next_sequence_number segment
                  =? ses_client_next_sequence_number session)
         || negb (tcp_segment_acknowledges_known_server_sequence segment session)
      then sm_ret None
      else
        let sequence_number := ses_server_next_sequence_number session in
        let acknowledgment_number := ses_client_next_sequence_number session in
        packet <-! sm_lift (build_tun_tcp_ack_response_packet (ses_flow session) sequence_number
                              acknowledgment_number (ses_window_size session));
        let session := clear_server_unacked_payload_if_latest_acknowledged segment session in
        let session := session <| ses_last_activity_at := now |> in
        do! put_session key session;
        sm_ret (Some (mkTunTcpCloseFrame session sequence_number acknowledgment_number packet))).

Definition remove_on_close (segment : TunTcpSegment) (now : Z)
  : TableM (option (TunTcpSessionRecord * option TunTcpCloseFrame)) :=
  if negb (flag_rst (seg_flags segment) || flag_fin (seg_flags segment)) then sm_ret None
  else
    key <-! sm_lift (from_flow (seg_flow segment));
    with_session key (fun session =>
      if negb (tcp_close_segment_matches_session segment session) then sm_ret None
      else
        do! remove_session key;
        if flag_fin (seg_flags segment) && negb (flag_rst (seg_flags segment)) then
          let sequence_number := ses_server_next_sequence_number session in
          let acknowledgment_number := tcp_segment_next_sequence_number segment in
          packet <-! sm_lift (build_tun_tcp_ack_response_packet (ses_flow session)
                                sequence_number acknowledgment_number (ses_window_size session));
          do! put_post_closed key
                (mkTunTcpPostCloseSession session sequence_number acknowledgment_number
                   (Some (seg_sequence_number segment)) (Some packet) now);
          sm_ret (Some (session, Some (mkTunTcpCloseFrame session sequence_number
                                         acknowledgment_number packet)))
        else sm_ret (Some (session, None))).

(** ** Polling and acknowledgments *)

Definition server_payload_poll_session (segment : TunTcpSegment) (now : Z)
  : TableM (option TunTcpSessionRecord) :=
  if negb (is_pure_ack segment) then sm_ret None
  else
    key <-! sm_lift (from_flow (seg_flow segment));
    with_session key (fun session =>
      if tun_tcp_phase_accepts_server_response (ses_phase session)
         && (seg_sequence_number segment =? ses_client_next_sequence_number session)
         && (seg_acknowledgment_number segment =? ses_server_next_sequence_number session)
      then
        let session := clear_server_unacked_payload_if_latest_acknowledged segment session in
        let session := session <| ses_last_activity_at := now |> in
        do! put_session key session;
        sm_ret (Some session)
      else sm_ret None).

Definition acknowledge_client_ack (segment : TunTcpSegment) (now : Z)
  : TableM (option TunTcpSessionRecord) :=
  if negb (is_pure_ack segment) then sm_ret None
  else
    key <-! sm_lift (from_flow (seg_flow segment));
    with_session key (fun session =>
      if tun_tcp_phase_accepts_server_response (ses_phase session)
         && (seg_sequence_number segment =? ses_client_next_sequence_number session)
         && tcp_segment_acknowledges_known_server_sequence segment session
      then
        let session := clear_server_unacked_payload_if_latest_acknowledged segment session in
        let session := session <| ses_last_activity_at := now |> in
        do! put_session key session;
        sm_ret (Some session)
      else sm_ret None).

(** ** Idle sessions *)

(** [now.saturating_duration_since(last_activity_at) >= idle_timeout]. *)
Definition is_idle (now idle_timeout last_activity_at : Z) : bool :=
  idle_timeout <=? Z.max 0 (now - last_activity_at).

(** [order] is the order in which the hash map yields its keys, which the
    language leaves open. *)
Definition prune_idle (order : list TunTcpSessionKey) (now idle_timeout : Z)
  (self : TunTcpSessionTable) : TunTcpSessionTable * list TunTcpSessionRecord :=
  let expired_keys :=
    List.filter (fun key =>
      match tbl_sessions self !! key with
      | Some session => is_idle now idle_timeout (ses_last_activity_at session)
      | None => false
      end) order in
  let pruned_sessions := omap (fun key => tbl_sessions self !! key) expired_keys in
  let sessions := fold_left (fun m key => delete key m) expired_keys (tbl_sessions self) in
  (self
     <| tbl_sessions := sessions |>
     <| tbl_server_closed_sessions :=
          filter (fun '(_, closed) =>
            is_idle now idle_timeout (closed_last_activity_at closed) = false)
            (tbl_server_closed_sessions self) |>
     <| tbl_post_closed_sessions :=
          filter (fun '(_, post_close) =>
            is_idle now idle_timeout (pc_last_activity_at post_close) = false)
            (tbl_post_closed_sessions self) |>,
   pruned_sessions).
