(* ===== verification/TunSessionInv.v ===== *)
(** * The invariant of the TCP session table

    Every method of the table keeps it well formed, touches no session but the
    one its segment names, fails only where the code means to refuse, and builds
    only packets that are proper answers on the session's flow. *)

From stdpp Require Import base gmap strings list numbers fin_maps countable.
From S2P Require Import Prelude.
From S2P Require Import StdNet.
From S2P Require Import Dns.
From S2P Require Import TunPacket.
From S2P Require Import TunPacketBuild.
From S2P Require Import TunSession.
#[local] Open Scope Z_scope.

(** ** Well-formed sessions, markers and tables *)

(** A payload that waits for its acknowledgment ends at the server's cursor. *)
Definition unacked_ok (s : TunTcpSessionRecord) (u : TunTcpServerUnackedPayload) : Prop :=
  is_u32 (unacked_sequence_number u) /\ unacked_payload u <> [] /\
  len (unacked_payload u) <= max_tcp_payload (flow_ip_version (ses_flow s)) /\
  wrapping_add32 (unacked_sequence_number u) (len (unacked_payload u)) =
    ses_server_next_sequence_number s.

Record session_ok (key : TunTcpSessionKey) (s : TunTcpSessionRecord) : Prop := mk_session_ok {
  session_ok_key : ses_key s = key;
  session_ok_flow_key : from_flow (ses_flow s) = Ok key;
  session_ok_flow : flow_ok (ses_flow s);
  session_ok_client_initial : is_u32 (ses_client_initial_sequence_number s);
  session_ok_client_next : is_u32 (ses_client_next_sequence_number s);
  session_ok_server_initial : is_u32 (ses_server_initial_sequence_number s);
  session_ok_server_next : is_u32 (ses_server_next_sequence_number s);
  session_ok_window : is_u16 (ses_window_size s);
  session_ok_unacked : forall u, ses_server_unacked_payload s = Some u -> unacked_ok s u;
  session_ok_syn : ses_phase s = SynReceived ->
    ses_server_unacked_payload s = None /\
    ses_server_next_sequence_number s = wrapping_add32 (ses_server_initial_sequence_number s) 1
}.

(** [packet] is a TCP packet that answers [flow]. *)
Definition answers (flow : TunPacketFlow) (packet : list Z) : Prop :=
  exists seq ack flags w payload,
    is_u32 seq /\ is_u32 ack /\ 0 <= flag_bits flags < 512 /\ is_u16 w /\
    len payload <= max_tcp_payload (flow_ip_version flow) /\
    packet = tcp_packet flow seq ack flags w payload.

(** The server's FIN waits at the cursors of a session that could send it. *)
Record closed_ok (key : TunTcpSessionKey) (c : TunTcpServerClosedSession) : Prop := mk_closed_ok {
  closed_ok_session : session_ok key (scf_session (closed_response c));
  closed_ok_phase :
    tun_tcp_phase_accepts_server_response (ses_phase (scf_session (closed_response c))) = true;
  closed_ok_seq : scf_sequence_number (closed_response c) =
    ses_server_next_sequence_number (scf_session (closed_response c));
  closed_ok_ack : scf_acknowledgment_number (closed_response c) =
    ses_client_next_sequence_number (scf_session (closed_response c));
  closed_ok_packet : scf_packet (closed_response c) =
    tcp_packet (ses_flow (scf_session (closed_response c)))
      (scf_sequence_number (closed_response c)) (scf_acknowledgment_number (closed_response c))
      (from_bits 17) (ses_window_size (scf_session (closed_response c))) []
}.

(** The remembered answer to the client's FIN acknowledges it at the cursors. *)
Record post_ok (key : TunTcpSessionKey) (p : TunTcpPostCloseSession) : Prop := mk_post_ok {
  post_ok_session : session_ok key (pc_session p);
  post_ok_server_next : is_u32 (pc_server_next_sequence_number p);
  post_ok_client_next : is_u32 (pc_client_next_sequence_number p);
  post_ok_fin :
    match pc_client_fin_sequence_number p, pc_client_fin_ack_packet p with
    | Some fin, Some packet =>
        is_u32 fin /\
        packet = tcp_packet (ses_flow (pc_session p)) (pc_server_next_sequence_number p)
                   (pc_client_next_sequence_number p) (from_bits 16)
                   (ses_window_size (pc_session p)) []
    | None, None => True
    | _, _ => False
    end
}.

Record table_ok (t : TunTcpSessionTable) : Prop := mk_table_ok {
  table_ok_sessions : forall key s, tbl_sessions t !! key = Some s -> session_ok key s;
  table_ok_closed : forall key c, tbl_server_closed_sessions t !! key = Some c -> closed_ok key c;
  table_ok_post : forall key p, tbl_post_closed_sessions t !! key = Some p -> post_ok key p;
  table_ok_disjoint : forall key,
    is_Some (tbl_sessions t !! key) ->
    tbl_server_closed_sessions t !! key = None /\ tbl_post_closed_sessions t !! key = None;
  table_ok_markers : forall key,
    is_Some (tbl_server_closed_sessions t !! key) -> tbl_post_closed_sessions t !! key = None;
  table_ok_limit : map_len (tbl_sessions t) <= tbl_max_active_sessions t;
  table_ok_max : 1 <= tbl_max_active_sessions t
}.

(** Nothing changed but what the tables hold under [key]. *)
Definition same_elsewhere (key : TunTcpSessionKey) (t t' : TunTcpSessionTable) : Prop :=
  tbl_max_active_sessions t' = tbl_max_active_sessions t /\
  forall k, k <> key ->
    tbl_sessions t' !! k = tbl_sessions t !! k /\
    tbl_server_closed_sessions t' !! k = tbl_server_closed_sessions t !! k /\
    tbl_post_closed_sessions t' !! k = tbl_post_closed_sessions t !! k.

(** What the frames a method hands out promise: their session is well formed and
    their packet answers its flow. *)
Class Framed (A : Type) := framed : TunTcpSessionKey -> A -> Prop.

#[export] Instance framed_session : Framed TunTcpSessionRecord := session_ok.

#[export] Instance framed_client_payload : Framed TunTcpClientPayloadFrame := fun key f =>
  session_ok key (cpf_session f) /\ answers (ses_flow (cpf_session f)) (cpf_ack_packet f).

#[export] Instance framed_duplicate : Framed TunTcpDuplicateClientPayloadAck := fun key f =>
  session_ok key (dup_session f) /\ answers (ses_flow (dup_session f)) (dup_ack_packet f).

#[export] Instance framed_out_of_order : Framed TunTcpOutOfOrderClientPayloadAck := fun key f =>
  session_ok key (ooo_session f) /\ answers (ses_flow (ooo_session f)) (ooo_ack_packet f).

#[export] Instance framed_server_payload : Framed TunTcpServerPayloadFrame := fun key f =>
  session_ok key (spf_session f) /\ answers (ses_flow (spf_session f)) (spf_packet f).

#[export] Instance framed_server_close : Framed TunTcpServerCloseFrame := fun key f =>
  session_ok key (scf_session f) /\ answers (ses_flow (scf_session f)) (scf_packet f).

#[export] Instance framed_close : Framed TunTcpCloseFrame := fun key f =>
  session_ok key (cf_session f) /\ answers (ses_flow (cf_session f)) (cf_packet f).

#[export] Instance framed_syn_ack : Framed TunTcpSynAckResponse := fun key f =>
  session_ok key (syn_session f) /\ answers (ses_flow (syn_session f)) (syn_packet f).

#[export] Instance framed_option {A} `{Framed A} : Framed (option A) := fun key o =>
  match o with Some a => framed key a | None => True end.

#[export] Instance framed_pair {A B} `{Framed A, Framed B} : Framed (A * B) := fun key p =>
  framed key p.1 /\ framed key p.2.

(** The specification of a method on the session [key]. *)
Definition op_spec {A} `{Framed A} (key : TunTcpSessionKey) (allowed : TunPacketError -> Prop)
  (m : TableM A) : Prop :=
  forall t, table_ok t ->
    table_ok (fst (m t)) /\ same_elsewhere key t (fst (m t)) /\
    match snd (m t) with
    | Ok a => framed key a
    | Err e => allowed e /\ fst (m t) = t
    | Panic => False
    end.

(** The two refusals of the table. *)
Definition no_error (e : TunPacketError) : Prop := False.

Definition limit_error (e : TunPacketError) : Prop :=
  exists n m, e = TcpSessionLimitExceeded n m /\ m <= n.

Definition too_large_error (e : TunPacketError) : Prop :=
  exists v n m, e = TcpResponsePayloadTooLarge v n m /\ m < n.

(** ** Arithmetic and flags *)

Lemma wrapping_add32_u32 x y : is_u32 (wrapping_add32 x y).
Proof. apply Z.mod_pos_bound. reflexivity. Qed.

Lemma as_u32_u32 x : is_u32 (as_u32 x).
Proof. apply Z.mod_pos_bound. reflexivity. Qed.

Lemma as_u32_small x : is_u32 x -> as_u32 x = x.
Proof. apply Z.mod_small. Qed.

Lemma segment_next_u32 segment : is_u32 (tcp_segment_next_sequence_number segment).
Proof. apply wrapping_add32_u32. Qed.

Lemma max_tcp_payload_bound v : 0 < max_tcp_payload v <= 65515.
Proof. destruct v; cbn; lia. Qed.

#[export] Hint Resolve wrapping_add32_u32 as_u32_u32 segment_next_u32 from_bits_range
  session_ok_flow session_ok_client_next session_ok_server_next session_ok_server_initial
  session_ok_client_initial session_ok_window session_ok_flow_key : keli.

(** ** Keys *)

Lemma from_flow_tcp flow key :
  from_flow flow = Ok key -> flow_protocol flow = Proto_Tcp.
Proof.
  unfold from_flow. destruct (bool_decide (flow_protocol flow = Proto_Tcp)) eqn:H; [|done].
  intros _. by apply bool_decide_eq_true in H.
Qed.

Lemma segment_key segment : segment_ok segment -> exists key, from_flow (seg_flow segment) = Ok key.
Proof.
  intros [Hf Hp _ _ _ _ _ _].
  pose proof (flow_ok_ports _ Hf) as Hports. rewrite Hp in Hports. cbn in Hports.
  destruct Hports as (sp & dp & Hs & Hd & _ & _).
  unfold from_flow. rewrite Hp, bool_decide_true by done. rewrite Hs, Hd. cbn. eauto.
Qed.

(** A key names one flow. *)
Lemma from_flow_inj f g key :
  flow_ok f -> flow_ok g -> from_flow f = Ok key -> from_flow g = Ok key -> f = g.
Proof.
  intros Hf Hg Hkf Hkg. pose proof (from_flow_tcp _ _ Hkf). pose proof (from_flow_tcp _ _ Hkg).
  pose proof (flow_ok_source _ Hf). pose proof (flow_ok_source _ Hg).
  unfold from_flow in *. destruct f as [v p s d sp dp], g as [v' p' s' d' sp' dp']. cbn in *. subst.
  destruct sp, dp, sp', dp'; cbn in *; naive_solver.
Qed.

(** ** Updates of the table *)

Lemma same_elsewhere_refl key t : same_elsewhere key t t.
Proof. by split. Qed.

Lemma same_elsewhere_trans key t1 t2 t3 :
  same_elsewhere key t1 t2 -> same_elsewhere key t2 t3 -> same_elsewhere key t1 t3.
Proof.
  intros [M1 H1] [M2 H2]. split; [congruence|]. intros k Hk.
  destruct (H1 k Hk) as (?&?&?), (H2 k Hk) as (?&?&?). split_and!; congruence.
Qed.

#[export] Hint Resolve same_elsewhere_refl : keli.

(** Looks up an updated map at a key compared with the updated one. *)
Ltac lookup_cases k key :=
  destruct (decide (k = key)) as [->|?];
  rewrite ?lookup_insert_eq, ?lookup_delete_eq, ?lookup_insert_ne, ?lookup_delete_ne in * by done.

Ltac solve_elsewhere :=
  split; [done|]; intros k Hk; cbn;
  rewrite ?lookup_insert_ne, ?lookup_delete_ne by done; done.

Lemma map_len_insert_present {V} (m : gmap TunTcpSessionKey V) k v :
  is_Some (m !! k) -> map_len (<[k := v]> m) = map_len m.
Proof. intros H. unfold map_len. by rewrite map_size_insert_Some. Qed.

Lemma map_len_insert_absent {V} (m : gmap TunTcpSessionKey V) k v :
  m !! k = None -> map_len (<[k := v]> m) = map_len m + 1.
Proof. intros H. unfold map_len. rewrite map_size_insert_None by done. lia. Qed.

Lemma map_len_delete {V} (m : gmap TunTcpSessionKey V) k : map_len (delete k m) <= map_len m.
Proof.
  unfold map_len. destruct (m !! k) eqn:H.
  - rewrite map_size_delete_Some by eauto. lia.
  - rewrite delete_id by done. lia.
Qed.

Section Updates.
Context (t : TunTcpSessionTable) (key : TunTcpSessionKey) (Ht : table_ok t).

(** A session updated in place. *)
Lemma table_update_session s s' :
  tbl_sessions t !! key = Some s -> session_ok key s' ->
  table_ok (t <| tbl_sessions := <[key := s']> (tbl_sessions t) |>).
Proof.
  intros Hs Hs'. destruct Ht as [H1 H2 H3 H4 H5 H6 H7]. constructor; cbn; try done.
  - intros k r. lookup_cases k key; [congruence|]. apply H1.
  - intros k. lookup_cases k key; intros; apply H4; eauto.
  - by rewrite map_len_insert_present.
Qed.

(** A fresh session, where the limit allows it; the markers go. *)
Lemma table_open_session s :
  is_Some (tbl_sessions t !! key) \/ map_len (tbl_sessions t) < tbl_max_active_sessions t ->
  session_ok key s ->
  table_ok (t <| tbl_server_closed_sessions := delete key (tbl_server_closed_sessions t) |>
              <| tbl_post_closed_sessions := delete key (tbl_post_closed_sessions t) |>
              <| tbl_sessions := <[key := s]> (tbl_sessions t) |>).
Proof.
  intros Hroom Hs. destruct Ht as [H1 H2 H3 H4 H5 H6 H7]. constructor; cbn; try done.
  - intros k r. lookup_cases k key; [congruence|]. apply H1.
  - intros k r. lookup_cases k key; [done|]. apply H2.
  - intros k r. lookup_cases k key; [done|]. apply H3.
  - intros k. lookup_cases k key; [done|]. apply H4.
  - intros k. lookup_cases k key; [by intros []|]. apply H5.
  - destruct (tbl_sessions t !! key) eqn:E.
    + rewrite map_len_insert_present by (by rewrite E). done.
    + rewrite map_len_insert_absent by done. destruct Hroom as [[]|]; [done|lia].
Qed.

Lemma table_remove_session :
  table_ok (t <| tbl_sessions := delete key (tbl_sessions t) |>).
Proof.
  destruct Ht as [H1 H2 H3 H4 H5 H6 H7]. constructor; cbn; try done.
  - intros k r. lookup_cases k key; [done|]. apply H1.
  - intros k. lookup_cases k key; [by intros []|]. apply H4.
  - pose proof (map_len_delete (tbl_sessions t) key). lia.
Qed.

(** A session becomes a server-close marker. *)
Lemma table_close_session s c :
  tbl_sessions t !! key = Some s -> closed_ok key c ->
  table_ok (t <| tbl_sessions := delete key (tbl_sessions t) |>
              <| tbl_server_closed_sessions := <[key := c]> (tbl_server_closed_sessions t) |>).
Proof.
  intros Hs Hc. destruct Ht as [H1 H2 H3 H4 H5 H6 H7]. constructor; cbn; try done.
  - intros k r. lookup_cases k key; [done|]. apply H1.
  - intros k r. lookup_cases k key; [congruence|]. apply H2.
  - intros k. lookup_cases k key; [by intros []|]. apply H4.
  - intros k. lookup_cases k key; [intros _; apply H4; eauto|]. apply H5.
  - pose proof (map_len_delete (tbl_sessions t) key). lia.
Qed.

(** A session becomes a post-close marker. *)
Lemma table_post_close_session s p :
  tbl_sessions t !! key = Some s -> post_ok key p ->
  table_ok (t <| tbl_sessions := delete key (tbl_sessions t) |>
              <| tbl_post_closed_sessions := <[key := p]> (tbl_post_closed_sessions t) |>).
Proof.
  intros Hs Hp. destruct Ht as [H1 H2 H3 H4 H5 H6 H7]. constructor; cbn; try done.
  - intros k r. lookup_cases k key; [done|]. apply H1.
  - intros k r. lookup_cases k key; [congruence|]. apply H3.
  - intros k. lookup_cases k key; [by intros []|]. apply H4.
  - intros k. lookup_cases k key; [|apply H5]. intros [x Hx]. exfalso.
    destruct (H4 key) as [E _]; [eauto|]. congruence.
  - pose proof (map_len_delete (tbl_sessions t) key). lia.
Qed.

Lemma table_update_closed c c' :
  tbl_server_closed_sessions t !! key = Some c -> closed_ok key c' ->
  table_ok (t <| tbl_server_closed_sessions := <[key := c']> (tbl_server_closed_sessions t) |>).
Proof.
  intros Hc Hc'. destruct Ht as [H1 H2 H3 H4 H5 H6 H7]. constructor; cbn; try done.
  - intros k r. lookup_cases k key; [congruence|]. apply H2.
  - intros k. lookup_cases k key; [|apply H4]. intros Hs. destruct (H4 key Hs). congruence.
  - intros k. lookup_cases k key; intros; apply H5; eauto.
Qed.

Lemma table_remove_closed :
  table_ok (t <| tbl_server_closed_sessions := delete key (tbl_server_closed_sessions t) |>).
Proof.
  destruct Ht as [H1 H2 H3 H4 H5 H6 H7]. constructor; cbn; try done.
  - intros k r. lookup_cases k key; [done|]. apply H2.
  - intros k. lookup_cases k key; [|apply H4]. intros Hs. split; [done|]. by apply H4.
  - intros k. lookup_cases k key; [by intros []|]. apply H5.
Qed.

(** A server-close marker becomes a post-close marker. *)
Lemma table_closed_to_post c p :
  tbl_server_closed_sessions t !! key = Some c -> post_ok key p ->
  table_ok (t <| tbl_server_closed_sessions := delete key (tbl_server_closed_sessions t) |>
              <| tbl_post_closed_sessions := <[key := p]> (tbl_post_closed_sessions t) |>).
Proof.
  intros Hc Hp. destruct Ht as [H1 H2 H3 H4 H5 H6 H7]. constructor; cbn; try done.
  - intros k r. lookup_cases k key; [done|]. apply H2.
  - intros k r. lookup_cases k key; [congruence|]. apply H3.
  - intros k. lookup_cases k key; [|apply H4]. intros Hs. destruct (H4 key Hs). congruence.
  - intros k. lookup_cases k key; [by intros []|]. apply H5.
Qed.

Lemma table_update_post p p' :
  tbl_post_closed_sessions t !! key = Some p -> post_ok key p' ->
  table_ok (t <| tbl_post_closed_sessions := <[key := p']> (tbl_post_closed_sessions t) |>).
Proof.
  intros Hp Hp'. destruct Ht as [H1 H2 H3 H4 H5 H6 H7]. constructor; cbn; try done.
  - intros k r. lookup_cases k key; [congruence|]. apply H3.
  - intros k. lookup_cases k key; [|apply H4]. intros Hs. destruct (H4 key Hs). congruence.
  - intros k. lookup_cases k key; [|apply H5]. intros Hs. rewrite (H5 key Hs) in Hp. done.
Qed.

Lemma table_remove_post :
  table_ok (t <| tbl_post_closed_sessions := delete key (tbl_post_closed_sessions t) |>).
Proof.
  destruct Ht as [H1 H2 H3 H4 H5 H6 H7]. constructor; cbn; try done.
  - intros k r. lookup_cases k key; [done|]. apply H3.
  - intros k. lookup_cases k key; [|apply H4]. intros Hs. split; [|done]. by apply H4.
  - intros k. lookup_cases k key; [done|]. apply H5.
Qed.
End Updates.

(** ** Updates of a session *)

Lemma session_ok_touch key s now :
  session_ok key s -> session_ok key (s <| ses_last_activity_at := now |>).
Proof. intros []. by constructor. Qed.

Lemma session_ok_clear key s segment :
  session_ok key s ->
  session_ok key (clear_server_unacked_payload_if_latest_acknowledged segment s).
Proof.
  intros H. unfold clear_server_unacked_payload_if_latest_acknowledged.
  destruct (_ =? _); [|done]. destruct H. constructor; try done.
  intros Hs. split; [done|]. by apply session_ok_syn0.
Qed.

Lemma clear_flow segment s :
  ses_flow (clear_server_unacked_payload_if_latest_acknowledged segment s) = ses_flow s.
Proof. unfold clear_server_unacked_payload_if_latest_acknowledged. by destruct (_ =? _). Qed.

Lemma session_ok_client_advance key s n :
  is_u32 n -> session_ok key s -> session_ok key (s <| ses_client_next_sequence_number := n |>).
Proof. intros Hn []. by constructor. Qed.

Lemma session_ok_phase_change key s p :
  p <> SynReceived -> session_ok key s -> session_ok key (s <| ses_phase := p |>).
Proof. intros Hp []. by constructor. Qed.

Lemma established_not_syn : Established <> SynReceived.
Proof. done. Qed.

Lemma client_fin_not_syn : ClientFinReceived <> SynReceived.
Proof. done. Qed.

#[export] Hint Resolve established_not_syn client_fin_not_syn session_ok_touch session_ok_clear session_ok_client_advance
  session_ok_phase_change : keli.

(** ** Packets of a session *)

Lemma build_session_packet key s seq ack flags w payload :
  session_ok key s -> len payload <= max_tcp_payload (flow_ip_version (ses_flow s)) ->
  build_tun_tcp_response_packet (ses_flow s) seq ack flags w payload =
  Ok (tcp_packet (ses_flow s) seq ack flags w payload).
Proof.
  intros Hs Hl. rewrite build_tcp_response_cases.
  - by replace (_ <=? _) with true by lia.
  - by eapply session_ok_flow.
  - eapply from_flow_tcp. by eapply session_ok_flow_key.
Qed.

Lemma len_nil_fits {A} v : len (@nil A) <= max_tcp_payload v.
Proof. rewrite len_nil. pose proof (max_tcp_payload_bound v). lia. Qed.

#[export] Hint Resolve len_nil_fits : keli.

Lemma answers_intro flow seq ack flags w payload :
  is_u32 seq -> is_u32 ack -> 0 <= flag_bits flags < 512 -> is_u16 w ->
  len payload <= max_tcp_payload (flow_ip_version flow) ->
  answers flow (tcp_packet flow seq ack flags w payload).
Proof. intros. exists seq, ack, flags, w, payload. do 5 (split; [assumption|]). done. Qed.

#[export] Hint Resolve answers_intro : keli.

(** Runs the monadic code of a method down to its next decision. *)
Ltac run_monad :=
  cbn beta iota zeta delta [sm_bind sm_lift sm_get sm_modify sm_ret with_session
    with_server_closed with_post_closed put_session remove_session put_server_closed
    remove_server_closed put_post_closed remove_post_closed fst snd].

(** The branch that returns [Ok(None)] and leaves the table alone. *)
Ltac done_none := split_and!; [done|apply same_elsewhere_refl|exact I].

(** Opens a method on a segment: its own guard, then its flow's key. *)
Ltac open_op op Hkey :=
  intros t Ht; unfold op; run_monad;
  try lazymatch goal with
  | |- context [if ?c then _ else _] => destruct c eqn:?; [done_none|]; run_monad
  end;
  rewrite Hkey; run_monad.

Ltac look_session s Hs Hok :=
  lazymatch goal with
  | Ht : table_ok ?t |- context [tbl_sessions ?t !! ?key] =>
      destruct (tbl_sessions t !! key) as [s|] eqn:Hs; [|run_monad; done_none];
      pose proof (table_ok_sessions t Ht key s Hs) as Hok; run_monad
  end.

Ltac look_closed c Hc Hok :=
  lazymatch goal with
  | Ht : table_ok ?t |- context [tbl_server_closed_sessions ?t !! ?key] =>
      destruct (tbl_server_closed_sessions t !! key) as [c|] eqn:Hc; [|run_monad; done_none];
      pose proof (table_ok_closed t Ht key c Hc) as Hok; run_monad
  end.

Ltac look_post p Hp Hok :=
  lazymatch goal with
  | Ht : table_ok ?t |- context [tbl_post_closed_sessions ?t !! ?key] =>
      destruct (tbl_post_closed_sessions t !! key) as [p|] eqn:Hp; [|run_monad; done_none];
      pose proof (table_ok_post t Ht key p Hp) as Hok; run_monad
  end.

Ltac guard_none :=
  match goal with
  | |- context [if ?c then sm_ret None else _] =>
      destruct c eqn:?; [run_monad; done_none|]; run_monad
  end.

(** Builds the packet of a session that is well formed. *)
Ltac build_packet Hok :=
  unfold build_session_ack, build_tun_tcp_ack_response_packet,
    build_tun_tcp_payload_response_packet, build_tun_tcp_fin_ack_response_packet;
  erewrite build_session_packet; [run_monad | eauto with keli | eauto with keli].

(** Names the session a branch writes back, and shows it well formed. *)
Ltac name_session s' Hs' :=
  match goal with
  | Ht : table_ok ?t |- context [<[?key := ?x]> (tbl_sessions ?t)] =>
      set (s' := x) in *; assert (Hs' : session_ok key s') by (unfold s'; auto 8 with keli)
  end.

(** Closes a branch that updated a session in place and answered it. *)
Ltac done_session :=
  split_and!; [by eapply table_update_session|solve_elsewhere|];
  first [exact I | done | split; [done|]; apply answers_intro; eauto with keli].

Section Ops.
Context (segment : TunTcpSegment) (key : TunTcpSessionKey) (now : Z).
Context (Hseg : segment_ok segment) (Hkey : from_flow (seg_flow segment) = Ok key).

Lemma accept_client_payload_spec : op_spec key no_error (accept_client_payload segment now).
Proof.
  open_op accept_client_payload Hkey. look_session s Hs Hok. guard_none.
  name_session s' Hs'.
  build_packet Hs'. done_session.
Qed.

Lemma accept_overlapping_client_payload_spec :
  op_spec key no_error (accept_overlapping_client_payload segment now).
Proof.
  open_op accept_overlapping_client_payload Hkey. look_session s Hs Hok. guard_none. bools.
  unfold checked_sub. replace (_ <=? _) with true by lia. run_monad.
  destruct (get_from _ _) as [payload|] eqn:Hp; [|run_monad; done_none]. run_monad.
  name_session s' Hs'.
  build_packet Hs'. done_session.
Qed.

Lemma acknowledge_duplicate_client_payload_spec :
  op_spec key no_error (acknowledge_duplicate_client_payload segment now).
Proof.
  open_op acknowledge_duplicate_client_payload Hkey. look_session s Hs Hok. guard_none.
  name_session s' Hs'.
  build_packet Hs'. done_session.
Qed.

Lemma acknowledge_out_of_order_client_payload_spec :
  op_spec key no_error (acknowledge_out_of_order_client_payload segment now).
Proof.
  open_op acknowledge_out_of_order_client_payload Hkey. look_session s Hs Hok. guard_none.
  name_session s' Hs'.
  build_packet Hs'. done_session.
Qed.

Lemma apply_ack_spec : op_spec key no_error (apply_ack segment now).
Proof.
  open_op apply_ack Hkey. look_session s Hs Hok.
  destruct (_ && _) eqn:?; run_monad; [|done_none].
  name_session s' Hs'. done_session.
Qed.

Lemma server_payload_poll_session_spec :
  op_spec key no_error (server_payload_poll_session segment now).
Proof.
  open_op server_payload_poll_session Hkey. look_session s Hs Hok.
  destruct (_ && _) eqn:?; run_monad; [|done_none].
  name_session s' Hs'.
  done_session.
Qed.

Lemma acknowledge_client_ack_spec : op_spec key no_error (acknowledge_client_ack segment now).
Proof.
  open_op acknowledge_client_ack Hkey. look_session s Hs Hok.
  destruct (_ && _) eqn:?; run_monad; [|done_none].
  name_session s' Hs'.
  done_session.
Qed.

Lemma retransmit_server_payload_spec :
  op_spec key no_error (retransmit_server_payload segment now).
Proof.
  open_op retransmit_server_payload Hkey. look_session s Hs Hok.
  destruct (ses_server_unacked_payload s) as [u|] eqn:Hu; [|run_monad; done_none]. guard_none.
  destruct (session_ok_unacked _ _ Hok u Hu) as (Hu1 & Hu2 & Hu3 & Hu4).
  build_packet Hok. name_session s' Hs'. done_session.
Qed.

Lemma retransmit_server_payload_for_duplicate_client_fin_spec :
  op_spec key no_error (retransmit_server_payload_for_duplicate_client_fin segment now).
Proof.
  open_op retransmit_server_payload_for_duplicate_client_fin Hkey. look_session s Hs Hok.
  destruct (ses_server_unacked_payload s) as [u|] eqn:Hu; [|run_monad; done_none]. guard_none.
  destruct (session_ok_unacked _ _ Hok u Hu) as (Hu1 & Hu2 & Hu3 & Hu4).
  build_packet Hok. name_session s' Hs'. done_session.
Qed.

Lemma acknowledge_duplicate_client_fin_spec :
  op_spec key no_error (acknowledge_duplicate_client_fin segment now).
Proof.
  open_op acknowledge_duplicate_client_fin Hkey. look_session s Hs Hok. guard_none.
  build_packet Hok. name_session s' Hs'. split_and!; [by eapply table_update_session|solve_elsewhere|].
  split; [done|]. cbn. rewrite clear_flow. apply answers_intro; eauto with keli.
Qed.

Lemma insert_session_twice t s s' :
  t <| tbl_sessions := <[key := s]> (tbl_sessions t) |>
    <| tbl_sessions := <[key := s']> (tbl_sessions
         (t <| tbl_sessions := <[key := s]> (tbl_sessions t) |>)) |> =
  t <| tbl_sessions := <[key := s']> (tbl_sessions t) |>.
Proof. cbn. by rewrite insert_insert_eq. Qed.

Lemma acknowledge_client_fin_spec : op_spec key no_error (acknowledge_client_fin segment now).
Proof.
  open_op acknowledge_client_fin Hkey. look_session s Hs Hok. guard_none.
  build_packet Hok. rewrite insert_session_twice. name_session s' Hs'. done_session.
Qed.

Lemma accept_client_fin_with_payload_spec :
  op_spec key no_error (accept_client_fin_with_payload segment now).
Proof.
  open_op accept_client_fin_with_payload Hkey. look_session s Hs Hok. guard_none.
  build_packet Hok. rewrite insert_session_twice. name_session s' Hs'.
  split_and!; [by eapply table_update_session|solve_elsewhere|].
  split; split; try done; apply answers_intro; eauto with keli.
Qed.

Lemma acknowledge_retransmitted_syn_spec :
  op_spec key no_error (acknowledge_retransmitted_syn segment now).
Proof.
  open_op acknowledge_retransmitted_syn Hkey. look_session s Hs Hok. guard_none.
  name_session s' Hs'. unfold build_tun_tcp_syn_ack_response_packet. rewrite Heqb.
  assert (Hf : ses_flow s' = seg_flow segment)
    by (eapply from_flow_inj; eauto using segment_ok_flow with keli).
  rewrite <- Hf. build_packet Hs'. done_session.
Qed.

Lemma start_from_syn_spec isn window :
  is_u32 isn -> is_u16 window ->
  op_spec key (fun e => limit_error e \/ e = ExpectedTcpSynSegment (seg_flags segment))
    (start_from_syn segment isn window now).
Proof.
  intros Hisn Hw t Ht. unfold start_from_syn. run_monad.
  destruct (is_initial_tcp_syn_segment segment) eqn:Hsyn; cbn [negb]; run_monad;
    [|split_and!; [done|apply same_elsewhere_refl|by right|done]].
  rewrite Hkey. run_monad.
  destruct (is_none _ && _) eqn:Hroom; run_monad.
  { split_and!; [done|apply same_elsewhere_refl| |done]. left. do 2 eexists. split; [done|]. bools. lia. }
  unfold build_tun_tcp_syn_ack_response_packet. rewrite Hsyn. cbn [negb].
  rewrite build_tcp_response_cases by apply Hseg.
  replace (_ <=? _) with true by (pose proof (len_nil_fits (A := Z) (flow_ip_version (seg_flow segment))); lia).
  run_monad. set (s := mkTunTcpSessionRecord _ _ _ _ _ _ _ _ _ _).
  assert (Hs : session_ok key s)
    by (constructor; cbn; auto with keli; try apply Hseg; done).
  split_and!; [|solve_elsewhere|].
  - refine (table_open_session t key Ht s _ Hs).
    destruct (tbl_sessions t !! key); [by left; eauto|]. cbn in Hroom. right. lia.
  - split; [done|]. apply answers_intro; auto with keli.
Qed.

Lemma send_server_payload_spec flow payload :
  from_flow flow = Ok key ->
  op_spec key too_large_error (send_server_payload flow payload now).
Proof.
  intros Hflow. open_op send_server_payload Hflow. look_session s Hs Hok. guard_none. bools.
  unfold build_tun_tcp_payload_response_packet. rewrite build_tcp_response_cases;
    [|eauto with keli|eapply from_flow_tcp; eauto with keli].
  destruct (len payload <=? _) eqn:Hfit; run_monad.
  - set (s' := set_field (R := TunTcpSessionRecord) _ _).
    assert (Hs' : session_ok key s').
    { destruct Hok. constructor; cbn; auto with keli; [|by destruct (ses_phase s)].
      intros u [= <-]. split_and!; cbn; auto; [by intros ->|lia|].
      rewrite as_u32_small; [done|]. pose proof (len_nonneg payload).
      pose proof (max_tcp_payload_bound (flow_ip_version (ses_flow s))). unfold is_u32, u32_modulus. lia. }
    split_and!; [by eapply table_update_session|solve_elsewhere|].
    split; [done|]. apply answers_intro; eauto with keli. cbn. lia.
  - split_and!; [done|apply same_elsewhere_refl| |done]. do 3 eexists. split; [done|]. lia.
Qed.

Lemma close_server_side_spec : op_spec key no_error (close_server_side key now).
Proof.
  intros t Ht. unfold close_server_side. run_monad. look_session s Hs Hok.
  destruct (tun_tcp_phase_accepts_server_response (ses_phase s)) eqn:Hph; cbn [negb]; run_monad;
    [|split_and!; [by apply table_remove_session|solve_elsewhere|done]].
  build_packet Hok. split_and!; [|solve_elsewhere|].
  - by refine (table_close_session t key Ht s _ Hs _).
  - split; [done|]. apply answers_intro; eauto with keli.
Qed.

Lemma remove_on_close_spec : op_spec key no_error (remove_on_close segment now).
Proof.
  open_op remove_on_close Hkey. look_session s Hs Hok.
  destruct (tcp_close_segment_matches_session segment s); cbn [negb]; run_monad; [|done_none].
  destruct (_ && _); run_monad;
    [|split_and!; [by apply table_remove_session|solve_elsewhere|done]].
  build_packet Hok. split_and!; [|solve_elsewhere|].
  - refine (table_post_close_session t key Ht s _ Hs _). constructor; cbn; eauto with keli. split; [|done]. apply Hseg.
  - split; [done|]. split; [done|]. apply answers_intro; eauto with keli.
Qed.
Lemma close_next_u32 r : is_u32 (server_close_next_sequence_number r).
Proof. apply wrapping_add32_u32. Qed.

#[local] Hint Resolve close_next_u32 : keli.

Lemma closed_answer c : closed_ok key c -> framed key (closed_response c).
Proof.
  intros [Hs _ Hseq Hack Hp]. split; [done|]. rewrite Hp.
  apply answers_intro; rewrite ?Hseq, ?Hack; eauto with keli.
Qed.

Lemma closed_ok_touch c : closed_ok key c -> closed_ok key (c <| closed_last_activity_at := now |>).
Proof. intros []. by constructor. Qed.

Lemma post_ok_touch p : post_ok key p -> post_ok key (p <| pc_last_activity_at := now |>).
Proof. intros []. by constructor. Qed.

Lemma retransmit_server_close_spec : op_spec key no_error (retransmit_server_close segment now).
Proof.
  open_op retransmit_server_close Hkey. look_closed c Hc Hok. guard_none.
  split_and!; [|solve_elsewhere|by apply closed_answer].
  refine (table_update_closed t key Ht c _ Hc _). by apply closed_ok_touch.
Qed.

Lemma retransmit_server_close_for_duplicate_client_fin_spec :
  op_spec key no_error (retransmit_server_close_for_duplicate_client_fin segment now).
Proof.
  open_op retransmit_server_close_for_duplicate_client_fin Hkey. look_closed c Hc Hok. guard_none.
  split_and!; [|solve_elsewhere|by apply closed_answer].
  refine (table_update_closed t key Ht c _ Hc _). by apply closed_ok_touch.
Qed.

Lemma acknowledge_server_close_spec : op_spec key no_error (acknowledge_server_close segment now).
Proof.
  open_op acknowledge_server_close Hkey. look_closed c Hc Hok. guard_none.
  destruct Hok as [Hs Hph Hseq Hack Hp].
  split_and!; [|solve_elsewhere|done].
  refine (table_closed_to_post t key Ht c _ Hc _). constructor; cbn; auto with keli.
  rewrite Hack. eauto with keli.
Qed.

Lemma acknowledge_server_close_with_client_fin_spec :
  op_spec key no_error (acknowledge_server_close_with_client_fin segment now).
Proof.
  open_op acknowledge_server_close_with_client_fin Hkey. look_closed c Hc Hok. guard_none.
  destruct Hok as [Hs Hph Hseq Hack Hp]. build_packet Hs.
  split_and!; [|solve_elsewhere|].
  - refine (table_closed_to_post t key Ht c _ Hc _). constructor; cbn; auto with keli.
    split; [by apply segment_ok_seq|reflexivity].
  - split; [done|]. apply answers_intro; eauto with keli.
Qed.

Lemma acknowledge_post_close_ack_spec : op_spec key no_error (acknowledge_post_close_ack segment now).
Proof.
  open_op acknowledge_post_close_ack Hkey. look_post p Hp Hok. guard_none.
  split_and!; [|solve_elsewhere|by apply post_ok_session].
  refine (table_update_post t key Ht p _ Hp _). by apply post_ok_touch.
Qed.

Lemma acknowledge_post_close_client_fin_spec :
  op_spec key no_error (acknowledge_post_close_client_fin segment now).
Proof.
  open_op acknowledge_post_close_client_fin Hkey. look_post p Hp Hok. guard_none.
  pose proof (post_ok_session _ _ Hok) as Hs. pose proof (post_ok_fin _ _ Hok) as Hfin.
  pose proof (post_ok_server_next _ _ Hok). pose proof (post_ok_client_next _ _ Hok).
  destruct (pc_client_fin_sequence_number p) as [fin|] eqn:Ef.
  - guard_none. destruct (pc_client_fin_ack_packet p) as [packet|] eqn:Ep; [|done].
    run_monad. split_and!; [|solve_elsewhere|].
    + refine (table_update_post t key Ht p _ Hp _). by apply post_ok_touch.
    + split; [done|]. destruct Hfin as [_ ->]. apply answers_intro; eauto with keli.
  - guard_none. build_packet Hs. split_and!; [|solve_elsewhere|].
    + refine (table_update_post t key Ht p _ Hp _). constructor; cbn; auto with keli.
      split; [by apply segment_ok_seq|reflexivity].
    + split; [done|]. apply answers_intro; eauto with keli.
Qed.

Lemma remove_server_close_on_rst_spec : op_spec key no_error (remove_server_close_on_rst segment).
Proof.
  open_op remove_server_close_on_rst Hkey. look_closed c Hc Hok. guard_none. guard_none.
  split_and!; [by apply table_remove_closed|solve_elsewhere|]. by apply closed_ok_session.
Qed.

Lemma remove_post_close_on_rst_spec : op_spec key no_error (remove_post_close_on_rst segment).
Proof.
  open_op remove_post_close_on_rst Hkey. look_post p Hp Hok. guard_none. guard_none.
  split_and!; [by apply table_remove_post|solve_elsewhere|]. by apply post_ok_session.
Qed.
End Ops.

(** ** Pruning *)

Lemma fold_delete_lookup {V} (ks : list TunTcpSessionKey) (m : gmap TunTcpSessionKey V) k :
  fold_left (fun m key => delete key m) ks m !! k =
  if bool_decide (k ∈ ks) then None else m !! k.
Proof.
  revert m. induction ks as [|k' ks IH]; intros m; cbn [fold_left]; [done|].
  rewrite IH. destruct (decide (k = k')) as [->|Hne].
  - rewrite lookup_delete_eq, (bool_decide_true (k' ∈ k' :: ks)) by set_solver.
    by destruct (bool_decide _).
  - rewrite lookup_delete_ne by done.
    destruct (bool_decide (k ∈ ks)) eqn:H.
    + by rewrite bool_decide_true by (apply bool_decide_eq_true in H; set_solver).
    + by rewrite bool_decide_false by (apply bool_decide_eq_false in H; set_solver).
Qed.

(** The session under [k] is expired. *)
Definition expired (now timeout : Z) (o : option TunTcpSessionRecord) : bool :=
  match o with Some s => is_idle now timeout (ses_last_activity_at s) | None => false end.

Lemma prune_idle_sessions order now timeout t k :
  order ≡ₚ (map_to_list (tbl_sessions t)).*1 ->
  tbl_sessions (fst (prune_idle order now timeout t)) !! k =
  if expired now timeout (tbl_sessions t !! k) then None else tbl_sessions t !! k.
Proof.
  intros Hord. cbn. rewrite fold_delete_lookup. unfold expired.
  destruct (tbl_sessions t !! k) as [s|] eqn:Hs; [|by destruct (bool_decide _)].
  assert (Hk : k ∈ order).
  { rewrite Hord. apply list_elem_of_fmap. exists (k, s). split; [done|]. by apply elem_of_map_to_list. }
  destruct (is_idle now timeout (ses_last_activity_at s)) eqn:Hi.
  - rewrite bool_decide_true; [done|]. apply list_elem_of_In, filter_In.
    split; [by apply list_elem_of_In|]. by rewrite Hs.
  - rewrite bool_decide_false; [done|]. intros Hin%list_elem_of_In%filter_In.
    rewrite Hs in Hin. naive_solver congruence.
Qed.

Lemma map_len_subset {V} (m m' : gmap TunTcpSessionKey V) : m' ⊆ m -> map_len m' <= map_len m.
Proof. intros H. unfold map_len. apply Nat2Z.inj_le. by apply map_subseteq_size. Qed.

Lemma prune_idle_table_ok order now timeout t :
  order ≡ₚ (map_to_list (tbl_sessions t)).*1 ->
  table_ok t -> table_ok (fst (prune_idle order now timeout t)).
Proof.
  intros Hord Ht. pose proof (prune_idle_sessions order now timeout t) as Hses.
  destruct Ht as [H1 H2 H3 H4 H5 H6 H7]. constructor.
  - intros k s. rewrite Hses by done. destruct (expired _ _ _); [done|]. apply H1.
  - intros k c [Hc _]%map_lookup_filter_Some. by apply H2.
  - intros k p [Hp _]%map_lookup_filter_Some. by apply H3.
  - intros k. rewrite Hses by done. destruct (expired _ _ _); [by intros []|]. intros Hs.
    destruct (H4 k Hs) as [E1 E2]. cbn. split; apply map_lookup_filter_None; auto.
  - intros k [c [Hc _]%map_lookup_filter_Some]. cbn. apply map_lookup_filter_None. left. apply H5. eauto.
  - cbn [prune_idle fst]. transitivity (map_len (tbl_sessions t)); [|done].
    apply map_len_subset. apply map_subseteq_spec. intros k s. rewrite Hses by done.
    by destruct (expired _ _ _).
  - done.
Qed.
