(* ===== verification/TunProcess.v ===== *)
(** * Processing a TCP segment

    [crates/keli-net-core/src/tun.rs]: [process_tun_tcp_session_segment_with_relay_plan]
    drives the session table and the relay that carries the payload to the
    outbound connection. The relay is the trait [TunTcpSessionRelay]: a class here,
    so that what is proved holds for every relay.

    Every call of [Instant::now()] below this function is one of its call sites,
    which a segment reaches at most once each: [clk i] is what the [i]-th site
    reads. *)

From stdpp Require Import base gmap strings list numbers.
From S2P Require Import Prelude.
From S2P Require Import StdNet.
From S2P Require Import Dns.
From S2P Require Import TunPacket.
From S2P Require Import TunPlan.
From S2P Require Import TunSession.
#[local] Open Scope Z_scope.

(** ** The relay interface *)

Inductive TunTcpServerRead : Type :=
| NoPayload
| Payload (payload : list Z)
| ServerRead_Closed.

Inductive TunTcpSessionError : Type :=
| Session_Packet (error : TunPacketError)
| Session_Relay (error : string).

(** A method of the relay. *)
Definition RelayM (R A : Type) : Type := SM R string A.

Class TunTcpSessionRelay (R : Type) := {
  establish_session : TunTcpSessionRecord -> RelayM R unit;
  establish_session_with_plan : TunTcpSessionRecord -> TunPacketRelayPlan -> RelayM R unit;
  write_client_payload : TunTcpClientPayloadFrame -> RelayM R unit;
  shutdown_client_write : TunTcpSessionRecord -> RelayM R unit;
  read_server_event : TunTcpSessionRecord -> RelayM R TunTcpServerRead;
  poll_server_event : TunTcpSessionRecord -> RelayM R TunTcpServerRead;
  close_session : TunTcpSessionRecord -> RelayM R unit
}.

(** The trait's default methods, from the methods they call. *)
Definition default_establish_session {R} (_ : TunTcpSessionRecord) : RelayM R unit := sm_ret tt.

Definition default_establish_session_with_plan {R}
  (establish : TunTcpSessionRecord -> RelayM R unit)
  (session : TunTcpSessionRecord) (_ : TunPacketRelayPlan) : RelayM R unit := establish session.

Definition default_write_client_payload {R} (_ : TunTcpClientPayloadFrame) : RelayM R unit :=
  sm_ret tt.

Definition default_shutdown_client_write {R} (close : TunTcpSessionRecord -> RelayM R unit)
  (session : TunTcpSessionRecord) : RelayM R unit := close session.

Definition default_read_server_payload {R} (_ : TunTcpSessionRecord)
  : RelayM R (option (list Z)) := sm_ret None.

Definition default_server_event {R}
  (read_payload : TunTcpSessionRecord -> RelayM R (option (list Z)))
  (session : TunTcpSessionRecord) : RelayM R TunTcpServerRead :=
  payload <-! read_payload session;
  match payload with
  | Some payload => sm_ret (Payload payload)
  | None => sm_ret NoPayload
  end.

Definition default_close_session {R} (_ : TunTcpSessionRecord) : RelayM R unit := sm_ret tt.

(** ** Steps *)

Record TunTcpSessionResetFrame : Type := mkTunTcpSessionResetFrame {
  rst_sequence_number : Z;
  rst_acknowledgment_number : Z;
  rst_packet : list Z
}.

Inductive TunTcpCloseMarkerResetKind : Type :=
| Marker_ServerClose
| Marker_PostClose.

Inductive TunTcpSessionStep : Type :=
| Step_Noop
| Step_SynAck (response : TunTcpSynAckResponse)
| Step_Reset (response : TunTcpSessionResetFrame)
| Step_Established (session : TunTcpSessionRecord)
| Step_ClientAck (session : TunTcpSessionRecord)
| Step_ClientPayload (frame : TunTcpClientPayloadFrame)
    (server_response : option TunTcpServerPayloadFrame)
    (server_close : option TunTcpServerCloseFrame)
| Step_ClientPayloadClosed (frame : TunTcpClientPayloadFrame) (response : TunTcpCloseFrame)
    (server_response : option TunTcpServerPayloadFrame)
    (server_close : option TunTcpServerCloseFrame)
| Step_ClientFinAck (response : TunTcpCloseFrame)
    (server_response : option TunTcpServerPayloadFrame)
    (server_close : option TunTcpServerCloseFrame)
| Step_OverlappingClientPayload (frame : TunTcpClientPayloadFrame)
    (server_response : option TunTcpServerPayloadFrame)
    (server_close : option TunTcpServerCloseFrame)
| Step_DuplicateClientPayload (ack : TunTcpDuplicateClientPayloadAck)
| Step_OutOfOrderClientPayload (ack : TunTcpOutOfOrderClientPayloadAck)
| Step_ServerPayload (response : TunTcpServerPayloadFrame)
| Step_ServerPayloadRetransmission (response : TunTcpServerPayloadFrame)
| Step_ServerClosed (response : TunTcpServerCloseFrame)
| Step_ServerCloseRetransmission (response : TunTcpServerCloseFrame)
| Step_ServerCloseAcknowledged (session : TunTcpSessionRecord)
| Step_CloseMarkerReset (session : TunTcpSessionRecord) (kind : TunTcpCloseMarkerResetKind)
| Step_ServerCloseClientFinAck (response : TunTcpCloseFrame)
| Step_ClientFinDuplicateAck (response : TunTcpCloseFrame)
    (server_response : option TunTcpServerPayloadFrame)
    (server_close : option TunTcpServerCloseFrame)
| Step_Closed (session : TunTcpSessionRecord) (response : option TunTcpCloseFrame).

(** The packets of an optional server payload and an optional server close. *)
Definition server_packets (server_response : option TunTcpServerPayloadFrame)
  (server_close : option TunTcpServerCloseFrame) : list (list Z) :=
  match server_response with Some r => [spf_packet r] | None => [] end
  ++ match server_close with Some c => [scf_packet c] | None => [] end.

Definition response_packets (self : TunTcpSessionStep) : list (list Z) :=
  match self with
  | Step_SynAck response => [syn_packet response]
  | Step_Reset response => [rst_packet response]
  | Step_ClientPayload frame sr sc
  | Step_OverlappingClientPayload frame sr sc => cpf_ack_packet frame :: server_packets sr sc
  | Step_DuplicateClientPayload ack => [dup_ack_packet ack]
  | Step_OutOfOrderClientPayload ack => [ooo_ack_packet ack]
  | Step_ClientPayloadClosed _ response sr sc
  | Step_ClientFinAck response sr sc => cf_packet response :: server_packets sr sc
  | Step_ServerPayload response
  | Step_ServerPayloadRetransmission response => [spf_packet response]
  | Step_ServerClosed response
  | Step_ServerCloseRetransmission response => [scf_packet response]
  | Step_ServerCloseClientFinAck response => [cf_packet response]
  | Step_ClientFinDuplicateAck response sr sc => cf_packet response :: server_packets sr sc
  | Step_Closed _ (Some response) => [cf_packet response]
  | _ => []
  end.

(** ** Processing *)

Section Process.
Context {R : Type} {Relay : TunTcpSessionRelay R}.

(** A computation on the relay and the session table. *)
Definition PM (A : Type) : Type := SM (R * TunTcpSessionTable) TunTcpSessionError A.

(** [sessions.method(..)?] and [relay.method(..).map_err(TunTcpSessionError::Relay)?]. *)
Definition on_table {A} (m : TableM A) : PM A :=
  sm_zoom snd (fun t s => (fst s, t)) Session_Packet m.

Definition on_relay {A} (m : RelayM R A) : PM A :=
  sm_zoom fst (fun r s => (r, snd s)) Session_Relay m.

(** [if let Some(x) = m? { return Ok(some(x)) }; none] *)
Definition try_step {A} (m : PM (option A)) (some : A -> PM TunTcpSessionStep)
  (none : PM TunTcpSessionStep) : PM TunTcpSessionStep :=
  o <-! m; match o with Some a => some a | None => none end.

Definition table_method {A} (method : TunTcpSegment -> Z -> TableM A) (segment : TunTcpSegment)
  (now : Z) : PM A := on_table (method segment now).

Definition build_tun_tcp_session_reset_frame (segment : TunTcpSegment)
  : result TunPacketError TunTcpSessionResetFrame :=
  packet <-? build_tun_tcp_reset_response_packet segment;
  Ok (mkTunTcpSessionResetFrame (tcp_reset_sequence_number segment)
        (tcp_reset_acknowledgment_number segment) packet).

Definition should_reset_unknown_tun_tcp_session_segment (segment : TunTcpSegment) : bool :=
  negb (flag_rst (seg_flags segment))
  && (flag_syn (seg_flags segment) || flag_fin (seg_flags segment)
      || flag_ack (seg_flags segment) || negb (is_empty (seg_payload segment))).

Definition close_tun_tcp_session_from_server (session : TunTcpSessionRecord) (now : Z)
  : PM (option TunTcpServerCloseFrame) :=
  response <-! on_table (close_server_side (ses_key session) now);
  match response with
  | Some frame => do! on_relay (close_session (scf_session frame)); sm_ret response
  | None => sm_ret response
  end.

(** [read_tun_tcp_server_event_after_client_payload] on the frame's session, and
    [read_tun_tcp_server_event_after_client_fin] on its session argument. *)
Definition read_tun_tcp_server_event (session : TunTcpSessionRecord) (clk : nat -> Z)
  : PM (option TunTcpServerPayloadFrame * option TunTcpServerCloseFrame) :=
  event <-! on_relay (read_server_event session);
  match event with
  | Payload payload =>
      response <-! on_table (send_server_payload (ses_flow session) payload (clk 20%nat));
      sm_ret (response, None)
  | ServerRead_Closed =>
      close <-! close_tun_tcp_session_from_server session (clk 21%nat);
      sm_ret (None, close)
  | NoPayload => sm_ret (None, None)
  end.

Definition read_tun_tcp_server_event_after_client_payload (frame : TunTcpClientPayloadFrame)
  (clk : nat -> Z) : PM (option TunTcpServerPayloadFrame * option TunTcpServerCloseFrame) :=
  read_tun_tcp_server_event (cpf_session frame) clk.

Definition read_tun_tcp_server_event_after_client_fin (session : TunTcpSessionRecord)
  (clk : nat -> Z) : PM (option TunTcpServerPayloadFrame * option TunTcpServerCloseFrame) :=
  read_tun_tcp_server_event session clk.

(** *** Segments with RST or FIN *)

(** The answer to a repeated FIN, with what the server has to say meanwhile. *)
Definition answer_duplicate_client_fin (response : TunTcpCloseFrame) (clk : nat -> Z)
  : PM TunTcpSessionStep :=
  '(server_response, server_close) <-!
    read_tun_tcp_server_event_after_client_fin (cf_session response) clk;
  if is_some server_response || is_some server_close
  then sm_ret (Step_ClientFinDuplicateAck response server_response server_close)
  else sm_ret (Step_ServerCloseClientFinAck response).

(** FIN with payload, not RST. *)
Definition process_fin_with_payload (segment : TunTcpSegment) (clk : nat -> Z)
  (next : PM TunTcpSessionStep) : PM TunTcpSessionStep :=
  try_step (table_method retransmit_server_payload_for_duplicate_client_fin segment (clk 0%nat))
    (fun response => sm_ret (Step_ServerPayloadRetransmission response))
  (try_step (table_method acknowledge_duplicate_client_fin segment (clk 1%nat))
    (fun response => answer_duplicate_client_fin response clk)
  (try_step (table_method accept_client_fin_with_payload segment (clk 2%nat))
    (fun '(frame, response) =>
       do! on_relay (write_client_payload frame);
       do! on_relay (shutdown_client_write (cf_session response));
       '(server_response, server_close) <-!
         read_tun_tcp_server_event_after_client_payload frame clk;
       sm_ret (Step_ClientPayloadClosed frame response server_response server_close))
  next)).

(** FIN without payload, not RST. *)
Definition process_fin_without_payload (segment : TunTcpSegment) (clk : nat -> Z)
  (next : PM TunTcpSessionStep) : PM TunTcpSessionStep :=
  try_step (table_method retransmit_server_payload_for_duplicate_client_fin segment (clk 0%nat))
    (fun response => sm_ret (Step_ServerPayloadRetransmission response))
  (try_step (table_method acknowledge_duplicate_client_fin segment (clk 1%nat))
    (fun response => answer_duplicate_client_fin response clk)
  (try_step (table_method acknowledge_client_fin segment (clk 2%nat))
    (fun response =>
       do! on_relay (shutdown_client_write (cf_session response));
       '(server_response, server_close) <-!
         read_tun_tcp_server_event_after_client_fin (cf_session response) clk;
       sm_ret (Step_ClientFinAck response server_response server_close))
  next)).

(** A FIN (not RST) on a closed session: the markers answer it. *)
Definition process_fin_on_markers (segment : TunTcpSegment) (clk : nat -> Z)
  (next : PM TunTcpSessionStep) : PM TunTcpSessionStep :=
  try_step (table_method acknowledge_server_close_with_client_fin segment (clk 4%nat))
    (fun response => sm_ret (Step_ServerCloseClientFinAck response))
  (try_step (table_method retransmit_server_close_for_duplicate_client_fin segment (clk 5%nat))
    (fun response => sm_ret (Step_ServerCloseRetransmission response))
  (try_step (table_method acknowledge_post_close_client_fin segment (clk 6%nat))
    (fun response => sm_ret (Step_ServerCloseClientFinAck response))
  next)).

(** [sessions.get_flow(&segment.flow)?]. *)
Definition lookup_flow (segment : TunTcpSegment) : PM (option TunTcpSessionRecord) :=
  on_table (fun t => (t, get_flow t (seg_flow segment))).

Definition reset_segment (segment : TunTcpSegment) : PM TunTcpSessionStep :=
  response <-! on_table (sm_lift (build_tun_tcp_session_reset_frame segment));
  sm_ret (Step_Reset response).

(** A RST removes a close marker. *)
Definition process_rst_on_markers (segment : TunTcpSegment) : PM TunTcpSessionStep :=
  try_step (on_table (remove_server_close_on_rst segment))
    (fun session => sm_ret (Step_CloseMarkerReset session Marker_ServerClose))
  (try_step (on_table (remove_post_close_on_rst segment))
    (fun session => sm_ret (Step_CloseMarkerReset session Marker_PostClose))
  (sm_ret Step_Noop)).

Definition process_close_segment (segment : TunTcpSegment) (clk : nat -> Z)
  : PM TunTcpSessionStep :=
  let fin := flag_fin (seg_flags segment) && negb (flag_rst (seg_flags segment)) in
  let on_rst :=
    if flag_rst (seg_flags segment) then process_rst_on_markers segment else sm_ret Step_Noop in
  let on_unknown :=
    if fin then
      session <-! lookup_flow segment;
      if is_none session then reset_segment segment else on_rst
    else on_rst in
  let on_markers := if fin then process_fin_on_markers segment clk on_unknown else on_unknown in
  let on_close :=
    try_step (table_method remove_on_close segment (clk 3%nat))
      (fun '(session, response) =>
         do! on_relay (close_session session);
         sm_ret (Step_Closed session response))
      on_markers in
  let on_fin :=
    if fin && is_empty (seg_payload segment)
    then process_fin_without_payload segment clk on_close else on_close in
  if fin && negb (is_empty (seg_payload segment))
  then process_fin_with_payload segment clk on_fin else on_fin.

(** *** A SYN *)

Definition process_syn_segment (segment : TunTcpSegment)
  (server_initial_sequence_number window_size : Z) (clk : nat -> Z) : PM TunTcpSessionStep :=
  try_step (table_method acknowledge_retransmitted_syn segment (clk 7%nat))
    (fun response => sm_ret (Step_SynAck response))
    (session <-! lookup_flow segment;
     if match session with
        | Some session => tun_tcp_phase_accepts_server_response (ses_phase session)
        | None => false
        end
     then sm_ret Step_Noop
     else
       response <-! on_table (start_from_syn segment server_initial_sequence_number window_size
                                (clk 8%nat));
       sm_ret (Step_SynAck response)).

(** *** The handshake's ACK *)

Definition establish_on_ack (segment : TunTcpSegment) (relay_plan : option TunPacketRelayPlan)
  (clk : nat -> Z) : PM (option TunTcpSessionRecord) :=
  if flag_ack (seg_flags segment) && negb (flag_syn (seg_flags segment)) then
    established <-! table_method apply_ack segment (clk 9%nat);
    match established with
    | Some session =>
        do! on_relay (match relay_plan with
                      | Some plan => establish_session_with_plan session plan
                      | None => establish_session session
                      end);
        sm_ret established
    | None => sm_ret established
    end
  else sm_ret None.

(** *** Payload *)

Definition process_client_payload (segment : TunTcpSegment) (clk : nat -> Z)
  (next : PM TunTcpSessionStep) : PM TunTcpSessionStep :=
  try_step (table_method accept_client_payload segment (clk 10%nat))
    (fun frame =>
       do! on_relay (write_client_payload frame);
       '(server_response, server_close) <-!
         read_tun_tcp_server_event_after_client_payload frame clk;
       sm_ret (Step_ClientPayload frame server_response server_close))
  (try_step (table_method accept_overlapping_client_payload segment (clk 11%nat))
    (fun frame =>
       do! on_relay (write_client_payload frame);
       '(server_response, server_close) <-!
         read_tun_tcp_server_event_after_client_payload frame clk;
       sm_ret (Step_OverlappingClientPayload frame server_response server_close))
  (try_step (table_method acknowledge_duplicate_client_payload segment (clk 12%nat))
    (fun ack => sm_ret (Step_DuplicateClientPayload ack))
  (try_step (table_method acknowledge_out_of_order_client_payload segment (clk 13%nat))
    (fun ack => sm_ret (Step_OutOfOrderClientPayload ack))
  next))).

(** *** Acknowledgments *)

(** What the server has for a client that has acknowledged everything. *)
Definition poll_server (session : TunTcpSessionRecord) (clk : nat -> Z)
  (next : PM TunTcpSessionStep) : PM TunTcpSessionStep :=
  event <-! on_relay (poll_server_event session);
  match event with
  | Payload payload =>
      try_step (on_table (send_server_payload (ses_flow session) payload (clk 20%nat)))
        (fun response => sm_ret (Step_ServerPayload response)) next
  | ServerRead_Closed =>
      try_step (close_tun_tcp_session_from_server session (clk 21%nat))
        (fun response => sm_ret (Step_ServerClosed response)) next
  | NoPayload => sm_ret (Step_ClientAck session)
  end.

Definition process_client_ack (segment : TunTcpSegment) (clk : nat -> Z)
  (next : PM TunTcpSessionStep) : PM TunTcpSessionStep :=
  let acknowledge :=
    try_step (table_method acknowledge_client_ack segment (clk 16%nat))
      (fun session => sm_ret (Step_ClientAck session))
    (try_step (table_method retransmit_server_close segment (clk 17%nat))
      (fun response => sm_ret (Step_ServerCloseRetransmission response))
    (try_step (table_method acknowledge_server_close segment (clk 18%nat))
      (fun session => sm_ret (Step_ServerCloseAcknowledged session))
    (try_step (table_method acknowledge_post_close_ack segment (clk 19%nat))
      (fun session => sm_ret (Step_ServerCloseAcknowledged session))
    next))) in
  try_step (table_method retransmit_server_payload segment (clk 14%nat))
    (fun response => sm_ret (Step_ServerPayloadRetransmission response))
  (try_step (table_method server_payload_poll_session segment (clk 15%nat))
    (fun session => poll_server session clk acknowledge)
  acknowledge).

(** *** The whole function *)

Definition process_tun_tcp_session_segment_with_relay_plan (segment : TunTcpSegment)
  (relay_plan : option TunPacketRelayPlan) (server_initial_sequence_number window_size : Z)
  (clk : nat -> Z) : PM TunTcpSessionStep :=
  if flag_rst (seg_flags segment) || flag_fin (seg_flags segment)
  then process_close_segment segment clk
  else if is_initial_tcp_syn_segment segment
  then process_syn_segment segment server_initial_sequence_number window_size clk
  else
    established <-! establish_on_ack segment relay_plan clk;
    let on_unknown :=
      if should_reset_unknown_tun_tcp_session_segment segment then
        session <-! lookup_flow segment;
        if is_none session then reset_segment segment else sm_ret Step_Noop
      else sm_ret Step_Noop in
    let on_established :=
      match established with
      | Some session => sm_ret (Step_Established session)
      | None => on_unknown
      end in
    process_client_payload segment clk
      (if is_none established then process_client_ack segment clk on_established
       else on_established).

Definition process_tun_tcp_session_segment (segment : TunTcpSegment)
  (server_initial_sequence_number window_size : Z) (clk : nat -> Z) : PM TunTcpSessionStep :=
  process_tun_tcp_session_segment_with_relay_plan segment None server_initial_sequence_number
    window_size clk.

(** ** Pruning *)

Record TunTcpSessionPruneReport : Type := mkTunTcpSessionPruneReport {
  report_pruned_sessions : Z;
  report_pruned_server_closed_sessions : Z;
  report_pruned_post_closed_sessions : Z;
  report_close_errors : Z;
  report_last_close_error : option TunTcpSessionError
}.

(** The [for] loop over the pruned sessions: it has no error of its own; a relay that
    panics ends it. *)
Fixpoint close_pruned_sessions {E} (sessions : list TunTcpSessionRecord) (close_errors : Z)
  (last_close_error : option TunTcpSessionError) (relay : R)
  : R * result E (Z * option TunTcpSessionError) :=
  match sessions with
  | [] => (relay, Ok (close_errors, last_close_error))
  | session :: sessions' =>
      match close_session session relay with
      | (relay', Ok _) => close_pruned_sessions sessions' close_errors last_close_error relay'
      | (relay', Err error) =>
          close_pruned_sessions sessions' (close_errors + 1) (Some (Session_Relay error)) relay'
      | (relay', Panic) => (relay', Panic)
      end
  end.

Definition prune_idle_tun_tcp_sessions {E} (order : list TunTcpSessionKey)
  (now idle_timeout : Z) : SM (R * TunTcpSessionTable) E TunTcpSessionPruneReport :=
  fun '(relay, sessions) =>
    let server_closed_sessions_before := map_len (tbl_server_closed_sessions sessions) in
    let post_closed_sessions_before := map_len (tbl_post_closed_sessions sessions) in
    let '(sessions', pruned_sessions) := prune_idle order now idle_timeout sessions in
    let '(relay', closed) := close_pruned_sessions pruned_sessions 0 None relay in
    ((relay', sessions'),
     '(close_errors, last_close_error) <-? closed;
     Ok (mkTunTcpSessionPruneReport (len pruned_sessions)
           (Z.max 0 (server_closed_sessions_before
                     - map_len (tbl_server_closed_sessions sessions')))
           (Z.max 0 (post_closed_sessions_before
                     - map_len (tbl_post_closed_sessions sessions')))
           close_errors last_close_error)).
End Process.
