(* ===== verification/TunProcessInv.v ===== *)
(** * Safety of segment processing

    For every relay: a segment read from the device keeps the session table well
    formed, changes only the session of its own flow, produces only packets that
    answer that flow, and is refused only for the two reasons the code names. *)

From stdpp Require Import base gmap strings list numbers.
From S2P Require Import Prelude.
From S2P Require Import StdNet.
From S2P Require Import Dns.
From S2P Require Import TunPacket.
From S2P Require Import TunPacketBuild.
From S2P Require Import TunPlan.
From S2P Require Import TunSession.
From S2P Require Import TunSessionInv.
From S2P Require Import TunProcess.
#[local] Open Scope Z_scope.

(** A relay whose methods return, if only an error. *)
Class RelayReturns (R : Type) {Relay : TunTcpSessionRelay R} : Prop := {
  returns_establish : forall s r, snd (establish_session s r) <> Panic;
  returns_establish_plan : forall s p r, snd (establish_session_with_plan s p r) <> Panic;
  returns_write : forall f r, snd (write_client_payload f r) <> Panic;
  returns_shutdown : forall s r, snd (shutdown_client_write s r) <> Panic;
  returns_read : forall s r, snd (read_server_event s r) <> Panic;
  returns_poll : forall s r, snd (poll_server_event s r) <> Panic;
  returns_close : forall s r, snd (close_session s r) <> Panic
}.

(** The reasons for which the table refuses a segment. *)
Definition refusal (e : TunPacketError) : Prop := limit_error e \/ too_large_error e.

Section Spec.
Context {R : Type} {Relay : TunTcpSessionRelay R}.
Context {Returns : RelayReturns R}.
Context (key : TunTcpSessionKey).

(** The specification of a computation on behalf of the session [key]. *)
Definition step_spec {A} (m : PM (R := R) A) (Q : A -> Prop) : Prop :=
  forall r t, table_ok t ->
    table_ok (snd (fst (m (r, t)))) /\ same_elsewhere key t (snd (fst (m (r, t)))) /\
    match snd (m (r, t)) with
    | Ok a => Q a
    | Err (Session_Packet e) => refusal e
    | Err (Session_Relay _) => True
    | Panic => False
    end.

Lemma step_ret {A} (a : A) (Q : A -> Prop) : Q a -> step_spec (sm_ret a) Q.
Proof. intros HQ r t Ht. cbn. auto with keli. Qed.

Lemma step_bind {A B} (m : PM (R := R) A) (k : A -> PM (R := R) B) (P : A -> Prop) (Q : B -> Prop) :
  step_spec m P -> (forall a, P a -> step_spec (k a) Q) -> step_spec (sm_bind m k) Q.
Proof.
  intros Hm Hk r t Ht. specialize (Hm r t Ht). unfold sm_bind.
  destruct (m (r, t)) as [[r' t'] [a|e|]]; cbn in *; [|done..].
  destruct Hm as (Ht' & Hsame & HP). destruct (Hk a HP r' t' Ht') as (Ht'' & Hsame' & HQ).
  split_and!; [done|by eapply same_elsewhere_trans|done].
Qed.

Lemma step_mono {A} (m : PM (R := R) A) (P Q : A -> Prop) :
  step_spec m P -> (forall a, P a -> Q a) -> step_spec m Q.
Proof.
  intros Hm HPQ r t Ht. specialize (Hm r t Ht). destruct (m (r, t)) as [[r' t'] [a|e|]]; cbn in *; [|done..].
  destruct Hm as (? & ? & ?). auto.
Qed.

Lemma step_table {A} `{Framed A} (allowed : TunPacketError -> Prop) (m : TableM A) :
  op_spec key allowed m -> (forall e, allowed e -> refusal e) ->
  step_spec (on_table m) (framed key).
Proof.
  intros Hm Hall r t Ht. specialize (Hm t Ht). unfold on_table, sm_zoom. cbn.
  destruct (m t) as [t' [a|e|]]; cbn in *; [done| |]; destruct Hm as (? & ? & Hr); [|done].
  destruct Hr as [He _]. split_and!; auto.
Qed.

Lemma step_table_total {A} `{Framed A} (m : TableM A) :
  op_spec key no_error m -> step_spec (on_table m) (framed key).
Proof. intros Hm. eapply step_table; [exact Hm|done]. Qed.

Lemma step_relay {A} (m : RelayM R A) :
  (forall r, snd (m r) <> Panic) -> step_spec (on_relay m) (fun _ => True).
Proof.
  intros Hm r t Ht. specialize (Hm r). unfold on_relay, sm_zoom. cbn.
  destruct (m r) as [r' [a|e|]]; cbn in *; auto with keli; done.
Qed.

Lemma step_try {A} `{Framed A} (m : PM (R := R) (option A)) some none Q :
  step_spec m (framed key) ->
  (forall a, framed key a -> step_spec (some a) Q) -> step_spec none Q ->
  step_spec (try_step m some none) Q.
Proof.
  intros Hm Hsome Hnone. eapply step_bind; [exact Hm|]. intros [a|] Ha; [by apply Hsome|done].
Qed.

(** What a step that answers [flow] emits. *)
Definition step_answers (flow : TunPacketFlow) (step : TunTcpSessionStep) : Prop :=
  Forall (answers flow) (response_packets step).

Section Segment.
Context (segment : TunTcpSegment) (clk : nat -> Z).
Context (Hseg : segment_ok segment) (Hkey : from_flow (seg_flow segment) = Ok key).

Lemma session_flow s : session_ok key s -> ses_flow s = seg_flow segment.
Proof. intros Hs. eapply from_flow_inj; eauto using segment_ok_flow with keli. Qed.

(** A frame's packet answers the segment's flow. *)
Ltac answers_flow H := destruct H as [Hfs Hfp]; rewrite (session_flow _ Hfs) in Hfp.

Lemma framed_answers_server sr sc :
  framed key (sr, sc) -> Forall (answers (seg_flow segment)) (server_packets sr sc).
Proof.
  intros [Hr Hc]. unfold server_packets. apply Forall_app. split.
  - destruct sr as [f|]; [|done]. answers_flow Hr. by apply Forall_singleton.
  - destruct sc as [f|]; [|done]. answers_flow Hc. by apply Forall_singleton.
Qed.

Lemma close_from_server_spec session now :
  session_ok key session ->
  step_spec (close_tun_tcp_session_from_server session now) (framed key).
Proof.
  intros Hs. unfold close_tun_tcp_session_from_server.
  rewrite (session_ok_key _ _ Hs).
  eapply step_bind; [apply step_table_total, close_server_side_spec|].
  intros [f|] Hf; [|by apply step_ret].
  eapply step_bind; [apply step_relay, returns_close|]. intros _ _. by apply step_ret.
Qed.

Lemma send_spec session payload now :
  session_ok key session ->
  step_spec (on_table (send_server_payload (ses_flow session) payload now)) (framed key).
Proof.
  intros Hs. eapply step_table; [apply send_server_payload_spec; eauto with keli|].
  intros e He. by right.
Qed.

Lemma read_server_event_spec session :
  session_ok key session -> step_spec (read_tun_tcp_server_event session clk) (framed key).
Proof.
  intros Hs. unfold read_tun_tcp_server_event.
  eapply step_bind; [apply step_relay, returns_read|]. intros [|payload|] _.
  - by apply step_ret.
  - eapply step_bind; [by apply send_spec|]. intros sr Hsr. by apply step_ret.
  - eapply step_bind; [by apply close_from_server_spec|]. intros sc Hsc. by apply step_ret.
Qed.

(** Closes a [return Ok(step)] whose packets come from framed values. *)
Ltac ret_step :=
  apply step_ret; unfold step_answers; cbn [response_packets];
  repeat match goal with
  | |- Forall _ [] => apply List.Forall_nil
  | |- Forall _ (_ :: _) => apply List.Forall_cons
  | |- Forall _ (server_packets _ _) => by apply framed_answers_server
  end;
  try match goal with
  | H : framed key ?f |- answers _ _ => answers_flow H; assumption
  end.

Ltac try_op spec :=
  eapply step_try; [apply step_table_total; apply spec; done | intros ? ? |].

Lemma answer_duplicate_client_fin_spec f :
  framed key f ->
  step_spec (answer_duplicate_client_fin f clk) (step_answers (seg_flow segment)).
Proof.
  intros Hf. unfold answer_duplicate_client_fin, read_tun_tcp_server_event_after_client_fin.
  eapply step_bind; [apply read_server_event_spec, Hf|]. intros [sr sc] Hs.
  destruct (_ || _); ret_step.
Qed.

Lemma process_fin_with_payload_spec next :
  step_spec next (step_answers (seg_flow segment)) ->
  step_spec (process_fin_with_payload segment clk next) (step_answers (seg_flow segment)).
Proof.
  intros Hnext. unfold process_fin_with_payload, table_method.
  try_op retransmit_server_payload_for_duplicate_client_fin_spec; [ret_step|].
  try_op acknowledge_duplicate_client_fin_spec; [by apply answer_duplicate_client_fin_spec|].
  try_op accept_client_fin_with_payload_spec; [|done].
  destruct a as [f c]. destruct H as [Hf Hc]. cbn [fst snd] in *.
  eapply step_bind; [apply step_relay, returns_write|intros _ _].
  eapply step_bind; [apply step_relay, returns_shutdown|intros _ _].
  eapply step_bind; [apply read_server_event_spec, Hf|]. intros [sr sc] Hs. ret_step.
Qed.

Lemma process_fin_without_payload_spec next :
  step_spec next (step_answers (seg_flow segment)) ->
  step_spec (process_fin_without_payload segment clk next) (step_answers (seg_flow segment)).
Proof.
  intros Hnext. unfold process_fin_without_payload, table_method.
  try_op retransmit_server_payload_for_duplicate_client_fin_spec; [ret_step|].
  try_op acknowledge_duplicate_client_fin_spec; [by apply answer_duplicate_client_fin_spec|].
  try_op acknowledge_client_fin_spec; [|done].
  eapply step_bind; [apply step_relay, returns_shutdown|intros _ _].
  eapply step_bind; [apply read_server_event_spec, H|]. intros [sr sc] Hs. ret_step.
Qed.

Lemma process_fin_on_markers_spec next :
  step_spec next (step_answers (seg_flow segment)) ->
  step_spec (process_fin_on_markers segment clk next) (step_answers (seg_flow segment)).
Proof.
  intros Hnext. unfold process_fin_on_markers, table_method.
  try_op acknowledge_server_close_with_client_fin_spec; [ret_step|].
  try_op retransmit_server_close_for_duplicate_client_fin_spec; [ret_step|].
  try_op acknowledge_post_close_client_fin_spec; [ret_step|done].
Qed.

Lemma process_rst_on_markers_spec :
  step_spec (process_rst_on_markers segment) (step_answers (seg_flow segment)).
Proof.
  unfold process_rst_on_markers.
  try_op remove_server_close_on_rst_spec; [ret_step|].
  try_op remove_post_close_on_rst_spec; ret_step.
Qed.

Lemma lookup_flow_spec : step_spec (lookup_flow segment) (framed key).
Proof.
  apply step_table_total. intros t Ht. cbn. unfold get_flow. rewrite Hkey. cbn.
  split_and!; auto with keli. destruct (tbl_sessions t !! key) eqn:Hs; [|done].
  by eapply table_ok_sessions.
Qed.

Lemma reset_segment_spec :
  step_spec (reset_segment segment) (step_answers (seg_flow segment)).
Proof.
  intros r t Ht. unfold reset_segment, on_table, sm_zoom, sm_bind, sm_lift,
    build_tun_tcp_session_reset_frame, build_tun_tcp_reset_response_packet.
  rewrite build_tcp_response_cases by apply Hseg.
  replace (_ <=? _) with true
    by (pose proof (len_nil_fits (A := Z) (flow_ip_version (seg_flow segment))); lia).
  cbn. split_and!; auto with keli. apply Forall_singleton, answers_intro; auto with keli.
  - unfold tcp_reset_sequence_number. destruct (flag_ack _); [apply Hseg|].
    unfold is_u32, u32_modulus. lia.
  - unfold is_u16. lia.
Qed.

Lemma process_close_segment_spec :
  step_spec (process_close_segment segment clk) (step_answers (seg_flow segment)).
Proof.
  assert (Hrst : step_spec (if flag_rst (seg_flags segment) then process_rst_on_markers segment
    else sm_ret Step_Noop) (step_answers (seg_flow segment)))
    by (destruct (flag_rst _); [apply process_rst_on_markers_spec|ret_step]).
  unfold process_close_segment. cbn zeta. set (fin := flag_fin _ && _).
  match goal with |- step_spec (if _ then process_fin_with_payload _ _ ?m else _) _ =>
    assert (Hfin : step_spec m (step_answers (seg_flow segment))) end.
  2:{ match goal with |- step_spec (if ?c then _ else _) _ => destruct c end; [|done]. by apply process_fin_with_payload_spec. }
  match goal with |- step_spec (if _ then process_fin_without_payload _ _ ?m else _) _ =>
    assert (Hclose : step_spec m (step_answers (seg_flow segment))) end.
  2:{ match goal with |- step_spec (if ?c then _ else _) _ => destruct c end; [|done]. by apply process_fin_without_payload_spec. }
  unfold table_method. try_op remove_on_close_spec.
  - destruct a as [session response]. destruct H as [Hs Hr]. cbn [fst snd] in *.
    eapply step_bind; [apply step_relay, returns_close|intros _ _]. destruct response; ret_step.
  - destruct fin; [|done]. apply process_fin_on_markers_spec.
    eapply step_bind; [apply lookup_flow_spec|]. intros [s|] _; [done|apply reset_segment_spec].
Qed.

Lemma process_syn_segment_spec isn window :
  is_initial_tcp_syn_segment segment = true -> is_u32 isn -> is_u16 window ->
  step_spec (process_syn_segment segment isn window clk) (step_answers (seg_flow segment)).
Proof.
  intros Hsyn Hisn Hw. unfold process_syn_segment, table_method.
  try_op acknowledge_retransmitted_syn_spec; [ret_step|].
  eapply step_bind; [apply lookup_flow_spec|]. intros o _.
  destruct (match o with Some _ => _ | None => _ end); [ret_step|].
  apply (step_bind _ _ (framed key)); [|intros a Ha; ret_step].
  intros r t Ht. destruct (start_from_syn_spec segment key (clk 8%nat) Hseg Hkey isn window Hisn Hw t Ht)
    as (Ht' & Hsame & Hres). unfold on_table, sm_zoom. cbn.
  destruct (start_from_syn segment isn window (clk 8%nat) t) as [t' [a|e|]] eqn:Hrun; cbn in *; [done| |done].
  destruct Hres as [[He| ->] _]; [by split_and!; [..|left]|].
  exfalso. revert Hrun. unfold start_from_syn. rewrite Hsyn. cbn.
  unfold sm_bind, sm_lift, sm_get. rewrite Hkey. destruct (_ && _); [done|].
  unfold build_tun_tcp_syn_ack_response_packet. rewrite Hsyn. cbn [negb].
  rewrite build_tcp_response_cases by apply Hseg. by destruct (_ <=? _).
Qed.

Lemma establish_on_ack_spec plan :
  step_spec (establish_on_ack segment plan clk) (framed key).
Proof.
  unfold establish_on_ack, table_method. destruct (_ && _); [|by apply step_ret].
  eapply step_bind; [apply step_table_total, apply_ack_spec; done|].
  intros [s|] Hs; [|by apply step_ret].
  apply (step_bind _ _ (fun _ => True)); [|intros _ _; by apply step_ret].
  destruct plan; apply step_relay; [intros r; apply returns_establish_plan|apply returns_establish].
Qed.

Lemma process_client_payload_spec next :
  step_spec next (step_answers (seg_flow segment)) ->
  step_spec (process_client_payload segment clk next) (step_answers (seg_flow segment)).
Proof.
  intros Hnext. unfold process_client_payload, table_method.
  try_op accept_client_payload_spec.
  { eapply step_bind; [apply step_relay, returns_write|intros _ _].
    eapply step_bind; [apply read_server_event_spec, H|]. intros [sr sc] Hs. ret_step. }
  try_op accept_overlapping_client_payload_spec.
  { eapply step_bind; [apply step_relay, returns_write|intros _ _].
    eapply step_bind; [apply read_server_event_spec, H|]. intros [sr sc] Hs. ret_step. }
  try_op acknowledge_duplicate_client_payload_spec; [ret_step|].
  try_op acknowledge_out_of_order_client_payload_spec; [ret_step|done].
Qed.

Lemma poll_server_spec session next :
  session_ok key session -> step_spec next (step_answers (seg_flow segment)) ->
  step_spec (poll_server session clk next) (step_answers (seg_flow segment)).
Proof.
  intros Hs Hnext. unfold poll_server.
  eapply step_bind; [apply step_relay, returns_poll|]. intros [|payload|] _; [ret_step| |].
  - eapply step_try; [by apply send_spec|intros ? ?; ret_step|done].
  - eapply step_try; [by apply close_from_server_spec|intros ? ?; ret_step|done].
Qed.

Lemma process_client_ack_spec next :
  step_spec next (step_answers (seg_flow segment)) ->
  step_spec (process_client_ack segment clk next) (step_answers (seg_flow segment)).
Proof.
  intros Hnext. unfold process_client_ack, table_method. cbn zeta.
  match goal with |- step_spec (try_step _ _ (try_step _ _ ?m)) _ =>
    assert (Hack : step_spec m (step_answers (seg_flow segment))) end.
  { try_op acknowledge_client_ack_spec; [ret_step|].
    try_op retransmit_server_close_spec; [ret_step|].
    try_op acknowledge_server_close_spec; [ret_step|].
    try_op acknowledge_post_close_ack_spec; [ret_step|done]. }
  try_op retransmit_server_payload_spec; [ret_step|].
  try_op server_payload_poll_session_spec; [by apply poll_server_spec|done].
Qed.

Lemma process_segment_spec plan isn window :
  is_u32 isn -> is_u16 window ->
  step_spec (process_tun_tcp_session_segment_with_relay_plan segment plan isn window clk)
    (step_answers (seg_flow segment)).
Proof.
  intros Hisn Hw. unfold process_tun_tcp_session_segment_with_relay_plan.
  destruct (_ || _); [apply process_close_segment_spec|].
  destruct (is_initial_tcp_syn_segment segment) eqn:Hsyn; [by apply process_syn_segment_spec|].
  eapply step_bind; [apply establish_on_ack_spec|]. intros established Hest.
  assert (Hunknown : step_spec
    (if should_reset_unknown_tun_tcp_session_segment segment then
       session <-! lookup_flow segment;
       if is_none session then reset_segment segment else sm_ret Step_Noop
     else sm_ret Step_Noop) (step_answers (seg_flow segment))).
  { destruct (should_reset_unknown_tun_tcp_session_segment segment); [|ret_step].
    eapply step_bind; [apply lookup_flow_spec|].
    intros [s|] _; [ret_step|apply reset_segment_spec]. }
  apply process_client_payload_spec. destruct established as [s|]; cbn [is_none]; [ret_step|].
  by apply process_client_ack_spec.
Qed.
End Segment.
End Spec.

(** ** The theorems *)

(** What a receiver reads out of an answer. *)
Definition reads_as_reply (flow : TunPacketFlow) (packet : list Z) : Prop :=
  exists s, parse_tun_tcp_segment packet = Ok s /\ seg_flow s = reply_flow flow.

Lemma answers_read flow packet :
  flow_ok flow -> flow_protocol flow = Proto_Tcp -> answers flow packet ->
  reads_as_reply flow packet.
Proof.
  intros Hf Hp (seq & ack & flags & w & payload & ? & ? & ? & ? & ? & ->). eexists.
  split; [by apply parse_tcp_packet|done].
Qed.

(** C5: processing a segment is safe for every relay and every well-formed
    table. It never panics; on every outcome the table stays well formed (its
    sessions and close markers consistent, pairwise exclusive and within the
    session limit) and no other flow's entry changes; a success emits only TCP
    packets that parse as replies on the segment's own flow; a failure is the
    relay's, the session limit's, or a server payload too large for a packet. *)
Theorem process_segment_safe {R} {Relay : TunTcpSessionRelay R} {Returns : RelayReturns R}
  (segment : TunTcpSegment) (plan : option TunPacketRelayPlan) (isn window : Z)
  (clk : nat -> Z) (r : R) (t : TunTcpSessionTable) :
  segment_ok segment -> is_u32 isn -> is_u16 window -> table_ok t ->
  let '((r', t'), outcome) :=
    process_tun_tcp_session_segment_with_relay_plan segment plan isn window clk (r, t) in
  table_ok t' /\
  (exists key, from_flow (seg_flow segment) = Ok key /\ same_elsewhere key t t') /\
  match outcome with
  | Ok step => Forall (reads_as_reply (seg_flow segment)) (response_packets step)
  | Err (Session_Packet e) => refusal e
  | Err (Session_Relay _) => True
  | Panic => False
  end.
Proof.
  intros Hseg Hisn Hw Ht. destruct (segment_key segment Hseg) as [key Hkey].
  pose proof (process_segment_spec key segment clk Hseg Hkey plan isn window Hisn Hw r t Ht) as Hspec.
  destruct (process_tun_tcp_session_segment_with_relay_plan _ _ _ _ _ _) as [[r' t'] outcome].
  cbn in Hspec. destruct Hspec as (Ht' & Hsame & Hout). split_and!; [done|by exists key|].
  destruct outcome as [step|[]|]; try done. refine (List.Forall_impl _ _ Hout). intros packet.
  apply answers_read; apply Hseg.
Qed.

(** ** Reachable tables *)

(** The life of the endpoint: packets read from the device, parsed and processed
    with any outcome, and prunings with any hash order. *)
Inductive endpoint_step {R} {Relay : TunTcpSessionRelay R}
  : R * TunTcpSessionTable -> R * TunTcpSessionTable -> Prop :=
| endpoint_segment packet segment plan isn window clk r t :
    bytes_ok packet -> parse_tun_tcp_segment packet = Ok segment ->
    is_u32 isn -> is_u16 window ->
    endpoint_step (r, t)
      (fst (process_tun_tcp_session_segment_with_relay_plan segment plan isn window clk (r, t)))
| endpoint_prune order now timeout r t :
    order ≡ₚ (map_to_list (tbl_sessions t)).*1 ->
    endpoint_step (r, t)
      (fst (prune_idle_tun_tcp_sessions (E := TunTcpSessionError) order now timeout (r, t))).

Lemma empty_table_ok n : table_ok (with_max_active_sessions n).
Proof.
  constructor; cbn; try (intros key; rewrite lookup_empty; by intros []); try done.
  - unfold map_len. rewrite map_size_empty. lia.
  - lia.
Qed.

Lemma prune_idle_tun_tcp_sessions_table {R E} {Relay : TunTcpSessionRelay R} order now timeout
  (r : R) t :
  snd (fst (prune_idle_tun_tcp_sessions (E := E) order now timeout (r, t))) =
  fst (prune_idle order now timeout t).
Proof.
  unfold prune_idle_tun_tcp_sessions. destruct (prune_idle order now timeout t) as [t' pruned].
  by destruct (close_pruned_sessions (E := E) pruned 0 None r).
Qed.

Lemma endpoint_step_table_ok {R} {Relay : TunTcpSessionRelay R} {Returns : RelayReturns R}
  (s s' : R * TunTcpSessionTable) :
  endpoint_step s s' -> table_ok (snd s) ->
  table_ok (snd s') /\ tbl_max_active_sessions (snd s') = tbl_max_active_sessions (snd s).
Proof.
  intros Hstep Ht. destruct Hstep as [packet segment plan isn window clk r t Hb Hp Hisn Hw|order now timeout r t Hord].
  - pose proof (returns_Ok _ _ _ (parse_tun_tcp_segment_total packet Hb) Hp) as [Hseg _].
    destruct (segment_key segment Hseg) as [key Hkey].
    destruct (process_segment_spec key segment clk Hseg Hkey plan isn window Hisn Hw r t Ht)
      as (Ht' & [Hmax _] & _). done.
  - rewrite prune_idle_tun_tcp_sessions_table. split; [by apply prune_idle_table_ok|done].
Qed.

(** C6: whatever packets arrive, in whatever order and with whatever the relay
    answers, the session table of an endpoint started with a limit of [n]
    sessions is well formed and never holds more than [n] (at least one) of
    them. *)
Theorem reachable_table_ok {R} {Relay : TunTcpSessionRelay R} {Returns : RelayReturns R}
  (n : Z) (r0 r : R) (t : TunTcpSessionTable) :
  rtc endpoint_step (r0, with_max_active_sessions n) (r, t) ->
  table_ok t /\ table_len t <= Z.max n 1.
Proof.
  intros Hrun.
  enough (Hinv : table_ok t /\ tbl_max_active_sessions t = Z.max n 1).
  { destruct Hinv as [Ht Hmax]. split; [done|]. rewrite <- Hmax. by apply table_ok_limit. }
  change t with (snd (r, t)). remember (r, t) as s eqn:Es. clear Es. revert Hrun.
  apply (rtc_ind_r (fun s => table_ok (snd s) /\ tbl_max_active_sessions (snd s) = Z.max n 1)).
  - split; [apply empty_table_ok|done].
  - intros s1 s2 _ Hstep [Ht Hmax]. destruct (endpoint_step_table_ok s1 s2 Hstep Ht) as [? ->]. done.
Qed.

(** ** A relay that accepts everything *)

(** The relay with all of the trait's default methods. *)
#[export] Instance default_relay : TunTcpSessionRelay unit := {
  establish_session := default_establish_session;
  establish_session_with_plan := default_establish_session_with_plan default_establish_session;
  write_client_payload := default_write_client_payload;
  shutdown_client_write := default_shutdown_client_write default_close_session;
  read_server_event := default_server_event default_read_server_payload;
  poll_server_event := default_server_event default_read_server_payload;
  close_session := default_close_session
}.

#[export] Instance default_relay_returns : RelayReturns unit.
Proof. by constructor. Qed.

Lemma sample_syn_segment_ok : segment_ok sample_syn_segment.
Proof.
  refine (proj1 (returns_Ok _ _ _ (parse_tun_tcp_segment_total sample_syn_packet sample_syn_packet_ok) _)).
  reflexivity.
Qed.

Lemma process_segment_safe_witness :
  let '((r', t'), outcome) :=
    process_tun_tcp_session_segment_with_relay_plan sample_syn_segment None 7000 65535
      (fun _ => 0) (tt, with_max_active_sessions 2) in
  table_ok t' /\ exists step, outcome = Ok step /\ response_packets step <> [].
Proof.
  pose proof (process_segment_safe sample_syn_segment None 7000 65535 (fun _ => 0) tt
    (with_max_active_sessions 2) sample_syn_segment_ok
    ltac:(vm_compute; split; congruence) ltac:(vm_compute; split; congruence)
    (empty_table_ok 2)) as H.
  destruct (process_tun_tcp_session_segment_with_relay_plan _ _ _ _ _ _) as [[r' t'] outcome] eqn:Hrun.
  split; [apply H|]. vm_compute in Hrun. injection Hrun as _ _ <-. eexists. split; [done|done].
Defined.

Lemma reachable_table_ok_witness :
  table_len (snd (fst (process_tun_tcp_session_segment_with_relay_plan sample_syn_segment None
    7000 65535 (fun _ => 0) (tt, with_max_active_sessions 2)))) <= 2.
Proof.
  apply (reachable_table_ok 2 tt tt). eapply rtc_once.
  apply (endpoint_segment sample_syn_packet sample_syn_segment None 7000 65535 (fun _ => 0) tt).
  - exact sample_syn_packet_ok.
  - reflexivity.
  - vm_compute. split; congruence.
  - vm_compute. split; congruence.
Defined.

(** ** Sample sessions

    A SYN numbered just below the wrap-around, and the session it opens. *)

Definition sample_isn : Z := 4294967294.

Definition sample_syn : TunTcpSegment :=
  mkTunTcpSegment sample_flow sample_isn 0 20 (from_bits 2) 65535 [].

Definition sample_clock : nat -> Z := fun _ => 0.

Definition sample_table : TunTcpSessionTable :=
  snd (fst (process_tun_tcp_session_segment (R := unit) sample_syn 7000 65535 sample_clock
              (tt, with_max_active_sessions 2))).

Definition sample_key : TunTcpSessionKey :=
  mkTunTcpSessionKey (V4 168230914) 49152 (V4 1572395042) 443.

Definition sample_session : TunTcpSessionRecord :=
  mkTunTcpSessionRecord sample_key sample_flow sample_isn 4294967295 7000 7001 None 65535
    SynReceived 0.

Lemma bytes_ok_dec l : forallb (fun b => (0 <=? b) && (b <? 256)) l = true -> bytes_ok l.
Proof.
  intros H. apply List.Forall_forall. intros b Hb. rewrite forallb_forall in H.
  specialize (H b Hb). unfold is_u8. lia.
Qed.

Lemma sample_segment_ok flags seq payload :
  0 <= seq < u32_modulus -> forallb (fun b => (0 <=? b) && (b <? 256)) payload = true ->
  len payload <= 65535 -> 0 <= flag_bits flags < 512 ->
  segment_ok (mkTunTcpSegment sample_flow seq 7001 20 flags 65535 payload).
Proof.
  intros Hs Hb Hl Hf. constructor; cbn; try done; try (vm_compute; split; congruence).
  - apply sample_flow_ok.
  - by apply bytes_ok_dec.
Qed.

Lemma sample_syn_ok : segment_ok sample_syn.
Proof.
  constructor; cbn; try done; try (vm_compute; split; congruence).
  - apply sample_flow_ok.
  - apply List.Forall_nil.
Qed.

Lemma sample_table_ok : table_ok sample_table.
Proof.
  refine (proj1 (process_segment_spec sample_key sample_syn sample_clock sample_syn_ok eq_refl
    None 7000 65535 _ _ tt (with_max_active_sessions 2) (empty_table_ok 2)));
    vm_compute; split; congruence.
Qed.

(** The ACK that completes the sample handshake, and the table after it. *)
Definition sample_ack : TunTcpSegment :=
  mkTunTcpSegment sample_flow 4294967295 7001 20 (from_bits 16) 65535 [].

Definition sample_open_table : TunTcpSessionTable :=
  snd (fst (process_tun_tcp_session_segment (R := unit) sample_ack 7000 65535 sample_clock
              (tt, sample_table))).

Lemma sample_ack_ok : segment_ok sample_ack.
Proof. apply sample_segment_ok; vm_compute; try split; congruence. Qed.

Lemma sample_open_table_ok : table_ok sample_open_table.
Proof.
  refine (proj1 (process_segment_spec sample_key sample_ack sample_clock sample_ack_ok eq_refl
    None 7000 65535 _ _ tt sample_table sample_table_ok)); vm_compute; split; congruence.
Qed.

Definition sample_established : TunTcpSessionRecord :=
  mkTunTcpSessionRecord sample_key sample_flow sample_isn 4294967295 7000 7001 None 65535
    Established 0.
