(* ===== verification/TunProcessSpec.v ===== *)
(** * Behaviour of segment processing

    Which answer a segment gets: resets for segments of no session, silence for
    resets, the three-way handshake, the session limit, retransmission of the
    server's payload. *)

From stdpp Require Import base gmap strings list numbers.
From S2P Require Import Prelude.
From S2P Require Import StdNet.
From S2P Require Import Dns.
From S2P Require Import TunPacket.
From S2P Require Import TunPacketBuild.
From S2P Require Import TunPlan.
From S2P Require Import TunSession.
From S2P Require Import TunSessionInv.
From S2P Require Import TunProcess.
From S2P Require Import TunProcessInv.
#[local] Open Scope Z_scope.

(** ** Methods that do not apply *)

(** The method finds nothing to do and leaves the table alone. *)
Definition skips {A} (m : TableM (option A)) (t : TunTcpSessionTable) : Prop :=
  m t = (t, Ok None).

Section Skips.
Context {R : Type} (r : R) (t : TunTcpSessionTable).

Lemma try_skip {A} (m : TableM (option A)) some none :
  skips m t -> try_step (R := R) (on_table m) some none (r, t) = none (r, t).
Proof. intros Hm. unfold try_step, on_table, sm_bind, sm_zoom. cbn. by rewrite Hm. Qed.

Lemma try_hit {A} (m : TableM (option A)) some none t' a :
  m t = (t', Ok (Some a)) -> try_step (R := R) (on_table m) some none (r, t) = some a (r, t').
Proof. intros Hm. unfold try_step, on_table, sm_bind, sm_zoom. cbn. by rewrite Hm. Qed.

Lemma on_table_ok {A B} (m : TableM A) (k : A -> PM (R := R) B) t' a :
  m t = (t', Ok a) -> sm_bind (on_table m) k (r, t) = k a (r, t').
Proof. intros Hm. unfold on_table, sm_bind, sm_zoom. cbn. by rewrite Hm. Qed.

Lemma on_relay_ok {A B} (m : RelayM R A) (k : A -> PM (R := R) B) r' a :
  m r = (r', Ok a) -> sm_bind (on_relay m) k (r, t) = k a (r', t).
Proof. intros Hm. unfold on_relay, sm_bind, sm_zoom. cbn. by rewrite Hm. Qed.
End Skips.

(** No session, or no marker, under the key. *)
Ltac skip_op op Hkey Hnone :=
  unfold skips, op; run_monad; rewrite ?Hkey; run_monad; rewrite ?Hnone; run_monad;
  repeat match goal with |- context [if ?c then _ else _] => destruct c; run_monad end;
  rewrite ?Hkey; run_monad; rewrite ?Hnone; run_monad; reflexivity.

Section Absent.
Context (segment : TunTcpSegment) (key : TunTcpSessionKey) (t : TunTcpSessionTable) (now : Z).
Context (Hkey : from_flow (seg_flow segment) = Ok key).

Section NoSession.
Context (Hnone : tbl_sessions t !! key = None).

Lemma skip_retransmitted_syn : skips (acknowledge_retransmitted_syn segment now) t.
Proof. skip_op acknowledge_retransmitted_syn Hkey Hnone. Qed.
Lemma skip_apply_ack : skips (apply_ack segment now) t.
Proof. skip_op apply_ack Hkey Hnone. Qed.
Lemma skip_client_payload : skips (accept_client_payload segment now) t.
Proof. skip_op accept_client_payload Hkey Hnone. Qed.
Lemma skip_overlapping : skips (accept_overlapping_client_payload segment now) t.
Proof. skip_op accept_overlapping_client_payload Hkey Hnone. Qed.
Lemma skip_duplicate : skips (acknowledge_duplicate_client_payload segment now) t.
Proof. skip_op acknowledge_duplicate_client_payload Hkey Hnone. Qed.
Lemma skip_out_of_order : skips (acknowledge_out_of_order_client_payload segment now) t.
Proof. skip_op acknowledge_out_of_order_client_payload Hkey Hnone. Qed.
Lemma skip_retransmit : skips (retransmit_server_payload segment now) t.
Proof. skip_op retransmit_server_payload Hkey Hnone. Qed.
Lemma skip_retransmit_fin : skips (retransmit_server_payload_for_duplicate_client_fin segment now) t.
Proof. skip_op retransmit_server_payload_for_duplicate_client_fin Hkey Hnone. Qed.
Lemma skip_poll : skips (server_payload_poll_session segment now) t.
Proof. skip_op server_payload_poll_session Hkey Hnone. Qed.
Lemma skip_client_ack : skips (acknowledge_client_ack segment now) t.
Proof. skip_op acknowledge_client_ack Hkey Hnone. Qed.
Lemma skip_duplicate_fin : skips (acknowledge_duplicate_client_fin segment now) t.
Proof. skip_op acknowledge_duplicate_client_fin Hkey Hnone. Qed.
Lemma skip_client_fin : skips (acknowledge_client_fin segment now) t.
Proof. skip_op acknowledge_client_fin Hkey Hnone. Qed.
Lemma skip_fin_payload : skips (accept_client_fin_with_payload segment now) t.
Proof. skip_op accept_client_fin_with_payload Hkey Hnone. Qed.
Lemma skip_remove_on_close : skips (remove_on_close segment now) t.
Proof. skip_op remove_on_close Hkey Hnone. Qed.
End NoSession.

Section NoClosed.
Context (Hnone : tbl_server_closed_sessions t !! key = None).

Lemma skip_retransmit_close : skips (retransmit_server_close segment now) t.
Proof. skip_op retransmit_server_close Hkey Hnone. Qed.
Lemma skip_retransmit_close_fin :
  skips (retransmit_server_close_for_duplicate_client_fin segment now) t.
Proof. skip_op retransmit_server_close_for_duplicate_client_fin Hkey Hnone. Qed.
Lemma skip_server_close : skips (acknowledge_server_close segment now) t.
Proof. skip_op acknowledge_server_close Hkey Hnone. Qed.
Lemma skip_server_close_fin : skips (acknowledge_server_close_with_client_fin segment now) t.
Proof. skip_op acknowledge_server_close_with_client_fin Hkey Hnone. Qed.
End NoClosed.

Section NoPost.
Context (Hnone : tbl_post_closed_sessions t !! key = None).

Lemma skip_post_ack : skips (acknowledge_post_close_ack segment now) t.
Proof. skip_op acknowledge_post_close_ack Hkey Hnone. Qed.
Lemma skip_post_fin : skips (acknowledge_post_close_client_fin segment now) t.
Proof. skip_op acknowledge_post_close_client_fin Hkey Hnone. Qed.
End NoPost.
End Absent.

#[export] Hint Resolve skip_retransmitted_syn skip_apply_ack skip_client_payload skip_overlapping
  skip_duplicate skip_out_of_order skip_retransmit skip_retransmit_fin skip_poll skip_client_ack
  skip_duplicate_fin skip_client_fin skip_fin_payload skip_remove_on_close skip_retransmit_close
  skip_retransmit_close_fin skip_server_close skip_server_close_fin skip_post_ack skip_post_fin
  : keli.

(** ** Segments of no session *)

(** The tables hold nothing under the key. *)
Definition unknown_key (t : TunTcpSessionTable) (key : TunTcpSessionKey) : Prop :=
  tbl_sessions t !! key = None /\ tbl_server_closed_sessions t !! key = None /\
  tbl_post_closed_sessions t !! key = None.

(** The reset of RFC 793 for a segment of no connection: it takes its sequence
    number from the segment's acknowledgment, if it has one, and acknowledges
    everything the segment occupies. *)
Definition reset_for (segment : TunTcpSegment) : TunTcpSegment :=
  mkTunTcpSegment (reply_flow (seg_flow segment))
    (if flag_ack (seg_flags segment) then seg_acknowledgment_number segment else 0)
    (tcp_segment_next_sequence_number segment) 20 (from_bits 20) 0 [].

Section Unknown.
Context {R : Type} {Relay : TunTcpSessionRelay R} (r : R) (t : TunTcpSessionTable).
Context (segment : TunTcpSegment) (key : TunTcpSessionKey).
Context (Hseg : segment_ok segment) (Hkey : from_flow (seg_flow segment) = Ok key).

(** [step] answers the segment with its reset. *)
Definition resets (step : TunTcpSessionStep) : Prop :=
  exists packet, response_packets step = [packet] /\
                 parse_tun_tcp_segment packet = Ok (reset_for segment).

Lemma reset_segment_run :
  exists step, reset_segment (R := R) segment (r, t) = ((r, t), Ok step) /\ resets step.
Proof.
  unfold reset_segment, on_table, sm_zoom, sm_bind, sm_lift,
    build_tun_tcp_session_reset_frame, build_tun_tcp_reset_response_packet.
  rewrite build_tcp_response_cases by apply Hseg.
  pose proof (len_nil_fits (A := Z) (flow_ip_version (seg_flow segment))) as Hfit.
  replace (_ <=? _) with true by lia. eexists. split; [reflexivity|].
  eexists. split; [reflexivity|]. cbn [rst_packet]. unfold reset_for, tcp_reset_sequence_number.
  destruct (flag_ack (seg_flags segment)); apply parse_tcp_packet; try apply Hseg;
    auto with keli; try (vm_compute; split; congruence); apply segment_next_u32.
Qed.

Lemma lookup_flow_run {B} (k : option TunTcpSessionRecord -> PM (R := R) B) :
  sm_bind (lookup_flow segment) k (r, t) = k (tbl_sessions t !! key) (r, t).
Proof.
  unfold lookup_flow, on_table, sm_bind, sm_zoom. cbn. unfold get_flow. by rewrite Hkey.
Qed.

Lemma unknown_fin clk :
  unknown_key t key -> flag_rst (seg_flags segment) = false ->
  flag_fin (seg_flags segment) = true ->
  process_close_segment segment clk (r, t) = reset_segment segment (r, t).
Proof.
  intros (H1 & H2 & H3) Hrst Hfin. unfold process_close_segment. rewrite Hrst, Hfin. cbn zeta.
  cbn [negb andb]. unfold process_fin_with_payload, process_fin_without_payload,
    process_fin_on_markers, table_method.
  destruct (is_empty (seg_payload segment)); cbn [negb];
    do 7 (rewrite try_skip by eauto with keli);
    rewrite lookup_flow_run, H1; reflexivity.
Qed.

Lemma unknown_other plan isn window clk :
  unknown_key t key -> flag_rst (seg_flags segment) = false ->
  flag_fin (seg_flags segment) = false -> is_initial_tcp_syn_segment segment = false ->
  should_reset_unknown_tun_tcp_session_segment segment = true ->
  process_tun_tcp_session_segment_with_relay_plan segment plan isn window clk (r, t) =
  reset_segment segment (r, t).
Proof.
  intros (H1 & H2 & H3) Hrst Hfin Hsyn Hreset.
  unfold process_tun_tcp_session_segment_with_relay_plan, process_client_payload,
    process_client_ack, table_method, establish_on_ack.
  rewrite Hrst, Hfin, Hsyn, Hreset. cbn [orb].
  unfold sm_bind at 1.
  replace ((if flag_ack (seg_flags segment) && negb (flag_syn (seg_flags segment))
            then _ else _) (r, t)) with (r, t, @Ok TunTcpSessionError (option TunTcpSessionRecord) None).
  2:{ destruct (_ && _); [|done]. unfold table_method. erewrite on_table_ok; [|by eapply skip_apply_ack]. done. }
  cbn zeta. cbn [is_none]. do 10 (rewrite try_skip by eauto with keli).
  rewrite lookup_flow_run, H1. reflexivity.
Qed.
End Unknown.

(** A segment of a flow the endpoint knows nothing about (no session, no
    close marker) that is neither a connection request nor a reset is answered
    with exactly the reset RFC 793 prescribes, and changes nothing: neither the
    table nor the relay. *)
Theorem unknown_segment_reset {R} {Relay : TunTcpSessionRelay R} (r : R) t segment key plan isn
  window clk :
  segment_ok segment -> from_flow (seg_flow segment) = Ok key -> unknown_key t key ->
  is_initial_tcp_syn_segment segment = false ->
  should_reset_unknown_tun_tcp_session_segment segment = true ->
  exists step,
    process_tun_tcp_session_segment_with_relay_plan segment plan isn window clk (r, t) =
      ((r, t), Ok step) /\
    exists packet, response_packets step = [packet] /\
      parse_tun_tcp_segment packet = Ok (reset_for segment).
Proof.
  intros Hseg Hkey Hun Hsyn Hreset.
  assert (Hrst : flag_rst (seg_flags segment) = false)
    by (unfold should_reset_unknown_tun_tcp_session_segment in Hreset; by destruct (flag_rst _)).
  destruct (reset_segment_run r t segment Hseg) as (step & Hrun & Hres). exists step. split; [|done].
  rewrite <- Hrun. destruct (flag_fin (seg_flags segment)) eqn:Hfin.
  - unfold process_tun_tcp_session_segment_with_relay_plan. rewrite Hrst, Hfin. cbn [orb].
    by eapply unknown_fin.
  - by eapply unknown_other.
Qed.

(** ** Resets are not answered *)

(** Every result of a computation satisfies [Q]. *)
Definition yields {S E A} (m : SM S E A) (Q : A -> Prop) : Prop :=
  forall s a, snd (m s) = Ok a -> Q a.

Lemma yields_ret {S E A} (a : A) (Q : A -> Prop) : Q a -> yields (@sm_ret S E A a) Q.
Proof. intros HQ s b [= <-]. done. Qed.

Lemma yields_bind {S E A B} (m : SM S E A) (k : A -> SM S E B) P Q :
  yields m P -> (forall a, P a -> yields (k a) Q) -> yields (sm_bind m k) Q.
Proof.
  intros Hm Hk s b. unfold sm_bind. pose proof (Hm s) as Hs.
  destruct (m s) as [s' [a|e|]]; cbn in *; [|done..]. intros Hb. by apply (Hk a (Hs a eq_refl) s').
Qed.

Lemma yields_any {S E A} (m : SM S E A) : yields m (fun _ => True).
Proof. done. Qed.

Lemma yields_zoom {S T E F A} (get : S -> T) put (f : E -> F) (m : SM T E A) Q :
  yields m Q -> yields (sm_zoom get put f m) Q.
Proof.
  intros Hm s a. unfold sm_zoom. pose proof (Hm (get s)) as Hs.
  destruct (m (get s)) as [t' [b|e|]]; cbn in *; [|done..]. intros [= ->]. by apply Hs.
Qed.

Lemma yields_try {R A} (m : PM (R := R) (option A)) some none P Q :
  yields m (fun o => match o with Some a => P a | None => True end) ->
  (forall a, P a -> yields (some a) Q) -> yields none Q -> yields (try_step m some none) Q.
Proof. intros Hm Hs Hn. eapply yields_bind; [exact Hm|]. intros [a|] Ha; auto. Qed.

Lemma remove_on_close_rst segment now :
  flag_rst (seg_flags segment) = true ->
  yields (remove_on_close segment now)
    (fun o => match o with Some (_, response) => response = None | None => True end).
Proof.
  intros Hrst t o. unfold remove_on_close. rewrite Hrst. cbn [orb negb]. rewrite andb_false_r.
  run_monad. destruct (from_flow (seg_flow segment)); run_monad; [|done..].
  destruct (tbl_sessions t !! _); run_monad; [|by intros [= <-]].
  destruct (negb _); run_monad; by intros [= <-].
Qed.

(** A reset is never answered with a packet: whatever the tables hold, a
    segment with RST set makes the endpoint emit nothing. *)
Theorem rst_never_answered {R} {Relay : TunTcpSessionRelay R} (s : R * TunTcpSessionTable) segment
  plan isn window clk step :
  flag_rst (seg_flags segment) = true ->
  snd (process_tun_tcp_session_segment_with_relay_plan segment plan isn window clk s) = Ok step ->
  response_packets step = [].
Proof.
  intros Hrst. apply (fun H => H : yields _ (fun step => response_packets step = [])).
  unfold process_tun_tcp_session_segment_with_relay_plan, process_close_segment.
  rewrite Hrst. cbn [orb negb]. rewrite andb_false_r. cbn [andb].
  eapply (yields_try _ _ _ (fun p => snd p = None)).
  - apply yields_zoom. intros t o Ho. pose proof (remove_on_close_rst segment (clk 3%nat) Hrst t o Ho).
    by destruct o as [[]|].
  - intros [session response] Hr. cbn in Hr. subst response.
    eapply yields_bind; [apply yields_any|]. intros _ _. by apply yields_ret.
  - unfold process_rst_on_markers. repeat (eapply (yields_try _ _ _ (fun _ => True));
      [by intros ? [] | intros ? _; by apply yields_ret|]). by apply yields_ret.
Qed.

(** ** Guards that decide a method *)

Section Guards.
Context (segment : TunTcpSegment) (key : TunTcpSessionKey) (t : TunTcpSessionTable) (now : Z).
Context (Hkey : from_flow (seg_flow segment) = Ok key).

(** Without payload the four payload methods do nothing. *)
Ltac skip_empty op Hempty :=
  unfold skips, op; run_monad; rewrite Hkey; run_monad;
  destruct (tbl_sessions t !! key); run_monad; [|reflexivity];
  rewrite Hempty; cbn [is_empty]; rewrite ?orb_true_r, ?orb_true_l; reflexivity.

Lemma empty_client_payload : seg_payload segment = [] -> skips (accept_client_payload segment now) t.
Proof. intros He. skip_empty accept_client_payload He. Qed.
Lemma empty_overlapping :
  seg_payload segment = [] -> skips (accept_overlapping_client_payload segment now) t.
Proof. intros He. skip_empty accept_overlapping_client_payload He. Qed.
Lemma empty_duplicate :
  seg_payload segment = [] -> skips (acknowledge_duplicate_client_payload segment now) t.
Proof. intros He. skip_empty acknowledge_duplicate_client_payload He. Qed.
Lemma empty_out_of_order :
  seg_payload segment = [] -> skips (acknowledge_out_of_order_client_payload segment now) t.
Proof. intros He. skip_empty acknowledge_out_of_order_client_payload He. Qed.

(** A session that is past its handshake is not established again. *)
Lemma established_apply_ack s :
  tbl_sessions t !! key = Some s ->
  tun_tcp_phase_accepts_server_response (ses_phase s) = true ->
  skips (apply_ack segment now) t.
Proof.
  intros Hs Hp. unfold skips, apply_ack. run_monad. rewrite Hkey. run_monad. rewrite Hs. run_monad.
  by destruct (ses_phase s).
Qed.
End Guards.

#[export] Hint Resolve empty_client_payload empty_overlapping empty_duplicate empty_out_of_order
  : keli.

(** A segment that is neither RST, FIN nor SYN, past the handshake's ACK. *)
Lemma process_other_run {R} {Relay : TunTcpSessionRelay R} segment plan isn window clk (r : R) t :
  flag_rst (seg_flags segment) = false -> flag_fin (seg_flags segment) = false ->
  flag_syn (seg_flags segment) = false ->
  process_tun_tcp_session_segment_with_relay_plan segment plan isn window clk (r, t) =
  match establish_on_ack segment plan clk (r, t) with
  | (s, Ok established) =>
      let on_established :=
        match established with
        | Some session => sm_ret (Step_Established session)
        | None =>
            if should_reset_unknown_tun_tcp_session_segment segment then
              session <-! lookup_flow segment;
              if is_none session then reset_segment segment else sm_ret Step_Noop
            else sm_ret Step_Noop
        end in
      process_client_payload segment clk
        (if is_none established then process_client_ack segment clk on_established
         else on_established) s
  | (s, Err e) => (s, Err e)
  | (s, Panic) => (s, Panic)
  end.
Proof.
  intros Fr Ff Fs. unfold process_tun_tcp_session_segment_with_relay_plan,
    is_initial_tcp_syn_segment. by rewrite Fr, Ff, Fs.
Qed.

(** ** Opening a session *)

(** The session a SYN opens. *)
Definition opened_session (key : TunTcpSessionKey) (syn : TunTcpSegment) (isn window now : Z)
  : TunTcpSessionRecord :=
  mkTunTcpSessionRecord key (seg_flow syn) (seg_sequence_number syn)
    (tcp_segment_next_sequence_number syn) isn (wrapping_add32 isn 1) None window SynReceived now.

Section Open.
Context {R : Type} {Relay : TunTcpSessionRelay R} (r : R) (t : TunTcpSessionTable).
Context (syn : TunTcpSegment) (key : TunTcpSessionKey) (isn window : Z) (clk : nat -> Z).
Context (plan : option TunPacketRelayPlan).
Context (Hseg : segment_ok syn) (Hkey : from_flow (seg_flow syn) = Ok key).
Context (Hsyn : is_initial_tcp_syn_segment syn = true).
Context (Hfin : flag_fin (seg_flags syn) = false).
Context (Hnone : tbl_sessions t !! key = None).

Lemma syn_run :
  process_tun_tcp_session_segment_with_relay_plan syn plan isn window clk (r, t) =
  (response <-! on_table (start_from_syn syn isn window (clk 8%nat));
   sm_ret (Step_SynAck response)) (r, t).
Proof.
  unfold process_tun_tcp_session_segment_with_relay_plan, process_syn_segment, table_method.
  assert (Hrst : flag_rst (seg_flags syn) = false)
    by (unfold is_initial_tcp_syn_segment in Hsyn; bools; done).
  rewrite Hrst, Hfin, Hsyn. cbn [orb]. rewrite try_skip by eauto with keli.
  by rewrite (lookup_flow_run r t syn key Hkey), Hnone.
Qed.

Lemma start_run now :
  map_len (tbl_sessions t) < tbl_max_active_sessions t ->
  exists t',
    start_from_syn syn isn window now t =
      (t', Ok (mkTunTcpSynAckResponse (opened_session key syn isn window now)
                 (tcp_packet (seg_flow syn) isn (tcp_segment_next_sequence_number syn)
                    (from_bits 18) window []))) /\
    tbl_sessions t' = <[key := opened_session key syn isn window now]> (tbl_sessions t).
Proof.
  intros Hroom. unfold start_from_syn. rewrite Hsyn. cbn [negb].
  run_monad. rewrite Hkey. run_monad. rewrite Hnone. cbn [is_none andb].
  replace (_ <=? _) with false by lia. run_monad.
  unfold build_tun_tcp_syn_ack_response_packet. rewrite Hsyn. cbn [negb].
  rewrite build_tcp_response_cases by apply Hseg.
  replace (_ <=? _) with true
    by (pose proof (len_nil_fits (A := Z) (flow_ip_version (seg_flow syn))); lia).
  eexists. split; [reflexivity|done].
Qed.

Lemma open_run :
  map_len (tbl_sessions t) < tbl_max_active_sessions t ->
  exists packet t',
    process_tun_tcp_session_segment_with_relay_plan syn plan isn window clk (r, t) =
      ((r, t'), Ok (Step_SynAck
         (mkTunTcpSynAckResponse (opened_session key syn isn window (clk 8%nat)) packet))) /\
    packet = tcp_packet (seg_flow syn) isn (tcp_segment_next_sequence_number syn) (from_bits 18)
               window [] /\
    tbl_sessions t' = <[key := opened_session key syn isn window (clk 8%nat)]> (tbl_sessions t).
Proof.
  intros Hroom. rewrite syn_run.
  destruct (start_run (clk 8%nat) Hroom) as (t' & Hstart & Ht').
  erewrite on_table_ok by exact Hstart. do 2 eexists. split; [reflexivity|]. done.
Qed.
End Open.

(** The relay call that connects a session. *)
Definition establish {R} {Relay : TunTcpSessionRelay R} (plan : option TunPacketRelayPlan)
  (s : TunTcpSessionRecord) : RelayM R unit :=
  match plan with
  | Some plan => establish_session_with_plan s plan
  | None => establish_session s
  end.

(** A bare ACK of the handshake. *)
Record completes (syn ack : TunTcpSegment) (isn : Z) : Prop := mk_completes {
  completes_flow : seg_flow ack = seg_flow syn;
  completes_flags : is_pure_ack ack = true;
  completes_seq : seg_sequence_number ack = tcp_segment_next_sequence_number syn;
  completes_ack : seg_acknowledgment_number ack = wrapping_add32 isn 1
}.

Lemma pure_ack_flags segment :
  is_pure_ack segment = true ->
  flag_ack (seg_flags segment) = true /\ flag_syn (seg_flags segment) = false /\
  flag_rst (seg_flags segment) = false /\ flag_fin (seg_flags segment) = false /\
  seg_payload segment = [].
Proof. unfold is_pure_ack. intros H. bools. split_and!; try done. by apply is_empty_spec. Qed.

(** The three-way handshake. A SYN of a flow without a session, while the
    limit leaves room, is answered by one SYN-ACK that carries the server's
    initial number and acknowledges the SYN; the client's ACK then makes the
    relay connect, once, and leaves an established session with both cursors
    behind the SYNs. The relay is not called before the ACK. *)
Theorem three_way_handshake {R} {Relay : TunTcpSessionRelay R} (r r' : R) t syn ack key isn window
  clk clk' plan :
  segment_ok syn -> from_flow (seg_flow syn) = Ok key ->
  is_initial_tcp_syn_segment syn = true -> flag_fin (seg_flags syn) = false ->
  is_u32 isn -> is_u16 window ->
  tbl_sessions t !! key = None -> table_len t < tbl_max_active_sessions t ->
  completes syn ack isn ->
  let s := opened_session key syn isn window (clk 8%nat) in
  let s' := s <| ses_phase := Established |> <| ses_last_activity_at := clk' 9%nat |> in
  establish plan s' r = (r', Ok tt) ->
  exists packet t1 t2,
    process_tun_tcp_session_segment_with_relay_plan syn plan isn window clk (r, t) =
      ((r, t1), Ok (Step_SynAck (mkTunTcpSynAckResponse s packet))) /\
    parse_tun_tcp_segment packet =
      Ok (mkTunTcpSegment (reply_flow (seg_flow syn)) isn (tcp_segment_next_sequence_number syn)
            20 (from_bits 18) window []) /\
    process_tun_tcp_session_segment_with_relay_plan ack plan isn window clk' (r, t1) =
      ((r', t2), Ok (Step_Established s')) /\
    tbl_sessions t2 = <[key := s']> (tbl_sessions t).
Proof.
  intros Hseg Hkey Hsyn Hfin Hisn Hw Hnone Hroom [Hf Hflags Hs Ha] s s' Hest.
  destruct (open_run r t syn key isn window clk plan Hseg Hkey Hsyn Hfin Hnone Hroom)
    as (packet & t1 & Hrun & -> & Ht1). fold s in Hrun, Ht1.
  destruct (pure_ack_flags ack Hflags) as (Fa & Fs & Fr & Ff & Fp).
  assert (Hkey' : from_flow (seg_flow ack) = Ok key) by (by rewrite Hf).
  eexists _, t1, (t1 <| tbl_sessions := <[key := s']> (tbl_sessions t1) |>).
  split; [exact Hrun|]. split.
  { apply parse_tcp_packet; try apply Hseg; auto with keli. }
  split; [|cbn; by rewrite Ht1, insert_insert_eq].
  assert (Hack : apply_ack ack (clk' 9%nat) t1 =
    (t1 <| tbl_sessions := <[key := s']> (tbl_sessions t1) |>, Ok (Some s'))).
  { unfold apply_ack. run_monad. rewrite Hkey'. run_monad.
    assert (Hlook : tbl_sessions t1 !! key = Some s) by (by rewrite Ht1, lookup_insert_eq).
    rewrite Hlook.
    rewrite Fa, Fs, Fr, Hs, Ha.
    change (is_phase (ses_phase s) SynReceived) with true.
    change (ses_client_next_sequence_number s) with (tcp_segment_next_sequence_number syn).
    change (ses_server_next_sequence_number s) with (wrapping_add32 isn 1).
    by rewrite !Z.eqb_refl. }
  assert (Hest' : establish_on_ack ack plan clk' (r, t1) =
    ((r', t1 <| tbl_sessions := <[key := s']> (tbl_sessions t1) |>), Ok (Some s'))).
  { unfold establish_on_ack, table_method. rewrite Fa, Fs. cbn [andb negb].
    erewrite on_table_ok by exact Hack. cbn beta iota.
    erewrite on_relay_ok by exact Hest. done. }
  rewrite (process_other_run ack plan isn window clk' r t1 Fr Ff Fs), Hest'. cbn beta iota zeta.
  unfold process_client_payload, table_method. cbn [is_none].
  do 4 (rewrite try_skip by eauto with keli). done.
Qed.

(** The session limit. A SYN of a new flow that finds the table full is
    refused with the limit's error, and neither the table nor the relay
    changes: no session is evicted or half-opened. *)
Theorem syn_over_limit_refused {R} {Relay : TunTcpSessionRelay R} (r : R) t syn key plan isn window
  clk :
  from_flow (seg_flow syn) = Ok key ->
  is_initial_tcp_syn_segment syn = true -> flag_fin (seg_flags syn) = false ->
  tbl_sessions t !! key = None -> tbl_max_active_sessions t <= table_len t ->
  process_tun_tcp_session_segment_with_relay_plan syn plan isn window clk (r, t) =
    ((r, t), Err (Session_Packet
                    (TcpSessionLimitExceeded (table_len t) (tbl_max_active_sessions t)))).
Proof.
  intros Hkey Hsyn Hfin Hnone Hfull. rewrite (syn_run r t syn key isn window clk plan) by done.
  unfold start_from_syn. rewrite Hsyn. cbn [negb]. unfold sm_bind at 1, on_table, sm_zoom. cbn [snd].
  unfold sm_bind, sm_lift, sm_get. rewrite Hkey, Hnone. cbn [is_none andb].
  unfold table_len in *. by replace (_ <=? _) with true by lia.
Qed.

(** ** Data on an established session *)

Section Established.
Context {R : Type} {Relay : TunTcpSessionRelay R} (r : R) (t : TunTcpSessionTable).
Context (segment : TunTcpSegment) (key : TunTcpSessionKey) (s : TunTcpSessionRecord).
Context (plan : option TunPacketRelayPlan) (isn window : Z) (clk : nat -> Z).
Context (Hkey : from_flow (seg_flow segment) = Ok key).
Context (Hs : tbl_sessions t !! key = Some s).

Lemma quiet_establish :
  tun_tcp_phase_accepts_server_response (ses_phase s) = true ->
  establish_on_ack segment plan clk (r, t) = ((r, t), Ok None).
Proof.
  intros Hp. unfold establish_on_ack, table_method. destruct (_ && _); [|done].
  erewrite on_table_ok by (by eapply established_apply_ack). done.
Qed.

(** The session after the segment's payload. *)
Definition after_payload (now : Z) : TunTcpSessionRecord :=
  (clear_server_unacked_payload_if_latest_acknowledged segment s)
    <| ses_client_next_sequence_number := tcp_segment_next_sequence_number segment |>
    <| ses_last_activity_at := now |>.

(** A data segment at the cursor that acknowledges something the server sent. *)
Record in_order : Prop := mk_in_order {
  in_order_phase : ses_phase s = Established;
  in_order_ack : flag_ack (seg_flags segment) = true;
  in_order_syn : flag_syn (seg_flags segment) = false;
  in_order_rst : flag_rst (seg_flags segment) = false;
  in_order_fin : flag_fin (seg_flags segment) = false;
  in_order_payload : seg_payload segment <> [];
  in_order_seq : seg_sequence_number segment = ses_client_next_sequence_number s;
  in_order_known : tcp_segment_acknowledges_known_server_sequence segment s = true
}.

(** The frame the relay gets, and the table that has accepted it. *)
Definition payload_frame (now : Z) : TunTcpClientPayloadFrame :=
  mkTunTcpClientPayloadFrame (after_payload now) (seg_sequence_number segment)
    (tcp_segment_next_sequence_number segment) (seg_payload segment)
    (tcp_packet (ses_flow s) (ses_server_next_sequence_number s)
       (tcp_segment_next_sequence_number segment) (from_bits 16) (ses_window_size s) []).

Definition accepted_table (now : Z) : TunTcpSessionTable :=
  t <| tbl_sessions := <[key := after_payload now]> (tbl_sessions t) |>.

Lemma clear_other s0 :
  let c := clear_server_unacked_payload_if_latest_acknowledged segment s0 in
  ses_flow c = ses_flow s0 /\ ses_window_size c = ses_window_size s0 /\
  ses_server_next_sequence_number c = ses_server_next_sequence_number s0.
Proof. unfold clear_server_unacked_payload_if_latest_acknowledged. by destruct (_ =? _). Qed.

Lemma accept_run now :
  table_ok t -> in_order ->
  accept_client_payload segment now t = (accepted_table now, Ok (Some (payload_frame now))).
Proof.
  intros Ht [Hp Fa Fs Fr Ff Hne Hseq Hkn].
  pose proof (table_ok_sessions t Ht key s Hs) as Hok.
  unfold accept_client_payload. run_monad. rewrite Hkey. run_monad. rewrite Hs.
  assert (He : is_empty (seg_payload segment) = false) by (by destruct (seg_payload segment)).
  rewrite Hp, He, Fa, Fs, Fr, Hseq, Z.eqb_refl, Hkn.
  change (is_phase Established Established) with true. cbn [negb orb]. run_monad.
  destruct (clear_other s) as (E1 & E2 & E3).
  unfold build_session_ack, build_tun_tcp_ack_response_packet.
  erewrite (build_session_packet key) by (auto with keli). run_monad.
  unfold payload_frame, after_payload, accepted_table. cbn. by rewrite E1, E2, E3, Hseq.
Qed.

Lemma payload_run :
  table_ok t -> in_order ->
  process_tun_tcp_session_segment_with_relay_plan segment plan isn window clk (r, t) =
  (do! on_relay (write_client_payload (payload_frame (clk 10%nat)));
   '(sr, sc) <-! read_tun_tcp_server_event (after_payload (clk 10%nat)) clk;
   sm_ret (Step_ClientPayload (payload_frame (clk 10%nat)) sr sc))
  (r, accepted_table (clk 10%nat)).
Proof.
  intros Ht Hin. pose proof Hin as [Hp Fa Fs Fr Ff Hne Hseq Hkn].
  rewrite process_other_run by done. rewrite quiet_establish by (by rewrite Hp).
  cbn zeta iota. unfold process_client_payload, table_method.
  erewrite try_hit by (by apply accept_run). done.
Qed.
End Established.

(** In-order data goes through. On an established session, a data segment
    at the cursor (which acknowledges something the server sent) is handed to the
    relay whole, once; if the relay takes it and has nothing to say, the answer is
    one ACK for exactly the bytes up to the segment's end, and the session's
    cursor is there. *)
Theorem in_order_payload_delivered {R} {Relay : TunTcpSessionRelay R} (r r1 r2 : R) t segment key s
  plan isn window clk :
  table_ok t -> segment_ok segment -> from_flow (seg_flow segment) = Ok key ->
  tbl_sessions t !! key = Some s -> in_order segment s ->
  let frame := payload_frame segment s (clk 10%nat) in
  write_client_payload frame r = (r1, Ok tt) ->
  read_server_event (cpf_session frame) r1 = (r2, Ok NoPayload) ->
  exists t',
    process_tun_tcp_session_segment_with_relay_plan segment plan isn window clk (r, t) =
      ((r2, t'), Ok (Step_ClientPayload frame None None)) /\
    cpf_payload frame = seg_payload segment /\
    parse_tun_tcp_segment (cpf_ack_packet frame) =
      Ok (mkTunTcpSegment (reply_flow (seg_flow segment)) (ses_server_next_sequence_number s)
            (tcp_segment_next_sequence_number segment) 20 (from_bits 16) (ses_window_size s) []) /\
    exists s', tbl_sessions t' !! key = Some s' /\ ses_phase s' = Established /\
      ses_client_next_sequence_number s' = tcp_segment_next_sequence_number segment.
Proof.
  intros Ht Hseg Hkey Hs Hin frame Hw Hr.
  pose proof (table_ok_sessions t Ht key s Hs) as Hok.
  exists (accepted_table t segment key s (clk 10%nat)). split_and!.
  - rewrite (payload_run r t segment key s) by done.
    erewrite on_relay_ok by exact Hw. unfold read_tun_tcp_server_event, sm_bind at 1.
    erewrite on_relay_ok by exact Hr. done.
  - done.
  - cbn [frame cpf_ack_packet payload_frame]. rewrite (session_flow key segment Hseg Hkey s Hok).
    apply parse_tcp_packet; try apply Hseg; eauto with keli.
  - eexists. split; [cbn; apply lookup_insert_eq|]. split; [|done].
    pose proof (in_order_phase _ _ Hin). cbn.
    unfold clear_server_unacked_payload_if_latest_acknowledged. by destruct (_ =? _).
Qed.

(** A lost server payload is repeated. While a payload of the server waits
    for its acknowledgment, a bare ACK at its start makes the endpoint send the
    same bytes at the same sequence number again, without asking the relay; the
    session's cursors stay where they are. *)
Theorem server_payload_retransmitted {R} {Relay : TunTcpSessionRelay R} (r : R) t segment key s u
  plan isn window clk :
  table_ok t -> segment_ok segment -> from_flow (seg_flow segment) = Ok key ->
  tbl_sessions t !! key = Some s -> ses_server_unacked_payload s = Some u ->
  tun_tcp_phase_accepts_server_response (ses_phase s) = true ->
  is_pure_ack segment = true ->
  seg_sequence_number segment = ses_client_next_sequence_number s ->
  seg_acknowledgment_number segment = unacked_sequence_number u ->
  let s' := s <| ses_last_activity_at := clk 14%nat |> in
  exists packet,
    process_tun_tcp_session_segment_with_relay_plan segment plan isn window clk (r, t) =
      ((r, t <| tbl_sessions := <[key := s']> (tbl_sessions t) |>),
       Ok (Step_ServerPayloadRetransmission
             (mkTunTcpServerPayloadFrame s' (unacked_sequence_number u)
                (ses_client_next_sequence_number s) (unacked_payload u) packet))) /\
    parse_tun_tcp_segment packet =
      Ok (mkTunTcpSegment (reply_flow (seg_flow segment)) (unacked_sequence_number u)
            (ses_client_next_sequence_number s) 20 (from_bits 24) (ses_window_size s)
            (unacked_payload u)).
Proof.
  intros Ht Hseg Hkey Hs Hu Hp Hpure Hseq Hack s'.
  pose proof (table_ok_sessions t Ht key s Hs) as Hok.
  destruct (session_ok_unacked _ _ Hok u Hu) as (Hu1 & Hu2 & Hu3 & Hu4).
  destruct (pure_ack_flags segment Hpure) as (Fa & Fs & Fr & Ff & Fp). eexists. split.
  - rewrite process_other_run by done.
    rewrite (quiet_establish r t segment key s plan clk Hkey Hs Hp). cbn zeta iota.
    unfold process_client_payload, process_client_ack, table_method. cbn [is_none].
    do 4 (rewrite try_skip by eauto with keli).
    erewrite try_hit; [reflexivity|].
    unfold retransmit_server_payload. rewrite Hpure. cbn [negb]. run_monad. rewrite Hkey. run_monad.
    rewrite Hs, Hu, Hp, Hseq, Hack, !Z.eqb_refl. cbn [negb orb]. run_monad.
    unfold build_tun_tcp_payload_response_packet. rewrite (build_session_packet key) by done. done.
  - rewrite <- (session_flow key segment Hseg Hkey s Hok).
    apply parse_tcp_packet; eauto with keli. eapply from_flow_tcp; eauto with keli.
Qed.

(** ** A relay that cannot take the payload *)



(** ** The theorems on sample sessions *)

Lemma unknown_segment_reset_witness :
  exists step,
    process_tun_tcp_session_segment_with_relay_plan sample_ack None 7000 65535 sample_clock
      (tt, with_max_active_sessions 2) = ((tt, with_max_active_sessions 2), Ok step) /\
    exists packet, response_packets step = [packet] /\
      parse_tun_tcp_segment packet = Ok (reset_for sample_ack).
Proof.
  apply (unknown_segment_reset tt (with_max_active_sessions 2) sample_ack sample_key None 7000 65535
    sample_clock); [exact sample_ack_ok | reflexivity | repeat split | reflexivity | reflexivity].
Defined.

Definition sample_rst : TunTcpSegment :=
  mkTunTcpSegment sample_flow 4294967295 7001 20 (from_bits 20) 65535 [].

Lemma rst_never_answered_witness :
  exists step,
    snd (process_tun_tcp_session_segment_with_relay_plan sample_rst None 7000 65535 sample_clock
           (tt, sample_open_table)) = Ok step /\ response_packets step = [].
Proof.
  eexists. split; [vm_compute; reflexivity|].
  apply (rst_never_answered (tt, sample_open_table) sample_rst None 7000 65535 sample_clock);
    [reflexivity | vm_compute; reflexivity].
Defined.

Lemma three_way_handshake_witness :
  exists packet t1 t2,
    process_tun_tcp_session_segment_with_relay_plan sample_syn None 7000 65535 sample_clock
      (tt, with_max_active_sessions 2) =
      ((tt, t1), Ok (Step_SynAck (mkTunTcpSynAckResponse sample_session packet))) /\
    parse_tun_tcp_segment packet =
      Ok (mkTunTcpSegment (reply_flow sample_flow) 7000 4294967295 20 (from_bits 18) 65535 []) /\
    process_tun_tcp_session_segment_with_relay_plan sample_ack None 7000 65535 sample_clock
      (tt, t1) = ((tt, t2), Ok (Step_Established sample_established)) /\
    tbl_sessions t2 = <[sample_key := sample_established]> ∅.
Proof.
  apply (three_way_handshake tt tt (with_max_active_sessions 2) sample_syn sample_ack sample_key
    7000 65535 sample_clock sample_clock None);
    [exact sample_syn_ok | reflexivity | reflexivity | reflexivity
    | vm_compute; split; congruence | vm_compute; split; congruence | reflexivity | reflexivity
    | constructor; reflexivity | reflexivity].
Defined.

(** A SYN of another port, on a table for one session. *)
Definition sample_flow2 : TunPacketFlow :=
  mkTunPacketFlow Ipv4 Proto_Tcp (V4 168230914) (V4 1572395042) (Some 49153) (Some 443).

Definition sample_full_table : TunTcpSessionTable :=
  mkTunTcpSessionTable (<[sample_key := sample_session]> ∅) ∅ ∅ 1.

Lemma syn_over_limit_refused_witness :
  process_tun_tcp_session_segment_with_relay_plan
    (mkTunTcpSegment sample_flow2 5 0 20 (from_bits 2) 65535 []) None 7000 65535 sample_clock
    (tt, sample_full_table) =
  ((tt, sample_full_table), Err (Session_Packet (TcpSessionLimitExceeded 1 1))).
Proof.
  apply (syn_over_limit_refused tt sample_full_table
    (mkTunTcpSegment sample_flow2 5 0 20 (from_bits 2) 65535 [])
    (mkTunTcpSessionKey (V4 168230914) 49153 (V4 1572395042) 443) None 7000 65535 sample_clock);
    vm_compute; congruence.
Defined.

Definition sample_data : TunTcpSegment :=
  mkTunTcpSegment sample_flow 4294967295 7001 20 (from_bits 24) 65535 [104; 105].

Lemma sample_data_ok : segment_ok sample_data.
Proof. apply sample_segment_ok; vm_compute; try split; congruence. Qed.

Lemma in_order_payload_delivered_witness :
  exists t',
    process_tun_tcp_session_segment_with_relay_plan sample_data None 7000 65535 sample_clock
      (tt, sample_open_table) =
      ((tt, t'), Ok (Step_ClientPayload (payload_frame sample_data sample_established 0) None None)) /\
    exists s', tbl_sessions t' !! sample_key = Some s' /\ ses_client_next_sequence_number s' = 1.
Proof.
  destruct (in_order_payload_delivered tt tt tt sample_open_table sample_data sample_key
    sample_established None 7000 65535 sample_clock sample_open_table_ok sample_data_ok eq_refl)
    as (t' & Hrun & _ & _ & s' & Hs' & _ & Hn);
    [vm_compute; reflexivity | constructor; vm_compute; congruence | reflexivity | reflexivity |].
  exists t'. split; [exact Hrun|]. exists s'. split; [exact Hs'|exact Hn].
Defined.

(** The established session with five bytes of the server under way. *)
Definition sample_sent_table : TunTcpSessionTable :=
  fst (send_server_payload sample_flow [1; 2; 3; 4; 5] 0 sample_open_table).

Definition sample_sent_session : TunTcpSessionRecord :=
  mkTunTcpSessionRecord sample_key sample_flow sample_isn 4294967295 7000 7006
    (Some (mkTunTcpServerUnackedPayload 7001 4294967295 [1; 2; 3; 4; 5])) 65535 Established 0.

Lemma sample_sent_table_ok : table_ok sample_sent_table.
Proof.
  exact (proj1 (send_server_payload_spec sample_key 0 sample_flow [1; 2; 3; 4; 5] eq_refl
    sample_open_table sample_open_table_ok)).
Qed.

Lemma server_payload_retransmitted_witness :
  exists packet t' f,
    process_tun_tcp_session_segment_with_relay_plan sample_ack None 7000 65535 sample_clock
      (tt, sample_sent_table) = ((tt, t'), Ok (Step_ServerPayloadRetransmission f)) /\
    spf_packet f = packet /\
    parse_tun_tcp_segment packet =
      Ok (mkTunTcpSegment (reply_flow sample_flow) 7001 4294967295 20 (from_bits 24) 65535
            [1; 2; 3; 4; 5]).
Proof.
  destruct (server_payload_retransmitted tt sample_sent_table sample_ack sample_key
    sample_sent_session (mkTunTcpServerUnackedPayload 7001 4294967295 [1; 2; 3; 4; 5]) None 7000
    65535 sample_clock sample_sent_table_ok sample_ack_ok eq_refl)
    as (packet & Hrun & Hparse); [vm_compute; reflexivity | reflexivity..|].
  exists packet. do 2 eexists. split; [exact Hrun|]. split; [reflexivity|exact Hparse].
Defined.

(** A relay whose connection is full. *)
Inductive FullRelay : Type := full_relay.

#[export] Instance full_relay_ops : TunTcpSessionRelay FullRelay := {
  establish_session := default_establish_session;
  establish_session_with_plan := default_establish_session_with_plan default_establish_session;
  write_client_payload := fun _ r => (r, Err "operation would block");
  shutdown_client_write := default_shutdown_client_write default_close_session;
  read_server_event := default_server_event default_read_server_payload;
  poll_server_event := default_server_event default_read_server_payload;
  close_session := default_close_session
}.





(** ** Pruning *)

(** The sessions idle for at least the timeout. *)
Definition idle_sessions (now timeout : Z) (t : TunTcpSessionTable) : list TunTcpSessionRecord :=
  (List.filter (fun '(_, s) => is_idle now timeout (ses_last_activity_at s))
     (map_to_list (tbl_sessions t))).*2.

Lemma omap_lookup_filter (m : gmap TunTcpSessionKey TunTcpSessionRecord) g l :
  (forall k v, (k, v) ∈ l -> m !! k = Some v) ->
  omap (fun k => m !! k)
    (List.filter (fun k => match m !! k with Some s => g s | None => false end) l.*1) =
  (List.filter (fun '(_, s) => g s) l).*2.
Proof.
  induction l as [|[k v] l IH]; intros Hl; [done|]. cbn [fmap list_fmap fst].
  assert (Hk : m !! k = Some v) by (apply Hl; set_solver). cbn. rewrite Hk.
  destruct (g v); cbn; [rewrite Hk; cbn; f_equal|]; apply IH; intros k' v' Hin; apply Hl; set_solver.
Qed.

Lemma filter_permutation {A} (f : A -> bool) (l k : list A) :
  l ≡ₚ k -> List.filter f l ≡ₚ List.filter f k.
Proof.
  induction 1; cbn; repeat match goal with |- context [if ?c then _ else _] => destruct c end;
    try done; try by constructor. by etransitivity.
Qed.

Lemma prune_idle_returns order now timeout t :
  order ≡ₚ (map_to_list (tbl_sessions t)).*1 ->
  snd (prune_idle order now timeout t) ≡ₚ idle_sessions now timeout t.
Proof.
  intros Hord. cbn [prune_idle snd]. unfold idle_sessions.
  rewrite <- (omap_lookup_filter (tbl_sessions t)
    (fun s => is_idle now timeout (ses_last_activity_at s)))
    by (intros k v; apply elem_of_map_to_list).
  apply omap_Permutation. by apply filter_permutation.
Qed.

Lemma close_pruned_count {R E} {Relay : TunTcpSessionRelay R} {Returns : RelayReturns R}
  sessions errors last (r : R) :
  exists r' n last', close_pruned_sessions (E := E) sessions errors last r = (r', Ok (errors + n, last')) /\
    0 <= n <= len sessions.
Proof.
  revert errors last r. induction sessions as [|s l IH]; intros errors last r; cbn [close_pruned_sessions].
  - exists r, 0, last. split; [do 3 f_equal; lia|split; [lia|apply len_nonneg]].
  - pose proof (returns_close s r) as Hr. rewrite len_cons.
    destruct (close_session s r) as [r1 [a|e|]]; cbn in Hr; [| |done].
    + destruct (IH errors last r1) as (r' & n & last' & -> & ?). exists r', n, last'. split; [done|lia].
    + destruct (IH (errors + 1) (Some (Session_Relay e)) r1) as (r' & n & last' & -> & ?).
      exists r', (n + 1), last'. split; [|lia]. do 3 f_equal. lia.
Qed.

(** Pruning removes exactly what has been idle for the timeout. Whatever
    order the hash map yields, a session or a close marker survives if and only
    if its last activity is more recent; the sessions that go are the idle ones,
    each exactly once, and their number is reported; a relay that fails to close
    some of them stops nothing. *)
Theorem prune_removes_exactly_idle {R E} {Relay : TunTcpSessionRelay R} {Returns : RelayReturns R}
  order now timeout (r : R) t :
  order ≡ₚ (map_to_list (tbl_sessions t)).*1 ->
  exists r' t' report,
    prune_idle_tun_tcp_sessions (E := E) order now timeout (r, t) = ((r', t'), Ok report) /\
    (forall k s, tbl_sessions t' !! k = Some s <->
       tbl_sessions t !! k = Some s /\ is_idle now timeout (ses_last_activity_at s) = false) /\
    (forall k c, tbl_server_closed_sessions t' !! k = Some c <->
       tbl_server_closed_sessions t !! k = Some c /\
       is_idle now timeout (closed_last_activity_at c) = false) /\
    (forall k p, tbl_post_closed_sessions t' !! k = Some p <->
       tbl_post_closed_sessions t !! k = Some p /\
       is_idle now timeout (pc_last_activity_at p) = false) /\
    snd (prune_idle order now timeout t) ≡ₚ idle_sessions now timeout t /\
    report_pruned_sessions report = len (idle_sessions now timeout t) /\
    0 <= report_close_errors report <= len (idle_sessions now timeout t).
Proof.
  intros Hord. pose proof (prune_idle_returns order now timeout t Hord) as Hret.
  pose proof (fun k => prune_idle_sessions order now timeout t k Hord) as Hses.
  assert (Hlen : len (snd (prune_idle order now timeout t)) = len (idle_sessions now timeout t))
    by (unfold len; by rewrite Hret).
  destruct (close_pruned_count (E := E) (snd (prune_idle order now timeout t)) 0 None r)
    as (r' & n & last' & Hclose & Hn).
  unfold prune_idle_tun_tcp_sessions.
  destruct (prune_idle order now timeout t) as [t' pruned] eqn:Hprune. cbn [fst snd] in *.
  rewrite Hclose. cbn [result_bind]. do 3 eexists. split; [reflexivity|].
  assert (Et : t' = fst (prune_idle order now timeout t)) by (by rewrite Hprune).
  split_and!; cbn [report_pruned_sessions report_close_errors]; try done; try lia.
  - intros k s. rewrite Hses. unfold expired. destruct (tbl_sessions t !! k) as [s0|] eqn:Hk; [|naive_solver].
    destruct (is_idle now timeout (ses_last_activity_at s0)) eqn:Hi; naive_solver congruence.
  - intros k c. rewrite Et. apply map_lookup_filter_Some.
  - intros k p. rewrite Et. apply map_lookup_filter_Some.
Qed.

Lemma prune_removes_exactly_idle_witness :
  exists t' report,
    prune_idle_tun_tcp_sessions (E := string) [sample_key] 300 300 (tt, sample_table) =
      ((tt, t'), Ok report) /\
    report_pruned_sessions report = 1 /\ tbl_sessions t' !! sample_key = None.
Proof.
  destruct (prune_removes_exactly_idle (E := string) [sample_key] 300 300 tt sample_table)
    as ([] & t' & report & Hrun & Hs & _ & _ & _ & Hn & _); [vm_compute; reflexivity|].
  exists t', report. split; [exact Hrun|]. split; [exact Hn|].
  destruct (tbl_sessions t' !! sample_key) as [s|] eqn:E; [|done]. apply Hs in E as [E Hi].
  vm_compute in E. injection E as <-. discriminate Hi.
Defined.
