(* ===== verification/TunStream.v ===== *)
(** * The client's byte stream

    However the client's segments are cut, reordered, repeated or overlapped,
    what the endpoint hands to the relay is the client's stream from its start,
    without gaps, repetitions or changes. *)

From stdpp Require Import base gmap strings list numbers.
From S2P Require Import Prelude.
From S2P Require Import StdNet.
From S2P Require Import Dns.
From S2P Require Import TunPacket.
From S2P Require Import TunPacketBuild.
From S2P Require Import TunPlan.
From S2P Require Import TunSession.
From S2P Require Import TunSessionInv.
From S2P Require Import TunProcess.
From S2P Require Import TunProcessInv.
#[local] Open Scope Z_scope.

(** ** Streams and segments *)

(** The sequence number of position [p] of a stream that starts behind the SYN
    numbered [initial]. *)
Definition stream_seq (initial p : Z) : Z := (initial + 1 + p) mod u32_modulus.

(** The segment carries the bytes of the stream at position [p]. It was cut out
    of the stream at most half the sequence space away from position [n]: TCP
    windows keep a sender well within this. *)
Record carries (stream : list Z) (initial n p : Z) (segment : TunTcpSegment) : Prop := mk_carries {
  carries_position : 0 <= p;
  carries_seq : seg_sequence_number segment = stream_seq initial p;
  carries_end : p + len (seg_payload segment) <= len stream;
  carries_bytes : seg_payload segment = sub_list stream p (p + len (seg_payload segment));
  carries_near : Z.abs (p - n) < u32_modulus / 2
}.

(** The bytes a step has handed to the relay. *)
Definition delivered (step : TunTcpSessionStep) : list Z :=
  match step with
  | Step_ClientPayload frame _ _
  | Step_OverlappingClientPayload frame _ _
  | Step_ClientPayloadClosed frame _ _ _ => cpf_payload frame
  | _ => []
  end.

(** The session has received [n] bytes of the stream, and then maybe its FIN. *)
Definition cursor_at (initial n : Z) (s : TunTcpSessionRecord) : Prop :=
  ses_client_initial_sequence_number s = initial /\
  ses_client_next_sequence_number s =
    stream_seq initial (if is_phase (ses_phase s) ClientFinReceived then n + 1 else n).

(** The session of [key], if it is there, has received [n] bytes. *)
Definition received (key : TunTcpSessionKey) (initial n : Z) (t : TunTcpSessionTable) : Prop :=
  forall s, tbl_sessions t !! key = Some s -> cursor_at initial n s.

(** ** Sequence arithmetic *)

(** Positions closer than the sequence space are told apart by their numbers. *)
Lemma stream_seq_inj initial p q :
  stream_seq initial p = stream_seq initial q -> Z.abs (p - q) < u32_modulus -> p = q.
Proof.
  unfold stream_seq. intros H Hd.
  assert (Hm : (p - q) mod u32_modulus = 0).
  { replace (p - q) with ((initial + 1 + p) - (initial + 1 + q)) by lia.
    rewrite Zminus_mod, H, Z.sub_diag. reflexivity. }
  apply Z.mod_divide in Hm; [|done]. destruct Hm as [k Hk]. unfold u32_modulus in *. lia.
Qed.

Lemma stream_seq_shift initial p k :
  wrapping_add32 (stream_seq initial p) k = stream_seq initial (p + k).
Proof.
  unfold wrapping_add32, stream_seq. rewrite Zplus_mod_idemp_l. f_equal. lia.
Qed.

(** A number that lies [k] below the cursor's belongs to position [n - k]. *)
Lemma stream_seq_below initial n p k :
  stream_seq initial n - stream_seq initial p = k -> Z.abs (p - n) < u32_modulus / 2 ->
  0 <= k < u32_modulus / 2 -> p = n - k.
Proof.
  intros Hk Hnear Hrange. apply (stream_seq_inj initial).
  - unfold stream_seq in *.
    apply (Z.mod_unique_pos _ _ ((initial + 1 + n) / u32_modulus)).
    + apply Z.mod_pos_bound. reflexivity.
    + pose proof (Z.div_mod (initial + 1 + n) u32_modulus ltac:(done)). lia.
  - unfold u32_modulus in *. change (4294967296 / 2) with 2147483648 in *. lia.
Qed.

(** ** Methods that keep the cursor *)

Lemma cursor_touch initial n s now :
  cursor_at initial n s -> cursor_at initial n (s <| ses_last_activity_at := now |>).
Proof. done. Qed.

Lemma cursor_clear initial n segment s :
  cursor_at initial n s ->
  cursor_at initial n (clear_server_unacked_payload_if_latest_acknowledged segment s).
Proof. unfold clear_server_unacked_payload_if_latest_acknowledged. by destruct (_ =? _). Qed.

Lemma cursor_established initial n s :
  is_phase (ses_phase s) SynReceived = true -> cursor_at initial n s ->
  cursor_at initial n (s <| ses_phase := Established |>).
Proof.
  unfold cursor_at, is_phase. intros Hp [Hi Hn]. apply bool_decide_eq_true in Hp.
  rewrite Hp in Hn. done.
Qed.

#[local] Hint Resolve cursor_touch cursor_clear cursor_established : keli.

Section Keeps.
Context (key : TunTcpSessionKey) (initial : Z).

Definition keeps {A} (m : TableM A) : Prop :=
  forall n t t' a, received key initial n t -> m t = (t', Ok a) -> received key initial n t'.

Lemma received_update n t s s' :
  received key initial n t -> tbl_sessions t !! key = Some s ->
  (cursor_at initial n s -> cursor_at initial n s') ->
  received key initial n (t <| tbl_sessions := <[key := s']> (tbl_sessions t) |>).
Proof. intros Hr Hs Hc r. cbn. rewrite lookup_insert_eq. intros [= <-]. auto. Qed.

Lemma received_delete n t :
  received key initial n (t <| tbl_sessions := delete key (tbl_sessions t) |>).
Proof. intros r. cbn. by rewrite lookup_delete_eq. Qed.

(** Runs a method branch by branch. *)
Ltac run_branches :=
  run_monad;
  repeat (first [match goal with H : from_flow _ = Ok key |- _ => rewrite H end | break_goal];
          run_monad);
  try done.

Ltac keep_op op :=
  intros n t t' a Hrec; unfold op; run_branches; intros [= <- <-]; try done;
  try (first [eapply received_update; [done|eassumption|auto with keli]
             | apply received_delete]).

Lemma keeps_close_server_side now : keeps (close_server_side key now).
Proof. keep_op close_server_side. Qed.

Lemma keeps_send flow payload now :
  from_flow flow = Ok key -> keeps (send_server_payload flow payload now).
Proof. intros Hflow. keep_op send_server_payload. Qed.

Section Segment.
Context (segment : TunTcpSegment) (now : Z) (Hkey : from_flow (seg_flow segment) = Ok key).

Lemma keeps_apply_ack : keeps (apply_ack segment now).
Proof.
  keep_op apply_ack. bools. auto with keli.
Qed.
Lemma keeps_duplicate : keeps (acknowledge_duplicate_client_payload segment now).
Proof. keep_op acknowledge_duplicate_client_payload. Qed.
Lemma keeps_out_of_order : keeps (acknowledge_out_of_order_client_payload segment now).
Proof. keep_op acknowledge_out_of_order_client_payload. Qed.
Lemma keeps_retransmit : keeps (retransmit_server_payload segment now).
Proof. keep_op retransmit_server_payload. Qed.
Lemma keeps_retransmit_fin :
  keeps (retransmit_server_payload_for_duplicate_client_fin segment now).
Proof. keep_op retransmit_server_payload_for_duplicate_client_fin. Qed.
Lemma keeps_poll : keeps (server_payload_poll_session segment now).
Proof. keep_op server_payload_poll_session. Qed.
Lemma keeps_client_ack : keeps (acknowledge_client_ack segment now).
Proof. keep_op acknowledge_client_ack. Qed.
Lemma keeps_duplicate_fin : keeps (acknowledge_duplicate_client_fin segment now).
Proof. keep_op acknowledge_duplicate_client_fin. Qed.
Lemma keeps_remove_on_close : keeps (remove_on_close segment now).
Proof. keep_op remove_on_close. Qed.
Lemma keeps_retransmit_close : keeps (retransmit_server_close segment now).
Proof. keep_op retransmit_server_close. Qed.
Lemma keeps_retransmit_close_fin :
  keeps (retransmit_server_close_for_duplicate_client_fin segment now).
Proof. keep_op retransmit_server_close_for_duplicate_client_fin. Qed.
Lemma keeps_server_close : keeps (acknowledge_server_close segment now).
Proof. keep_op acknowledge_server_close. Qed.
Lemma keeps_server_close_fin : keeps (acknowledge_server_close_with_client_fin segment now).
Proof. keep_op acknowledge_server_close_with_client_fin. Qed.
Lemma keeps_post_ack : keeps (acknowledge_post_close_ack segment now).
Proof. keep_op acknowledge_post_close_ack. Qed.
Lemma keeps_post_fin : keeps (acknowledge_post_close_client_fin segment now).
Proof. keep_op acknowledge_post_close_client_fin. Qed.
Lemma keeps_closed_rst : keeps (remove_server_close_on_rst segment).
Proof. keep_op remove_server_close_on_rst. Qed.
Lemma keeps_post_rst : keeps (remove_post_close_on_rst segment).
Proof. keep_op remove_post_close_on_rst. Qed.
End Segment.
End Keeps.

(** ** Methods that move the cursor *)

Lemma is_phase_true p q : is_phase p q = true -> p = q.
Proof. apply bool_decide_eq_true_1. Qed.

Section Delivers.
Context (key : TunTcpSessionKey) (stream : list Z) (initial n p : Z).
Context (segment : TunTcpSegment) (now : Z).
Context (Hseg : segment_ok segment) (Hkey : from_flow (seg_flow segment) = Ok key).
Context (Hsyn : flag_syn (seg_flags segment) = false).
Context (Hn : 0 <= n <= len stream) (Hcar : carries stream initial n p segment).

(** [bytes] are the next bytes of the stream, and the table knows. *)
Definition advances (bytes : list Z) (t : TunTcpSessionTable) : Prop :=
  n + len bytes <= len stream /\ bytes = sub_list stream n (n + len bytes) /\
  received key initial (n + len bytes) t.

Definition delivery {A} (D : A -> list Z) (o : option A) (t : TunTcpSessionTable) : Prop :=
  match o with Some a => advances (D a) t | None => received key initial n t end.

Definition delivers {A} (m : TableM (option A)) (D : A -> list Z) : Prop :=
  forall t t' o, received key initial n t -> m t = (t', Ok o) -> delivery D o t'.

Lemma segment_next_stream :
  tcp_segment_next_sequence_number segment =
  stream_seq initial (p + len (seg_payload segment)
                      + (if flag_fin (seg_flags segment) then 1 else 0)).
Proof.
  unfold tcp_segment_next_sequence_number, tcp_segment_sequence_len.
  rewrite Hsyn, (carries_seq _ _ _ _ _ Hcar).
  pose proof (segment_ok_len _ Hseg). pose proof (len_nonneg (seg_payload segment)).
  rewrite (as_u32_small (len _)) by (unfold is_u32, u32_modulus; lia).
  destruct (flag_fin (seg_flags segment)); rewrite ?stream_seq_shift.
  - replace (wrapping_add32 (len (seg_payload segment)) 1) with (len (seg_payload segment) + 1)
      by (unfold wrapping_add32; rewrite Z.mod_small; [done|unfold u32_modulus; lia]).
    f_equal. lia.
  - f_equal. lia.
Qed.

Lemma carried_bytes :
  p + len (seg_payload segment) <= len stream /\
  seg_payload segment = sub_list stream p (p + len (seg_payload segment)).
Proof. split; apply Hcar. Qed.

Lemma cursor_next s :
  cursor_at initial n s -> ses_phase s = Established ->
  ses_client_next_sequence_number s = stream_seq initial n.
Proof. intros [_ Hc] Hp. by rewrite Hp in Hc. Qed.

(** A segment at the cursor is the one at position [n]. *)
Lemma position_at_cursor s :
  cursor_at initial n s -> is_phase (ses_phase s) Established = true ->
  seg_sequence_number segment = ses_client_next_sequence_number s -> p = n.
Proof.
  intros Hc Hp Hs. apply is_phase_true in Hp. rewrite (cursor_next s) in Hs by done.
  rewrite (carries_seq _ _ _ _ _ Hcar) in Hs. eapply stream_seq_inj; [done|].
  pose proof (carries_near _ _ _ _ _ Hcar). unfold u32_modulus in *.
  change (4294967296 / 2) with 2147483648 in *. lia.
Qed.

(** A cursor moved to position [m], with and without the FIN behind it. *)
Lemma advance_cursor s m :
  ses_client_initial_sequence_number s = initial ->
  ses_client_next_sequence_number s = stream_seq initial m ->
  ses_phase s = Established -> cursor_at initial m s.
Proof. intros Hi Hc Hp. split; [done|]. by rewrite Hp. Qed.

Lemma advance_cursor_fin s m :
  ses_client_initial_sequence_number s = initial ->
  ses_client_next_sequence_number s = stream_seq initial (m + 1) ->
  ses_phase s = ClientFinReceived -> cursor_at initial m s.
Proof. intros Hi Hc Hp. split; [done|]. by rewrite Hp. Qed.

Lemma received_known m t s :
  tbl_sessions t !! key = Some s -> cursor_at initial m s -> received key initial m t.
Proof. intros Hs Hc r Hr. rewrite Hs in Hr. by injection Hr as <-. Qed.

Lemma clear_fields s :
  ses_client_initial_sequence_number (clear_server_unacked_payload_if_latest_acknowledged segment s) =
    ses_client_initial_sequence_number s /\
  ses_phase (clear_server_unacked_payload_if_latest_acknowledged segment s) = ses_phase s /\
  ses_client_next_sequence_number (clear_server_unacked_payload_if_latest_acknowledged segment s) =
    ses_client_next_sequence_number s.
Proof. unfold clear_server_unacked_payload_if_latest_acknowledged. by destruct (_ =? _). Qed.

Ltac run_branches :=
  run_monad;
  repeat (first [rewrite Hkey | break_goal]; run_monad); try done.

Lemma delivers_client_payload :
  flag_fin (seg_flags segment) = false ->
  delivers (accept_client_payload segment now) cpf_payload.
Proof.
  intros Hfin t t' o Hrec. unfold accept_client_payload. run_branches; intros [= <- <-]; try done.
  rename t0 into s, Heqo0 into Hs, Heqb into Hg. bools.
  pose proof (Hrec s Hs) as Hcur. destruct (clear_fields s) as (Hi & Hph & _).
  assert (Hpn : p = n) by (apply (position_at_cursor s); [done..|lia]).
  pose proof carried_bytes as [Hend Hbytes]. rewrite Hpn in Hend, Hbytes.
  split; [done|split; [done|]].
  eapply received_known; [apply lookup_insert_eq|]; apply advance_cursor; cbn.
  - rewrite Hi. apply Hcur.
  - rewrite segment_next_stream, Hfin, Hpn. f_equal. lia.
  - rewrite Hph. by apply is_phase_true.
Qed.

Lemma delivers_fin_with_payload :
  delivers (accept_client_fin_with_payload segment now) (fun fr => cpf_payload (fst fr)).
Proof.
  intros t t' o Hrec. unfold accept_client_fin_with_payload.
  run_branches; intros [= <- <-]; try done. unfold is_fin_ack in Heqb.
  rename t0 into s, Heqo0 into Hs. bools.
  pose proof (Hrec s Hs) as Hcur. destruct (clear_fields s) as (Hi & Hph & _).
  assert (Hpn : p = n) by (apply (position_at_cursor s); [done..|lia]).
  pose proof carried_bytes as [Hend Hbytes]. rewrite Hpn in Hend, Hbytes.
  split; [done|split; [done|]].
  eapply received_known; [apply lookup_insert_eq|]; apply advance_cursor_fin; cbn; [|..|done].
  - rewrite Hi. apply Hcur.
  - assert (Hfin : flag_fin (seg_flags segment) = true) by done.
    rewrite segment_next_stream, Hfin. f_equal. lia.
Qed.

Lemma keeps_client_fin t t' o :
  received key initial n t -> acknowledge_client_fin segment now t = (t', Ok o) ->
  received key initial n t'.
Proof.
  intros Hrec. unfold acknowledge_client_fin.
  run_branches; intros [= <- <-]; try done. unfold is_fin_ack in Heqb.
  rename t0 into s, Heqo0 into Hs. bools.
  pose proof (Hrec s Hs) as Hcur. destruct (clear_fields s) as (Hi & Hph & _).
  assert (Hpn : p = n) by (apply (position_at_cursor s); [done..|lia]).
  eapply received_known; [apply lookup_insert_eq|]; apply advance_cursor_fin; cbn; [|..|done].
  - rewrite Hi. apply Hcur.
  - assert (Hfin : flag_fin (seg_flags segment) = true) by done.
    rewrite segment_next_stream, Hfin. f_equal.
    match goal with H : is_empty _ = true |- _ => apply is_empty_spec in H; rewrite H end.
    rewrite len_nil. lia.
Qed.

Lemma delivers_overlapping :
  delivers (accept_overlapping_client_payload segment now) cpf_payload.
Proof.
  intros t t' o Hrec. unfold accept_overlapping_client_payload, checked_sub.
  run_branches; intros [= <- <-]; try done.
  rename t0 into s, Heqo0 into Hs. bools.
  pose proof (Hrec s Hs) as Hcur. destruct (clear_fields s) as (Hi & Hph & Hcn).
  assert (He : ses_phase s = Established) by (by apply is_phase_true).
  unfold get_from in *. match goal with H : get_range _ _ _ = Some ?l |- _ =>
    apply get_range_Some in H as (Hk & _ & ->) end.
  set (k := ses_client_next_sequence_number s - seg_sequence_number segment) in *.
  pose proof carried_bytes as [Hend Hbytes]. pose proof (segment_ok_len _ Hseg).
  assert (Hp : p = n - k).
  { apply (stream_seq_below initial); [|apply Hcar|].
    - rewrite <- (cursor_next s) by done. rewrite <- (carries_seq _ _ _ _ _ Hcar). done.
    - unfold u32_modulus. change (4294967296 / 2) with 2147483648. lia. }
  set (m := len (seg_payload segment)) in *.
  assert (Hlen : len (sub_list (seg_payload segment) k m) = m - k)
    by (apply len_sub_list; lia).
  cbn [delivery cpf_payload]. unfold advances. rewrite Hlen. split; [lia|split].
  - pose proof (carries_position _ _ _ _ _ Hcar).
    rewrite Hbytes, sub_list_sub_list_gen by lia. f_equal; lia.
  - eapply received_known; [apply lookup_insert_eq|]; apply advance_cursor; cbn.
    + rewrite Hi. apply Hcur.
    + rewrite segment_next_stream. destruct (flag_fin _); [done|]. f_equal. fold m. lia.
    + by rewrite Hph.
Qed.
End Delivers.

(** ** Processing a segment *)

Section Recording.
Context {R : Type} {Relay : TunTcpSessionRelay R}.

(** A relay whose successful writes are recorded: the session and the bytes of each. *)
Definition Recorded : Type := R * list (TunTcpSessionKey * list Z).

Definition recorded_call {A} (m : RelayM R A) : RelayM Recorded A :=
  sm_zoom fst (fun r s => (r, snd s)) id m.

#[export] Instance recording : TunTcpSessionRelay Recorded := {
  establish_session session := recorded_call (establish_session session);
  establish_session_with_plan session plan := recorded_call (establish_session_with_plan session plan);
  write_client_payload frame :=
    do! recorded_call (write_client_payload frame);
    sm_modify (fun '(r, log) => (r, log ++ [(ses_key (cpf_session frame), cpf_payload frame)]));
  shutdown_client_write session := recorded_call (shutdown_client_write session);
  read_server_event session := recorded_call (read_server_event session);
  poll_server_event session := recorded_call (poll_server_event session);
  close_session session := recorded_call (close_session session)
}.
End Recording.
Arguments Recorded : clear implicits.

(** The bytes the relay has taken for a session. *)
Fixpoint taken (key : TunTcpSessionKey) (log : list (TunTcpSessionKey * list Z)) : list Z :=
  match log with
  | [] => []
  | (key', bytes) :: log' => (if decide (key' = key) then bytes else []) ++ taken key log'
  end.

Lemma taken_app key log more : taken key (log ++ more) = taken key log ++ taken key more.
Proof. induction log as [|[k b] log IH]; [done|]. cbn [taken app]. by rewrite IH, app_assoc. Qed.

Section Ensures.
Context {R : Type} {Relay : TunTcpSessionRelay R} (key : TunTcpSessionKey).

(** What is asserted of the bytes taken for the session, and of the table. *)
Definition assertion : Type := list Z -> TunTcpSessionTable -> Prop.

(** A successful run from a well-formed table that satisfies [P] ends in a
    well-formed table and with a result that satisfy [Q]. *)
Definition ensures {A} (P : assertion) (m : PM (R := Recorded R) A) (Q : A -> assertion) : Prop :=
  forall r t r' t' a, table_ok t -> P (taken key (snd r)) t -> m (r, t) = ((r', t'), Ok a) ->
    table_ok t' /\ Q a (taken key (snd r')) t'.

Lemma ensures_ret {A} (a : A) (P : assertion) (Q : A -> assertion) :
  (forall l t, P l t -> Q a l t) -> ensures P (sm_ret a) Q.
Proof. intros HQ r t r' t' b Ht HP [= <- <- <-]. auto. Qed.

Lemma ensures_bind {A B} P (m : PM (R := Recorded R) A) (k : A -> PM (R := Recorded R) B) M Q :
  ensures P m M -> (forall a, ensures (M a) (k a) Q) -> ensures P (sm_bind m k) Q.
Proof.
  intros Hm Hk r t r' t' b Ht HP. unfold sm_bind.
  destruct (m (r, t)) as [[r1 t1] [a|e|]] eqn:Hrun; [|done..]. intros Hk'.
  destruct (Hm r t r1 t1 a Ht HP Hrun) as [Ht1 HM]. by eapply Hk.
Qed.

Lemma ensures_table {A} `{Framed A} allowed (m : TableM A) (P : assertion) (Q : A -> assertion) :
  op_spec key allowed m -> (forall l t t' a, P l t -> m t = (t', Ok a) -> Q a l t') ->
  ensures P (on_table m) (fun a l t => framed key a /\ Q a l t).
Proof.
  intros Hspec HQ r t r' t' a Ht HP. unfold on_table, sm_zoom. cbn.
  specialize (Hspec t Ht). destruct (m t) as [t1 [b|e|]] eqn:Hrun; cbn in *; [|done..].
  intros [= <- <- <-]. destruct Hspec as (Ht1 & _ & Hf). eauto.
Qed.

(** A call of the relay other than a write. *)
Lemma ensures_relay {A} (m : RelayM R A) (P : assertion) :
  ensures P (on_relay (recorded_call m)) (fun _ => P).
Proof.
  intros [r log] t r' t' a Ht HP. unfold on_relay, recorded_call, sm_zoom. cbn.
  destruct (m r) as [r1 [b|e|]]; cbn; [|done..]. by intros [= <- <- <-].
Qed.

(** A write: its bytes are what the relay takes. *)
Lemma ensures_write frame (P : assertion) :
  framed key frame ->
  ensures (fun l t => P (l ++ cpf_payload frame) t) (on_relay (write_client_payload (R := Recorded R) frame)) (fun _ => P).
Proof.
  intros [Hs _] [r log] t r' t' a Ht HP. unfold on_relay, sm_zoom, recorded_call, sm_bind. cbn.
  unfold sm_bind, recorded_call, sm_zoom, id. cbn.
  destruct (write_client_payload frame r) as [r1 [b|e|]]; cbn; [|done..].
  intros [= <- <- <-]. split; [done|]. cbn. rewrite taken_app. cbn. rewrite (session_ok_key _ _ Hs).
  by rewrite decide_True, app_nil_r.
Qed.

Lemma ensures_try {A} P (m : PM (R := Recorded R) (option A)) some none M Q :
  ensures P m M -> (forall a, ensures (M (Some a)) (some a) Q) -> ensures (M None) none Q ->
  ensures P (try_step m some none) Q.
Proof. intros Hm Hs Hn. eapply ensures_bind; [exact Hm|]. intros [a|]; [apply Hs|exact Hn]. Qed.

Lemma ensures_pre {A} (P P' : assertion) (m : PM (R := Recorded R) A) Q :
  (forall l t, P l t -> P' l t) -> ensures P' m Q -> ensures P m Q.
Proof. intros HP Hm r t r' t' a Ht H Hrun. eapply Hm; eauto. Qed.

(** A fact that does not depend on the state. *)
Lemma ensures_know {A} (F : Prop) (P : assertion) (m : PM (R := Recorded R) A) Q :
  (F -> ensures P m Q) -> ensures (fun l t => F /\ P l t) m Q.
Proof. intros Hm r t r' t' a Ht [HF HP] Hrun. eapply Hm; eauto. Qed.
End Ensures.

Section Process.
Context {R : Type} {Relay : TunTcpSessionRelay R}.
Context (key : TunTcpSessionKey) (stream : list Z) (initial n p : Z).
Context (segment : TunTcpSegment) (clk : nat -> Z).
Context (Hseg : segment_ok segment) (Hkey : from_flow (seg_flow segment) = Ok key).
Context (Hsyn : flag_syn (seg_flags segment) = false).
Context (Hn : 0 <= n <= len stream) (Hcar : carries stream initial n p segment).
(** What the relay had taken before the segment. *)
Context (base : list Z).

#[local] Abbreviation ensures := (ensures (R := R) key).

(** The relay has taken [l], and the session [m] bytes of the stream. *)
Definition at_cursor (l : list Z) (m : Z) : assertion := fun log t => log = l /\ received key initial m t.

(** The relay took [bytes] more, the bytes by which the session advanced. *)
Definition handed (bytes : list Z) : assertion := fun log t =>
  log = base ++ bytes /\ advances key stream initial n bytes t.

Definition step_post (step : TunTcpSessionStep) : assertion := handed (delivered step).

(** A step that delivers nothing. *)
Lemma step_post_none step :
  delivered step = [] -> forall l t, at_cursor base n l t -> step_post step l t.
Proof.
  intros Hd l t [-> Hr]. unfold step_post, handed, advances.
  rewrite Hd, len_nil, Z.add_0_r, app_nil_r. split_and!; [done|lia| |done].
  unfold sub_list. by rewrite Z.sub_diag.
Qed.

(** A method of the table that keeps the cursor. *)
Lemma ensures_keep {A} `{Framed A} allowed (op : TableM A) l m :
  op_spec key allowed op -> keeps key initial op ->
  ensures (at_cursor l m) (on_table op) (fun a log t => framed key a /\ at_cursor l m log t).
Proof.
  intros Hspec Hkeep. eapply ensures_table; [exact Hspec|].
  intros log t t' a [-> Hr] Hrun. split; [done|by eapply Hkeep].
Qed.

(** A method of the table that moves it. *)
Lemma ensures_deliver {A} `{Framed A} allowed (op : TableM (option A)) D :
  op_spec key allowed op -> delivers key stream initial n op D ->
  ensures (at_cursor base n) (on_table op)
    (fun o log t => framed key o /\ log = base /\ delivery key stream initial n D o t).
Proof.
  intros Hspec Hdel. eapply ensures_table; [exact Hspec|].
  intros log t t' o [-> Hr] Hrun. split; [done|by eapply Hdel].
Qed.

Lemma close_from_server_ensures l m session now :
  session_ok key session ->
  ensures (at_cursor l m) (close_tun_tcp_session_from_server session now)
    (fun _ => at_cursor l m).
Proof.
  intros Hs. unfold close_tun_tcp_session_from_server. rewrite (session_ok_key _ _ Hs).
  eapply ensures_bind; [eapply ensures_keep; [apply close_server_side_spec|apply keeps_close_server_side]|].
  intros [f|]; apply ensures_know; intros _.
  - eapply ensures_bind; [apply ensures_relay|]. intros ?. by apply ensures_ret.
  - by apply ensures_ret.
Qed.

Lemma send_ensures l m session payload now :
  session_ok key session ->
  ensures (at_cursor l m)
    (on_table (send_server_payload (ses_flow session) payload now))
    (fun a log t => framed key a /\ at_cursor l m log t).
Proof.
  intros Hs. eapply ensures_keep; [apply send_server_payload_spec; eauto with keli|].
  apply keeps_send, (session_ok_flow_key _ _ Hs).
Qed.

Lemma read_event_ensures l m session :
  session_ok key session ->
  ensures (at_cursor l m) (read_tun_tcp_server_event session clk)
    (fun _ => at_cursor l m).
Proof.
  intros Hs. unfold read_tun_tcp_server_event.
  eapply ensures_bind; [apply ensures_relay|]. intros [|payload|].
  - by apply ensures_ret.
  - eapply ensures_bind; [by apply send_ensures|]. intros a. apply ensures_know. intros _.
    by apply ensures_ret.
  - eapply ensures_bind; [by apply close_from_server_ensures|]. intros a. by apply ensures_ret.
Qed.

(** A method that keeps the cursor, tried; the step it leads to delivers nothing. *)
Ltac try_keep spec keep :=
  eapply ensures_try;
  [ eapply ensures_keep; [apply spec; done|by apply keep]
  | intros a; apply ensures_know; intros Hframed
  | apply ensures_know; intros _ ].

Ltac ret_none := apply ensures_ret; by apply step_post_none.

Lemma duplicate_fin_ensures f :
  framed key f ->
  ensures (at_cursor base n) (answer_duplicate_client_fin f clk) step_post.
Proof.
  intros [Hs _]. unfold answer_duplicate_client_fin, read_tun_tcp_server_event_after_client_fin.
  eapply ensures_bind; [by apply read_event_ensures|]. intros [sr sc].
  destruct (_ || _); ret_none.
Qed.

(** The steps that deliver: the relay takes the bytes of the frame, once. *)
Lemma write_ensures {B} frame (k : unit -> PM (R := Recorded R) B) Q :
  framed key frame ->
  (forall u, ensures (handed (cpf_payload frame)) (k u) Q) ->
  ensures (fun log t => log = base /\ advances key stream initial n (cpf_payload frame) t)
    (u <-! on_relay (write_client_payload (R := Recorded R) frame); k u) Q.
Proof.
  intros Hf Hk. eapply ensures_bind; [|exact Hk].
  eapply ensures_pre; [|by apply ensures_write]. by intros l t [-> Ha].
Qed.

(** Then it is read, which leaves the cursor. *)
Lemma deliver_ensures {B} (bytes : list Z) session (k : _ -> PM (R := Recorded R) B) Q :
  session_ok key session ->
  (forall e, ensures (handed bytes) (k e) Q) ->
  ensures (handed bytes) (e <-! read_tun_tcp_server_event session clk; k e) Q.
Proof.
  intros Hs Hk.
  apply (ensures_pre key _ (fun log t =>
    (n + len bytes <= len stream /\ bytes = sub_list stream n (n + len bytes)) /\
    at_cursor (base ++ bytes) (n + len bytes) log t)).
  { intros l t (Hl & H1 & H2 & Hr). done. }
  apply ensures_know. intros [H1 H2].
  eapply ensures_bind; [by apply read_event_ensures|]. intros e.
  eapply ensures_pre; [|apply Hk]. by intros l t [Hl Hr].
Qed.

Lemma fin_with_payload_ensures next :
  ensures (at_cursor base n) next step_post ->
  ensures (at_cursor base n) (process_fin_with_payload segment clk next) step_post.
Proof.
  intros Hnext. unfold process_fin_with_payload, table_method.
  try_keep retransmit_server_payload_for_duplicate_client_fin_spec keeps_retransmit_fin; [ret_none|].
  try_keep acknowledge_duplicate_client_fin_spec keeps_duplicate_fin;
    [by apply duplicate_fin_ensures|].
  eapply ensures_try.
  - eapply ensures_deliver; [apply accept_client_fin_with_payload_spec; done|].
    by apply (delivers_fin_with_payload _ _ _ _ p).
  - intros [f c]. apply ensures_know. intros [Hf _]. cbn [delivery fst].
    apply write_ensures; [done|intros ?]. eapply ensures_bind; [apply ensures_relay|intros ?].
    apply deliver_ensures; [apply Hf|]. intros [sr sc]. by apply ensures_ret.
  - apply ensures_know. intros _. exact Hnext.
Qed.

Lemma fin_without_payload_ensures next :
  ensures (at_cursor base n) next step_post ->
  ensures (at_cursor base n) (process_fin_without_payload segment clk next) step_post.
Proof.
  intros Hnext. unfold process_fin_without_payload, table_method.
  try_keep retransmit_server_payload_for_duplicate_client_fin_spec keeps_retransmit_fin; [ret_none|].
  try_keep acknowledge_duplicate_client_fin_spec keeps_duplicate_fin;
    [by apply duplicate_fin_ensures|].
  eapply ensures_try.
  - eapply (ensures_table key _ _ _ (fun _ => at_cursor base n)); [apply acknowledge_client_fin_spec; done|].
    intros log t t' o [-> Hr] Hrun. split; [done|]. by eapply (keeps_client_fin key stream initial n p).
  - intros c. apply ensures_know. intros [Hc _].
    eapply ensures_bind; [apply ensures_relay|intros ?].
    eapply ensures_bind; [by apply read_event_ensures|]. intros [sr sc]. ret_none.
  - apply ensures_know. intros _. exact Hnext.
Qed.

Lemma fin_on_markers_ensures next :
  ensures (at_cursor base n) next step_post ->
  ensures (at_cursor base n) (process_fin_on_markers segment clk next) step_post.
Proof.
  intros Hnext. unfold process_fin_on_markers, table_method.
  try_keep acknowledge_server_close_with_client_fin_spec keeps_server_close_fin; [ret_none|].
  try_keep retransmit_server_close_for_duplicate_client_fin_spec keeps_retransmit_close_fin; [ret_none|].
  try_keep acknowledge_post_close_client_fin_spec keeps_post_fin; [ret_none|done].
Qed.

Lemma lookup_flow_ensures :
  ensures (at_cursor base n) (lookup_flow segment) (fun _ => at_cursor base n).
Proof.
  intros r t r' t' a Ht [Hl Hr]. unfold lookup_flow, on_table, sm_zoom, get_flow. rewrite Hkey.
  cbn. by intros [= <- <- <-].
Qed.

Lemma reset_ensures :
  ensures (at_cursor base n) (reset_segment segment) step_post.
Proof.
  intros r t r' t' a Ht Hr. unfold reset_segment, on_table, sm_zoom, sm_lift, sm_bind. cbn.
  destruct (build_tun_tcp_session_reset_frame segment); cbn; [|done..]. intros [= <- <- <-].
  split; [done|]. by apply step_post_none.
Qed.

Lemma close_segment_ensures :
  ensures (at_cursor base n) (process_close_segment segment clk) step_post.
Proof.
  assert (Hrst : ensures (at_cursor base n)
    (if flag_rst (seg_flags segment) then process_rst_on_markers segment else sm_ret Step_Noop)
    step_post).
  { destruct (flag_rst _); [|ret_none]. unfold process_rst_on_markers.
    try_keep remove_server_close_on_rst_spec keeps_closed_rst; [ret_none|].
    try_keep remove_post_close_on_rst_spec keeps_post_rst; ret_none. }
  unfold process_close_segment. cbn zeta. set (fin := flag_fin _ && _).
  match goal with |- ensures _ (if _ then process_fin_with_payload _ _ ?m else _) _ =>
    assert (Hfin : ensures (at_cursor base n) m step_post) end.
  2:{ match goal with |- ensures _ (if ?c then _ else _) _ => destruct c end; [|done].
      by apply fin_with_payload_ensures. }
  match goal with |- ensures _ (if _ then process_fin_without_payload _ _ ?m else _) _ =>
    assert (Hclose : ensures (at_cursor base n) m step_post) end.
  2:{ match goal with |- ensures _ (if ?c then _ else _) _ => destruct c end; [|done].
      by apply fin_without_payload_ensures. }
  unfold table_method. try_keep remove_on_close_spec keeps_remove_on_close.
  - destruct a as [session response]. eapply ensures_bind; [apply ensures_relay|intros ?]. ret_none.
  - destruct fin; [|done]. apply fin_on_markers_ensures.
    eapply ensures_bind; [apply lookup_flow_ensures|]. intros [s|]; [done|apply reset_ensures].
Qed.

Lemma establish_ensures plan :
  ensures (at_cursor base n) (establish_on_ack segment plan clk)
    (fun _ => at_cursor base n).
Proof.
  unfold establish_on_ack, table_method. destruct (_ && _); [|by apply ensures_ret].
  eapply ensures_bind.
  - eapply ensures_keep; [apply apply_ack_spec; done|by apply keeps_apply_ack].
  - intros [s|]; apply ensures_know; intros _; [|by apply ensures_ret].
    eapply ensures_bind; [destruct plan; apply ensures_relay|intros ?]. by apply ensures_ret.
Qed.

Lemma client_payload_ensures next :
  flag_fin (seg_flags segment) = false ->
  ensures (at_cursor base n) next step_post ->
  ensures (at_cursor base n) (process_client_payload segment clk next) step_post.
Proof.
  intros Hfin Hnext. unfold process_client_payload, table_method,
    read_tun_tcp_server_event_after_client_payload.
  eapply ensures_try.
  { eapply ensures_deliver; [apply accept_client_payload_spec; done|].
    by apply (delivers_client_payload _ _ _ _ p). }
  { intros f. apply ensures_know. intros Hf. cbn [delivery].
    apply write_ensures; [done|intros ?].
    apply deliver_ensures; [apply Hf|]. intros [sr sc]. by apply ensures_ret. }
  apply ensures_know. intros _. cbn [delivery]. eapply ensures_try.
  { eapply ensures_deliver; [apply accept_overlapping_client_payload_spec; done|].
    by apply (delivers_overlapping _ _ _ _ p). }
  { intros f. apply ensures_know. intros Hf. cbn [delivery].
    apply write_ensures; [done|intros ?].
    apply deliver_ensures; [apply Hf|]. intros [sr sc]. by apply ensures_ret. }
  apply ensures_know. intros _. cbn [delivery].
  try_keep acknowledge_duplicate_client_payload_spec keeps_duplicate; [ret_none|].
  try_keep acknowledge_out_of_order_client_payload_spec keeps_out_of_order; [ret_none|done].
Qed.

Lemma poll_ensures session next :
  session_ok key session -> ensures (at_cursor base n) next step_post ->
  ensures (at_cursor base n) (poll_server session clk next) step_post.
Proof.
  intros Hs Hnext. unfold poll_server.
  eapply ensures_bind; [apply ensures_relay|]. intros [|payload|]; [ret_none| |].
  - eapply ensures_try; [by apply send_ensures| |apply ensures_know; intros _; exact Hnext].
    intros a. apply ensures_know. intros _. ret_none.
  - eapply ensures_try; [by apply close_from_server_ensures| |exact Hnext]. intros a. ret_none.
Qed.

Lemma client_ack_ensures next :
  ensures (at_cursor base n) next step_post ->
  ensures (at_cursor base n) (process_client_ack segment clk next) step_post.
Proof.
  intros Hnext. unfold process_client_ack, table_method. cbn zeta.
  match goal with |- ensures _ (try_step _ _ (try_step _ _ ?m)) _ =>
    assert (Hack : ensures (at_cursor base n) m step_post) end.
  { try_keep acknowledge_client_ack_spec keeps_client_ack; [ret_none|].
    try_keep retransmit_server_close_spec keeps_retransmit_close; [ret_none|].
    try_keep acknowledge_server_close_spec keeps_server_close; [ret_none|].
    try_keep acknowledge_post_close_ack_spec keeps_post_ack; [ret_none|done]. }
  try_keep retransmit_server_payload_spec keeps_retransmit; [ret_none|].
  try_keep server_payload_poll_session_spec keeps_poll; [by apply poll_ensures|done].
Qed.

Lemma process_ensures plan isn window :
  ensures (at_cursor base n)
    (process_tun_tcp_session_segment_with_relay_plan segment plan isn window clk) step_post.
Proof.
  unfold process_tun_tcp_session_segment_with_relay_plan.
  destruct (flag_rst _ || flag_fin _) eqn:Hclose; [apply close_segment_ensures|].
  replace (is_initial_tcp_syn_segment segment) with false
    by (unfold is_initial_tcp_syn_segment; by rewrite Hsyn).
  apply orb_false_iff in Hclose as [_ Hfin].
  eapply ensures_bind; [apply establish_ensures|]. intros established.
  apply client_payload_ensures; [done|].
  destruct established as [s|]; cbn [is_none]; [ret_none|]. apply client_ack_ensures.
  destruct (should_reset_unknown_tun_tcp_session_segment segment); [|ret_none].
  eapply ensures_bind; [apply lookup_flow_ensures|]. intros [s|]; [ret_none|apply reset_ensures].
Qed.
End Process.

(** ** The theorem *)

(** A run of the endpoint over segments of one flow, every one of them processed
    without an error. The cursor is at the position the last steps have brought it
    to; the relay's writes are recorded in its state. *)
Inductive delivery_run {R} {Relay : TunTcpSessionRelay R} (key : TunTcpSessionKey)
  (stream : list Z) (initial : Z)
  : Recorded R * TunTcpSessionTable -> Z -> Z -> Recorded R * TunTcpSessionTable -> Prop :=
| delivery_none s n : delivery_run key stream initial s n n s
| delivery_step segment p plan isn window clk s s1 s2 n m step :
    segment_ok segment -> from_flow (seg_flow segment) = Ok key ->
    flag_syn (seg_flags segment) = false ->
    carries stream initial n p segment ->
    process_tun_tcp_session_segment_with_relay_plan segment plan isn window clk s = (s1, Ok step) ->
    delivery_run key stream initial s1 (n + len (delivered step)) m s2 ->
    delivery_run key stream initial s n m s2.

Lemma sub_list_app_adjacent (l : list Z) a b c :
  0 <= a <= b -> b <= c -> sub_list l a b ++ sub_list l b c = sub_list l a c.
Proof.
  intros Hab Hbc. unfold sub_list.
  replace (Z.to_nat (c - a)) with (Z.to_nat (b - a) + Z.to_nat (c - b))%nat by lia.
  rewrite <- take_take_drop, drop_drop. do 3 f_equal. lia.
Qed.

Lemma delivery_run_prefix {R} {Relay : TunTcpSessionRelay R} key stream initial
  (s s' : Recorded R * TunTcpSessionTable) n m :
  delivery_run key stream initial s n m s' ->
  table_ok (snd s) -> received key initial n (snd s) -> 0 <= n <= len stream ->
  n <= m <= len stream /\
  taken key (snd (fst s')) = taken key (snd (fst s)) ++ sub_list stream n m /\
  received key initial m (snd s').
Proof.
  induction 1 as [s n|segment p plan isn window clk s s1 s2 n m step Hseg Hkey Hsyn Hcar Hrun _ IH];
    intros Ht Hr Hn.
  - split; [lia|]. split; [|done]. unfold sub_list. rewrite Z.sub_diag. cbn. by rewrite app_nil_r.
  - destruct s as [r t], s1 as [r1 t1]. cbn [fst snd] in *.
    destruct (process_ensures key stream initial n p segment clk Hseg Hkey Hsyn Hn Hcar
      (taken key (snd r)) plan isn window r t r1 t1 step Ht (conj eq_refl Hr) Hrun)
      as [Ht1 (Hlog & H1 & H2 & H3)].
    pose proof (len_nonneg (delivered step)).
    destruct IH as (H4 & H5 & H6); [done..|lia|]. split_and!; [lia|lia| |done].
    rewrite H5, Hlog, H2, <- app_assoc. f_equal.
    rewrite len_sub_list by lia. rewrite <- (sub_list_app_adjacent stream n (n + len (delivered step)) m) by lia.
    do 2 f_equal. lia.
Qed.

(** C2: reliable delivery of the client's stream. From a session that has just
    been opened (the cursor behind the SYN), let segments of its flow arrive that
    carry parts of the client's byte stream, cut, repeated, overlapping or out of
    order: none of them with the SYN flag, each within half the sequence space of
    the cursor, and each processed without an error (a relay call that fails ends
    the guarantee). Then the bytes the relay has accepted for that session in its
    successful calls of write_client_payload are, in order, what it had before and
    the first [m] bytes of the stream for some [m], nothing lost, repeated,
    reordered or altered, also where sequence numbers wrap around; and the session,
    if it is still there, acknowledges exactly these [m] bytes to the client. *)
Theorem client_stream_delivered {R} {Relay : TunTcpSessionRelay R} key stream s
  (r : R) log t r' log' t' m :
  table_ok t -> tbl_sessions t !! key = Some s -> ses_phase s = SynReceived ->
  ses_client_next_sequence_number s =
    wrapping_add32 (ses_client_initial_sequence_number s) 1 ->
  delivery_run key stream (ses_client_initial_sequence_number s) ((r, log), t) 0 m ((r', log'), t') ->
  0 <= m <= len stream /\
  taken key log' = taken key log ++ sub_list stream 0 m /\
  received key (ses_client_initial_sequence_number s) m t'.
Proof.
  intros Ht Hs Hp Hnext Hrun.
  apply (delivery_run_prefix key stream _ _ _ 0 m Hrun Ht).
  - intros s' Hs'. cbn in Hs'. rewrite Hs in Hs'. injection Hs' as <-. split; [done|].
    rewrite Hp, Hnext. unfold stream_seq. by rewrite Z.add_0_r.
  - pose proof (len_nonneg stream). lia.
Qed.

(** ** A run with reordering, repetition and overlap across the wrap-around *)

Definition sample_stream : list Z := [11; 12; 13; 14; 15; 16].

(** The part [p .. q] of the sample stream, as a segment. *)
Definition sample_segment (p q : Z) : TunTcpSegment :=
  mkTunTcpSegment sample_flow (stream_seq sample_isn p) 7001 20 (from_bits 16) 65535
    (sub_list sample_stream p q).

(** One step of the sample run. *)
Ltac sample_step p q :=
  eapply (delivery_step (R := unit) sample_key sample_stream sample_isn (sample_segment p q) p
    None 7000 65535 sample_clock);
  [ apply sample_segment_ok; vm_compute; try split; congruence
  | reflexivity | reflexivity
  | constructor; vm_compute; try split; congruence
  | vm_compute; reflexivity
  | ].

Lemma client_stream_delivered_witness :
  exists log t,
    delivery_run (R := unit) sample_key sample_stream sample_isn ((tt, []), sample_table) 0 6
      ((tt, log), t) /\
    taken sample_key log = [] ++ sub_list sample_stream 0 6.
Proof.
  assert (Hrun : exists log t,
    delivery_run (R := unit) sample_key sample_stream sample_isn ((tt, []), sample_table) 0 6
      ((tt, log), t)).
  { do 2 eexists.
    sample_step 0 0. sample_step 2 4. sample_step 0 3. sample_step 0 2. sample_step 2 6.
    apply delivery_none. }
  destruct Hrun as (log & t & Hrun). exists log, t. split; [done|].
  refine (proj1 (proj2 (client_stream_delivered sample_key sample_stream sample_session tt [] sample_table
    tt log t 6 _ _ _ _ Hrun))).
  - exact sample_table_ok.
  - vm_compute; reflexivity.
  - reflexivity.
  - reflexivity.
Defined.
