(* ===== verification/TunSummary.v ===== *)
(** * Events and summaries of the packet loop

    [crates/keli-net-core/src/tun.rs]: what a round of the loop reports, and the
    running totals kept of it. *)

From stdpp Require Import base gmap strings list numbers.
From S2P Require Import Prelude.
From S2P Require Import StdNet.
From S2P Require Import Route.
From S2P Require Import Dns.
From S2P Require Import TunPacket.
From S2P Require Import TunPlan.
From S2P Require Import TunSession.
From S2P Require Import TunSessionInv.
From S2P Require Import TunProcess.
#[local] Open Scope Z_scope.

(** ** Events *)

Record TunDnsHijackPlan : Type := mkTunDnsHijackPlan {
  hijack_flow : TunPacketFlow;
  hijack_question : DnsWireQuestion;
  hijack_response_source : SocketAddr;
  hijack_response_destination : SocketAddr
}.

Record TunDnsHijackResponse : Type := mkTunDnsHijackResponse {
  dnsr_plan : TunDnsHijackPlan;
  dnsr_dns_payload : list Z;
  dnsr_packet : list Z;
  dnsr_rcode : Z
}.

Record TunUdpRelayResponse : Type := mkTunUdpRelayResponse {
  udpr_plan : TunPacketRelayPlan;
  udpr_relay_source : SocketAddr;
  udpr_relay_payload : list Z;
  udpr_packet : list Z
}.

Record TunTcpResetResponse : Type := mkTunTcpResetResponse {
  tcpr_plan : TunPacketRelayPlan;
  tcpr_sequence_number : Z;
  tcpr_acknowledgment_number : Z;
  tcpr_packet : list Z
}.

Inductive TunUdpRelayError : Type :=
| UnsupportedRelayAction (action : TunPacketRelayAction)
| UdpRelay_Packet (error : TunPacketError)
| UdpRelay_ResponsePacket (error : TunPacketError)
| PlanFlowMismatch (packet_flow plan_flow : TunPacketFlow)
| UdpRelay_Relay (error : string).

Inductive TunPacketProcessAction : Type :=
| WritePacket (response : TunDnsHijackResponse)
| WriteTcpReset (response : TunTcpResetResponse)
| Process_Relay (plan : TunPacketRelayPlan).

Inductive TunPacketLoopEvent : Type :=
| Event_NoPacket
| Event_WrotePacket (response : TunDnsHijackResponse)
| Event_WroteUdpRelayPacket (response : TunUdpRelayResponse)
| Event_WroteTcpResetPacket (response : TunTcpResetResponse)
| Event_TcpSession (plan : TunPacketRelayPlan) (step : TunTcpSessionStep) (packets_written : Z)
| Event_Relay (plan : TunPacketRelayPlan)
| Event_Drop (plan : TunPacketRelayPlan)
| Event_Unsupported (plan : TunPacketRelayPlan)
| Event_PacketError (error : TunPacketError)
| Event_UdpRelayError (error : TunUdpRelayError)
| Event_TcpSessionError (error : TunTcpSessionError).

Definition is_session_limit_exceeded (self : TunTcpSessionError) : bool :=
  match self with Session_Packet (TcpSessionLimitExceeded _ _) => true | _ => false end.

Definition loop_event_for_relay_plan (plan : TunPacketRelayPlan) : TunPacketLoopEvent :=
  match plan_relay_action plan with
  | Action_Drop => Event_Drop plan
  | Action_UnsupportedTransport _ => Event_Unsupported plan
  | _ => Event_Relay plan
  end.

(** ** The summary *)

Definition TUN_PACKET_LOOP_DROPPED_ROUTE_HISTORY_LIMIT : Z := 256.
Definition TUN_PACKET_LOOP_DNS_HIJACK_ROUTE_HISTORY_LIMIT : Z := 256.

Record TunPacketLoopSummary : Type := mkTunPacketLoopSummary {
  sum_idle_events : Z;
  sum_stop_requested : bool;
  sum_packet_limit_reached : bool;
  sum_dns_responses_written : Z;
  sum_udp_relay_responses_written : Z;
  sum_tcp_resets_written : Z;
  sum_relay_packets : Z;
  sum_tcp_relay_plans : Z;
  sum_udp_relay_plans : Z;
  sum_last_relay_route_action : option RouteAction;
  sum_last_relay_matched_rule : option string;
  sum_dropped_packets : Z;
  sum_last_dropped_flow : option TunPacketFlow;
  sum_last_dropped_route_action : option RouteAction;
  sum_last_dropped_matched_rule : option string;
  sum_recent_dropped_routes : list TunPacketRouteDecision;
  sum_recent_dns_hijacked_routes : list TunPacketRouteDecision;
  sum_unsupported_packets : Z;
  sum_last_unsupported_flow : option TunPacketFlow;
  sum_last_unsupported_route_action : option RouteAction;
  sum_last_unsupported_matched_rule : option string;
  sum_packet_errors : Z;
  sum_last_packet_error : option TunPacketError;
  sum_udp_relay_errors : Z;
  sum_last_udp_relay_error : option TunUdpRelayError;
  sum_tcp_session_events : Z;
  sum_tcp_session_packets_written : Z;
  sum_tcp_max_active_sessions : Z;
  sum_tcp_session_limit_rejections : Z;
  sum_tcp_sessions_pruned : Z;
  sum_tcp_server_closed_sessions_pruned : Z;
  sum_tcp_post_closed_sessions_pruned : Z;
  sum_tcp_server_close_marker_resets : Z;
  sum_tcp_post_close_marker_resets : Z;
  sum_tcp_sessions_open : Z;
  sum_tcp_server_close_markers_open : Z;
  sum_tcp_post_close_markers_open : Z;
  sum_tcp_sessions_peak : Z;
  sum_tcp_server_close_markers_peak : Z;
  sum_tcp_post_close_markers_peak : Z;
  sum_tcp_session_errors : Z;
  sum_last_tcp_session_error : option TunTcpSessionError
}.

#[export] Instance TunPacketLoopSummary_settable : Settable TunPacketLoopSummary := fun r =>
  mkTunPacketLoopSummary (sum_idle_events r) (sum_stop_requested r) (sum_packet_limit_reached
    r) (sum_dns_responses_written r) (sum_udp_relay_responses_written r)
    (sum_tcp_resets_written r) (sum_relay_packets r) (sum_tcp_relay_plans r)
    (sum_udp_relay_plans r) (sum_last_relay_route_action r) (sum_last_relay_matched_rule r)
    (sum_dropped_packets r) (sum_last_dropped_flow r) (sum_last_dropped_route_action r)
    (sum_last_dropped_matched_rule r) (sum_recent_dropped_routes r)
    (sum_recent_dns_hijacked_routes r) (sum_unsupported_packets r) (sum_last_unsupported_flow
    r) (sum_last_unsupported_route_action r) (sum_last_unsupported_matched_rule r)
    (sum_packet_errors r) (sum_last_packet_error r) (sum_udp_relay_errors r)
    (sum_last_udp_relay_error r) (sum_tcp_session_events r) (sum_tcp_session_packets_written r)
    (sum_tcp_max_active_sessions r) (sum_tcp_session_limit_rejections r)
    (sum_tcp_sessions_pruned r) (sum_tcp_server_closed_sessions_pruned r)
    (sum_tcp_post_closed_sessions_pruned r) (sum_tcp_server_close_marker_resets r)
    (sum_tcp_post_close_marker_resets r) (sum_tcp_sessions_open r)
    (sum_tcp_server_close_markers_open r) (sum_tcp_post_close_markers_open r)
    (sum_tcp_sessions_peak r) (sum_tcp_server_close_markers_peak r)
    (sum_tcp_post_close_markers_peak r) (sum_tcp_session_errors r) (sum_last_tcp_session_error
    r).

Definition TunPacketLoopSummary_default : TunPacketLoopSummary :=
  mkTunPacketLoopSummary 0 false false 0 0 0 0 0 0 None None 0 None None None [] [] 0 None None
    None 0 None 0 None 0 0 0 0 0 0 0 0 0 0 0 0 0 0 0 0 None.

(** [routes.push(route)], then [routes.drain(0..excess)] if it is longer than [limit]. *)
Definition push_bounded {A} (limit : Z) (routes : list A) (route : A) : list A :=
  let routes := routes ++ [route] in
  if limit <? len routes then drop (Z.to_nat (len routes - limit)) routes else routes.

Definition record_dropped_route (self : TunPacketLoopSummary) (route : TunPacketRouteDecision)
  : TunPacketLoopSummary :=
  self <| sum_last_dropped_flow := Some (route_flow route) |>
       <| sum_last_dropped_route_action := Some (route_action route) |>
       <| sum_last_dropped_matched_rule := route_matched_rule route |>
       <| sum_recent_dropped_routes :=
            push_bounded TUN_PACKET_LOOP_DROPPED_ROUTE_HISTORY_LIMIT
              (sum_recent_dropped_routes self) route |>.

Definition record_dns_hijacked_route (self : TunPacketLoopSummary) (plan : TunDnsHijackPlan)
  : TunPacketLoopSummary :=
  self <| sum_recent_dns_hijacked_routes :=
            push_bounded TUN_PACKET_LOOP_DNS_HIJACK_ROUTE_HISTORY_LIMIT
              (sum_recent_dns_hijacked_routes self)
              (mkTunPacketRouteDecision (hijack_flow plan) Route_HijackDns None true) |>.

(** The last relayed route. *)
Definition record_relay_route (self : TunPacketLoopSummary) (plan : TunPacketRelayPlan)
  : TunPacketLoopSummary :=
  self <| sum_last_relay_route_action := Some (route_action (plan_route plan)) |>
       <| sum_last_relay_matched_rule := route_matched_rule (plan_route plan) |>.

(** [if let CloseMarkerReset { kind, .. } = step { match kind { .. } }] *)
Definition record_close_marker_reset (self : TunPacketLoopSummary) (step : TunTcpSessionStep)
  : TunPacketLoopSummary :=
  match step with
  | Step_CloseMarkerReset _ Marker_ServerClose =>
      self <| sum_tcp_server_close_marker_resets :=
                sum_tcp_server_close_marker_resets self + 1 |>
  | Step_CloseMarkerReset _ Marker_PostClose =>
      self <| sum_tcp_post_close_marker_resets := sum_tcp_post_close_marker_resets self + 1 |>
  | _ => self
  end.

Definition record_event (self : TunPacketLoopSummary) (event : TunPacketLoopEvent)
  : TunPacketLoopSummary :=
  match event with
  | Event_NoPacket => self <| sum_idle_events := sum_idle_events self + 1 |>
  | Event_WrotePacket response =>
      let self := self <| sum_dns_responses_written := sum_dns_responses_written self + 1 |> in
      record_dns_hijacked_route self (dnsr_plan response)
  | Event_WroteUdpRelayPacket response =>
      let self := self <| sum_udp_relay_responses_written :=
                            sum_udp_relay_responses_written self + 1 |> in
      let self := record_relay_route self (udpr_plan response) in
      if is_udp_action (plan_relay_action (udpr_plan response))
      then self <| sum_udp_relay_plans := sum_udp_relay_plans self + 1 |>
      else self
  | Event_WroteTcpResetPacket _ =>
      self <| sum_tcp_resets_written := sum_tcp_resets_written self + 1 |>
  | Event_TcpSession plan step packets_written =>
      let self := self
        <| sum_tcp_session_events := sum_tcp_session_events self + 1 |>
        <| sum_tcp_session_packets_written :=
             sum_tcp_session_packets_written self + packets_written |> in
      let self := record_relay_route self plan in
      let self :=
        if is_tcp_action (plan_relay_action plan)
        then self <| sum_tcp_relay_plans := sum_tcp_relay_plans self + 1 |>
        else self in
      record_close_marker_reset self step
  | Event_Relay plan =>
      let self := self <| sum_relay_packets := sum_relay_packets self + 1 |> in
      let self := record_relay_route self plan in
      if is_tcp_action (plan_relay_action plan)
      then self <| sum_tcp_relay_plans := sum_tcp_relay_plans self + 1 |>
      else if is_udp_action (plan_relay_action plan)
      then self <| sum_udp_relay_plans := sum_udp_relay_plans self + 1 |>
      else self
  | Event_Drop plan =>
      let self := self <| sum_dropped_packets := sum_dropped_packets self + 1 |> in
      record_dropped_route self (plan_route plan)
  | Event_Unsupported plan =>
      self <| sum_unsupported_packets := sum_unsupported_packets self + 1 |>
           <| sum_last_unsupported_flow := Some (route_flow (plan_route plan)) |>
           <| sum_last_unsupported_route_action := Some (route_action (plan_route plan)) |>
           <| sum_last_unsupported_matched_rule := route_matched_rule (plan_route plan) |>
  | Event_PacketError error =>
      self <| sum_packet_errors := sum_packet_errors self + 1 |>
           <| sum_last_packet_error := Some error |>
  | Event_UdpRelayError error =>
      self <| sum_udp_relay_errors := sum_udp_relay_errors self + 1 |>
           <| sum_last_udp_relay_error := Some error |>
  | Event_TcpSessionError error =>
      let self := self <| sum_tcp_session_errors := sum_tcp_session_errors self + 1 |> in
      let self :=
        if is_session_limit_exceeded error
        then self <| sum_tcp_session_limit_rejections :=
                       sum_tcp_session_limit_rejections self + 1 |>
        else self in
      self <| sum_last_tcp_session_error := Some error |>
  end.

Definition from_events (events : list TunPacketLoopEvent) : TunPacketLoopSummary :=
  fold_left record_event events TunPacketLoopSummary_default.

Definition record_tcp_session_prune_report (self : TunPacketLoopSummary)
  (report : TunTcpSessionPruneReport) : TunPacketLoopSummary :=
  let self := self
    <| sum_tcp_sessions_pruned := sum_tcp_sessions_pruned self + report_pruned_sessions report |>
    <| sum_tcp_server_closed_sessions_pruned :=
         sum_tcp_server_closed_sessions_pruned self + report_pruned_server_closed_sessions report |>
    <| sum_tcp_post_closed_sessions_pruned :=
         sum_tcp_post_closed_sessions_pruned self + report_pruned_post_closed_sessions report |>
    <| sum_tcp_session_errors := sum_tcp_session_errors self + report_close_errors report |> in
  match report_last_close_error report with
  | Some error => self <| sum_last_tcp_session_error := Some error |>
  | None => self
  end.

Definition record_stop_requested (self : TunPacketLoopSummary) : TunPacketLoopSummary :=
  self <| sum_stop_requested := true |>.

Definition record_packet_limit_reached (self : TunPacketLoopSummary) : TunPacketLoopSummary :=
  self <| sum_packet_limit_reached := true |>.

Definition record_tcp_session_table_state (self : TunPacketLoopSummary)
  (sessions : TunTcpSessionTable) : TunPacketLoopSummary :=
  let state := state_counts sessions in
  self <| sum_tcp_max_active_sessions := state_max_active_sessions state |>
       <| sum_tcp_sessions_open := state_active_sessions state |>
       <| sum_tcp_server_close_markers_open := state_server_close_markers state |>
       <| sum_tcp_post_close_markers_open := state_post_close_markers state |>
       <| sum_tcp_sessions_peak := Z.max (sum_tcp_sessions_peak self) (state_active_sessions state) |>
       <| sum_tcp_server_close_markers_peak :=
            Z.max (sum_tcp_server_close_markers_peak self) (state_server_close_markers state) |>
       <| sum_tcp_post_close_markers_peak :=
            Z.max (sum_tcp_post_close_markers_peak self) (state_post_close_markers state) |>.

Inductive TunPacketLoopExitReason : Type :=
| Exit_Unknown
| Exit_Idle
| Exit_StopRequested
| Exit_PacketLimitReached.

Definition exit_reason_label (self : TunPacketLoopExitReason) : string :=
  match self with
  | Exit_Unknown => "unknown"
  | Exit_Idle => "idle"
  | Exit_StopRequested => "stop-requested"
  | Exit_PacketLimitReached => "packet-limit-reached"
  end.

Definition exit_reason (self : TunPacketLoopSummary) : TunPacketLoopExitReason :=
  if sum_stop_requested self then Exit_StopRequested
  else if sum_packet_limit_reached self then Exit_PacketLimitReached
  else if 0 <? sum_idle_events self then Exit_Idle
  else Exit_Unknown.

Definition processed_packets (self : TunPacketLoopSummary) : Z :=
  sum_dns_responses_written self + sum_udp_relay_responses_written self
  + sum_tcp_resets_written self + sum_tcp_session_events self + sum_relay_packets self
  + sum_dropped_packets self + sum_unsupported_packets self + sum_packet_errors self
  + sum_udp_relay_errors self + sum_tcp_session_errors self.

(** ** What the summary says of the events *)

(** A packet was read. *)
Definition is_packet_event (e : TunPacketLoopEvent) : bool :=
  match e with Event_NoPacket => false | _ => true end.

Definition packet_events (events : list TunPacketLoopEvent) : list TunPacketLoopEvent :=
  List.filter is_packet_event events.

(** The routes of the dropped packets, and of the hijacked queries, in order. *)
Definition dropped_routes (events : list TunPacketLoopEvent) : list TunPacketRouteDecision :=
  omap (fun e => match e with Event_Drop plan => Some (plan_route plan) | _ => None end) events.

Definition hijacked_routes (events : list TunPacketLoopEvent) : list TunPacketRouteDecision :=
  omap (fun e => match e with
                 | Event_WrotePacket r =>
                     Some (mkTunPacketRouteDecision (hijack_flow (dnsr_plan r)) Route_HijackDns
                             None true)
                 | _ => None
                 end) events.

(** The last [n] elements. *)
Definition last_n {A} (n : Z) (l : list A) : list A := drop (length l - Z.to_nat n) l.

Lemma push_bounded_last {A} n (l : list A) x :
  0 <= n -> push_bounded n (last_n n l) x = last_n n (l ++ [x]).
Proof.
  intros Hn. unfold push_bounded, last_n. rewrite len_app, len_cons, len_nil.
  unfold len. rewrite length_drop, length_app. cbn [length].
  destruct (Z.ltb_spec n (Z.of_nat (length l - (length l - Z.to_nat n)) + (1 + 0))) as [H|H].
  - rewrite <- drop_app_le by lia. rewrite drop_drop. f_equal. lia.
  - rewrite <- drop_app_le by lia. f_equal. lia.
Qed.

(** The parts of a summary that the theorems speak of. *)
Definition summary_view (s : TunPacketLoopSummary)
  : Z * Z * bool * bool * list TunPacketRouteDecision * list TunPacketRouteDecision :=
  (processed_packets s, sum_idle_events s, sum_packet_limit_reached s, sum_stop_requested s,
   sum_recent_dropped_routes s, sum_recent_dns_hijacked_routes s).

Lemma record_close_marker_reset_view s step :
  summary_view (record_close_marker_reset s step) = summary_view s.
Proof. destruct step; try done. by destruct kind. Qed.

(** What one event adds. *)
Lemma record_event_view s e :
  summary_view (record_event s e) =
  (processed_packets s + (if is_packet_event e then 1 else 0),
   sum_idle_events s + (if is_packet_event e then 0 else 1),
   sum_packet_limit_reached s, sum_stop_requested s,
   match e with
   | Event_Drop plan => push_bounded 256 (sum_recent_dropped_routes s) (plan_route plan)
   | _ => sum_recent_dropped_routes s
   end,
   match e with
   | Event_WrotePacket r =>
       push_bounded 256 (sum_recent_dns_hijacked_routes s)
         (mkTunPacketRouteDecision (hijack_flow (dnsr_plan r)) Route_HijackDns None true)
   | _ => sum_recent_dns_hijacked_routes s
   end).
Proof.
  destruct e as [|r|r|r|plan step n|plan|plan|plan|err|err|err]; cbn [record_event];
    rewrite ?record_close_marker_reset_view;
    repeat match goal with |- context [if ?c then _ else _] =>
      lazymatch c with is_packet_event _ => fail | _ => destruct c end end;
    unfold summary_view, processed_packets; cbn [is_packet_event];
    repeat match goal with |- (_, _) = (_, _) => apply pair_equal_spec; split end; try done; cbn; lia.
Qed.

Lemma record_event_counts s e :
  processed_packets (record_event s e) =
    processed_packets s + (if is_packet_event e then 1 else 0) /\
  sum_idle_events (record_event s e) =
    sum_idle_events s + (if is_packet_event e then 0 else 1) /\
  sum_packet_limit_reached (record_event s e) = sum_packet_limit_reached s /\
  sum_stop_requested (record_event s e) = sum_stop_requested s.
Proof. pose proof (record_event_view s e) as H. unfold summary_view in H. by simplify_eq. Qed.

Lemma record_event_routes s e :
  sum_recent_dropped_routes (record_event s e) =
    match e with
    | Event_Drop plan => push_bounded 256 (sum_recent_dropped_routes s) (plan_route plan)
    | _ => sum_recent_dropped_routes s
    end /\
  sum_recent_dns_hijacked_routes (record_event s e) =
    match e with
    | Event_WrotePacket r =>
        push_bounded 256 (sum_recent_dns_hijacked_routes s)
          (mkTunPacketRouteDecision (hijack_flow (dnsr_plan r)) Route_HijackDns None true)
    | _ => sum_recent_dns_hijacked_routes s
    end.
Proof. pose proof (record_event_view s e) as H. unfold summary_view in H. by simplify_eq. Qed.

Lemma fold_events_counts events s :
  processed_packets (fold_left record_event events s) =
    processed_packets s + len (packet_events events) /\
  sum_idle_events (fold_left record_event events s) =
    sum_idle_events s + (len events - len (packet_events events)).
Proof.
  revert s. induction events as [|e events IH]; intros s; cbn [fold_left packet_events List.filter].
  - rewrite len_nil. lia.
  - destruct (IH (record_event s e)) as [-> ->]. destruct (record_event_counts s e) as (-> & -> & _).
    unfold packet_events. destruct (is_packet_event e); rewrite !len_cons; lia.
Qed.

Lemma fold_events_routes events past s :
  sum_recent_dropped_routes s = last_n 256 (dropped_routes past) ->
  sum_recent_dns_hijacked_routes s = last_n 256 (hijacked_routes past) ->
  sum_recent_dropped_routes (fold_left record_event events s) =
    last_n 256 (dropped_routes (past ++ events)) /\
  sum_recent_dns_hijacked_routes (fold_left record_event events s) =
    last_n 256 (hijacked_routes (past ++ events)).
Proof.
  revert past s. induction events as [|e events IH]; intros past s Hd Hh; cbn [fold_left].
  - by rewrite app_nil_r.
  - replace (past ++ e :: events) with ((past ++ [e]) ++ events) by (by rewrite <- app_assoc).
    destruct (record_event_routes s e) as [Ed Eh].
    apply IH; rewrite ?Ed, ?Eh; unfold dropped_routes, hijacked_routes in *; rewrite omap_app.
    + destruct e; cbn; rewrite ?app_nil_r; try done. rewrite Hd. by apply push_bounded_last.
    + destruct e; cbn; rewrite ?app_nil_r; try done. rewrite Hh. by apply push_bounded_last.
Qed.

(** The summary of a list of events accounts for all of them: every packet
    read is counted as processed exactly once, every empty read as idle, and the
    two route histories are the last 256 dropped routes and the last 256 hijacked
    queries, in order. *)
Theorem summary_accounts_for_events events :
  let s := from_events events in
  processed_packets s = len (packet_events events) /\
  sum_idle_events s = len events - len (packet_events events) /\
  sum_recent_dropped_routes s = last_n 256 (dropped_routes events) /\
  sum_recent_dns_hijacked_routes s = last_n 256 (hijacked_routes events).
Proof.
  cbn zeta. unfold from_events.
  destruct (fold_events_counts events TunPacketLoopSummary_default) as [-> ->].
  destruct (fold_events_routes events [] TunPacketLoopSummary_default eq_refl eq_refl) as [-> ->].
  split_and!; reflexivity.
Qed.
