(* ===== verification/TunLoop.v ===== *)
(** * The packet loop

    [crates/keli-net-core/src/tun.rs]: the DNS hijack, the dispatch of a packet
    read from the device to the DNS engine, the UDP relay or the TCP sessions,
    and the loops that run it.

    The device, the DNS resolver and the relays are the traits of the source, as
    classes; what the loop holds by [&mut] is the record [World]. *)

From stdpp Require Import base gmap strings list numbers.
From S2P Require Import Prelude.
From S2P Require Import StdNet.
From S2P Require Import Route.
From S2P Require Import Dns.
From S2P Require Import TunPacket.
From S2P Require Import TunPlan.
From S2P Require Import TunSession.
From S2P Require Import TunProcess.
From S2P Require Import TunSummary.
#[local] Open Scope Z_scope.

(** ** Interfaces *)

Class TunPacketDevice (D : Type) := {
  read_packet : SM D string (option (list Z));
  write_packet : list Z -> SM D string unit
}.

(** [UdpRelayResponse] of [direct.rs]. *)
Record UdpRelayResponse : Type := mkUdpRelayResponse {
  relay_source : SocketAddr;
  relay_payload : list Z
}.

Class TunUdpRelay (U : Type) := {
  relay_udp_datagram : OutboundTarget -> list Z -> SM U string UdpRelayResponse;
  relay_outbound_udp_datagram : string -> OutboundTarget -> list Z -> SM U string UdpRelayResponse
}.

(** The trait's default for relays without outbounds. *)
Definition default_relay_outbound_udp_datagram {U} (tag : string) (_ : OutboundTarget)
  (_ : list Z) : SM U string UdpRelayResponse :=
  sm_lift (Err ("outbound UDP relay is unsupported for tag: " +:+ tag)).

Inductive TunPacketLoopError : Type :=
| Loop_Read (error : string)
| Loop_Write (error : string).

(** ** DNS hijack *)

Definition plan_tun_dns_hijack (packet : list Z) : result TunPacketError TunDnsHijackPlan :=
  udp <-? parse_tun_udp_payload packet;
  let flow := udp_flow udp in
  if negb (is_dns_hijack_candidate flow)
  then Err (NotDnsHijackCandidate (flow_destination_port flow))
  else
    question <-? map_err DnsWire (parse_dns_query (udp_payload udp));
    response_source <-? ok_or MissingUdpSocketAddress (destination_socket_addr flow);
    response_destination <-? ok_or MissingUdpSocketAddress (source_socket_addr flow);
    Ok (mkTunDnsHijackPlan flow question response_source response_destination).

Definition build_tun_dns_response_packet (plan : TunDnsHijackPlan) (payload : list Z)
  : result TunPacketError (list Z) :=
  build_tun_udp_response_packet (hijack_flow plan) payload.

Section Hijack.
Context {N : Type} {Resolver : DnsResolver N}.

(** A computation on the DNS engine. *)
Definition DnsM (A : Type) : Type := SM (DnsEngine N) TunPacketError A.

Definition build_tun_dns_hijack_payload (plan : TunDnsHijackPlan) (ttl_seconds now : Z)
  : DnsM (list Z * Z) :=
  match q_question_type (hijack_question plan) with
  | QType_Unsupported _ => sm_ret (build_dns_error_response (hijack_question plan) 4, 4)
  | _ => fun dns =>
      match DnsEngine_resolve (q_name (hijack_question plan)) 0 now dns with
      | (dns', Ok addresses) =>
          let ips := map resolved_ip addresses in
          (dns', Ok (build_dns_response (hijack_question plan) ips ttl_seconds, 0))
      | (dns', Err (LocalResolutionBlocked _ _))
      | (dns', Err (AddressFamilyFiltered _ _))
      | (dns', Err (NoRecords _)) =>
          (dns', Ok (build_dns_error_response (hijack_question plan) 3, 3))
      | (dns', Err error) => (dns', Err (DnsResolve error))
      | (dns', Panic) => (dns', Panic)
      end
  end.

Definition build_tun_dns_hijack_response (packet : list Z) (ttl_seconds now : Z)
  : DnsM TunDnsHijackResponse :=
  plan <-! sm_lift (plan_tun_dns_hijack packet);
  '(dns_payload, rcode) <-! build_tun_dns_hijack_payload plan ttl_seconds now;
  packet <-! sm_lift (build_tun_dns_response_packet plan dns_payload);
  sm_ret (mkTunDnsHijackResponse plan dns_payload packet rcode).

(** ** The decision on a packet *)

Definition build_tun_tcp_reset_response (plan : TunPacketRelayPlan) (segment : TunTcpSegment)
  : result TunPacketError TunTcpResetResponse :=
  let sequence_number := tcp_reset_sequence_number segment in
  let acknowledgment_number := tcp_reset_acknowledgment_number segment in
  packet <-? build_tun_tcp_response_packet (seg_flow segment) sequence_number
               acknowledgment_number (from_bits 20) 0 [];
  Ok (mkTunTcpResetResponse plan sequence_number acknowledgment_number packet).

Definition process_tun_packet (packet : list Z) (routes : RouteEngine)
  (dns_hijack_enabled : bool) (dns_ttl_seconds now : Z) : DnsM TunPacketProcessAction :=
  relay_plan <-! sm_lift (plan_tun_packet_relay packet routes dns_hijack_enabled);
  if bool_decide (plan_relay_action relay_plan = Action_HijackDns) then
    response <-! build_tun_dns_hijack_response packet dns_ttl_seconds now;
    sm_ret (WritePacket response)
  else if bool_decide (plan_relay_action relay_plan = Action_Drop)
          && bool_decide (flow_protocol (route_flow (plan_route relay_plan)) = Proto_Tcp) then
    segment <-! sm_lift (parse_tun_tcp_segment packet);
    if negb (flag_rst (seg_flags segment)) then
      response <-! sm_lift (build_tun_tcp_reset_response relay_plan segment);
      sm_ret (WriteTcpReset response)
    else sm_ret (Process_Relay relay_plan)
  else sm_ret (Process_Relay relay_plan).
End Hijack.

(** ** UDP relay *)

Section Udp.
Context {U : Type} {UdpRelay : TunUdpRelay U}.

Definition relay_tun_udp_packet (packet : list Z) (plan : TunPacketRelayPlan)
  : SM U TunUdpRelayError TunUdpRelayResponse :=
  udp <-! sm_lift (map_err UdpRelay_Packet (parse_tun_udp_payload packet));
  if negb (bool_decide (udp_flow udp = route_flow (plan_route plan)))
  then sm_lift (Err (PlanFlowMismatch (udp_flow udp) (route_flow (plan_route plan))))
  else
    relay_response <-!
      match plan_relay_action plan with
      | Action_DirectUdp target =>
          sm_zoom id (fun u _ => u) UdpRelay_Relay (relay_udp_datagram target (udp_payload udp))
      | Action_OutboundUdp tag target =>
          sm_zoom id (fun u _ => u) UdpRelay_Relay
            (relay_outbound_udp_datagram tag target (udp_payload udp))
      | action => sm_lift (Err (UnsupportedRelayAction action))
      end;
    packet <-! sm_lift (map_err UdpRelay_ResponsePacket
                          (build_tun_udp_response_packet (udp_flow udp)
                             (relay_payload relay_response)));
    sm_ret (mkTunUdpRelayResponse plan (relay_source relay_response)
              (relay_payload relay_response) packet).

Definition relay_tun_direct_udp_packet (packet : list Z) (plan : TunPacketRelayPlan)
  : SM U TunUdpRelayError TunUdpRelayResponse :=
  match plan_relay_action plan with
  | Action_DirectUdp _ => relay_tun_udp_packet packet plan
  | action => sm_lift (Err (UnsupportedRelayAction action))
  end.
End Udp.

(** ** One packet *)

(** What the loop holds by mutable reference. *)
Record World (D N U T : Type) : Type := mkWorld {
  w_device : D;
  w_dns : DnsEngine N;
  w_udp : U;
  w_tcp : T;
  w_sessions : TunTcpSessionTable
}.

Arguments mkWorld {D N U T}.
Arguments w_device {D N U T}.
Arguments w_dns {D N U T}.
Arguments w_udp {D N U T}.
Arguments w_tcp {D N U T}.
Arguments w_sessions {D N U T}.

(** The arguments that every round shares. *)
Record LoopConfig : Type := mkLoopConfig {
  cfg_routes : RouteEngine;
  cfg_dns_hijack_enabled : bool;
  cfg_dns_ttl_seconds : Z;
  cfg_server_initial_sequence_number : Z;
  cfg_window_size : Z;
  cfg_session_idle_timeout : Z
}.

(** What a round reads from the clock (for the DNS engine, for pruning, at the
    sites of the segment processor), and the order in which the hash map of the
    sessions yields the keys of a table. *)
Record RoundEnv : Type := mkRoundEnv {
  env_dns_now : Z;
  env_prune_now : Z;
  env_clk : nat -> Z;
  env_order : TunTcpSessionTable -> list TunTcpSessionKey
}.

Section Loop.
Context {D N U T : Type} {Device : TunPacketDevice D} {Resolver : DnsResolver N}
  {UdpRelay : TunUdpRelay U} {TcpRelay : TunTcpSessionRelay T}.

Definition LM (A : Type) : Type := SM (World D N U T) TunPacketLoopError A.

(** [device.read_packet().map_err(TunPacketLoopError::Read)?] and the same for
    [write_packet]. *)
Definition on_device {A} (f : string -> TunPacketLoopError) (m : SM D string A) : LM A :=
  sm_zoom w_device (fun d w => mkWorld d (w_dns w) (w_udp w) (w_tcp w) (w_sessions w)) f m.

Definition device_read : LM (option (list Z)) := on_device Loop_Read read_packet.

Definition device_write (packet : list Z) : LM unit := on_device Loop_Write (write_packet packet).

(** [match m { Ok(a) => k(a), Err(error) => return Ok(event(error)) }] *)
Definition or_event {E A} (m : SM (World D N U T) E A) (event : E -> TunPacketLoopEvent)
  (k : A -> LM TunPacketLoopEvent) : LM TunPacketLoopEvent :=
  fun w =>
    match m w with
    | (w', Ok a) => k a w'
    | (w', Err e) => (w', Ok (event e))
    | (w', Panic) => (w', Panic)
    end.

Definition on_dns {E A} (m : SM (DnsEngine N) E A) : SM (World D N U T) E A :=
  sm_zoom w_dns (fun n w => mkWorld (w_device w) n (w_udp w) (w_tcp w) (w_sessions w)) id m.

Definition on_udp {E A} (m : SM U E A) : SM (World D N U T) E A :=
  sm_zoom w_udp (fun u w => mkWorld (w_device w) (w_dns w) u (w_tcp w) (w_sessions w)) id m.

Definition on_tcp {E A} (m : SM (T * TunTcpSessionTable) E A) : SM (World D N U T) E A :=
  sm_zoom (fun w => (w_tcp w, w_sessions w))
    (fun p w => mkWorld (w_device w) (w_dns w) (w_udp w) (fst p) (snd p)) id m.

(** The part that the four device functions share: read, decide, answer DNS and
    blocked TCP; [relay] handles a packet to be relayed. *)
Definition process_device_packet (cfg : LoopConfig) (env : RoundEnv)
  (relay : list Z -> TunPacketRelayPlan -> LM TunPacketLoopEvent) : LM TunPacketLoopEvent :=
  packet <-! device_read;
  match packet with
  | None => sm_ret Event_NoPacket
  | Some packet =>
      or_event (on_dns (process_tun_packet packet (cfg_routes cfg) (cfg_dns_hijack_enabled cfg)
                          (cfg_dns_ttl_seconds cfg) (env_dns_now env)))
        Event_PacketError
        (fun action =>
           match action with
           | WritePacket response =>
               do! device_write (dnsr_packet response);
               sm_ret (Event_WrotePacket response)
           | WriteTcpReset response =>
               do! device_write (tcpr_packet response);
               sm_ret (Event_WroteTcpResetPacket response)
           | Process_Relay plan => relay packet plan
           end)
  end.

Definition process_tun_device_packet (cfg : LoopConfig) (env : RoundEnv)
  : LM TunPacketLoopEvent :=
  process_device_packet cfg env (fun _ plan => sm_ret (loop_event_for_relay_plan plan)).

(** A datagram through the UDP relay. *)
Definition relay_udp_plan (packet : list Z) (plan : TunPacketRelayPlan)
  : LM TunPacketLoopEvent :=
  or_event (on_udp (relay_tun_udp_packet packet plan)) Event_UdpRelayError
    (fun response =>
       do! device_write (udpr_packet response);
       sm_ret (Event_WroteUdpRelayPacket response)).

Definition process_tun_device_packet_with_udp_relay (cfg : LoopConfig) (env : RoundEnv)
  : LM TunPacketLoopEvent :=
  process_device_packet cfg env (fun packet plan =>
    if is_udp_action (plan_relay_action plan) then relay_udp_plan packet plan
    else sm_ret (loop_event_for_relay_plan plan)).

(** [for packet in packets { device.write_packet(packet)? }] *)
Fixpoint write_packets (packets : list (list Z)) : LM unit :=
  match packets with
  | [] => sm_ret tt
  | packet :: packets' => do! device_write packet; write_packets packets'
  end.

(** A segment through the TCP sessions. *)
Definition relay_tcp_plan (cfg : LoopConfig) (env : RoundEnv) (packet : list Z)
  (plan : TunPacketRelayPlan) : LM TunPacketLoopEvent :=
  or_event (sm_lift (parse_tun_tcp_segment packet)) Event_PacketError (fun segment =>
  or_event (on_tcp (process_tun_tcp_session_segment_with_relay_plan segment (Some plan)
                      (cfg_server_initial_sequence_number cfg) (cfg_window_size cfg)
                      (env_clk env)))
    Event_TcpSessionError (fun step =>
    let packets := response_packets step in
    do! write_packets packets;
    sm_ret (Event_TcpSession plan step (len packets)))).

Definition process_tun_device_packet_with_tcp_session_relay (cfg : LoopConfig) (env : RoundEnv)
  : LM TunPacketLoopEvent :=
  process_device_packet cfg env (fun packet plan =>
    if negb (is_tcp_action (plan_relay_action plan))
    then sm_ret (loop_event_for_relay_plan plan)
    else relay_tcp_plan cfg env packet plan).

Definition process_tun_device_packet_with_relays (cfg : LoopConfig) (env : RoundEnv)
  : LM TunPacketLoopEvent :=
  process_device_packet cfg env (fun packet plan =>
    if is_udp_action (plan_relay_action plan) then relay_udp_plan packet plan
    else if is_tcp_action (plan_relay_action plan) then relay_tcp_plan cfg env packet plan
    else sm_ret (loop_event_for_relay_plan plan)).

(** ** The loops *)

(** [event == TunPacketLoopEvent::NoPacket]. *)
Definition is_no_packet (event : TunPacketLoopEvent) : bool :=
  match event with Event_NoPacket => true | _ => false end.

(** The events of [run_tun_packet_loop]: [for _ in 0..max_packets], left at the
    first empty read. [envs i] is what the [i]-th round reads. *)
Fixpoint loop_events (process : RoundEnv -> LM TunPacketLoopEvent) (envs : nat -> RoundEnv)
  (i max_packets : nat) : LM (list TunPacketLoopEvent) :=
  match max_packets with
  | O => sm_ret []
  | S max_packets' =>
      event <-! process (envs i);
      if is_no_packet event then sm_ret [event]
      else
        events <-! loop_events process envs (S i) max_packets';
        sm_ret (event :: events)
  end.

Definition run_tun_packet_loop (cfg : LoopConfig) (envs : nat -> RoundEnv) (max_packets : nat)
  : LM (list TunPacketLoopEvent) :=
  loop_events (process_tun_device_packet cfg) envs 0 max_packets.

(** The summary loops: [round] is the body of the loop up to its [should_stop]. *)
Fixpoint loop_rounds (round : RoundEnv -> TunPacketLoopSummary ->
                              LM (TunPacketLoopSummary * bool))
  (envs : nat -> RoundEnv) (i max_packets : nat) (summary : TunPacketLoopSummary)
  : LM TunPacketLoopSummary :=
  match max_packets with
  | O => sm_ret (record_packet_limit_reached summary)
  | S max_packets' =>
      '(summary, should_stop) <-! round (envs i) summary;
      if should_stop : bool then sm_ret summary
      else loop_rounds round envs (S i) max_packets' summary
  end.

Definition event_round (process : RoundEnv -> LM TunPacketLoopEvent) (env : RoundEnv)
  (summary : TunPacketLoopSummary) : LM (TunPacketLoopSummary * bool) :=
  event <-! process env;
  sm_ret (record_event summary event, is_no_packet event).

Definition run_tun_packet_loop_summary (cfg : LoopConfig) (envs : nat -> RoundEnv)
  (max_packets : nat) : LM TunPacketLoopSummary :=
  loop_rounds (event_round (process_tun_device_packet cfg)) envs 0 max_packets
    TunPacketLoopSummary_default.

Definition run_tun_packet_loop_with_udp_relay_summary (cfg : LoopConfig)
  (envs : nat -> RoundEnv) (max_packets : nat) : LM TunPacketLoopSummary :=
  loop_rounds (event_round (process_tun_device_packet_with_udp_relay cfg)) envs 0 max_packets
    TunPacketLoopSummary_default.

(** [prune_idle_tun_tcp_sessions(sessions, tcp_relay, Instant::now(), session_idle_timeout)] *)
Definition prune_sessions (cfg : LoopConfig) (env : RoundEnv) : LM TunTcpSessionPruneReport :=
  w <-! sm_get;
  on_tcp (prune_idle_tun_tcp_sessions (env_order env (w_sessions w)) (env_prune_now env)
            (cfg_session_idle_timeout cfg)).

(** The body of the loops with TCP sessions. *)
Definition session_round (cfg : LoopConfig) (process : RoundEnv -> LM TunPacketLoopEvent)
  (env : RoundEnv) (summary : TunPacketLoopSummary) : LM (TunPacketLoopSummary * bool) :=
  prune_report <-! prune_sessions cfg env;
  let summary := record_tcp_session_prune_report summary prune_report in
  event <-! process env;
  let summary := record_event summary event in
  w <-! sm_get;
  let summary := record_tcp_session_table_state summary (w_sessions w) in
  sm_ret (summary, is_no_packet event).

Definition session_loop (cfg : LoopConfig) (process : RoundEnv -> LM TunPacketLoopEvent)
  (envs : nat -> RoundEnv) (max_packets : nat) : LM TunPacketLoopSummary :=
  summary <-! loop_rounds (session_round cfg process) envs 0 max_packets
                TunPacketLoopSummary_default;
  w <-! sm_get;
  sm_ret (record_tcp_session_table_state summary (w_sessions w)).

Definition run_tun_packet_loop_with_tcp_session_relay_summary_with_idle_timeout
  (cfg : LoopConfig) (envs : nat -> RoundEnv) (max_packets : nat) : LM TunPacketLoopSummary :=
  session_loop cfg (process_tun_device_packet_with_tcp_session_relay cfg) envs max_packets.

Definition run_tun_packet_loop_with_relays_summary_with_idle_timeout
  (cfg : LoopConfig) (envs : nat -> RoundEnv) (max_packets : nat) : LM TunPacketLoopSummary :=
  session_loop cfg (process_tun_device_packet_with_relays cfg) envs max_packets.

(** [DEFAULT_TUN_TCP_SESSION_IDLE_TIMEOUT], in nanoseconds. *)
Definition DEFAULT_TUN_TCP_SESSION_IDLE_TIMEOUT : Z := 300 * 1000000000.

Definition with_default_timeout (cfg : LoopConfig) : LoopConfig :=
  mkLoopConfig (cfg_routes cfg) (cfg_dns_hijack_enabled cfg) (cfg_dns_ttl_seconds cfg)
    (cfg_server_initial_sequence_number cfg) (cfg_window_size cfg)
    DEFAULT_TUN_TCP_SESSION_IDLE_TIMEOUT.

Definition run_tun_packet_loop_with_tcp_session_relay_summary (cfg : LoopConfig)
  (envs : nat -> RoundEnv) (max_packets : nat) : LM TunPacketLoopSummary :=
  run_tun_packet_loop_with_tcp_session_relay_summary_with_idle_timeout
    (with_default_timeout cfg) envs max_packets.

Definition run_tun_packet_loop_with_relays_summary (cfg : LoopConfig)
  (envs : nat -> RoundEnv) (max_packets : nat) : LM TunPacketLoopSummary :=
  run_tun_packet_loop_with_relays_summary_with_idle_timeout
    (with_default_timeout cfg) envs max_packets.
End Loop.
