(* ===== verification/TunLoopSpec.v ===== *)
(** * What the packet loop promises

    Theorems about [TunLoop]: which part of the client a packet may reach, the
    answer to a blocked connection and to a hijacked DNS query as the
    application sees it, the agreement of the loop's summary with its events,
    and the safety of a whole run of the loop. *)

From stdpp Require Import base gmap strings list numbers.
From S2P Require Import Prelude.
From S2P Require Import StdNet.
From S2P Require Import Route.
From S2P Require Import Dns.
From S2P Require Import TunPacket.
From S2P Require Import TunPacketBuild.
From S2P Require Import TunPlan.
From S2P Require Import TunSession.
From S2P Require Import TunSessionInv.
From S2P Require Import TunProcess.
From S2P Require Import TunProcessInv.
From S2P Require Import TunProcessSpec.
From S2P Require Import TunSummary.
From S2P Require Import TunLoop.
#[local] Open Scope Z_scope.

(** ** The decision on a packet *)

(** The plan for a packet of the flow [flow]. *)
Definition plan_for (routes : RouteEngine) (hijack : bool) (flow : TunPacketFlow)
  : TunPacketRelayPlan :=
  let action := routed_action routes hijack flow in
  mkTunPacketRelayPlan
    (mkTunPacketRouteDecision flow action
       (if hijack && is_dns_hijack_candidate flow then None
        else decision_matched_rule
               (RouteEngine_decide_destination routes (route_destination flow)))
       (hijack && is_dns_hijack_candidate flow))
    (planned_action flow action).

Lemma plan_of_flow packet routes hijack flow :
  parse_tun_packet_flow packet = Ok flow ->
  plan_tun_packet_relay packet routes hijack = Ok (plan_for routes hijack flow).
Proof. intros H. by rewrite plan_tun_packet_relay_spec, H. Qed.

Lemma planned_hijack flow a : planned_action flow a = Action_HijackDns <-> a = Route_HijackDns.
Proof.
  destruct a; cbn; try (split; congruence);
    unfold tun_relay_action_for_transport; repeat break_goal; split; congruence.
Qed.

Lemma planned_drop flow a : planned_action flow a = Action_Drop <-> a = Route_Block.
Proof.
  destruct a; cbn; try (split; congruence);
    unfold tun_relay_action_for_transport; repeat break_goal; split; congruence.
Qed.

Section Packet.
Context {N : Type} {Resolver : DnsResolver N}.

(** Unless it is hijacked, a packet does not reach the DNS engine; and a packet is
    left to the relays only on the plan of its flow. *)
Lemma process_tun_packet_frame packet routes hijack ttl now (dns : DnsEngine N) :
  let '(dns', outcome) := process_tun_packet packet routes hijack ttl now dns in
  (forall flow, parse_tun_packet_flow packet = Ok flow ->
     routed_action routes hijack flow <> Route_HijackDns -> dns' = dns) /\
  ((forall flow, parse_tun_packet_flow packet <> Ok flow) -> dns' = dns) /\
  (forall plan, outcome = Ok (Process_Relay plan) ->
     exists flow, parse_tun_packet_flow packet = Ok flow /\ plan = plan_for routes hijack flow).
Proof.
  unfold process_tun_packet, sm_bind, sm_lift, sm_ret.
  destruct (parse_tun_packet_flow packet) as [flow| |] eqn:Hflow.
  2,3: rewrite plan_tun_packet_relay_spec, Hflow; cbn; split_and!; (done || congruence).
  rewrite (plan_of_flow _ _ _ _ Hflow). cbn -[build_tun_dns_hijack_response plan_for]. unfold plan_for at 1 2 3. cbn [plan_relay_action plan_route route_flow].
  destruct (bool_decide_reflect (planned_action flow (routed_action routes hijack flow)
                                 = Action_HijackDns)) as [Hh|Hh].
  - apply planned_hijack in Hh.
    destruct (build_tun_dns_hijack_response packet ttl now dns) as [dns' [r| |]]; cbn;
      (split; [|split]); (done || (intros Hno; by destruct (Hno flow)) || (intros f [= <-]; done)).
  - repeat break_goal; (split; [|split]); try done; try (intros Hno; by destruct (Hno flow));
      intros plan Hp; (done || (injection Hp as <-; by exists flow)).
Qed.
End Packet.

(** What a relay action says of the route. *)
Lemma planned_udp flow a :
  is_udp_action (planned_action flow a) = true ->
  ~ ((a = Route_Block \/ a = Route_HijackDns) \/ flow_protocol flow <> Proto_Udp).
Proof.
  intros H. pose proof (proj2 (planned_action_transport flow a) H).
  intros [[->| ->]|?]; done.
Qed.

Lemma planned_tcp flow a :
  is_tcp_action (planned_action flow a) = true ->
  ~ ((a = Route_Block \/ a = Route_HijackDns) \/ flow_protocol flow <> Proto_Tcp).
Proof.
  intros H. pose proof (proj1 (planned_action_transport flow a) H).
  intros [[->| ->]|?]; done.
Qed.

(** ** Frames *)

Section Frames.
Context {D N U T : Type} {Device : TunPacketDevice D} {Resolver : DnsResolver N}
  {UdpRelay : TunUdpRelay U} {TcpRelay : TunTcpSessionRelay T}.

(** The world with another device. *)
Definition with_device (d : D) (w : World D N U T) : World D N U T :=
  mkWorld d (w_dns w) (w_udp w) (w_tcp w) (w_sessions w).

(** A computation leaves the part [f] of the world alone. *)
Definition keeps {E A B} (f : World D N U T -> B) (m : SM (World D N U T) E A) : Prop :=
  forall w, f (fst (m w)) = f w.

Lemma keeps_ret {E A B} (f : World D N U T -> B) (a : A) : keeps f (@sm_ret _ E _ a).
Proof. done. Qed.

Lemma keeps_lift {E A B} (f : World D N U T -> B) (r : result E A) : keeps f (sm_lift r).
Proof. done. Qed.

Lemma keeps_bind {E A C B} (f : World D N U T -> B) (m : SM (World D N U T) E A)
  (k : A -> SM (World D N U T) E C) :
  keeps f m -> (forall a, keeps f (k a)) -> keeps f (sm_bind m k).
Proof.
  intros Hm Hk w. unfold sm_bind. specialize (Hm w).
  destruct (m w) as [w' [a| |]]; cbn in *; [|done..]. by rewrite Hk.
Qed.

Lemma keeps_or_event {E A B} (f : World D N U T -> B) (m : SM (World D N U T) E A) event k :
  keeps f m -> (forall a, keeps f (k a)) -> keeps f (or_event m event k).
Proof.
  intros Hm Hk w. unfold or_event. specialize (Hm w).
  destruct (m w) as [w' [a| |]]; cbn in *; [|done..]. by rewrite Hk.
Qed.

Lemma keeps_zoom {E F A B S} (f : World D N U T -> B) get put (g : E -> F) (m : SM S E A) :
  (forall s w, f (put s w) = f w) -> keeps f (sm_zoom get put g m).
Proof. intros Hf w. unfold sm_zoom. destruct (m (get w)). apply Hf. Qed.

(** What the world holds besides the device. *)
Definition off_device (w : World D N U T) : DnsEngine N * U * T * TunTcpSessionTable :=
  (w_dns w, w_udp w, w_tcp w, w_sessions w).

Lemma keeps_off_device {A B} (f : World D N U T -> B) (m : LM (D := D) A) :
  (forall w w', off_device w = off_device w' -> f w = f w') ->
  keeps off_device m -> keeps f m.
Proof. intros Hf Hm w. apply Hf, Hm. Qed.

Lemma keeps_device_write packet : keeps off_device (device_write packet).
Proof. by apply keeps_zoom. Qed.

Lemma keeps_write_packets packets : keeps off_device (write_packets packets).
Proof.
  induction packets; cbn; [apply keeps_ret|].
  apply keeps_bind; [apply keeps_device_write|done].
Qed.

Lemma keeps_relay_udp_plan packet plan :
  keeps (fun w => (w_dns w, w_tcp w, w_sessions w)) (relay_udp_plan packet plan).
Proof.
  apply keeps_or_event; [by apply keeps_zoom|]. intros response.
  apply keeps_bind; [|intros; apply keeps_ret].
  apply keeps_off_device; [|apply keeps_device_write]. unfold off_device. congruence.
Qed.

Lemma keeps_relay_tcp_plan cfg env packet plan :
  keeps (fun w => (w_dns w, w_udp w)) (relay_tcp_plan cfg env packet plan).
Proof.
  apply keeps_or_event; [apply keeps_lift|]. intros segment.
  apply keeps_or_event; [by apply keeps_zoom|]. intros step.
  apply keeps_bind; [|intros; apply keeps_ret].
  apply keeps_off_device; [|apply keeps_write_packets]. unfold off_device. congruence.
Qed.

(** The round, once a packet is read. *)
Lemma device_packet_run cfg env relay w d' packet :
  read_packet (w_device w) = (d', Ok (Some packet)) ->
  process_device_packet cfg env relay w =
  or_event (on_dns (process_tun_packet packet (cfg_routes cfg) (cfg_dns_hijack_enabled cfg)
                      (cfg_dns_ttl_seconds cfg) (env_dns_now env)))
    Event_PacketError
    (fun action =>
       match action with
       | WritePacket response =>
           do! device_write (dnsr_packet response); sm_ret (Event_WrotePacket response)
       | WriteTcpReset response =>
           do! device_write (tcpr_packet response); sm_ret (Event_WroteTcpResetPacket response)
       | Process_Relay plan => relay packet plan
       end) (with_device d' w).
Proof.
  intros Hread. unfold process_device_packet, sm_bind at 1, device_read, on_device, sm_zoom.
  by rewrite Hread.
Qed.

(** The world after a round is the one the decision left, up to the device, or the
    one a relay left on the plan of the packet's flow. *)
Lemma relays_round_cases cfg env w d' packet :
  read_packet (w_device w) = (d', Ok (Some packet)) ->
  let w' := fst (process_tun_device_packet_with_relays cfg env w) in
  let routes := cfg_routes cfg in
  let hijack := cfg_dns_hijack_enabled cfg in
  exists dns',
    (forall flow, parse_tun_packet_flow packet = Ok flow ->
       routed_action routes hijack flow <> Route_HijackDns -> dns' = w_dns w) /\
    ((forall flow, parse_tun_packet_flow packet <> Ok flow) -> dns' = w_dns w) /\
    let w1 := mkWorld d' dns' (w_udp w) (w_tcp w) (w_sessions w) in
    (off_device w' = off_device w1 \/
     exists flow, parse_tun_packet_flow packet = Ok flow /\
       let plan := plan_for routes hijack flow in
       (is_udp_action (plan_relay_action plan) = true /\ w' = fst (relay_udp_plan packet plan w1)) \/
       (is_tcp_action (plan_relay_action plan) = true /\
        w' = fst (relay_tcp_plan cfg env packet plan w1))).
Proof.
  intros Hread. cbn zeta. unfold process_tun_device_packet_with_relays.
  erewrite device_packet_run by exact Hread. unfold or_event, on_dns, sm_zoom.
  cbn [w_dns with_device].
  pose proof (process_tun_packet_frame packet (cfg_routes cfg) (cfg_dns_hijack_enabled cfg)
    (cfg_dns_ttl_seconds cfg) (env_dns_now env) (w_dns w)) as Hframe.
  destruct (process_tun_packet _ _ _ _ _ _) as [dns' outcome].
  destruct Hframe as (Hdns & Hbad & Hplan). exists dns'. split; [done|]. split; [done|].
  destruct outcome as [[response|response|plan]| |]; cbn [map_err]; try (by left).
  - left. refine (keeps_bind off_device _ _ (keeps_device_write _) _ _). intros; apply keeps_ret.
  - left. refine (keeps_bind off_device _ _ (keeps_device_write _) _ _). intros; apply keeps_ret.
  - destruct (Hplan plan eq_refl) as (flow & Hflow & ->).
    destruct (is_udp_action _) eqn:Hudp; [right; exists flow; auto|].
    destruct (is_tcp_action _) eqn:Htcp; [right; exists flow; auto|]. by left.
Qed.
End Frames.

(** C4: a packet read from the device reaches only the part of the client its
    route names. The DNS engine is consulted only for a hijacked query; the UDP
    relay is used only for a UDP packet, the TCP relay and the session table only
    for a TCP packet, and none of the three for a packet that is blocked or
    hijacked; a packet that does not parse changes nothing but the device. *)
Theorem packet_reaches_only_its_route {D N U T} {Device : TunPacketDevice D}
  {Resolver : DnsResolver N} {UdpRelay : TunUdpRelay U} {TcpRelay : TunTcpSessionRelay T}
  cfg env (w : World D N U T) d' packet :
  read_packet (w_device w) = (d', Ok (Some packet)) ->
  let w' := fst (process_tun_device_packet_with_relays cfg env w) in
  match parse_tun_packet_flow packet with
  | Ok flow =>
      let action := routed_action (cfg_routes cfg) (cfg_dns_hijack_enabled cfg) flow in
      let protected := action = Route_Block \/ action = Route_HijackDns in
      (action <> Route_HijackDns -> w_dns w' = w_dns w) /\
      (protected \/ flow_protocol flow <> Proto_Udp -> w_udp w' = w_udp w) /\
      (protected \/ flow_protocol flow <> Proto_Tcp ->
         w_tcp w' = w_tcp w /\ w_sessions w' = w_sessions w)
  | _ => off_device w' = off_device w
  end.
Proof.
  intros Hread. cbn zeta.
  destruct (relays_round_cases cfg env w d' packet Hread) as (dns' & Hdns & Hbad & Hcases).
  set (w' := fst _) in *.
  destruct (parse_tun_packet_flow packet) as [flow| |].
  2,3: destruct Hcases as [->|(? & ? & _)]; [|done]; unfold off_device; cbn; rewrite Hbad; done.
  specialize (Hdns flow eq_refl).
  destruct Hcases as [Hoff|(flow' & [= <-] & [[Hact ->]|[Hact ->]])].
  - injection Hoff as -> -> -> ->. done.
  - pose proof (keeps_relay_udp_plan packet (plan_for (cfg_routes cfg) (cfg_dns_hijack_enabled cfg)
      flow) (mkWorld d' dns' (w_udp w) (w_tcp w) (w_sessions w))) as Hk.
    injection Hk as -> -> ->. cbn. split; [done|]. split; [|done]. intros Ha. by destruct (planned_udp _ _ Hact).
  - pose proof (keeps_relay_tcp_plan cfg env packet (plan_for (cfg_routes cfg)
      (cfg_dns_hijack_enabled cfg) flow) (mkWorld d' dns' (w_udp w) (w_tcp w) (w_sessions w))) as Hk.
    injection Hk as -> ->. cbn. split; [done|]. split; [done|]. intros Ha. by destruct (planned_tcp _ _ Hact).
Qed.

(** ** Answers written to the device *)

Lemma segment_of_flow packet segment :
  parse_tun_tcp_segment packet = Ok segment -> parse_tun_packet_flow packet = Ok (seg_flow segment).
Proof.
  unfold parse_tun_tcp_segment, parse_tun_packet_flow.
  destruct (parse_tun_packet_parts packet) as [parts| |]; [|done..]. cbn [result_bind result_map].
  intros H. inv_ok. repeat (break_hyp H; inv_ok). by subst.
Qed.


Section Answers.
Context {D N U T : Type} {Device : TunPacketDevice D} {Resolver : DnsResolver N}
  {UdpRelay : TunUdpRelay U} {TcpRelay : TunTcpSessionRelay T}.

(** The round ends by writing [packet] to the device [d]: it reports [event], or the
    device's error. *)
Definition answers_with (packet : list Z) (event : TunPacketLoopEvent) (d : D)
  (w : World D N U T) : World D N U T * result TunPacketLoopError TunPacketLoopEvent :=
  match write_packet packet d with
  | (d', Ok _) => (with_device d' w, Ok event)
  | (d', Err error) => (with_device d' w, Err (Loop_Write error))
  | (d', Panic) => (with_device d' w, Panic)
  end.

Lemma device_write_run packet event d (w : World D N U T) :
  (do! device_write packet; sm_ret event) (with_device d w) = answers_with packet event d w.
Proof.
  unfold sm_bind, device_write, on_device, sm_zoom, answers_with. cbn [w_device with_device].
  by destruct (write_packet packet d) as [d' [[]| |]].
Qed.
End Answers.

Lemma reset_response_run plan segment :
  segment_ok segment ->
  exists response,
    build_tun_tcp_reset_response plan segment = Ok response /\
    parse_tun_tcp_segment (tcpr_packet response) = Ok (reset_for segment).
Proof.
  intros Hseg. unfold build_tun_tcp_reset_response. rewrite build_tcp_response_cases by apply Hseg.
  pose proof (len_nil_fits (A := Z) (flow_ip_version (seg_flow segment))) as Hfit.
  replace (_ <=? _) with true by lia. eexists. split; [reflexivity|]. cbn [tcpr_packet].
  unfold reset_for, tcp_reset_sequence_number.
  destruct (flag_ack (seg_flags segment)); apply parse_tcp_packet; try apply Hseg;
    auto with keli; try (vm_compute; split; congruence); apply segment_next_u32.
Qed.

(** A TCP packet to a blocked destination is answered at once with the
    reset RFC 793 prescribes, unless it is itself a reset: the application sees
    its connection refused, and nothing but the device is touched. *)
Theorem blocked_connection_reset {D N U T} {Device : TunPacketDevice D}
  {Resolver : DnsResolver N} {UdpRelay : TunUdpRelay U} {TcpRelay : TunTcpSessionRelay T}
  cfg env (w : World D N U T) d' packet segment :
  read_packet (w_device w) = (d', Ok (Some packet)) -> bytes_ok packet ->
  parse_tun_tcp_segment packet = Ok segment -> flag_rst (seg_flags segment) = false ->
  routed_action (cfg_routes cfg) (cfg_dns_hijack_enabled cfg) (seg_flow segment) = Route_Block ->
  exists response,
    parse_tun_tcp_segment (tcpr_packet response) = Ok (reset_for segment) /\
    process_tun_device_packet_with_relays cfg env w =
      answers_with (tcpr_packet response) (Event_WroteTcpResetPacket response) d' w.
Proof.
  intros Hread Hok Hparse Hrst Hblock.
  destruct (returns_Ok _ _ _ (parse_tun_tcp_segment_total packet Hok) Hparse) as [Hseg _].
  set (plan := plan_for (cfg_routes cfg) (cfg_dns_hijack_enabled cfg) (seg_flow segment)).
  destruct (reset_response_run plan segment Hseg) as (response & Hbuild & Hresp).
  exists response. split; [done|]. unfold process_tun_device_packet_with_relays.
  erewrite device_packet_run by exact Hread. rewrite <- device_write_run.
  unfold or_event, on_dns, sm_zoom, process_tun_packet, sm_bind, sm_lift.
  rewrite (plan_of_flow _ _ _ _ (segment_of_flow _ _ Hparse)). fold plan.
  assert (plan_relay_action plan = Action_Drop) as -> by (by apply planned_drop).
  cbn [bool_decide]. rewrite bool_decide_false by done. rewrite bool_decide_true by done.
  rewrite bool_decide_true by apply Hseg. cbn [andb]. rewrite Hparse, Hrst. cbn [negb].
  rewrite Hbuild. reflexivity.
Qed.

(** ** Hijacked queries *)

Section Hijacked.
Context {N : Type} {Resolver : DnsResolver N}.









End Hijacked.



(** ** Summaries of a run *)

Section Runs.
Context {D N U T : Type} {Device : TunPacketDevice D} {Resolver : DnsResolver N}
  {UdpRelay : TunUdpRelay U} {TcpRelay : TunTcpSessionRelay T}.

(** The summary of a run that produced [events] from the summary [s]. *)
Definition summary_of_run (s : TunPacketLoopSummary) (events : list TunPacketLoopEvent)
  : TunPacketLoopSummary :=
  let s' := fold_left record_event events s in
  if existsb is_no_packet events then s' else record_packet_limit_reached s'.

Lemma loop_rounds_events process envs i n s (w : World D N U T) :
  loop_rounds (event_round process) envs i n s w =
  let '(w', events) := loop_events process envs i n w in
  (w', result_map (summary_of_run s) events).
Proof.
  revert i s w. induction n as [|n IH]; intros i s w; [done|]. cbn [loop_rounds loop_events].
  unfold event_round, sm_bind. destruct (process (envs i) w) as [w1 [event| |]]; [|done..].
  cbn. destruct (is_no_packet event) eqn:He; cbn.
  - unfold summary_of_run. cbn. by rewrite He.
  - rewrite IH. destruct (loop_events process envs (S i) n w1) as [w2 [events| |]]; [|done..].
    unfold summary_of_run. cbn. by rewrite He.
Qed.
End Runs.

(** The loop that only keeps a summary and the loop that returns its events
    do the same: the same effects on device and resolver, the same errors, and a
    summary that is the one of the events, marked as having reached the packet
    limit exactly if no read came back empty. *)
Theorem summary_loop_agrees {D N U T} {Device : TunPacketDevice D} {Resolver : DnsResolver N}
  cfg envs max_packets (w : World D N U T) :
  run_tun_packet_loop_summary cfg envs max_packets w =
  let '(w', events) := run_tun_packet_loop cfg envs max_packets w in
  (w', result_map (fun events =>
         if existsb is_no_packet events then from_events events
         else record_packet_limit_reached (from_events events)) events).
Proof. apply loop_rounds_events. Qed.

(** ** A run of the loop is safe *)

(** The documented behaviour of the parts the loop is given: their methods return, if
    only an error, and a device delivers bytes. *)
Class DeviceReturns (D : Type) {Device : TunPacketDevice D} : Prop := {
  returns_read_packet : forall d, returns (snd (read_packet d))
    (fun packet => match packet with Some bytes => bytes_ok bytes | None => True end);
  returns_write_packet : forall packet d, snd (write_packet packet d) <> Panic
}.

Class ResolverReturns (N : Type) {Resolver : DnsResolver N} : Prop :=
  returns_resolve : forall r now host, resolver_resolve r now host <> Panic.

Class UdpReturns (U : Type) {UdpRelay : TunUdpRelay U} : Prop := {
  returns_udp : forall target payload u, snd (relay_udp_datagram target payload u) <> Panic;
  returns_outbound_udp : forall tag target payload u,
    snd (relay_outbound_udp_datagram tag target payload u) <> Panic
}.

Section Total.
Context {N : Type} {Resolver : DnsResolver N} {Returns : ResolverReturns N}.

Lemma resolve_returns host port now (dns : DnsEngine N) :
  snd (DnsEngine_resolve host port now dns) <> Panic.
Proof.
  unfold DnsEngine_resolve, lookup_ips, sm_bind, sm_get, sm_lift, sm_ret, sm_modify.
  pose proof (returns_resolve (dns_resolver dns) now (normalize_host host)).
  destruct (parse_ip_addr _); [by destruct (negb _)|].
  destruct (bool_decide _); [by destruct (String.eqb _ _)|].
  destruct (DnsCache_get _ _ _); [by destruct (is_empty _)|].
  destruct (resolver_resolve _ _ _) as [ips| |]; [|done..].
  destruct (is_empty ips); [done|]. by destruct (is_empty (List.filter _ _)).
Qed.

Lemma udp_response_returns flow payload :
  flow_ok flow -> flow_protocol flow = Proto_Udp ->
  returns (build_tun_udp_response_packet flow payload) (fun _ => True).
Proof. intros Hok Hp. rewrite build_udp_response_cases by done. by destruct (_ <=? _). Qed.

Definition any_engine (dns : DnsEngine N) : Prop := True.

Lemma hijack_plan_returns packet :
  bytes_ok packet -> returns (plan_tun_dns_hijack packet) (fun plan =>
    flow_ok (hijack_flow plan) /\ flow_protocol (hijack_flow plan) = Proto_Udp).
Proof.
  intros Hok. unfold plan_tun_dns_hijack.
  eapply returns_bind; [by apply parse_tun_udp_payload_total|].
  intros udp (Hflow & Hproto & Hpart & _). destruct (negb _); [done|].
  eapply returns_bind; [|intros q _].
  { instantiate (1 := fun _ => True).
    pose proof (parse_dns_query_total _ (part_of_bytes_ok _ _ Hok Hpart)).
    by destruct (parse_dns_query _). }
  destruct (destination_socket_addr _); [|done]. by destruct (source_socket_addr _).
Qed.

Lemma hijack_response_safe packet ttl now :
  bytes_ok packet ->
  safe any_engine (build_tun_dns_hijack_response packet ttl now) (fun _ _ => True).
Proof.
  intros Hok. eapply safe_bind; [by apply safe_lift, hijack_plan_returns|].
  intros plan [Hflow Hproto]. eapply (safe_bind _ _ _ (fun _ => True)).
  - intros dns _. split; [done|]. unfold build_tun_dns_hijack_payload.
    pose proof (resolve_returns (q_name (hijack_question plan)) 0 now dns).
    destruct (q_question_type _); try done;
      destruct (DnsEngine_resolve _ _ _ _) as [dns' [|[]|]]; done.
  - intros [payload rcode] _. eapply safe_bind; [by apply safe_lift, udp_response_returns|].
    intros p _. eapply safe_mono; [apply safe_ret|done].
Qed.

Lemma process_packet_safe packet routes hijack ttl now :
  bytes_ok packet ->
  safe any_engine (process_tun_packet packet routes hijack ttl now) (fun _ _ => True).
Proof.
  intros Hok. unfold process_tun_packet. eapply (safe_bind _ _ _ (fun _ => True)).
  { apply safe_lift. rewrite plan_tun_packet_relay_spec.
    eapply (returns_bind _ _ (fun _ => True)); [|done]. unfold parse_tun_packet_flow.
    eapply returns_bind; [by apply parse_tun_packet_parts_total|done]. }
  intros plan _. destruct (bool_decide _).
  { eapply (safe_bind _ _ _ (fun _ => True)); [by apply hijack_response_safe|].
    intros; eapply safe_mono; [apply safe_ret|done]. }
  destruct (_ && _); [|eapply safe_mono; [apply safe_ret|done]].
  eapply safe_bind; [by apply safe_lift, parse_tun_tcp_segment_total|].
  intros segment [Hseg _]. destruct (negb _); [|eapply safe_mono; [apply safe_ret|done]].
  destruct (reset_response_run plan segment Hseg) as (response & -> & _).
  intros dns _. done.
Qed.
End Total.

Section Endpoint.
Context {D N U T : Type} {Device : TunPacketDevice D} {Resolver : DnsResolver N}
  {UdpRelay : TunUdpRelay U} {TcpRelay : TunTcpSessionRelay T}.
Context {DR : DeviceReturns D} {NR : ResolverReturns N} {UR : UdpReturns U} {TR : RelayReturns T}.
Context (limit : Z).

(** The session table is well formed and keeps its limit. *)
Definition world_ok (w : World D N U T) : Prop :=
  table_ok (w_sessions w) /\ tbl_max_active_sessions (w_sessions w) = limit.

Lemma device_read_safe :
  safe world_ok device_read (fun packet _ =>
    match packet with Some bytes => bytes_ok bytes | None => True end).
Proof. apply safe_zoom. intros w Hw. split; [done|]. apply returns_read_packet. Qed.

Lemma device_write_safe packet : safe world_ok (device_write packet) (fun _ _ => True).
Proof.
  apply (safe_zoom _ _ _ _ _ (fun _ => True)). intros w Hw. split; [done|].
  pose proof (returns_write_packet packet (w_device w)). by destruct (snd _).
Qed.

Lemma safe_or_event {E A} (m : SM (World D N U T) E A) event k P :
  safe world_ok m (fun a _ => P a) -> (forall a, P a -> safe world_ok (k a) (fun _ _ => True)) ->
  safe world_ok (or_event m event k) (fun _ _ => True).
Proof.
  intros Hm Hk w Hw. unfold or_event. destruct (Hm w Hw) as [HI Hr].
  destruct (m w) as [w' [a| |]]; cbn in *; [|done..]. by apply Hk.
Qed.

Lemma safe_event (event : TunPacketLoopEvent) :
  safe world_ok (@sm_ret (World D N U T) TunPacketLoopError _ event) (fun _ _ => True).
Proof. by eapply safe_mono; [apply safe_ret|]. Qed.

Lemma answer_safe packet event :
  safe (A := TunPacketLoopEvent) world_ok (do! device_write packet; sm_ret event)
    (fun _ _ => True).
Proof.
  eapply (safe_bind _ _ _ (fun _ => True)); [apply device_write_safe|]. intros _ _. apply safe_event.
Qed.

Lemma write_packets_safe packets : safe world_ok (write_packets packets) (fun _ _ => True).
Proof.
  induction packets; cbn; [by eapply safe_mono; [apply safe_ret|]|].
  by eapply (safe_bind _ _ _ (fun _ => True)); [apply device_write_safe|].
Qed.

Lemma relay_udp_safe packet plan :
  bytes_ok packet -> safe world_ok (relay_udp_plan packet plan) (fun _ _ => True).
Proof.
  intros Hok. unfold relay_udp_plan.
  eapply (safe_or_event _ _ _ (fun _ => True)); [|intros; apply answer_safe].
  apply (safe_zoom _ _ _ _ _ (fun _ => True)). intros w Hw. split; [done|].
  enough (Hs : safe (fun _ : U => True) (relay_tun_udp_packet packet plan) (fun _ _ => True)).
  { destruct (Hs (w_udp w) I) as [_ Hr]. by destruct (snd _). }
  eapply safe_bind.
  { apply safe_lift with (Q := fun udp => flow_ok (udp_flow udp) /\
      flow_protocol (udp_flow udp) = Proto_Udp).
    pose proof (parse_tun_udp_payload_total packet Hok) as H.
    destruct (parse_tun_udp_payload packet); cbn in *; [|done..]. split; apply H. }
  intros udp [Hflow Hproto]. destruct (negb _); [by apply (safe_lift _ _ (fun _ => True))|].
  eapply (safe_bind _ _ _ (fun _ => True)).
  - destruct (plan_relay_action plan); try (by apply (safe_lift _ _ (fun _ => True)));
      apply (safe_zoom _ _ _ _ _ (fun _ => True)); intros u _; (split; [done|]).
    + pose proof (returns_udp target (udp_payload udp) (id u)). by destruct (snd _).
    + pose proof (returns_outbound_udp tag target (udp_payload udp) (id u)). by destruct (snd _).
  - intros response _. eapply (safe_bind _ _ _ (fun _ => True)).
    + apply safe_lift. pose proof (udp_response_returns _ (relay_payload response) Hflow Hproto).
      by destruct (build_tun_udp_response_packet _ _).
    + intros p _. by eapply safe_mono; [apply safe_ret|].
Qed.

Lemma relay_tcp_safe cfg env packet plan :
  bytes_ok packet -> is_u32 (cfg_server_initial_sequence_number cfg) ->
  is_u16 (cfg_window_size cfg) ->
  safe world_ok (relay_tcp_plan cfg env packet plan) (fun _ _ => True).
Proof.
  intros Hok Hisn Hwin. unfold relay_tcp_plan.
  eapply safe_or_event; [by apply safe_lift, parse_tun_tcp_segment_total|].
  intros segment [Hseg _]. eapply (safe_or_event _ _ _ (fun _ => True)).
  - apply (safe_zoom _ _ _ _ _ (fun _ => True)). intros w [Ht Hmax].
    destruct (segment_key segment Hseg) as [key Hkey].
    destruct (process_segment_spec key segment (env_clk env) Hseg Hkey (Some plan) _ _ Hisn Hwin
      (w_tcp w) (w_sessions w) Ht) as (Ht' & [Hmax' _] & Hout).
    split; [split; cbn; [done|congruence]|].
    by destruct (process_tun_tcp_session_segment_with_relay_plan _ _ _ _ _ _) as [s [| |]].
  - intros step _. eapply (safe_bind _ _ _ (fun _ => True)); [apply write_packets_safe|].
    intros _ _. apply safe_event.
Qed.

(** One round. *)
Lemma relays_round_safe cfg env :
  is_u32 (cfg_server_initial_sequence_number cfg) -> is_u16 (cfg_window_size cfg) ->
  safe world_ok (process_tun_device_packet_with_relays cfg env) (fun _ _ => True).
Proof.
  intros Hisn Hwin. eapply safe_bind; [apply device_read_safe|].
  intros [packet|] Hok; [|apply safe_event].
  eapply (safe_or_event _ _ _ (fun _ => True)).
  - apply (safe_zoom _ _ _ _ _ (fun _ => True)). intros w Hw. split; [done|].
    destruct (process_packet_safe packet (cfg_routes cfg) (cfg_dns_hijack_enabled cfg)
      (cfg_dns_ttl_seconds cfg) (env_dns_now env) Hok (w_dns w) I) as [_ Hr]. by destruct (snd _).
  - intros [response|response|plan] _; [apply answer_safe|apply answer_safe|].
    destruct (is_udp_action _); [by apply relay_udp_safe|].
    destruct (is_tcp_action _); [by apply relay_tcp_safe|apply safe_event].
Qed.
End Endpoint.

(** ** The loop with sessions *)

(** What the loop keeps of its summary while it runs. *)
Record running (limit : Z) (s : TunPacketLoopSummary) : Prop := mk_running {
  running_not_stopped : sum_stop_requested s = false;
  running_below_limit : sum_packet_limit_reached s = false;
  running_idle : 0 <= sum_idle_events s;
  running_peak : sum_tcp_sessions_peak s <= limit
}.

Lemma record_event_peak s e : sum_tcp_sessions_peak (record_event s e) = sum_tcp_sessions_peak s.
Proof.
  destruct e as [|r|r|r|plan step n|plan|plan|plan|err|err|err]; cbn [record_event]; try done;
    repeat match goal with |- context [if ?c then _ else _] => destruct c end; try done;
    destruct step; try done; by destruct kind.
Qed.

Lemma running_event limit s e : running limit s -> running limit (record_event s e).
Proof.
  intros [H1 H2 H3 H4]. destruct (record_event_counts s e) as (_ & Ei & El & Es).
  constructor; [congruence|congruence|rewrite Ei; destruct (is_packet_event e); lia|].
  by rewrite record_event_peak.
Qed.

Lemma running_prune limit s report :
  running limit s -> running limit (record_tcp_session_prune_report s report).
Proof.
  intros [H1 H2 H3 H4]. unfold record_tcp_session_prune_report.
  destruct (report_last_close_error report); by constructor.
Qed.

Lemma running_table limit s t :
  running limit s -> table_len t <= limit -> running limit (record_tcp_session_table_state s t).
Proof.
  intros [H1 H2 H3 H4] Ht. constructor; [done..|]. cbn. unfold table_len in Ht. lia.
Qed.

Lemma table_state_view s t :
  let s' := record_tcp_session_table_state s t in
  sum_idle_events s' = sum_idle_events s /\ exit_reason s' = exit_reason s /\
  sum_tcp_sessions_open s' = table_len t /\
  sum_tcp_sessions_peak s' = Z.max (sum_tcp_sessions_peak s) (table_len t).
Proof. done. Qed.

Section SessionLoop.
Context {D N U T : Type} {Device : TunPacketDevice D} {Resolver : DnsResolver N}
  {UdpRelay : TunUdpRelay U} {TcpRelay : TunTcpSessionRelay T}.
Context {TR : RelayReturns T}.
Context (limit : Z) (cfg : LoopConfig) (envs : nat -> RoundEnv).
Context (process : RoundEnv -> LM (D := D) (N := N) (U := U) (T := T) TunPacketLoopEvent).
Context (Hprocess : forall env, safe (world_ok limit) (process env) (fun _ _ => True)).
Context (Horder : forall i t, env_order (envs i) t ≡ₚ (map_to_list (tbl_sessions t)).*1).

Lemma prune_returns {E} order now timeout (r : T) t :
  snd (prune_idle_tun_tcp_sessions (E := E) order now timeout (r, t)) <> Panic.
Proof.
  unfold prune_idle_tun_tcp_sessions. destruct (prune_idle order now timeout t) as [t' pruned].
  by destruct (close_pruned_count (E := E) pruned 0 None r) as (r' & n & last & -> & _).
Qed.

Lemma prune_sessions_safe i :
  safe (S := World D N U T) (world_ok limit) (prune_sessions cfg (envs i)) (fun _ _ => True).
Proof.
  intros w [Ht Hmax]. unfold prune_sessions, sm_bind, sm_get, on_tcp, sm_zoom.
  set (order := env_order (envs i) (w_sessions w)).
  set (now := env_prune_now (envs i)). set (timeout := cfg_session_idle_timeout cfg).
  pose proof (prune_idle_table_ok order now timeout _ (Horder i _) Ht) as Ht'.
  rewrite <- (prune_idle_tun_tcp_sessions_table (E := TunPacketLoopError) order now timeout
    (w_tcp w)) in Ht'.
  assert (Hmax' : tbl_max_active_sessions (snd (fst (prune_idle_tun_tcp_sessions
    (E := TunPacketLoopError) order now timeout (w_tcp w, w_sessions w)))) = limit)
    by (rewrite prune_idle_tun_tcp_sessions_table; exact Hmax).
  pose proof (prune_returns (E := TunPacketLoopError) order now timeout (w_tcp w) (w_sessions w))
    as Hret.
  destruct (prune_idle_tun_tcp_sessions order now timeout (w_tcp w, w_sessions w)) as [s' r].
  cbn [fst snd] in *. split; [done|]. by destruct r.
Qed.

(** One round: the summary stays within bounds, and the loop stops only on an empty
    read. *)
Lemma session_round_safe i s :
  running limit s ->
  safe (S := World D N U T) (world_ok limit) (session_round cfg process (envs i) s)
    (fun '(s', stop) w => running limit s' /\ (stop = true -> 0 < sum_idle_events s')).
Proof.
  intros Hs. eapply (safe_bind _ _ _ (fun _ => True)); [apply prune_sessions_safe|].
  intros report _. eapply (safe_bind _ _ _ (fun _ => True)); [apply Hprocess|].
  intros event _ w [Ht Hmax]. split; [done|]. unfold sm_bind, sm_get, sm_ret. cbn [fst snd].
  pose proof (running_prune _ _ report Hs) as Hs1.
  destruct (record_event_counts (record_tcp_session_prune_report s report) event) as (_ & Ei & _).
  pose proof (running_event _ _ event Hs1) as Hs2. pose proof (running_idle _ _ Hs1) as Hi.
  revert Ei Hs2. generalize (record_event (record_tcp_session_prune_report s report) event) as s2.
  intros s2 Ei Hs2. split; [apply running_table; [done|rewrite <- Hmax; by apply table_ok_limit]|].
  intros Hstop. rewrite (proj1 (table_state_view s2 _)), Ei. destruct event; done || (cbn [is_packet_event]; lia).
Qed.

(** A summary after the loop: within the limit, and the loop ended for a reason. *)
Definition finished (s : TunPacketLoopSummary) : Prop :=
  sum_tcp_sessions_peak s <= limit /\
  (exit_reason s = Exit_Idle \/ exit_reason s = Exit_PacketLimitReached).

Lemma session_rounds_safe i n s :
  running limit s ->
  safe (S := World D N U T) (world_ok limit) (loop_rounds (session_round cfg process) envs i n s)
    (fun s' _ => finished s').
Proof.
  revert i s. induction n as [|n IH]; intros i s Hs; cbn [loop_rounds].
  - eapply safe_mono; [apply safe_ret|]. intros s' w Hw ->. destruct Hs as [H1 H2 H3 H4].
    split; [done|]. right. unfold exit_reason. cbn. by rewrite H1.
  - eapply (safe_bind _ _ _ (fun r => running limit r.1 /\ (r.2 = true -> 0 < sum_idle_events r.1))).
    { eapply safe_mono; [by apply session_round_safe|]. by intros [s' stop] w _ H. }
    intros [s' stop] [Hs' Hstop]. cbn in Hs', Hstop. destruct stop; [|by apply IH].
    eapply safe_mono; [apply safe_ret|]. intros s'' w Hw ->. destruct Hs' as [H1 H2 H3 H4].
    split; [done|]. left. unfold exit_reason. rewrite H1, H2.
    by replace (0 <? sum_idle_events s') with true by (specialize (Hstop eq_refl); lia).
Qed.

Lemma session_loop_safe n :
  0 <= limit ->
  safe (S := World D N U T) (world_ok limit) (session_loop cfg process envs n) (fun s w =>
    finished s /\ sum_tcp_sessions_open s = table_len (w_sessions w) /\
    sum_tcp_sessions_open s <= sum_tcp_sessions_peak s).
Proof.
  intros Hlimit. eapply (safe_bind _ _ _ finished).
  { apply session_rounds_safe. constructor; cbn; done || lia. }
  intros s [Hpeak Hexit] w [Ht Hmax]. split; [done|]. unfold sm_bind, sm_get, sm_ret, finished.
  cbn [fst snd]. destruct (table_state_view s (w_sessions w)) as (_ & -> & -> & ->).
  pose proof (table_ok_limit _ Ht) as Hlen. unfold table_len. split_and!; done || lia.
Qed.
End SessionLoop.

(** C1: whatever packets arrive and whatever the device, the resolver and the
    relays answer, a run of the loop with all relays does not panic; it ends
    with a device error or with a summary whose exit reason is an empty read or the
    packet limit. The session table stays well formed, and its size, the number
    of open sessions reported and the reported peak are within the table's
    limit. *)
Theorem packet_loop_safe {D N U T} {Device : TunPacketDevice D} {Resolver : DnsResolver N}
  {UdpRelay : TunUdpRelay U} {TcpRelay : TunTcpSessionRelay T}
  {DR : DeviceReturns D} {NR : ResolverReturns N} {UR : UdpReturns U} {TR : RelayReturns T}
  cfg envs max_packets (w : World D N U T) :
  is_u32 (cfg_server_initial_sequence_number cfg) -> is_u16 (cfg_window_size cfg) ->
  (forall i t, env_order (envs i) t ≡ₚ (map_to_list (tbl_sessions t)).*1) ->
  table_ok (w_sessions w) ->
  let '(w', outcome) :=
    run_tun_packet_loop_with_relays_summary_with_idle_timeout cfg envs max_packets w in
  let limit := tbl_max_active_sessions (w_sessions w) in
  table_ok (w_sessions w') /\ tbl_max_active_sessions (w_sessions w') = limit /\
  match outcome with
  | Ok s =>
      (exit_reason s = Exit_Idle \/ exit_reason s = Exit_PacketLimitReached) /\
      sum_tcp_sessions_open s = table_len (w_sessions w') /\
      sum_tcp_sessions_open s <= sum_tcp_sessions_peak s <= limit
  | Err _ => True
  | Panic => False
  end.
Proof.
  intros Hisn Hwin Horder Ht. set (limit := tbl_max_active_sessions (w_sessions w)).
  pose proof (table_ok_limit _ Ht) as Hlimit. unfold map_len in Hlimit.
  pose proof (session_loop_safe limit cfg envs (process_tun_device_packet_with_relays cfg)
    (fun env => relays_round_safe limit cfg env Hisn Hwin) Horder max_packets ltac:(lia) w
    (conj Ht eq_refl)) as [[Ht' Hmax'] Hout].
  unfold run_tun_packet_loop_with_relays_summary_with_idle_timeout.
  destruct (session_loop _ _ _ _ w) as [w' [s| |]]; cbn in *; split_and!; try done; apply Hout.
Qed.

(** ** A sample endpoint *)

(** A device that delivers the packets of a queue and keeps those written to it. *)
Record QueueDevice : Type := mkQueueDevice {
  queue_in : list (list Z);
  queue_out : list (list Z)
}.

#[local] Instance queue_device : TunPacketDevice QueueDevice := {
  read_packet d :=
    match queue_in d with
    | [] => (d, Ok None)
    | packet :: rest =>
        (mkQueueDevice rest (queue_out d),
         if forallb (fun b => (0 <=? b) && (b <? 256)) packet then Ok (Some packet)
         else Err "not bytes")
    end;
  write_packet packet d := (mkQueueDevice (queue_in d) (queue_out d ++ [packet]), Ok tt)
}.

#[local] Instance queue_device_returns : DeviceReturns QueueDevice.
Proof.
  constructor; [|done]. intros [[|packet rest] out]; cbn; [done|].
  destruct (forallb _ packet) eqn:H; [|done]. by apply bytes_ok_dec.
Qed.

(** A relay without UDP. *)
#[local] Instance no_udp_relay : TunUdpRelay unit := {
  relay_udp_datagram _ _ := sm_lift (Err "refused");
  relay_outbound_udp_datagram := default_relay_outbound_udp_datagram
}.

#[local] Instance no_udp_relay_returns : UdpReturns unit.
Proof. by constructor. Qed.

#[local] Existing Instance fixed_answer.

#[local] Instance fixed_answer_returns : ResolverReturns (option (list IpAddr)).
Proof. by intros []. Qed.

Definition sample_query_flow : TunPacketFlow :=
  mkTunPacketFlow Ipv4 Proto_Udp (V4 168230914) (V4 168230913) (Some 50000) (Some 53).

Definition sample_query : DnsWireQuestion :=
  mkDnsWireQuestion 4660 "example.com" QType_A
    [7; 101; 120; 97; 109; 112; 108; 101; 3; 99; 111; 109; 0; 0; 1; 0; 1] true.

(** The query for the address of example.com, to 10.7.0.1:53. *)
Definition sample_query_packet : list Z :=
  udp_packet (reply_flow sample_query_flow)
    ([18; 52; 1; 0; 0; 1; 0; 0; 0; 0; 0; 0] ++ q_raw_question sample_query).

Definition sample_config : LoopConfig := mkLoopConfig sample_routes true 60 7000 65535 300.

Definition sample_env (i : nat) : RoundEnv :=
  mkRoundEnv 5 0 sample_clock (fun t => (map_to_list (tbl_sessions t)).*1).

Definition sample_world (packets : list (list Z))
  : World QueueDevice (option (list IpAddr)) unit unit :=
  mkWorld (mkQueueDevice packets []) (sample_engine AllowSystem DualStack) tt tt
    (with_max_active_sessions 2).


Lemma packet_reaches_only_its_route_witness :
  let w := sample_world [sample_query_packet] in
  let w' := fst (process_tun_device_packet_with_relays sample_config (sample_env 0) w) in
  w_sessions w' = w_sessions w /\ length (queue_out (w_device w')) = 1%nat.
Proof.
  pose proof (packet_reaches_only_its_route sample_config (sample_env 0)
    (sample_world [sample_query_packet]) (mkQueueDevice [] []) sample_query_packet) as H.
  assert (parse_tun_packet_flow sample_query_packet = Ok sample_query_flow) as Hf
    by (vm_compute; reflexivity).
  rewrite Hf in H. split.
  - apply H; [vm_compute; reflexivity|]. left. right. vm_compute. reflexivity.
  - vm_compute. reflexivity.
Defined.

Lemma blocked_connection_reset_witness :
  exists response,
    parse_tun_tcp_segment (tcpr_packet response) = Ok (reset_for sample_syn_segment) /\
    snd (process_tun_device_packet_with_relays sample_config (sample_env 0)
           (sample_world [sample_syn_packet])) = Ok (Event_WroteTcpResetPacket response).
Proof.
  destruct (blocked_connection_reset sample_config (sample_env 0)
    (sample_world [sample_syn_packet]) (mkQueueDevice [] []) sample_syn_packet sample_syn_segment)
    as (response & Hparse & Hrun).
  1, 3, 4, 5: vm_compute; reflexivity.
  { exact sample_syn_packet_ok. }
  exists response. split; [exact Hparse|]. rewrite Hrun. reflexivity.
Defined.


(** What a run reports of itself. *)
Definition run_report (r : result TunPacketLoopError TunPacketLoopSummary)
  : option (TunPacketLoopExitReason * Z) :=
  match r with Ok s => Some (exit_reason s, processed_packets s) | _ => None end.

Lemma packet_loop_safe_witness :
  let outcome :=
    snd (run_tun_packet_loop_with_relays_summary_with_idle_timeout sample_config sample_env 4
           (sample_world [sample_syn_packet; sample_query_packet; [1; 2; 3]])) in
  run_report outcome = Some (Exit_Idle, 3) /\
  exists s, outcome = Ok s /\ sum_tcp_sessions_peak s <= 2.
Proof.
  pose proof (packet_loop_safe sample_config sample_env 4
    (sample_world [sample_syn_packet; sample_query_packet; [1; 2; 3]])) as H.
  assert (run_report (snd (run_tun_packet_loop_with_relays_summary_with_idle_timeout sample_config
    sample_env 4 (sample_world [sample_syn_packet; sample_query_packet; [1; 2; 3]])))
    = Some (Exit_Idle, 3)) as Hreport by (vm_compute; reflexivity).
  destruct (run_tun_packet_loop_with_relays_summary_with_idle_timeout _ _ _ _) as [w' outcome].
  cbn zeta. cbn [snd] in *. split; [exact Hreport|].
  destruct H as (_ & _ & H); [vm_compute; split; congruence|vm_compute; split; congruence|
    intros i t; reflexivity|apply empty_table_ok|].
  destruct outcome as [s| |]; [|discriminate Hreport|discriminate Hreport].
  exists s. split; [reflexivity|]. exact (proj2 (proj2 (proj2 H))).
Defined.
