(* ===== verification/Socks5.v ===== *)
(** * The SOCKS5 inbound

    [crates/keli-net-core/src/socks5.rs]: the handshake, requests, replies and UDP
    datagrams of RFC 1928. *)

From stdpp Require Import base strings list numbers.
From S2P Require Import Prelude.
From S2P Require Import StdNet.
From S2P Require Import StdIo.
#[local] Open Scope Z_scope.

(** ** Data *)

Record Socks5Handshake : Type := mkSocks5Handshake { methods : list Z }.

Inductive Socks5Command : Type :=
| Connect
| Bind
| UdpAssociate.

(** [Ipv4Addr] and [Ipv6Addr] are their 32 and 128 bits. *)
Inductive Socks5Address : Type :=
| Socks5_Ipv4 (ip : Z)
| Socks5_Domain (domain : string)
| Socks5_Ipv6 (ip : Z).

Record Socks5Request : Type := mkSocks5Request {
  request_command : Socks5Command;
  request_address : Socks5Address;
  request_port : Z
}.

Record Socks5UdpDatagram : Type := mkSocks5UdpDatagram {
  datagram_address : Socks5Address;
  datagram_port : Z;
  datagram_payload : list Z
}.

Inductive Socks5ReplyCode : Type :=
| Succeeded
| GeneralFailure
| ConnectionNotAllowed
| NetworkUnreachable
| HostUnreachable
| ConnectionRefused
| TtlExpired
| CommandNotSupported
| AddressTypeNotSupported.

Definition as_byte (self : Socks5ReplyCode) : Z :=
  match self with
  | Succeeded => 0
  | GeneralFailure => 1
  | ConnectionNotAllowed => 2
  | NetworkUnreachable => 3
  | HostUnreachable => 4
  | ConnectionRefused => 5
  | TtlExpired => 6
  | CommandNotSupported => 7
  | AddressTypeNotSupported => 8
  end.

Inductive Socks5Error : Type :=
| Socks5_Io (error : IoError)
| UnsupportedVersion (version : Z)
| UnsupportedCommand (command : Z)
| UnsupportedAddressType (address_type : Z)
| EmptyMethodList
| EmptyDomain
| InvalidDomain
| FragmentedUdpDatagram
| DomainTooLong
| TruncatedUdpDatagram.

(** ** The stream parsers *)

Section Reader.
Context {S : Type} {Reader : Read S}.

Definition Socks5M (A : Type) : Type := SM S Socks5Error A.

(** [reader.read_exact(&mut buffer)?], the error converted by [From]. *)
Definition fill (n : Z) : Socks5M (list Z) := sm_zoom id (fun s _ => s) Socks5_Io (read_exact n).

Definition read_u8 : Socks5M Z := byte <-! fill 1; sm_lift (index byte 0).

Definition read_u16 : Socks5M Z := bytes <-! fill 2; sm_ret (from_be_bytes bytes).

Definition parse_socks5_handshake : Socks5M Socks5Handshake :=
  version <-! read_u8;
  if negb (version =? 5) then sm_lift (Err (UnsupportedVersion version))
  else
    method_count <-! read_u8;
    if method_count =? 0 then sm_lift (Err EmptyMethodList)
    else
      methods <-! fill method_count;
      sm_ret (mkSocks5Handshake methods).

(** The [match] on the command byte. *)
Definition command_of_byte (byte : Z) : result Socks5Error Socks5Command :=
  if byte =? 1 then Ok Connect
  else if byte =? 2 then Ok Bind
  else if byte =? 3 then Ok UdpAssociate
  else Err (UnsupportedCommand byte).

(** The [match] on the address type. *)
Definition read_address (address_type : Z) : Socks5M Socks5Address :=
  if address_type =? 1 then
    bytes <-! fill 4;
    sm_ret (Socks5_Ipv4 (from_be_bytes bytes))
  else if address_type =? 3 then
    length <-! read_u8;
    if length =? 0 then sm_lift (Err EmptyDomain)
    else
      bytes <-! fill length;
      domain <-! sm_lift (ok_or InvalidDomain (from_utf8 bytes));
      sm_ret (Socks5_Domain domain)
  else if address_type =? 4 then
    bytes <-! fill 16;
    sm_ret (Socks5_Ipv6 (from_be_bytes bytes))
  else sm_lift (Err (UnsupportedAddressType address_type)).

Definition parse_socks5_request : Socks5M Socks5Request :=
  version <-! read_u8;
  if negb (version =? 5) then sm_lift (Err (UnsupportedVersion version))
  else
    command <-! read_u8;
    command <-! sm_lift (command_of_byte command);
    reserved <-! read_u8;
    if negb (reserved =? 0)
    then sm_lift (Err (Socks5_Io (mkIoError InvalidData "SOCKS5 reserved byte must be zero")))
    else
      address_type <-! read_u8;
      address <-! read_address address_type;
      port <-! read_u16;
      sm_ret (mkSocks5Request command address port).
End Reader.

(** ** Replies *)

Definition socks5_no_auth_response : list Z := [5; 0].

Definition socks5_reply (code : Socks5ReplyCode) : list Z :=
  [5; as_byte code; 0; 1; 0; 0; 0; 0; 0; 0].

(** ** Datagrams *)

(** [read_slice(input, &mut offset, length)]: the state is the offset. *)
Definition read_slice (input : list Z) (length : Z) : SM Z Socks5Error (list Z) :=
  offset <-! sm_get;
  let end_ := offset + length in
  if end_ <=? len input then
    bytes <-! sm_lift (slice input offset end_);
    do! sm_modify (fun _ => end_);
    sm_ret bytes
  else sm_lift (Err TruncatedUdpDatagram).

(** The [match] on the address type. *)
Definition slice_address (input : list Z) (address_type : Z) : SM Z Socks5Error Socks5Address :=
  if address_type =? 1 then
    bytes <-! read_slice input 4;
    sm_ret (Socks5_Ipv4 (from_be_bytes bytes))
  else if address_type =? 3 then
    bytes <-! read_slice input 1;
    length <-! sm_lift (ok_or TruncatedUdpDatagram (head bytes));
    if length =? 0 then sm_lift (Err EmptyDomain)
    else
      bytes <-! read_slice input length;
      domain <-! sm_lift (ok_or InvalidDomain (from_utf8 bytes));
      sm_ret (Socks5_Domain domain)
  else if address_type =? 4 then
    bytes <-! read_slice input 16;
    sm_ret (Socks5_Ipv6 (from_be_bytes bytes))
  else sm_lift (Err (UnsupportedAddressType address_type)).

(** What follows the address type, from the offset in the state on. *)
Definition parse_datagram_body (input : list Z) (address_type : Z)
  : SM Z Socks5Error Socks5UdpDatagram :=
  address <-! slice_address input address_type;
  port_bytes <-! read_slice input 2;
  p0 <-! sm_lift (index port_bytes 0); p1 <-! sm_lift (index port_bytes 1);
  offset <-! sm_get;
  payload <-! sm_lift (slice input offset (len input));
  sm_ret (mkSocks5UdpDatagram address (from_be_bytes [p0; p1]) payload).

Definition parse_socks5_udp_datagram (input : list Z) : result Socks5Error Socks5UdpDatagram :=
  if len input <? 4 then Err TruncatedUdpDatagram
  else
    b0 <-? index input 0; b1 <-? index input 1;
    if negb (b0 =? 0) || negb (b1 =? 0)
    then Err (Socks5_Io (mkIoError InvalidData "SOCKS5 UDP reserved bytes must be zero"))
    else
      b2 <-? index input 2;
      if negb (b2 =? 0) then Err FragmentedUdpDatagram
      else
        b3 <-? index input 3;
        snd (parse_datagram_body input b3 4).

Definition encode_address (address : Socks5Address) : result Socks5Error (list Z) :=
  match address with
  | Socks5_Ipv4 ip => Ok (1 :: v4_octets ip)
  | Socks5_Domain domain =>
      let domain := trim domain in
      if String.eqb domain "" then Err EmptyDomain
      else if u8_max <? len (as_bytes domain) then Err DomainTooLong
      else Ok (3 :: as_u8 (len (as_bytes domain)) :: as_bytes domain)
  | Socks5_Ipv6 ip => Ok (4 :: v6_octets ip)
  end.

Definition encode_socks5_udp_datagram (address : Socks5Address) (port : Z) (payload : list Z)
  : result Socks5Error (list Z) :=
  address <-? encode_address address;
  Ok ([0; 0; 0] ++ address ++ to_be_bytes 2 port ++ payload).

(** ** The wire format

    RFC 1928, sections 4 and 5, as a specification. *)

Definition command_byte (c : Socks5Command) : Z :=
  match c with Connect => 1 | Bind => 2 | UdpAssociate => 3 end.

Definition address_type (a : Socks5Address) : Z :=
  match a with Socks5_Ipv4 _ => 1 | Socks5_Domain _ => 3 | Socks5_Ipv6 _ => 4 end.

Definition address_body (a : Socks5Address) : list Z :=
  match a with
  | Socks5_Ipv4 ip => to_be_bytes 4 ip
  | Socks5_Domain domain => len (as_bytes domain) :: as_bytes domain
  | Socks5_Ipv6 ip => to_be_bytes 16 ip
  end.

Definition wire_request (r : Socks5Request) : list Z :=
  [5; command_byte (request_command r); 0; address_type (request_address r)]
  ++ address_body (request_address r) ++ to_be_bytes 2 (request_port r).

Definition wire_datagram (d : Socks5UdpDatagram) : list Z :=
  [0; 0; 0; address_type (datagram_address d)]
  ++ address_body (datagram_address d) ++ to_be_bytes 2 (datagram_port d) ++ datagram_payload d.

Definition address_ok (a : Socks5Address) : Prop :=
  match a with
  | Socks5_Ipv4 ip => 0 <= ip < 2 ^ 32
  | Socks5_Domain domain =>
      1 <= len (as_bytes domain) <= 255 /\ utf8_valid (as_bytes domain) = true
  | Socks5_Ipv6 ip => 0 <= ip < 2 ^ 128
  end.

Definition request_ok (r : Socks5Request) : Prop :=
  address_ok (request_address r) /\ is_u16 (request_port r).

Definition datagram_ok (d : Socks5UdpDatagram) : Prop :=
  address_ok (datagram_address d) /\ is_u16 (datagram_port d) /\ bytes_ok (datagram_payload d).

(** ** The stream parsers, exactly *)

Lemma fill_Ok n p p' bytes :
  0 <= n -> fill n p = (p', Ok bytes) <-> consumed p bytes p' /\ len bytes = n.
Proof.
  intros Hn. unfold fill, sm_zoom. split.
  - destruct (read_exact n (id p)) as [q [b| |]] eqn:Hr; cbn; [|done..]. intros [= -> ->].
    apply pipe_read_exact_inv in Hr as (H1 & H2 & H3 & H4); [|done]. by unfold consumed.
  - intros [Hc <-]. apply consumed_pipe in Hc as ->. unfold id. rewrite pipe_read_exact by done.
    by destruct p'.
Qed.

Lemma read_u8_Ok p p' b : read_u8 p = (p', Ok b) <-> consumed p [b] p'.
Proof.
  unfold read_u8. rewrite sm_bind_Ok. split.
  - intros (p1 & bytes & Hf & Hi). apply fill_Ok in Hf as [Hc Hl]; [|done].
    apply sm_lift_Ok in Hi as [-> Hi]. destruct bytes as [|c [|? l]]; [done|by injection Hi as ->|].
    rewrite !len_cons in Hl. pose proof (len_nonneg l). lia.
  - intros Hc. exists p', [b]. rewrite fill_Ok by done. done.
Qed.

(** [n] bytes are the big-endian form of a number of that width. *)
Lemma be_bytes_iff n bytes v :
  bytes_ok bytes ->
  (len bytes = Z.of_nat n /\ v = from_be_bytes bytes) <->
  (bytes = to_be_bytes n v /\ 0 <= v < 256 ^ Z.of_nat n).
Proof.
  intros Hok. split.
  - intros [Hl ->]. assert (length bytes = n) as Hn by (unfold len in Hl; lia).
    rewrite <- Hn at 1. rewrite to_from_be_bytes by done. split; [done|].
    rewrite <- Hl. by apply from_be_bytes_bound.
  - intros [-> Hv]. by rewrite len_to_be_bytes, from_to_be_bytes_id.
Qed.

Lemma from_utf8_iff bytes text :
  bytes_ok bytes ->
  from_utf8 bytes = Some text <-> bytes = as_bytes text /\ utf8_valid (as_bytes text) = true.
Proof.
  intros Hok. unfold from_utf8. split.
  - destruct (utf8_valid bytes) eqn:Hv; [|done]. intros [= <-]. by rewrite as_bytes_of_string.
  - intros [-> ->]. by rewrite string_of_as_bytes.
Qed.

(** A number of [n] bytes read from the stream. *)
Lemma read_be_Ok {A} n (f : Z -> A) p p' a :
  bytes_ok (incoming p) ->
  sm_bind (fill (Z.of_nat n)) (fun bytes => sm_ret (f (from_be_bytes bytes))) p = (p', Ok a) <->
  exists v, a = f v /\ consumed p (to_be_bytes n v) p' /\ 0 <= v < 256 ^ Z.of_nat n.
Proof.
  intros Hok. rewrite sm_bind_Ok. split.
  - intros (p1 & bytes & Hf & Hr). apply fill_Ok in Hf as [Hc Hl]; [|lia].
    apply sm_ret_Ok in Hr as [-> ->]. exists (from_be_bytes bytes).
    destruct (proj1 (be_bytes_iff n bytes _ (proj1 (consumed_ok _ _ _ Hok Hc))) (conj Hl eq_refl))
      as [<- Hv]. done.
  - intros (v & -> & Hc & Hv). exists p', (to_be_bytes n v). rewrite fill_Ok by lia.
    split; [split; [done|apply len_to_be_bytes]|]. apply sm_ret_Ok.
    by rewrite from_to_be_bytes_id.
Qed.

Lemma read_u16_Ok p p' v :
  bytes_ok (incoming p) ->
  read_u16 p = (p', Ok v) <-> consumed p (to_be_bytes 2 v) p' /\ is_u16 v.
Proof.
  intros Hok. etrans; [exact (read_be_Ok 2 id p p' v Hok)|]. split.
  - by intros (w & -> & H).
  - intros H. by exists v.
Qed.

(** The domain of an address: its length, which is not zero, and its text. *)
Lemma read_domain_Ok p p' a :
  bytes_ok (incoming p) ->
  (length <-! read_u8;
   if length =? 0 then sm_lift (Err EmptyDomain)
   else
     bytes <-! fill length;
     domain <-! sm_lift (ok_or InvalidDomain (from_utf8 bytes));
     sm_ret (Socks5_Domain domain)) p = (p', Ok a) <->
  exists domain, a = Socks5_Domain domain /\ consumed p (address_body a) p' /\ address_ok a.
Proof.
  intros Hok. rewrite sm_bind_Ok. setoid_rewrite read_u8_Ok. split.
  - intros (p1 & n & Hn & H). destruct (consumed_ok _ _ _ Hok Hn) as [Hn8 Hok1].
    apply Forall_cons_1 in Hn8 as [Hn8 _]. unfold is_u8 in Hn8.
    destruct (Z.eqb_spec n 0) as [->|Hz]; [done|]. apply sm_bind_Ok in H as (p2 & bytes & Hf & H).
    apply fill_Ok in Hf as [Hc Hl]; [|lia]. apply sm_bind_Ok in H as (p3 & domain & Hd & H).
    apply sm_lift_Ok in Hd as [-> Hd]. apply sm_ret_Ok in H as [-> ->].
    destruct (from_utf8 bytes) as [text|] eqn:Hu; [|done]. injection Hd as ->.
    apply from_utf8_iff in Hu as [-> Hv]; [|by apply (consumed_ok _ _ _ Hok1 Hc)].
    exists domain. cbn [address_body address_ok]. rewrite Hl. split; [done|].
    split; [exact (consumed_app _ _ _ _ _ Hn Hc)|]. split; [lia|done].
  - intros (domain & -> & Hc & Hlen & Hv). cbn [address_body] in Hc.
    apply (consumed_split _ [_]) in Hc as [Hn Hc]. do 2 eexists. split; [exact Hn|].
    replace (_ =? 0) with false by lia. apply sm_bind_Ok. do 2 eexists.
    split; [apply fill_Ok; [lia|by split]|]. apply sm_bind_Ok. do 2 eexists.
    split; [apply sm_lift_Ok; split; [done|]|apply sm_ret_Ok; done].
    by rewrite (proj2 (from_utf8_iff _ domain (as_bytes_ok _))).
Qed.

(** The body of an address is read exactly for the address type before it. *)
Lemma read_address_Ok t p p' a :
  bytes_ok (incoming p) ->
  read_address t p = (p', Ok a) <->
  t = address_type a /\ consumed p (address_body a) p' /\ address_ok a.
Proof.
  intros Hok. unfold read_address.
  destruct (Z.eqb_spec t 1) as [->|H1]; [|destruct (Z.eqb_spec t 3) as [->|H3];
    [|destruct (Z.eqb_spec t 4) as [->|H4]]].
  - etrans; [exact (read_be_Ok 4 Socks5_Ipv4 p p' a Hok)|]. split.
    + by intros (v & -> & H).
    + intros (Ht & H). destruct a; try done. by exists ip.
  - etrans; [exact (read_domain_Ok p p' a Hok)|]. split.
    + by intros (d & -> & H).
    + intros (Ht & H). destruct a; try done. by exists domain.
  - etrans; [exact (read_be_Ok 16 Socks5_Ipv6 p p' a Hok)|]. split.
    + by intros (v & -> & H).
    + intros (Ht & H). destruct a; try done. by exists ip.
  - split; [done|]. intros (-> & _). by destruct a.
Qed.

Lemma command_of_byte_Ok b c : command_of_byte b = Ok c <-> b = command_byte c.
Proof.
  unfold command_of_byte.
  destruct (Z.eqb_spec b 1) as [->|]; [|destruct (Z.eqb_spec b 2) as [->|];
    [|destruct (Z.eqb_spec b 3) as [->|]]]; destruct c; cbn; split; congruence.
Qed.

Lemma parse_request_sound p p' r :
  bytes_ok (incoming p) -> parse_socks5_request p = (p', Ok r) ->
  consumed p (wire_request r) p' /\ request_ok r.
Proof.
  intros Hok. unfold parse_socks5_request, request_ok.
  intros H. apply sm_bind_Ok in H as (p1 & v & Hv & H). apply read_u8_Ok in Hv.
  destruct (Z.eqb_spec v 5) as [->|]; [|done]. cbn [negb] in H.
  apply sm_bind_Ok in H as (p2 & c & Hc & H). apply read_u8_Ok in Hc.
  apply sm_bind_Ok in H as (p2' & cmd & Hcmd & H). apply sm_lift_Ok in Hcmd as [-> Hcmd].
  apply command_of_byte_Ok in Hcmd as ->.
  apply sm_bind_Ok in H as (p3 & z & Hz & H). apply read_u8_Ok in Hz.
  destruct (Z.eqb_spec z 0) as [->|]; [|done]. cbn [negb] in H.
  apply sm_bind_Ok in H as (p4 & t & Ht & H). apply read_u8_Ok in Ht.
  pose proof (consumed_app _ _ _ _ _ (consumed_app _ _ _ _ _ (consumed_app _ _ _ _ _ Hv Hc) Hz) Ht)
    as Hhead. pose proof (proj2 (consumed_ok _ _ _ Hok Hhead)) as Hok4.
  apply sm_bind_Ok in H as (p5 & a & Ha & H). apply read_address_Ok in Ha as (-> & Ha & Haok); [|done].
  pose proof (proj2 (consumed_ok _ _ _ Hok4 Ha)) as Hok5.
  apply sm_bind_Ok in H as (p6 & port & Hp & H). apply read_u16_Ok in Hp as [Hp Hport]; [|done].
  apply sm_ret_Ok in H as [-> ->]. split; [|done].
  exact (consumed_app _ _ _ _ _ Hhead (consumed_app _ _ _ _ _ Ha Hp)).
Qed.

Lemma parse_request_complete p p' r :
  bytes_ok (incoming p) -> consumed p (wire_request r) p' -> request_ok r ->
  parse_socks5_request p = (p', Ok r).
Proof.
  intros Hok Hc [Haok Hport]. unfold parse_socks5_request. unfold wire_request in Hc.
  apply consumed_split in Hc as [Hhead Hc]. apply consumed_split in Hc as [Ha Hp].
  apply (consumed_split _ [_]) in Hhead as [Hv Hhead].
  apply (consumed_split _ [_]) in Hhead as [Hcmd Hhead].
  apply (consumed_split _ [_]) in Hhead as [Hz Ht].
  assert (forall q bytes q', bytes_ok (incoming q) -> consumed q bytes q' -> bytes_ok (incoming q'))
    as Hnext by (intros q bytes q' Hq Hqq; by apply (consumed_ok _ _ _ Hq Hqq)).
  pose proof (Hnext _ _ _ (Hnext _ _ _ (Hnext _ _ _ (Hnext _ _ _ Hok Hv) Hcmd) Hz) Ht) as Hok4.
  pose proof (Hnext _ _ _ Hok4 Ha) as Hok5.
  apply sm_bind_Ok. do 2 eexists. split; [by apply read_u8_Ok|]. cbn [negb Z.eqb Pos.eqb].
  apply sm_bind_Ok. do 2 eexists. split; [by apply read_u8_Ok|].
  apply sm_bind_Ok. do 2 eexists. split; [by apply sm_lift_Ok; split; [|apply command_of_byte_Ok]|].
  apply sm_bind_Ok. do 2 eexists. split; [by apply read_u8_Ok|]. cbn [negb Z.eqb].
  apply sm_bind_Ok. do 2 eexists. split; [by apply read_u8_Ok|].
  apply sm_bind_Ok. do 2 eexists. split; [by apply read_address_Ok|].
  apply sm_bind_Ok. do 2 eexists. split; [by apply read_u16_Ok|].
  apply sm_ret_Ok. by destruct r.
Qed.

(** ** Datagrams, exactly *)

Section Offsets.
Context (input : list Z) (Hok : bytes_ok input).

(** The offset [off] has [rest] ahead of it. *)
Definition at_offset (off : Z) (rest : list Z) : Prop :=
  exists pre, input = pre ++ rest /\ off = len pre.

Lemma at_offset_ok off rest : at_offset off rest -> bytes_ok rest.
Proof. intros (pre & E & _). pose proof Hok as H. rewrite E in H. by apply bytes_ok_app in H as [_ ?]. Qed.

Lemma read_slice_Ok n off rest off' bytes :
  0 <= n -> at_offset off rest ->
  read_slice input n off = (off', Ok bytes) <->
  exists rest', rest = bytes ++ rest' /\ len bytes = n /\ at_offset off' rest' /\ off' = off + n.
Proof.
  intros Hn (pre & E & Hoff). unfold read_slice, sm_bind, sm_get. split.
  - destruct (Z.leb_spec (off + n) (len input)) as [Hle|]; [|done].
    pose proof (len_nonneg pre). unfold sm_lift. rewrite slice_ok by lia.
    cbn. intros [= <- <-]. exists (drop (Z.to_nat n) rest).
    assert (sub_list input off (off + n) = take (Z.to_nat n) rest) as ->.
    { unfold sub_list. rewrite E, Hoff. unfold len. rewrite Nat2Z.id, drop_app_length. f_equal. lia. }
    rewrite take_drop. split; [done|]. rewrite E, len_app, Hoff in Hle.
    split; [unfold len in *; rewrite length_take; lia|]. split; [|done].
    exists (pre ++ take (Z.to_nat n) rest). rewrite <- app_assoc, take_drop. split; [done|].
    rewrite len_app. unfold len in *. rewrite length_take. lia.
  - intros (rest' & -> & Hl & _ & ->). pose proof (len_nonneg pre). pose proof (len_nonneg rest').
    assert (Hle : off + n <= len input) by (rewrite E, !len_app; lia).
    replace (_ <=? _) with true by lia. unfold sm_lift. rewrite slice_ok by lia. cbn.
    by rewrite E, sub_list_app_mid by lia.
Qed.

Lemma slice_be_Ok {A} n (f : Z -> A) off rest off' a :
  at_offset off rest ->
  sm_bind (read_slice input (Z.of_nat n)) (fun bytes => sm_ret (f (from_be_bytes bytes))) off
    = (off', Ok a) <->
  exists v rest', a = f v /\ rest = to_be_bytes n v ++ rest' /\ 0 <= v < 256 ^ Z.of_nat n /\
    at_offset off' rest' /\ off' = off + Z.of_nat n.
Proof.
  intros Hat. pose proof (at_offset_ok _ _ Hat) as Hr. rewrite sm_bind_Ok. split.
  - intros (o & bytes & Hs & Ha). apply sm_ret_Ok in Ha as [-> ->].
    apply (proj1 (read_slice_Ok _ _ _ _ _ (Zle_0_nat n) Hat)) in Hs as (rest' & E & Hl & Hat' & Ho).
    rewrite E in Hr. apply bytes_ok_app in Hr as [Hb _].
    destruct (proj1 (be_bytes_iff n bytes _ Hb) (conj Hl eq_refl)) as [Eb Hv].
    exists (from_be_bytes bytes), rest'. by rewrite <- Eb.
  - intros (v & rest' & -> & -> & Hv & Hat' & Ho). exists off', (to_be_bytes n v). split.
    + eapply read_slice_Ok; [lia|exact Hat|]. exists rest'. by rewrite len_to_be_bytes.
    + apply sm_ret_Ok. by rewrite from_to_be_bytes_id.
Qed.

Lemma slice_domain_Ok off rest off' a :
  at_offset off rest ->
  (bytes <-! read_slice input 1;
   length <-! sm_lift (ok_or TruncatedUdpDatagram (head bytes));
   if length =? 0 then sm_lift (Err EmptyDomain)
   else
     bytes <-! read_slice input length;
     domain <-! sm_lift (ok_or InvalidDomain (from_utf8 bytes));
     sm_ret (Socks5_Domain domain)) off = (off', Ok a) <->
  exists domain rest', a = Socks5_Domain domain /\ rest = address_body a ++ rest' /\
    address_ok a /\ at_offset off' rest' /\ off' = off + len (address_body a).
Proof.
  intros Hat. pose proof (at_offset_ok _ _ Hat) as Hr. rewrite sm_bind_Ok. split.
  - intros (o1 & bytes & Hs & H).
    apply (proj1 (read_slice_Ok 1 off rest o1 bytes ltac:(lia) Hat)) in Hs
      as (rest1 & -> & Hl & Hat1 & ->).
    apply sm_bind_Ok in H as (o2 & n & Hn & H). apply sm_lift_Ok in Hn as [-> Hn].
    destruct bytes as [|b [|? l]]; [done| |rewrite !len_cons in Hl; pose proof (len_nonneg l); lia].
    injection Hn as ->. apply Forall_cons_1 in Hr as [Hn8 Hr]. unfold is_u8 in Hn8.
    destruct (Z.eqb_spec n 0) as [->|Hz]; [done|]. apply sm_bind_Ok in H as (o3 & bytes & Hs & H).
    apply (proj1 (read_slice_Ok n _ _ o3 bytes ltac:(lia) Hat1)) in Hs
      as (rest2 & -> & Hl2 & Hat2 & ->).
    apply sm_bind_Ok in H as (o4 & domain & Hd & H).
    apply sm_lift_Ok in Hd as [-> Hd]. apply sm_ret_Ok in H as [-> ->].
    destruct (from_utf8 bytes) as [text|] eqn:Hu; [|done]. injection Hd as ->.
    apply bytes_ok_app in Hr as [Hb _]. apply from_utf8_iff in Hu as [-> Hv]; [|done].
    exists domain, rest2. cbn [address_body address_ok]. rewrite Hl2, len_cons, Hl2.
    split_and!; try done; lia.
  - intros (domain & rest' & -> & -> & [Hlen Hv] & Hat' & ->). cbn [address_body] in *.
    set (n := len (as_bytes domain)) in *.
    assert (Hat1 : at_offset (off + 1) (as_bytes domain ++ rest')).
    { destruct Hat as (pre & E & ->). exists (pre ++ [n]). rewrite <- app_assoc. split; [done|].
      by rewrite len_app. }
    exists (off + 1), [n]. split.
    { eapply read_slice_Ok; [lia|exact Hat|]. by eexists. }
    apply sm_bind_Ok. do 2 eexists. split; [by apply sm_lift_Ok|].
    replace (n =? 0) with false by lia. apply sm_bind_Ok. exists (off + 1 + n), (as_bytes domain). split.
    { eapply read_slice_Ok; [lia|exact Hat1|]. exists rest'. split_and!; try done.
      rewrite len_cons in Hat'. fold n in Hat'. by replace (off + 1 + n) with (off + (1 + n)) by lia. }
    apply sm_bind_Ok. do 2 eexists. split; [apply sm_lift_Ok; split; [done|]|apply sm_ret_Ok].
    + by rewrite (proj2 (from_utf8_iff _ domain (as_bytes_ok _))).
    + split; [|done]. rewrite len_cons. fold n. lia.
Qed.

Lemma slice_address_Ok t off rest off' a :
  at_offset off rest ->
  slice_address input t off = (off', Ok a) <->
  t = address_type a /\ exists rest', rest = address_body a ++ rest' /\ address_ok a /\
    at_offset off' rest' /\ off' = off + len (address_body a).
Proof.
  intros Hat. unfold slice_address.
  destruct (Z.eqb_spec t 1) as [->|H1]; [|destruct (Z.eqb_spec t 3) as [->|H3];
    [|destruct (Z.eqb_spec t 4) as [->|H4]]].
  - etrans; [exact (slice_be_Ok 4 Socks5_Ipv4 off rest off' a Hat)|]. split.
    + intros (v & rest' & -> & H). split; [done|]. by exists rest'.
    + intros (Ht & rest' & H). destruct a; try done. by exists ip, rest'.
  - etrans; [exact (slice_domain_Ok off rest off' a Hat)|]. split.
    + intros (d & rest' & -> & H). split; [done|]. by exists rest'.
    + intros (Ht & rest' & H). destruct a; try done. by exists domain, rest'.
  - etrans; [exact (slice_be_Ok 16 Socks5_Ipv6 off rest off' a Hat)|]. split.
    + intros (v & rest' & -> & H). split; [done|]. by exists rest'.
    + intros (Ht & rest' & H). destruct a; try done. by exists ip, rest'.
  - split; [done|]. intros (-> & _). by destruct a.
Qed.
End Offsets.

Lemma slice_app_tail_of {E} (l pre tl : list Z) a b :
  l = pre ++ tl -> a = len pre -> b = len l -> @slice E Z l a b = Ok tl.
Proof. intros -> -> ->. apply slice_app_tail; [done|by rewrite len_app]. Qed.

(** The part of the datagram parser behind the fixed bytes. *)
Lemma datagram_body_Ok input t rest d :
  bytes_ok input -> at_offset input 4 rest ->
  snd (parse_datagram_body input t 4) = Ok d <->
  t = address_type (datagram_address d) /\
  rest = address_body (datagram_address d) ++ to_be_bytes 2 (datagram_port d) ++ datagram_payload d /\
  datagram_ok d.
Proof.
  intros Hok Hat. split.
  - destruct (parse_datagram_body input t 4) as [o r] eqn:Hrun. cbn [snd]. intros ->.
    apply sm_bind_Ok in Hrun as (o1 & a & Ha & H).
    apply (slice_address_Ok _ Hok _ _ _ _ _ Hat) in Ha as (-> & rest1 & -> & Haok & Hat1 & _).
    apply sm_bind_Ok in H as (o2 & bytes & Hs & H).
    apply (proj1 (read_slice_Ok _ 2 _ _ _ _ ltac:(lia) Hat1)) in Hs as (rest2 & -> & Hl & Hat2 & _).
    destruct bytes as [|p0 [|p1 [|? l]]]; try discriminate Hl;
      [|rewrite !len_cons in Hl; pose proof (len_nonneg l); lia].
    destruct Hat2 as (pre & E & ->). unfold sm_bind, sm_lift, sm_get, sm_ret in H. cbn -[from_be_bytes] in H. rewrite E in H.
    rewrite (slice_app_tail pre rest2) in H by (rewrite ?E, ?len_app; done).
    injection H as _ <-.
    pose proof (at_offset_ok _ Hok _ _ Hat) as Hrest. apply bytes_ok_app in Hrest as [_ Hrest].
    apply bytes_ok_app in Hrest as [Hp Hpay].
    destruct (proj1 (be_bytes_iff 2 [p0; p1] _ Hp) (conj eq_refl eq_refl)) as [Ep Hv].
    cbn [datagram_address datagram_port datagram_payload]. by rewrite <- Ep.
  - intros (-> & -> & Haok & Hport & Hpay).
    set (a := datagram_address d) in *. set (v := datagram_port d) in *.
    destruct Hat as (pre & E & H4).
    assert (Hat1 : at_offset input (4 + len (address_body a))
                     (to_be_bytes 2 v ++ datagram_payload d)).
    { exists (pre ++ address_body a). rewrite <- app_assoc, len_app. by rewrite <- H4. }
    assert (Hat2 : at_offset input (4 + len (address_body a) + 2) (datagram_payload d)).
    { destruct Hat1 as (pre1 & E1 & ->). exists (pre1 ++ to_be_bytes 2 v).
      rewrite <- app_assoc, len_app, len_to_be_bytes. done. }
    enough (parse_datagram_body input (address_type a) 4 = (4 + len (address_body a) + 2, Ok d))
      as -> by done.
    apply sm_bind_Ok. exists (4 + len (address_body a)), a. split.
    { apply (slice_address_Ok _ Hok _ 4 _ _ a (ex_intro _ pre (conj E H4))). split; [done|].
      by eexists. }
    apply sm_bind_Ok. exists (4 + len (address_body a) + 2), (to_be_bytes 2 v). split.
    { apply (proj2 (read_slice_Ok _ 2 _ _ _ _ ltac:(lia) Hat1)). by eexists. }
    destruct Hat2 as (pre2 & E2 & ->).
    assert (exists p0 p1, to_be_bytes 2 v = [p0; p1] /\ from_be_bytes [p0; p1] = v)
      as (p0 & p1 & -> & Ev).
    { do 2 eexists. split; [reflexivity|]. by apply (from_to_be_bytes_id 2). }
    unfold sm_bind, sm_lift, sm_get, sm_ret. change (@index Socks5Error Z [p0; p1] 0) with (@Ok Socks5Error Z p0).
    change (@index Socks5Error Z [p0; p1] 1) with (@Ok Socks5Error Z p1). cbv iota beta. rewrite Ev.
    rewrite (slice_app_tail_of input pre2 (datagram_payload d) _ _ E2) by done. by destruct d.
Qed.

(** Whatever the bytes, the parser of the body stays within the datagram. *)
Definition offset_ok (input : list Z) (off : Z) : Prop := 0 <= off <= len input.

Lemma read_slice_safe input n :
  bytes_ok input -> 0 <= n ->
  safe (offset_ok input) (read_slice input n) (fun bytes _ => len bytes = n /\ bytes_ok bytes).
Proof.
  intros Hok Hn off [Hlo Hhi]. unfold read_slice, sm_bind, sm_get, sm_lift, sm_modify, sm_ret.
  destruct (Z.leb_spec (off + n) (len input)); [|done]. rewrite slice_ok by lia. cbn.
  split; [unfold offset_ok; lia|]. rewrite len_sub_list by lia. split; [lia|auto with keli].
Qed.

Lemma slice_address_safe input t :
  bytes_ok input -> safe (offset_ok input) (slice_address input t) (fun _ _ => True).
Proof.
  intros Hok. unfold slice_address.
  assert (Hret : forall a, safe (E := Socks5Error) (offset_ok input) (sm_ret a)
    (fun (_ : Socks5Address) _ => True)) by (intros a; by eapply safe_mono; [apply safe_ret|]).
  destruct (t =? 1); [|destruct (t =? 3); [|destruct (t =? 4)]].
  1, 3: eapply safe_bind; [apply read_slice_safe; [done|lia]|]; intros; apply Hret.
  - eapply safe_bind; [apply read_slice_safe; [done|lia]|]. intros bytes [_ Hb].
    eapply (safe_bind _ _ _ (fun n => is_u8 n)).
    { apply safe_lift. destruct Hb as [|n l Hn _]; [done|]. exact Hn. }
    intros n Hn. unfold is_u8 in Hn. destruct (n =? 0); [by apply (safe_lift _ _ (fun _ => True))|].
    eapply safe_bind; [apply read_slice_safe; [done|lia]|]. intros text _.
    eapply (safe_bind _ _ _ (fun _ => True)); [|intros; apply Hret].
    apply safe_lift. by destruct (from_utf8 text).
  - by apply (safe_lift _ _ (fun _ => True)).
Qed.

Lemma datagram_body_returns input t :
  bytes_ok input -> 4 <= len input -> snd (parse_datagram_body input t 4) <> Panic.
Proof.
  intros Hok Hlen.
  enough (Hs : safe (offset_ok input) (parse_datagram_body input t) (fun _ _ => True)).
  { destruct (Hs 4) as [_ H]; [by unfold offset_ok|]. by destruct (snd _). }
  eapply (safe_bind _ _ _ (fun _ => True)); [by apply slice_address_safe|]. intros a _.
  eapply safe_bind; [apply read_slice_safe; [done|lia]|]. intros bytes [Hl _].
  destruct (index_ok (E := Socks5Error) bytes 0 ltac:(lia)) as (p0 & -> & _).
  destruct (index_ok (E := Socks5Error) bytes 1 ltac:(lia)) as (p1 & -> & _).
  intros off [Hlo Hhi]. unfold sm_bind, sm_lift, sm_get, sm_ret. rewrite slice_ok by lia.
  split; [by unfold offset_ok|done].
Qed.

Lemma parse_datagram_iff input d :
  bytes_ok input ->
  (parse_socks5_udp_datagram input = Ok d <-> input = wire_datagram d /\ datagram_ok d) /\
  parse_socks5_udp_datagram input <> Panic.
Proof.
  intros Hok. unfold parse_socks5_udp_datagram.
  destruct (Z.ltb_spec (len input) 4) as [Hlt|Hge].
  { split; [|done]. split; [done|]. intros [-> _]. exfalso. unfold wire_datagram in Hlt.
    rewrite !len_app, !len_cons in Hlt. pose proof (len_nonneg (datagram_payload d)).
    pose proof (len_nonneg (address_body (datagram_address d))). rewrite len_to_be_bytes in Hlt.
    change (len (@nil Z)) with 0 in Hlt. lia. }
  destruct input as [|b0 [|b1 [|b2 [|b3 rest]]]]; try (exfalso; vm_compute in Hge; congruence).
  change (index (b0 :: b1 :: b2 :: b3 :: rest) 0) with (@Ok Socks5Error Z b0).
  change (index (b0 :: b1 :: b2 :: b3 :: rest) 1) with (@Ok Socks5Error Z b1).
  change (index (b0 :: b1 :: b2 :: b3 :: rest) 2) with (@Ok Socks5Error Z b2).
  change (index (b0 :: b1 :: b2 :: b3 :: rest) 3) with (@Ok Socks5Error Z b3). cbn [result_bind].
  destruct (Z.eqb_spec b0 0) as [->|]; [|by split; [split; [|intros [[= ] _]]|]]. cbn [negb orb].
  destruct (Z.eqb_spec b1 0) as [->|]; [|by split; [split; [|intros [[= ] _]]|]]. cbn [negb].
  destruct (Z.eqb_spec b2 0) as [->|]; [|by split; [split; [|intros [[= ] _]]|]]. cbn [negb].
  split; [|by apply datagram_body_returns].
  rewrite (datagram_body_Ok _ _ rest) by (try done; by exists [0; 0; 0; b3]).
  unfold wire_datagram. split.
  - intros (-> & -> & Hd). done.
  - intros [[= -> ->] Hd]. done.
Qed.

Lemma wire_datagram_ok d : datagram_ok d -> bytes_ok (wire_datagram d).
Proof.
  intros (Ha & Hp & Hpay). unfold wire_datagram.
  rewrite !bytes_ok_app. split_and!; [| |apply to_be_bytes_ok|done].
  { destruct (datagram_address d); repeat (apply List.Forall_cons; [vm_compute; split; congruence|]);
      apply List.Forall_nil. }
  destruct (datagram_address d); cbn [address_body]; try apply to_be_bytes_ok.
  destruct Ha as [Ha _]. apply List.Forall_cons; [unfold is_u8; lia|apply as_bytes_ok].
Qed.

(** The datagram parser accepts exactly the datagrams of RFC 1928 that are not
    fragments, and returns their address, port and payload; every other byte
    string is refused with an error, never with a panic. *)
Theorem socks5_datagram_exact input d :
  bytes_ok input ->
  (parse_socks5_udp_datagram input = Ok d <-> input = wire_datagram d /\ datagram_ok d) /\
  parse_socks5_udp_datagram input <> Panic.
Proof. apply parse_datagram_iff. Qed.

(** What the encoder sends for an address: a domain without surrounding white space. *)
Definition sent_address (a : Socks5Address) : Socks5Address :=
  match a with Socks5_Domain domain => Socks5_Domain (trim domain) | _ => a end.

(** A datagram the client encodes is read back as what was put into it, the
    domain stripped of surrounding white space; encoding fails exactly for a
    domain that is empty or longer than 255 bytes after that. *)
Theorem socks5_datagram_roundtrip address port payload :
  (match address with
   | Socks5_Domain domain => utf8_valid (as_bytes (trim domain)) = true
   | _ => address_ok address
   end) ->
  is_u16 port -> bytes_ok payload ->
  match encode_socks5_udp_datagram address port payload with
  | Ok bytes =>
      parse_socks5_udp_datagram bytes =
        Ok (mkSocks5UdpDatagram (sent_address address) port payload)
  | Err e =>
      exists domain, address = Socks5_Domain domain /\
        (trim domain = "" /\ e = EmptyDomain \/
         255 < len (as_bytes (trim domain)) /\ e = DomainTooLong)
  | Panic => False
  end.
Proof.
  intros Ha Hport Hpay. unfold encode_socks5_udp_datagram.
  assert (Hread : address_ok (sent_address address) ->
    parse_socks5_udp_datagram (wire_datagram (mkSocks5UdpDatagram (sent_address address) port payload))
    = Ok (mkSocks5UdpDatagram (sent_address address) port payload)).
  { intros Hok. apply parse_datagram_iff; [by apply wire_datagram_ok|done]. }
  destruct address as [ip|domain|ip]; cbn [encode_address sent_address] in *.
  - by apply Hread.
  - destruct (String.eqb_spec (trim domain) "") as [He|He]; [exists domain; auto|].
    destruct (Z.ltb_spec u8_max (len (as_bytes (trim domain)))) as [Hl|Hl];
      [exists domain; split; [done|right; split; [exact Hl|done]]|].
    assert (1 <= len (as_bytes (trim domain)) <= 255).
    { split; [|exact Hl]. destruct (trim domain); [done|]. cbn [as_bytes]. rewrite len_cons.
      pose proof (len_nonneg (as_bytes s)). lia. }
    cbn [result_bind]. unfold as_u8. rewrite Z.mod_small by lia. by apply Hread.
  - by apply Hread.
Qed.

(** ** No stream makes the parsers panic *)

Definition bytes_pipe (p : Pipe) : Prop := bytes_ok (incoming p).

Lemma fill_safe n :
  0 <= n -> safe bytes_pipe (fill n) (fun bytes _ => len bytes = n /\ bytes_ok bytes).
Proof.
  intros Hn p Hp. destruct (Z.leb_spec n (len (incoming p))) as [Hle|Hlt].
  - unfold bytes_pipe in *. rewrite <- (take_drop (Z.to_nat n) (incoming p)) in Hp.
    apply bytes_ok_app in Hp as [Ht Hd]. unfold fill, sm_zoom, read_exact, Pipe_read, id.
    replace (n <=? _) with true by lia. cbn. split; [done|]. split; [|done].
    unfold len in *. rewrite length_take. lia.
  - unfold fill, sm_zoom, id. rewrite pipe_read_exact_short by lia. split; [|done].
    apply List.Forall_nil.
Qed.

Lemma read_u8_safe : safe bytes_pipe read_u8 (fun b _ => is_u8 b).
Proof.
  eapply safe_bind; [by apply fill_safe|]. intros bytes [Hl Hb].
  apply safe_lift, returns_index; [done|lia].
Qed.

Lemma read_address_safe t : safe bytes_pipe (read_address t) (fun _ _ => True).
Proof.
  unfold read_address.
  assert (Hret : forall a, safe (E := Socks5Error) bytes_pipe (sm_ret a)
    (fun (_ : Socks5Address) _ => True)) by (intros a; by eapply safe_mono; [apply safe_ret|]).
  destruct (t =? 1); [|destruct (t =? 3); [|destruct (t =? 4)]].
  1, 3: eapply safe_bind; [by apply fill_safe|]; intros; apply Hret.
  - eapply safe_bind; [apply read_u8_safe|]. intros n Hn. unfold is_u8 in Hn.
    destruct (n =? 0); [by apply (safe_lift _ _ (fun _ => True))|].
    eapply safe_bind; [apply fill_safe; lia|]. intros text _.
    eapply (safe_bind _ _ _ (fun _ => True)); [|intros; apply Hret].
    apply safe_lift. by destruct (from_utf8 text).
  - by apply (safe_lift _ _ (fun _ => True)).
Qed.

Lemma request_safe : safe bytes_pipe parse_socks5_request (fun _ _ => True).
Proof.
  assert (Herr : forall e : Socks5Error, safe bytes_pipe (sm_lift (Err e)) (fun (_ : Socks5Request) _ => True))
    by (intros e; exact (safe_lift _ (Err e) (fun _ => True) I)).
  eapply safe_bind; [apply read_u8_safe|]. intros version _. destruct (negb _); [apply Herr|].
  eapply safe_bind; [apply read_u8_safe|]. intros b _.
  eapply (safe_bind _ _ _ (fun _ => True)).
  { apply safe_lift. unfold command_of_byte. by repeat destruct (b =? _). }
  intros c _. eapply safe_bind; [apply read_u8_safe|]. intros z _. destruct (negb _); [apply Herr|].
  eapply safe_bind; [apply read_u8_safe|]. intros t _.
  eapply (safe_bind _ _ _ (fun _ => True)); [apply read_address_safe|]. intros a _.
  eapply (safe_bind _ _ _ (fun _ => True)).
  - eapply safe_bind; [by apply fill_safe|]. intros; by eapply safe_mono; [apply safe_ret|].
  - intros port _. by eapply safe_mono; [apply safe_ret|].
Qed.

(** The request parser accepts exactly the requests of RFC 1928: it returns
    a request if and only if the stream starts with that request's encoding
    (version 5, a known command, a zero reserved byte, an IPv4 or IPv6 address or a
    non-empty UTF-8 domain, a port), and then it has consumed exactly those bytes,
    leaving what follows them for the relay. Whatever else arrives gives an error,
    never a panic. *)
Theorem socks5_request_exact p p' r :
  bytes_ok (incoming p) ->
  (parse_socks5_request p = (p', Ok r) <-> consumed p (wire_request r) p' /\ request_ok r) /\
  snd (parse_socks5_request p) <> Panic.
Proof.
  intros Hok. split.
  - split; [by apply parse_request_sound|]. intros [Hc Hr]. by apply parse_request_complete.
  - destruct (request_safe p Hok) as [_ H]. by destruct (snd _).
Qed.

Lemma socks5_request_exact_witness :
  let r := mkSocks5Request Connect (Socks5_Domain "a.b") 443 in
  parse_socks5_request (mkPipe (wire_request r ++ [22; 3; 1]) end_of_stream []) =
    (mkPipe [22; 3; 1] end_of_stream [], Ok r).
Proof.
  apply (socks5_request_exact
    (mkPipe (wire_request (mkSocks5Request Connect (Socks5_Domain "a.b") 443) ++ [22; 3; 1])
       end_of_stream []) (mkPipe [22; 3; 1] end_of_stream [])).
  - repeat constructor; vm_compute; congruence.
  - split; [by split_and!|]. split; [|vm_compute; split; congruence].
    split; [vm_compute; split; congruence|reflexivity].
Defined.

Lemma socks5_datagram_exact_witness :
  let d := mkSocks5UdpDatagram (Socks5_Ipv4 16909060) 53 [1; 2] in
  parse_socks5_udp_datagram [0; 0; 0; 1; 1; 2; 3; 4; 0; 53; 1; 2] = Ok d.
Proof.
  apply (socks5_datagram_exact [0; 0; 0; 1; 1; 2; 3; 4; 0; 53; 1; 2]).
  - repeat constructor; vm_compute; congruence.
  - split; [reflexivity|]. split; [vm_compute; split; congruence|].
    split; [vm_compute; split; congruence|]. repeat constructor; vm_compute; congruence.
Defined.
