(* ===== verification/WebSocket.v ===== *)
(** * The WebSocket client stream

    [crates/keli-net-core/src/websocket.rs]: the opening handshake and the frames of
    RFC 6455, for a client whose byte stream is carried in binary messages.

    The random masks are arguments; SHA-1 and Base64 are parameters. A [usize] has
    64 bits. *)

From Stdlib Require Import Ascii.
From stdpp Require Import base strings list numbers.
From S2P Require Import Prelude.
From S2P Require Import StdIo.
#[local] Open Scope Z_scope.

Definition OPCODE_TEXT : Z := 1.
Definition OPCODE_BINARY : Z := 2.
Definition OPCODE_CLOSE : Z := 8.
Definition OPCODE_PING : Z := 9.
Definition OPCODE_PONG : Z := 10.

Definition invalid_data (message : string) : IoError := mkIoError InvalidData message.

(** The longest allocation: [vec![0; len]] panics with a capacity overflow beyond
    [isize::MAX]. *)
Definition isize_max : Z := 2 ^ 63 - 1.

Definition vec_zeroed {E} (n : Z) : result E unit :=
  if isize_max <? n then Panic else Ok tt.

(** ** Frames *)

Section Frames.
Context {S : Type} {Reader : Read S} {Writer : Write S}.

Definition IoM (A : Type) : Type := SM S IoError A.

(** The bytes [write_payload_len] adds to a [Vec]. *)
Definition payload_len_bytes (n : Z) (masked : bool) : list Z :=
  let mask_bit := if masked then 128 else 0 in
  if n <=? 125 then [Z.lor mask_bit (as_u8 n)]
  else if n <=? u16_max then Z.lor mask_bit 126 :: to_be_bytes 2 (as_u16 n)
  else Z.lor mask_bit 127 :: to_be_bytes 8 n.

Definition write_payload_len (n : Z) (masked : bool) : IoM unit :=
  let mask_bit := if masked then 128 else 0 in
  if n <=? 125 then write_all [Z.lor mask_bit (as_u8 n)]
  else if n <=? u16_max then
    do! write_all [Z.lor mask_bit 126];
    write_all (to_be_bytes 2 (as_u16 n))
  else
    do! write_all [Z.lor mask_bit 127];
    write_all (to_be_bytes 8 n).

(** [byte ^ mask[index % 4]] for every byte; [index] is the first one's index. *)
Fixpoint apply_mask (mask : list Z) (index : nat) (payload : list Z) : list Z :=
  match payload with
  | [] => []
  | byte :: payload' =>
      Z.lxor byte (default 0 (mask !! (index mod 4)%nat)) :: apply_mask mask (Datatypes.S index) payload'
  end.

(** The frame is put together in a buffer, then written at once. *)
Definition write_masked_binary_frame (mask payload : list Z) : IoM unit :=
  let frame :=
    [Z.lor 128 OPCODE_BINARY] ++ payload_len_bytes (len payload) true ++ mask
    ++ apply_mask mask 0 payload in
  do! write_all frame;
  flush.

(** [for .. { stream.write_all(&[byte])? }] *)
Fixpoint write_bytes (bytes : list Z) : IoM unit :=
  match bytes with
  | [] => sm_ret tt
  | byte :: bytes' => do! write_all [byte]; write_bytes bytes'
  end.

Definition write_control_frame (opcode : Z) (mask payload : list Z) : IoM unit :=
  if 125 <? len payload
  then sm_lift (Err (invalid_data "websocket control frame is too large"))
  else
    do! write_all [Z.lor 128 opcode];
    do! write_payload_len (len payload) true;
    do! write_all mask;
    write_bytes (apply_mask mask 0 payload).

Definition read_payload_len (first_len : Z) : IoM Z :=
  if (0 <=? first_len) && (first_len <=? 125) then sm_ret first_len
  else if first_len =? 126 then
    bytes <-! read_exact 2;
    sm_ret (from_be_bytes bytes)
  else if first_len =? 127 then
    bytes <-! read_exact 8;
    sm_ret (from_be_bytes bytes)
  else sm_lift Panic.

(** One frame: its first byte and its payload, unmasked. *)
Definition read_frame : IoM (Z * list Z) :=
  header <-! read_exact 2;
  h0 <-! sm_lift (index header 0);
  h1 <-! sm_lift (index header 1);
  let masked := negb (Z.land h1 128 =? 0) in
  n <-! read_payload_len (Z.land h1 127);
  mask <-! (if masked then read_exact 4 else sm_ret [0; 0; 0; 0]);
  do! sm_lift (vec_zeroed n);
  payload <-! read_exact n;
  sm_ret (h0, if masked then apply_mask mask 0 payload else payload).

(** The loop, for at most [fuel] frames; [masks i] is the mask of the answer to the
    [i]-th frame. Theorems that a read returns give it more than enough fuel. *)
Fixpoint read_frame_payload (fuel : nat) (masks : nat -> list Z) : IoM (list Z) :=
  match fuel with
  | O => sm_lift Panic
  | Datatypes.S fuel' =>
      '(h0, payload) <-! read_frame;
      let fin := negb (Z.land h0 128 =? 0) in
      let opcode := Z.land h0 15 in
      if ((opcode =? OPCODE_TEXT) || (opcode =? OPCODE_BINARY)) && fin then sm_ret payload
      else if opcode =? OPCODE_CLOSE
      then sm_lift (Err (mkIoError UnexpectedEof "websocket peer closed"))
      else if opcode =? OPCODE_PING then
        do! write_control_frame OPCODE_PONG (masks fuel') payload;
        read_frame_payload fuel' masks
      else if opcode =? OPCODE_PONG then read_frame_payload fuel' masks
      else sm_lift (Err (invalid_data "unsupported websocket frame"))
  end.

(** ** The stream *)

Record OwnedWebSocketClientStream : Type := mkOwnedWebSocketClientStream {
  ws_stream : S;
  ws_read_buffer : list Z
}.

Definition WsM (A : Type) : Type := SM OwnedWebSocketClientStream IoError A.

Definition on_stream {A} (m : IoM A) : WsM A :=
  sm_zoom ws_stream (fun s w => mkOwnedWebSocketClientStream s (ws_read_buffer w)) id m.

(** [while read < output.len() { .. pop_front() .. }]: what is put into [output], which
    has room for [output_len] bytes. *)
Definition drain_buffer (output_len : Z) : WsM (list Z) :=
  fun w =>
    let n := Z.to_nat output_len in
    (mkOwnedWebSocketClientStream (ws_stream w) (drop n (ws_read_buffer w)),
     Ok (take n (ws_read_buffer w))).

(** [Read::read]: the bytes put into [output]. *)
Fixpoint ws_read (fuel : nat) (masks : nat -> nat -> list Z) (output_len : Z) : WsM (list Z) :=
  match fuel with
  | O => sm_lift Panic
  | Datatypes.S fuel' =>
      fun w =>
        if negb (is_empty (ws_read_buffer w)) then drain_buffer output_len w
        else
          match on_stream (read_frame_payload fuel (masks fuel')) w with
          | (w', Ok payload) =>
              ws_read fuel' masks output_len
                (mkOwnedWebSocketClientStream (ws_stream w') (ws_read_buffer w' ++ payload))
          | (w', Err error) =>
              if bool_decide (io_kind error = UnexpectedEof) then (w', Ok [])
              else (w', Err error)
          | (w', Panic) => (w', Panic)
          end
  end.

(** [Write::write]. *)
Definition ws_write (mask buffer : list Z) : WsM Z :=
  do! on_stream (write_masked_binary_frame mask buffer);
  sm_ret (len buffer).

Definition ws_flush : WsM unit := on_stream flush.
End Frames.

Arguments mkOwnedWebSocketClientStream {S}.
Arguments ws_stream {S}.
Arguments ws_read_buffer {S}.

(** ** The handshake *)

Definition WEBSOCKET_GUID : string := "258EAFA5-E914-47DA-95CA-C5AB0DC85B11".

Section Handshake.
Context {S : Type} {Reader : Read S} {Writer : Write S}.
(** [Sha1] and the standard Base64 engine. *)
Context (sha1 : list Z -> list Z) (base64_encode : list Z -> string).

Definition websocket_accept_for_key (key : string) : string :=
  base64_encode (sha1 (as_bytes key ++ as_bytes WEBSOCKET_GUID)).

Definition handshake_request (host path key : string) : string :=
  "GET " +:+ path +:+ " HTTP/1.1" +:+ crlf +:+ "Host: " +:+ host +:+ crlf
  +:+ "Upgrade: websocket" +:+ crlf +:+ "Connection: Upgrade" +:+ crlf
  +:+ "Sec-WebSocket-Key: " +:+ key +:+ crlf
  +:+ "Sec-WebSocket-Version: 13" +:+ crlf +:+ crlf.

Definition write_handshake_request (host path key : string) : SM S IoError unit :=
  write_all (as_bytes (handshake_request host path key)).

(** [bytes.ends_with(b"\r\n\r\n")], on the bytes in reverse. *)
Definition header_complete (rev_bytes : list Z) : bool :=
  match rev_bytes with
  | 10 :: 13 :: 10 :: 13 :: _ => true
  | _ => false
  end.

(** The loop of [read_http_response]; the bytes so far are kept in reverse. It ends
    after at most 16 * 1024 + 1 turns, which is the fuel it is given. *)
Fixpoint read_header_loop (fuel : nat) (rev_bytes : list Z) : SM S IoError (list Z) :=
  if header_complete rev_bytes then sm_ret (rev rev_bytes)
  else
    match fuel with
    | O => sm_lift Panic
    | Datatypes.S fuel' =>
        byte <-! read_exact 1;
        b <-! sm_lift (index byte 0);
        if 16384 <? len (b :: rev_bytes)
        then sm_lift (Err (invalid_data "websocket response header is too large"))
        else read_header_loop fuel' (b :: rev_bytes)
    end.

(** The message of the UTF-8 error is the standard library's. *)
Definition read_http_response (utf8_error : list Z -> string) : SM S IoError string :=
  bytes <-! read_header_loop (Z.to_nat 16385) [];
  match from_utf8 bytes with
  | Some text => sm_ret text
  | None => sm_lift (Err (invalid_data (utf8_error bytes)))
  end.

(** The flags [saw_upgrade], [saw_connection] and [saw_accept] after a header line. *)
Definition see_header (expected_accept : string) (saw : bool * bool * bool) (line : string)
  : bool * bool * bool :=
  let '(saw_upgrade, saw_connection, saw_accept) := saw in
  match split_once ":"%char line with
  | None => saw
  | Some (name, value) =>
      let value := trim value in
      if eq_ignore_ascii_case name "Upgrade" && eq_ignore_ascii_case value "websocket"
      then (true, saw_connection, saw_accept)
      else if eq_ignore_ascii_case name "Connection"
              && existsb (fun item => eq_ignore_ascii_case (trim item) "upgrade")
                   (split_on ","%char value)
      then (saw_upgrade, true, saw_accept)
      else if eq_ignore_ascii_case name "Sec-WebSocket-Accept"
              && String.eqb value expected_accept
      then (saw_upgrade, saw_connection, true)
      else saw
  end.

Definition validate_handshake_response (response key : string) : result IoError unit :=
  let all_lines := lines response in
  let status := default "" (head all_lines) in
  if negb (contains status " 101 ")
  then Err (invalid_data "websocket server did not switch protocols")
  else
    let expected_accept := websocket_accept_for_key key in
    let '(saw_upgrade, saw_connection, saw_accept) :=
      fold_left (see_header expected_accept) (tail all_lines) (false, false, false) in
    if saw_upgrade && saw_connection && saw_accept then Ok tt
    else Err (invalid_data "websocket handshake response is invalid").

(** The stream is moved in, and out as part of the client stream. *)
Definition connect_with_key (utf8_error : list Z -> string) (stream : S)
  (host path key : string) : result IoError (OwnedWebSocketClientStream (S := S)) :=
  let '(stream, outcome) :=
    (do! write_handshake_request host path key;
     do! flush;
     response <-! read_http_response utf8_error;
     sm_lift (validate_handshake_response response key)) stream in
  _ <-? outcome;
  Ok (mkOwnedWebSocketClientStream stream []).
End Handshake.
