(* ===== verification/WebSocketSpec.v ===== *)
(** * What the WebSocket stream promises

    The frames of RFC 6455 as a specification, and the theorems about [WebSocket]:
    what the client writes is read back, what a server sends arrives as one byte
    stream, the handshake is accepted on the headers the RFC requires; and two
    defects of the frame reader. *)

From Stdlib Require Import Ascii.
From stdpp Require Import base strings list numbers.
From S2P Require Import Prelude.
From S2P Require Import StdIo.
From S2P Require Import WebSocket.
#[local] Open Scope Z_scope.

(** ** The wire format *)

(** The length of a payload, with the mask bit [bit] (0 or 128) in its first byte. *)
Definition wire_len (bit n : Z) : list Z :=
  if n <? 126 then [bit + n]
  else if n <? 65536 then (bit + 126) :: to_be_bytes 2 n
  else (bit + 127) :: to_be_bytes 8 n.

(** A frame with first byte [h0]: a client masks its payload, a server does not. *)
Definition wire_frame (h0 : Z) (mask : option (list Z)) (payload : list Z) : list Z :=
  match mask with
  | Some m => h0 :: wire_len 128 (len payload) ++ m ++ apply_mask m 0 payload
  | None => h0 :: wire_len 0 (len payload) ++ payload
  end.

(** ** Bits *)

(** A fact about the small numbers, by enumeration. *)
Lemma small_cases (P : Z -> bool) (n : nat) :
  forallb (fun k => P (Z.of_nat k)) (seq 0 n) = true ->
  forall z, 0 <= z < Z.of_nat n -> P z = true.
Proof.
  intros H z Hz. rewrite forallb_forall in H. specialize (H (Z.to_nat z)).
  rewrite Z2Nat.id in H by lia. apply H, in_seq. lia.
Qed.

Lemma len_byte_bits n :
  0 <= n < 128 ->
  Z.land (0 + n) 127 = n /\ Z.land (0 + n) 128 = 0 /\
  Z.land (128 + n) 127 = n /\ Z.land (128 + n) 128 = 128 /\ Z.lor 128 n = 128 + n.
Proof.
  intros Hn.
  pose proof (small_cases (fun n => (Z.land (0 + n) 127 =? n) && (Z.land (0 + n) 128 =? 0)
    && (Z.land (128 + n) 127 =? n) && (Z.land (128 + n) 128 =? 128)
    && (Z.lor 128 n =? 128 + n)) 128 eq_refl n Hn) as H.
  rewrite !andb_true_iff, !Z.eqb_eq in H. tauto.
Qed.

Lemma payload_len_wire n masked :
  0 <= n < 2 ^ 64 -> payload_len_bytes n masked = wire_len (if masked then 128 else 0) n.
Proof.
  intros Hn. unfold payload_len_bytes, wire_len, as_u8, as_u16, u16_max.
  destruct (Z.leb_spec n 125).
  - replace (n <? 126) with true by lia. rewrite Z.mod_small by lia.
    destruct masked; [by rewrite (proj2 (proj2 (proj2 (proj2 (len_byte_bits n ltac:(lia))))))|done].
  - replace (n <? 126) with false by lia.
    destruct (Z.leb_spec n 65535); [replace (n <? 65536) with true by lia|
      replace (n <? 65536) with false by lia]; [rewrite Z.mod_small by lia|]; by destruct masked.
Qed.

(** Masking twice is the identity. *)
Lemma apply_mask_twice mask i payload : apply_mask mask i (apply_mask mask i payload) = payload.
Proof.
  revert i. induction payload as [|b l IH]; intros i; [done|]. cbn [apply_mask].
  by rewrite IH, Z.lxor_assoc, Z.lxor_nilpotent, Z.lxor_0_r.
Qed.

Lemma len_apply_mask mask i payload : len (apply_mask mask i payload) = len payload.
Proof. revert i. induction payload as [|b l IH]; intros i; [done|]. cbn. by rewrite !len_cons, IH. Qed.

(** ** Reading one frame *)

(** The length is read back from its encoding; the first byte was read with the
    header. *)
Lemma read_payload_len_run bit n rest e o :
  bit = 0 \/ bit = 128 -> 0 <= n < 2 ^ 64 ->
  exists h1 tl, wire_len bit n = h1 :: tl /\ Z.land h1 128 = bit /\
    read_payload_len (Z.land h1 127) (mkPipe (tl ++ rest) e o) = (mkPipe rest e o, Ok n).
Proof.
  intros Hbit Hn. unfold wire_len.
  assert (Hb : forall k, 0 <= k < 128 -> Z.land (bit + k) 127 = k /\ Z.land (bit + k) 128 = bit).
  { intros k Hk. destruct (len_byte_bits k Hk) as (? & ? & ? & ? & _). by destruct Hbit as [->| ->]. }
  destruct (Z.ltb_spec n 126); [|destruct (Z.ltb_spec n 65536)].
  - destruct (Hb n ltac:(lia)) as [E1 E2]. do 2 eexists. split; [done|]. split; [done|].
    rewrite E1. unfold read_payload_len. by replace ((0 <=? n) && (n <=? 125)) with true by lia.
  - destruct (Hb 126 ltac:(lia)) as [E1 E2]. do 2 eexists. split; [done|]. split; [done|].
    rewrite E1. unfold read_payload_len, sm_bind. cbn [Z.leb Z.compare andb Pos.compare Pos.compare_cont Z.eqb Pos.eqb].
    rewrite pipe_read_exact by (by rewrite len_to_be_bytes).
    unfold sm_ret. by rewrite from_to_be_bytes_id by (cbn; lia).
  - destruct (Hb 127 ltac:(lia)) as [E1 E2]. do 2 eexists. split; [done|]. split; [done|].
    rewrite E1. unfold read_payload_len, sm_bind. cbn [Z.leb Z.compare andb Pos.compare Pos.compare_cont Z.eqb Pos.eqb].
    rewrite pipe_read_exact by (by rewrite len_to_be_bytes).
    unfold sm_ret. by rewrite from_to_be_bytes_id by (cbn; lia).
Qed.

(** The header is read; what remains is the length, the mask and the payload. *)
Definition read_frame_body (h0 h1 : Z) : IoM (S := Pipe) (Z * list Z) :=
  let masked := negb (Z.land h1 128 =? 0) in
  n <-! read_payload_len (Z.land h1 127);
  mask <-! (if masked then read_exact 4 else sm_ret [0; 0; 0; 0]);
  do! sm_lift (vec_zeroed n);
  payload <-! read_exact n;
  sm_ret (h0, if masked then apply_mask mask 0 payload else payload).

Lemma read_frame_header h0 h1 rest e o :
  read_frame (mkPipe (h0 :: h1 :: rest) e o) = read_frame_body h0 h1 (mkPipe rest e o).
Proof.
  change (h0 :: h1 :: rest) with ([h0; h1] ++ rest). unfold read_frame, sm_bind at 1.
  by rewrite pipe_read_exact.
Qed.

Lemma read_frame_run h0 mask payload rest e o :
  len payload <= isize_max -> (forall m, mask = Some m -> len m = 4) ->
  read_frame (mkPipe (wire_frame h0 mask payload ++ rest) e o)
  = (mkPipe rest e o, Ok (h0, payload)).
Proof.
  intros Hlen Hmask. pose proof (len_nonneg payload). unfold isize_max in Hlen.
  assert (Hvec : vec_zeroed (E := IoError) (len payload) = Ok tt)
    by (unfold vec_zeroed, isize_max; by replace (_ <? _) with false by lia).
  unfold wire_frame. destruct mask as [m|].
  - destruct (read_payload_len_run 128 (len payload) (m ++ apply_mask m 0 payload ++ rest) e o)
      as (h1 & tl & -> & Hbit & Hrun); [by right|lia|].
    cbn [app]. rewrite <- !app_assoc, read_frame_header. unfold read_frame_body, sm_bind.
    rewrite Hbit, Hrun. cbn [negb Z.eqb].
    rewrite pipe_read_exact by (symmetry; by apply Hmask).
    unfold sm_lift. rewrite Hvec, pipe_read_exact by (by rewrite len_apply_mask).
    unfold sm_ret. by rewrite apply_mask_twice.
  - destruct (read_payload_len_run 0 (len payload) (payload ++ rest) e o)
      as (h1 & tl & -> & Hbit & Hrun); [by left|lia|].
    cbn [app]. rewrite <- !app_assoc, read_frame_header. unfold read_frame_body, sm_bind.
    rewrite Hbit, Hrun. cbn [negb Z.eqb]. unfold sm_lift, sm_ret. by rewrite Hvec, pipe_read_exact.
Qed.

(** Conditions on concrete opcodes. *)
Ltac eval_ifs :=
  repeat match goal with
    | |- context [if ?b then _ else _] => let v := eval vm_compute in b in change b with v; cbv iota
    end.

(** ** What is written *)

Lemma write_masked_binary_frame_run mask payload i e o :
  len payload < 2 ^ 64 ->
  write_masked_binary_frame mask payload (mkPipe i e o)
  = (mkPipe i e (o ++ wire_frame 130 (Some mask) payload), Ok tt).
Proof.
  intros Hlen. pose proof (len_nonneg payload).
  unfold write_masked_binary_frame, sm_bind, wire_frame. by rewrite payload_len_wire.
Qed.

Lemma write_bytes_run bytes i e o :
  write_bytes bytes (mkPipe i e o) = (mkPipe i e (o ++ bytes), Ok tt).
Proof.
  revert o. induction bytes as [|b l IH]; intros o; cbn; unfold sm_bind, sm_ret; cbn.
  - by rewrite app_nil_r.
  - by rewrite IH, <- app_assoc.
Qed.

Lemma write_control_frame_run mask payload i e o :
  len payload <= 125 ->
  write_control_frame OPCODE_PONG mask payload (mkPipe i e o)
  = (mkPipe i e (o ++ wire_frame 138 (Some mask) payload), Ok tt).
Proof.
  intros Hlen. pose proof (len_nonneg payload). unfold write_control_frame, wire_frame.
  replace (125 <? len payload) with false by lia.
  rewrite <- (payload_len_wire _ true) by lia.
  unfold sm_bind, write_payload_len, payload_len_bytes. cbn -[Z.lor as_u8 Z.leb].
  replace (len payload <=? 125) with true by lia. cbn -[Z.lor as_u8].
  rewrite write_bytes_run. by rewrite <- !app_assoc.
Qed.

(** ** Messages of a server *)

Inductive ServerFrame : Type :=
| Text (payload : list Z)
| Binary (payload : list Z)
| Ping (payload : list Z)
| Pong (payload : list Z).

Definition frame_payload (f : ServerFrame) : list Z :=
  match f with Text p | Binary p | Ping p | Pong p => p end.

Definition frame_bytes (f : ServerFrame) : list Z :=
  match f with
  | Text p => wire_frame 129 None p
  | Binary p => wire_frame 130 None p
  | Ping p => wire_frame 137 None p
  | Pong p => wire_frame 138 None p
  end.

(** RFC 6455: control frames carry at most 125 bytes, other frames less than 2^63. *)
Definition frame_ok (f : ServerFrame) : Prop :=
  match f with
  | Text p | Binary p => len p < 2 ^ 63
  | Ping p | Pong p => len p <= 125
  end.

Definition wire (fs : list ServerFrame) : list Z := concat (map frame_bytes fs).

(** The byte stream that the messages carry. *)
Definition delivered (fs : list ServerFrame) : list Z :=
  concat (map (fun f => match f with Text p | Binary p => p | _ => [] end) fs).

Definition pings (fs : list ServerFrame) : list (list Z) :=
  concat (map (fun f => match f with Ping p => [p] | _ => [] end) fs).

(** One masked pong per ping, with its payload and in order. *)
Inductive answers : list (list Z) -> list Z -> Prop :=
| answers_nil : answers [] []
| answers_cons p ps m out :
    len m = 4 -> answers ps out -> answers (p :: ps) (wire_frame 138 (Some m) p ++ out).

Lemma answers_app ps qs out out' :
  answers ps out -> answers qs out' -> answers (ps ++ qs) (out ++ out').
Proof.
  induction 1; [done|]. intros H'. cbn [app]. rewrite <- app_assoc. constructor; auto.
Qed.

Lemma delivered_app fs gs : delivered (fs ++ gs) = delivered fs ++ delivered gs.
Proof. unfold delivered. by rewrite map_app, concat_app. Qed.

Lemma pings_app fs gs : pings (fs ++ gs) = pings fs ++ pings gs.
Proof. unfold pings. by rewrite map_app, concat_app. Qed.

(** Frames up to and with the next message, or up to the end of the stream. *)
Lemma read_frame_payload_run masks fs fuel e o :
  (forall i, len (masks i) = 4) -> Forall frame_ok fs -> (length fs < fuel)%nat ->
  exists fs1 fs2 out r,
    fs = fs1 ++ fs2 /\ answers (pings fs1) out /\
    read_frame_payload fuel masks (mkPipe (wire fs) e o) = (mkPipe (wire fs2) e (o ++ out), r) /\
    ((r = Ok (delivered fs1) /\ fs1 <> []) \/ (r = Err e /\ fs2 = [] /\ delivered fs1 = [])).
Proof.
  intros Hm Hok. revert fuel o. induction Hok as [|f fs Hf Hok IH]; intros [|fuel] o Hfuel;
    [cbn in Hfuel; lia| |cbn in Hfuel; lia|].
  { exists [], [], [], (Err e). rewrite (app_nil_r o). split_and!; [done|constructor| |by right].
    cbn. unfold sm_bind, read_frame, sm_bind. by rewrite pipe_read_exact_short by done. }
  assert (Hrun : forall h0, frame_bytes f = wire_frame h0 None (frame_payload f) ->
    read_frame (mkPipe (wire (f :: fs)) e o)
    = (mkPipe (wire fs) e o, Ok (h0, frame_payload f))).
  { intros h0 Hb. unfold wire. cbn [map concat]. rewrite Hb.
    apply read_frame_run; [|done]. unfold isize_max. destruct f; cbn in Hf |- *; lia. }
  cbn [read_frame_payload]. unfold sm_bind at 1.
  destruct f as [p|p|p|p]; cbn [frame_payload frame_bytes] in Hrun;
    rewrite (Hrun _ eq_refl); cbv beta iota zeta; eval_ifs.
  - exists [Text p], fs, [], (Ok p). cbn. rewrite app_nil_r. unfold delivered; cbn.
    rewrite app_nil_r. split_and!; try done; [constructor|by left].
  - exists [Binary p], fs, [], (Ok p). cbn. rewrite app_nil_r. unfold delivered; cbn.
    rewrite app_nil_r. split_and!; try done; [constructor|by left].
  - unfold sm_bind. rewrite write_control_frame_run by done.
    destruct (IH fuel (o ++ wire_frame 138 (Some (masks fuel)) p)) as (fs1 & fs2 & out & r & -> & Ha & -> & Hr);
      [cbn in Hfuel; lia|].
    exists (Ping p :: fs1), fs2, (wire_frame 138 (Some (masks fuel)) p ++ out), r.
    rewrite app_assoc. split_and!; [done|by constructor|done|].
    destruct Hr as [[-> ?]|(-> & -> & ?)]; [by left|by right].
  - destruct (IH fuel o) as (fs1 & fs2 & out & r & -> & Ha & -> & Hr); [cbn in Hfuel; lia|].
    exists (Pong p :: fs1), fs2, out, r. split_and!; [done..|].
    destruct Hr as [[-> ?]|(-> & -> & ?)]; [by left|by right].
Qed.

(** ** Reading the stream *)

(** A read of [n] bytes takes whole frames from the wire, and gives the front of the
    bytes they carry; it gives nothing only at the end of the stream. *)
Lemma ws_read_run masks fuel n fs e o buffer :
  (forall i j, len (masks i j) = 4) -> Forall frame_ok fs -> (length fs < fuel)%nat ->
  0 < n -> io_kind e = UnexpectedEof ->
  exists fs1 fs2 out bytes buffer',
    ws_read fuel masks n (mkOwnedWebSocketClientStream (mkPipe (wire fs) e o) buffer)
    = (mkOwnedWebSocketClientStream (mkPipe (wire fs2) e (o ++ out)) buffer', Ok bytes) /\
    fs = fs1 ++ fs2 /\ answers (pings fs1) out /\ bytes ++ buffer' = buffer ++ delivered fs1 /\
    len bytes <= n /\ (bytes = [] -> fs2 = [] /\ buffer' = []).
Proof.
  intros Hm Hok Hfuel Hn He. revert fs o buffer Hok Hfuel.
  induction fuel as [|fuel IH]; intros fs o buffer Hok Hfuel; [lia|].
  cbn [ws_read ws_read_buffer]. destruct (is_empty buffer) eqn:Hbuf; cbn [negb].
  - destruct buffer; [|done]. cbn [app].
    destruct (read_frame_payload_run (masks fuel) fs (S fuel) e o) as
      (fs1 & fs2 & out & r & -> & Ha & Hrun & Hr); [done..|].
    unfold on_stream, sm_zoom. cbn [ws_stream]. rewrite Hrun.
    apply Forall_app in Hok as [Hok1 Hok2].
    destruct Hr as [[-> Hne]|(-> & -> & Hd)].
    + cbn -[ws_read]. destruct (IH fs2 (o ++ out) (delivered fs1)) as
        (gs1 & gs2 & out' & bytes & buffer' & Hw & -> & Ha' & Hb & Hl & Hend); [done| |].
      { rewrite length_app in Hfuel. destruct fs1; [done|]. cbn in Hfuel. lia. }
      exists (fs1 ++ gs1), gs2, (out ++ out'), bytes, buffer'.
      rewrite Hw, delivered_app, pings_app, !app_assoc. split_and!; try done.
      by apply answers_app.
    + cbn. rewrite bool_decide_eq_true_2 by done.
      exists fs1, [], out, [], []. rewrite Hd. split_and!; done || (unfold len; cbn; lia).
  - exists [], fs, [], (take (Z.to_nat n) buffer), (drop (Z.to_nat n) buffer).
    unfold drain_buffer; cbn. rewrite take_drop, !app_nil_r. split_and!; try done; [constructor| |].
    + unfold len. rewrite length_take. lia.
    + intros Ht%(f_equal length). rewrite length_take in Ht. destruct buffer; [done|].
      cbn in Ht. lia.
Qed.

(** Reads of the given lengths, one after the other. *)
Fixpoint ws_reads {S} `{Read S, Write S} (fuel : nat) (masks : nat -> nat -> nat -> list Z)
  (ns : list Z) : WsM (S := S) (list Z) :=
  match ns with
  | [] => sm_ret []
  | n :: ns' =>
      bytes <-! ws_read fuel (masks (length ns')) n;
      more <-! ws_reads fuel masks ns';
      sm_ret (bytes ++ more)
  end.

Lemma ws_reads_run masks fuel ns fs e o buffer :
  (forall i j k, len (masks i j k) = 4) -> Forall frame_ok fs -> (length fs < fuel)%nat ->
  Forall (fun n => 0 < n) ns -> io_kind e = UnexpectedEof ->
  exists fs1 fs2 out bytes buffer',
    ws_reads fuel masks ns (mkOwnedWebSocketClientStream (mkPipe (wire fs) e o) buffer)
    = (mkOwnedWebSocketClientStream (mkPipe (wire fs2) e (o ++ out)) buffer', Ok bytes) /\
    fs = fs1 ++ fs2 /\ answers (pings fs1) out /\ bytes ++ buffer' = buffer ++ delivered fs1 /\
    (len bytes < len ns -> fs2 = [] /\ buffer' = []).
Proof.
  intros Hm Hok Hfuel Hns He. revert fs o buffer Hok Hfuel.
  induction Hns as [|n ns Hn Hns IH]; intros fs o buffer Hok Hfuel.
  - exists [], fs, [], [], buffer. rewrite !app_nil_r. split_and!; try done. constructor.
  - destruct (ws_read_run (masks (length ns)) fuel n fs e o buffer) as
      (fs1 & fs2 & out & bytes & buffer1 & Hw & -> & Ha & Hb & _ & Hend); [done..|].
    apply Forall_app in Hok as [_ Hok]. rewrite length_app in Hfuel.
    destruct (IH fs2 (o ++ out) buffer1) as
      (gs1 & gs2 & out' & more & buffer' & Hw' & -> & Ha' & Hb' & Hend'); [done|lia|].
    exists (fs1 ++ gs1), gs2, (out ++ out'), (bytes ++ more), buffer'.
    cbn [ws_reads]. unfold sm_bind, sm_ret. rewrite Hw, Hw', delivered_app, pings_app, !app_assoc.
    split_and!; try done; [by apply answers_app| |].
    + by rewrite <- app_assoc, Hb', app_assoc, Hb.
    + rewrite len_app, len_cons. intros Hlt. destruct bytes as [|b bytes].
      * destruct (Hend eq_refl) as [[-> ->]%app_eq_nil ->].
        cbn in Hb'. by apply app_eq_nil in Hb' as [_ ->].
      * apply Hend'. rewrite len_cons in Hlt. pose proof (len_nonneg bytes). lia.
Qed.

(** ** Theorems *)

(** What the client writes is one masked binary frame that a reader of the same
    protocol reads back exactly: for every 4-byte mask and every payload a [Vec] can
    hold, [write] appends bytes from which the frame reader gives the payload and
    leaves whatever follows; the write reports the payload's length, and touches
    neither the bytes that wait to be read nor the buffer. *)
Theorem websocket_write_read_roundtrip mask payload i e o buffer :
  len mask = 4 -> len payload <= isize_max ->
  exists frame,
    ws_write mask payload (mkOwnedWebSocketClientStream (mkPipe i e o) buffer)
    = (mkOwnedWebSocketClientStream (mkPipe i e (o ++ frame)) buffer, Ok (len payload)) /\
    forall fuel masks rest e' o',
      read_frame_payload (S fuel) masks (mkPipe (frame ++ rest) e' o')
      = (mkPipe rest e' o', Ok payload).
Proof.
  intros Hmask Hlen. exists (wire_frame 130 (Some mask) payload). split.
  - unfold ws_write, on_stream, sm_zoom, sm_bind, sm_ret. cbn [ws_stream].
    unfold isize_max in Hlen. by rewrite write_masked_binary_frame_run by lia.
  - intros. cbn [read_frame_payload]. unfold sm_bind.
    rewrite read_frame_run; [by eval_ifs|done|by intros ? [= <-]].
Qed.

Lemma websocket_write_read_roundtrip_witness :
  exists frame,
    ws_write [1; 2; 3; 4] [104; 105] (mkOwnedWebSocketClientStream (mkPipe [9] end_of_stream []) [7])
    = (mkOwnedWebSocketClientStream (mkPipe [9] end_of_stream ([] ++ frame)) [7], Ok 2) /\
    read_frame_payload 1 (fun _ => [0; 0; 0; 0]) (mkPipe (frame ++ [5]) end_of_stream [])
    = (mkPipe [5] end_of_stream [], Ok [104; 105]).
Proof.
  destruct (websocket_write_read_roundtrip [1; 2; 3; 4] [104; 105] [9] end_of_stream [] [7])
    as (frame & Hw & Hr); [done|by vm_compute|].
  exists frame. split; [exact Hw|]. apply (Hr 0%nat).
Defined.

(** The messages of a server arrive as one byte stream. Whatever text, binary,
    ping and pong frames are on the wire before the stream ends, and whatever lengths
    the application reads with: the reads succeed, together they give a prefix of the
    concatenated payloads of the text and binary frames, the rest of it is still
    buffered or on the wire, and every ping among the frames taken is answered, in
    order, by one masked pong with its payload. If fewer bytes were given than reads
    made, all of the stream was given. *)
Theorem websocket_stream_delivery masks fuel ns fs e o :
  (forall i j k, len (masks i j k) = 4) -> Forall frame_ok fs -> (length fs < fuel)%nat ->
  Forall (fun n => 0 < n) ns -> io_kind e = UnexpectedEof ->
  exists fs1 fs2 out bytes buffer',
    ws_reads fuel masks ns (mkOwnedWebSocketClientStream (mkPipe (wire fs) e o) [])
    = (mkOwnedWebSocketClientStream (mkPipe (wire fs2) e (o ++ out)) buffer', Ok bytes) /\
    fs = fs1 ++ fs2 /\ answers (pings fs1) out /\
    delivered fs = bytes ++ buffer' ++ delivered fs2 /\
    (len bytes < len ns -> bytes = delivered fs /\ answers (pings fs) out).
Proof.
  intros Hm Hok Hfuel Hns He.
  destruct (ws_reads_run masks fuel ns fs e o []) as
    (fs1 & fs2 & out & bytes & buffer' & Hw & -> & Ha & Hb & Hend); [done..|].
  cbn [app] in Hb. exists fs1, fs2, out, bytes, buffer'. rewrite delivered_app, <- Hb, app_assoc.
  split_and!; try done. intros Hlt. destruct (Hend Hlt) as [-> ->]. by rewrite !app_nil_r in *.
Qed.

Lemma websocket_stream_delivery_witness :
  exists w,
    ws_reads 4 (fun _ _ _ => [0; 0; 0; 0]) [2; 2; 2; 2; 2; 2]
      (mkOwnedWebSocketClientStream
         (mkPipe (wire [Binary [1; 2; 3]; Ping [9]; Text [4; 5]]) end_of_stream []) [])
    = (w, Ok [1; 2; 3; 4; 5]).
Proof.
  destruct (websocket_stream_delivery (fun _ _ _ => [0; 0; 0; 0]) 4 [2; 2; 2; 2; 2; 2]
    [Binary [1; 2; 3]; Ping [9]; Text [4; 5]] end_of_stream [])
    as (fs1 & fs2 & out & bytes & buffer' & Hw & _ & _ & Hd & Hall); [done| |cbn; lia| |done|].
  - repeat constructor; by vm_compute.
  - repeat constructor.
  - destruct Hall as [-> _]; [|by eexists].
    apply (f_equal len) in Hd. rewrite !len_app in Hd. unfold len in *. cbn in Hd |- *. lia.
Defined.

(** A frame header that announces 2^63 bytes or more makes the reader panic,
    whatever its opcode is and whatever follows: the buffer is allocated before any
    byte of the payload is read. *)
Theorem websocket_oversized_frame_panics fuel masks k h0 n rest e o :
  2 ^ 63 <= n < 2 ^ 64 ->
  ws_read (S fuel) masks k
    (mkOwnedWebSocketClientStream (mkPipe (h0 :: 127 :: to_be_bytes 8 n ++ rest) e o) [])
  = (mkOwnedWebSocketClientStream (mkPipe rest e o) [], Panic).
Proof.
  intros Hn. destruct (read_payload_len_run 0 n rest e o) as (h1 & tl & Hw & Hbit & Hrun);
    [by left|lia|].
  unfold wire_len in Hw. replace (n <? 126) with false in Hw by lia.
  replace (n <? 65536) with false in Hw by lia.
  generalize dependent (to_be_bytes 8 n). intros bs [= <- <-].
  cbn [ws_read ws_read_buffer is_empty negb]. unfold on_stream, sm_zoom.
  cbn [ws_stream read_frame_payload]. unfold sm_bind at 1. rewrite read_frame_header.
  unfold read_frame_body, sm_bind, sm_lift, sm_ret, vec_zeroed, isize_max.
  change (0 + 127) with 127 in Hrun. rewrite Hrun. by replace (2 ^ 63 - 1 <? n) with true by lia.
Qed.

Lemma websocket_oversized_frame_panics_witness :
  ws_read 1 (fun _ _ => [0; 0; 0; 0]) 16
    (mkOwnedWebSocketClientStream
       (mkPipe [130; 127; 128; 0; 0; 0; 0; 0; 0; 0; 1; 2] end_of_stream []) [])
  = (mkOwnedWebSocketClientStream (mkPipe [1; 2] end_of_stream []) [], Panic).
Proof.
  apply (websocket_oversized_frame_panics 0 _ 16 130 (2 ^ 63) [1; 2] end_of_stream []). lia.
Defined.

(** On a non-blocking stream, a frame that arrives in two pieces is forgotten and
    its payload is read as frames. A server sends one message, whose payload happens
    to be the bytes of a frame around [inner]; the header arrives first. The read
    reports that it would block and the header is lost, and the next read gives the
    application [inner] instead of the payload that was sent. *)
Theorem websocket_partial_frame_lost fuel masks n inner o :
  0 < len inner <= 123 ->
  let payload := wire_frame 130 None inner in
  let frame := wire_frame 130 None payload in
  ws_read (S fuel) masks n (mkOwnedWebSocketClientStream (mkPipe (take 2 frame) no_data_yet o) [])
  = (mkOwnedWebSocketClientStream (mkPipe [] no_data_yet o) [], Err no_data_yet) /\
  ws_read (S (S fuel)) masks n
    (mkOwnedWebSocketClientStream (mkPipe (drop 2 frame) no_data_yet o) [])
  = (mkOwnedWebSocketClientStream (mkPipe [] no_data_yet o) (drop (Z.to_nat n) inner),
     Ok (take (Z.to_nat n) inner)).
Proof.
  intros Hlen payload frame.
  assert (Hp : len payload = len inner + 2).
  { unfold payload, wire_frame, wire_len. replace (len inner <? 126) with true by lia.
    cbn [app]. rewrite !len_cons. lia. }
  assert (Hf : frame = 130 :: (0 + len payload) :: payload).
  { unfold frame, wire_frame at 1, wire_len. by replace (len payload <? 126) with true by lia. }
  destruct (len_byte_bits (len payload)) as (H1 & H2 & _); [lia|].
  rewrite Hf. cbn [take drop ws_read ws_read_buffer is_empty negb]. split.
  - unfold on_stream, sm_zoom. cbn [ws_stream read_frame_payload]. unfold sm_bind at 1.
    rewrite read_frame_header. unfold read_frame_body, read_payload_len, sm_bind, sm_lift, sm_ret.
    rewrite H1, H2. replace ((0 <=? _) && _) with true by lia.
    unfold vec_zeroed, isize_max. replace (_ <? _) with false by lia. cbn [negb Z.eqb].
    rewrite pipe_read_exact_short by (change (len (incoming _)) with 0; lia). done.
  - unfold on_stream, sm_zoom. cbn [ws_stream].
    assert (Hr : read_frame_payload (S (S fuel)) (masks (S fuel)) (mkPipe payload no_data_yet o)
      = (mkPipe [] no_data_yet o, Ok inner)).
    { cbn [read_frame_payload]. unfold sm_bind at 1. rewrite <- (app_nil_r payload).
      unfold payload. rewrite read_frame_run; [by eval_ifs|unfold isize_max; lia|done]. }
    rewrite drop_0, Hr. cbn -[ws_read]. destruct inner as [|b inner]; [unfold len in Hlen; cbn in Hlen; lia|].
    done.
Qed.

Lemma websocket_partial_frame_lost_witness :
  ws_read 1 (fun _ _ => [0; 0; 0; 0]) 16
    (mkOwnedWebSocketClientStream (mkPipe [130; 4] no_data_yet []) [])
  = (mkOwnedWebSocketClientStream (mkPipe [] no_data_yet []) [], Err no_data_yet) /\
  ws_read 2 (fun _ _ => [0; 0; 0; 0]) 16
    (mkOwnedWebSocketClientStream (mkPipe [130; 2; 104; 105] no_data_yet []) [])
  = (mkOwnedWebSocketClientStream (mkPipe [] no_data_yet []) [], Ok [104; 105]).
Proof.
  apply (websocket_partial_frame_lost 0 (fun _ _ => [0; 0; 0; 0]) 16 [104; 105] []).
  unfold len. cbn. lia.
Defined.

(** ** The handshake *)

(** What RFC 6455 asks of the header lines of the response. *)
Definition header_is (name : string) (value_ok : string -> bool) (line : string) : bool :=
  match split_once ":"%char line with
  | Some (n, value) => eq_ignore_ascii_case n name && value_ok (trim value)
  | None => false
  end.

Definition is_upgrade : string -> bool :=
  header_is "Upgrade" (fun value => eq_ignore_ascii_case value "websocket").

Definition is_connection : string -> bool :=
  header_is "Connection" (fun value =>
    existsb (fun item => eq_ignore_ascii_case (trim item) "upgrade") (split_on ","%char value)).

Definition is_accept (accept : string) : string -> bool :=
  header_is "Sec-WebSocket-Accept" (fun value => String.eqb value accept).

Lemma eq_ignore_ascii_case_distinct n a b :
  to_ascii_lowercase a <> to_ascii_lowercase b ->
  eq_ignore_ascii_case n a = true -> eq_ignore_ascii_case n b = false.
Proof.
  unfold eq_ignore_ascii_case. intros Hab ->%String.eqb_eq. by apply String.eqb_neq.
Qed.

(** A line sets the flag of the header it is, and no other. *)
Lemma see_header_flags accept u c a line :
  see_header accept (u, c, a) line
  = (u || is_upgrade line, c || is_connection line, a || is_accept accept line).
Proof.
  unfold see_header, is_upgrade, is_connection, is_accept, header_is.
  destruct (split_once ":"%char line) as [[n value]|]; [|by rewrite !orb_false_r].
  destruct (eq_ignore_ascii_case n "Upgrade") eqn:Hu.
  { rewrite (eq_ignore_ascii_case_distinct n "Upgrade" "Connection") by done.
    rewrite (eq_ignore_ascii_case_distinct n "Upgrade" "Sec-WebSocket-Accept") by done.
    cbn [andb]. rewrite !orb_false_r. case (eq_ignore_ascii_case (trim value) "websocket");
      by rewrite ?orb_true_r, ?orb_false_r. }
  destruct (eq_ignore_ascii_case n "Connection") eqn:Hc.
  { rewrite (eq_ignore_ascii_case_distinct n "Connection" "Sec-WebSocket-Accept") by done.
    cbn [andb]. rewrite !orb_false_r. case (existsb _ _); by rewrite ?orb_true_r, ?orb_false_r. }
  cbn [andb]. rewrite !orb_false_r.
  case (_ && _); by rewrite ?orb_true_r, ?orb_false_r.
Qed.

Lemma see_headers_flags accept ls u c a :
  fold_left (see_header accept) ls (u, c, a)
  = (u || existsb is_upgrade ls, c || existsb is_connection ls, a || existsb (is_accept accept) ls).
Proof.
  revert u c a. induction ls as [|l ls IH]; intros u c a; cbn [fold_left existsb].
  - by rewrite !orb_false_r.
  - by rewrite see_header_flags, IH, !orb_assoc.
Qed.

(** The handshake is accepted exactly when the status line has the code 101 and
    among the header lines, in any order and repeated or not, there are an [Upgrade]
    header for websocket, a [Connection] header that lists upgrade, and a
    [Sec-WebSocket-Accept] header with the digest of the client's key; names and
    tokens without regard to case, the digest exactly. Otherwise it is an error of
    kind [InvalidData]; nothing panics. *)
Theorem websocket_handshake_accepted_iff sha1 base64_encode response key :
  let headers := tail (lines response) in
  let accept := websocket_accept_for_key sha1 base64_encode key in
  let valid :=
    contains (default "" (head (lines response))) " 101 "
    && existsb is_upgrade headers && existsb is_connection headers
    && existsb (is_accept accept) headers in
  match validate_handshake_response sha1 base64_encode response key with
  | Ok _ => valid = true
  | Err error => valid = false /\ io_kind error = InvalidData
  | Panic => False
  end.
Proof.
  cbn zeta. unfold validate_handshake_response.
  destruct (contains _ _); cbn [negb andb]; [|done].
  rewrite see_headers_flags. cbn [orb]. by case (_ && _).
Qed.
