(* ===== verification/Relay.v ===== *)
(** * The relay between a client and an outbound

    [crates/keli-net-core/src/direct.rs], [relay_owned_bidirectional_with_options]:
    one thread that pumps bytes between two non-blocking streams, with a buffer in
    each direction and time limits on the remote side; and the report of
    [crates/keli-net-core/src/metrics.rs] that the outcome is recorded in.

    Instants and durations are numbers of nanoseconds. The byte counters have 64
    bits, which no connection fills; they are unbounded here. *)

From stdpp Require Import base strings list numbers.
From S2P Require Import Prelude.
From S2P Require Import StdIo.
From S2P Require Import Route.
From S2P Require Import TunPacket.
#[local] Open Scope Z_scope.

(** ** Errors *)

Inductive ConnectionErrorKind : Type :=
| DnsResolveFailed
| TcpConnectTimeout
| TcpConnectionRefused
| FirstByteTimeout
| IdleTimeout
| RouteBlocked
| UnsupportedOutbound
| ConnectionLimitReached
| RelayIo
| ProtocolError.

Definition from_io (error : IoError) : ConnectionErrorKind :=
  match io_kind error with
  | TimedOut => TcpConnectTimeout
  | ConnectionRefusedKind => TcpConnectionRefused
  | AddrNotAvailable | NotFound => DnsResolveFailed
  | Unsupported => UnsupportedOutbound
  | InvalidData => ProtocolError
  | _ => RelayIo
  end.

(** [ConnectionErrorKind::as_str]. *)
Definition error_kind_as_str (self : ConnectionErrorKind) : string :=
  match self with
  | DnsResolveFailed => "dns_resolve_failed"
  | TcpConnectTimeout => "tcp_connect_timeout"
  | TcpConnectionRefused => "tcp_connection_refused"
  | FirstByteTimeout => "first_byte_timeout"
  | IdleTimeout => "idle_timeout"
  | RouteBlocked => "route_blocked"
  | UnsupportedOutbound => "unsupported_outbound"
  | ConnectionLimitReached => "connection_limit_reached"
  | RelayIo => "relay_io"
  | ProtocolError => "protocol_error"
  end.

Record RelayError : Type := mkRelayError {
  relay_error_kind : ConnectionErrorKind;
  relay_error_source : IoError
}.

(** [RelayError::from]. *)
Definition RelayError_from (source : IoError) : RelayError :=
  mkRelayError (from_io source) source.

Definition relay_timeout_error (kind : ConnectionErrorKind) (message : string) : RelayError :=
  mkRelayError kind (mkIoError TimedOut message).

Definition is_nonblocking_pause (error : IoError) : bool :=
  match io_kind error with
  | WouldBlock | TimedOut | Interrupted => true
  | _ => false
  end.

(** [error.to_string()] is the message. *)
Definition is_remote_clean_close_eof (error : IoError) : bool :=
  let message := io_message error in
  bool_decide (io_kind error = UnexpectedEof) && contains message "close_notify"
  || contains message "stream error received: not a result of an error".

(** ** Options and statistics *)

Record RelayStats : Type := mkRelayStats {
  client_to_remote_bytes : Z;
  remote_to_client_bytes : Z;
  remote_first_byte_after : option Z
}.

Record RelayOptions : Type := mkRelayOptions {
  first_byte_timeout : option Z;
  idle_timeout : option Z
}.

(** ** Streams *)

(** [OwnedRelayStream: Read + Write]. A read into a buffer of the given length returns
    the bytes it put there. *)
Class OwnedRelayStream (S : Type) := {
  stream_read : Z -> SM S IoError (list Z);
  stream_write : list Z -> SM S IoError Z;
  stream_flush : SM S IoError unit;
  set_nonblocking_mode : bool -> SM S IoError unit;
  shutdown_write : SM S IoError unit;
  shutdown_both : SM S IoError unit
}.

(** ** Pending bytes *)

Inductive PumpRead : Type :=
| PumpRead_Bytes (bytes : Z)
| PumpRead_Eof
| PumpRead_NoProgress.

Record PendingWrite : Type := mkPendingWrite {
  pending_bytes : list Z;
  pending_offset : Z
}.

Definition PendingWrite_new : PendingWrite := mkPendingWrite [] 0.

Definition PendingWrite_is_empty (self : PendingWrite) : bool :=
  len (pending_bytes self) <=? pending_offset self.

Definition PendingWrite_set (bytes : list Z) (self : PendingWrite) : PendingWrite :=
  mkPendingWrite bytes 0.

(** [&self.bytes[self.offset..]]. *)
Definition PendingWrite_remaining {E} (self : PendingWrite) : result E (list Z) :=
  slice (pending_bytes self) (pending_offset self) (len (pending_bytes self)).

Definition PendingWrite_advance (bytes : Z) (self : PendingWrite) : PendingWrite :=
  let self := mkPendingWrite (pending_bytes self) (pending_offset self + bytes) in
  if PendingWrite_is_empty self then mkPendingWrite [] 0 else self.

(** ** The pumps *)

Section Pump.
Context {S : Type} {Stream : OwnedRelayStream S}.

Definition PumpM (A : Type) : Type := SM (S * PendingWrite) RelayError A.

Definition pump_read (buffer_len : Z) (eof : bool) : PumpM PumpRead :=
  fun '(reader, pending) =>
    if eof || negb (PendingWrite_is_empty pending) then ((reader, pending), Ok PumpRead_NoProgress)
    else
      match stream_read buffer_len reader with
      | (reader, Ok []) => ((reader, pending), Ok PumpRead_Eof)
      | (reader, Ok bytes) =>
          if buffer_len <? len bytes then ((reader, pending), Panic)
          else ((reader, PendingWrite_set bytes pending), Ok (PumpRead_Bytes (len bytes)))
      | (reader, Err error) =>
          if is_nonblocking_pause error then ((reader, pending), Ok PumpRead_NoProgress)
          else if is_remote_clean_close_eof error then ((reader, pending), Ok PumpRead_Eof)
          else ((reader, pending), Err (RelayError_from error))
      | (reader, Panic) => ((reader, pending), Panic)
      end.

(** The [while] loop; every turn that goes on writes at least one byte. *)
Fixpoint pump_write_loop (fuel : nat) (progressed : bool) : PumpM bool :=
  fun '(writer, pending) =>
    if PendingWrite_is_empty pending then ((writer, pending), Ok progressed)
    else
      match fuel with
      | O => ((writer, pending), Panic)
      | Datatypes.S fuel' =>
          match PendingWrite_remaining pending with
          | Ok remaining =>
              match stream_write remaining writer with
              | (writer, Ok bytes) =>
                  if bytes =? 0 then
                    ((writer, pending),
                     Err (RelayError_from (mkIoError WriteZero "relay writer returned zero bytes")))
                  else pump_write_loop fuel' true (writer, PendingWrite_advance bytes pending)
              | (writer, Err error) =>
                  if is_nonblocking_pause error then ((writer, pending), Ok progressed)
                  else ((writer, pending), Err (RelayError_from error))
              | (writer, Panic) => ((writer, pending), Panic)
              end
          | Err error => ((writer, pending), Err error)
          | Panic => ((writer, pending), Panic)
          end
      end.

Definition pump_write : PumpM bool :=
  fun '(writer, pending) =>
    pump_write_loop (length (pending_bytes pending)) false (writer, pending).

(** [computation.ok()]: an error is dropped. *)
Definition ignore {F} (m : SM S IoError unit) : SM S F unit :=
  fun s =>
    match m s with
    | (s', Panic) => (s', Panic)
    | (s', _) => (s', Ok tt)
    end.
End Pump.

(** ** The loop *)

(** [instant.elapsed()] at [now]. *)
Definition elapsed (now instant : Z) : Z := Z.max 0 (now - instant).

(** The clock at the call sites of one round: [started.elapsed()] and [Instant::now()]
    when bytes came from the remote, and the check of the time limits. *)
Record RoundClock : Type := mkRoundClock {
  clock_first_byte : Z;
  clock_last_byte : Z;
  clock_check : Z
}.

(** The locals of the function. *)
Record Relay (C R : Type) : Type := mkRelay {
  r_client : C;
  r_remote : R;
  r_upload : PendingWrite;
  r_download : PendingWrite;
  r_client_eof : bool;
  r_remote_eof : bool;
  r_remote_write_shutdown : bool;
  r_client_to_remote_bytes : Z;
  r_remote_to_client_bytes : Z;
  r_remote_first_byte_after : option Z;
  r_last_remote_byte_at : Z
}.

Arguments mkRelay {C R}.
Arguments r_client {C R}.
Arguments r_remote {C R}.
Arguments r_upload {C R}.
Arguments r_download {C R}.
Arguments r_client_eof {C R}.
Arguments r_remote_eof {C R}.
Arguments r_remote_write_shutdown {C R}.
Arguments r_client_to_remote_bytes {C R}.
Arguments r_remote_to_client_bytes {C R}.
Arguments r_remote_first_byte_after {C R}.
Arguments r_last_remote_byte_at {C R}.

#[export] Instance set_Relay {C R} : Settable (Relay C R) := fun r =>
  mkRelay (r_client r) (r_remote r) (r_upload r) (r_download r) (r_client_eof r)
    (r_remote_eof r) (r_remote_write_shutdown r) (r_client_to_remote_bytes r)
    (r_remote_to_client_bytes r) (r_remote_first_byte_after r) (r_last_remote_byte_at r).

Section Loop.
Context {C R : Type} {Client : OwnedRelayStream C} {Remote : OwnedRelayStream R}.

Definition RM (A : Type) : Type := SM (Relay C R) RelayError A.

(** The size of [upload_buffer] and [download_buffer]. *)
Definition relay_buffer_len : Z := 16384.

(** The pumps with their arguments: from the client into [upload], from the remote
    into [download], and out of them to the other side. *)
Definition client_read {A} (m : PumpM (S := C) A) : RM A :=
  sm_zoom (fun r => (r_client r, r_upload r))
    (fun s r => r <| r_client := fst s |> <| r_upload := snd s |>) id m.

Definition remote_read {A} (m : PumpM (S := R) A) : RM A :=
  sm_zoom (fun r => (r_remote r, r_download r))
    (fun s r => r <| r_remote := fst s |> <| r_download := snd s |>) id m.

Definition remote_write {A} (m : PumpM (S := R) A) : RM A :=
  sm_zoom (fun r => (r_remote r, r_upload r))
    (fun s r => r <| r_remote := fst s |> <| r_upload := snd s |>) id m.

Definition client_write {A} (m : PumpM (S := C) A) : RM A :=
  sm_zoom (fun r => (r_client r, r_download r))
    (fun s r => r <| r_client := fst s |> <| r_download := snd s |>) id m.

Definition on_client {A} (m : SM C RelayError A) : RM A :=
  sm_zoom r_client (fun c r => r <| r_client := c |>) id m.

Definition on_remote {A} (m : SM R RelayError A) : RM A :=
  sm_zoom r_remote (fun c r => r <| r_remote := c |>) id m.

(** [match pump_read(&mut client, ..)?]. *)
Definition pump_client : RM unit :=
  r <-! sm_get;
  pumped <-! client_read (pump_read relay_buffer_len (r_client_eof r));
  match pumped with
  | PumpRead_Bytes bytes =>
      sm_modify (fun r => r <| r_client_to_remote_bytes := r_client_to_remote_bytes r + bytes |>)
  | PumpRead_Eof => sm_modify (fun r => r <| r_client_eof := true |>)
  | PumpRead_NoProgress => sm_ret tt
  end.

(** [match pump_read(&mut remote, ..)?]. *)
Definition pump_remote (started : Z) (clock : RoundClock) : RM unit :=
  r <-! sm_get;
  pumped <-! remote_read (pump_read relay_buffer_len (r_remote_eof r));
  match pumped with
  | PumpRead_Bytes bytes =>
      sm_modify (fun r =>
        r <| r_remote_first_byte_after :=
               match r_remote_first_byte_after r with
               | None => Some (elapsed (clock_first_byte clock) started)
               | first => first
               end |>
          <| r_remote_to_client_bytes := r_remote_to_client_bytes r + bytes |>
          <| r_last_remote_byte_at := clock_last_byte clock |>)
  | PumpRead_Eof => sm_modify (fun r => r <| r_remote_eof := true |>)
  | PumpRead_NoProgress => sm_ret tt
  end.

(** [if client_eof && upload.is_empty() && !remote_write_shutdown]. *)
Definition half_close_remote : RM unit :=
  r <-! sm_get;
  if r_client_eof r && PendingWrite_is_empty (r_upload r) && negb (r_remote_write_shutdown r) then
    do! on_remote (ignore shutdown_write);
    sm_modify (fun r => r <| r_remote_write_shutdown := true |>)
  else sm_ret tt.

Definition time_out (kind : ConnectionErrorKind) (message : string) : RM unit :=
  do! on_client (ignore shutdown_both);
  do! on_remote (ignore shutdown_both);
  sm_lift (Err (relay_timeout_error kind message)).

Definition check_timeouts (options : RelayOptions) (started : Z) (clock : RoundClock) : RM unit :=
  r <-! sm_get;
  match r_remote_first_byte_after r with
  | None =>
      match first_byte_timeout options with
      | Some timeout =>
          if timeout <=? elapsed (clock_check clock) started
          then time_out FirstByteTimeout "timed out waiting for remote first byte"
          else sm_ret tt
      | None => sm_ret tt
      end
  | Some _ =>
      match idle_timeout options with
      | Some timeout =>
          if timeout <=? elapsed (clock_check clock) (r_last_remote_byte_at r)
          then time_out IdleTimeout "remote stream became idle"
          else sm_ret tt
      | None => sm_ret tt
      end
  end.

(** One turn of the loop: whether it ends in [break]. The sleep of a turn without
    progress only passes time. *)
Definition relay_round (options : RelayOptions) (started : Z) (clock : RoundClock) : RM bool :=
  do! pump_client;
  do! pump_remote started clock;
  do! remote_write pump_write;
  do! client_write pump_write;
  do! half_close_remote;
  r <-! sm_get;
  if r_remote_eof r && PendingWrite_is_empty (r_download r) then
    do! on_client (ignore shutdown_write);
    sm_ret true
  else
    do! check_timeouts options started clock;
    sm_ret false.

(** At most [fuel] turns, the [i]-th with the clock [clocks i]: whether the loop ended. *)
Fixpoint relay_rounds (fuel : nat) (options : RelayOptions) (started : Z)
  (clocks : nat -> RoundClock) : RM bool :=
  match fuel with
  | O => sm_ret false
  | Datatypes.S fuel' =>
      ended <-! relay_round options started (clocks O);
      if (ended : bool) then sm_ret true
      else relay_rounds fuel' options started (fun i => clocks (Datatypes.S i))
  end.

(** What follows the loop. *)
Definition relay_finish : RM RelayStats :=
  do! on_remote (ignore shutdown_both);
  do! on_client (ignore shutdown_both);
  r <-! sm_get;
  sm_ret (mkRelayStats (r_client_to_remote_bytes r) (r_remote_to_client_bytes r)
            (r_remote_first_byte_after r)).

Definition relay_start (started : Z) (client : C) (remote : R) : Relay C R :=
  mkRelay client remote PendingWrite_new PendingWrite_new false false false 0 0 None started.

(** The function, for at most [fuel] turns of its loop; [None] if it still runs. The
    sockets are the function's own: they are returned to be looked at. *)
Definition relay_owned_bidirectional_with_options (fuel : nat) (options : RelayOptions)
  (started : Z) (clocks : nat -> RoundClock) (client : C) (remote : R)
  : Relay C R * result RelayError (option RelayStats) :=
  (do! on_client (sm_zoom id (fun s _ => s) RelayError_from (set_nonblocking_mode true));
   do! on_remote (sm_zoom id (fun s _ => s) RelayError_from (set_nonblocking_mode true));
   ended <-! relay_rounds fuel options started clocks;
   if (ended : bool) then stats <-! relay_finish; sm_ret (Some stats)
   else sm_ret None) (relay_start started client remote).
End Loop.

(** ** The report of a connection *)

Record ConnectionReport : Type := mkConnectionReport {
  report_inbound : string;
  report_target : OutboundTarget;
  report_route_action : RouteAction;
  report_connect_ms : option Z;
  report_first_byte_ms : option Z;
  report_upload_bytes : Z;
  report_download_bytes : Z;
  report_error_kind : option ConnectionErrorKind;
  report_error_detail : option string
}.

#[export] Instance set_ConnectionReport : Settable ConnectionReport := fun r =>
  mkConnectionReport (report_inbound r) (report_target r) (report_route_action r)
    (report_connect_ms r) (report_first_byte_ms r) (report_upload_bytes r)
    (report_download_bytes r) (report_error_kind r) (report_error_detail r).

Definition ConnectionReport_new (inbound : string) (target : OutboundTarget)
  (route_action : RouteAction) : ConnectionReport :=
  mkConnectionReport inbound target route_action None None 0 0 None None.

(** [duration.as_millis()]. *)
Definition as_millis (duration : Z) : Z := duration / 1000000.

Definition record_connect_duration (duration : Z) (self : ConnectionReport) : ConnectionReport :=
  self <| report_connect_ms := Some (as_millis duration) |>.

Definition record_first_byte_duration (duration : Z) (self : ConnectionReport)
  : ConnectionReport :=
  self <| report_first_byte_ms := Some (as_millis duration) |>.

Definition record_relay_stats (stats : RelayStats) (self : ConnectionReport)
  : ConnectionReport :=
  let self :=
    self <| report_upload_bytes := client_to_remote_bytes stats |>
         <| report_download_bytes := remote_to_client_bytes stats |> in
  match remote_first_byte_after stats with
  | Some duration => record_first_byte_duration duration self
  | None => self
  end.

Definition record_error (error_kind : ConnectionErrorKind) (self : ConnectionReport)
  : ConnectionReport :=
  self <| report_error_kind := Some error_kind |>.

Definition record_error_detail (error_kind : ConnectionErrorKind) (detail : string)
  (self : ConnectionReport) : ConnectionReport :=
  let self := record_error error_kind self in
  if negb (String.eqb (trim detail) "") then self <| report_error_detail := Some detail |>
  else self.
