(* ===== verification/RelaySpec.v ===== *)
(** * What the relay promises

    Streams that keep to the contracts of [Read] and [Write], and the theorems about
    [Relay]: bytes are neither lost, repeated nor reordered in either direction, a
    silent remote is given up in time, and a remote that ends is relayed to its
    end. *)

From stdpp Require Import base strings list numbers.
From S2P Require Import Prelude.
From S2P Require Import StdIo.
From S2P Require Import Relay.
#[local] Open Scope Z_scope.

(** ** The contract of a stream *)

(** What a computation on a stream did to the bytes taken from it and to the bytes
    given to it. *)
Definition stream_effect {S A} (received sent : S -> list Z) (m : SM S IoError A) (s : S)
  (taken given : A -> list Z) : Prop :=
  match m s with
  | (s', Ok a) => received s' = received s ++ taken a /\ sent s' = sent s ++ given a
  | (s', Err _) => received s' = received s /\ sent s' = sent s
  | (_, Panic) => False
  end.

(** The contracts of [Read::read] and [Write::write]: the bytes returned were taken, a
    write took a prefix of the buffer, and an error took nothing. *)
Class FaithfulStream (S : Type) {Stream : OwnedRelayStream S} := {
  received : S -> list Z;
  sent : S -> list Z;
  read_effect n s :
    0 < n -> stream_effect received sent (stream_read n) s id (fun _ => []);
  read_fits n s s' bytes : 0 < n -> stream_read n s = (s', Ok bytes) -> len bytes <= n;
  write_effect bytes s :
    stream_effect received sent (stream_write bytes) s (fun _ => [])
      (fun k => take (Z.to_nat k) bytes);
  write_fits bytes s s' k : stream_write bytes s = (s', Ok k) -> 0 <= k <= len bytes;
  nonblocking_effect b s :
    stream_effect received sent (set_nonblocking_mode b) s (fun _ => []) (fun _ => []);
  shutdown_write_effect s :
    stream_effect received sent shutdown_write s (fun _ => []) (fun _ => []);
  shutdown_both_effect s :
    stream_effect received sent shutdown_both s (fun _ => []) (fun _ => [])
}.

(** ** Pending bytes *)

(** The bytes that wait to be written. *)
Definition left_over (p : PendingWrite) : list Z :=
  drop (Z.to_nat (pending_offset p)) (pending_bytes p).

Definition pending_ok (p : PendingWrite) : Prop :=
  0 <= pending_offset p <= len (pending_bytes p) /\ len (pending_bytes p) <= relay_buffer_len.

Lemma pending_new_ok : pending_ok PendingWrite_new.
Proof. unfold pending_ok, len, relay_buffer_len. cbn. lia. Qed.

Lemma remaining_left_over {E} p :
  pending_ok p -> PendingWrite_remaining (E := E) p = Ok (left_over p).
Proof.
  intros [H _]. unfold PendingWrite_remaining, slice, sub_list, left_over.
  replace ((0 <=? _) && _ && _) with true by lia. f_equal. apply take_ge.
  rewrite length_drop. unfold len in *. lia.
Qed.

Lemma len_left_over p : pending_ok p -> len (left_over p) = len (pending_bytes p) - pending_offset p.
Proof. intros [H _]. unfold left_over, len in *. rewrite length_drop. lia. Qed.

Lemma pending_empty_left_over p :
  pending_ok p -> PendingWrite_is_empty p = true <-> left_over p = [].
Proof.
  intros Hp. pose proof (len_left_over p Hp) as Hl. destruct Hp as [H _].
  unfold PendingWrite_is_empty. rewrite Z.leb_le. split.
  - intros Hle. destruct (left_over p); [done|]. rewrite len_cons in Hl. pose proof (len_nonneg l). lia.
  - intros Hn. rewrite Hn in Hl. change (len []) with 0 in Hl. lia.
Qed.

Lemma set_left_over bytes p :
  len bytes <= relay_buffer_len ->
  pending_ok (PendingWrite_set bytes p) /\ left_over (PendingWrite_set bytes p) = bytes.
Proof. intros H. pose proof (len_nonneg bytes). unfold pending_ok. cbn. split; [lia|done]. Qed.

Lemma advance_left_over k p :
  pending_ok p -> 0 <= k <= len (left_over p) ->
  pending_ok (PendingWrite_advance k p) /\
  left_over p = take (Z.to_nat k) (left_over p) ++ left_over (PendingWrite_advance k p).
Proof.
  intros Hp Hk. rewrite (len_left_over p Hp) in Hk. destruct Hp as [H Hb].
  set (q := mkPendingWrite (pending_bytes p) (pending_offset p + k)).
  assert (Hq : pending_ok q) by (unfold pending_ok; cbn; lia).
  assert (Hlq : drop (Z.to_nat k) (left_over p) = left_over q).
  { unfold left_over. rewrite drop_drop. cbn. f_equal. lia. }
  unfold PendingWrite_advance. fold q.
  destruct (PendingWrite_is_empty q) eqn:He.
  - apply pending_empty_left_over in He; [|done]. split; [exact pending_new_ok|].
    rewrite <- (take_drop (Z.to_nat k) (left_over p)) at 1. by rewrite Hlq, He.
  - split; [done|]. by rewrite <- Hlq, take_drop.
Qed.

(** ** The pumps *)

Section Pump.
Context {S : Type} {Stream : OwnedRelayStream S} {Faithful : FaithfulStream S}.

(** A read fills an empty buffer with what it took from the stream. *)
Lemma pump_read_ok s p eof :
  pending_ok p ->
  exists s' p' r got,
    pump_read relay_buffer_len eof (s, p) = ((s', p'), r) /\ pending_ok p' /\
    received s' = received s ++ got /\ sent s' = sent s /\ left_over p' = left_over p ++ got /\
    match r with
    | Ok (PumpRead_Bytes k) => len got = k
    | Ok _ | Err _ => got = []
    | Panic => False
    end.
Proof.
  intros Hp. unfold pump_read.
  assert (Hidle : forall s' (r : result RelayError PumpRead), received s' = received s -> sent s' = sent s ->
    match r with Ok (PumpRead_Bytes _) | Panic => False | _ => True end ->
    exists s'' p' r' got, ((s', p), r) = ((s'', p'), r') /\ pending_ok p' /\
      received s'' = received s ++ got /\ sent s'' = sent s /\ left_over p' = left_over p ++ got /\
      match r' with Ok (PumpRead_Bytes k) => len got = k | Ok _ | Err _ => got = [] | Panic => False end).
  { intros s' r Hr Hs Hm. exists s', p, r, []. rewrite !app_nil_r. split_and!; try done.
    by destruct r as [[| |]| |]. }
  destruct (eof || negb (PendingWrite_is_empty p)) eqn:He; [by apply Hidle|].
  apply orb_false_iff in He as [_ He%negb_false_iff]. apply pending_empty_left_over in He; [|done].
  pose proof (read_effect relay_buffer_len s ltac:(done)) as Heff. unfold stream_effect in Heff.
  destruct (stream_read relay_buffer_len s) as [s' [bytes|error|]] eqn:Hread; [| |done].
  - destruct Heff as [Hr Hs]. rewrite app_nil_r in Hs.
    pose proof (read_fits relay_buffer_len s s' bytes ltac:(done) Hread) as Hfit.
    destruct bytes as [|b bytes]; [apply Hidle; [by rewrite Hr, app_nil_r|done..]|].
    replace (relay_buffer_len <? len (b :: bytes)) with false by lia.
    destruct (set_left_over (b :: bytes) p Hfit) as [Hok Hl].
    do 4 eexists. split; [done|]. rewrite Hl, He. by split_and!.
  - destruct Heff as [Hr Hs]. destruct (is_nonblocking_pause error); [by apply Hidle|].
    destruct (is_remote_clean_close_eof error); by apply Hidle.
Qed.

(** A write gives the stream a prefix of what waits. *)
Lemma pump_write_loop_ok fuel progressed s p :
  pending_ok p -> len (left_over p) <= Z.of_nat fuel ->
  exists s' p' r put,
    pump_write_loop fuel progressed (s, p) = ((s', p'), r) /\ pending_ok p' /\
    received s' = received s /\ sent s' = sent s ++ put /\ left_over p = put ++ left_over p' /\
    r <> Panic.
Proof.
  revert progressed s p. induction fuel as [|fuel IH]; intros progressed s p Hp Hfuel;
    cbn [pump_write_loop]; destruct (PendingWrite_is_empty p) eqn:He;
    [by exists s, p, (Ok progressed), []; rewrite app_nil_r| |
     by exists s, p, (Ok progressed), []; rewrite app_nil_r|].
  { assert (left_over p = []) as Hn.
    { destruct (left_over p); [done|]. rewrite len_cons in Hfuel. pose proof (len_nonneg l). lia. }
    apply pending_empty_left_over in Hn; [congruence|done]. }
  rewrite remaining_left_over by done.
  pose proof (write_effect (left_over p) s) as Heff. unfold stream_effect in Heff.
  destruct (stream_write (left_over p) s) as [s' [k|error|]] eqn:Hw; [| |done].
  - destruct Heff as [Hr Hs]. rewrite app_nil_r in Hr. pose proof (write_fits _ _ _ _ Hw) as Hk.
    destruct (Z.eqb_spec k 0) as [->|Hk0].
    { do 3 eexists. exists []. split; [done|]. by split_and!. }
    destruct (advance_left_over k p Hp Hk) as [Hp' Hl].
    destruct (IH true s' (PendingWrite_advance k p) Hp') as (s2 & p2 & r & put & -> & Hok & Hr2 & Hs2 & Hl2 & Hnp).
    { apply (f_equal len) in Hl. rewrite len_app in Hl. unfold len in Hl at 2.
      rewrite length_take in Hl. unfold len in Hk. lia. }
    exists s2, p2, r, (take (Z.to_nat k) (left_over p) ++ put). split; [done|].
    rewrite Hr2, Hs2, Hs, <- !app_assoc, <- Hl2. by split_and!.
  - destruct Heff as [Hr Hs].
    destruct (is_nonblocking_pause error); do 3 eexists; exists []; (split; [done|]);
      rewrite app_nil_r; by split_and!.
Qed.

Lemma pump_write_ok s p :
  pending_ok p ->
  exists s' p' r put,
    pump_write (s, p) = ((s', p'), r) /\ pending_ok p' /\
    received s' = received s /\ sent s' = sent s ++ put /\ left_over p = put ++ left_over p' /\
    r <> Panic.
Proof.
  intros Hp. apply pump_write_loop_ok; [done|]. rewrite (len_left_over p Hp).
  destruct Hp. unfold len. lia.
Qed.

Lemma ignore_ok {F} (m : SM S IoError unit) s :
  stream_effect received sent m s (fun _ => []) (fun _ => []) ->
  exists s', ignore (F := F) m s = (s', Ok tt) /\ received s' = received s /\ sent s' = sent s.
Proof.
  unfold stream_effect, ignore. destruct (m s) as [s' [[]| |]]; [| |done]; rewrite ?app_nil_r;
    intros []; by exists s'.
Qed.
End Pump.

(** ** Conservation of bytes *)

Section Conservation.
Context {C R : Type} {Client : OwnedRelayStream C} {Remote : OwnedRelayStream R}.
Context {FaithfulClient : FaithfulStream C} {FaithfulRemote : FaithfulStream R}.

(** One direction: since the start [got] was taken from the reader; all of it but what
    waits in the buffer was given to the writer. *)
Record direction_ok (received0 received1 sent0 sent1 : list Z) (p : PendingWrite) (got : list Z)
  : Prop := {
  direction_pending : pending_ok p;
  direction_received : received1 = received0 ++ got;
  direction_sent : exists put, sent1 = sent0 ++ put /\ got = put ++ left_over p
}.

Lemma direction_read r0 r1 s0 s1 p got r1' p' more :
  direction_ok r0 r1 s0 s1 p got -> pending_ok p' -> r1' = r1 ++ more ->
  left_over p' = left_over p ++ more -> direction_ok r0 r1' s0 s1 p' (got ++ more).
Proof.
  intros [Hp -> (put & -> & ->)] Hp' -> Hl. split; [done|by rewrite <- !app_assoc|].
  exists put. by rewrite Hl, <- !app_assoc.
Qed.

Lemma direction_write r0 r1 s0 s1 p got s1' p' more :
  direction_ok r0 r1 s0 s1 p got -> pending_ok p' -> s1' = s1 ++ more ->
  left_over p = more ++ left_over p' -> direction_ok r0 r1 s0 s1' p' got.
Proof.
  intros [Hp -> (put & -> & ->)] Hp' -> Hl. split; [done..|].
  exists (put ++ more). by rewrite Hl, <- !app_assoc.
Qed.

(** Both directions, with the bytes counted. *)
Definition conserved (client0 : C) (remote0 : R) (r : Relay C R) : Prop :=
  exists up down,
    direction_ok (received client0) (received (r_client r)) (sent remote0) (sent (r_remote r))
      (r_upload r) up /\
    direction_ok (received remote0) (received (r_remote r)) (sent client0) (sent (r_client r))
      (r_download r) down /\
    r_client_to_remote_bytes r = len up /\ r_remote_to_client_bytes r = len down.

Context (client0 : C) (remote0 : R).
#[local] Abbreviation I := (conserved client0 remote0).

Lemma conserved_start started : I (relay_start started client0 remote0).
Proof.
  exists [], []. split_and!; try done;
    (split; [apply pending_new_ok|by rewrite app_nil_r|exists []; split; [by rewrite app_nil_r|done]]).
Qed.

Lemma pump_client_safe : safe I pump_client (fun _ _ => True).
Proof.
  intros r (up & down & Hu & Hd & Hcu & Hcd). unfold pump_client, sm_bind, sm_get.
  unfold client_read, sm_zoom.
  destruct (pump_read_ok (r_client r) (r_upload r) (r_client_eof r) (direction_pending _ _ _ _ _ _ Hu))
    as (s' & p' & res & got & -> & Hp' & Hr & Hs & Hl & Hres).
  pose proof (direction_read _ _ _ _ _ _ _ _ _ Hu Hp' Hr Hl) as Hu'.
  destruct res as [[k| |]|e|]; cbn; [| | | |done]; (split; [|done]).
  - exists (up ++ got), down. cbn. rewrite Hs, len_app. split_and!; try done. lia.
  - subst got. rewrite app_nil_r in Hu'. exists up, down. cbn. by rewrite Hs.
  - subst got. rewrite app_nil_r in Hu'. exists up, down. cbn. by rewrite Hs.
  - subst got. rewrite app_nil_r in Hu'. exists up, down. cbn. by rewrite Hs.
Qed.

Lemma pump_remote_safe started clock : safe I (pump_remote started clock) (fun _ _ => True).
Proof.
  intros r (up & down & Hu & Hd & Hcu & Hcd). unfold pump_remote, sm_bind, sm_get.
  unfold remote_read, sm_zoom.
  destruct (pump_read_ok (r_remote r) (r_download r) (r_remote_eof r) (direction_pending _ _ _ _ _ _ Hd))
    as (s' & p' & res & got & -> & Hp' & Hr & Hs & Hl & Hres).
  pose proof (direction_read _ _ _ _ _ _ _ _ _ Hd Hp' Hr Hl) as Hd'.
  destruct res as [[k| |]|e|]; cbn; [| | | |done]; (split; [|done]).
  - exists up, (down ++ got). cbn. rewrite Hs, len_app. split_and!; try done. lia.
  - subst got. rewrite app_nil_r in Hd'. exists up, down. cbn. by rewrite Hs.
  - subst got. rewrite app_nil_r in Hd'. exists up, down. cbn. by rewrite Hs.
  - subst got. rewrite app_nil_r in Hd'. exists up, down. cbn. by rewrite Hs.
Qed.

Lemma remote_write_safe : safe I (remote_write pump_write) (fun _ _ => True).
Proof.
  intros r (up & down & Hu & Hd & Hcu & Hcd). unfold remote_write, sm_zoom.
  destruct (pump_write_ok (r_remote r) (r_upload r) (direction_pending _ _ _ _ _ _ Hu))
    as (s' & p' & res & put & -> & Hp' & Hr & Hs & Hl & Hres).
  pose proof (direction_write _ _ _ _ _ _ _ _ _ Hu Hp' Hs Hl) as Hu'.
  split; [exists up, down; cbn; by rewrite Hr|by destruct res].
Qed.

Lemma client_write_safe : safe I (client_write pump_write) (fun _ _ => True).
Proof.
  intros r (up & down & Hu & Hd & Hcu & Hcd). unfold client_write, sm_zoom.
  destruct (pump_write_ok (r_client r) (r_download r) (direction_pending _ _ _ _ _ _ Hd))
    as (s' & p' & res & put & -> & Hp' & Hr & Hs & Hl & Hres).
  pose proof (direction_write _ _ _ _ _ _ _ _ _ Hd Hp' Hs Hl) as Hd'.
  split; [exists up, down; cbn; by rewrite Hr|by destruct res].
Qed.

(** What neither takes nor gives bytes, on either side. *)
Lemma on_client_safe {A} (m : SM C RelayError A) :
  (forall s, received (fst (m s)) = received s /\ sent (fst (m s)) = sent s /\ snd (m s) <> Panic) ->
  safe I (on_client m) (fun _ _ => True).
Proof.
  intros Hm. apply (safe_zoom I _ _ _ m (fun _ => True)). intros r (up & down & Hu & Hd & Hc).
  destruct (Hm (r_client r)) as (Hr & Hs & Hp). split; [|by destruct (snd (m (r_client r)))].
  exists up, down. cbn. by rewrite Hr, Hs.
Qed.

Lemma on_remote_safe {A} (m : SM R RelayError A) :
  (forall s, received (fst (m s)) = received s /\ sent (fst (m s)) = sent s /\ snd (m s) <> Panic) ->
  safe I (on_remote m) (fun _ _ => True).
Proof.
  intros Hm. apply (safe_zoom I _ _ _ m (fun _ => True)). intros r (up & down & Hu & Hd & Hc).
  destruct (Hm (r_remote r)) as (Hr & Hs & Hp). split; [|by destruct (snd (m (r_remote r)))].
  exists up, down. cbn. by rewrite Hr, Hs.
Qed.

Lemma modify_safe (f : Relay C R -> Relay C R) :
  (forall r, I r -> I (f r)) -> safe I (sm_modify f : RM unit) (fun _ _ => True).
Proof. intros Hf r Hr. split; [by apply Hf|done]. Qed.

Lemma get_safe {A} (k : Relay C R -> RM A) Q :
  (forall r, safe I (k r) Q) -> safe I (sm_bind sm_get k) Q.
Proof. intros Hk r Hr. exact (Hk r r Hr). Qed.

Lemma ignore_safe {S E} `{FaithfulStream S} (m : SM S IoError unit) :
  (forall s, stream_effect received sent m s (fun _ => []) (fun _ => [])) ->
  forall s, received (fst (ignore (F := E) m s)) = received s /\
    sent (fst (ignore (F := E) m s)) = sent s /\ snd (ignore (F := E) m s) <> Panic.
Proof. intros Hm s. destruct (ignore_ok (F := E) m s (Hm s)) as (s' & -> & ? & ?). done. Qed.

Lemma half_close_safe : safe I half_close_remote (fun _ _ => True).
Proof.
  apply get_safe. intros r. destruct (_ && _ && _); [|by intros ?].
  eapply (safe_bind I _ _ (fun _ => True)).
  - apply on_remote_safe, ignore_safe, shutdown_write_effect.
  - intros _ _. apply modify_safe. intros r' (up & down & H). by exists up, down.
Qed.

Lemma time_out_safe kind message : safe I (time_out kind message) (fun _ _ => True).
Proof.
  eapply (safe_bind I _ _ (fun _ => True)); [apply on_client_safe, ignore_safe, shutdown_both_effect|].
  intros _ _. eapply (safe_bind I _ _ (fun _ => True)); [apply on_remote_safe, ignore_safe, shutdown_both_effect|].
  intros _ _. by intros r Hr.
Qed.

Lemma check_timeouts_safe options started clock :
  safe I (check_timeouts options started clock) (fun _ _ => True).
Proof.
  apply get_safe. intros r.
  destruct (r_remote_first_byte_after r), (first_byte_timeout options), (idle_timeout options);
    try destruct (_ <=? _); try apply time_out_safe; by intros ?.
Qed.

(** The turn that ends the loop has written everything the remote sent. *)
Lemma relay_round_safe options started clock :
  safe I (relay_round options started clock)
    (fun ended r => ended = true -> left_over (r_download r) = []).
Proof.
  unfold relay_round.
  eapply (safe_bind I _ _ (fun _ => True)); [apply pump_client_safe|intros _ _].
  eapply (safe_bind I _ _ (fun _ => True)); [apply pump_remote_safe|intros _ _].
  eapply (safe_bind I _ _ (fun _ => True)); [apply remote_write_safe|intros _ _].
  eapply (safe_bind I _ _ (fun _ => True)); [apply client_write_safe|intros _ _].
  eapply (safe_bind I _ _ (fun _ => True)); [apply half_close_safe|intros _ _].
  intros r Hr.
  match goal with |- I (fst (sm_bind sm_get ?k r)) /\ _ => change (sm_bind sm_get k r) with (k r r) end.
  cbv beta. destruct (r_remote_eof r && PendingWrite_is_empty (r_download r)) eqn:He.
  - apply andb_true_iff in He as [_ He].
    apply pending_empty_left_over in He; [|by destruct Hr as (? & ? & _ & [] & _)].
    unfold sm_bind, sm_ret, on_client, sm_zoom.
    destruct (on_client_safe (ignore shutdown_write) (ignore_safe _ shutdown_write_effect) r Hr) as [HI Hp].
    unfold on_client, sm_zoom in HI, Hp.
    destruct (ignore shutdown_write (r_client r)) as [c [[]| |]]; cbn in HI, Hp |- *; [by split|by split|done].
  - revert r Hr He. intros r Hr _. revert r Hr.
    change (safe I (do! check_timeouts options started clock; sm_ret false)
      (fun ended r => ended = true -> left_over (r_download r) = [])).
    eapply (safe_bind I _ _ (fun _ => True)); [apply check_timeouts_safe|]. by intros _ _ r Hr.
Qed.

Lemma relay_rounds_safe fuel options started clocks :
  safe I (relay_rounds fuel options started clocks)
    (fun ended r => ended = true -> left_over (r_download r) = []).
Proof.
  revert clocks. induction fuel as [|fuel IH]; intros clocks r Hr; [done|].
  cbn [relay_rounds]. unfold sm_bind.
  destruct (relay_round_safe options started (clocks O) r Hr) as [HI HQ].
  destruct (relay_round options started (clocks O) r) as [r' [[|]| |]]; cbn in *; try done.
  by apply IH.
Qed.

Lemma nonblocking_safe {S} `{FaithfulStream S} (s : S) :
  let m := sm_zoom id (fun s _ => s) RelayError_from (set_nonblocking_mode true) in
  received (fst (m s)) = received s /\ sent (fst (m s)) = sent s /\ snd (m s) <> Panic.
Proof.
  unfold sm_zoom, id. pose proof (nonblocking_effect true s) as Heff. unfold stream_effect in Heff.
  destruct (set_nonblocking_mode true s) as [s' [[]| |]]; [| |done]; cbn;
    rewrite ?app_nil_r in Heff; by destruct Heff.
Qed.

Lemma relay_finish_safe :
  safe I relay_finish (fun stats r =>
    client_to_remote_bytes stats = r_client_to_remote_bytes r /\
    remote_to_client_bytes stats = r_remote_to_client_bytes r).
Proof.
  eapply (safe_bind I _ _ (fun _ => True)); [apply on_remote_safe, ignore_safe, shutdown_both_effect|].
  intros _ _. eapply (safe_bind I _ _ (fun _ => True)); [apply on_client_safe, ignore_safe, shutdown_both_effect|].
  intros _ _ r Hr. done.
Qed.

(** Shutting the streams down leaves the buffers alone. *)
Lemma relay_finish_pending (r r' : Relay C R) stats :
  relay_finish r = (r', Ok stats) -> r_download r' = r_download r.
Proof.
  unfold relay_finish, sm_bind, on_remote, on_client, sm_zoom, sm_get, sm_ret.
  destruct (ignore shutdown_both (r_remote r)) as [s' [[]| |]]; cbn; [|done..].
  destruct (ignore shutdown_both (r_client r)) as [c' [[]| |]]; cbn; [|done..]. by intros [= <- <-].
Qed.

Lemma relay_safe fuel options started clocks :
  let '(r, outcome) :=
    relay_owned_bidirectional_with_options fuel options started clocks client0 remote0 in
  I r /\
  match outcome with
  | Ok (Some stats) =>
      left_over (r_download r) = [] /\
      client_to_remote_bytes stats = r_client_to_remote_bytes r /\
      remote_to_client_bytes stats = r_remote_to_client_bytes r
  | Ok None | Err _ => True
  | Panic => False
  end.
Proof.
  unfold relay_owned_bidirectional_with_options, sm_bind.
  destruct (on_client_safe _ nonblocking_safe _ (conserved_start started)) as [H1 Q1].
  destruct (on_client _ _) as [r1 [[]| |]]; cbn in H1, Q1; [|done..].
  destruct (on_remote_safe _ nonblocking_safe _ H1) as [H2 Q2].
  destruct (on_remote _ _) as [r2 [[]| |]]; cbn in H2, Q2; [|done..].
  destruct (relay_rounds_safe fuel options started clocks _ H2) as [H3 Q3].
  destruct (relay_rounds _ _ _ _ _) as [r3 [[]| |]]; cbn in H3, Q3; try done.
  destruct (relay_finish_safe _ H3) as [H4 Q4].
  destruct (relay_finish r3) as [r4 [stats| |]] eqn:Hf; cbn in H4, Q4; try done.
  apply relay_finish_pending in Hf. unfold sm_ret. rewrite Hf. by rewrite Q3.
Qed.
End Conservation.

(** ** Time limits *)

Section Limits.
Context {C R : Type} {Client : OwnedRelayStream C} {Remote : OwnedRelayStream R}.

(** The time limits hold at the check of a round. *)
Definition within_limits (options : RelayOptions) (started : Z) (clock : RoundClock)
  (r : Relay C R) : Prop :=
  match r_remote_first_byte_after r with
  | None => forall t, first_byte_timeout options = Some t -> elapsed (clock_check clock) started < t
  | Some _ =>
      forall t, idle_timeout options = Some t ->
      elapsed (clock_check clock) (r_last_remote_byte_at r) < t
  end.

Lemma time_out_fails kind message (r : Relay C R) :
  snd (time_out kind message r) = Err (relay_timeout_error kind message) \/
  snd (time_out kind message r) = Panic.
Proof.
  unfold time_out, sm_bind, on_client, on_remote, sm_zoom, sm_lift, ignore.
  destruct (shutdown_both (r_client r)) as [c [[]| |]]; cbn; [| |by right];
    destruct (shutdown_both (r_remote r)) as [s [[]| |]]; cbn; first [by left|by right].
Qed.

Lemma check_timeouts_passed options started clock (r r' : Relay C R) a :
  check_timeouts options started clock r = (r', Ok a) ->
  r' = r /\ within_limits options started clock r.
Proof.
  unfold check_timeouts, sm_bind, sm_get, within_limits, sm_ret.
  destruct (r_remote_first_byte_after r);
    [destruct (idle_timeout options) as [t|]|destruct (first_byte_timeout options) as [t|]];
    [destruct (Z.leb_spec t (elapsed (clock_check clock) (r_last_remote_byte_at r)))| |
     destruct (Z.leb_spec t (elapsed (clock_check clock) started))|];
    [|intros [= <- <-]; split; [done|by intros ? [= <-]]| by intros [= <-]| |
      intros [= <- <-]; split; [done|by intros ? [= <-]]|by intros [= <-]];
    intros Ht; [destruct (time_out_fails IdleTimeout "remote stream became idle" r) as [Hf|Hf]|
      destruct (time_out_fails FirstByteTimeout "timed out waiting for remote first byte" r) as [Hf|Hf]];
    by rewrite Ht in Hf.
Qed.

Lemma relay_round_within options started clock (r r' : Relay C R) :
  relay_round options started clock r = (r', Ok false) -> within_limits options started clock r'.
Proof.
  unfold relay_round. intros H.
  do 5 (apply sm_bind_Ok in H as (? & ? & _ & H)).
  apply sm_bind_Ok in H as (r1 & r2 & [= <- <-] & H).
  destruct (_ && _).
  - apply sm_bind_Ok in H as (? & ? & _ & [= _ H]).
  - apply sm_bind_Ok in H as (? & ? & Hc & [= <-]). by apply check_timeouts_passed in Hc as [-> Hw].
Qed.

(** What a relay remembers of the bytes of the remote: how many, the time to the first, the
    time of the last. *)
Definition marks (r : Relay C R) : Z * option Z * Z :=
  (r_remote_to_client_bytes r, r_remote_first_byte_after r, r_last_remote_byte_at r).

Definition keeps_marks {A} (m : RM (C := C) (R := R) A) : Prop :=
  forall r r' a, m r = (r', Ok a) -> marks r' = marks r.

Lemma zoom_keeps_marks {S E A} (get : Relay C R -> S) put (f : E -> RelayError) (m : SM S E A) :
  (forall s r, marks (put s r) = marks r) -> keeps_marks (sm_zoom get put f m).
Proof. intros Hput r r' a. unfold sm_zoom. destruct (m (get r)). intros [= <- _]. apply Hput. Qed.

Lemma client_read_marks {A} (m : PumpM A) : keeps_marks (client_read m).
Proof. by apply zoom_keeps_marks. Qed.
Lemma remote_read_marks {A} (m : PumpM A) : keeps_marks (remote_read m).
Proof. by apply zoom_keeps_marks. Qed.
Lemma client_write_marks {A} (m : PumpM A) : keeps_marks (client_write m).
Proof. by apply zoom_keeps_marks. Qed.
Lemma remote_write_marks {A} (m : PumpM A) : keeps_marks (remote_write m).
Proof. by apply zoom_keeps_marks. Qed.
Lemma on_client_marks {A} (m : SM C RelayError A) : keeps_marks (on_client m).
Proof. by apply zoom_keeps_marks. Qed.
Lemma on_remote_marks {A} (m : SM R RelayError A) : keeps_marks (on_remote m).
Proof. by apply zoom_keeps_marks. Qed.

Lemma pump_client_marks : keeps_marks pump_client.
Proof.
  intros r r' []. unfold pump_client. intros (r1 & r2 & [= <- <-] & H)%sm_bind_Ok.
  apply sm_bind_Ok in H as (r3 & pumped & Hp & H).
  apply client_read_marks in Hp. rewrite <- Hp. by destruct pumped; injection H as <-.
Qed.

Lemma half_close_marks : keeps_marks half_close_remote.
Proof.
  intros r r' []. unfold half_close_remote. intros (r1 & r2 & [= <- <-] & H)%sm_bind_Ok.
  destruct (_ && _ && _); [|by injection H as <-]. apply sm_bind_Ok in H as (r3 & [] & Ho & [= <-]).
  by apply on_remote_marks in Ho.
Qed.

(** A step of the loop finds no bytes, or notes the moment at which it found some. *)
Definition notes (clock : RoundClock) (r r' : Relay C R) : Prop :=
  marks r' = marks r \/
  (r_remote_to_client_bytes r < r_remote_to_client_bytes r' /\ is_Some (r_remote_first_byte_after r') /\
   r_last_remote_byte_at r' = clock_last_byte clock).

Lemma pump_read_positive {S} {Stream : OwnedRelayStream S} n eof s p s' k :
  pump_read (S := S) n eof (s, p) = (s', Ok (PumpRead_Bytes k)) -> 0 < k.
Proof.
  unfold pump_read. destruct (_ || _); [done|].
  destruct (stream_read n s) as [s1 [[|b bytes]|error|]]; [done| | |done].
  - case_match; [done|]. intros [= _ <-]. rewrite len_cons. pose proof (len_nonneg bytes). lia.
  - by repeat case_match.
Qed.

Lemma pump_remote_notes started clock r r' a : pump_remote started clock r = (r', Ok a) -> notes clock r r'.
Proof.
  unfold pump_remote. intros (r1 & r2 & [= <- <-] & H)%sm_bind_Ok. apply sm_bind_Ok in H as (r3 & pumped & Hp & H).
  pose proof (remote_read_marks _ _ _ _ Hp) as Hm.
  destruct pumped as [k| |]; injection H as <-; [right|by left..].
  unfold remote_read, sm_zoom in Hp. destruct (pump_read _ _ _) as [s' [read|e|]] eqn:Hr; [|done..].
  injection Hp as _ ->. apply pump_read_positive in Hr. unfold marks in Hm. injection Hm as Hc Hf Hl. cbn.
  rewrite Hc, Hf. split_and!; [lia| |done]. by destruct (r_remote_first_byte_after r).
Qed.

Lemma relay_round_notes options started clock (r r' : Relay C R) :
  relay_round options started clock r = (r', Ok false) -> notes clock r r'.
Proof.
  unfold relay_round. intros (r1 & [] & H1%pump_client_marks & H)%sm_bind_Ok.
  apply sm_bind_Ok in H as (r2 & [] & H2%pump_remote_notes & H).
  apply sm_bind_Ok in H as (r3 & ? & H3%remote_write_marks & H).
  apply sm_bind_Ok in H as (r4 & ? & H4%client_write_marks & H).
  apply sm_bind_Ok in H as (r5 & [] & H5%half_close_marks & H).
  apply sm_bind_Ok in H as (r6 & r7 & [= <- <-] & H). destruct (_ && _).
  { apply sm_bind_Ok in H as (? & ? & _ & [= _ H]). }
  apply sm_bind_Ok in H as (r8 & [] & Hc & [= <-]). apply check_timeouts_passed in Hc as [-> _].
  assert (E : marks r5 = marks r2) by congruence. destruct H2 as [H2|H2]; [left; congruence|right].
  unfold marks in *. injection E as -> -> ->. injection H1 as <- _ _. done.
Qed.

(** The loop, turn by turn. *)
Lemma relay_rounds_snoc n options started clocks (r r' : Relay C R) :
  relay_rounds (S n) options started clocks r = (r', Ok false) ->
  exists r1, relay_rounds n options started clocks r = (r1, Ok false) /\
    relay_round options started (clocks n) r1 = (r', Ok false).
Proof.
  revert clocks r. induction n as [|n IH]; intros clocks r (r1 & [|] & Hround & H)%sm_bind_Ok; try done.
  - injection H as <-. by exists r.
  - apply (IH (fun i => clocks (S i))) in H as (r2 & H & Hlast). exists r2. split; [|done].
    cbn [relay_rounds]. unfold sm_bind. by rewrite Hround.
Qed.

(** After [n] turns no byte has come from the remote, or turn [i] was the last one with some. *)
Definition last_arrival (options : RelayOptions) (started : Z) (clocks : nat -> RoundClock) (start : Relay C R)
  (n : nat) (r : Relay C R) : Prop :=
  r_remote_first_byte_after r = None /\ r_remote_to_client_bytes r = r_remote_to_client_bytes start \/
  is_Some (r_remote_first_byte_after r) /\
  exists i before after, (i < n)%nat /\
    relay_rounds i options started clocks start = (before, Ok false) /\
    relay_rounds (S i) options started clocks start = (after, Ok false) /\
    r_remote_to_client_bytes before < r_remote_to_client_bytes after /\
    r_remote_to_client_bytes after = r_remote_to_client_bytes r /\
    r_last_remote_byte_at r = clock_last_byte (clocks i).

Lemma relay_rounds_last n options started clocks (start r : Relay C R) :
  r_remote_first_byte_after start = None ->
  relay_rounds n options started clocks start = (r, Ok false) -> last_arrival options started clocks start n r.
Proof.
  intros H0. revert r. induction n as [|n IH]; intros r Hr.
  { injection Hr as <-. by left. }
  pose proof (relay_rounds_snoc _ _ _ _ _ _ Hr) as (r1 & H1 & Hround).
  specialize (IH r1 H1). apply relay_round_notes in Hround as [Hm|(Hlt & Hsome & Hlast)].
  - unfold marks in Hm. injection Hm as Hc Hf Hl. destruct IH as [[Hf1 Hc1]|(Hs & i & before & after & Hi & Hb & Ha & Hlt & He & Ht)].
    + left. by rewrite Hf, Hc.
    + right. rewrite Hf, Hc, Hl. split; [done|]. exists i, before, after. by split_and!; [lia|..].
  - right. split; [done|]. exists n, r1, r. by split_and!; [lia|..].
Qed.
End Limits.

(** ** A socket *)

(** The bytes that have arrived, whether the peer has closed after them, the bytes
    taken and given so far, and how many bytes a write takes at most. *)
Record Socket : Type := mkSocket {
  sock_incoming : list Z;
  sock_closed : bool;
  sock_taken : list Z;
  sock_given : list Z;
  sock_window : Z
}.

#[export] Instance Socket_stream : OwnedRelayStream Socket := {
  stream_read n s :=
    match sock_incoming s with
    | [] => if sock_closed s then (s, Ok []) else (s, Err no_data_yet)
    | incoming =>
        (mkSocket (drop (Z.to_nat n) incoming) (sock_closed s)
           (sock_taken s ++ take (Z.to_nat n) incoming) (sock_given s) (sock_window s),
         Ok (take (Z.to_nat n) incoming))
    end;
  stream_write bytes s :=
    let k := Z.max 0 (Z.min (sock_window s) (len bytes)) in
    (mkSocket (sock_incoming s) (sock_closed s) (sock_taken s)
       (sock_given s ++ take (Z.to_nat k) bytes) (sock_window s), Ok k);
  stream_flush := sm_ret tt;
  set_nonblocking_mode _ s := (s, Ok tt);
  shutdown_write s := (s, Ok tt);
  shutdown_both s := (s, Ok tt)
}.

#[export] Instance Socket_faithful : FaithfulStream Socket.
Proof.
  refine {| received := sock_taken; sent := sock_given |}; unfold stream_effect.
  - intros n s Hn. cbn. destruct (sock_incoming s) as [|b l]; [destruct (sock_closed s)|]; cbn;
      by rewrite ?app_nil_r.
  - intros n s s' bytes Hn. cbn.
    destruct (sock_incoming s) as [|b l]; [destruct (sock_closed s); [|done]|];
      intros [= <- <-]; unfold len; rewrite ?length_take; cbn; lia.
  - intros bytes s. cbn. by rewrite app_nil_r.
  - intros bytes s s' k. cbn. intros [= <- <-]. pose proof (len_nonneg bytes). lia.
  - intros b s. cbn. by rewrite !app_nil_r.
  - intros s. cbn. by rewrite !app_nil_r.
  - intros s. cbn. by rewrite !app_nil_r.
Defined.

(** What a pump leaves as it was. *)
Definition sock_total (s : Socket) : list Z := sock_taken s ++ sock_incoming s.

Definition same_peer (s s' : Socket) : Prop :=
  sock_closed s' = sock_closed s /\ sock_window s' = sock_window s /\
  sock_total s' = sock_total s.

Lemma socket_read s p eof :
  pending_ok p ->
  exists s' p' k,
    pump_read relay_buffer_len eof (s, p) = ((s', p'), Ok k) /\ pending_ok p' /\ same_peer s s' /\
    (eof = false -> left_over p = [] ->
     match sock_incoming s with
     | [] => s' = s /\ p' = p /\ k = if sock_closed s then PumpRead_Eof else PumpRead_NoProgress
     | _ => exists n, k = PumpRead_Bytes n /\
              (length (sock_incoming s') < length (sock_incoming s))%nat
     end).
Proof.
  intros Hp. destruct (pump_read_ok s p eof Hp) as (s' & p' & r & got & Hrun & Hp' & _).
  revert Hrun. unfold pump_read.
  destruct (eof || negb (PendingWrite_is_empty p)) eqn:He.
  { intros [= <- <- <-]. exists s, p, PumpRead_NoProgress. split_and!; try done. intros -> Hl.
    apply pending_empty_left_over in Hl; [|done]. cbn in He. by rewrite Hl in He. }
  cbn [stream_read Socket_stream]. destruct (sock_incoming s) as [|b l] eqn:Hin.
  { destruct (sock_closed s); intros [= <- <- <-]; do 3 eexists; (split; [done|]); by split_and!. }
  assert (exists m, Z.to_nat relay_buffer_len = S m) as [m Hm]
    by (exists (Z.to_nat 16383); unfold relay_buffer_len; lia).
  rewrite Hm. cbn [take]. set (bytes := b :: take m l). intros Hrun.
  assert (Hfit : (relay_buffer_len <? len bytes) = false).
  { apply Z.ltb_ge. unfold bytes, len. cbn [length]. rewrite length_take. lia. }
  rewrite Hfit in Hrun |- *. injection Hrun as <- <- <-.
  do 3 eexists. split; [done|]. split_and!; try done.
  { unfold same_peer, sock_total. cbn [sock_closed sock_window sock_taken sock_incoming].
    split_and!; [done..|]. rewrite Hin, <- app_assoc. unfold bytes.
    change (b :: take m l) with (take (S m) (b :: l)). by rewrite take_drop. }
  intros _ _. eexists. split; [done|].
  cbn [sock_incoming]. cbn [drop length]. rewrite length_drop. lia.
Qed.

Lemma socket_write_loop fuel progressed s p :
  pending_ok p -> 0 < sock_window s -> len (left_over p) <= Z.of_nat fuel ->
  exists s' p' b,
    pump_write_loop fuel progressed (s, p) = ((s', p'), Ok b) /\ pending_ok p' /\
    left_over p' = [] /\ same_peer s s' /\ sock_incoming s' = sock_incoming s.
Proof.
  revert progressed s p. induction fuel as [|fuel IH]; intros progressed s p Hp Hw Hfuel;
    destruct (PendingWrite_is_empty p) eqn:He; cbn [pump_write_loop]; rewrite He;
    try (apply pending_empty_left_over in He; [|done]; do 3 eexists; split; [done|]; by split_and!).
  { pose proof (pending_empty_left_over p Hp) as [_ Hn]. rewrite Hn in He; [done|].
    destruct (left_over p); [done|]. rewrite len_cons in Hfuel. pose proof (len_nonneg l). lia. }
  rewrite remaining_left_over by done. cbn [stream_write Socket_stream].
  assert (Hne : 0 < len (left_over p)).
  { pose proof (pending_empty_left_over p Hp) as [_ Hn]. destruct (left_over p); [by rewrite Hn in He|].
    rewrite len_cons. pose proof (len_nonneg l). lia. }
  set (k := Z.max 0 (Z.min (sock_window s) (len (left_over p)))).
  assert (Hk : 0 < k <= len (left_over p)) by lia. replace (k =? 0) with false by lia.
  destruct (advance_left_over k p Hp) as [Hp' Hl]; [lia|].
  edestruct (IH true) as (s' & p' & b & Hrun & Hp'' & Hl' & Hpeer & Hin);
    [exact Hp'| | |do 3 eexists; split; [exact Hrun|]; by split_and!]; [done|].
  apply (f_equal len) in Hl. rewrite len_app in Hl. unfold len in Hl at 2.
  rewrite length_take in Hl. unfold len in Hk. lia.
Qed.

Lemma socket_write s p :
  pending_ok p -> 0 < sock_window s ->
  exists s' p' b,
    pump_write (s, p) = ((s', p'), Ok b) /\ pending_ok p' /\
    left_over p' = [] /\ same_peer s s' /\ sock_incoming s' = sock_incoming s.
Proof.
  intros Hp Hw. apply socket_write_loop; [done..|]. rewrite (len_left_over p Hp).
  destruct Hp. unfold len. lia.
Qed.

(** Between the turns over sockets that take bytes: nothing waits, and the remote, which
    has closed, was not read to its end. *)
Record between_turns (r : Relay Socket Socket) : Prop := {
  turn_upload : pending_ok (r_upload r);
  turn_upload_empty : left_over (r_upload r) = [];
  turn_download : pending_ok (r_download r);
  turn_download_empty : left_over (r_download r) = [];
  turn_client_window : 0 < sock_window (r_client r);
  turn_remote_window : 0 < sock_window (r_remote r);
  turn_remote_closed : sock_closed (r_remote r) = true;
  turn_remote_eof : r_remote_eof r = false
}.

Definition no_limits : RelayOptions := mkRelayOptions None None.

(** The steps of a turn, field by field. *)
Lemma pump_client_socket (c s : Socket) up down ceof reof sh n m first last :
  pending_ok up ->
  exists c' up' ceof' n',
    pump_client (mkRelay c s up down ceof reof sh n m first last)
    = (mkRelay c' s up' down ceof' reof sh n' m first last, Ok tt) /\
    pending_ok up' /\ same_peer c c'.
Proof.
  intros Hup. unfold pump_client, sm_bind, sm_get, client_read, sm_zoom.
  cbn [r_client r_upload r_client_eof].
  destruct (socket_read c up ceof Hup) as (c' & up' & k & -> & Hp & Hs & _).
  destruct k as [k| |]; [exists c', up', ceof, (n + k)|exists c', up', true, n|exists c', up', ceof, n];
    done.
Qed.

(** The remote: at its end, or some of its bytes are taken. *)
Lemma pump_remote_socket started clock (c s : Socket) up down ceof sh n m first last :
  pending_ok down -> left_over down = [] -> sock_closed s = true ->
  exists s' down' eof m' first' last',
    pump_remote started clock (mkRelay c s up down ceof false sh n m first last)
    = (mkRelay c s' up down' ceof eof sh n m' first' last', Ok tt) /\
    pending_ok down' /\ same_peer s s' /\
    if eof then sock_incoming s' = []
    else (length (sock_incoming s') < length (sock_incoming s))%nat.
Proof.
  intros Hd He Hc. unfold pump_remote, sm_bind, sm_get, remote_read, sm_zoom.
  cbn [r_remote r_download r_remote_eof].
  destruct (socket_read s down false Hd) as (s' & down' & k & -> & Hp & Hs & Hk).
  specialize (Hk eq_refl He). destruct (sock_incoming s) eqn:Hin.
  - destruct Hk as (-> & -> & ->). rewrite Hc. by exists s, down, true, m, first, last.
  - destruct Hk as (j & -> & Hlt).
    eexists s', down', false, (m + j), _, (clock_last_byte clock). split; [reflexivity|]. done.
Qed.

Lemma remote_write_socket (c s : Socket) up down ceof reof sh n m first last :
  pending_ok up -> 0 < sock_window s ->
  exists s' up' b,
    remote_write pump_write (mkRelay c s up down ceof reof sh n m first last)
    = (mkRelay c s' up' down ceof reof sh n m first last, Ok b) /\
    pending_ok up' /\ left_over up' = [] /\ same_peer s s' /\ sock_incoming s' = sock_incoming s.
Proof.
  intros Hup Hw. unfold remote_write, sm_zoom. cbn [r_remote r_upload].
  destruct (socket_write s up Hup Hw) as (s' & up' & b & -> & H). by exists s', up', b.
Qed.

Lemma client_write_socket (c s : Socket) up down ceof reof sh n m first last :
  pending_ok down -> 0 < sock_window c ->
  exists c' down' b,
    client_write pump_write (mkRelay c s up down ceof reof sh n m first last)
    = (mkRelay c' s up down' ceof reof sh n m first last, Ok b) /\
    pending_ok down' /\ left_over down' = [] /\ same_peer c c'.
Proof.
  intros Hd Hw. unfold client_write, sm_zoom. cbn [r_client r_download].
  destruct (socket_write c down Hd Hw) as (c' & down' & b & -> & H1 & H2 & H3 & _). by exists c', down', b.
Qed.

Lemma half_close_socket (c s : Socket) up down ceof reof sh n m first last :
  exists sh', half_close_remote (mkRelay c s up down ceof reof sh n m first last)
    = (mkRelay c s up down ceof reof sh' n m first last, Ok tt).
Proof.
  unfold half_close_remote, sm_bind, sm_get, on_remote, sm_zoom, ignore.
  cbn [r_client_eof r_upload r_remote_write_shutdown]. destruct (_ && _ && _); by eexists.
Qed.

(** A turn ends the loop at the end of the remote, or takes bytes from it. *)
Lemma relay_round_socket started clock (r : Relay Socket Socket) :
  between_turns r ->
  exists r' ended,
    relay_round no_limits started clock r = (r', Ok ended) /\
    (if ended then sock_incoming (r_remote r') = [] else between_turns r') /\
    sock_total (r_remote r') = sock_total (r_remote r) /\
    (ended = false ->
     (length (sock_incoming (r_remote r')) < length (sock_incoming (r_remote r)))%nat).
Proof.
  destruct r as [c s up down ceof reof sh n m first last].
  intros [Hu Hue Hd Hde Hcw Hrw Hcl Heof]; cbn [r_client r_remote r_upload r_download r_remote_eof] in *.
  subst reof. unfold relay_round, sm_bind.
  destruct (pump_client_socket c s up down ceof false sh n m first last Hu)
    as (c1 & up1 & ceof1 & n1 & -> & Hu1 & _ & Hwc1 & _).
  destruct (pump_remote_socket started clock c1 s up1 down ceof1 sh n1 m first last Hd Hde Hcl)
    as (s1 & down1 & eof & m1 & first1 & last1 & -> & Hd1 & (Hcl1 & Hws1 & Ht1) & Hend).
  edestruct remote_write_socket as (s2 & up2 & b2 & -> & Hu2 & Hue2 & (Hcl2 & Hws2 & Ht2) & Hin2);
    [exact Hu1|by rewrite Hws1|].
  edestruct client_write_socket as (c2 & down2 & b3 & -> & Hd2 & Hde2 & (_ & Hwc2 & _));
    [exact Hd1|by rewrite Hwc1|].
  edestruct half_close_socket as [sh' ->]. unfold sm_get. cbn [r_remote_eof r_download].
  assert (PendingWrite_is_empty down2 = true) as -> by (by apply pending_empty_left_over).
  rewrite andb_true_r. destruct eof.
  - do 2 eexists. split; [reflexivity|]. split_and!; [exact (eq_trans Hin2 Hend)|exact (eq_trans Ht2 Ht1)|done].
  - exists (mkRelay c2 s2 up2 down2 ceof1 false sh' n1 m1 first1 last1), false.
    split; [by destruct first1|]. cbn [r_remote]. rewrite Hin2. split_and!; [|congruence|done].
    split; cbn [r_client r_remote r_upload r_download r_remote_eof]; congruence.
Qed.

Lemma relay_rounds_socket fuel started clocks (r : Relay Socket Socket) :
  between_turns r -> (length (sock_incoming (r_remote r)) < fuel)%nat ->
  exists r', relay_rounds fuel no_limits started clocks r = (r', Ok true) /\
    sock_incoming (r_remote r') = [] /\ sock_total (r_remote r') = sock_total (r_remote r).
Proof.
  revert clocks r. induction fuel as [|fuel IH]; intros clocks r Hr Hfuel; [lia|].
  cbn [relay_rounds]. unfold sm_bind.
  destruct (relay_round_socket started (clocks O) r Hr) as (r' & [|] & -> & Hr' & Ht & Hlt);
    [by exists r'|]. specialize (Hlt eq_refl). rewrite <- Ht. apply IH; [done|lia].
Qed.

(** ** Theorems *)

Section Theorems.
Context {C R : Type} {Client : OwnedRelayStream C} {Remote : OwnedRelayStream R}.
Context {FaithfulClient : FaithfulStream C} {FaithfulRemote : FaithfulStream R}.

(** C33: the relay neither loses, repeats, reorders nor invents bytes. Between any two
    streams that keep to the contracts of [Read] and [Write], at every moment and however
    the relay ends: what was taken from the client is what was given to the remote and
    then what waits in a buffer of 16 KiB, and the same in the other direction; nothing
    panics. When the relay reports success nothing waits for the client: every byte the
    remote sent was delivered, and the statistics count the bytes taken on each side. *)
Theorem relay_conserves_bytes fuel options started clocks (client : C) (remote : R) :
  let '(r, outcome) :=
    relay_owned_bidirectional_with_options fuel options started clocks client remote in
  exists up up_waiting down down_waiting,
    received (r_client r) = received client ++ up ++ up_waiting /\
    sent (r_remote r) = sent remote ++ up /\
    received (r_remote r) = received remote ++ down ++ down_waiting /\
    sent (r_client r) = sent client ++ down /\
    len up_waiting <= 16384 /\ len down_waiting <= 16384 /\
    match outcome with
    | Ok (Some stats) =>
        down_waiting = [] /\ remote_to_client_bytes stats = len down /\
        client_to_remote_bytes stats = len (up ++ up_waiting)
    | Ok None | Err _ => True
    | Panic => False
    end.
Proof.
  pose proof (relay_safe client remote fuel options started clocks) as H.
  destruct (relay_owned_bidirectional_with_options _ _ _ _ _ _) as [r outcome].
  destruct H as [(up & down & [Hp1 Hr1 (u & Hs1 & ->)] & [Hp2 Hr2 (d & Hs2 & ->)] & Hn1 & Hn2) Ho].
  exists u, (left_over (r_upload r)), d, (left_over (r_download r)).
  pose proof (len_left_over _ Hp1). pose proof (len_left_over _ Hp2).
  split_and!; [done|done|done|done|destruct Hp1; unfold relay_buffer_len in *; lia|
               destruct Hp2; unfold relay_buffer_len in *; lia|].
  destruct outcome as [[stats|]| |]; [|done..]. destruct Ho as (Hd & Hc & Hm).
  rewrite Hd, app_nil_r in Hn2. rewrite Hc, Hm. done.
Qed.

(** The loop still runs after [n] turns, in the state [r]. *)
Definition still_runs options started clocks (client : C) (remote : R) (n : nat) (r : Relay C R) : Prop :=
  relay_owned_bidirectional_with_options n options started clocks client remote = (r, Ok None).

(** The number of bytes that have come from the remote. *)
Definition arrived (remote : R) (r : Relay C R) : Z := len (received (r_remote r)) - len (received remote).

Lemma still_runs_arrived options started clocks client remote n r :
  still_runs options started clocks client remote n r -> arrived remote r = r_remote_to_client_bytes r.
Proof.
  intros H. pose proof (relay_safe client remote n options started clocks) as Hs. unfold still_runs in H.
  rewrite H in Hs. destruct Hs as [(up & down & _ & [_ Hr _] & _ & Hn) _].
  unfold arrived. rewrite Hr, len_app, Hn. lia.
Qed.

Lemma arrived_nonneg options started clocks client remote n r :
  still_runs options started clocks client remote n r -> 0 <= arrived remote r.
Proof.
  intros H. pose proof (relay_safe client remote n options started clocks) as Hs. unfold still_runs in H.
  rewrite H in Hs. destruct Hs as [(up & down & _ & [_ Hr _] & _ & _) _].
  unfold arrived. rewrite Hr, len_app. pose proof (len_nonneg down). lia.
Qed.

Lemma still_runs_rounds options started clocks client remote n r :
  still_runs options started clocks client remote n r ->
  exists start, relay_rounds n options started clocks start = (r, Ok false) /\
    r_remote_first_byte_after start = None /\ r_remote_to_client_bytes start = 0 /\
    forall m r', relay_rounds m options started clocks start = (r', Ok false) ->
      still_runs options started clocks client remote m r'.
Proof.
  unfold still_runs, relay_owned_bidirectional_with_options. intros (r1 & [] & H1 & H)%sm_bind_Ok.
  apply sm_bind_Ok in H as (r2 & [] & H2 & H). apply sm_bind_Ok in H as (r3 & [|] & H3 & H).
  { by apply sm_bind_Ok in H as (? & ? & _ & [= _ H]). }
  injection H as <-. exists r2.
  pose proof (on_client_marks _ _ _ _ H1) as M1.
  pose proof (on_remote_marks _ _ _ _ H2) as M2. rewrite M1 in M2.
  unfold marks in M2. injection M2 as Hc Hf _. split_and!; [done|done|done|].
  intros m r' Hm. unfold sm_bind. by rewrite H1, H2, Hm.
Qed.

(** C34: a silent remote is given up in time. If the relay of a client and a remote still runs
    after a turn, then at the time that turn looked at the clock the limits were kept: as long
    as no byte has come from the remote, the limit on the first byte was not reached since the
    start; and once some have, the limit on idle time was not reached since the last turn in
    which bytes came, of which there is one. Put the other way round: a remote from which no
    byte comes for the limit's time is not waited for. *)
Theorem relay_keeps_time_limits fuel options started clocks (client : C) (remote : R) r :
  still_runs options started clocks client remote (S fuel) r ->
  (arrived remote r = 0 -> forall t, first_byte_timeout options = Some t ->
     elapsed (clock_check (clocks fuel)) started < t) /\
  (0 < arrived remote r -> forall t, idle_timeout options = Some t ->
     exists i before after, (i <= fuel)%nat /\
       still_runs options started clocks client remote i before /\
       still_runs options started clocks client remote (S i) after /\
       arrived remote before < arrived remote after /\ arrived remote after = arrived remote r /\
       elapsed (clock_check (clocks fuel)) (clock_last_byte (clocks i)) < t).
Proof.
  intros H. pose proof (still_runs_arrived _ _ _ _ _ _ _ H) as Hcount.
  apply still_runs_rounds in H as (start & Hr & H0 & Hc0 & Hruns). rewrite Hcount.
  pose proof (relay_rounds_snoc _ _ _ _ _ _ Hr) as (r1 & _ & Hw%relay_round_within). unfold within_limits in Hw.
  destruct (relay_rounds_last _ _ _ _ _ _ H0 Hr) as [[Hf Hc]|([x Hf] & i & before & after & Hi & Hb & Ha & Hlt & He & Hl)];
    rewrite Hf in Hw.
  - rewrite Hc, Hc0. split; [done|lia].
  - apply Hruns in Hb, Ha. pose proof (still_runs_arrived _ _ _ _ _ _ _ Hb) as Eb.
    pose proof (still_runs_arrived _ _ _ _ _ _ _ Ha) as Ea. split.
    + intros Hz. pose proof (arrived_nonneg _ _ _ _ _ _ _ Hb). lia.
    + intros _ t Ht. exists i, before, after. rewrite Ea, Eb, <- Hl. by split_and!; [lia|..|apply Hw].
Qed.
End Theorems.

(** A clock that shows [i] milliseconds in turn [i]. *)
Definition ticking (i : nat) : RoundClock :=
  let t := Z.of_nat i * 1000000 in mkRoundClock t t t.

Lemma relay_conserves_bytes_witness :
  let '(r, outcome) :=
    relay_owned_bidirectional_with_options 5 no_limits 0 ticking
      (mkSocket [1; 2] false [] [] 1) (mkSocket [7; 8; 9] true [] [] 1) in
  outcome = Ok (Some (mkRelayStats 2 3 (Some 0))) /\ received (r_remote r) = sent (r_client r).
Proof.
  pose proof (relay_conserves_bytes 5 no_limits 0 ticking
    (mkSocket [1; 2] false [] [] 1) (mkSocket [7; 8; 9] true [] [] 1)) as H.
  assert (Ho : snd (relay_owned_bidirectional_with_options 5 no_limits 0 ticking
    (mkSocket [1; 2] false [] [] 1) (mkSocket [7; 8; 9] true [] [] 1))
    = Ok (Some (mkRelayStats 2 3 (Some 0)))) by (vm_compute; reflexivity).
  destruct (relay_owned_bidirectional_with_options _ _ _ _ _ _) as [r outcome].
  cbn [snd] in Ho. subst outcome. split; [reflexivity|].
  destruct H as (up & uw & down & dw & _ & _ & Hr & Hs & _ & _ & -> & _).
  rewrite Hr, Hs, app_nil_r. reflexivity.
Defined.

(** The remote has sent a byte in the first turn, and is silent since. *)
Lemma relay_keeps_time_limits_witness :
  let options := mkRelayOptions (Some 5000000) (Some 5000000) in
  let client := mkSocket [] false [] [] 1 in
  let remote := mkSocket [7] false [] [] 1 in
  exists r i, still_runs options 0 ticking client remote 3 r /\ arrived remote r = 1 /\
    elapsed (clock_check (ticking 2)) (clock_last_byte (ticking i)) < 5000000.
Proof.
  cbn zeta. set (client := mkSocket [] false [] [] 1). set (remote := mkSocket [7] false [] [] 1).
  set (options := mkRelayOptions (Some 5000000) (Some 5000000)).
  assert (Hrun : exists r, still_runs options 0 ticking client remote 3 r /\ arrived remote r = 1)
    by (eexists; split; vm_compute; reflexivity).
  destruct Hrun as (r & Hr & Ha).
  destruct (relay_keeps_time_limits 2 options 0 ticking client remote r Hr) as [_ H].
  destruct (H ltac:(lia) 5000000 eq_refl) as (i & before & after & _ & _ & _ & _ & _ & Hi).
  exists r, i. by split_and!.
Defined.

(** C35: a remote that ends is relayed to its end. Over sockets that take bytes (however
    few at a time) and without time limits, when the remote sends [bytes] and closes, the
    relay returns within one turn per byte and one more, whatever the client does; the
    client was then given exactly [bytes], and they are counted. *)
Theorem relay_completes fuel started clocks (client remote : Socket) bytes :
  sock_incoming remote = bytes -> sock_closed remote = true ->
  0 < sock_window client -> 0 < sock_window remote -> (length bytes < fuel)%nat ->
  exists r stats,
    relay_owned_bidirectional_with_options fuel no_limits started clocks client remote
    = (r, Ok (Some stats)) /\
    sock_given (r_client r) = sock_given client ++ bytes /\
    remote_to_client_bytes stats = len bytes.
Proof.
  intros Hin Hcl Hcw Hrw Hfuel.
  assert (Hstart : between_turns (relay_start started client remote))
    by (by split; try apply pending_new_ok).
  destruct (relay_rounds_socket fuel started clocks _ Hstart) as (r1 & Hrounds & Hend & Htotal);
    [cbn [relay_start r_remote]; by rewrite Hin|].
  assert (Hrun : relay_owned_bidirectional_with_options fuel no_limits started clocks client remote
    = (r1, Ok (Some (mkRelayStats (r_client_to_remote_bytes r1) (r_remote_to_client_bytes r1)
        (r_remote_first_byte_after r1))))).
  { unfold relay_owned_bidirectional_with_options, sm_bind.
    change (on_client _ _) with (relay_start started client remote, Ok (E := RelayError) tt). cbv iota beta.
    change (on_remote _ _) with (relay_start started client remote, Ok (E := RelayError) tt). cbv iota beta.
    rewrite Hrounds. by destruct r1. }
  pose proof (relay_safe client remote fuel no_limits started clocks) as H. rewrite Hrun in H.
  destruct H as [(up & down & _ & [_ Hr (put & Hs & ->)] & _ & Hn) (Hl & _)].
  rewrite Hl, app_nil_r in *. do 2 eexists. split; [done|].
  assert (put = bytes) as ->; [|by split].
  unfold sock_total in Htotal. rewrite Hend, app_nil_r in Htotal. cbn [relay_start r_remote] in Htotal.
  rewrite Hin in Htotal. cbn [received Socket_faithful] in Hr. rewrite Htotal in Hr.
  by apply app_inv_head in Hr.
Qed.

Lemma relay_completes_witness :
  let client := mkSocket [1; 2] false [] [] 1 in
  let remote := mkSocket [7; 8; 9] true [] [] 1 in
  exists r stats,
    relay_owned_bidirectional_with_options 4 no_limits 0 ticking client remote
    = (r, Ok (Some stats)) /\
    sock_given (r_client r) = [7; 8; 9] /\ remote_to_client_bytes stats = 3.
Proof.
  apply (relay_completes 4 0 ticking (mkSocket [1; 2] false [] [] 1)
    (mkSocket [7; 8; 9] true [] [] 1) [7; 8; 9]); cbn; lia || reflexivity.
Defined.
