(* ===== verification/StdText.v ===== *)
(** * Lemmas on text

    UTF-8 is closed under concatenation and under cutting at a character; [trim] cuts at
    characters and is idempotent; the last separator of a text; decimal numbers read
    back. *)

From Stdlib Require Import Ascii.
From stdpp Require Import base strings list numbers.
From S2P Require Import Prelude.
From S2P Require Import StdNet.
From S2P Require Import StdIo.
#[local] Open Scope Z_scope.

(** ** UTF-8 *)

(** The first byte of a character. *)
Definition starts_char (l : list Z) : bool :=
  match l with [] => true | b :: _ => negb (is_continuation b) end.

Lemma utf8_valid_starts l : utf8_valid l = true -> starts_char l = true.
Proof.
  destruct l as [|b0 l]; [done|]. cbn. unfold is_continuation, in_range.
  destruct l as [|b1 [|b2 [|b3 l]]]; intros H; repeat case_match; lia.
Qed.

Lemma utf8_valid_app_aux n l k :
  (length l < n)%nat -> starts_char k = true ->
  utf8_valid (l ++ k) = utf8_valid l && utf8_valid k.
Proof.
  revert l. induction n as [|n IH]; intros l Hn Hk; [lia|].
  destruct l as [|b0 l1]; [done|]. cbn [length] in Hn. cbn [app utf8_valid].
  destruct (in_range 0 127 b0); [apply IH; [lia|done]|].
  assert (Hcont : forall c t, starts_char k = true -> k = c :: t -> is_continuation c = false).
  { intros c t Hs ->. cbn in Hs. by destruct (is_continuation c). }
  assert (Hlead : forall b c t, k = c :: t ->
    (if b =? 224 then in_range 160 191 c
     else if b =? 237 then in_range 128 159 c else is_continuation c) = false /\
    (if b =? 240 then in_range 144 191 c
     else if b =? 244 then in_range 128 143 c else is_continuation c) = false).
  { intros b c t Ek. specialize (Hcont c t Hk Ek). unfold is_continuation, in_range in *.
    destruct (b =? 224), (b =? 237), (b =? 240), (b =? 244); lia. }
  destruct l1 as [|b1 l2]; cbn [app].
  { destruct k as [|c t]; [done|]. specialize (Hcont c t Hk eq_refl). specialize (Hlead b0 c t eq_refl).
    destruct Hlead as [Hl1 Hl2].
    destruct t as [|? [|? ?]]; cbn [app]; repeat case_match; try done;
      by rewrite ?Hcont, ?Hl1, ?Hl2, ?andb_false_r. }
  destruct (in_range 194 223 b0).
  { rewrite IH by (cbn in Hn; lia || done). by rewrite andb_assoc. }
  destruct l2 as [|b2 l3]; cbn [app].
  { destruct k as [|c t]; [done|]. specialize (Hcont c t Hk eq_refl).
    destruct t; case_match; try done; by rewrite Hcont, ?andb_false_r. }
  destruct (in_range 224 239 b0).
  { rewrite IH by (cbn in Hn; lia || done). by rewrite !andb_assoc. }
  destruct l3 as [|b3 l4]; cbn [app].
  { destruct k as [|c t]; [done|]. specialize (Hcont c t Hk eq_refl). by rewrite Hcont, !andb_false_r. }
  rewrite IH by (cbn in Hn; lia || done). by rewrite !andb_assoc.
Qed.

Lemma utf8_valid_app l k :
  starts_char k = true -> utf8_valid (l ++ k) = utf8_valid l && utf8_valid k.
Proof. intros. by apply (utf8_valid_app_aux (S (length l))); [lia|]. Qed.

(** ** White space is characters *)

Lemma starts_ws1 b l : is_ws1 b = true -> starts_char (b :: l) = true.
Proof. unfold is_ws1, starts_char, is_continuation, in_range. lia. Qed.

Lemma starts_ws2 b c l : is_ws2 b c = true -> starts_char (b :: l) = true.
Proof. unfold is_ws2, starts_char, is_continuation, in_range. lia. Qed.

Lemma starts_ws3 b c d l : is_ws3 b c d = true -> starts_char (b :: l) = true.
Proof. unfold is_ws3, starts_char, is_continuation, in_range. lia. Qed.

Lemma trim_start_valid_aux n l :
  (length l < n)%nat -> utf8_valid l = true -> utf8_valid (trim_start l) = true.
Proof.
  revert l. induction n as [|n IH]; intros l Hn Hl; [lia|].
  destruct l as [|b0 l1]; [done|]. cbn [length] in Hn. cbn [trim_start].
  destruct (is_ws1 b0) eqn:H1.
  { apply IH; [lia|]. cbn [utf8_valid] in Hl. unfold is_ws1, in_range in *.
    by replace (_ && _) with true in Hl by lia. }
  destruct l1 as [|b1 l2]; [done|]. cbn [length] in Hn. destruct (is_ws2 b0 b1) eqn:H2.
  { apply IH; [lia|]. cbn [utf8_valid] in Hl. unfold is_ws2, in_range in *.
    replace ((0 <=? b0) && _) with false in Hl by lia.
    replace ((194 <=? b0) && _) with true in Hl by lia. by apply andb_true_iff in Hl as [_ Hl]. }
  destruct l2 as [|b2 l3]; [done|]. cbn [length] in Hn. destruct (is_ws3 b0 b1 b2) eqn:H3; [|done].
  apply IH; [lia|]. cbn [utf8_valid] in Hl. unfold is_ws3, in_range in *.
  replace ((0 <=? b0) && _) with false in Hl by lia.
  replace ((194 <=? b0) && _) with false in Hl by lia.
  replace ((224 <=? b0) && _) with true in Hl by lia. by apply andb_true_iff in Hl as [_ Hl].
Qed.

(** A cut of white space at the end of a valid text. *)
Lemma utf8_valid_cut l w :
  utf8_valid (l ++ w) = true -> starts_char w = true -> utf8_valid l = true.
Proof. intros H Hw. rewrite utf8_valid_app in H by done. by apply andb_true_iff in H as [H _]. Qed.

Lemma trim_end_valid_aux n l :
  (length l < n)%nat -> utf8_valid (rev l) = true -> utf8_valid (rev (trim_end_rev l)) = true.
Proof.
  revert l. induction n as [|n IH]; intros l Hn Hl; [lia|].
  destruct l as [|b0 l1]; [done|]. cbn [length] in Hn. cbn [trim_end_rev].
  destruct (is_ws1 b0) eqn:H1.
  { apply IH; [lia|]. cbn [rev] in Hl. apply (utf8_valid_cut _ _ Hl). by apply starts_ws1. }
  destruct l1 as [|b1 l2]; [done|]. cbn [length] in Hn. destruct (is_ws2 b1 b0) eqn:H2.
  { apply IH; [lia|]. cbn [rev] in Hl. rewrite <- app_assoc in Hl. apply (utf8_valid_cut _ _ Hl).
    by apply (starts_ws2 _ b0). }
  destruct l2 as [|b2 l3]; [done|]. cbn [length] in Hn. destruct (is_ws3 b2 b1 b0) eqn:H3; [|done].
  apply IH; [lia|]. cbn [rev] in Hl. rewrite <- !app_assoc in Hl. apply (utf8_valid_cut _ _ Hl).
  by apply (starts_ws3 _ b1 b0).
Qed.

(** A text, as the type [str] guarantees it. *)
Definition is_text (s : string) : Prop := utf8_valid (as_bytes s) = true.

Lemma trim_bytes_valid l : utf8_valid l = true -> utf8_valid (trim_bytes l) = true.
Proof.
  intros H. unfold trim_bytes. apply (trim_end_valid_aux (S (length (rev (trim_start l))))); [lia|].
  rewrite rev_involutive. by apply (trim_start_valid_aux (S (length l))); [lia|].
Qed.

(** [trim] keeps a part of the bytes. *)
Lemma trim_start_suffix_aux n l : (length l < n)%nat -> exists p, l = p ++ trim_start l.
Proof.
  revert l. induction n as [|n IH]; intros l Hn; [lia|].
  destruct l as [|b0 l1]; [by exists []|]. cbn [length] in Hn. cbn [trim_start].
  destruct (is_ws1 b0).
  { destruct (IH l1 ltac:(lia)) as [p Hp]. exists (b0 :: p). by rewrite Hp at 1. }
  destruct l1 as [|b1 l2]; [by exists []|]. cbn [length] in Hn. destruct (is_ws2 b0 b1).
  { destruct (IH l2 ltac:(lia)) as [p Hp]. exists (b0 :: b1 :: p). by rewrite Hp at 1. }
  destruct l2 as [|b2 l3]; [by exists []|]. cbn [length] in Hn.
  destruct (is_ws3 b0 b1 b2); [|by exists []].
  destruct (IH l3 ltac:(lia)) as [p Hp]. exists (b0 :: b1 :: b2 :: p). by rewrite Hp at 1.
Qed.

Lemma trim_end_suffix_aux n l : (length l < n)%nat -> exists p, l = p ++ trim_end_rev l.
Proof.
  revert l. induction n as [|n IH]; intros l Hn; [lia|].
  destruct l as [|b0 l1]; [by exists []|]. cbn [length] in Hn. cbn [trim_end_rev].
  destruct (is_ws1 b0).
  { destruct (IH l1 ltac:(lia)) as [p Hp]. exists (b0 :: p). by rewrite Hp at 1. }
  destruct l1 as [|b1 l2]; [by exists []|]. cbn [length] in Hn. destruct (is_ws2 b1 b0).
  { destruct (IH l2 ltac:(lia)) as [p Hp]. exists (b0 :: b1 :: p). by rewrite Hp at 1. }
  destruct l2 as [|b2 l3]; [by exists []|]. cbn [length] in Hn.
  destruct (is_ws3 b2 b1 b0); [|by exists []].
  destruct (IH l3 ltac:(lia)) as [p Hp]. exists (b0 :: b1 :: b2 :: p). by rewrite Hp at 1.
Qed.

Lemma trim_start_length l : (length (trim_start l) <= length l)%nat.
Proof.
  destruct (trim_start_suffix_aux (S (length l)) l ltac:(lia)) as [p Hp].
  rewrite Hp at 2. rewrite length_app. lia.
Qed.

Lemma trim_end_length l : (length (trim_end_rev l) <= length l)%nat.
Proof.
  destruct (trim_end_suffix_aux (S (length l)) l ltac:(lia)) as [p Hp].
  rewrite Hp at 2. rewrite length_app. lia.
Qed.

Lemma trim_start_idem_aux n l : (length l < n)%nat -> trim_start (trim_start l) = trim_start l.
Proof.
  revert l. induction n as [|n IH]; intros l Hn; [lia|].
  destruct l as [|b0 l1]; [done|]. cbn [length] in Hn. cbn [trim_start].
  destruct (is_ws1 b0) eqn:H1; [apply IH; lia|].
  destruct l1 as [|b1 l2]; [cbn; by rewrite H1|]. cbn [length] in Hn.
  destruct (is_ws2 b0 b1) eqn:H2; [apply IH; lia|].
  destruct l2 as [|b2 l3]; [cbn; by rewrite H1, H2|]. cbn [length] in Hn.
  destruct (is_ws3 b0 b1 b2) eqn:H3; [apply IH; lia|].
  cbn [trim_start]. by rewrite H1, H2, H3.
Qed.

Lemma trim_end_idem_aux n l : (length l < n)%nat -> trim_end_rev (trim_end_rev l) = trim_end_rev l.
Proof.
  revert l. induction n as [|n IH]; intros l Hn; [lia|].
  destruct l as [|b0 l1]; [done|]. cbn [length] in Hn. cbn [trim_end_rev].
  destruct (is_ws1 b0) eqn:H1; [apply IH; lia|].
  destruct l1 as [|b1 l2]; [cbn; by rewrite H1|]. cbn [length] in Hn.
  destruct (is_ws2 b1 b0) eqn:H2; [apply IH; lia|].
  destruct l2 as [|b2 l3]; [cbn; by rewrite H1, H2|]. cbn [length] in Hn.
  destruct (is_ws3 b2 b1 b0) eqn:H3; [apply IH; lia|].
  cbn [trim_end_rev]. by rewrite H1, H2, H3.
Qed.

(** A part from the front of a text without leading white space has none either. *)
Lemma trim_start_prefix l k : trim_start (l ++ k) = l ++ k -> trim_start l = l.
Proof.
  destruct l as [|b0 l]; [done|]. cbn [app trim_start].
  destruct (is_ws1 b0).
  { intros H. apply (f_equal length) in H. pose proof (trim_start_length (l ++ k)). cbn in H. lia. }
  destruct l as [|b1 l]; [done|]. cbn [app]. destruct (is_ws2 b0 b1).
  { intros H. apply (f_equal length) in H. pose proof (trim_start_length (l ++ k)). cbn in H. lia. }
  destruct l as [|b2 l]; [done|]. cbn [app]. destruct (is_ws3 b0 b1 b2); [|done].
  intros H. apply (f_equal length) in H. pose proof (trim_start_length (l ++ k)). cbn in H. lia.
Qed.

Lemma trim_bytes_idem l : trim_bytes (trim_bytes l) = trim_bytes l.
Proof.
  unfold trim_bytes. set (m := trim_start l).
  assert (Hm : trim_start m = m) by (apply (trim_start_idem_aux (S (length l))); lia).
  destruct (trim_end_suffix_aux (S (length (rev m))) (rev m) ltac:(lia)) as [p Hp].
  set (e := trim_end_rev (rev m)) in *.
  assert (Hme : m = rev e ++ rev p) by (rewrite <- rev_app_distr, <- Hp; by rewrite rev_involutive).
  rewrite Hme in Hm. rewrite (trim_start_prefix _ _ Hm), rev_involutive.
  f_equal. by apply (trim_end_idem_aux (S (length (rev m)))); lia.
Qed.

Lemma trim_bytes_ok l : bytes_ok l -> bytes_ok (trim_bytes l).
Proof.
  intros H. unfold trim_bytes. set (m := trim_start l).
  destruct (trim_start_suffix_aux (S (length l)) l ltac:(lia)) as [p Hp]. fold m in Hp.
  destruct (trim_end_suffix_aux (S (length (rev m))) (rev m) ltac:(lia)) as [q Hq].
  apply Forall_rev. rewrite Hp in H. apply Forall_app in H as [_ H]. apply Forall_rev in H.
  rewrite Hq in H. by apply Forall_app in H as [_ H].
Qed.

Lemma as_bytes_trim s : as_bytes (trim s) = trim_bytes (as_bytes s).
Proof. unfold trim. apply as_bytes_of_string, trim_bytes_ok, as_bytes_ok. Qed.

Lemma trim_idem s : trim (trim s) = trim s.
Proof. unfold trim at 1. by rewrite as_bytes_trim, trim_bytes_idem. Qed.

Lemma trim_text s : is_text s -> is_text (trim s).
Proof. unfold is_text. rewrite as_bytes_trim. apply trim_bytes_valid. Qed.

(** ** Brackets *)

Lemma as_bytes_app s t : as_bytes (s +:+ t) = as_bytes s ++ as_bytes t.
Proof.
  induction s as [|a s IH]; [done|].
  change (byte_of_ascii a :: as_bytes (s +:+ t) = byte_of_ascii a :: as_bytes s ++ as_bytes t).
  by rewrite IH.
Qed.

Lemma bracket_ascii a : is_bracket a = true -> in_range 0 127 (byte_of_ascii a) = true.
Proof.
  unfold is_bracket. rewrite orb_true_iff, !Ascii.eqb_eq. by intros [-> | ->].
Qed.

Lemma trim_start_brackets_text s : is_text s -> is_text (trim_start_brackets s).
Proof.
  unfold is_text. induction s as [|a s IH]; intros H; [done|]. cbn [trim_start_brackets].
  destruct (is_bracket a) eqn:Ha; [|done]. apply IH. cbn [as_bytes utf8_valid] in H.
  by rewrite bracket_ascii in H.
Qed.

Lemma trim_end_brackets_suffix s :
  exists w, s = trim_end_brackets s +:+ w /\ starts_char (as_bytes w) = true.
Proof.
  induction s as [|a s [w [IH Hw]]]; [by exists ""|]. cbn [trim_end_brackets].
  destruct (trim_end_brackets s) as [|c t] eqn:Ht.
  - destruct (is_bracket a) eqn:Ha.
    + exists (String a s). split; [done|]. cbn. pose proof (bracket_ascii a Ha) as H.
      unfold in_range in H. unfold is_continuation, in_range. lia.
    + exists w. split; [by rewrite IH at 1|done].
  - exists w. split; [by rewrite IH at 1|done].
Qed.

Lemma trim_brackets_text s : is_text s -> is_text (trim_brackets s).
Proof.
  intros H. apply trim_start_brackets_text in H. unfold trim_brackets.
  destruct (trim_end_brackets_suffix (trim_start_brackets s)) as (w & Hw & Hs).
  unfold is_text in *. rewrite Hw, as_bytes_app in H. by eapply utf8_valid_cut.
Qed.

(** ** The last separator *)

Fixpoint has_char (c : Ascii.ascii) (s : string) : bool :=
  match s with EmptyString => false | String a s' => Ascii.eqb a c || has_char c s' end.

Lemma rsplit_once_none c s : has_char c s = false -> rsplit_once c s = None.
Proof.
  induction s as [|a s IH]; [done|]. cbn. rewrite orb_false_iff. intros [-> H]. by rewrite IH.
Qed.

Lemma rsplit_once_last c s t :
  has_char c t = false -> rsplit_once c (s +:+ String c t) = Some (s, t).
Proof.
  intros Ht. induction s as [|a s IH].
  - change ((match rsplit_once c t with
             | Some (before, after) => Some (String c before, after)
             | None => if Ascii.eqb c c then Some (EmptyString, t) else None
             end) = Some (EmptyString, t)).
    by rewrite rsplit_once_none, Ascii.eqb_refl.
  - change (String a s +:+ String c t) with (String a (s +:+ String c t)). cbn [rsplit_once].
    by rewrite IH.
Qed.

(** ** Decimal numbers *)

(** What the digit of [d] is. *)
Lemma digit_char_spec d :
  0 <= d < 10 ->
  to_digit 10 (digit_char d) = Some d /\ Ascii.eqb (digit_char d) ":"%char = false /\
  Ascii.eqb (digit_char d) "+"%char = false /\ in_range 0 127 (byte_of_ascii (digit_char d)) = true.
Proof.
  intros Hd.
  assert (d = 0 \/ d = 1 \/ d = 2 \/ d = 3 \/ d = 4 \/ d = 5 \/ d = 6 \/ d = 7 \/ d = 8 \/ d = 9)
    as Hc by lia.
  by destruct_or! Hc; subst d.
Qed.

Lemma digits_acc_value fuel n acc :
  0 <= n <= u16_max -> n < 10 ^ Z.of_nat fuel ->
  decimal_value 0 (digits_acc fuel 10 n acc) = decimal_value n acc.
Proof.
  revert n acc. induction fuel as [|fuel IH]; intros n acc Hn Hf.
  { change (10 ^ Z.of_nat 0) with 1 in Hf. by replace n with 0 by lia. }
  rewrite Nat2Z.inj_succ, Z.pow_succ_r in Hf by lia. cbn [digits_acc].
  pose proof (Z.div_mod n 10 ltac:(lia)). pose proof (Z.mod_pos_bound n 10 ltac:(lia)).
  destruct (digit_char_spec (n mod 10)) as (Hd & _); [done|].
  assert (Hq : decimal_value (n / 10) (String (digit_char (n mod 10)) acc) = decimal_value n acc).
  { cbn [decimal_value]. rewrite Hd. replace (n / 10 * 10 + n mod 10) with n by lia.
    by replace (_ <? _) with false by lia. }
  destruct (Z.eqb_spec (n / 10) 0) as [E|_]; [by rewrite E in Hq|].
  rewrite IH; [done| |]; [split; [apply Z.div_pos|]; lia|]. apply Z.div_lt_upper_bound; lia.
Qed.

Lemma digits_acc_chars fuel n acc :
  0 <= n -> has_char ":"%char (digits_acc fuel 10 n acc) = has_char ":"%char acc /\
  (is_text acc -> is_text (digits_acc fuel 10 n acc)).
Proof.
  revert n acc. induction fuel as [|fuel IH]; intros n acc Hn; [done|]. cbn [digits_acc].
  destruct (digit_char_spec (n mod 10)) as (_ & Hc & _ & Ha); [apply Z.mod_pos_bound; lia|].
  assert (Hacc : has_char ":"%char (String (digit_char (n mod 10)) acc) = has_char ":"%char acc)
    by (cbn; by rewrite Hc).
  assert (Ht : is_text acc -> is_text (String (digit_char (n mod 10)) acc)).
  { unfold is_text. cbn [as_bytes utf8_valid]. by rewrite Ha. }
  case_match; [done|]. destruct (IH (n / 10) (String (digit_char (n mod 10)) acc)) as [H1 H2].
  { apply Z.div_pos; lia. } rewrite H1. auto.
Qed.

(** The first character is a digit. *)
Lemma digits_acc_head fuel n acc :
  0 <= n -> (0 < fuel)%nat ->
  exists d t, 0 <= d < 10 /\ digits_acc fuel 10 n acc = String (digit_char d) t.
Proof.
  revert n acc. induction fuel as [|fuel IH]; intros n acc Hn Hf; [lia|]. cbn [digits_acc].
  pose proof (Z.mod_pos_bound n 10 ltac:(lia)). pose proof (Z.div_pos n 10 ltac:(lia) ltac:(lia)).
  case_match; [by eauto|]. destruct fuel as [|fuel]; [cbn; by eauto|]. apply IH; lia.
Qed.

(** The text of a port reads back, and has no colon. *)
Lemma port_text v :
  is_u16 v ->
  parse_u16 (to_decimal v) = Some v /\ has_char ":"%char (to_decimal v) = false /\
  is_text (to_decimal v).
Proof.
  intros Hv. unfold is_u16 in Hv. unfold to_decimal.
  destruct (digits_acc_chars 128 v "" ltac:(lia)) as [Hc Ht]. split_and!; [|done|by apply Ht].
  assert (Hbig : v < 10 ^ Z.of_nat 128).
  { apply Z.lt_le_trans with (10 ^ 5); [lia|]. apply Z.pow_le_mono_r; lia. }
  pose proof (digits_acc_value 128 v "" ltac:(unfold u16_max; lia) Hbig) as Hval.
  destruct (digits_acc_head 128 v "" ltac:(lia) ltac:(lia)) as (d & t & Hd & E).
  rewrite E in *. destruct (digit_char_spec d Hd) as (_ & _ & Hp & _).
  unfold parse_u16. destruct (digit_char d) as [[] [] [] [] [] [] [] []]; done.
Qed.

(** ** Addresses read are in range *)

Lemma to_digit_nonneg radix a d : to_digit radix a = Some d -> 0 <= d.
Proof.
  unfold to_digit, in_range. intros H. repeat case_match; simplify_eq; lia.
Qed.

Lemma read_digits_nonneg radix max v c s v' c' s' :
  0 <= radix -> 0 <= v -> read_digits radix max v c s = Some (v', c', s') -> 0 <= v'.
Proof.
  intros Hr. revert v c. induction s as [|a s IH]; intros v c Hv; cbn.
  { by intros [= <- _ _]. }
  destruct (to_digit radix a) as [d|] eqn:Hd; [|by intros [= <- _ _]].
  case_match; [done|]. apply IH. apply to_digit_nonneg in Hd. nia.
Qed.

Lemma read_number_range radix max limit zero s v s' :
  0 <= radix -> read_number radix max limit zero s = Some (v, s') -> 0 <= v <= limit.
Proof.
  intros Hr. unfold read_number.
  destruct (read_digits radix max 0 0 s) as [[[w c] r]|] eqn:H; [|done].
  apply read_digits_nonneg in H; [|lia..]. repeat case_match; try done. intros [= <- _]. lia.
Qed.

Lemma read_separator_range {A} (P : A -> Prop) sep i (reader : string -> option (A * string)) s a s' :
  (forall t b t', reader t = Some (b, t') -> P b) ->
  read_separator sep i reader s = Some (a, s') -> P a.
Proof. intros H. unfold read_separator. repeat case_match; try done; apply H. Qed.

Lemma read_octet_range i s v s' : read_octet i s = Some (v, s') -> is_u8 v.
Proof.
  apply (read_separator_range is_u8). intros t b t' H. apply read_number_range in H; [|lia].
  unfold is_u8. lia.
Qed.

Lemma read_ipv4_range s a s' : read_ipv4_addr s = Some (a, s') -> 0 <= a < 2 ^ 32.
Proof.
  unfold read_ipv4_addr.
  destruct (read_octet 0 s) as [[b0 s1]|] eqn:H0; [|done].
  destruct (read_octet 1 s1) as [[b1 s2]|] eqn:H1; [|done].
  destruct (read_octet 2 s2) as [[b2 s3]|] eqn:H2; [|done].
  destruct (read_octet 3 s3) as [[b3 s4]|] eqn:H3; [|done].
  intros [= <- <-]. apply (from_be_bytes_bound [b0; b1; b2; b3]).
  repeat (apply Forall_cons_2; [by eapply read_octet_range|]). apply Forall_nil_2.
Qed.

Lemma read_groups_range left i s gs b s' :
  read_groups left i s = (gs, b, s') ->
  Forall is_u16 gs /\ (length gs <= left)%nat.
Proof.
  revert i s gs b s'. induction left as [|left IH]; intros i s gs b s'; cbn [read_groups].
  { intros [= <- _ _]. split; [done|cbn; lia]. }
  destruct (if (0 <? left)%nat then _ else None) as [[a r]|] eqn:Hv4.
  - intros [= <- _ _]. destruct (Nat.ltb_spec 0 left); [|done].
    apply (read_separator_range (fun a => 0 <= a < 2 ^ 32)) in Hv4; [|apply read_ipv4_range].
    unfold is_u16. split; [|cbn; lia]. repeat constructor.
    + apply Z.div_pos; lia.
    + apply Z.div_lt_upper_bound; lia.
    + apply Z.mod_pos_bound; lia.
    + apply Z.mod_pos_bound; lia.
  - destruct (read_separator _ i (read_number 16 4 65535 true) s) as [[g r]|] eqn:Hg;
      [|intros [= <- _ _]; split; [done|cbn; lia]].
    apply (read_separator_range is_u16) in Hg;
      [|intros t v t' H; apply read_number_range in H; unfold is_u16; lia].
    destruct (read_groups left (S i) r) as [[gs' b'] r'] eqn:Hrec. intros [= <- _ _].
    apply IH in Hrec as [H1 H2]. split; [by constructor|cbn; lia].
Qed.

Lemma from_segments_range segs :
  Forall is_u16 segs -> 0 <= from_segments segs < 65536 ^ len segs.
Proof.
  unfold from_segments. intros H.
  assert (G : forall acc, 0 <= acc ->
    acc * 65536 ^ len segs <= fold_left (fun acc g => acc * 65536 + g) segs acc
    < (acc + 1) * 65536 ^ len segs).
  { induction H as [|g segs Hg _ IH]; intros acc Hacc; [unfold len; cbn; lia|].
    unfold is_u16 in Hg. rewrite len_cons, Z.pow_add_r by (pose proof (len_nonneg segs); lia).
    cbn [fold_left]. specialize (IH (acc * 65536 + g) ltac:(lia)).
    assert (0 < 65536 ^ len segs) by (apply Z.pow_pos_nonneg; [lia|apply len_nonneg]). nia. }
  specialize (G 0 ltac:(lia)). lia.
Qed.

Lemma read_ipv6_range s a s' : read_ipv6_addr s = Some (a, s') -> 0 <= a < 2 ^ 128.
Proof.
  unfold read_ipv6_addr. destruct (read_groups 8 0 s) as [[head v4] s1] eqn:Hh.
  apply read_groups_range in Hh as [Hh Hl].
  destruct (Nat.eqb_spec (length head) 8) as [E|E].
  { intros [= <- _]. apply from_segments_range in Hh. unfold len in Hh. by rewrite E in Hh. }
  destruct v4; [done|]. repeat (case_match; [|done]).
  destruct (read_groups _ 0 _) as [[tail b] s4] eqn:Ht. apply read_groups_range in Ht as [Ht Hlt].
  intros [= <- _]. set (segs := head ++ _).
  assert (Hs : Forall is_u16 segs).
  { apply Forall_app. split; [done|]. apply Forall_app. split; [|done].
    apply Forall_replicate. unfold is_u16. lia. }
  apply from_segments_range in Hs. replace (len segs) with 8 in Hs; [done|].
  unfold segs, len. rewrite !length_app, length_replicate. lia.
Qed.

Lemma parse_ipv4_range s a : parse_ipv4 s = Some a -> 0 <= a < 2 ^ 32.
Proof.
  unfold parse_ipv4. destruct (read_ipv4_addr s) as [[v t]|] eqn:H; [|done].
  destruct t; [|done]. intros [= <-]. by eapply read_ipv4_range.
Qed.

Lemma parse_ipv6_range s a : parse_ipv6 s = Some a -> 0 <= a < 2 ^ 128.
Proof.
  unfold parse_ipv6. destruct (read_ipv6_addr s) as [[v t]|] eqn:H; [|done].
  destruct t; [|done]. intros [= <-]. by eapply read_ipv6_range.
Qed.
