(* ===== verification/Profile.v ===== *)
(** * Outbound profiles

    [crates/keli-protocol/src/lib.rs], lines 38 to 306: the description of an outbound
    and its validation. *)

From Stdlib Require Import Ascii.
From stdpp Require Import base strings list numbers.
From S2P Require Import Prelude.
From S2P Require Import StdIo.
#[local] Open Scope Z_scope.

Inductive ProxyProtocol : Type :=
| Trojan
| Vmess
| Vless
| Naive
| Mieru
| Hy2
| Shadowsocks
| AnyTls
| Tuic
| Socks
| Http.

Inductive TransportKind : Type :=
| Transport_Tcp
| Transport_WebSocket (path : string) (host : option string)
| Transport_HttpUpgrade (path : string) (host : option string)
| Transport_Http2 (path : string) (host : option string)
| Transport_Grpc (service_name : option string)
| Transport_Quic (security key header_type : option string).

Inductive SecurityKind : Type :=
| Security_None
| Security_Tls (sni : option string) (skip_verify : bool).

Record Endpoint : Type := mkEndpoint { ep_host : string; ep_port : Z }.

Record OutboundProfile : Type := mkOutboundProfile {
  profile_tag : string;
  profile_protocol : ProxyProtocol;
  profile_endpoint : Endpoint;
  profile_transport : TransportKind;
  profile_security : SecurityKind;
  profile_credential : string;
  profile_cipher : option string;
  profile_flow : option string
}.

Inductive ProtocolValidationError : Type :=
| MissingTag
| MissingServer
| MissingCredential (protocol : ProxyProtocol)
| MissingTls
| Validation_InvalidUuid
| InvalidVmessTransport
| InvalidNaiveCredential
| InvalidNaiveTransport
| InvalidMieruCredential
| InvalidMieruTransport
| InvalidWebSocketPath
| InvalidHttpUpgradePath
| InvalidHttp2Path
| InvalidHy2Transport
| InvalidTuicCredential
| InvalidTuicTransport
| MissingShadowsocksCipher
| InvalidShadowsocksCipher
| InvalidShadowsocksTransport
| InvalidAnyTlsTransport
| InvalidSocksTransport
| InvalidHttpTransport.

(** ** Credentials *)

(** [u8::is_ascii_hexdigit]. *)
Definition is_ascii_hexdigit (b : Z) : bool :=
  in_range 48 57 b || in_range 97 102 b || in_range 65 70 b.

(** The loop over the bytes, from index [i]. *)
Fixpoint uuid_bytes_ok (i : nat) (bytes : list Z) : bool :=
  match bytes with
  | [] => true
  | byte :: bytes' =>
      (match i with
       | 8%nat | 13%nat | 18%nat | 23%nat => byte =? 45
       | _ => is_ascii_hexdigit byte
       end) && uuid_bytes_ok (S i) bytes'
  end.

Definition looks_like_uuid (value : string) : bool :=
  let bytes := as_bytes value in
  (len bytes =? 36) && uuid_bytes_ok 0 bytes.

Definition is_tuic_credential (value : string) : bool :=
  match split_once ":"%char value with
  | None => false
  | Some (uuid, password) =>
      looks_like_uuid (trim uuid) && negb (String.eqb (trim password) "")
  end.

Definition is_user_password_credential (value : string) : bool :=
  match split_once ":"%char value with
  | None => false
  | Some (username, password) =>
      negb (String.eqb (trim username) "") && negb (String.eqb (trim password) "")
  end.

Definition is_supported_shadowsocks_aead_cipher (cipher : string) : bool :=
  let cipher := to_ascii_lowercase cipher in
  String.eqb cipher "aes-128-gcm" || String.eqb cipher "aes-256-gcm"
  || String.eqb cipher "chacha20-ietf-poly1305".

(** ** Validation *)

(** [self.cipher.as_deref().map(str::trim).filter(|value| !value.is_empty())]. *)
Definition given_cipher (cipher : option string) : option string :=
  match cipher with
  | Some value => if String.eqb (trim value) "" then None else Some (trim value)
  | None => None
  end.

Definition check_path (path : string) (error : ProtocolValidationError)
  : result ProtocolValidationError unit :=
  if starts_with path "/" then Ok tt else Err error.

(** The [match] on protocol, transport and security; the arms of one protocol are
    grouped. *)
Definition validate_layers (protocol : ProxyProtocol) (transport : TransportKind)
  (security : SecurityKind) (credential : string) (cipher : option string)
  : result ProtocolValidationError unit :=
  match protocol with
  | Trojan =>
      match transport with
      | Transport_WebSocket path _ => check_path path InvalidWebSocketPath
      | Transport_HttpUpgrade path _ => check_path path InvalidHttpUpgradePath
      | Transport_Http2 path _ => check_path path InvalidHttp2Path
      | Transport_Quic _ _ _ | Transport_Grpc _ => Ok tt
      | Transport_Tcp =>
          match security with Security_Tls _ _ => Ok tt | Security_None => Err MissingTls end
      end
  | Vmess =>
      if negb (looks_like_uuid credential) then Err Validation_InvalidUuid
      else
        match transport with
        | Transport_Tcp => Ok tt
        | Transport_WebSocket path _ => check_path path InvalidWebSocketPath
        | Transport_HttpUpgrade path _ => check_path path InvalidHttpUpgradePath
        | Transport_Http2 path _ => check_path path InvalidHttp2Path
        | Transport_Quic _ _ _ | Transport_Grpc _ => Ok tt
        end
  | Vless =>
      if negb (looks_like_uuid credential) then Err Validation_InvalidUuid
      else
        match transport with
        | Transport_HttpUpgrade path _ => check_path path InvalidHttpUpgradePath
        | Transport_Http2 path _ => check_path path InvalidHttp2Path
        | _ => Ok tt
        end
  | Naive =>
      if negb (is_user_password_credential credential) then Err InvalidNaiveCredential
      else
        match transport, security with
        | (Transport_Tcp | Transport_Quic _ _ _), Security_Tls _ _ => Ok tt
        | _, Security_None => Err MissingTls
        | _, _ => Err InvalidNaiveTransport
        end
  | Mieru =>
      if negb (is_user_password_credential credential) then Err InvalidMieruCredential
      else
        match transport, security with
        | Transport_Tcp, Security_None => Ok tt
        | _, _ => Err InvalidMieruTransport
        end
  | Hy2 =>
      match transport, security with
      | Transport_Quic _ _ _, Security_Tls _ _ => Ok tt
      | _, _ => Err InvalidHy2Transport
      end
  | Tuic =>
      match transport, security with
      | Transport_Quic _ _ _, Security_Tls _ _ =>
          if is_tuic_credential credential then Ok tt else Err InvalidTuicCredential
      | _, _ => Err InvalidTuicTransport
      end
  | Shadowsocks =>
      match transport, security with
      | Transport_Tcp, Security_None =>
          cipher <-? ok_or MissingShadowsocksCipher (given_cipher cipher);
          if is_supported_shadowsocks_aead_cipher cipher then Ok tt
          else Err InvalidShadowsocksCipher
      | _, _ => Err InvalidShadowsocksTransport
      end
  | AnyTls =>
      match transport, security with
      | Transport_Tcp, Security_Tls _ _ => Ok tt
      | _, Security_None => Err MissingTls
      | _, _ => Err InvalidAnyTlsTransport
      end
  | Socks =>
      match transport, security with
      | Transport_Tcp, Security_None => Ok tt
      | _, _ => Err InvalidSocksTransport
      end
  | Http =>
      match transport, security with
      | Transport_Tcp, Security_None => Ok tt
      | _, _ => Err InvalidHttpTransport
      end
  end.

(** [matches!(self.protocol, ProxyProtocol::Socks | ProxyProtocol::Http)]. *)
Definition needs_no_credential (protocol : ProxyProtocol) : bool :=
  match protocol with Socks | Http => true | _ => false end.

Definition validate (self : OutboundProfile) : result ProtocolValidationError unit :=
  if String.eqb (trim (profile_tag self)) "" then Err MissingTag
  else if String.eqb (trim (ep_host (profile_endpoint self))) "" then Err MissingServer
  else if String.eqb (trim (profile_credential self)) ""
          && negb (needs_no_credential (profile_protocol self))
  then Err (MissingCredential (profile_protocol self))
  else
    validate_layers (profile_protocol self) (profile_transport self) (profile_security self)
      (profile_credential self) (profile_cipher self).
