(* ===== verification/Codec.v ===== *)
(** * Wire formats of the outbound protocols

    [crates/keli-protocol/src/lib.rs], lines 1393 to 2061: the request headers of VLESS,
    Trojan and Shadowsocks, the messages of Hysteria 2 and TUIC, and the variable-length
    integers of QUIC. SHA-224 is a parameter. *)

From Stdlib Require Import Ascii.
From stdpp Require Import base strings list numbers.
From S2P Require Import Prelude.
From S2P Require Import StdNet.
From S2P Require Import StdIo.
From S2P Require Import Profile.
#[local] Open Scope Z_scope.

Definition VLESS_VERSION : Z := 0.
Definition VLESS_COMMAND_TCP : Z := 1.
Definition VLESS_COMMAND_UDP : Z := 2.
Definition VLESS_ATYP_IPV4 : Z := 1.
Definition VLESS_ATYP_DOMAIN : Z := 2.
Definition VLESS_ATYP_IPV6 : Z := 3.
Definition TROJAN_COMMAND_CONNECT : Z := 1.
Definition TROJAN_COMMAND_UDP_ASSOCIATE : Z := 3.
Definition TROJAN_ATYP_IPV4 : Z := 1.
Definition TROJAN_ATYP_DOMAIN : Z := 3.
Definition TROJAN_ATYP_IPV6 : Z := 4.
Definition SHADOWSOCKS_ATYP_IPV4 : Z := 1.
Definition SHADOWSOCKS_ATYP_DOMAIN : Z := 3.
Definition SHADOWSOCKS_ATYP_IPV6 : Z := 4.
Definition TUIC_VERSION : Z := 5.
Definition TUIC_COMMAND_AUTHENTICATE : Z := 0.
Definition TUIC_COMMAND_CONNECT : Z := 1.
Definition TUIC_COMMAND_PACKET : Z := 2.
Definition TUIC_COMMAND_HEARTBEAT : Z := 4.
Definition TUIC_ATYP_NONE : Z := 255.
Definition TUIC_ATYP_DOMAIN : Z := 0.
Definition TUIC_ATYP_IPV4 : Z := 1.
Definition TUIC_ATYP_IPV6 : Z := 2.

Inductive ProtocolEncodingError : Type :=
| Encoding_InvalidUuid
| InvalidPassword
| InvalidTargetHost
| FlowTooLong
| PacketTooLong.

Inductive ProtocolDecodingError : Type :=
| Decoding_UnexpectedEof
| InvalidUtf8
| InvalidHy2Status (status : Z)
| InvalidEndpoint
| InvalidTuicVersion (version : Z)
| InvalidTuicCommand (command : Z)
| InvalidTuicAddressType (address_type : Z).

Record Hy2TcpResponse : Type := mkHy2TcpResponse { hy2_ok : bool; hy2_message : string }.

Record Hy2AuthRequest : Type := mkHy2AuthRequest {
  auth_method : string;
  auth_path : string;
  auth_host : string;
  auth_auth : string;
  auth_cc_rx : string;
  auth_padding : string
}.

Record Hy2UdpMessage : Type := mkHy2UdpMessage {
  hy2_session_id : Z;
  hy2_packet_id : Z;
  hy2_fragment_id : Z;
  hy2_fragment_count : Z;
  hy2_address : Endpoint;
  hy2_payload : list Z
}.

Record TuicPacketCommand : Type := mkTuicPacketCommand {
  tuic_associate_id : Z;
  tuic_packet_id : Z;
  tuic_fragment_total : Z;
  tuic_fragment_id : Z;
  tuic_source : Endpoint;
  tuic_payload : list Z
}.

(** ** Hexadecimal *)

(** [HEX[usize::from(nibble)]]. *)
Definition hex_char (nibble : Z) : Z := if nibble <? 10 then 48 + nibble else 87 + nibble.

Definition push_lower_hex (output : list Z) (byte : Z) : list Z :=
  output ++ [hex_char (Z.shiftr byte 4); hex_char (Z.land byte 15)].

Definition hex_nibble (byte : Z) : result ProtocolEncodingError Z :=
  if in_range 48 57 byte then Ok (byte - 48)
  else if in_range 97 102 byte then Ok (byte - 97 + 10)
  else if in_range 65 70 byte then Ok (byte - 65 + 10)
  else Err Encoding_InvalidUuid.

(** [for chunk in compact.chunks_exact(2) { output[index] = .. }]: sixteen pairs fill
    the array, which starts as zeros. *)
Fixpoint hex_pairs (compact : list Z) : result ProtocolEncodingError (list Z) :=
  match compact with
  | a :: b :: compact' =>
      high <-? hex_nibble a;
      low <-? hex_nibble b;
      rest <-? hex_pairs compact';
      Ok (Z.lor (Z.shiftl high 4) low :: rest)
  | _ => Ok []
  end.

Definition parse_uuid_bytes (value : string) : result ProtocolEncodingError (list Z) :=
  if negb (looks_like_uuid value) then Err Encoding_InvalidUuid
  else hex_pairs (filter (fun byte => byte <> 45) (as_bytes value)).

(** ** Targets *)

(** [host.trim().trim_matches(['[', ']'])]. *)
Definition bare_host (host : string) : string := trim_brackets (trim host).

(** [len > u8::MAX as usize] on the domain, or no domain at all. *)
Definition bad_domain (host : string) : bool :=
  String.eqb host "" || (u8_max <? len (as_bytes host)).

Definition encode_trojan_target (output : list Z) (target : Endpoint)
  : result ProtocolEncodingError (list Z) :=
  let host := bare_host (ep_host target) in
  match parse_ipv4 host with
  | Some ip => Ok (output ++ [TROJAN_ATYP_IPV4] ++ v4_octets ip ++ to_be_bytes 2 (ep_port target))
  | None =>
      match parse_ipv6 host with
      | Some ip =>
          Ok (output ++ [TROJAN_ATYP_IPV6] ++ v6_octets ip ++ to_be_bytes 2 (ep_port target))
      | None =>
          if bad_domain host then Err InvalidTargetHost
          else
            Ok (output ++ [TROJAN_ATYP_DOMAIN] ++ [as_u8 (len (as_bytes host))] ++ as_bytes host
                ++ to_be_bytes 2 (ep_port target))
      end
  end.

Definition encode_shadowsocks_target (output : list Z) (target : Endpoint)
  : result ProtocolEncodingError (list Z) :=
  let host := bare_host (ep_host target) in
  match parse_ipv4 host with
  | Some ip =>
      Ok (output ++ [SHADOWSOCKS_ATYP_IPV4] ++ v4_octets ip ++ to_be_bytes 2 (ep_port target))
  | None =>
      match parse_ipv6 host with
      | Some ip =>
          Ok (output ++ [SHADOWSOCKS_ATYP_IPV6] ++ v6_octets ip ++ to_be_bytes 2 (ep_port target))
      | None =>
          if bad_domain host then Err InvalidTargetHost
          else
            Ok (output ++ [SHADOWSOCKS_ATYP_DOMAIN] ++ [as_u8 (len (as_bytes host))]
                ++ as_bytes host ++ to_be_bytes 2 (ep_port target))
      end
  end.

Definition encode_tuic_target (output : list Z) (target : Endpoint)
  : result ProtocolEncodingError (list Z) :=
  let host := bare_host (ep_host target) in
  match parse_ipv4 host with
  | Some ip => Ok (output ++ [TUIC_ATYP_IPV4] ++ v4_octets ip ++ to_be_bytes 2 (ep_port target))
  | None =>
      match parse_ipv6 host with
      | Some ip =>
          Ok (output ++ [TUIC_ATYP_IPV6] ++ v6_octets ip ++ to_be_bytes 2 (ep_port target))
      | None =>
          if bad_domain host then Err InvalidTargetHost
          else
            Ok (output ++ [TUIC_ATYP_DOMAIN] ++ [as_u8 (len (as_bytes host))] ++ as_bytes host
                ++ to_be_bytes 2 (ep_port target))
      end
  end.

Definition encode_vless_target (output : list Z) (target : Endpoint)
  : result ProtocolEncodingError (list Z) :=
  let output := output ++ to_be_bytes 2 (ep_port target) in
  let host := bare_host (ep_host target) in
  match parse_ipv4 host with
  | Some ip => Ok (output ++ [VLESS_ATYP_IPV4] ++ v4_octets ip)
  | None =>
      match parse_ipv6 host with
      | Some ip => Ok (output ++ [VLESS_ATYP_IPV6] ++ v6_octets ip)
      | None =>
          if bad_domain host then Err InvalidTargetHost
          else Ok (output ++ [VLESS_ATYP_DOMAIN] ++ [as_u8 (len (as_bytes host))] ++ as_bytes host)
      end
  end.

(** ** VLESS *)

Definition encode_vless_addon (output : list Z) (flow : string)
  : result ProtocolEncodingError (list Z) :=
  let flow := trim flow in
  if String.eqb flow "" then Ok (output ++ [0])
  else if u8_max - 2 <? len (as_bytes flow) then Err FlowTooLong
  else
    Ok (output ++ [as_u8 (2 + len (as_bytes flow)); 10; as_u8 (len (as_bytes flow))]
        ++ as_bytes flow).

Definition encode_vless_tcp_request_header (uuid : string) (target : Endpoint)
  (flow : option string) : result ProtocolEncodingError (list Z) :=
  user_id <-? parse_uuid_bytes uuid;
  header <-? encode_vless_addon ([VLESS_VERSION] ++ user_id) (default "" flow);
  encode_vless_target (header ++ [VLESS_COMMAND_TCP]) target.

Definition encode_vless_udp_request_header (uuid : string) (target : Endpoint)
  : result ProtocolEncodingError (list Z) :=
  user_id <-? parse_uuid_bytes uuid;
  header <-? encode_vless_addon ([VLESS_VERSION] ++ user_id) "";
  encode_vless_target (header ++ [VLESS_COMMAND_UDP]) target.

(** ** Trojan *)

Section TrojanHeader.
Context (sha224 : list Z -> list Z).

Definition encode_trojan_password_hash (output : list Z) (password : string) : list Z :=
  fold_left push_lower_hex (sha224 (as_bytes password)) output.

Definition encode_trojan_tcp_request_header (password : string) (target : Endpoint)
  : result ProtocolEncodingError (list Z) :=
  if String.eqb password "" then Err InvalidPassword
  else
    let header := encode_trojan_password_hash [] password in
    header <-? encode_trojan_target (header ++ [13; 10] ++ [TROJAN_COMMAND_CONNECT]) target;
    Ok (header ++ [13; 10]).

Definition encode_trojan_udp_request_header (password : string) (target : Endpoint)
  : result ProtocolEncodingError (list Z) :=
  if String.eqb password "" then Err InvalidPassword
  else
    let header := encode_trojan_password_hash [] password in
    header <-? encode_trojan_target (header ++ [13; 10] ++ [TROJAN_COMMAND_UDP_ASSOCIATE]) target;
    Ok (header ++ [13; 10]).
End TrojanHeader.

Definition encode_trojan_udp_packet (target : Endpoint) (payload : list Z)
  : result ProtocolEncodingError (list Z) :=
  if u16_max <? len payload then Err PacketTooLong
  else
    packet <-? encode_trojan_target [] target;
    Ok (packet ++ to_be_bytes 2 (len payload) ++ [13; 10] ++ payload).

(** ** Shadowsocks *)

Definition encode_shadowsocks_tcp_request_header (target : Endpoint)
  : result ProtocolEncodingError (list Z) :=
  encode_shadowsocks_target [] target.

(** ** Integers of QUIC *)

Definition encode_quic_varint (output : list Z) (value : Z) : list Z :=
  if value <=? 63 then output ++ [as_u8 value]
  else if value <=? 16383 then output ++ to_be_bytes 2 (Z.lor 16384 (as_u16 value))
  else if value <=? 1073741823 then output ++ to_be_bytes 4 (Z.lor 2147483648 (as_u32 value))
  else output ++ to_be_bytes 8 (Z.lor 13835058055282163712 value).

Definition decode_quic_varint (input : list Z) (offset : Z)
  : result ProtocolDecodingError (Z * Z) :=
  match get_index input offset with
  | None => Err Decoding_UnexpectedEof
  | Some first =>
      let length := Z.shiftl 1 (Z.shiftr first 6) in
      let end_ := offset + length in
      if end_ <=? len input then
        bytes <-? slice input (offset + 1) end_;
        Ok (fold_left (fun value byte => Z.lor (Z.shiftl value 8) byte) bytes (Z.land first 63),
            length)
      else Err Decoding_UnexpectedEof
  end.

(** ** Readers

    A computation on the offset into the input. *)

Definition CodecM (A : Type) : Type := SM Z ProtocolDecodingError A.

Definition read_u8 (input : list Z) : CodecM Z :=
  offset <-! sm_get;
  byte <-! sm_lift (ok_or Decoding_UnexpectedEof (get_index input offset));
  do! sm_modify (fun offset => offset + 1);
  sm_ret byte.

Definition read_bytes (input : list Z) (amount : Z) : CodecM (list Z) :=
  offset <-! sm_get;
  let end_ := offset + amount in
  if end_ <=? len input then
    bytes <-! sm_lift (slice input offset end_);
    do! sm_modify (fun _ => end_);
    sm_ret bytes
  else sm_lift (Err Decoding_UnexpectedEof).

Definition read_u16 (input : list Z) : CodecM Z :=
  bytes <-! read_bytes input 2;
  b0 <-! sm_lift (index bytes 0); b1 <-! sm_lift (index bytes 1);
  sm_ret (from_be_bytes [b0; b1]).

Definition read_u32 (input : list Z) : CodecM Z :=
  bytes <-! read_bytes input 4;
  b0 <-! sm_lift (index bytes 0); b1 <-! sm_lift (index bytes 1);
  b2 <-! sm_lift (index bytes 2); b3 <-! sm_lift (index bytes 3);
  sm_ret (from_be_bytes [b0; b1; b2; b3]).

(** [let (value, consumed) = decode_quic_varint(input, offset)?; offset += consumed]. *)
Definition read_varint (input : list Z) : CodecM Z :=
  offset <-! sm_get;
  '(value, consumed) <-! sm_lift (decode_quic_varint input offset);
  do! sm_modify (fun offset => offset + consumed);
  sm_ret value.

(** ** Hysteria 2 *)

Definition build_hy2_auth_request (auth : string) (cc_rx : Z) (padding : string)
  : result ProtocolEncodingError Hy2AuthRequest :=
  if String.eqb (trim auth) "" then Err InvalidPassword
  else Ok (mkHy2AuthRequest "POST" "/auth" "hysteria" auth (to_decimal cc_rx) padding).

Definition is_hy2_auth_success_status (status : Z) : bool := status =? 233.

Definition encode_hy2_tcp_request (target : Endpoint) (padding : list Z)
  : result ProtocolEncodingError (list Z) :=
  if String.eqb (trim (ep_host target)) "" then Err InvalidTargetHost
  else
    let address := ep_host target +:+ ":" +:+ to_decimal (ep_port target) in
    let request := encode_quic_varint [] 1025 in
    let request := encode_quic_varint request (len (as_bytes address)) ++ as_bytes address in
    Ok (encode_quic_varint request (len padding) ++ padding).

Definition encode_hy2_udp_message (session_id packet_id fragment_id fragment_count : Z)
  (address : Endpoint) (payload : list Z) : result ProtocolEncodingError (list Z) :=
  if String.eqb (trim (ep_host address)) "" then Err InvalidTargetHost
  else
    let address := trim (ep_host address) +:+ ":" +:+ to_decimal (ep_port address) in
    let message :=
      to_be_bytes 4 session_id ++ to_be_bytes 2 packet_id ++ [fragment_id] ++ [fragment_count] in
    Ok (encode_quic_varint message (len (as_bytes address)) ++ as_bytes address ++ payload).

Definition parse_host_port_endpoint (value : string) : result ProtocolDecodingError Endpoint :=
  '(host, port) <-? ok_or InvalidEndpoint (rsplit_once ":"%char value);
  let host := trim_brackets (trim host) in
  if String.eqb host "" then Err InvalidEndpoint
  else
    port <-? ok_or InvalidEndpoint (parse_u16 port);
    Ok (mkEndpoint host port).

Definition decode_hy2_udp_body (input : list Z) : CodecM Hy2UdpMessage :=
  session_id <-! read_u32 input;
  packet_id <-! read_u16 input;
  fragment_id <-! read_u8 input;
  fragment_count <-! read_u8 input;
  address_len <-! read_varint input;
  address_bytes <-! read_bytes input address_len;
  address <-! sm_lift (ok_or InvalidUtf8 (from_utf8 address_bytes));
  address <-! sm_lift (parse_host_port_endpoint address);
  offset <-! sm_get;
  payload <-! sm_lift (slice input offset (len input));
  sm_ret (mkHy2UdpMessage session_id packet_id fragment_id fragment_count address payload).

Definition decode_hy2_udp_message (input : list Z)
  : result ProtocolDecodingError Hy2UdpMessage :=
  snd (decode_hy2_udp_body input 0).

(** The status byte, then the message and the padding, each after its length; the second
    component is the number of bytes consumed. *)
Definition decode_hy2_tcp_body (input : list Z) (ok : bool) : CodecM (Hy2TcpResponse * Z) :=
  message_len <-! read_varint input;
  message_bytes <-! read_bytes input message_len;
  message <-! sm_lift (ok_or InvalidUtf8 (from_utf8 message_bytes));
  padding_len <-! read_varint input;
  offset <-! sm_get;
  if offset + padding_len <=? len input
  then sm_ret (mkHy2TcpResponse ok message, offset + padding_len)
  else sm_lift (Err Decoding_UnexpectedEof).

Definition decode_hy2_tcp_response (input : list Z)
  : result ProtocolDecodingError (Hy2TcpResponse * Z) :=
  match input with
  | [] => Err Decoding_UnexpectedEof
  | status :: rest =>
      if status =? 0 then snd (decode_hy2_tcp_body input true (len input - len rest))
      else if status =? 1 then snd (decode_hy2_tcp_body input false (len input - len rest))
      else Err (InvalidHy2Status status)
  end.

(** ** TUIC *)

Definition encode_tuic_authenticate_command (uuid : string) (token : list Z)
  : result ProtocolEncodingError (list Z) :=
  uuid <-? parse_uuid_bytes uuid;
  Ok ([TUIC_VERSION] ++ [TUIC_COMMAND_AUTHENTICATE] ++ uuid ++ token).

Definition encode_tuic_connect_command (target : Endpoint)
  : result ProtocolEncodingError (list Z) :=
  encode_tuic_target ([TUIC_VERSION] ++ [TUIC_COMMAND_CONNECT]) target.

Definition encode_tuic_packet_command
  (associate_id packet_id fragment_total fragment_id : Z) (target : Endpoint)
  (payload : list Z) : result ProtocolEncodingError (list Z) :=
  if u16_max <? len payload then Err PacketTooLong
  else
    command <-? encode_tuic_target
      ([TUIC_VERSION] ++ [TUIC_COMMAND_PACKET] ++ to_be_bytes 2 associate_id
       ++ to_be_bytes 2 packet_id ++ [fragment_total] ++ [fragment_id]
       ++ to_be_bytes 2 (as_u16 (len payload))) target;
    Ok (command ++ payload).

Definition encode_tuic_heartbeat_command : list Z := [TUIC_VERSION; TUIC_COMMAND_HEARTBEAT].

Definition decode_tuic_target (input : list Z) : CodecM Endpoint :=
  address_type <-! read_u8 input;
  if address_type =? TUIC_ATYP_NONE then sm_ret (mkEndpoint "" 0)
  else if address_type =? TUIC_ATYP_DOMAIN then
    length <-! read_u8 input;
    domain <-! read_bytes input length;
    host <-! sm_lift (ok_or InvalidUtf8 (from_utf8 domain));
    port <-! read_u16 input;
    sm_ret (mkEndpoint host port)
  else if address_type =? TUIC_ATYP_IPV4 then
    bytes <-! read_bytes input 4;
    port <-! read_u16 input;
    sm_ret (mkEndpoint (v4_to_string (from_be_bytes bytes)) port)
  else if address_type =? TUIC_ATYP_IPV6 then
    bytes <-! read_bytes input 16;
    port <-! read_u16 input;
    sm_ret (mkEndpoint (v6_to_string (from_be_bytes bytes)) port)
  else sm_lift (Err (InvalidTuicAddressType address_type)).

Definition decode_tuic_packet_body (input : list Z) : CodecM TuicPacketCommand :=
  version <-! read_u8 input;
  if negb (version =? TUIC_VERSION) then sm_lift (Err (InvalidTuicVersion version))
  else
    command_type <-! read_u8 input;
    if negb (command_type =? TUIC_COMMAND_PACKET)
    then sm_lift (Err (InvalidTuicCommand command_type))
    else
      associate_id <-! read_u16 input;
      packet_id <-! read_u16 input;
      fragment_total <-! read_u8 input;
      fragment_id <-! read_u8 input;
      size <-! read_u16 input;
      source <-! decode_tuic_target input;
      offset <-! sm_get;
      if offset + size <=? len input then
        payload <-! sm_lift (slice input offset (offset + size));
        sm_ret (mkTuicPacketCommand associate_id packet_id fragment_total fragment_id source
                  payload)
      else sm_lift (Err Decoding_UnexpectedEof).

Definition decode_tuic_packet_command (input : list Z)
  : result ProtocolDecodingError TuicPacketCommand :=
  snd (decode_tuic_packet_body input 0).
