(* ===== verification/CodecSpec.v ===== *)
(** * Round trips of the outbound wire formats

    A reader consumes exactly the bytes of a value ([reads]); readers compose, so that
    the round trip of a message follows its layout. *)

From Stdlib Require Import Ascii.
From stdpp Require Import base strings list numbers.
From S2P Require Import Prelude.
From S2P Require Import StdNet.
From S2P Require Import StdIo.
From S2P Require Import StdText.
From S2P Require Import Profile.
From S2P Require Import Codec.
#[local] Open Scope Z_scope.

Lemma Ok_inj {E A} (a b : A) : @Ok E A a = Ok b -> a = b.
Proof. by intros [= ->]. Qed.

(** ** Readers *)

(** At the front of [bytes], wherever they are in the input, the reader gives [a] and
    moves behind them. *)
Definition reads {A} (m : list Z -> CodecM A) (bytes : list Z) (a : A) : Prop :=
  forall pre post, m (pre ++ bytes ++ post) (len pre) = (len (pre ++ bytes), Ok a).

Lemma reads_ret {A} (a : A) : reads (fun _ => sm_ret a) [] a.
Proof. intros pre post. unfold sm_ret. by rewrite app_nil_r. Qed.

Lemma reads_lift {A B} (r : result ProtocolDecodingError A) (k : A -> list Z -> CodecM B) bytes a b :
  r = Ok a -> reads (k a) bytes b ->
  reads (fun input => x <-! sm_lift r; k x input) bytes b.
Proof. intros -> H pre post. apply H. Qed.

Lemma reads_bind {A B} (m : list Z -> CodecM A) (k : A -> list Z -> CodecM B) b1 b2 a b :
  reads m b1 a -> reads (k a) b2 b ->
  reads (fun input => x <-! m input; k x input) (b1 ++ b2) b.
Proof.
  intros Hm Hk pre post. unfold sm_bind. rewrite <- app_assoc, Hm, app_assoc, Hk.
  by rewrite <- !app_assoc.
Qed.

Lemma reads_u8 b : reads read_u8 [b] b.
Proof.
  intros pre post. unfold read_u8, sm_bind, sm_get, sm_lift, sm_modify, sm_ret.
  cbn [app]. rewrite get_index_app_mid by done. cbn [ok_or]. by rewrite len_app.
Qed.

Lemma reads_bytes n bytes : n = len bytes -> reads (fun input => read_bytes input n) bytes bytes.
Proof.
  intros -> pre post. unfold read_bytes, sm_bind, sm_get, sm_lift, sm_modify, sm_ret.
  pose proof (len_nonneg post). pose proof (len_nonneg pre). pose proof (len_nonneg bytes).
  rewrite !len_app. replace (_ <=? _) with true by lia.
  rewrite slice_ok by (rewrite ?len_app; lia). by rewrite sub_list_app_mid.
Qed.

Lemma reads_u16 v : is_u16 v -> reads read_u16 (to_be_bytes 2 v) v.
Proof.
  intros Hv pre post. unfold read_u16, sm_bind.
  rewrite (reads_bytes 2 (to_be_bytes 2 v) eq_refl pre post).
  pose proof (from_to_be_bytes_id 2 v Hv) as Hid.
  destruct (to_be_bytes_2_ex v) as (a & b & E). rewrite E in *.
  rewrite <- Hid. reflexivity.
Qed.

Lemma reads_u32 v : is_u32 v -> reads read_u32 (to_be_bytes 4 v) v.
Proof.
  intros Hv pre post. unfold read_u32, sm_bind.
  rewrite (reads_bytes 4 (to_be_bytes 4 v) eq_refl pre post).
  pose proof (from_to_be_bytes_id 4 v Hv) as Hid.
  destruct (to_be_bytes_4_ex v) as (a & b & c & d & E). rewrite E in *.
  rewrite <- Hid. reflexivity.
Qed.

(** ** Integers of QUIC *)

Lemma lor_shift_byte v b : 0 <= v -> is_u8 b -> Z.lor (Z.shiftl v 8) b = v * 256 + b.
Proof.
  intros Hv Hb. unfold is_u8 in Hb.
  assert (Hand : Z.land (Z.shiftl v 8) b = 0).
  { apply Z.bits_inj'. intros n Hn. rewrite Z.land_spec, Z.bits_0.
    destruct (Z.ltb_spec n 8); [by rewrite Z.shiftl_spec_low|].
    rewrite <- (Z.mod_small b (2 ^ 8)) by lia. by rewrite Z.mod_pow2_bits_high, andb_false_r by lia. }
  rewrite <- Z.lxor_lor, <- Z.add_nocarry_lxor by done. by rewrite Z.shiftl_mul_pow2.
Qed.

Lemma fold_lor_bytes bytes v :
  0 <= v -> bytes_ok bytes ->
  fold_left (fun value byte => Z.lor (Z.shiftl value 8) byte) bytes v
  = v * 256 ^ len bytes + from_be_bytes bytes.
Proof.
  intros Hv Hok. revert v Hv. induction Hok as [|b l Hb Hok IH]; intros v Hv; cbn [fold_left].
  - change (len []) with 0. unfold from_be_bytes. cbn. lia.
  - rewrite lor_shift_byte by done. unfold is_u8 in Hb. rewrite IH by lia.
    rewrite from_be_bytes_cons, len_cons, Z.pow_add_r by (pose proof (len_nonneg l); lia). lia.
Qed.

(** An integer of [1 + k] bytes with the tag in its two top bits. *)
Lemma reads_varint_tagged (k : nat) tag v :
  0 <= tag < 4 -> Z.shiftl 1 tag = 1 + Z.of_nat k -> 0 <= v < 64 * 256 ^ Z.of_nat k ->
  reads read_varint (to_be_bytes (S k) (tag * 64 * 256 ^ Z.of_nat k + v)) v.
Proof.
  intros Htag Hlen Hv pre post. set (x := tag * 64 * 256 ^ Z.of_nat k + v).
  assert (Hpow : 0 < 256 ^ Z.of_nat k) by (apply Z.pow_pos_nonneg; lia).
  assert (Hx : 0 <= x < 256 ^ Z.of_nat (S k)).
  { rewrite Nat2Z.inj_succ, Z.pow_succ_r by lia. unfold x. nia. }
  pose proof (from_to_be_bytes_id (S k) x Hx) as Hid. pose proof (to_be_bytes_ok (S k) x) as Hok.
  cbn [to_be_bytes] in *. set (b0 := (x / 256 ^ Z.of_nat k) mod 256) in *.
  set (rest := to_be_bytes k x) in *. apply Forall_cons_1 in Hok as [Hb0 Hok].
  assert (Hrest : len rest = Z.of_nat k) by apply len_to_be_bytes.
  rewrite from_be_bytes_cons, Hrest in Hid. pose proof (from_be_bytes_bound rest Hok) as Hr.
  rewrite Hrest in Hr. unfold is_u8 in Hb0.
  assert (Hq : b0 / 64 = tag) by (symmetry; apply Z.div_unique with (b0 - 64 * tag); unfold x in Hid; nia).
  unfold read_varint, sm_bind, sm_get, sm_lift, sm_modify, sm_ret, decode_quic_varint.
  cbn [app]. rewrite get_index_app_mid by done. rewrite Z.shiftr_div_pow2 by lia.
  change (2 ^ 6) with 64. rewrite Hq, Hlen.
  rewrite !len_app, !len_cons, len_app, Hrest. pose proof (len_nonneg post). pose proof (len_nonneg pre).
  replace (_ <=? _) with true by lia.
  replace (pre ++ b0 :: rest ++ post) with ((pre ++ [b0]) ++ rest ++ post) by (by rewrite <- app_assoc).
  rewrite slice_ok by (rewrite ?len_app, ?len_cons, ?len_nil; lia).
  rewrite sub_list_app_mid by (rewrite ?len_app, ?len_cons, ?len_nil; lia). cbn [result_bind].
  change 63 with (Z.ones 6). rewrite Z.land_ones by lia. change (2 ^ 6) with 64.
  rewrite fold_lor_bytes, Hrest by (done || (apply Z.mod_pos_bound; lia)).
  do 2 f_equal. pose proof (Z.div_mod b0 64 ltac:(lia)). unfold x in Hid. nia.
Qed.

Lemma encode_varint_app output v : encode_quic_varint output v = output ++ encode_quic_varint [] v.
Proof. unfold encode_quic_varint. by repeat case (_ <=? _). Qed.

Lemma lor_tag t n v : 0 <= v < 2 ^ n -> 0 <= n -> Z.lor (t * 2 ^ n) v = t * 2 ^ n + v.
Proof.
  intros Hv Hn. assert (Hand : Z.land (t * 2 ^ n) v = 0).
  { apply Z.bits_inj'. intros i Hi. rewrite Z.land_spec, Z.bits_0.
    destruct (Z.ltb_spec i n); [by rewrite Z.mul_pow2_bits_low|].
    rewrite <- (Z.mod_small v (2 ^ n)) by lia. by rewrite Z.mod_pow2_bits_high, andb_false_r by lia. }
  by rewrite <- Z.lxor_lor, <- Z.add_nocarry_lxor by done.
Qed.

Lemma reads_varint v : 0 <= v < 2 ^ 62 -> reads read_varint (encode_quic_varint [] v) v.
Proof.
  intros Hv. unfold encode_quic_varint, as_u8, as_u16, as_u32, u32_modulus. cbn [app].
  destruct (Z.leb_spec v 63).
  { pose proof (reads_varint_tagged 0 0 v ltac:(lia) eq_refl ltac:(cbn; lia)) as H'.
    cbn [to_be_bytes] in H'. change (256 ^ Z.of_nat 0) with 1 in H'. rewrite Z.div_1_r in H'.
    by replace (0 * 64 * 1 + v) with v in H' by lia. }
  destruct (Z.leb_spec v 16383).
  { rewrite Z.mod_small by lia. change 16384 with (1 * 2 ^ 14). rewrite lor_tag by lia.
    exact (reads_varint_tagged 1 1 v ltac:(lia) eq_refl ltac:(cbn; lia)). }
  destruct (Z.leb_spec v 1073741823).
  { rewrite Z.mod_small by lia. change 2147483648 with (2 * 2 ^ 30). rewrite lor_tag by lia.
    exact (reads_varint_tagged 3 2 v ltac:(lia) eq_refl ltac:(cbn; lia)). }
  change 13835058055282163712 with (3 * 2 ^ 62). rewrite lor_tag by lia.
  exact (reads_varint_tagged 7 3 v ltac:(lia) eq_refl ltac:(cbn; lia)).
Qed.

(** ** Decoding what was encoded *)

(** At the front of [bytes], with which the input ends, the reader gives [a]. *)
Definition decodes {A} (m : list Z -> CodecM A) (bytes : list Z) (a : A) : Prop :=
  forall pre, snd (m (pre ++ bytes) (len pre)) = Ok a.

Lemma decodes_bind {A B} (m : list Z -> CodecM A) (k : A -> list Z -> CodecM B) b1 b2 a b :
  reads m b1 a -> decodes (k a) b2 b ->
  decodes (fun input => x <-! m input; k x input) (b1 ++ b2) b.
Proof. intros Hm Hk pre. unfold sm_bind. rewrite Hm, app_assoc. apply Hk. Qed.

Lemma decodes_lift {A B} (r : result ProtocolDecodingError A) (k : A -> list Z -> CodecM B)
  bytes a b :
  r = Ok a -> decodes (k a) bytes b ->
  decodes (fun input => x <-! sm_lift r; k x input) bytes b.
Proof. intros -> H pre. apply H. Qed.

Lemma decodes_run {A} (m : list Z -> CodecM A) bytes a :
  decodes m bytes a -> snd (m bytes 0) = Ok a.
Proof. intros H. exact (H []). Qed.

Lemma from_utf8_text s : is_text s -> from_utf8 (as_bytes s) = Some s.
Proof. unfold is_text, from_utf8. intros ->. by rewrite string_of_as_bytes. Qed.

Lemma bare_host_text s : is_text s -> is_text (bare_host s).
Proof. intros H. by apply trim_brackets_text, trim_text. Qed.

Lemma encode_tuic_target_app output target :
  encode_tuic_target output target =
  result_map (fun bytes => output ++ bytes) (encode_tuic_target [] target).
Proof. unfold encode_tuic_target. repeat case_match; done. Qed.

(** The endpoint that a TUIC peer reads: the host without white space and brackets, an
    address in its canonical text. *)
Definition canonical_endpoint (target : Endpoint) : Endpoint :=
  let host := bare_host (ep_host target) in
  match parse_ipv4 host with
  | Some ip => mkEndpoint (v4_to_string ip) (ep_port target)
  | None =>
      match parse_ipv6 host with
      | Some ip => mkEndpoint (v6_to_string ip) (ep_port target)
      | None => mkEndpoint host (ep_port target)
      end
  end.

(** The port at the end of a target. *)
Lemma reads_port (f : Z -> Endpoint) port :
  is_u16 port ->
  reads (fun input => port <-! read_u16 input; sm_ret (f port)) (to_be_bytes 2 port) (f port).
Proof.
  intros Hp. rewrite <- (app_nil_r (to_be_bytes 2 port)).
  apply (reads_bind read_u16 _ _ _ port); [by apply reads_u16|apply reads_ret].
Qed.

Lemma reads_tuic_target target bytes :
  is_text (ep_host target) -> is_u16 (ep_port target) ->
  encode_tuic_target [] target = Ok bytes ->
  reads decode_tuic_target bytes (canonical_endpoint target).
Proof.
  intros Ht Hp. unfold encode_tuic_target, canonical_endpoint. cbn [app].
  apply bare_host_text in Ht. set (host := bare_host (ep_host target)) in *.
  destruct (parse_ipv4 host) as [ip|] eqn:H4.
  { intros [= <-]. apply (reads_bind read_u8 _ [TUIC_ATYP_IPV4] _ TUIC_ATYP_IPV4); [apply reads_u8|].
    cbn [Z.eqb Pos.eqb TUIC_ATYP_IPV4 TUIC_ATYP_NONE TUIC_ATYP_DOMAIN].
    apply (reads_bind (fun input => read_bytes input 4) _ (v4_octets ip) _ (v4_octets ip));
      [by apply reads_bytes|].
    unfold v4_octets. rewrite (from_to_be_bytes_id 4) by (by eapply parse_ipv4_range).
    by apply reads_port. }
  destruct (parse_ipv6 host) as [ip|] eqn:H6.
  { intros [= <-]. apply (reads_bind read_u8 _ [TUIC_ATYP_IPV6] _ TUIC_ATYP_IPV6); [apply reads_u8|].
    cbn [Z.eqb Pos.eqb TUIC_ATYP_IPV6 TUIC_ATYP_IPV4 TUIC_ATYP_NONE TUIC_ATYP_DOMAIN].
    apply (reads_bind (fun input => read_bytes input 16) _ (v6_octets ip) _ (v6_octets ip));
      [by apply reads_bytes|].
    unfold v6_octets. rewrite (from_to_be_bytes_id 16) by (by eapply parse_ipv6_range).
    by apply reads_port. }
  destruct (bad_domain host) eqn:Hbad; [done|]. intros [= <-].
  unfold bad_domain in Hbad. apply orb_false_iff in Hbad as [_ Hlen].
  pose proof (len_nonneg (as_bytes host)). unfold u8_max in Hlen.
  apply (reads_bind read_u8 _ [TUIC_ATYP_DOMAIN] _ TUIC_ATYP_DOMAIN); [apply reads_u8|].
  cbn [Z.eqb Pos.eqb TUIC_ATYP_NONE TUIC_ATYP_DOMAIN].
  apply (reads_bind read_u8 _ [as_u8 (len (as_bytes host))] _ (len (as_bytes host))).
  { unfold as_u8. rewrite Z.mod_small by lia. apply reads_u8. }
  apply (reads_bind (fun input => read_bytes input _) _ (as_bytes host) _ (as_bytes host));
    [by apply reads_bytes|].
  eapply reads_lift; [by rewrite from_utf8_text|]. by apply reads_port.
Qed.

(** The payload of a packet command: the announced number of bytes. *)
Lemma decodes_sized_payload {B} (f : list Z -> B) payload :
  decodes (fun input =>
    offset <-! sm_get;
    if offset + len payload <=? len input then
      payload <-! sm_lift (slice input offset (offset + len payload));
      sm_ret (f payload)
    else sm_lift (Err Decoding_UnexpectedEof)) payload (f payload).
Proof.
  intros pre. unfold sm_bind, sm_get, sm_lift, sm_ret. rewrite len_app, Z.leb_refl.
  pose proof (len_nonneg pre). pose proof (len_nonneg payload).
  rewrite slice_ok by (rewrite ?len_app; lia). rewrite <- (app_nil_r payload) at 1.
  by rewrite sub_list_app_mid.
Qed.

(** The rest of the input. *)
Lemma decodes_rest {B} (f : list Z -> B) payload :
  decodes (fun input =>
    offset <-! sm_get;
    payload <-! sm_lift (slice input offset (len input));
    sm_ret (f payload)) payload (f payload).
Proof.
  intros pre. unfold sm_bind, sm_get, sm_lift, sm_ret.
  pose proof (len_nonneg pre). pose proof (len_nonneg payload).
  rewrite slice_ok by (rewrite ?len_app; lia). rewrite <- (app_nil_r payload) at 1.
  by rewrite sub_list_app_mid by (rewrite ?len_app, ?app_nil_r; lia).
Qed.

Create HintDb reads.

#[local] Hint Resolve reads_u8 reads_u16 reads_u32 reads_varint reads_tuic_target : reads.

(** One field of a message: the reader of the goal, the bytes it takes and their value. *)
Ltac next_field r bytes v :=
  apply (decodes_bind r _ bytes _ v); [solve [auto with reads]|].

(** A TUIC packet command that [encode_tuic_packet_command] produces is decoded to the
    same identifiers, fragment fields and payload; the target comes back without white
    space and brackets, and as an address in canonical text where it is one. Nothing is
    truncated: longer payloads and domains are refused by the encoder. *)
Theorem tuic_packet_roundtrip associate_id packet_id total id target payload bytes :
  is_u16 associate_id -> is_u16 packet_id -> is_text (ep_host target) -> is_u16 (ep_port target) ->
  encode_tuic_packet_command associate_id packet_id total id target payload = Ok bytes ->
  decode_tuic_packet_command bytes =
  Ok (mkTuicPacketCommand associate_id packet_id total id (canonical_endpoint target) payload).
Proof.
  intros Ha Hp Ht Hport. unfold encode_tuic_packet_command.
  destruct (Z.ltb_spec u16_max (len payload)) as [|Hlen]; [done|]. unfold u16_max in Hlen.
  rewrite encode_tuic_target_app. destruct (encode_tuic_target [] target) as [tb| |] eqn:Htb; try done.
  cbn [result_map result_bind]. intros <-%Ok_inj. rewrite <- !app_assoc.
  pose proof (len_nonneg payload). unfold as_u16. rewrite Z.mod_small by lia.
  assert (Hl : is_u16 (len payload)) by (unfold is_u16; lia).
  unfold decode_tuic_packet_command. apply decodes_run.
  next_field read_u8 [TUIC_VERSION] TUIC_VERSION. cbn [Z.eqb Pos.eqb TUIC_VERSION negb].
  next_field read_u8 [TUIC_COMMAND_PACKET] TUIC_COMMAND_PACKET.
  cbn [Z.eqb Pos.eqb TUIC_COMMAND_PACKET negb].
  next_field read_u16 (to_be_bytes 2 associate_id) associate_id.
  next_field read_u16 (to_be_bytes 2 packet_id) packet_id.
  next_field read_u8 [total] total. next_field read_u8 [id] id.
  next_field read_u16 (to_be_bytes 2 (len payload)) (len payload).
  next_field decode_tuic_target tb (canonical_endpoint target).
  apply (decodes_sized_payload (mkTuicPacketCommand _ _ _ _ _)).
Qed.

Lemma tuic_packet_roundtrip_witness :
  exists bytes,
    encode_tuic_packet_command 7 9 1 0 (mkEndpoint " [::1] " 53) [1; 2; 3] = Ok bytes /\
    decode_tuic_packet_command bytes = Ok (mkTuicPacketCommand 7 9 1 0 (mkEndpoint "::1" 53) [1; 2; 3]).
Proof.
  eexists. split; [vm_compute; reflexivity|].
  refine (tuic_packet_roundtrip 7 9 1 0 (mkEndpoint " [::1] " 53) [1; 2; 3] _ _ _ _ _ _);
    try (unfold is_u16; cbn; lia); reflexivity.
Defined.

(** ** Hysteria 2 *)

Lemma parse_host_port host port :
  is_u16 port -> bare_host host <> "" ->
  parse_host_port_endpoint (trim host +:+ ":" +:+ to_decimal port) =
  Ok (mkEndpoint (bare_host host) port).
Proof.
  intros Hp Hh. destruct (port_text port Hp) as (Hparse & Hcolon & _).
  unfold parse_host_port_endpoint.
  change (":" +:+ to_decimal port) with (String ":" (to_decimal port)).
  rewrite rsplit_once_last by done. cbn [ok_or result_bind]. rewrite trim_idem.
  change (trim_brackets (trim host)) with (bare_host host).
  destruct (String.eqb_spec (bare_host host) ""); [done|]. by rewrite Hparse.
Qed.

Lemma host_port_text host port :
  is_text host -> is_u16 port -> is_text (trim host +:+ ":" +:+ to_decimal port).
Proof.
  intros Hh Hp. destruct (port_text port Hp) as (_ & _ & Ht). unfold is_text in *.
  rewrite !as_bytes_app. apply trim_text in Hh. unfold is_text in Hh.
  rewrite !utf8_valid_app; try done; [by rewrite Hh, Ht|by apply utf8_valid_starts].
Qed.

(** A Hysteria 2 datagram that [encode_hy2_udp_message] produces is decoded to the same
    session, packet, fragment fields and payload, and to the host without white space and
    brackets, whatever the host is: the last colon of the address text separates the port
    also when the host is an IPv6 address. *)
Theorem hy2_udp_roundtrip session packet fragment count address payload bytes :
  is_u32 session -> is_u16 packet -> is_text (ep_host address) -> is_u16 (ep_port address) ->
  bare_host (ep_host address) <> "" ->
  len (as_bytes (trim (ep_host address) +:+ ":" +:+ to_decimal (ep_port address))) < 2 ^ 62 ->
  encode_hy2_udp_message session packet fragment count address payload = Ok bytes ->
  decode_hy2_udp_message bytes =
  Ok (mkHy2UdpMessage session packet fragment count
        (mkEndpoint (bare_host (ep_host address)) (ep_port address)) payload).
Proof.
  intros Hs Hp Ht Hport Hhost Hbig. unfold encode_hy2_udp_message. case_match; [done|].
  intros <-%Ok_inj. rewrite encode_varint_app, <- !app_assoc.
  set (text := trim _ +:+ _) in *. pose proof (len_nonneg (as_bytes text)).
  unfold decode_hy2_udp_message. apply decodes_run.
  next_field read_u32 (to_be_bytes 4 session) session.
  next_field read_u16 (to_be_bytes 2 packet) packet.
  next_field read_u8 [fragment] fragment. next_field read_u8 [count] count.
  next_field read_varint (encode_quic_varint [] (len (as_bytes text))) (len (as_bytes text)).
  apply (decodes_bind (fun input => read_bytes input _) _ (as_bytes text) _ (as_bytes text));
    [by apply reads_bytes|].
  eapply decodes_lift; [by rewrite from_utf8_text by (by apply host_port_text)|].
  eapply decodes_lift; [by apply parse_host_port|].
  apply (decodes_rest (mkHy2UdpMessage _ _ _ _ _)).
Qed.

Lemma hy2_udp_roundtrip_witness :
  exists bytes,
    encode_hy2_udp_message 70000 9 0 1 (mkEndpoint "2001:db8::1" 443) [1; 2] = Ok bytes /\
    decode_hy2_udp_message bytes =
    Ok (mkHy2UdpMessage 70000 9 0 1 (mkEndpoint "2001:db8::1" 443) [1; 2]).
Proof.
  eexists. split; [vm_compute; reflexivity|].
  refine (hy2_udp_roundtrip 70000 9 0 1 (mkEndpoint "2001:db8::1" 443) [1; 2] _ _ _ _ _ _ _ _);
    try (unfold is_u16, is_u32, u32_modulus; cbn; lia); try reflexivity; done.
Defined.

(** ** Decoders do not panic *)

(** From an offset within the input the reader does not panic, moves forward within the
    input, and gives a value with [Q]. *)
Definition in_bounds {A} (input : list Z) (m : CodecM A) (Q : A -> Prop) : Prop :=
  forall offset, 0 <= offset <= len input ->
  match m offset with
  | (offset', Ok a) => offset <= offset' <= len input /\ Q a
  | (offset', Err _) => True
  | (offset', Panic) => False
  end.

Lemma in_bounds_ret {A} input (a : A) (Q : A -> Prop) : Q a -> in_bounds input (sm_ret a) Q.
Proof. intros H offset Ho. cbn. split; [lia|done]. Qed.

Lemma in_bounds_lift {A} input (r : result ProtocolDecodingError A) (Q : A -> Prop) :
  returns r Q -> in_bounds input (sm_lift r) Q.
Proof. intros H offset Ho. unfold sm_lift. destruct r; cbn in *; done || (split; [lia|done]). Qed.

Lemma in_bounds_bind {A B} input (m : CodecM A) (k : A -> CodecM B) (P : A -> Prop) (Q : B -> Prop) :
  in_bounds input m P -> (forall a, P a -> in_bounds input (k a) Q) ->
  in_bounds input (sm_bind m k) Q.
Proof.
  intros Hm Hk offset Ho. specialize (Hm offset Ho). unfold sm_bind.
  destruct (m offset) as [o1 [a|e|]]; try done. destruct Hm as [Ho1 Ha].
  specialize (Hk a Ha o1 ltac:(lia)). destruct (k a o1) as [o2 [b|e|]]; try done.
  destruct Hk as [Ho2 Hb]. split; [lia|done].
Qed.

Lemma in_bounds_get {B} input (k : Z -> CodecM B) (Q : B -> Prop) :
  (forall offset, 0 <= offset <= len input -> in_bounds input (k offset) Q) ->
  in_bounds input (sm_bind sm_get k) Q.
Proof. intros H offset Ho. exact (H offset Ho offset Ho). Qed.

Lemma in_bounds_weaken {A} input (m : CodecM A) (P Q : A -> Prop) :
  in_bounds input m P -> (forall a, P a -> Q a) -> in_bounds input m Q.
Proof.
  intros Hm HPQ offset Ho. specialize (Hm offset Ho).
  destruct (m offset) as [o [a|e|]]; try done. destruct Hm. auto.
Qed.

Lemma in_bounds_u8 input : bytes_ok input -> in_bounds input (read_u8 input) is_u8.
Proof.
  intros Hok offset Ho. unfold read_u8, sm_bind, sm_get, sm_lift, sm_modify, sm_ret.
  destruct (get_index input offset) as [b|] eqn:Hb; [|done]. cbn [ok_or].
  unfold get_index in Hb. replace (0 <=? offset) with true in Hb by lia.
  pose proof (lookup_lt_Some _ _ _ Hb). split; [unfold len in *; lia|]. by eapply bytes_ok_lookup.
Qed.

Lemma in_bounds_bytes input n :
  bytes_ok input -> 0 <= n ->
  in_bounds input (read_bytes input n) (fun bytes => len bytes = n /\ bytes_ok bytes).
Proof.
  intros Hok Hn offset Ho. unfold read_bytes, sm_bind, sm_get, sm_lift, sm_modify, sm_ret.
  destruct (Z.leb_spec (offset + n) (len input)); [|done]. rewrite slice_ok by lia.
  split_and!; [lia|lia| |].
  - rewrite len_sub_list by lia. lia.
  - by apply bytes_ok_sub_list.
Qed.

Lemma in_bounds_u16 input :
  bytes_ok input -> in_bounds input (read_u16 input) (fun v => 0 <= v).
Proof.
  intros Hok. unfold read_u16. eapply in_bounds_bind; [by apply in_bounds_bytes|].
  intros bytes [Hl Hb]. destruct bytes as [|a [|b [|? ?]]]; try (unfold len in Hl; cbn in Hl; lia).
  intros offset Ho. cbn -[from_be_bytes]. split; [lia|].
  apply (from_be_bytes_bound [a; b] Hb).
Qed.

Lemma in_bounds_u32 input : bytes_ok input -> in_bounds input (read_u32 input) (fun _ => True).
Proof.
  intros Hok. unfold read_u32. eapply in_bounds_bind; [by apply in_bounds_bytes|].
  intros bytes [Hl _]. destruct bytes as [|a [|b [|c [|d [|? ?]]]]];
    try (unfold len in Hl; cbn in Hl; lia).
  intros offset Ho. cbn. split; [lia|done].
Qed.

Lemma fold_lor_nonneg bytes v :
  bytes_ok bytes -> 0 <= v ->
  0 <= fold_left (fun value byte => Z.lor (Z.shiftl value 8) byte) bytes v.
Proof.
  intros Hok. revert v. induction Hok as [|b l Hb _ IH]; intros v Hv; [done|]. cbn [fold_left].
  apply IH, Z.lor_nonneg. rewrite Z.shiftl_nonneg. unfold is_u8 in Hb. lia.
Qed.

Lemma in_bounds_varint input :
  bytes_ok input -> in_bounds input (read_varint input) (fun v => 0 <= v).
Proof.
  intros Hok offset Ho.
  unfold read_varint, decode_quic_varint, sm_bind, sm_get, sm_lift, sm_modify, sm_ret.
  destruct (get_index input offset) as [first|] eqn:Hb; [|done].
  assert (is_u8 first) as Hf.
  { unfold get_index in Hb. replace (0 <=? offset) with true in Hb by lia.
    by eapply bytes_ok_lookup. }
  assert (1 <= Z.shiftl 1 (Z.shiftr first 6)).
  { unfold is_u8 in Hf. rewrite Z.shiftr_div_pow2, Z.shiftl_mul_pow2 by
      (try apply Z.div_pos; lia).
    assert (0 <= first / 2 ^ 6) by (apply Z.div_pos; lia).
    pose proof (Z.pow_pos_nonneg 2 (first / 2 ^ 6)). lia. }
  destruct (Z.leb_spec (offset + Z.shiftl 1 (Z.shiftr first 6)) (len input)); [|done].
  rewrite slice_ok by lia. cbn [result_bind]. split; [lia|].
  apply fold_lor_nonneg; [by apply bytes_ok_sub_list|]. apply Z.land_nonneg. lia.
Qed.

#[local] Hint Resolve in_bounds_u8 in_bounds_u16 in_bounds_u32 in_bounds_varint in_bounds_bytes : reads.

Lemma in_bounds_utf8 input bytes :
  in_bounds input (sm_lift (ok_or InvalidUtf8 (from_utf8 bytes))) (fun _ => True).
Proof. apply in_bounds_lift. by destruct (from_utf8 bytes). Qed.

Lemma in_bounds_tuic_target input :
  bytes_ok input -> in_bounds input (decode_tuic_target input) (fun _ => True).
Proof.
  intros Hok. unfold decode_tuic_target.
  eapply in_bounds_bind; [by apply in_bounds_u8|]. intros ty _.
  assert (Hport : forall host,
    in_bounds input (port <-! read_u16 input; sm_ret (mkEndpoint host port)) (fun _ => True)).
  { intros host. eapply in_bounds_bind; [by apply in_bounds_u16|]. intros port _.
    by apply in_bounds_ret. }
  repeat case_match.
  - by apply in_bounds_ret.
  - eapply in_bounds_bind; [by apply in_bounds_u8|]. intros n Hn. unfold is_u8 in Hn.
    eapply in_bounds_bind; [apply in_bounds_bytes; [done|lia]|]. intros bytes _.
    eapply in_bounds_bind; [apply in_bounds_utf8|]. auto.
  - eapply in_bounds_bind; [by apply in_bounds_bytes|]. auto.
  - eapply in_bounds_bind; [by apply in_bounds_bytes|]. auto.
  - by apply in_bounds_lift.
Qed.

(** A field of a message whose value does not matter. *)
Ltac skip_field :=
  eapply in_bounds_bind; [solve [auto with reads lia]|intros ? ?; cbv beta in *].

Lemma in_bounds_tuic_packet input :
  bytes_ok input ->
  in_bounds input (decode_tuic_packet_body input)
    (fun command => len (tuic_payload command) <= len input).
Proof.
  intros Hok. unfold decode_tuic_packet_body.
  skip_field. case_match; [by apply in_bounds_lift|].
  skip_field. case_match; [by apply in_bounds_lift|].
  do 5 skip_field. eapply in_bounds_bind; [by apply in_bounds_tuic_target|]. intros source _.
  apply in_bounds_get. intros offset Ho. case_match; [|by apply in_bounds_lift].
  eapply (in_bounds_bind _ _ _ (fun payload => len payload <= len input)).
  - apply in_bounds_lift. rewrite slice_ok by lia. cbn. rewrite len_sub_list by lia. lia.
  - intros payload Hp. by apply in_bounds_ret.
Qed.

Lemma in_bounds_hy2_udp input :
  bytes_ok input ->
  in_bounds input (decode_hy2_udp_body input) (fun message => len (hy2_payload message) <= len input).
Proof.
  intros Hok. unfold decode_hy2_udp_body. do 5 skip_field. skip_field.
  eapply in_bounds_bind; [apply in_bounds_utf8|]. intros text _.
  eapply (in_bounds_bind _ _ _ (fun _ => True)).
  { apply in_bounds_lift. unfold parse_host_port_endpoint.
    destruct (rsplit_once _ _) as [[host port]|]; [|done]. cbn [ok_or result_bind].
    case_match; [done|]. by destruct (parse_u16 port). }
  intros address _. apply in_bounds_get. intros offset Ho.
  eapply (in_bounds_bind _ _ _ (fun payload => len payload <= len input)).
  - apply in_bounds_lift. rewrite slice_ok by lia. cbn. rewrite len_sub_list by lia. lia.
  - intros payload Hp. by apply in_bounds_ret.
Qed.

Lemma in_bounds_hy2_tcp input ok :
  bytes_ok input ->
  in_bounds input (decode_hy2_tcp_body input ok)
    (fun response => 0 <= response.2 <= len input).
Proof.
  intros Hok. unfold decode_hy2_tcp_body. do 2 skip_field.
  eapply in_bounds_bind; [apply in_bounds_utf8|]. intros text _.
  skip_field. apply in_bounds_get. intros offset Ho. case_match; [|by apply in_bounds_lift].
  apply in_bounds_ret. cbn. lia.
Qed.

Lemma in_bounds_run {A} input (m : CodecM A) (Q : A -> Prop) offset :
  in_bounds input m Q -> 0 <= offset <= len input -> returns (snd (m offset)) Q.
Proof. intros H Ho. specialize (H offset Ho). destruct (m offset) as [o [a|e|]]; cbn; tauto. Qed.

(** No bytes of a peer make a decoder panic: the decoders of TUIC packets, Hysteria 2
    datagrams and Hysteria 2 TCP responses slice within the input on every path, return a
    payload no longer than the input, and report a number of consumed bytes within it. *)
Theorem protocol_decoders_total input :
  bytes_ok input ->
  returns (decode_tuic_packet_command input)
    (fun command => len (tuic_payload command) <= len input) /\
  returns (decode_hy2_udp_message input) (fun message => len (hy2_payload message) <= len input) /\
  returns (decode_hy2_tcp_response input) (fun response => 0 <= response.2 <= len input).
Proof.
  intros Hok. pose proof (len_nonneg input). split_and!.
  - by apply (in_bounds_run input); [apply in_bounds_tuic_packet|].
  - by apply (in_bounds_run input); [apply in_bounds_hy2_udp|].
  - unfold decode_hy2_tcp_response. destruct input as [|status rest] eqn:E; [done|].
    rewrite <- E in *. pose proof (len_nonneg rest). assert (len input = 1 + len rest) by (subst; apply len_cons).
    repeat case_match; [..|done]; (apply (in_bounds_run input); [by apply in_bounds_hy2_tcp|lia]).
Qed.

Lemma protocol_decoders_total_witness :
  bytes_ok [0; 2; 111; 107; 0] /\
  returns (decode_hy2_tcp_response [0; 2; 111; 107; 0]) (fun response => 0 <= response.2 <= 5).
Proof.
  assert (H : bytes_ok [0; 2; 111; 107; 0]) by (repeat (apply Forall_cons_2; [unfold is_u8; lia|]); apply Forall_nil_2).
  split; [exact H|]. exact (proj2 (proj2 (protocol_decoders_total _ H))).
Defined.
