(* ===== verification/ProxyWire.v ===== *)
(** * Handshakes with proxies over a stream

    [crates/keli-net-core/src/direct.rs]: the HTTP upgrade handshake, the client's side
    of SOCKS5 and of HTTP CONNECT, the response header and the datagrams of VLESS, and
    the datagrams of Trojan. All of them are computations on a stream with [Read] and
    [Write]. The messages of the standard library's UTF-8 errors and the Base64 engine
    are parameters. *)

From Stdlib Require Import Ascii.
From stdpp Require Import base strings list numbers.
From S2P Require Import Prelude.
From S2P Require Import StdNet.
From S2P Require Import StdIo.
From S2P Require Import TunPacket.
From S2P Require Import Socks5.
From S2P Require Import WebSocket.
From S2P Require Import Profile.
From S2P Require Import Codec.
#[local] Open Scope Z_scope.

Definition io_fail {S A} (kind : ErrorKind) (message : string) : SM S IoError A :=
  sm_lift (Err (mkIoError kind message)).

Definition HTTPUPGRADE_HEADER_LIMIT : Z := 16384.

(** The flags [saw_upgrade] and [saw_connection] after a header line. *)
Definition see_upgrade_header (saw : bool * bool) (line : string) : bool * bool :=
  let '(saw_upgrade, saw_connection) := saw in
  match split_once ":"%char line with
  | None => saw
  | Some (name, value) =>
      let value := trim value in
      if eq_ignore_ascii_case name "Upgrade" && eq_ignore_ascii_case value "websocket"
      then (true, saw_connection)
      else if eq_ignore_ascii_case name "Connection"
              && existsb (fun part => eq_ignore_ascii_case (trim part) "upgrade")
                   (split_on ","%char value)
      then (saw_upgrade, true)
      else saw
  end.

Definition validate_httpupgrade_response (response : string) : result IoError unit :=
  let lines := split_crlf response in
  let status := default "" (head lines) in
  if negb (contains status " 101 ")
  then Err (mkIoError InvalidData "HTTPUpgrade server did not switch protocols")
  else
    let '(saw_upgrade, saw_connection) :=
      fold_left see_upgrade_header (tail lines) (false, false) in
    if saw_upgrade && saw_connection then Ok tt
    else Err (mkIoError InvalidData "HTTPUpgrade response is invalid").

(** [proxy_target_authority]. *)
Definition proxy_target_authority (target : OutboundTarget) : string :=
  let host := bare_host (target_host target) in
  match parse_ipv6 host with
  | Some _ => "[" +:+ host +:+ "]:" +:+ to_decimal (target_port target)
  | None => host +:+ ":" +:+ to_decimal (target_port target)
  end.

Definition split_proxy_credential (credential : string) : option (string * string) :=
  let credential := trim credential in
  if String.eqb credential "" then None
  else Some (default (credential, "") (split_once ":"%char credential)).

Definition append_socks5_target (request : list Z) (target : OutboundTarget)
  : result IoError (list Z) :=
  let host := bare_host (target_host target) in
  request <-?
    match parse_ipv4 host with
    | Some ip => Ok (request ++ [1] ++ v4_octets ip)
    | None =>
        match parse_ipv6 host with
        | Some ip => Ok (request ++ [4] ++ v6_octets ip)
        | None =>
            let host := as_bytes (target_host target) in
            if is_empty host || (u8_max <? len host)
            then Err (mkIoError InvalidInput "SOCKS5 target domain length is invalid")
            else Ok (request ++ [3] ++ [as_u8 (len host)] ++ host)
        end
    end;
  Ok (request ++ to_be_bytes 2 (target_port target)).

Definition socks5_address_from_target (target : OutboundTarget) : result IoError Socks5Address :=
  let host := bare_host (target_host target) in
  match parse_ipv4 host with
  | Some ip => Ok (Socks5_Ipv4 ip)
  | None =>
      match parse_ipv6 host with
      | Some ip => Ok (Socks5_Ipv6 ip)
      | None =>
          if negb (String.eqb (target_host target) "")
             && (len (as_bytes (target_host target)) <=? u8_max)
          then Ok (Socks5_Domain (target_host target))
          else Err (mkIoError InvalidInput "SOCKS5 UDP target domain length is invalid")
      end
  end.

Section Stream.
Context {S : Type} {Reader : Read S} {Writer : Write S}.

(** [let mut byte = [0; 1]; stream.read_exact(&mut byte)?; byte[0]]. *)
Definition read_byte : SM S IoError Z :=
  byte <-! read_exact 1;
  sm_lift (index byte 0).

(** [u16::from_be_bytes] of two bytes of the stream. *)
Definition read_be16 : SM S IoError Z :=
  bytes <-! read_exact 2;
  b0 <-! sm_lift (index bytes 0); b1 <-! sm_lift (index bytes 1);
  sm_ret (from_be_bytes [b0; b1]).

(** The loop that reads header bytes up to an empty line, at most [limit] of them; the
    bytes so far are kept in reverse. *)
Fixpoint read_until_blank_line (left : nat) (too_large : IoError) (rev_bytes : list Z)
  : SM S IoError (list Z) :=
  match left with
  | O => sm_lift (Err too_large)
  | Datatypes.S left' =>
      b <-! read_byte;
      if header_complete (b :: rev_bytes) then sm_ret (rev (b :: rev_bytes))
      else read_until_blank_line left' too_large (b :: rev_bytes)
  end.

(** ** HTTP upgrade *)

Definition read_httpupgrade_response (utf8_error : list Z -> string) : SM S IoError string :=
  bytes <-! read_until_blank_line (Z.to_nat HTTPUPGRADE_HEADER_LIMIT)
              (mkIoError InvalidData "HTTPUpgrade response header is too large") [];
  match from_utf8 bytes with
  | Some text => sm_ret text
  | None => io_fail InvalidData (utf8_error bytes)
  end.

Definition httpupgrade_request (host path : string) : string :=
  "GET " +:+ path +:+ " HTTP/1.1" +:+ crlf +:+ "Host: " +:+ host +:+ crlf
  +:+ "Connection: Upgrade" +:+ crlf +:+ "Upgrade: websocket" +:+ crlf +:+ crlf.

Definition connect_httpupgrade_client (utf8_error : list Z -> string) (host path : string)
  : SM S IoError unit :=
  let path := trim path in
  let path := if String.eqb path "" then "/" else path in
  let host := trim host in
  if String.eqb host "" then io_fail InvalidInput "HTTPUpgrade host is required"
  else
    do! write_all (as_bytes (httpupgrade_request host path));
    do! flush;
    response <-! read_httpupgrade_response utf8_error;
    sm_lift (validate_httpupgrade_response response).

(** ** HTTP CONNECT *)

Definition read_http_connect_response : SM S IoError string :=
  bytes <-! read_until_blank_line (Z.to_nat 8192)
              (mkIoError InvalidData "HTTP outbound response headers are too large") [];
  match from_utf8 bytes with
  | Some text => sm_ret text
  | None => io_fail InvalidData "HTTP outbound response is not UTF-8"
  end.

(** [base64::engine::general_purpose::STANDARD.encode]. *)
Definition http_connect_request (base64_encode : list Z -> string) (target : OutboundTarget)
  (credential : string) : string :=
  let authority := proxy_target_authority target in
  let credential := trim credential in
  "CONNECT " +:+ authority +:+ " HTTP/1.1" +:+ crlf +:+ "Host: " +:+ authority +:+ crlf
  +:+ (if String.eqb credential "" then ""
       else "Proxy-Authorization: Basic " +:+ base64_encode (as_bytes credential) +:+ crlf)
  +:+ crlf.

(** [response.lines().next()], its second word as a number. *)
Definition http_connect_status (response : string) : option Z :=
  match lines response with
  | [] => None
  | line :: _ =>
      match split_whitespace line with
      | _ :: status :: _ => parse_u16 status
      | _ => None
      end
  end.

Definition http_connect_proxy (base64_encode : list Z -> string) (target : OutboundTarget)
  (credential : string) : SM S IoError unit :=
  do! write_all (as_bytes (http_connect_request base64_encode target credential));
  response <-! read_http_connect_response;
  status <-! sm_lift (ok_or (mkIoError InvalidData "HTTP outbound proxy returned invalid response")
                        (http_connect_status response));
  if in_range 200 299 status then sm_ret tt
  else
    io_fail ConnectionRefusedKind
      ("HTTP outbound CONNECT failed with status " +:+ to_decimal status).

(** ** SOCKS5 *)

Definition send_socks5_password_auth (username password : string) : SM S IoError unit :=
  let username := as_bytes username in
  let password := as_bytes password in
  if (u8_max <? len username) || (u8_max <? len password)
  then io_fail InvalidInput "SOCKS5 username/password is too long"
  else
    do! write_all ([1; as_u8 (len username)] ++ username ++ [as_u8 (len password)] ++ password);
    response <-! read_exact 2;
    if bool_decide (response = [1; 0]) then sm_ret tt
    else io_fail PermissionDenied "SOCKS5 username/password authentication failed".

Definition socks5_negotiate_proxy (credential : string) : SM S IoError unit :=
  let credential := split_proxy_credential credential in
  do! (if is_some credential then write_all [5; 2; 0; 2] else write_all [5; 1; 0]);
  method_ <-! read_exact 2;
  version <-! sm_lift (index method_ 0);
  if negb (version =? 5)
  then io_fail InvalidData "SOCKS5 outbound proxy returned invalid version"
  else
    selected <-! sm_lift (index method_ 1);
    if selected =? 0 then sm_ret tt
    else if selected =? 2 then
      match credential with
      | None => io_fail PermissionDenied "SOCKS5 outbound proxy requested credentials"
      | Some (username, password) => send_socks5_password_auth username password
      end
    else if selected =? 255
    then io_fail PermissionDenied "SOCKS5 outbound proxy rejected all auth methods"
    else
      io_fail Unsupported
        ("SOCKS5 outbound proxy selected unsupported auth method " +:+ to_decimal selected).

(** The address of a reply, by its type. *)
Definition read_socks5_bound_host (atyp : Z) : SM S IoError string :=
  if atyp =? 1 then octets <-! read_exact 4; sm_ret (v4_to_string (from_be_bytes octets))
  else if atyp =? 3 then
    length <-! read_byte;
    host <-! read_exact length;
    sm_lift (ok_or (mkIoError InvalidData "SOCKS5 outbound proxy returned invalid bound domain")
               (from_utf8 host))
  else if atyp =? 4 then octets <-! read_exact 16; sm_ret (v6_to_string (from_be_bytes octets))
  else
    io_fail InvalidData
      ("SOCKS5 outbound proxy returned unsupported bound address type " +:+ to_decimal atyp).

Definition read_socks5_reply_endpoint (operation : string) : SM S IoError Endpoint :=
  response <-! read_exact 4;
  version <-! sm_lift (index response 0);
  if negb (version =? 5)
  then io_fail InvalidData
         ("SOCKS5 outbound proxy returned invalid " +:+ operation +:+ " response version")
  else
    status <-! sm_lift (index response 1);
    if negb (status =? 0)
    then io_fail ConnectionRefusedKind
           ("SOCKS5 outbound " +:+ operation +:+ " failed with status " +:+ to_decimal status)
    else
      atyp <-! sm_lift (index response 3);
      host <-! read_socks5_bound_host atyp;
      port <-! read_be16;
      sm_ret (mkEndpoint host port).

Definition socks5_connect_proxy (target : OutboundTarget) (credential : string)
  : SM S IoError unit :=
  do! socks5_negotiate_proxy credential;
  request <-! sm_lift (append_socks5_target [5; 1; 0] target);
  do! write_all request;
  do! read_socks5_reply_endpoint "connect";
  sm_ret tt.

Definition socks5_udp_associate_proxy (credential : string) : SM S IoError Endpoint :=
  do! socks5_negotiate_proxy credential;
  do! write_all [5; 3; 0; 1; 0; 0; 0; 0; 0; 0];
  read_socks5_reply_endpoint "UDP ASSOCIATE".

(** ** VLESS *)

Definition read_vless_response_header_from_stream : SM S IoError unit :=
  header <-! read_exact 2;
  version <-! sm_lift (index header 0);
  if negb (version =? 0) then io_fail InvalidData "invalid VLESS response version"
  else
    addon_len <-! sm_lift (index header 1);
    if 0 <? addon_len then do! read_exact addon_len; sm_ret tt
    else sm_ret tt.

Definition write_vless_udp_payload (payload : list Z) : SM S IoError unit :=
  if u16_max <? len payload then io_fail InvalidData "VLESS UDP payload is too large"
  else
    do! write_all (to_be_bytes 2 (as_u16 (len payload)));
    write_all payload.

Definition read_vless_udp_payload : SM S IoError (list Z) :=
  length <-! read_be16;
  read_exact length.

(** ** Trojan *)

Definition read_trojan_packet_host (atyp : Z) : SM S IoError string :=
  if atyp =? TROJAN_ATYP_IPV4 then
    ip <-! read_exact 4; sm_ret (v4_to_string (from_be_bytes ip))
  else if atyp =? TROJAN_ATYP_DOMAIN then
    length <-! read_byte;
    host <-! read_exact length;
    sm_lift (ok_or (mkIoError InvalidData "Trojan UDP domain is invalid UTF-8") (from_utf8 host))
  else if atyp =? TROJAN_ATYP_IPV6 then
    ip <-! read_exact 16; sm_ret (v6_to_string (from_be_bytes ip))
  else
    io_fail InvalidData ("Trojan UDP address type is unsupported: " +:+ to_decimal atyp).

Definition read_trojan_packet_target : SM S IoError Endpoint :=
  atyp <-! read_byte;
  host <-! read_trojan_packet_host atyp;
  port <-! read_be16;
  sm_ret (mkEndpoint host port).

Definition read_trojan_crlf : SM S IoError unit :=
  crlf <-! read_exact 2;
  if bool_decide (crlf = [13; 10]) then sm_ret tt
  else io_fail InvalidData "Trojan UDP packet is missing CRLF".

(** [read_trojan_udp_packet] up to the address of the source. *)
Definition read_trojan_udp_frame : SM S IoError (Endpoint * list Z) :=
  source <-! read_trojan_packet_target;
  length <-! read_be16;
  do! read_trojan_crlf;
  payload <-! read_exact length;
  sm_ret (source, payload).
End Stream.
