(* ===== verification/Framed.v ===== *)
(** * Framed streams of the outbound protocols

    [crates/keli-net-core/src/direct.rs]: [AnyTlsTcpStream], [ShadowsocksTcpStream] and
    [VmessAeadStream], which cut the bytes of a connection into frames and, the last two,
    encrypt them. The inner stream is a class. The ciphers of the [shadowsocks-crypto]
    crate, AES-GCM and ChaCha20-Poly1305 and the extendable output of SHAKE128 are
    parameters. *)

From stdpp Require Import base strings list numbers.
From S2P Require Import Prelude.
From S2P Require Import StdNet.
From S2P Require Import StdIo.
From S2P Require Import WebSocket.
From S2P Require Import Relay.
From S2P Require Import ProxyWire.
#[local] Open Scope Z_scope.

(** What the streams use of one another: [Read + Write + OwnedRelayStream]. *)
Class ByteStream (S : Type) := {
  byte_stream_read :: Read S;
  byte_stream_write :: Write S;
  byte_stream_relay :: OwnedRelayStream S
}.

(** [slice.chunks(n)], for [0 < n]. *)
Fixpoint chunks_loop (fuel : nat) (n : nat) (l : list Z) : list (list Z) :=
  match fuel, l with
  | Datatypes.S fuel', _ :: _ => take n l :: chunks_loop fuel' n (drop n l)
  | _, _ => []
  end.

Definition chunks (n : Z) (l : list Z) : list (list Z) :=
  chunks_loop (length l) (Z.to_nat n) l.

Section Reading.
Context {S : Type} {Stream : ByteStream S}.

(** The loop of [read_exact_or_clean_eof] with [got] bytes of [amount] in the buffer;
    every turn that goes on reads a byte, so that [amount] turns suffice. *)
Fixpoint read_or_eof_loop (fuel : nat) (amount : Z) (got : list Z)
  : SM S IoError (option (list Z)) :=
  if amount <=? len got then sm_ret (Some got)
  else
    match fuel with
    | O => sm_lift Panic
    | Datatypes.S fuel' =>
        bytes <-! stream_read (amount - len got);
        if amount - len got <? len bytes then sm_lift Panic
        else if is_empty bytes then
          if is_empty got then sm_ret None else io_fail UnexpectedEof "stream ended mid-frame"
        else read_or_eof_loop fuel' amount (got ++ bytes)
    end.

(** The bytes of the buffer, or [None] for [Ok(false)]. *)
Definition read_exact_or_clean_eof (amount : Z) : SM S IoError (option (list Z)) :=
  read_or_eof_loop (Z.to_nat amount) amount [].
End Reading.

(** [Read::read_exact] as the standard library provides it on top of [read], for at most
    [turns] reads. *)
Fixpoint default_read_exact {S} (read : Z -> SM S IoError (list Z)) (turns : nat) (amount : Z)
  (got : list Z) : SM S IoError (list Z) :=
  if amount <=? len got then sm_ret got
  else
    match turns with
    | O => sm_lift Panic
    | Datatypes.S turns' =>
        fun s =>
          match read (amount - len got) s with
          | (s', Ok bytes) =>
              if is_empty bytes then (s', Err end_of_stream)
              else default_read_exact read turns' amount (got ++ bytes) s'
          | (s', Err error) =>
              if bool_decide (io_kind error = Interrupted)
              then default_read_exact read turns' amount got s'
              else (s', Err error)
          | (s', Panic) => (s', Panic)
          end
    end.

(** Bytes that were decoded and not delivered yet: [read_buffer] from [read_offset] on. A
    read takes at most [amount] of them; whether the buffer is cleared when it is empty
    is the stream's. *)
Definition take_buffered (buffer : list Z) (offset amount : Z) : result IoError (list Z) :=
  remaining <-? slice buffer offset (len buffer);
  Ok (take (Z.to_nat amount) remaining).

(** ** AnyTLS *)

Definition ANYTLS_CMD_WASTE : Z := 0.
Definition ANYTLS_CMD_SYN : Z := 1.
Definition ANYTLS_CMD_PSH : Z := 2.
Definition ANYTLS_CMD_FIN : Z := 3.
Definition ANYTLS_CMD_SETTINGS : Z := 4.
Definition ANYTLS_CMD_ALERT : Z := 5.
Definition ANYTLS_CMD_UPDATE_PADDING_SCHEME : Z := 6.
Definition ANYTLS_CMD_SYNACK : Z := 7.
Definition ANYTLS_CMD_HEART_REQUEST : Z := 8.
Definition ANYTLS_CMD_HEART_RESPONSE : Z := 9.
Definition ANYTLS_CMD_SERVER_SETTINGS : Z := 10.
Definition ANYTLS_STREAM_ID : Z := 1.
Definition ANYTLS_AUTH_PADDING_LEN : Z := 30.
Definition ANYTLS_DEFAULT_PADDING_MD5 : string := "75cff2ad89aadf5e257059ee571ebe11".
Definition ANYTLS_UOT_MAGIC_DOMAIN : string := "udp-over-tcp.arpa".

Record AnyTlsTcpStream (S : Type) : Type := mkAnyTlsTcpStream {
  anytls_inner : S;
  anytls_read_buffer : list Z;
  anytls_read_offset : Z;
  anytls_stream_closed : bool;
  anytls_fin_sent : bool
}.

Arguments mkAnyTlsTcpStream {S}.
Arguments anytls_inner {S}.
Arguments anytls_read_buffer {S}.
Arguments anytls_read_offset {S}.
Arguments anytls_stream_closed {S}.
Arguments anytls_fin_sent {S}.

#[export] Instance set_AnyTlsTcpStream {S} : Settable (AnyTlsTcpStream S) := fun s =>
  mkAnyTlsTcpStream (anytls_inner s) (anytls_read_buffer s) (anytls_read_offset s)
    (anytls_stream_closed s) (anytls_fin_sent s).

Section AnyTls.
Context {S : Type} {Stream : ByteStream S}.

Definition AnyTlsM (A : Type) : Type := SM (AnyTlsTcpStream S) IoError A.

Definition anytls_on_inner {A} (m : SM S IoError A) : AnyTlsM A :=
  sm_zoom anytls_inner (fun inner s => s <| anytls_inner := inner |>) id m.

(** [write_frame]. *)
Definition anytls_write_frame (cmd sid : Z) (data : list Z) : AnyTlsM unit :=
  if u16_max <? len data then io_fail InvalidInput "AnyTLS frame payload is too large"
  else
    do! anytls_on_inner
      (write_all ([cmd] ++ to_be_bytes 4 sid ++ to_be_bytes 2 (as_u16 (len data))));
    anytls_on_inner (write_all data).

(** [write_startup_frames]; the version of the crate is a parameter. *)
Definition write_startup_frames (version : string) (target_header : list Z) : AnyTlsM unit :=
  let nl := String newline EmptyString in
  let settings :=
    "v=2" +:+ nl +:+ "client=keli-native-client/" +:+ version +:+ nl
    +:+ "padding-md5=" +:+ ANYTLS_DEFAULT_PADDING_MD5 in
  do! anytls_write_frame ANYTLS_CMD_SETTINGS 0 (as_bytes settings);
  do! anytls_write_frame ANYTLS_CMD_SYN ANYTLS_STREAM_ID [];
  anytls_write_frame ANYTLS_CMD_PSH ANYTLS_STREAM_ID target_header.

(** [read_frame]. *)
Definition anytls_read_frame : AnyTlsM (option (Z * Z * list Z)) :=
  header <-! anytls_on_inner (read_exact_or_clean_eof 7);
  match header with
  | None => sm_ret None
  | Some header =>
      cmd <-! sm_lift (index header 0);
      h1 <-! sm_lift (index header 1); h2 <-! sm_lift (index header 2);
      h3 <-! sm_lift (index header 3); h4 <-! sm_lift (index header 4);
      h5 <-! sm_lift (index header 5); h6 <-! sm_lift (index header 6);
      data <-! anytls_on_inner (read_exact_or_clean_eof (from_be_bytes [h5; h6]));
      match data with
      | None => io_fail UnexpectedEof "missing AnyTLS frame payload"
      | Some data => sm_ret (Some (cmd, from_be_bytes [h1; h2; h3; h4], data))
      end
  end.

(** The loop of [read_next_data_frame], for at most [frames] frames; the text of an alert
    is given with its invalid parts replaced. *)
Fixpoint read_data_frames (frames : nat) (lossy : list Z -> string) : AnyTlsM bool :=
  match frames with
  | O => sm_lift Panic
  | Datatypes.S frames' =>
      frame <-! anytls_read_frame;
      match frame with
      | None => sm_ret false
      | Some (cmd, sid, data) =>
          if (cmd =? ANYTLS_CMD_PSH) && (sid =? ANYTLS_STREAM_ID) then
            do! sm_modify (fun s => s <| anytls_read_buffer := data |>
                                      <| anytls_read_offset := 0 |>);
            sm_ret true
          else if (cmd =? ANYTLS_CMD_FIN) && (sid =? ANYTLS_STREAM_ID) then
            do! sm_modify (fun s => s <| anytls_stream_closed := true |>);
            sm_ret false
          else if cmd =? ANYTLS_CMD_ALERT then
            io_fail PermissionDenied ("AnyTLS alert: " +:+ lossy data)
          else if cmd =? ANYTLS_CMD_HEART_REQUEST then
            do! anytls_write_frame ANYTLS_CMD_HEART_RESPONSE sid [];
            read_data_frames frames' lossy
          else read_data_frames frames' lossy
      end
  end.

Definition read_next_data_frame (frames : nat) (lossy : list Z -> string) : AnyTlsM bool :=
  s <-! sm_get;
  if anytls_stream_closed s then sm_ret false else read_data_frames frames lossy.

(** [Read::read]: the bytes put into a buffer of length [amount]. *)
Definition anytls_read (frames : nat) (lossy : list Z -> string) (amount : Z)
  : AnyTlsM (list Z) :=
  if amount =? 0 then sm_ret []
  else
    s <-! sm_get;
    more <-! (if len (anytls_read_buffer s) <=? anytls_read_offset s
              then read_next_data_frame frames lossy else sm_ret true);
    if negb more then sm_ret []
    else
      s <-! sm_get;
      bytes <-! sm_lift (take_buffered (anytls_read_buffer s) (anytls_read_offset s) amount);
      let offset := anytls_read_offset s + len bytes in
      do! sm_modify (fun s =>
        if len (anytls_read_buffer s) <=? offset
        then s <| anytls_read_buffer := [] |> <| anytls_read_offset := 0 |>
        else s <| anytls_read_offset := offset |>);
      sm_ret bytes.

(** [Write::write]. *)
Fixpoint anytls_write_chunks (chunks : list (list Z)) : AnyTlsM unit :=
  match chunks with
  | [] => sm_ret tt
  | chunk :: chunks' =>
      do! anytls_write_frame ANYTLS_CMD_PSH ANYTLS_STREAM_ID chunk;
      anytls_write_chunks chunks'
  end.

Definition anytls_write (buffer : list Z) : AnyTlsM Z :=
  do! anytls_write_chunks (chunks u16_max buffer);
  sm_ret (len buffer).

(** [OwnedRelayStream::shutdown_write], [shutdown_both]. *)
Definition anytls_shutdown_write : AnyTlsM unit :=
  s <-! sm_get;
  if anytls_fin_sent s then sm_ret tt
  else
    do! anytls_write_frame ANYTLS_CMD_FIN ANYTLS_STREAM_ID [];
    sm_modify (fun s => s <| anytls_fin_sent := true |>).

Definition anytls_shutdown_both : AnyTlsM unit :=
  do! ignore anytls_shutdown_write;
  anytls_on_inner shutdown_both.
End AnyTls.

(** ** Shadowsocks *)

(** What the code uses of [shadowsocks_crypto]: a cipher encrypts a buffer whose last
    [tag_len] bytes are room for the tag, and decrypts one in place; it counts its
    packets. *)
Class ShadowsocksCrypto := {
  CipherKind : Type;
  Cipher : Type;
  parse_cipher_kind : string -> result string CipherKind;
  kind_is_aead : CipherKind -> bool;
  kind_name : CipherKind -> string;
  key_len : CipherKind -> Z;
  salt_len : CipherKind -> Z;
  kind_tag_len : CipherKind -> Z;
  openssl_bytes_to_key : list Z -> Z -> list Z;
  Cipher_new : CipherKind -> list Z -> list Z -> Cipher;
  tag_len : Cipher -> Z;
  encrypt_packet : Cipher -> list Z -> Cipher * list Z;
  decrypt_packet : Cipher -> list Z -> Cipher * option (list Z)
}.

Record ShadowsocksTcpStream (K C S : Type) : Type := mkShadowsocksTcpStream {
  ss_inner : S;
  ss_cipher_kind : K;
  ss_key : list Z;
  ss_encrypt_cipher : C;
  ss_decrypt_cipher : option C;
  ss_read_buffer : list Z;
  ss_read_offset : Z
}.

Arguments mkShadowsocksTcpStream {K C S}.
Arguments ss_inner {K C S}.
Arguments ss_cipher_kind {K C S}.
Arguments ss_key {K C S}.
Arguments ss_encrypt_cipher {K C S}.
Arguments ss_decrypt_cipher {K C S}.
Arguments ss_read_buffer {K C S}.
Arguments ss_read_offset {K C S}.

#[export] Instance set_ShadowsocksTcpStream {K C S} : Settable (ShadowsocksTcpStream K C S) :=
  fun s =>
  mkShadowsocksTcpStream (ss_inner s) (ss_cipher_kind s) (ss_key s) (ss_encrypt_cipher s)
    (ss_decrypt_cipher s) (ss_read_buffer s) (ss_read_offset s).

Section Shadowsocks.
Context {Crypto : ShadowsocksCrypto} {S : Type} {Stream : ByteStream S}.

Definition ShadowsocksM (A : Type) : Type :=
  SM (ShadowsocksTcpStream CipherKind Cipher S) IoError A.

Definition ss_on_inner {A} (m : SM S IoError A) : ShadowsocksM A :=
  sm_zoom ss_inner (fun inner s => s <| ss_inner := inner |>) id m.

Definition shadowsocks_cipher_kind (cipher : string) : result IoError CipherKind :=
  match parse_cipher_kind (trim cipher) with
  | Err error =>
      Err (mkIoError InvalidInput ("unsupported shadowsocks cipher " +:+ cipher +:+ ": " +:+ error))
  | Panic => Panic
  | Ok kind =>
      if negb (kind_is_aead kind)
      then Err (mkIoError InvalidInput
                  ("unsupported shadowsocks cipher category: " +:+ kind_name kind))
      else Ok kind
  end.

Definition shadowsocks_key (kind : CipherKind) (password : string) : list Z :=
  openssl_bytes_to_key (as_bytes password) (key_len kind).

(** The first step of [read_next_chunk]: the salt of the peer opens its cipher. *)
Definition ss_open_decrypt_cipher : ShadowsocksM bool :=
  s <-! sm_get;
  match ss_decrypt_cipher s with
  | Some _ => sm_ret true
  | None =>
      salt <-! ss_on_inner (read_exact_or_clean_eof (salt_len (ss_cipher_kind s)));
      match salt with
      | None => sm_ret false
      | Some salt =>
          do! sm_modify (fun s =>
            s <| ss_decrypt_cipher := Some (Cipher_new (ss_cipher_kind s) (ss_key s) salt) |>);
          sm_ret true
      end
  end.

(** [cipher.decrypt_packet(&mut buffer)] on the stream's cipher. *)
Definition ss_decrypt (buffer : list Z) (error : string) : ShadowsocksM (list Z) :=
  s <-! sm_get;
  match ss_decrypt_cipher s with
  | None => sm_lift Panic
  | Some cipher =>
      let '(cipher, plain) := decrypt_packet cipher buffer in
      do! sm_modify (fun s => s <| ss_decrypt_cipher := Some cipher |>);
      match plain with
      | Some plain => sm_ret plain
      | None => io_fail InvalidData error
      end
  end.

Definition ss_tag_len : ShadowsocksM Z :=
  s <-! sm_get;
  match ss_decrypt_cipher s with
  | Some cipher => sm_ret (tag_len cipher)
  | None => sm_lift Panic
  end.

(** [read_next_chunk]. *)
Definition ss_read_next_chunk : ShadowsocksM bool :=
  opened <-! ss_open_decrypt_cipher;
  if negb opened then sm_ret false
  else
    tag_len <-! ss_tag_len;
    encrypted_len <-! ss_on_inner (read_exact_or_clean_eof (2 + tag_len));
    match encrypted_len with
    | None => sm_ret false
    | Some encrypted_len =>
        plain <-! ss_decrypt encrypted_len "invalid shadowsocks chunk length tag";
        b0 <-! sm_lift (index plain 0); b1 <-! sm_lift (index plain 1);
        let payload_len := from_be_bytes [b0; b1] in
        encrypted_payload <-! ss_on_inner (read_exact_or_clean_eof (payload_len + tag_len));
        match encrypted_payload with
        | None => io_fail UnexpectedEof "missing shadowsocks chunk payload"
        | Some encrypted_payload =>
            plain <-! ss_decrypt encrypted_payload "invalid shadowsocks chunk payload tag";
            do! sm_modify (fun s => s <| ss_read_buffer := take (Z.to_nat payload_len) plain |>
                                      <| ss_read_offset := 0 |>);
            sm_ret true
        end
    end.

(** [Read::read]. *)
Definition ss_read (amount : Z) : ShadowsocksM (list Z) :=
  if amount =? 0 then sm_ret []
  else
    s <-! sm_get;
    more <-! (if len (ss_read_buffer s) <=? ss_read_offset s
              then ss_read_next_chunk else sm_ret true);
    if negb more then sm_ret []
    else
      s <-! sm_get;
      bytes <-! sm_lift (take_buffered (ss_read_buffer s) (ss_read_offset s) amount);
      let offset := ss_read_offset s + len bytes in
      do! sm_modify (fun s =>
        if len (ss_read_buffer s) <=? offset
        then s <| ss_read_buffer := [] |> <| ss_read_offset := 0 |>
        else s <| ss_read_offset := offset |>);
      sm_ret bytes.

(** [self.encrypt_cipher.encrypt_packet(&mut buffer)] with the plain bytes at the front of
    a zeroed buffer, and the write of what it gives. *)
Definition ss_write_packet (plain : list Z) : ShadowsocksM unit :=
  s <-! sm_get;
  let '(cipher, packet) :=
    encrypt_packet (ss_encrypt_cipher s) (plain ++ zeroed (tag_len (ss_encrypt_cipher s))) in
  do! sm_modify (fun s => s <| ss_encrypt_cipher := cipher |>);
  ss_on_inner (write_all packet).

(** [write_chunk]. *)
Definition ss_write_chunk (payload : list Z) : ShadowsocksM unit :=
  do! ss_write_packet (to_be_bytes 2 (as_u16 (len payload)));
  ss_write_packet payload.

Fixpoint ss_write_chunks (chunks : list (list Z)) : ShadowsocksM unit :=
  match chunks with
  | [] => sm_ret tt
  | chunk :: chunks' => do! ss_write_chunk chunk; ss_write_chunks chunks'
  end.

(** [Write::write]. *)
Definition ss_write (buffer : list Z) : ShadowsocksM Z :=
  do! ss_write_chunks (chunks u16_max buffer);
  sm_ret (len buffer).
End Shadowsocks.

(** ** VMess *)

Definition VMESS_WRITE_CHUNK_SIZE : Z := 15000.

Inductive VmessBodySecurity : Type :=
| VmessBody_None
| VmessBody_Aes128Gcm
| VmessBody_Chacha20Poly1305.

#[export] Instance VmessBodySecurity_eq_dec : EqDecision VmessBodySecurity.
Proof. solve_decision. Defined.

Record VmessClientRequest : Type := mkVmessClientRequest {
  request_body_key : list Z;
  request_body_iv : list Z;
  response_body_key : list Z;
  response_body_iv : list Z;
  response_header : Z
}.

(** The algorithms VMess uses: key, nonce, message, and additional data for AES-GCM. *)
Class VmessCrypto := {
  Xof : Type;
  shake128 : list Z -> Xof;
  xof_read : Xof -> Z -> Xof * list Z;
  aes128_gcm_encrypt : list Z -> list Z -> list Z -> list Z -> result unit (list Z);
  aes128_gcm_decrypt : list Z -> list Z -> list Z -> list Z -> result unit (list Z);
  chacha20_poly1305_encrypt : list Z -> list Z -> list Z -> result unit (list Z);
  chacha20_poly1305_decrypt : list Z -> list Z -> list Z -> result unit (list Z);
  aes128_encrypt_block : list Z -> list Z -> list Z;
  md5 : list Z -> list Z;
  sha256 : list Z -> list Z;
  hmac_sha256 : list Z -> list Z -> list Z;
  crc32 : list Z -> Z
}.

Record VmessAeadStream (X S : Type) : Type := mkVmessAeadStream {
  vmess_inner : S;
  vmess_security : VmessBodySecurity;
  vmess_read_key : list Z;
  vmess_read_iv : list Z;
  vmess_read_counter : Z;
  vmess_read_mask : X;
  vmess_read_buffer : list Z;
  vmess_read_offset : Z;
  vmess_write_key : list Z;
  vmess_write_iv : list Z;
  vmess_write_counter : Z;
  vmess_write_mask : X
}.

Arguments mkVmessAeadStream {X S}.
Arguments vmess_inner {X S}.
Arguments vmess_security {X S}.
Arguments vmess_read_key {X S}.
Arguments vmess_read_iv {X S}.
Arguments vmess_read_counter {X S}.
Arguments vmess_read_mask {X S}.
Arguments vmess_read_buffer {X S}.
Arguments vmess_read_offset {X S}.
Arguments vmess_write_key {X S}.
Arguments vmess_write_iv {X S}.
Arguments vmess_write_counter {X S}.
Arguments vmess_write_mask {X S}.

#[export] Instance set_VmessAeadStream {X S} : Settable (VmessAeadStream X S) := fun s =>
  mkVmessAeadStream (vmess_inner s) (vmess_security s) (vmess_read_key s) (vmess_read_iv s)
    (vmess_read_counter s) (vmess_read_mask s) (vmess_read_buffer s) (vmess_read_offset s)
    (vmess_write_key s) (vmess_write_iv s) (vmess_write_counter s) (vmess_write_mask s).

Section Vmess.
Context {Crypto : VmessCrypto}.

Definition vmess_chunk_mask_reader (nonce : list Z) : Xof := shake128 nonce.

Definition vmess_next_chunk_mask (reader : Xof) : Xof * Z :=
  let '(reader, mask) := xof_read reader 2 in (reader, from_be_bytes mask).

(** [base[..12]] with the counter in its first two bytes. *)
Definition vmess_body_nonce (base : list Z) (counter : Z) : result IoError (list Z) :=
  nonce <-? slice base 0 12;
  copy_range nonce 0 2 (to_be_bytes 2 counter).

Definition vmess_aes_gcm_seal (key nonce input aad : list Z) : result IoError (list Z) :=
  map_err (fun _ => mkIoError OtherKind "vmess aes-gcm seal failed")
    (aes128_gcm_encrypt key nonce input aad).

Definition vmess_aes_gcm_open (key nonce input aad : list Z) : result IoError (list Z) :=
  map_err (fun _ => mkIoError PermissionDenied "vmess aes-gcm open failed")
    (aes128_gcm_decrypt key nonce input aad).

Definition vmess_chacha20_poly1305_key (input : list Z) : list Z :=
  let first := md5 input in first ++ md5 first.

Definition vmess_chacha20_poly1305_seal (key nonce input : list Z) : result IoError (list Z) :=
  map_err (fun _ => mkIoError OtherKind "vmess chacha20-poly1305 seal failed")
    (chacha20_poly1305_encrypt key nonce input).

Definition vmess_chacha20_poly1305_open (key nonce input : list Z) : result IoError (list Z) :=
  map_err (fun _ => mkIoError PermissionDenied "vmess chacha20-poly1305 open failed")
    (chacha20_poly1305_decrypt key nonce input).

Definition vmess_body_seal (security : VmessBodySecurity) (key nonce input : list Z)
  : result IoError (list Z) :=
  match security with
  | VmessBody_Aes128Gcm => vmess_aes_gcm_seal key nonce input []
  | VmessBody_Chacha20Poly1305 =>
      vmess_chacha20_poly1305_seal (vmess_chacha20_poly1305_key key) nonce input
  | VmessBody_None =>
      Err (mkIoError InvalidInput "vmess none security does not use AEAD body chunks")
  end.

Definition vmess_body_open (security : VmessBodySecurity) (key nonce input : list Z)
  : result IoError (list Z) :=
  match security with
  | VmessBody_Aes128Gcm => vmess_aes_gcm_open key nonce input []
  | VmessBody_Chacha20Poly1305 =>
      vmess_chacha20_poly1305_open (vmess_chacha20_poly1305_key key) nonce input
  | VmessBody_None =>
      Err (mkIoError InvalidInput "vmess none security does not use AEAD body chunks")
  end.

Section Body.
Context {S : Type} {Stream : ByteStream S}.

Definition VmessAeadStream_new (inner : S) (request : VmessClientRequest)
  (security : VmessBodySecurity) : VmessAeadStream Xof S :=
  mkVmessAeadStream inner security (response_body_key request) (response_body_iv request) 0
    (vmess_chunk_mask_reader (response_body_iv request)) [] 0
    (request_body_key request) (request_body_iv request) 0
    (vmess_chunk_mask_reader (request_body_iv request)).

Definition VmessM (A : Type) : Type := SM (VmessAeadStream Xof S) IoError A.

Definition vmess_on_inner {A} (m : SM S IoError A) : VmessM A :=
  sm_zoom vmess_inner (fun inner s => s <| vmess_inner := inner |>) id m.

(** [u16::wrapping_add]. *)
Definition wrapping_add16 (x y : Z) : Z := (x + y) mod 65536.

(** [read_next_chunk]. *)
Definition vmess_read_next_chunk : VmessM bool :=
  length_bytes <-! vmess_on_inner (read_exact_or_clean_eof 2);
  match length_bytes with
  | None => sm_ret false
  | Some length_bytes =>
      s <-! sm_get;
      let '(mask_reader, mask) := vmess_next_chunk_mask (vmess_read_mask s) in
      do! sm_modify (fun s => s <| vmess_read_mask := mask_reader |>);
      let encrypted_len := Z.lxor (from_be_bytes length_bytes) mask in
      encrypted_payload <-! vmess_on_inner (read_exact encrypted_len);
      nonce <-! sm_lift (vmess_body_nonce (vmess_read_iv s) (vmess_read_counter s));
      do! sm_modify (fun s =>
        s <| vmess_read_counter := wrapping_add16 (vmess_read_counter s) 1 |>);
      plain <-! sm_lift (vmess_body_open (vmess_security s) (vmess_read_key s) nonce
                           encrypted_payload);
      do! sm_modify (fun s => s <| vmess_read_buffer := plain |> <| vmess_read_offset := 0 |>);
      sm_ret (negb (is_empty plain))
  end.

(** [Read::read]. *)
Definition vmess_read (amount : Z) : VmessM (list Z) :=
  if amount =? 0 then sm_ret []
  else
    s <-! sm_get;
    more <-! (if len (vmess_read_buffer s) <=? vmess_read_offset s
              then vmess_read_next_chunk else sm_ret true);
    if negb more then sm_ret []
    else
      s <-! sm_get;
      bytes <-! sm_lift (take_buffered (vmess_read_buffer s) (vmess_read_offset s) amount);
      do! sm_modify (fun s => s <| vmess_read_offset := vmess_read_offset s + len bytes |>);
      sm_ret bytes.

(** One turn of the loop of [Write::write]. *)
Definition vmess_write_chunk (chunk : list Z) : VmessM unit :=
  s <-! sm_get;
  nonce <-! sm_lift (vmess_body_nonce (vmess_write_iv s) (vmess_write_counter s));
  do! sm_modify (fun s =>
    s <| vmess_write_counter := wrapping_add16 (vmess_write_counter s) 1 |>);
  encrypted_payload <-! sm_lift (vmess_body_seal (vmess_security s) (vmess_write_key s) nonce
                                   chunk);
  if u16_max <? len encrypted_payload then io_fail InvalidInput "vmess chunk is too large"
  else
    let '(mask_writer, mask) := vmess_next_chunk_mask (vmess_write_mask s) in
    do! sm_modify (fun s => s <| vmess_write_mask := mask_writer |>);
    do! vmess_on_inner (write_all (to_be_bytes 2 (Z.lxor (len encrypted_payload) mask)));
    vmess_on_inner (write_all encrypted_payload).

Fixpoint vmess_write_chunks (chunks : list (list Z)) : VmessM unit :=
  match chunks with
  | [] => sm_ret tt
  | chunk :: chunks' => do! vmess_write_chunk chunk; vmess_write_chunks chunks'
  end.

(** [Write::write]. *)
Definition vmess_write (buffer : list Z) : VmessM Z :=
  if is_empty buffer then sm_ret 0
  else
    do! vmess_write_chunks (chunks VMESS_WRITE_CHUNK_SIZE buffer);
    sm_ret (len buffer).
End Body.
End Vmess.
