(* ===== verification/Vmess.v ===== *)
(** * VMess headers

    [crates/keli-net-core/src/direct.rs]: the request header that opens a VMess
    connection, sealed with keys derived from the user's identifier, and the response
    header. The cryptographic algorithms are those of [Framed.VmessCrypto]; random values
    and the time of day are arguments. *)

From Stdlib Require Import Ascii.
From stdpp Require Import base strings list numbers.
From S2P Require Import Prelude.
From S2P Require Import StdNet.
From S2P Require Import StdIo.
From S2P Require Import Relay.
From S2P Require Import Profile.
From S2P Require Import Codec.
From S2P Require Import ProxyWire.
From S2P Require Import Framed.
#[local] Open Scope Z_scope.

Definition VMESS_VERSION : Z := 1.
Definition VMESS_COMMAND_TCP : Z := 1.
Definition VMESS_COMMAND_UDP : Z := 2.
Definition VMESS_ATYP_IPV4 : Z := 1.
Definition VMESS_ATYP_DOMAIN : Z := 2.
Definition VMESS_ATYP_IPV6 : Z := 3.
Definition VMESS_OPTION_CHUNK_STREAM : Z := 1.
Definition VMESS_OPTION_CHUNK_MASKING : Z := 4.
Definition VMESS_SECURITY_AES_128_GCM : Z := 3.
Definition VMESS_SECURITY_CHACHA20_POLY1305 : Z := 4.
Definition VMESS_SECURITY_NONE : Z := 5.
Definition VMESS_KDF_ROOT : list Z := as_bytes "VMess AEAD KDF".
Definition VMESS_AUTH_ID_KEY : list Z := as_bytes "AES Auth ID Encryption".
Definition VMESS_HEADER_LENGTH_KEY : list Z := as_bytes "VMess Header AEAD Key_Length".
Definition VMESS_HEADER_LENGTH_NONCE : list Z := as_bytes "VMess Header AEAD Nonce_Length".
Definition VMESS_HEADER_PAYLOAD_KEY : list Z := as_bytes "VMess Header AEAD Key".
Definition VMESS_HEADER_PAYLOAD_NONCE : list Z := as_bytes "VMess Header AEAD Nonce".
Definition VMESS_RESPONSE_HEADER_LENGTH_KEY : list Z := as_bytes "AEAD Resp Header Len Key".
Definition VMESS_RESPONSE_HEADER_LENGTH_IV : list Z := as_bytes "AEAD Resp Header Len IV".
Definition VMESS_RESPONSE_HEADER_PAYLOAD_KEY : list Z := as_bytes "AEAD Resp Header Key".
Definition VMESS_RESPONSE_HEADER_PAYLOAD_IV : list Z := as_bytes "AEAD Resp Header IV".
Definition VMESS_CMD_KEY_SALT : list Z := as_bytes "c48619fe-8f02-49e0-b9e9-edf763e17e21".

(** The random values of one request: [random_array] at its call sites, and
    [unix_timestamp]. *)
Record VmessRandom : Type := mkVmessRandom {
  random_body_key : list Z;
  random_body_iv : list Z;
  random_response_header : list Z;
  random_auth_id : list Z;
  random_nonce : list Z;
  random_timestamp : Z
}.

Definition vmess_request_option (security : VmessBodySecurity) : Z :=
  match security with
  | VmessBody_None => 0
  | VmessBody_Aes128Gcm | VmessBody_Chacha20Poly1305 =>
      Z.lor VMESS_OPTION_CHUNK_STREAM VMESS_OPTION_CHUNK_MASKING
  end.

Definition vmess_request_security (security : VmessBodySecurity) : Z :=
  match security with
  | VmessBody_None => VMESS_SECURITY_NONE
  | VmessBody_Aes128Gcm => VMESS_SECURITY_AES_128_GCM
  | VmessBody_Chacha20Poly1305 => VMESS_SECURITY_CHACHA20_POLY1305
  end.

Definition write_vmess_target_header (output : list Z) (target : Endpoint)
  : result IoError (list Z) :=
  let output := output ++ to_be_bytes 2 (ep_port target) in
  match parse_ipv4 (ep_host target) with
  | Some ip => Ok (output ++ [VMESS_ATYP_IPV4] ++ v4_octets ip)
  | None =>
      match parse_ipv6 (ep_host target) with
      | Some ip => Ok (output ++ [VMESS_ATYP_IPV6] ++ v6_octets ip)
      | None =>
          let host := bare_host (ep_host target) in
          if bad_domain host
          then Err (mkIoError InvalidInput "vmess target host is invalid")
          else Ok (output ++ [VMESS_ATYP_DOMAIN] ++ [as_u8 (len (as_bytes host))] ++ as_bytes host)
      end
  end.

Definition fnv1a (input : list Z) : Z :=
  fold_left (fun hash byte => as_u32 (Z.lxor hash byte * 16777619)) input 2166136261.

(** [u8::from_str_radix(hex, 16)] of two digits, for every pair. *)
Fixpoint vmess_hex_pairs (compact : list Z) : result IoError (list Z) :=
  match compact with
  | a :: b :: compact' =>
      match hex_nibble a, hex_nibble b with
      | Ok high, Ok low =>
          rest <-? vmess_hex_pairs compact';
          Ok (high * 16 + low :: rest)
      | _, _ => Err (mkIoError InvalidInput "invalid digit found in string")
      end
  | _ => Ok []
  end.

Definition parse_vmess_uuid_bytes (value : string) : result IoError (list Z) :=
  let compact := filter (fun byte => byte <> 45) (as_bytes (trim value)) in
  if negb (len compact =? 32) || negb (forallb is_ascii_hexdigit compact)
  then Err (mkIoError InvalidInput "vmess uuid is invalid")
  else vmess_hex_pairs compact.

(** [vec.resize(n, 0)]. *)
Definition resize (n : Z) (l : list Z) : list Z :=
  take (Z.to_nat n) l ++ zeroed (n - len l).

Definition vmess_hmac_with_hash (hash : list Z -> list Z) (key message : list Z) : list Z :=
  let normalized_key := resize 64 (if 64 <? len key then hash key else key) in
  let inner := map (fun key_byte => Z.lxor 54 key_byte) normalized_key in
  let outer := map (fun key_byte => Z.lxor 92 key_byte) normalized_key in
  let inner_hash := hash (inner ++ message) in
  hash (outer ++ inner_hash).

Section Vmess.
Context {Crypto : VmessCrypto}.

Definition vmess_cmd_key (uuid : list Z) : list Z := md5 (uuid ++ VMESS_CMD_KEY_SALT).

(** [vmess_kdf], on the path in reverse: its last element is taken first. *)
Fixpoint vmess_kdf_rev (path : list (list Z)) (key : list Z) : list Z :=
  match path with
  | [] => hmac_sha256 VMESS_KDF_ROOT key
  | tail :: path' => vmess_hmac_with_hash (vmess_kdf_rev path') tail key
  end.

Definition vmess_kdf (key : list Z) (path : list (list Z)) : list Z := vmess_kdf_rev (rev path) key.

(** [vmess_kdf(key, path)[..16]], [first_12], [first_16_sha256]. *)
Definition vmess_kdf16 (key : list Z) (path : list (list Z)) : result IoError (list Z) :=
  slice (vmess_kdf key path) 0 16.

Definition first_12 (input : list Z) : result IoError (list Z) := slice input 0 12.

Definition first_16_sha256 (input : list Z) : result IoError (list Z) := slice (sha256 input) 0 16.

Definition create_vmess_auth_id (cmd_key : list Z) (timestamp : Z) (random : list Z)
  : result IoError (list Z) :=
  let plain := to_be_bytes 8 timestamp ++ random in
  let plain := plain ++ to_be_bytes 4 (crc32 plain) in
  key <-? vmess_kdf16 cmd_key [VMESS_AUTH_ID_KEY];
  Ok (aes128_encrypt_block key plain).

Definition seal_vmess_request_header (cmd_key auth_id nonce header : list Z)
  : result IoError (list Z) :=
  len_key <-? vmess_kdf16 cmd_key [VMESS_HEADER_LENGTH_KEY; auth_id; nonce];
  len_nonce <-? first_12 (vmess_kdf cmd_key [VMESS_HEADER_LENGTH_NONCE; auth_id; nonce]);
  payload_key <-? vmess_kdf16 cmd_key [VMESS_HEADER_PAYLOAD_KEY; auth_id; nonce];
  payload_nonce <-? first_12 (vmess_kdf cmd_key [VMESS_HEADER_PAYLOAD_NONCE; auth_id; nonce]);
  sealed_len <-? vmess_aes_gcm_seal len_key len_nonce (to_be_bytes 2 (as_u16 (len header))) auth_id;
  sealed_header <-? vmess_aes_gcm_seal payload_key payload_nonce header auth_id;
  Ok (auth_id ++ sealed_len ++ nonce ++ sealed_header).

(** The header before it is sealed. *)
Definition vmess_request_header (target : Endpoint) (security : VmessBodySecurity) (command : Z)
  (body_iv body_key : list Z) (response_header : Z) : result IoError (list Z) :=
  header <-? write_vmess_target_header
    ([VMESS_VERSION] ++ body_iv ++ body_key ++ [response_header]
     ++ [vmess_request_option security] ++ [vmess_request_security security] ++ [0] ++ [command])
    target;
  Ok (header ++ to_be_bytes 4 (fnv1a header)).

Section Stream.
Context {S : Type} {Reader : Read S} {Writer : Write S}.

Definition write_vmess_request_header (random : VmessRandom) (uuid : string) (target : Endpoint)
  (security : VmessBodySecurity) (command : Z) : SM S IoError VmessClientRequest :=
  uuid <-! sm_lift (parse_vmess_uuid_bytes uuid);
  let cmd_key := vmess_cmd_key uuid in
  let body_key := random_body_key random in
  let body_iv := random_body_iv random in
  response_header <-! sm_lift (index (random_response_header random) 0);
  header <-! sm_lift (vmess_request_header target security command body_iv body_key
                        response_header);
  auth_id <-! sm_lift (create_vmess_auth_id cmd_key (random_timestamp random)
                         (random_auth_id random));
  sealed <-! sm_lift (seal_vmess_request_header cmd_key auth_id (random_nonce random) header);
  do! write_all sealed;
  response_key <-! sm_lift (first_16_sha256 body_key);
  response_iv <-! sm_lift (first_16_sha256 body_iv);
  sm_ret (mkVmessClientRequest body_key body_iv response_key response_iv response_header).

Definition write_vmess_tcp_request_header (random : VmessRandom) (uuid : string)
  (target : Endpoint) (security : VmessBodySecurity) : SM S IoError VmessClientRequest :=
  write_vmess_request_header random uuid target security VMESS_COMMAND_TCP.

Definition read_vmess_response_header_from_stream (request : VmessClientRequest)
  : SM S IoError unit :=
  len_cipher <-! read_exact 18;
  len_key <-! sm_lift (vmess_kdf16 (response_body_key request) [VMESS_RESPONSE_HEADER_LENGTH_KEY]);
  len_nonce <-! sm_lift (first_12 (vmess_kdf (response_body_iv request)
                                     [VMESS_RESPONSE_HEADER_LENGTH_IV]));
  length <-! sm_lift (vmess_aes_gcm_open len_key len_nonce len_cipher []);
  if negb (len length =? 2) then io_fail InvalidData "invalid vmess response header length"
  else
    b0 <-! sm_lift (index length 0); b1 <-! sm_lift (index length 1);
    payload_cipher <-! read_exact (from_be_bytes [b0; b1] + 16);
    payload_key <-! sm_lift (vmess_kdf16 (response_body_key request)
                               [VMESS_RESPONSE_HEADER_PAYLOAD_KEY]);
    payload_nonce <-! sm_lift (first_12 (vmess_kdf (response_body_iv request)
                                           [VMESS_RESPONSE_HEADER_PAYLOAD_IV]));
    payload <-! sm_lift (vmess_aes_gcm_open payload_key payload_nonce payload_cipher []);
    if len payload <? 4 then io_fail InvalidData "invalid vmess response header"
    else
      first <-! sm_lift (index payload 0);
      if negb (first =? response_header request)
      then io_fail InvalidData "invalid vmess response header"
      else sm_ret tt.
End Stream.
End Vmess.
