(* ===== verification/Network.v ===== *)
(** * Sockets, resolution and direct connections

    What the outbounds of [crates/keli-net-core/src/direct.rs] use of the operating
    system and of the transports, as a class, and the parts of [direct.rs] that resolve
    names and connect directly.

    A stream is a value with its own state, which a method on [&mut self] updates
    ([using_stream]). TLS, QUIC, HTTP/2, gRPC, the WebSocket client and the sessions of Hysteria
    2, TUIC, Naive and Mieru are types of the class with the function that opens them. *)

From stdpp Require Import base strings list numbers.
From S2P Require Import Prelude.
From S2P Require Import StdNet.
From S2P Require Import StdIo.
From S2P Require Import Dns.
From S2P Require Import TunPacket.
From S2P Require Import TunLoop.
From S2P Require Import Socks5.
From S2P Require Import Relay.
From S2P Require Import Profile.
From S2P Require Import Codec.
From S2P Require Import ProxyWire.
From S2P Require Import Framed.
From S2P Require Import Vmess.
#[local] Open Scope Z_scope.

(** [LegacyQuicTransportConfig] of [quic.rs]. *)
Record LegacyQuicTransportConfig : Type := mkLegacyQuicTransportConfig {
  quic_security : option string;
  quic_key : option string;
  quic_header_type : option string
}.

Definition LEGACY_QUIC_INTERNAL_SERVER_NAME : string := "quic.internal.v2fly.org".

Class Network (W : Type) := {
  (* std::net::TcpStream *)
  TcpStream : Type;
  tcp_byte_stream :: ByteStream TcpStream;
  connect_timeout : SocketAddr -> Z -> SM W IoError TcpStream;
  set_nodelay : bool -> SM TcpStream IoError unit;
  peer_addr : TcpStream -> result IoError SocketAddr;
  set_read_timeout : option Z -> SM TcpStream IoError unit;
  set_write_timeout : option Z -> SM TcpStream IoError unit;
  (* std::net::UdpSocket *)
  UdpSocket : Type;
  udp_bind : SocketAddr -> SM W IoError UdpSocket;
  udp_set_read_timeout : UdpSocket -> option Z -> SM W IoError unit;
  udp_set_write_timeout : UdpSocket -> option Z -> SM W IoError unit;
  udp_send_to : UdpSocket -> list Z -> SocketAddr -> SM W IoError Z;
  udp_recv_from : UdpSocket -> Z -> SM W IoError (list Z * SocketAddr);
  (* clocks, random numbers and the system's resolver *)
  instant_now : W -> Z;
  unix_timestamp : W -> Z;
  fill_bytes : Z -> W -> W * list Z;
  to_socket_addrs : W -> string -> result string (list IpAddr);
  (* transports over a connection *)
  TlsTcpStream : Type;
  tls_byte_stream :: ByteStream TlsTcpStream;
  TlsTcpStream_connect : TcpStream -> string -> bool -> result IoError TlsTcpStream;
  WebSocketClientStream : Type;
  websocket_byte_stream :: ByteStream WebSocketClientStream;
  WebSocketClientStream_connect :
    TcpStream -> string -> string -> SM W IoError WebSocketClientStream;
  OwnedWebSocketStream : Type;
  owned_websocket_byte_stream :: ByteStream OwnedWebSocketStream;
  OwnedWebSocketClientStream_connect :
    TlsTcpStream -> string -> string -> SM W IoError OwnedWebSocketStream;
  GrpcTcpStream : Type;
  grpc_byte_stream :: ByteStream GrpcTcpStream;
  GrpcTcpStream_connect_plain :
    TcpStream -> string -> option string -> SM W IoError GrpcTcpStream;
  GrpcTcpStream_connect_tls :
    TcpStream -> string -> bool -> string -> option string -> SM W IoError GrpcTcpStream;
  Http2TcpStream : Type;
  http2_byte_stream :: ByteStream Http2TcpStream;
  Http2TcpStream_connect_plain : TcpStream -> string -> string -> SM W IoError Http2TcpStream;
  Http2TcpStream_connect_tls :
    TcpStream -> string -> bool -> string -> string -> SM W IoError Http2TcpStream;
  (* transports over datagrams *)
  LegacyQuicTcpStream : Type;
  quic_byte_stream :: ByteStream LegacyQuicTcpStream;
  LegacyQuicTcpStream_connect :
    SocketAddr -> SocketAddr -> string -> bool -> LegacyQuicTransportConfig -> Z ->
    SM W IoError LegacyQuicTcpStream;
  (* sessions with their own protocol *)
  Hy2BlockingTcpStream : Type;
  hy2_byte_stream :: ByteStream Hy2BlockingTcpStream;
  Hy2BlockingTcpStream_connect :
    SocketAddr -> SocketAddr -> string -> bool -> string -> Z -> string -> Endpoint -> list Z ->
    SM W IoError Hy2BlockingTcpStream;
  Hy2ClientSession_relay_udp :
    SocketAddr -> SocketAddr -> string -> bool -> string -> Z -> Z -> Endpoint -> list Z -> Z ->
    SM W IoError Hy2UdpMessage;
  TuicBlockingTcpStream : Type;
  tuic_byte_stream :: ByteStream TuicBlockingTcpStream;
  TuicBlockingTcpStream_connect :
    SocketAddr -> SocketAddr -> string -> bool -> string -> string -> Endpoint ->
    SM W IoError TuicBlockingTcpStream;
  TuicClientSession_relay_udp :
    SocketAddr -> SocketAddr -> string -> bool -> string -> string -> Z -> Z -> Endpoint ->
    list Z -> Z -> SM W IoError TuicPacketCommand;
  NaiveH2TcpStream : Type;
  naive_h2_byte_stream :: ByteStream NaiveH2TcpStream;
  NaiveH2TcpStream_connect :
    TcpStream -> string -> bool -> string -> Endpoint -> SM W IoError NaiveH2TcpStream;
  NaiveH3QuicStream : Type;
  naive_h3_byte_stream :: ByteStream NaiveH3QuicStream;
  NaiveH3QuicStream_connect :
    SocketAddr -> SocketAddr -> string -> bool -> string -> Endpoint -> Z ->
    SM W IoError NaiveH3QuicStream;
  MieruTcpStream : Type;
  mieru_byte_stream :: ByteStream MieruTcpStream;
  MieruTcpStream_connect :
    TcpStream -> string -> string -> Endpoint -> SM W IoError MieruTcpStream;
  mieru_clear_timeouts : SM MieruTcpStream IoError unit;
  MieruTcpStream_udp_associate : TcpStream -> string -> string -> SM W IoError MieruTcpStream;
  mieru_write_udp_datagram : OutboundTarget -> list Z -> SM MieruTcpStream IoError unit;
  mieru_read_udp_datagram : Z -> SM MieruTcpStream IoError UdpRelayResponse;
  (* texts of errors, and engines *)
  utf8_error : list Z -> string;
  socks5_error : Socks5Error -> string;
  address_error : string -> string;
  utf8_lossy : list Z -> string;
  base64_encode : list Z -> string;
  sha224 : list Z -> list Z;
  crate_version : string;
  (* the number of frames after which the model gives up on a loop over frames *)
  frame_limit : nat
}.

(** ** Errors *)

(** [Display] and [Debug]. *)
Definition policy_debug (policy : DnsLocalResolutionPolicy) : string :=
  match policy with
  | AllowSystem => "AllowSystem"
  | PreventPublicLeak => "PreventPublicLeak"
  end.

Definition family_debug (policy : DnsAddressFamilyPolicy) : string :=
  match policy with
  | DualStack => "DualStack"
  | Ipv4Only => "Ipv4Only"
  | Ipv6Only => "Ipv6Only"
  end.

Definition DnsError_fmt (error : DnsError) : string :=
  match error with
  | ResolveFailed host detail => "failed to resolve " +:+ host +:+ ": " +:+ detail
  | NoRecords host => "DNS returned no records for " +:+ host
  | LocalResolutionBlocked host policy =>
      "local DNS resolution for " +:+ host +:+ " blocked by " +:+ policy_debug policy
  | AddressFamilyFiltered host policy =>
      "DNS records for " +:+ host +:+ " were filtered by " +:+ family_debug policy
  end.

Definition dns_to_io (error : DnsError) : IoError :=
  mkIoError AddrNotAvailable (DnsError_fmt error).

Definition ProtocolEncodingError_fmt (error : ProtocolEncodingError) : string :=
  match error with
  | Encoding_InvalidUuid => "VLESS credential must be a UUID"
  | InvalidPassword => "Trojan password is empty"
  | InvalidTargetHost => "VLESS target host is invalid"
  | FlowTooLong => "VLESS flow is too long"
  | PacketTooLong => "UDP packet payload is too long"
  end.

Definition protocol_encoding_to_io (error : ProtocolEncodingError) : IoError :=
  mkIoError InvalidInput (ProtocolEncodingError_fmt error).

Definition no_address (what : string) (host : string) (port : Z) : IoError :=
  mkIoError AddrNotAvailable
    ("no address resolved for " +:+ what +:+ host +:+ ":" +:+ to_decimal port).

(** ** The system's resolver *)

(** [SystemDnsResolver], at one moment of the system. *)
Record SystemDnsResolver : Type := mkSystemDnsResolver {
  system_lookup : string -> result string (list IpAddr)
}.

#[export] Instance SystemDnsResolver_DnsResolver : DnsResolver SystemDnsResolver := {
  resolver_resolve self _ host := SystemDnsResolver_resolve (system_lookup self) host
}.

Definition address_of (address : ResolvedAddress) : SocketAddr :=
  mkSocketAddr (resolved_ip address) (resolved_port address).

(** ** Connecting *)

(** A method on a stream that is a local variable. *)
Definition using_stream {T S A} (stream : S) (m : SM S IoError A) : SM T IoError (S * A) :=
  fun s => let '(stream, r) := m stream in (s, result_map (pair stream) r).

(** [rand::thread_rng().fill_bytes] on an array of [n] bytes. *)
Definition random_bytes {W} {Net : Network W} (n : Z) : SM W IoError (list Z) :=
  fun w => let '(w, bytes) := fill_bytes n w in (w, Ok bytes).

Section Connect.
Context {W : Type} {Net : Network W} {R : Type} {Resolver : DnsResolver R}.

(** A method with [dns: &mut DnsEngine<R>]. *)
Definition NM (A : Type) : Type := SM (DnsEngine R * W) IoError A.

Definition net {A} (m : SM W IoError A) : NM A :=
  sm_zoom snd (fun w s => (fst s, w)) id m.

(** [dns.resolve(host, port)] with the error as an [io::Error]. *)
Definition dns_resolve (host : string) (port : Z) : NM (list SocketAddr) :=
  addresses <-! (fun s => sm_zoom fst (fun dns s => (dns, snd s)) dns_to_io
                   (DnsEngine_resolve host port (instant_now (snd s))) s);
  sm_ret (map address_of addresses).

(** The loop over the addresses with [last_error]. *)
Fixpoint try_addresses {A} (attempt : SocketAddr -> SM W IoError A) (addresses : list SocketAddr)
  (last_error : IoError) : SM W IoError A :=
  match addresses with
  | [] => sm_lift (Err last_error)
  | address :: addresses' =>
      fun w =>
        match attempt address w with
        | (w', Err error) => try_addresses attempt addresses' error w'
        | done => done
        end
  end.

(** The loop of [DirectTcpConnector::connect_with_dns]: an error of [set_nodelay] is
    returned at once. *)
Fixpoint connect_addresses (timeout : Z) (addresses : list SocketAddr) (last_error : IoError)
  : SM W IoError TcpStream :=
  match addresses with
  | [] => sm_lift (Err last_error)
  | address :: addresses' =>
      fun w =>
        match connect_timeout address timeout w with
        | (w', Ok stream) =>
            let '(stream, r) := set_nodelay true stream in
            (w', result_map (fun _ => stream) r)
        | (w', Err error) => connect_addresses timeout addresses' error w'
        | (w', Panic) => (w', Panic)
        end
  end.

Definition DirectTcpConnector_connect_with_dns (target : OutboundTarget) (timeout : Z)
  : NM TcpStream :=
  addresses <-! dns_resolve (target_host target) (target_port target);
  net (connect_addresses timeout addresses
         (no_address "" (target_host target) (target_port target))).

Definition hy2_bind_addr_for (server_addr : SocketAddr) : SocketAddr :=
  if is_ipv4 (sa_ip server_addr) then mkSocketAddr (V4 0) 0 else mkSocketAddr (V6 0) 0.

(** One turn of the loops over addresses that send a datagram and wait for the answer:
    [inl] continues with the next address. *)
Definition exchange_datagram (packet : list Z) (timeout : Z) (bind_addr address : SocketAddr)
  : SM W IoError (IoError + list Z * SocketAddr) :=
  fun w =>
    match udp_bind bind_addr w with
    | (w, Err error) => (w, Ok (inl error))
    | (w, Panic) => (w, Panic)
    | (w, Ok socket) =>
        (do! udp_set_read_timeout socket (Some timeout);
         fun w =>
           match udp_send_to socket packet address w with
           | (w, Err error) => (w, Ok (inl error))
           | (w, Panic) => (w, Panic)
           | (w, Ok _) =>
               match udp_recv_from socket 65535 w with
               | (w, Err error) => (w, Ok (inl error))
               | (w, Panic) => (w, Panic)
               | (w, Ok answer) => (w, Ok (inr answer))
               end
           end) w
    end.

Fixpoint exchange_addresses (packet : list Z) (timeout : Z) (addresses : list SocketAddr)
  (last_error : IoError) : SM W IoError (list Z * SocketAddr) :=
  match addresses with
  | [] => sm_lift (Err last_error)
  | address :: addresses' =>
      turn <-! exchange_datagram packet timeout (hy2_bind_addr_for address) address;
      match turn with
      | inl error => exchange_addresses packet timeout addresses' error
      | inr answer => sm_ret answer
      end
  end.

Definition DirectUdpConnector_relay_datagram_with_dns (target : OutboundTarget)
  (payload : list Z) (timeout : Z) : NM UdpRelayResponse :=
  addresses <-! dns_resolve (target_host target) (target_port target);
  '(response, source) <-! net (exchange_addresses payload timeout addresses
                                 (no_address "" (target_host target) (target_port target)));
  sm_ret (mkUdpRelayResponse source response).

Definition resolve_endpoint_socket_addrs_with_dns (endpoint : Endpoint) : NM (list SocketAddr) :=
  dns_resolve (ep_host endpoint) (ep_port endpoint).

Definition connect_legacy_quic_stream (server : Endpoint) (sni : string) (skip_verify : bool)
  (transport : LegacyQuicTransportConfig) (timeout : Z) : NM LegacyQuicTcpStream :=
  addresses <-! resolve_endpoint_socket_addrs_with_dns server;
  net (try_addresses
         (fun server_addr =>
            LegacyQuicTcpStream_connect (hy2_bind_addr_for server_addr) server_addr sni skip_verify
              transport timeout)
         addresses (no_address "" (ep_host server) (ep_port server))).
End Connect.

Arguments NM W R A : clear implicits.

(** ** Addresses of datagrams *)

Section Source.
Context {W : Type} {Net : Network W}.

(** [Duration::from_secs]. *)
Definition from_secs (seconds : Z) : Z := seconds * 1000000000.

(** A computation with [DnsEngine::new(SystemDnsResolver, DnsCache::new(ttl))]. *)
Definition with_system_dns {A} (ttl : Z) (m : NM W SystemDnsResolver A) : SM W IoError A :=
  fun w =>
    let '(s, r) := m (DnsEngine_new (mkSystemDnsResolver (to_socket_addrs w)) (DnsCache_new ttl), w)
    in (snd s, r).

(** [parse::<IpAddr>()], or else the first address of [dns.resolve]. *)
Definition address_or_resolve {R} `{DnsResolver R} (what host shown : string) (port : Z)
  : NM W R SocketAddr :=
  match parse_ip_addr host with
  | Some ip => sm_ret (mkSocketAddr ip port)
  | None =>
      addresses <-! dns_resolve host port;
      sm_lift (ok_or (no_address what shown port) (head addresses))
  end.

Definition outbound_target_socket_addr_with_dns {R} `{DnsResolver R} (target : OutboundTarget)
  : NM W R SocketAddr :=
  address_or_resolve "outbound target " (bare_host (target_host target)) (target_host target)
    (target_port target).

Definition outbound_target_socket_addr (target : OutboundTarget) (timeout : Z)
  : SM W IoError SocketAddr :=
  with_system_dns timeout (outbound_target_socket_addr_with_dns target).

Definition trojan_endpoint_socket_addr (endpoint : Endpoint) (timeout : Z)
  : SM W IoError SocketAddr :=
  with_system_dns timeout
    (address_or_resolve "Trojan UDP source " (bare_host (ep_host endpoint)) (ep_host endpoint)
       (ep_port endpoint)).

(** [ip.is_unspecified()]. *)
Definition is_unspecified (ip : IpAddr) : bool :=
  match ip with V4 a => a =? 0 | V6 a => a =? 0 end.

Definition socks5_udp_relay_addr (relay : Endpoint) (control_peer : SocketAddr) (timeout : Z)
  : SM W IoError SocketAddr :=
  let host := bare_host (ep_host relay) in
  match parse_ip_addr host with
  | Some ip =>
      sm_ret (mkSocketAddr (if is_unspecified ip then sa_ip control_peer else ip) (ep_port relay))
  | None =>
      with_system_dns timeout
        (addresses <-! dns_resolve host (ep_port relay);
         sm_lift (ok_or (no_address "SOCKS5 UDP relay " (ep_host relay) (ep_port relay))
                    (head addresses)))
  end.

Definition socks5_udp_source_addr (address : Socks5Address) (port timeout : Z)
  : SM W IoError SocketAddr :=
  match address with
  | Socks5_Ipv4 ip => sm_ret (mkSocketAddr (V4 ip) port)
  | Socks5_Ipv6 ip => sm_ret (mkSocketAddr (V6 ip) port)
  | Socks5_Domain host =>
      with_system_dns timeout
        (addresses <-! dns_resolve host port;
         sm_lift (ok_or (no_address "SOCKS5 UDP source " host port) (head addresses)))
  end.

Definition endpoint_to_socket_addr (endpoint : Endpoint) : result IoError SocketAddr :=
  let host := bare_host (ep_host endpoint) in
  match parse_ip_addr host with
  | Some ip => Ok (mkSocketAddr ip (ep_port endpoint))
  | None => Err (mkIoError AddrNotAvailable (address_error host))
  end.
End Source.

(** [DirectTcpConnector::connect], [DirectUdpConnector::relay_datagram]. *)
Section Direct.
Context {W : Type} {Net : Network W}.

Definition DirectTcpConnector_connect (target : OutboundTarget) (timeout : Z)
  : SM W IoError TcpStream :=
  with_system_dns (from_secs 60) (DirectTcpConnector_connect_with_dns target timeout).

Definition DirectUdpConnector_relay_datagram (target : OutboundTarget) (payload : list Z)
  (timeout : Z) : SM W IoError UdpRelayResponse :=
  with_system_dns (from_secs 60) (DirectUdpConnector_relay_datagram_with_dns target payload timeout).
End Direct.
