(* ===== verification/Outbound.v ===== *)
(** * Connections of the outbounds

    [crates/keli-net-core/src/direct.rs]: the result of connecting an outbound, and the
    datagrams that VLESS, Trojan and VMess carry over any stream. *)

From stdpp Require Import base strings list numbers.
From S2P Require Import Prelude.
From S2P Require Import StdNet.
From S2P Require Import StdIo.
From S2P Require Import Dns.
From S2P Require Import TunPacket.
From S2P Require Import TunLoop.
From S2P Require Import Relay.
From S2P Require Import Profile.
From S2P Require Import Codec.
From S2P Require Import ProxyWire.
From S2P Require Import Framed.
From S2P Require Import Vmess.
From S2P Require Import Network.
#[local] Open Scope Z_scope.

(** [OutboundConnection]; [Owned] holds a [Box<dyn OwnedRelayStream>]. *)
Inductive OutboundConnection {W : Type} {Net : Network W} : Type :=
| Connection_Tcp (stream : TcpStream)
| Connection_WebSocket (stream : WebSocketClientStream)
| Connection_Owned {S : Type} {Stream : OwnedRelayStream S} (stream : S).

Arguments OutboundConnection W {Net}.

(** [Read], [Write] and [OwnedRelayStream] of a connection: those of the stream in it. *)
Section Connection.
Context {W : Type} {Net : Network W}.

Definition on_stream {S A} (wrap : S -> OutboundConnection W) (stream : S) (m : SM S IoError A)
  : OutboundConnection W * result IoError A :=
  let '(stream, r) := m stream in (wrap stream, r).

Definition connection_read (amount : Z) : SM (OutboundConnection W) IoError (list Z) :=
  fun self =>
    match self with
    | Connection_Tcp stream => on_stream Connection_Tcp stream (stream_read amount)
    | Connection_WebSocket stream => on_stream Connection_WebSocket stream (stream_read amount)
    | Connection_Owned stream => on_stream Connection_Owned stream (stream_read amount)
    end.

Definition connection_write (buffer : list Z) : SM (OutboundConnection W) IoError Z :=
  fun self =>
    match self with
    | Connection_Tcp stream => on_stream Connection_Tcp stream (stream_write buffer)
    | Connection_WebSocket stream => on_stream Connection_WebSocket stream (stream_write buffer)
    | Connection_Owned stream => on_stream Connection_Owned stream (stream_write buffer)
    end.

Definition connection_flush : SM (OutboundConnection W) IoError unit :=
  fun self =>
    match self with
    | Connection_Tcp stream => on_stream Connection_Tcp stream stream_flush
    | Connection_WebSocket stream => on_stream Connection_WebSocket stream stream_flush
    | Connection_Owned stream => on_stream Connection_Owned stream stream_flush
    end.

Definition connection_set_nonblocking_mode (nonblocking : bool)
  : SM (OutboundConnection W) IoError unit :=
  fun self =>
    match self with
    | Connection_Tcp stream => on_stream Connection_Tcp stream (set_nonblocking_mode nonblocking)
    | Connection_WebSocket stream =>
        on_stream Connection_WebSocket stream (set_nonblocking_mode nonblocking)
    | Connection_Owned stream =>
        on_stream Connection_Owned stream (set_nonblocking_mode nonblocking)
    end.

Definition connection_shutdown_write : SM (OutboundConnection W) IoError unit :=
  fun self =>
    match self with
    | Connection_Tcp stream => on_stream Connection_Tcp stream shutdown_write
    | Connection_WebSocket stream => on_stream Connection_WebSocket stream shutdown_write
    | Connection_Owned stream => on_stream Connection_Owned stream shutdown_write
    end.

Definition connection_shutdown_both : SM (OutboundConnection W) IoError unit :=
  fun self =>
    match self with
    | Connection_Tcp stream => on_stream Connection_Tcp stream shutdown_both
    | Connection_WebSocket stream => on_stream Connection_WebSocket stream shutdown_both
    | Connection_Owned stream => on_stream Connection_Owned stream shutdown_both
    end.

#[export] Instance OutboundConnection_relay : OwnedRelayStream (OutboundConnection W) := {
  stream_read := connection_read;
  stream_write := connection_write;
  stream_flush := connection_flush;
  set_nonblocking_mode := connection_set_nonblocking_mode;
  shutdown_write := connection_shutdown_write;
  shutdown_both := connection_shutdown_both
}.
End Connection.

(** [OwnedRelayStream for VmessAeadStream<S>]. *)
#[export] Instance VmessAeadStream_relay {Crypto : VmessCrypto} {S} {Stream : ByteStream S}
  : OwnedRelayStream (VmessAeadStream Xof S) := {
  stream_read := vmess_read;
  stream_write := vmess_write;
  stream_flush := vmess_on_inner stream_flush;
  set_nonblocking_mode nonblocking := vmess_on_inner (set_nonblocking_mode nonblocking);
  shutdown_write := vmess_on_inner shutdown_write;
  shutdown_both := vmess_on_inner shutdown_both
}.

Section Outbound.
Context {W : Type} {Net : Network W} {Crypto : VmessCrypto}.

Definition vmess_connection_from_stream {S} {Stream : ByteStream S} (stream : S)
  (request : VmessClientRequest) (security : VmessBodySecurity) : OutboundConnection W :=
  match security with
  | VmessBody_None => Connection_Owned stream
  | _ => Connection_Owned (VmessAeadStream_new stream request security)
  end.

(** The random values of a VMess request; they are drawn before it is built. *)
Definition vmess_random : SM W IoError VmessRandom :=
  body_key <-! random_bytes 16;
  body_iv <-! random_bytes 16;
  response_header <-! random_bytes 1;
  auth_id <-! random_bytes 4;
  nonce <-! random_bytes 8;
  w <-! sm_get;
  sm_ret (mkVmessRandom body_key body_iv response_header auth_id nonce (unix_timestamp w)).

Section Datagram.
Context {S : Type} {Stream : ByteStream S}.

Definition send_vless_udp_over_stream (stream : S) (uuid : string) (flow : option string)
  (target : OutboundTarget) (payload : list Z) (timeout : Z) : SM W IoError UdpRelayResponse :=
  if match flow with Some value => negb (String.eqb (trim value) "") | None => false end
  then io_fail Unsupported "VLESS UDP outbound does not support flow"
  else
    let target_endpoint := mkEndpoint (target_host target) (target_port target) in
    header <-! sm_lift (map_err protocol_encoding_to_io
                          (encode_vless_udp_request_header uuid target_endpoint));
    '(stream, _) <-! using_stream stream (write_all header);
    '(stream, _) <-! using_stream stream read_vless_response_header_from_stream;
    '(stream, _) <-! using_stream stream (write_vless_udp_payload payload);
    '(stream, _) <-! using_stream stream flush;
    '(stream, response) <-! using_stream stream read_vless_udp_payload;
    source <-! outbound_target_socket_addr target timeout;
    sm_ret (mkUdpRelayResponse source response).

Definition read_trojan_udp_packet (stream : S) (timeout : Z) : SM W IoError UdpRelayResponse :=
  '(stream, (source, payload)) <-! using_stream stream read_trojan_udp_frame;
  source <-! trojan_endpoint_socket_addr source timeout;
  sm_ret (mkUdpRelayResponse source payload).

Definition send_trojan_udp_over_stream (stream : S) (password : string) (target : OutboundTarget)
  (payload : list Z) (timeout : Z) : SM W IoError UdpRelayResponse :=
  let target_endpoint := mkEndpoint (target_host target) (target_port target) in
  header <-! sm_lift (map_err protocol_encoding_to_io
                        (encode_trojan_udp_request_header sha224 password target_endpoint));
  packet <-! sm_lift (map_err protocol_encoding_to_io
                        (encode_trojan_udp_packet target_endpoint payload));
  '(stream, _) <-! using_stream stream (write_all header);
  '(stream, _) <-! using_stream stream (write_all packet);
  '(stream, _) <-! using_stream stream flush;
  read_trojan_udp_packet stream timeout.

(** [body.write_all(payload)]: a write of VMess takes the whole buffer. *)
Definition vmess_write_all (payload : list Z) : SM (VmessAeadStream Xof S) IoError unit :=
  if is_empty payload then sm_ret tt else do! vmess_write payload; sm_ret tt.

Definition send_vmess_udp_over_stream (stream : S) (uuid : string) (security : VmessBodySecurity)
  (target : OutboundTarget) (payload : list Z) (timeout : Z) : SM W IoError UdpRelayResponse :=
  if bool_decide (security = VmessBody_None)
  then io_fail Unsupported "VMess UDP outbound requires AEAD body security"
  else
    let target_endpoint := mkEndpoint (target_host target) (target_port target) in
    random <-! vmess_random;
    '(stream, request) <-! using_stream stream
       (write_vmess_request_header random uuid target_endpoint security VMESS_COMMAND_UDP);
    '(stream, _) <-! using_stream stream flush;
    '(stream, _) <-! using_stream stream (read_vmess_response_header_from_stream request);
    let body := VmessAeadStream_new stream request security in
    '(body, _) <-! using_stream body (vmess_write_all payload);
    '(body, _) <-! using_stream body (vmess_on_inner flush);
    '(body, response) <-! using_stream body (vmess_read 65535);
    if is_empty response
    then io_fail UnexpectedEof "VMess UDP outbound returned no response packet"
    else
      source <-! outbound_target_socket_addr target timeout;
      sm_ret (mkUdpRelayResponse source response).
End Datagram.
End Outbound.
