(* ===== verification/OutboundVless.v ===== *)
(** * VLESS outbounds

    [crates/keli-net-core/src/direct.rs]: VLESS over TCP, WebSocket, HTTP upgrade, gRPC
    and HTTP/2, each with and without TLS, and over QUIC. *)

From stdpp Require Import base strings list numbers.
From S2P Require Import Prelude.
From S2P Require Import StdNet.
From S2P Require Import StdIo.
From S2P Require Import Dns.
From S2P Require Import TunPacket.
From S2P Require Import TunLoop.
From S2P Require Import Relay.
From S2P Require Import Profile.
From S2P Require Import Codec.
From S2P Require Import ProxyWire.
From S2P Require Import Framed.
From S2P Require Import Vmess.
From S2P Require Import Network.
From S2P Require Import Outbound.
#[local] Open Scope Z_scope.

Record VlessTcpOutbound : Type := mkVlessTcpOutbound {
  VlessTcp_server : Endpoint;
  VlessTcp_uuid : string;
  VlessTcp_flow : option string
}.

Record VlessTlsTcpOutbound : Type := mkVlessTlsTcpOutbound {
  VlessTlsTcp_server : Endpoint;
  VlessTlsTcp_uuid : string;
  VlessTlsTcp_flow : option string;
  VlessTlsTcp_sni : string;
  VlessTlsTcp_skip_verify : bool
}.

Record VlessWsOutbound : Type := mkVlessWsOutbound {
  VlessWs_server : Endpoint;
  VlessWs_host : string;
  VlessWs_path : string;
  VlessWs_uuid : string;
  VlessWs_flow : option string
}.

Record VlessTlsWsOutbound : Type := mkVlessTlsWsOutbound {
  VlessTlsWs_server : Endpoint;
  VlessTlsWs_host : string;
  VlessTlsWs_path : string;
  VlessTlsWs_uuid : string;
  VlessTlsWs_flow : option string;
  VlessTlsWs_sni : string;
  VlessTlsWs_skip_verify : bool
}.

Record VlessHttpUpgradeOutbound : Type := mkVlessHttpUpgradeOutbound {
  VlessHttpUpgrade_server : Endpoint;
  VlessHttpUpgrade_host : string;
  VlessHttpUpgrade_path : string;
  VlessHttpUpgrade_uuid : string;
  VlessHttpUpgrade_flow : option string
}.

Record VlessTlsHttpUpgradeOutbound : Type := mkVlessTlsHttpUpgradeOutbound {
  VlessTlsHttpUpgrade_server : Endpoint;
  VlessTlsHttpUpgrade_host : string;
  VlessTlsHttpUpgrade_path : string;
  VlessTlsHttpUpgrade_uuid : string;
  VlessTlsHttpUpgrade_flow : option string;
  VlessTlsHttpUpgrade_sni : string;
  VlessTlsHttpUpgrade_skip_verify : bool
}.

Record VlessGrpcOutbound : Type := mkVlessGrpcOutbound {
  VlessGrpc_server : Endpoint;
  VlessGrpc_host : string;
  VlessGrpc_service_name : option string;
  VlessGrpc_uuid : string;
  VlessGrpc_flow : option string
}.

Record VlessTlsGrpcOutbound : Type := mkVlessTlsGrpcOutbound {
  VlessTlsGrpc_server : Endpoint;
  VlessTlsGrpc_host : string;
  VlessTlsGrpc_service_name : option string;
  VlessTlsGrpc_uuid : string;
  VlessTlsGrpc_flow : option string;
  VlessTlsGrpc_sni : string;
  VlessTlsGrpc_skip_verify : bool
}.

Record VlessH2Outbound : Type := mkVlessH2Outbound {
  VlessH2_server : Endpoint;
  VlessH2_host : string;
  VlessH2_path : string;
  VlessH2_uuid : string;
  VlessH2_flow : option string
}.

Record VlessTlsH2Outbound : Type := mkVlessTlsH2Outbound {
  VlessTlsH2_server : Endpoint;
  VlessTlsH2_host : string;
  VlessTlsH2_path : string;
  VlessTlsH2_uuid : string;
  VlessTlsH2_flow : option string;
  VlessTlsH2_sni : string;
  VlessTlsH2_skip_verify : bool
}.

Record VlessQuicOutbound : Type := mkVlessQuicOutbound {
  VlessQuic_server : Endpoint;
  VlessQuic_uuid : string;
  VlessQuic_flow : option string;
  VlessQuic_sni : string;
  VlessQuic_skip_verify : bool;
  VlessQuic_transport : LegacyQuicTransportConfig
}.

Section Connect.
Context {W : Type} {Net : Network W} {R : Type} {Resolver : DnsResolver R}.

Definition VlessTcp_connect_with_dns (self : VlessTcpOutbound) (target : OutboundTarget)
  (timeout : Z) : NM W R (OutboundConnection W) :=
  let server := OutboundTarget_new (ep_host (VlessTcp_server self))
      (ep_port (VlessTcp_server self)) in
  stream <-! DirectTcpConnector_connect_with_dns server timeout;
  let target := mkEndpoint (target_host target) (target_port target) in
  header <-! sm_lift (map_err protocol_encoding_to_io (encode_vless_tcp_request_header
      (VlessTcp_uuid self) target (VlessTcp_flow self)));
  '(stream, _) <-! using_stream stream (write_all header);
  '(stream, _) <-! using_stream stream read_vless_response_header_from_stream;
  sm_ret (Connection_Tcp stream).

Definition VlessTcp_relay_udp_datagram_with_dns (self : VlessTcpOutbound)
  (target : OutboundTarget) (payload : list Z) (timeout : Z) : NM W R UdpRelayResponse :=
  let server := OutboundTarget_new (ep_host (VlessTcp_server self))
      (ep_port (VlessTcp_server self)) in
  stream <-! DirectTcpConnector_connect_with_dns server timeout;
  net (send_vless_udp_over_stream stream (VlessTcp_uuid self) (VlessTcp_flow self) target payload
      timeout).

Definition VlessTlsTcp_connect_with_dns (self : VlessTlsTcpOutbound) (target : OutboundTarget)
  (timeout : Z) : NM W R (OutboundConnection W) :=
  let server := OutboundTarget_new (ep_host (VlessTlsTcp_server self))
      (ep_port (VlessTlsTcp_server self)) in
  stream <-! DirectTcpConnector_connect_with_dns server timeout;
  stream <-! sm_lift (TlsTcpStream_connect stream (VlessTlsTcp_sni self)
      (VlessTlsTcp_skip_verify self));
  let target := mkEndpoint (target_host target) (target_port target) in
  header <-! sm_lift (map_err protocol_encoding_to_io (encode_vless_tcp_request_header
      (VlessTlsTcp_uuid self) target (VlessTlsTcp_flow self)));
  '(stream, _) <-! using_stream stream (write_all header);
  '(stream, _) <-! using_stream stream read_vless_response_header_from_stream;
  sm_ret (Connection_Owned stream).

Definition VlessTlsTcp_relay_udp_datagram_with_dns (self : VlessTlsTcpOutbound)
  (target : OutboundTarget) (payload : list Z) (timeout : Z) : NM W R UdpRelayResponse :=
  let server := OutboundTarget_new (ep_host (VlessTlsTcp_server self))
      (ep_port (VlessTlsTcp_server self)) in
  stream <-! DirectTcpConnector_connect_with_dns server timeout;
  stream <-! sm_lift (TlsTcpStream_connect stream (VlessTlsTcp_sni self)
      (VlessTlsTcp_skip_verify self));
  net (send_vless_udp_over_stream stream (VlessTlsTcp_uuid self) (VlessTlsTcp_flow self) target
      payload timeout).

Definition VlessWs_connect_with_dns (self : VlessWsOutbound) (target : OutboundTarget)
  (timeout : Z) : NM W R (OutboundConnection W) :=
  let server := OutboundTarget_new (ep_host (VlessWs_server self))
      (ep_port (VlessWs_server self)) in
  stream <-! DirectTcpConnector_connect_with_dns server timeout;
  stream <-! net (WebSocketClientStream_connect stream (VlessWs_host self) (VlessWs_path self));
  let target := mkEndpoint (target_host target) (target_port target) in
  header <-! sm_lift (map_err protocol_encoding_to_io (encode_vless_tcp_request_header
      (VlessWs_uuid self) target (VlessWs_flow self)));
  '(stream, _) <-! using_stream stream (write_all header);
  '(stream, _) <-! using_stream stream flush;
  '(stream, _) <-! using_stream stream read_vless_response_header_from_stream;
  sm_ret (Connection_WebSocket stream).

Definition VlessWs_relay_udp_datagram_with_dns (self : VlessWsOutbound)
  (target : OutboundTarget) (payload : list Z) (timeout : Z) : NM W R UdpRelayResponse :=
  let server := OutboundTarget_new (ep_host (VlessWs_server self))
      (ep_port (VlessWs_server self)) in
  stream <-! DirectTcpConnector_connect_with_dns server timeout;
  stream <-! net (WebSocketClientStream_connect stream (VlessWs_host self) (VlessWs_path self));
  net (send_vless_udp_over_stream stream (VlessWs_uuid self) (VlessWs_flow self) target payload
      timeout).

Definition VlessTlsWs_connect_with_dns (self : VlessTlsWsOutbound) (target : OutboundTarget)
  (timeout : Z) : NM W R (OutboundConnection W) :=
  let server := OutboundTarget_new (ep_host (VlessTlsWs_server self))
      (ep_port (VlessTlsWs_server self)) in
  stream <-! DirectTcpConnector_connect_with_dns server timeout;
  stream <-! sm_lift (TlsTcpStream_connect stream (VlessTlsWs_sni self)
      (VlessTlsWs_skip_verify self));
  stream <-! net (OwnedWebSocketClientStream_connect stream (VlessTlsWs_host self)
      (VlessTlsWs_path self));
  let target := mkEndpoint (target_host target) (target_port target) in
  header <-! sm_lift (map_err protocol_encoding_to_io (encode_vless_tcp_request_header
      (VlessTlsWs_uuid self) target (VlessTlsWs_flow self)));
  '(stream, _) <-! using_stream stream (write_all header);
  '(stream, _) <-! using_stream stream flush;
  '(stream, _) <-! using_stream stream read_vless_response_header_from_stream;
  sm_ret (Connection_Owned stream).

Definition VlessTlsWs_relay_udp_datagram_with_dns (self : VlessTlsWsOutbound)
  (target : OutboundTarget) (payload : list Z) (timeout : Z) : NM W R UdpRelayResponse :=
  let server := OutboundTarget_new (ep_host (VlessTlsWs_server self))
      (ep_port (VlessTlsWs_server self)) in
  stream <-! DirectTcpConnector_connect_with_dns server timeout;
  stream <-! sm_lift (TlsTcpStream_connect stream (VlessTlsWs_sni self)
      (VlessTlsWs_skip_verify self));
  stream <-! net (OwnedWebSocketClientStream_connect stream (VlessTlsWs_host self)
      (VlessTlsWs_path self));
  net (send_vless_udp_over_stream stream (VlessTlsWs_uuid self) (VlessTlsWs_flow self) target
      payload timeout).

Definition VlessHttpUpgrade_connect_with_dns (self : VlessHttpUpgradeOutbound) (target : OutboundTarget)
  (timeout : Z) : NM W R (OutboundConnection W) :=
  let server := OutboundTarget_new (ep_host (VlessHttpUpgrade_server self))
      (ep_port (VlessHttpUpgrade_server self)) in
  stream <-! DirectTcpConnector_connect_with_dns server timeout;
  '(stream, _) <-! using_stream stream (connect_httpupgrade_client utf8_error
      (VlessHttpUpgrade_host self) (VlessHttpUpgrade_path self));
  let target := mkEndpoint (target_host target) (target_port target) in
  header <-! sm_lift (map_err protocol_encoding_to_io (encode_vless_tcp_request_header
      (VlessHttpUpgrade_uuid self) target (VlessHttpUpgrade_flow self)));
  '(stream, _) <-! using_stream stream (write_all header);
  '(stream, _) <-! using_stream stream read_vless_response_header_from_stream;
  sm_ret (Connection_Tcp stream).

Definition VlessHttpUpgrade_relay_udp_datagram_with_dns (self : VlessHttpUpgradeOutbound)
  (target : OutboundTarget) (payload : list Z) (timeout : Z) : NM W R UdpRelayResponse :=
  let server := OutboundTarget_new (ep_host (VlessHttpUpgrade_server self))
      (ep_port (VlessHttpUpgrade_server self)) in
  stream <-! DirectTcpConnector_connect_with_dns server timeout;
  '(stream, _) <-! using_stream stream (connect_httpupgrade_client utf8_error
      (VlessHttpUpgrade_host self) (VlessHttpUpgrade_path self));
  net (send_vless_udp_over_stream stream (VlessHttpUpgrade_uuid self)
      (VlessHttpUpgrade_flow self) target payload timeout).

Definition VlessTlsHttpUpgrade_connect_with_dns (self : VlessTlsHttpUpgradeOutbound) (target : OutboundTarget)
  (timeout : Z) : NM W R (OutboundConnection W) :=
  let server := OutboundTarget_new (ep_host (VlessTlsHttpUpgrade_server self))
      (ep_port (VlessTlsHttpUpgrade_server self)) in
  stream <-! DirectTcpConnector_connect_with_dns server timeout;
  stream <-! sm_lift (TlsTcpStream_connect stream (VlessTlsHttpUpgrade_sni self)
      (VlessTlsHttpUpgrade_skip_verify self));
  '(stream, _) <-! using_stream stream (connect_httpupgrade_client utf8_error
      (VlessTlsHttpUpgrade_host self) (VlessTlsHttpUpgrade_path self));
  let target := mkEndpoint (target_host target) (target_port target) in
  header <-! sm_lift (map_err protocol_encoding_to_io (encode_vless_tcp_request_header
      (VlessTlsHttpUpgrade_uuid self) target (VlessTlsHttpUpgrade_flow self)));
  '(stream, _) <-! using_stream stream (write_all header);
  '(stream, _) <-! using_stream stream read_vless_response_header_from_stream;
  sm_ret (Connection_Owned stream).

Definition VlessTlsHttpUpgrade_relay_udp_datagram_with_dns (self : VlessTlsHttpUpgradeOutbound)
  (target : OutboundTarget) (payload : list Z) (timeout : Z) : NM W R UdpRelayResponse :=
  let server := OutboundTarget_new (ep_host (VlessTlsHttpUpgrade_server self))
      (ep_port (VlessTlsHttpUpgrade_server self)) in
  stream <-! DirectTcpConnector_connect_with_dns server timeout;
  stream <-! sm_lift (TlsTcpStream_connect stream (VlessTlsHttpUpgrade_sni self)
      (VlessTlsHttpUpgrade_skip_verify self));
  '(stream, _) <-! using_stream stream (connect_httpupgrade_client utf8_error
      (VlessTlsHttpUpgrade_host self) (VlessTlsHttpUpgrade_path self));
  net (send_vless_udp_over_stream stream (VlessTlsHttpUpgrade_uuid self)
      (VlessTlsHttpUpgrade_flow self) target payload timeout).

Definition VlessGrpc_connect_with_dns (self : VlessGrpcOutbound) (target : OutboundTarget)
  (timeout : Z) : NM W R (OutboundConnection W) :=
  let server := OutboundTarget_new (ep_host (VlessGrpc_server self))
      (ep_port (VlessGrpc_server self)) in
  stream <-! DirectTcpConnector_connect_with_dns server timeout;
  stream <-! net (GrpcTcpStream_connect_plain stream (VlessGrpc_host self)
      (VlessGrpc_service_name self));
  let target := mkEndpoint (target_host target) (target_port target) in
  header <-! sm_lift (map_err protocol_encoding_to_io (encode_vless_tcp_request_header
      (VlessGrpc_uuid self) target (VlessGrpc_flow self)));
  '(stream, _) <-! using_stream stream (write_all header);
  '(stream, _) <-! using_stream stream read_vless_response_header_from_stream;
  sm_ret (Connection_Owned stream).

Definition VlessGrpc_relay_udp_datagram_with_dns (self : VlessGrpcOutbound)
  (target : OutboundTarget) (payload : list Z) (timeout : Z) : NM W R UdpRelayResponse :=
  let server := OutboundTarget_new (ep_host (VlessGrpc_server self))
      (ep_port (VlessGrpc_server self)) in
  stream <-! DirectTcpConnector_connect_with_dns server timeout;
  stream <-! net (GrpcTcpStream_connect_plain stream (VlessGrpc_host self)
      (VlessGrpc_service_name self));
  net (send_vless_udp_over_stream stream (VlessGrpc_uuid self) (VlessGrpc_flow self) target
      payload timeout).

Definition VlessTlsGrpc_connect_with_dns (self : VlessTlsGrpcOutbound) (target : OutboundTarget)
  (timeout : Z) : NM W R (OutboundConnection W) :=
  let server := OutboundTarget_new (ep_host (VlessTlsGrpc_server self))
      (ep_port (VlessTlsGrpc_server self)) in
  stream <-! DirectTcpConnector_connect_with_dns server timeout;
  stream <-! net (GrpcTcpStream_connect_tls stream (VlessTlsGrpc_sni self)
      (VlessTlsGrpc_skip_verify self) (VlessTlsGrpc_host self) (VlessTlsGrpc_service_name self));
  let target := mkEndpoint (target_host target) (target_port target) in
  header <-! sm_lift (map_err protocol_encoding_to_io (encode_vless_tcp_request_header
      (VlessTlsGrpc_uuid self) target (VlessTlsGrpc_flow self)));
  '(stream, _) <-! using_stream stream (write_all header);
  '(stream, _) <-! using_stream stream read_vless_response_header_from_stream;
  sm_ret (Connection_Owned stream).

Definition VlessTlsGrpc_relay_udp_datagram_with_dns (self : VlessTlsGrpcOutbound)
  (target : OutboundTarget) (payload : list Z) (timeout : Z) : NM W R UdpRelayResponse :=
  let server := OutboundTarget_new (ep_host (VlessTlsGrpc_server self))
      (ep_port (VlessTlsGrpc_server self)) in
  stream <-! DirectTcpConnector_connect_with_dns server timeout;
  stream <-! net (GrpcTcpStream_connect_tls stream (VlessTlsGrpc_sni self)
      (VlessTlsGrpc_skip_verify self) (VlessTlsGrpc_host self) (VlessTlsGrpc_service_name self));
  net (send_vless_udp_over_stream stream (VlessTlsGrpc_uuid self) (VlessTlsGrpc_flow self) target
      payload timeout).

Definition VlessH2_connect_with_dns (self : VlessH2Outbound) (target : OutboundTarget)
  (timeout : Z) : NM W R (OutboundConnection W) :=
  let server := OutboundTarget_new (ep_host (VlessH2_server self))
      (ep_port (VlessH2_server self)) in
  stream <-! DirectTcpConnector_connect_with_dns server timeout;
  stream <-! net (Http2TcpStream_connect_plain stream (VlessH2_host self) (VlessH2_path self));
  let target := mkEndpoint (target_host target) (target_port target) in
  header <-! sm_lift (map_err protocol_encoding_to_io (encode_vless_tcp_request_header
      (VlessH2_uuid self) target (VlessH2_flow self)));
  '(stream, _) <-! using_stream stream (write_all header);
  '(stream, _) <-! using_stream stream read_vless_response_header_from_stream;
  sm_ret (Connection_Owned stream).

Definition VlessH2_relay_udp_datagram_with_dns (self : VlessH2Outbound)
  (target : OutboundTarget) (payload : list Z) (timeout : Z) : NM W R UdpRelayResponse :=
  let server := OutboundTarget_new (ep_host (VlessH2_server self))
      (ep_port (VlessH2_server self)) in
  stream <-! DirectTcpConnector_connect_with_dns server timeout;
  stream <-! net (Http2TcpStream_connect_plain stream (VlessH2_host self) (VlessH2_path self));
  net (send_vless_udp_over_stream stream (VlessH2_uuid self) (VlessH2_flow self) target payload
      timeout).

Definition VlessTlsH2_connect_with_dns (self : VlessTlsH2Outbound) (target : OutboundTarget)
  (timeout : Z) : NM W R (OutboundConnection W) :=
  let server := OutboundTarget_new (ep_host (VlessTlsH2_server self))
      (ep_port (VlessTlsH2_server self)) in
  stream <-! DirectTcpConnector_connect_with_dns server timeout;
  stream <-! net (Http2TcpStream_connect_tls stream (VlessTlsH2_sni self)
      (VlessTlsH2_skip_verify self) (VlessTlsH2_host self) (VlessTlsH2_path self));
  let target := mkEndpoint (target_host target) (target_port target) in
  header <-! sm_lift (map_err protocol_encoding_to_io (encode_vless_tcp_request_header
      (VlessTlsH2_uuid self) target (VlessTlsH2_flow self)));
  '(stream, _) <-! using_stream stream (write_all header);
  '(stream, _) <-! using_stream stream read_vless_response_header_from_stream;
  sm_ret (Connection_Owned stream).

Definition VlessTlsH2_relay_udp_datagram_with_dns (self : VlessTlsH2Outbound)
  (target : OutboundTarget) (payload : list Z) (timeout : Z) : NM W R UdpRelayResponse :=
  let server := OutboundTarget_new (ep_host (VlessTlsH2_server self))
      (ep_port (VlessTlsH2_server self)) in
  stream <-! DirectTcpConnector_connect_with_dns server timeout;
  stream <-! net (Http2TcpStream_connect_tls stream (VlessTlsH2_sni self)
      (VlessTlsH2_skip_verify self) (VlessTlsH2_host self) (VlessTlsH2_path self));
  net (send_vless_udp_over_stream stream (VlessTlsH2_uuid self) (VlessTlsH2_flow self) target
      payload timeout).

Definition VlessQuic_connect_with_dns (self : VlessQuicOutbound) (target : OutboundTarget)
  (timeout : Z) : NM W R (OutboundConnection W) :=
  stream <-! connect_legacy_quic_stream (VlessQuic_server self) (VlessQuic_sni self)
      (VlessQuic_skip_verify self) (VlessQuic_transport self) timeout;
  let target := mkEndpoint (target_host target) (target_port target) in
  header <-! sm_lift (map_err protocol_encoding_to_io (encode_vless_tcp_request_header
      (VlessQuic_uuid self) target (VlessQuic_flow self)));
  '(stream, _) <-! using_stream stream (write_all header);
  '(stream, _) <-! using_stream stream read_vless_response_header_from_stream;
  sm_ret (Connection_Owned stream).

Definition VlessQuic_relay_udp_datagram_with_dns (self : VlessQuicOutbound)
  (target : OutboundTarget) (payload : list Z) (timeout : Z) : NM W R UdpRelayResponse :=
  stream <-! connect_legacy_quic_stream (VlessQuic_server self) (VlessQuic_sni self)
      (VlessQuic_skip_verify self) (VlessQuic_transport self) timeout;
  net (send_vless_udp_over_stream stream (VlessQuic_uuid self) (VlessQuic_flow self) target
      payload timeout).
End Connect.

(** [connect] and [relay_udp_datagram]: with an engine over the system's resolver. *)

Section SystemDns.
Context {W : Type} {Net : Network W}.

Definition VlessTcp_connect (self : VlessTcpOutbound) (target : OutboundTarget) (timeout : Z)
  : SM W IoError (OutboundConnection W) :=
  with_system_dns (from_secs 60) (VlessTcp_connect_with_dns self target timeout).

Definition VlessTcp_relay_udp_datagram (self : VlessTcpOutbound) (target : OutboundTarget)
  (payload : list Z) (timeout : Z) : SM W IoError UdpRelayResponse :=
  with_system_dns (from_secs 60)
    (VlessTcp_relay_udp_datagram_with_dns self target payload timeout).

Definition VlessTlsTcp_connect (self : VlessTlsTcpOutbound) (target : OutboundTarget) (timeout : Z)
  : SM W IoError (OutboundConnection W) :=
  with_system_dns (from_secs 60) (VlessTlsTcp_connect_with_dns self target timeout).

Definition VlessTlsTcp_relay_udp_datagram (self : VlessTlsTcpOutbound) (target : OutboundTarget)
  (payload : list Z) (timeout : Z) : SM W IoError UdpRelayResponse :=
  with_system_dns (from_secs 60)
    (VlessTlsTcp_relay_udp_datagram_with_dns self target payload timeout).

Definition VlessWs_connect (self : VlessWsOutbound) (target : OutboundTarget) (timeout : Z)
  : SM W IoError (OutboundConnection W) :=
  with_system_dns (from_secs 60) (VlessWs_connect_with_dns self target timeout).

Definition VlessWs_relay_udp_datagram (self : VlessWsOutbound) (target : OutboundTarget)
  (payload : list Z) (timeout : Z) : SM W IoError UdpRelayResponse :=
  with_system_dns (from_secs 60)
    (VlessWs_relay_udp_datagram_with_dns self target payload timeout).

Definition VlessTlsWs_connect (self : VlessTlsWsOutbound) (target : OutboundTarget) (timeout : Z)
  : SM W IoError (OutboundConnection W) :=
  with_system_dns (from_secs 60) (VlessTlsWs_connect_with_dns self target timeout).

Definition VlessTlsWs_relay_udp_datagram (self : VlessTlsWsOutbound) (target : OutboundTarget)
  (payload : list Z) (timeout : Z) : SM W IoError UdpRelayResponse :=
  with_system_dns (from_secs 60)
    (VlessTlsWs_relay_udp_datagram_with_dns self target payload timeout).

Definition VlessHttpUpgrade_connect (self : VlessHttpUpgradeOutbound) (target : OutboundTarget) (timeout : Z)
  : SM W IoError (OutboundConnection W) :=
  with_system_dns (from_secs 60) (VlessHttpUpgrade_connect_with_dns self target timeout).

Definition VlessHttpUpgrade_relay_udp_datagram (self : VlessHttpUpgradeOutbound) (target : OutboundTarget)
  (payload : list Z) (timeout : Z) : SM W IoError UdpRelayResponse :=
  with_system_dns (from_secs 60)
    (VlessHttpUpgrade_relay_udp_datagram_with_dns self target payload timeout).

Definition VlessTlsHttpUpgrade_connect (self : VlessTlsHttpUpgradeOutbound) (target : OutboundTarget) (timeout : Z)
  : SM W IoError (OutboundConnection W) :=
  with_system_dns (from_secs 60) (VlessTlsHttpUpgrade_connect_with_dns self target timeout).

Definition VlessTlsHttpUpgrade_relay_udp_datagram (self : VlessTlsHttpUpgradeOutbound) (target : OutboundTarget)
  (payload : list Z) (timeout : Z) : SM W IoError UdpRelayResponse :=
  with_system_dns (from_secs 60)
    (VlessTlsHttpUpgrade_relay_udp_datagram_with_dns self target payload timeout).

Definition VlessGrpc_connect (self : VlessGrpcOutbound) (target : OutboundTarget) (timeout : Z)
  : SM W IoError (OutboundConnection W) :=
  with_system_dns (from_secs 60) (VlessGrpc_connect_with_dns self target timeout).

Definition VlessGrpc_relay_udp_datagram (self : VlessGrpcOutbound) (target : OutboundTarget)
  (payload : list Z) (timeout : Z) : SM W IoError UdpRelayResponse :=
  with_system_dns (from_secs 60)
    (VlessGrpc_relay_udp_datagram_with_dns self target payload timeout).

Definition VlessTlsGrpc_connect (self : VlessTlsGrpcOutbound) (target : OutboundTarget) (timeout : Z)
  : SM W IoError (OutboundConnection W) :=
  with_system_dns (from_secs 60) (VlessTlsGrpc_connect_with_dns self target timeout).

Definition VlessTlsGrpc_relay_udp_datagram (self : VlessTlsGrpcOutbound) (target : OutboundTarget)
  (payload : list Z) (timeout : Z) : SM W IoError UdpRelayResponse :=
  with_system_dns (from_secs 60)
    (VlessTlsGrpc_relay_udp_datagram_with_dns self target payload timeout).

Definition VlessH2_connect (self : VlessH2Outbound) (target : OutboundTarget) (timeout : Z)
  : SM W IoError (OutboundConnection W) :=
  with_system_dns (from_secs 60) (VlessH2_connect_with_dns self target timeout).

Definition VlessH2_relay_udp_datagram (self : VlessH2Outbound) (target : OutboundTarget)
  (payload : list Z) (timeout : Z) : SM W IoError UdpRelayResponse :=
  with_system_dns (from_secs 60)
    (VlessH2_relay_udp_datagram_with_dns self target payload timeout).

Definition VlessTlsH2_connect (self : VlessTlsH2Outbound) (target : OutboundTarget) (timeout : Z)
  : SM W IoError (OutboundConnection W) :=
  with_system_dns (from_secs 60) (VlessTlsH2_connect_with_dns self target timeout).

Definition VlessTlsH2_relay_udp_datagram (self : VlessTlsH2Outbound) (target : OutboundTarget)
  (payload : list Z) (timeout : Z) : SM W IoError UdpRelayResponse :=
  with_system_dns (from_secs 60)
    (VlessTlsH2_relay_udp_datagram_with_dns self target payload timeout).

Definition VlessQuic_connect (self : VlessQuicOutbound) (target : OutboundTarget) (timeout : Z)
  : SM W IoError (OutboundConnection W) :=
  with_system_dns (from_secs 60) (VlessQuic_connect_with_dns self target timeout).

Definition VlessQuic_relay_udp_datagram (self : VlessQuicOutbound) (target : OutboundTarget)
  (payload : list Z) (timeout : Z) : SM W IoError UdpRelayResponse :=
  with_system_dns (from_secs 60)
    (VlessQuic_relay_udp_datagram_with_dns self target payload timeout).
End SystemDns.
