(* ===== verification/OutboundTrojan.v ===== *)
(** * Trojan outbounds

    [crates/keli-net-core/src/direct.rs]: Trojan over TCP, WebSocket, HTTP upgrade, gRPC
    and HTTP/2, each with and without TLS, and over QUIC. *)

From stdpp Require Import base strings list numbers.
From S2P Require Import Prelude.
From S2P Require Import StdNet.
From S2P Require Import StdIo.
From S2P Require Import Dns.
From S2P Require Import TunPacket.
From S2P Require Import TunLoop.
From S2P Require Import Relay.
From S2P Require Import Profile.
From S2P Require Import Codec.
From S2P Require Import ProxyWire.
From S2P Require Import Framed.
From S2P Require Import Vmess.
From S2P Require Import Network.
From S2P Require Import Outbound.
#[local] Open Scope Z_scope.

Record TrojanTcpOutbound : Type := mkTrojanTcpOutbound {
  TrojanTcp_server : Endpoint;
  TrojanTcp_password : string
}.

Record TrojanTlsTcpOutbound : Type := mkTrojanTlsTcpOutbound {
  TrojanTlsTcp_server : Endpoint;
  TrojanTlsTcp_password : string;
  TrojanTlsTcp_sni : string;
  TrojanTlsTcp_skip_verify : bool
}.

Record TrojanWsOutbound : Type := mkTrojanWsOutbound {
  TrojanWs_server : Endpoint;
  TrojanWs_host : string;
  TrojanWs_path : string;
  TrojanWs_password : string
}.

Record TrojanTlsWsOutbound : Type := mkTrojanTlsWsOutbound {
  TrojanTlsWs_server : Endpoint;
  TrojanTlsWs_host : string;
  TrojanTlsWs_path : string;
  TrojanTlsWs_password : string;
  TrojanTlsWs_sni : string;
  TrojanTlsWs_skip_verify : bool
}.

Record TrojanHttpUpgradeOutbound : Type := mkTrojanHttpUpgradeOutbound {
  TrojanHttpUpgrade_server : Endpoint;
  TrojanHttpUpgrade_host : string;
  TrojanHttpUpgrade_path : string;
  TrojanHttpUpgrade_password : string
}.

Record TrojanTlsHttpUpgradeOutbound : Type := mkTrojanTlsHttpUpgradeOutbound {
  TrojanTlsHttpUpgrade_server : Endpoint;
  TrojanTlsHttpUpgrade_host : string;
  TrojanTlsHttpUpgrade_path : string;
  TrojanTlsHttpUpgrade_password : string;
  TrojanTlsHttpUpgrade_sni : string;
  TrojanTlsHttpUpgrade_skip_verify : bool
}.

Record TrojanGrpcOutbound : Type := mkTrojanGrpcOutbound {
  TrojanGrpc_server : Endpoint;
  TrojanGrpc_host : string;
  TrojanGrpc_service_name : option string;
  TrojanGrpc_password : string
}.

Record TrojanTlsGrpcOutbound : Type := mkTrojanTlsGrpcOutbound {
  TrojanTlsGrpc_server : Endpoint;
  TrojanTlsGrpc_host : string;
  TrojanTlsGrpc_service_name : option string;
  TrojanTlsGrpc_password : string;
  TrojanTlsGrpc_sni : string;
  TrojanTlsGrpc_skip_verify : bool
}.

Record TrojanH2Outbound : Type := mkTrojanH2Outbound {
  TrojanH2_server : Endpoint;
  TrojanH2_host : string;
  TrojanH2_path : string;
  TrojanH2_password : string
}.

Record TrojanTlsH2Outbound : Type := mkTrojanTlsH2Outbound {
  TrojanTlsH2_server : Endpoint;
  TrojanTlsH2_host : string;
  TrojanTlsH2_path : string;
  TrojanTlsH2_password : string;
  TrojanTlsH2_sni : string;
  TrojanTlsH2_skip_verify : bool
}.

Record TrojanQuicOutbound : Type := mkTrojanQuicOutbound {
  TrojanQuic_server : Endpoint;
  TrojanQuic_password : string;
  TrojanQuic_sni : string;
  TrojanQuic_skip_verify : bool;
  TrojanQuic_transport : LegacyQuicTransportConfig
}.

Section Connect.
Context {W : Type} {Net : Network W} {R : Type} {Resolver : DnsResolver R}.

Definition TrojanTcp_connect_with_dns (self : TrojanTcpOutbound) (target : OutboundTarget)
  (timeout : Z) : NM W R (OutboundConnection W) :=
  let server := OutboundTarget_new (ep_host (TrojanTcp_server self))
      (ep_port (TrojanTcp_server self)) in
  stream <-! DirectTcpConnector_connect_with_dns server timeout;
  let target := mkEndpoint (target_host target) (target_port target) in
  header <-! sm_lift (map_err protocol_encoding_to_io (encode_trojan_tcp_request_header sha224
      (TrojanTcp_password self) target));
  '(stream, _) <-! using_stream stream (write_all header);
  sm_ret (Connection_Tcp stream).

Definition TrojanTcp_relay_udp_datagram_with_dns (self : TrojanTcpOutbound)
  (target : OutboundTarget) (payload : list Z) (timeout : Z) : NM W R UdpRelayResponse :=
  let server := OutboundTarget_new (ep_host (TrojanTcp_server self))
      (ep_port (TrojanTcp_server self)) in
  stream <-! DirectTcpConnector_connect_with_dns server timeout;
  net (send_trojan_udp_over_stream stream (TrojanTcp_password self) target payload timeout).

Definition TrojanTlsTcp_connect_with_dns (self : TrojanTlsTcpOutbound) (target : OutboundTarget)
  (timeout : Z) : NM W R (OutboundConnection W) :=
  let server := OutboundTarget_new (ep_host (TrojanTlsTcp_server self))
      (ep_port (TrojanTlsTcp_server self)) in
  stream <-! DirectTcpConnector_connect_with_dns server timeout;
  stream <-! sm_lift (TlsTcpStream_connect stream (TrojanTlsTcp_sni self)
      (TrojanTlsTcp_skip_verify self));
  let target := mkEndpoint (target_host target) (target_port target) in
  header <-! sm_lift (map_err protocol_encoding_to_io (encode_trojan_tcp_request_header sha224
      (TrojanTlsTcp_password self) target));
  '(stream, _) <-! using_stream stream (write_all header);
  sm_ret (Connection_Owned stream).

Definition TrojanTlsTcp_relay_udp_datagram_with_dns (self : TrojanTlsTcpOutbound)
  (target : OutboundTarget) (payload : list Z) (timeout : Z) : NM W R UdpRelayResponse :=
  let server := OutboundTarget_new (ep_host (TrojanTlsTcp_server self))
      (ep_port (TrojanTlsTcp_server self)) in
  stream <-! DirectTcpConnector_connect_with_dns server timeout;
  stream <-! sm_lift (TlsTcpStream_connect stream (TrojanTlsTcp_sni self)
      (TrojanTlsTcp_skip_verify self));
  net (send_trojan_udp_over_stream stream (TrojanTlsTcp_password self) target payload timeout).

Definition TrojanWs_connect_with_dns (self : TrojanWsOutbound) (target : OutboundTarget)
  (timeout : Z) : NM W R (OutboundConnection W) :=
  let server := OutboundTarget_new (ep_host (TrojanWs_server self))
      (ep_port (TrojanWs_server self)) in
  stream <-! DirectTcpConnector_connect_with_dns server timeout;
  stream <-! net (WebSocketClientStream_connect stream (TrojanWs_host self)
      (TrojanWs_path self));
  let target := mkEndpoint (target_host target) (target_port target) in
  header <-! sm_lift (map_err protocol_encoding_to_io (encode_trojan_tcp_request_header sha224
      (TrojanWs_password self) target));
  '(stream, _) <-! using_stream stream (write_all header);
  '(stream, _) <-! using_stream stream flush;
  sm_ret (Connection_WebSocket stream).

Definition TrojanWs_relay_udp_datagram_with_dns (self : TrojanWsOutbound)
  (target : OutboundTarget) (payload : list Z) (timeout : Z) : NM W R UdpRelayResponse :=
  let server := OutboundTarget_new (ep_host (TrojanWs_server self))
      (ep_port (TrojanWs_server self)) in
  stream <-! DirectTcpConnector_connect_with_dns server timeout;
  stream <-! net (WebSocketClientStream_connect stream (TrojanWs_host self)
      (TrojanWs_path self));
  net (send_trojan_udp_over_stream stream (TrojanWs_password self) target payload timeout).

Definition TrojanTlsWs_connect_with_dns (self : TrojanTlsWsOutbound) (target : OutboundTarget)
  (timeout : Z) : NM W R (OutboundConnection W) :=
  let server := OutboundTarget_new (ep_host (TrojanTlsWs_server self))
      (ep_port (TrojanTlsWs_server self)) in
  stream <-! DirectTcpConnector_connect_with_dns server timeout;
  stream <-! sm_lift (TlsTcpStream_connect stream (TrojanTlsWs_sni self)
      (TrojanTlsWs_skip_verify self));
  stream <-! net (OwnedWebSocketClientStream_connect stream (TrojanTlsWs_host self)
      (TrojanTlsWs_path self));
  let target := mkEndpoint (target_host target) (target_port target) in
  header <-! sm_lift (map_err protocol_encoding_to_io (encode_trojan_tcp_request_header sha224
      (TrojanTlsWs_password self) target));
  '(stream, _) <-! using_stream stream (write_all header);
  '(stream, _) <-! using_stream stream flush;
  sm_ret (Connection_Owned stream).

Definition TrojanTlsWs_relay_udp_datagram_with_dns (self : TrojanTlsWsOutbound)
  (target : OutboundTarget) (payload : list Z) (timeout : Z) : NM W R UdpRelayResponse :=
  let server := OutboundTarget_new (ep_host (TrojanTlsWs_server self))
      (ep_port (TrojanTlsWs_server self)) in
  stream <-! DirectTcpConnector_connect_with_dns server timeout;
  stream <-! sm_lift (TlsTcpStream_connect stream (TrojanTlsWs_sni self)
      (TrojanTlsWs_skip_verify self));
  stream <-! net (OwnedWebSocketClientStream_connect stream (TrojanTlsWs_host self)
      (TrojanTlsWs_path self));
  net (send_trojan_udp_over_stream stream (TrojanTlsWs_password self) target payload timeout).

Definition TrojanHttpUpgrade_connect_with_dns (self : TrojanHttpUpgradeOutbound) (target : OutboundTarget)
  (timeout : Z) : NM W R (OutboundConnection W) :=
  let server := OutboundTarget_new (ep_host (TrojanHttpUpgrade_server self))
      (ep_port (TrojanHttpUpgrade_server self)) in
  stream <-! DirectTcpConnector_connect_with_dns server timeout;
  '(stream, _) <-! using_stream stream (connect_httpupgrade_client utf8_error
      (TrojanHttpUpgrade_host self) (TrojanHttpUpgrade_path self));
  let target := mkEndpoint (target_host target) (target_port target) in
  header <-! sm_lift (map_err protocol_encoding_to_io (encode_trojan_tcp_request_header sha224
      (TrojanHttpUpgrade_password self) target));
  '(stream, _) <-! using_stream stream (write_all header);
  sm_ret (Connection_Tcp stream).

Definition TrojanHttpUpgrade_relay_udp_datagram_with_dns (self : TrojanHttpUpgradeOutbound)
  (target : OutboundTarget) (payload : list Z) (timeout : Z) : NM W R UdpRelayResponse :=
  let server := OutboundTarget_new (ep_host (TrojanHttpUpgrade_server self))
      (ep_port (TrojanHttpUpgrade_server self)) in
  stream <-! DirectTcpConnector_connect_with_dns server timeout;
  '(stream, _) <-! using_stream stream (connect_httpupgrade_client utf8_error
      (TrojanHttpUpgrade_host self) (TrojanHttpUpgrade_path self));
  net (send_trojan_udp_over_stream stream (TrojanHttpUpgrade_password self) target payload
      timeout).

Definition TrojanTlsHttpUpgrade_connect_with_dns (self : TrojanTlsHttpUpgradeOutbound) (target : OutboundTarget)
  (timeout : Z) : NM W R (OutboundConnection W) :=
  let server := OutboundTarget_new (ep_host (TrojanTlsHttpUpgrade_server self))
      (ep_port (TrojanTlsHttpUpgrade_server self)) in
  stream <-! DirectTcpConnector_connect_with_dns server timeout;
  stream <-! sm_lift (TlsTcpStream_connect stream (TrojanTlsHttpUpgrade_sni self)
      (TrojanTlsHttpUpgrade_skip_verify self));
  '(stream, _) <-! using_stream stream (connect_httpupgrade_client utf8_error
      (TrojanTlsHttpUpgrade_host self) (TrojanTlsHttpUpgrade_path self));
  let target := mkEndpoint (target_host target) (target_port target) in
  header <-! sm_lift (map_err protocol_encoding_to_io (encode_trojan_tcp_request_header sha224
      (TrojanTlsHttpUpgrade_password self) target));
  '(stream, _) <-! using_stream stream (write_all header);
  sm_ret (Connection_Owned stream).

Definition TrojanTlsHttpUpgrade_relay_udp_datagram_with_dns (self : TrojanTlsHttpUpgradeOutbound)
  (target : OutboundTarget) (payload : list Z) (timeout : Z) : NM W R UdpRelayResponse :=
  let server := OutboundTarget_new (ep_host (TrojanTlsHttpUpgrade_server self))
      (ep_port (TrojanTlsHttpUpgrade_server self)) in
  stream <-! DirectTcpConnector_connect_with_dns server timeout;
  stream <-! sm_lift (TlsTcpStream_connect stream (TrojanTlsHttpUpgrade_sni self)
      (TrojanTlsHttpUpgrade_skip_verify self));
  '(stream, _) <-! using_stream stream (connect_httpupgrade_client utf8_error
      (TrojanTlsHttpUpgrade_host self) (TrojanTlsHttpUpgrade_path self));
  net (send_trojan_udp_over_stream stream (TrojanTlsHttpUpgrade_password self) target payload
      timeout).

Definition TrojanGrpc_connect_with_dns (self : TrojanGrpcOutbound) (target : OutboundTarget)
  (timeout : Z) : NM W R (OutboundConnection W) :=
  let server := OutboundTarget_new (ep_host (TrojanGrpc_server self))
      (ep_port (TrojanGrpc_server self)) in
  stream <-! DirectTcpConnector_connect_with_dns server timeout;
  stream <-! net (GrpcTcpStream_connect_plain stream (TrojanGrpc_host self)
      (TrojanGrpc_service_name self));
  let target := mkEndpoint (target_host target) (target_port target) in
  header <-! sm_lift (map_err protocol_encoding_to_io (encode_trojan_tcp_request_header sha224
      (TrojanGrpc_password self) target));
  '(stream, _) <-! using_stream stream (write_all header);
  sm_ret (Connection_Owned stream).

Definition TrojanGrpc_relay_udp_datagram_with_dns (self : TrojanGrpcOutbound)
  (target : OutboundTarget) (payload : list Z) (timeout : Z) : NM W R UdpRelayResponse :=
  let server := OutboundTarget_new (ep_host (TrojanGrpc_server self))
      (ep_port (TrojanGrpc_server self)) in
  stream <-! DirectTcpConnector_connect_with_dns server timeout;
  stream <-! net (GrpcTcpStream_connect_plain stream (TrojanGrpc_host self)
      (TrojanGrpc_service_name self));
  net (send_trojan_udp_over_stream stream (TrojanGrpc_password self) target payload timeout).

Definition TrojanTlsGrpc_connect_with_dns (self : TrojanTlsGrpcOutbound) (target : OutboundTarget)
  (timeout : Z) : NM W R (OutboundConnection W) :=
  let server := OutboundTarget_new (ep_host (TrojanTlsGrpc_server self))
      (ep_port (TrojanTlsGrpc_server self)) in
  stream <-! DirectTcpConnector_connect_with_dns server timeout;
  stream <-! net (GrpcTcpStream_connect_tls stream (TrojanTlsGrpc_sni self)
      (TrojanTlsGrpc_skip_verify self) (TrojanTlsGrpc_host self)
      (TrojanTlsGrpc_service_name self));
  let target := mkEndpoint (target_host target) (target_port target) in
  header <-! sm_lift (map_err protocol_encoding_to_io (encode_trojan_tcp_request_header sha224
      (TrojanTlsGrpc_password self) target));
  '(stream, _) <-! using_stream stream (write_all header);
  sm_ret (Connection_Owned stream).

Definition TrojanTlsGrpc_relay_udp_datagram_with_dns (self : TrojanTlsGrpcOutbound)
  (target : OutboundTarget) (payload : list Z) (timeout : Z) : NM W R UdpRelayResponse :=
  let server := OutboundTarget_new (ep_host (TrojanTlsGrpc_server self))
      (ep_port (TrojanTlsGrpc_server self)) in
  stream <-! DirectTcpConnector_connect_with_dns server timeout;
  stream <-! net (GrpcTcpStream_connect_tls stream (TrojanTlsGrpc_sni self)
      (TrojanTlsGrpc_skip_verify self) (TrojanTlsGrpc_host self)
      (TrojanTlsGrpc_service_name self));
  net (send_trojan_udp_over_stream stream (TrojanTlsGrpc_password self) target payload timeout).

Definition TrojanH2_connect_with_dns (self : TrojanH2Outbound) (target : OutboundTarget)
  (timeout : Z) : NM W R (OutboundConnection W) :=
  let server := OutboundTarget_new (ep_host (TrojanH2_server self))
      (ep_port (TrojanH2_server self)) in
  stream <-! DirectTcpConnector_connect_with_dns server timeout;
  stream <-! net (Http2TcpStream_connect_plain stream (TrojanH2_host self) (TrojanH2_path self));
  let target := mkEndpoint (target_host target) (target_port target) in
  header <-! sm_lift (map_err protocol_encoding_to_io (encode_trojan_tcp_request_header sha224
      (TrojanH2_password self) target));
  '(stream, _) <-! using_stream stream (write_all header);
  sm_ret (Connection_Owned stream).

Definition TrojanH2_relay_udp_datagram_with_dns (self : TrojanH2Outbound)
  (target : OutboundTarget) (payload : list Z) (timeout : Z) : NM W R UdpRelayResponse :=
  let server := OutboundTarget_new (ep_host (TrojanH2_server self))
      (ep_port (TrojanH2_server self)) in
  stream <-! DirectTcpConnector_connect_with_dns server timeout;
  stream <-! net (Http2TcpStream_connect_plain stream (TrojanH2_host self) (TrojanH2_path self));
  net (send_trojan_udp_over_stream stream (TrojanH2_password self) target payload timeout).

Definition TrojanTlsH2_connect_with_dns (self : TrojanTlsH2Outbound) (target : OutboundTarget)
  (timeout : Z) : NM W R (OutboundConnection W) :=
  let server := OutboundTarget_new (ep_host (TrojanTlsH2_server self))
      (ep_port (TrojanTlsH2_server self)) in
  stream <-! DirectTcpConnector_connect_with_dns server timeout;
  stream <-! net (Http2TcpStream_connect_tls stream (TrojanTlsH2_sni self)
      (TrojanTlsH2_skip_verify self) (TrojanTlsH2_host self) (TrojanTlsH2_path self));
  let target := mkEndpoint (target_host target) (target_port target) in
  header <-! sm_lift (map_err protocol_encoding_to_io (encode_trojan_tcp_request_header sha224
      (TrojanTlsH2_password self) target));
  '(stream, _) <-! using_stream stream (write_all header);
  sm_ret (Connection_Owned stream).

Definition TrojanTlsH2_relay_udp_datagram_with_dns (self : TrojanTlsH2Outbound)
  (target : OutboundTarget) (payload : list Z) (timeout : Z) : NM W R UdpRelayResponse :=
  let server := OutboundTarget_new (ep_host (TrojanTlsH2_server self))
      (ep_port (TrojanTlsH2_server self)) in
  stream <-! DirectTcpConnector_connect_with_dns server timeout;
  stream <-! net (Http2TcpStream_connect_tls stream (TrojanTlsH2_sni self)
      (TrojanTlsH2_skip_verify self) (TrojanTlsH2_host self) (TrojanTlsH2_path self));
  net (send_trojan_udp_over_stream stream (TrojanTlsH2_password self) target payload timeout).

Definition TrojanQuic_connect_with_dns (self : TrojanQuicOutbound) (target : OutboundTarget)
  (timeout : Z) : NM W R (OutboundConnection W) :=
  stream <-! connect_legacy_quic_stream (TrojanQuic_server self) (TrojanQuic_sni self)
      (TrojanQuic_skip_verify self) (TrojanQuic_transport self) timeout;
  let target := mkEndpoint (target_host target) (target_port target) in
  header <-! sm_lift (map_err protocol_encoding_to_io (encode_trojan_tcp_request_header sha224
      (TrojanQuic_password self) target));
  '(stream, _) <-! using_stream stream (write_all header);
  sm_ret (Connection_Owned stream).

Definition TrojanQuic_relay_udp_datagram_with_dns (self : TrojanQuicOutbound)
  (target : OutboundTarget) (payload : list Z) (timeout : Z) : NM W R UdpRelayResponse :=
  stream <-! connect_legacy_quic_stream (TrojanQuic_server self) (TrojanQuic_sni self)
      (TrojanQuic_skip_verify self) (TrojanQuic_transport self) timeout;
  net (send_trojan_udp_over_stream stream (TrojanQuic_password self) target payload timeout).
End Connect.

(** [connect] and [relay_udp_datagram]: with an engine over the system's resolver. *)

Section SystemDns.
Context {W : Type} {Net : Network W}.

Definition TrojanTcp_connect (self : TrojanTcpOutbound) (target : OutboundTarget) (timeout : Z)
  : SM W IoError (OutboundConnection W) :=
  with_system_dns (from_secs 60) (TrojanTcp_connect_with_dns self target timeout).

Definition TrojanTcp_relay_udp_datagram (self : TrojanTcpOutbound) (target : OutboundTarget)
  (payload : list Z) (timeout : Z) : SM W IoError UdpRelayResponse :=
  with_system_dns (from_secs 60)
    (TrojanTcp_relay_udp_datagram_with_dns self target payload timeout).

Definition TrojanTlsTcp_connect (self : TrojanTlsTcpOutbound) (target : OutboundTarget) (timeout : Z)
  : SM W IoError (OutboundConnection W) :=
  with_system_dns (from_secs 60) (TrojanTlsTcp_connect_with_dns self target timeout).

Definition TrojanTlsTcp_relay_udp_datagram (self : TrojanTlsTcpOutbound) (target : OutboundTarget)
  (payload : list Z) (timeout : Z) : SM W IoError UdpRelayResponse :=
  with_system_dns (from_secs 60)
    (TrojanTlsTcp_relay_udp_datagram_with_dns self target payload timeout).

Definition TrojanWs_connect (self : TrojanWsOutbound) (target : OutboundTarget) (timeout : Z)
  : SM W IoError (OutboundConnection W) :=
  with_system_dns (from_secs 60) (TrojanWs_connect_with_dns self target timeout).

Definition TrojanWs_relay_udp_datagram (self : TrojanWsOutbound) (target : OutboundTarget)
  (payload : list Z) (timeout : Z) : SM W IoError UdpRelayResponse :=
  with_system_dns (from_secs 60)
    (TrojanWs_relay_udp_datagram_with_dns self target payload timeout).

Definition TrojanTlsWs_connect (self : TrojanTlsWsOutbound) (target : OutboundTarget) (timeout : Z)
  : SM W IoError (OutboundConnection W) :=
  with_system_dns (from_secs 60) (TrojanTlsWs_connect_with_dns self target timeout).

Definition TrojanTlsWs_relay_udp_datagram (self : TrojanTlsWsOutbound) (target : OutboundTarget)
  (payload : list Z) (timeout : Z) : SM W IoError UdpRelayResponse :=
  with_system_dns (from_secs 60)
    (TrojanTlsWs_relay_udp_datagram_with_dns self target payload timeout).

Definition TrojanHttpUpgrade_connect (self : TrojanHttpUpgradeOutbound) (target : OutboundTarget) (timeout : Z)
  : SM W IoError (OutboundConnection W) :=
  with_system_dns (from_secs 60) (TrojanHttpUpgrade_connect_with_dns self target timeout).

Definition TrojanHttpUpgrade_relay_udp_datagram (self : TrojanHttpUpgradeOutbound) (target : OutboundTarget)
  (payload : list Z) (timeout : Z) : SM W IoError UdpRelayResponse :=
  with_system_dns (from_secs 60)
    (TrojanHttpUpgrade_relay_udp_datagram_with_dns self target payload timeout).

Definition TrojanTlsHttpUpgrade_connect (self : TrojanTlsHttpUpgradeOutbound) (target : OutboundTarget) (timeout : Z)
  : SM W IoError (OutboundConnection W) :=
  with_system_dns (from_secs 60) (TrojanTlsHttpUpgrade_connect_with_dns self target timeout).

Definition TrojanTlsHttpUpgrade_relay_udp_datagram (self : TrojanTlsHttpUpgradeOutbound) (target : OutboundTarget)
  (payload : list Z) (timeout : Z) : SM W IoError UdpRelayResponse :=
  with_system_dns (from_secs 60)
    (TrojanTlsHttpUpgrade_relay_udp_datagram_with_dns self target payload timeout).

Definition TrojanGrpc_connect (self : TrojanGrpcOutbound) (target : OutboundTarget) (timeout : Z)
  : SM W IoError (OutboundConnection W) :=
  with_system_dns (from_secs 60) (TrojanGrpc_connect_with_dns self target timeout).

Definition TrojanGrpc_relay_udp_datagram (self : TrojanGrpcOutbound) (target : OutboundTarget)
  (payload : list Z) (timeout : Z) : SM W IoError UdpRelayResponse :=
  with_system_dns (from_secs 60)
    (TrojanGrpc_relay_udp_datagram_with_dns self target payload timeout).

Definition TrojanTlsGrpc_connect (self : TrojanTlsGrpcOutbound) (target : OutboundTarget) (timeout : Z)
  : SM W IoError (OutboundConnection W) :=
  with_system_dns (from_secs 60) (TrojanTlsGrpc_connect_with_dns self target timeout).

Definition TrojanTlsGrpc_relay_udp_datagram (self : TrojanTlsGrpcOutbound) (target : OutboundTarget)
  (payload : list Z) (timeout : Z) : SM W IoError UdpRelayResponse :=
  with_system_dns (from_secs 60)
    (TrojanTlsGrpc_relay_udp_datagram_with_dns self target payload timeout).

Definition TrojanH2_connect (self : TrojanH2Outbound) (target : OutboundTarget) (timeout : Z)
  : SM W IoError (OutboundConnection W) :=
  with_system_dns (from_secs 60) (TrojanH2_connect_with_dns self target timeout).

Definition TrojanH2_relay_udp_datagram (self : TrojanH2Outbound) (target : OutboundTarget)
  (payload : list Z) (timeout : Z) : SM W IoError UdpRelayResponse :=
  with_system_dns (from_secs 60)
    (TrojanH2_relay_udp_datagram_with_dns self target payload timeout).

Definition TrojanTlsH2_connect (self : TrojanTlsH2Outbound) (target : OutboundTarget) (timeout : Z)
  : SM W IoError (OutboundConnection W) :=
  with_system_dns (from_secs 60) (TrojanTlsH2_connect_with_dns self target timeout).

Definition TrojanTlsH2_relay_udp_datagram (self : TrojanTlsH2Outbound) (target : OutboundTarget)
  (payload : list Z) (timeout : Z) : SM W IoError UdpRelayResponse :=
  with_system_dns (from_secs 60)
    (TrojanTlsH2_relay_udp_datagram_with_dns self target payload timeout).

Definition TrojanQuic_connect (self : TrojanQuicOutbound) (target : OutboundTarget) (timeout : Z)
  : SM W IoError (OutboundConnection W) :=
  with_system_dns (from_secs 60) (TrojanQuic_connect_with_dns self target timeout).

Definition TrojanQuic_relay_udp_datagram (self : TrojanQuicOutbound) (target : OutboundTarget)
  (payload : list Z) (timeout : Z) : SM W IoError UdpRelayResponse :=
  with_system_dns (from_secs 60)
    (TrojanQuic_relay_udp_datagram_with_dns self target payload timeout).
End SystemDns.
