(* ===== verification/OutboundVmess.v ===== *)
(** * VMess outbounds

    [crates/keli-net-core/src/direct.rs]: VMess over TCP, WebSocket, HTTP upgrade, gRPC
    and HTTP/2, each with and without TLS, and over QUIC. *)

From stdpp Require Import base strings list numbers.
From S2P Require Import Prelude.
From S2P Require Import StdNet.
From S2P Require Import StdIo.
From S2P Require Import Dns.
From S2P Require Import TunPacket.
From S2P Require Import TunLoop.
From S2P Require Import Relay.
From S2P Require Import Profile.
From S2P Require Import Codec.
From S2P Require Import ProxyWire.
From S2P Require Import Framed.
From S2P Require Import Vmess.
From S2P Require Import Network.
From S2P Require Import Outbound.
#[local] Open Scope Z_scope.

Record VmessTcpOutbound : Type := mkVmessTcpOutbound {
  VmessTcp_server : Endpoint;
  VmessTcp_uuid : string;
  VmessTcp_security : VmessBodySecurity
}.

Record VmessTlsTcpOutbound : Type := mkVmessTlsTcpOutbound {
  VmessTlsTcp_server : Endpoint;
  VmessTlsTcp_uuid : string;
  VmessTlsTcp_sni : string;
  VmessTlsTcp_skip_verify : bool;
  VmessTlsTcp_security : VmessBodySecurity
}.

Record VmessWsOutbound : Type := mkVmessWsOutbound {
  VmessWs_server : Endpoint;
  VmessWs_host : string;
  VmessWs_path : string;
  VmessWs_uuid : string;
  VmessWs_security : VmessBodySecurity
}.

Record VmessTlsWsOutbound : Type := mkVmessTlsWsOutbound {
  VmessTlsWs_server : Endpoint;
  VmessTlsWs_host : string;
  VmessTlsWs_path : string;
  VmessTlsWs_uuid : string;
  VmessTlsWs_sni : string;
  VmessTlsWs_skip_verify : bool;
  VmessTlsWs_security : VmessBodySecurity
}.

Record VmessHttpUpgradeOutbound : Type := mkVmessHttpUpgradeOutbound {
  VmessHttpUpgrade_server : Endpoint;
  VmessHttpUpgrade_host : string;
  VmessHttpUpgrade_path : string;
  VmessHttpUpgrade_uuid : string;
  VmessHttpUpgrade_security : VmessBodySecurity
}.

Record VmessTlsHttpUpgradeOutbound : Type := mkVmessTlsHttpUpgradeOutbound {
  VmessTlsHttpUpgrade_server : Endpoint;
  VmessTlsHttpUpgrade_host : string;
  VmessTlsHttpUpgrade_path : string;
  VmessTlsHttpUpgrade_uuid : string;
  VmessTlsHttpUpgrade_sni : string;
  VmessTlsHttpUpgrade_skip_verify : bool;
  VmessTlsHttpUpgrade_security : VmessBodySecurity
}.

Record VmessGrpcOutbound : Type := mkVmessGrpcOutbound {
  VmessGrpc_server : Endpoint;
  VmessGrpc_host : string;
  VmessGrpc_service_name : option string;
  VmessGrpc_uuid : string;
  VmessGrpc_security : VmessBodySecurity
}.

Record VmessTlsGrpcOutbound : Type := mkVmessTlsGrpcOutbound {
  VmessTlsGrpc_server : Endpoint;
  VmessTlsGrpc_host : string;
  VmessTlsGrpc_service_name : option string;
  VmessTlsGrpc_uuid : string;
  VmessTlsGrpc_sni : string;
  VmessTlsGrpc_skip_verify : bool;
  VmessTlsGrpc_security : VmessBodySecurity
}.

Record VmessH2Outbound : Type := mkVmessH2Outbound {
  VmessH2_server : Endpoint;
  VmessH2_host : string;
  VmessH2_path : string;
  VmessH2_uuid : string;
  VmessH2_security : VmessBodySecurity
}.

Record VmessTlsH2Outbound : Type := mkVmessTlsH2Outbound {
  VmessTlsH2_server : Endpoint;
  VmessTlsH2_host : string;
  VmessTlsH2_path : string;
  VmessTlsH2_uuid : string;
  VmessTlsH2_sni : string;
  VmessTlsH2_skip_verify : bool;
  VmessTlsH2_security : VmessBodySecurity
}.

Record VmessQuicOutbound : Type := mkVmessQuicOutbound {
  VmessQuic_server : Endpoint;
  VmessQuic_uuid : string;
  VmessQuic_sni : string;
  VmessQuic_skip_verify : bool;
  VmessQuic_transport : LegacyQuicTransportConfig;
  VmessQuic_security : VmessBodySecurity
}.

Section Connect.
Context {W : Type} {Net : Network W} {R : Type} {Resolver : DnsResolver R} {Crypto : VmessCrypto}.

Definition VmessTcp_connect_with_dns (self : VmessTcpOutbound) (target : OutboundTarget)
  (timeout : Z) : NM W R (OutboundConnection W) :=
  let server := OutboundTarget_new (ep_host (VmessTcp_server self))
      (ep_port (VmessTcp_server self)) in
  stream <-! DirectTcpConnector_connect_with_dns server timeout;
  let target := mkEndpoint (target_host target) (target_port target) in
  random <-! net vmess_random;
  '(stream, request) <-! using_stream stream (write_vmess_tcp_request_header random
      (VmessTcp_uuid self) target (VmessTcp_security self));
  '(stream, _) <-! using_stream stream flush;
  '(stream, _) <-! using_stream stream (read_vmess_response_header_from_stream request);
  match VmessTcp_security self with
  | VmessBody_None => sm_ret (Connection_Tcp stream)
  | _ => sm_ret (Connection_Owned (VmessAeadStream_new stream request (VmessTcp_security self)))
  end.

Definition VmessTcp_relay_udp_datagram_with_dns (self : VmessTcpOutbound)
  (target : OutboundTarget) (payload : list Z) (timeout : Z) : NM W R UdpRelayResponse :=
  let server := OutboundTarget_new (ep_host (VmessTcp_server self))
      (ep_port (VmessTcp_server self)) in
  stream <-! DirectTcpConnector_connect_with_dns server timeout;
  net (send_vmess_udp_over_stream stream (VmessTcp_uuid self) (VmessTcp_security self) target
      payload timeout).

Definition VmessTlsTcp_connect_with_dns (self : VmessTlsTcpOutbound) (target : OutboundTarget)
  (timeout : Z) : NM W R (OutboundConnection W) :=
  let server := OutboundTarget_new (ep_host (VmessTlsTcp_server self))
      (ep_port (VmessTlsTcp_server self)) in
  stream <-! DirectTcpConnector_connect_with_dns server timeout;
  stream <-! sm_lift (TlsTcpStream_connect stream (VmessTlsTcp_sni self)
      (VmessTlsTcp_skip_verify self));
  let target := mkEndpoint (target_host target) (target_port target) in
  random <-! net vmess_random;
  '(stream, request) <-! using_stream stream (write_vmess_tcp_request_header random
      (VmessTlsTcp_uuid self) target (VmessTlsTcp_security self));
  '(stream, _) <-! using_stream stream flush;
  '(stream, _) <-! using_stream stream (read_vmess_response_header_from_stream request);
  sm_ret (vmess_connection_from_stream stream request (VmessTlsTcp_security self)).

Definition VmessTlsTcp_relay_udp_datagram_with_dns (self : VmessTlsTcpOutbound)
  (target : OutboundTarget) (payload : list Z) (timeout : Z) : NM W R UdpRelayResponse :=
  let server := OutboundTarget_new (ep_host (VmessTlsTcp_server self))
      (ep_port (VmessTlsTcp_server self)) in
  stream <-! DirectTcpConnector_connect_with_dns server timeout;
  stream <-! sm_lift (TlsTcpStream_connect stream (VmessTlsTcp_sni self)
      (VmessTlsTcp_skip_verify self));
  net (send_vmess_udp_over_stream stream (VmessTlsTcp_uuid self) (VmessTlsTcp_security self)
      target payload timeout).

Definition VmessWs_connect_with_dns (self : VmessWsOutbound) (target : OutboundTarget)
  (timeout : Z) : NM W R (OutboundConnection W) :=
  let server := OutboundTarget_new (ep_host (VmessWs_server self))
      (ep_port (VmessWs_server self)) in
  stream <-! DirectTcpConnector_connect_with_dns server timeout;
  stream <-! net (WebSocketClientStream_connect stream (VmessWs_host self) (VmessWs_path self));
  let target := mkEndpoint (target_host target) (target_port target) in
  random <-! net vmess_random;
  '(stream, request) <-! using_stream stream (write_vmess_tcp_request_header random
      (VmessWs_uuid self) target (VmessWs_security self));
  '(stream, _) <-! using_stream stream flush;
  '(stream, _) <-! using_stream stream (read_vmess_response_header_from_stream request);
  match VmessWs_security self with
  | VmessBody_None => sm_ret (Connection_WebSocket stream)
  | _ => sm_ret (Connection_Owned (VmessAeadStream_new stream request (VmessWs_security self)))
  end.

Definition VmessWs_relay_udp_datagram_with_dns (self : VmessWsOutbound)
  (target : OutboundTarget) (payload : list Z) (timeout : Z) : NM W R UdpRelayResponse :=
  let server := OutboundTarget_new (ep_host (VmessWs_server self))
      (ep_port (VmessWs_server self)) in
  stream <-! DirectTcpConnector_connect_with_dns server timeout;
  stream <-! net (WebSocketClientStream_connect stream (VmessWs_host self) (VmessWs_path self));
  net (send_vmess_udp_over_stream stream (VmessWs_uuid self) (VmessWs_security self) target
      payload timeout).

Definition VmessTlsWs_connect_with_dns (self : VmessTlsWsOutbound) (target : OutboundTarget)
  (timeout : Z) : NM W R (OutboundConnection W) :=
  let server := OutboundTarget_new (ep_host (VmessTlsWs_server self))
      (ep_port (VmessTlsWs_server self)) in
  stream <-! DirectTcpConnector_connect_with_dns server timeout;
  stream <-! sm_lift (TlsTcpStream_connect stream (VmessTlsWs_sni self)
      (VmessTlsWs_skip_verify self));
  stream <-! net (OwnedWebSocketClientStream_connect stream (VmessTlsWs_host self)
      (VmessTlsWs_path self));
  let target := mkEndpoint (target_host target) (target_port target) in
  random <-! net vmess_random;
  '(stream, request) <-! using_stream stream (write_vmess_tcp_request_header random
      (VmessTlsWs_uuid self) target (VmessTlsWs_security self));
  '(stream, _) <-! using_stream stream flush;
  '(stream, _) <-! using_stream stream (read_vmess_response_header_from_stream request);
  sm_ret (vmess_connection_from_stream stream request (VmessTlsWs_security self)).

Definition VmessTlsWs_relay_udp_datagram_with_dns (self : VmessTlsWsOutbound)
  (target : OutboundTarget) (payload : list Z) (timeout : Z) : NM W R UdpRelayResponse :=
  let server := OutboundTarget_new (ep_host (VmessTlsWs_server self))
      (ep_port (VmessTlsWs_server self)) in
  stream <-! DirectTcpConnector_connect_with_dns server timeout;
  stream <-! sm_lift (TlsTcpStream_connect stream (VmessTlsWs_sni self)
      (VmessTlsWs_skip_verify self));
  stream <-! net (OwnedWebSocketClientStream_connect stream (VmessTlsWs_host self)
      (VmessTlsWs_path self));
  net (send_vmess_udp_over_stream stream (VmessTlsWs_uuid self) (VmessTlsWs_security self) target
      payload timeout).

Definition VmessHttpUpgrade_connect_with_dns (self : VmessHttpUpgradeOutbound) (target : OutboundTarget)
  (timeout : Z) : NM W R (OutboundConnection W) :=
  let server := OutboundTarget_new (ep_host (VmessHttpUpgrade_server self))
      (ep_port (VmessHttpUpgrade_server self)) in
  stream <-! DirectTcpConnector_connect_with_dns server timeout;
  '(stream, _) <-! using_stream stream (connect_httpupgrade_client utf8_error
      (VmessHttpUpgrade_host self) (VmessHttpUpgrade_path self));
  let target := mkEndpoint (target_host target) (target_port target) in
  random <-! net vmess_random;
  '(stream, request) <-! using_stream stream (write_vmess_tcp_request_header random
      (VmessHttpUpgrade_uuid self) target (VmessHttpUpgrade_security self));
  '(stream, _) <-! using_stream stream flush;
  '(stream, _) <-! using_stream stream (read_vmess_response_header_from_stream request);
  match VmessHttpUpgrade_security self with
  | VmessBody_None => sm_ret (Connection_Tcp stream)
  | _ => sm_ret (Connection_Owned (VmessAeadStream_new stream request
      (VmessHttpUpgrade_security self)))
  end.

Definition VmessHttpUpgrade_relay_udp_datagram_with_dns (self : VmessHttpUpgradeOutbound)
  (target : OutboundTarget) (payload : list Z) (timeout : Z) : NM W R UdpRelayResponse :=
  let server := OutboundTarget_new (ep_host (VmessHttpUpgrade_server self))
      (ep_port (VmessHttpUpgrade_server self)) in
  stream <-! DirectTcpConnector_connect_with_dns server timeout;
  '(stream, _) <-! using_stream stream (connect_httpupgrade_client utf8_error
      (VmessHttpUpgrade_host self) (VmessHttpUpgrade_path self));
  net (send_vmess_udp_over_stream stream (VmessHttpUpgrade_uuid self)
      (VmessHttpUpgrade_security self) target payload timeout).

Definition VmessTlsHttpUpgrade_connect_with_dns (self : VmessTlsHttpUpgradeOutbound) (target : OutboundTarget)
  (timeout : Z) : NM W R (OutboundConnection W) :=
  let server := OutboundTarget_new (ep_host (VmessTlsHttpUpgrade_server self))
      (ep_port (VmessTlsHttpUpgrade_server self)) in
  stream <-! DirectTcpConnector_connect_with_dns server timeout;
  stream <-! sm_lift (TlsTcpStream_connect stream (VmessTlsHttpUpgrade_sni self)
      (VmessTlsHttpUpgrade_skip_verify self));
  '(stream, _) <-! using_stream stream (connect_httpupgrade_client utf8_error
      (VmessTlsHttpUpgrade_host self) (VmessTlsHttpUpgrade_path self));
  let target := mkEndpoint (target_host target) (target_port target) in
  random <-! net vmess_random;
  '(stream, request) <-! using_stream stream (write_vmess_tcp_request_header random
      (VmessTlsHttpUpgrade_uuid self) target (VmessTlsHttpUpgrade_security self));
  '(stream, _) <-! using_stream stream flush;
  '(stream, _) <-! using_stream stream (read_vmess_response_header_from_stream request);
  sm_ret (vmess_connection_from_stream stream request (VmessTlsHttpUpgrade_security self)).

Definition VmessTlsHttpUpgrade_relay_udp_datagram_with_dns (self : VmessTlsHttpUpgradeOutbound)
  (target : OutboundTarget) (payload : list Z) (timeout : Z) : NM W R UdpRelayResponse :=
  let server := OutboundTarget_new (ep_host (VmessTlsHttpUpgrade_server self))
      (ep_port (VmessTlsHttpUpgrade_server self)) in
  stream <-! DirectTcpConnector_connect_with_dns server timeout;
  stream <-! sm_lift (TlsTcpStream_connect stream (VmessTlsHttpUpgrade_sni self)
      (VmessTlsHttpUpgrade_skip_verify self));
  '(stream, _) <-! using_stream stream (connect_httpupgrade_client utf8_error
      (VmessTlsHttpUpgrade_host self) (VmessTlsHttpUpgrade_path self));
  net (send_vmess_udp_over_stream stream (VmessTlsHttpUpgrade_uuid self)
      (VmessTlsHttpUpgrade_security self) target payload timeout).

Definition VmessGrpc_connect_with_dns (self : VmessGrpcOutbound) (target : OutboundTarget)
  (timeout : Z) : NM W R (OutboundConnection W) :=
  let server := OutboundTarget_new (ep_host (VmessGrpc_server self))
      (ep_port (VmessGrpc_server self)) in
  stream <-! DirectTcpConnector_connect_with_dns server timeout;
  stream <-! net (GrpcTcpStream_connect_plain stream (VmessGrpc_host self)
      (VmessGrpc_service_name self));
  let target := mkEndpoint (target_host target) (target_port target) in
  random <-! net vmess_random;
  '(stream, request) <-! using_stream stream (write_vmess_tcp_request_header random
      (VmessGrpc_uuid self) target (VmessGrpc_security self));
  '(stream, _) <-! using_stream stream (read_vmess_response_header_from_stream request);
  sm_ret (vmess_connection_from_stream stream request (VmessGrpc_security self)).

Definition VmessGrpc_relay_udp_datagram_with_dns (self : VmessGrpcOutbound)
  (target : OutboundTarget) (payload : list Z) (timeout : Z) : NM W R UdpRelayResponse :=
  let server := OutboundTarget_new (ep_host (VmessGrpc_server self))
      (ep_port (VmessGrpc_server self)) in
  stream <-! DirectTcpConnector_connect_with_dns server timeout;
  stream <-! net (GrpcTcpStream_connect_plain stream (VmessGrpc_host self)
      (VmessGrpc_service_name self));
  net (send_vmess_udp_over_stream stream (VmessGrpc_uuid self) (VmessGrpc_security self) target
      payload timeout).

Definition VmessTlsGrpc_connect_with_dns (self : VmessTlsGrpcOutbound) (target : OutboundTarget)
  (timeout : Z) : NM W R (OutboundConnection W) :=
  let server := OutboundTarget_new (ep_host (VmessTlsGrpc_server self))
      (ep_port (VmessTlsGrpc_server self)) in
  stream <-! DirectTcpConnector_connect_with_dns server timeout;
  stream <-! net (GrpcTcpStream_connect_tls stream (VmessTlsGrpc_sni self)
      (VmessTlsGrpc_skip_verify self) (VmessTlsGrpc_host self) (VmessTlsGrpc_service_name self));
  let target := mkEndpoint (target_host target) (target_port target) in
  random <-! net vmess_random;
  '(stream, request) <-! using_stream stream (write_vmess_tcp_request_header random
      (VmessTlsGrpc_uuid self) target (VmessTlsGrpc_security self));
  '(stream, _) <-! using_stream stream (read_vmess_response_header_from_stream request);
  sm_ret (vmess_connection_from_stream stream request (VmessTlsGrpc_security self)).

Definition VmessTlsGrpc_relay_udp_datagram_with_dns (self : VmessTlsGrpcOutbound)
  (target : OutboundTarget) (payload : list Z) (timeout : Z) : NM W R UdpRelayResponse :=
  let server := OutboundTarget_new (ep_host (VmessTlsGrpc_server self))
      (ep_port (VmessTlsGrpc_server self)) in
  stream <-! DirectTcpConnector_connect_with_dns server timeout;
  stream <-! net (GrpcTcpStream_connect_tls stream (VmessTlsGrpc_sni self)
      (VmessTlsGrpc_skip_verify self) (VmessTlsGrpc_host self) (VmessTlsGrpc_service_name self));
  net (send_vmess_udp_over_stream stream (VmessTlsGrpc_uuid self) (VmessTlsGrpc_security self)
      target payload timeout).

Definition VmessH2_connect_with_dns (self : VmessH2Outbound) (target : OutboundTarget)
  (timeout : Z) : NM W R (OutboundConnection W) :=
  let server := OutboundTarget_new (ep_host (VmessH2_server self))
      (ep_port (VmessH2_server self)) in
  stream <-! DirectTcpConnector_connect_with_dns server timeout;
  stream <-! net (Http2TcpStream_connect_plain stream (VmessH2_host self) (VmessH2_path self));
  let target := mkEndpoint (target_host target) (target_port target) in
  random <-! net vmess_random;
  '(stream, request) <-! using_stream stream (write_vmess_tcp_request_header random
      (VmessH2_uuid self) target (VmessH2_security self));
  '(stream, _) <-! using_stream stream (read_vmess_response_header_from_stream request);
  sm_ret (vmess_connection_from_stream stream request (VmessH2_security self)).

Definition VmessH2_relay_udp_datagram_with_dns (self : VmessH2Outbound)
  (target : OutboundTarget) (payload : list Z) (timeout : Z) : NM W R UdpRelayResponse :=
  let server := OutboundTarget_new (ep_host (VmessH2_server self))
      (ep_port (VmessH2_server self)) in
  stream <-! DirectTcpConnector_connect_with_dns server timeout;
  stream <-! net (Http2TcpStream_connect_plain stream (VmessH2_host self) (VmessH2_path self));
  net (send_vmess_udp_over_stream stream (VmessH2_uuid self) (VmessH2_security self) target
      payload timeout).

Definition VmessTlsH2_connect_with_dns (self : VmessTlsH2Outbound) (target : OutboundTarget)
  (timeout : Z) : NM W R (OutboundConnection W) :=
  let server := OutboundTarget_new (ep_host (VmessTlsH2_server self))
      (ep_port (VmessTlsH2_server self)) in
  stream <-! DirectTcpConnector_connect_with_dns server timeout;
  stream <-! net (Http2TcpStream_connect_tls stream (VmessTlsH2_sni self)
      (VmessTlsH2_skip_verify self) (VmessTlsH2_host self) (VmessTlsH2_path self));
  let target := mkEndpoint (target_host target) (target_port target) in
  random <-! net vmess_random;
  '(stream, request) <-! using_stream stream (write_vmess_tcp_request_header random
      (VmessTlsH2_uuid self) target (VmessTlsH2_security self));
  '(stream, _) <-! using_stream stream (read_vmess_response_header_from_stream request);
  sm_ret (vmess_connection_from_stream stream request (VmessTlsH2_security self)).

Definition VmessTlsH2_relay_udp_datagram_with_dns (self : VmessTlsH2Outbound)
  (target : OutboundTarget) (payload : list Z) (timeout : Z) : NM W R UdpRelayResponse :=
  let server := OutboundTarget_new (ep_host (VmessTlsH2_server self))
      (ep_port (VmessTlsH2_server self)) in
  stream <-! DirectTcpConnector_connect_with_dns server timeout;
  stream <-! net (Http2TcpStream_connect_tls stream (VmessTlsH2_sni self)
      (VmessTlsH2_skip_verify self) (VmessTlsH2_host self) (VmessTlsH2_path self));
  net (send_vmess_udp_over_stream stream (VmessTlsH2_uuid self) (VmessTlsH2_security self) target
      payload timeout).

Definition VmessQuic_connect_with_dns (self : VmessQuicOutbound) (target : OutboundTarget)
  (timeout : Z) : NM W R (OutboundConnection W) :=
  stream <-! connect_legacy_quic_stream (VmessQuic_server self) (VmessQuic_sni self)
      (VmessQuic_skip_verify self) (VmessQuic_transport self) timeout;
  let target := mkEndpoint (target_host target) (target_port target) in
  random <-! net vmess_random;
  '(stream, request) <-! using_stream stream (write_vmess_tcp_request_header random
      (VmessQuic_uuid self) target (VmessQuic_security self));
  '(stream, _) <-! using_stream stream (read_vmess_response_header_from_stream request);
  sm_ret (vmess_connection_from_stream stream request (VmessQuic_security self)).

Definition VmessQuic_relay_udp_datagram_with_dns (self : VmessQuicOutbound)
  (target : OutboundTarget) (payload : list Z) (timeout : Z) : NM W R UdpRelayResponse :=
  stream <-! connect_legacy_quic_stream (VmessQuic_server self) (VmessQuic_sni self)
      (VmessQuic_skip_verify self) (VmessQuic_transport self) timeout;
  net (send_vmess_udp_over_stream stream (VmessQuic_uuid self) (VmessQuic_security self) target
      payload timeout).
End Connect.

(** [connect] and [relay_udp_datagram]: with an engine over the system's resolver. *)

Section SystemDns.
Context {W : Type} {Net : Network W}.
Context {Crypto : VmessCrypto}.

Definition VmessTcp_connect (self : VmessTcpOutbound) (target : OutboundTarget) (timeout : Z)
  : SM W IoError (OutboundConnection W) :=
  with_system_dns (from_secs 60) (VmessTcp_connect_with_dns self target timeout).

Definition VmessTcp_relay_udp_datagram (self : VmessTcpOutbound) (target : OutboundTarget)
  (payload : list Z) (timeout : Z) : SM W IoError UdpRelayResponse :=
  with_system_dns (from_secs 60)
    (VmessTcp_relay_udp_datagram_with_dns self target payload timeout).

Definition VmessTlsTcp_connect (self : VmessTlsTcpOutbound) (target : OutboundTarget) (timeout : Z)
  : SM W IoError (OutboundConnection W) :=
  with_system_dns (from_secs 60) (VmessTlsTcp_connect_with_dns self target timeout).

Definition VmessTlsTcp_relay_udp_datagram (self : VmessTlsTcpOutbound) (target : OutboundTarget)
  (payload : list Z) (timeout : Z) : SM W IoError UdpRelayResponse :=
  with_system_dns (from_secs 60)
    (VmessTlsTcp_relay_udp_datagram_with_dns self target payload timeout).

Definition VmessWs_connect (self : VmessWsOutbound) (target : OutboundTarget) (timeout : Z)
  : SM W IoError (OutboundConnection W) :=
  with_system_dns (from_secs 60) (VmessWs_connect_with_dns self target timeout).

Definition VmessWs_relay_udp_datagram (self : VmessWsOutbound) (target : OutboundTarget)
  (payload : list Z) (timeout : Z) : SM W IoError UdpRelayResponse :=
  with_system_dns (from_secs 60)
    (VmessWs_relay_udp_datagram_with_dns self target payload timeout).

Definition VmessTlsWs_connect (self : VmessTlsWsOutbound) (target : OutboundTarget) (timeout : Z)
  : SM W IoError (OutboundConnection W) :=
  with_system_dns (from_secs 60) (VmessTlsWs_connect_with_dns self target timeout).

Definition VmessTlsWs_relay_udp_datagram (self : VmessTlsWsOutbound) (target : OutboundTarget)
  (payload : list Z) (timeout : Z) : SM W IoError UdpRelayResponse :=
  with_system_dns (from_secs 60)
    (VmessTlsWs_relay_udp_datagram_with_dns self target payload timeout).

Definition VmessHttpUpgrade_connect (self : VmessHttpUpgradeOutbound) (target : OutboundTarget) (timeout : Z)
  : SM W IoError (OutboundConnection W) :=
  with_system_dns (from_secs 60) (VmessHttpUpgrade_connect_with_dns self target timeout).

Definition VmessHttpUpgrade_relay_udp_datagram (self : VmessHttpUpgradeOutbound) (target : OutboundTarget)
  (payload : list Z) (timeout : Z) : SM W IoError UdpRelayResponse :=
  with_system_dns (from_secs 60)
    (VmessHttpUpgrade_relay_udp_datagram_with_dns self target payload timeout).

Definition VmessTlsHttpUpgrade_connect (self : VmessTlsHttpUpgradeOutbound) (target : OutboundTarget) (timeout : Z)
  : SM W IoError (OutboundConnection W) :=
  with_system_dns (from_secs 60) (VmessTlsHttpUpgrade_connect_with_dns self target timeout).

Definition VmessTlsHttpUpgrade_relay_udp_datagram (self : VmessTlsHttpUpgradeOutbound) (target : OutboundTarget)
  (payload : list Z) (timeout : Z) : SM W IoError UdpRelayResponse :=
  with_system_dns (from_secs 60)
    (VmessTlsHttpUpgrade_relay_udp_datagram_with_dns self target payload timeout).

Definition VmessGrpc_connect (self : VmessGrpcOutbound) (target : OutboundTarget) (timeout : Z)
  : SM W IoError (OutboundConnection W) :=
  with_system_dns (from_secs 60) (VmessGrpc_connect_with_dns self target timeout).

Definition VmessGrpc_relay_udp_datagram (self : VmessGrpcOutbound) (target : OutboundTarget)
  (payload : list Z) (timeout : Z) : SM W IoError UdpRelayResponse :=
  with_system_dns (from_secs 60)
    (VmessGrpc_relay_udp_datagram_with_dns self target payload timeout).

Definition VmessTlsGrpc_connect (self : VmessTlsGrpcOutbound) (target : OutboundTarget) (timeout : Z)
  : SM W IoError (OutboundConnection W) :=
  with_system_dns (from_secs 60) (VmessTlsGrpc_connect_with_dns self target timeout).

Definition VmessTlsGrpc_relay_udp_datagram (self : VmessTlsGrpcOutbound) (target : OutboundTarget)
  (payload : list Z) (timeout : Z) : SM W IoError UdpRelayResponse :=
  with_system_dns (from_secs 60)
    (VmessTlsGrpc_relay_udp_datagram_with_dns self target payload timeout).

Definition VmessH2_connect (self : VmessH2Outbound) (target : OutboundTarget) (timeout : Z)
  : SM W IoError (OutboundConnection W) :=
  with_system_dns (from_secs 60) (VmessH2_connect_with_dns self target timeout).

Definition VmessH2_relay_udp_datagram (self : VmessH2Outbound) (target : OutboundTarget)
  (payload : list Z) (timeout : Z) : SM W IoError UdpRelayResponse :=
  with_system_dns (from_secs 60)
    (VmessH2_relay_udp_datagram_with_dns self target payload timeout).

Definition VmessTlsH2_connect (self : VmessTlsH2Outbound) (target : OutboundTarget) (timeout : Z)
  : SM W IoError (OutboundConnection W) :=
  with_system_dns (from_secs 60) (VmessTlsH2_connect_with_dns self target timeout).

Definition VmessTlsH2_relay_udp_datagram (self : VmessTlsH2Outbound) (target : OutboundTarget)
  (payload : list Z) (timeout : Z) : SM W IoError UdpRelayResponse :=
  with_system_dns (from_secs 60)
    (VmessTlsH2_relay_udp_datagram_with_dns self target payload timeout).

Definition VmessQuic_connect (self : VmessQuicOutbound) (target : OutboundTarget) (timeout : Z)
  : SM W IoError (OutboundConnection W) :=
  with_system_dns (from_secs 60) (VmessQuic_connect_with_dns self target timeout).

Definition VmessQuic_relay_udp_datagram (self : VmessQuicOutbound) (target : OutboundTarget)
  (payload : list Z) (timeout : Z) : SM W IoError UdpRelayResponse :=
  with_system_dns (from_secs 60)
    (VmessQuic_relay_udp_datagram_with_dns self target payload timeout).
End SystemDns.
