(* ===== verification/OutboundOther.v ===== *)
(** * Outbounds of the other protocols

    [crates/keli-net-core/src/direct.rs], [naive.rs] and [mieru.rs]: SOCKS5, HTTP CONNECT,
    Shadowsocks, AnyTLS, TUIC, Hysteria 2, Naive and Mieru. The sessions of the last five
    are opened through [Network]. *)

From stdpp Require Import base strings list numbers.
From S2P Require Import Prelude.
From S2P Require Import StdNet.
From S2P Require Import StdIo.
From S2P Require Import Dns.
From S2P Require Import TunPacket.
From S2P Require Import TunLoop.
From S2P Require Import Socks5.
From S2P Require Import Relay.
From S2P Require Import Profile.
From S2P Require Import Codec.
From S2P Require Import ProxyWire.
From S2P Require Import Framed.
From S2P Require Import Vmess.
From S2P Require Import Network.
From S2P Require Import Outbound.
#[local] Open Scope Z_scope.

Record Socks5TcpOutbound : Type := mkSocks5TcpOutbound {
  Socks5Tcp_server : Endpoint;
  Socks5Tcp_credential : string
}.

Record HttpConnectOutbound : Type := mkHttpConnectOutbound {
  HttpConnect_server : Endpoint;
  HttpConnect_credential : string
}.

Record ShadowsocksTcpOutbound : Type := mkShadowsocksTcpOutbound {
  ShadowsocksTcp_server : Endpoint;
  ShadowsocksTcp_cipher : string;
  ShadowsocksTcp_password : string
}.

Record AnyTlsTlsTcpOutbound : Type := mkAnyTlsTlsTcpOutbound {
  AnyTlsTlsTcp_server : Endpoint;
  AnyTlsTlsTcp_password : string;
  AnyTlsTlsTcp_sni : string;
  AnyTlsTlsTcp_skip_verify : bool
}.

Record Hy2Outbound : Type := mkHy2Outbound {
  Hy2_server : Endpoint;
  Hy2_auth : string;
  Hy2_sni : string;
  Hy2_skip_verify : bool
}.

Record TuicOutbound : Type := mkTuicOutbound {
  Tuic_server : Endpoint;
  Tuic_uuid : string;
  Tuic_password : string;
  Tuic_sni : string;
  Tuic_skip_verify : bool
}.

Record NaiveH2TcpOutbound : Type := mkNaiveH2TcpOutbound {
  NaiveH2Tcp_server : Endpoint;
  NaiveH2Tcp_credential : string;
  NaiveH2Tcp_sni : string;
  NaiveH2Tcp_skip_verify : bool
}.

Record NaiveH3QuicOutbound : Type := mkNaiveH3QuicOutbound {
  NaiveH3Quic_server : Endpoint;
  NaiveH3Quic_credential : string;
  NaiveH3Quic_sni : string;
  NaiveH3Quic_skip_verify : bool
}.

Record MieruTcpOutbound : Type := mkMieruTcpOutbound {
  MieruTcp_server : Endpoint;
  MieruTcp_username : string;
  MieruTcp_password : string
}.

(** ** Datagrams of Shadowsocks and AnyTLS *)

Definition decode_shadowsocks_udp_address (payload : list Z) : result IoError (Endpoint * Z) :=
  match payload with
  | [] => Err (mkIoError UnexpectedEof "missing shadowsocks UDP address type")
  | atyp :: _ =>
      if atyp =? 1 then
        if len payload <? 7
        then Err (mkIoError UnexpectedEof "missing shadowsocks UDP IPv4 address")
        else
          ip <-? slice payload 1 5;
          p0 <-? index payload 5; p1 <-? index payload 6;
          Ok (mkEndpoint (v4_to_string (from_be_bytes ip)) (from_be_bytes [p0; p1]), 7)
      else if atyp =? 3 then
        length <-? ok_or (mkIoError UnexpectedEof "missing shadowsocks UDP domain length")
                     (get_index payload 1);
        let required := 2 + length + 2 in
        if len payload <? required
        then Err (mkIoError UnexpectedEof "missing shadowsocks UDP domain address")
        else
          bytes <-? slice payload 2 (2 + length);
          host <-? ok_or (mkIoError InvalidData "invalid utf-8 sequence") (from_utf8 bytes);
          p0 <-? index payload (2 + length); p1 <-? index payload (2 + length + 1);
          Ok (mkEndpoint host (from_be_bytes [p0; p1]), required)
      else if atyp =? 4 then
        if len payload <? 19
        then Err (mkIoError UnexpectedEof "missing shadowsocks UDP IPv6 address")
        else
          ip <-? slice payload 1 17;
          p0 <-? index payload 17; p1 <-? index payload 18;
          Ok (mkEndpoint (v6_to_string (from_be_bytes ip)) (from_be_bytes [p0; p1]), 19)
      else
        Err (mkIoError InvalidData
               ("unsupported shadowsocks UDP address type: " +:+ to_decimal atyp))
  end.

Section ShadowsocksDatagram.
Context {SsCrypto : ShadowsocksCrypto}.

Definition shadowsocks_encrypt_udp_packet (salt : list Z) (cipher_kind : CipherKind)
  (key : list Z) (target : Endpoint) (payload : list Z) : result IoError (list Z) :=
  header <-? map_err protocol_encoding_to_io (encode_shadowsocks_tcp_request_header target);
  let encrypted := header ++ payload ++ zeroed (kind_tag_len cipher_kind) in
  let '(_, encrypted) := encrypt_packet (Cipher_new cipher_kind key salt) encrypted in
  Ok (salt ++ encrypted).

Definition shadowsocks_decrypt_udp_packet (cipher_kind : CipherKind) (key packet : list Z)
  : result IoError (Endpoint * list Z) :=
  let salt_len := salt_len cipher_kind in
  let tag_len := kind_tag_len cipher_kind in
  if len packet <? salt_len + tag_len
  then Err (mkIoError UnexpectedEof "missing shadowsocks UDP salt or tag")
  else
    salt <-? slice packet 0 salt_len;
    encrypted <-? slice packet salt_len (len packet);
    match decrypt_packet (Cipher_new cipher_kind key salt) encrypted with
    | (_, None) => Err (mkIoError InvalidData "invalid shadowsocks UDP packet tag")
    | (_, Some payload) =>
        payload_len <-? checked_sub (len payload) tag_len;
        let payload := take (Z.to_nat payload_len) payload in
        '(source, consumed) <-? decode_shadowsocks_udp_address payload;
        rest <-? slice payload consumed (len payload);
        Ok (source, rest)
    end.
End ShadowsocksDatagram.

Definition encode_anytls_uot_connect_request (target : OutboundTarget) (payload : list Z)
  : result IoError (list Z) :=
  if u16_max <? len payload then Err (mkIoError InvalidInput "AnyTLS UoT payload is too large")
  else
    let target := mkEndpoint (target_host target) (target_port target) in
    target_header <-? map_err protocol_encoding_to_io
                        (encode_shadowsocks_tcp_request_header target);
    Ok ([1] ++ target_header ++ to_be_bytes 2 (as_u16 (len payload)) ++ payload).

Section Connect.
Context {W : Type} {Net : Network W} {R : Type} {Resolver : DnsResolver R}.
Context {SsCrypto : ShadowsocksCrypto} {Crypto : VmessCrypto}.

#[local] Instance AnyTlsTcpStream_relay : OwnedRelayStream (AnyTlsTcpStream TlsTcpStream) := {
  stream_read := anytls_read frame_limit utf8_lossy;
  stream_write := anytls_write;
  stream_flush := anytls_on_inner stream_flush;
  set_nonblocking_mode nonblocking := anytls_on_inner (set_nonblocking_mode nonblocking);
  shutdown_write := anytls_shutdown_write;
  shutdown_both := anytls_shutdown_both
}.

#[local] Instance ShadowsocksTcpStream_relay
  : OwnedRelayStream (ShadowsocksTcpStream CipherKind Cipher TcpStream) := {
  stream_read := ss_read;
  stream_write := ss_write;
  stream_flush := ss_on_inner stream_flush;
  set_nonblocking_mode nonblocking := ss_on_inner (set_nonblocking_mode nonblocking);
  shutdown_write := ss_on_inner shutdown_write;
  shutdown_both := ss_on_inner shutdown_both
}.

Definition Socks5Tcp_connect_with_dns (self : Socks5TcpOutbound) (target : OutboundTarget)
  (timeout : Z) : NM W R (OutboundConnection W) :=
  let server :=
    OutboundTarget_new (ep_host (Socks5Tcp_server self)) (ep_port (Socks5Tcp_server self)) in
  stream <-! DirectTcpConnector_connect_with_dns server timeout;
  '(stream, _) <-! using_stream stream (socks5_connect_proxy target (Socks5Tcp_credential self));
  sm_ret (Connection_Tcp stream).

Definition Socks5Tcp_relay_udp_datagram_with_dns (self : Socks5TcpOutbound)
  (target : OutboundTarget) (payload : list Z) (timeout : Z) : NM W R UdpRelayResponse :=
  let server :=
    OutboundTarget_new (ep_host (Socks5Tcp_server self)) (ep_port (Socks5Tcp_server self)) in
  control <-! DirectTcpConnector_connect_with_dns server timeout;
  control_peer <-! sm_lift (peer_addr control);
  '(control, relay) <-! using_stream control
     (socks5_udp_associate_proxy (Socks5Tcp_credential self));
  relay <-! net (socks5_udp_relay_addr relay control_peer timeout);
  socket <-! net (udp_bind (hy2_bind_addr_for relay));
  do! net (udp_set_read_timeout socket (Some timeout));
  do! net (udp_set_write_timeout socket (Some timeout));
  address <-! sm_lift (socks5_address_from_target target);
  packet <-! sm_lift (map_err (fun error => mkIoError InvalidInput (socks5_error error))
                        (encode_socks5_udp_datagram address (target_port target) payload));
  do! net (udp_send_to socket packet relay);
  '(response, _) <-! net (udp_recv_from socket 65535);
  datagram <-! sm_lift (map_err (fun error => mkIoError InvalidData (socks5_error error))
                          (parse_socks5_udp_datagram response));
  source <-! net (socks5_udp_source_addr (datagram_address datagram) (datagram_port datagram) timeout);
  sm_ret (mkUdpRelayResponse source (datagram_payload datagram)).

Definition HttpConnect_connect_with_dns (self : HttpConnectOutbound) (target : OutboundTarget)
  (timeout : Z) : NM W R (OutboundConnection W) :=
  let server :=
    OutboundTarget_new (ep_host (HttpConnect_server self)) (ep_port (HttpConnect_server self)) in
  stream <-! DirectTcpConnector_connect_with_dns server timeout;
  '(stream, _) <-! using_stream stream
     (http_connect_proxy base64_encode target (HttpConnect_credential self));
  sm_ret (Connection_Tcp stream).

Definition ShadowsocksTcp_connect_with_dns (self : ShadowsocksTcpOutbound)
  (target : OutboundTarget) (timeout : Z) : NM W R (OutboundConnection W) :=
  let server :=
    OutboundTarget_new (ep_host (ShadowsocksTcp_server self))
      (ep_port (ShadowsocksTcp_server self)) in
  stream <-! DirectTcpConnector_connect_with_dns server timeout;
  cipher_kind <-! sm_lift (shadowsocks_cipher_kind (ShadowsocksTcp_cipher self));
  let key := shadowsocks_key cipher_kind (ShadowsocksTcp_password self) in
  salt <-! net (random_bytes (salt_len cipher_kind));
  '(stream, _) <-! using_stream stream (write_all salt);
  let stream :=
    mkShadowsocksTcpStream stream cipher_kind key (Cipher_new cipher_kind key salt) None [] 0 in
  let target := mkEndpoint (target_host target) (target_port target) in
  header <-! sm_lift (map_err protocol_encoding_to_io
                        (encode_shadowsocks_tcp_request_header target));
  '(stream, _) <-! using_stream stream (ss_write header);
  sm_ret (Connection_Owned stream).

Definition ShadowsocksTcp_relay_udp_datagram_with_dns (self : ShadowsocksTcpOutbound)
  (target : OutboundTarget) (payload : list Z) (timeout : Z) : NM W R UdpRelayResponse :=
  cipher_kind <-! sm_lift (shadowsocks_cipher_kind (ShadowsocksTcp_cipher self));
  let key := shadowsocks_key cipher_kind (ShadowsocksTcp_password self) in
  let target := mkEndpoint (target_host target) (target_port target) in
  salt <-! net (random_bytes (salt_len cipher_kind));
  packet <-! sm_lift (shadowsocks_encrypt_udp_packet salt cipher_kind key target payload);
  addresses <-! dns_resolve (ep_host (ShadowsocksTcp_server self))
                  (ep_port (ShadowsocksTcp_server self));
  '(response, _) <-! net (exchange_addresses packet timeout addresses
                            (no_address "" (ep_host (ShadowsocksTcp_server self))
                               (ep_port (ShadowsocksTcp_server self))));
  '(source, payload) <-! sm_lift (shadowsocks_decrypt_udp_packet cipher_kind key response);
  source <-! sm_lift (endpoint_to_socket_addr source);
  sm_ret (mkUdpRelayResponse source payload).

Definition write_anytls_auth (stream : TlsTcpStream) (password : string)
  : SM W IoError TlsTcpStream :=
  '(stream, _) <-! using_stream stream (write_all (sha256 (as_bytes password)));
  '(stream, _) <-! using_stream stream (write_all (to_be_bytes 2 (as_u16 ANYTLS_AUTH_PADDING_LEN)));
  padding <-! random_bytes ANYTLS_AUTH_PADDING_LEN;
  '(stream, _) <-! using_stream stream (write_all padding);
  sm_ret stream.

(** [stream.read_exact] on an AnyTLS stream. *)
Definition anytls_read_exact (amount : Z) : SM (AnyTlsTcpStream TlsTcpStream) IoError (list Z) :=
  default_read_exact (anytls_read frame_limit utf8_lossy) frame_limit amount [].

Definition read_anytls_uot_connect_response
  : SM (AnyTlsTcpStream TlsTcpStream) IoError (list Z) :=
  length <-! anytls_read_exact 2;
  b0 <-! sm_lift (index length 0); b1 <-! sm_lift (index length 1);
  anytls_read_exact (from_be_bytes [b0; b1]).

(** What connecting and relaying have in common: the connection, TLS and the password. *)
Definition anytls_open (self : AnyTlsTlsTcpOutbound) (timeout : Z)
  : NM W R (AnyTlsTcpStream TlsTcpStream) :=
  let server :=
    OutboundTarget_new (ep_host (AnyTlsTlsTcp_server self)) (ep_port (AnyTlsTlsTcp_server self)) in
  stream <-! DirectTcpConnector_connect_with_dns server timeout;
  stream <-! sm_lift (TlsTcpStream_connect stream (AnyTlsTlsTcp_sni self)
                        (AnyTlsTlsTcp_skip_verify self));
  stream <-! net (write_anytls_auth stream (AnyTlsTlsTcp_password self));
  sm_ret (mkAnyTlsTcpStream stream [] 0 false false).

Definition AnyTlsTlsTcp_connect_with_dns (self : AnyTlsTlsTcpOutbound) (target : OutboundTarget)
  (timeout : Z) : NM W R (OutboundConnection W) :=
  anytls <-! anytls_open self timeout;
  let target := mkEndpoint (target_host target) (target_port target) in
  target_header <-! sm_lift (map_err protocol_encoding_to_io
                               (encode_shadowsocks_tcp_request_header target));
  '(anytls, _) <-! using_stream anytls (write_startup_frames crate_version target_header);
  sm_ret (Connection_Owned anytls).

Definition AnyTlsTlsTcp_relay_udp_datagram_with_dns (self : AnyTlsTlsTcpOutbound)
  (target : OutboundTarget) (payload : list Z) (timeout : Z) : NM W R UdpRelayResponse :=
  anytls <-! anytls_open self timeout;
  let uot_target := mkEndpoint ANYTLS_UOT_MAGIC_DOMAIN 0 in
  target_header <-! sm_lift (map_err protocol_encoding_to_io
                               (encode_shadowsocks_tcp_request_header uot_target));
  '(anytls, _) <-! using_stream anytls (write_startup_frames crate_version target_header);
  request <-! sm_lift (encode_anytls_uot_connect_request target payload);
  '(anytls, _) <-! using_stream anytls
     (anytls_write_frame ANYTLS_CMD_PSH ANYTLS_STREAM_ID request);
  '(anytls, response) <-! using_stream anytls read_anytls_uot_connect_response;
  source <-! outbound_target_socket_addr_with_dns target;
  sm_ret (mkUdpRelayResponse source response).

(** [random_nonzero_u16], [random_nonzero_u32]: [next_u32], of which the first keeps the
    low half. *)
Definition next_u32 : SM W IoError Z :=
  bytes <-! random_bytes 4;
  sm_ret (from_be_bytes bytes).

Definition random_nonzero_u16 : SM W IoError Z :=
  value <-! next_u32;
  let value := Z.land value 65535 in
  sm_ret (if value =? 0 then 1 else value).

Definition random_nonzero_u32 : SM W IoError Z :=
  value <-! next_u32;
  sm_ret (if value =? 0 then 1 else value).

Definition Tuic_connect_with_dns (self : TuicOutbound) (target : OutboundTarget) (timeout : Z)
  : NM W R (OutboundConnection W) :=
  let target := mkEndpoint (target_host target) (target_port target) in
  addresses <-! resolve_endpoint_socket_addrs_with_dns (Tuic_server self);
  stream <-! net (try_addresses
    (fun server_addr =>
       TuicBlockingTcpStream_connect (hy2_bind_addr_for server_addr) server_addr (Tuic_sni self)
         (Tuic_skip_verify self) (Tuic_uuid self) (Tuic_password self) target)
    addresses (no_address "" (ep_host (Tuic_server self)) (ep_port (Tuic_server self))));
  sm_ret (Connection_Owned stream).

Definition Tuic_relay_udp_datagram_with_dns (self : TuicOutbound) (target : OutboundTarget)
  (payload : list Z) (timeout : Z) : NM W R UdpRelayResponse :=
  let target := mkEndpoint (target_host target) (target_port target) in
  associate_id <-! net random_nonzero_u16;
  packet_id <-! net random_nonzero_u16;
  addresses <-! resolve_endpoint_socket_addrs_with_dns (Tuic_server self);
  packet <-! net (try_addresses
    (fun server_addr =>
       TuicClientSession_relay_udp (hy2_bind_addr_for server_addr) server_addr (Tuic_sni self)
         (Tuic_skip_verify self) (Tuic_uuid self) (Tuic_password self) associate_id packet_id target
         payload timeout)
    addresses (no_address "" (ep_host (Tuic_server self)) (ep_port (Tuic_server self))));
  source <-! sm_lift (endpoint_to_socket_addr (tuic_source packet));
  sm_ret (mkUdpRelayResponse source (tuic_payload packet)).

Definition Hy2_connect_with_dns (self : Hy2Outbound) (target : OutboundTarget) (timeout : Z)
  : NM W R (OutboundConnection W) :=
  let target := mkEndpoint (target_host target) (target_port target) in
  addresses <-! resolve_endpoint_socket_addrs_with_dns (Hy2_server self);
  stream <-! net (try_addresses
    (fun server_addr =>
       Hy2BlockingTcpStream_connect (hy2_bind_addr_for server_addr) server_addr (Hy2_sni self)
         (Hy2_skip_verify self) (Hy2_auth self) 0 "" target [])
    addresses (no_address "" (ep_host (Hy2_server self)) (ep_port (Hy2_server self))));
  sm_ret (Connection_Owned stream).

Definition Hy2_relay_udp_datagram_with_dns (self : Hy2Outbound) (target : OutboundTarget)
  (payload : list Z) (timeout : Z) : NM W R UdpRelayResponse :=
  let target := mkEndpoint (target_host target) (target_port target) in
  session_id <-! net random_nonzero_u32;
  packet_id <-! net random_nonzero_u16;
  addresses <-! resolve_endpoint_socket_addrs_with_dns (Hy2_server self);
  message <-! net (try_addresses
    (fun server_addr =>
       Hy2ClientSession_relay_udp (hy2_bind_addr_for server_addr) server_addr (Hy2_sni self)
         (Hy2_skip_verify self) (Hy2_auth self) session_id packet_id target payload timeout)
    addresses (no_address "" (ep_host (Hy2_server self)) (ep_port (Hy2_server self))));
  source <-! sm_lift (endpoint_to_socket_addr (hy2_address message));
  sm_ret (mkUdpRelayResponse source (hy2_payload message)).

Definition NaiveH2Tcp_connect_with_dns (self : NaiveH2TcpOutbound) (target : OutboundTarget)
  (timeout : Z) : NM W R (OutboundConnection W) :=
  let server :=
    OutboundTarget_new (ep_host (NaiveH2Tcp_server self)) (ep_port (NaiveH2Tcp_server self)) in
  stream <-! DirectTcpConnector_connect_with_dns server timeout;
  let target := mkEndpoint (target_host target) (target_port target) in
  stream <-! net (NaiveH2TcpStream_connect stream (NaiveH2Tcp_sni self)
                    (NaiveH2Tcp_skip_verify self) (NaiveH2Tcp_credential self) target);
  sm_ret (Connection_Owned stream).

Definition NaiveH3Quic_connect_with_dns (self : NaiveH3QuicOutbound) (target : OutboundTarget)
  (timeout : Z) : NM W R (OutboundConnection W) :=
  let target := mkEndpoint (target_host target) (target_port target) in
  addresses <-! resolve_endpoint_socket_addrs_with_dns (NaiveH3Quic_server self);
  stream <-! net (try_addresses
    (fun server_addr =>
       NaiveH3QuicStream_connect (hy2_bind_addr_for server_addr) server_addr (NaiveH3Quic_sni self)
         (NaiveH3Quic_skip_verify self) (NaiveH3Quic_credential self) target timeout)
    addresses
    (no_address "" (ep_host (NaiveH3Quic_server self)) (ep_port (NaiveH3Quic_server self))));
  sm_ret (Connection_Owned stream).

Definition MieruTcp_connect_with_dns (self : MieruTcpOutbound) (target : OutboundTarget)
  (timeout : Z) : NM W R (OutboundConnection W) :=
  let server :=
    OutboundTarget_new (ep_host (MieruTcp_server self)) (ep_port (MieruTcp_server self)) in
  stream <-! DirectTcpConnector_connect_with_dns server timeout;
  '(stream, _) <-! using_stream stream (set_read_timeout (Some timeout));
  '(stream, _) <-! using_stream stream (set_write_timeout (Some timeout));
  let target := mkEndpoint (target_host target) (target_port target) in
  stream <-! net (MieruTcpStream_connect stream (MieruTcp_username self) (MieruTcp_password self)
                    target);
  '(stream, _) <-! using_stream stream mieru_clear_timeouts;
  sm_ret (Connection_Owned stream).

Definition MieruTcp_relay_udp_datagram_with_dns (self : MieruTcpOutbound)
  (target : OutboundTarget) (payload : list Z) (timeout : Z) : NM W R UdpRelayResponse :=
  let server :=
    OutboundTarget_new (ep_host (MieruTcp_server self)) (ep_port (MieruTcp_server self)) in
  stream <-! DirectTcpConnector_connect_with_dns server timeout;
  '(stream, _) <-! using_stream stream (set_read_timeout (Some timeout));
  '(stream, _) <-! using_stream stream (set_write_timeout (Some timeout));
  stream <-! net (MieruTcpStream_udp_associate stream (MieruTcp_username self)
                    (MieruTcp_password self));
  '(stream, _) <-! using_stream stream (mieru_write_udp_datagram target payload);
  '(stream, response) <-! using_stream stream (mieru_read_udp_datagram timeout);
  sm_ret response.
End Connect.

(** [connect] and [relay_udp_datagram]: with an engine over the system's resolver. *)

Section SystemDns.
Context {W : Type} {Net : Network W}.
Context {SsCrypto : ShadowsocksCrypto}.
Context {Crypto : VmessCrypto}.

Definition Socks5Tcp_connect (self : Socks5TcpOutbound) (target : OutboundTarget) (timeout : Z)
  : SM W IoError (OutboundConnection W) :=
  with_system_dns (from_secs 60) (Socks5Tcp_connect_with_dns self target timeout).

Definition Socks5Tcp_relay_udp_datagram (self : Socks5TcpOutbound) (target : OutboundTarget)
  (payload : list Z) (timeout : Z) : SM W IoError UdpRelayResponse :=
  with_system_dns (from_secs 60)
    (Socks5Tcp_relay_udp_datagram_with_dns self target payload timeout).

Definition HttpConnect_connect (self : HttpConnectOutbound) (target : OutboundTarget) (timeout : Z)
  : SM W IoError (OutboundConnection W) :=
  with_system_dns (from_secs 60) (HttpConnect_connect_with_dns self target timeout).

Definition ShadowsocksTcp_connect (self : ShadowsocksTcpOutbound) (target : OutboundTarget) (timeout : Z)
  : SM W IoError (OutboundConnection W) :=
  with_system_dns (from_secs 60) (ShadowsocksTcp_connect_with_dns self target timeout).

Definition ShadowsocksTcp_relay_udp_datagram (self : ShadowsocksTcpOutbound) (target : OutboundTarget)
  (payload : list Z) (timeout : Z) : SM W IoError UdpRelayResponse :=
  with_system_dns (from_secs 60)
    (ShadowsocksTcp_relay_udp_datagram_with_dns self target payload timeout).

Definition AnyTlsTlsTcp_connect (self : AnyTlsTlsTcpOutbound) (target : OutboundTarget) (timeout : Z)
  : SM W IoError (OutboundConnection W) :=
  with_system_dns (from_secs 60) (AnyTlsTlsTcp_connect_with_dns self target timeout).

Definition AnyTlsTlsTcp_relay_udp_datagram (self : AnyTlsTlsTcpOutbound) (target : OutboundTarget)
  (payload : list Z) (timeout : Z) : SM W IoError UdpRelayResponse :=
  with_system_dns (from_secs 60)
    (AnyTlsTlsTcp_relay_udp_datagram_with_dns self target payload timeout).

Definition Hy2_connect (self : Hy2Outbound) (target : OutboundTarget) (timeout : Z)
  : SM W IoError (OutboundConnection W) :=
  with_system_dns (from_secs 60) (Hy2_connect_with_dns self target timeout).

Definition Hy2_relay_udp_datagram (self : Hy2Outbound) (target : OutboundTarget)
  (payload : list Z) (timeout : Z) : SM W IoError UdpRelayResponse :=
  with_system_dns (from_secs 60)
    (Hy2_relay_udp_datagram_with_dns self target payload timeout).

Definition Tuic_connect (self : TuicOutbound) (target : OutboundTarget) (timeout : Z)
  : SM W IoError (OutboundConnection W) :=
  with_system_dns (from_secs 60) (Tuic_connect_with_dns self target timeout).

Definition Tuic_relay_udp_datagram (self : TuicOutbound) (target : OutboundTarget)
  (payload : list Z) (timeout : Z) : SM W IoError UdpRelayResponse :=
  with_system_dns (from_secs 60)
    (Tuic_relay_udp_datagram_with_dns self target payload timeout).

Definition NaiveH2Tcp_connect (self : NaiveH2TcpOutbound) (target : OutboundTarget) (timeout : Z)
  : SM W IoError (OutboundConnection W) :=
  with_system_dns (from_secs 60) (NaiveH2Tcp_connect_with_dns self target timeout).

Definition NaiveH3Quic_connect (self : NaiveH3QuicOutbound) (target : OutboundTarget) (timeout : Z)
  : SM W IoError (OutboundConnection W) :=
  with_system_dns (from_secs 60) (NaiveH3Quic_connect_with_dns self target timeout).

Definition MieruTcp_connect (self : MieruTcpOutbound) (target : OutboundTarget) (timeout : Z)
  : SM W IoError (OutboundConnection W) :=
  with_system_dns (from_secs 60) (MieruTcp_connect_with_dns self target timeout).

Definition MieruTcp_relay_udp_datagram (self : MieruTcpOutbound) (target : OutboundTarget)
  (payload : list Z) (timeout : Z) : SM W IoError UdpRelayResponse :=
  with_system_dns (from_secs 60)
    (MieruTcp_relay_udp_datagram_with_dns self target payload timeout).
End SystemDns.
