(* ===== verification/Registry.v ===== *)
(** * The registry of outbounds

    [crates/keli-net-core/src/direct.rs], [OutboundRegistry]: one table per kind of
    outbound, from a tag to the outbound; the profiles that fill them, and the dispatch
    of connections and datagrams by tag. *)

From Stdlib Require Import Ascii.
From stdpp Require Import base gmap strings list numbers.
From S2P Require Import Prelude.
From S2P Require Import StdNet.
From S2P Require Import StdIo.
From S2P Require Import Dns.
From S2P Require Import TunPacket.
From S2P Require Import TunLoop.
From S2P Require Import Relay.
From S2P Require Import Profile.
From S2P Require Import Codec.
From S2P Require Import ProxyWire.
From S2P Require Import Framed.
From S2P Require Import Vmess.
From S2P Require Import Network.
From S2P Require Import Outbound.
From S2P Require Import OutboundVless.
From S2P Require Import OutboundTrojan.
From S2P Require Import OutboundVmess.
From S2P Require Import OutboundOther.
#[local] Open Scope Z_scope.

Record OutboundRegistry : Type := mkOutboundRegistry {
  direct_tags : gset string;
  socks5_tcp_tags : gmap string Socks5TcpOutbound;
  http_connect_tags : gmap string HttpConnectOutbound;
  trojan_tcp_tags : gmap string TrojanTcpOutbound;
  trojan_tls_tcp_tags : gmap string TrojanTlsTcpOutbound;
  trojan_ws_tags : gmap string TrojanWsOutbound;
  trojan_tls_ws_tags : gmap string TrojanTlsWsOutbound;
  trojan_httpupgrade_tags : gmap string TrojanHttpUpgradeOutbound;
  trojan_tls_httpupgrade_tags : gmap string TrojanTlsHttpUpgradeOutbound;
  trojan_grpc_tags : gmap string TrojanGrpcOutbound;
  trojan_tls_grpc_tags : gmap string TrojanTlsGrpcOutbound;
  trojan_h2_tags : gmap string TrojanH2Outbound;
  trojan_tls_h2_tags : gmap string TrojanTlsH2Outbound;
  trojan_quic_tags : gmap string TrojanQuicOutbound;
  vless_tcp_tags : gmap string VlessTcpOutbound;
  vless_tls_tcp_tags : gmap string VlessTlsTcpOutbound;
  vless_ws_tags : gmap string VlessWsOutbound;
  vless_tls_ws_tags : gmap string VlessTlsWsOutbound;
  vless_httpupgrade_tags : gmap string VlessHttpUpgradeOutbound;
  vless_tls_httpupgrade_tags : gmap string VlessTlsHttpUpgradeOutbound;
  vless_grpc_tags : gmap string VlessGrpcOutbound;
  vless_tls_grpc_tags : gmap string VlessTlsGrpcOutbound;
  vless_h2_tags : gmap string VlessH2Outbound;
  vless_tls_h2_tags : gmap string VlessTlsH2Outbound;
  vless_quic_tags : gmap string VlessQuicOutbound;
  vmess_tcp_tags : gmap string VmessTcpOutbound;
  vmess_tls_tcp_tags : gmap string VmessTlsTcpOutbound;
  vmess_ws_tags : gmap string VmessWsOutbound;
  vmess_tls_ws_tags : gmap string VmessTlsWsOutbound;
  vmess_httpupgrade_tags : gmap string VmessHttpUpgradeOutbound;
  vmess_tls_httpupgrade_tags : gmap string VmessTlsHttpUpgradeOutbound;
  vmess_grpc_tags : gmap string VmessGrpcOutbound;
  vmess_tls_grpc_tags : gmap string VmessTlsGrpcOutbound;
  vmess_h2_tags : gmap string VmessH2Outbound;
  vmess_tls_h2_tags : gmap string VmessTlsH2Outbound;
  vmess_quic_tags : gmap string VmessQuicOutbound;
  shadowsocks_tcp_tags : gmap string ShadowsocksTcpOutbound;
  anytls_tls_tcp_tags : gmap string AnyTlsTlsTcpOutbound;
  naive_h2_tcp_tags : gmap string NaiveH2TcpOutbound;
  naive_h3_quic_tags : gmap string NaiveH3QuicOutbound;
  mieru_tcp_tags : gmap string MieruTcpOutbound;
  hy2_tags : gmap string Hy2Outbound;
  tuic_tags : gmap string TuicOutbound
}.

#[export] Instance set_OutboundRegistry : Settable OutboundRegistry := fun r =>
  mkOutboundRegistry (direct_tags r) (socks5_tcp_tags r) (http_connect_tags r)
      (trojan_tcp_tags r) (trojan_tls_tcp_tags r) (trojan_ws_tags r) (trojan_tls_ws_tags r)
      (trojan_httpupgrade_tags r) (trojan_tls_httpupgrade_tags r) (trojan_grpc_tags r)
      (trojan_tls_grpc_tags r) (trojan_h2_tags r) (trojan_tls_h2_tags r) (trojan_quic_tags r)
      (vless_tcp_tags r) (vless_tls_tcp_tags r) (vless_ws_tags r) (vless_tls_ws_tags r)
      (vless_httpupgrade_tags r) (vless_tls_httpupgrade_tags r) (vless_grpc_tags r)
      (vless_tls_grpc_tags r) (vless_h2_tags r) (vless_tls_h2_tags r) (vless_quic_tags r)
      (vmess_tcp_tags r) (vmess_tls_tcp_tags r) (vmess_ws_tags r) (vmess_tls_ws_tags r)
      (vmess_httpupgrade_tags r) (vmess_tls_httpupgrade_tags r) (vmess_grpc_tags r)
      (vmess_tls_grpc_tags r) (vmess_h2_tags r) (vmess_tls_h2_tags r) (vmess_quic_tags r)
      (shadowsocks_tcp_tags r) (anytls_tls_tcp_tags r) (naive_h2_tcp_tags r)
      (naive_h3_quic_tags r) (mieru_tcp_tags r) (hy2_tags r) (tuic_tags r).

(** [OutboundRegistry::new]. *)
Definition OutboundRegistry_new : OutboundRegistry :=
  mkOutboundRegistry ∅ ∅ ∅ ∅ ∅ ∅ ∅ ∅ ∅ ∅ ∅ ∅ ∅ ∅ ∅ ∅ ∅ ∅ ∅ ∅ ∅ ∅ ∅ ∅ ∅ ∅ ∅ ∅ ∅ ∅ ∅ ∅ ∅ ∅ ∅ ∅ ∅ ∅
      ∅ ∅ ∅ ∅ ∅.

Inductive OutboundProfileError : Type :=
| Profile_Validation (tag : string) (source : ProtocolValidationError)
| Profile_UnsupportedSecurity (tag : string) (security : SecurityKind)
| Profile_MissingShadowsocksCipher (tag : string)
| Profile_UnsupportedVmessCipher (tag cipher : string)
| Profile_UnsupportedTransport (tag : string) (protocol : ProxyProtocol)
    (transport : TransportKind) (security : SecurityKind).

(** ** Adding outbounds *)

Definition add_direct (tag : string) (self : OutboundRegistry) : OutboundRegistry :=
  self <| direct_tags := {[ tag ]} ∪ direct_tags self |>.

Definition add_socks5_tcp (tag : string) (outbound : Socks5TcpOutbound) (self : OutboundRegistry)
  : OutboundRegistry :=
  self <| socks5_tcp_tags := <[tag := outbound]> (socks5_tcp_tags self) |>.

Definition add_http_connect (tag : string) (outbound : HttpConnectOutbound) (self : OutboundRegistry)
  : OutboundRegistry :=
  self <| http_connect_tags := <[tag := outbound]> (http_connect_tags self) |>.

Definition add_trojan_tcp (tag : string) (outbound : TrojanTcpOutbound) (self : OutboundRegistry)
  : OutboundRegistry :=
  self <| trojan_tcp_tags := <[tag := outbound]> (trojan_tcp_tags self) |>.

Definition add_trojan_tls_tcp (tag : string) (outbound : TrojanTlsTcpOutbound) (self : OutboundRegistry)
  : OutboundRegistry :=
  self <| trojan_tls_tcp_tags := <[tag := outbound]> (trojan_tls_tcp_tags self) |>.

Definition add_trojan_ws (tag : string) (outbound : TrojanWsOutbound) (self : OutboundRegistry)
  : OutboundRegistry :=
  self <| trojan_ws_tags := <[tag := outbound]> (trojan_ws_tags self) |>.

Definition add_trojan_tls_ws (tag : string) (outbound : TrojanTlsWsOutbound) (self : OutboundRegistry)
  : OutboundRegistry :=
  self <| trojan_tls_ws_tags := <[tag := outbound]> (trojan_tls_ws_tags self) |>.

Definition add_trojan_httpupgrade (tag : string) (outbound : TrojanHttpUpgradeOutbound) (self : OutboundRegistry)
  : OutboundRegistry :=
  self <| trojan_httpupgrade_tags := <[tag := outbound]> (trojan_httpupgrade_tags self) |>.

Definition add_trojan_tls_httpupgrade (tag : string) (outbound : TrojanTlsHttpUpgradeOutbound) (self : OutboundRegistry)
  : OutboundRegistry :=
  self <| trojan_tls_httpupgrade_tags := <[tag := outbound]> (trojan_tls_httpupgrade_tags self) |>.

Definition add_trojan_grpc (tag : string) (outbound : TrojanGrpcOutbound) (self : OutboundRegistry)
  : OutboundRegistry :=
  self <| trojan_grpc_tags := <[tag := outbound]> (trojan_grpc_tags self) |>.

Definition add_trojan_tls_grpc (tag : string) (outbound : TrojanTlsGrpcOutbound) (self : OutboundRegistry)
  : OutboundRegistry :=
  self <| trojan_tls_grpc_tags := <[tag := outbound]> (trojan_tls_grpc_tags self) |>.

Definition add_trojan_h2 (tag : string) (outbound : TrojanH2Outbound) (self : OutboundRegistry)
  : OutboundRegistry :=
  self <| trojan_h2_tags := <[tag := outbound]> (trojan_h2_tags self) |>.

Definition add_trojan_tls_h2 (tag : string) (outbound : TrojanTlsH2Outbound) (self : OutboundRegistry)
  : OutboundRegistry :=
  self <| trojan_tls_h2_tags := <[tag := outbound]> (trojan_tls_h2_tags self) |>.

Definition add_trojan_quic (tag : string) (outbound : TrojanQuicOutbound) (self : OutboundRegistry)
  : OutboundRegistry :=
  self <| trojan_quic_tags := <[tag := outbound]> (trojan_quic_tags self) |>.

Definition add_vless_tcp (tag : string) (outbound : VlessTcpOutbound) (self : OutboundRegistry)
  : OutboundRegistry :=
  self <| vless_tcp_tags := <[tag := outbound]> (vless_tcp_tags self) |>.

Definition add_vless_tls_tcp (tag : string) (outbound : VlessTlsTcpOutbound) (self : OutboundRegistry)
  : OutboundRegistry :=
  self <| vless_tls_tcp_tags := <[tag := outbound]> (vless_tls_tcp_tags self) |>.

Definition add_vless_ws (tag : string) (outbound : VlessWsOutbound) (self : OutboundRegistry)
  : OutboundRegistry :=
  self <| vless_ws_tags := <[tag := outbound]> (vless_ws_tags self) |>.

Definition add_vless_tls_ws (tag : string) (outbound : VlessTlsWsOutbound) (self : OutboundRegistry)
  : OutboundRegistry :=
  self <| vless_tls_ws_tags := <[tag := outbound]> (vless_tls_ws_tags self) |>.

Definition add_vless_httpupgrade (tag : string) (outbound : VlessHttpUpgradeOutbound) (self : OutboundRegistry)
  : OutboundRegistry :=
  self <| vless_httpupgrade_tags := <[tag := outbound]> (vless_httpupgrade_tags self) |>.

Definition add_vless_tls_httpupgrade (tag : string) (outbound : VlessTlsHttpUpgradeOutbound) (self : OutboundRegistry)
  : OutboundRegistry :=
  self <| vless_tls_httpupgrade_tags := <[tag := outbound]> (vless_tls_httpupgrade_tags self) |>.

Definition add_vless_grpc (tag : string) (outbound : VlessGrpcOutbound) (self : OutboundRegistry)
  : OutboundRegistry :=
  self <| vless_grpc_tags := <[tag := outbound]> (vless_grpc_tags self) |>.

Definition add_vless_tls_grpc (tag : string) (outbound : VlessTlsGrpcOutbound) (self : OutboundRegistry)
  : OutboundRegistry :=
  self <| vless_tls_grpc_tags := <[tag := outbound]> (vless_tls_grpc_tags self) |>.

Definition add_vless_h2 (tag : string) (outbound : VlessH2Outbound) (self : OutboundRegistry)
  : OutboundRegistry :=
  self <| vless_h2_tags := <[tag := outbound]> (vless_h2_tags self) |>.

Definition add_vless_tls_h2 (tag : string) (outbound : VlessTlsH2Outbound) (self : OutboundRegistry)
  : OutboundRegistry :=
  self <| vless_tls_h2_tags := <[tag := outbound]> (vless_tls_h2_tags self) |>.

Definition add_vless_quic (tag : string) (outbound : VlessQuicOutbound) (self : OutboundRegistry)
  : OutboundRegistry :=
  self <| vless_quic_tags := <[tag := outbound]> (vless_quic_tags self) |>.

Definition add_vmess_tcp (tag : string) (outbound : VmessTcpOutbound) (self : OutboundRegistry)
  : OutboundRegistry :=
  self <| vmess_tcp_tags := <[tag := outbound]> (vmess_tcp_tags self) |>.

Definition add_vmess_tls_tcp (tag : string) (outbound : VmessTlsTcpOutbound) (self : OutboundRegistry)
  : OutboundRegistry :=
  self <| vmess_tls_tcp_tags := <[tag := outbound]> (vmess_tls_tcp_tags self) |>.

Definition add_vmess_ws (tag : string) (outbound : VmessWsOutbound) (self : OutboundRegistry)
  : OutboundRegistry :=
  self <| vmess_ws_tags := <[tag := outbound]> (vmess_ws_tags self) |>.

Definition add_vmess_tls_ws (tag : string) (outbound : VmessTlsWsOutbound) (self : OutboundRegistry)
  : OutboundRegistry :=
  self <| vmess_tls_ws_tags := <[tag := outbound]> (vmess_tls_ws_tags self) |>.

Definition add_vmess_httpupgrade (tag : string) (outbound : VmessHttpUpgradeOutbound) (self : OutboundRegistry)
  : OutboundRegistry :=
  self <| vmess_httpupgrade_tags := <[tag := outbound]> (vmess_httpupgrade_tags self) |>.

Definition add_vmess_tls_httpupgrade (tag : string) (outbound : VmessTlsHttpUpgradeOutbound) (self : OutboundRegistry)
  : OutboundRegistry :=
  self <| vmess_tls_httpupgrade_tags := <[tag := outbound]> (vmess_tls_httpupgrade_tags self) |>.

Definition add_vmess_grpc (tag : string) (outbound : VmessGrpcOutbound) (self : OutboundRegistry)
  : OutboundRegistry :=
  self <| vmess_grpc_tags := <[tag := outbound]> (vmess_grpc_tags self) |>.

Definition add_vmess_tls_grpc (tag : string) (outbound : VmessTlsGrpcOutbound) (self : OutboundRegistry)
  : OutboundRegistry :=
  self <| vmess_tls_grpc_tags := <[tag := outbound]> (vmess_tls_grpc_tags self) |>.

Definition add_vmess_h2 (tag : string) (outbound : VmessH2Outbound) (self : OutboundRegistry)
  : OutboundRegistry :=
  self <| vmess_h2_tags := <[tag := outbound]> (vmess_h2_tags self) |>.

Definition add_vmess_tls_h2 (tag : string) (outbound : VmessTlsH2Outbound) (self : OutboundRegistry)
  : OutboundRegistry :=
  self <| vmess_tls_h2_tags := <[tag := outbound]> (vmess_tls_h2_tags self) |>.

Definition add_vmess_quic (tag : string) (outbound : VmessQuicOutbound) (self : OutboundRegistry)
  : OutboundRegistry :=
  self <| vmess_quic_tags := <[tag := outbound]> (vmess_quic_tags self) |>.

Definition add_shadowsocks_tcp (tag : string) (outbound : ShadowsocksTcpOutbound) (self : OutboundRegistry)
  : OutboundRegistry :=
  self <| shadowsocks_tcp_tags := <[tag := outbound]> (shadowsocks_tcp_tags self) |>.

Definition add_anytls_tls_tcp (tag : string) (outbound : AnyTlsTlsTcpOutbound) (self : OutboundRegistry)
  : OutboundRegistry :=
  self <| anytls_tls_tcp_tags := <[tag := outbound]> (anytls_tls_tcp_tags self) |>.

Definition add_naive_h2_tcp (tag : string) (outbound : NaiveH2TcpOutbound) (self : OutboundRegistry)
  : OutboundRegistry :=
  self <| naive_h2_tcp_tags := <[tag := outbound]> (naive_h2_tcp_tags self) |>.

Definition add_naive_h3_quic (tag : string) (outbound : NaiveH3QuicOutbound) (self : OutboundRegistry)
  : OutboundRegistry :=
  self <| naive_h3_quic_tags := <[tag := outbound]> (naive_h3_quic_tags self) |>.

Definition add_mieru_tcp (tag : string) (outbound : MieruTcpOutbound) (self : OutboundRegistry)
  : OutboundRegistry :=
  self <| mieru_tcp_tags := <[tag := outbound]> (mieru_tcp_tags self) |>.

Definition add_hy2 (tag : string) (outbound : Hy2Outbound) (self : OutboundRegistry)
  : OutboundRegistry :=
  self <| hy2_tags := <[tag := outbound]> (hy2_tags self) |>.

Definition add_tuic (tag : string) (outbound : TuicOutbound) (self : OutboundRegistry)
  : OutboundRegistry :=
  self <| tuic_tags := <[tag := outbound]> (tuic_tags self) |>.

(** ** Profiles *)

Definition vmess_security_from_profile_cipher (tag : string) (cipher : option string)
  : result OutboundProfileError VmessBodySecurity :=
  let cipher := to_ascii_lowercase (trim (default "auto" cipher)) in
  if String.eqb cipher "" || String.eqb cipher "auto" || String.eqb cipher "aes-128-gcm"
  then Ok VmessBody_Aes128Gcm
  else if String.eqb cipher "chacha20-poly1305" then Ok VmessBody_Chacha20Poly1305
  else if String.eqb cipher "none" || String.eqb cipher "zero" then Ok VmessBody_None
  else Err (Profile_UnsupportedVmessCipher tag cipher).

Definition split_tuic_credential (credential : string) : option (string * string) :=
  match split_once ":"%char credential with
  | None => None
  | Some (uuid, password) =>
      let uuid := trim uuid in
      let password := trim password in
      if String.eqb uuid "" || String.eqb password "" then None else Some (uuid, password)
  end.

(** The [match] of [add_profile] on protocol, transport and security, the arms of VLESS, Trojan
    and VMess apart: each of them has one for every transport and security. *)
Definition add_trojan_profile (tag : string) (endpoint : Endpoint) (transport : TransportKind)
  (security : SecurityKind) (credential : string)
  : SM OutboundRegistry OutboundProfileError unit :=
  match transport, security with
  | Transport_Tcp, Security_None =>
      sm_modify (add_trojan_tcp tag (mkTrojanTcpOutbound endpoint credential))
  | Transport_Tcp, Security_Tls sni skip_verify =>
      let sni := default (ep_host endpoint) sni in
      sm_modify (add_trojan_tls_tcp tag (mkTrojanTlsTcpOutbound endpoint credential sni
          skip_verify))
  | Transport_WebSocket path host, Security_None =>
      let host := default (ep_host endpoint) host in
      sm_modify (add_trojan_ws tag (mkTrojanWsOutbound endpoint host path credential))
  | Transport_WebSocket path host, Security_Tls sni skip_verify =>
      let host := default (ep_host endpoint) host in
      let sni := default host sni in
      sm_modify (add_trojan_tls_ws tag (mkTrojanTlsWsOutbound endpoint host path credential sni
          skip_verify))
  | Transport_HttpUpgrade path host, Security_None =>
      let host := default (ep_host endpoint) host in
      sm_modify (add_trojan_httpupgrade tag (mkTrojanHttpUpgradeOutbound endpoint host path
          credential))
  | Transport_HttpUpgrade path host, Security_Tls sni skip_verify =>
      let host := default (ep_host endpoint) host in
      let sni := default host sni in
      sm_modify (add_trojan_tls_httpupgrade tag (mkTrojanTlsHttpUpgradeOutbound endpoint host
          path credential sni skip_verify))
  | Transport_Grpc service_name, Security_None =>
      let host := ep_host endpoint in
      sm_modify (add_trojan_grpc tag (mkTrojanGrpcOutbound endpoint host service_name
          credential))
  | Transport_Grpc service_name, Security_Tls sni skip_verify =>
      let sni := default (ep_host endpoint) sni in
      let host := sni in
      sm_modify (add_trojan_tls_grpc tag (mkTrojanTlsGrpcOutbound endpoint host service_name
          credential sni skip_verify))
  | Transport_Http2 path host, Security_None =>
      let host := default (ep_host endpoint) host in
      sm_modify (add_trojan_h2 tag (mkTrojanH2Outbound endpoint host path credential))
  | Transport_Http2 path host, Security_Tls sni skip_verify =>
      let sni := default (ep_host endpoint) sni in
      let host := default sni host in
      sm_modify (add_trojan_tls_h2 tag (mkTrojanTlsH2Outbound endpoint host path credential sni
          skip_verify))
  | Transport_Quic quic_security key header_type, Security_None =>
      sm_modify (add_trojan_quic tag (mkTrojanQuicOutbound endpoint credential
          LEGACY_QUIC_INTERNAL_SERVER_NAME true
          (mkLegacyQuicTransportConfig quic_security key header_type)))
  | Transport_Quic quic_security key header_type, Security_Tls sni skip_verify =>
      let sni := default (ep_host endpoint) sni in
      sm_modify (add_trojan_quic tag (mkTrojanQuicOutbound endpoint credential sni skip_verify
          (mkLegacyQuicTransportConfig quic_security key header_type)))
  end.

Definition add_vmess_profile (tag : string) (endpoint : Endpoint) (transport : TransportKind)
  (security : SecurityKind) (credential : string) (cipher : option string)
  : SM OutboundRegistry OutboundProfileError unit :=
  match transport, security with
  | Transport_Tcp, Security_None =>
      vmess_security <-! sm_lift (vmess_security_from_profile_cipher tag cipher);
      sm_modify (add_vmess_tcp tag (mkVmessTcpOutbound endpoint credential vmess_security))
  | Transport_Tcp, Security_Tls sni skip_verify =>
      let sni := default (ep_host endpoint) sni in
      vmess_security <-! sm_lift (vmess_security_from_profile_cipher tag cipher);
      sm_modify (add_vmess_tls_tcp tag (mkVmessTlsTcpOutbound endpoint credential sni skip_verify
          vmess_security))
  | Transport_WebSocket path host, Security_None =>
      let host := default (ep_host endpoint) host in
      vmess_security <-! sm_lift (vmess_security_from_profile_cipher tag cipher);
      sm_modify (add_vmess_ws tag (mkVmessWsOutbound endpoint host path credential
          vmess_security))
  | Transport_WebSocket path host, Security_Tls sni skip_verify =>
      let host := default (ep_host endpoint) host in
      let sni := default host sni in
      vmess_security <-! sm_lift (vmess_security_from_profile_cipher tag cipher);
      sm_modify (add_vmess_tls_ws tag (mkVmessTlsWsOutbound endpoint host path credential sni
          skip_verify vmess_security))
  | Transport_HttpUpgrade path host, Security_None =>
      let host := default (ep_host endpoint) host in
      vmess_security <-! sm_lift (vmess_security_from_profile_cipher tag cipher);
      sm_modify (add_vmess_httpupgrade tag (mkVmessHttpUpgradeOutbound endpoint host path
          credential vmess_security))
  | Transport_HttpUpgrade path host, Security_Tls sni skip_verify =>
      let host := default (ep_host endpoint) host in
      let sni := default host sni in
      vmess_security <-! sm_lift (vmess_security_from_profile_cipher tag cipher);
      sm_modify (add_vmess_tls_httpupgrade tag (mkVmessTlsHttpUpgradeOutbound endpoint host path
          credential sni skip_verify vmess_security))
  | Transport_Grpc service_name, Security_None =>
      let host := ep_host endpoint in
      vmess_security <-! sm_lift (vmess_security_from_profile_cipher tag cipher);
      sm_modify (add_vmess_grpc tag (mkVmessGrpcOutbound endpoint host service_name credential
          vmess_security))
  | Transport_Grpc service_name, Security_Tls sni skip_verify =>
      let sni := default (ep_host endpoint) sni in
      let host := sni in
      vmess_security <-! sm_lift (vmess_security_from_profile_cipher tag cipher);
      sm_modify (add_vmess_tls_grpc tag (mkVmessTlsGrpcOutbound endpoint host service_name
          credential sni skip_verify vmess_security))
  | Transport_Http2 path host, Security_None =>
      let host := default (ep_host endpoint) host in
      vmess_security <-! sm_lift (vmess_security_from_profile_cipher tag cipher);
      sm_modify (add_vmess_h2 tag (mkVmessH2Outbound endpoint host path credential
          vmess_security))
  | Transport_Http2 path host, Security_Tls sni skip_verify =>
      let sni := default (ep_host endpoint) sni in
      let host := default sni host in
      vmess_security <-! sm_lift (vmess_security_from_profile_cipher tag cipher);
      sm_modify (add_vmess_tls_h2 tag (mkVmessTlsH2Outbound endpoint host path credential sni
          skip_verify vmess_security))
  | Transport_Quic quic_security key header_type, Security_None =>
      vmess_security <-! sm_lift (vmess_security_from_profile_cipher tag cipher);
      sm_modify (add_vmess_quic tag (mkVmessQuicOutbound endpoint credential
          LEGACY_QUIC_INTERNAL_SERVER_NAME true
          (mkLegacyQuicTransportConfig quic_security key header_type) vmess_security))
  | Transport_Quic quic_security key header_type, Security_Tls sni skip_verify =>
      let sni := default (ep_host endpoint) sni in
      vmess_security <-! sm_lift (vmess_security_from_profile_cipher tag cipher);
      sm_modify (add_vmess_quic tag (mkVmessQuicOutbound endpoint credential sni skip_verify
          (mkLegacyQuicTransportConfig quic_security key header_type) vmess_security))
  end.

Definition add_vless_profile (tag : string) (endpoint : Endpoint) (transport : TransportKind)
  (security : SecurityKind) (credential : string) (flow : option string)
  : SM OutboundRegistry OutboundProfileError unit :=
  match transport, security with
  | Transport_Tcp, Security_None =>
      sm_modify (add_vless_tcp tag (mkVlessTcpOutbound endpoint credential flow))
  | Transport_Tcp, Security_Tls sni skip_verify =>
      let sni := default (ep_host endpoint) sni in
      sm_modify (add_vless_tls_tcp tag (mkVlessTlsTcpOutbound endpoint credential flow sni
          skip_verify))
  | Transport_WebSocket path host, Security_None =>
      let host := default (ep_host endpoint) host in
      sm_modify (add_vless_ws tag (mkVlessWsOutbound endpoint host path credential flow))
  | Transport_WebSocket path host, Security_Tls sni skip_verify =>
      let host := default (ep_host endpoint) host in
      let sni := default host sni in
      sm_modify (add_vless_tls_ws tag (mkVlessTlsWsOutbound endpoint host path credential flow
          sni skip_verify))
  | Transport_HttpUpgrade path host, Security_None =>
      let host := default (ep_host endpoint) host in
      sm_modify (add_vless_httpupgrade tag (mkVlessHttpUpgradeOutbound endpoint host path
          credential flow))
  | Transport_HttpUpgrade path host, Security_Tls sni skip_verify =>
      let host := default (ep_host endpoint) host in
      let sni := default host sni in
      sm_modify (add_vless_tls_httpupgrade tag (mkVlessTlsHttpUpgradeOutbound endpoint host path
          credential flow sni skip_verify))
  | Transport_Grpc service_name, Security_None =>
      let host := ep_host endpoint in
      sm_modify (add_vless_grpc tag (mkVlessGrpcOutbound endpoint host service_name credential
          flow))
  | Transport_Grpc service_name, Security_Tls sni skip_verify =>
      let sni := default (ep_host endpoint) sni in
      let host := sni in
      sm_modify (add_vless_tls_grpc tag (mkVlessTlsGrpcOutbound endpoint host service_name
          credential flow sni skip_verify))
  | Transport_Http2 path host, Security_None =>
      let host := default (ep_host endpoint) host in
      sm_modify (add_vless_h2 tag (mkVlessH2Outbound endpoint host path credential flow))
  | Transport_Http2 path host, Security_Tls sni skip_verify =>
      let sni := default (ep_host endpoint) sni in
      let host := default sni host in
      sm_modify (add_vless_tls_h2 tag (mkVlessTlsH2Outbound endpoint host path credential flow
          sni skip_verify))
  | Transport_Quic quic_security key header_type, Security_None =>
      sm_modify (add_vless_quic tag (mkVlessQuicOutbound endpoint credential flow
          LEGACY_QUIC_INTERNAL_SERVER_NAME true
          (mkLegacyQuicTransportConfig quic_security key header_type)))
  | Transport_Quic quic_security key header_type, Security_Tls sni skip_verify =>
      let sni := default (ep_host endpoint) sni in
      sm_modify (add_vless_quic tag (mkVlessQuicOutbound endpoint credential flow sni skip_verify
          (mkLegacyQuicTransportConfig quic_security key header_type)))
  end.

Definition add_other_profile (tag : string) (protocol : ProxyProtocol) (endpoint : Endpoint)
  (transport : TransportKind) (security : SecurityKind) (credential : string)
  (cipher : option string) : SM OutboundRegistry OutboundProfileError unit :=
  match protocol, transport, security with
  | Socks, Transport_Tcp, Security_None =>
      sm_modify (add_socks5_tcp tag (mkSocks5TcpOutbound endpoint credential))
  | Http, Transport_Tcp, Security_None =>
      sm_modify (add_http_connect tag (mkHttpConnectOutbound endpoint credential))
  | Shadowsocks, Transport_Tcp, Security_None =>
      cipher <-! sm_lift (ok_or (Profile_MissingShadowsocksCipher tag) cipher);
      sm_modify (add_shadowsocks_tcp tag (mkShadowsocksTcpOutbound endpoint cipher credential))
  | AnyTls, Transport_Tcp, Security_Tls sni skip_verify =>
      let sni := default (ep_host endpoint) sni in
      sm_modify (add_anytls_tls_tcp tag (mkAnyTlsTlsTcpOutbound endpoint credential sni
          skip_verify))
  | Naive, Transport_Tcp, Security_Tls sni skip_verify =>
      let sni := default (ep_host endpoint) sni in
      sm_modify (add_naive_h2_tcp tag (mkNaiveH2TcpOutbound endpoint credential sni skip_verify))
  | Naive, Transport_Quic _ _ _, Security_Tls sni skip_verify =>
      let sni := default (ep_host endpoint) sni in
      sm_modify (add_naive_h3_quic tag (mkNaiveH3QuicOutbound endpoint credential sni
          skip_verify))
  | Mieru, Transport_Tcp, Security_None =>
      '(username, password) <-! sm_lift (ok_or (Profile_Validation tag InvalidMieruCredential)
          (split_once ":"%char credential));
      sm_modify (add_mieru_tcp tag (mkMieruTcpOutbound endpoint username password))
  | Hy2, Transport_Quic _ _ _, Security_Tls sni skip_verify =>
      let sni := default (ep_host endpoint) sni in
      sm_modify (add_hy2 tag (mkHy2Outbound endpoint credential sni skip_verify))
  | Tuic, Transport_Quic _ _ _, Security_Tls sni skip_verify =>
      let sni := default (ep_host endpoint) sni in
      '(uuid, password) <-! sm_lift (ok_or (Profile_Validation tag InvalidTuicCredential)
          (split_tuic_credential credential));
      sm_modify (add_tuic tag (mkTuicOutbound endpoint uuid password sni skip_verify))
  | protocol, transport, security =>
      sm_lift (Err (Profile_UnsupportedTransport tag protocol transport security))
  end.

Definition add_profile (profile : OutboundProfile) : SM OutboundRegistry OutboundProfileError unit :=
  let tag := profile_tag profile in
  do! sm_lift (map_err (Profile_Validation tag) (validate profile));
  let endpoint := profile_endpoint profile in
  let transport := profile_transport profile in
  let security := profile_security profile in
  let credential := profile_credential profile in
  let cipher := profile_cipher profile in
  let flow := profile_flow profile in
  match profile_protocol profile with
  | Trojan => add_trojan_profile tag endpoint transport security credential
  | Vmess => add_vmess_profile tag endpoint transport security credential cipher
  | Vless => add_vless_profile tag endpoint transport security credential flow
  | protocol => add_other_profile tag protocol endpoint transport security credential cipher
  end.

(** [from_profiles]. *)
Fixpoint add_profiles (profiles : list OutboundProfile)
  : SM OutboundRegistry OutboundProfileError unit :=
  match profiles with
  | [] => sm_ret tt
  | profile :: profiles' => do! add_profile profile; add_profiles profiles'
  end.

Definition from_profiles (profiles : list OutboundProfile)
  : result OutboundProfileError OutboundRegistry :=
  let '(registry, r) := add_profiles profiles OutboundRegistry_new in
  result_map (fun _ => registry) r.

(** ** Dispatch *)

Section Dispatch.
Context {W : Type} {Net : Network W} {R : Type} {Resolver : DnsResolver R}.
Context {SsCrypto : ShadowsocksCrypto} {Crypto : VmessCrypto}.

Definition registry_connect_with_dns (self : OutboundRegistry) (tag : string)
  (target : OutboundTarget) (timeout : Z) : NM W R (OutboundConnection W) :=
  if bool_decide (tag ∈ direct_tags self) then
    (stream <-! DirectTcpConnector_connect_with_dns target timeout; sm_ret (Connection_Tcp stream))
  else
  match socks5_tcp_tags self !! tag with
  | Some outbound => Socks5Tcp_connect_with_dns outbound target timeout
  | None =>
  match http_connect_tags self !! tag with
  | Some outbound => HttpConnect_connect_with_dns outbound target timeout
  | None =>
  match trojan_tcp_tags self !! tag with
  | Some outbound => TrojanTcp_connect_with_dns outbound target timeout
  | None =>
  match trojan_tls_tcp_tags self !! tag with
  | Some outbound => TrojanTlsTcp_connect_with_dns outbound target timeout
  | None =>
  match trojan_ws_tags self !! tag with
  | Some outbound => TrojanWs_connect_with_dns outbound target timeout
  | None =>
  match trojan_tls_ws_tags self !! tag with
  | Some outbound => TrojanTlsWs_connect_with_dns outbound target timeout
  | None =>
  match trojan_httpupgrade_tags self !! tag with
  | Some outbound => TrojanHttpUpgrade_connect_with_dns outbound target timeout
  | None =>
  match trojan_tls_httpupgrade_tags self !! tag with
  | Some outbound => TrojanTlsHttpUpgrade_connect_with_dns outbound target timeout
  | None =>
  match trojan_grpc_tags self !! tag with
  | Some outbound => TrojanGrpc_connect_with_dns outbound target timeout
  | None =>
  match trojan_tls_grpc_tags self !! tag with
  | Some outbound => TrojanTlsGrpc_connect_with_dns outbound target timeout
  | None =>
  match trojan_h2_tags self !! tag with
  | Some outbound => TrojanH2_connect_with_dns outbound target timeout
  | None =>
  match trojan_tls_h2_tags self !! tag with
  | Some outbound => TrojanTlsH2_connect_with_dns outbound target timeout
  | None =>
  match trojan_quic_tags self !! tag with
  | Some outbound => TrojanQuic_connect_with_dns outbound target timeout
  | None =>
  match vless_tcp_tags self !! tag with
  | Some outbound => VlessTcp_connect_with_dns outbound target timeout
  | None =>
  match vless_tls_tcp_tags self !! tag with
  | Some outbound => VlessTlsTcp_connect_with_dns outbound target timeout
  | None =>
  match vless_ws_tags self !! tag with
  | Some outbound => VlessWs_connect_with_dns outbound target timeout
  | None =>
  match vless_tls_ws_tags self !! tag with
  | Some outbound => VlessTlsWs_connect_with_dns outbound target timeout
  | None =>
  match vless_httpupgrade_tags self !! tag with
  | Some outbound => VlessHttpUpgrade_connect_with_dns outbound target timeout
  | None =>
  match vless_tls_httpupgrade_tags self !! tag with
  | Some outbound => VlessTlsHttpUpgrade_connect_with_dns outbound target timeout
  | None =>
  match vless_grpc_tags self !! tag with
  | Some outbound => VlessGrpc_connect_with_dns outbound target timeout
  | None =>
  match vless_tls_grpc_tags self !! tag with
  | Some outbound => VlessTlsGrpc_connect_with_dns outbound target timeout
  | None =>
  match vless_h2_tags self !! tag with
  | Some outbound => VlessH2_connect_with_dns outbound target timeout
  | None =>
  match vless_tls_h2_tags self !! tag with
  | Some outbound => VlessTlsH2_connect_with_dns outbound target timeout
  | None =>
  match vless_quic_tags self !! tag with
  | Some outbound => VlessQuic_connect_with_dns outbound target timeout
  | None =>
  match vmess_tcp_tags self !! tag with
  | Some outbound => VmessTcp_connect_with_dns outbound target timeout
  | None =>
  match vmess_tls_tcp_tags self !! tag with
  | Some outbound => VmessTlsTcp_connect_with_dns outbound target timeout
  | None =>
  match vmess_ws_tags self !! tag with
  | Some outbound => VmessWs_connect_with_dns outbound target timeout
  | None =>
  match vmess_tls_ws_tags self !! tag with
  | Some outbound => VmessTlsWs_connect_with_dns outbound target timeout
  | None =>
  match vmess_httpupgrade_tags self !! tag with
  | Some outbound => VmessHttpUpgrade_connect_with_dns outbound target timeout
  | None =>
  match vmess_tls_httpupgrade_tags self !! tag with
  | Some outbound => VmessTlsHttpUpgrade_connect_with_dns outbound target timeout
  | None =>
  match vmess_grpc_tags self !! tag with
  | Some outbound => VmessGrpc_connect_with_dns outbound target timeout
  | None =>
  match vmess_tls_grpc_tags self !! tag with
  | Some outbound => VmessTlsGrpc_connect_with_dns outbound target timeout
  | None =>
  match vmess_h2_tags self !! tag with
  | Some outbound => VmessH2_connect_with_dns outbound target timeout
  | None =>
  match vmess_tls_h2_tags self !! tag with
  | Some outbound => VmessTlsH2_connect_with_dns outbound target timeout
  | None =>
  match vmess_quic_tags self !! tag with
  | Some outbound => VmessQuic_connect_with_dns outbound target timeout
  | None =>
  match shadowsocks_tcp_tags self !! tag with
  | Some outbound => ShadowsocksTcp_connect_with_dns outbound target timeout
  | None =>
  match anytls_tls_tcp_tags self !! tag with
  | Some outbound => AnyTlsTlsTcp_connect_with_dns outbound target timeout
  | None =>
  match naive_h2_tcp_tags self !! tag with
  | Some outbound => NaiveH2Tcp_connect_with_dns outbound target timeout
  | None =>
  match naive_h3_quic_tags self !! tag with
  | Some outbound => NaiveH3Quic_connect_with_dns outbound target timeout
  | None =>
  match mieru_tcp_tags self !! tag with
  | Some outbound => MieruTcp_connect_with_dns outbound target timeout
  | None =>
  match hy2_tags self !! tag with
  | Some outbound => Hy2_connect_with_dns outbound target timeout
  | None =>
  match tuic_tags self !! tag with
  | Some outbound => Tuic_connect_with_dns outbound target timeout
  | None =>
  io_fail Unsupported ("outbound tag is not registered: " +:+ tag)
  end end end end end end end end end end end end end end end end end end end end end end end end
      end end end end end end end end end end end end end end end end end end.

Definition registry_relay_udp_datagram_with_dns (self : OutboundRegistry) (tag : string)
  (target : OutboundTarget) (payload : list Z) (timeout : Z) : NM W R UdpRelayResponse :=
  if bool_decide (tag ∈ direct_tags self) then
    DirectUdpConnector_relay_datagram_with_dns target payload timeout
  else
  match socks5_tcp_tags self !! tag with
  | Some outbound => Socks5Tcp_relay_udp_datagram_with_dns outbound target payload timeout
  | None =>
  match vmess_tcp_tags self !! tag with
  | Some outbound => VmessTcp_relay_udp_datagram_with_dns outbound target payload timeout
  | None =>
  match vmess_tls_tcp_tags self !! tag with
  | Some outbound => VmessTlsTcp_relay_udp_datagram_with_dns outbound target payload timeout
  | None =>
  match vmess_ws_tags self !! tag with
  | Some outbound => VmessWs_relay_udp_datagram_with_dns outbound target payload timeout
  | None =>
  match vmess_tls_ws_tags self !! tag with
  | Some outbound => VmessTlsWs_relay_udp_datagram_with_dns outbound target payload timeout
  | None =>
  match vmess_httpupgrade_tags self !! tag with
  | Some outbound => VmessHttpUpgrade_relay_udp_datagram_with_dns outbound target payload timeout
  | None =>
  match vmess_tls_httpupgrade_tags self !! tag with
  | Some outbound => VmessTlsHttpUpgrade_relay_udp_datagram_with_dns outbound target payload timeout
  | None =>
  match vmess_grpc_tags self !! tag with
  | Some outbound => VmessGrpc_relay_udp_datagram_with_dns outbound target payload timeout
  | None =>
  match vmess_tls_grpc_tags self !! tag with
  | Some outbound => VmessTlsGrpc_relay_udp_datagram_with_dns outbound target payload timeout
  | None =>
  match vmess_h2_tags self !! tag with
  | Some outbound => VmessH2_relay_udp_datagram_with_dns outbound target payload timeout
  | None =>
  match vmess_tls_h2_tags self !! tag with
  | Some outbound => VmessTlsH2_relay_udp_datagram_with_dns outbound target payload timeout
  | None =>
  match vmess_quic_tags self !! tag with
  | Some outbound => VmessQuic_relay_udp_datagram_with_dns outbound target payload timeout
  | None =>
  match vless_tcp_tags self !! tag with
  | Some outbound => VlessTcp_relay_udp_datagram_with_dns outbound target payload timeout
  | None =>
  match vless_tls_tcp_tags self !! tag with
  | Some outbound => VlessTlsTcp_relay_udp_datagram_with_dns outbound target payload timeout
  | None =>
  match vless_ws_tags self !! tag with
  | Some outbound => VlessWs_relay_udp_datagram_with_dns outbound target payload timeout
  | None =>
  match vless_tls_ws_tags self !! tag with
  | Some outbound => VlessTlsWs_relay_udp_datagram_with_dns outbound target payload timeout
  | None =>
  match vless_httpupgrade_tags self !! tag with
  | Some outbound => VlessHttpUpgrade_relay_udp_datagram_with_dns outbound target payload timeout
  | None =>
  match vless_tls_httpupgrade_tags self !! tag with
  | Some outbound => VlessTlsHttpUpgrade_relay_udp_datagram_with_dns outbound target payload timeout
  | None =>
  match vless_grpc_tags self !! tag with
  | Some outbound => VlessGrpc_relay_udp_datagram_with_dns outbound target payload timeout
  | None =>
  match vless_tls_grpc_tags self !! tag with
  | Some outbound => VlessTlsGrpc_relay_udp_datagram_with_dns outbound target payload timeout
  | None =>
  match vless_h2_tags self !! tag with
  | Some outbound => VlessH2_relay_udp_datagram_with_dns outbound target payload timeout
  | None =>
  match vless_tls_h2_tags self !! tag with
  | Some outbound => VlessTlsH2_relay_udp_datagram_with_dns outbound target payload timeout
  | None =>
  match vless_quic_tags self !! tag with
  | Some outbound => VlessQuic_relay_udp_datagram_with_dns outbound target payload timeout
  | None =>
  match trojan_tcp_tags self !! tag with
  | Some outbound => TrojanTcp_relay_udp_datagram_with_dns outbound target payload timeout
  | None =>
  match trojan_tls_tcp_tags self !! tag with
  | Some outbound => TrojanTlsTcp_relay_udp_datagram_with_dns outbound target payload timeout
  | None =>
  match trojan_ws_tags self !! tag with
  | Some outbound => TrojanWs_relay_udp_datagram_with_dns outbound target payload timeout
  | None =>
  match trojan_tls_ws_tags self !! tag with
  | Some outbound => TrojanTlsWs_relay_udp_datagram_with_dns outbound target payload timeout
  | None =>
  match trojan_httpupgrade_tags self !! tag with
  | Some outbound => TrojanHttpUpgrade_relay_udp_datagram_with_dns outbound target payload timeout
  | None =>
  match trojan_tls_httpupgrade_tags self !! tag with
  | Some outbound => TrojanTlsHttpUpgrade_relay_udp_datagram_with_dns outbound target payload timeout
  | None =>
  match trojan_grpc_tags self !! tag with
  | Some outbound => TrojanGrpc_relay_udp_datagram_with_dns outbound target payload timeout
  | None =>
  match trojan_tls_grpc_tags self !! tag with
  | Some outbound => TrojanTlsGrpc_relay_udp_datagram_with_dns outbound target payload timeout
  | None =>
  match trojan_h2_tags self !! tag with
  | Some outbound => TrojanH2_relay_udp_datagram_with_dns outbound target payload timeout
  | None =>
  match trojan_tls_h2_tags self !! tag with
  | Some outbound => TrojanTlsH2_relay_udp_datagram_with_dns outbound target payload timeout
  | None =>
  match trojan_quic_tags self !! tag with
  | Some outbound => TrojanQuic_relay_udp_datagram_with_dns outbound target payload timeout
  | None =>
  match shadowsocks_tcp_tags self !! tag with
  | Some outbound => ShadowsocksTcp_relay_udp_datagram_with_dns outbound target payload timeout
  | None =>
  match anytls_tls_tcp_tags self !! tag with
  | Some outbound => AnyTlsTlsTcp_relay_udp_datagram_with_dns outbound target payload timeout
  | None =>
  match mieru_tcp_tags self !! tag with
  | Some outbound => MieruTcp_relay_udp_datagram_with_dns outbound target payload timeout
  | None =>
  match hy2_tags self !! tag with
  | Some outbound => Hy2_relay_udp_datagram_with_dns outbound target payload timeout
  | None =>
  match tuic_tags self !! tag with
  | Some outbound => Tuic_relay_udp_datagram_with_dns outbound target payload timeout
  | None =>
  io_fail Unsupported ("outbound tag does not support UDP relay yet: " +:+ tag)
  end end end end end end end end end end end end end end end end end end end end end end end end
      end end end end end end end end end end end end end end end.
End Dispatch.

(** [connect] and [relay_udp_datagram]: with an engine over the system's resolver. *)
Section SystemDns.
Context {W : Type} {Net : Network W}.
Context {SsCrypto : ShadowsocksCrypto} {Crypto : VmessCrypto}.

Definition registry_connect (self : OutboundRegistry) (tag : string) (target : OutboundTarget)
  (timeout : Z) : SM W IoError (OutboundConnection W) :=
  with_system_dns (from_secs 60) (registry_connect_with_dns self tag target timeout).

Definition registry_relay_udp_datagram (self : OutboundRegistry) (tag : string)
  (target : OutboundTarget) (payload : list Z) (timeout : Z) : SM W IoError UdpRelayResponse :=
  with_system_dns (from_secs 60) (registry_relay_udp_datagram_with_dns self tag target payload timeout).
End SystemDns.
