(* ===== verification/StreamSpec.v ===== *)
(** * Streams that deliver

    What a reader of a stream gets in the end ([delivers], [read_all]), whatever pieces the
    stream gives it; the interface of a stream without errors ([ReliableStream]) and a
    stream in segments that satisfies it; the loops of [direct.rs] that read an exact
    number of bytes; and the buffer and the chunks the framed streams share. *)

From stdpp Require Import base strings list numbers.
From S2P Require Import Prelude.
From S2P Require Import StdIo.
From S2P Require Import Relay.
From S2P Require Import ProxyWire.
From S2P Require Import Framed.
#[local] Open Scope Z_scope.

(** ** Steps of a computation *)

Section Steps.
Context {S E : Type}.

Lemma bind_ok {A B} (m : SM S E A) (k : A -> SM S E B) s s' a :
  m s = (s', Ok a) -> sm_bind m k s = k a s'.
Proof. intros H. unfold sm_bind. by rewrite H. Qed.

Lemma bind_err {A B} (m : SM S E A) (k : A -> SM S E B) s s' e :
  m s = (s', Err e) -> sm_bind m k s = (s', Err e).
Proof. intros H. unfold sm_bind. by rewrite H. Qed.

Lemma bind_get {B} (k : S -> SM S E B) s : sm_bind sm_get k s = k s s.
Proof. done. Qed.

Lemma bind_ret {A B} (a : A) (k : A -> SM S E B) s : sm_bind (sm_ret a) k s = k a s.
Proof. done. Qed.

Lemma bind_modify {B} f (k : unit -> SM S E B) s : sm_bind (sm_modify f) k s = k tt (f s).
Proof. done. Qed.

Lemma bind_lift_ok {A B} (r : result E A) a (k : A -> SM S E B) s :
  r = Ok a -> sm_bind (sm_lift r) k s = k a s.
Proof. by intros ->. Qed.
End Steps.

Create Rewrite HintDb steps.
#[export] Hint Rewrite @bind_get @bind_ret @bind_modify : steps.

(** ** Streams that deliver *)

(** [holds s l]: reading [s] gives the bytes [l] and then the end of the stream. *)
Definition delivers {S} (read : Z -> SM S IoError (list Z)) (holds : S -> list Z -> Prop) : Prop :=
  forall s l n, holds s l -> 0 < n ->
  exists s' bytes rest,
    read n s = (s', Ok bytes) /\ l = bytes ++ rest /\ len bytes <= n /\
    (bytes = [] -> l = []) /\ holds s' rest.

(** A stream without errors: [holds s l w] says what will arrive and what was written. *)
Class ReliableStream (S : Type) {Stream : ByteStream S} := {
  holds : S -> list Z -> list Z -> Prop;
  reliable_read w : delivers stream_read (fun s l => holds s l w);
  reliable_read_exact s a l w :
    holds s (a ++ l) w -> exists s', read_exact (len a) s = (s', Ok a) /\ holds s' l w;
  reliable_write s l w bytes :
    holds s l w -> exists s', write_all bytes s = (s', Ok tt) /\ holds s' l (w ++ bytes)
}.

(** Reading until the end of the stream, with at most [turns] reads. *)
Fixpoint read_all {S} (read : Z -> SM S IoError (list Z)) (turns : nat) (amount : Z)
  : SM S IoError (list Z) :=
  match turns with
  | O => sm_lift Panic
  | Datatypes.S turns' =>
      bytes <-! read amount;
      if is_empty bytes then sm_ret []
      else rest <-! read_all read turns' amount; sm_ret (bytes ++ rest)
  end.

Lemma delivers_all {S} (read : Z -> SM S IoError (list Z)) h s l turns amount :
  delivers read h -> h s l -> 0 < amount -> len l < Z.of_nat turns ->
  exists s', read_all read turns amount s = (s', Ok l).
Proof.
  intros Hd Hs Ha. revert s l Hs. induction turns as [|turns IH]; intros s l Hs Hl; [unfold len in Hl; lia|].
  destruct (Hd s l amount Hs Ha) as (s1 & bytes & rest & Hr & -> & _ & Hend & Hs1).
  cbn [read_all]. rewrite (bind_ok _ _ _ _ _ Hr). rewrite len_app in Hl.
  destruct bytes as [|b bytes]; cbn [is_empty].
  - specialize (Hend eq_refl). exists s1. by rewrite Hend.
  - destruct (IH s1 rest Hs1) as [s2 H2]; [rewrite len_cons in Hl; pose proof (len_nonneg bytes); lia|].
    exists s2. by rewrite (bind_ok _ _ _ _ _ H2).
Qed.

(** A read that is not longer than what is asked for takes a part of it. *)
Lemma prefix_of_read (a l bytes rest : list Z) :
  a ++ l = bytes ++ rest -> len bytes <= len a -> exists a', a = bytes ++ a' /\ rest = a' ++ l.
Proof.
  intros Happ Hlen. apply app_eq_inv in Happ as [(k & Hk & ->)|(k & Hk & Hl)]; [by exists k|].
  destruct k as [|y k].
  - exists []. rewrite app_nil_r in *. by rewrite Hk, Hl.
  - exfalso. apply (f_equal len) in Hk. rewrite len_app, len_cons in Hk.
    pose proof (len_nonneg k). lia.
Qed.

Section ReadExact.
Context {S : Type} {Stream : ByteStream S} {Reliable : ReliableStream S}.

Lemma read_or_eof_loop_spec fuel n got s a l w :
  holds s (a ++ l) w -> len got + len a = n -> (length a <= fuel)%nat ->
  exists s', read_or_eof_loop fuel n got s = (s', Ok (Some (got ++ a))) /\ holds s' l w.
Proof.
  revert got s a. induction fuel as [|fuel IH]; intros got s a Hs Hn Hf.
  - destruct a; [|cbn in Hf; lia]. rewrite len_nil in Hn. exists s. cbn [read_or_eof_loop].
    replace (n <=? len got) with true by lia. by rewrite app_nil_r.
  - cbn [read_or_eof_loop]. destruct a as [|x a].
    { rewrite len_nil in Hn. exists s. replace (n <=? len got) with true by lia.
      by rewrite app_nil_r. }
    rewrite len_cons in Hn. pose proof (len_nonneg a).
    replace (n <=? len got) with false by lia.
    destruct (reliable_read w s _ (n - len got) Hs ltac:(lia))
      as (s1 & bytes & rest & Hr & Happ & Hlen & Hend & Hs1).
    rewrite (bind_ok _ _ _ _ _ Hr). replace (_ <? len bytes) with false by lia.
    destruct bytes as [|b bytes]; [by specialize (Hend eq_refl)|]. cbn [is_empty].
    destruct (prefix_of_read (x :: a) l (b :: bytes) rest Happ) as (a' & Ha & ->);
      [rewrite !len_cons in *; lia|].
    destruct (IH (got ++ b :: bytes) s1 a') as (s2 & H2 & Hs2); [done| | |].
    + apply (f_equal len) in Ha. rewrite len_app, len_cons in Ha. rewrite len_app. lia.
    + apply (f_equal length) in Ha. rewrite length_app in Ha. cbn [length] in *. lia.
    + exists s2. rewrite H2, Ha. by rewrite <- app_assoc.
Qed.

Lemma read_exact_or_eof_spec s a l w :
  holds s (a ++ l) w ->
  exists s', read_exact_or_clean_eof (len a) s = (s', Ok (Some a)) /\ holds s' l w.
Proof.
  intros Hs. unfold read_exact_or_clean_eof.
  destruct (read_or_eof_loop_spec (Z.to_nat (len a)) (len a) [] s a l w) as (s' & H & Hs'); eauto.
  unfold len. lia.
Qed.

Lemma read_exact_or_eof_end s w n :
  holds s [] w -> 0 < n ->
  exists s', read_exact_or_clean_eof n s = (s', Ok None) /\ holds s' [] w.
Proof.
  intros Hs Hn. unfold read_exact_or_clean_eof.
  destruct (Z.to_nat n) as [|fuel] eqn:He; [lia|]. cbn [read_or_eof_loop].
  rewrite len_nil. replace (n <=? 0) with false by lia. rewrite Z.sub_0_r.
  destruct (reliable_read w s [] n Hs Hn) as (s1 & bytes & rest & Hr & Happ & _ & _ & Hs1).
  symmetry in Happ. apply app_eq_nil in Happ as [-> ->].
  rewrite (bind_ok _ _ _ _ _ Hr). exists s1. rewrite len_nil.
  by replace (n <? 0) with false by lia.
Qed.
End ReadExact.

(** ** A stream in pieces *)

(** The bytes arrive in segments; a read returns bytes of one of them. *)
Record Segments : Type := mkSegments {
  segments : list (list Z);
  written : list Z
}.

Definition rest_of (segment : list Z) (rest : list (list Z)) : list (list Z) :=
  if is_empty segment then rest else segment :: rest.

Definition segments_read (n : Z) : SM Segments IoError (list Z) :=
  fun s =>
    match segments s with
    | [] => (s, Ok [])
    | segment :: rest =>
        (mkSegments (rest_of (drop (Z.to_nat n) segment) rest) (written s),
         Ok (take (Z.to_nat n) segment))
    end.

#[export] Instance Segments_relay : OwnedRelayStream Segments := {
  stream_read := segments_read;
  stream_write bytes s := (mkSegments (segments s) (written s ++ bytes), Ok (len bytes));
  stream_flush := sm_ret tt;
  set_nonblocking_mode _ := sm_ret tt;
  shutdown_write := sm_ret tt;
  shutdown_both := sm_ret tt
}.

#[export] Instance Segments_Read : Read Segments := {
  read_exact n := default_read_exact segments_read (Z.to_nat n) n []
}.

#[export] Instance Segments_Write : Write Segments := {
  write_all bytes s := (mkSegments (segments s) (written s ++ bytes), Ok tt);
  flush := sm_ret tt
}.

#[export] Instance Segments_stream : ByteStream Segments := {}.

Definition segments_hold (s : Segments) (l w : list Z) : Prop :=
  Forall (fun segment => segment <> []) (segments s) /\ concat (segments s) = l /\ written s = w.

Lemma segments_deliver w : delivers segments_read (fun s l => segments_hold s l w).
Proof.
  intros [[|segment rest] w'] l n (Hne & <- & <-) Hn; unfold segments_read; cbn [segments written].
  { exists (mkSegments [] w'), [], []. rewrite len_nil. split_and!; [done..|lia|done|by repeat split]. }
  cbn [segments written concat] in *. inversion_clear Hne as [|? ? Hseg Hrest].
  eexists _, _, (concat (rest_of (drop (Z.to_nat n) segment) rest)). split; [reflexivity|].
  split; [|split; [|split]].
  - unfold rest_of. rewrite <- (take_drop (Z.to_nat n) segment) at 1.
    destruct (drop (Z.to_nat n) segment); cbn [is_empty concat]; by rewrite <- app_assoc.
  - unfold len. rewrite length_take. lia.
  - intros Ht. destruct segment; [done|]. destruct (Z.to_nat n) eqn:He; [lia|done].
  - repeat split. cbn [segments]. unfold rest_of.
    destruct (drop (Z.to_nat n) segment); [done|]. by constructor.
Qed.

Lemma default_read_exact_spec {S} (read : Z -> SM S IoError (list Z)) h turns n got s a l :
  delivers read h -> h s (a ++ l) -> len got + len a = n -> (length a <= turns)%nat ->
  exists s', default_read_exact read turns n got s = (s', Ok (got ++ a)) /\ h s' l.
Proof.
  intros Hd. revert got s a. induction turns as [|turns IH]; intros got s [|x a] Hs Hn Hf;
    cbn [default_read_exact];
    try (exists s; rewrite len_nil in Hn; replace (n <=? len got) with true by lia;
         by rewrite app_nil_r); [cbn in Hf; lia|].
  rewrite len_cons in Hn. pose proof (len_nonneg a).
  replace (n <=? len got) with false by lia.
  destruct (Hd s _ (n - len got) Hs ltac:(lia)) as (s1 & bytes & rest & Hr & Happ & Hlen & Hend & Hs1).
  rewrite Hr. destruct bytes as [|b bytes]; [by specialize (Hend eq_refl)|]. cbn [is_empty].
  destruct (prefix_of_read (x :: a) l (b :: bytes) rest Happ) as (a' & Ha & ->);
    [rewrite !len_cons in *; lia|].
  destruct (IH (got ++ b :: bytes) s1 a') as (s2 & H2 & Hs2); [done| | |].
  - apply (f_equal len) in Ha. rewrite len_app, len_cons in Ha. rewrite len_app. lia.
  - apply (f_equal length) in Ha. rewrite length_app in Ha. cbn [length] in *. lia.
  - exists s2. rewrite H2, Ha. by rewrite <- app_assoc.
Qed.

Lemma segments_read_exact s a l w :
  segments_hold s (a ++ l) w ->
  exists s', read_exact (len a) s = (s', Ok a) /\ segments_hold s' l w.
Proof.
  intros Hs.
  destruct (default_read_exact_spec segments_read (fun s l => segments_hold s l w)
              (Z.to_nat (len a)) (len a) [] s a l) as (s' & H & Hs'); eauto.
  - apply segments_deliver.
  - unfold len. lia.
Qed.

Lemma segments_write s l w bytes :
  segments_hold s l w ->
  exists s', write_all bytes s = (s', Ok tt) /\ segments_hold s' l (w ++ bytes).
Proof.
  intros (Hne & Hl & Hw). eexists. split; [reflexivity|]. repeat split; cbn; [done..|].
  by rewrite Hw.
Qed.

#[export] Instance Segments_reliable : ReliableStream Segments := {
  holds := segments_hold;
  reliable_read := segments_deliver;
  reliable_read_exact := segments_read_exact;
  reliable_write := segments_write
}.

(** ** The buffer of a framed stream *)

(** [buffer] from [offset] on, and then [more]. *)
Definition buffered (buffer : list Z) (offset : Z) (more l : list Z) : Prop :=
  0 <= offset <= len buffer /\ l = drop (Z.to_nat offset) buffer ++ more.

Lemma buffered_end buffer offset more l :
  buffered buffer offset more l -> len buffer <= offset -> l = more.
Proof. intros [Ho ->] H. rewrite drop_ge; [done|]. unfold len in *. lia. Qed.

Lemma buffered_fresh buffer more : buffered buffer 0 more (buffer ++ more).
Proof. split; [pose proof (len_nonneg buffer); lia|done]. Qed.

Lemma buffered_clear buffer offset more l :
  buffered buffer offset more l -> len buffer <= offset -> buffered [] 0 more l.
Proof. intros Hb H. rewrite (buffered_end _ _ _ _ Hb H). apply (buffered_fresh []). Qed.

Lemma buffered_take buffer offset more l n :
  buffered buffer offset more l -> 0 < n -> offset < len buffer ->
  exists got rest,
    take_buffered buffer offset n = Ok got /\ l = got ++ rest /\ len got <= n /\
    (got = [] -> l = []) /\ buffered buffer (offset + len got) more rest.
Proof.
  intros [Ho ->] Hn Hlt. unfold take_buffered. rewrite slice_ok by lia. cbn [result_bind].
  assert (sub_list buffer offset (len buffer) = drop (Z.to_nat offset) buffer) as ->.
  { unfold sub_list. rewrite take_ge; [done|]. rewrite length_drop. unfold len in *. lia. }
  set (r := drop (Z.to_nat offset) buffer).
  assert (length r = length buffer - Z.to_nat offset)%nat as Hr by apply length_drop.
  exists (take (Z.to_nat n) r), (drop (Z.to_nat n) r ++ more).
  assert (len (take (Z.to_nat n) r) = Z.min n (len r)) as Hl
    by (unfold len; rewrite length_take; lia).
  split; [done|]. rewrite Hl. split_and!.
  - by rewrite app_assoc, take_drop.
  - lia.
  - intros He. rewrite He, len_nil in Hl. unfold len in *. lia.
  - split; [unfold len in *; lia|]. f_equal. unfold r at 1. rewrite drop_drop.
    destruct (Z.le_gt_cases n (len r)) as [Hle|Hgt].
    + f_equal. unfold len in *. lia.
    + rewrite !drop_ge; [done|unfold len in *; lia..].
Qed.

Lemma lxor_range k x y :
  0 <= k -> 0 <= x < 2 ^ k -> 0 <= y < 2 ^ k -> 0 <= Z.lxor x y < 2 ^ k.
Proof.
  intros Hk Hx Hy. assert (0 <= Z.lxor x y) as H0 by (apply Z.lxor_nonneg; lia).
  split; [done|]. destruct (Z.eq_dec (Z.lxor x y) 0) as [->|Hne]; [lia|].
  apply Z.log2_lt_pow2; [lia|]. pose proof (Z.log2_lxor x y ltac:(lia) ltac:(lia)).
  assert (forall z, 0 <= z < 2 ^ k -> z <> 0 -> Z.log2 z < k) as Hlog
    by (intros z ? ?; apply Z.log2_lt_pow2; lia).
  destruct (Z.eq_dec x 0) as [->|Hx0], (Z.eq_dec y 0) as [->|Hy0].
  - done.
  - rewrite Z.lxor_0_l in *. by apply Hlog.
  - rewrite Z.lxor_0_r in *. by apply Hlog.
  - pose proof (Hlog x Hx Hx0). pose proof (Hlog y Hy Hy0). lia.
Qed.

(** ** Chunks *)

Lemma chunks_loop_spec fuel n l :
  (0 < n)%nat -> (length l <= fuel)%nat ->
  concat (chunks_loop fuel n l) = l /\
  Forall (fun chunk => chunk <> [] /\ len chunk <= Z.of_nat n) (chunks_loop fuel n l).
Proof.
  intros Hn. revert l. induction fuel as [|fuel IH]; intros l Hl.
  { destruct l; [|cbn in Hl; lia]. by split. }
  destruct l as [|x l]; [by split|]. cbn [chunks_loop concat].
  destruct (IH (drop n (x :: l))) as [Hc Ha]; [rewrite length_drop; cbn [length] in *; lia|].
  rewrite Hc, take_drop. split; [done|]. constructor; [|done]. split.
  - destruct n; [lia|done].
  - unfold len. rewrite length_take. lia.
Qed.

Lemma chunks_spec n l :
  0 < n ->
  concat (chunks n l) = l /\ Forall (fun chunk => chunk <> []) (chunks n l) /\
  Forall (fun chunk => len chunk <= n) (chunks n l).
Proof.
  intros Hn. destruct (chunks_loop_spec (length l) (Z.to_nat n) l) as [Hc Ha]; [lia|lia|].
  split; [done|]. split; (eapply Forall_impl; [|exact Ha]); cbn; [by intros ? []|].
  intros ? [_ ?]. lia.
Qed.
