(* ===== verification/Mieru.v ===== *)
(** * The Mieru stream

    [MieruTcpStream] of [crates/keli-net-core/src/mieru.rs]: segments of encrypted metadata
    and payload over a TCP stream, the key and the nonces, and datagrams in frames. SHA-256,
    HMAC and XChaCha20-Poly1305 are the class [MieruCrypto]; the clock is read from the
    system below the stream. The outbounds reach this stream through the class [Network].
    The theorems are at the end. *)

From stdpp Require Import base strings list numbers.
From S2P Require Import Prelude.
From S2P Require Import StdNet.
From S2P Require Import StdIo.
From S2P Require Import Dns.
From S2P Require Import TunPacket.
From S2P Require Import TunLoop.
From S2P Require Import Socks5.
From S2P Require Import Relay.
From S2P Require Import Profile.
From S2P Require Import ProxyWire.
From S2P Require Import Framed.
From S2P Require Import Network.
From S2P Require Import StreamSpec.
#[local] Open Scope Z_scope.

Definition NONCE_LEN : Z := 24.
Definition METADATA_LEN : Z := 32.
Definition MIERU_TAG_LEN : Z := 16.
Definition ENCRYPTED_METADATA_LEN : Z := METADATA_LEN + MIERU_TAG_LEN.
Definition MAX_TCP_FRAGMENT_LEN : Z := 32 * 1024.
Definition MAX_SESSION_PAYLOAD_LEN : Z := 1024.
Definition KEY_WINDOW_SECS : Z := 120.
Definition OPEN_SESSION_REQUEST : Z := 2.
Definition OPEN_SESSION_RESPONSE : Z := 3.
Definition CLOSE_SESSION_REQUEST : Z := 4.
Definition CLOSE_SESSION_RESPONSE : Z := 5.
Definition DATA_CLIENT_TO_SERVER : Z := 6.
Definition DATA_SERVER_TO_CLIENT : Z := 7.
Definition ACK_CLIENT_TO_SERVER : Z := 8.
Definition ACK_SERVER_TO_CLIENT : Z := 9.
Definition STATUS_OK : Z := 0.
Definition SOCKS_CONNECT_SUCCESS : list Z := [5; 0; 0; 1; 0; 0; 0; 0; 0; 0].
Definition UDP_MARKER_START : Z := 0.
Definition UDP_MARKER_END : Z := 255.

Definition is_session_type (protocol_type : Z) : bool :=
  (OPEN_SESSION_REQUEST <=? protocol_type) && (protocol_type <=? CLOSE_SESSION_RESPONSE).
Definition is_data_type (protocol_type : Z) : bool :=
  (DATA_CLIENT_TO_SERVER <=? protocol_type) && (protocol_type <=? ACK_SERVER_TO_CLIENT).

(** ** Key and nonces *)

Class MieruCrypto := {
  mieru_sha256 : list Z -> list Z;
  mieru_hmac_sha256 : list Z -> list Z -> list Z;
  xchacha_encrypt : list Z -> list Z -> list Z -> result unit (list Z);
  xchacha_decrypt : list Z -> list Z -> list Z -> result unit (list Z)
}.

Section Keys.
Context {Crypto : MieruCrypto}.

(** [for (left, right) in block.iter_mut().zip(&u)]. *)
Fixpoint xor_block (block u : list Z) : list Z :=
  match block, u with
  | byte :: block', mask :: u' => Z.lxor byte mask :: xor_block block' u'
  | _, _ => block
  end.

(** The rounds after the first of one block. *)
Fixpoint pbkdf2_rounds (rounds : nat) (password u block : list Z) : list Z :=
  match rounds with
  | O => block
  | S rounds' =>
      let u := mieru_hmac_sha256 password u in
      pbkdf2_rounds rounds' password u (xor_block block u)
  end.

(** The loop over the blocks; a block is not empty, so [length] turns are enough. *)
Fixpoint pbkdf2_loop (fuel : nat) (password salt : list Z) (iterations length block_index : Z) (output : list Z)
  : list Z :=
  match fuel with
  | O => output
  | S fuel' =>
      if length <=? len output then output
      else
        let u := mieru_hmac_sha256 password (salt ++ to_be_bytes 4 block_index) in
        let block := pbkdf2_rounds (Z.to_nat (iterations - 1)) password u u in
        let output := output ++ take (Z.to_nat (length - len output)) block in
        pbkdf2_loop fuel' password salt iterations length (Z.min (u32_modulus - 1) (block_index + 1)) output
  end.

Definition pbkdf2_hmac_sha256 (password salt : list Z) (iterations length : Z) : list Z :=
  pbkdf2_loop (Z.to_nat length) password salt iterations length 1 [].

Definition derive_mieru_key (username password : string) (rounded_unix : Z) : list Z :=
  let hashed_password := mieru_sha256 (as_bytes password ++ [0] ++ as_bytes username) in
  let time_salt := mieru_sha256 (to_be_bytes 8 rounded_unix) in
  pbkdf2_hmac_sha256 hashed_password time_salt 64 32.

Definition nonce_user_hint (nonce_prefix : list Z) (username : string) : list Z :=
  take 4 (mieru_sha256 (as_bytes username ++ nonce_prefix)).

Definition apply_nonce_user_hint (nonce : list Z) (username : string) : list Z :=
  take 20 nonce ++ nonce_user_hint (take 16 nonce) username.

Definition encrypt_aead (key nonce plaintext : list Z) : result IoError (list Z) :=
  map_err (fun _ => mkIoError InvalidData "Mieru encrypt failed") (xchacha_encrypt key nonce plaintext).

Definition decrypt_aead (key nonce ciphertext : list Z) : result IoError (list Z) :=
  map_err (fun _ => mkIoError InvalidData "Mieru decrypt failed") (xchacha_decrypt key nonce ciphertext).

End Keys.

(** The bytes from the last on. *)
Fixpoint increment_bytes (bytes : list Z) : list Z :=
  match bytes with
  | [] => []
  | byte :: bytes' => if byte =? 255 then 0 :: increment_bytes bytes' else byte + 1 :: bytes'
  end.

Definition increment_nonce (nonce : list Z) : list Z := rev (increment_bytes (rev nonce)).

Definition rounded_unix_time (unix_secs : Z) : Z :=
  Z.quot (unix_secs + Z.quot KEY_WINDOW_SECS 2) KEY_WINDOW_SECS * KEY_WINDOW_SECS.

(** ** Metadata *)

Record MieruMetadata : Type := mkMetadata {
  meta_protocol_type : Z;
  meta_session_id : Z;
  meta_sequence : Z;
  meta_status_code : Z;
  meta_payload_len : Z;
  meta_prefix_len : Z;
  meta_suffix_len : Z
}.

Record MieruSegment : Type := mkSegment { segment_metadata : MieruMetadata; segment_payload : list Z }.

(** [timestamp_is_close], at [now] seconds. *)
Definition timestamp_is_close (now minutes : Z) : bool := Z.abs (now / 60 - minutes) <=? 10.

(** [now] is the reading of [now_unix_secs]. *)
Definition parse_metadata (now : Z) (input : list Z) : option MieruMetadata :=
  if negb (len input =? METADATA_LEN) then None
  else
    let at_ i := nth i input 0 in
    let protocol_type := at_ 0%nat in
    if negb (is_session_type protocol_type || is_data_type protocol_type) then None
    else
      let timestamp := from_be_bytes (sub_list input 2 6) in
      if negb (timestamp_is_close now timestamp) then None
      else
        let session_id := from_be_bytes (sub_list input 6 10) in
        let sequence := from_be_bytes (sub_list input 10 14) in
        if is_session_type protocol_type then
          let payload_len := from_be_bytes (sub_list input 15 17) in
          if MAX_SESSION_PAYLOAD_LEN <? payload_len then None
          else Some (mkMetadata protocol_type session_id sequence (at_ 14%nat) payload_len 0 (at_ 17%nat))
        else
          let payload_len := from_be_bytes (sub_list input 22 24) in
          if MAX_TCP_FRAGMENT_LEN <? payload_len then None
          else Some (mkMetadata protocol_type session_id sequence STATUS_OK payload_len (at_ 21%nat) (at_ 24%nat)).

Definition encode_metadata (now : Z) (metadata : MieruMetadata) : result IoError (list Z) :=
  if u16_max <? meta_payload_len metadata then Err (mkIoError InvalidInput "Mieru payload too large")
  else
    let protocol_type := meta_protocol_type metadata in
    output <-? set_index (zeroed METADATA_LEN) 0 protocol_type;
    output <-? copy_range output 2 6 (to_be_bytes 4 (as_u32 (now / 60)));
    output <-? copy_range output 6 10 (to_be_bytes 4 (meta_session_id metadata));
    output <-? copy_range output 10 14 (to_be_bytes 4 (meta_sequence metadata));
    if is_session_type protocol_type then
      output <-? set_index output 14 (meta_status_code metadata);
      output <-? copy_range output 15 17 (to_be_bytes 2 (as_u16 (meta_payload_len metadata)));
      set_index output 17 (as_u8 (meta_suffix_len metadata))
    else if is_data_type protocol_type then
      output <-? copy_range output 18 20 (to_be_bytes 2 64);
      output <-? set_index output 21 (as_u8 (meta_prefix_len metadata));
      output <-? copy_range output 22 24 (to_be_bytes 2 (as_u16 (meta_payload_len metadata)));
      set_index output 24 (as_u8 (meta_suffix_len metadata))
    else Ok output.

(** ** Segments *)

Inductive SegmentAttempt : Type :=
| Complete (segment : MieruSegment) (consumed : Z) (next_nonce : list Z)
| NeedMore
| Invalid.

Section Segments.
Context {Crypto : MieruCrypto}.

(** What follows the metadata; [offset] is where the payload begins. *)
Definition decode_payload (input key next_nonce : list Z) (metadata : MieruMetadata) (payload_offset : Z)
  : SegmentAttempt :=
  let payload_len := meta_payload_len metadata in
  let encrypted_payload_len := if payload_len =? 0 then 0 else payload_len + MIERU_TAG_LEN in
  let consumed := payload_offset + encrypted_payload_len + meta_suffix_len metadata in
  if len input <? consumed then NeedMore
  else if payload_len =? 0 then Complete (mkSegment metadata []) consumed next_nonce
  else
    match decrypt_aead key next_nonce (sub_list input payload_offset (payload_offset + encrypted_payload_len)) with
    | Ok payload =>
        if negb (len payload =? payload_len) then Invalid
        else Complete (mkSegment metadata payload) consumed (increment_nonce next_nonce)
    | _ => Invalid
    end.

(** The slices are within what was checked to be there. *)
Definition try_decode_segment (now : Z) (input : list Z) (has_nonce : bool) (key nonce : list Z) : SegmentAttempt :=
  let metadata_offset := if has_nonce then NONCE_LEN else 0 in
  if has_nonce && (len input <? NONCE_LEN) then NeedMore
  else if len input <? metadata_offset + ENCRYPTED_METADATA_LEN then NeedMore
  else
    match decrypt_aead key nonce (sub_list input metadata_offset (metadata_offset + ENCRYPTED_METADATA_LEN)) with
    | Ok metadata_bytes =>
        match parse_metadata now metadata_bytes with
        | None => Invalid
        | Some metadata =>
            decode_payload input key (increment_nonce nonce) metadata
              (metadata_offset + ENCRYPTED_METADATA_LEN + meta_prefix_len metadata)
        end
    | _ => Invalid
    end.

(** The bytes that are appended; the state is the nonce. *)
Definition encode_segment_body (now : Z) (key : list Z) (metadata : MieruMetadata) (payload : list Z)
  : SM (list Z) IoError (list Z) :=
  metadata_bytes <-! sm_lift (encode_metadata now metadata);
  nonce <-! sm_get;
  sealed <-! sm_lift (encrypt_aead key nonce metadata_bytes);
  do! sm_modify increment_nonce;
  if is_empty payload then sm_ret sealed
  else
    nonce <-! sm_get;
    body <-! sm_lift (encrypt_aead key nonce payload);
    do! sm_modify increment_nonce;
    sm_ret (sealed ++ body).

End Segments.

(** ** Requests and datagrams *)

Definition socks_connect_request (target : Endpoint) : result IoError (list Z) :=
  let request := [5; 1; 0] in
  request <-?
    match parse_ip_addr (ep_host target) with
    | Some (V4 ip) => Ok (request ++ [1] ++ v4_octets ip)
    | Some (V6 ip) => Ok (request ++ [4] ++ v6_octets ip)
    | None =>
        let host := as_bytes (ep_host target) in
        if u8_max <? len host then Err (mkIoError InvalidInput "Mieru target domain is too long")
        else Ok (request ++ [3] ++ [as_u8 (len host)] ++ host)
    end;
  Ok (request ++ to_be_bytes 2 (ep_port target)).

Definition socks_udp_associate_request : list Z := [5; 3; 0; 1; 0; 0; 0; 0; 0; 0].

Definition encode_udp_frame (packet : list Z) : result IoError (list Z) :=
  if u16_max <? len packet then Err (mkIoError InvalidInput "Mieru UDP packet is too large")
  else Ok ([UDP_MARKER_START] ++ to_be_bytes 2 (len packet) ++ packet ++ [UDP_MARKER_END]).

(** [while buffer.first().is_some_and(|byte| *byte != UDP_MARKER_START) { buffer.remove(0); }]. *)
Fixpoint skip_to_marker (buffer : list Z) : list Z :=
  match buffer with
  | byte :: buffer' => if byte =? UDP_MARKER_START then buffer else skip_to_marker buffer'
  | [] => []
  end.

(** The state is the buffer. *)
Definition take_udp_frame : SM (list Z) IoError (option (list Z)) :=
  do! sm_modify skip_to_marker;
  buffer <-! sm_get;
  if len buffer <? 4 then sm_ret None
  else
    let length := from_be_bytes (sub_list buffer 1 3) in
    let total := 1 + 2 + length + 1 in
    if len buffer <? total then sm_ret None
    else
      last <-! sm_lift (index buffer (total - 1));
      if negb (last =? UDP_MARKER_END) then io_fail InvalidData "invalid Mieru UDP frame marker"
      else
        payload <-! sm_lift (slice buffer 3 (3 + length));
        do! sm_modify (drop (Z.to_nat total));
        sm_ret (Some payload).

(** ** The stream *)

(** The system below a stream of type [S], with the clock it shows. *)
Class MieruSystem (S : Type) := {
  mieru_stream :: ByteStream S;
  now_unix_secs : S -> Z
}.

(** [MieruTcpStream]. *)
Record MieruStream (S : Type) : Type := mkMieruStream {
  mieru_inner : S;
  mieru_key : list Z;
  mieru_read_nonce : option (list Z);
  mieru_write_nonce : list Z;
  mieru_session_id : Z;
  mieru_write_sequence : Z;
  mieru_read_buffer : list Z;
  mieru_pending : list Z;
  mieru_closed : bool
}.
Arguments mkMieruStream {S}.
Arguments mieru_inner {S}.
Arguments mieru_key {S}.
Arguments mieru_read_nonce {S}.
Arguments mieru_write_nonce {S}.
Arguments mieru_session_id {S}.
Arguments mieru_write_sequence {S}.
Arguments mieru_read_buffer {S}.
Arguments mieru_pending {S}.
Arguments mieru_closed {S}.

#[export] Instance MieruStream_settable S : Settable (MieruStream S) := fun s =>
  mkMieruStream (mieru_inner s) (mieru_key s) (mieru_read_nonce s) (mieru_write_nonce s) (mieru_session_id s)
    (mieru_write_sequence s) (mieru_read_buffer s) (mieru_pending s) (mieru_closed s).

(** More than the longest segment, with its nonce and padding. *)
Definition SEGMENT_TURNS : nat := Z.to_nat 33400.

Section Stream.
Context {Crypto : MieruCrypto} {S : Type} {System : MieruSystem S}.

Definition MieruM (A : Type) : Type := SM (MieruStream S) IoError A.

Definition mieru_on_inner {A} (m : SM S IoError A) : MieruM A :=
  sm_zoom mieru_inner (fun inner s => s <| mieru_inner := inner |>) id m.

(** The nonce of the next segment: the one that is known, or the first bytes of the stream. *)
Definition segment_nonce (s : MieruStream S) : option (list Z) :=
  match mieru_read_nonce s with
  | Some nonce => Some nonce
  | None =>
      if len (mieru_read_buffer s) <? NONCE_LEN then None
      else Some (sub_list (mieru_read_buffer s) 0 NONCE_LEN)
  end.

(** The decoder on what has arrived. *)
Definition segment_attempt (s : MieruStream S) : SegmentAttempt :=
  match segment_nonce s with
  | Some nonce =>
      try_decode_segment (now_unix_secs (mieru_inner s)) (mieru_read_buffer s)
        (is_none (mieru_read_nonce s)) (mieru_key s) nonce
  | None => NeedMore
  end.

(** The loop; a turn that goes on adds a byte, and a segment has a longest length. *)
Fixpoint read_segment_loop (turns : nat) : MieruM MieruSegment :=
  match turns with
  | O => sm_lift Panic
  | Datatypes.S turns' =>
      s <-! sm_get;
      match segment_attempt s with
      | Complete segment consumed next_nonce =>
          do! sm_modify (fun s =>
            s <| mieru_read_buffer := drop (Z.to_nat consumed) (mieru_read_buffer s) |>
              <| mieru_read_nonce := Some next_nonce |>);
          sm_ret segment
      | Invalid => io_fail InvalidData "invalid Mieru segment"
      | NeedMore =>
          bytes <-! mieru_on_inner (stream_read 4096);
          if is_empty bytes then io_fail UnexpectedEof "Mieru stream closed before next segment"
          else
            do! sm_modify (fun s => s <| mieru_read_buffer := mieru_read_buffer s ++ bytes |>);
            read_segment_loop turns'
      end
  end.

Definition read_next_segment : MieruM MieruSegment := read_segment_loop SEGMENT_TURNS.

Definition write_segment (protocol_type : Z) (payload : list Z) : MieruM unit :=
  s <-! sm_get;
  let metadata :=
    mkMetadata protocol_type (mieru_session_id s) (mieru_write_sequence s) STATUS_OK (len payload) 0 0 in
  do! sm_modify (fun s => s <| mieru_write_sequence := Z.min (u32_modulus - 1) (mieru_write_sequence s + 1) |>);
  s <-! sm_get;
  let segment := if mieru_write_sequence s =? 1 then mieru_write_nonce s else [] in
  body <-! sm_zoom mieru_write_nonce (fun nonce s => s <| mieru_write_nonce := nonce |>) id
    (encode_segment_body (now_unix_secs (mieru_inner s)) (mieru_key s) metadata payload);
  mieru_on_inner (write_all (segment ++ body)).

(** What a segment does to a reader. *)
Definition take_segment (segment : MieruSegment) (s : MieruStream S) : MieruStream S :=
  let protocol_type := meta_protocol_type (segment_metadata segment) in
  if (protocol_type =? DATA_SERVER_TO_CLIENT) || (protocol_type =? DATA_CLIENT_TO_SERVER) then
    s <| mieru_pending := mieru_pending s ++ segment_payload segment |>
  else if (protocol_type =? CLOSE_SESSION_REQUEST) || (protocol_type =? CLOSE_SESSION_RESPONSE) then
    s <| mieru_closed := true |>
  else s.

(** The loop over the segments, at most [segments] of them. *)
Fixpoint fill_pending (segments : nat) : MieruM unit :=
  fun s =>
    if negb (is_empty (mieru_pending s)) || mieru_closed s then (s, Ok tt)
    else
      match segments with
      | O => (s, Panic)
      | Datatypes.S segments' =>
          match read_next_segment s with
          | (s, Ok segment) => fill_pending segments' (take_segment segment s)
          | (s, Err error) =>
              if bool_decide (io_kind error = UnexpectedEof) then (s <| mieru_closed := true |>, Ok tt)
              else (s, Err error)
          | (s, Panic) => (s, Panic)
          end
      end.

(** [Read::read]. *)
Definition mieru_read (segments : nat) (amount : Z) : MieruM (list Z) :=
  if amount =? 0 then sm_ret []
  else
    do! fill_pending segments;
    s <-! sm_get;
    do! sm_modify (fun s => s <| mieru_pending := drop (Z.to_nat amount) (mieru_pending s) |>);
    sm_ret (take (Z.to_nat amount) (mieru_pending s)).

Fixpoint mieru_write_chunks (chunks : list (list Z)) : MieruM unit :=
  match chunks with
  | [] => sm_ret tt
  | chunk :: chunks' => do! write_segment DATA_CLIENT_TO_SERVER chunk; mieru_write_chunks chunks'
  end.

(** [Write::write]. *)
Definition mieru_write (input : list Z) : MieruM Z :=
  if is_empty input then sm_ret 0
  else do! mieru_write_chunks (chunks MAX_TCP_FRAGMENT_LEN input); sm_ret (len input).

Definition mieru_flush : MieruM unit := mieru_on_inner flush.
Definition mieru_set_nonblocking_mode (nonblocking : bool) : MieruM unit :=
  mieru_on_inner (set_nonblocking_mode nonblocking).

(** The result of the segment is dropped. *)
Definition mieru_close_segment : MieruM unit :=
  fun s =>
    match write_segment CLOSE_SESSION_REQUEST [] s with
    | (s, Panic) => (s, Panic)
    | (s, _) => (s, Ok tt)
    end.

Definition mieru_shutdown_write : MieruM unit := do! mieru_close_segment; mieru_on_inner shutdown_write.
Definition mieru_shutdown_both : MieruM unit := do! mieru_close_segment; mieru_on_inner shutdown_both.

(** ** Opening *)

(** [open_session]: the random nonce and session are arguments. The answer has ten bytes. On
    an error the stream is dropped. *)
Definition open_session (segments : nat) (random_nonce : list Z) (session_id : Z) (inner : S)
  (username password : string) (request : list Z) : result IoError (MieruStream S) :=
  let key := derive_mieru_key username password (rounded_unix_time (now_unix_secs inner)) in
  let stream :=
    mkMieruStream inner key None (apply_nonce_user_hint random_nonce username) session_id 0 [] [] false in
  let opening : MieruM unit :=
    do! write_segment OPEN_SESSION_REQUEST request;
    response <-! read_next_segment;
    if negb (meta_protocol_type (segment_metadata response) =? OPEN_SESSION_RESPONSE)
       || negb (meta_status_code (segment_metadata response) =? STATUS_OK)
    then io_fail InvalidData "invalid Mieru open session response"
    else
      socks_reply <-! default_read_exact (mieru_read segments) 10 10 [];
      if negb (bool_decide (socks_reply = SOCKS_CONNECT_SUCCESS))
      then io_fail ConnectionRefusedKind "Mieru SOCKS CONNECT request was rejected"
      else sm_ret tt in
  let '(stream, r) := opening stream in
  result_map (fun _ => stream) r.

Definition mieru_connect (segments : nat) (random_nonce : list Z) (session_id : Z) (inner : S)
  (username password : string) (target : Endpoint) : result IoError (MieruStream S) :=
  request <-? socks_connect_request target;
  open_session segments random_nonce session_id inner username password request.

Definition mieru_udp_associate (segments : nat) (random_nonce : list Z) (session_id : Z) (inner : S)
  (username password : string) : result IoError (MieruStream S) :=
  open_session segments random_nonce session_id inner username password socks_udp_associate_request.

(** ** Datagrams *)

(** [read_udp_frame]; the state is the stream with the buffer. At most [turns] reads. *)
Fixpoint read_udp_frame (segments turns : nat) (buffer : list Z) : MieruM (list Z) :=
  match turns with
  | O => sm_lift Panic
  | Datatypes.S turns' =>
      match take_udp_frame buffer with
      | (_, Ok (Some frame)) => sm_ret frame
      | (_, Err error) => sm_lift (Err error)
      | (_, Panic) => sm_lift Panic
      | (buffer, Ok None) =>
          bytes <-! mieru_read segments 4096;
          if is_empty bytes then io_fail UnexpectedEof "Mieru UDP frame ended early"
          else read_udp_frame segments turns' (buffer ++ bytes)
      end
  end.

(** [Write::write_all] on top of [write], which takes all of its input. *)
Definition mieru_write_udp_datagram (error_text : Socks5Error -> string) (target : OutboundTarget) (payload : list Z)
  : MieruM unit :=
  address <-! sm_lift (socks5_address_from_target target);
  packet <-! sm_lift (map_err (fun error => mkIoError InvalidData (error_text error))
    (encode_socks5_udp_datagram address (target_port target) payload));
  frame <-! sm_lift (encode_udp_frame packet);
  do! mieru_write frame;
  mieru_flush.

(** [read_udp_datagram] up to the address of its source, which [socks5_udp_source_addr]
    finds. *)
Definition mieru_read_udp_datagram (error_text : Socks5Error -> string) (segments turns : nat)
  : MieruM Socks5UdpDatagram :=
  packet <-! read_udp_frame segments turns [];
  sm_lift (map_err (fun error => mkIoError InvalidData (error_text error)) (parse_socks5_udp_datagram packet)).

End Stream.

(** ** Metadata round trips *)

(** The metadata of a segment that a stream can hold. *)
Definition metadata_ok (m : MieruMetadata) : Prop :=
  is_u32 (meta_session_id m) /\ is_u32 (meta_sequence m) /\ is_u8 (meta_status_code m) /\
  is_u8 (meta_prefix_len m) /\ is_u8 (meta_suffix_len m) /\ 0 <= meta_payload_len m /\
  ((is_session_type (meta_protocol_type m) = true /\ meta_payload_len m <= MAX_SESSION_PAYLOAD_LEN /\
    meta_prefix_len m = 0) \/
   (is_data_type (meta_protocol_type m) = true /\ meta_payload_len m <= MAX_TCP_FRAGMENT_LEN /\
    meta_status_code m = STATUS_OK)).

(** The minute of an encoder is close for a decoder. *)
Definition clocks_close (now now' : Z) : Prop :=
  is_u32 (now / 60) /\ Z.abs (now' / 60 - now / 60) <= 10.

Lemma be_bytes_4 x : is_u32 x -> exists a b c d, to_be_bytes 4 x = [a; b; c; d] /\ from_be_bytes [a; b; c; d] = x.
Proof.
  intros Hx. destruct (to_be_bytes_4_ex x) as (a & b & c & d & E). exists a, b, c, d. split; [done|].
  rewrite <- E. apply from_to_be_bytes_id. exact Hx.
Qed.

Lemma be_bytes_2 x : is_u16 x -> exists a b, to_be_bytes 2 x = [a; b] /\ from_be_bytes [a; b] = x.
Proof.
  intros Hx. destruct (to_be_bytes_2_ex x) as (a & b & E). exists a, b. split; [done|].
  rewrite <- E. apply from_to_be_bytes_id. exact Hx.
Qed.

(** Metadata that is encoded has 32 bytes, and is understood while its minute is close. *)
Lemma metadata_roundtrip now m :
  metadata_ok m -> is_u32 (now / 60) ->
  exists bytes, encode_metadata now m = Ok bytes /\ len bytes = METADATA_LEN /\
    (forall now', clocks_close now now' -> parse_metadata now' bytes = Some m).
Proof.
  destruct m as [type session sequence status payload prefix suffix]. unfold metadata_ok. cbn.
  intros (Hsession & Hsequence & Hstatus & Hprefix & Hsuffix & Hpayload & Hkind) Hnow.
  destruct (be_bytes_4 (now / 60) Hnow) as (t1 & t2 & t3 & t4 & Et & Ht).
  destruct (be_bytes_4 session Hsession) as (s1 & s2 & s3 & s4 & Es & Hs).
  destruct (be_bytes_4 sequence Hsequence) as (q1 & q2 & q3 & q4 & Eq & Hq).
  assert (Hp16 : is_u16 payload)
    by (unfold is_u16, MAX_SESSION_PAYLOAD_LEN, MAX_TCP_FRAGMENT_LEN in *; lia).
  destruct (be_bytes_2 payload Hp16) as (p1 & p2 & Ep & Hp).
  unfold encode_metadata. cbn [meta_protocol_type meta_session_id meta_sequence meta_status_code meta_payload_len
    meta_prefix_len meta_suffix_len].
  replace (u16_max <? payload) with false by (unfold is_u16, u16_max in *; lia).
  assert (as_u32 (now / 60) = now / 60) as -> by (apply Z.mod_small; exact Hnow).
  assert (as_u16 payload = payload) as -> by (apply Z.mod_small; exact Hp16).
  assert (as_u8 suffix = suffix) as -> by (apply Z.mod_small; exact Hsuffix).
  assert (as_u8 prefix = prefix) as -> by (apply Z.mod_small; exact Hprefix).
  rewrite Et, Es, Eq, Ep. cbn [result_bind].
  assert (Hclose : forall now', clocks_close now now' ->
    timestamp_is_close now' (from_be_bytes [t1; t2; t3; t4]) = true).
  { intros now' [_ Hc]. unfold timestamp_is_close. rewrite Ht. lia. }
  destruct Hkind as [(Hk & Hmax & ->)|(Hk & Hmax & ->)].
  - rewrite Hk. exists ([type; 0; t1; t2; t3; t4; s1; s2; s3; s4; q1; q2; q3; q4; status; p1; p2; suffix] ++ replicate 14 0).
    split; [reflexivity|]. split; [reflexivity|]. intros now' Hc.
    unfold parse_metadata. cbn [nth negb]. change (negb (len _ =? METADATA_LEN)) with false.
    cbn -[from_be_bytes timestamp_is_close is_session_type is_data_type MAX_SESSION_PAYLOAD_LEN].
    rewrite Hk, Hclose by done. cbn [orb negb].
    change (sub_list _ 6 10) with [s1; s2; s3; s4]. change (sub_list _ 10 14) with [q1; q2; q3; q4].
    change (sub_list _ 15 17) with [p1; p2]. rewrite Hs, Hq, Hp.
    by replace (_ <? payload) with false by lia.
  - assert (Hno : is_session_type type = false)
      by (unfold is_session_type, is_data_type, CLOSE_SESSION_RESPONSE, DATA_CLIENT_TO_SERVER in *; lia).
    rewrite Hno, Hk. exists ([type; 0; t1; t2; t3; t4; s1; s2; s3; s4; q1; q2; q3; q4; 0; 0; 0; 0; 0; 64; 0; prefix; p1; p2; suffix] ++ replicate 7 0).
    split; [reflexivity|]. split; [reflexivity|]. intros now' Hc.
    unfold parse_metadata. change (negb (len _ =? METADATA_LEN)) with false.
    cbn -[from_be_bytes timestamp_is_close is_session_type is_data_type MAX_TCP_FRAGMENT_LEN].
    rewrite Hno, Hk, Hclose by done. cbn [orb negb].
    change (sub_list _ 6 10) with [s1; s2; s3; s4]. change (sub_list _ 10 14) with [q1; q2; q3; q4].
    change (sub_list _ 22 24) with [p1; p2]. rewrite Hs, Hq, Hp.
    by replace (_ <? payload) with false by lia.
Qed.

(** ** Delivery *)

(** What the code relies on in the cipher: opening undoes sealing, and the tag has 16
    bytes. *)
Class MieruAead {Crypto : MieruCrypto} : Prop := {
  xchacha_seal_open key nonce plain :
    exists sealed, xchacha_encrypt key nonce plain = Ok sealed /\
      len sealed = len plain + 16 /\ xchacha_decrypt key nonce sealed = Ok plain
}.

Section Delivery.
Context {Crypto : MieruCrypto} {Aead : MieruAead}.
Context {S : Type} {System : MieruSystem S} {Reliable : ReliableStream S}.
(** The clocks of both ends stay within five minutes of a moment. *)
Context (moment : Z) (Hclock : forall s : S, is_u32 (now_unix_secs s / 60) /\ Z.abs (now_unix_secs s / 60 - moment) <= 5).

Lemma clocks_agree (s s' : S) : clocks_close (now_unix_secs s) (now_unix_secs s').
Proof. destruct (Hclock s) as [Hu Hs], (Hclock s') as [_ Hs']. split; [done|]. lia. Qed.

(** The bytes of a data segment with a nonce. *)
Definition sealed_segment (key nonce chunk bytes : list Z) : Prop :=
  exists metadata plain sealed body,
    bytes = sealed ++ body /\ len sealed = ENCRYPTED_METADATA_LEN /\ len body = len chunk + MIERU_TAG_LEN /\
    decrypt_aead key nonce sealed = Ok plain /\
    (forall s : S, parse_metadata (now_unix_secs s) plain = Some metadata) /\
    meta_protocol_type metadata = DATA_CLIENT_TO_SERVER /\ meta_payload_len metadata = len chunk /\
    meta_prefix_len metadata = 0 /\ meta_suffix_len metadata = 0 /\
    decrypt_aead key (increment_nonce nonce) body = Ok chunk.

Lemma sealed_size key nonce chunk bytes :
  sealed_segment key nonce chunk bytes -> len bytes = ENCRYPTED_METADATA_LEN + len chunk + MIERU_TAG_LEN.
Proof. intros (m & plain & sealed & body & -> & H1 & H2 & _). rewrite len_app. lia. Qed.

Lemma sub_list_part (p q : list Z) a b : 0 <= a <= b -> b <= len p -> sub_list p a b = sub_list (p ++ q) a b.
Proof.
  intros Ha Hb. unfold sub_list, len in *. rewrite drop_app_le by lia. rewrite take_app_le; [done|].
  rewrite length_drop. lia.
Qed.

(** The decoder on a part of the stream: a whole segment, or not enough. *)
Lemma attempt_spec (s : S) key nonce chunk bytes prefix (has_nonce : bool) p q rest :
  sealed_segment key nonce chunk bytes -> chunk <> [] -> len prefix = (if has_nonce then NONCE_LEN else 0) ->
  p ++ q = prefix ++ bytes ++ rest ->
  let attempt := try_decode_segment (now_unix_secs s) p has_nonce key nonce in
  if len p <? len prefix + len bytes then attempt = NeedMore
  else exists metadata, meta_protocol_type metadata = DATA_CLIENT_TO_SERVER /\
    attempt = Complete (mkSegment metadata chunk) (len prefix + len bytes) (increment_nonce (increment_nonce nonce)).
Proof.
  intros Hsealed Hne Hprefix Hp. pose proof (sealed_size _ _ _ _ Hsealed) as Hsize.
  destruct Hsealed as (m & plain & sealed & body & -> & H48 & Hbody & Hmeta & Hparse & Htype & Hlen & Hpre & Hsuf & Hopen).
  assert (0 < len chunk) by (destruct chunk; [done|]; rewrite len_cons; pose proof (len_nonneg chunk); lia).
  pose proof (len_nonneg prefix). pose proof (len_nonneg p).
  unfold try_decode_segment. rewrite <- Hprefix.
  destruct (has_nonce && (len p <? NONCE_LEN)) eqn:Hn.
  { replace (len p <? _) with true; [done|]. destruct has_nonce; [|done]. cbn in Hn.
    unfold ENCRYPTED_METADATA_LEN, METADATA_LEN, MIERU_TAG_LEN in *. lia. }
  destruct (len p <? len prefix + ENCRYPTED_METADATA_LEN) eqn:Hm.
  { replace (len p <? _) with true; [done|]. unfold MIERU_TAG_LEN in *. lia. }
  assert (Hsub : forall x y z, p ++ q = x ++ y ++ z -> len x + len y <= len p -> sub_list p (len x) (len x + len y) = y).
  { intros x y z E Hl. rewrite <- (sub_list_app_mid x y z (len x) (len x + len y)) at 2 by done. rewrite <- E.
    apply sub_list_part; pose proof (len_nonneg x); pose proof (len_nonneg y); lia. }
  rewrite <- H48 in Hm |- *.
  rewrite (Hsub prefix sealed (body ++ rest)); [|by rewrite Hp, <- !app_assoc|lia].
  rewrite Hmeta, Hparse. unfold decode_payload. rewrite Hlen, Hpre, Hsuf.
  replace (len chunk =? 0) with false by lia. rewrite <- Hbody, !Z.add_0_r, len_app.
  rewrite Z.add_assoc. destruct (len p <? len prefix + len sealed + len body) eqn:Hc; [done|].
  replace (len prefix + len sealed) with (len (prefix ++ sealed)) by apply len_app.
  rewrite (Hsub (prefix ++ sealed) body rest); [|by rewrite Hp, <- !app_assoc|rewrite len_app; lia].
  rewrite Hopen. replace (len chunk =? len chunk) with true by lia. cbn [negb].
  exists m. by split.
Qed.

(** The nonce that is still to be read. *)
Definition nonce_ahead (s : MieruStream S) (nonce : list Z) : list Z :=
  match mieru_read_nonce s with Some _ => [] | None => nonce end.

(** The reader is in front of [data], whose first segment has [nonce]. *)
Definition before (s : MieruStream S) (nonce data incoming w : list Z) : Prop :=
  mieru_read_buffer s ++ incoming = nonce_ahead s nonce ++ data /\
  match mieru_read_nonce s with Some n => n = nonce | None => len nonce = NONCE_LEN end /\
  holds (mieru_inner s) incoming w.

Lemma segment_attempt_spec s nonce chunk bytes rest incoming :
  mieru_read_buffer s ++ incoming = nonce_ahead s nonce ++ bytes ++ rest ->
  match mieru_read_nonce s with Some n => n = nonce | None => len nonce = NONCE_LEN end -> sealed_segment (mieru_key s) nonce chunk bytes -> chunk <> [] ->
  let needed := len (nonce_ahead s nonce) + len bytes in
  if len (mieru_read_buffer s) <? needed then segment_attempt s = NeedMore
  else exists metadata, meta_protocol_type metadata = DATA_CLIENT_TO_SERVER /\
    segment_attempt s = Complete (mkSegment metadata chunk) needed (increment_nonce (increment_nonce nonce)).
Proof.
  intros Hb Hn Hs Hne. unfold segment_attempt, segment_nonce, nonce_ahead in *.
  destruct (mieru_read_nonce s) as [n|]; cbn [is_none].
  - subst n. by apply (attempt_spec (mieru_inner s) _ _ _ _ [] false _ incoming rest Hs Hne).
  - pose proof (attempt_spec (mieru_inner s) _ _ _ _ nonce true _ incoming rest Hs Hne Hn Hb) as Ha. cbn zeta in *.
    destruct (len (mieru_read_buffer s) <? NONCE_LEN) eqn:Hl.
    + pose proof (sealed_size _ _ _ _ Hs). pose proof (len_nonneg chunk).
      unfold ENCRYPTED_METADATA_LEN, METADATA_LEN, MIERU_TAG_LEN in *. by replace (_ <? _) with true by lia.
    + replace (sub_list (mieru_read_buffer s) 0 NONCE_LEN) with nonce; [done|].
      rewrite (sub_list_part _ incoming) by (unfold NONCE_LEN in *; lia). rewrite Hb.
      symmetry. change nonce with ([] ++ nonce) at 1. apply (sub_list_app_mid []); [done|]. by rewrite Hn.
Qed.

Lemma mieru_inner_ok {A} (m : SM S IoError A) s i a :
  m (mieru_inner s) = (i, Ok a) -> mieru_on_inner m s = (s <| mieru_inner := i |>, Ok a).
Proof. intros H. unfold mieru_on_inner, sm_zoom. by rewrite H. Qed.

(** The reader is past the segment; what it keeps for its caller is as it was. *)
Definition past (s s' : MieruStream S) (nonce data incoming w : list Z) : Prop :=
  before s' nonce data incoming w /\ is_some (mieru_read_nonce s') = true /\
  mieru_key s' = mieru_key s /\ mieru_pending s' = mieru_pending s /\ mieru_closed s' = mieru_closed s.

Lemma read_segment turns s nonce chunk bytes rest incoming w :
  before s nonce (bytes ++ rest) incoming w -> sealed_segment (mieru_key s) nonce chunk bytes -> chunk <> [] ->
  Z.max 0 (len (nonce_ahead s nonce) + len bytes - len (mieru_read_buffer s)) < Z.of_nat turns ->
  exists s' incoming' metadata,
    read_segment_loop turns s = (s', Ok (mkSegment metadata chunk)) /\
    meta_protocol_type metadata = DATA_CLIENT_TO_SERVER /\
    past s s' (increment_nonce (increment_nonce nonce)) rest incoming' w.
Proof.
  intros Hb Hs Hne. revert s incoming Hb Hs. induction turns as [|turns IH]; intros s incoming Hb Hs Hf; [lia|].
  cbn [read_segment_loop]. rewrite bind_get. pose proof (segment_attempt_spec _ _ _ _ _ _ (proj1 Hb) (proj1 (proj2 Hb)) Hs Hne) as Ha.
  cbn zeta in Ha. destruct (len (mieru_read_buffer s) <? _) eqn:Hl.
  - rewrite Ha. destruct Hb as (Hbuf & Hn & Hh).
    destruct (reliable_read w _ _ 4096 Hh ltac:(lia)) as (i & got & more & Hr & -> & _ & Hend & Hh').
    erewrite bind_ok by (apply mieru_inner_ok; exact Hr). destruct got as [|b got].
    { specialize (Hend eq_refl). apply (f_equal len) in Hbuf. cbn [app] in Hend. rewrite Hend, app_nil_r, !len_app in Hbuf.
      pose proof (len_nonneg rest). lia. }
    cbn [is_empty]. rewrite bind_modify. set (s1 := (s <| mieru_inner := i |>) <| mieru_read_buffer := _ |>).
    destruct (IH s1 more) as (s' & incoming' & m & Hread & Ht & (Hb' & H1 & H2 & H3 & H4)).
    + split_and!; [|done|done]. cbn. change (nonce_ahead s1 nonce) with (nonce_ahead s nonce).
      by rewrite <- app_assoc.
    + done.
    + change (nonce_ahead s1 nonce) with (nonce_ahead s nonce).
      change (mieru_read_buffer s1) with (mieru_read_buffer s ++ b :: got). rewrite len_app, len_cons.
      pose proof (len_nonneg got). lia.
    + exists s', incoming', m. split_and!; [exact Hread|done|]. by split_and!.
  - destruct Ha as (m & Ht & ->). rewrite bind_modify. destruct Hb as (Hbuf & _ & Hh).
    eexists _, incoming, m. split_and!; [reflexivity|done|]. split_and!; [|done..].
    split_and!; [|done|done]. cbn. rewrite <- drop_app_le by (unfold len in *; lia). rewrite Hbuf, app_assoc.
    rewrite drop_app_length'; [done|]. rewrite length_app. unfold len. lia.
Qed.

(** Too few bytes for a segment are not a segment. *)
Lemma attempt_short s :
  len (mieru_read_buffer s) < (if is_none (mieru_read_nonce s) then NONCE_LEN else 0) + ENCRYPTED_METADATA_LEN ->
  segment_attempt s = NeedMore.
Proof.
  intros Hl. unfold segment_attempt, segment_nonce, try_decode_segment.
  destruct (mieru_read_nonce s); cbn [is_none andb] in *.
  - by replace (_ <? 0 + _) with true by lia.
  - destruct (len (mieru_read_buffer s) <? NONCE_LEN) eqn:E; [done|]. cbn [andb].
    by replace (_ <? _) with true by lia.
Qed.

Lemma read_segment_end turns s incoming w :
  len (mieru_read_buffer s ++ incoming) < ENCRYPTED_METADATA_LEN -> holds (mieru_inner s) incoming w ->
  len incoming < Z.of_nat turns ->
  exists s', read_segment_loop turns s = (s', Err (mkIoError UnexpectedEof "Mieru stream closed before next segment")) /\
    mieru_pending s' = mieru_pending s.
Proof.
  revert s incoming. induction turns as [|turns IH]; intros s incoming Hl Hh Hf; [pose proof (len_nonneg incoming); lia|].
  cbn [read_segment_loop]. rewrite bind_get, len_app in *. pose proof (len_nonneg incoming).
  rewrite attempt_short by (destruct (is_none _); unfold NONCE_LEN; lia).
  destruct (reliable_read w _ _ 4096 Hh ltac:(lia)) as (i & got & more & Hr & -> & _ & Hend & Hh').
  erewrite bind_ok by (apply mieru_inner_ok; exact Hr). destruct got as [|b got]; cbn [is_empty].
  - by eexists.
  - rewrite bind_modify. set (s1 := (s <| mieru_inner := i |>) <| mieru_read_buffer := _ |>).
    destruct (IH s1 more) as (s' & Hread & Hp); [|done| |by exists s'].
    + change (mieru_read_buffer s1) with (mieru_read_buffer s ++ b :: got). rewrite !len_app in *. lia.
    + rewrite len_app, len_cons in Hf. pose proof (len_nonneg got). lia.
Qed.

(** Segments one after another, with the nonces they use. *)
Inductive mieru_wire (key : list Z) : list Z -> list (list Z) -> list Z -> Prop :=
| mieru_wire_nil nonce : mieru_wire key nonce [] []
| mieru_wire_cons nonce chunk chunks bytes rest :
    sealed_segment key nonce chunk bytes -> len chunk <= MAX_TCP_FRAGMENT_LEN -> chunk <> [] ->
    mieru_wire key (increment_nonce (increment_nonce nonce)) chunks rest ->
    mieru_wire key nonce (chunk :: chunks) (bytes ++ rest).

(** What a reader will give: what is pending, and the chunks that are on their way. *)
Definition mieru_holds (s : MieruStream S) (l : list Z) : Prop :=
  (mieru_closed s = true /\ l = mieru_pending s) \/
  (mieru_closed s = false /\ exists nonce chunks bytes incoming w,
     l = mieru_pending s ++ concat chunks /\ mieru_wire (mieru_key s) nonce chunks bytes /\
     (chunks <> [] -> before s nonce bytes incoming w) /\
     (chunks = [] -> mieru_read_buffer s ++ incoming = [] /\ holds (mieru_inner s) incoming w)).

Lemma fill_pending_spec segments s l :
  mieru_holds s l -> exists s', fill_pending (Datatypes.S segments) s = (s', Ok tt) /\ mieru_holds s' l /\
    (mieru_pending s' = [] -> l = []).
Proof.
  intros Hs. cbn [fill_pending]. destruct (mieru_pending s) as [|b pending] eqn:Hp; cbn [is_empty negb orb].
  2: { exists s. split; [done|]. split; [done|]. by rewrite Hp. }
  destruct (mieru_closed s) eqn:Hc.
  { exists s. split; [done|]. split; [done|]. intros _. destruct Hs as [[_ ->]|[Hf _]]; [done|congruence]. }
  destruct Hs as [[Hf _]|(_ & nonce & chunks & bytes & incoming & w & -> & Hw & Hbefore & Hend)]; [congruence|].
  rewrite Hp. cbn [app]. destruct chunks as [|chunk chunks].
  - destruct (Hend eq_refl) as [Hnil Hh]. pose proof Hnil as Hnil2. apply app_eq_nil in Hnil2 as [_ Hi].
    destruct (read_segment_end SEGMENT_TURNS s incoming w) as (s' & Hread & Hp');
      [by rewrite Hnil|done|rewrite Hi; vm_compute; done|].
    unfold read_next_segment. rewrite Hread. rewrite bool_decide_true by done. eexists. split; [done|]. split; [|done].
    left. cbn. by rewrite Hp', Hp.
  - inversion Hw as [|? ? ? seg rest Hseg Hmax Hne Hrest]; subst.
    destruct (read_segment SEGMENT_TURNS s nonce chunk seg rest incoming w (Hbefore ltac:(done)) Hseg Hne)
      as (s' & incoming' & m & Hread & Ht & (Hb' & Hsome & Hk & Hpend & Hcl)).
    { pose proof (sealed_size _ _ _ _ Hseg) as Hsize. pose proof (len_nonneg (mieru_read_buffer s)).
      assert (len (nonce_ahead s nonce) <= NONCE_LEN).
      { unfold nonce_ahead. destruct (Hbefore ltac:(done)) as (_ & Hn & _). destruct (mieru_read_nonce s); [done|lia]. }
      unfold ENCRYPTED_METADATA_LEN, METADATA_LEN, MIERU_TAG_LEN, NONCE_LEN, MAX_TCP_FRAGMENT_LEN, SEGMENT_TURNS in *. lia. }
    unfold read_next_segment. rewrite Hread. unfold take_segment. cbn [segment_metadata segment_payload]. rewrite Ht. cbn [orb Z.eqb].
    change ((DATA_CLIENT_TO_SERVER =? DATA_SERVER_TO_CLIENT) || (DATA_CLIENT_TO_SERVER =? DATA_CLIENT_TO_SERVER)) with true.
    cbn match. rewrite Hpend, Hp. cbn [app]. set (s1 := s' <| mieru_pending := chunk |>).
    assert (Hfull : fill_pending segments s1 = (s1, Ok tt)).
    { destruct segments; cbn [fill_pending]; change (mieru_pending s1) with chunk; by destruct chunk. }
    exists s1. rewrite Hfull. split; [done|]. split; [|by intros E; change (mieru_pending s1) with chunk in E].
    right. split; [by change (mieru_closed s1) with (mieru_closed s'); rewrite Hcl|].
    exists (increment_nonce (increment_nonce nonce)), chunks, rest, incoming', w. split_and!; [done| |done|].
    + change (mieru_key s1) with (mieru_key s'). by rewrite Hk.
    + intros ->. inversion Hrest; subst. destruct Hb' as (Hbuf & _ & Hh). split; [|done].
      change (mieru_read_buffer s1) with (mieru_read_buffer s'). rewrite Hbuf. unfold nonce_ahead.
      by destruct (mieru_read_nonce s').
Qed.

Lemma mieru_delivers segments : delivers (mieru_read (Datatypes.S segments)) mieru_holds.
Proof.
  intros s l n Hs Hn. unfold mieru_read. replace (n =? 0) with false by lia.
  destruct (fill_pending_spec segments s l Hs) as (s1 & Hf & Hs1 & Hend).
  rewrite (bind_ok _ _ _ _ _ Hf), bind_get, bind_modify.
  eexists _, (take (Z.to_nat n) (mieru_pending s1)), (drop (length (take (Z.to_nat n) (mieru_pending s1))) l).
  assert (Hl : exists more, l = mieru_pending s1 ++ more /\
    mieru_holds (s1 <| mieru_pending := drop (Z.to_nat n) (mieru_pending s1) |>) (drop (Z.to_nat n) (mieru_pending s1) ++ more)).
  { destruct Hs1 as [[Hc ->]|(Hc & nonce & chunks & bytes & incoming & w & -> & Hw & Hb & He)].
    - exists []. rewrite !app_nil_r. split; [done|]. by left.
    - exists (concat chunks). split; [done|]. right. split; [done|]. by exists nonce, chunks, bytes, incoming, w. }
  destruct Hl as (more & -> & Hrest). split; [reflexivity|].
  assert (Hdrop : drop (length (take (Z.to_nat n) (mieru_pending s1))) (mieru_pending s1 ++ more) =
                  drop (Z.to_nat n) (mieru_pending s1) ++ more).
  { rewrite length_take. rewrite drop_app_le by lia. f_equal.
    destruct (decide (Z.to_nat n <= length (mieru_pending s1))%nat); [f_equal; lia|].
    rewrite !drop_ge by lia. done. }
  rewrite Hdrop. split_and!; [by rewrite app_assoc, take_drop|unfold len; rewrite length_take; lia| |done].
  intros Ht. apply Hend. destruct (mieru_pending s1); [done|]. destruct (Z.to_nat n) eqn:E; [lia|done].
Qed.

(** ** Writing *)

Lemma aead_seal key nonce plain :
  exists sealed, encrypt_aead key nonce plain = Ok sealed /\ len sealed = len plain + MIERU_TAG_LEN /\
    decrypt_aead key nonce sealed = Ok plain.
Proof.
  destruct (xchacha_seal_open key nonce plain) as (sealed & H1 & H2 & H3). exists sealed.
  unfold encrypt_aead, decrypt_aead. by rewrite H1, H3.
Qed.

(** The nonce goes before the first segment. *)
Definition nonce_first (s : MieruStream S) : list Z := if mieru_write_sequence s =? 0 then mieru_write_nonce s else [].

Definition writer_ok (s : MieruStream S) : Prop := is_u32 (mieru_session_id s) /\ is_u32 (mieru_write_sequence s).

(** The state of a writer after a segment. *)
Definition segment_sent (s : MieruStream S) (inner : S) : MieruStream S :=
  s <| mieru_write_sequence := Z.min (u32_modulus - 1) (mieru_write_sequence s + 1) |>
    <| mieru_write_nonce := increment_nonce (increment_nonce (mieru_write_nonce s)) |>
    <| mieru_inner := inner |>.

(** What [write_segment] gives to the stream below, and that it goes on to the next nonce
    whatever comes of it. *)
Lemma write_segment_spec s chunk :
  writer_ok s -> chunk <> [] -> len chunk <= MAX_TCP_FRAGMENT_LEN ->
  exists bytes, sealed_segment (mieru_key s) (mieru_write_nonce s) chunk bytes /\
    forall i r, write_all (nonce_first s ++ bytes) (mieru_inner s) = (i, r) ->
      write_segment DATA_CLIENT_TO_SERVER chunk s = (segment_sent s i, r).
Proof.
  intros [Hsession Hsequence] Hne Hmax. unfold write_segment.
  set (metadata := mkMetadata DATA_CLIENT_TO_SERVER (mieru_session_id s) (mieru_write_sequence s) STATUS_OK (len chunk) 0 0).
  set (s1 := s <| mieru_write_sequence := Z.min (u32_modulus - 1) (mieru_write_sequence s + 1) |>).
  destruct (Hclock (mieru_inner s)) as [Hu _].
  destruct (metadata_roundtrip (now_unix_secs (mieru_inner s)) metadata) as (plain & Henc & Hplain & Hparse); [|done|].
  { unfold metadata_ok, is_u8. cbn. pose proof (len_nonneg chunk). split_and!; try done; lia. }
  destruct (aead_seal (mieru_key s) (mieru_write_nonce s) plain) as (sealed & E1 & L1 & D1).
  destruct (aead_seal (mieru_key s) (increment_nonce (mieru_write_nonce s)) chunk) as (body & E2 & L2 & D2).
  exists (sealed ++ body). split.
  { exists metadata, plain, sealed, body. rewrite Hplain in L1. split_and!; try done. intros s0. apply Hparse, clocks_agree. }
  intros i r Hw. rewrite bind_get, bind_modify, bind_get. fold metadata. fold s1.
  assert (Hprefix : (if mieru_write_sequence s1 =? 1 then mieru_write_nonce s1 else []) = nonce_first s).
  { unfold nonce_first. change (mieru_write_sequence s1) with (Z.min (u32_modulus - 1) (mieru_write_sequence s + 1)).
    unfold is_u32, u32_modulus in *. by destruct (mieru_write_sequence s =? 0) eqn:E0;
      [replace (_ =? 1) with true by lia|replace (_ =? 1) with false by lia]. }
  assert (Hbody : sm_zoom mieru_write_nonce (fun nonce s => s <| mieru_write_nonce := nonce |>) id
    (encode_segment_body (now_unix_secs (mieru_inner s1)) (mieru_key s1) metadata chunk) s1 =
    (s1 <| mieru_write_nonce := increment_nonce (increment_nonce (mieru_write_nonce s)) |>, Ok (sealed ++ body))).
  { unfold sm_zoom, encode_segment_body. change (mieru_inner s1) with (mieru_inner s).
    change (mieru_key s1) with (mieru_key s). change (mieru_write_nonce s1) with (mieru_write_nonce s).
    rewrite (bind_lift_ok _ _ _ _ Henc), bind_get, (bind_lift_ok _ _ _ _ E1), bind_modify.
    destruct chunk as [|c chunk]; [done|]. cbn [is_empty]. by rewrite bind_get, (bind_lift_ok _ _ _ _ E2), bind_modify. }
  rewrite (bind_ok _ _ _ _ _ Hbody), Hprefix. unfold mieru_on_inner, sm_zoom. cbn. rewrite Hw. by destruct r.
Qed.

Lemma write_segment_wire s chunk l w :
  writer_ok s -> chunk <> [] -> len chunk <= MAX_TCP_FRAGMENT_LEN -> holds (mieru_inner s) l w ->
  exists s' bytes, write_segment DATA_CLIENT_TO_SERVER chunk s = (s', Ok tt) /\
    sealed_segment (mieru_key s) (mieru_write_nonce s) chunk bytes /\
    holds (mieru_inner s') l (w ++ nonce_first s ++ bytes) /\ writer_ok s' /\ 0 < mieru_write_sequence s' /\
    mieru_key s' = mieru_key s /\ mieru_write_nonce s' = increment_nonce (increment_nonce (mieru_write_nonce s)).
Proof.
  intros Hs Hne Hmax Hh. destruct (write_segment_spec s chunk Hs Hne Hmax) as (bytes & Hseg & Hsend).
  destruct (reliable_write (mieru_inner s) l w (nonce_first s ++ bytes) Hh) as (i & Hw & Hh').
  exists (segment_sent s i), bytes. destruct Hs as [Hsession Hsequence].
  assert (Hnext : 0 < Z.min (u32_modulus - 1) (mieru_write_sequence s + 1) < u32_modulus)
    by (unfold is_u32, u32_modulus in *; lia).
  split_and!; [by apply Hsend|done|done| |apply Hnext|done|done].
  split; [done|]. change (is_u32 (Z.min (u32_modulus - 1) (mieru_write_sequence s + 1))). unfold is_u32. lia.
Qed.

(** A write that fails below goes on to the next nonces all the same, however much of the
    segment was sent: what is written next is not what the reader waits for. *)
Theorem mieru_failed_write_advances (s : MieruStream S) buffer e i :
  writer_ok s -> buffer <> [] -> (forall bytes, write_all bytes (mieru_inner s) = (i, Err e)) ->
  mieru_write buffer s = (segment_sent s i, Err e).
Proof.
  intros Hs Hne Hfail. destruct (chunks_spec MAX_TCP_FRAGMENT_LEN buffer eq_refl) as (Hcat & Hchunks & Hlen).
  unfold mieru_write. destruct buffer as [|x buffer]; [done|]. cbn [is_empty].
  destruct (chunks MAX_TCP_FRAGMENT_LEN (x :: buffer)) as [|chunk chunks]; [done|].
  destruct (write_segment_spec s chunk Hs (Forall_inv Hchunks) (Forall_inv Hlen)) as (bytes & _ & Hsend).
  cbn [mieru_write_chunks]. unfold sm_bind. by rewrite (Hsend _ _ (Hfail _)).
Qed.

Lemma write_chunks_wire chunks s l w :
  writer_ok s -> Forall (fun chunk => chunk <> []) chunks -> Forall (fun chunk => len chunk <= MAX_TCP_FRAGMENT_LEN) chunks ->
  holds (mieru_inner s) l w ->
  exists s' bytes, mieru_write_chunks chunks s = (s', Ok tt) /\
    mieru_wire (mieru_key s) (mieru_write_nonce s) chunks bytes /\
    holds (mieru_inner s') l (w ++ (if is_empty chunks then [] else nonce_first s) ++ bytes).
Proof.
  intros Hs Hne Hmax. revert s w Hs. induction chunks as [|chunk chunks IH]; intros s w Hs Hh.
  { exists s, []. cbn. rewrite app_nil_r. split_and!; [done|constructor|done]. }
  destruct (write_segment_wire s chunk l w Hs (Forall_inv Hne) (Forall_inv Hmax) Hh)
    as (s1 & bytes & Hw & Hseg & Hh1 & Hs1 & Hpos & Hk & Hn).
  destruct (IH (Forall_inv_tail Hne) (Forall_inv_tail Hmax) s1 _ Hs1 Hh1) as (s2 & rest & Hw2 & Hwire & Hh2).
  exists s2, (bytes ++ rest). cbn [mieru_write_chunks is_empty]. rewrite (bind_ok _ _ _ _ _ Hw). split_and!; [done| |].
  - rewrite Hk, Hn in Hwire. constructor; [done|exact (Forall_inv Hmax)|exact (Forall_inv Hne)|done].
  - assert (nonce_first s1 = []) as E by (unfold nonce_first; by replace (_ =? 0) with false by lia).
    rewrite E in Hh2. replace (if is_empty chunks then [] else []) with (@nil Z) in Hh2 by (by destruct chunks).
    cbn [app] in Hh2. by rewrite <- !app_assoc in Hh2.
Qed.

(** A reader that has the key of a writer, and its nonce unless the writer is still to send
    it. *)
Definition mieru_peers (writer reader : MieruStream S) : Prop :=
  mieru_key reader = mieru_key writer /\ mieru_read_buffer reader = [] /\ mieru_pending reader = [] /\
  mieru_closed reader = false /\
  if mieru_write_sequence writer =? 0
  then mieru_read_nonce reader = None /\ len (mieru_write_nonce writer) = NONCE_LEN
  else mieru_read_nonce reader = Some (mieru_write_nonce writer).

(** C37: What is written to a Mieru stream arrives: a reader with the same key, over a stream
    that cuts the bytes into whatever pieces it likes but neither fails nor answers WouldBlock,
    gets the bytes that were written and then the end, however much it asks for at a time; from
    the first segment on, which brings the nonce, or from any later one. The clocks of both ends
    stay within five minutes of one moment, so that no segment is taken for an old one. *)
Theorem mieru_stream_roundtrip (writer reader : MieruStream S) (buffer l r : list Z) (turns segments : nat) (amount : Z) :
  writer_ok writer -> mieru_peers writer reader -> holds (mieru_inner writer) l [] -> 0 < amount ->
  len buffer < Z.of_nat turns ->
  exists writer' wire,
    mieru_write buffer writer = (writer', Ok (len buffer)) /\ holds (mieru_inner writer') l wire /\
    (forall inner, holds inner wire r ->
       exists reader', read_all (mieru_read (Datatypes.S segments)) turns amount (reader <| mieru_inner := inner |>) =
                       (reader', Ok buffer)).
Proof.
  intros Hw (Hkey & Hbuf & Hpend & Hclosed & Hnonce) Hh Ha Ht.
  destruct (chunks_spec MAX_TCP_FRAGMENT_LEN buffer eq_refl) as (Hcat & Hne & Hlen).
  destruct (write_chunks_wire _ writer l [] Hw Hne Hlen Hh) as (writer' & bytes & Hwrite & Hwire & Hh').
  cbn [app] in Hh'. set (wire := (if is_empty _ then [] else _) ++ bytes) in Hh'.
  exists writer', wire. split_and!; [|exact Hh'|].
  - unfold mieru_write. destruct buffer; [by injection Hwrite as <-|]. cbn [is_empty].
    by rewrite (bind_ok _ _ _ _ _ Hwrite).
  - intros inner Hi. apply (delivers_all _ mieru_holds); [apply mieru_delivers| |done|done]. right. cbn.
    split; [done|]. exists (mieru_write_nonce writer), (chunks MAX_TCP_FRAGMENT_LEN buffer), bytes, wire, r.
    rewrite Hpend, Hcat, Hkey. split_and!; [done|done| |].
    + intros Hsome. unfold before, nonce_ahead. cbn. rewrite Hbuf. clear Hh'. subst wire. revert Hi. unfold nonce_first.
      destruct (chunks MAX_TCP_FRAGMENT_LEN buffer); [done|]. cbn [is_empty app].
      destruct (mieru_write_sequence writer =? 0); [destruct Hnonce as [-> ?]|rewrite Hnonce]; intros Hi;
        by split_and!.
    + intros Hnil. rewrite Hnil in *. inversion Hwire; subst. cbn in *. by rewrite Hbuf.
Qed.

(** ** The end of the stream inside a segment *)

Lemma read_segment_truncated turns s nonce chunk bytes part missing incoming w :
  before s nonce part incoming w -> sealed_segment (mieru_key s) nonce chunk bytes -> chunk <> [] ->
  bytes = part ++ missing -> missing <> [] -> len incoming < Z.of_nat turns ->
  exists s', read_segment_loop turns s = (s', Err (mkIoError UnexpectedEof "Mieru stream closed before next segment")) /\
    mieru_pending s' = mieru_pending s.
Proof.
  intros Hb Hs Hne Hbytes Hmissing. revert s incoming Hb Hs.
  induction turns as [|turns IH]; intros s incoming Hb Hs Hf; [pose proof (len_nonneg incoming); lia|].
  destruct Hb as (Hbuf & Hn & Hh). cbn [read_segment_loop]. rewrite bind_get.
  pose proof (segment_attempt_spec s nonce chunk bytes [] (incoming ++ missing)) as Ha. cbn zeta in Ha.
  rewrite app_nil_r in Ha. specialize (Ha ltac:(by rewrite Hbytes, !app_assoc, Hbuf) Hn Hs Hne).
  assert (Hlt : len (mieru_read_buffer s) < len (nonce_ahead s nonce) + len bytes).
  { apply (f_equal len) in Hbuf. rewrite Hbytes. rewrite !len_app in *. pose proof (len_nonneg incoming).
    destruct missing as [|x missing]; [done|]. rewrite len_cons. pose proof (len_nonneg missing). lia. }
  replace (len (mieru_read_buffer s) <? _) with true in Ha by lia. rewrite Ha.
  destruct (reliable_read w _ _ 4096 Hh ltac:(lia)) as (i & got & more & Hr & -> & _ & Hend & Hh').
  erewrite bind_ok by (apply mieru_inner_ok; exact Hr). destruct got as [|b got]; cbn [is_empty]; [by eexists|].
  rewrite bind_modify. set (s1 := (s <| mieru_inner := i |>) <| mieru_read_buffer := _ |>).
  destruct (IH s1 more) as (s' & Hread & Hp); [|done| |by exists s'].
  - split_and!; [|done|done]. change (nonce_ahead s1 nonce) with (nonce_ahead s nonce). rewrite <- Hbuf.
    change (mieru_read_buffer s1) with (mieru_read_buffer s ++ b :: got). by rewrite <- app_assoc.
  - rewrite len_app, len_cons in Hf. pose proof (len_nonneg got). lia.
Qed.

(** A stream that ends inside a segment is read as one that was closed: the reader gets the
    end and no error, although bytes of the segment were there. *)
Theorem mieru_truncation_reads_as_end (s : MieruStream S) segments nonce chunk bytes part missing incoming w amount :
  before s nonce part incoming w -> sealed_segment (mieru_key s) nonce chunk bytes -> chunk <> [] ->
  bytes = part ++ missing -> missing <> [] -> len incoming < Z.of_nat SEGMENT_TURNS ->
  mieru_pending s = [] -> mieru_closed s = false -> 0 < amount ->
  exists s', mieru_read (Datatypes.S segments) amount s = (s', Ok []) /\ mieru_closed s' = true.
Proof.
  intros Hb Hs Hne Hbytes Hmissing Hf Hp Hc Ha. unfold mieru_read. replace (amount =? 0) with false by lia.
  destruct (read_segment_truncated _ _ _ _ _ _ _ _ _ Hb Hs Hne Hbytes Hmissing Hf) as (s' & Hread & Hp').
  assert (Hfill : fill_pending (Datatypes.S segments) s = (s' <| mieru_closed := true |>, Ok tt)).
  { cbn [fill_pending]. rewrite Hp, Hc. cbn [is_empty negb orb]. unfold read_next_segment. rewrite Hread.
    by rewrite bool_decide_true by done. }
  rewrite (bind_ok _ _ _ _ _ Hfill), bind_get, bind_modify. cbn. rewrite Hp', Hp.
  eexists. split; [by destruct (Z.to_nat amount)|done].
Qed.

(** ** Datagrams in frames *)

Lemma take_frame_spec packet p q rest :
  len packet <= u16_max -> p ++ q = [UDP_MARKER_START] ++ to_be_bytes 2 (len packet) ++ packet ++ [UDP_MARKER_END] ++ rest ->
  take_udp_frame p =
    if len p <? len packet + 4 then (p, Ok None) else (drop (Z.to_nat (len packet + 4)) p, Ok (Some packet)).
Proof.
  intros Hmax Hp. pose proof (len_nonneg packet).
  destruct (be_bytes_2 (len packet)) as (a & b & E & Hab); [unfold is_u16, u16_max in *; lia|]. rewrite E in Hp.
  unfold take_udp_frame. rewrite bind_modify, bind_get.
  assert (skip_to_marker p = p) as ->.
  { destruct p as [|x p]; [done|]. injection Hp as -> _. done. }
  destruct (len p <? 4) eqn:H4.
  { by replace (len p <? _) with true by lia. }
  destruct p as [|p0 [|p1 [|p2 p]]]; [done|done|done|]. injection Hp as -> -> -> Hp.
  change (sub_list _ 1 3) with [a; b]. rewrite Hab, !len_cons.
  replace (1 + 2 + len packet + 1) with (len packet + 4) by lia.
  destruct (_ <? len packet + 4) eqn:Hl; [done|].
  destruct (prefix_of_read p q (packet ++ [UDP_MARKER_END]) rest) as (tail & -> & _);
    [by rewrite Hp, <- app_assoc|rewrite len_app; change (len [UDP_MARKER_END]) with 1; lia|].
  rewrite <- app_assoc. set (head := [UDP_MARKER_START; a; b]).
  change (UDP_MARKER_START :: a :: b :: packet ++ [UDP_MARKER_END] ++ tail) with (head ++ packet ++ [UDP_MARKER_END] ++ tail).
  erewrite bind_lift_ok.
  2: { replace (len packet + 4 - 1) with (len (head ++ packet)) by (rewrite len_app; change (len head) with 3; lia).
       unfold index. pose proof (len_nonneg (head ++ packet)). replace (0 <=? _) with true by lia.
       unfold len. rewrite Nat2Z.id, app_assoc. cbn [app]. by rewrite list_lookup_middle. }
  cbn [negb Z.eqb]. change (negb (UDP_MARKER_END =? UDP_MARKER_END)) with false. cbn match.
  erewrite bind_lift_ok.
  2: { rewrite slice_ok; [by rewrite (sub_list_app_mid head packet ([UDP_MARKER_END] ++ tail))|lia|lia|].
       rewrite !len_app. change (len head) with 3. pose proof (len_nonneg ([UDP_MARKER_END] ++ tail)).
       rewrite len_app in *. lia. }
  done.
Qed.

Lemma read_frame_spec segments packet turns p s q rest :
  len packet <= u16_max -> mieru_holds s q ->
  p ++ q = [UDP_MARKER_START] ++ to_be_bytes 2 (len packet) ++ packet ++ [UDP_MARKER_END] ++ rest ->
  Z.max 0 (len packet + 4 - len p) < Z.of_nat turns ->
  exists s', read_udp_frame (Datatypes.S segments) turns p s = (s', Ok packet).
Proof.
  intros Hmax. revert p s q. induction turns as [|turns IH]; intros p s q Hs Hp Hf; [lia|].
  cbn [read_udp_frame]. rewrite (take_frame_spec packet p q rest Hmax Hp).
  destruct (len p <? len packet + 4) eqn:Hl; [|by eexists].
  destruct (mieru_delivers segments s q 4096 Hs ltac:(lia)) as (s1 & got & more & Hr & -> & _ & Hend & Hs1).
  rewrite (bind_ok _ _ _ _ _ Hr). destruct got as [|b got]; cbn [is_empty].
  { exfalso. specialize (Hend eq_refl). cbn [app] in *. subst more. apply (f_equal len) in Hp.
    rewrite app_nil_r, len_cons, !len_app, len_cons, len_to_be_bytes in Hp. pose proof (len_nonneg rest). lia. }
  apply (IH _ _ more Hs1).
  - by rewrite <- app_assoc.
  - rewrite len_app, len_cons. pose proof (len_nonneg got). lia.
Qed.

(** A datagram that was put into a frame comes out of the stream as it was, whatever follows
    it there and whatever the pieces in which the stream arrives. *)
Theorem mieru_frame_roundtrip (s : MieruStream S) segments turns packet frame rest :
  encode_udp_frame packet = Ok frame -> mieru_holds s (frame ++ rest) -> len frame < Z.of_nat turns ->
  exists s', read_udp_frame (Datatypes.S segments) turns [] s = (s', Ok packet).
Proof.
  unfold encode_udp_frame. destruct (u16_max <? len packet) eqn:Hmax; [done|]. intros E Hs Ht.
  assert (frame = [UDP_MARKER_START] ++ to_be_bytes 2 (len packet) ++ packet ++ [UDP_MARKER_END]) as -> by congruence.
  eapply (read_frame_spec segments packet turns [] s _ rest); [lia|exact Hs|cbn [app]; by rewrite <- !app_assoc|].
  rewrite !len_app, len_to_be_bytes, !len_cons in Ht. change (len (@nil Z)) with 0 in *. pose proof (len_nonneg packet). lia.
Qed.

End Delivery.

(** ** Nonces *)

Lemma increment_bytes_spec l :
  bytes_ok l -> bytes_ok (increment_bytes l) /\ length (increment_bytes l) = length l /\
  from_be_bytes (rev (increment_bytes l)) = (from_be_bytes (rev l) + 1) mod 256 ^ len l.
Proof.
  assert (Hsnoc : forall k x, from_be_bytes (k ++ [x]) = from_be_bytes k * 256 + x).
  { intros k x. unfold from_be_bytes. by rewrite fold_left_app. }
  induction 1 as [|x l Hx Hl (IHok & IHlen & IH)]; [by split_and!; [apply List.Forall_nil|..]|].
  assert (Hb : 0 <= from_be_bytes (rev l) < 256 ^ len l).
  { pose proof (from_be_bytes_bound (rev l)) as H. unfold len in *. rewrite length_rev in H. apply H.
    apply Forall_rev. exact Hl. }
  cbn [increment_bytes]. rewrite len_cons, Z.pow_add_r by (pose proof (len_nonneg l); lia).
  cbn [rev]. rewrite Hsnoc. unfold is_u8 in Hx. destruct (Z.eqb_spec x 255) as [->|Hne]; cbn [rev length].
  - split_and!; [constructor; [unfold is_u8; lia|done]|by rewrite IHlen|]. rewrite Hsnoc, IH.
    replace (from_be_bytes (rev l) * 256 + 255 + 1) with ((from_be_bytes (rev l) + 1) * 256) by lia.
    rewrite Z.mul_comm, (Z.mul_comm (_ + 1) 256). rewrite Zmult_mod_distr_l. change (256 ^ 1) with 256. lia.
  - split_and!; [constructor; [unfold is_u8; lia|done]|done|]. rewrite Hsnoc, Z.mod_small by nia. lia.
Qed.

Lemma increment_nonce_spec nonce :
  bytes_ok nonce -> bytes_ok (increment_nonce nonce) /\ length (increment_nonce nonce) = length nonce /\
  from_be_bytes (increment_nonce nonce) = (from_be_bytes nonce + 1) mod 256 ^ len nonce.
Proof.
  intros Hn. destruct (increment_bytes_spec (rev nonce)) as (H1 & H2 & H3); [by apply Forall_rev|].
  unfold increment_nonce. rewrite rev_involutive in H3. unfold len in *. rewrite length_rev in *.
  split_and!; [by apply Forall_rev|done|done].
Qed.

Lemma iterated_nonce nonce n :
  bytes_ok nonce -> bytes_ok (Nat.iter n increment_nonce nonce) /\
  length (Nat.iter n increment_nonce nonce) = length nonce /\
  from_be_bytes (Nat.iter n increment_nonce nonce) = (from_be_bytes nonce + Z.of_nat n) mod 256 ^ len nonce.
Proof.
  intros Hn. induction n as [|n (IH1 & IH2 & IH3)].
  - cbn. split_and!; [done|done|]. rewrite Z.add_0_r, Z.mod_small; [done|]. by apply from_be_bytes_bound.
  - change (Nat.iter (S n) increment_nonce nonce) with (increment_nonce (Nat.iter n increment_nonce nonce)).
    destruct (increment_nonce_spec _ IH1) as (H1 & H2 & H3). split_and!; [done|congruence|].
    rewrite H3, IH3. unfold len. rewrite IH2, Z.add_mod_idemp_l by (apply Z.pow_nonzero; lia). f_equal. lia.
Qed.

(** The nonces of a stream are different from each other for as many segments as there are
    nonces, whatever the nonce it begins with. *)
Theorem mieru_nonces_differ nonce i j :
  bytes_ok nonce -> len nonce = NONCE_LEN -> (i < j)%nat -> Z.of_nat j < 256 ^ NONCE_LEN ->
  Nat.iter i increment_nonce nonce <> Nat.iter j increment_nonce nonce.
Proof.
  intros Hn Hl Hij Hj E. apply (f_equal from_be_bytes) in E.
  destruct (iterated_nonce nonce i Hn) as (_ & _ & Hi), (iterated_nonce nonce j Hn) as (_ & _ & Hj').
  rewrite Hi, Hj', Hl in E. pose proof (from_be_bytes_bound nonce Hn) as Hb. rewrite Hl in Hb.
  assert (Hd : (Z.of_nat j - Z.of_nat i) mod 256 ^ NONCE_LEN = 0).
  { replace (Z.of_nat j - Z.of_nat i) with ((from_be_bytes nonce + Z.of_nat j) - (from_be_bytes nonce + Z.of_nat i)) by lia.
    rewrite Zminus_mod, <- E, Z.sub_diag. done. }
  rewrite Z.mod_small in Hd by lia. lia.
Qed.

(** ** Examples *)

Definition sample_mieru_tag (key nonce : list Z) : list Z := zeroed 15 ++ [(from_be_bytes key + from_be_bytes nonce) mod 256].

(** A cipher whose tag depends on the key and the nonce. *)
#[local] Instance sample_mieru_crypto : MieruCrypto := {
  mieru_sha256 bytes := zeroed 32;
  mieru_hmac_sha256 key bytes := zeroed 32;
  xchacha_encrypt key nonce plain := Ok (plain ++ sample_mieru_tag key nonce);
  xchacha_decrypt key nonce sealed :=
    let text := take (length sealed - 16) sealed in
    if bool_decide (drop (length sealed - 16) sealed = sample_mieru_tag key nonce) then Ok text else Err tt
}.

#[local] Instance sample_mieru_aead : MieruAead.
Proof.
  constructor. intros key nonce plain. exists (plain ++ sample_mieru_tag key nonce). cbn.
  rewrite len_app, length_app. split_and!; [done|done|].
  change (length (sample_mieru_tag key nonce)) with 16%nat. replace (length plain + 16 - 16)%nat with (length plain) by lia.
  by rewrite drop_app_length, take_app_length, bool_decide_true.
Qed.

#[local] Instance sample_mieru_system : MieruSystem Segments := { now_unix_secs _ := 1700000000 }.

Definition sample_mieru_stream (inner : Segments) : MieruStream Segments :=
  mkMieruStream inner (zeroed 32) None (zeroed 23 ++ [255]) 7 0 [] [] false.

Lemma mieru_stream_roundtrip_witness :
  exists writer' wire,
    mieru_write [1; 2; 3] (sample_mieru_stream (mkSegments [] [])) = (writer', Ok 3) /\
    holds (mieru_inner writer') [] wire /\
    (forall inner, holds inner wire [] ->
     exists reader', read_all (mieru_read 1) 4 2 (sample_mieru_stream inner) = (reader', Ok [1; 2; 3])).
Proof.
  refine (mieru_stream_roundtrip 28333333 _ (sample_mieru_stream (mkSegments [] []))
    (sample_mieru_stream (mkSegments [] [])) [1; 2; 3] [] [] 4 0 2 _ _ _ _ _).
  - intros s. split; [vm_compute; split; congruence|vm_compute; congruence].
  - split; split; vm_compute; congruence.
  - by split_and!.
  - by repeat split.
  - done.
  - done.
Defined.
