(* ===== verification/ProxyWireSpec.v ===== *)
(** * Handshakes and packets of the outbounds

    The readers of [ProxyWire] against what is written to them, over any stream without
    errors ([receives]): packets of Trojan, and the SOCKS5 client against the messages of
    the SOCKS5 server of [Socks5]. *)

From stdpp Require Import base strings list numbers.
From S2P Require Import Prelude.
From S2P Require Import StdNet.
From S2P Require Import StdIo.
From S2P Require Import TunPacket.
From S2P Require Import Socks5.
From S2P Require Import Relay.
From S2P Require Import StdText.
From S2P Require Import Profile.
From S2P Require Import Codec.
From S2P Require Import CodecSpec.
From S2P Require Import ProxyWire.
From S2P Require Import Framed.
From S2P Require Import StreamSpec.
#[local] Open Scope Z_scope.

Section Receives.
Context {S : Type} {Stream : ByteStream S} {Reliable : ReliableStream S}.

(** The computation reads exactly [bytes] and returns [a]. *)
Definition receives {A} (m : SM S IoError A) (bytes : list Z) (a : A) : Prop :=
  forall s l w, holds s (bytes ++ l) w -> exists s', m s = (s', Ok a) /\ holds s' l w.

Lemma receives_ret {A} (a : A) : receives (sm_ret a) [] a.
Proof. intros s l w Hs. by exists s. Qed.

Lemma receives_bind {A B} (m : SM S IoError A) (k : A -> SM S IoError B) b1 b2 a b :
  receives m b1 a -> receives (k a) b2 b -> receives (sm_bind m k) (b1 ++ b2) b.
Proof.
  intros Hm Hk s l w Hs. rewrite <- app_assoc in Hs. destruct (Hm s _ w Hs) as (s1 & H1 & Hs1).
  rewrite (bind_ok _ _ _ _ _ H1). by apply Hk.
Qed.

Lemma receives_lift {A B} (r : result IoError A) (k : A -> SM S IoError B) bytes a b :
  r = Ok a -> receives (k a) bytes b -> receives (sm_bind (sm_lift r) k) bytes b.
Proof. intros -> Hk. exact Hk. Qed.

(** The last read, and a computation that reads nothing. *)
Lemma receives_last {A B} (m : SM S IoError A) (k : A -> SM S IoError B) bytes a b :
  receives m bytes a -> (forall s, k a s = (s, Ok b)) -> receives (sm_bind m k) bytes b.
Proof.
  intros Hm Hk s l w Hs. destruct (Hm s l w Hs) as (s1 & H1 & Hs1).
  exists s1. by rewrite (bind_ok _ _ _ _ _ H1).
Qed.

Lemma receives_map {A B} (m : SM S IoError A) (f : A -> B) bytes a :
  receives m bytes a -> receives (sm_bind m (fun a => sm_ret (f a))) bytes (f a).
Proof. intros Hm. by eapply receives_last. Qed.

Lemma receives_exact n bytes : n = len bytes -> receives (read_exact n) bytes bytes.
Proof. intros -> s l w Hs. by apply reliable_read_exact. Qed.

Lemma receives_byte b : receives read_byte [b] b.
Proof.
  eapply receives_last; [by apply receives_exact|done].
Qed.

Lemma receives_be16 v : is_u16 v -> receives read_be16 (to_be_bytes 2 v) v.
Proof.
  intros Hv. eapply receives_last; [by apply receives_exact|]. intros s.
  destruct (to_be_bytes_2_ex v) as (a & b & Hab). rewrite Hab.
  erewrite !bind_lift_ok by reflexivity.
  by rewrite <- Hab, from_to_be_bytes_id by (unfold is_u16 in Hv; lia).
Qed.

(** ** Trojan *)

Lemma receives_trojan_target target bytes :
  is_text (ep_host target) -> is_u16 (ep_port target) ->
  encode_trojan_target [] target = Ok bytes ->
  receives read_trojan_packet_target bytes (canonical_endpoint target).
Proof.
  intros Ht Hp. unfold encode_trojan_target, canonical_endpoint. cbn [app].
  apply bare_host_text in Ht. set (host := bare_host (ep_host target)) in *.
  assert (forall atyp body h, receives (read_trojan_packet_host atyp) body h ->
    receives read_trojan_packet_target (atyp :: body ++ to_be_bytes 2 (ep_port target))
      (mkEndpoint h (ep_port target))) as Hall.
  { intros atyp body h Hh. eapply (receives_bind _ _ [_]); [apply receives_byte|].
    eapply receives_bind; [exact Hh|]. apply receives_map. by apply receives_be16. }
  destruct (parse_ipv4 host) as [ip|] eqn:H4.
  { intros <-%Ok_inj. apply (Hall TROJAN_ATYP_IPV4 (v4_octets ip)).
    unfold v4_octets. rewrite <- (from_to_be_bytes_id 4 ip) at 2 by (by eapply parse_ipv4_range).
    apply (receives_map (read_exact 4) (fun ip => v4_to_string (from_be_bytes ip))).
    by apply receives_exact. }
  destruct (parse_ipv6 host) as [ip|] eqn:H6.
  { intros <-%Ok_inj. apply (Hall TROJAN_ATYP_IPV6 (v6_octets ip)).
    unfold v6_octets. rewrite <- (from_to_be_bytes_id 16 ip) at 2 by (by eapply parse_ipv6_range).
    apply (receives_map (read_exact 16) (fun ip => v6_to_string (from_be_bytes ip))).
    by apply receives_exact. }
  destruct (bad_domain host) eqn:Hbad; [done|]. intros <-%Ok_inj.
  unfold bad_domain in Hbad. apply orb_false_iff in Hbad as [_ Hlen].
  pose proof (len_nonneg (as_bytes host)). unfold u8_max in Hlen.
  unfold as_u8. rewrite Z.mod_small by lia.
  apply (Hall TROJAN_ATYP_DOMAIN (len (as_bytes host) :: as_bytes host)).
  eapply (receives_bind read_byte _ [_]); [apply receives_byte|].
  eapply receives_last; [by apply receives_exact|]. by rewrite from_utf8_text.
Qed.

(** A Trojan packet of at most 65535 bytes is read back as it was written, up to the
    canonical form of its address, and nothing after it is read, over any stream without
    errors. *)
Theorem trojan_udp_roundtrip target payload bytes s l w
  (Htext : is_text (ep_host target)) (Hport : is_u16 (ep_port target))
  (Hpacket : encode_trojan_udp_packet target payload = Ok bytes)
  (Hs : holds s (bytes ++ l) w) :
  exists s',
    read_trojan_udp_frame s = (s', Ok (canonical_endpoint target, payload)) /\ holds s' l w.
Proof.
  revert s l w Hs. change (receives read_trojan_udp_frame bytes (canonical_endpoint target, payload)).
  unfold encode_trojan_udp_packet in Hpacket. pose proof (len_nonneg payload).
  destruct (u16_max <? len payload) eqn:Hlen; [done|]. unfold u16_max in Hlen.
  destruct (encode_trojan_target [] target) as [packet|e|] eqn:Ht; [|done|done].
  apply Ok_inj in Hpacket as <-.
  eapply receives_bind; [by apply receives_trojan_target|].
  eapply receives_bind; [apply receives_be16; unfold is_u16; lia|].
  eapply (receives_bind _ _ [13; 10]).
  - eapply receives_last; [by apply receives_exact|]. by rewrite bool_decide_eq_true_2.
  - apply (receives_map (read_exact _) (pair (canonical_endpoint target))). by apply receives_exact.
Qed.

(** ** The SOCKS5 client *)

(** The address a server reads: an address without brackets, or the name as it is. *)
Lemma append_target_wire target bytes :
  append_socks5_target [5; 1; 0] target = Ok bytes ->
  exists address,
    socks5_address_from_target target = Ok address /\
    bytes = wire_request (mkSocks5Request Connect address (target_port target)).
Proof.
  unfold append_socks5_target, socks5_address_from_target, wire_request.
  set (host := bare_host (target_host target)).
  destruct (parse_ipv4 host) as [ip|]; [|destruct (parse_ipv6 host) as [ip|]]; cbn [result_bind].
  - intros <-%Ok_inj. by exists (Socks5_Ipv4 ip).
  - intros <-%Ok_inj. by exists (Socks5_Ipv6 ip).
  - set (name := target_host target). destruct (is_empty (as_bytes name)) eqn:He; [done|].
    destruct (u8_max <? len (as_bytes name)) eqn:Hl; [done|]. cbn [orb result_bind].
    intros <-%Ok_inj. exists (Socks5_Domain name).
    assert (String.eqb name "" = false) as -> by (by destruct name).
    replace (len (as_bytes name) <=? u8_max) with true by lia. split; [done|].
    pose proof (len_nonneg (as_bytes name)). unfold u8_max in *. unfold as_u8. cbn [app address_body].
    by rewrite Z.mod_small by lia.
Qed.

Lemma receives_bound_host address :
  address_ok address ->
  exists host, receives (read_socks5_bound_host (address_type address)) (address_body address) host.
Proof.
  intros Ha. destruct address as [ip|name|ip]; cbn [address_type address_body].
  - eexists. eapply receives_map. by apply receives_exact.
  - destruct Ha as [Hl Hu]. exists name.
    eapply (receives_bind read_byte _ [_]); [apply receives_byte|].
    eapply receives_last; [by apply receives_exact|]. by rewrite from_utf8_text.
  - eexists. eapply receives_map. by apply receives_exact.
Qed.

(** A successful reply of a server (RFC 1928, section 6). *)
Definition wire_reply (address : Socks5Address) (port : Z) : list Z :=
  [5; 0; 0; address_type address] ++ address_body address ++ to_be_bytes 2 port.

Lemma receives_reply operation address port :
  address_ok address -> is_u16 port ->
  exists endpoint, receives (read_socks5_reply_endpoint operation) (wire_reply address port) endpoint.
Proof.
  intros Ha Hp. destruct (receives_bound_host address Ha) as [host Hh].
  exists (mkEndpoint host port). unfold read_socks5_reply_endpoint, wire_reply.
  eapply receives_bind; [by apply receives_exact|].
  do 3 (eapply receives_lift; [reflexivity|]; cbn [negb Z.eqb Pos.eqb]).
  eapply receives_bind; [exact Hh|]. apply receives_map. by apply receives_be16.
Qed.

(** Against a server that asks for no credentials and accepts, the SOCKS5 client sends
    the greeting and exactly the request that a SOCKS5 server reads as a connection to the
    target, and leaves what comes after the reply to the relay. *)
Theorem socks5_client_handshake target credential bytes bound port s l w
  (Hcredential : split_proxy_credential credential = None)
  (Hrequest : append_socks5_target [5; 1; 0] target = Ok bytes)
  (Hbound : address_ok bound) (Hport : is_u16 port)
  (Hs : holds s ([5; 0] ++ wire_reply bound port ++ l) w) :
  exists s' address,
    socks5_connect_proxy target credential s = (s', Ok tt) /\
    socks5_address_from_target target = Ok address /\
    holds s' l (w ++ [5; 1; 0]
                ++ wire_request (mkSocks5Request Connect address (target_port target))).
Proof.
  destruct (append_target_wire target bytes Hrequest) as (address & Ha & ->).
  destruct (reliable_write s _ w [5; 1; 0] Hs) as (s1 & H1 & Hs1).
  destruct (receives_exact 2 [5; 0] eq_refl s1 _ _ Hs1) as (s2 & H2 & Hs2).
  destruct (reliable_write s2 _ _ (wire_request (mkSocks5Request Connect address (target_port target))) Hs2)
    as (s3 & H3 & Hs3).
  destruct (receives_reply "connect" bound port Hbound Hport) as [endpoint Hr].
  destruct (Hr s3 l _ Hs3) as (s4 & H4 & Hs4).
  exists s4, address. rewrite app_assoc. split_and!; [|done|done].
  unfold socks5_connect_proxy. erewrite bind_ok.
  - rewrite Hrequest. rewrite (bind_lift_ok _ _ _ _ eq_refl), (bind_ok _ _ _ _ _ H3).
    by rewrite (bind_ok _ _ _ _ _ H4).
  - unfold socks5_negotiate_proxy. rewrite Hcredential. cbn [is_some].
    rewrite (bind_ok _ _ _ _ _ H1), (bind_ok _ _ _ _ _ H2).
    by erewrite !bind_lift_ok by reflexivity.
Qed.
End Receives.

(** ** Examples *)

(** The packet arrives in two segments, with another byte behind it. *)
Definition trojan_segments : Segments :=
  mkSegments [[1; 192; 0; 2]; [1; 0; 53; 0; 2; 13; 10; 7; 9; 255]] [].

Lemma trojan_udp_roundtrip_witness :
  exists s',
    read_trojan_udp_frame trojan_segments =
      (s', Ok (canonical_endpoint (mkEndpoint "[192.0.2.1]" 53), [7; 9])) /\
    holds s' [255] [].
Proof.
  apply (trojan_udp_roundtrip (Stream := Segments_stream) (mkEndpoint "[192.0.2.1]" 53) [7; 9]
           [1; 192; 0; 2; 1; 0; 53; 0; 2; 13; 10; 7; 9] trojan_segments [255] []).
  - vm_compute. reflexivity.
  - vm_compute. split; congruence.
  - vm_compute. reflexivity.
  - split; [|vm_compute; split; reflexivity]. repeat constructor; discriminate.
Defined.

Definition socks5_segments : Segments :=
  mkSegments [[5]; [0; 5; 0; 0; 1; 127; 0]; [0; 1; 0; 80; 33]] [].

Lemma socks5_client_handshake_witness :
  exists s' address,
    socks5_connect_proxy (OutboundTarget_new "a.b" 443) "" socks5_segments = (s', Ok tt) /\
    socks5_address_from_target (OutboundTarget_new "a.b" 443) = Ok address /\
    holds s' [33] ([] ++ [5; 1; 0] ++ wire_request (mkSocks5Request Connect address 443)).
Proof.
  apply (socks5_client_handshake (Stream := Segments_stream) (OutboundTarget_new "a.b" 443) ""
           [5; 1; 0; 3; 3; 97; 46; 98; 1; 187] (Socks5_Ipv4 2130706433) 80 socks5_segments [33] []).
  - reflexivity.
  - vm_compute. reflexivity.
  - vm_compute. split; congruence.
  - vm_compute. split; congruence.
  - split; [|vm_compute; split; reflexivity]. repeat constructor; discriminate.
Defined.
