(* ===== verification/ScriptedNetwork.v ===== *)
(** * A network with a script

    A concrete instance of the classes the outbounds are parameterised by: every connection
    is a pipe on which the bytes of the script arrive, one name is known, a wait for a
    datagram that the script does not have takes 200 milliseconds,
    random bytes are zero, sessions over datagrams are refused, and the ciphers append a tag
    of zeros. On it the outbounds evaluate. *)

From stdpp Require Import base strings list numbers.
From S2P Require Import Prelude.
From S2P Require Import StdNet.
From S2P Require Import StdIo.
From S2P Require Import Dns.
From S2P Require Import Socks5.
From S2P Require Import Relay.
From S2P Require Import Profile.
From S2P Require Import Codec.
From S2P Require Import ProxyWire.
From S2P Require Import Framed.
From S2P Require Import Vmess.
From S2P Require Import Network.
#[local] Open Scope Z_scope.

(** ** A pipe as a stream *)

#[export] Instance Pipe_relay : OwnedRelayStream Pipe := {
  stream_read n p :=
    if is_empty (incoming p) && bool_decide (io_kind (at_end p) = WouldBlock) then
      (p, Err (at_end p))
    else
      (mkPipe (drop (Z.to_nat n) (incoming p)) (at_end p) (outgoing p),
       Ok (take (Z.to_nat n) (incoming p)));
  stream_write bytes p :=
    (mkPipe (incoming p) (at_end p) (outgoing p ++ bytes), Ok (len bytes));
  stream_flush := sm_ret tt;
  set_nonblocking_mode _ := sm_ret tt;
  shutdown_write := sm_ret tt;
  shutdown_both := sm_ret tt
}.

#[export] Instance Pipe_stream : ByteStream Pipe := {}.

(** ** The script *)

Record Script : Type := mkScript {
  script_bytes : list Z;
  script_datagram : list Z;
  script_now : Z
}.

Definition script_lookup (host : string) : result string (list IpAddr) :=
  if String.eqb host "server.example" then Ok [V4 3221225985] else Err "no such name".

Definition script_pipe (script : Script) : Pipe :=
  mkPipe (script_bytes script) end_of_stream [].

(** A stream whose opening is refused. *)
Definition refused {A} : SM Script IoError A := io_fail Unsupported "not in the script".

#[export] Instance Script_network : Network Script := {
  TcpStream := Pipe;
  connect_timeout _ _ script := (script, Ok (script_pipe script));
  set_nodelay _ := sm_ret tt;
  peer_addr _ := Ok (mkSocketAddr (V4 3221225985) 443);
  set_read_timeout _ := sm_ret tt;
  set_write_timeout _ := sm_ret tt;
  UdpSocket := unit;
  udp_bind _ := sm_ret tt;
  udp_set_read_timeout _ _ := sm_ret tt;
  udp_set_write_timeout _ _ := sm_ret tt;
  udp_send_to _ bytes _ := sm_ret (len bytes);
  udp_recv_from _ _ script :=
    if is_empty (script_datagram script) then
      (mkScript (script_bytes script) [] (script_now script + 200000000), Err no_data_yet)
    else (script, Ok (script_datagram script, mkSocketAddr (V4 3221225985) 53));
  instant_now := script_now;
  unix_timestamp _ := 0;
  fill_bytes n script := (script, repeat 0 (Z.to_nat n));
  to_socket_addrs _ := script_lookup;
  TlsTcpStream := Pipe;
  TlsTcpStream_connect stream _ _ := Ok stream;
  WebSocketClientStream := Pipe;
  WebSocketClientStream_connect stream _ _ := sm_ret stream;
  OwnedWebSocketStream := Pipe;
  OwnedWebSocketClientStream_connect stream _ _ := sm_ret stream;
  GrpcTcpStream := Pipe;
  GrpcTcpStream_connect_plain stream _ _ := sm_ret stream;
  GrpcTcpStream_connect_tls stream _ _ _ _ := sm_ret stream;
  Http2TcpStream := Pipe;
  Http2TcpStream_connect_plain stream _ _ := sm_ret stream;
  Http2TcpStream_connect_tls stream _ _ _ _ := sm_ret stream;
  LegacyQuicTcpStream := Pipe;
  LegacyQuicTcpStream_connect _ _ _ _ _ _ script := (script, Ok (script_pipe script));
  Hy2BlockingTcpStream := Pipe;
  Hy2BlockingTcpStream_connect _ _ _ _ _ _ _ _ _ := refused;
  Hy2ClientSession_relay_udp _ _ _ _ _ _ _ _ _ _ := refused;
  TuicBlockingTcpStream := Pipe;
  TuicBlockingTcpStream_connect _ _ _ _ _ _ _ := refused;
  TuicClientSession_relay_udp _ _ _ _ _ _ _ _ _ _ _ := refused;
  NaiveH2TcpStream := Pipe;
  NaiveH2TcpStream_connect _ _ _ _ _ := refused;
  NaiveH3QuicStream := Pipe;
  NaiveH3QuicStream_connect _ _ _ _ _ _ _ := refused;
  MieruTcpStream := Pipe;
  MieruTcpStream_connect _ _ _ _ := refused;
  mieru_clear_timeouts := sm_ret tt;
  MieruTcpStream_udp_associate _ _ _ := refused;
  mieru_write_udp_datagram _ _ := sm_ret tt;
  mieru_read_udp_datagram _ := io_fail Unsupported "not in the script";
  utf8_error _ := "not UTF-8";
  socks5_error _ := "SOCKS5";
  address_error host := host;
  utf8_lossy bytes := string_of_bytes bytes;
  base64_encode bytes := string_of_bytes bytes;
  sha224 _ := repeat 0 28;
  crate_version := "0";
  frame_limit := 16
}.

(** ** Ciphers *)

Definition zero_tag : list Z := repeat 0 16.

(** The text in front of a tag that is right. *)
Definition remove_tag (ciphertext : list Z) : option (list Z) :=
  let n := (length ciphertext - 16)%nat in
  if (16 <=? len ciphertext) && bool_decide (drop n ciphertext = zero_tag)
  then Some (take n ciphertext) else None.

#[export] Instance Script_shadowsocks : ShadowsocksCrypto := {
  CipherKind := unit;
  Cipher := unit;
  parse_cipher_kind name :=
    if String.eqb (to_ascii_lowercase name) "aes-128-gcm" then Ok tt else Err "no such cipher";
  kind_is_aead _ := true;
  kind_name _ := "aes-128-gcm";
  key_len _ := 16;
  salt_len _ := 16;
  kind_tag_len _ := 16;
  openssl_bytes_to_key _ n := repeat 0 (Z.to_nat n);
  Cipher_new _ _ _ := tt;
  tag_len _ := 16;
  encrypt_packet cipher buffer := (cipher, buffer);
  decrypt_packet cipher buffer :=
    (cipher, if decide (is_Some (remove_tag buffer)) then Some buffer else None)
}.

#[export] Instance Script_vmess : VmessCrypto := {
  Xof := unit;
  shake128 _ := tt;
  xof_read x n := (x, repeat 0 (Z.to_nat n));
  aes128_gcm_encrypt _ _ plaintext _ := Ok (plaintext ++ zero_tag);
  aes128_gcm_decrypt _ _ ciphertext _ := ok_or tt (remove_tag ciphertext);
  chacha20_poly1305_encrypt _ _ plaintext := Ok (plaintext ++ zero_tag);
  chacha20_poly1305_decrypt _ _ ciphertext := ok_or tt (remove_tag ciphertext);
  aes128_encrypt_block _ block := block;
  md5 _ := repeat 0 16;
  sha256 _ := repeat 0 32;
  hmac_sha256 _ _ := repeat 0 32;
  crc32 _ := 0
}.
