(* ===== verification/FramedSpec.v ===== *)
(** * What the framed streams deliver

    AnyTLS, Shadowsocks and VMess put the bytes of a connection into frames. For each of
    them: over a stream that delivers the frames in whatever pieces it likes, a reader with
    the same keys gets exactly the bytes that were written. On a non-blocking stream, a
    frame that has arrived in part is lost.

    What the ciphers promise is an interface; the ciphers of [ScriptedNetwork] satisfy it. *)

From stdpp Require Import base strings list numbers.
From S2P Require Import Prelude.
From S2P Require Import StdIo.
From S2P Require Import Relay.
From S2P Require Import ProxyWire.
From S2P Require Import Framed.
From S2P Require Import StreamSpec.
From S2P Require Import ScriptedNetwork.
#[local] Open Scope Z_scope.

(** ** VMess *)

(** What the code relies on in the ciphers and in SHAKE-128: opening undoes sealing, the
    tag has 16 bytes, and a mask has two bytes. *)
Class VmessAead {Crypto : VmessCrypto} : Prop := {
  aes_seal_open key nonce plain aad :
    exists sealed, aes128_gcm_encrypt key nonce plain aad = Ok sealed /\
      len sealed = len plain + 16 /\ aes128_gcm_decrypt key nonce sealed aad = Ok plain;
  chacha_seal_open key nonce plain :
    exists sealed, chacha20_poly1305_encrypt key nonce plain = Ok sealed /\
      len sealed = len plain + 16 /\ chacha20_poly1305_decrypt key nonce sealed = Ok plain;
  mask_bytes x : exists x' a b, xof_read x 2 = (x', [a; b]) /\ is_u8 a /\ is_u8 b
}.

Section Vmess.
Context {Crypto : VmessCrypto} {Aead : VmessAead}.
Context {S : Type} {Stream : ByteStream S} {Reliable : ReliableStream S}.

Lemma vmess_body_seal_open security key nonce plain :
  security <> VmessBody_None ->
  exists sealed, vmess_body_seal security key nonce plain = Ok sealed /\
    len sealed = len plain + 16 /\ vmess_body_open security key nonce sealed = Ok plain.
Proof.
  intros Hs. destruct security; try done; cbn [vmess_body_seal vmess_body_open].
  - destruct (aes_seal_open key nonce plain []) as (sealed & H1 & H2 & H3).
    exists sealed. unfold vmess_aes_gcm_seal, vmess_aes_gcm_open. by rewrite H1, H3.
  - destruct (chacha_seal_open (vmess_chacha20_poly1305_key key) nonce plain) as (sealed & H1 & H2 & H3).
    exists sealed. unfold vmess_chacha20_poly1305_seal, vmess_chacha20_poly1305_open.
    by rewrite H1, H3.
Qed.

Lemma vmess_nonce_ok iv counter :
  12 <= len iv -> exists nonce, vmess_body_nonce iv counter = Ok nonce.
Proof.
  intros Hiv. unfold vmess_body_nonce. rewrite slice_ok by lia. cbn [result_bind].
  unfold copy_range. rewrite len_sub_list, len_to_be_bytes by lia. by eexists.
Qed.

Lemma vmess_inner_ok {A} (m : SM S IoError A) s i a :
  m (vmess_inner s) = (i, Ok a) -> vmess_on_inner m s = (s <| vmess_inner := i |>, Ok a).
Proof. intros H. unfold vmess_on_inner, sm_zoom. by rewrite H. Qed.

(** The frames of a list of chunks, from a counter and a mask on. *)
Inductive vmess_wire (security : VmessBodySecurity) (key iv : list Z)
  : Z -> Xof -> list (list Z) -> list Z -> Prop :=
| vmess_wire_nil counter mask : vmess_wire security key iv counter mask [] []
| vmess_wire_cons counter mask mask' m nonce chunk sealed chunks bytes :
    vmess_body_nonce iv counter = Ok nonce ->
    vmess_body_seal security key nonce chunk = Ok sealed ->
    vmess_body_open security key nonce sealed = Ok chunk ->
    len sealed <= u16_max ->
    vmess_next_chunk_mask mask = (mask', m) -> is_u16 m ->
    vmess_wire security key iv (wrapping_add16 counter 1) mask' chunks bytes ->
    vmess_wire security key iv counter mask (chunk :: chunks)
      (to_be_bytes 2 (Z.lxor (len sealed) m) ++ sealed ++ bytes).

Lemma vmess_mask_ok mask : exists mask' m, vmess_next_chunk_mask mask = (mask', m) /\ is_u16 m.
Proof.
  destruct (mask_bytes mask) as (mask' & a & b & H & Ha & Hb). unfold vmess_next_chunk_mask.
  rewrite H. eauto using from_be_bytes_u16.
Qed.

(** Writing chunks puts their frames on the stream. *)
Lemma vmess_write_chunks_wire chunks s l w :
  vmess_security s <> VmessBody_None -> 12 <= len (vmess_write_iv s) ->
  Forall (fun chunk => len chunk <= VMESS_WRITE_CHUNK_SIZE) chunks ->
  holds (vmess_inner s) l w ->
  exists s' bytes,
    vmess_write_chunks chunks s = (s', Ok tt) /\
    vmess_wire (vmess_security s) (vmess_write_key s) (vmess_write_iv s) (vmess_write_counter s)
      (vmess_write_mask s) chunks bytes /\
    holds (vmess_inner s') l (w ++ bytes).
Proof.
  intros Hsec Hiv Hall. revert s w Hsec Hiv.
  induction Hall as [|chunk chunks Hc Hall IH]; intros s w Hsec Hiv Hh.
  { exists s, []. rewrite app_nil_r. repeat split; [constructor|done]. }
  destruct (vmess_nonce_ok (vmess_write_iv s) (vmess_write_counter s) Hiv) as [nonce Hn].
  destruct (vmess_body_seal_open (vmess_security s) (vmess_write_key s) nonce chunk Hsec)
    as (sealed & Hseal & Hlen & Hopen).
  destruct (vmess_mask_ok (vmess_write_mask s)) as (mask' & m & Hm & Hm16).
  destruct (reliable_write (vmess_inner s) l w (to_be_bytes 2 (Z.lxor (len sealed) m)) Hh)
    as (i1 & Hw1 & Hh1).
  destruct (reliable_write i1 l _ sealed Hh1) as (i2 & Hw2 & Hh2).
  pose (s1 := s <| vmess_write_counter := wrapping_add16 (vmess_write_counter s) 1 |>
                <| vmess_write_mask := mask' |> <| vmess_inner := i2 |>).
  assert (vmess_write_chunk chunk s = (s1, Ok tt)) as Hchunk.
  { unfold vmess_write_chunk. rewrite bind_get, (bind_lift_ok _ _ _ _ Hn), bind_modify.
    rewrite (bind_lift_ok _ _ _ _ Hseal).
    replace (u16_max <? len sealed) with false by (unfold u16_max, VMESS_WRITE_CHUNK_SIZE in *; lia).
    rewrite Hm, bind_modify. erewrite bind_ok by (apply vmess_inner_ok; exact Hw1).
    by erewrite vmess_inner_ok by exact Hw2. }
  destruct (IH s1 (w ++ to_be_bytes 2 (Z.lxor (len sealed) m) ++ sealed)) as (s2 & bytes & H2 & Hwire & Hh3);
    [done..|by rewrite app_assoc|].
  exists s2, (to_be_bytes 2 (Z.lxor (len sealed) m) ++ sealed ++ bytes).
  split; [|split].
  - cbn [vmess_write_chunks]. by rewrite (bind_ok _ _ _ _ _ Hchunk).
  - econstructor; try done. unfold u16_max, VMESS_WRITE_CHUNK_SIZE in *; lia.
  - by rewrite !app_assoc, <- (app_assoc w).
Qed.

(** What a VMess stream still has to deliver: the rest of its buffer and the chunks whose
    frames are on their way. *)
Definition vmess_holds (s : VmessAeadStream Xof S) (l : list Z) : Prop :=
  exists chunks bytes w,
    buffered (vmess_read_buffer s) (vmess_read_offset s) (concat chunks) l /\
    Forall (fun chunk => chunk <> []) chunks /\
    vmess_wire (vmess_security s) (vmess_read_key s) (vmess_read_iv s) (vmess_read_counter s)
      (vmess_read_mask s) chunks bytes /\
    holds (vmess_inner s) bytes w.

Lemma vmess_next_chunk s chunk chunks bytes w :
  chunk <> [] ->
  vmess_wire (vmess_security s) (vmess_read_key s) (vmess_read_iv s) (vmess_read_counter s)
    (vmess_read_mask s) (chunk :: chunks) bytes ->
  holds (vmess_inner s) bytes w ->
  exists s' bytes',
    vmess_read_next_chunk s = (s', Ok true) /\
    vmess_read_buffer s' = chunk /\ vmess_read_offset s' = 0 /\
    vmess_wire (vmess_security s') (vmess_read_key s') (vmess_read_iv s') (vmess_read_counter s')
      (vmess_read_mask s') chunks bytes' /\
    holds (vmess_inner s') bytes' w.
Proof.
  intros Hne Hwire Hh.
  inversion Hwire as [|? ? mask' m nonce ? sealed ? rest Hn Hseal Hopen Hlen Hm Hm16 Hrest]; subst.
  destruct (read_exact_or_eof_spec (vmess_inner s) _ _ w Hh) as (i1 & H1 & Hh1).
  rewrite len_to_be_bytes in H1. cbn [Z.of_nat Pos.of_succ_nat Pos.succ] in H1.
  destruct (reliable_read_exact i1 sealed rest w Hh1) as (i2 & H2 & Hh2).
  assert (Z.lxor (from_be_bytes (to_be_bytes 2 (Z.lxor (len sealed) m))) m = len sealed) as Hx.
  { rewrite from_to_be_bytes_id, Z.lxor_assoc, Z.lxor_nilpotent, Z.lxor_0_r; [done|].
    change (256 ^ Z.of_nat 2) with (2 ^ 16). pose proof (len_nonneg sealed).
    apply lxor_range; unfold u16_max, is_u16 in *; lia. }
  eexists _, rest. unfold vmess_read_next_chunk.
  erewrite bind_ok by (apply vmess_inner_ok; exact H1). cbn beta iota.
  rewrite bind_get.
  change (vmess_read_mask (s <| vmess_inner := i1 |>)) with (vmess_read_mask s).
  rewrite Hm, bind_modify, Hx.
  erewrite bind_ok by (apply vmess_inner_ok; exact H2).
  erewrite bind_lift_ok by exact Hn. rewrite bind_modify.
  erewrite bind_lift_ok by exact Hopen. rewrite bind_modify.
  split; [destruct chunk; [done|reflexivity]|]. by repeat split.
Qed.

Lemma vmess_next_chunk_end s w :
  holds (vmess_inner s) [] w ->
  exists i, vmess_read_next_chunk s = (s <| vmess_inner := i |>, Ok false) /\ holds i [] w.
Proof.
  intros Hh. destruct (read_exact_or_eof_end (vmess_inner s) w 2 Hh) as (i & Hi & Hh'); [lia|].
  exists i. unfold vmess_read_next_chunk. by erewrite bind_ok by (apply vmess_inner_ok; exact Hi).
Qed.

(** Reading what is in the buffer. *)
Lemma vmess_deliver_buffer s n chunks bytes w l :
  0 < n -> buffered (vmess_read_buffer s) (vmess_read_offset s) (concat chunks) l ->
  Forall (fun chunk => chunk <> []) chunks ->
  vmess_wire (vmess_security s) (vmess_read_key s) (vmess_read_iv s) (vmess_read_counter s)
    (vmess_read_mask s) chunks bytes ->
  holds (vmess_inner s) bytes w ->
  vmess_read_offset s < len (vmess_read_buffer s) ->
  exists s' got rest,
    (bytes <-! sm_lift (take_buffered (vmess_read_buffer s) (vmess_read_offset s) n);
     do! sm_modify (fun s => s <| vmess_read_offset := vmess_read_offset s + len bytes |>);
     sm_ret bytes) s = (s', Ok got) /\
    l = got ++ rest /\ len got <= n /\ (got = [] -> l = []) /\ vmess_holds s' rest.
Proof.
  intros Hn Hb Hne Hwire Hh Hoff.
  destruct (buffered_take _ _ _ _ n Hb Hn Hoff) as (got & rest & Ht & -> & Hlen & Hgot & Hb').
  erewrite bind_lift_ok by exact Ht. rewrite bind_modify.
  eexists _, got, rest. split; [reflexivity|]. split_and!; [done..|].
  by exists chunks, bytes, w.
Qed.

Lemma vmess_delivers : delivers vmess_read vmess_holds.
Proof.
  intros s l n (chunks & bytes & w & Hb & Hne & Hwire & Hh) Hn. unfold vmess_read.
  replace (n =? 0) with false by lia. rewrite bind_get.
  destruct (len (vmess_read_buffer s) <=? vmess_read_offset s) eqn:Hoff.
  - assert (l = concat chunks) as -> by (eapply buffered_end; [exact Hb|lia]).
    destruct chunks as [|chunk chunks].
    + inversion Hwire; subst. destruct (vmess_next_chunk_end s w Hh) as (i & Hi & Hh').
      rewrite (bind_ok _ _ _ _ _ Hi). eexists _, [], []. split; [reflexivity|].
      rewrite len_nil. split_and!; [reflexivity|lia|done|]. exists [], [], w. cbn.
      split_and!; [exact Hb|constructor|constructor|done].
    + inversion_clear Hne as [|? ? Hc Hcs].
      destruct (vmess_next_chunk s chunk chunks bytes w Hc Hwire Hh)
        as (s1 & bytes' & H1 & Hbuf & Ho & Hwire' & Hh').
      rewrite (bind_ok _ _ _ _ _ H1). cbn [negb]. rewrite bind_get.
      eapply vmess_deliver_buffer; try done; rewrite Hbuf, Ho; [by apply buffered_fresh|].
      destruct chunk; [done|]. rewrite len_cons. pose proof (len_nonneg chunk). lia.
  - rewrite bind_ret. cbn [negb]. rewrite bind_get. eapply vmess_deliver_buffer; try done. lia.
Qed.
End Vmess.

(** ** A VMess connection *)

Section VmessRoundtrip.
Context {Crypto : VmessCrypto} {Aead : VmessAead}.
Context {S : Type} {Stream : ByteStream S} {Reliable : ReliableStream S}.

(** The reader has the keys, the counter and the mask of the writer, and has not read
    anything that it has not delivered. *)
Definition vmess_peers (writer reader : VmessAeadStream Xof S) : Prop :=
  vmess_security reader = vmess_security writer /\
  vmess_read_key reader = vmess_write_key writer /\
  vmess_read_iv reader = vmess_write_iv writer /\
  vmess_read_counter reader = vmess_write_counter writer /\
  vmess_read_mask reader = vmess_write_mask writer /\
  vmess_read_buffer reader = [] /\ vmess_read_offset reader = 0.

(** C36: Whatever is written to a VMess stream with an AEAD body security (not none), of
    whatever length, arrives, over a stream below that carries all bytes without an error and
    whose reads wait for bytes instead of answering WouldBlock: a reader with the same keys,
    however that stream cuts the bytes into pieces and however much is asked for at a time, gets
    the bytes that were written and then the end of the stream. (On a stream that may answer
    WouldBlock in the middle of a frame this does not hold: the frame is lost.) *)
Theorem vmess_stream_roundtrip writer reader buffer l r turns amount
  (Hsecurity : vmess_security writer <> VmessBody_None)
  (Hiv : 12 <= len (vmess_write_iv writer))
  (Hpeers : vmess_peers writer reader)
  (Hwriter : holds (vmess_inner writer) l [])
  (Hamount : 0 < amount)
  (Hturns : len buffer < Z.of_nat turns) :
  exists writer' wire,
    vmess_write buffer writer = (writer', Ok (len buffer)) /\
    holds (vmess_inner writer') l wire /\
    (forall inner, holds inner wire r ->
     exists reader', read_all vmess_read turns amount (reader <| vmess_inner := inner |>) =
                     (reader', Ok buffer)).
Proof.
  destruct (chunks_spec VMESS_WRITE_CHUNK_SIZE buffer eq_refl) as (Hcat & Hne & Hlen).
  destruct (vmess_write_chunks_wire _ writer l [] Hsecurity Hiv Hlen Hwriter)
    as (writer' & wire & Hw & Hwire & Hh).
  exists writer', wire. split_and!; [|done|].
  - unfold vmess_write. destruct buffer; [by injection Hw as <-|].
    cbn [is_empty]. by rewrite (bind_ok _ _ _ _ _ Hw).
  - intros inner Hr. destruct Hpeers as (H1 & H2 & H3 & H4 & H5 & H6 & H7).
    apply (delivers_all vmess_read vmess_holds); [exact vmess_delivers| |done|done].
    exists (chunks VMESS_WRITE_CHUNK_SIZE buffer), wire, r. cbn.
    rewrite H1, H2, H3, H4, H5, H6, H7, Hcat. split_and!; [apply (buffered_fresh []) |done..].
Qed.
End VmessRoundtrip.

(** ** Shadowsocks *)

(** What the code relies on in a cipher: two ciphers opened with the same key and salt stay
    in step, packet by packet, and a packet is longer than its text by the tag. *)
Class ShadowsocksAead {Crypto : ShadowsocksCrypto} := {
  in_step : Cipher -> Cipher -> Prop;
  new_in_step kind key salt : in_step (Cipher_new kind key salt) (Cipher_new kind key salt);
  in_step_tag e d : in_step e d -> tag_len e = tag_len d /\ 0 <= tag_len d;
  in_step_packet e d plain :
    in_step e d ->
    exists e' d' packet tail,
      encrypt_packet e (plain ++ zeroed (tag_len e)) = (e', packet) /\
      len packet = len plain + tag_len e /\
      decrypt_packet d packet = (d', Some (plain ++ tail)) /\ in_step e' d' /\
      tag_len d' = tag_len d
}.

Section Shadowsocks.
Context {Crypto : ShadowsocksCrypto} {Aead : ShadowsocksAead}.
Context {S : Type} {Stream : ByteStream S} {Reliable : ReliableStream S}.

Abbreviation SsStream := (ShadowsocksTcpStream CipherKind Cipher S).

Lemma ss_inner_ok {A} (m : SM S IoError A) (s : SsStream) i a :
  m (ss_inner s) = (i, Ok a) -> ss_on_inner m s = (s <| ss_inner := i |>, Ok a).
Proof. intros H. unfold ss_on_inner, sm_zoom. by rewrite H. Qed.

(** The packets of a list of chunks, as a cipher in step with the writer's reads them. *)
Inductive ss_wire : Cipher -> list (list Z) -> list Z -> Prop :=
| ss_wire_nil d : 0 <= tag_len d -> ss_wire d [] []
| ss_wire_cons d d1 d2 head body tail1 tail2 chunk chunks bytes :
    len head = 2 + tag_len d -> 0 <= tag_len d ->
    decrypt_packet d head = (d1, Some (to_be_bytes 2 (len chunk) ++ tail1)) ->
    len body = len chunk + tag_len d ->
    decrypt_packet d1 body = (d2, Some (chunk ++ tail2)) ->
    is_u16 (len chunk) ->
    ss_wire d2 chunks bytes ->
    ss_wire d (chunk :: chunks) (head ++ body ++ bytes).

Lemma ss_write_packet_ok (s : SsStream) d plain l w :
  in_step (ss_encrypt_cipher s) d -> holds (ss_inner s) l w ->
  exists s' d' packet tail,
    ss_write_packet plain s = (s', Ok tt) /\ holds (ss_inner s') l (w ++ packet) /\
    len packet = len plain + tag_len d /\
    decrypt_packet d packet = (d', Some (plain ++ tail)) /\
    in_step (ss_encrypt_cipher s') d' /\ tag_len d' = tag_len d.
Proof.
  intros Hs Hh. destruct (in_step_packet _ _ plain Hs) as (e' & d' & packet & tail & He & Hl & Hd & Hs' & Ht).
  destruct (reliable_write _ l w packet Hh) as (i & Hi & Hh').
  exists (s <| ss_encrypt_cipher := e' |> <| ss_inner := i |>), d', packet, tail.
  split_and!; try done.
  - unfold ss_write_packet. rewrite bind_get, He, bind_modify. by erewrite ss_inner_ok by exact Hi.
  - by rewrite Hl, (proj1 (in_step_tag _ _ Hs)).
Qed.

Lemma ss_write_chunks_wire chunks (s : SsStream) d l w :
  Forall (fun chunk => len chunk <= u16_max) chunks ->
  in_step (ss_encrypt_cipher s) d -> holds (ss_inner s) l w ->
  exists s' bytes,
    ss_write_chunks chunks s = (s', Ok tt) /\ ss_wire d chunks bytes /\
    holds (ss_inner s') l (w ++ bytes).
Proof.
  intros Hall. revert s d w. induction Hall as [|chunk chunks Hc Hall IH]; intros s d w Hs Hh.
  { exists s, []. rewrite app_nil_r. repeat split; [|done].
    constructor. exact (proj2 (in_step_tag _ _ Hs)). }
  pose proof (len_nonneg chunk). unfold u16_max in Hc.
  destruct (ss_write_packet_ok s d (to_be_bytes 2 (len chunk)) l w Hs Hh)
    as (s1 & d1 & head & tail1 & H1 & Hh1 & Hl1 & Hd1 & Hs1 & Ht1).
  destruct (ss_write_packet_ok s1 d1 chunk l _ Hs1 Hh1)
    as (s2 & d2 & body & tail2 & H2 & Hh2 & Hl2 & Hd2 & Hs2 & Ht2).
  destruct (IH s2 d2 _ Hs2 Hh2) as (s3 & bytes & H3 & Hwire & Hh3).
  exists s3, (head ++ body ++ bytes). split_and!.
  - cbn [ss_write_chunks]. unfold ss_write_chunk.
    replace (as_u16 (len chunk)) with (len chunk) by (unfold as_u16; rewrite Z.mod_small; lia).
    erewrite bind_ok; [exact H3|]. by rewrite (bind_ok _ _ _ _ _ H1).
  - rewrite len_to_be_bytes in Hl1. rewrite Ht1 in Hl2.
    econstructor; try done; [exact (proj2 (in_step_tag _ _ Hs))|unfold is_u16; lia].
  - by rewrite <- !app_assoc in Hh3.
Qed.

(** A Shadowsocks stream that waits for the salt, or has its cipher. *)
Definition ss_arriving (s : SsStream) (chunks : list (list Z)) (bytes : list Z) : Prop :=
  match ss_decrypt_cipher s with
  | Some d => ss_wire d chunks bytes
  | None =>
      exists salt bytes',
        bytes = salt ++ bytes' /\ len salt = salt_len (ss_cipher_kind s) /\
        ss_wire (Cipher_new (ss_cipher_kind s) (ss_key s) salt) chunks bytes'
  end.

Definition ss_holds (s : SsStream) (l : list Z) : Prop :=
  exists chunks bytes w,
    buffered (ss_read_buffer s) (ss_read_offset s) (concat chunks) l /\
    Forall (fun chunk => chunk <> []) chunks /\ ss_arriving s chunks bytes /\
    holds (ss_inner s) bytes w.

Lemma ss_open_ok (s : SsStream) chunks bytes w :
  ss_arriving s chunks bytes -> holds (ss_inner s) bytes w ->
  exists s' d bytes',
    ss_open_decrypt_cipher s = (s', Ok true) /\ ss_decrypt_cipher s' = Some d /\
    ss_wire d chunks bytes' /\ holds (ss_inner s') bytes' w /\
    ss_read_buffer s' = ss_read_buffer s /\ ss_read_offset s' = ss_read_offset s.
Proof.
  unfold ss_arriving, ss_open_decrypt_cipher. rewrite bind_get.
  destruct (ss_decrypt_cipher s) as [d|] eqn:Hd.
  { intros Hw Hh. by exists s, d, bytes. }
  intros (salt & bytes' & -> & Hl & Hw) Hh.
  destruct (read_exact_or_eof_spec (ss_inner s) salt bytes' w Hh) as (i & Hi & Hh').
  rewrite Hl in Hi. erewrite bind_ok by (apply ss_inner_ok; exact Hi). cbn beta iota.
  rewrite bind_modify. eexists _, _, bytes'. split; [reflexivity|]. by cbn.
Qed.

Lemma ss_decrypt_ok (s : SsStream) d d' packet plain error :
  ss_decrypt_cipher s = Some d -> decrypt_packet d packet = (d', Some plain) ->
  ss_decrypt packet error s = (s <| ss_decrypt_cipher := Some d' |>, Ok plain).
Proof. intros Hd Hp. unfold ss_decrypt. by rewrite bind_get, Hd, Hp. Qed.

Lemma ss_next_chunk (s : SsStream) chunk chunks bytes w :
  ss_arriving s (chunk :: chunks) bytes -> holds (ss_inner s) bytes w ->
  exists s' bytes',
    ss_read_next_chunk s = (s', Ok true) /\ ss_read_buffer s' = chunk /\ ss_read_offset s' = 0 /\
    ss_arriving s' chunks bytes' /\ holds (ss_inner s') bytes' w.
Proof.
  intros Ha Hh. destruct (ss_open_ok s _ _ w Ha Hh) as (s1 & d & bytes1 & H1 & Hd & Hwire & Hh1 & _).
  inversion Hwire as [|? d1 d2 head body tail1 tail2 ? ? rest Hl1 Ht Hp1 Hl2 Hp2 H16 Hrest]; subst.
  destruct (read_exact_or_eof_spec (ss_inner s1) head _ w Hh1) as (i1 & Hi1 & Hh2).
  destruct (read_exact_or_eof_spec i1 body rest w Hh2) as (i2 & Hi2 & Hh3).
  rewrite Hl1 in Hi1. rewrite Hl2 in Hi2.
  eexists _, rest. unfold ss_read_next_chunk. rewrite (bind_ok _ _ _ _ _ H1). cbn [negb].
  erewrite bind_ok by (unfold ss_tag_len; rewrite bind_get, Hd; reflexivity).
  erewrite bind_ok by (apply ss_inner_ok; exact Hi1). cbn beta iota.
  erewrite bind_ok by (eapply ss_decrypt_ok; [exact Hd|exact Hp1]).
  destruct (to_be_bytes_2_ex (len chunk)) as (a & b & Hab). rewrite Hab. cbn [app].
  erewrite !bind_lift_ok by reflexivity.
  rewrite <- Hab, from_to_be_bytes_id by (unfold is_u16 in H16; lia).
  erewrite bind_ok by (apply ss_inner_ok; exact Hi2). cbn beta iota.
  erewrite bind_ok by (eapply ss_decrypt_ok; [reflexivity|exact Hp2]). rewrite bind_modify.
  split; [reflexivity|]. split_and!; [|done..].
  cbn. unfold len. by rewrite Nat2Z.id, take_app_length.
Qed.

Lemma ss_next_chunk_end (s : SsStream) bytes w :
  ss_arriving s [] bytes -> holds (ss_inner s) bytes w ->
  exists s' bytes',
    ss_read_next_chunk s = (s', Ok false) /\ ss_read_buffer s' = ss_read_buffer s /\
    ss_read_offset s' = ss_read_offset s /\ ss_arriving s' [] bytes' /\
    holds (ss_inner s') bytes' w.
Proof.
  intros Ha Hh.
  destruct (ss_open_ok s _ _ w Ha Hh) as (s1 & d & bytes1 & H1 & Hd & Hwire & Hh1 & Hb & Ho).
  inversion Hwire as [? Ht|]; subst.
  destruct (read_exact_or_eof_end (ss_inner s1) w (2 + tag_len d) Hh1) as (i & Hi & Hh2); [lia|].
  eexists _, []. unfold ss_read_next_chunk. rewrite (bind_ok _ _ _ _ _ H1). cbn [negb].
  erewrite bind_ok by (unfold ss_tag_len; rewrite bind_get, Hd; reflexivity).
  erewrite bind_ok by (apply ss_inner_ok; exact Hi). split; [reflexivity|].
  split_and!; [done..| |done]. unfold ss_arriving. cbn. by rewrite Hd.
Qed.

Lemma ss_deliver_buffer (s : SsStream) n chunks bytes w l :
  0 < n -> buffered (ss_read_buffer s) (ss_read_offset s) (concat chunks) l ->
  Forall (fun chunk => chunk <> []) chunks -> ss_arriving s chunks bytes ->
  holds (ss_inner s) bytes w -> ss_read_offset s < len (ss_read_buffer s) ->
  exists s' got rest,
    (bytes <-! sm_lift (take_buffered (ss_read_buffer s) (ss_read_offset s) n);
     let offset := ss_read_offset s + len bytes in
     do! sm_modify (fun s =>
       if len (ss_read_buffer s) <=? offset
       then s <| ss_read_buffer := [] |> <| ss_read_offset := 0 |>
       else s <| ss_read_offset := offset |>);
     sm_ret bytes) s = (s', Ok got) /\
    l = got ++ rest /\ len got <= n /\ (got = [] -> l = []) /\ ss_holds s' rest.
Proof.
  intros Hn Hb Hne Ha Hh Hoff.
  destruct (buffered_take _ _ _ _ n Hb Hn Hoff) as (got & rest & Ht & -> & Hlen & Hgot & Hb').
  erewrite bind_lift_ok by exact Ht. cbv zeta. rewrite bind_modify.
  eexists _, got, rest. split; [reflexivity|]. split_and!; [done..|].
  exists chunks, bytes, w. destruct (len (ss_read_buffer s) <=? _) eqn:Hend; [|done].
  split_and!; [|done..]. eapply buffered_clear; [exact Hb'|lia].
Qed.

Lemma ss_delivers : delivers ss_read ss_holds.
Proof.
  intros s l n (chunks & bytes & w & Hb & Hne & Ha & Hh) Hn. unfold ss_read.
  replace (n =? 0) with false by lia. rewrite bind_get.
  destruct (len (ss_read_buffer s) <=? ss_read_offset s) eqn:Hoff.
  - assert (l = concat chunks) as -> by (eapply buffered_end; [exact Hb|lia]).
    destruct chunks as [|chunk chunks].
    + destruct (ss_next_chunk_end s bytes w Ha Hh) as (s1 & bytes' & H1 & Hbuf & Ho & Ha' & Hh').
      rewrite (bind_ok _ _ _ _ _ H1). eexists _, [], []. split; [reflexivity|].
      rewrite len_nil. split_and!; [reflexivity|lia|done|]. exists [], bytes', w.
      rewrite Hbuf, Ho. by split_and!.
    + inversion_clear Hne as [|? ? Hc Hcs].
      destruct (ss_next_chunk s chunk chunks bytes w Ha Hh)
        as (s1 & bytes' & H1 & Hbuf & Ho & Ha' & Hh').
      rewrite (bind_ok _ _ _ _ _ H1). cbn [negb]. rewrite bind_get.
      eapply ss_deliver_buffer; try done; rewrite Hbuf, Ho; [by apply buffered_fresh|].
      destruct chunk; [done|]. rewrite len_cons. pose proof (len_nonneg chunk). lia.
  - rewrite bind_ret. cbn [negb]. rewrite bind_get. eapply ss_deliver_buffer; try done. lia.
Qed.

(** Whatever is written to a Shadowsocks stream arrives: a reader that has the key, and
    gets the salt and then the packets in whatever pieces, reads the bytes that were
    written and then the end of the stream. *)
Theorem shadowsocks_stream_roundtrip (writer reader : SsStream) salt buffer l r turns amount
  (Hcipher : ss_encrypt_cipher writer = Cipher_new (ss_cipher_kind reader) (ss_key reader) salt)
  (Hsalt : len salt = salt_len (ss_cipher_kind reader))
  (Hfresh : ss_decrypt_cipher reader = None)
  (Hempty : ss_read_buffer reader = [] /\ ss_read_offset reader = 0)
  (Hwriter : holds (ss_inner writer) l salt)
  (Hamount : 0 < amount)
  (Hturns : len buffer < Z.of_nat turns) :
  exists writer' wire,
    ss_write buffer writer = (writer', Ok (len buffer)) /\ holds (ss_inner writer') l wire /\
    (forall inner, holds inner wire r ->
     exists reader', read_all ss_read turns amount (reader <| ss_inner := inner |>) =
                     (reader', Ok buffer)).
Proof.
  destruct (chunks_spec u16_max buffer eq_refl) as (Hcat & Hne & Hlen).
  pose proof (new_in_step (ss_cipher_kind reader) (ss_key reader) salt) as Hstep.
  rewrite <- Hcipher in Hstep at 1.
  destruct (ss_write_chunks_wire _ writer _ l salt Hlen Hstep Hwriter)
    as (writer' & bytes & Hw & Hwire & Hh).
  exists writer', (salt ++ bytes). split_and!; [|done|].
  - unfold ss_write. by rewrite (bind_ok _ _ _ _ _ Hw).
  - intros inner Hr. destruct Hempty as [Hb Ho].
    apply (delivers_all ss_read ss_holds); [exact ss_delivers| |done|done].
    exists (chunks u16_max buffer), (salt ++ bytes), r. cbn. rewrite Hb, Ho, Hcat.
    split_and!; [apply (buffered_fresh [])|done| |done].
    unfold ss_arriving. cbn. rewrite Hfresh. eauto.
Qed.
End Shadowsocks.

(** ** AnyTLS *)

Section AnyTls.
Context {S : Type} {Stream : ByteStream S} {Reliable : ReliableStream S}.

Lemma anytls_inner_ok {A} (m : SM S IoError A) (s : AnyTlsTcpStream S) i a :
  m (anytls_inner s) = (i, Ok a) -> anytls_on_inner m s = (s <| anytls_inner := i |>, Ok a).
Proof. intros H. unfold anytls_on_inner, sm_zoom. by rewrite H. Qed.

(** A frame, and whether it carries bytes of the stream. *)
Definition frame_bytes (frame : Z * Z * list Z) : list Z :=
  let '(cmd, sid, data) := frame in
  (cmd :: to_be_bytes 4 sid ++ to_be_bytes 2 (len data)) ++ data.

Definition is_push (frame : Z * Z * list Z) : bool :=
  let '(cmd, sid, _) := frame in (cmd =? ANYTLS_CMD_PSH) && (sid =? ANYTLS_STREAM_ID).

(** A frame a server may send before it closes the stream: data, which is not empty, or a
    frame of the session other than an alert. *)
Definition frame_ok (frame : Z * Z * list Z) : Prop :=
  let '(cmd, sid, data) := frame in
  is_u32 sid /\ is_u16 (len data) /\ cmd <> ANYTLS_CMD_ALERT /\
  (is_push frame = true -> data <> []) /\
  (cmd =? ANYTLS_CMD_FIN) && (sid =? ANYTLS_STREAM_ID) = false.

Definition pushed (frames : list (Z * Z * list Z)) : list Z :=
  concat (map (fun frame => if is_push frame then snd frame else []) frames).

Definition frames_bytes (frames : list (Z * Z * list Z)) : list Z :=
  concat (map frame_bytes frames).

Lemma anytls_write_frame_ok (s : AnyTlsTcpStream S) cmd sid data l w :
  len data <= u16_max -> holds (anytls_inner s) l w ->
  exists i, anytls_write_frame cmd sid data s = (s <| anytls_inner := i |>, Ok tt) /\
            holds i l (w ++ frame_bytes (cmd, sid, data)).
Proof.
  intros Hd Hh. pose proof (len_nonneg data). unfold u16_max in Hd.
  destruct (reliable_write _ l w (cmd :: to_be_bytes 4 sid ++ to_be_bytes 2 (len data)) Hh)
    as (i1 & H1 & Hh1).
  destruct (reliable_write i1 l _ data Hh1) as (i2 & H2 & Hh2).
  exists i2. split.
  - unfold anytls_write_frame. replace (u16_max <? len data) with false by (unfold u16_max; lia).
    replace (as_u16 (len data)) with (len data) by (unfold as_u16; rewrite Z.mod_small; lia).
    erewrite bind_ok by (apply anytls_inner_ok; exact H1).
    by erewrite anytls_inner_ok by exact H2.
  - by rewrite <- app_assoc in Hh2.
Qed.

Lemma anytls_read_frame_ok (s : AnyTlsTcpStream S) frame l w :
  frame_ok frame -> holds (anytls_inner s) (frame_bytes frame ++ l) w ->
  exists i, anytls_read_frame s = (s <| anytls_inner := i |>, Ok (Some frame)) /\ holds i l w.
Proof.
  destruct frame as [[cmd sid] data]. intros (Hsid & Hlen & _) Hh.
  unfold frame_bytes in Hh. rewrite <- app_assoc in Hh.
  destruct (read_exact_or_eof_spec (anytls_inner s) _ _ w Hh) as (i1 & H1 & Hh1).
  destruct (read_exact_or_eof_spec i1 data l w Hh1) as (i2 & H2 & Hh2).
  exists i2. split; [|done]. rewrite len_cons, len_app, !len_to_be_bytes in H1.
  unfold anytls_read_frame. erewrite bind_ok by (apply anytls_inner_ok; exact H1). cbn beta iota.
  destruct (to_be_bytes_4_ex sid) as (a & b & c & d & Hs). rewrite Hs.
  destruct (to_be_bytes_2_ex (len data)) as (e & f & Hl). rewrite Hl. cbn [app].
  erewrite !bind_lift_ok by reflexivity.
  rewrite <- Hl, from_to_be_bytes_id by (unfold is_u16 in Hlen; lia).
  erewrite bind_ok by (apply anytls_inner_ok; exact H2). cbn beta iota.
  rewrite <- Hs, from_to_be_bytes_id by exact Hsid. reflexivity.
Qed.

Lemma anytls_read_frame_end (s : AnyTlsTcpStream S) w :
  holds (anytls_inner s) [] w ->
  exists i, anytls_read_frame s = (s <| anytls_inner := i |>, Ok None) /\ holds i [] w.
Proof.
  intros Hh. destruct (read_exact_or_eof_end (anytls_inner s) w 7 Hh) as (i & Hi & Hh'); [lia|].
  exists i. unfold anytls_read_frame.
  by erewrite bind_ok by (apply anytls_inner_ok; exact Hi).
Qed.

Section Read.
Context (limit : nat) (lossy : list Z -> string).

(** The frames that are left, fewer than the limit of the model. *)
Definition anytls_arriving (s : AnyTlsTcpStream S) (frames : list (Z * Z * list Z)) : Prop :=
  Forall frame_ok frames /\ (length frames < limit)%nat /\ anytls_stream_closed s = false /\
  exists w, holds (anytls_inner s) (frames_bytes frames) w.

Lemma read_data_frames_spec turns (s : AnyTlsTcpStream S) frames w :
  Forall frame_ok frames -> (length frames < turns)%nat ->
  holds (anytls_inner s) (frames_bytes frames) w ->
  (pushed frames = [] /\
   exists i w', read_data_frames turns lossy s = (s <| anytls_inner := i |>, Ok false) /\
                holds i [] w') \/
  (exists i w' data rest,
     read_data_frames turns lossy s =
       (s <| anytls_inner := i |> <| anytls_read_buffer := data |> <| anytls_read_offset := 0 |>,
        Ok true) /\
     data <> [] /\ pushed frames = data ++ pushed rest /\ Forall frame_ok rest /\
     (length rest <= length frames)%nat /\ holds i (frames_bytes rest) w').
Proof.
  revert s frames w. induction turns as [|turns IH]; intros s frames w Hok Ht Hh; [lia|].
  cbn [read_data_frames]. destruct Hok as [|[[cmd sid] data] frames Hf Hok].
  { destruct (anytls_read_frame_end s w Hh) as (i & Hi & Hh'). left. split; [done|].
    exists i, w. by rewrite (bind_ok _ _ _ _ _ Hi). }
  cbn [length] in Ht. unfold frames_bytes in Hh. cbn [map concat] in Hh.
  destruct (anytls_read_frame_ok s _ _ w Hf Hh) as (i & Hi & Hh').
  rewrite (bind_ok _ _ _ _ _ Hi). cbn beta iota.
  destruct Hf as (Hsid & Hlen & Halert & Hdata & Hfin).
  unfold pushed. cbn [map concat length]. cbn [is_push] in *.
  destruct ((cmd =? ANYTLS_CMD_PSH) && _) eqn:Hpush.
  { right. exists i, w, data, frames. split_and!; auto. }
  rewrite Hfin. replace (cmd =? ANYTLS_CMD_ALERT) with false by lia. cbn [app].
  pose (s1 := s <| anytls_inner := i |>).
  assert (exists i' w', (if cmd =? ANYTLS_CMD_HEART_REQUEST
    then do! anytls_write_frame ANYTLS_CMD_HEART_RESPONSE sid []; read_data_frames turns lossy
    else read_data_frames turns lossy) s1 = read_data_frames turns lossy (s1 <| anytls_inner := i' |>)
    /\ holds i' (frames_bytes frames) w') as (i' & w' & Hrun & Hh'').
  { destruct (cmd =? ANYTLS_CMD_HEART_REQUEST).
    - destruct (anytls_write_frame_ok s1 ANYTLS_CMD_HEART_RESPONSE sid [] _ w
                  ltac:(done) Hh') as (i' & Hi' & Hh'').
      eexists i', _. split; [by rewrite (bind_ok _ _ _ _ _ Hi')|exact Hh''].
    - exists i, w. by split. }
  change (s <| anytls_inner := i |>) with s1. rewrite Hrun.
  destruct (IH (s1 <| anytls_inner := i' |>) frames w' Hok ltac:(lia) Hh'')
    as [(Hp & i2 & w2 & H2 & Hh2)|(i2 & w2 & data' & rest & H2 & Hne & Hp & Hr & Hl & Hh2)].
  - left. split; [done|]. exists i2, w2. by rewrite H2.
  - right. exists i2, w2, data', rest. rewrite H2. split_and!; try done. lia.
Qed.

Definition anytls_holds (s : AnyTlsTcpStream S) (l : list Z) : Prop :=
  exists frames,
    buffered (anytls_read_buffer s) (anytls_read_offset s) (pushed frames) l /\
    anytls_arriving s frames.

Lemma anytls_deliver_buffer (s : AnyTlsTcpStream S) n frames l :
  0 < n -> buffered (anytls_read_buffer s) (anytls_read_offset s) (pushed frames) l ->
  anytls_arriving s frames -> anytls_read_offset s < len (anytls_read_buffer s) ->
  exists s' got rest,
    (bytes <-! sm_lift (take_buffered (anytls_read_buffer s) (anytls_read_offset s) n);
     let offset := anytls_read_offset s + len bytes in
     do! sm_modify (fun s =>
       if len (anytls_read_buffer s) <=? offset
       then s <| anytls_read_buffer := [] |> <| anytls_read_offset := 0 |>
       else s <| anytls_read_offset := offset |>);
     sm_ret bytes) s = (s', Ok got) /\
    l = got ++ rest /\ len got <= n /\ (got = [] -> l = []) /\ anytls_holds s' rest.
Proof.
  intros Hn Hb Ha Hoff.
  destruct (buffered_take _ _ _ _ n Hb Hn Hoff) as (got & rest & Ht & -> & Hlen & Hgot & Hb').
  erewrite bind_lift_ok by exact Ht. cbv zeta. rewrite bind_modify.
  eexists _, got, rest. split; [reflexivity|]. split_and!; [done..|].
  exists frames. destruct (len (anytls_read_buffer s) <=? _) eqn:Hend; [|done].
  split; [|done]. eapply buffered_clear; [exact Hb'|lia].
Qed.

Lemma anytls_delivers : delivers (anytls_read limit lossy) anytls_holds.
Proof.
  intros s l n (frames & Hb & Ha) Hn. unfold anytls_read.
  replace (n =? 0) with false by lia. rewrite bind_get.
  destruct (len (anytls_read_buffer s) <=? anytls_read_offset s) eqn:Hoff.
  - assert (l = pushed frames) as -> by (eapply buffered_end; [exact Hb|lia]).
    destruct Ha as (Hok & Hlimit & Hclosed & w & Hh). unfold read_next_data_frame.
    destruct (read_data_frames_spec limit s frames w Hok Hlimit Hh)
      as [(Hp & i & w' & H1 & Hh')|(i & w' & data & rest & H1 & Hne & Hp & Hr & Hl & Hh')].
    + erewrite bind_ok by (rewrite bind_get, Hclosed; exact H1).
      eexists _, [], []. rewrite Hp in *. split; [reflexivity|]. rewrite len_nil.
      split_and!; [reflexivity|lia|done|]. exists []. split; [exact Hb|].
      split_and!; [constructor|cbn; lia|done|eauto].
    + erewrite bind_ok by (rewrite bind_get, Hclosed; exact H1). cbn [negb]. rewrite bind_get.
      rewrite Hp. eapply anytls_deliver_buffer; [done|apply buffered_fresh| |].
      * split_and!; [done|lia|done|eauto].
      * cbn. destruct data; [done|]. rewrite len_cons. pose proof (len_nonneg data). lia.
  - rewrite bind_ret. cbn [negb]. rewrite bind_get. eapply anytls_deliver_buffer; try done. lia.
Qed.
End Read.

Lemma pushed_app frames frames' : pushed (frames ++ frames') = pushed frames ++ pushed frames'.
Proof. unfold pushed. by rewrite map_app, concat_app. Qed.

Definition push_frame (chunk : list Z) : Z * Z * list Z := (ANYTLS_CMD_PSH, ANYTLS_STREAM_ID, chunk).

Lemma anytls_write_chunks_wire chunks (s : AnyTlsTcpStream S) l w :
  Forall (fun chunk => len chunk <= u16_max) chunks -> holds (anytls_inner s) l w ->
  exists i, anytls_write_chunks chunks s = (s <| anytls_inner := i |>, Ok tt) /\
            holds i l (w ++ frames_bytes (map push_frame chunks)).
Proof.
  intros Hall. revert s w. induction Hall as [|chunk chunks Hc Hall IH]; intros s w Hh.
  { exists (anytls_inner s). rewrite app_nil_r. by destruct s. }
  destruct (anytls_write_frame_ok s ANYTLS_CMD_PSH ANYTLS_STREAM_ID chunk l w Hc Hh)
    as (i1 & H1 & Hh1).
  pose (s1 := s <| anytls_inner := i1 |>).
  destruct (IH s1 _ Hh1) as (i2 & H2 & Hh2).
  exists i2. split.
  - cbn [anytls_write_chunks]. rewrite (bind_ok _ _ _ _ _ H1). exact H2.
  - unfold frames_bytes in *. cbn [map concat]. by rewrite app_assoc.
Qed.

Lemma push_frames_ok chunks :
  Forall (fun chunk => chunk <> []) chunks -> Forall (fun chunk => len chunk <= u16_max) chunks ->
  Forall frame_ok (map push_frame chunks) /\ pushed (map push_frame chunks) = concat chunks.
Proof.
  intros Hne. induction Hne as [|chunk chunks Hc Hne IH]; intros Hlen; [by split; [constructor|]|].
  inversion_clear Hlen as [|? ? Hl Hls]. destruct (IH Hls) as [Hok Hp].
  split; [|unfold pushed in *; cbn [map concat]; by rewrite Hp].
  cbn [map]. constructor; [|done]. pose proof (len_nonneg chunk).
  repeat split; unfold u16_max in *; try done; try (unfold is_u16; lia).
Qed.

(** Whatever is written to an AnyTLS stream arrives, and nothing else: a reader that
    gets the frames in whatever pieces, behind frames of the session (settings, padding,
    heartbeats, frames of other streams), reads the bytes that were written and then the
    end of the stream. *)
Theorem anytls_stream_roundtrip limit lossy (writer reader : AnyTlsTcpStream S) control buffer l r
  turns amount
  (Hcontrol : Forall frame_ok control /\ pushed control = [])
  (Hlimit : (length control + length (chunks u16_max buffer) < limit)%nat)
  (Hreader : anytls_stream_closed reader = false /\ anytls_read_buffer reader = [] /\
             anytls_read_offset reader = 0)
  (Hwriter : holds (anytls_inner writer) l [])
  (Hamount : 0 < amount)
  (Hturns : len buffer < Z.of_nat turns) :
  exists writer' wire,
    anytls_write buffer writer = (writer', Ok (len buffer)) /\
    holds (anytls_inner writer') l wire /\
    (forall inner, holds inner (frames_bytes control ++ wire) r ->
     exists reader',
       read_all (anytls_read limit lossy) turns amount (reader <| anytls_inner := inner |>) =
       (reader', Ok buffer)).
Proof.
  destruct (chunks_spec u16_max buffer eq_refl) as (Hcat & Hne & Hlen).
  destruct (anytls_write_chunks_wire _ writer l [] Hlen Hwriter) as (i & Hw & Hh).
  destruct (push_frames_ok _ Hne Hlen) as [Hok Hp]. destruct Hcontrol as [Hc Hp0].
  destruct Hreader as (Hclosed & Hb & Ho).
  eexists _, (frames_bytes (map push_frame (chunks u16_max buffer))). split_and!.
  - unfold anytls_write. by rewrite (bind_ok _ _ _ _ _ Hw).
  - exact Hh.
  - intros inner Hr. eapply delivers_all; [apply anytls_delivers| |done|done].
    exists (control ++ map push_frame (chunks u16_max buffer)). cbn.
    rewrite Hb, Ho, pushed_app, Hp0, Hp, Hcat. split; [apply (buffered_fresh [])|].
    split_and!; [by apply Forall_app|rewrite length_app, length_map; lia|done|].
    exists r. unfold frames_bytes in *. by rewrite map_app, concat_app.
Qed.
End AnyTls.

(** ** Frames that arrive in part *)

(** On a non-blocking stream that has the first bytes of what is asked for and no more yet,
    the bytes are taken and then forgotten. *)
Lemma read_exact_or_eof_partial bytes out n :
  bytes <> [] -> len bytes < n ->
  read_exact_or_clean_eof n (mkPipe bytes no_data_yet out) =
  (mkPipe [] no_data_yet out, Err no_data_yet).
Proof.
  intros Hne Hn. pose proof (len_nonneg bytes). unfold read_exact_or_clean_eof.
  assert (exists fuel, Z.to_nat n = Datatypes.S (Datatypes.S fuel)) as [fuel ->].
  { exists (Z.to_nat n - 2)%nat. destruct bytes; [done|]. rewrite len_cons in Hn.
    pose proof (len_nonneg bytes). lia. }
  assert (0 < len bytes) by (destruct bytes; [done|rewrite len_cons; pose proof (len_nonneg bytes); lia]).
  cbn [read_or_eof_loop]. rewrite len_nil, Z.sub_0_r. replace (n <=? 0) with false by lia.
  assert (stream_read n (mkPipe bytes no_data_yet out) = (mkPipe [] no_data_yet out, Ok bytes)) as Hr.
  { unfold stream_read, Pipe_relay. cbn [incoming at_end outgoing].
    destruct bytes as [|b bytes]; [done|]. cbn [is_empty andb].
    rewrite drop_ge, take_ge by (unfold len in *; lia). done. }
  rewrite (bind_ok _ _ _ _ _ Hr). replace (n <? len bytes) with false by lia.
  replace (is_empty bytes) with false by (by destruct bytes). cbn [app].
  replace (n <=? len bytes) with false by lia. by erewrite bind_err by reflexivity.
Qed.

Section Partial.
Context {SsCrypto : ShadowsocksCrypto} {Crypto : VmessCrypto}.

(** On a non-blocking connection a frame whose header has arrived only in part makes the
    read of a VMess, AnyTLS or Shadowsocks stream fail with [WouldBlock], which the relay
    takes for "no data yet"; the part is lost, and the stream is left as if it had never
    arrived, so that the rest of the frame is read as the beginning of another one. *)
Theorem framed_partial_frame_lost (vmess : VmessAeadStream Xof Pipe)
  (anytls : AnyTlsTcpStream Pipe) (ss : ShadowsocksTcpStream CipherKind Cipher Pipe) cipher
  limit lossy bytes out amount
  (part := mkPipe bytes no_data_yet out) (nothing := mkPipe [] no_data_yet out)
  (Hpart : bytes <> [] /\ len bytes < 2)
  (Hcipher : ss_decrypt_cipher ss = Some cipher /\ 0 <= tag_len cipher)
  (Hbuffers : vmess_read_buffer vmess = [] /\ vmess_read_offset vmess = 0 /\
              anytls_read_buffer anytls = [] /\ anytls_read_offset anytls = 0 /\
              ss_read_buffer ss = [] /\ ss_read_offset ss = 0)
  (Hopen : anytls_stream_closed anytls = false)
  (Hlimit : (0 < limit)%nat)
  (Hamount : 0 < amount) :
  vmess_read amount (vmess <| vmess_inner := part |>) =
    (vmess <| vmess_inner := nothing |>, Err no_data_yet) /\
  anytls_read limit lossy amount (anytls <| anytls_inner := part |>) =
    (anytls <| anytls_inner := nothing |>, Err no_data_yet) /\
  ss_read amount (ss <| ss_inner := part |>) =
    (ss <| ss_inner := nothing |>, Err no_data_yet).
Proof.
  destruct Hpart as [Hne Hlen]. destruct Hcipher as [Hd Ht].
  destruct Hbuffers as (Hv1 & Hv2 & Ha1 & Ha2 & Hs1 & Hs2).
  destruct vmess, anytls, ss. cbn in *. subst.
  assert (forall n, 2 <= n -> read_exact_or_clean_eof n part = (nothing, Err no_data_yet)) as Hr
    by (intros n Hn; apply read_exact_or_eof_partial; [done|lia]).
  unfold vmess_read, anytls_read, ss_read. replace (amount =? 0) with false by lia.
  rewrite !bind_get. cbn [vmess_read_buffer vmess_read_offset anytls_read_buffer anytls_read_offset
    ss_read_buffer ss_read_offset set_field].
  destruct limit; [lia|].
  split_and!; apply bind_err; rewrite len_nil; cbn [Z.leb Z.compare].
  - apply bind_err. unfold vmess_on_inner, sm_zoom. cbn. by rewrite (Hr 2).
  - unfold read_next_data_frame. rewrite bind_get. cbn [read_data_frames]. apply bind_err, bind_err.
    unfold anytls_on_inner, sm_zoom. cbn. by rewrite (Hr 7).
  - unfold ss_read_next_chunk. erewrite bind_ok by reflexivity. cbn [negb].
    erewrite bind_ok by reflexivity. apply bind_err.
    unfold ss_on_inner, sm_zoom. cbn. by rewrite (Hr (2 + tag_len cipher)) by lia.
Qed.
End Partial.

(** ** Examples *)

Lemma remove_zero_tag plain : remove_tag (plain ++ zero_tag) = Some plain.
Proof.
  unfold remove_tag. rewrite len_app, length_app.
  change (len zero_tag) with 16. change (length zero_tag) with 16%nat.
  pose proof (len_nonneg plain). replace (16 <=? len plain + 16) with true by lia.
  replace (length plain + 16 - 16)%nat with (length plain) by lia.
  rewrite take_app_length, drop_app_length. done.
Qed.

#[export] Instance Script_vmess_aead : VmessAead (Crypto := Script_vmess).
Proof.
  constructor; intros; cbn.
  - eexists. by rewrite remove_zero_tag, len_app.
  - eexists. by rewrite remove_zero_tag, len_app.
  - destruct x. exists tt, 0, 0. split_and!; [done|unfold is_u8; lia..].
Qed.

#[local] Existing Instance Script_shadowsocks.

Lemma script_packet (e d : Cipher) plain :
  exists e' d' packet tail,
    encrypt_packet e (plain ++ zeroed (tag_len e)) = (e', packet) /\
    len packet = len plain + tag_len e /\
    decrypt_packet d packet = (d', Some (plain ++ tail)) /\ True /\ tag_len d' = tag_len d.
Proof.
  exists e, d, (plain ++ zero_tag), zero_tag. split_and!; [done|apply len_app| |done..].
  cbn. rewrite remove_zero_tag. by rewrite decide_True by (by eexists).
Qed.

Lemma script_tag (e d : Cipher) : tag_len e = tag_len d /\ 0 <= tag_len d.
Proof. cbn. lia. Qed.

#[export] Instance Script_shadowsocks_aead : ShadowsocksAead := {
  in_step _ _ := True;
  new_in_step _ _ _ := I;
  in_step_tag e d _ := script_tag e d;
  in_step_packet e d plain _ := script_packet e d plain
}.

Definition sample_key : list Z := zeroed 16.

Definition vmess_sample_stream (inner : Segments) : VmessAeadStream Xof Segments :=
  VmessAeadStream_new inner
    (mkVmessClientRequest sample_key sample_key sample_key sample_key 0) VmessBody_Aes128Gcm.

Definition nothing_written : Segments := mkSegments [] [].

Lemma vmess_stream_roundtrip_witness :
  exists writer' wire,
    vmess_write [1; 2; 3] (vmess_sample_stream nothing_written) = (writer', Ok 3) /\
    holds (vmess_inner writer') [] wire /\
    (forall inner, holds inner wire [] ->
     exists reader',
       read_all vmess_read 4 2 (vmess_sample_stream inner) = (reader', Ok [1; 2; 3])).
Proof.
  apply (vmess_stream_roundtrip _ (vmess_sample_stream nothing_written)).
  - done.
  - vm_compute. done.
  - by repeat split.
  - repeat split; constructor.
  - done.
  - done.
Defined.

Definition ss_sample_stream (inner : Segments) : ShadowsocksTcpStream CipherKind Cipher Segments :=
  mkShadowsocksTcpStream inner tt sample_key (Cipher_new tt sample_key sample_key) None [] 0.

Lemma shadowsocks_stream_roundtrip_witness :
  exists writer' wire,
    ss_write [1; 2; 3] (ss_sample_stream (mkSegments [] sample_key)) = (writer', Ok 3) /\
    holds (ss_inner writer') [] wire /\
    (forall inner, holds inner wire [] ->
     exists reader', read_all ss_read 4 2 (ss_sample_stream inner) = (reader', Ok [1; 2; 3])).
Proof.
  apply (shadowsocks_stream_roundtrip _ (ss_sample_stream nothing_written) sample_key).
  - done.
  - vm_compute. done.
  - done.
  - done.
  - repeat split; constructor.
  - done.
  - done.
Defined.

Definition anytls_sample_stream (inner : Segments) : AnyTlsTcpStream Segments :=
  mkAnyTlsTcpStream inner [] 0 false false.

(** A heartbeat and the answer to the opening of the stream. *)
Definition sample_control : list (Z * Z * list Z) :=
  [(ANYTLS_CMD_HEART_REQUEST, 0, []); (ANYTLS_CMD_SYNACK, 1, [])].

Lemma anytls_stream_roundtrip_witness :
  exists writer' wire,
    anytls_write [1; 2; 3] (anytls_sample_stream nothing_written) = (writer', Ok 3) /\
    holds (anytls_inner writer') [] wire /\
    (forall inner, holds inner (frames_bytes sample_control ++ wire) [] ->
     exists reader',
       read_all (anytls_read 16 string_of_bytes) 4 2 (anytls_sample_stream inner) =
       (reader', Ok [1; 2; 3])).
Proof.
  apply (anytls_stream_roundtrip 16 string_of_bytes _ (anytls_sample_stream nothing_written)).
  - split; [|reflexivity]. repeat constructor; vm_compute; done.
  - vm_compute. lia.
  - done.
  - repeat split; constructor.
  - done.
  - done.
Defined.

Definition vmess_pipe (inner : Pipe) : VmessAeadStream Xof Pipe :=
  VmessAeadStream_new inner
    (mkVmessClientRequest sample_key sample_key sample_key sample_key 0) VmessBody_Aes128Gcm.

Definition sample_cipher : Cipher := Cipher_new (tt : CipherKind) sample_key sample_key.

Definition ss_pipe (inner : Pipe) : ShadowsocksTcpStream CipherKind Cipher Pipe :=
  mkShadowsocksTcpStream inner tt sample_key (Cipher_new tt sample_key sample_key)
    (Some (Cipher_new tt sample_key sample_key)) [] 0.

Definition anytls_pipe (inner : Pipe) : AnyTlsTcpStream Pipe :=
  mkAnyTlsTcpStream inner [] 0 false false.

Lemma framed_partial_frame_lost_witness :
  let part := mkPipe [7] no_data_yet [] in
  let nothing := mkPipe [] no_data_yet [] in
  vmess_read 9 (vmess_pipe part) = (vmess_pipe nothing, Err no_data_yet) /\
  anytls_read 16 string_of_bytes 9 (anytls_pipe part) = (anytls_pipe nothing, Err no_data_yet) /\
  ss_read 9 (ss_pipe part) = (ss_pipe nothing, Err no_data_yet).
Proof.
  apply (framed_partial_frame_lost (vmess_pipe (mkPipe [] no_data_yet []))
           (anytls_pipe (mkPipe [] no_data_yet [])) (ss_pipe (mkPipe [] no_data_yet []))
           sample_cipher 16 string_of_bytes [7] [] 9);
    vm_compute; repeat split; (done || lia).
Defined.
