(* ===== verification/RegistrySpec.v ===== *)
(** * What a registry does with its profiles

    A reference that connects a profile layer by layer ([profile_connect]: connection, TLS,
    transport, handshake), and the theorem that a registry built from profiles with distinct
    tags does for each tag exactly what the reference does for its profile.

    Two behaviours of the outbounds that their callers have to know come last: a datagram to a
    name goes through VLESS and VMess only if the system's resolver knows the name, and a tag
    given to two profiles may stand for one of them in connections and for the other in
    datagrams. *)

From Stdlib Require Import Ascii.
From stdpp Require Import base gmap strings list numbers.
From S2P Require Import Prelude.
From S2P Require Import StdNet.
From S2P Require Import StdIo.
From S2P Require Import Dns.
From S2P Require Import TunPacket.
From S2P Require Import TunLoop.
From S2P Require Import Relay.
From S2P Require Import Profile.
From S2P Require Import Codec.
From S2P Require Import ProxyWire.
From S2P Require Import Framed.
From S2P Require Import Vmess.
From S2P Require Import Network.
From S2P Require Import Outbound.
From S2P Require Import OutboundVless.
From S2P Require Import OutboundTrojan.
From S2P Require Import OutboundVmess.
From S2P Require Import OutboundOther.
From S2P Require Import Registry.
From S2P Require Import ScriptedNetwork.
#[local] Open Scope Z_scope.

(** ** The tables at one tag *)

(** Two registries have the same entries under a tag. *)
Record agree (tag : string) (r r' : OutboundRegistry) : Prop := mkAgree {
  agree_direct : bool_decide (tag ∈ direct_tags r) = bool_decide (tag ∈ direct_tags r');
  agree_socks5_tcp : socks5_tcp_tags r !! tag = socks5_tcp_tags r' !! tag;
  agree_http_connect : http_connect_tags r !! tag = http_connect_tags r' !! tag;
  agree_trojan_tcp : trojan_tcp_tags r !! tag = trojan_tcp_tags r' !! tag;
  agree_trojan_tls_tcp : trojan_tls_tcp_tags r !! tag = trojan_tls_tcp_tags r' !! tag;
  agree_trojan_ws : trojan_ws_tags r !! tag = trojan_ws_tags r' !! tag;
  agree_trojan_tls_ws : trojan_tls_ws_tags r !! tag = trojan_tls_ws_tags r' !! tag;
  agree_trojan_httpupgrade : trojan_httpupgrade_tags r !! tag = trojan_httpupgrade_tags r' !! tag;
  agree_trojan_tls_httpupgrade : trojan_tls_httpupgrade_tags r !! tag = trojan_tls_httpupgrade_tags r' !! tag;
  agree_trojan_grpc : trojan_grpc_tags r !! tag = trojan_grpc_tags r' !! tag;
  agree_trojan_tls_grpc : trojan_tls_grpc_tags r !! tag = trojan_tls_grpc_tags r' !! tag;
  agree_trojan_h2 : trojan_h2_tags r !! tag = trojan_h2_tags r' !! tag;
  agree_trojan_tls_h2 : trojan_tls_h2_tags r !! tag = trojan_tls_h2_tags r' !! tag;
  agree_trojan_quic : trojan_quic_tags r !! tag = trojan_quic_tags r' !! tag;
  agree_vless_tcp : vless_tcp_tags r !! tag = vless_tcp_tags r' !! tag;
  agree_vless_tls_tcp : vless_tls_tcp_tags r !! tag = vless_tls_tcp_tags r' !! tag;
  agree_vless_ws : vless_ws_tags r !! tag = vless_ws_tags r' !! tag;
  agree_vless_tls_ws : vless_tls_ws_tags r !! tag = vless_tls_ws_tags r' !! tag;
  agree_vless_httpupgrade : vless_httpupgrade_tags r !! tag = vless_httpupgrade_tags r' !! tag;
  agree_vless_tls_httpupgrade : vless_tls_httpupgrade_tags r !! tag = vless_tls_httpupgrade_tags r' !! tag;
  agree_vless_grpc : vless_grpc_tags r !! tag = vless_grpc_tags r' !! tag;
  agree_vless_tls_grpc : vless_tls_grpc_tags r !! tag = vless_tls_grpc_tags r' !! tag;
  agree_vless_h2 : vless_h2_tags r !! tag = vless_h2_tags r' !! tag;
  agree_vless_tls_h2 : vless_tls_h2_tags r !! tag = vless_tls_h2_tags r' !! tag;
  agree_vless_quic : vless_quic_tags r !! tag = vless_quic_tags r' !! tag;
  agree_vmess_tcp : vmess_tcp_tags r !! tag = vmess_tcp_tags r' !! tag;
  agree_vmess_tls_tcp : vmess_tls_tcp_tags r !! tag = vmess_tls_tcp_tags r' !! tag;
  agree_vmess_ws : vmess_ws_tags r !! tag = vmess_ws_tags r' !! tag;
  agree_vmess_tls_ws : vmess_tls_ws_tags r !! tag = vmess_tls_ws_tags r' !! tag;
  agree_vmess_httpupgrade : vmess_httpupgrade_tags r !! tag = vmess_httpupgrade_tags r' !! tag;
  agree_vmess_tls_httpupgrade : vmess_tls_httpupgrade_tags r !! tag = vmess_tls_httpupgrade_tags r' !! tag;
  agree_vmess_grpc : vmess_grpc_tags r !! tag = vmess_grpc_tags r' !! tag;
  agree_vmess_tls_grpc : vmess_tls_grpc_tags r !! tag = vmess_tls_grpc_tags r' !! tag;
  agree_vmess_h2 : vmess_h2_tags r !! tag = vmess_h2_tags r' !! tag;
  agree_vmess_tls_h2 : vmess_tls_h2_tags r !! tag = vmess_tls_h2_tags r' !! tag;
  agree_vmess_quic : vmess_quic_tags r !! tag = vmess_quic_tags r' !! tag;
  agree_shadowsocks_tcp : shadowsocks_tcp_tags r !! tag = shadowsocks_tcp_tags r' !! tag;
  agree_anytls_tls_tcp : anytls_tls_tcp_tags r !! tag = anytls_tls_tcp_tags r' !! tag;
  agree_naive_h2_tcp : naive_h2_tcp_tags r !! tag = naive_h2_tcp_tags r' !! tag;
  agree_naive_h3_quic : naive_h3_quic_tags r !! tag = naive_h3_quic_tags r' !! tag;
  agree_mieru_tcp : mieru_tcp_tags r !! tag = mieru_tcp_tags r' !! tag;
  agree_hy2 : hy2_tags r !! tag = hy2_tags r' !! tag;
  agree_tuic : tuic_tags r !! tag = tuic_tags r' !! tag
}.

Lemma agree_refl tag r : agree tag r r.
Proof. by constructor. Qed.

Lemma agree_trans tag r1 r2 r3 : agree tag r1 r2 -> agree tag r2 r3 -> agree tag r1 r3.
Proof. intros [] []. constructor; etrans; eassumption. Qed.

Lemma agree_sym tag r r' : agree tag r r' -> agree tag r' r.
Proof. intros []. by constructor. Qed.
(** ** Adding a profile *)

(** An update of one table, seen from its tag and from another one. *)
Definition tag_update (tag : string) (f : OutboundRegistry -> OutboundRegistry) : Prop :=
  (forall r r', agree tag r r' -> agree tag (f r) (f r')) /\
  (forall other r, other <> tag -> agree other r (f r)).

(** Every [add_*] is one: it inserts in one table. *)
Ltac solve_tag_update :=
  split;
  [ intros ? ? []; constructor; cbn; rewrite ?lookup_insert_eq; done
  | intros ? ? ?; constructor; cbn; rewrite ?lookup_insert_ne by done; done ].

Create HintDb tag_update.
#[export] Hint Extern 5 (tag_update _ _) => solve_tag_update : tag_update.

Lemma validate_returns profile : validate profile <> Panic.
Proof.
  unfold validate, validate_layers, check_path. repeat case_match; try done.
  all: destruct (given_cipher _); cbn; by repeat case_match.
Qed.

Lemma vmess_security_returns tag cipher : vmess_security_from_profile_cipher tag cipher <> Panic.
Proof. unfold vmess_security_from_profile_cipher. by repeat case_match. Qed.

(** A computation that either updates one table, whatever the registry holds, or fails and
    changes nothing. *)
Definition updates_or_fails (tag : string) (m : SM OutboundRegistry OutboundProfileError unit)
  : Prop :=
  (exists f, tag_update tag f /\ forall r, m r = (f r, Ok tt)) \/
  (exists e, forall r, m r = (r, Err e)).

Lemma updates_modify tag f : tag_update tag f -> updates_or_fails tag (sm_modify f).
Proof. intros Hf. left. by exists f. Qed.

Lemma updates_fail tag e : updates_or_fails tag (sm_lift (Err e)).
Proof. right. by exists e. Qed.

Lemma updates_lift {A} tag (r : result OutboundProfileError A) k :
  r <> Panic -> (forall a, r = Ok a -> updates_or_fails tag (k a)) ->
  updates_or_fails tag (sm_bind (sm_lift r) k).
Proof.
  intros Hr Hk. destruct r as [a|e|]; [by apply Hk| |done]. right. by exists e.
Qed.

Lemma ok_or_returns {E A} (e : E) (o : option A) : ok_or e o <> Panic.
Proof. by destruct o. Qed.

Lemma map_err_returns {E F A} (f : E -> F) (r : result E A) : r <> Panic -> map_err f r <> Panic.
Proof. by destruct r. Qed.

#[export] Hint Resolve updates_modify updates_fail vmess_security_returns ok_or_returns
  map_err_returns validate_returns : tag_update.

Lemma add_profile_effect profile : updates_or_fails (profile_tag profile) (add_profile profile).
Proof.
  unfold add_profile, add_trojan_profile, add_vmess_profile, add_vless_profile,
    add_other_profile. apply updates_lift; [by auto with tag_update|]. intros _ _.
  destruct (profile_protocol profile), (profile_transport profile), (profile_security profile);
    first [ by auto with tag_update
          | apply updates_lift; [by auto with tag_update|]; intros a _;
            try destruct a as [? ?]; by auto with tag_update ].
Qed.

Lemma add_profile_other profile tag r :
  tag <> profile_tag profile -> agree tag r (add_profile profile r).1.
Proof.
  intros Hne. destruct (add_profile_effect profile) as [(f & [_ Hf] & H)|(e & H)]; rewrite H;
    cbn; [by apply Hf|apply agree_refl].
Qed.

(** What a profile does under its tag depends only on what is there. *)
Lemma add_profile_agree profile r r' :
  agree (profile_tag profile) r r' ->
  agree (profile_tag profile) (add_profile profile r).1 (add_profile profile r').1 /\
  (add_profile profile r).2 = (add_profile profile r').2.
Proof.
  intros Ha. destruct (add_profile_effect profile) as [(f & [Hf _] & H)|(e & H)]; rewrite !H;
    cbn; auto.
Qed.


(** ** Adding profiles *)

Lemma add_profiles_others profiles tag r :
  tag ∉ map profile_tag profiles -> agree tag r (add_profiles profiles r).1.
Proof.
  revert r. induction profiles as [|profile profiles IH]; intros r Hnone; [apply agree_refl|].
  cbn [map] in Hnone. apply not_elem_of_cons in Hnone as [Hne Hnone].
  cbn [add_profiles]. unfold sm_bind. pose proof (add_profile_other profile tag r Hne) as Ha.
  destruct (add_profile profile r) as [r' [[]|e|]]; cbn in *; try done.
  eapply agree_trans; [exact Ha|by apply IH].
Qed.

Lemma add_profiles_only profiles r registry profile :
  add_profiles profiles r = (registry, Ok tt) -> NoDup (map profile_tag profiles) ->
  profile ∈ profiles -> agree (profile_tag profile) r OutboundRegistry_new ->
  exists alone, add_profile profile OutboundRegistry_new = (alone, Ok tt) /\
                agree (profile_tag profile) registry alone.
Proof.
  revert r. induction profiles as [|p profiles IH]; intros r H Hd Hin Ha;
    [by apply not_elem_of_nil in Hin|].
  cbn [map] in Hd. inversion_clear Hd as [|? ? Hp Hd']; rename Hd' into Hd. cbn [add_profiles] in H. unfold sm_bind in H.
  destruct (add_profile p r) as [r' [[]|e|]] eqn:Hadd; try done.
  apply elem_of_cons in Hin as [->|Hin].
  - destruct (add_profile_agree p r OutboundRegistry_new Ha) as [Ha' Hr].
    rewrite Hadd in Ha', Hr.
    destruct (add_profile p OutboundRegistry_new) as [alone res]. cbn [fst snd] in Ha', Hr. subst res.
    exists alone. split; [done|].
    pose proof (add_profiles_others profiles (profile_tag p) r' Hp) as Ho. rewrite H in Ho.
    eapply agree_trans; [apply agree_sym; exact Ho|exact Ha'].
  - apply (IH r'); try done.
    assert (profile_tag profile <> profile_tag p)
      by (intros Heq; apply Hp; rewrite <- Heq; by apply list_elem_of_fmap_2).
    pose proof (add_profile_other p (profile_tag profile) r H0) as Ho. rewrite Hadd in Ho.
    eapply agree_trans; [apply agree_sym; exact Ho|done].
Qed.

Lemma from_profiles_ok profiles registry :
  from_profiles profiles = Ok registry <->
  add_profiles profiles OutboundRegistry_new = (registry, Ok tt).
Proof.
  unfold from_profiles. destruct (add_profiles _ _) as [r [[]|e|]]; cbn; split; congruence.
Qed.

Lemma from_profiles_others profiles registry tag :
  from_profiles profiles = Ok registry -> tag ∉ map profile_tag profiles ->
  agree tag registry OutboundRegistry_new.
Proof.
  rewrite from_profiles_ok. intros H Hnone. apply agree_sym.
  pose proof (add_profiles_others profiles tag OutboundRegistry_new Hnone) as Ha.
  by rewrite H in Ha.
Qed.

Lemma from_profiles_only profiles registry profile :
  from_profiles profiles = Ok registry -> NoDup (map profile_tag profiles) ->
  profile ∈ profiles ->
  exists alone, add_profile profile OutboundRegistry_new = (alone, Ok tt) /\
                agree (profile_tag profile) registry alone.
Proof.
  rewrite from_profiles_ok. intros H Hd Hin. by eapply add_profiles_only, agree_refl.
Qed.

(** ** Which profiles are accepted *)

(** The profile is valid and, for VMess, its cipher is known. *)
Definition acceptable (profile : OutboundProfile) : Prop :=
  validate profile = Ok tt /\
  (profile_protocol profile = Vmess ->
   exists security,
     vmess_security_from_profile_cipher (profile_tag profile) (profile_cipher profile) =
     Ok security).

Lemma split_tuic_valid credential :
  is_tuic_credential credential = true -> is_Some (split_tuic_credential credential).
Proof.
  unfold is_tuic_credential, split_tuic_credential.
  destruct (split_once _ _) as [[uuid password]|]; [|done].
  intros [Hu Hp]%andb_prop. apply negb_true_iff in Hp. rewrite Hp.
  destruct (String.eqb (trim uuid) "") eqn:He; [|by eexists].
  apply String.eqb_eq in He. by rewrite He in Hu.
Qed.

Lemma split_user_password_valid credential :
  is_user_password_credential credential = true -> is_Some (split_once ":"%char credential).
Proof. unfold is_user_password_credential. by destruct (split_once _ _). Qed.

Lemma validate_layers_of profile :
  validate profile = Ok tt ->
  validate_layers (profile_protocol profile) (profile_transport profile)
    (profile_security profile) (profile_credential profile) (profile_cipher profile) = Ok tt.
Proof. unfold validate. by repeat case_match. Qed.

Definition succeeds {S E A} (m : SM S E A) (s : S) : Prop := exists s' a, m s = (s', Ok a).

Lemma succeeds_lift {S E A B} (r : result E A) (k : A -> SM S E B) s :
  succeeds (sm_bind (sm_lift r) k) s <-> exists a, r = Ok a /\ succeeds (k a) s.
Proof.
  unfold succeeds, sm_bind, sm_lift. destruct r as [a|e|]; split.
  - eauto.
  - by intros (? & [= ->] & ?).
  - by intros (? & ? & ?).
  - by intros (? & ? & ?).
  - by intros (? & ? & ?).
  - by intros (? & ? & ?).
Qed.

Lemma succeeds_lift_some {S E A B} (e : E) (o : option A) (k : A -> SM S E B) s :
  is_Some o -> (forall a, succeeds (k a) s) -> succeeds (sm_bind (sm_lift (ok_or e o)) k) s.
Proof. intros [a ->] Hk. apply succeeds_lift. by exists a. Qed.

Lemma succeeds_modify {S E} (f : S -> S) s : succeeds (sm_modify (E := E) f) s.
Proof. by do 2 eexists. Qed.

Lemma add_profile_accepts profile r : succeeds (add_profile profile) r <-> acceptable profile.
Proof.
  unfold add_profile, add_trojan_profile, add_vmess_profile, add_vless_profile,
    add_other_profile, acceptable. rewrite succeeds_lift.
  destruct (validate profile) as [[]|e|] eqn:Hv; cbn [map_err].
  2, 3: split; [by intros (? & ? & ?)|by intros [? _]].
  apply validate_layers_of in Hv.
  pose proof (split_tuic_valid (profile_credential profile)) as Htuic.
  pose proof (split_user_password_valid (profile_credential profile)) as Hpair.
  split.
  - intros (? & _ & Hs). split; [done|]. intros Hvmess. rewrite Hvmess in Hs.
    destruct (profile_transport profile), (profile_security profile);
      apply succeeds_lift in Hs as (a & ? & _); by exists a.
  - intros [_ Hc]. exists tt. split; [done|].
    destruct (profile_protocol profile), (profile_transport profile), (profile_security profile);
      cbn in Hv; try done; try apply succeeds_modify;
      try (destruct (Hc eq_refl) as [s Hs]; apply succeeds_lift; exists s; split; [done|];
           apply succeeds_modify).
    all: repeat case_match; try done; try apply succeeds_modify.
    + apply succeeds_lift_some; [by apply Hpair, negb_false_iff|].
      intros [username password]. apply succeeds_modify.
    + apply succeeds_lift_some; [by destruct (profile_cipher profile)|].
      intros cipher. apply succeeds_modify.
    + apply succeeds_lift_some; [by apply Htuic|].
      intros [uuid password]. apply succeeds_modify.
Qed.

Lemma add_profiles_accepts profiles r :
  succeeds (add_profiles profiles) r <-> Forall acceptable profiles.
Proof.
  revert r. induction profiles as [|profile profiles IH]; intros r; cbn [add_profiles].
  { split; [constructor|by do 2 eexists]. }
  rewrite List.Forall_cons_iff, <- (add_profile_accepts profile r). unfold succeeds at 1 2, sm_bind.
  destruct (add_profile profile r) as [r' [[]|e|]].
  - rewrite <- (IH r'). unfold succeeds. naive_solver.
  - naive_solver.
  - naive_solver.
Qed.

(** [from_profiles] accepts a list of profiles exactly if every profile is valid and
    every VMess profile names a known cipher: whatever [validate] accepts has a connector,
    and no valid profile is refused for its transport. *)
Theorem from_profiles_accepts profiles :
  (exists registry, from_profiles profiles = Ok registry) <-> Forall acceptable profiles.
Proof.
  rewrite <- (add_profiles_accepts profiles OutboundRegistry_new).
  unfold from_profiles, succeeds.
  destruct (add_profiles _ _) as [r [[]|e|]]; cbn [result_map]; naive_solver.
Qed.

(** ** One outbound alone *)

(** In a registry with one entry the dispatch finds it. *)
Ltac dispatch_alone :=
  unfold registry_connect_with_dns, registry_relay_udp_datagram_with_dns;
  cbv beta iota delta
    [set_field OutboundRegistry_new
    add_socks5_tcp add_http_connect add_trojan_tcp add_trojan_tls_tcp add_trojan_ws
    add_trojan_tls_ws add_trojan_httpupgrade add_trojan_tls_httpupgrade add_trojan_grpc
    add_trojan_tls_grpc add_trojan_h2 add_trojan_tls_h2 add_trojan_quic add_vless_tcp
    add_vless_tls_tcp add_vless_ws add_vless_tls_ws add_vless_httpupgrade
    add_vless_tls_httpupgrade add_vless_grpc add_vless_tls_grpc add_vless_h2
    add_vless_tls_h2 add_vless_quic add_vmess_tcp add_vmess_tls_tcp add_vmess_ws
    add_vmess_tls_ws add_vmess_httpupgrade add_vmess_tls_httpupgrade add_vmess_grpc
    add_vmess_tls_grpc add_vmess_h2 add_vmess_tls_h2 add_vmess_quic add_shadowsocks_tcp
    add_anytls_tls_tcp add_naive_h2_tcp add_naive_h3_quic add_mieru_tcp add_hy2 add_tuic
    direct_tags socks5_tcp_tags http_connect_tags trojan_tcp_tags trojan_tls_tcp_tags
    trojan_ws_tags trojan_tls_ws_tags trojan_httpupgrade_tags trojan_tls_httpupgrade_tags
    trojan_grpc_tags trojan_tls_grpc_tags trojan_h2_tags trojan_tls_h2_tags trojan_quic_tags
    vless_tcp_tags vless_tls_tcp_tags vless_ws_tags vless_tls_ws_tags vless_httpupgrade_tags
    vless_tls_httpupgrade_tags vless_grpc_tags vless_tls_grpc_tags vless_h2_tags
    vless_tls_h2_tags vless_quic_tags vmess_tcp_tags vmess_tls_tcp_tags vmess_ws_tags
    vmess_tls_ws_tags vmess_httpupgrade_tags vmess_tls_httpupgrade_tags vmess_grpc_tags
    vmess_tls_grpc_tags vmess_h2_tags vmess_tls_h2_tags vmess_quic_tags shadowsocks_tcp_tags
    anytls_tls_tcp_tags naive_h2_tcp_tags naive_h3_quic_tags mieru_tcp_tags hy2_tags
    tuic_tags];
  rewrite bool_decide_eq_false_2 by set_solver;
  rewrite ?lookup_empty, ?lookup_insert_eq.

(** ** Dispatch *)

Section Dispatch.
Context {W : Type} {Net : Network W} {R : Type} {Resolver : DnsResolver R}.
Context {SsCrypto : ShadowsocksCrypto} {Crypto : VmessCrypto}.

Lemma connect_agree tag r r' target timeout :
  agree tag r r' ->
  registry_connect_with_dns r tag target timeout = registry_connect_with_dns r' tag target timeout.
Proof.
  intros []. unfold registry_connect_with_dns.
  repeat match goal with H : _ = _ |- _ => rewrite H; clear H end. reflexivity.
Qed.

Lemma relay_udp_agree tag r r' target payload timeout :
  agree tag r r' ->
  registry_relay_udp_datagram_with_dns r tag target payload timeout =
  registry_relay_udp_datagram_with_dns r' tag target payload timeout.
Proof.
  intros []. unfold registry_relay_udp_datagram_with_dns.
  repeat match goal with H : _ = _ |- _ => rewrite ?H; clear H end. reflexivity.
Qed.

(** ** The reference *)

(** The server of a connection. *)
Definition open_tcp (endpoint : Endpoint) (timeout : Z) : NM W R TcpStream :=
  DirectTcpConnector_connect_with_dns (OutboundTarget_new (ep_host endpoint) (ep_port endpoint))
    timeout.

(** The name of the host in a transport, and the name TLS asks for: for WebSocket and HTTP
    upgrade the latter is the former unless it is given, for HTTP/2 and gRPC it is the
    other way round. *)
Definition tls_name (endpoint : Endpoint) (transport : TransportKind) (sni : option string)
  : string :=
  match transport with
  | Transport_WebSocket _ host | Transport_HttpUpgrade _ host =>
      default (default (ep_host endpoint) host) sni
  | _ => default (ep_host endpoint) sni
  end.

Definition transport_host (endpoint : Endpoint) (transport : TransportKind)
  (security : SecurityKind) : string :=
  match transport with
  | Transport_WebSocket _ host | Transport_HttpUpgrade _ host => default (ep_host endpoint) host
  | Transport_Http2 _ host =>
      match security with
      | Security_None => default (ep_host endpoint) host
      | Security_Tls sni _ => default (default (ep_host endpoint) sni) host
      end
  | _ =>
      match security with
      | Security_None => ep_host endpoint
      | Security_Tls sni _ => default (ep_host endpoint) sni
      end
  end.

(** A stream of the transport, with TLS below it if the profile asks for it: the
    continuation gets the stream and the form in which it is returned. *)
Definition with_transport {A} (endpoint : Endpoint) (transport : TransportKind)
  (security : SecurityKind) (timeout : Z)
  (k : forall S, ByteStream S -> (S -> OutboundConnection W) -> S -> NM W R A) : NM W R A :=
  let host := transport_host endpoint transport security in
  match transport, security with
  | Transport_Quic quic_security key header_type, _ =>
      let '(sni, skip_verify) :=
        match security with
        | Security_None => (LEGACY_QUIC_INTERNAL_SERVER_NAME, true)
        | Security_Tls sni skip_verify => (tls_name endpoint transport sni, skip_verify)
        end in
      stream <-! connect_legacy_quic_stream endpoint sni skip_verify
                   (mkLegacyQuicTransportConfig quic_security key header_type) timeout;
      k _ _ Connection_Owned stream
  | Transport_Tcp, Security_None =>
      stream <-! open_tcp endpoint timeout;
      k _ _ Connection_Tcp stream
  | Transport_Tcp, Security_Tls sni skip_verify =>
      stream <-! open_tcp endpoint timeout;
      stream <-! sm_lift (TlsTcpStream_connect stream (tls_name endpoint transport sni) skip_verify);
      k _ _ Connection_Owned stream
  | Transport_WebSocket path _, Security_None =>
      stream <-! open_tcp endpoint timeout;
      stream <-! net (WebSocketClientStream_connect stream host path);
      k _ _ Connection_WebSocket stream
  | Transport_WebSocket path _, Security_Tls sni skip_verify =>
      stream <-! open_tcp endpoint timeout;
      stream <-! sm_lift (TlsTcpStream_connect stream (tls_name endpoint transport sni) skip_verify);
      stream <-! net (OwnedWebSocketClientStream_connect stream host path);
      k _ _ Connection_Owned stream
  | Transport_HttpUpgrade path _, Security_None =>
      stream <-! open_tcp endpoint timeout;
      '(stream, _) <-! using_stream stream (connect_httpupgrade_client utf8_error host path);
      k _ _ Connection_Tcp stream
  | Transport_HttpUpgrade path _, Security_Tls sni skip_verify =>
      stream <-! open_tcp endpoint timeout;
      stream <-! sm_lift (TlsTcpStream_connect stream (tls_name endpoint transport sni) skip_verify);
      '(stream, _) <-! using_stream stream (connect_httpupgrade_client utf8_error host path);
      k _ _ Connection_Owned stream
  | Transport_Grpc service_name, Security_None =>
      stream <-! open_tcp endpoint timeout;
      stream <-! net (GrpcTcpStream_connect_plain stream host service_name);
      k _ _ Connection_Owned stream
  | Transport_Grpc service_name, Security_Tls sni skip_verify =>
      stream <-! open_tcp endpoint timeout;
      stream <-! net (GrpcTcpStream_connect_tls stream (tls_name endpoint transport sni) skip_verify
                        host service_name);
      k _ _ Connection_Owned stream
  | Transport_Http2 path _, Security_None =>
      stream <-! open_tcp endpoint timeout;
      stream <-! net (Http2TcpStream_connect_plain stream host path);
      k _ _ Connection_Owned stream
  | Transport_Http2 path _, Security_Tls sni skip_verify =>
      stream <-! open_tcp endpoint timeout;
      stream <-! net (Http2TcpStream_connect_tls stream (tls_name endpoint transport sni) skip_verify
                        host path);
      k _ _ Connection_Owned stream
  end.

(** Whether the request header is flushed before the response is read. *)
Definition flushes_header (protocol : ProxyProtocol) (transport : TransportKind) : bool :=
  match protocol, transport with
  | Vmess, (Transport_Tcp | Transport_WebSocket _ _ | Transport_HttpUpgrade _ _) => true
  | _, Transport_WebSocket _ _ => true
  | _, _ => false
  end.

Definition flushing {S A} {Stream : ByteStream S} (b : bool) (stream : S) (k : S -> NM W R A)
  : NM W R A :=
  if b then '(stream, _) <-! using_stream stream flush; k stream else k stream.

(** The handshake of VLESS, Trojan or VMess over any stream. *)
Definition handshake (profile : OutboundProfile) (target : Endpoint) S (Stream : ByteStream S)
  (plain : S -> OutboundConnection W) (stream : S) : NM W R (OutboundConnection W) :=
  let flushes := flushes_header (profile_protocol profile) (profile_transport profile) in
  match profile_protocol profile with
  | Vless =>
      header <-! sm_lift (map_err protocol_encoding_to_io
        (encode_vless_tcp_request_header (profile_credential profile) target (profile_flow profile)));
      '(stream, _) <-! using_stream stream (write_all header);
      flushing flushes stream (fun stream =>
        '(stream, _) <-! using_stream stream read_vless_response_header_from_stream;
        sm_ret (plain stream))
  | Trojan =>
      header <-! sm_lift (map_err protocol_encoding_to_io
        (encode_trojan_tcp_request_header sha224 (profile_credential profile) target));
      '(stream, _) <-! using_stream stream (write_all header);
      flushing flushes stream (fun stream => sm_ret (plain stream))
  | Vmess =>
      match vmess_security_from_profile_cipher (profile_tag profile) (profile_cipher profile) with
      | Ok security =>
          random <-! net vmess_random;
          '(stream, request) <-! using_stream stream
             (write_vmess_tcp_request_header random (profile_credential profile) target security);
          flushing flushes stream (fun stream =>
            '(stream, _) <-! using_stream stream (read_vmess_response_header_from_stream request);
            match security with
            | VmessBody_None => sm_ret (plain stream)
            | _ => sm_ret (Connection_Owned (VmessAeadStream_new stream request security))
            end)
      | _ => io_fail Unsupported "no VMess cipher"
      end
  | _ => io_fail Unsupported "no handshake of its own"
  end.

(** Connecting a profile. *)
Definition profile_connect (profile : OutboundProfile) (target : OutboundTarget) (timeout : Z)
  : NM W R (OutboundConnection W) :=
  let endpoint := profile_endpoint profile in
  let credential := profile_credential profile in
  match profile_protocol profile, profile_security profile with
  | (Vless | Trojan | Vmess), security =>
      with_transport endpoint (profile_transport profile) security timeout
        (handshake profile (mkEndpoint (target_host target) (target_port target)))
  | Socks, _ => Socks5Tcp_connect_with_dns (mkSocks5TcpOutbound endpoint credential) target timeout
  | Http, _ =>
      HttpConnect_connect_with_dns (mkHttpConnectOutbound endpoint credential) target timeout
  | Shadowsocks, _ =>
      ShadowsocksTcp_connect_with_dns
        (mkShadowsocksTcpOutbound endpoint (default "" (profile_cipher profile)) credential)
        target timeout
  | Mieru, _ =>
      let '(username, password) := default ("", "") (split_once ":"%char credential) in
      MieruTcp_connect_with_dns (mkMieruTcpOutbound endpoint username password) target timeout
  | AnyTls, Security_Tls sni skip_verify =>
      AnyTlsTlsTcp_connect_with_dns
        (mkAnyTlsTlsTcpOutbound endpoint credential (default (ep_host endpoint) sni) skip_verify)
        target timeout
  | Hy2, Security_Tls sni skip_verify =>
      Hy2_connect_with_dns
        (mkHy2Outbound endpoint credential (default (ep_host endpoint) sni) skip_verify)
        target timeout
  | Tuic, Security_Tls sni skip_verify =>
      let '(uuid, password) := default ("", "") (split_tuic_credential credential) in
      Tuic_connect_with_dns
        (mkTuicOutbound endpoint uuid password (default (ep_host endpoint) sni) skip_verify)
        target timeout
  | Naive, Security_Tls sni skip_verify =>
      let sni := default (ep_host endpoint) sni in
      match profile_transport profile with
      | Transport_Tcp =>
          NaiveH2Tcp_connect_with_dns (mkNaiveH2TcpOutbound endpoint credential sni skip_verify)
            target timeout
      | _ =>
          NaiveH3Quic_connect_with_dns (mkNaiveH3QuicOutbound endpoint credential sni skip_verify)
            target timeout
      end
  | _, _ => io_fail Unsupported "TLS is required"
  end.


(** One datagram over a stream. *)
Definition datagram (profile : OutboundProfile) (target : OutboundTarget) (payload : list Z)
  (timeout : Z) S (Stream : ByteStream S) (plain : S -> OutboundConnection W) (stream : S)
  : NM W R UdpRelayResponse :=
  let credential := profile_credential profile in
  match profile_protocol profile with
  | Vless =>
      net (send_vless_udp_over_stream stream credential (profile_flow profile) target payload
             timeout)
  | Trojan => net (send_trojan_udp_over_stream stream credential target payload timeout)
  | Vmess =>
      match vmess_security_from_profile_cipher (profile_tag profile) (profile_cipher profile) with
      | Ok security => net (send_vmess_udp_over_stream stream credential security target payload
                              timeout)
      | _ => io_fail Unsupported "no VMess cipher"
      end
  | _ => io_fail Unsupported "no datagrams of its own"
  end.

(** Relaying a datagram through a profile. *)
Definition profile_relay_udp (profile : OutboundProfile) (target : OutboundTarget)
  (payload : list Z) (timeout : Z) : NM W R UdpRelayResponse :=
  let endpoint := profile_endpoint profile in
  let credential := profile_credential profile in
  let unsupported :=
    io_fail Unsupported ("outbound tag does not support UDP relay yet: " +:+ profile_tag profile) in
  match profile_protocol profile, profile_security profile with
  | (Vless | Trojan | Vmess), security =>
      with_transport endpoint (profile_transport profile) security timeout
        (datagram profile target payload timeout)
  | Socks, _ =>
      Socks5Tcp_relay_udp_datagram_with_dns (mkSocks5TcpOutbound endpoint credential) target
        payload timeout
  | Shadowsocks, _ =>
      ShadowsocksTcp_relay_udp_datagram_with_dns
        (mkShadowsocksTcpOutbound endpoint (default "" (profile_cipher profile)) credential)
        target payload timeout
  | Mieru, _ =>
      let '(username, password) := default ("", "") (split_once ":"%char credential) in
      MieruTcp_relay_udp_datagram_with_dns (mkMieruTcpOutbound endpoint username password) target
        payload timeout
  | AnyTls, Security_Tls sni skip_verify =>
      AnyTlsTlsTcp_relay_udp_datagram_with_dns
        (mkAnyTlsTlsTcpOutbound endpoint credential (default (ep_host endpoint) sni) skip_verify)
        target payload timeout
  | Hy2, Security_Tls sni skip_verify =>
      Hy2_relay_udp_datagram_with_dns
        (mkHy2Outbound endpoint credential (default (ep_host endpoint) sni) skip_verify)
        target payload timeout
  | Tuic, Security_Tls sni skip_verify =>
      let '(uuid, password) := default ("", "") (split_tuic_credential credential) in
      Tuic_relay_udp_datagram_with_dns
        (mkTuicOutbound endpoint uuid password (default (ep_host endpoint) sni) skip_verify)
        target payload timeout
  | _, _ => unsupported
  end.

(** The cases of [add_profile]: either nothing has been added, or the entry is found, once the
    cipher or the credential it depends on is known. *)
Ltac profile_cases profile :=
  let alone := first [ done | intros [= <-]; dispatch_alone; reflexivity ] in
  destruct (profile_protocol profile), (profile_transport profile), (profile_security profile);
    first [ alone
          | destruct (vmess_security_from_profile_cipher (profile_tag profile)
                        (profile_cipher profile)) as [[]| |]; alone
          | destruct (profile_cipher profile); alone
          | destruct (split_once ":"%char (profile_credential profile)) as [[? ?]|]; alone
          | destruct (split_tuic_credential (profile_credential profile)) as [[? ?]|]; alone ].

Lemma connect_alone profile r target timeout :
  add_profile profile OutboundRegistry_new = (r, Ok tt) ->
  registry_connect_with_dns r (profile_tag profile) target timeout =
  profile_connect profile target timeout.
Proof.
  unfold add_profile, add_trojan_profile, add_vmess_profile, add_vless_profile,
    add_other_profile. unfold sm_bind at 1, sm_lift at 1.
  destruct (validate profile) as [[]|e|] eqn:Hv; try done. cbn [map_err].
  unfold profile_connect, with_transport, handshake, transport_host, tls_name, flushes_header.
  profile_cases profile.
Qed.

Lemma relay_udp_alone profile r target payload timeout :
  add_profile profile OutboundRegistry_new = (r, Ok tt) ->
  registry_relay_udp_datagram_with_dns r (profile_tag profile) target payload timeout =
  profile_relay_udp profile target payload timeout.
Proof.
  unfold add_profile, add_trojan_profile, add_vmess_profile, add_vless_profile,
    add_other_profile. unfold sm_bind at 1, sm_lift at 1.
  destruct (validate profile) as [[]|e|] eqn:Hv; try done. cbn [map_err].
  unfold profile_relay_udp, with_transport, datagram, transport_host, tls_name.
  profile_cases profile.
Qed.

(** ** A registry built from profiles *)

Lemma connect_new tag target timeout :
  registry_connect_with_dns OutboundRegistry_new tag target timeout =
  io_fail Unsupported ("outbound tag is not registered: " +:+ tag).
Proof. by dispatch_alone. Qed.

Lemma relay_udp_new tag target payload timeout :
  registry_relay_udp_datagram_with_dns OutboundRegistry_new tag target payload timeout =
  io_fail Unsupported ("outbound tag does not support UDP relay yet: " +:+ tag).
Proof. by dispatch_alone. Qed.

(** C3: with distinct tags, a registry built from profiles sends the connections and the
    datagrams of a tag through the layers its profile describes, whatever else is
    registered and in whatever order. *)
Theorem registry_implements_profiles profiles registry profile target payload timeout
  (Hregistry : from_profiles profiles = Ok registry)
  (Hdistinct : NoDup (map profile_tag profiles))
  (Hin : profile ∈ profiles) :
  registry_connect_with_dns registry (profile_tag profile) target timeout =
    profile_connect profile target timeout /\
  registry_relay_udp_datagram_with_dns registry (profile_tag profile) target payload timeout =
    profile_relay_udp profile target payload timeout.
Proof.
  destruct (from_profiles_only profiles registry profile Hregistry Hdistinct Hin)
    as (alone & Halone & Ha).
  rewrite (connect_agree _ _ _ _ _ Ha), (relay_udp_agree _ _ _ _ _ _ Ha).
  split; [by apply connect_alone|by apply relay_udp_alone].
Qed.

(** A tag of no profile is refused, for connections and for datagrams. *)
Theorem unregistered_tag_refused profiles registry tag target payload timeout
  (Hregistry : from_profiles profiles = Ok registry)
  (Hnone : tag ∉ map profile_tag profiles) :
  registry_connect_with_dns registry tag target timeout =
    io_fail Unsupported ("outbound tag is not registered: " +:+ tag) /\
  registry_relay_udp_datagram_with_dns registry tag target payload timeout =
    io_fail Unsupported ("outbound tag does not support UDP relay yet: " +:+ tag).
Proof.
  pose proof (from_profiles_others profiles registry tag Hregistry Hnone) as Ha.
  rewrite (connect_agree _ _ _ _ _ Ha), (relay_udp_agree _ _ _ _ _ _ Ha).
  split; [apply connect_new|apply relay_udp_new].
Qed.
End Dispatch.

(** ** Examples *)

Definition sample_uuid : string := "00010203-0405-0607-0809-0a0b0c0d0e0f".

Definition vless_sample : OutboundProfile :=
  mkOutboundProfile "vless" Vless (mkEndpoint "192.0.2.7" 443) (Transport_WebSocket "/ws" None)
    (Security_Tls None false) sample_uuid None None.

Definition sample_profiles : list OutboundProfile :=
  [ mkOutboundProfile "socks" Socks (mkEndpoint "192.0.2.8" 1080) Transport_Tcp Security_None "a:b"
      None None;
    vless_sample ].

Definition sample_registry : OutboundRegistry :=
  match from_profiles sample_profiles with Ok registry => registry | _ => OutboundRegistry_new end.

Definition sample_target : OutboundTarget := OutboundTarget_new "example.com" 53.

(** The server answers the header of VLESS, and one packet. *)
Definition sample_script : Script := mkScript [0; 0; 0; 2; 7; 9] [] 0.

Definition sample_state : DnsEngine SystemDnsResolver * Script :=
  (DnsEngine_with_policy (mkSystemDnsResolver script_lookup) (DnsCache_new 60)
     PreventPublicLeak, sample_script).

Definition sent (c : OutboundConnection Script) : option (list Z) :=
  match c with
  | Connection_Tcp stream => Some (outgoing stream)
  | Connection_WebSocket stream => Some (outgoing stream)
  | Connection_Owned _ => None
  end.

(** On the script: the request of a connection through a VLESS outbound without TLS. *)
Example vless_connect_sends :
  result_map sent
    (snd (registry_connect_with_dns
            (add_vless_tcp "v" (mkVlessTcpOutbound (mkEndpoint "192.0.2.7" 443) sample_uuid None)
               OutboundRegistry_new) "v" sample_target 10 sample_state)) =
  Ok (Some ([0; 0; 1; 2; 3; 4; 5; 6; 7; 8; 9; 10; 11; 12; 13; 14; 15; 0; 1; 0; 53; 2; 11]
            ++ as_bytes "example.com")).
Proof. vm_compute. reflexivity. Qed.

Lemma registry_implements_profiles_witness :
  registry_connect_with_dns (W := Script) (R := SystemDnsResolver) sample_registry
    (profile_tag vless_sample) sample_target 10 = profile_connect vless_sample sample_target 10 /\
  registry_relay_udp_datagram_with_dns (W := Script) (R := SystemDnsResolver) sample_registry
    (profile_tag vless_sample) sample_target [1] 10 =
    profile_relay_udp vless_sample sample_target [1] 10.
Proof.
  apply (registry_implements_profiles sample_profiles).
  - vm_compute. reflexivity.
  - apply (bool_decide_unpack _). vm_compute. exact I.
  - apply list_elem_of_In. right. by left.
Defined.

Lemma unregistered_tag_refused_witness :
  registry_connect_with_dns (W := Script) (R := SystemDnsResolver) sample_registry "trojan"
    sample_target 10 = io_fail Unsupported ("outbound tag is not registered: " +:+ "trojan") /\
  registry_relay_udp_datagram_with_dns (W := Script) (R := SystemDnsResolver) sample_registry
    "trojan" sample_target [1] 10 =
    io_fail Unsupported ("outbound tag does not support UDP relay yet: " +:+ "trojan").
Proof.
  apply (unregistered_tag_refused sample_profiles).
  - vm_compute. reflexivity.
  - apply (bool_decide_unpack _). vm_compute. exact I.
Defined.

(** * Limits of the registry *)

(** ** Names in datagrams *)

(** A computation that returns no value. *)
Definition never_ok {S E A} (m : SM S E A) : Prop := forall s a, (m s).2 <> Ok a.

Section NeverOk.
Context {S E : Type}.

Lemma never_ok_bind {A B} (m : SM S E A) (k : A -> SM S E B) :
  (forall a, never_ok (k a)) -> never_ok (sm_bind m k).
Proof.
  intros Hk s b. unfold sm_bind. destruct (m s) as [s' [a|e|]]; [apply Hk|done|done].
Qed.

Lemma never_ok_head {A B} (m : SM S E A) (k : A -> SM S E B) :
  never_ok m -> never_ok (sm_bind m k).
Proof.
  intros Hm s b. unfold sm_bind. specialize (Hm s). destruct (m s) as [s' [a|e|]]; [|done|done].
  by destruct (Hm a).
Qed.

Lemma never_ok_err {A} (e : E) : never_ok (sm_lift (S := S) (A := A) (Err e)).
Proof. by intros s a. Qed.
End NeverOk.

(** Past the binds of a computation. *)
Ltac never_ok_step :=
  apply never_ok_bind; let x := fresh "x" in intros x; try destruct x as [? ?].

Section Leak.
Context {W : Type} {Net : Network W} {R : Type} {Resolver : DnsResolver R}.
Context {SsCrypto : ShadowsocksCrypto} {Crypto : VmessCrypto}.

Lemma never_ok_net {A} (m : SM W IoError A) : never_ok m -> never_ok (net (R := R) m).
Proof.
  intros Hm [dns w] a. unfold net, sm_zoom. cbn [snd]. specialize (Hm w).
  destruct (m w) as [w' [x|e|]]; cbn; [by destruct (Hm x)|done|done].
Qed.

Lemma never_ok_with_transport {A} endpoint transport security timeout
  (k : forall S, ByteStream S -> (S -> OutboundConnection W) -> S -> NM W R A) :
  (forall S Stream plain stream, never_ok (k S Stream plain stream)) ->
  never_ok (with_transport endpoint transport security timeout k).
Proof.
  intros Hk. unfold with_transport.
  destruct transport, security; repeat never_ok_step; auto.
Qed.

(** The system's resolver knows the name at no moment. *)
Definition unresolvable (host : string) : Prop :=
  parse_ip_addr (bare_host host) = None /\
  parse_ip_addr (normalize_host (bare_host host)) = None /\
  forall w, exists e, to_socket_addrs w (normalize_host (bare_host host)) = Err e.

Lemma target_addr_never_ok target timeout :
  unresolvable (target_host target) -> never_ok (outbound_target_socket_addr target timeout).
Proof.
  intros (Hip & Hnorm & Hno) w a.
  unfold outbound_target_socket_addr, with_system_dns, outbound_target_socket_addr_with_dns,
    address_or_resolve, dns_resolve. rewrite Hip.
  destruct (Hno w) as [e He].
  unfold sm_bind, sm_zoom, DnsEngine_resolve, lookup_ips, SystemDnsResolver_resolve. cbn.
  rewrite Hnorm, bool_decide_eq_false_2 by done.
  unfold sm_bind, DnsCache_get, DnsCache_new. cbn. rewrite lookup_empty. cbn.
  unfold SystemDnsResolver_resolve. cbn. by rewrite He.
Qed.

Section Datagram.
Context {S : Type} {Stream : ByteStream S}.

Lemma vless_udp_never_ok (stream : S) uuid flow target payload timeout :
  unresolvable (target_host target) ->
  never_ok (send_vless_udp_over_stream stream uuid flow target payload timeout).
Proof.
  intros Hno. unfold send_vless_udp_over_stream. case_match; [apply never_ok_err|].
  do 6 (never_ok_step).
  by apply never_ok_head, target_addr_never_ok.
Qed.

Lemma vmess_udp_never_ok (stream : S) uuid security target payload timeout :
  unresolvable (target_host target) ->
  never_ok (send_vmess_udp_over_stream stream uuid security target payload timeout).
Proof.
  intros Hno. unfold send_vmess_udp_over_stream. case_match; [apply never_ok_err|].
  do 7 (never_ok_step).
  case_match; [apply never_ok_err|].
  by apply never_ok_head, target_addr_never_ok.
Qed.
End Datagram.

(** A datagram to a name that the system's resolver does not know is never answered
    through VLESS or VMess, whatever the server sends and whatever the DNS engine of the
    caller holds: after the answer has arrived the name is looked up once more, with an
    engine of its own that asks the system. *)
Theorem name_datagram_needs_system_resolver profiles registry profile target payload timeout s
  response
  (Hregistry : from_profiles profiles = Ok registry)
  (Hdistinct : NoDup (map profile_tag profiles))
  (Hin : profile ∈ profiles)
  (Hprotocol : profile_protocol profile = Vless \/ profile_protocol profile = Vmess)
  (Hunknown : unresolvable (target_host target)) :
  snd (registry_relay_udp_datagram_with_dns registry (profile_tag profile) target payload timeout
         s) <> Ok response.
Proof.
  destruct (from_profiles_only profiles registry profile Hregistry Hdistinct Hin)
    as (alone & Halone & Ha).
  rewrite (relay_udp_agree _ _ _ _ _ _ Ha), (relay_udp_alone _ _ _ _ _ Halone).
  revert s response. change (never_ok (profile_relay_udp (R := R) profile target payload timeout)).
  unfold profile_relay_udp.
  destruct Hprotocol as [Hp|Hp]; rewrite Hp; apply never_ok_with_transport; intros S Stream plain
    stream; unfold datagram; rewrite Hp.
  - by apply never_ok_net, vless_udp_never_ok.
  - case_match; [by apply never_ok_net, vmess_udp_never_ok|apply never_ok_err..].
Qed.

(** ** One tag for two profiles *)

(** If a Trojan and a VLESS profile have the same tag, connections go through the Trojan
    server and datagrams through the VLESS server, in whatever order they were added: the
    two dispatchers ask the tables in different orders. *)
Theorem duplicate_tag_splits_traffic tag trojan_server vless_server sni skip_verify password uuid
  flow profiles registry target payload timeout
  (trojan := mkOutboundProfile tag Trojan trojan_server Transport_Tcp
               (Security_Tls sni skip_verify) password None None)
  (vless := mkOutboundProfile tag Vless vless_server Transport_Tcp Security_None uuid None flow)
  (Hprofiles : profiles = [trojan; vless] \/ profiles = [vless; trojan])
  (Hregistry : from_profiles profiles = Ok registry) :
  registry_connect_with_dns registry tag target timeout = profile_connect trojan target timeout /\
  registry_relay_udp_datagram_with_dns registry tag target payload timeout =
    profile_relay_udp vless target payload timeout.
Proof.
  apply from_profiles_ok in Hregistry.
  destruct Hprofiles as [-> | ->]; unfold add_profiles, add_profile, add_trojan_profile, add_vless_profile,
    sm_bind, sm_lift in Hregistry;
    destruct (validate trojan) as [[]|?|], (validate vless) as [[]|?|]; try done;
    injection Hregistry as <-; split; dispatch_alone; reflexivity.
Qed.
End Leak.

Lemma name_datagram_needs_system_resolver_witness :
  snd (registry_relay_udp_datagram_with_dns sample_registry (profile_tag vless_sample)
         sample_target [1] 10 sample_state)
  <> Ok (mkUdpRelayResponse (mkSocketAddr (V4 0) 53) [7; 9]).
Proof.
  apply (name_datagram_needs_system_resolver (W := Script) sample_profiles).
  - vm_compute. reflexivity.
  - apply (bool_decide_unpack _). vm_compute. exact I.
  - apply list_elem_of_In. right. by left.
  - by left.
  - repeat split; [vm_compute; reflexivity..|]. intros w. eexists. vm_compute. reflexivity.
Defined.

Definition split_profiles : list OutboundProfile :=
  [ mkOutboundProfile "proxy" Trojan (mkEndpoint "192.0.2.7" 443) Transport_Tcp
      (Security_Tls None false) "secret" None None;
    mkOutboundProfile "proxy" Vless (mkEndpoint "192.0.2.9" 80) Transport_Tcp Security_None
      sample_uuid None None ].

Definition split_registry : OutboundRegistry :=
  match from_profiles split_profiles with Ok registry => registry | _ => OutboundRegistry_new end.

Lemma duplicate_tag_splits_traffic_witness :
  registry_connect_with_dns (W := Script) (R := SystemDnsResolver) split_registry "proxy"
    sample_target 10 =
  profile_connect
    (mkOutboundProfile "proxy" Trojan (mkEndpoint "192.0.2.7" 443) Transport_Tcp
       (Security_Tls None false) "secret" None None) sample_target 10 /\
  registry_relay_udp_datagram_with_dns (W := Script) (R := SystemDnsResolver) split_registry "proxy"
    sample_target [1] 10 =
  profile_relay_udp
    (mkOutboundProfile "proxy" Vless (mkEndpoint "192.0.2.9" 80) Transport_Tcp Security_None
       sample_uuid None None) sample_target [1] 10.
Proof.
  apply (duplicate_tag_splits_traffic "proxy" (mkEndpoint "192.0.2.7" 443)
           (mkEndpoint "192.0.2.9" 80) None false "secret" sample_uuid None split_profiles).
  - by left.
  - vm_compute. reflexivity.
Defined.
