(* ===== verification/TunRelay.v ===== *)
(** * The relays of the TUN loop over the registry

    [crates/keli-net-core/src/tun.rs]: [RegistryTunTcpSessionRelay], which keeps one outbound
    connection per TCP session, and [RegistryTunUdpRelay]. They are the instances of the
    relay classes that the program runs with.

    [std::thread::sleep] is the class [ThreadSleep]; the texts of [Debug] are arguments. A
    loop over a connection that is interrupted has no bound of its own: it runs for at most
    [turns] turns, and running out is a panic of the model. *)

From stdpp Require Import base gmap strings list numbers.
From S2P Require Import Prelude.
From S2P Require Import StdNet.
From S2P Require Import StdIo.
From S2P Require Import Dns.
From S2P Require Import TunPacket.
From S2P Require Import TunPlan.
From S2P Require Import TunSession.
From S2P Require Import TunProcess.
From S2P Require Import TunLoop.
From S2P Require Import Relay.
From S2P Require Import Framed.
From S2P Require Import Network.
From S2P Require Import Outbound.
From S2P Require Import Registry.
#[local] Open Scope Z_scope.

Definition DEFAULT_TUN_PACKET_MTU : Z := 1500.
Definition DEFAULT_TUN_TCP_RELAY_READ_BUFFER_SIZE : Z := 16384.

(** [Duration::from_millis(1)]. *)
Definition TUN_TCP_RELAY_READ_POLL_INTERVAL : Z := 1000000.

Class ThreadSleep (W : Type) := { thread_sleep : Z -> W -> W }.

Definition tun_tcp_relay_read_buffer_size_for_flow (flow : TunPacketFlow) (configured_size : Z)
  : Z :=
  let max_payload_len :=
    match flow_ip_version flow with
    | Ipv4 => DEFAULT_TUN_PACKET_MTU - 20 - 20
    | Ipv6 => DEFAULT_TUN_PACKET_MTU - 40 - 20
    end in
  Z.min (Z.max configured_size 1) max_payload_len.

(** [Write::write_all] of the standard library, from [write]. *)
Fixpoint connection_write_all {W} {Net : Network W} (turns : nat) (buffer : list Z)
  : SM (OutboundConnection W) IoError unit :=
  if is_empty buffer then sm_ret tt
  else
    match turns with
    | O => sm_lift Panic
    | S turns' =>
        fun connection =>
          match connection_write buffer connection with
          | (connection, Ok written) =>
              if written =? 0
              then (connection, Err (mkIoError WriteZero "failed to write whole buffer"))
              else
                (rest <-! sm_lift (slice buffer written (len buffer));
                 connection_write_all turns' rest) connection
          | (connection, Err error) =>
              if bool_decide (io_kind error = Interrupted)
              then connection_write_all turns' buffer connection
              else (connection, Err error)
          | (connection, Panic) => (connection, Panic)
          end
    end.

(** The system as the relay sees it is one of the fields, beside those of the source. *)
Record RegistryTunTcpSessionRelay {W : Type} {Net : Network W} {R : Type} : Type :=
  mkRegistryTunTcpSessionRelay {
    tcp_outbounds : OutboundRegistry;
    tcp_dns : DnsEngine R;
    tcp_timeout : Z;
    tcp_sessions : gmap TunTcpSessionKey (OutboundConnection W);
    tcp_read_buffer_size : Z;
    tcp_world : W
  }.

Arguments RegistryTunTcpSessionRelay W {Net} R.

#[export] Instance RegistryTunTcpSessionRelay_settable {W} {Net : Network W} {R}
  : Settable (RegistryTunTcpSessionRelay W R) := fun r =>
  mkRegistryTunTcpSessionRelay W Net R (tcp_outbounds r) (tcp_dns r) (tcp_timeout r)
    (tcp_sessions r) (tcp_read_buffer_size r) (tcp_world r).

Section Tcp.
Context {W : Type} {Net : Network W} {Sleep : ThreadSleep W}.
Context {R : Type} {Resolver : DnsResolver R}.
Context {SsCrypto : ShadowsocksCrypto} {Crypto : VmessCrypto}.
Context (turns : nat) (key_debug : TunTcpSessionKey -> string)
  (action_debug : TunPacketRelayAction -> string).

Definition TcpRelayM (A : Type) : Type := RelayM (RegistryTunTcpSessionRelay W R) A.

Definition RegistryTunTcpSessionRelay_new (outbounds : OutboundRegistry) (dns : DnsEngine R)
  (timeout : Z) (world : W) : RegistryTunTcpSessionRelay W R :=
  mkRegistryTunTcpSessionRelay W Net R outbounds dns timeout ∅
    DEFAULT_TUN_TCP_RELAY_READ_BUFFER_SIZE world.

Definition with_read_buffer_size (read_buffer_size : Z) (self : RegistryTunTcpSessionRelay W R)
  : RegistryTunTcpSessionRelay W R :=
  self <| tcp_read_buffer_size := Z.max read_buffer_size 1 |>.

Definition relay_active_session_count (self : RegistryTunTcpSessionRelay W R) : Z :=
  map_len (tcp_sessions self).

(** A method of the registry or of a connector, its error as a text. *)
Definition with_dns {A} (m : NM W R A) : TcpRelayM A :=
  sm_zoom (fun self => (tcp_dns self, tcp_world self))
    (fun s self => self <| tcp_dns := fst s |> <| tcp_world := snd s |>) io_message m.

Definition connect_for_plan (plan : TunPacketRelayPlan) : TcpRelayM (OutboundConnection W) :=
  self <-! sm_get;
  connection <-!
    match plan_relay_action plan with
    | Action_DirectTcp target =>
        with_dns (stream <-! DirectTcpConnector_connect_with_dns target (tcp_timeout self);
                  sm_ret (Connection_Tcp stream))
    | Action_OutboundTcp tag target =>
        with_dns (registry_connect_with_dns (tcp_outbounds self) tag target (tcp_timeout self))
    | action => sm_lift (Err ("unsupported TUN TCP relay action: " +:+ action_debug action))
    end;
  let '(connection, r) := connection_set_nonblocking_mode true connection in
  do! sm_lift (map_err io_message r);
  sm_ret connection.

(** [close_key]; the connection ends with it. *)
Definition close_key (key : TunTcpSessionKey) : TcpRelayM unit :=
  self <-! sm_get;
  match tcp_sessions self !! key with
  | Some connection =>
      do! sm_modify (fun self => self <| tcp_sessions := delete key (tcp_sessions self) |>);
      match snd (connection_shutdown_both connection) with
      | Panic => sm_lift Panic
      | _ => sm_ret tt
      end
  | None => sm_ret tt
  end.

(** A method on the connection of a session. *)
Definition on_session {A} (key : TunTcpSessionKey) (m : SM (OutboundConnection W) IoError A)
  : TcpRelayM A :=
  self <-! sm_get;
  match tcp_sessions self !! key with
  | None => sm_lift (Err ("TUN TCP session is not connected: " +:+ key_debug key))
  | Some connection =>
      let '(connection, r) := m connection in
      do! sm_modify (fun self =>
        self <| tcp_sessions := <[key := connection]> (tcp_sessions self) |>);
      sm_lift (map_err io_message r)
  end.

Definition registry_establish_session (_ : TunTcpSessionRecord) : TcpRelayM unit :=
  sm_lift (Err "registry TUN TCP relay requires a relay plan to establish sessions").

Definition registry_establish_session_with_plan (session : TunTcpSessionRecord)
  (plan : TunPacketRelayPlan) : TcpRelayM unit :=
  do! close_key (ses_key session);
  connection <-! connect_for_plan plan;
  sm_modify (fun self =>
    self <| tcp_sessions := <[ses_key session := connection]> (tcp_sessions self) |>).

Definition registry_write_client_payload (frame : TunTcpClientPayloadFrame) : TcpRelayM unit :=
  on_session (ses_key (cpf_session frame))
    (do! connection_write_all turns (cpf_payload frame); connection_flush).

(** The loop of [read_server_event_until]. *)
Fixpoint read_server_event_loop (turns : nat) (key : TunTcpSessionKey) (size : Z)
  (deadline : option Z) : TcpRelayM TunTcpServerRead :=
  match turns with
  | O => sm_lift Panic
  | S turns' =>
      self <-! sm_get;
      match tcp_sessions self !! key with
      | None => sm_ret ServerRead_Closed
      | Some connection =>
          let '(connection, r) := connection_read size connection in
          do! sm_modify (fun self =>
            self <| tcp_sessions := <[key := connection]> (tcp_sessions self) |>);
          match r with
          | Ok [] => do! close_key key; sm_ret ServerRead_Closed
          | Ok bytes => sm_ret (Payload bytes)
          | Err error =>
              if bool_decide (io_kind error = Interrupted)
              then read_server_event_loop turns' key size deadline
              else if bool_decide (io_kind error = WouldBlock)
                      || bool_decide (io_kind error = TimedOut) then
                match deadline with
                | None => sm_ret NoPayload
                | Some instant =>
                    let now := instant_now (tcp_world self) in
                    if instant <=? now then sm_ret NoPayload
                    else
                      do! sm_modify (fun self =>
                        self <| tcp_world :=
                          thread_sleep (Z.min (Z.max 0 (instant - now))
                                          TUN_TCP_RELAY_READ_POLL_INTERVAL) (tcp_world self) |>);
                      read_server_event_loop turns' key size deadline
                end
              else sm_lift (Err (io_message error))
          | Panic => sm_lift Panic
          end
      end
  end.

Definition read_server_event_until (session : TunTcpSessionRecord) (deadline : option Z)
  : TcpRelayM TunTcpServerRead :=
  self <-! sm_get;
  let read_buffer_size :=
    tun_tcp_relay_read_buffer_size_for_flow (ses_flow session) (tcp_read_buffer_size self) in
  read_server_event_loop turns (ses_key session) read_buffer_size deadline.

Definition registry_read_server_event (session : TunTcpSessionRecord)
  : TcpRelayM TunTcpServerRead :=
  self <-! sm_get;
  read_server_event_until session (Some (instant_now (tcp_world self) + tcp_timeout self)).

Definition registry_poll_server_event (session : TunTcpSessionRecord)
  : TcpRelayM TunTcpServerRead :=
  read_server_event_until session None.

(** [read_server_payload] and [poll_server_payload], from the events. *)
Definition registry_server_payload (event : TcpRelayM TunTcpServerRead)
  : TcpRelayM (option (list Z)) :=
  read <-! event;
  match read with
  | Payload payload => sm_ret (Some payload)
  | NoPayload | ServerRead_Closed => sm_ret None
  end.

Definition registry_close_session (session : TunTcpSessionRecord) : TcpRelayM unit :=
  close_key (ses_key session).

Definition registry_shutdown_client_write (session : TunTcpSessionRecord) : TcpRelayM unit :=
  on_session (ses_key session) connection_shutdown_write.

#[export] Instance registry_tcp_relay : TunTcpSessionRelay (RegistryTunTcpSessionRelay W R) := {
  establish_session := registry_establish_session;
  establish_session_with_plan := registry_establish_session_with_plan;
  write_client_payload := registry_write_client_payload;
  shutdown_client_write := registry_shutdown_client_write;
  read_server_event := registry_read_server_event;
  poll_server_event := registry_poll_server_event;
  close_session := registry_close_session
}.
End Tcp.

(** ** Datagrams *)

Record RegistryTunUdpRelay {W : Type} {R : Type} : Type := mkRegistryTunUdpRelay {
  udp_outbounds : OutboundRegistry;
  udp_dns : DnsEngine R;
  udp_timeout : Z;
  udp_world : W
}.

Arguments RegistryTunUdpRelay : clear implicits.

#[export] Instance RegistryTunUdpRelay_settable {W R} : Settable (RegistryTunUdpRelay W R) :=
  fun r => mkRegistryTunUdpRelay W R (udp_outbounds r) (udp_dns r) (udp_timeout r) (udp_world r).

Section Udp.
Context {W : Type} {Net : Network W} {R : Type} {Resolver : DnsResolver R}.
Context {SsCrypto : ShadowsocksCrypto} {Crypto : VmessCrypto}.

Definition with_udp_dns {A} (m : Z -> NM W R A) : SM (RegistryTunUdpRelay W R) string A :=
  self <-! sm_get;
  sm_zoom (fun self => (udp_dns self, udp_world self))
    (fun s self => self <| udp_dns := fst s |> <| udp_world := snd s |>) io_message
    (m (udp_timeout self)).

Definition registry_udp_relay_datagram (target : OutboundTarget) (payload : list Z)
  : SM (RegistryTunUdpRelay W R) string UdpRelayResponse :=
  with_udp_dns (DirectUdpConnector_relay_datagram_with_dns target payload).

Definition registry_udp_relay_outbound_datagram (tag : string) (target : OutboundTarget)
  (payload : list Z) : SM (RegistryTunUdpRelay W R) string UdpRelayResponse :=
  self <-! sm_get;
  with_udp_dns (registry_relay_udp_datagram_with_dns (udp_outbounds self) tag target payload).

#[export] Instance registry_udp_relay : TunUdpRelay (RegistryTunUdpRelay W R) := {
  relay_udp_datagram := registry_udp_relay_datagram;
  relay_outbound_udp_datagram := registry_udp_relay_outbound_datagram
}.
End Udp.
