(* ===== verification/TunRelaySpec.v ===== *)
(** * What the relays over the registry promise

    A method on a session touches no other session; what a read gives fits one packet of the
    device, and a read ends within its time limit; and what is written to a connection is a
    prefix of what the client sent, whole unless the write fails. *)

From stdpp Require Import base gmap strings list numbers.
From S2P Require Import Prelude.
From S2P Require Import StdNet.
From S2P Require Import StdIo.
From S2P Require Import Dns.
From S2P Require Import TunPacket.
From S2P Require Import TunPlan.
From S2P Require Import TunSession.
From S2P Require Import TunProcess.
From S2P Require Import TunProcessInv.
From S2P Require Import Relay.
From S2P Require Import Framed.
From S2P Require Import Network.
From S2P Require Import Outbound.
From S2P Require Import Registry.
From S2P Require Import StreamSpec.
From S2P Require Import ScriptedNetwork.
From S2P Require Import TunRelay.
#[local] Open Scope Z_scope.

(** ** One session at a time *)

Section Frame.
Context {W : Type} {Net : Network W} {Sleep : ThreadSleep W}.
Context {R : Type} {Resolver : DnsResolver R}.
Context {SsCrypto : ShadowsocksCrypto} {Crypto : VmessCrypto}.
Context (turns : nat) (key_debug : TunTcpSessionKey -> string)
  (action_debug : TunPacketRelayAction -> string).

#[local] Abbreviation Relay := (RegistryTunTcpSessionRelay W R).

(** The step changes at most the connection of [key], opens none unless [opens], and leaves
    the configuration alone. *)
Definition touches (key : TunTcpSessionKey) (opens : bool) (s s' : Relay) : Prop :=
  (forall k, k <> key -> tcp_sessions s' !! k = tcp_sessions s !! k) /\
  (opens = false -> tcp_sessions s !! key = None -> tcp_sessions s' !! key = None) /\
  tcp_outbounds s' = tcp_outbounds s /\ tcp_timeout s' = tcp_timeout s /\
  tcp_read_buffer_size s' = tcp_read_buffer_size s.

Definition local_to {A} (key : TunTcpSessionKey) (opens : bool) (m : TcpRelayM A) : Prop :=
  forall s : Relay, touches key opens s (fst (m s)).

#[local] Instance touches_preorder key opens : PreOrder (touches key opens).
Proof.
  split; [by intros s|]. intros s1 s2 s3 (A1 & B1 & C1 & D1 & E1) (A2 & B2 & C2 & D2 & E2).
  split_and!; [intros k Hk; by rewrite A2, A1|auto|congruence..].
Qed.

Lemma local_ret {A} key opens (a : A) : local_to key opens (sm_ret a).
Proof. intros s. reflexivity. Qed.

Lemma local_lift {A} key opens (r : result string A) : local_to key opens (sm_lift r).
Proof. intros s. reflexivity. Qed.

Lemma local_bind {A B} key opens (m : TcpRelayM A) (k : A -> TcpRelayM B) :
  local_to key opens m -> (forall a, local_to key opens (k a)) -> local_to key opens (sm_bind m k).
Proof.
  intros Hm Hk s. specialize (Hm s). unfold sm_bind. destruct (m s) as [s1 [a| |]]; [|done..].
  cbn in Hm. transitivity s1; [done|apply Hk].
Qed.

(** A computation on the state just read. *)
Lemma local_get {B} key opens (k : Relay -> TcpRelayM B) :
  (forall s, touches key opens s (fst (k s s))) -> local_to key opens (sm_bind sm_get k).
Proof. intros Hk s. apply Hk. Qed.

Lemma local_weaken {A} key (m : TcpRelayM A) : local_to key false m -> local_to key true m.
Proof. intros Hm s. destruct (Hm s) as (H1 & _ & H2). by split_and!; try apply H2. Qed.

Lemma local_with_dns {A} key opens (m : NM W R A) : local_to key opens (with_dns m).
Proof. intros s. unfold with_dns, sm_zoom. by destruct (m _) as [[dns w] r]. Qed.

Lemma local_insert key connection :
  local_to key true (sm_modify (fun self => self <| tcp_sessions := <[key := connection]> (tcp_sessions self) |>)).
Proof. intros s. split_and!; try done. intros k Hk. cbn. by rewrite lookup_insert_ne. Qed.

(** A connection that was there is put back. *)
Lemma touches_put_back key connection connection' (s : Relay) :
  tcp_sessions s !! key = Some connection ->
  touches key false s (s <| tcp_sessions := <[key := connection']> (tcp_sessions s) |>).
Proof.
  intros Hc. split_and!; try done; [intros k Hk; cbn; by rewrite lookup_insert_ne|congruence].
Qed.

Lemma local_close_key key : local_to key false (close_key key).
Proof.
  apply local_get. intros s. destruct (tcp_sessions s !! key) as [connection|] eqn:Hc; [|reflexivity].
  rewrite bind_modify. transitivity (s <| tcp_sessions := delete key (tcp_sessions s) |>).
  - split_and!; try done; [intros k Hk; cbn; by rewrite lookup_delete_ne|].
    intros _ _. cbn. by rewrite lookup_delete_eq.
  - by destruct (snd (connection_shutdown_both connection)).
Qed.

Lemma local_on_session {A} key (m : SM (OutboundConnection W) IoError A) :
  local_to key false (on_session key_debug key m).
Proof.
  apply local_get. intros s. destruct (tcp_sessions s !! key) as [connection|] eqn:Hc; [|reflexivity].
  destruct (m connection) as [connection' r]. rewrite bind_modify. by eapply touches_put_back.
Qed.

Lemma local_connect_for_plan key plan : local_to key false (connect_for_plan action_debug plan).
Proof.
  apply local_get. intros s. apply local_bind.
  - destruct (plan_relay_action plan); try apply local_lift; apply local_with_dns.
  - intros connection. destruct (connection_set_nonblocking_mode true connection) as [connection' r].
    apply local_bind; [apply local_lift|intros; apply local_ret].
Qed.

Lemma local_read_loop n key size deadline : local_to key false (read_server_event_loop n key size deadline).
Proof.
  induction n as [|n IH]; cbn [read_server_event_loop]; [apply local_lift|]. apply local_get. intros s.
  destruct (tcp_sessions s !! key) as [connection|] eqn:Hc; [|reflexivity].
  destruct (connection_read size connection) as [connection' r]. rewrite bind_modify.
  etransitivity; [by eapply (touches_put_back key connection connection')|].
  destruct r as [[|b bytes]|error|]; [|reflexivity| |reflexivity].
  - apply local_bind; [apply local_close_key|intros; apply local_ret].
  - destruct (bool_decide (io_kind error = Interrupted)); [apply IH|].
    destruct (_ || _); [|reflexivity]. destruct deadline as [instant|]; [|reflexivity]. cbv zeta.
    destruct (instant <=? _); [reflexivity|]. rewrite bind_modify. etransitivity; [|apply IH].
    by split_and!.
Qed.

(** Every method of the relay works on the connection of its own session: the connections
    of the other sessions, the registry and the configuration stay as they are; and only
    establishing a session opens a connection. *)
Theorem relay_methods_local session plan frame :
  local_to (ses_key session) true (registry_establish_session_with_plan action_debug session plan) /\
  local_to (ses_key (cpf_session frame)) false (registry_write_client_payload turns key_debug frame) /\
  local_to (ses_key session) false (registry_shutdown_client_write key_debug session) /\
  local_to (ses_key session) false (registry_read_server_event turns session) /\
  local_to (ses_key session) false (registry_poll_server_event turns session) /\
  local_to (ses_key session) false (registry_close_session session).
Proof.
  split_and!.
  - apply local_bind; [apply local_weaken, local_close_key|]. intros _.
    apply local_bind; [apply local_weaken, local_connect_for_plan|]. intros connection. apply local_insert.
  - apply local_on_session.
  - apply local_on_session.
  - apply local_get. intros s. apply local_get. intros s'. apply local_read_loop.
  - apply local_get. intros s'. apply local_read_loop.
  - apply local_close_key.
Qed.
End Frame.

(** ** Reading within the time limit *)

(** Sleeping takes at least the time asked for. *)
Class SleepAdvances (W : Type) {Net : Network W} {Sleep : ThreadSleep W} : Prop :=
  sleep_advances : forall d w, 0 <= d -> instant_now w + d <= instant_now (thread_sleep d w).

(** What a read or a shutdown of a connection does: at most as many bytes as the buffer has,
    no interruption, and no panic. *)
Class CalmConnection {W : Type} {Net : Network W} (calm : OutboundConnection W -> Prop) : Prop := {
  calm_read c n : calm c -> 0 < n ->
    calm (fst (connection_read n c)) /\
    match snd (connection_read n c) with
    | Ok bytes => len bytes <= n
    | Err error => io_kind error <> Interrupted
    | Panic => False
    end;
  calm_shutdown c : calm c -> snd (connection_shutdown_both c) <> Panic
}.

(** The bytes of the headers in front of the payload of a segment. *)
Definition headers_len (flow : TunPacketFlow) : Z :=
  match flow_ip_version flow with Ipv4 => 20 + 20 | Ipv6 => 40 + 20 end.

Section Read.
Context {W : Type} {Net : Network W} {Sleep : ThreadSleep W} {Advances : SleepAdvances W}.
Context {R : Type} {Resolver : DnsResolver R}.
Context (calm : OutboundConnection W -> Prop) {Calm : CalmConnection calm}.

#[local] Abbreviation Relay := (RegistryTunTcpSessionRelay W R).

Definition calm_session (key : TunTcpSessionKey) (s : Relay) : Prop :=
  forall connection, tcp_sessions s !! key = Some connection -> calm connection.

(** What a read may answer, with a buffer of [size] bytes and a deadline. *)
Definition read_answer (key : TunTcpSessionKey) (size : Z) (deadline : option Z) (s' : Relay)
  (outcome : result string TunTcpServerRead) : Prop :=
  match outcome with
  | Ok (Payload bytes) => bytes <> [] /\ len bytes <= size /\ is_Some (tcp_sessions s' !! key)
  | Ok ServerRead_Closed => tcp_sessions s' !! key = None
  | Ok NoPayload =>
      is_Some (tcp_sessions s' !! key) /\
      match deadline with Some instant => instant <= instant_now (tcp_world s') | None => True end
  | Err _ => is_Some (tcp_sessions s' !! key)
  | Panic => False
  end.

Lemma close_calm key (s : Relay) :
  calm_session key s -> exists s', close_key key s = (s', Ok tt) /\ tcp_sessions s' !! key = None.
Proof using Calm.
  intros Hs. unfold close_key. rewrite bind_get.
  destruct (tcp_sessions s !! key) as [connection|] eqn:Hc; [|by exists s].
  rewrite bind_modify. pose proof (calm_shutdown connection (Hs connection Hc)) as Hn.
  destruct (snd (connection_shutdown_both connection)); try done;
    (eexists; split; [reflexivity|]; cbn; apply lookup_delete_eq).
Qed.

(** The number of turns that are enough for what is left of the time. *)
Definition enough_turns (deadline : option Z) (now : Z) (n : nat) : Prop :=
  match deadline with
  | Some instant => instant - now <= TUN_TCP_RELAY_READ_POLL_INTERVAL * (Z.of_nat n - 1)
  | None => (0 < n)%nat
  end.

Lemma read_loop_answers n key size deadline (s : Relay) :
  0 < size -> calm_session key s -> (0 < n)%nat -> enough_turns deadline (instant_now (tcp_world s)) n ->
  let '(s', outcome) := read_server_event_loop n key size deadline s in
  read_answer key size deadline s' outcome.
Proof using Advances Calm.
  intros Hsize. revert s. induction n as [|n IH]; intros s Hs Hn Hturns; [lia|].
  cbn [read_server_event_loop]. rewrite bind_get.
  destruct (tcp_sessions s !! key) as [connection|] eqn:Hc; [|exact Hc].
  destruct (calm_read connection size (Hs connection Hc) Hsize) as [Hcalm Hout].
  destruct (connection_read size connection) as [connection' r]. cbn [fst snd] in *. rewrite bind_modify.
  set (s1 := s <| tcp_sessions := <[key := connection']> (tcp_sessions s) |>).
  assert (tcp_sessions s1 !! key = Some connection') as Hin by apply lookup_insert_eq.
  assert (calm_session key s1) as Hs1 by (intros c Hk; rewrite Hin in Hk; by injection Hk as <-).
  destruct r as [[|b bytes]|error|]; [|by split_and!| |done].
  { destruct (close_calm key s1 Hs1) as (s2 & H2 & Hnone). by rewrite (bind_ok _ _ _ _ _ H2). }
  rewrite bool_decide_eq_false_2 by done.
  destruct (_ || _); [|by exists connection'].
  destruct deadline as [instant|]; [|by split; [exists connection'|]]. cbv zeta.
  change (instant_now (tcp_world s)) with (instant_now (tcp_world s1)) in *.
  destruct (Z.leb_spec instant (instant_now (tcp_world s1))) as [|Hwait]; [by split; [exists connection'|]|].
  rewrite bind_modify. unfold enough_turns, TUN_TCP_RELAY_READ_POLL_INTERVAL in *. cbv beta iota in Hturns.
  set (d := Z.min (Z.max 0 (instant - instant_now (tcp_world s1))) 1000000).
  pose proof (sleep_advances d (tcp_world s1) ltac:(lia)) as Hadv.
  apply IH; [exact Hs1|lia|]. cbv beta iota.
  match goal with |- context [tcp_world ?x] => change (tcp_world x) with (thread_sleep d (tcp_world s1)) end.
  lia.
Qed.

(** A read for the server's answer ends within its time limit, however long the server is
    silent: it gives at least one byte and no more than fit one packet of the device
    behind the headers; or finds the connection ended and forgets it; or fails, with the
    connection kept; or, after the whole time, nothing. The turns of the loop are
    bounded by the limit in milliseconds, and a poll takes one turn. *)
Theorem read_server_event_ends (turns : nat) session (s : Relay) :
  calm_session (ses_key session) s -> 0 <= tcp_timeout s ->
  tcp_timeout s / TUN_TCP_RELAY_READ_POLL_INTERVAL + 2 <= Z.of_nat turns ->
  let size := tun_tcp_relay_read_buffer_size_for_flow (ses_flow session) (tcp_read_buffer_size s) in
  headers_len (ses_flow session) + size <= DEFAULT_TUN_PACKET_MTU /\
  (let '(s', outcome) := registry_read_server_event turns session s in
   read_answer (ses_key session) size (Some (instant_now (tcp_world s) + tcp_timeout s)) s' outcome) /\
  (let '(s', outcome) := registry_poll_server_event turns session s in
   read_answer (ses_key session) size None s' outcome).
Proof using Advances Calm.
  intros Hs Ht Hturns size.
  assert (0 < size /\ headers_len (ses_flow session) + size <= DEFAULT_TUN_PACKET_MTU) as [Hsize Hfits].
  { unfold size, tun_tcp_relay_read_buffer_size_for_flow, headers_len, DEFAULT_TUN_PACKET_MTU.
    destruct (flow_ip_version (ses_flow session)); lia. }
  pose proof (Z.div_mod (tcp_timeout s) TUN_TCP_RELAY_READ_POLL_INTERVAL ltac:(done)).
  pose proof (Z.mod_pos_bound (tcp_timeout s) TUN_TCP_RELAY_READ_POLL_INTERVAL ltac:(done)).
  pose proof (Z.div_pos (tcp_timeout s) TUN_TCP_RELAY_READ_POLL_INTERVAL ltac:(done) ltac:(done)).
  unfold TUN_TCP_RELAY_READ_POLL_INTERVAL in *.
  split; [exact Hfits|]. split.
  - unfold registry_read_server_event, read_server_event_until. rewrite !bind_get.
    apply read_loop_answers; [done|done|lia|].
    unfold enough_turns, TUN_TCP_RELAY_READ_POLL_INTERVAL. nia.
  - unfold registry_poll_server_event, read_server_event_until. rewrite bind_get.
    apply read_loop_answers; [done|done|lia|]. cbn. lia.
Qed.
End Read.

(** ** Writing *)

(** What the code relies on in the writes of a connection: [out] is what has gone out. A
    write takes a part of the buffer from its beginning, and one that fails takes nothing. *)
Class FaithfulConnection {W : Type} {Net : Network W} (faithful : OutboundConnection W -> Prop)
  (out : OutboundConnection W -> list Z) : Prop := {
  faithful_write c bytes : faithful c ->
    let '(c', r) := connection_write bytes c in
    faithful c' /\
    match r with
    | Ok k => 0 <= k <= len bytes /\ out c' = out c ++ take (Z.to_nat k) bytes
    | Err error => io_kind error <> Interrupted /\ out c' = out c
    | Panic => False
    end;
  faithful_flush c : faithful c ->
    let '(c', r) := connection_flush c in faithful c' /\ out c' = out c /\ r <> Panic
}.

Section Write.
Context {W : Type} {Net : Network W} {Sleep : ThreadSleep W}.
Context {R : Type} {Resolver : DnsResolver R}.
Context (faithful : OutboundConnection W -> Prop) (out : OutboundConnection W -> list Z).
Context {Faithful : FaithfulConnection faithful out}.
Context (key_debug : TunTcpSessionKey -> string).

#[local] Abbreviation Relay := (RegistryTunTcpSessionRelay W R).

(** All of the bytes, or a part of them from the beginning and an error. *)
Definition written_to (c c' : OutboundConnection W) (bytes : list Z) (r : result IoError unit) : Prop :=
  match r with
  | Ok _ => out c' = out c ++ bytes
  | Err _ => exists taken rest, bytes = taken ++ rest /\ out c' = out c ++ taken
  | Panic => False
  end.

Lemma write_all_spec turns bytes c :
  faithful c -> (length bytes <= turns)%nat ->
  let '(c', r) := connection_write_all turns bytes c in faithful c' /\ written_to c c' bytes r.
Proof using Faithful.
  revert bytes c. induction turns as [|turns IH]; intros bytes c Hc Hlen.
  { destruct bytes; [|cbn in Hlen; lia]. split; [done|]. cbn. by rewrite app_nil_r. }
  destruct bytes as [|b bytes]; [split; [done|]; cbn; by rewrite app_nil_r|].
  set (buffer := b :: bytes) in *. cbn [connection_write_all]. change (is_empty buffer) with false. cbv beta iota.
  pose proof (faithful_write c buffer Hc) as Hw.
  destruct (connection_write buffer c) as [c1 [k|error|]]; destruct Hw as [Hc1 Hw]; [| |done].
  2: { rewrite bool_decide_eq_false_2 by apply Hw. split; [done|]. exists [], buffer.
       rewrite app_nil_r. by split; [|apply Hw]. }
  destruct Hw as [Hk Hout]. destruct (Z.eqb_spec k 0) as [->|Hk0].
  { split; [done|]. exists [], buffer. by rewrite Hout. }
  assert (slice buffer k (len buffer) = @Ok IoError _ (drop (Z.to_nat k) buffer)) as Hs.
  { rewrite slice_ok by lia. unfold sub_list. rewrite take_ge; [done|]. rewrite length_drop. unfold len in *. lia. }
  rewrite (bind_lift_ok _ _ _ _ Hs).
  specialize (IH (drop (Z.to_nat k) buffer) c1 Hc1 ltac:(rewrite length_drop; lia)).
  destruct (connection_write_all turns (drop (Z.to_nat k) buffer) c1) as [c2 r].
  destruct IH as [Hc2 IH]. split; [done|]. destruct r as [?|error|]; cbn [written_to] in *; [| |done].
  - by rewrite IH, Hout, <- app_assoc, take_drop.
  - destruct IH as (taken & rest & Hd & Ho).
    exists (take (Z.to_nat k) buffer ++ taken), rest.
    by rewrite <- app_assoc, <- Hd, take_drop, Ho, Hout, <- app_assoc.
Qed.

(** A payload that the relay accepts has gone out whole on the connection of its session;
    one that it refuses has gone out up to some point, in order, and the connection is
    kept. A session without a connection is refused and nothing changes. *)
Theorem client_payload_written turns frame (s : Relay) :
  (length (cpf_payload frame) <= turns)%nat ->
  let key := ses_key (cpf_session frame) in
  let '(s', r) := registry_write_client_payload turns key_debug frame s in
  match tcp_sessions s !! key with
  | None => s' = s /\ exists error, r = Err error
  | Some c =>
      faithful c ->
      exists c', tcp_sessions s' !! key = Some c' /\ faithful c' /\
        match r with
        | Ok _ => out c' = out c ++ cpf_payload frame
        | Err _ => exists n, out c' = out c ++ take n (cpf_payload frame)
        | Panic => False
        end
  end.
Proof using Faithful.
  intros Hlen key. unfold registry_write_client_payload, on_session. rewrite bind_get. fold key.
  destruct (tcp_sessions s !! key) as [c|]; [|by split; [|eexists]].
  pose proof (write_all_spec turns (cpf_payload frame) c) as Hw. unfold sm_bind at 1.
  destruct (connection_write_all turns (cpf_payload frame) c) as [c1 [u|error|]]; cbv iota.
  - pose proof (faithful_flush c1) as Hf. destruct (connection_flush c1) as [c2 r]. rewrite bind_modify.
    intros Hc. destruct (Hw Hc Hlen) as [Hc1 Ho]. destruct (Hf Hc1) as (Hc2 & Ho2 & Hn).
    exists c2. split; [apply lookup_insert_eq|]. split; [done|]. cbn [written_to] in Ho.
    destruct r as [?|error|]; [by rewrite Ho2, Ho| |done]. exists (length (cpf_payload frame)).
    by rewrite Ho2, Ho, firstn_all.
  - rewrite bind_modify. intros Hc. destruct (Hw Hc Hlen) as [Hc1 (taken & rest & Hd & Ho)].
    exists c1. split; [apply lookup_insert_eq|]. split; [done|]. exists (length taken).
    by rewrite Hd, take_app_length.
  - rewrite bind_modify. intros Hc. by destruct (Hw Hc Hlen).
Qed.
End Write.

(** ** Pipes as connections *)

#[export] Instance Script_sleep : ThreadSleep Script := {
  thread_sleep d script :=
    mkScript (script_bytes script) (script_datagram script) (script_now script + d)
}.

#[export] Instance Script_sleep_advances : SleepAdvances Script.
Proof. intros d script Hd. cbn. lia. Qed.

(** A connection that is a pipe, and what was written to it. *)
Definition is_pipe (c : OutboundConnection Script) : Prop :=
  exists p : Pipe, c = Connection_Owned p /\ io_kind (at_end p) <> Interrupted.

Definition pipe_out (c : OutboundConnection Script) : list Z :=
  match c with
  | Connection_Tcp p => outgoing p
  | Connection_WebSocket p => outgoing p
  | Connection_Owned _ => []
  end.

Definition is_tcp (c : OutboundConnection Script) : Prop := exists p : Pipe, c = Connection_Tcp p.

#[export] Instance pipe_calm : CalmConnection is_pipe.
Proof.
  split; [|by intros c (p & -> & _)]. intros c n (p & -> & Hp) Hn.
  unfold connection_read, on_stream. cbn [stream_read Pipe_relay].
  destruct (is_empty (incoming p) && bool_decide (io_kind (at_end p) = WouldBlock)) eqn:He; cbn.
  - split; [by exists p|exact Hp].
  - split; [by eexists|]. unfold len. rewrite length_take. lia.
Qed.

#[export] Instance tcp_faithful : FaithfulConnection is_tcp pipe_out.
Proof.
  split; [|by intros c [p ->]; split_and!; [exists p|..]]. intros c bytes [p ->]. cbn.
  split; [by eexists|]. split; [pose proof (len_nonneg bytes); lia|].
  unfold len. by rewrite Nat2Z.id, firstn_all.
Qed.

(** A relay with one connection, and a limit of three milliseconds. *)
Definition sample_relay (c : OutboundConnection Script) : RegistryTunTcpSessionRelay Script SystemDnsResolver :=
  (RegistryTunTcpSessionRelay_new OutboundRegistry_new
     (DnsEngine_new (mkSystemDnsResolver script_lookup) (DnsCache_new 60)) 3000000 (mkScript [] [] 7))
  <| tcp_sessions := {[ ses_key sample_session := c ]} |>.

Definition silent_relay : RegistryTunTcpSessionRelay Script SystemDnsResolver :=
  sample_relay (Connection_Owned (mkPipe [] no_data_yet [])).

Lemma read_server_event_ends_witness :
  let run := registry_read_server_event 5 sample_session silent_relay in
  read_answer (ses_key sample_session) 1460 (Some 3000007) (fst run) (snd run) /\
  snd run = Ok NoPayload /\ script_now (tcp_world (fst run)) = 3000007.
Proof.
  split; [|split; vm_compute; reflexivity].
  destruct (read_server_event_ends is_pipe 5 sample_session silent_relay) as (_ & Hread & _).
  - intros c Hc. unfold silent_relay, sample_relay in Hc. cbn [tcp_sessions] in Hc.
    change (({[ ses_key sample_session := Connection_Owned (mkPipe [] no_data_yet []) ]}
      : gmap TunTcpSessionKey (OutboundConnection Script)) !! ses_key sample_session = Some c) in Hc.
    rewrite lookup_singleton_eq in Hc. injection Hc as <-. by eexists.
  - done.
  - by vm_compute.
  - rewrite (surjective_pairing (registry_read_server_event 5 sample_session silent_relay)) in Hread.
    exact Hread.
Defined.

Lemma client_payload_written_witness :
  let frame := mkTunTcpClientPayloadFrame sample_session 0 0 [1; 2; 3] [] in
  let s := sample_relay (Connection_Tcp (mkPipe [] no_data_yet [9])) in
  let '(s', r) := registry_write_client_payload 3 (fun _ => "key") frame s in
  exists c', tcp_sessions s' !! ses_key sample_session = Some c' /\ pipe_out c' = [9; 1; 2; 3].
Proof.
  intros frame s.
  pose proof (client_payload_written is_tcp pipe_out (fun _ => "key") 3 frame s ltac:(cbn; lia)) as Hw.
  cbv zeta in Hw.
  assert (snd (registry_write_client_payload 3 (fun _ => "key") frame s) = Ok tt) as Hok
    by (vm_compute; reflexivity).
  destruct (registry_write_client_payload 3 (fun _ => "key") frame s) as [s' r].
  change (tcp_sessions s !! ses_key (cpf_session frame))
    with (Some (Connection_Tcp (mkPipe [] no_data_yet [9]) : OutboundConnection Script)) in Hw.
  destruct (Hw ltac:(by eexists)) as (c' & Hc & _ & Ho). exists c'. split; [exact Hc|].
  cbn in Hok. rewrite Hok in Ho. exact Ho.
Defined.
