(* ===== verification/H2Stream.v ===== *)
(** * Streams over HTTP/2

    [GrpcTcpStream] of [crates/keli-net-core/src/grpc.rs] and [Http2TcpStream] of
    [crates/keli-net-core/src/http2.rs] have the same fields and the same methods up to what
    they put into the HTTP/2 stream and the name in the texts of their errors, which is
    the argument [name] here.

    The HTTP/2 stack is a parameter: a stream to send on is the class [H2SendStream]. What
    arrives passes through a channel from a task of its own; a [Receiver] is the channel at
    one moment.

    The transport of [http2.rs] itself follows, and that of [naive.rs] over HTTP/2.

    The transport of [grpc.rs] is the last part: the path of the service, the hunks that carry
    the bytes of a connection, and the stream. What the HTTP/2 stream receives is a list of
    pieces. Sums of [usize] are checked, as in a build with overflow checks: an overflow is
    a panic. *)

From Stdlib Require Import Ascii.
From stdpp Require Import base strings list numbers.
From S2P Require Import Prelude.
From S2P Require Import StdNet.
From S2P Require Import StdIo.
From S2P Require Import Relay.
From S2P Require Import StdText.
From S2P Require Import Profile.
From S2P Require Import Codec.
From S2P Require Import ProxyWire.
From S2P Require Import Framed.
#[local] Open Scope Z_scope.

(** ** The request *)

Definition h2_authority (host : string) : string :=
  let host := bare_host host in
  match parse_ipv6 host with
  | Some _ => "[" +:+ host +:+ "]"
  | None => host
  end.

Definition h2_request_uri (tls : bool) (host path : string) : string :=
  let scheme := if tls then "https" else "http" in
  scheme +:+ "://" +:+ h2_authority host +:+ path.

(** ** The stream *)

(** [mpsc::Receiver]: what has been sent and not received, and whether the sender is still
    there. *)
Record Receiver : Type := mkReceiver {
  rx_queue : list (result IoError (list Z));
  rx_sender : bool
}.

Class H2SendStream (H : Type) := {
  reserve_capacity : Z -> H -> H;
  poll_capacity : SM H IoError (option Z);
  send_data : list Z -> bool -> SM H IoError unit
}.

Record H2Stream (H : Type) : Type := mkH2Stream {
  h2_send : H;
  h2_read_rx : Receiver;
  h2_read_buffer : list Z;
  h2_read_offset : Z;
  h2_nonblocking : bool;
  h2_eof : bool
}.

Arguments mkH2Stream {H}.
Arguments h2_send {H}.
Arguments h2_read_rx {H}.
Arguments h2_read_buffer {H}.
Arguments h2_read_offset {H}.
Arguments h2_nonblocking {H}.
Arguments h2_eof {H}.

#[export] Instance set_H2Stream {H} : Settable (H2Stream H) := fun s =>
  mkH2Stream (h2_send s) (h2_read_rx s) (h2_read_buffer s) (h2_read_offset s)
    (h2_nonblocking s) (h2_eof s).

Section Stream.
Context (name : string) {H : Type} {Send : H2SendStream H}.

Definition H2M (A : Type) : Type := SM (H2Stream H) IoError A.

Definition h2_set_nonblocking_mode (nonblocking : bool) : H2M unit :=
  sm_modify (fun s => s <| h2_nonblocking := nonblocking |>).

(** [read_from_buffer]: [None] if the buffer is used up. *)
Definition h2_read_from_buffer (amount : Z) : H2M (option (list Z)) :=
  s <-! sm_get;
  if len (h2_read_buffer s) <=? h2_read_offset s then
    do! sm_modify (fun s => s <| h2_read_buffer := [] |> <| h2_read_offset := 0 |>);
    sm_ret None
  else
    bytes <-! sm_lift (take_buffered (h2_read_buffer s) (h2_read_offset s) amount);
    let offset := h2_read_offset s + len bytes in
    do! sm_modify (fun s =>
      if len (h2_read_buffer s) <=? offset
      then s <| h2_read_buffer := [] |> <| h2_read_offset := 0 |>
      else s <| h2_read_offset := offset |>);
    sm_ret (Some bytes).

(** [read_rx.try_recv()] or [read_rx.recv()]: [None] if the sender is gone. A call of [recv]
    that waits for ever is a panic of the model. *)
Definition h2_receive : H2M (option (list Z)) :=
  s <-! sm_get;
  match rx_queue (h2_read_rx s) with
  | received :: queue =>
      do! sm_modify (fun s =>
        s <| h2_read_rx := mkReceiver queue (rx_sender (h2_read_rx s)) |>);
      bytes <-! sm_lift received;
      sm_ret (Some bytes)
  | [] =>
      if negb (rx_sender (h2_read_rx s)) then sm_ret None
      else if h2_nonblocking s
      then io_fail WouldBlock (name +:+ " stream has no data available")
      else sm_lift Panic
  end.

Definition h2_receive_next_read_chunk : H2M bool :=
  s <-! sm_get;
  if h2_eof s then sm_ret false
  else
    received <-! h2_receive;
    match received with
    | None => do! sm_modify (fun s => s <| h2_eof := true |>); sm_ret false
    | Some received =>
        if is_empty received
        then do! sm_modify (fun s => s <| h2_eof := true |>); sm_ret false
        else
          do! sm_modify (fun s => s <| h2_read_buffer := received |>
                                    <| h2_read_offset := 0 |>);
          sm_ret true
    end.

(** [Read::read]. *)
Definition h2_read (amount : Z) : H2M (list Z) :=
  if amount =? 0 then sm_ret []
  else
    buffered <-! h2_read_from_buffer amount;
    match buffered with
    | Some bytes => sm_ret bytes
    | None =>
        more <-! h2_receive_next_read_chunk;
        if negb more then sm_ret []
        else
          bytes <-! h2_read_from_buffer amount;
          sm_ret (default [] bytes)
    end.

(** The loop over [poll_capacity], for at most [polls] polls. *)
Fixpoint wait_capacity (polls : nat) : SM H IoError Z :=
  match polls with
  | O => sm_lift Panic
  | Datatypes.S polls' =>
      capacity <-! poll_capacity;
      match capacity with
      | Some capacity => if 0 <? capacity then sm_ret capacity else wait_capacity polls'
      | None => io_fail BrokenPipe (name +:+ " stream closed before data capacity was assigned")
      end
  end.

(** The loop of [send_h2_data_loop]; every turn sends a byte. *)
Fixpoint send_h2_chunks (fuel polls : nat) (data : list Z) (end_stream : bool)
  : SM H IoError unit :=
  if is_empty data then sm_ret tt
  else
    match fuel with
    | O => sm_lift Panic
    | Datatypes.S fuel' =>
        do! sm_modify (reserve_capacity (len data));
        capacity <-! wait_capacity polls;
        let chunk_len := Z.to_nat (Z.min capacity (len data)) in
        let rest := drop chunk_len data in
        do! send_data (take chunk_len data) (end_stream && is_empty rest);
        send_h2_chunks fuel' polls rest end_stream
    end.

Definition send_h2_data_loop (polls : nat) (data : list Z) (end_stream : bool)
  : SM H IoError unit :=
  if is_empty data then send_data data end_stream
  else send_h2_chunks (length data) polls data end_stream.

Definition h2_on_send {A} (m : SM H IoError A) : H2M A :=
  sm_zoom h2_send (fun h s => s <| h2_send := h |>) id m.

(** [Write::write] of a buffer whose bytes on the HTTP/2 stream are [data]. *)
Definition h2_write_data (polls : nat) (buffer data : list Z) : H2M Z :=
  if is_empty buffer then sm_ret 0
  else
    do! h2_on_send (send_h2_data_loop polls data false);
    sm_ret (len buffer).

Definition h2_shutdown_write (polls : nat) : H2M unit :=
  h2_on_send (send_h2_data_loop polls [] true).

(** [shutdown_both]; the tasks end with it. *)
Definition h2_shutdown_both (polls : nat) : H2M unit :=
  ignore (h2_shutdown_write polls).
End Stream.

(** * The HTTP/2 transport *)

Definition DEFAULT_H2_PATH : string := "/".

Definition http2_authority (host : string) : string := h2_authority host.

Definition http2_request_uri (tls : bool) (host path : string) : string :=
  h2_request_uri tls host path.

Definition normalize_path (path : string) : string :=
  let path := trim path in
  if String.eqb path "" then DEFAULT_H2_PATH
  else if starts_with path "/" then path
  else "/" +:+ path.

(** [read_h2_data]: what goes through the channel for the pieces the HTTP/2 stream gives
    until it ends. *)
Fixpoint read_h2_data (pieces : list (result IoError (list Z)))
  : list (result IoError (list Z)) :=
  match pieces with
  | [] => [Ok []]
  | Ok bytes :: pieces' => Ok bytes :: read_h2_data pieces'
  | error :: _ => [error]
  end.

Definition http2_read {H} (amount : Z) : SM (H2Stream H) IoError (list Z) := h2_read "h2" amount.

Definition send_h2_data {H} {Send : H2SendStream H} (polls : nat) (data : list Z)
  (end_stream : bool) : SM H IoError unit :=
  send_h2_data_loop "h2" polls data end_stream.

Definition http2_write {H} {Send : H2SendStream H} (polls : nat) (buffer : list Z)
  : SM (H2Stream H) IoError Z :=
  h2_write_data "h2" polls buffer buffer.

Definition http2_shutdown_write {H} {Send : H2SendStream H} (polls : nat)
  : SM (H2Stream H) IoError unit :=
  h2_shutdown_write "h2" polls.

Example normalize_empty_path : normalize_path "" = "/".
Proof. reflexivity. Qed.

Example normalize_relative_path : normalize_path "h2" = "/h2".
Proof. reflexivity. Qed.

Example uri_with_ipv6_authority : http2_request_uri true "::1" "/h2" = "https://[::1]/h2".
Proof. vm_compute. reflexivity. Qed.

(** * The Naive transport over HTTP/2

    [NaiveH2TcpStream] of [crates/keli-net-core/src/naive.rs], which reads as the others do
    and sends without waiting for capacity. *)

Definition connect_authority (target : Endpoint) : string :=
  match parse_ip_addr (ep_host target) with
  | Some (V6 _) => "[" +:+ ep_host target +:+ "]:" +:+ to_decimal (ep_port target)
  | _ => ep_host target +:+ ":" +:+ to_decimal (ep_port target)
  end.

Definition naive_read {H} (amount : Z) : SM (H2Stream H) IoError (list Z) := h2_read "Naive H2" amount.

Section Naive.
Context {H : Type} {Send : H2SendStream H}.

(** The loop over the pieces of a buffer; the last one ends the stream if asked to. *)
Fixpoint naive_send_chunks (pieces : list (list Z)) (end_stream : bool) : SM H IoError unit :=
  match pieces with
  | [] => sm_ret tt
  | piece :: pieces' =>
      do! send_data piece (end_stream && is_empty pieces');
      naive_send_chunks pieces' end_stream
  end.

Definition naive_send_h2_data (buffer : list Z) (end_stream : bool) : SM H IoError unit :=
  if is_empty buffer then if end_stream then send_data [] true else sm_ret tt
  else naive_send_chunks (chunks 16384 buffer) end_stream.

Definition naive_write (buffer : list Z) : SM (H2Stream H) IoError Z :=
  do! h2_on_send (naive_send_h2_data buffer false);
  sm_ret (len buffer).

Definition naive_shutdown_write : SM (H2Stream H) IoError unit := h2_on_send (naive_send_h2_data [] true).

Definition naive_shutdown_both : SM (H2Stream H) IoError unit := ignore naive_shutdown_write.

End Naive.

(** * The gRPC transport *)

Definition DEFAULT_SERVICE_NAME : string := "GunService".
Definition MAX_GRPC_MESSAGE_SIZE : Z := 16777216.

Definition u64_modulus : Z := 18446744073709551616.

(** [a + b] of [usize]. *)
Definition usize_add {E} (a b : Z) : result E Z :=
  if a + b <? u64_modulus then Ok (a + b) else Panic.

(** ** The request *)

Definition grpc_authority (host : string) : string := h2_authority host.

Definition grpc_request_uri (tls : bool) (host path : string) : string :=
  h2_request_uri tls host path.

Definition first_non_empty (value fallback : string) : string :=
  if String.eqb (trim value) "" then fallback else value.

(** [trim_start_matches('/')] and [trim_matches('/')]. *)
Fixpoint trim_start_slashes (s : string) : string :=
  match s with
  | String c s' => if Ascii.eqb c "/"%char then trim_start_slashes s' else s
  | EmptyString => EmptyString
  end.

Definition trim_slashes (s : string) : string :=
  trim_end_matches "/"%char (trim_start_slashes s).

Definition grpc_tun_path (service_name : string) : string :=
  let service_name := trim service_name in
  if String.eqb service_name "" then "/" +:+ DEFAULT_SERVICE_NAME +:+ "/Tun"
  else if negb (starts_with service_name "/") then "/" +:+ service_name +:+ "/Tun"
  else
    let trimmed := trim_start_slashes service_name in
    match rsplit_once "/"%char trimmed with
    | None => "/" +:+ trim_slashes trimmed +:+ "/Tun"
    | Some (prefix, ending) =>
        let tun := trim (default "Tun" (head (split_on "|"%char ending))) in
        "/" +:+ trim_slashes prefix +:+ "/" +:+ first_non_empty tun "Tun"
    end.

(** ** Variable-length integers *)

(** The loop of [encode_varint]; a value of 64 bits has at most ten groups of seven bits. *)
Fixpoint encode_varint_loop (fuel : nat) (value : Z) : list Z :=
  match fuel with
  | O => [as_u8 value]
  | Datatypes.S fuel' =>
      if 128 <=? value
      then Z.lor (as_u8 value) 128 :: encode_varint_loop fuel' (Z.shiftr value 7)
      else [as_u8 value]
  end.

Definition encode_varint (value : Z) : list Z := encode_varint_loop 10 value.

(** The loop of [decode_varint]; the state is the cursor. *)
Fixpoint decode_varint_loop (fuel : nat) (input : list Z) (value shift : Z)
  : SM Z IoError Z :=
  match fuel with
  | O => sm_lift Panic
  | Datatypes.S fuel' =>
      cursor <-! sm_get;
      if (cursor <? len input) && (shift <? 64) then
        byte <-! sm_lift (index input cursor);
        do! sm_modify (fun cursor => cursor + 1);
        let value := Z.lor value (Z.shiftl (Z.land byte 127) shift mod u64_modulus) in
        if Z.land byte 128 =? 0 then sm_ret value
        else decode_varint_loop fuel' input value (shift + 7)
      else io_fail InvalidData "invalid gRPC hunk varint"
  end.

Definition decode_varint (input : list Z) : SM Z IoError Z := decode_varint_loop 11 input 0 0.

(** ** Hunks *)

Definition encode_hunk_message (payload : list Z) : list Z :=
  [10] ++ encode_varint (len payload) ++ payload.

Definition encode_grpc_hunk (payload : list Z) : list Z :=
  let message := encode_hunk_message payload in
  [0] ++ to_be_bytes 4 (as_u32 (len message)) ++ message.

(** [take_grpc_message]; the state is the buffer. *)
Definition take_grpc_message : SM (list Z) IoError (option (list Z)) :=
  buffer <-! sm_get;
  if len buffer <? 5 then sm_ret None
  else
    flag <-! sm_lift (index buffer 0);
    if negb (flag =? 0)
    then io_fail Unsupported "compressed gRPC hunk messages are not supported"
    else
      b1 <-! sm_lift (index buffer 1); b2 <-! sm_lift (index buffer 2);
      b3 <-! sm_lift (index buffer 3); b4 <-! sm_lift (index buffer 4);
      let length := from_be_bytes [b1; b2; b3; b4] in
      if MAX_GRPC_MESSAGE_SIZE <? length
      then io_fail InvalidData "gRPC hunk message is too large"
      else if len buffer <? 5 + length then sm_ret None
      else
        message <-! sm_lift (slice buffer 5 (5 + length));
        do! sm_modify (drop (Z.to_nat (5 + length)));
        sm_ret (Some message).

(** The length of a field, checked against the message; the cursor is at its data. *)
Definition field_end (message : list Z) (truncated : string) : SM Z IoError Z :=
  length <-! decode_varint message;
  cursor <-! sm_get;
  end_ <-! sm_lift (usize_add cursor length);
  if len message <? end_ then io_fail UnexpectedEof truncated else sm_ret end_.

(** The loop of [decode_hunk_message]; every turn reads a byte, so that the length of the
    message is enough fuel. *)
Fixpoint decode_hunk_fields (fuel : nat) (message : list Z) (data : option (list Z))
  : SM Z IoError (list Z) :=
  cursor <-! sm_get;
  if cursor <? len message then
    match fuel with
    | O => sm_lift Panic
    | Datatypes.S fuel' =>
        key <-! decode_varint message;
        let field := Z.shiftr key 3 in
        let wire := Z.land key 7 in
        if (field =? 1) && (wire =? 2) then
          end_ <-! field_end message "truncated gRPC hunk data";
          cursor <-! sm_get;
          bytes <-! sm_lift (slice message cursor end_);
          do! sm_modify (fun _ => end_);
          decode_hunk_fields fuel' message (Some bytes)
        else if wire =? 0 then
          do! decode_varint message;
          decode_hunk_fields fuel' message data
        else if wire =? 2 then
          end_ <-! field_end message "truncated gRPC hunk field";
          do! sm_modify (fun _ => end_);
          decode_hunk_fields fuel' message data
        else io_fail InvalidData "unsupported gRPC hunk wire type"
    end
  else sm_ret (default [] data).

Definition decode_hunk_message (message : list Z) : result IoError (list Z) :=
  snd (decode_hunk_fields (length message) message None 0).

(** ** The reader task *)

(** The inner loop of [read_grpc_hunks]: what is sent for the messages in the buffer, the
    buffer that is left, and whether the task goes on. Every message takes at least five
    bytes of the buffer. *)
Fixpoint drain_hunks (fuel : nat) (buffer : list Z)
  : list (result IoError (list Z)) * list Z * bool :=
  match take_grpc_message buffer with
  | (buffer, Ok (Some message)) =>
      match fuel with
      | O => ([Panic], buffer, false)
      | Datatypes.S fuel' =>
          match decode_hunk_message message with
          | Ok data =>
              let '(sent, buffer, alive) := drain_hunks fuel' buffer in
              (Ok data :: sent, buffer, alive)
          | error => ([error], buffer, false)
          end
      end
  | (buffer, Ok None) => ([], buffer, true)
  | (buffer, Err error) => ([Err error], buffer, false)
  | (buffer, Panic) => ([Panic], buffer, false)
  end.

(** [read_grpc_hunks]: what goes through the channel for the pieces the HTTP/2 stream
    gives until it ends; the receiver is there. *)
Fixpoint read_grpc_hunks (pieces : list (result IoError (list Z))) (buffer : list Z)
  : list (result IoError (list Z)) :=
  match pieces with
  | [] => [Ok []]
  | Ok bytes :: pieces' =>
      let '(sent, buffer, alive) :=
        drain_hunks (length (buffer ++ bytes)) (buffer ++ bytes) in
      if alive then sent ++ read_grpc_hunks pieces' buffer else sent
  | error :: _ => [error]
  end.

(** ** The stream *)

Definition grpc_read {H} (amount : Z) : SM (H2Stream H) IoError (list Z) := h2_read "gRPC" amount.

Definition send_grpc_data {H} {Send : H2SendStream H} (polls : nat) (data : list Z)
  (end_stream : bool) : SM H IoError unit :=
  send_h2_data_loop "gRPC" polls data end_stream.

Definition grpc_write {H} {Send : H2SendStream H} (polls : nat) (buffer : list Z)
  : SM (H2Stream H) IoError Z :=
  h2_write_data "gRPC" polls buffer (encode_grpc_hunk buffer).

Definition grpc_shutdown_write {H} {Send : H2SendStream H} (polls : nat)
  : SM (H2Stream H) IoError unit :=
  h2_shutdown_write "gRPC" polls.

Example tun_path_service : grpc_tun_path "GunService" = "/GunService/Tun".
Proof. reflexivity. Qed.

Example tun_path_custom : grpc_tun_path "/my/sample/path1|path2" = "/my/sample/path1".
Proof. reflexivity. Qed.

Example tun_path_default : grpc_tun_path "" = "/GunService/Tun".
Proof. reflexivity. Qed.
