(* ===== verification/H2Spec.v ===== *)
(** * What the streams over HTTP/2 deliver

    Hunks of gRPC round trip and arrive however the HTTP/2 stream cuts them; what is written
    is sent in order and the end is marked once. Two theorems record defects: a length in a
    hunk that overflows, and an empty frame that is taken for the end of the stream. *)

From stdpp Require Import base strings list numbers.
From S2P Require Import Prelude.
From S2P Require Import StdIo.
From S2P Require Import Relay.
From S2P Require Import CodecSpec.
From S2P Require Import ProxyWire.
From S2P Require Import Framed.
From S2P Require Import StreamSpec.
From S2P Require Import H2Stream.
#[local] Open Scope Z_scope.

(** ** Variable-length integers *)

Lemma low_group v : 0 <= v -> Z.land (Z.lor (as_u8 v) 128) 127 = v mod 128.
Proof.
  intros Hv. unfold as_u8. change 127 with (Z.ones 7). rewrite Z.land_ones by lia.
  change 128 with (2 ^ 7). apply Z.bits_inj'. intros i Hi.
  destruct (Z.lt_ge_cases i 7).
  - rewrite !Z.mod_pow2_bits_low by lia. rewrite Z.lor_spec.
    change 256 with (2 ^ 8). rewrite Z.mod_pow2_bits_low by lia.
    rewrite Z.pow2_bits_false by lia. by rewrite orb_false_r.
  - by rewrite !Z.mod_pow2_bits_high by lia.
Qed.

Lemma continuation_bit v : (Z.land (Z.lor (as_u8 v) 128) 128 =? 0) = false.
Proof.
  apply Z.eqb_neq. intros H. apply (f_equal (fun x => Z.testbit x 7)) in H.
  rewrite Z.land_spec, Z.lor_spec in H. change (Z.testbit 128 7) with true in H.
  rewrite orb_true_r in H. done.
Qed.

Lemma last_group v : 0 <= v < 128 -> Z.land (as_u8 v) 127 = v /\ (Z.land (as_u8 v) 128 =? 0) = true.
Proof.
  intros Hv. unfold as_u8. rewrite (Z.mod_small v 256) by lia. split.
  - change 127 with (Z.ones 7). rewrite Z.land_ones by lia. apply Z.mod_small. lia.
  - apply Z.eqb_eq, Z.bits_inj'. intros i Hi. rewrite Z.land_spec, Z.bits_0.
    change 128 with (2 ^ 7). destruct (Z.eq_dec i 7) as [->|].
    + rewrite (Z.bits_above_log2 v 7); [done|lia|].
      destruct (Z.eq_dec v 0) as [->|]; [done|]. apply Z.log2_lt_pow2; lia.
    + rewrite Z.pow2_bits_false by lia. apply andb_false_r.
Qed.

Lemma lor_group value shift x :
  0 <= shift -> 0 <= value < 2 ^ shift -> 0 <= x -> x * 2 ^ shift < u64_modulus ->
  Z.lor value (Z.shiftl x shift mod u64_modulus) = value + x * 2 ^ shift.
Proof.
  intros Hs Hv Hx Hb. rewrite Z.shiftl_mul_pow2, Z.mod_small by (try split; nia).
  rewrite Z.lor_comm, lor_tag by lia. lia.
Qed.

Lemma index_app {E} (pre : list Z) x post : @index E Z (pre ++ x :: post) (len pre) = Ok x.
Proof.
  unfold index. pose proof (len_nonneg pre). replace (0 <=? len pre) with true by lia.
  unfold len. by rewrite Nat2Z.id, list_lookup_middle.
Qed.

(** One turn of the loop, at a byte of the input. *)
Lemma decode_varint_step fuel pre x post value shift :
  shift < 64 ->
  decode_varint_loop (S fuel) (pre ++ x :: post) value shift (len pre) =
  (let value := Z.lor value (Z.shiftl (Z.land x 127) shift mod u64_modulus) in
   if Z.land x 128 =? 0 then sm_ret value
   else decode_varint_loop fuel (pre ++ x :: post) value (shift + 7)) (len pre + 1).
Proof.
  intros Hs. cbn [decode_varint_loop]. rewrite bind_get, len_app, len_cons.
  pose proof (len_nonneg post).
  replace (len pre <? _) with true by lia. replace (shift <? 64) with true by lia. cbn [andb].
  by rewrite (bind_lift_ok _ _ _ _ (index_app pre x post)), bind_modify.
Qed.

Lemma decode_varint_loop_spec k fuel v value shift pre post :
  0 <= v < 2 ^ (7 * (Z.of_nat k + 1)) -> 0 <= shift < 64 -> 0 <= value < 2 ^ shift ->
  v * 2 ^ shift < u64_modulus -> (k < fuel)%nat ->
  decode_varint_loop fuel (pre ++ encode_varint_loop k v ++ post) value shift (len pre) =
  (len pre + len (encode_varint_loop k v), Ok (value + v * 2 ^ shift)).
Proof.
  revert fuel v value shift pre.
  induction k as [|k IH]; intros fuel v value shift pre Hv Hs Hval Hb Hf;
    (destruct fuel as [|fuel]; [lia|]); cbn [encode_varint_loop].
  - change (7 * (Z.of_nat 0 + 1)) with 7 in Hv. destruct (last_group v) as [Hl Hc]; [lia|].
    cbn [app]. rewrite decode_varint_step, Hl, Hc by lia. by rewrite lor_group by lia.
  - destruct (128 <=? v) eqn:Hge; [|destruct (last_group v) as [Hl Hc]; [lia|]; cbn [app];
      rewrite decode_varint_step, Hl, Hc by lia; by rewrite lor_group by lia].
    cbn [app]. rewrite decode_varint_step, low_group, continuation_bit by lia. cbv zeta.
    assert (0 < 2 ^ shift) by (apply Z.pow_pos_nonneg; lia).
    assert (v = 128 * Z.shiftr v 7 + v mod 128) as Hsplit
      by (rewrite Z.shiftr_div_pow2 by lia; apply Z.div_mod; lia).
    pose proof (Z.mod_pos_bound v 128). assert (0 <= Z.shiftr v 7) by (apply Z.shiftr_nonneg; lia).
    assert (2 ^ (shift + 7) = 128 * 2 ^ shift) as Hpow by (rewrite Z.pow_add_r by lia; lia).
    assert (shift + 7 < 64).
    { destruct (Z.lt_ge_cases (shift + 7) 64) as [|Hge']; [done|].
      pose proof (Z.pow_le_mono_r 2 64 (shift + 7) ltac:(lia) Hge').
      change (2 ^ 64) with u64_modulus in *. nia. }
    rewrite lor_group by nia.
    change (pre ++ ?x :: ?l ++ post) with (pre ++ [x] ++ l ++ post). rewrite app_assoc.
    replace (len pre + 1) with (len (pre ++ [Z.lor (as_u8 v) 128]))
      by (rewrite len_app, len_cons, len_nil; lia).
    rewrite IH; [|..|lia].
    + rewrite len_app, !len_cons, len_nil. f_equal; [lia|]. f_equal. rewrite Hpow. nia.
    + split; [done|]. rewrite Z.shiftr_div_pow2 by lia. apply Z.div_lt_upper_bound; [lia|].
      change (2 ^ 7) with 128. replace (7 * (Z.of_nat (S k) + 1)) with (7 + 7 * (Z.of_nat k + 1)) in Hv by lia.
      rewrite Z.pow_add_r in Hv by lia. lia.
    + lia.
    + rewrite Hpow. nia.
    + rewrite Hpow. nia.
Qed.

Lemma decode_varint_spec v pre post :
  0 <= v < u64_modulus ->
  decode_varint (pre ++ encode_varint v ++ post) (len pre) =
  (len pre + len (encode_varint v), Ok v).
Proof.
  intros Hv. unfold decode_varint, encode_varint.
  rewrite decode_varint_loop_spec; [| |lia|lia|lia|lia].
  - do 2 f_equal. lia.
  - change (2 ^ (7 * (Z.of_nat 10 + 1))) with (2 ^ 77). unfold u64_modulus in Hv. lia.
Qed.

(** ** Hunks *)

Lemma len_encode_varint v : len (encode_varint v) <= 11.
Proof.
  unfold encode_varint. change 11 with (Z.of_nat 10 + 1). generalize 10%nat as k. intros k.
  revert v. induction k as [|k IH]; intros v; cbn [encode_varint_loop]; [done|].
  destruct (128 <=? v); [rewrite len_cons; specialize (IH (Z.shiftr v 7)); lia|].
  rewrite len_cons, len_nil. lia.
Qed.

Lemma len_hunk_message payload :
  len (encode_hunk_message payload) = 1 + len (encode_varint (len payload)) + len payload.
Proof. unfold encode_hunk_message. rewrite !len_app. change (len [10]) with 1. lia. Qed.

Lemma decode_encode_hunk payload :
  len payload < u32_modulus -> decode_hunk_message (encode_hunk_message payload) = Ok payload.
Proof.
  intros Hp. pose proof (len_nonneg payload) as Hn. unfold u32_modulus in Hp.
  pose proof (len_encode_varint (len payload)) as H11.
  pose proof (len_nonneg (encode_varint (len payload))) as Hv.
  assert (0 <= len payload < u64_modulus) as Hlen by (unfold u64_modulus; lia).
  pose proof (len_hunk_message payload) as Hl.
  unfold decode_hunk_message. set (message := encode_hunk_message payload) in *.
  assert (decode_varint message 0 = (1, Ok 10)) as Hkey.
  { apply (decode_varint_spec 10 [] (encode_varint (len payload) ++ payload)).
    unfold u64_modulus. lia. }
  assert (field_end message "truncated gRPC hunk data" 1 =
          (1 + len (encode_varint (len payload)), Ok (len message))) as Hfield.
  { unfold field_end.
    rewrite (bind_ok _ _ _ _ _ (decode_varint_spec (len payload) [10] payload Hlen)), bind_get.
    change (len [10]) with 1. unfold usize_add. rewrite <- Hl.
    replace (len message <? u64_modulus) with true by (unfold u64_modulus; lia).
    erewrite bind_lift_ok by reflexivity. by replace (len message <? len message) with false by lia. }
  assert (slice message (1 + len (encode_varint (len payload))) (len message) =
          @Ok IoError _ payload) as Hslice.
  { change message with (([10] ++ encode_varint (len payload)) ++ payload) at 1.
    rewrite slice_app_tail; [done|..]; rewrite len_app; change (len [10]) with 1; lia. }
  destruct (length message) as [|fuel] eqn:Hfuel; [unfold len in *; lia|].
  cbn [decode_hunk_fields]. rewrite bind_get. replace (0 <? len message) with true by lia.
  rewrite (bind_ok _ _ _ _ _ Hkey). cbv zeta.
  change ((Z.shiftr 10 3 =? 1) && (Z.land 10 7 =? 2)) with true. cbv iota.
  rewrite (bind_ok _ _ _ _ _ Hfield), bind_get, (bind_lift_ok _ _ _ _ Hslice), bind_modify.
  destruct fuel; cbn [decode_hunk_fields]; rewrite bind_get;
    by replace (len message <? len message) with false by lia.
Qed.

(** A payload whose message fits. *)
Definition hunk_ok (payload : list Z) : Prop :=
  len (encode_hunk_message payload) <= MAX_GRPC_MESSAGE_SIZE.

Lemma hunk_header payload :
  hunk_ok payload ->
  exists a b c d,
    encode_grpc_hunk payload = 0 :: a :: b :: c :: d :: encode_hunk_message payload /\
    from_be_bytes [a; b; c; d] = len (encode_hunk_message payload) /\
    0 < len (encode_hunk_message payload) <= MAX_GRPC_MESSAGE_SIZE.
Proof.
  unfold hunk_ok, encode_grpc_hunk. intros Hp. pose proof (len_nonneg payload).
  pose proof (len_nonneg (encode_varint (len payload))) as Hv.
  rewrite len_hunk_message in *. unfold MAX_GRPC_MESSAGE_SIZE, as_u32, u32_modulus in *.
  rewrite Z.mod_small by lia. set (n := 1 + _ + len payload).
  destruct (to_be_bytes_4_ex n) as (a & b & c & d & Habcd). exists a, b, c, d.
  rewrite <- Habcd, from_to_be_bytes_id; [by split_and!; try lia; rewrite Habcd|].
  change (256 ^ Z.of_nat 4) with 4294967296. lia.
Qed.

Lemma hunk_ok_len payload : hunk_ok payload -> len payload < u32_modulus.
Proof.
  unfold hunk_ok, MAX_GRPC_MESSAGE_SIZE, u32_modulus. rewrite len_hunk_message.
  pose proof (len_nonneg (encode_varint (len payload))). lia.
Qed.

Lemma take_hunk payload rest :
  hunk_ok payload ->
  take_grpc_message (encode_grpc_hunk payload ++ rest) =
  (rest, Ok (Some (encode_hunk_message payload))).
Proof.
  intros Hp. destruct (hunk_header payload Hp) as (a & b & c & d & -> & Hlen & Hm).
  set (message := encode_hunk_message payload) in *.
  unfold take_grpc_message. rewrite bind_get. cbn [app].
  pose proof (len_nonneg rest). rewrite !len_cons, len_app.
  replace (_ <? 5) with false by lia. erewrite !bind_lift_ok by reflexivity. cbn [negb Z.eqb].
  erewrite !bind_lift_ok by reflexivity. rewrite Hlen.
  replace (MAX_GRPC_MESSAGE_SIZE <? len message) with false by lia.
  replace (_ <? 5 + len message) with false by lia.
  assert (slice (0 :: a :: b :: c :: d :: message ++ rest) 5 (5 + len message) =
          @Ok IoError _ message) as Hs.
  { rewrite slice_ok by (rewrite ?len_cons, ?len_app; lia). unfold sub_list.
    replace (Z.to_nat (5 + len message - 5)) with (length message) by (unfold len; lia).
    change (Z.to_nat 5) with 5%nat. cbn [drop]. by rewrite drop_0, take_app_length. }
  rewrite (bind_lift_ok _ _ _ _ Hs), bind_modify.
  replace (Z.to_nat (5 + len message)) with (5 + length message)%nat by (unfold len; lia).
  cbn [drop Nat.add]. by rewrite drop_app_length.
Qed.

(** A part of a hunk is left in the buffer. *)
Lemma take_partial_hunk payload part rest :
  hunk_ok payload -> encode_grpc_hunk payload = part ++ rest -> rest <> [] ->
  take_grpc_message part = (part, Ok None).
Proof.
  intros Hp Hcut Hne. destruct (hunk_header payload Hp) as (a & b & c & d & Hh & Hlen & Hm).
  rewrite Hh in Hcut. set (message := encode_hunk_message payload) in *.
  assert (0 < len rest) by (destruct rest; [done|rewrite len_cons; pose proof (len_nonneg rest); lia]).
  assert (len part < 5 + len message).
  { apply (f_equal len) in Hcut. rewrite !len_cons, len_app in Hcut. lia. }
  unfold take_grpc_message. rewrite bind_get.
  do 5 (destruct part as [|? part]; [done|]). cbn [app] in Hcut. injection Hcut as <- <- <- <- <- _.
  rewrite !len_cons in *. pose proof (len_nonneg part). replace (_ <? 5) with false by lia.
  erewrite !bind_lift_ok by reflexivity. cbn [negb Z.eqb].
  erewrite !bind_lift_ok by reflexivity. rewrite Hlen.
  replace (MAX_GRPC_MESSAGE_SIZE <? len message) with false by lia.
  by replace (_ <? 5 + len message) with true by lia.
Qed.

(** ** The reader task *)

Definition hunks (payloads : list (list Z)) : list Z := concat (map encode_grpc_hunk payloads).

(** The buffer holds less than the next hunk. *)
Definition settled (buffer : list Z) (payloads : list (list Z)) : Prop :=
  match payloads with
  | [] => buffer = []
  | payload :: _ => len buffer < len (encode_grpc_hunk payload)
  end.

Lemma drain_hunks_spec payloads fuel buffer future :
  Forall hunk_ok payloads -> buffer ++ future = hunks payloads -> (length buffer <= fuel)%nat ->
  exists sent later buffer',
    payloads = sent ++ later /\ drain_hunks fuel buffer = (map Ok sent, buffer', true) /\
    buffer' ++ future = hunks later /\ settled buffer' later.
Proof.
  intros Hok. revert fuel buffer. induction Hok as [|payload payloads Hp Hok IH];
    intros fuel buffer Hcut Hfuel.
  { apply app_eq_nil in Hcut as [-> ->]. exists [], [], []. by destruct fuel. }
  unfold hunks in Hcut. cbn [map concat] in Hcut.
  destruct (Z.lt_ge_cases (len buffer) (len (encode_grpc_hunk payload))) as [Hlt|Hge].
  - exists [], (payload :: payloads), buffer. split_and!; [done| |done|done].
    symmetry in Hcut. destruct (prefix_of_read _ _ _ _ Hcut) as (rest & Hr & _); [lia|].
    assert (take_grpc_message buffer = (buffer, Ok None)) as Ht.
    { eapply take_partial_hunk; [exact Hp|exact Hr|]. intros ->. rewrite app_nil_r in Hr.
      rewrite Hr in Hlt. lia. }
    destruct fuel; cbn [drain_hunks]; by rewrite Ht.
  - destruct (prefix_of_read _ _ _ _ Hcut) as (rest & -> & Hrest); [lia|].
    destruct (hunk_header payload Hp) as (a & b & c & d & Hh & _).
    destruct fuel as [|fuel]; [rewrite Hh in Hfuel; cbn in Hfuel; lia|].
    destruct (IH fuel rest (eq_sym Hrest)) as (sent & later & buffer' & -> & Hd & Hc & Hs);
      [rewrite Hh, length_app in Hfuel; cbn [length] in Hfuel; lia|].
    exists (payload :: sent), later, buffer'. split_and!; [done| |done|done].
    cbn [drain_hunks]. rewrite take_hunk by done.
    rewrite decode_encode_hunk by by apply hunk_ok_len. by rewrite Hd.
Qed.

(** The task passes on every payload, however the stream was cut, and then the end. *)
Lemma read_grpc_hunks_spec pieces payloads buffer :
  Forall hunk_ok payloads -> buffer ++ concat pieces = hunks payloads -> settled buffer payloads ->
  read_grpc_hunks (map Ok pieces) buffer = map Ok payloads ++ [Ok []].
Proof.
  revert payloads buffer. induction pieces as [|bytes pieces IH]; intros payloads buffer Hok Hcut Hs.
  - cbn [concat map read_grpc_hunks] in *. rewrite app_nil_r in Hcut. destruct payloads as [|payload payloads].
    { done. }
    exfalso. cbn [settled] in Hs. rewrite Hcut in Hs. unfold hunks in Hs. cbn [map concat] in Hs.
    rewrite len_app in Hs. pose proof (len_nonneg (concat (map encode_grpc_hunk payloads))). lia.
  - cbn [concat map read_grpc_hunks] in *. rewrite app_assoc in Hcut.
    destruct (drain_hunks_spec payloads (length (buffer ++ bytes)) (buffer ++ bytes) (concat pieces) Hok Hcut)
      as (sent & later & buffer' & -> & -> & Hc & Hs'); [done|].
    apply Forall_app in Hok as [_ Hlater]. rewrite (IH later buffer' Hlater Hc Hs').
    by rewrite map_app, <- app_assoc.
Qed.

(** ** The stream *)

Section Stream.
Context (name : string) {H : Type}.

(** The channel holds chunks and then the end, or the end has been seen. *)
Definition h2_holds (s : H2Stream H) (l : list Z) : Prop :=
  exists chunks,
    buffered (h2_read_buffer s) (h2_read_offset s) (concat chunks) l /\
    Forall (fun chunk => chunk <> []) chunks /\
    ((h2_eof s = true /\ chunks = []) \/
     (h2_eof s = false /\ rx_queue (h2_read_rx s) = map Ok chunks ++ [Ok []])).

Lemma h2_from_buffer (s : H2Stream H) n chunks l :
  0 < n -> buffered (h2_read_buffer s) (h2_read_offset s) (concat chunks) l ->
  h2_read_offset s < len (h2_read_buffer s) ->
  exists b o got rest,
    h2_read_from_buffer n s =
      (s <| h2_read_buffer := b |> <| h2_read_offset := o |>, Ok (Some got)) /\
    l = got ++ rest /\ len got <= n /\ (got = [] -> l = []) /\ buffered b o (concat chunks) rest.
Proof.
  intros Hn Hb Hoff.
  destruct (buffered_take _ _ _ _ n Hb Hn Hoff) as (got & rest & Ht & -> & Hlen & Hgot & Hb').
  unfold h2_read_from_buffer. rewrite bind_get.
  replace (len (h2_read_buffer s) <=? h2_read_offset s) with false by lia.
  erewrite bind_lift_ok by exact Ht. cbv zeta. rewrite bind_modify.
  destruct (len (h2_read_buffer s) <=? h2_read_offset s + len got) eqn:Hend.
  - exists [], 0, got, rest. split_and!; try done. eapply buffered_clear; [exact Hb'|lia].
  - exists (h2_read_buffer s), (h2_read_offset s + len got), got, rest. by destruct s.
Qed.

Lemma h2_receive_chunk (s : H2Stream H) chunk queue :
  h2_eof s = false -> rx_queue (h2_read_rx s) = Ok chunk :: queue ->
  h2_receive_next_read_chunk name s =
    let s' := s <| h2_read_rx := mkReceiver queue (rx_sender (h2_read_rx s)) |> in
    if is_empty chunk then (s' <| h2_eof := true |>, Ok false)
    else (s' <| h2_read_buffer := chunk |> <| h2_read_offset := 0 |>, Ok true).
Proof.
  intros He Hq. unfold h2_receive_next_read_chunk. rewrite bind_get, He.
  erewrite bind_ok
    by (unfold h2_receive; rewrite bind_get, Hq, bind_modify; reflexivity).
  by destruct chunk.
Qed.

Lemma h2_delivers : delivers (h2_read name) h2_holds.
Proof.
  intros s l n (chunks & Hb & Hne & Hq) Hn. unfold h2_read. replace (n =? 0) with false by lia.
  destruct (Z.le_gt_cases (len (h2_read_buffer s)) (h2_read_offset s)) as [Hoff|Hoff].
  2: { destruct (h2_from_buffer s n chunks l Hn Hb Hoff) as (b & o & got & rest & Hr & -> & Hl & Hg & Hb').
       rewrite (bind_ok _ _ _ _ _ Hr). eexists _, got, rest. split; [reflexivity|].
       split_and!; [done..|]. exists chunks. by destruct s. }
  assert (l = concat chunks) as -> by (eapply buffered_end; [exact Hb|lia]).
  erewrite bind_ok
    by (unfold h2_read_from_buffer; rewrite bind_get;
        replace (len (h2_read_buffer s) <=? h2_read_offset s) with true by lia; reflexivity).
  cbv beta iota.
  set (s1 := s <| h2_read_buffer := [] |> <| h2_read_offset := 0 |>).
  assert (forall e q, h2_eof e = true -> h2_holds (e <| h2_read_rx := q |> <| h2_read_buffer := [] |>
    <| h2_read_offset := 0 |>) []) as Hend.
  { intros e q He. exists []. split; [apply (buffered_fresh [] [])|]. split; [constructor|by left]. }
  destruct Hq as [[He ->]|[He Hq]].
  { assert (h2_receive_next_read_chunk name s1 = (s1, Ok false)) as H1.
    { unfold h2_receive_next_read_chunk. rewrite bind_get.
      change (h2_eof s1) with (h2_eof s). by rewrite He. }
    rewrite (bind_ok _ _ _ _ _ H1). eexists s1, [], []. rewrite len_nil.
    split_and!; [done|done|lia|done|]. exact (Hend s (h2_read_rx s) He). }
  destruct chunks as [|chunk chunks].
  - assert (h2_receive_next_read_chunk name s1 =
      (s1 <| h2_read_rx := mkReceiver [] (rx_sender (h2_read_rx s)) |> <| h2_eof := true |>, Ok false)) as H1.
    { by apply (h2_receive_chunk s1 [] []). }
    rewrite (bind_ok _ _ _ _ _ H1). eexists _, [], []. rewrite len_nil.
    split_and!; [reflexivity|done|lia|done|].
    exact (Hend (s <| h2_eof := true |>) (mkReceiver [] (rx_sender (h2_read_rx s))) eq_refl).
  - inversion_clear Hne as [|? ? Hchunk Hrest].
    assert (h2_receive_next_read_chunk name s1 =
      (s1 <| h2_read_rx := mkReceiver (map Ok chunks ++ [Ok []]) (rx_sender (h2_read_rx s)) |>
          <| h2_read_buffer := chunk |> <| h2_read_offset := 0 |>, Ok true)) as H1.
    { rewrite (h2_receive_chunk s1 chunk (map Ok chunks ++ [Ok []])) by done. by destruct chunk. }
    rewrite (bind_ok _ _ _ _ _ H1). clear H1. cbv beta iota. cbn [negb].
    destruct (h2_from_buffer
      (s1 <| h2_read_rx := mkReceiver (map Ok chunks ++ [Ok []]) (rx_sender (h2_read_rx s)) |>
          <| h2_read_buffer := chunk |> <| h2_read_offset := 0 |>) n chunks (chunk ++ concat chunks) Hn)
      as (b & o & got & rest & Hr & Hl & Hlen & Hg & Hb').
    { apply buffered_fresh. }
    { destruct chunk; [done|]. cbn. rewrite len_cons. pose proof (len_nonneg chunk). lia. }
    rewrite (bind_ok _ _ _ _ _ Hr). eexists _, got, rest. split; [reflexivity|].
    split_and!; [done..|]. exists chunks. split; [done|]. split; [done|]. by right.
Qed.
End Stream.

(** ** Sending *)

(** What the code relies on in the HTTP/2 stack: a stream that is open assigns capacity after
    finitely many polls, and the frames go out in order. *)
Class OpenSendStream (H : Type) {Send : H2SendStream H} (polls : nat) := {
  frames : H -> list (list Z * bool);
  waits : H -> nat;
  waits_bound h : (waits h < polls)%nat;
  reserve_frames n h : frames (reserve_capacity n h) = frames h;
  poll_frames h : exists h' capacity,
    poll_capacity h = (h', Ok (Some capacity)) /\ frames h' = frames h /\
    (0 < capacity \/ (waits h' < waits h)%nat);
  send_frames bytes end_stream h : exists h',
    send_data bytes end_stream h = (h', Ok tt) /\ frames h' = frames h ++ [(bytes, end_stream)]
}.

Definition frame_bytes (l : list (list Z * bool)) : list Z := concat (map fst l).

Lemma frame_bytes_app l1 l2 : frame_bytes (l1 ++ l2) = frame_bytes l1 ++ frame_bytes l2.
Proof. unfold frame_bytes. by rewrite map_app, concat_app. Qed.

(** The flag is on the last frame and on no other. *)
Definition ends_with (end_stream : bool) (l : list (list Z * bool)) : Prop :=
  exists before last, l = before ++ [(last, end_stream)] /\ Forall (fun f => snd f = false) before.

Section Sending.
Context (name : string) {H : Type} {Send : H2SendStream H} {polls : nat} {Open : OpenSendStream H polls}.

Lemma wait_capacity_spec turns h :
  (waits h < turns)%nat -> exists h' capacity,
    wait_capacity name turns h = (h', Ok capacity) /\ frames h' = frames h /\ 0 < capacity.
Proof.
  revert h. induction turns as [|turns IH]; intros h Hw; [lia|].
  destruct (poll_frames h) as (h1 & c & Hp & Hf & Hc). cbn [wait_capacity].
  rewrite (bind_ok _ _ _ _ _ Hp). destruct (0 <? c) eqn:Hpos; [exists h1, c; split_and!; [done..|lia]|].
  destruct (IH h1) as (h2 & c2 & -> & Hf2 & Hc2); [lia|]. exists h2, c2. split_and!; [done| |done]. congruence.
Qed.

Lemma send_h2_chunks_spec fuel data end_stream h :
  data <> [] -> (length data <= fuel)%nat -> exists h' more,
    send_h2_chunks name fuel polls data end_stream h = (h', Ok tt) /\
    frames h' = frames h ++ more /\ frame_bytes more = data /\ ends_with end_stream more.
Proof.
  revert data h. induction fuel as [|fuel IH]; intros data h Hne Hf; [by destruct data; cbn in Hf; [|lia]|].
  cbn [send_h2_chunks]. destruct (is_empty data) eqn:He; [by destruct data|]. rewrite bind_modify.
  destruct (wait_capacity_spec polls (reserve_capacity (len data) h) (waits_bound _))
    as (h1 & c & Hw & Hf1 & Hc).
  rewrite (bind_ok _ _ _ _ _ Hw). cbv zeta. set (n := Z.to_nat (Z.min c (len data))).
  destruct (send_frames (take n data) (end_stream && is_empty (drop n data)) h1) as (h2 & Hs & Hf2).
  rewrite (bind_ok _ _ _ _ _ Hs). rewrite reserve_frames in Hf1. rewrite Hf1 in Hf2.
  assert (0 < n)%nat by (subst n; destruct data; [done|]; rewrite len_cons; pose proof (len_nonneg data); lia).
  destruct (drop n data) as [|x rest] eqn:Hd.
  - exists h2, [(take n data, end_stream)]. cbn [is_empty] in *. rewrite andb_true_r in Hf2.
    split_and!; [by destruct fuel|done| |by exists [], (take n data)].
    unfold frame_bytes. cbn [map concat fst].
    rewrite <- (take_drop n data) at 2. by rewrite Hd.
  - destruct (IH (x :: rest) h2) as (h3 & more & -> & Hf3 & Hb & (before & last & -> & Hfs)); [done| |].
    { rewrite <- Hd, length_drop. lia. }
    exists h3, ((take n data, false) :: before ++ [(last, end_stream)]). split; [done|].
    rewrite Hf3, Hf2. cbn [is_empty]. rewrite andb_false_r, <- app_assoc. split; [done|]. split.
    + change (take n data ++ frame_bytes (before ++ [(last, end_stream)]) = data).
      by rewrite Hb, <- Hd, take_drop.
    + exists ((take n data, false) :: before), last. split; [done|]. by constructor.
Qed.

Lemma send_h2_data_loop_spec data end_stream h :
  exists h' more,
    send_h2_data_loop name polls data end_stream h = (h', Ok tt) /\
    frames h' = frames h ++ more /\ frame_bytes more = data /\ ends_with end_stream more.
Proof.
  unfold send_h2_data_loop. destruct (is_empty data) eqn:He.
  - destruct data; [|done]. destruct (send_frames [] end_stream h) as (h' & -> & Hf).
    exists h', [([], end_stream)]. split_and!; [done..|]. by exists [], [].
  - apply send_h2_chunks_spec; [by destruct data|done].
Qed.
End Sending.

(** ** From one end to the other *)

(** Writing buffers in turn. *)
Fixpoint write_each {H} (write : list Z -> SM (H2Stream H) IoError Z) (buffers : list (list Z))
  : SM (H2Stream H) IoError unit :=
  match buffers with
  | [] => sm_ret tt
  | buffer :: buffers' => do! write buffer; write_each write buffers'
  end.

(** The stream just opened, whose reader task received [queue] in all. *)
Definition opened {H} (queue : list (result IoError (list Z))) (s : H2Stream H) : Prop :=
  h2_read_buffer s = [] /\ h2_read_offset s = 0 /\ h2_eof s = false /\ rx_queue (h2_read_rx s) = queue.

Lemma opened_holds {H} (s : H2Stream H) chunks :
  Forall (fun chunk => chunk <> []) chunks -> opened (map Ok chunks ++ [Ok []]) s ->
  h2_holds s (concat chunks).
Proof.
  intros Hne (Hb & Ho & He & Hq). exists chunks. rewrite Hb, Ho.
  split; [apply (buffered_fresh [])|]. split; [done|by right].
Qed.

Section Ends.
Context (name : string) {H : Type} {Send : H2SendStream H} {polls : nat} {Open : OpenSendStream H polls}.

Lemma h2_on_send_spec data end_stream (s : H2Stream H) :
  exists h' more,
    h2_on_send (send_h2_data_loop name polls data end_stream) s = (s <| h2_send := h' |>, Ok tt) /\
    frames h' = frames (h2_send s) ++ more /\ frame_bytes more = data /\ ends_with end_stream more.
Proof.
  destruct (send_h2_data_loop_spec name data end_stream (h2_send s)) as (h' & more & Hs & Hrest).
  exists h', more. split; [|done]. unfold h2_on_send, sm_zoom. by rewrite Hs.
Qed.

Lemma write_each_spec (encode : list Z -> list Z) buffers (s : H2Stream H) :
  Forall (fun buffer => buffer <> []) buffers ->
  exists s' more,
    write_each (fun buffer => h2_write_data name polls buffer (encode buffer)) buffers s = (s', Ok tt) /\
    frames (h2_send s') = frames (h2_send s) ++ more /\
    frame_bytes more = concat (map encode buffers) /\ Forall (fun f => snd f = false) more.
Proof.
  intros Hne. revert s. induction Hne as [|buffer buffers Hb Hne IH]; intros s.
  { exists s, []. rewrite app_nil_r. by split_and!. }
  destruct (h2_on_send_spec (encode buffer) false s) as (h1 & m1 & H1 & Hf1 & Hb1 & (before & last & -> & Hfl)).
  destruct (IH (s <| h2_send := h1 |>)) as (s2 & m2 & H2 & Hf2 & Hb2 & Hfl2).
  exists s2, ((before ++ [(last, false)]) ++ m2). cbn [write_each]. unfold h2_write_data at 1.
  replace (is_empty buffer) with false by by destruct buffer.
  erewrite bind_ok by (erewrite bind_ok by exact H1; reflexivity).
  split; [exact H2|]. rewrite Hf2. change (h2_send (s <| h2_send := h1 |>)) with h1.
  rewrite Hf1, frame_bytes_app, Hb1, Hb2, <- !app_assoc. split_and!; [done..|].
  apply Forall_app. split; [done|]. by constructor.
Qed.

Lemma write_and_shutdown (encode : list Z -> list Z) buffers (s : H2Stream H) :
  Forall (fun buffer => buffer <> []) buffers -> frames (h2_send s) = [] ->
  exists s',
    (do! write_each (fun buffer => h2_write_data name polls buffer (encode buffer)) buffers;
     h2_shutdown_write name polls) s = (s', Ok tt) /\
    frame_bytes (frames (h2_send s')) = concat (map encode buffers) /\
    ends_with true (frames (h2_send s')).
Proof.
  intros Hne H0. destruct (write_each_spec encode buffers s Hne) as (s1 & m1 & H1 & Hf1 & Hb1 & Hfl1).
  destruct (h2_on_send_spec [] true s1) as (h2 & m2 & H2 & Hf2 & Hb2 & (before & last & -> & Hfl2)).
  exists (s1 <| h2_send := h2 |>). rewrite (bind_ok _ _ _ _ _ H1). split; [exact H2|].
  change (h2_send (s1 <| h2_send := h2 |>)) with h2. rewrite Hf2, Hf1, H0. cbn [app].
  rewrite frame_bytes_app, Hb1, Hb2, app_nil_r. split; [done|].
  exists (m1 ++ before), last. rewrite app_assoc. split; [done|]. by apply Forall_app.
Qed.

End Ends.

Section Transports.
Context {H : Type} {Send : H2SendStream H} {polls : nat} {Open : OpenSendStream H polls}.

(** C40: What a program writes to a gRPC stream in non-empty pieces whose messages are at most
    16 MiB each (the reader refuses a larger one), and then shuts down, goes out as data frames
    of which only the last ends the stream; and however the HTTP/2 stack cuts these bytes on
    their way, the reader at the other end gets exactly the bytes written, whatever the size of
    its reads, and then the end. *)
Theorem grpc_stream_delivery {R : Type} payloads (s : H2Stream H) :
  Forall hunk_ok payloads -> Forall (fun payload => payload <> []) payloads ->
  frames (h2_send s) = [] ->
  exists s',
    (do! write_each (grpc_write polls) payloads; grpc_shutdown_write polls) s = (s', Ok tt) /\
    ends_with true (frames (h2_send s')) /\
    forall pieces (r : H2Stream R) turns amount,
      concat pieces = frame_bytes (frames (h2_send s')) ->
      opened (read_grpc_hunks (map Ok pieces) []) r ->
      0 < amount -> len (concat payloads) < Z.of_nat turns ->
      exists r', read_all grpc_read turns amount r = (r', Ok (concat payloads)).
Proof.
  intros Hok Hne H0. destruct (write_and_shutdown "gRPC" encode_grpc_hunk payloads s Hne H0) as (s' & H1 & Hb & He).
  exists s'. split; [exact H1|]. split; [done|]. intros pieces r turns amount Hcut Hr Ha Ht.
  apply (delivers_all grpc_read h2_holds); [apply h2_delivers| |done|done].
  apply opened_holds; [done|]. rewrite <- (read_grpc_hunks_spec pieces payloads []); [exact Hr|exact Hok| |].
  - cbn [app]. by rewrite Hcut.
  - destruct payloads as [|p ps]; [done|]. inversion_clear Hok as [|? ? Hp Hps].
    destruct (hunk_header p Hp) as (a & b & c & d & Hh & _). cbn [settled]. rewrite Hh.
    rewrite !len_cons, len_nil. pose proof (len_nonneg (encode_hunk_message p)). lia.
Qed.

(** The same of an HTTP/2 stream, as long as no data frame that arrives is empty. *)
Theorem http2_stream_delivery {R : Type} buffers (s : H2Stream H) :
  Forall (fun buffer => buffer <> []) buffers -> frames (h2_send s) = [] ->
  exists s',
    (do! write_each (http2_write polls) buffers; http2_shutdown_write polls) s = (s', Ok tt) /\
    ends_with true (frames (h2_send s')) /\
    forall pieces (r : H2Stream R) turns amount,
      concat pieces = frame_bytes (frames (h2_send s')) -> Forall (fun piece => piece <> []) pieces ->
      opened (read_h2_data (map Ok pieces)) r ->
      0 < amount -> len (concat buffers) < Z.of_nat turns ->
      exists r', read_all http2_read turns amount r = (r', Ok (concat buffers)).
Proof.
  intros Hne H0. destruct (write_and_shutdown "h2" id buffers s Hne H0) as (s' & H1 & Hb & He).
  exists s'. split; [exact H1|]. split; [done|]. rewrite map_id in Hb.
  intros pieces r turns amount Hcut Hps Hr Ha Ht. rewrite <- Hb, <- Hcut in *.
  apply (delivers_all http2_read h2_holds); [apply h2_delivers| |done|done].
  apply opened_holds; [done|].
  assert (read_h2_data (map Ok pieces) = map Ok pieces ++ [Ok []]) as <-; [|done].
  clear. induction pieces as [|p ps IH]; [done|]. cbn [map read_h2_data app]. by rewrite IH.
Qed.

Lemma naive_chunks_spec pieces end_stream h :
  exists h' more, naive_send_chunks pieces end_stream h = (h', Ok tt) /\ frames h' = frames h ++ more /\
    frame_bytes more = concat pieces /\ map fst more = pieces /\ (end_stream = false -> Forall (fun f => snd f = false) more).
Proof.
  revert h. induction pieces as [|piece pieces IH]; intros h.
  { exists h, []. rewrite app_nil_r. by split_and!. }
  destruct (send_frames piece (end_stream && is_empty pieces) h) as (h1 & H1 & Hf1).
  destruct (IH h1) as (h2 & more & H2 & Hf2 & Hb & Hp & He).
  exists h2, ((piece, end_stream && is_empty pieces) :: more). cbn [naive_send_chunks].
  rewrite (bind_ok _ _ _ _ _ H1). split; [done|]. rewrite Hf2, Hf1, <- app_assoc. unfold frame_bytes in *. cbn.
  rewrite Hb, Hp. split_and!; [done..|]. intros ->. constructor; [done|by apply He].
Qed.

Lemma naive_write_spec buffer (s : H2Stream H) :
  exists h' more, naive_write buffer s = (s <| h2_send := h' |>, Ok (len buffer)) /\
    frames h' = frames (h2_send s) ++ more /\ frame_bytes more = buffer /\ Forall (fun f => snd f = false) more.
Proof.
  unfold naive_write, naive_send_h2_data, h2_on_send, sm_zoom. destruct buffer as [|x buffer]; cbn [is_empty].
  { exists (h2_send s), []. rewrite app_nil_r. split_and!; [by destruct s|done..]. }
  destruct (naive_chunks_spec (chunks 16384 (x :: buffer)) false (h2_send s)) as (h' & more & Hs & Hf & Hb & _ & He).
  destruct (chunks_spec 16384 (x :: buffer) eq_refl) as (Hcat & _). rewrite Hcat in Hb.
  exists h', more. split; [|by split_and!; [| |apply He]]. unfold sm_bind. by rewrite Hs.
Qed.

(** What is written to a Naive stream over HTTP/2 goes out in order, in data frames of which
    only the one that a shutdown sends ends the stream. *)
Theorem naive_stream_sends buffers (s : H2Stream H) :
  frames (h2_send s) = [] ->
  exists s', (do! write_each naive_write buffers; naive_shutdown_write) s = (s', Ok tt) /\
    frame_bytes (frames (h2_send s')) = concat buffers /\ ends_with true (frames (h2_send s')).
Proof.
  intros H0. assert (Hall : exists s1 more, write_each naive_write buffers s = (s1, Ok tt) /\
    frames (h2_send s1) = frames (h2_send s) ++ more /\ frame_bytes more = concat buffers /\
    Forall (fun f => snd f = false) more).
  { clear H0. revert s. induction buffers as [|buffer buffers IH]; intros s.
    { exists s, []. rewrite app_nil_r. by split_and!. }
    destruct (naive_write_spec buffer s) as (h1 & m1 & H1 & Hf1 & Hb1 & He1).
    destruct (IH (s <| h2_send := h1 |>)) as (s2 & m2 & H2 & Hf2 & Hb2 & He2).
    exists s2, (m1 ++ m2). cbn [write_each]. rewrite (bind_ok _ _ _ _ _ H1). split; [exact H2|].
    rewrite Hf2. change (h2_send (s <| h2_send := h1 |>)) with h1. rewrite Hf1, frame_bytes_app, Hb1, Hb2, <- app_assoc.
    split_and!; [done..|]. by apply Forall_app. }
  destruct Hall as (s1 & more & H1 & Hf & Hb & He). rewrite (bind_ok _ _ _ _ _ H1).
  destruct (send_frames [] true (h2_send s1)) as (h2 & H2 & Hf2). exists (s1 <| h2_send := h2 |>).
  unfold naive_shutdown_write, h2_on_send, sm_zoom, naive_send_h2_data. cbn [is_empty]. rewrite H2.
  change (h2_send (s1 <| h2_send := h2 |>)) with h2. rewrite Hf2, Hf, H0, frame_bytes_app. cbn [app].
  split; [done|]. split; [by rewrite Hb, app_nil_r|]. by exists more, [].
Qed.
End Transports.

(** A stream that assigns three bytes of capacity at every second poll. *)
Record Window : Type := mkWindow { window_open : bool; window_frames : list (list Z * bool) }.

#[export] Instance window_send : H2SendStream Window := {
  reserve_capacity _ w := w;
  poll_capacity w :=
    (mkWindow (negb (window_open w)) (window_frames w), Ok (Some (if window_open w then 3 else 0)));
  send_data bytes end_stream w :=
    (mkWindow (window_open w) (window_frames w ++ [(bytes, end_stream)]), Ok tt)
}.

#[export] Program Instance window_stream : OpenSendStream Window 2 := {
  frames := window_frames;
  waits w := if window_open w then 0%nat else 1%nat
}.
Next Obligation. intros [[] ?]; cbn; lia. Qed.
Next Obligation. done. Qed.
Next Obligation. intros [[] fs]; eexists _, _; (split; [reflexivity|]); (split; [done|]); cbn; lia. Qed.
Next Obligation. intros. by eexists. Qed.

Definition fresh_h2 (queue : list (result IoError (list Z))) : H2Stream Window :=
  mkH2Stream (mkWindow false []) (mkReceiver queue false) [] 0 false false.

Lemma grpc_stream_delivery_witness :
  let payloads := [[1; 2; 3]; [4; 5]] in
  Forall hunk_ok payloads /\
  exists s',
    (do! write_each (grpc_write 2) payloads; grpc_shutdown_write 2) (fresh_h2 []) = (s', Ok tt) /\
    ends_with true (frames (h2_send s')) /\
    exists r',
      read_all grpc_read 6 2
        (fresh_h2 (read_grpc_hunks (map Ok [[0; 0; 0; 0; 5; 10; 3; 1]; [2; 3; 0; 0; 0; 0]; [4; 10; 2; 4; 5]]) []))
      = (r', Ok [1; 2; 3; 4; 5]).
Proof.
  assert (Forall hunk_ok [[1; 2; 3]; [4; 5]]) as Hok
    by (constructor; [by vm_compute|constructor; [by vm_compute|constructor]]).
  split; [exact Hok|].
  destruct (grpc_stream_delivery (R := Window) [[1; 2; 3]; [4; 5]] (fresh_h2 []) Hok) as (s' & H1 & He & Hr);
    [by repeat constructor|done|].
  exists s'. split; [exact H1|]. split; [exact He|].
  assert (s' = fst ((do! write_each (grpc_write 2) [[1; 2; 3]; [4; 5]]; grpc_shutdown_write 2) (fresh_h2 [])))
    as -> by by rewrite H1.
  apply (Hr [[0; 0; 0; 0; 5; 10; 3; 1]; [2; 3; 0; 0; 0; 0]; [4; 10; 2; 4; 5]]); [|by split_and!|done|done].
  vm_compute. reflexivity.
Defined.

Lemma http2_stream_delivery_witness :
  exists s',
    (do! write_each (http2_write 2) [[1; 2; 3; 4]; [5]]; http2_shutdown_write 2) (fresh_h2 []) = (s', Ok tt) /\
    exists r',
      read_all http2_read 6 4 (fresh_h2 (read_h2_data (map Ok [[1]; [2; 3; 4; 5]]))) = (r', Ok [1; 2; 3; 4; 5]).
Proof.
  destruct (http2_stream_delivery (R := Window) [[1; 2; 3; 4]; [5]] (fresh_h2 [])) as (s' & H1 & He & Hr);
    [by repeat constructor|done|].
  exists s'. split; [exact H1|].
  assert (s' = fst ((do! write_each (http2_write 2) [[1; 2; 3; 4]; [5]]; http2_shutdown_write 2) (fresh_h2 [])))
    as -> by by rewrite H1.
  apply (Hr [[1]; [2; 3; 4; 5]]); [|by repeat constructor|by split_and!|done|done].
  vm_compute. reflexivity.
Defined.

(** ** Two defects *)

(** A hunk whose field carries a length close to 2^64 makes the reader task panic: the sum
    of the cursor and the length overflows before it is compared with the message. The
    hunk takes some dozen bytes, which a server chooses. *)
Theorem hunk_length_overflow_panics length rest :
  0 <= length < u64_modulus -> u64_modulus <= 1 + len (encode_varint length) + length ->
  let message := [10] ++ encode_varint length ++ rest in
  decode_hunk_message message = Panic /\
  forall header buffer, take_grpc_message (header ++ message) = (buffer, Ok (Some message)) ->
    read_grpc_hunks [Ok (header ++ message)] [] = [Panic].
Proof.
  intros Hlen Hover message.
  assert (decode_hunk_message message = Panic) as Hpanic.
  { unfold decode_hunk_message. pose proof (len_nonneg (encode_varint length ++ rest)).
    assert (decode_varint message 0 = (1, Ok 10)) as Hkey
      by (apply (decode_varint_spec 10 [] (encode_varint length ++ rest)); unfold u64_modulus; lia).
    destruct (Datatypes.length message) as [|fuel] eqn:Hfuel; [done|].
    cbn [decode_hunk_fields]. rewrite bind_get.
    replace (0 <? len message) with true by (unfold message; rewrite len_app; change (len [10]) with 1; lia).
    rewrite (bind_ok _ _ _ _ _ Hkey). cbv zeta.
    change ((Z.shiftr 10 3 =? 1) && (Z.land 10 7 =? 2)) with true. cbv iota.
    unfold field_end, sm_bind at 1, message.
    rewrite (bind_ok _ _ _ _ _ (decode_varint_spec length [10] rest Hlen)), bind_get.
    change (len [10]) with 1. unfold usize_add.
    by replace (1 + len (encode_varint length) + length <? u64_modulus) with false by lia. }
  split; [exact Hpanic|]. intros header buffer Ht. cbn [read_grpc_hunks app].
  assert (Datatypes.length (header ++ message) <> 0%nat) as Hne
    by (rewrite length_app; unfold message; cbn; lia).
  destruct (Datatypes.length (header ++ message)) as [|fuel]; [done|].
  cbn [drain_hunks]. by rewrite Ht, Hpanic.
Qed.

Lemma hunk_length_overflow_panics_witness :
  read_grpc_hunks [Ok ([0; 0; 0; 0; 11] ++ [10] ++ encode_varint (u64_modulus - 1) ++ [])] [] = [Panic].
Proof.
  destruct (hunk_length_overflow_panics (u64_modulus - 1) []) as [_ Hr];
    [by vm_compute|by vm_compute|]. by apply (Hr [0; 0; 0; 0; 11] []).
Defined.

(** An empty data frame, which HTTP/2 allows at any place, is taken for the end of the
    stream: the read returns no bytes, the stream counts as ended, and what follows the
    frame is never read. *)
Theorem empty_data_frame_ends_stream {H} (s : H2Stream H) pieces amount turns :
  opened (read_h2_data (Ok [] :: pieces)) s -> 0 < amount -> (0 < turns)%nat ->
  exists s', read_all http2_read turns amount s = (s', Ok []) /\ h2_eof s' = true /\
    rx_queue (h2_read_rx s') = read_h2_data pieces /\ http2_read amount s' = (s', Ok []).
Proof.
  intros (Hb & Ho & He & Hq) Ha Ht. destruct turns as [|turns]; [lia|].
  assert (exists s', http2_read amount s = (s', Ok []) /\ h2_eof s' = true /\ h2_read_buffer s' = [] /\
    h2_read_offset s' = 0 /\ rx_queue (h2_read_rx s') = read_h2_data pieces) as (s' & Hr & He' & Hb' & Ho' & Hq').
  { unfold http2_read, h2_read. replace (amount =? 0) with false by lia.
    eexists. split.
    - erewrite bind_ok by (unfold h2_read_from_buffer; rewrite bind_get, Hb, Ho; reflexivity).
      cbv beta iota.
      erewrite bind_ok by (erewrite (h2_receive_chunk "h2" _ [] (read_h2_data pieces)); [reflexivity|exact He|exact Hq]). reflexivity.
    - done. }
  exists s'. cbn [read_all]. rewrite (bind_ok _ _ _ _ _ Hr). split_and!; [done..|].
  unfold http2_read, h2_read. replace (amount =? 0) with false by lia.
  erewrite bind_ok by (unfold h2_read_from_buffer; rewrite bind_get, Hb', Ho'; reflexivity).
  cbv beta iota. destruct s'; cbn in He', Hb', Ho'; by subst.
Qed.

Lemma empty_data_frame_ends_stream_witness :
  exists s', read_all http2_read 9 8 (fresh_h2 (read_h2_data [Ok []; Ok [1; 2; 3]])) = (s', Ok []) /\
    rx_queue (h2_read_rx s') = [Ok [1; 2; 3]; Ok []].
Proof.
  destruct (empty_data_frame_ends_stream (fresh_h2 (read_h2_data [Ok []; Ok [1; 2; 3]]))
    [Ok [1; 2; 3]] 8 9) as (s' & H1 & _ & H2 & _); [by split_and!|done|lia|].
  exists s'. by split.
Defined.
