(* ===== verification/Quic.v ===== *)
(** * QUIC

    [crates/keli-net-core/src/quic.rs]: the packets of the QUIC transport under a cipher
    ([QuicPacketSecurity] and the socket around it), the streams of Hysteria 2, TUIC and the
    QUIC transport, and the datagrams of the first two. The QUIC stack is a parameter: a
    socket below it is the class [UdpSystem], a connection the class [QuicConnection] and its
    streams [QuicSendStream] and [QuicRecvStream]. The ciphers are the class [PacketCrypto].
    The set-up of endpoints, TLS and HTTP/3 is left to the stack. The theorems are at the
    end. *)

From Stdlib Require Import Ascii.
From stdpp Require Import base strings list numbers.
From S2P Require Import Prelude.
From S2P Require Import StdNet.
From S2P Require Import StdIo.
From S2P Require Import Dns.
From S2P Require Import TunPacket.
From S2P Require Import TunLoop.
From S2P Require Import Socks5.
From S2P Require Import Relay.
From S2P Require Import StdText.
From S2P Require Import Profile.
From S2P Require Import Codec.
From S2P Require Import CodecSpec.
From S2P Require Import ProxyWire.
From S2P Require Import Framed.
From S2P Require Import Network.
From S2P Require Import StreamSpec.
From S2P Require Import H2Stream.
From S2P Require Import H2Spec.
#[local] Open Scope Z_scope.

(** ** The configuration of the transport *)

Definition trimmed_or_none (value : option string) : string :=
  let value := match value with Some value => Some (trim value) | None => None end in
  to_ascii_lowercase
    match value with Some value => if String.eqb value "" then "none" else value | None => "none" end.

Definition normalized_security (config : LegacyQuicTransportConfig) : string :=
  trimmed_or_none (quic_security config).

Definition normalized_key (config : LegacyQuicTransportConfig) : string :=
  match quic_key config with Some key => trim key | None => "" end.

Definition normalized_header_type (config : LegacyQuicTransportConfig) : string :=
  trimmed_or_none (quic_header_type config).

(** The cipher with its key. *)
Inductive QuicPacketSecurity : Type :=
| Aes128Gcm (key : list Z)
| ChaCha20Poly1305 (key : list Z).

(** The digest and the ciphers; a cipher can be made from a key of its length. *)
Class PacketCrypto := {
  packet_sha256 : list Z -> list Z;
  packet_encrypt : QuicPacketSecurity -> list Z -> list Z -> option (list Z);
  packet_decrypt : QuicPacketSecurity -> list Z -> list Z -> option (list Z)
}.

Definition QUIC_SALT : list Z := as_bytes "v2ray-quic-salt".

Definition nonce_size : Z := 12.
Definition tag_size : Z := 16.
Definition packet_overhead : Z := nonce_size + tag_size.

Section Security.
Context {Crypto : PacketCrypto}.

Definition quic_packet_key (key : string) : list Z := packet_sha256 (as_bytes key ++ QUIC_SALT).

Definition from_name_and_key (security key : string) : result IoError (option QuicPacketSecurity) :=
  let security := to_ascii_lowercase (trim security) in
  if String.eqb security "" || String.eqb security "none" then Ok None
  else
    let digest := quic_packet_key key in
    if String.eqb security "aes-128-gcm" || String.eqb security "aes128-gcm"
    then Ok (Some (Aes128Gcm (take 16 digest)))
    else if String.eqb security "chacha20-poly1305" || String.eqb security "chacha20-ietf-poly1305"
    then Ok (Some (ChaCha20Poly1305 digest))
    else Err (mkIoError Unsupported ("legacy QUIC packet security " +:+ security +:+ " is not supported")).

Definition security_name (security : QuicPacketSecurity) : string :=
  match security with
  | Aes128Gcm _ => "aes-128-gcm"
  | ChaCha20Poly1305 _ => "chacha20-poly1305"
  end.

Definition quic_validate (config : LegacyQuicTransportConfig) : result IoError unit :=
  let security := normalized_security config in
  let key := normalized_key config in
  if eq_ignore_ascii_case security "none" && negb (String.eqb key "")
  then Err (mkIoError Unsupported "legacy QUIC key is supported only with encrypted packet security")
  else
    _ <-? from_name_and_key security key;
    let header := normalized_header_type config in
    if negb (eq_ignore_ascii_case header "none")
    then Err (mkIoError Unsupported ("legacy QUIC packet header " +:+ header +:+ " is not supported yet"))
    else Ok tt.

Definition packet_security (config : LegacyQuicTransportConfig) : result IoError (option QuicPacketSecurity) :=
  from_name_and_key (normalized_security config) (normalized_key config).

(** What [legacy_quic_client_endpoint] decides: the security of the socket, if the
    configuration is valid. *)
Definition endpoint_security (config : LegacyQuicTransportConfig) : result IoError (option QuicPacketSecurity) :=
  _ <-? quic_validate config;
  packet_security config.

(** ** Packets under a cipher *)

Definition open_packet (security : QuicPacketSecurity) (input : list Z) : option (list Z) :=
  if len input <=? packet_overhead then None
  else packet_decrypt security (take (Z.to_nat nonce_size) input) (drop (Z.to_nat nonce_size) input).

End Security.

(** [quinn::udp::RecvMeta]: the fields that are read or written here. *)
Record RecvMeta : Type := mkRecvMeta { meta_len : Z; meta_stride : Z }.

(** [quinn::udp::Transmit]. *)
Record Transmit : Type := mkTransmit {
  transmit_destination : SocketAddr;
  transmit_ecn : option Z;
  transmit_contents : list Z;
  transmit_segment_size : option Z;
  transmit_src_ip : option IpAddr
}.

#[export] Instance Transmit_settable : Settable Transmit := fun t =>
  mkTransmit (transmit_destination t) (transmit_ecn t) (transmit_contents t) (transmit_segment_size t)
    (transmit_src_ip t).

(** The socket below, and the random numbers of the thread. [poll_recv] gives the buffers that
    were filled; [None] is [Poll::Pending]. *)
Class UdpSystem (S : Type) := {
  fill_nonce : SM S IoError (list Z);
  socket_try_send : Transmit -> SM S IoError unit;
  socket_poll_recv : SM S IoError (option (list (list Z * RecvMeta)))
}.

Section Packets.
Context {Crypto : PacketCrypto} {S : Type} {System : UdpSystem S}.

(** The packet that is appended to the output. *)
Definition seal_packet_into (security : QuicPacketSecurity) (input output : list Z) : SM S IoError (list Z) :=
  nonce <-! fill_nonce;
  encrypted <-! sm_lift (ok_or (mkIoError InvalidData "legacy QUIC packet seal failed")
    (packet_encrypt security nonce input));
  sm_ret (output ++ nonce ++ encrypted).

Definition seal_packet (security : QuicPacketSecurity) (input : list Z) : SM S IoError (list Z) :=
  seal_packet_into security input [].

Fixpoint seal_packets (security : QuicPacketSecurity) (chunks : list (list Z)) (packet : list Z)
  : SM S IoError (list Z) :=
  match chunks with
  | [] => sm_ret packet
  | chunk :: chunks' =>
      packet <-! seal_packet_into security chunk packet;
      seal_packets security chunks' packet
  end.

(** [QuicPacketUdpSocket::try_send]. *)
Definition try_send (security : QuicPacketSecurity) (transmit : Transmit) : SM S IoError unit :=
  let contents := transmit_contents transmit in
  let segment_size := default (len contents) (transmit_segment_size transmit) in
  if (segment_size =? 0) || (len contents <=? segment_size) then
    packet <-! seal_packet security contents;
    socket_try_send (transmit <| transmit_contents := packet |> <| transmit_segment_size := None |>)
  else
    let wrapped_segment_size := segment_size + packet_overhead in
    packet <-! seal_packets security (chunks segment_size contents) [];
    socket_try_send (transmit <| transmit_contents := packet |>
                              <| transmit_segment_size := Some wrapped_segment_size |>).

(** The loop of [open_meta]; the state is the buffer, and a result of [None] is [false]. A
    turn consumes a byte. *)
Fixpoint open_packets (turns : nat) (security : QuicPacketSecurity)
  (meta_len stride input_offset output_offset output_stride segment_count : Z)
  : SM (list Z) IoError (option RecvMeta) :=
  if meta_len <=? input_offset then
    sm_ret (Some (mkRecvMeta output_offset (if segment_count <=? 1 then output_offset else output_stride)))
  else
    match turns with
    | O => sm_lift Panic
    | Datatypes.S turns' =>
        let packet_len := Z.min stride (meta_len - input_offset) in
        if packet_len <=? packet_overhead then sm_ret None
        else
          buffer <-! sm_get;
          packet <-! sm_lift (slice buffer input_offset (input_offset + packet_len));
          match open_packet security packet with
          | None => sm_ret None
          | Some plain =>
              let plain_len := len plain in
              buffer <-! sm_lift (copy_range buffer output_offset (output_offset + plain_len) plain);
              do! sm_modify (fun _ => buffer);
              open_packets turns' security meta_len stride (input_offset + packet_len) (output_offset + plain_len)
                (if segment_count =? 0 then plain_len else output_stride) (segment_count + 1)
          end
    end.

Definition open_meta (security : QuicPacketSecurity) (meta : RecvMeta) : SM (list Z) IoError (option RecvMeta) :=
  let stride := if meta_stride meta =? 0 then meta_len meta else meta_stride meta in
  if stride <=? packet_overhead then sm_ret None
  else open_packets (Z.to_nat (meta_len meta)) security (meta_len meta) stride 0 0 0 0.

(** The loop of [poll_recv] over the buffers. *)
Fixpoint open_received (security : QuicPacketSecurity) (received : list (list Z * RecvMeta))
  : result IoError (list (list Z * RecvMeta)) :=
  match received with
  | [] => Ok []
  | (buffer, meta) :: received' =>
      let '(buffer, opened) := open_meta security meta buffer in
      opened <-? opened;
      rest <-? open_received security received';
      Ok ((buffer, default (mkRecvMeta 0 0) opened) :: rest)
  end.

Definition poll_recv (security : QuicPacketSecurity) : SM S IoError (option (list (list Z * RecvMeta))) :=
  received <-! socket_poll_recv;
  match received with
  | None => sm_ret None
  | Some received => opened <-! sm_lift (open_received security received); sm_ret (Some opened)
  end.

End Packets.

(** ** Streams *)

(** [quinn::SendStream] and [quinn::RecvStream]; the error is the text of its [Debug]. [None] is
    the end of the stream. *)
Class QuicSendStream (Q : Type) := {
  quic_write_all : list Z -> SM Q string unit;
  quic_finish : SM Q string unit
}.

Class QuicRecvStream (R : Type) := {
  quic_recv : Z -> SM R string (option (list Z))
}.

Definition aborted (error : string) : IoError := mkIoError ConnectionAborted error.

(** [Hy2QuicTcpStream] and [TuicQuicTcpStream], which have the same fields. *)
Record QuicTcpStream (Q R : Type) : Type := mkQuicTcpStream {
  qs_send : Q;
  qs_recv : R;
  qs_read_buffer : list Z;
  qs_read_offset : Z
}.
Arguments mkQuicTcpStream {Q R}.
Arguments qs_send {Q R}.
Arguments qs_recv {Q R}.
Arguments qs_read_buffer {Q R}.
Arguments qs_read_offset {Q R}.

#[export] Instance QuicTcpStream_settable Q R : Settable (QuicTcpStream Q R) := fun s =>
  mkQuicTcpStream (qs_send s) (qs_recv s) (qs_read_buffer s) (qs_read_offset s).

Definition HY2_TCP_RESPONSE_PREFETCH_LIMIT : Z := 65536.

Section Streams.
Context {Q R : Type} {Send : QuicSendStream Q} {Recv : QuicRecvStream R}.

(** Their methods, with the name in the texts of their errors. *)
Definition qs_write_all (buffer : list Z) : SM (QuicTcpStream Q R) IoError unit :=
  sm_zoom qs_send (fun q s => s <| qs_send := q |>) aborted (quic_write_all buffer).

Definition qs_finish : SM (QuicTcpStream Q R) IoError unit :=
  sm_zoom qs_send (fun q s => s <| qs_send := q |>) aborted quic_finish.

Definition qs_read (amount : Z) : SM (QuicTcpStream Q R) IoError (list Z) :=
  if amount =? 0 then sm_ret []
  else
    s <-! sm_get;
    if qs_read_offset s <? len (qs_read_buffer s) then
      bytes <-! sm_lift (take_buffered (qs_read_buffer s) (qs_read_offset s) amount);
      let offset := qs_read_offset s + len bytes in
      do! sm_modify (fun s =>
        if len (qs_read_buffer s) <=? offset
        then s <| qs_read_buffer := [] |> <| qs_read_offset := 0 |>
        else s <| qs_read_offset := offset |>);
      sm_ret bytes
    else
      bytes <-! sm_zoom qs_recv (fun r s => s <| qs_recv := r |>) aborted (quic_recv amount);
      sm_ret (default [] bytes).

(** The loop of [read_exact]; a turn reads a byte. *)
Fixpoint qs_read_exact (name : string) (turns : nat) (amount : Z) (got : list Z)
  : SM (QuicTcpStream Q R) IoError (list Z) :=
  if amount <=? len got then sm_ret got
  else
    match turns with
    | O => sm_lift Panic
    | Datatypes.S turns' =>
        bytes <-! qs_read (amount - len got);
        if is_empty bytes
        then io_fail UnexpectedEof (name +:+ " TCP stream closed before enough data was read")
        else qs_read_exact name turns' amount (got ++ bytes)
    end.

(** [read_hy2_tcp_response_prefetch], with at most [turns] reads; [decoding_text] is the
    [Display] of an error. *)
Fixpoint read_hy2_tcp_response_prefetch (decoding_text : ProtocolDecodingError -> string) (turns : nat)
  (buffer : list Z) : SM R IoError (list Z) :=
  match turns with
  | O => sm_lift Panic
  | Datatypes.S turns' =>
      chunk <-! sm_zoom id (fun r _ => r) aborted (quic_recv 1024);
      match chunk with
      | None => io_fail UnexpectedEof "HY2 TCP stream closed before response"
      | Some chunk =>
          let buffer := buffer ++ chunk in
          match decode_hy2_tcp_response buffer with
          | Ok (response, consumed) =>
              if negb (hy2_ok response)
              then io_fail PermissionDenied ("HY2 TCP connect failed: " +:+ hy2_message response)
              else sm_lift (slice buffer consumed (len buffer))
          | Err error =>
              if match error with
                 | Decoding_UnexpectedEof => len buffer <=? HY2_TCP_RESPONSE_PREFETCH_LIMIT
                 | _ => false
                 end
              then read_hy2_tcp_response_prefetch decoding_text turns' buffer
              else io_fail InvalidData (decoding_text error)
          | Panic => sm_lift Panic
          end
      end
  end.

(** The task that reads a stream into the channel, with at most [turns] reads: what is sent. *)
Fixpoint reader_task (turns : nat) (recv : R) : list (result IoError (list Z)) :=
  match turns with
  | O => []
  | Datatypes.S turns' =>
      match quic_recv 16384 recv with
      | (recv, Ok (Some bytes)) =>
          if is_empty bytes then reader_task turns' recv else Ok bytes :: reader_task turns' recv
      | (_, Ok None) => [Ok []]
      | (_, Err error) => [Err (aborted error)]
      | (_, Panic) => []
      end
  end.

(** [LegacyQuicTcpStream], [TuicBlockingTcpStream] and [Hy2BlockingTcpStream] have the fields
    and methods of the streams over HTTP/2 up to what they write. The channel is shown as it
    is when the task has ended. *)
Definition from_stream (turns : nat) (send : Q) (recv : R) : H2Stream Q :=
  mkH2Stream send (mkReceiver (reader_task turns recv) false) [] 0 false false.

Definition from_session_stream (turns : nat) (stream : QuicTcpStream Q R) : H2Stream Q :=
  mkH2Stream (qs_send stream) (mkReceiver (reader_task turns (qs_recv stream)) false)
    (qs_read_buffer stream) (qs_read_offset stream) false false.

Definition legacy_quic_read (amount : Z) : SM (H2Stream Q) IoError (list Z) := h2_read "legacy QUIC" amount.
Definition tuic_read (amount : Z) : SM (H2Stream Q) IoError (list Z) := h2_read "TUIC" amount.
Definition hy2_read (amount : Z) : SM (H2Stream Q) IoError (list Z) := h2_read "HY2" amount.

(** No thread panics while it holds the lock of the stream. *)
Definition quic_stream_write (buffer : list Z) : SM (H2Stream Q) IoError Z :=
  do! sm_zoom h2_send (fun q s => s <| h2_send := q |>) aborted (quic_write_all buffer);
  sm_ret (len buffer).

Definition quic_shutdown_write : SM (H2Stream Q) IoError unit :=
  sm_zoom h2_send (fun q s => s <| h2_send := q |>) aborted quic_finish.

Definition quic_shutdown_both : SM (H2Stream Q) IoError unit := ignore quic_shutdown_write.

End Streams.

(** ** Sessions *)

Inductive SendDatagramError : Type :=
| UnsupportedByPeer
| Disabled
| TooLarge
| ConnectionLost (error : string).

(** [tuic_datagram_send_error_to_io] and [hy2_datagram_send_error_to_io]. *)
Definition datagram_send_error_to_io (name : string) (error : SendDatagramError) : IoError :=
  match error with
  | UnsupportedByPeer => mkIoError Unsupported (name +:+ " QUIC datagrams are not supported by peer")
  | Disabled => mkIoError Unsupported (name +:+ " QUIC datagrams are disabled locally")
  | TooLarge => mkIoError InvalidInput (name +:+ " datagram is too large")
  | ConnectionLost error => aborted error
  end.

Definition tuic_datagram_send_error_to_io := datagram_send_error_to_io "TUIC".
Definition hy2_datagram_send_error_to_io := datagram_send_error_to_io "HY2".

(** [quinn::Connection]. [export_keying_material] fills 32 bytes. *)
Class QuicConnection (C Q R : Type) := {
  quic_open_bi : SM C string (Q * R);
  quic_open_uni : SM C string Q;
  quic_send_datagram : list Z -> SM C SendDatagramError unit;
  quic_read_datagram : SM C string (list Z);
  export_keying_material : list Z -> list Z -> SM C string (list Z)
}.

Section Sessions.
Context {C Q R : Type} {Send : QuicSendStream Q} {Recv : QuicRecvStream R} {Connection : QuicConnection C Q R}.
Context (encoding_text : ProtocolEncodingError -> string) (decoding_text : ProtocolDecodingError -> string).

Definition CM (A : Type) : Type := SM C IoError A.

(** [map_err] of a step. *)
Definition failing {S E A} (f : E -> IoError) (m : SM S E A) : SM S IoError A := sm_zoom id (fun s _ => s) f m.

Definition encoded {A} (r : result ProtocolEncodingError A) : CM A :=
  sm_lift (map_err (fun error => mkIoError InvalidInput (encoding_text error)) r).

Definition decoded {A} (r : result ProtocolDecodingError A) : CM A :=
  sm_lift (map_err (fun error => mkIoError InvalidData (decoding_text error)) r).

(** A step on a stream of its own. *)
Definition on_stream {T A} (m : SM T IoError A) (t : T) : CM (T * A) :=
  let '(t, r) := m t in sm_lift (result_map (fun a => (t, a)) r).

Definition tuic_export_token (uuid password : string) : CM (list Z) :=
  if String.eqb password "" then io_fail InvalidInput "TUIC password is empty"
  else
    auth <-! encoded (encode_tuic_authenticate_command uuid (zeroed 32));
    uuid_label <-! sm_lift (slice auth 2 18);
    failing (fun error => mkIoError OtherKind ("TUIC keying material export failed: " +:+ error))
      (export_keying_material uuid_label (as_bytes password)).

Definition tuic_authenticate_command (uuid password : string) : CM (list Z) :=
  token <-! tuic_export_token uuid password;
  encoded (encode_tuic_authenticate_command uuid token).

Definition tuic_authenticate (uuid password : string) : CM unit :=
  command <-! tuic_authenticate_command uuid password;
  stream <-! failing aborted quic_open_uni;
  '(stream, _) <-! on_stream (failing aborted (quic_write_all command)) stream;
  do! on_stream (failing aborted quic_finish) stream;
  sm_ret tt.

Definition tuic_send_packet_datagram (associate_id packet_id fragment_total fragment_id : Z) (target : Endpoint)
  (payload : list Z) : CM unit :=
  command <-! encoded (encode_tuic_packet_command associate_id packet_id fragment_total fragment_id target payload);
  failing tuic_datagram_send_error_to_io (quic_send_datagram command).

Definition tuic_read_packet_datagram : CM TuicPacketCommand :=
  datagram <-! failing aborted quic_read_datagram;
  decoded (decode_tuic_packet_command datagram).

Definition hy2_send_udp_datagram (session_id packet_id fragment_id fragment_count : Z) (address : Endpoint)
  (payload : list Z) : CM unit :=
  message <-! encoded (encode_hy2_udp_message session_id packet_id fragment_id fragment_count address payload);
  failing hy2_datagram_send_error_to_io (quic_send_datagram message).

Definition hy2_read_udp_datagram : CM Hy2UdpMessage :=
  datagram <-! failing aborted quic_read_datagram;
  decoded (decode_hy2_udp_message datagram).

(** [TuicClientSession::relay_udp_datagram] and [Hy2ClientSession::relay_udp_datagram]. *)
Definition tuic_relay_udp_datagram (associate_id packet_id : Z) (target : Endpoint) (payload : list Z)
  : CM TuicPacketCommand :=
  do! tuic_send_packet_datagram associate_id packet_id 1 0 target payload;
  tuic_read_packet_datagram.

Definition hy2_relay_udp_datagram (session_id packet_id : Z) (target : Endpoint) (payload : list Z)
  : CM Hy2UdpMessage :=
  do! hy2_send_udp_datagram session_id packet_id 0 1 target payload;
  hy2_read_udp_datagram.

(** The status of the response is an argument. *)
Definition validate_hy2_auth_response (status : Z) : result IoError unit :=
  if is_hy2_auth_success_status status then Ok tt
  else Err (mkIoError PermissionDenied ("HY2 auth failed with HTTP/3 status " +:+ to_decimal status)).

Definition tuic_open_tcp_stream (target : Endpoint) : CM (QuicTcpStream Q R) :=
  request <-! encoded (encode_tuic_connect_command target);
  '(send, recv) <-! failing aborted quic_open_bi;
  '(send, _) <-! on_stream (failing aborted (quic_write_all request)) send;
  sm_ret (mkQuicTcpStream send recv [] 0).

Definition hy2_open_tcp_stream (turns : nat) (target : Endpoint) (padding : list Z) : CM (QuicTcpStream Q R) :=
  request <-! encoded (encode_hy2_tcp_request target padding);
  '(send, recv) <-! failing aborted quic_open_bi;
  '(send, _) <-! on_stream (failing aborted (quic_write_all request)) send;
  '(recv, read_buffer) <-! on_stream (read_hy2_tcp_response_prefetch decoding_text turns []) recv;
  sm_ret (mkQuicTcpStream send recv read_buffer 0).

End Sessions.

(** ** Naive over HTTP/3

    [NaiveH3QuicStream] of [crates/keli-net-core/src/naive.rs]: one task receives, and sends what
    it is told to through a channel. A caller waits for the answer to a command, so there is
    at most one. *)

Class H3Stream (H R : Type) := {
  h3_send_data : list Z -> SM H string unit;
  h3_finish : SM H string unit;
  h3_recv_data : SM R string (option (list Z))
}.

Record NaiveH3 (H R : Type) : Type := mkNaiveH3 {
  n3_send : H;
  n3_recv : R;
  n3_write_closed : bool;
  n3_running : bool;
  n3_client : H2Stream unit
}.
Arguments mkNaiveH3 {H R}.
Arguments n3_send {H R}.
Arguments n3_recv {H R}.
Arguments n3_write_closed {H R}.
Arguments n3_running {H R}.
Arguments n3_client {H R}.

#[export] Instance NaiveH3_settable H R : Settable (NaiveH3 H R) := fun s =>
  mkNaiveH3 (n3_send s) (n3_recv s) (n3_write_closed s) (n3_running s) (n3_client s).

Section Naive.
Context {H R : Type} {Stream : H3Stream H R}.

(** [read_tx.send]. *)
Definition push_received (message : result IoError (list Z)) (s : NaiveH3 H R) : NaiveH3 H R :=
  let rx := h2_read_rx (n3_client s) in
  let client := (n3_client s) <| h2_read_rx := mkReceiver (rx_queue rx ++ [message]) (rx_sender rx) |> in
  s <| n3_client := client |>.

(** The end of the task: its ends of the channels are dropped. *)
Definition stop_task (s : NaiveH3 H R) : NaiveH3 H R :=
  let rx := h2_read_rx (n3_client s) in
  let client := (n3_client s) <| h2_read_rx := mkReceiver (rx_queue rx) false |> in
  s <| n3_running := false |> <| n3_client := client |>.

Definition forward_h3_received_data (received : result string (option (list Z))) (s : NaiveH3 H R) : NaiveH3 H R :=
  match received with
  | Ok (Some bytes) => if is_empty bytes then stop_task s else push_received (Ok bytes) s
  | Ok None => stop_task (push_received (Ok []) s)
  | Err error => stop_task (push_received (Err (aborted error)) s)
  | Panic => stop_task s
  end.

(** A turn of the task that receives. *)
Definition receive_h3_data (s : NaiveH3 H R) : NaiveH3 H R :=
  if n3_running s then
    let '(recv, received) := h3_recv_data (n3_recv s) in
    forward_h3_received_data received (s <| n3_recv := recv |>)
  else s.

(** The answer to a command that the task takes after [receives] other turns; [recv_h3_write_ack]
    is an error when the task has ended. A task that has finished its side takes no commands: the
    caller waits until the task ends, which is a panic of the model if it does not. *)
Definition h3_command {A} (receives : nat) (send : SM H string A) (finish : bool) : SM (NaiveH3 H R) IoError A :=
  fun s =>
    let closed := Err (mkIoError BrokenPipe "Naive H3 stream is closed") in
    if negb (n3_running s) then (s, closed)
    else
      let s := Nat.iter receives receive_h3_data s in
      if negb (n3_running s) then (s, closed)
      else if n3_write_closed s then (s, Panic)
      else
        let '(q, r) := send (n3_send s) in
        let s := s <| n3_send := q |> <| n3_write_closed := finish |> in
        match r with
        | Ok a => (s, Ok a)
        | Err error => (stop_task s, Err (aborted error))
        | Panic => (stop_task s, Panic)
        end.

Definition naive_h3_write (receives : nat) (buffer : list Z) : SM (NaiveH3 H R) IoError Z :=
  do! h3_command receives (h3_send_data buffer) false;
  sm_ret (len buffer).

Definition naive_h3_shutdown_write (receives : nat) : SM (NaiveH3 H R) IoError unit :=
  h3_command receives h3_finish true.

Definition naive_h3_shutdown_both (receives : nat) : SM (NaiveH3 H R) IoError unit :=
  do! ignore (naive_h3_shutdown_write receives);
  sm_modify stop_task.

Definition naive_h3_read (amount : Z) : SM (NaiveH3 H R) IoError (list Z) :=
  sm_zoom n3_client (fun c s => s <| n3_client := c |>) id (h2_read "Naive H3" amount).

End Naive.

(** ** Packets arrive as they were sent *)

(** What the code relies on in the ciphers: opening undoes sealing, a tag has 16 bytes, and
    nothing opens to more than it was. *)
Class PacketAead {Crypto : PacketCrypto} : Prop := {
  packet_seal_open security nonce plain :
    len nonce = nonce_size ->
    exists sealed, packet_encrypt security nonce plain = Some sealed /\
      len sealed = len plain + tag_size /\ packet_decrypt security nonce sealed = Some plain;
  packet_open_len security nonce sealed plain :
    packet_decrypt security nonce sealed = Some plain -> len plain <= len sealed
}.

(** The random numbers never fail, and fill the array. *)
Class RandomNonces (S : Type) {System : UdpSystem S} : Prop := {
  fill_nonce_ok s : exists s' nonce, fill_nonce s = (s', Ok nonce) /\ len nonce = nonce_size
}.

Section PacketSpec.
Context {Crypto : PacketCrypto} {Aead : PacketAead}.
Context {S : Type} {System : UdpSystem S} {Random : RandomNonces S}.
Context (security : QuicPacketSecurity).

Definition sealed_packet (plain packet : list Z) : Prop :=
  open_packet security packet = Some plain /\ len packet = len plain + packet_overhead.

Lemma seal_packet_spec plain output s :
  plain <> [] ->
  exists s' packet, seal_packet_into security plain output s = (s', Ok (output ++ packet)) /\ sealed_packet plain packet.
Proof.
  intros Hne. destruct (fill_nonce_ok s) as (s' & nonce & Hf & Hn).
  destruct (packet_seal_open security nonce plain Hn) as (sealed & He & Hl & Hd).
  exists s', (nonce ++ sealed). unfold seal_packet_into. rewrite (bind_ok _ _ _ _ _ Hf), He. split; [done|].
  assert (0 < len plain) by (destruct plain; [done|]; rewrite len_cons; pose proof (len_nonneg plain); lia).
  assert (Hlen : len (nonce ++ sealed) = len plain + packet_overhead)
    by (rewrite len_app; unfold packet_overhead; lia).
  split; [|done]. unfold open_packet. rewrite Hlen. replace (_ <=? packet_overhead) with false by lia.
  assert (Z.to_nat nonce_size = length nonce) as -> by (unfold len in Hn; lia).
  by rewrite take_app_length, drop_app_length.
Qed.

Lemma seal_packets_spec plains output s :
  Forall (fun plain => plain <> []) plains ->
  exists s' packets, seal_packets security plains output s = (s', Ok (output ++ concat packets)) /\
    Forall2 sealed_packet plains packets.
Proof.
  intros Hne. revert output s. induction Hne as [|plain plains Hp _ IH]; intros output s.
  { exists s, []. cbn. by rewrite app_nil_r. }
  destruct (seal_packet_spec plain output s Hp) as (s1 & packet & H1 & Hs).
  destruct (IH (output ++ packet) s1) as (s2 & packets & H2 & Hall).
  exists s2, (packet :: packets). cbn [seal_packets]. rewrite (bind_ok _ _ _ _ _ H1), H2.
  cbn [concat]. rewrite <- app_assoc. split; [done|by constructor].
Qed.

(** All but the last have the length of the stride. *)
Fixpoint strided (stride : Z) (packets : list (list Z)) : Prop :=
  match packets with
  | [] => True
  | [packet] => len packet <= stride
  | packet :: packets' => len packet = stride /\ strided stride packets'
  end.

Lemma chunks_loop_strided fuel n l :
  (0 < n)%nat -> (length l <= fuel)%nat -> strided (Z.of_nat n) (chunks_loop fuel n l).
Proof.
  intros Hn. revert l. induction fuel as [|fuel IH]; intros l Hl; [by destruct l|].
  destruct l as [|x l]; [done|]. cbn [chunks_loop].
  assert (Hd : (length (drop n (x :: l)) <= fuel)%nat) by (rewrite length_drop; cbn [length] in *; lia).
  specialize (IH _ Hd). destruct (chunks_loop fuel n (drop n (x :: l))) as [|c cs] eqn:E.
  - cbn [strided]. unfold len. rewrite length_take. lia.
  - split; [|exact IH]. unfold len. rewrite length_take.
    assert (Hrest : drop n (x :: l) <> []) by (intros H0; rewrite H0 in E; by destruct fuel).
    destruct (decide (n <= length (x :: l))%nat); [lia|]. rewrite drop_ge in Hrest by lia. done.
Qed.

Lemma strided_sealed stride plains packets :
  Forall2 sealed_packet plains packets -> strided stride plains -> strided (stride + packet_overhead) packets.
Proof.
  induction 1 as [|plain packet plains packets [_ Hl] Hall IH]; [done|].
  destruct Hall as [|plain' packet' plains packets Hs Hall]; intros Hstride; cbn [strided] in *; [lia|].
  destruct Hstride as [Hp Hrest]. split; [lia|]. by apply IH.
Qed.

Lemma sealed_len plains packets :
  Forall2 sealed_packet plains packets -> len (concat packets) = len (concat plains) + packet_overhead * len packets.
Proof.
  induction 1 as [|plain packet plains packets [_ Hl] _ IH]; [done|]. cbn [concat]. rewrite !len_app, len_cons. lia.
Qed.

(** The packet that is next in the buffer. *)
Lemma next_packet stride packet packets : strided stride (packet :: packets) ->
  Z.min stride (len (concat (packet :: packets))) = len packet.
Proof.
  cbn [concat]. rewrite len_app. destruct packets as [|p ps]; cbn [strided]; [cbn [concat]; rewrite len_nil; lia|].
  intros [-> _]. pose proof (len_nonneg (concat (p :: ps))). lia.
Qed.

(** The loop, in a buffer with packets that are opened, bytes that are free, the packets that
    are left and what is behind them. *)
Lemma open_packets_spec plains packets stride turns opened free junk output_stride count :
  Forall2 sealed_packet plains packets -> Forall (fun plain => plain <> []) plains -> strided stride packets ->
  (length packets <= turns)%nat -> 0 <= count ->
  let offset := len opened + len free in
  let total := len opened + len (concat plains) in
  exists rest,
    open_packets turns security (offset + len (concat packets)) stride offset (len opened) output_stride count
      (opened ++ free ++ concat packets ++ junk) =
    (opened ++ concat plains ++ rest,
     Ok (Some (mkRecvMeta total
       (if count + len packets <=? 1 then total
        else if count =? 0 then len (default [] (head plains)) else output_stride)))).
Proof.
  intros Hall. revert turns opened free output_stride count.
  induction Hall as [|plain packet plains packets [Hopen Hlen] Hall IH];
    intros turns opened free output_stride count Hne Hstride Hturns Hcount offset total.
  { exists (free ++ junk). destruct turns; cbn [open_packets concat app]; rewrite len_nil, Z.add_0_r, Z.leb_refl;
      unfold total; cbn [concat]; rewrite len_nil, !Z.add_0_r; cbn [app];
      (destruct (Z.leb_spec count 1); [done|]; by replace (count =? 0) with false by lia). }
  destruct turns as [|turns]; [cbn in Hturns; lia|]. cbn [open_packets].
  pose proof (next_packet _ _ _ Hstride) as Hnext. apply Forall_cons_1 in Hne as [Hplain Hne].
  assert (0 < len plain) by (destruct plain; [done|]; rewrite len_cons; pose proof (len_nonneg plain); lia).
  pose proof (len_nonneg opened). pose proof (len_nonneg free). pose proof (len_nonneg (concat packets)).
  cbn [concat] in Hnext |- *. rewrite len_app in Hnext |- *.
  assert (28 = packet_overhead) as H28 by done.
  replace (_ <=? offset) with false by lia.
  replace (offset + (len packet + len (concat packets)) - offset) with (len packet + len (concat packets)) by lia.
  rewrite Hnext. replace (len packet <=? packet_overhead) with false by lia.
  rewrite bind_get. set (buffer := opened ++ free ++ (packet ++ concat packets) ++ junk).
  assert (Hslice : @slice IoError Z buffer offset (offset + len packet) = Ok packet).
  { unfold buffer, offset. rewrite <- len_app, <- (app_assoc packet), app_assoc.
    rewrite slice_ok; [by rewrite (sub_list_app_mid (opened ++ free) packet (concat packets ++ junk))|..];
      rewrite ?len_app; pose proof (len_nonneg junk); lia. }
  rewrite (bind_lift_ok _ _ _ _ Hslice), Hopen.
  set (free' := drop (length plain) (free ++ packet)).
  assert (Hfree : (length plain <= length (free ++ packet))%nat) by (rewrite length_app; unfold len in *; lia).
  assert (Hcopy : @copy_range IoError buffer (len opened) (len opened + len plain) plain =
    Ok ((opened ++ plain) ++ free' ++ concat packets ++ junk)).
  { unfold copy_range. replace (_ && _) with true.
    2: { unfold buffer. rewrite !len_app. pose proof (len_nonneg junk). lia. }
    f_equal. unfold buffer. unfold len at 1. rewrite Nat2Z.id, take_app_length, <- (app_assoc opened plain). do 2 f_equal.
    replace (Z.to_nat (len opened + len plain)) with (length opened + length plain)%nat by (unfold len; lia).
    rewrite <- drop_drop, drop_app_length. rewrite <- !app_assoc, (app_assoc free). unfold free'.
    by rewrite drop_app_le by lia. }
  rewrite (bind_lift_ok _ _ _ _ Hcopy), bind_modify.
  assert (Hstride' : strided stride packets) by (destruct packets; [done|apply Hstride]).
  assert (Hoffset : offset + len packet = len (opened ++ plain) + len free').
  { unfold offset, free'. rewrite len_app. unfold len. rewrite length_drop, length_app in *. lia. }
  destruct (IH turns (opened ++ plain) free' (if count =? 0 then len plain else output_stride) (count + 1)
    Hne Hstride' ltac:(cbn in Hturns; lia) ltac:(lia)) as (rest & Hrest). cbn zeta in Hrest.
  exists rest. rewrite <- Hoffset, len_app in Hrest.
  replace (offset + (len packet + len (concat packets))) with (offset + len packet + len (concat packets)) by lia.
  rewrite Hrest. cbn [concat head default]. rewrite <- !app_assoc. f_equal.
  unfold total. cbn [concat]. rewrite len_app, len_cons. do 2 f_equal.
  replace (count + 1 + len packets) with (count + (1 + len packets)) by lia.
  replace (len opened + len plain + len (concat plains)) with (len opened + (len plain + len (concat plains))) by lia.
  by replace (count + 1 =? 0) with false by lia.
Qed.

(** How many bytes at most a packet of a transmit has. *)
Definition segment_stride (transmit : Transmit) : Z :=
  let contents := transmit_contents transmit in
  let segment_size := default (len contents) (transmit_segment_size transmit) in
  if (segment_size =? 0) || (len contents <=? segment_size) then len contents else segment_size.

(** The plain packets of a transmit. *)
Definition transmit_packets (transmit : Transmit) : list (list Z) :=
  chunks (segment_stride transmit) (transmit_contents transmit).

Lemma try_send_spec transmit s :
  transmit_contents transmit <> [] -> (forall n, transmit_segment_size transmit = Some n -> 0 <= n) ->
  exists s' plains packets segment_size,
    try_send security transmit s =
      socket_try_send (transmit <| transmit_contents := concat packets |> <| transmit_segment_size := segment_size |>) s' /\
    concat plains = transmit_contents transmit /\ Forall (fun plain => plain <> []) plains /\
    Forall2 sealed_packet plains packets /\ strided (segment_stride transmit) plains /\
    ((segment_size = None /\ len packets = 1 /\ segment_stride transmit = len (concat plains)) \/
     (segment_size = Some (segment_stride transmit + packet_overhead) /\ 1 < len packets)).
Proof.
  intros Hne Hsize. unfold try_send, segment_stride. set (contents := transmit_contents transmit) in *.
  set (n := default _ _). assert (0 < len contents)
    by (destruct contents; [done|]; rewrite len_cons; pose proof (len_nonneg contents); lia).
  assert (0 <= n).
  { unfold n. destruct (transmit_segment_size transmit); [by apply Hsize|cbn; lia]. }
  destruct ((n =? 0) || (len contents <=? n)) eqn:Hone.
  - destruct (seal_packet_spec contents [] s Hne) as (s' & packet & Hp & Hs).
    exists s', [contents], [packet], None. unfold seal_packet. rewrite (bind_ok _ _ _ _ _ Hp). cbn [concat app].
    rewrite !app_nil_r. split_and!; [done|done|by constructor|by constructor|cbn; lia|by left].
  - destruct (chunks_spec n contents ltac:(lia)) as (Hcat & Hchunks & Hmax).
    destruct (seal_packets_spec (chunks n contents) [] s Hchunks) as (s' & packets & Hp & Hall).
    exists s', (chunks n contents), packets, (Some (n + packet_overhead)). rewrite (bind_ok _ _ _ _ _ Hp).
    split_and!; [done..| |].
    + unfold chunks. rewrite <- (Z2Nat.id n) at 1 by lia. apply chunks_loop_strided; lia.
    + right. split; [done|]. apply Forall2_length in Hall. unfold len. rewrite <- Hall.
      destruct (chunks n contents) as [|c [|c' cs]]; [by subst| |cbn [length]; lia].
      apply Forall_inv in Hmax. cbn [concat] in Hcat. rewrite app_nil_r in Hcat. subst. lia.
Qed.

(** C38: What a socket with packet security sends, another one with the same cipher and key
    receives: the contents of a transmit that is not empty, cut into packets of the size it asks
    for and sealed one by one, are opened in place to the same bytes with the same cut, whatever
    is behind them in the buffer; the address and the mark of the transmit stay as they were. *)
Theorem quic_packets_roundtrip (transmit : Transmit) (s : S) (junk : list Z) :
  transmit_contents transmit <> [] -> (forall n, transmit_segment_size transmit = Some n -> 0 <= n) ->
  exists s' packet segment_size,
    try_send security transmit s =
      socket_try_send (transmit <| transmit_contents := packet |> <| transmit_segment_size := segment_size |>) s' /\
    exists rest, open_meta security (mkRecvMeta (len packet) (default (len packet) segment_size)) (packet ++ junk) =
      (transmit_contents transmit ++ rest,
       Ok (Some (mkRecvMeta (len (transmit_contents transmit)) (segment_stride transmit)))).
Proof.
  intros Hne Hsize. destruct (try_send_spec transmit s Hne Hsize)
    as (s' & plains & packets & size & Hsend & Hcat & Hplains & Hall & Hstrided & Hcases).
  exists s', (concat packets), size. split; [exact Hsend|].
  set (stride := default (len (concat packets)) size).
  assert (Hs : strided stride packets /\ 0 < len (concat plains)).
  { split; [|rewrite Hcat; destruct (transmit_contents transmit) as [|x l]; [done|]; rewrite len_cons; pose proof (len_nonneg l); lia].
    destruct Hcases as [(-> & H1 & _)|(-> & _)]; [|by apply (strided_sealed _ plains)].
    destruct packets as [|p [|p' ps]]; [done| |unfold len in H1; cbn in H1; lia].
    unfold stride. cbn. rewrite app_nil_r. lia. }
  destruct Hs as [Hs Hpos]. pose proof (sealed_len _ _ Hall) as Hlen.
  assert (Hcount : 1 <= len packets) by (destruct Hcases as [(_ & -> & _)|(_ & ?)]; lia).
  assert (Hover : packet_overhead < stride).
  { assert (packet_overhead = 28) as H28 by done. unfold stride.
    destruct Hcases as [(-> & _)|(-> & H2)]; cbn; [lia|].
    assert (0 < segment_stride transmit); [|lia]. destruct plains as [|p [|p' ps]]; [done| |].
    - apply Forall2_length in Hall. unfold len in H2. cbn in *. lia.
    - destruct Hstrided as [<- _]. apply Forall_inv in Hplains. destruct p; [done|]. rewrite len_cons. pose proof (len_nonneg p). lia. }
  assert (H28 : packet_overhead = 28) by done.
  unfold open_meta. cbn [meta_stride meta_len]. fold stride. replace (stride =? 0) with false by lia.
  replace (stride <=? packet_overhead) with false by lia.
  destruct (open_packets_spec plains packets stride (Z.to_nat (len (concat packets))) [] [] junk 0 0)
    as (rest & Hopen); [done|done|done|unfold len in *; nia|lia|].
  cbn [app] in Hopen. change (len (@nil Z)) with 0 in Hopen. rewrite !Z.add_0_l in Hopen. exists rest. rewrite Hopen, Hcat. do 4 f_equal.
  destruct Hcases as [(_ & -> & ->)|(_ & H2)]; [by rewrite Hcat|]. replace (len packets <=? 1) with false by lia.
  cbn [Z.eqb]. destruct plains as [|p [|p' ps]]; [done| |apply Hstrided].
  apply Forall2_length in Hall. unfold len in H2. cbn in *. lia.
Qed.

(** ** No datagram makes the socket panic *)

Lemma open_packets_safe turns meta_len stride input_offset output_offset output_stride count buffer :
  0 <= output_offset <= input_offset -> meta_len <= len buffer -> meta_len - input_offset <= Z.of_nat turns ->
  let '(buffer', r) := open_packets turns security meta_len stride input_offset output_offset output_stride count buffer in
  len buffer' = len buffer /\
  returns r (fun opened => forall meta, opened = Some meta -> 0 <= Quic.meta_len meta <= Z.max input_offset meta_len).
Proof.
  revert input_offset output_offset output_stride count buffer.
  induction turns as [|turns IH]; intros input_offset output_offset output_stride count buffer Ho Hm Ht; cbn [open_packets];
    (destruct (meta_len <=? input_offset) eqn:E; [split; [done|]; intros meta [= <-]; cbn; lia|]); [lia|].
  assert (H28 : packet_overhead = 28) by done. set (packet_len := Z.min _ _).
  destruct (packet_len <=? packet_overhead) eqn:Hp; [by split|].
  rewrite bind_get, slice_ok by (unfold packet_len in *; lia).
  set (packet := sub_list _ _ _). assert (Hlen : len packet = packet_len).
  { unfold packet. rewrite len_sub_list by (unfold packet_len in *; lia). lia. }
  rewrite (bind_lift_ok _ packet) by done. unfold open_packet. rewrite Hlen, Hp.
  destruct (packet_decrypt _ _ _) as [plain|] eqn:Hd; [|by split].
  apply packet_open_len in Hd. unfold len in Hd at 2. rewrite length_drop in Hd.
  pose proof (len_nonneg plain). assert (len plain <= packet_len) by (unfold len in *; lia).
  assert (Hcopy : @copy_range IoError buffer output_offset (output_offset + len plain) plain =
    Ok (take (Z.to_nat output_offset) buffer ++ plain ++ drop (Z.to_nat (output_offset + len plain)) buffer)).
  { unfold copy_range. by replace (_ && _) with true by (unfold packet_len in *; lia). }
  rewrite (bind_lift_ok _ _ _ _ Hcopy), bind_modify. set (buffer' := take _ _ ++ _).
  assert (Hb : len buffer' = len buffer).
  { unfold buffer', len in *. rewrite !length_app, length_take, length_drop. unfold packet_len in *. lia. }
  specialize (IH (input_offset + packet_len) (output_offset + len plain)
    (if count =? 0 then len plain else output_stride) (count + 1) buffer' ltac:(lia) ltac:(lia) ltac:(lia)).
  destruct (open_packets turns _ _ _ _ _ _ _ _) as [b r]. destruct IH as [IH1 IH2]. split; [lia|].
  destruct r as [opened|e|]; [|done..]. intros meta Hmeta. specialize (IH2 meta Hmeta). unfold packet_len in *. lia.
Qed.

(** No datagram makes the socket panic: whatever is in a buffer, the loop over the packets stays
    inside, keeps its length, and reports no more bytes than arrived. *)
Theorem open_meta_safe meta buffer :
  0 <= meta_len meta <= len buffer ->
  let '(buffer', r) := open_meta security meta buffer in
  len buffer' = len buffer /\ returns r (fun opened => forall meta', opened = Some meta' -> 0 <= meta_len meta' <= meta_len meta).
Proof.
  intros Hm. unfold open_meta. destruct (_ <=? packet_overhead); [by split|].
  pose proof (open_packets_safe (Z.to_nat (meta_len meta)) (meta_len meta)
    (if meta_stride meta =? 0 then meta_len meta else meta_stride meta) 0 0 0 0 buffer ltac:(lia) ltac:(lia) ltac:(lia)) as H.
  destruct (open_packets _ _ _ _ _ _ _ _ _) as [b r]. destruct H as [H1 H2]. split; [done|].
  destruct r as [opened|e|]; [|done..]. intros meta' E. specialize (H2 meta' E). lia.
Qed.

End PacketSpec.

(** ** A response that arrives in pieces *)

(** A reader that read up to an offset of the whole reads the same from a part that reaches so
    far, and misses bytes in a shorter one. *)
Definition cuts {A} (m : list Z -> CodecM A) : Prop :=
  forall p q o o' a, bytes_ok (p ++ q) -> 0 <= o -> m (p ++ q) o = (o', Ok a) ->
    o <= o' /\ (o' <= len p -> m p o = (o', Ok a)) /\
    (len p < o' -> exists o'', m p o = (o'', Err Decoding_UnexpectedEof)).

Lemma get_index_part {A} (p q : list A) i x :
  get_index (p ++ q) i = Some x -> if i <? len p then get_index p i = Some x else get_index p i = None.
Proof.
  unfold get_index. destruct (Z.leb_spec 0 i); [|done]. intros Hx. destruct (Z.ltb_spec i (len p)).
  - rewrite lookup_app_l in Hx by (unfold len in *; lia). exact Hx.
  - apply lookup_ge_None_2. unfold len in *. lia.
Qed.

Lemma sub_list_prefix (p q : list Z) a b : 0 <= a <= b -> b <= len p -> sub_list (p ++ q) a b = sub_list p a b.
Proof.
  intros Ha Hb. unfold sub_list, len in *. rewrite drop_app_le by lia. rewrite take_app_le; [done|].
  rewrite length_drop. lia.
Qed.

Lemma cuts_bytes n : 0 <= n -> cuts (fun input => read_bytes input n).
Proof.
  intros Hn p q o o' a _ Ho. unfold read_bytes. rewrite !bind_get. rewrite len_app.
  destruct (o + n <=? _) eqn:E; [|done]. rewrite slice_ok by (rewrite ?len_app; lia).
  intros [= <- <-]. split; [lia|]. split; intros Hl.
  - replace (o + n <=? len p) with true by lia. rewrite slice_ok, sub_list_prefix by lia. done.
  - replace (o + n <=? len p) with false by lia. by eexists.
Qed.

Lemma cuts_varint : cuts read_varint.
Proof.
  intros p q o o' a Hok Ho. unfold read_varint. rewrite !bind_get. unfold decode_quic_varint.
  destruct (get_index (p ++ q) o) as [first|] eqn:Hf; [|done].
  assert (Hl1 : 1 <= Z.shiftl 1 (Z.shiftr first 6)).
  { unfold get_index in Hf. replace (0 <=? o) with true in Hf by lia. apply (bytes_ok_lookup _ _ _ Hok) in Hf.
    unfold is_u8 in Hf. rewrite Z.shiftr_div_pow2, Z.shiftl_mul_pow2 by (try apply Z.div_pos; lia).
    pose proof (Z.pow_pos_nonneg 2 (first / 2 ^ 6) ltac:(lia) ltac:(apply Z.div_pos; lia)). lia. }
  pose proof (get_index_part _ _ _ _ Hf) as Hp. rewrite len_app.
  destruct (o + _ <=? len p + len q) eqn:E; [|done]. rewrite slice_ok by (rewrite ?len_app; lia).
  cbn [result_bind]. intros [= <- <-]. split; [lia|]. split; intros Hl.
  - replace (o <? len p) with true in Hp by lia. rewrite Hp. replace (_ <=? len p) with true by lia.
    rewrite slice_ok, sub_list_prefix by lia. done.
  - destruct (o <? len p); rewrite Hp; [|by eexists]. replace (_ <=? len p) with false by lia. by eexists.
Qed.

Lemma varint_nonneg input o o' v : bytes_ok input -> 0 <= o <= len input -> read_varint input o = (o', Ok v) -> 0 <= v.
Proof. intros Hok Ho E. pose proof (in_bounds_varint input Hok o Ho) as H. rewrite E in H. apply H. Qed.

Lemma cuts_body ok p q o o' response n :
  bytes_ok (p ++ q) -> 0 <= o <= len p -> decode_hy2_tcp_body (p ++ q) ok o = (o', Ok (response, n)) ->
  o <= n /\ (n <= len p -> snd (decode_hy2_tcp_body p ok o) = Ok (response, n)) /\
  (len p < n -> snd (decode_hy2_tcp_body p ok o) = Err Decoding_UnexpectedEof).
Proof.
  intros Hok Ho H. assert (Hin : 0 <= o <= len (p ++ q)) by (rewrite len_app; pose proof (len_nonneg q); lia).
  unfold decode_hy2_tcp_body in *. unfold sm_bind in H at 1.
  destruct (read_varint (p ++ q) o) as [o1 [message_len|e|]] eqn:E1; [|done..].
  destruct (cuts_varint p q o o1 message_len Hok ltac:(lia) E1) as (Ho1 & Hfull1 & Hshort1).
  pose proof (varint_nonneg _ _ _ _ Hok Hin E1) as Hm.
  unfold sm_bind in H at 1. destruct (read_bytes (p ++ q) message_len o1) as [o2 [message_bytes|e|]] eqn:E2; [|done..].
  destruct (cuts_bytes message_len Hm p q o1 o2 message_bytes Hok ltac:(lia) E2) as (Ho2 & Hfull2 & Hshort2).
  destruct (from_utf8 message_bytes) as [message|] eqn:Eu; [|done]. cbn [ok_or] in H. rewrite (bind_lift_ok _ message) in H by done.
  unfold sm_bind in H at 1. destruct (read_varint (p ++ q) o2) as [o3 [padding_len|e|]] eqn:E3; [|done..].
  destruct (cuts_varint p q o2 o3 padding_len Hok ltac:(lia) E3) as (Ho3 & Hfull3 & Hshort3).
  assert (Hin2 : o2 <= len (p ++ q)).
  { pose proof (in_bounds_bytes (p ++ q) message_len Hok Hm o1) as Hb. rewrite E2 in Hb.
    pose proof (in_bounds_varint (p ++ q) Hok o Hin) as Hv. rewrite E1 in Hv. destruct Hv as [Hv _].
    destruct (Hb ltac:(lia)) as [Hb' _]. lia. }
  pose proof (varint_nonneg (p ++ q) o2 o3 padding_len Hok ltac:(split; [lia|exact Hin2]) E3) as Hpad.
  rewrite bind_get in H. destruct (o3 + padding_len <=? len (p ++ q)); [|done]. injection H as <- <- <-.
  split; [lia|]. split; intros Hn.
  - rewrite (bind_ok _ _ _ _ _ (Hfull1 ltac:(lia))), (bind_ok _ _ _ _ _ (Hfull2 ltac:(lia))), Eu.
    cbn [ok_or]. rewrite (bind_lift_ok _ message) by done. rewrite (bind_ok _ _ _ _ _ (Hfull3 ltac:(lia))), bind_get.
    by replace (_ <=? len p) with true by lia.
  - destruct (Z.lt_ge_cases (len p) o1) as [Hl1|Hl1].
    { destruct (Hshort1 Hl1) as [x Hx]. by rewrite (bind_err _ _ _ _ _ Hx). }
    rewrite (bind_ok _ _ _ _ _ (Hfull1 Hl1)). destruct (Z.lt_ge_cases (len p) o2) as [Hl2|Hl2].
    { destruct (Hshort2 Hl2) as [x Hx]. by rewrite (bind_err _ _ _ _ _ Hx). }
    rewrite (bind_ok _ _ _ _ _ (Hfull2 Hl2)), Eu. cbn [ok_or]. rewrite (bind_lift_ok _ message) by done.
    destruct (Z.lt_ge_cases (len p) o3) as [Hl3|Hl3].
    { destruct (Hshort3 Hl3) as [x Hx]. by rewrite (bind_err _ _ _ _ _ Hx). }
    rewrite (bind_ok _ _ _ _ _ (Hfull3 Hl3)), bind_get. by replace (_ <=? len p) with false by lia.
Qed.

(** The decoder of a response on a part of what the server sends. *)
Lemma response_in_part p q response n :
  bytes_ok (p ++ q) -> decode_hy2_tcp_response (p ++ q) = Ok (response, n) ->
  0 < n /\ (n <= len p -> decode_hy2_tcp_response p = Ok (response, n)) /\
  (len p < n -> decode_hy2_tcp_response p = Err Decoding_UnexpectedEof).
Proof.
  assert (Hgen : forall status p q, bytes_ok ((status :: p) ++ q) ->
    decode_hy2_tcp_response ((status :: p) ++ q) = Ok (response, n) ->
    0 < n /\ (n <= len (status :: p) -> decode_hy2_tcp_response (status :: p) = Ok (response, n)) /\
    (len (status :: p) < n -> decode_hy2_tcp_response (status :: p) = Err Decoding_UnexpectedEof)).
  { clear. intros status p q Hok. unfold decode_hy2_tcp_response. cbn [app].
    replace (len (status :: p ++ q) - len (p ++ q)) with 1 by (rewrite len_cons; lia).
    replace (len (status :: p) - len p) with 1 by (rewrite len_cons; lia).
    pose proof (len_nonneg p). destruct (status =? 0); [|destruct (status =? 1); [|done]];
    match goal with |- context [decode_hy2_tcp_body (status :: p) ?ok 1] =>
      intros Hd; destruct (decode_hy2_tcp_body (status :: p ++ q) ok 1) as [o' r] eqn:E; cbn [snd] in Hd; subst r;
      destruct (cuts_body ok (status :: p) q 1 o' response n Hok ltac:(rewrite len_cons; lia) E) as (Hn & H1 & H2)
    end; (split; [lia|]; by split). }
  destruct p as [|status p]; [|by apply Hgen]. cbn [app]. intros Hok Hd.
  destruct q as [|status q]; [done|]. rewrite <- (app_nil_r (status :: q)) in Hok, Hd.
  destruct (Hgen status q [] Hok Hd) as [Hn _]. split; [done|]. split; [|done].
  change (len (@nil Z)) with 0. lia.
Qed.

(** ** Streams deliver *)

(** A stream without errors: what is still to be received. *)
Class ReliableRecv (R : Type) {Recv : QuicRecvStream R} := {
  recv_holds : R -> list Z -> Prop;
  recv_some r l n :
    recv_holds r l -> l <> [] -> 0 < n ->
    exists r' bytes rest, quic_recv n r = (r', Ok (Some bytes)) /\ l = bytes ++ rest /\ bytes <> [] /\
      recv_holds r' rest;
  recv_none r n : recv_holds r [] -> 0 < n -> exists r', quic_recv n r = (r', Ok None)
}.

Section Delivery.
Context {C Q R : Type} {Send : QuicSendStream Q} {Recv : QuicRecvStream R} {Connection : QuicConnection C Q R}.
Context {Reliable : ReliableRecv R}.
Context (encoding_text : ProtocolEncodingError -> string) (decoding_text : ProtocolDecodingError -> string).

Lemma reader_task_spec turns r l :
  recv_holds r l -> len l < Z.of_nat turns ->
  exists chunks, reader_task turns r = map Ok chunks ++ [Ok []] /\ concat chunks = l /\
    Forall (fun chunk => chunk <> []) chunks.
Proof.
  revert r l. induction turns as [|turns IH]; intros r l Hr Ht; [pose proof (len_nonneg l); lia|].
  cbn [reader_task]. destruct l as [|x l].
  - destruct (recv_none r 16384 Hr ltac:(lia)) as (r' & ->). by exists [].
  - destruct (recv_some r (x :: l) 16384 Hr ltac:(done) ltac:(lia)) as (r' & bytes & rest & -> & E & Hne & Hr').
    destruct bytes as [|b bytes]; [done|]. cbn [is_empty].
    destruct (IH r' rest Hr') as (chunks & -> & <- & Hall).
    { apply (f_equal len) in E. rewrite len_app, !len_cons in E. rewrite len_cons in Ht. pose proof (len_nonneg bytes). lia. }
    exists ((b :: bytes) :: chunks). rewrite E. split_and!; [done|done|by constructor].
Qed.

(** The blocking stream gives what is left in the buffer and what the task reads. *)
Lemma session_stream_holds turns (stream : QuicTcpStream Q R) l :
  recv_holds (qs_recv stream) l -> len l < Z.of_nat turns -> qs_read_offset stream = 0 ->
  h2_holds (from_session_stream turns stream) (qs_read_buffer stream ++ l).
Proof.
  intros Hr Ht Ho. destruct (reader_task_spec turns _ l Hr Ht) as (chunks & Htask & <- & Hne).
  exists chunks. cbn. rewrite Ho, Htask. split_and!; [apply buffered_fresh|done|by right].
Qed.

(** What the request for a connection gives for a response of [n] bytes in front of [l]. *)
Lemma prefetch_spec turns buffer r l response n :
  recv_holds r l -> bytes_ok (buffer ++ l) -> decode_hy2_tcp_response (buffer ++ l) = Ok (response, n) ->
  len buffer < n <= HY2_TCP_RESPONSE_PREFETCH_LIMIT -> len l < Z.of_nat turns ->
  exists r', if hy2_ok response
  then exists rest data, read_hy2_tcp_response_prefetch decoding_text turns buffer r = (r', Ok rest) /\
    rest ++ data = drop (Z.to_nat n) (buffer ++ l) /\ recv_holds r' data
  else read_hy2_tcp_response_prefetch decoding_text turns buffer r =
    (r', Err (mkIoError PermissionDenied ("HY2 TCP connect failed: " +:+ hy2_message response))).
Proof.
  revert buffer r l. induction turns as [|turns IH]; intros buffer r l Hr Hok Hd Hn Ht; [pose proof (len_nonneg l); lia|].
  assert (Hin : 0 <= n <= len (buffer ++ l)).
  { destruct (protocol_decoders_total (buffer ++ l) Hok) as (_ & _ & H). rewrite Hd in H. exact H. }
  cbn [read_hy2_tcp_response_prefetch]. destruct l as [|x l]; [rewrite app_nil_r in Hin; lia|].
  destruct (recv_some r (x :: l) 1024 Hr ltac:(done) ltac:(lia)) as (r1 & bytes & rest & Hrecv & E & Hne & Hr1).
  erewrite bind_ok by (unfold sm_zoom, id; rewrite Hrecv; reflexivity). rewrite E, app_assoc in Hok, Hd, Hin |- *.
  destruct (response_in_part (buffer ++ bytes) rest response n Hok Hd) as (Hpos & Hfull & Hshort).
  destruct (Z.le_gt_cases n (len (buffer ++ bytes))) as [Hle|Hgt].
  - rewrite (Hfull Hle). exists r1. destruct (hy2_ok response); cbn [negb]; [|done].
    exists (drop (Z.to_nat n) (buffer ++ bytes)), rest. split_and!; [|by rewrite (drop_app_le (buffer ++ bytes)) by (unfold len in *; lia)|done].
    rewrite slice_ok by lia. unfold sm_lift, sub_list. rewrite take_ge; [done|]. rewrite length_drop. unfold len. lia.
  - rewrite (Hshort Hgt). replace (_ <=? HY2_TCP_RESPONSE_PREFETCH_LIMIT) with true by lia.
    apply (IH (buffer ++ bytes) r1 rest Hr1 Hok Hd); [lia|].
    rewrite E, len_app in Ht. destruct bytes as [|b bytes]; [done|]. rewrite len_cons in Ht. pose proof (len_nonneg bytes). lia.
Qed.

(** C39: A connection through Hysteria 2 delivers: if the bytes a server sends begin with a
    response that accepts the request and is at most 64 KiB long with its message and padding (a
    longer one may be refused with InvalidData), in whatever pieces they arrive, then the stream
    is opened and its reader gets exactly the bytes behind the response and then the end; a
    response within that size that refuses is reported with its message. *)
Theorem hy2_stream_delivers target padding request (c c' : C) (send send' : Q) (recv : R) bytes response n
    turns reads amount :
  encode_hy2_tcp_request target padding = Ok request -> quic_open_bi c = (c', Ok (send, recv)) ->
  quic_write_all request send = (send', Ok tt) -> recv_holds recv bytes -> bytes_ok bytes ->
  decode_hy2_tcp_response bytes = Ok (response, n) -> n <= HY2_TCP_RESPONSE_PREFETCH_LIMIT ->
  len bytes < Z.of_nat turns -> len bytes < Z.of_nat reads -> 0 < amount ->
  if hy2_ok response
  then exists stream, hy2_open_tcp_stream encoding_text decoding_text turns target padding c = (c', Ok stream) /\
    exists s', read_all hy2_read reads amount (from_session_stream turns stream) = (s', Ok (drop (Z.to_nat n) bytes))
  else hy2_open_tcp_stream encoding_text decoding_text turns target padding c =
    (c', Err (mkIoError PermissionDenied ("HY2 TCP connect failed: " +:+ hy2_message response))).
Proof.
  intros Hreq Hopen Hwrite Hr Hok Hd Hlimit Ht Hreads Ha. unfold hy2_open_tcp_stream, encoded.
  rewrite Hreq. cbn [map_err]. rewrite (bind_lift_ok _ request) by done.
  erewrite bind_ok by (unfold failing, sm_zoom, id; rewrite Hopen; reflexivity). cbv beta iota.
  erewrite bind_ok by (unfold on_stream, failing, sm_zoom, id; rewrite Hwrite; reflexivity). cbv beta iota.
  destruct (response_in_part [] bytes response n Hok Hd) as (Hpos & _).
  destruct (prefetch_spec turns [] recv bytes response n Hr Hok Hd) as (r' & Hp); [rewrite len_nil; by split|done|].
  destruct (hy2_ok response).
  - destruct Hp as (rest & data & Hp & Hcat & Hr'). cbn [app] in Hcat.
    erewrite bind_ok by (unfold on_stream; rewrite Hp; reflexivity). eexists. split; [reflexivity|].
    assert (Hle : len rest + len data <= len bytes).
    { rewrite <- len_app, Hcat. unfold len. rewrite length_drop. lia. }
    pose proof (len_nonneg rest). apply (delivers_all _ h2_holds); [apply h2_delivers| |done|].
    + rewrite <- Hcat. by apply session_stream_holds; [|lia|].
    + rewrite <- Hcat, len_app. lia.
  - by erewrite bind_err by (unfold on_stream; rewrite Hp; reflexivity).
Qed.

(** The fragments of a datagram are not put together: of an answer in several fragments the
    first one to arrive is returned as if it were the answer. *)
Theorem hy2_first_fragment_returned (c c1 c2 : C) session packet target payload message fragment fragments address part
    bytes :
  encode_hy2_udp_message session packet 0 1 target payload = Ok message ->
  quic_send_datagram message c = (c1, Ok tt) -> quic_read_datagram c1 = (c2, Ok bytes) ->
  is_u32 session -> is_u16 packet -> is_text (ep_host address) -> is_u16 (ep_port address) ->
  bare_host (ep_host address) <> "" ->
  len (as_bytes (trim (ep_host address) +:+ ":" +:+ to_decimal (ep_port address))) < 2 ^ 62 ->
  encode_hy2_udp_message session packet fragment fragments address part = Ok bytes ->
  exists answer, hy2_relay_udp_datagram encoding_text decoding_text session packet target payload c = (c2, Ok answer) /\
    hy2_payload answer = part /\ hy2_fragment_count answer = fragments.
Proof.
  intros Hm Hsend Hread Hs Hp Ht Hport Hhost Hbig Hpart.
  pose proof (hy2_udp_roundtrip _ _ _ _ _ _ _ Hs Hp Ht Hport Hhost Hbig Hpart) as Hd.
  unfold hy2_relay_udp_datagram, hy2_send_udp_datagram, hy2_read_udp_datagram, encoded, decoded, failing.
  rewrite Hm. cbn [map_err]. erewrite bind_ok; [|rewrite (bind_lift_ok _ message) by done; unfold sm_zoom, id; rewrite Hsend; reflexivity].
  erewrite bind_ok by (unfold sm_zoom, id; rewrite Hread; reflexivity). rewrite Hd. by eexists.
Qed.

End Delivery.

(** ** Naive over HTTP/3, whatever the order of turns *)

Section NaiveSpec.
Context {H R : Type} {Stream : H3Stream H R}.
(** What has been sent on the stream. *)
Context (sent : H -> list Z).
Context (send_ok : forall bytes h h', h3_send_data bytes h = (h', Ok tt) -> sent h' = sent h ++ bytes).
Context (finish_ok : forall h h', h3_finish h = (h', Ok tt) -> sent h' = sent h).

(** What happens to a stream: a turn of the task, and the calls of its owner, during which the
    task may turn. *)
Inductive h3_event : Type :=
| TaskReceives
| CallerWrites (receives : nat) (buffer : list Z)
| CallerFinishes (receives : nat)
| CallerReads (amount : Z).

(** The state after an event, and the bytes of a write that was answered with success. *)
Definition h3_step (event : h3_event) (s : NaiveH3 H R) : NaiveH3 H R * list Z :=
  match event with
  | TaskReceives => (receive_h3_data s, [])
  | CallerWrites receives buffer =>
      match naive_h3_write receives buffer s with (s, Ok _) => (s, buffer) | (s, _) => (s, []) end
  | CallerFinishes receives => (fst (naive_h3_shutdown_write receives s), [])
  | CallerReads amount => (fst (naive_h3_read amount s), [])
  end.

Fixpoint h3_run (events : list h3_event) (s : NaiveH3 H R) : NaiveH3 H R * list Z :=
  match events with
  | [] => (s, [])
  | event :: events' =>
      let '(s, written) := h3_step event s in
      let '(s, more) := h3_run events' s in (s, written ++ more)
  end.

Lemma receive_keeps_send s : n3_send (receive_h3_data s) = n3_send s /\
  n3_write_closed (receive_h3_data s) = n3_write_closed s /\
  (n3_running (receive_h3_data s) = true -> n3_running s = true).
Proof.
  unfold receive_h3_data, forward_h3_received_data. destruct (n3_running s) eqn:E; [|by rewrite E].
  destruct (h3_recv_data (n3_recv s)) as [r [[bytes|]|e|]]; [destruct (is_empty bytes)|..]; by split_and!.
Qed.

Lemma receives_keep_send n s : n3_send (Nat.iter n receive_h3_data s) = n3_send s.
Proof.
  induction n as [|n IH]; [done|]. change (Nat.iter (S n) receive_h3_data s) with (receive_h3_data (Nat.iter n receive_h3_data s)).
  destruct (receive_keeps_send (Nat.iter n receive_h3_data s)) as [-> _]. exact IH.
Qed.

Lemma stopped_stays n s : n3_running s = false -> Nat.iter n receive_h3_data s = s.
Proof.
  intros Hs. induction n as [|n IH]; [done|].
  change (Nat.iter (S n) receive_h3_data s) with (receive_h3_data (Nat.iter n receive_h3_data s)).
  rewrite IH. unfold receive_h3_data. by rewrite Hs.
Qed.

(** A command on a task that is left running was carried out, or nothing was sent. *)
Lemma command_spec {A} receives (send : SM H string A) finish (s : NaiveH3 H R) :
  match h3_command receives send finish s with
  | (s', Ok a) => exists h', send (n3_send s) = (h', Ok a) /\ n3_send s' = h' /\ n3_running s = true
  | (s', _) => n3_running s' = true -> n3_send s' = n3_send s /\ n3_running s = true
  end.
Proof.
  unfold h3_command. destruct (n3_running s) eqn:E; cbn [negb]; [|by rewrite E].
  set (s1 := Nat.iter receives receive_h3_data s). pose proof (receives_keep_send receives s) as Hs. fold s1 in Hs.
  destruct (n3_running s1) eqn:E1; cbn [negb]; [|by rewrite E1].
  destruct (n3_write_closed s1); [by rewrite Hs|].
  rewrite Hs. destruct (send (n3_send s)) as [h' [a|e|]]; [|done..]. by exists h'.
Qed.

Lemma h3_step_sent event s s' written :
  h3_step event s = (s', written) -> n3_running s' = true ->
  n3_running s = true /\ sent (n3_send s') = sent (n3_send s) ++ written.
Proof.
  destruct event as [|receives buffer|receives|amount]; cbn [h3_step].
  - intros [= <- <-] Hr. destruct (receive_keeps_send s) as (Hs & _ & Hrun). rewrite Hs, app_nil_r. split; [by apply Hrun|done].
  - unfold naive_h3_write, sm_bind. pose proof (command_spec receives (h3_send_data buffer) false s) as Hc.
    destruct (h3_command receives (h3_send_data buffer) false s) as [s1 [[]|e|]]; intros [= <- <-] Hr.
    + destruct Hc as (h' & Hsend & -> & Hrun). by rewrite (send_ok _ _ _ Hsend).
    + destruct (Hc Hr) as [-> Hrun]. by rewrite app_nil_r.
    + destruct (Hc Hr) as [-> Hrun]. by rewrite app_nil_r.
  - unfold naive_h3_shutdown_write. pose proof (command_spec receives h3_finish true s) as Hc.
    destruct (h3_command receives h3_finish true s) as [s1 [[]|e|]]; intros [= <- <-] Hr; cbn [fst]; rewrite app_nil_r.
    + destruct Hc as (h' & Hsend & -> & Hrun). by rewrite (finish_ok _ _ Hsend).
    + by destruct (Hc Hr) as [-> Hrun].
    + by destruct (Hc Hr) as [-> Hrun].
  - unfold naive_h3_read, sm_zoom. destruct (h2_read "Naive H3" amount (n3_client s)) as [c r].
    intros [= <- <-] Hr. cbn. by rewrite app_nil_r.
Qed.

(** Whatever the order of the turns of the task and the calls of the owner: as long as the task
    runs, what was sent is what was written with success, in order. *)
Theorem naive_h3_sends_in_order events s s' written :
  h3_run events s = (s', written) -> n3_running s' = true -> sent (n3_send s') = sent (n3_send s) ++ written.
Proof.
  assert (Hall : forall s s' written, h3_run events s = (s', written) -> n3_running s' = true ->
    n3_running s = true /\ sent (n3_send s') = sent (n3_send s) ++ written).
  { clear s s' written. induction events as [|event events IH]; intros s s' written; cbn [h3_run].
    { intros [= <- <-]. by rewrite app_nil_r. }
    destruct (h3_step event s) as [s1 w1] eqn:E1. destruct (h3_run events s1) as [s2 w2] eqn:E2. intros [= <- <-] Hr.
    destruct (IH _ _ _ E2 Hr) as [Hr1 H2]. destruct (h3_step_sent _ _ _ _ E1 Hr1) as [Hr0 H1].
    by rewrite H2, H1, app_assoc. }
  intros E Hr. by apply (Hall _ _ _ E Hr).
Qed.

(** When the server has ended its side, the task ends, and with it the other side: every later
    write fails, although the stream could still carry it. *)
Theorem naive_h3_remote_end_stops_upload s recv receives buffer :
  n3_running s = true -> h3_recv_data (n3_recv s) = (recv, Ok None) ->
  snd (naive_h3_write receives buffer (receive_h3_data s)) =
  Err (mkIoError BrokenPipe "Naive H3 stream is closed").
Proof.
  intros Hr Hrecv. unfold receive_h3_data. rewrite Hr, Hrecv. cbn.
  unfold naive_h3_write, h3_command, sm_bind. done.
Qed.

(** A data frame without bytes ends the task too: the reader gets what came before and then
    the end, whatever the server sends later. *)
Theorem naive_h3_empty_frame_ends s recv amount :
  n3_running s = true -> h3_recv_data (n3_recv s) = (recv, Ok (Some [])) ->
  rx_queue (h2_read_rx (n3_client s)) = [] -> h2_read_buffer (n3_client s) = [] -> h2_read_offset (n3_client s) = 0 ->
  snd (naive_h3_read amount (receive_h3_data s)) = Ok [].
Proof.
  intros Hr Hrecv Hq Hb Ho. unfold receive_h3_data. rewrite Hr, Hrecv. cbn.
  unfold naive_h3_read, sm_zoom, h2_read. destruct (amount =? 0); [done|].
  unfold h2_read_from_buffer, sm_bind, sm_get. cbn. rewrite Hb, Ho.
  change (len [] <=? 0) with true. cbn.
  unfold h2_receive_next_read_chunk, h2_receive, sm_bind, sm_get. cbn. rewrite Hq.
  cbn. by destruct (h2_eof (n3_client s)).
Qed.

End NaiveSpec.

(** ** Examples *)

Definition sample_packet_tag (security : QuicPacketSecurity) (nonce : list Z) : list Z :=
  zeroed 15 ++ [(from_be_bytes nonce + match security with Aes128Gcm _ => 1 | ChaCha20Poly1305 _ => 2 end) mod 256].

(** A cipher whose tag depends on the cipher and the nonce. *)
#[local] Instance sample_packet_crypto : PacketCrypto := {
  packet_sha256 bytes := zeroed 32;
  packet_encrypt security nonce plain := Some (plain ++ sample_packet_tag security nonce);
  packet_decrypt security nonce sealed :=
    if bool_decide (drop (length sealed - 16) sealed = sample_packet_tag security nonce)
    then Some (take (length sealed - 16) sealed) else None
}.

#[local] Instance sample_packet_aead : PacketAead.
Proof.
  constructor.
  - intros security nonce plain _. exists (plain ++ sample_packet_tag security nonce). cbn.
    rewrite len_app, length_app. split_and!; [done|done|].
    change (length (sample_packet_tag security nonce)) with 16%nat.
    replace (length plain + 16 - 16)%nat with (length plain) by lia.
    by rewrite drop_app_length, take_app_length, bool_decide_true.
  - intros security nonce sealed plain. cbn. case_bool_decide; [|done]. intros [= <-]. unfold len.
    rewrite length_take. lia.
Qed.

(** A socket that keeps what was sent, with nonces from a counter. *)
#[local] Instance sample_udp_system : UdpSystem (list Transmit) := {
  fill_nonce s := (s, Ok (zeroed 11 ++ [len s]));
  socket_try_send transmit s := (s ++ [transmit], Ok tt);
  socket_poll_recv := sm_ret None
}.

#[local] Instance sample_nonces : RandomNonces (list Transmit).
Proof. constructor. intros s. by eexists _, _. Qed.

Definition sample_transmit : Transmit :=
  mkTransmit (mkSocketAddr (V4 2130706433) 443) None [1; 2; 3; 4; 5] (Some 2) None.

Lemma quic_packets_roundtrip_witness :
  exists s' packet segment_size,
    try_send (Aes128Gcm (zeroed 16)) sample_transmit [] =
      socket_try_send (sample_transmit <| transmit_contents := packet |>
                                       <| transmit_segment_size := segment_size |>) s' /\
    exists rest, open_meta (Aes128Gcm (zeroed 16)) (mkRecvMeta (len packet) (default (len packet) segment_size))
      (packet ++ [0; 0]) = ([1; 2; 3; 4; 5] ++ rest, Ok (Some (mkRecvMeta 5 2))).
Proof.
  refine (quic_packets_roundtrip (Aes128Gcm (zeroed 16)) sample_transmit [] [0; 0] _ _); [done|].
  intros n [= <-]. lia.
Defined.

#[local] Instance sample_recv : QuicRecvStream Segments := {
  quic_recv n s :=
    match segments_read n s with
    | (s, Ok bytes) => (s, Ok (if is_empty bytes then None else Some bytes))
    | (s, Err error) => (s, Err (io_message error))
    | (s, Panic) => (s, Panic)
    end
}.

Lemma sample_recv_spec s l n :
  segments_hold s l [] -> 0 < n ->
  exists s' bytes rest, quic_recv n s = (s', Ok (if is_empty bytes then None else Some bytes)) /\ l = bytes ++ rest /\
    (bytes = [] -> l = []) /\ segments_hold s' rest [].
Proof.
  intros Hs Hn. destruct (segments_deliver [] s l n Hs Hn) as (s' & bytes & rest & Hr & -> & _ & Hend & Hs').
  exists s', bytes, rest. cbn. by rewrite Hr.
Qed.

#[local] Instance sample_reliable : ReliableRecv Segments.
Proof.
  refine {| recv_holds s l := segments_hold s l [] |}.
  - intros s l n Hs Hl Hn. destruct (sample_recv_spec s l n Hs Hn) as (s' & bytes & rest & Hr & -> & Hend & Hs').
    destruct bytes as [|b bytes]; [by rewrite (Hend eq_refl) in Hl|]. by exists s', (b :: bytes), rest.
  - intros s n Hs Hn. destruct (sample_recv_spec s [] n Hs Hn) as (s' & bytes & rest & Hr & Hnil & _).
    symmetry in Hnil. apply app_eq_nil in Hnil as [-> ->]. by exists s'.
Defined.

#[local] Instance sample_send : QuicSendStream (list Z) := {
  quic_write_all bytes q := (q ++ bytes, Ok tt);
  quic_finish := sm_ret tt
}.

(** A server that accepts the connection and sends three bytes, in pieces. *)
Definition sample_response : list Z := [0; 2; 111; 107; 0; 7; 8; 9].

#[local] Instance sample_connection : QuicConnection unit (list Z) Segments := {
  quic_open_bi c := (c, Ok ([], mkSegments [[0; 2]; [111; 107; 0; 7]; [8; 9]] []));
  quic_open_uni c := (c, Ok []);
  quic_send_datagram _ := sm_ret tt;
  quic_read_datagram := sm_lift (Err "closed");
  export_keying_material _ _ := sm_ret (zeroed 32)
}.

Lemma hy2_stream_delivers_witness :
  exists stream : QuicTcpStream (list Z) Segments,
    hy2_open_tcp_stream (fun _ => "") (fun _ => "") 9 (mkEndpoint "example.com" 443) [] tt = (tt, Ok stream) /\
    exists s', read_all hy2_read 9 2 (from_session_stream 9 stream) = (s', Ok [7; 8; 9]).
Proof.
  eapply (hy2_stream_delivers (fun _ => "") (fun _ => "") (mkEndpoint "example.com" 443) []
    _ tt tt [] _ _ sample_response (mkHy2TcpResponse true "ok") 5 9 9 2).
  - vm_compute. reflexivity.
  - reflexivity.
  - reflexivity.
  - split_and!; [|reflexivity|reflexivity]. by repeat constructor.
  - unfold bytes_ok, sample_response, is_u8. repeat (apply List.Forall_cons; [lia|]). apply List.Forall_nil.
  - vm_compute. reflexivity.
  - unfold HY2_TCP_RESPONSE_PREFETCH_LIMIT. lia.
  - reflexivity.
  - reflexivity.
  - reflexivity.
Defined.
