(* ===== verification/HttpConnect.v ===== *)
(** * The HTTP CONNECT inbound

    [crates/keli-net-core/src/http_connect.rs]: the request a local client sends to open a
    tunnel. The loop that reads a header is that of [http_proxy.rs] too, up to the type of
    the errors. *)

From Stdlib Require Import Ascii.
From stdpp Require Import base strings list numbers.
From S2P Require Import Prelude.
From S2P Require Import StdNet.
From S2P Require Import StdIo.
#[local] Open Scope Z_scope.

Definition MAX_CONNECT_HEADER_BYTES : Z := 16384.

Record HttpConnectRequest : Type := mkHttpConnectRequest {
  connect_host : string;
  connect_port : Z;
  connect_http_version : string
}.

Inductive HttpConnectError : Type :=
| Connect_Io (error : string)
| Connect_HeaderTooLarge
| Connect_InvalidUtf8
| Connect_MissingRequestLine
| Connect_InvalidRequestLine
| UnsupportedMethod (method : string)
| MissingTargetPort
| Connect_InvalidPort (port : string)
| Connect_EmptyHost.

(** [header.ends_with(b"\r\n\r\n")], the header in reverse. *)
Definition ends_in_blank_line (rev_header : list Z) : bool :=
  match rev_header with
  | 10 :: 13 :: 10 :: 13 :: _ => true
  | _ => false
  end.

Section Reader.
Context {S : Type} {Reader : Read S}.

(** The loop of [read_header], for the [left] bytes that the limit leaves. *)
Fixpoint read_header_bytes {E} (io : string -> E) (too_large : E) (left : nat)
  (rev_header : list Z) : SM S E (list Z) :=
  match left with
  | O => sm_lift (Err too_large)
  | Datatypes.S left' =>
      bytes <-! sm_zoom id (fun s _ => s) (fun error => io (io_message error)) (read_exact 1);
      byte <-! sm_lift (index bytes 0);
      let rev_header := byte :: rev_header in
      if ends_in_blank_line rev_header then sm_ret (rev rev_header)
      else read_header_bytes io too_large left' rev_header
  end.

Definition read_header : SM S HttpConnectError (list Z) :=
  read_header_bytes Connect_Io Connect_HeaderTooLarge (Z.to_nat MAX_CONNECT_HEADER_BYTES) [].
End Reader.

Definition parse_target (target : string) : result HttpConnectError (string * Z) :=
  '(host, port) <-?
    match strip_prefix "[" target with
    | Some rest =>
        '(host, rest) <-? ok_or MissingTargetPort (split_once "]"%char rest);
        port <-? ok_or MissingTargetPort (strip_prefix ":" rest);
        Ok (host, port)
    | None => ok_or MissingTargetPort (rsplit_once ":"%char target)
    end;
  if String.eqb (trim host) "" then Err Connect_EmptyHost
  else
    value <-? ok_or (Connect_InvalidPort port) (parse_u16 port);
    Ok (host, value).

(** The request line of a header: its three words. *)
Definition request_line_words {E} (missing invalid : E) (header : string)
  : result E (string * string * string) :=
  request_line <-? ok_or missing (head (lines header));
  match split_whitespace request_line with
  | [method; target; http_version] => Ok (method, target, http_version)
  | _ => Err invalid
  end.

Definition parse_connect_header (header : list Z) : result HttpConnectError HttpConnectRequest :=
  header <-? ok_or Connect_InvalidUtf8 (from_utf8 header);
  '(method, target, http_version) <-?
    request_line_words Connect_MissingRequestLine Connect_InvalidRequestLine header;
  if negb (eq_ignore_ascii_case method "CONNECT") then Err (UnsupportedMethod method)
  else
    '(host, port) <-? parse_target target;
    Ok (mkHttpConnectRequest host port http_version).

Definition parse_http_connect_request {S} {Reader : Read S}
  : SM S HttpConnectError HttpConnectRequest :=
  header <-! read_header;
  sm_lift (parse_connect_header header).

Definition http_connect_success_response : list Z :=
  as_bytes ("HTTP/1.1 200 Connection Established" +:+ crlf +:+ crlf).

Definition http_connect_bad_request_response : list Z :=
  as_bytes ("HTTP/1.1 400 Bad Request" +:+ crlf +:+ crlf).

Example connect_ipv6_target : parse_target "[::1]:443" = Ok ("::1", 443).
Proof. reflexivity. Qed.

Example connect_without_port : parse_target "example.com" = Err MissingTargetPort.
Proof. reflexivity. Qed.
