(* ===== verification/HttpProxy.v ===== *)
(** * The HTTP proxy inbound

    [crates/keli-net-core/src/http_proxy.rs]: a request in absolute or origin form, its
    target, and the header that is sent on. *)

From Stdlib Require Import Ascii.
From stdpp Require Import base strings list numbers.
From S2P Require Import Prelude.
From S2P Require Import StdNet.
From S2P Require Import StdIo.
From S2P Require Import HttpConnect.
#[local] Open Scope Z_scope.

Definition MAX_HTTP_PROXY_HEADER_BYTES : Z := 16384.

Record HttpProxyRequest : Type := mkHttpProxyRequest {
  proxy_method : string;
  proxy_host : string;
  proxy_port : Z;
  path_and_query : string;
  proxy_http_version : string;
  rewritten_header : list Z
}.

Inductive HttpProxyError : Type :=
| Proxy_Io (error : string)
| Proxy_HeaderTooLarge
| Proxy_InvalidUtf8
| Proxy_MissingRequestLine
| Proxy_InvalidRequestLine
| UnsupportedScheme (scheme : string)
| MissingHost
| Proxy_EmptyHost
| Proxy_InvalidPort (port : string).

Definition read_header {S} {Reader : Read S} : SM S HttpProxyError (list Z) :=
  read_header_bytes Proxy_Io Proxy_HeaderTooLarge (Z.to_nat MAX_HTTP_PROXY_HEADER_BYTES) [].

Definition parse_port (value : string) (default_port : Z) : result HttpProxyError Z :=
  if String.eqb value "" then Ok default_port
  else ok_or (Proxy_InvalidPort value) (parse_u16 value).

Definition parse_host_port (value : string) (default_port : Z)
  : result HttpProxyError (string * Z) :=
  let value := trim value in
  if String.eqb value "" then Err Proxy_EmptyHost
  else
    '(host, port) <-?
      match strip_prefix "[" value with
      | Some rest =>
          '(host, rest) <-? ok_or MissingHost (split_once "]"%char rest);
          port <-? parse_port (default "" (strip_prefix ":" rest)) default_port;
          Ok (host, port)
      | None =>
          match rsplit_once ":"%char value with
          | Some (host, port) =>
              if contains host ":" then Ok (value, default_port)
              else
                port <-? parse_port port default_port;
                Ok (host, port)
          | None => Ok (value, default_port)
          end
      end;
    if String.eqb (trim host) "" then Err Proxy_EmptyHost else Ok (host, port).

Definition normalize_origin_path (path : string) : string :=
  if String.eqb path "" then "/"
  else if starts_with path "/" then path
  else "/" +:+ path.

Definition parse_absolute_http_target (rest : string)
  : result HttpProxyError (string * Z * string) :=
  let '(authority, path) := default (rest, "/") (cut_at "/"%char rest) in
  '(host, port) <-? parse_host_port authority 80;
  Ok (host, port, normalize_origin_path path).

(** The closure of [find_host_header]. *)
Definition host_value (line : string) : option string :=
  match split_once ":"%char line with
  | Some (name, value) => if eq_ignore_ascii_case name "host" then Some (trim value) else None
  | None => None
  end.

Fixpoint find_map {A B} (f : A -> option B) (l : list A) : option B :=
  match l with
  | [] => None
  | a :: l' => match f a with Some b => Some b | None => find_map f l' end
  end.

Definition find_host_header (header_text : string) : option string :=
  find_map host_value (drop 1 (lines header_text)).

(** The loop of [rewrite_header]. *)
Fixpoint copy_header_lines (lines : list string) : string :=
  match lines with
  | [] => ""
  | line :: lines' =>
      if String.eqb line "" then crlf else line +:+ crlf +:+ copy_header_lines lines'
  end.

Definition rewrite_header (header_text method path_and_query http_version : string) : list Z :=
  as_bytes (method +:+ " " +:+ path_and_query +:+ " " +:+ http_version +:+ crlf
            +:+ copy_header_lines (drop 1 (split_crlf header_text))).

(** Where a request goes: host, port and path. *)
Definition proxy_target (header_text target : string)
  : result HttpProxyError (string * Z * string) :=
  match strip_prefix "http://" target with
  | Some rest => parse_absolute_http_target rest
  | None =>
      match split_once_text "://" target with
      | Some (scheme, _) => Err (UnsupportedScheme scheme)
      | None =>
          host <-? ok_or MissingHost (find_host_header header_text);
          '(host, port) <-? parse_host_port host 80;
          Ok (host, port, normalize_origin_path target)
      end
  end.

Definition parse_proxy_header (header : list Z) : result HttpProxyError HttpProxyRequest :=
  header_text <-? ok_or Proxy_InvalidUtf8 (from_utf8 header);
  '(method, target, http_version) <-?
    request_line_words Proxy_MissingRequestLine Proxy_InvalidRequestLine header_text;
  '(host, port, path) <-? proxy_target header_text target;
  Ok (mkHttpProxyRequest method host port path http_version
        (rewrite_header header_text method path http_version)).

Definition parse_http_proxy_request {S} {Reader : Read S}
  : SM S HttpProxyError HttpProxyRequest :=
  header <-! read_header;
  sm_lift (parse_proxy_header header).

Definition http_proxy_bad_request_response : list Z :=
  as_bytes ("HTTP/1.1 400 Bad Request" +:+ crlf +:+ crlf).

Example absolute_target :
  parse_absolute_http_target "example.com:8080/a?b" = Ok ("example.com", 8080, "/a?b").
Proof. reflexivity. Qed.

(** Without a slash the query is part of the host. *)
Example query_without_path :
  parse_absolute_http_target "example.com?q=1" = Ok ("example.com?q=1", 80, "/").
Proof. reflexivity. Qed.
