(* ===== verification/HttpSpec.v ===== *)
(** * What the HTTP inbounds read and send on

    A header is read up to its first empty line and not a byte further; the request of the
    client side of [direct.rs] is understood by the CONNECT inbound; and a proxied request
    goes to the host it names with its header fields as they were. *)

From Stdlib Require Import Ascii.
From stdpp Require Import base strings list numbers.
From S2P Require Import Prelude.
From S2P Require Import StdNet.
From S2P Require Import StdIo.
From S2P Require Import StdText.
From S2P Require Import Route.
From S2P Require Import Dns.
From S2P Require Import TunPacket.
From S2P Require Import Codec.
From S2P Require Import CodecSpec.
From S2P Require Import ProxyWire.
From S2P Require Import StreamSpec.
From S2P Require Import HttpConnect.
From S2P Require Import HttpProxy.
#[local] Open Scope Z_scope.

(** ** Reading a header *)

(** None of the bytes completes an empty line, read after those of [rev_header]. *)
Fixpoint no_blank_line (rev_header l : list Z) : bool :=
  match l with
  | [] => true
  | b :: l' => negb (ends_in_blank_line (b :: rev_header)) && no_blank_line (b :: rev_header) l'
  end.

Lemma no_blank_line_app r l k :
  no_blank_line r (l ++ k) = no_blank_line r l && no_blank_line (rev l ++ r) k.
Proof.
  revert r. induction l as [|b l IH]; intros r; [done|]. cbn [app no_blank_line rev].
  rewrite IH, <- app_assoc. cbn [app]. by rewrite andb_assoc.
Qed.

Section Header.
Context {E : Type} (io : string -> E) (too_large : E).

Lemma header_step left r b l e out :
  read_header_bytes io too_large (S left) r (mkPipe (b :: l) e out) =
  if ends_in_blank_line (b :: r) then (mkPipe l e out, Ok (rev (b :: r)))
  else read_header_bytes io too_large left (b :: r) (mkPipe l e out).
Proof.
  cbn [read_header_bytes].
  assert (sm_zoom id (fun s _ => s) (fun error => io (io_message error)) (read_exact 1) (mkPipe (b :: l) e out)
    = (mkPipe l e out, Ok [b])) as Hread.
  { unfold sm_zoom, id. change (b :: l) with ([b] ++ l). by rewrite (pipe_read_exact [b] l e out 1). }
  rewrite (bind_ok _ _ _ _ _ Hread). erewrite bind_lift_ok by reflexivity. cbv zeta.
  by destruct (ends_in_blank_line (b :: r)).
Qed.

Lemma header_walk left r l k e out :
  no_blank_line r l = true ->
  read_header_bytes io too_large (length l + left) r (mkPipe (l ++ k) e out) =
  read_header_bytes io too_large left (rev l ++ r) (mkPipe k e out).
Proof.
  revert r. induction l as [|b l IH]; intros r H; [done|]. cbn [no_blank_line] in H.
  apply andb_true_iff in H as [Hb Hl]. cbn [length app rev Nat.add].
  rewrite header_step. apply negb_true_iff in Hb. rewrite Hb, IH by done. by rewrite <- app_assoc.
Qed.

(** The header is returned and what follows it is left on the stream. *)
Lemma header_read limit l b k e out :
  no_blank_line [] l = true -> ends_in_blank_line (b :: rev l) = true -> (length l < limit)%nat ->
  read_header_bytes io too_large limit [] (mkPipe (l ++ b :: k) e out) =
  (mkPipe k e out, Ok (l ++ [b])).
Proof.
  intros Hl Hb Hlim. replace limit with (length l + S (limit - length l - 1))%nat by lia.
  rewrite header_walk by done. rewrite app_nil_r, header_step, Hb. cbn [rev].
  by rewrite rev_involutive.
Qed.

Lemma header_limit limit l k e out :
  no_blank_line [] l = true -> length l = limit ->
  read_header_bytes io too_large limit [] (mkPipe (l ++ k) e out) = (mkPipe k e out, Err too_large).
Proof.
  intros Hl <-. rewrite <- (Nat.add_0_r (length l)), header_walk by done. done.
Qed.

Lemma header_cut limit l e out :
  no_blank_line [] l = true -> (length l < limit)%nat ->
  read_header_bytes io too_large limit [] (mkPipe l e out) = (mkPipe [] e out, Err (io (io_message e))).
Proof.
  intros Hl Hlim. replace limit with (length l + S (limit - length l - 1))%nat by lia.
  pose proof (header_walk (S (limit - length l - 1)) [] l [] e out Hl) as Hw.
  rewrite app_nil_r in Hw. rewrite Hw. reflexivity.
Qed.

(** Every stream has one of the three shapes. *)
Lemma header_cases (limit : nat) l r :
  (exists h b k, l = h ++ b :: k /\ no_blank_line r h = true /\
     ends_in_blank_line (b :: rev h ++ r) = true /\ (length h < limit)%nat) \/
  (exists h k, l = h ++ k /\ no_blank_line r h = true /\ length h = limit) \/
  (no_blank_line r l = true /\ (length l < limit)%nat).
Proof.
  revert l r. induction limit as [|limit IH]; intros l r; [by right; left; exists [], l|].
  destruct l as [|b l]; [right; right; cbn; split; [done|lia]|].
  destruct (ends_in_blank_line (b :: r)) eqn:Hb.
  { left. exists [], b, l. cbn. split_and!; [done..|lia]. }
  destruct (IH l (b :: r)) as [(h & c & k & -> & Hh & Hc & Hl)|[(h & k & -> & Hh & Hl)|[Hh Hl]]].
  - left. exists (b :: h), c, k. cbn [no_blank_line length app rev]. rewrite Hb, Hh, <- app_assoc.
    split_and!; [done..|lia].
  - right; left. exists (b :: h), k. cbn [no_blank_line length app]. rewrite Hb, Hh. split_and!; [done..|lia].
  - right; right. cbn [no_blank_line length]. rewrite Hb, Hh. split; [done|lia].
Qed.
End Header.

(** The bytes up to and with the first empty line. *)
Definition complete_header (header : list Z) : Prop :=
  exists l b, header = l ++ [b] /\ no_blank_line [] l = true /\ ends_in_blank_line (b :: rev l) = true.

(** ** No panics *)

Definition no_panic {E A} (r : result E A) : Prop := r <> Panic.

Lemma parse_returns_bind {E A B} (r : result E A) (k : A -> result E B) :
  no_panic r -> (forall a, no_panic (k a)) -> no_panic (result_bind r k).
Proof. intros Hr Hk. destruct r; [apply Hk|done|done]. Qed.

Lemma parse_returns_ok_or {E A} (e : E) (o : option A) : no_panic (ok_or e o).
Proof. by destruct o. Qed.

Create HintDb returns.
#[export] Hint Resolve parse_returns_ok_or : returns.

(** Splits a computation into its steps. *)
Ltac returns_steps :=
  repeat first
    [ progress auto with returns
    | apply parse_returns_bind
    | match goal with
      | |- forall _, _ => intros
      | |- no_panic (let _ := _ in _) => cbv zeta
      | |- no_panic (match ?x with _ => _ end) => destruct x
      | |- no_panic (Ok _) => discriminate
      | |- no_panic (Err _) => discriminate
      end ].

Lemma request_line_words_returns {E} (e1 e2 : E) h : no_panic (request_line_words e1 e2 h).
Proof. unfold request_line_words. returns_steps. Qed.

Lemma parse_target_returns t : no_panic (parse_target t).
Proof. unfold parse_target. returns_steps. Qed.

Lemma parse_port_returns v d : no_panic (parse_port v d).
Proof. unfold parse_port. returns_steps. Qed.

#[export] Hint Resolve request_line_words_returns parse_target_returns parse_port_returns : returns.

Lemma parse_host_port_returns v d : no_panic (parse_host_port v d).
Proof. unfold parse_host_port. returns_steps. Qed.

#[export] Hint Resolve parse_host_port_returns : returns.

Lemma proxy_target_returns h t : no_panic (proxy_target h t).
Proof. unfold proxy_target, parse_absolute_http_target. returns_steps. Qed.

#[export] Hint Resolve proxy_target_returns : returns.

Lemma parse_connect_header_returns h : no_panic (parse_connect_header h).
Proof. unfold parse_connect_header. returns_steps. Qed.

Lemma parse_proxy_header_returns h : no_panic (parse_proxy_header h).
Proof. unfold parse_proxy_header. returns_steps. Qed.

(** Whatever a local client sends, both HTTP inbounds read exactly the bytes up to and
    with the first empty line and decide on these alone, so that what follows stays on
    the stream for the tunnel; a header of more than 16384 bytes is refused after that
    many bytes, a stream that ends before is an error, and nothing panics. *)
Theorem http_inbounds_read_one_header (p : Pipe) :
  exists header rest,
    incoming p = header ++ rest /\ len header <= 16384 /\
    let p' := mkPipe rest (at_end p) (outgoing p) in
    exists connect proxy,
      parse_http_connect_request p = (p', connect) /\ parse_http_proxy_request p = (p', proxy) /\
      no_panic connect /\ no_panic proxy /\
      ((complete_header header /\ connect = parse_connect_header header /\
        proxy = parse_proxy_header header) \/
       (no_blank_line [] header = true /\ len header = 16384 /\
        connect = Err Connect_HeaderTooLarge /\ proxy = Err Proxy_HeaderTooLarge) \/
       (no_blank_line [] header = true /\ rest = [] /\ len header < 16384 /\
        connect = Err (Connect_Io (io_message (at_end p))) /\
        proxy = Err (Proxy_Io (io_message (at_end p))))).
Proof.
  destruct p as [l e out]. cbn [incoming at_end outgoing].
  unfold parse_http_connect_request, HttpConnect.read_header, parse_http_proxy_request, HttpProxy.read_header.
  change (Z.to_nat MAX_HTTP_PROXY_HEADER_BYTES) with (Z.to_nat MAX_CONNECT_HEADER_BYTES).
  assert (Z.of_nat (Z.to_nat MAX_CONNECT_HEADER_BYTES) = 16384) as Hlimit
    by (rewrite Z2Nat.id; [done|unfold MAX_CONNECT_HEADER_BYTES; lia]).
  generalize dependent (Z.to_nat MAX_CONNECT_HEADER_BYTES). intros limit Hlimit.
  destruct (header_cases limit l []) as [(h & b & k & -> & Hh & Hb & Hl)|[(h & k & -> & Hh & Hl)|[Hh Hl]]].
  - rewrite app_nil_r in Hb. exists (h ++ [b]), k.
    split; [by rewrite <- app_assoc|]. split; [rewrite len_app; change (len [b]) with 1; unfold len; lia|].
    eexists _, _. erewrite !bind_ok by (by apply header_read). split; [reflexivity|]. split; [reflexivity|].
    split; [apply parse_connect_header_returns|]. split; [apply parse_proxy_header_returns|].
    left. split; [by exists h, b|done].
  - exists h, k. split; [done|]. split; [unfold len; lia|]. eexists _, _.
    erewrite !bind_err by (by apply header_limit). split_and!; try done.
    right; left. split_and!; [done|unfold len; lia|done|done].
  - exists l, []. rewrite app_nil_r. split; [done|]. split; [unfold len; lia|]. eexists _, _.
    erewrite !bind_err by (by apply header_cut). split_and!; try done.
    right; right. split_and!; [done|done|unfold len; lia|done|done].
Qed.

(** ** Text *)

Fixpoint all_chars (p : Z -> bool) (s : string) : bool :=
  match s with
  | EmptyString => true
  | String a s' => p (byte_of_ascii a) && all_chars p s'
  end.

(** A word and a line of printable ASCII characters. *)
Definition word_char (b : Z) : bool := in_range 33 126 b.
Definition line_char (b : Z) : bool := in_range 32 126 b.
Definition word (s : string) : Prop := s <> "" /\ all_chars word_char s = true.
Definition line (s : string) : Prop := s <> "" /\ all_chars line_char s = true.

Lemma all_chars_app p s t : all_chars p (s +:+ t) = all_chars p s && all_chars p t.
Proof.
  induction s as [|a s IH]; [done|].
  change (String a s +:+ t) with (String a (s +:+ t)). cbn [all_chars]. by rewrite IH, andb_assoc.
Qed.

Lemma all_chars_weaken (p q : Z -> bool) s :
  (forall b, p b = true -> q b = true) -> all_chars p s = true -> all_chars q s = true.
Proof.
  intros Hpq. induction s as [|a s IH]; [done|]. cbn. rewrite !andb_true_iff. intros [H1 H2]. auto.
Qed.

Lemma word_line_char b : word_char b = true -> line_char b = true.
Proof. unfold word_char, line_char, in_range. lia. Qed.

Lemma string_app_assoc (s t u : string) : (s +:+ t) +:+ u = s +:+ (t +:+ u).
Proof. induction s as [|a s IH]; [done|]. change (String a ((s +:+ t) +:+ u) = String a (s +:+ (t +:+ u))). by rewrite IH. Qed.

Lemma string_cons_app a (s t : string) : String a s +:+ t = String a (s +:+ t).
Proof. done. Qed.

(** A text of ASCII characters is valid UTF-8. *)
Lemma ascii_text s : all_chars (in_range 0 127) s = true -> is_text s.
Proof.
  unfold is_text. induction s as [|a s IH]; [done|]. cbn [all_chars as_bytes utf8_valid].
  rewrite andb_true_iff. intros [-> H]. by apply IH.
Qed.

Lemma word_no_space a l w :
  word_char (byte_of_ascii a) = true ->
  split_ws_bytes (byte_of_ascii a :: l) w = split_ws_bytes l (byte_of_ascii a :: w).
Proof.
  intros Ha. set (b := byte_of_ascii a) in *. unfold word_char, in_range in Ha.
  assert (is_ws1 b = false) as H1 by (unfold is_ws1, in_range; lia).
  assert (forall c, is_ws2 b c = false) as H2 by (intros c; unfold is_ws2; lia).
  assert (forall c d, is_ws3 b c d = false) as H3 by (intros c d; unfold is_ws3, in_range; lia).
  cbn [split_ws_bytes]. rewrite H1. destruct l as [|c [|d l]]; [done|by rewrite H2|by rewrite H2, H3].
Qed.

Lemma words_cons s l w :
  all_chars word_char s = true ->
  split_ws_bytes (as_bytes s ++ l) w = split_ws_bytes l (rev (as_bytes s) ++ w).
Proof.
  revert w. induction s as [|a s IH]; intros w; [done|]. cbn [all_chars as_bytes rev app].
  rewrite andb_true_iff. intros [Ha Hs]. rewrite word_no_space, IH by done. by rewrite <- app_assoc.
Qed.

Lemma close_word_word s words :
  s <> "" -> close_word (rev (as_bytes s)) words = as_bytes s :: words.
Proof.
  intros Hne. unfold close_word. rewrite rev_involutive.
  destruct (rev (as_bytes s)) as [|b l] eqn:Hr; [|done]. destruct s; [done|].
  apply (f_equal length) in Hr. rewrite length_rev in Hr. done.
Qed.

(** The three words of a request line. *)
Lemma request_words m t v :
  word m -> word t -> word v -> split_whitespace (m +:+ " " +:+ t +:+ " " +:+ v) = [m; t; v].
Proof.
  intros [Hm Cm] [Ht Ct] [Hv Cv]. unfold split_whitespace. rewrite !as_bytes_app.
  change (as_bytes " ") with [32]. cbn [app].
  rewrite words_cons by done. cbn [split_ws_bytes]. change (is_ws1 32) with true. cbv iota.
  rewrite app_nil_r, close_word_word by done. rewrite words_cons by done.
  cbn [split_ws_bytes]. change (is_ws1 32) with true. cbv iota.
  rewrite app_nil_r, close_word_word by done. rewrite <- (app_nil_r (as_bytes v)), words_cons by done.
  cbn [split_ws_bytes]. rewrite app_nil_r, close_word_word by done. cbn [map].
  by rewrite !string_of_as_bytes.
Qed.

(** Lines of a header. *)
Lemma line_char_spec a :
  line_char (byte_of_ascii a) = true -> Ascii.eqb a newline = false /\ Ascii.eqb a carriage_return = false.
Proof.
  intros H. split; apply Ascii.eqb_neq; intros ->; vm_compute in H; discriminate.
Qed.

Lemma split_on_line s rest :
  all_chars line_char s = true ->
  split_on newline (s +:+ crlf +:+ rest) =
  (s +:+ String carriage_return "") :: split_on newline rest.
Proof.
  induction s as [|a s IH]; intros Hs; [done|]. cbn [all_chars] in Hs.
  apply andb_true_iff in Hs as [Ha Hs]. rewrite !string_cons_app. cbn [split_on].
  destruct (line_char_spec a Ha) as [-> _]. by rewrite IH.
Qed.

Lemma strip_return s : strip_carriage_return (s +:+ String carriage_return "") = s.
Proof.
  induction s as [|a s IH]; [done|]. rewrite string_cons_app.
  destruct s as [|b s]; [done|]. change (String a (strip_carriage_return (String b s +:+ String carriage_return "")) = String a (String b s)).
  by rewrite IH.
Qed.

Lemma lines_cons s rest :
  all_chars line_char s = true -> lines (s +:+ crlf +:+ rest) = s :: lines rest.
Proof.
  intros Hs. unfold lines. rewrite split_on_line by done.
  assert (exists p ps, split_on newline rest = p :: ps) as (p & ps & Hr).
  { destruct rest as [|a r]; cbn [split_on]; [by eauto|]. destruct (Ascii.eqb a newline); [by eauto|].
    destruct (split_on newline r); by eauto. }
  rewrite Hr. cbn [strip_ends]. by rewrite strip_return.
Qed.

Lemma split_crlf_cons s rest :
  all_chars line_char s = true -> split_crlf (s +:+ crlf +:+ rest) = s :: split_crlf rest.
Proof.
  induction s as [|a s IH]; intros Hs; [done|]. cbn [all_chars] in Hs.
  apply andb_true_iff in Hs as [Ha Hs]. specialize (IH Hs). rewrite string_cons_app. cbn [split_crlf].
  destruct (line_char_spec a Ha) as [_ ->]. cbn [andb].
  destruct (s +:+ crlf +:+ rest) as [|b r] eqn:Hr; [by destruct s|]. by rewrite IH.
Qed.

(** ** A request *)

(** The fields of a header and the empty line. *)
Fixpoint header_fields (fields : list string) : string :=
  match fields with
  | [] => crlf
  | field :: fields' => field +:+ crlf +:+ header_fields fields'
  end.

Definition request_line (method target version : string) : string :=
  method +:+ " " +:+ target +:+ " " +:+ version.

Definition request_header (method target version : string) (fields : list string) : string :=
  request_line method target version +:+ crlf +:+ header_fields fields.

Lemma line_ascii s : all_chars line_char s = true -> all_chars (in_range 0 127) s = true.
Proof. apply all_chars_weaken. unfold line_char, in_range. lia. Qed.

Lemma word_is_line s : word s -> line s.
Proof. intros [Hne Hs]. split; [done|]. eapply all_chars_weaken; [apply word_line_char|done]. Qed.

Lemma request_line_is_line m t v : word m -> word t -> word v -> line (request_line m t v).
Proof.
  intros Hm%word_is_line Ht%word_is_line Hv%word_is_line. split; [by destruct Hm, m|].
  unfold request_line. rewrite !all_chars_app, !andb_true_iff. by destruct Hm, Ht, Hv.
Qed.

Lemma header_fields_ascii fields : Forall line fields -> all_chars (in_range 0 127) (header_fields fields) = true.
Proof.
  induction 1 as [|f fs [_ Hf] _ IH]; [done|]. cbn [header_fields].
  rewrite !all_chars_app, IH, (line_ascii f Hf). done.
Qed.

Lemma lines_header_fields fields : Forall line fields -> lines (header_fields fields) = fields ++ [""].
Proof.
  induction 1 as [|f fs [_ Hf] _ IH]; [done|]. cbn [header_fields app]. by rewrite lines_cons, IH.
Qed.

Lemma copy_fields fields :
  Forall line fields -> copy_header_lines (split_crlf (header_fields fields)) = header_fields fields.
Proof.
  induction 1 as [|f fs [Hne Hf] _ IH]; [done|]. cbn [header_fields].
  rewrite split_crlf_cons by done. cbn [copy_header_lines]. rewrite IH.
  by replace (String.eqb f "") with false by (symmetry; by apply String.eqb_neq).
Qed.

Lemma not_newline b r : b <> 10 -> ends_in_blank_line (b :: r) = false.
Proof.
  intros Hb. unfold ends_in_blank_line. repeat (case_match; try done).
Qed.

Lemma second_not_newline b r : b <> 10 -> ends_in_blank_line (10 :: 13 :: b :: r) = false.
Proof.
  intros Hb. unfold ends_in_blank_line. repeat (case_match; try done).
Qed.

Lemma chars_no_blank_line r s : all_chars line_char s = true -> no_blank_line r (as_bytes s) = true.
Proof.
  revert r. induction s as [|a s IH]; intros r; [done|]. cbn [all_chars as_bytes no_blank_line].
  rewrite andb_true_iff. intros [Ha Hs]. rewrite IH by done. rewrite andb_true_r. apply negb_true_iff.
  assert (byte_of_ascii a <> 10) by (unfold line_char, in_range in Ha; lia).
  by apply not_newline.
Qed.

Lemma last_char_spec s r :
  line s -> exists b k, rev (as_bytes s) ++ r = b :: k /\ line_char b = true.
Proof.
  intros [Hne Hs]. destruct (rev (as_bytes s)) as [|b k] eqn:Hr.
  { destruct s; [done|]. apply (f_equal length) in Hr. rewrite length_rev in Hr. done. }
  exists b, (k ++ r). split; [done|]. assert (In b (as_bytes s)) as Hin.
  { apply in_rev. rewrite Hr. by left. }
  clear Hr Hne. induction s as [|a s IH]; [done|]. cbn [all_chars as_bytes] in *.
  apply andb_true_iff in Hs as [Ha Hs]. destruct Hin as [<-|Hin]; [done|]. by apply IH.
Qed.

Lemma line_no_blank_line r s : line s -> no_blank_line r (as_bytes (s +:+ crlf)) = true.
Proof.
  intros Hs. rewrite as_bytes_app, no_blank_line_app, chars_no_blank_line by apply Hs.
  destruct (last_char_spec s r Hs) as (b & k & -> & Hb). change (as_bytes crlf) with [13; 10].
  assert (b <> 10) as H10 by (unfold line_char, in_range in Hb; lia). cbn [no_blank_line].
  replace (ends_in_blank_line (13 :: b :: k)) with false by done.
  by rewrite second_not_newline.
Qed.

(** The fields are read to their end, after a line that has ended. *)
Lemma fields_complete fields r r' :
  r = 10 :: 13 :: r' -> Forall line fields ->
  exists l, as_bytes (header_fields fields) = l ++ [10] /\ no_blank_line r l = true /\
    ends_in_blank_line (10 :: rev l ++ r) = true.
Proof.
  intros Hr Hf. revert r r' Hr. induction Hf as [|f fs Hf _ IH]; intros r r' ->; [by exists [13]|].
  cbn [header_fields]. rewrite <- string_app_assoc, as_bytes_app.
  destruct (IH (rev (as_bytes (f +:+ crlf)) ++ 10 :: 13 :: r') (rev (as_bytes f) ++ 10 :: 13 :: r'))
    as (l & Hl & Hn & He).
  { rewrite as_bytes_app, rev_app_distr. done. }
  exists (as_bytes (f +:+ crlf) ++ l). rewrite Hl, app_assoc. split; [done|]. split.
  - by rewrite no_blank_line_app, line_no_blank_line, Hn by done.
  - by rewrite rev_app_distr, <- app_assoc.
Qed.

Lemma request_complete m t v fields :
  word m -> word t -> word v -> Forall line fields ->
  complete_header (as_bytes (request_header m t v fields)).
Proof.
  intros Hm Ht Hv Hf. unfold request_header. rewrite <- string_app_assoc, as_bytes_app.
  set (first := request_line m t v).
  assert (line first) as Hline by by apply request_line_is_line.
  destruct (fields_complete fields (rev (as_bytes (first +:+ crlf))) (rev (as_bytes first))) as (l & Hl & Hn & He);
    [by rewrite as_bytes_app, rev_app_distr|done|].
  exists (as_bytes (first +:+ crlf) ++ l), 10. rewrite Hl, app_assoc. split; [done|]. split.
  - rewrite no_blank_line_app, line_no_blank_line, app_nil_r by done. exact Hn.
  - by rewrite rev_app_distr.
Qed.

Lemma request_is_text m t v fields :
  word m -> word t -> word v -> Forall line fields -> is_text (request_header m t v fields).
Proof.
  intros Hm Ht Hv Hf. apply ascii_text. unfold request_header. rewrite !all_chars_app.
  rewrite header_fields_ascii by done. rewrite line_ascii; [done|]. by apply request_line_is_line.
Qed.

Lemma request_words_of {E} (e1 e2 : E) m t v fields :
  word m -> word t -> word v -> Forall line fields ->
  request_line_words e1 e2 (request_header m t v fields) = Ok (m, t, v).
Proof.
  intros Hm Ht Hv Hf. unfold request_line_words, request_header.
  rewrite lines_cons by by apply request_line_is_line. cbn [head ok_or result_bind].
  unfold request_line. by rewrite request_words.
Qed.

(** Reading the request from a stream on which [body] follows it. *)
Lemma read_request {E} (io : string -> E) too_large m t v fields body e out :
  word m -> word t -> word v -> Forall line fields ->
  len (as_bytes (request_header m t v fields)) <= 16384 ->
  read_header_bytes io too_large (Z.to_nat 16384) [] (mkPipe (as_bytes (request_header m t v fields) ++ body) e out) =
  (mkPipe body e out, Ok (as_bytes (request_header m t v fields))).
Proof.
  intros Hm Ht Hv Hf Hl. destruct (request_complete m t v fields) as (l & b & Heq & Hn & He); [done..|].
  rewrite Heq in *. rewrite <- app_assoc. cbn [app]. apply header_read; [done|done|].
  rewrite len_app in Hl. change (len [b]) with 1 in Hl. unfold len in Hl. lia.
Qed.

(** ** Hosts and ports *)

(** Printable characters without brackets; a name has no colon and no slash either. *)
Definition host_char (b : Z) : bool := word_char b && negb (b =? 91) && negb (b =? 93).
Definition name_char (b : Z) : bool := host_char b && negb (b =? 58) && negb (b =? 47).
Definition host_text (s : string) : Prop := s <> "" /\ all_chars host_char s = true.
Definition name_text (s : string) : Prop := s <> "" /\ all_chars name_char s = true.

Lemma host_is_word s : host_text s -> word s.
Proof.
  intros [Hne Hs]. split; [done|]. eapply all_chars_weaken; [|done]. intros b Hb. unfold host_char in Hb.
  by destruct (word_char b).
Qed.

Lemma name_is_host s : name_text s -> host_text s.
Proof.
  intros [Hne Hs]. split; [done|]. eapply all_chars_weaken; [|done]. intros b Hb. unfold name_char in Hb.
  by destruct (host_char b).
Qed.

Lemma no_char p (c : ascii) s :
  p (byte_of_ascii c) = false -> all_chars p s = true -> has_char c s = false.
Proof.
  intros Hc. induction s as [|a s IH]; [done|]. cbn [all_chars has_char]. rewrite andb_true_iff.
  intros [Ha Hs]. rewrite IH by done. rewrite orb_false_r. apply Ascii.eqb_neq. intros ->. congruence.
Qed.

Lemma app_word s t : word s -> all_chars word_char t = true -> word (s +:+ t).
Proof. intros [Hne Hs] Ht. split; [by destruct s|]. by rewrite all_chars_app, Hs, Ht. Qed.

Lemma digits_acc_digits fuel n acc :
  0 <= n -> all_chars (in_range 48 57) acc = true ->
  all_chars (in_range 48 57) (digits_acc fuel 10 n acc) = true.
Proof.
  revert n acc. induction fuel as [|fuel IH]; intros n acc Hn Ha; [done|]. cbn [digits_acc].
  assert (all_chars (in_range 48 57) (String (digit_char (n mod 10)) acc) = true) as Hd.
  { cbn [all_chars]. rewrite Ha, andb_true_r. pose proof (Z.mod_pos_bound n 10 ltac:(lia)) as Hb.
    generalize dependent (n mod 10). intros d Hd.
    assert (d = 0 \/ d = 1 \/ d = 2 \/ d = 3 \/ d = 4 \/ d = 5 \/ d = 6 \/ d = 7 \/ d = 8 \/ d = 9) as Hc by lia.
    by destruct_or! Hc; subst d. }
  case_match; [done|]. apply IH; [apply Z.div_pos; lia|done].
Qed.

Lemma port_digits port : is_u16 port -> all_chars (in_range 48 57) (to_decimal port) = true.
Proof. intros Hp. apply digits_acc_digits; [unfold is_u16 in Hp; lia|done]. Qed.

Lemma port_word port : is_u16 port -> word (to_decimal port).
Proof.
  intros Hp. unfold is_u16 in Hp. split.
  2: { eapply all_chars_weaken; [|by apply port_digits]. unfold word_char, in_range. lia. }
  destruct (digits_acc_head 128 port "" ltac:(lia) ltac:(lia)) as (d & t & _ & E).
  unfold to_decimal. by rewrite E.
Qed.

Lemma trim_edges b l c k :
  word_char b = true -> word_char c = true -> b :: l = rev (c :: k) -> trim_bytes (b :: l) = b :: l.
Proof.
  intros Hb Hc Hl. unfold word_char, in_range in *. unfold trim_bytes.
  assert (trim_start (b :: l) = b :: l) as ->.
  { cbn [trim_start]. replace (is_ws1 b) with false by (unfold is_ws1, in_range; lia).
    destruct l as [|b1 [|b2 l]]; [done|..]; replace (is_ws2 b b1) with false by (unfold is_ws2; lia); [done|].
    by replace (is_ws3 b b1 b2) with false by (unfold is_ws3, in_range; lia). }
  rewrite Hl, rev_involutive. cbn [trim_end_rev].
  replace (is_ws1 c) with false by (unfold is_ws1, in_range; lia).
  destruct k as [|b1 [|b2 k]]; [done|..]; replace (is_ws2 b1 c) with false by (unfold is_ws2; lia); [done|].
  by replace (is_ws3 b2 b1 c) with false by (unfold is_ws3, in_range; lia).
Qed.

Lemma trim_word s : word s -> trim s = s.
Proof.
  intros [Hne Hs]. unfold trim. destruct s as [|a s]; [done|].
  destruct (last_char_spec (String a s) []) as (c & k & Hr & _); [by apply word_is_line|].
  rewrite app_nil_r in Hr.
  change (as_bytes (String a s)) with (byte_of_ascii a :: as_bytes s) in *.
  rewrite (trim_edges _ (as_bytes s) c k); [apply (string_of_as_bytes (String a s))|..].
  - cbn [all_chars] in Hs. by destruct (word_char (byte_of_ascii a)).
  - change (byte_of_ascii a :: as_bytes s) with (as_bytes (String a s)) in *.
    assert (In c (as_bytes (String a s))) as Hin by (apply in_rev; rewrite Hr; by left).
    clear Hr Hne. induction (String a s) as [|x t IH]; [done|]. cbn [all_chars as_bytes] in *.
    apply andb_true_iff in Hs as [Hx Ht]. destruct Hin as [<-|Hin]; [done|by apply IH].
  - by rewrite <- Hr, rev_involutive.
Qed.

Lemma trim_space_word s : word s -> trim (" " +:+ s) = s.
Proof. intros Hs. rewrite <- (trim_word s Hs) at 2. done. Qed.

Lemma split_once_first c s t : has_char c s = false -> split_once c (s +:+ String c t) = Some (s, t).
Proof.
  induction s as [|a s IH]; intros Hs.
  - change (EmptyString +:+ String c t) with (String c t). cbn [split_once]. by rewrite Ascii.eqb_refl.
  - cbn [has_char] in Hs. apply orb_false_iff in Hs as [Ha Hs]. rewrite string_cons_app.
    cbn [split_once]. by rewrite Ha, IH.
Qed.

Lemma contains_colon s : has_char ":"%char s = false -> contains s ":" = false.
Proof.
  induction s as [|a s IH]; [done|]. cbn [has_char]. rewrite orb_false_iff. intros [Ha Hs].
  cbn [contains String.prefix]. rewrite IH by done. rewrite orb_false_r.
  destruct (ascii_dec ":" a) as [<-|]; [done|done].
Qed.

(** Not the text of a host that begins with a bracket. *)
Lemma host_no_bracket s t : host_text s -> strip_prefix "[" (s +:+ t) = None.
Proof.
  intros [Hne Hs]. destruct s as [|a s]; [done|]. rewrite string_cons_app. cbn [strip_prefix].
  cbn [all_chars] in Hs. apply andb_true_iff in Hs as [Ha _].
  destruct (Ascii.eqb_spec "[" a) as [<-|]; [done|done].
Qed.

Lemma word_not_empty s : word s -> String.eqb (trim s) "" = false.
Proof. intros Hs. rewrite trim_word by done. apply String.eqb_neq, Hs. Qed.

(** The targets of CONNECT, with and without brackets. *)
Lemma parse_target_plain host port :
  host_text host -> is_u16 port -> parse_target (host +:+ ":" +:+ to_decimal port) = Ok (host, port).
Proof.
  intros Hh Hp. destruct (port_text port Hp) as (Hport & Hc & _). unfold parse_target.
  rewrite host_no_bracket by done. change (":" +:+ to_decimal port) with (String ":" (to_decimal port)).
  rewrite rsplit_once_last by done. cbn [ok_or result_bind].
  rewrite word_not_empty by by apply host_is_word. by rewrite Hport.
Qed.

Lemma parse_target_brackets host port :
  host_text host -> is_u16 port -> parse_target ("[" +:+ host +:+ "]:" +:+ to_decimal port) = Ok (host, port).
Proof.
  intros Hh Hp. destruct (port_text port Hp) as (Hport & _ & _). unfold parse_target.
  change (strip_prefix "[" ("[" +:+ host +:+ "]:" +:+ to_decimal port))
    with (Some (host +:+ String "]" (":" +:+ to_decimal port))).
  cbv beta iota.
  rewrite split_once_first by (eapply no_char; [|apply Hh]; done). cbn [ok_or result_bind].
  change (strip_prefix ":" (":" +:+ to_decimal port)) with (Some (to_decimal port)). cbn [ok_or result_bind].
  rewrite word_not_empty by by apply host_is_word. by rewrite Hport.
Qed.

Lemma parse_authority target :
  host_text (bare_host (target_host target)) -> is_u16 (target_port target) ->
  word (proxy_target_authority target) /\
  parse_target (proxy_target_authority target) = Ok (bare_host (target_host target), target_port target).
Proof.
  intros Hh Hp. unfold proxy_target_authority. destruct (port_word _ Hp) as [_ Hw].
  pose proof (host_is_word _ Hh) as [Hne Hhw].
  case_match.
  - split; [|by apply parse_target_brackets]. split; [done|]. by rewrite !all_chars_app, Hhw, Hw.
  - split; [|by apply parse_target_plain]. split; [by destruct (bare_host _)|].
    by rewrite !all_chars_app, Hhw, Hw.
Qed.

(** ** The client's request and the inbound *)

(** The fields of the request that the client side sends. *)
Definition connect_fields (base64_encode : list Z -> string) (authority credential : string) : list string :=
  ("Host: " +:+ authority) ::
  (if String.eqb (trim credential) "" then []
   else ["Proxy-Authorization: Basic " +:+ base64_encode (as_bytes (trim credential))]).

Lemma http_connect_request_shape base64_encode target credential :
  http_connect_request base64_encode target credential =
  request_header "CONNECT" (proxy_target_authority target) "HTTP/1.1"
    (connect_fields base64_encode (proxy_target_authority target) credential).
Proof.
  unfold http_connect_request, request_header, request_line, connect_fields.
  set (authority := proxy_target_authority target).
  destruct (String.eqb (trim credential) ""); cbn [header_fields];
    by rewrite !string_app_assoc.
Qed.

(** The CONNECT inbound understands the request that the HTTP outbound of this program
    sends, for a name, an IPv4 or an IPv6 address, with or without credentials: it finds
    the same host and port, and leaves what follows the request on the stream. What is
    assumed of Base64 is that its text has only printable characters. *)
Theorem connect_request_understood base64_encode target credential body e out :
  (forall l, all_chars word_char (base64_encode l) = true) ->
  host_text (bare_host (target_host target)) -> is_u16 (target_port target) ->
  len (as_bytes (http_connect_request base64_encode target credential)) <= 16384 ->
  parse_http_connect_request
    (mkPipe (as_bytes (http_connect_request base64_encode target credential) ++ body) e out) =
  (mkPipe body e out,
   Ok (mkHttpConnectRequest (bare_host (target_host target)) (target_port target) "HTTP/1.1")).
Proof.
  intros Hb64 Hh Hp. rewrite http_connect_request_shape. intros Hlen.
  destruct (parse_authority target Hh Hp) as [Hw Hparse].
  assert (word "CONNECT") as Hm by done. assert (word "HTTP/1.1") as Hv by done.
  set (fields := connect_fields base64_encode (proxy_target_authority target) credential) in *.
  assert (Forall line fields) as Hf.
  { constructor; [split; [done|]; by rewrite all_chars_app, (proj2 (word_is_line _ Hw))|].
    destruct (String.eqb (trim credential) ""); repeat constructor; [done|].
    rewrite all_chars_app. eapply all_chars_weaken; [apply word_line_char|apply Hb64]. }
  unfold parse_http_connect_request, HttpConnect.read_header.
  change MAX_CONNECT_HEADER_BYTES with 16384.
  erewrite bind_ok by by apply read_request.
  unfold parse_connect_header. rewrite from_utf8_text by by apply request_is_text. cbn [ok_or result_bind].
  rewrite request_words_of by done. cbn [result_bind].
  change (negb (eq_ignore_ascii_case "CONNECT" "CONNECT")) with false. cbv iota. by rewrite Hparse.
Qed.

Lemma connect_request_understood_witness :
  parse_http_connect_request
    (mkPipe (as_bytes (http_connect_request (fun _ => "dTpw") (mkOutboundTarget "[2001:db8::7]" 443) "u:p")
             ++ [22; 3; 1]) end_of_stream []) =
  (mkPipe [22; 3; 1] end_of_stream [], Ok (mkHttpConnectRequest "2001:db8::7" 443 "HTTP/1.1")).
Proof.
  apply (connect_request_understood (fun _ => "dTpw") (mkOutboundTarget "[2001:db8::7]" 443) "u:p");
    [done|by split|by vm_compute|by vm_compute].
Defined.

(** ** Proxied requests *)

Lemma parse_host_port_named host port :
  name_text host -> is_u16 port -> parse_host_port (host +:+ ":" +:+ to_decimal port) 80 = Ok (host, port).
Proof.
  intros Hn Hp. pose proof (name_is_host _ Hn) as Hh. destruct (port_text port Hp) as (Hport & Hc & _).
  pose proof (port_word port Hp) as [Hpne Hpw]. unfold parse_host_port.
  rewrite trim_word by (apply app_word; [by apply host_is_word|done]). cbv zeta.
  replace (String.eqb (host +:+ ":" +:+ to_decimal port) "") with false by (by destruct Hn, host).
  rewrite host_no_bracket by done. change (":" +:+ to_decimal port) with (String ":" (to_decimal port)).
  rewrite rsplit_once_last by done. rewrite contains_colon by (eapply no_char; [|apply Hn]; done).
  unfold parse_port. replace (String.eqb (to_decimal port) "") with false by (symmetry; by apply String.eqb_neq).
  rewrite Hport. cbn [ok_or result_bind]. by rewrite word_not_empty by by apply host_is_word.
Qed.

(** A path as it stands in a target: nothing, or text after a slash. *)
Definition path_text (path : string) : Prop :=
  path = "" \/ exists rest, path = "/" +:+ rest /\ all_chars word_char rest = true.

Lemma cut_at_slash s rest :
  has_char "/"%char s = false -> cut_at "/"%char (s +:+ "/" +:+ rest) = Some (s, "/" +:+ rest).
Proof.
  induction s as [|a s IH]; intros Hs; [done|]. cbn [has_char] in Hs.
  apply orb_false_iff in Hs as [Ha Hs]. rewrite string_cons_app. cbn [cut_at]. by rewrite Ha, IH.
Qed.

Lemma cut_at_none s : has_char "/"%char s = false -> cut_at "/"%char s = None.
Proof.
  induction s as [|a s IH]; intros Hs; [done|]. cbn [has_char] in Hs.
  apply orb_false_iff in Hs as [Ha Hs]. cbn [cut_at]. by rewrite Ha, IH.
Qed.

Lemma has_char_app c s t : has_char c (s +:+ t) = has_char c s || has_char c t.
Proof.
  induction s as [|a s IH]; [done|]. rewrite string_cons_app. cbn [has_char]. by rewrite IH, orb_assoc.
Qed.

(** The authorities that name a host and a port: a name or a bracketed address, with a port
    or without one, which means port 80. *)
Inductive authority_of : string -> Z -> string -> Prop :=
| named_port host port : name_text host -> is_u16 port -> authority_of host port (host +:+ ":" +:+ to_decimal port)
| named_default host : name_text host -> authority_of host 80 host
| bracketed_port host port :
    host_text host -> has_char "/"%char host = false -> is_u16 port ->
    authority_of host port ("[" +:+ host +:+ "]:" +:+ to_decimal port)
| bracketed_default host :
    host_text host -> has_char "/"%char host = false -> authority_of host 80 ("[" +:+ host +:+ "]").

Lemma port_no_slash port : is_u16 port -> has_char "/"%char (to_decimal port) = false.
Proof. intros Hp. by apply (no_char (in_range 48 57)), port_digits. Qed.

Lemma authority_word host port authority :
  authority_of host port authority -> word authority /\ has_char "/"%char authority = false.
Proof.
  intros [h p Hn Hp|h Hn|h p Hh Hs Hp|h Hh Hs].
  - split; [apply app_word; [by apply host_is_word, name_is_host|by destruct (port_word p Hp)]|].
    rewrite !has_char_app, port_no_slash by done. by rewrite (no_char name_char "/"%char h) by (done || apply Hn).
  - split; [by apply host_is_word, name_is_host|]. by apply (no_char name_char), Hn.
  - destruct (port_word p Hp), (host_is_word h Hh). split; [|by rewrite !has_char_app, port_no_slash, Hs by done].
    split; [done|]. rewrite !all_chars_app. by replace (all_chars word_char h) with true.
  - destruct (host_is_word h Hh). split; [|by rewrite !has_char_app, Hs].
    split; [done|]. rewrite !all_chars_app. by replace (all_chars word_char h) with true.
Qed.

Lemma authority_parsed host port authority :
  authority_of host port authority -> parse_host_port authority 80 = Ok (host, port).
Proof.
  intros Ha. pose proof (authority_word _ _ _ Ha) as [Hw _].
  destruct Ha as [h p Hn Hp|h Hn|h p Hh Hs Hp|h Hh Hs]; [by apply parse_host_port_named|..]; unfold parse_host_port;
    rewrite trim_word by done; cbv zeta.
  - replace (String.eqb h "") with false by (by destruct Hn, h). rewrite <- (string_app_nil_r h) at 1.
    rewrite host_no_bracket by by apply name_is_host. rewrite rsplit_once_none by (by apply (no_char name_char), Hn).
    cbn [result_bind]. by rewrite word_not_empty.
  - change (String.eqb ("[" +:+ _) "") with false. cbv iota.
    change (strip_prefix "[" ("[" +:+ h +:+ "]:" +:+ to_decimal p)) with (Some (h +:+ String "]" (":" +:+ to_decimal p))).
    cbv iota. rewrite split_once_first by (by apply (no_char host_char), Hh). cbn [ok_or result_bind].
    change (default "" (strip_prefix ":" (":" +:+ to_decimal p))) with (to_decimal p).
    destruct (port_text p Hp) as (Hport & _). destruct (port_word p Hp) as [Hpne _]. unfold parse_port.
    replace (String.eqb (to_decimal p) "") with false by (symmetry; by apply String.eqb_neq).
    rewrite Hport. cbn [ok_or result_bind]. by rewrite word_not_empty by by apply host_is_word.
  - change (String.eqb ("[" +:+ _) "") with false. cbv iota.
    change (strip_prefix "[" ("[" +:+ h +:+ "]")) with (Some (h +:+ String "]" "")).
    cbv iota. rewrite split_once_first by (by apply (no_char host_char), Hh). cbn [ok_or result_bind].
    change (default "" (strip_prefix ":" "")) with "". unfold parse_port. cbn [String.eqb result_bind].
    by rewrite word_not_empty by by apply host_is_word.
Qed.

Lemma absolute_target_parsed host port authority path :
  authority_of host port authority -> path_text path ->
  parse_absolute_http_target (authority +:+ path) = Ok (host, port, normalize_origin_path path).
Proof.
  intros Ha Hpath. unfold parse_absolute_http_target.
  pose proof (authority_word _ _ _ Ha) as [_ Hslash]. pose proof (authority_parsed _ _ _ Ha) as Hparse.
  destruct Hpath as [->|(rest & -> & _)].
  - rewrite string_app_nil_r, cut_at_none by done. cbn [default from_option]. cbv iota. by rewrite Hparse.
  - rewrite cut_at_slash by done. cbn [default from_option id]. by rewrite Hparse.
Qed.

(** The value of a Host field. *)
Lemma host_value_field name value :
  has_char ":"%char name = false -> eq_ignore_ascii_case name "host" = true -> word value ->
  host_value (name +:+ ": " +:+ value) = Some value.
Proof.
  intros Hc Hn Hw. unfold host_value. change (": " +:+ value) with (String ":" (" " +:+ value)).
  by rewrite split_once_first, Hn, trim_space_word.
Qed.

Lemma find_map_skip {A B} (f : A -> option B) before a b after :
  Forall (fun x => f x = None) before -> f a = Some b -> find_map f (before ++ a :: after) = Some b.
Proof.
  intros Hb Ha. induction Hb as [|x before Hx _ IH]; cbn [app find_map]; [by rewrite Ha|]. by rewrite Hx.
Qed.

Section Forwarded.
Context (method version : string) (fields : list string) (body : list Z) (e : IoError) (out : list Z).
Hypothesis Hm : word method.
Hypothesis Hv : word version.
Hypothesis Hf : Forall line fields.

(** What the request becomes once its target is known. *)
Lemma parse_request target :
  word target -> len (as_bytes (request_header method target version fields)) <= 16384 ->
  parse_http_proxy_request (mkPipe (as_bytes (request_header method target version fields) ++ body) e out) =
  (mkPipe body e out,
   '(host, port, path) <-? proxy_target (request_header method target version fields) target;
   Ok (mkHttpProxyRequest method host port path version (as_bytes (request_header method path version fields)))).
Proof using Hm Hv Hf.
  intros Ht Hlen. unfold parse_http_proxy_request, HttpProxy.read_header.
  change MAX_HTTP_PROXY_HEADER_BYTES with 16384.
  erewrite bind_ok by by apply read_request. unfold sm_lift, parse_proxy_header. f_equal.
  rewrite from_utf8_text by by apply request_is_text. cbn [ok_or result_bind].
  rewrite request_words_of by done. cbn [result_bind].
  destruct (proxy_target _ _) as [[[host port] path]| |]; [|done|done]. cbn [result_bind].
  unfold rewrite_header, request_header at 1.
  rewrite split_crlf_cons by by apply request_line_is_line.
  cbn [drop]. rewrite drop_0, copy_fields by done. unfold request_header, request_line.
  by rewrite !string_app_assoc.
Qed.

Lemma find_request_host target :
  word target -> find_host_header (request_header method target version fields) =
  find_map host_value (fields ++ [""]).
Proof using Hm Hv Hf.
  intros Ht. unfold find_host_header, request_header.
  rewrite lines_cons by by apply request_line_is_line. cbn [drop].
  by rewrite drop_0, lines_header_fields.
Qed.
End Forwarded.

(** The first Host field of the request has the value [authority]. *)
Definition first_host (fields : list string) (authority : string) : Prop :=
  exists before name after,
    fields = before ++ (name +:+ ": " +:+ authority) :: after /\
    Forall (fun field => host_value field = None) before /\
    has_char ":"%char name = false /\ eq_ignore_ascii_case name "host" = true.

(** A target in absolute form, or one in origin form with a Host field. *)
Definition names_authority (fields : list string) (target authority path : string) : Prop :=
  target = "http://" +:+ authority +:+ path \/
  (target = path /\ path <> "" /\ split_once_text "://" path = None /\ first_host fields authority).

(** C32: a request in absolute form (scheme http) goes to the host and port its target names,
    whatever Host field it has or lacks, and one in origin form (a path without "://") to those of
    its first Host field. Both are a name or an address in brackets, with a port or, for port
    80, without one. The header sent on has the same method, version and fields, with the path in
    place of the target; and the body stays on the stream. The header is of words and
    printable lines, and within 16 KiB. *)
Theorem proxied_request_forwarded method version fields target host port authority path body e out :
  word method -> word version -> Forall line fields ->
  authority_of host port authority -> path_text path -> names_authority fields target authority path ->
  len (as_bytes (request_header method target version fields)) <= 16384 ->
  parse_http_proxy_request (mkPipe (as_bytes (request_header method target version fields) ++ body) e out) =
  (mkPipe body e out,
   Ok (mkHttpProxyRequest method host port (normalize_origin_path path) version
         (as_bytes (request_header method (normalize_origin_path path) version fields)))).
Proof.
  intros Hm Hv Hf Ha Hpath Htarget Hlen. pose proof (authority_word _ _ _ Ha) as [Haw _].
  assert (all_chars word_char path = true) as Hpw by (by destruct Hpath as [->|(rest & -> & Hr)]).
  assert (word target) as Hword.
  { destruct Htarget as [->|(-> & Hne & _)]; [|done]. split; [done|]. by rewrite !all_chars_app, (proj2 Haw), Hpw. }
  rewrite parse_request by done. unfold proxy_target.
  destruct Htarget as [->|(-> & Hne & Hscheme & Hhost)].
  - change (strip_prefix "http://" ("http://" +:+ authority +:+ path)) with (Some (authority +:+ path)).
    cbv iota. by rewrite (absolute_target_parsed host port).
  - destruct Hpath as [->|(rest & Hrest & _)]; [done|].
    assert (strip_prefix "http://" path = None) as -> by by rewrite Hrest.
    rewrite Hscheme, find_request_host by done. destruct Hhost as (before & name & after & -> & Hnone & Hc & Hname).
    rewrite <- app_assoc. cbn [app].
    rewrite (find_map_skip _ before _ authority); [|done|by apply host_value_field].
    cbn [ok_or result_bind]. by rewrite (authority_parsed host port).
Qed.

(** The target and the Host field name different hosts. *)
Lemma proxied_request_forwarded_witness :
  parse_http_proxy_request (mkPipe (as_bytes (request_header "POST" "http://example.com:8080/a?b=1" "HTTP/1.1"
      ["Accept: */*"; "Host: other.example"; "Content-Length: 2"]) ++ [104; 105]) end_of_stream []) =
  (mkPipe [104; 105] end_of_stream [],
   Ok (mkHttpProxyRequest "POST" "example.com" 8080 "/a?b=1" "HTTP/1.1"
     (as_bytes (request_header "POST" "/a?b=1" "HTTP/1.1"
        ["Accept: */*"; "Host: other.example"; "Content-Length: 2"])))) /\
  parse_http_proxy_request (mkPipe (as_bytes (request_header "GET" "/a" "HTTP/1.1"
      ["Accept: */*"; "Host: [::1]"]) ++ []) end_of_stream []) =
  (mkPipe [] end_of_stream [],
   Ok (mkHttpProxyRequest "GET" "::1" 80 "/a" "HTTP/1.1"
     (as_bytes (request_header "GET" "/a" "HTTP/1.1" ["Accept: */*"; "Host: [::1]"])))).
Proof.
  split.
  - apply (proxied_request_forwarded "POST" "HTTP/1.1" ["Accept: */*"; "Host: other.example"; "Content-Length: 2"]
             "http://example.com:8080/a?b=1" "example.com" 8080 "example.com:8080" "/a?b=1" [104; 105] end_of_stream []).
    all: try done.
    + by repeat constructor.
    + by apply (named_port "example.com" 8080).
    + right. by exists "a?b=1".
    + by left.
  - apply (proxied_request_forwarded "GET" "HTTP/1.1" ["Accept: */*"; "Host: [::1]"] "/a" "::1" 80 "[::1]" "/a" []
             end_of_stream []).
    all: try done.
    + by repeat constructor.
    + by apply (bracketed_default "::1").
    + right. by exists "a".
    + right. split; [done|]. split; [done|]. split; [done|]. exists ["Accept: */*"], "Host", [].
      split; [done|]. split; [by repeat constructor|done].
Defined.

(** ** A defect *)

Lemma prefix_strips p s : String.prefix p s = true -> is_Some (strip_prefix p s).
Proof.
  revert s. induction p as [|a p IH]; intros s; [by eauto|]. destruct s as [|b s]; [done|].
  cbn [String.prefix strip_prefix]. destruct (ascii_dec a b) as [<-|]; [|done].
  rewrite Ascii.eqb_refl. apply IH.
Qed.

Lemma contains_splits p s : contains s p = true -> is_Some (split_once_text p s).
Proof.
  induction s as [|a s IH]; cbn [contains split_once_text]; rewrite orb_true_iff.
  - intros [Hp|]; [|done]. destruct (prefix_strips p "" Hp) as [after ->]. by eauto.
  - intros Hs. destruct (strip_prefix p (String a s)) as [after|] eqn:Hp; [by eauto|].
    destruct Hs as [Hs|Hs]; [destruct (prefix_strips _ _ Hs); congruence|].
    destruct (IH Hs) as [[before after] ->]. by eauto.
Qed.

(** A request in origin form whose path or query holds a URL is refused for its scheme,
    although it has none: the test looks for a separator anywhere in the target, so that
    what stands before the URL in the query counts as the scheme. The same path in
    absolute form is forwarded. *)
Theorem url_in_query_refused method version fields rest body e out :
  word method -> word version -> Forall line fields -> all_chars word_char rest = true ->
  contains ("/" +:+ rest) "://" = true ->
  len (as_bytes (request_header method ("/" +:+ rest) version fields)) <= 16384 ->
  exists before,
    parse_http_proxy_request
      (mkPipe (as_bytes (request_header method ("/" +:+ rest) version fields) ++ body) e out) =
    (mkPipe body e out, Err (UnsupportedScheme before)) /\
    forall host port, name_text host -> is_u16 port ->
      proxy_target "" ("http://" +:+ (host +:+ ":" +:+ to_decimal port) +:+ ("/" +:+ rest)) =
      Ok (host, port, "/" +:+ rest).
Proof.
  intros Hm Hv Hf Hr Hc Hlen. destruct (contains_splits _ _ Hc) as [[before after] Hs].
  exists before. split.
  - rewrite parse_request by done. unfold proxy_target.
    assert (strip_prefix "http://" ("/" +:+ rest) = None) as -> by done. cbv iota. rewrite Hs. done.
  - intros host port Hh Hp. unfold proxy_target.
    change (strip_prefix "http://" ("http://" +:+ (host +:+ ":" +:+ to_decimal port) +:+ ("/" +:+ rest)))
      with (Some ((host +:+ ":" +:+ to_decimal port) +:+ ("/" +:+ rest))).
    cbv iota. rewrite (absolute_target_parsed host port); [by destruct rest|by apply named_port|]. right. by exists rest.
Qed.

Lemma url_in_query_refused_witness :
  contains "/go?to=https://b.example" "://" = true /\
  exists before,
    parse_http_proxy_request (mkPipe (as_bytes (request_header "GET" "/go?to=https://b.example" "HTTP/1.1"
      ["Host: a.example"])) end_of_stream []) = (mkPipe [] end_of_stream [], Err (UnsupportedScheme before)).
Proof.
  split; [done|].
  destruct (url_in_query_refused "GET" "HTTP/1.1" ["Host: a.example"] "go?to=https://b.example" []
    end_of_stream []) as (before & H & _); [done|done|by repeat constructor|done|done|done|].
  exists before. rewrite app_nil_r in H. exact H.
Defined.
