(* ===== verification/Subscription.v ===== *)
(** * Subscriptions

    [serde_json::Value], which the subscription parser and the panel client inspect, and
    what they use of the [url] crate, come first. The type of numbers and the type of URLs are
    the libraries'; the questions the code asks of them are classes.

    [crates/keli-protocol/src/lib.rs], lines 310 to 1389: the two formats a subscription
    comes in, a Mihomo YAML configuration and a list of share links (plain or in Base64),
    and how each entry becomes an [OutboundProfile] or is skipped with a reason.

    The YAML, JSON, Base64 and URL libraries are the class [ShareLibrary]; the texts of
    their errors are what the code passes on. *)

From Stdlib Require Import Ascii.
From stdpp Require Import base strings list numbers gmap.
From S2P Require Import Prelude.
From S2P Require Import StdNet.
From S2P Require Import StdIo.
From S2P Require Import StdText.
From S2P Require Import Profile.
From S2P Require Import HttpProxy.
#[local] Open Scope Z_scope.

(** * JSON values and URLs *)

(** [serde_json::Number]. *)
Class JsonNumber := {
  Number : Type;
  as_u64 : Number -> option Z;
  as_i64 : Number -> option Z
}.

Section Values.
Context {JN : JsonNumber}.

Inductive Value : Type :=
| Null
| Bool (value : bool)
| Num (number : Number)
| Str (text : string)
| Array (values : list Value)
| Object (fields : list (string * Value)).

(** [map.get(key)]: a [serde_json::Map] has one value per key. *)
Fixpoint field_of (fields : list (string * Value)) (key : string) : option Value :=
  match fields with
  | [] => None
  | (name, value) :: fields' => if String.eqb name key then Some value else field_of fields' key
  end.

(** [value.get(key)]. *)
Definition get (value : Value) (key : string) : option Value :=
  match value with Object fields => field_of fields key | _ => None end.

(** [value.as_str()]. *)
Definition as_str (value : Value) : option string :=
  match value with Str text => Some text | _ => None end.

(** [value.as_bool()]. *)
Definition as_bool (value : Value) : option bool :=
  match value with Bool b => Some b | _ => None end.

(** [value.as_u64()], [value.as_i64()]. *)
Definition value_as_u64 (value : Value) : option Z :=
  match value with Num number => as_u64 number | _ => None end.

Definition value_as_i64 (value : Value) : option Z :=
  match value with Num number => as_i64 number | _ => None end.

(** [value.as_array()]. *)
Definition as_array (value : Value) : option (list Value) :=
  match value with Array values => Some values | _ => None end.

End Values.

Arguments Value : clear implicits.
Arguments Value {JN}.

(** [url::Url]. A call that can fail gives the text of its error or its value; the user
    name, the password and the fragment are as they are written in the link. *)
Class UrlLibrary := {
  Url : Type;
  url_parse : string -> string + Url;
  url_scheme : Url -> string;
  url_username : Url -> string;
  url_password : Url -> option string;
  url_host_str : Url -> option string;
  url_port : Url -> option Z;
  url_port_or_known_default : Url -> option Z;
  url_path : Url -> string;
  url_query : Url -> option string;
  url_fragment : Url -> option string;
  url_query_pairs : Url -> list (string * string);
  url_set_path : string -> Url -> Url;
  url_clear_query : Url -> Url;
  url_append_pair : string -> string -> Url -> Url;
  url_to_string : Url -> string
}.

(** * The formats of a subscription *)

(** ** Helpers of the language *)

(** [matches!(text, "a" | "b" | ...)]. *)
Definition one_of (text : string) (choices : list string) : bool :=
  existsb (String.eqb text) choices.

(** [option.or_else(|| other)]. *)
Definition or_else {A} (o other : option A) : option A :=
  match o with Some a => Some a | None => other end.

(** [condition.then(|| option).flatten()]. *)
Definition then_flatten {A} (condition : bool) (o : option A) : option A :=
  if condition then o else None.

(** The result of a library call: the text of its error, or its value. *)
Definition of_library {E A} (error : string -> E) (r : string + A) : result E A :=
  match r with inl text => Err (error text) | inr a => Ok a end.

(** [text.split(c).next().unwrap_or(text)]. *)
Definition before_first (c : Ascii.ascii) (text : string) : string :=
  default text (head (split_on c text)).

(** [text.chars().filter(|ch| !ch.is_whitespace()).collect()]. *)
Definition without_whitespace (text : string) : string :=
  string_of_bytes (concat (split_ws_bytes (as_bytes text) [])).

(** ** [FromUtf8Error] *)

Definition utf8_second_ok (b0 b1 : Z) : bool :=
  if in_range 194 223 b0 then is_continuation b1
  else if b0 =? 224 then in_range 160 191 b1
  else if b0 =? 237 then in_range 128 159 b1
  else if b0 =? 240 then in_range 144 191 b1
  else if b0 =? 244 then in_range 128 143 b1
  else is_continuation b1.

(** [valid_up_to] and [error_len] of the first ill-formed sequence, from offset [i]. *)
Fixpoint utf8_error (i : Z) (l : list Z) : option (Z * option Z) :=
  match l with
  | [] => None
  | b0 :: l1 =>
      if in_range 0 127 b0 then utf8_error (i + 1) l1
      else if negb (in_range 194 244 b0) then Some (i, Some 1)
      else
        match l1 with
        | [] => Some (i, None)
        | b1 :: l2 =>
            if negb (utf8_second_ok b0 b1) then Some (i, Some 1)
            else if b0 <? 224 then utf8_error (i + 2) l2
            else
              match l2 with
              | [] => Some (i, None)
              | b2 :: l3 =>
                  if negb (is_continuation b2) then Some (i, Some 2)
                  else if b0 <? 240 then utf8_error (i + 3) l3
                  else
                    match l3 with
                    | [] => Some (i, None)
                    | b3 :: l4 =>
                        if negb (is_continuation b3) then Some (i, Some 3)
                        else utf8_error (i + 4) l4
                    end
              end
        end
  end.

(** [Display] of the error. *)
Definition utf8_error_text (error : Z * option Z) : string :=
  match error with
  | (i, Some n) =>
      "invalid utf-8 sequence of " +:+ to_decimal n +:+ " bytes from index " +:+ to_decimal i
  | (i, None) => "incomplete utf-8 byte sequence from index " +:+ to_decimal i
  end.

(** [String::from_utf8(bytes)], the error as its text. *)
Definition string_from_utf8 (bytes : list Z) : string + string :=
  match utf8_error 0 bytes with
  | Some error => inl (utf8_error_text error)
  | None => inr (string_of_bytes bytes)
  end.

(** ** Validation errors as text *)

(** [{protocol:?}]. *)
Definition debug_protocol (protocol : ProxyProtocol) : string :=
  match protocol with
  | Trojan => "Trojan" | Vmess => "Vmess" | Vless => "Vless" | Naive => "Naive"
  | Mieru => "Mieru" | Hy2 => "Hy2" | Shadowsocks => "Shadowsocks" | AnyTls => "AnyTls"
  | Tuic => "Tuic" | Socks => "Socks" | Http => "Http"
  end.

(** [impl fmt::Display for ProtocolValidationError]. *)
Definition validation_error_text (error : ProtocolValidationError) : string :=
  match error with
  | MissingTag => "outbound tag is empty"
  | MissingServer => "server host is empty"
  | MissingCredential protocol => debug_protocol protocol +:+ " credential is empty"
  | MissingTls => "TLS is required for this profile"
  | Validation_InvalidUuid => "proxy credential must be a UUID"
  | InvalidVmessTransport => "VMess supports TCP/WS/HTTPUpgrade/gRPC/H2/QUIC with optional TLS"
  | InvalidNaiveCredential => "Naive credential must be formatted as username:password"
  | InvalidNaiveTransport => "Naive requires TCP or QUIC transport with TLS"
  | InvalidMieruCredential => "Mieru credential must be formatted as username:password"
  | InvalidMieruTransport => "Mieru currently supports TCP transport without TLS"
  | InvalidWebSocketPath => "WebSocket path must start with '/'"
  | InvalidHttpUpgradePath => "HTTPUpgrade path must start with '/'"
  | InvalidHttp2Path => "HTTP/2 path must start with '/'"
  | InvalidHy2Transport => "HY2 requires QUIC transport with TLS"
  | InvalidTuicCredential => "TUIC credential must be formatted as uuid:password"
  | InvalidTuicTransport => "TUIC requires QUIC transport with TLS"
  | MissingShadowsocksCipher => "Shadowsocks cipher is required"
  | InvalidShadowsocksCipher => "Shadowsocks cipher is unsupported"
  | InvalidShadowsocksTransport =>
      "Shadowsocks requires TCP transport without TLS; UDP relay is supported with AEAD ciphers"
  | InvalidAnyTlsTransport => "AnyTLS requires TCP transport with TLS"
  | InvalidSocksTransport => "SOCKS outbound requires TCP transport without TLS"
  | InvalidHttpTransport => "HTTP outbound requires TCP transport without TLS"
  end.

(** ** Results of a parse *)

Record SkippedOutboundProfile : Type := mkSkipped { skipped_name : string; skipped_reason : string }.

Record ParsedOutboundProfiles : Type := mkParsed {
  parsed_profiles : list OutboundProfile;
  parsed_skipped : list SkippedOutboundProfile
}.

Inductive SubscriptionParseError : Type :=
| InvalidYaml (error : string)
| InvalidShare (error : string).

Inductive SubscriptionInputFormat : Type := MihomoYaml | ShareLinks.

Definition format_as_str (self : SubscriptionInputFormat) : string :=
  match self with MihomoYaml => "mihomo_yaml" | ShareLinks => "share_links" end.

(** [impl fmt::Display for SubscriptionParseError]. *)
Definition subscription_error_text (self : SubscriptionParseError) : string :=
  match self with
  | InvalidYaml error => "invalid Mihomo YAML: " +:+ error
  | InvalidShare error => "invalid share links: " +:+ error
  end.

Definition skip {A} (name reason : string) : result SkippedOutboundProfile A :=
  Err (mkSkipped name reason).

(** [option.ok_or_else(|| skip(name, reason))?]. *)
Definition or_skip {A} (name reason : string) (o : option A) : result SkippedOutboundProfile A :=
  ok_or (mkSkipped name reason) o.

(** The tail of the four conversions: [validate], with the error as a reason. *)
Definition validated (name : string) (profile : OutboundProfile)
  : result SkippedOutboundProfile OutboundProfile :=
  match validate profile with
  | Ok _ => Ok profile
  | Err error => skip name ("invalid profile: " +:+ validation_error_text error)
  | Panic => Panic
  end.

(** The loop over the entries: converted profiles and reasons, each in order. *)
Fixpoint convert_entries {A} (convert : A -> nat -> result SkippedOutboundProfile OutboundProfile)
  (index : nat) (entries : list A) : result SubscriptionParseError ParsedOutboundProfiles :=
  match entries with
  | [] => Ok (mkParsed [] [])
  | entry :: entries' =>
      match convert entry index with
      | Ok profile =>
          parsed <-? convert_entries convert (S index) entries';
          Ok (mkParsed (profile :: parsed_profiles parsed) (parsed_skipped parsed))
      | Err skipped =>
          parsed <-? convert_entries convert (S index) entries';
          Ok (mkParsed (parsed_profiles parsed) (skipped :: parsed_skipped parsed))
      | Panic => Panic
      end
  end.

(** [format!("{prefix}-{}", index + 1)]. *)
Definition numbered (prefix : string) (index : nat) : string :=
  prefix +:+ "-" +:+ to_decimal (Z.of_nat index + 1).

(** ** Fields of an entry *)

Definition non_empty (value : option string) : option string :=
  match value with
  | Some value => if String.eqb (trim value) "" then None else Some (trim value)
  | None => None
  end.

Definition proxy_credential (username password : option string) : string :=
  match non_empty username, non_empty password with
  | Some username, Some password => username +:+ ":" +:+ password
  | Some username, None => username
  | None, Some password => ":" +:+ password
  | None, None => ""
  end.

Definition default_quic_transport : TransportKind := Transport_Quic None None None.

Definition first_port_in_range (value : string) : option Z :=
  match List.find (fun part => negb (String.eqb part "")) (map trim (split_on "," value)) with
  | None => None
  | Some first =>
      let first := match split_once "-" first with Some (start, _) => start | None => first end in
      parse_u16 (trim first)
  end.

Definition profile_port (port : option Z) (port_range : option string) : option Z :=
  or_else port (port_range ≫= first_port_in_range).

(** The protocols whose profiles use TLS when the entry does not say. *)
Definition tls_by_default (protocol : ProxyProtocol) : bool :=
  match protocol with Trojan | Hy2 | AnyTls | Tuic | Naive => true | _ => false end.

(** ** Mihomo entries *)

(** A [HashMap<String, String>] in the order of its iteration. *)
Definition Headers : Type := list (string * string).

Record MihomoWsOptions : Type := mkWsOptions { ws_path : option string; ws_headers : option Headers }.

Record MihomoHttpUpgradeOptions : Type := mkHttpUpgradeOptions {
  hu_path : option string;
  hu_host : option string
}.

Inductive StringList : Type := One (value : string) | Many (values : list string).

Definition string_list_first_non_empty (self : StringList) : option string :=
  match self with
  | One value => non_empty (Some value)
  | Many values => find_map (fun value => non_empty (Some value)) values
  end.

Record MihomoH2Options : Type := mkH2Options { h2_path : option string; h2_host : option StringList }.

Record MihomoQuicOptions : Type := mkQuicOptions {
  quic_opt_security : option string;
  quic_opt_key : option string;
  quic_opt_header : option string
}.

Record MihomoGrpcOptions : Type := mkGrpcOptions { grpc_service_name : option string }.

Record MihomoProxy : Type := mkMihomoProxy {
  mp_name : option string;
  mp_protocol : option string;
  mp_server : option string;
  mp_port : option Z;
  mp_port_range : option string;
  mp_password : option string;
  mp_token : option string;
  mp_username : option string;
  mp_cipher : option string;
  mp_uuid : option string;
  mp_flow : option string;
  mp_tls : option bool;
  mp_sni : option string;
  mp_servername : option string;
  mp_skip_cert_verify : option bool;
  mp_network : option string;
  mp_transport : option string;
  mp_ws_opts : option MihomoWsOptions;
  mp_httpupgrade_opts : option MihomoHttpUpgradeOptions;
  mp_h2_opts : option MihomoH2Options;
  mp_quic_opts : option MihomoQuicOptions;
  mp_grpc_opts : option MihomoGrpcOptions
}.

Definition header_value_case_insensitive (headers : Headers) (name : string) : option string :=
  find_map
    (fun '(key, value) =>
       if eq_ignore_ascii_case key name then
         if String.eqb (trim value) "" then None else Some (trim value)
       else None)
    headers.

Definition mihomo_quic_transport (opts : option MihomoQuicOptions) : TransportKind :=
  match opts with
  | Some opts =>
      Transport_Quic (non_empty (quic_opt_security opts)) (non_empty (quic_opt_key opts))
        (non_empty (quic_opt_header opts))
  | None => Transport_Quic None None None
  end.

(** The three [match]es on a network name are the same for both formats: QUIC protocols,
    Mieru, and the rest. *)
Definition quic_network (name other : string) : result SkippedOutboundProfile TransportKind :=
  if one_of other [""; "quic"; "hy2"; "hysteria2"; "tuic"] then Ok default_quic_transport
  else skip name ("unsupported QUIC transport: " +:+ other).

Definition mieru_network (name other : string) : result SkippedOutboundProfile TransportKind :=
  if one_of other [""; "tcp"] then Ok Transport_Tcp
  else skip name ("unsupported Mieru transport: " +:+ other).

Definition is_quic_protocol (protocol : ProxyProtocol) : bool :=
  match protocol with Hy2 | Tuic => true | _ => false end.

Definition is_mieru (protocol : ProxyProtocol) : bool :=
  match protocol with Mieru => true | _ => false end.

Definition mihomo_transport (name server : string) (protocol : ProxyProtocol)
  (network : option string) (ws_opts : option MihomoWsOptions)
  (httpupgrade_opts : option MihomoHttpUpgradeOptions) (h2_opts : option MihomoH2Options)
  (quic_opts : option MihomoQuicOptions) (grpc_opts : option MihomoGrpcOptions)
  : result SkippedOutboundProfile TransportKind :=
  if is_quic_protocol protocol then
    quic_network name (default "" (to_ascii_lowercase <$> network))
  else if is_mieru protocol then
    mieru_network name (default "tcp" (to_ascii_lowercase <$> network))
  else
    let other := to_ascii_lowercase (default "tcp" network) in
    if one_of other [""; "tcp"] then Ok Transport_Tcp
    else if one_of other ["ws"; "websocket"] then
      let path := default "/" (ws_opts ≫= fun opts => non_empty (ws_path opts)) in
      let host :=
        or_else
          ((ws_opts ≫= ws_headers) ≫= fun headers => header_value_case_insensitive headers "host")
          (Some server) in
      Ok (Transport_WebSocket path host)
    else if one_of other ["httpupgrade"; "http-upgrade"] then
      let path := default "/" (httpupgrade_opts ≫= fun opts => non_empty (hu_path opts)) in
      let host :=
        or_else (httpupgrade_opts ≫= fun opts => non_empty (hu_host opts)) (Some server) in
      Ok (Transport_HttpUpgrade path host)
    else if one_of other ["h2"; "http"; "http2"] then
      let path := default "/" (h2_opts ≫= fun opts => non_empty (h2_path opts)) in
      let host := or_else ((h2_opts ≫= h2_host) ≫= string_list_first_non_empty) (Some server) in
      Ok (Transport_Http2 path host)
    else if one_of other ["quic"] then Ok (mihomo_quic_transport quic_opts)
    else if one_of other ["grpc"] then
      Ok (Transport_Grpc (grpc_opts ≫= fun opts => non_empty (grpc_service_name opts)))
    else skip name ("unsupported transport: " +:+ other).

Definition mihomo_security (protocol : ProxyProtocol) (server : string) (tls : option bool)
  (sni servername : option string) (skip_cert_verify : option bool) : SecurityKind :=
  let sni := or_else (or_else (non_empty sni) (non_empty servername)) (Some server) in
  let tls_enabled := default (tls_by_default protocol) tls in
  if tls_enabled then Security_Tls sni (default false skip_cert_verify) else Security_None.

(** The [match] on the protocol's name. *)
Definition mihomo_protocol (protocol_name : string) : option ProxyProtocol :=
  if one_of protocol_name ["trojan"] then Some Trojan
  else if one_of protocol_name ["vmess"] then Some Vmess
  else if one_of protocol_name ["vless"] then Some Vless
  else if one_of protocol_name ["naive"] then Some Naive
  else if one_of protocol_name ["mieru"] then Some Mieru
  else if one_of protocol_name ["hy2"; "hysteria2"] then Some Hy2
  else if one_of protocol_name ["ss"; "shadowsocks"] then Some Shadowsocks
  else if one_of protocol_name ["anytls"; "any-tls"] then Some AnyTls
  else if one_of protocol_name ["tuic"] then Some Tuic
  else if one_of protocol_name ["socks"; "socks5"] then Some Socks
  else if one_of protocol_name ["http"] then Some Http
  else None.

(** [format!("{username}:{password}")] of two fields that must be there. *)
Definition pair_credential (name kind : string) (username password : option string)
  (user_field : string) : result SkippedOutboundProfile string :=
  username <-? or_skip name ("missing " +:+ kind +:+ " " +:+ user_field) (non_empty username);
  password <-? or_skip name ("missing " +:+ kind +:+ " password") (non_empty password);
  Ok (username +:+ ":" +:+ password).

Definition mihomo_credential (name : string) (protocol : ProxyProtocol) (proxy : MihomoProxy)
  : result SkippedOutboundProfile string :=
  match protocol with
  | Trojan => or_skip name "missing trojan password" (non_empty (mp_password proxy))
  | Vmess => or_skip name "missing vmess uuid" (non_empty (mp_uuid proxy))
  | Vless => or_skip name "missing vless uuid" (non_empty (mp_uuid proxy))
  | Naive => pair_credential name "naive" (mp_username proxy) (mp_password proxy) "username"
  | Mieru => pair_credential name "mieru" (mp_username proxy) (mp_password proxy) "username"
  | Shadowsocks => or_skip name "missing shadowsocks password" (non_empty (mp_password proxy))
  | AnyTls => or_skip name "missing anytls password" (non_empty (mp_password proxy))
  | Hy2 => or_skip name "missing hy2 auth password" (non_empty (mp_password proxy))
  | Tuic =>
      uuid <-? or_skip name "missing tuic uuid" (non_empty (mp_uuid proxy));
      password <-? or_skip name "missing tuic password"
        (or_else (non_empty (mp_password proxy)) (non_empty (mp_token proxy)));
      Ok (uuid +:+ ":" +:+ password)
  | Socks | Http => Ok (proxy_credential (mp_username proxy) (mp_password proxy))
  end.

Definition has_cipher (protocol : ProxyProtocol) : bool :=
  match protocol with Shadowsocks | Vmess => true | _ => false end.

Definition is_vless (protocol : ProxyProtocol) : bool :=
  match protocol with Vless => true | _ => false end.

Definition is_vmess (protocol : ProxyProtocol) : bool :=
  match protocol with Vmess => true | _ => false end.

Definition mihomo_proxy_to_profile (proxy : MihomoProxy) (index : nat)
  : result SkippedOutboundProfile OutboundProfile :=
  let name := default (numbered "proxy" index) (non_empty (mp_name proxy)) in
  protocol_name <-? or_skip name "missing protocol type" (non_empty (mp_protocol proxy));
  server <-? or_skip name "missing server" (non_empty (mp_server proxy));
  let protocol_name := to_ascii_lowercase protocol_name in
  protocol <-? or_skip name ("unsupported protocol: " +:+ protocol_name)
    (mihomo_protocol protocol_name);
  credential <-? mihomo_credential name protocol proxy;
  let cipher := then_flatten (has_cipher protocol) (non_empty (mp_cipher proxy)) in
  let flow := then_flatten (is_vless protocol) (non_empty (mp_flow proxy)) in
  port <-? or_skip name "missing port" (profile_port (mp_port proxy) (mp_port_range proxy));
  let network := or_else (mp_network proxy) (mp_transport proxy) in
  transport <-? mihomo_transport name server protocol network (mp_ws_opts proxy)
    (mp_httpupgrade_opts proxy) (mp_h2_opts proxy) (mp_quic_opts proxy) (mp_grpc_opts proxy);
  let security := mihomo_security protocol server (mp_tls proxy) (mp_sni proxy)
    (mp_servername proxy) (mp_skip_cert_verify proxy) in
  validated name
    (mkOutboundProfile name protocol (mkEndpoint server port) transport security credential
       cipher flow).

(** ** The libraries *)

Record VmessJsonShare {JN : JsonNumber} : Type := mkVmessJsonShare {
  vj_ps : option string;
  vj_add : option string;
  vj_port : option Value;
  vj_id : option string;
  vj_net : option string;
  vj_host : option string;
  vj_path : option string;
  vj_service_name : option string;
  vj_tls : option string;
  vj_sni : option string;
  vj_servername : option string;
  vj_scy : option string;
  vj_cipher : option string;
  vj_allow_insecure : option Value
}.

(** A call that can fail gives the text of its error or its value. *)
Class ShareLibrary := {
  share_number :: JsonNumber;
  share_url :: UrlLibrary;
  (* base64::engine::general_purpose *)
  standard_decode : list Z -> string + list Z;
  url_safe_no_pad_decode : list Z -> string + list Z;
  url_safe_decode : list Z -> string + list Z;
  (* serde_yaml, the field [proxies] of [MihomoConfig] *)
  yaml_proxies : string -> string + list MihomoProxy;
  (* serde_json *)
  vmess_json_from_slice : list Z -> string + VmessJsonShare
}.

Section ShareLinks.
Context {L : ShareLibrary}.

Definition decode_base64_flexible (input : string) : string + list Z :=
  match standard_decode (as_bytes input) with
  | inr bytes => inr bytes
  | inl _ =>
      match url_safe_no_pad_decode (as_bytes input) with
      | inr bytes => inr bytes
      | inl _ => url_safe_decode (as_bytes input)
      end
  end.

Definition decode_share_subscription_text (input : string) : result SubscriptionParseError string :=
  if contains input "://" then Ok input
  else
    let compact := without_whitespace input in
    if String.eqb compact "" then Ok ""
    else
      bytes <-? of_library InvalidShare (decode_base64_flexible compact);
      of_library InvalidShare (string_from_utf8 bytes).

(** ** VMess JSON links *)

Definition json_value_to_u16 (value : Value) : option Z :=
  match value with
  | Num number => as_u64 number ≫= fun port => if port <=? u16_max then Some port else None
  | Str value => parse_u16 (trim value)
  | _ => None
  end.

Definition truthy_text (value : string) : bool :=
  one_of (to_ascii_lowercase value) ["1"; "true"; "yes"].

Definition truthy_json_value (value : Value) : bool :=
  match value with
  | Bool value => value
  | Num number => negb (default 0 (as_u64 number) =? 0)
  | Str value => truthy_text value
  | _ => false
  end.

Definition vmess_json_transport (tag server : string) (config : VmessJsonShare)
  : result SkippedOutboundProfile TransportKind :=
  let network := default "tcp" (non_empty (vj_net config)) in
  let path := default "/" (non_empty (vj_path config)) in
  let host := or_else (non_empty (vj_host config)) (Some server) in
  let other := to_ascii_lowercase network in
  if one_of other [""; "tcp"] then Ok Transport_Tcp
  else if one_of other ["ws"; "websocket"] then Ok (Transport_WebSocket path host)
  else if one_of other ["httpupgrade"; "http-upgrade"] then Ok (Transport_HttpUpgrade path host)
  else if one_of other ["h2"; "http"; "http2"] then Ok (Transport_Http2 path host)
  else if one_of other ["quic"] then Ok default_quic_transport
  else if one_of other ["grpc"] then
    Ok (Transport_Grpc
          (or_else (non_empty (vj_service_name config)) (non_empty (vj_path config))))
  else skip tag ("unsupported VMess JSON transport: " +:+ other).

Definition vmess_json_security (server : string) (config : VmessJsonShare) : SecurityKind :=
  let tls_enabled :=
    default false
      ((fun tls => one_of (to_ascii_lowercase tls) ["tls"; "true"; "1"]) <$>
       non_empty (vj_tls config)) in
  if tls_enabled then
    Security_Tls
      (or_else (or_else (non_empty (vj_sni config)) (non_empty (vj_servername config)))
         (Some server))
      (default false (truthy_json_value <$> vj_allow_insecure config))
  else Security_None.

Definition vmess_json_config_to_profile (config : VmessJsonShare) (index : nat)
  : result SkippedOutboundProfile OutboundProfile :=
  let tag := default (numbered "proxy" index) (non_empty (vj_ps config)) in
  server <-? or_skip tag "missing server" (non_empty (vj_add config));
  port <-? or_skip tag "missing port" (vj_port config ≫= json_value_to_u16);
  credential <-? or_skip tag "missing vmess uuid" (non_empty (vj_id config));
  transport <-? vmess_json_transport tag server config;
  let security := vmess_json_security server config in
  let cipher :=
    or_else (or_else (non_empty (vj_scy config)) (non_empty (vj_cipher config))) (Some "auto") in
  validated tag
    (mkOutboundProfile tag Vmess (mkEndpoint server port) transport security credential cipher
       None).

Definition vmess_json_share_link_to_profile (link : string) (index : nat)
  : result SkippedOutboundProfile (option OutboundProfile) :=
  match strip_prefix "vmess://" link with
  | None => Ok None
  | Some body =>
      if contains body "@" then Ok None
      else
        let body := before_first "#" body in
        let body := before_first "?" body in
        bytes <-? of_library (mkSkipped (numbered "proxy" index)) (decode_base64_flexible body);
        config <-? of_library (mkSkipped (numbered "proxy" index)) (vmess_json_from_slice bytes);
        profile <-? vmess_json_config_to_profile config index;
        Ok (Some profile)
  end.

(** ** Shadowsocks links *)

Definition shadowsocks_userinfo (url : Url) : option (string * string) :=
  if negb (String.eqb (url_username url) "") then
    match url_password url with
    | Some password => Some (url_username url, password)
    | None =>
        match decode_base64_flexible (url_username url) with
        | inr decoded => from_utf8 decoded ≫= split_once ":"
        | inl _ => None
        end
    end
  else None.

(** [value[1..end]] and [value[end + 1..]] at the first [']'] of a text that starts with
    ['[']: what [split_once] gives, without the bracket. *)
Definition split_host_port (value : string) (default_port : Z) : option (string * Z) :=
  let value := trim value in
  if String.eqb value "" then None
  else if starts_with value "[" then
    match split_once "]" value with
    | None => None
    | Some (before, after) =>
        let host := match before with String _ host => host | EmptyString => "" end in
        Some (host, default default_port (strip_prefix ":" after ≫= parse_u16))
    end
  else
    let colon_count := length (List.filter (fun byte => byte =? 58) (as_bytes value)) in
    if Nat.eqb colon_count 1 then
      '(host, port) ← rsplit_once ":" value;
      Some (host, default default_port (parse_u16 port))
    else Some (value, default_port).

Definition decode_legacy_shadowsocks_share_body (link : string)
  : option (string * string * string * Z) :=
  body ← strip_prefix "ss://" link;
  let body := before_first "#" body in
  let body := before_first "?" body in
  decoded ← match decode_base64_flexible body with inr bytes => Some bytes | inl _ => None end;
  decoded ← from_utf8 decoded;
  '(method_password, server_port) ← rsplit_once "@" decoded;
  '(cipher, password) ← split_once ":" method_password;
  '(server, port) ← split_host_port server_port 8388;
  Some (cipher, password, server, port).

Definition shadowsocks_share_link_to_profile (url : Url) (link : string) (index : nat)
  : result SkippedOutboundProfile OutboundProfile :=
  let tag := default (numbered "proxy" index) (non_empty (url_fragment url)) in
  '(cipher, credential, server, port) <-?
    match url_host_str url with
    | Some server =>
        let port := default 8388 (url_port url) in
        '(cipher, password) <-? or_skip tag "missing shadowsocks method/password"
          (shadowsocks_userinfo url);
        Ok (cipher, password, server, port)
    | None =>
        or_skip tag "invalid shadowsocks share body" (decode_legacy_shadowsocks_share_body link)
    end;
  validated tag
    (mkOutboundProfile tag Shadowsocks (mkEndpoint server port) Transport_Tcp Security_None
       credential (Some cipher) None).

(** ** Other share links *)

(** [HashMap<String, String>] collected from pairs: a later pair replaces an earlier one. *)
Definition Query : Type := gmap string string.

Definition collect_query (pairs : list (string * string)) : Query :=
  foldl (fun query '(key, value) => <[key := value]> query) ∅ pairs.

(** [query.get(k1).or_else(|| query.get(k2))...], [keys.iter().find_map(|key| query.get(key))]. *)
Definition get_first (query : Query) (keys : list string) : option string :=
  find_map (fun key => query !! key) keys.

Definition query_first_non_empty (query : Query) (keys : list string) : option string :=
  non_empty (get_first query keys).

Definition share_link_port (protocol : ProxyProtocol) (url : Url) (query : Query) : option Z :=
  if is_mieru protocol then
    or_else (url_port url) (query !! "port" ≫= first_port_in_range)
  else
    let default_port := match protocol with Socks => 1080 | Http => 80 | _ => 443 end in
    Some (default default_port (url_port url)).

Definition share_link_quic_transport (query : Query) : TransportKind :=
  Transport_Quic
    (query_first_non_empty query ["quicSecurity"; "quic-security"; "quic_security"; "encryption"])
    (query_first_non_empty query ["quicKey"; "quic-key"; "quic_key"; "key"])
    (query_first_non_empty query
       ["headerType"; "header-type"; "header_type"; "quicHeaderType"; "quic-header-type";
        "quic_header_type"; "header"]).

Definition share_link_transport (tag server : string) (protocol : ProxyProtocol) (query : Query)
  : result SkippedOutboundProfile TransportKind :=
  if is_quic_protocol protocol then
    quic_network tag (default "" (to_ascii_lowercase <$> get_first query ["type"; "network"]))
  else if is_mieru protocol then
    mieru_network tag
      (default "tcp" (to_ascii_lowercase <$> get_first query ["protocol"; "type"; "network"]))
  else
    let other := default "tcp" (to_ascii_lowercase <$> get_first query ["type"; "network"]) in
    let path := default "/" (non_empty (query !! "path")) in
    let host := or_else (non_empty (query !! "host")) (Some server) in
    if one_of other [""; "tcp"] then Ok Transport_Tcp
    else if one_of other ["ws"; "websocket"] then Ok (Transport_WebSocket path host)
    else if one_of other ["httpupgrade"; "http-upgrade"] then Ok (Transport_HttpUpgrade path host)
    else if one_of other ["h2"; "http"; "http2"] then Ok (Transport_Http2 path host)
    else if one_of other ["quic"] then Ok (share_link_quic_transport query)
    else if one_of other ["grpc"] then
      Ok (Transport_Grpc
            (non_empty (get_first query ["serviceName"; "service_name"; "service-name"; "path"])))
    else skip tag ("unsupported transport: " +:+ other).

Definition truthy_query (query : Query) (key : string) : bool :=
  default false (truthy_text <$> (query !! key)).

Definition share_link_security (protocol : ProxyProtocol) (server : string) (query : Query)
  : SecurityKind :=
  let security := to_ascii_lowercase <$> get_first query ["security"; "tls"] in
  let tls_enabled :=
    default (tls_by_default protocol)
      ((fun value => one_of value ["tls"; "true"; "1"]) <$> security) in
  if tls_enabled then
    Security_Tls
      (or_else (non_empty (get_first query ["sni"; "servername"])) (Some server))
      (truthy_query query "allowInsecure" || truthy_query query "skip-cert-verify"
       || truthy_query query "insecure")
  else Security_None.

(** The [match] on the scheme. *)
Definition share_link_protocol (scheme : string) : option ProxyProtocol :=
  if one_of scheme ["trojan"] then Some Trojan
  else if one_of scheme ["vmess"] then Some Vmess
  else if one_of scheme ["vless"] then Some Vless
  else if one_of scheme ["naive"] then Some Naive
  else if one_of scheme ["mieru"; "mierus"] then Some Mieru
  else if one_of scheme ["hy2"; "hysteria2"] then Some Hy2
  else if one_of scheme ["anytls"; "any-tls"] then Some AnyTls
  else if one_of scheme ["tuic"] then Some Tuic
  else if one_of scheme ["socks"; "socks5"] then Some Socks
  else if one_of scheme ["http"] then Some Http
  else None.

Definition share_link_credential (tag : string) (protocol : ProxyProtocol) (url : Url)
  : result SkippedOutboundProfile string :=
  match protocol with
  | Tuic => pair_credential tag "tuic" (Some (url_username url)) (url_password url) "uuid"
  | Naive => pair_credential tag "naive" (Some (url_username url)) (url_password url) "username"
  | Mieru => pair_credential tag "mieru" (Some (url_username url)) (url_password url) "username"
  | Socks | Http => Ok (proxy_credential (Some (url_username url)) (url_password url))
  | _ => or_skip tag "missing credential" (non_empty (Some (url_username url)))
  end.

(** A link that is not a VMess JSON link and not a Shadowsocks link. *)
Definition url_to_profile (url : Url) (index : nat)
  : result SkippedOutboundProfile OutboundProfile :=
  let query := collect_query (url_query_pairs url) in
  let tag :=
    default (numbered "proxy" index)
      (or_else (non_empty (url_fragment url)) (non_empty (query !! "profile"))) in
  server <-? or_skip tag "missing server" (url_host_str url);
  protocol <-? or_skip tag ("unsupported protocol: " +:+ url_scheme url)
    (share_link_protocol (url_scheme url));
  credential <-? share_link_credential tag protocol url;
  port <-? or_skip tag "missing port" (share_link_port protocol url query);
  transport <-? share_link_transport tag server protocol query;
  let security := share_link_security protocol server query in
  let flow := then_flatten (is_vless protocol) (non_empty (query !! "flow")) in
  let cipher := then_flatten (is_vmess protocol) (non_empty (query !! "cipher")) in
  validated tag
    (mkOutboundProfile tag protocol (mkEndpoint server port) transport security credential
       cipher flow).

Definition share_link_to_profile (link : string) (index : nat)
  : result SkippedOutboundProfile OutboundProfile :=
  profile <-? vmess_json_share_link_to_profile link index;
  match profile with
  | Some profile => Ok profile
  | None =>
      url <-? of_library (mkSkipped (numbered "link" index)) (url_parse link);
      if String.eqb (url_scheme url) "ss" then shadowsocks_share_link_to_profile url link index
      else url_to_profile url index
  end.

(** ** Subscriptions *)

Definition parse_mihomo_outbound_profiles (input : string)
  : result SubscriptionParseError ParsedOutboundProfiles :=
  proxies <-? of_library InvalidYaml (yaml_proxies input);
  convert_entries mihomo_proxy_to_profile 0 proxies.

(** [decoded.lines().map(str::trim).filter(|line| !line.is_empty())]. *)
Definition share_lines (decoded : string) : list string :=
  List.filter (fun line => negb (String.eqb line "")) (map trim (lines decoded)).

Definition parse_share_outbound_profiles (input : string)
  : result SubscriptionParseError ParsedOutboundProfiles :=
  decoded <-? decode_share_subscription_text input;
  convert_entries share_link_to_profile 0 (share_lines decoded).

Definition looks_like_mihomo_yaml (input : string) : bool :=
  existsb (fun line => starts_with line "proxies:") (map trim_start_text (lines input)).

Definition detect_subscription_input_format (input : string) : SubscriptionInputFormat :=
  if looks_like_mihomo_yaml input then MihomoYaml else ShareLinks.

Definition parse_subscription_outbound_profiles (input : string)
  : result SubscriptionParseError ParsedOutboundProfiles :=
  match detect_subscription_input_format input with
  | MihomoYaml => parse_mihomo_outbound_profiles input
  | ShareLinks => parse_share_outbound_profiles input
  end.

End ShareLinks.
