(* ===== verification/ClientCore.v ===== *)
(** * The client core

    [crates/keli-client-core/src/lib.rs]: the phases of a session, the check of a
    subscription before it is used, the plan of a connection, the plan of an update, the
    state of the account, and [ClientRuntime], the state machine that starts, reloads and
    stops the client.

    An operation that reads the clock has the argument [now]: [now k] is the reading of
    [SystemTime::now()] number [k] of the call, from 0. *)

From stdpp Require Import base strings list numbers.
From S2P Require Import Prelude.
From S2P Require Import Profile.
From S2P Require Import Subscription.
#[local] Open Scope Z_scope.

(** ** Sessions *)

Inductive ClientErrorKind : Type :=
| CoreNotStarted
| DnsTimeout
| TcpConnectTimeout
| TlsHandshakeFailed
| WebSocketUpgradeFailed
| ProxyAuthFailed
| RelayStalled
| TunPermissionMissing
| SystemProxyLoop
| RouteNoOutbound
| NoSupportedOutbounds
| OutboundNotFound (tag : string)
| PanelTrafficRestricted (account_state risk_control : string)
| ConfigInvalid (error : string).

Inductive ConnectionPhase : Type :=
| Idle
| Resolving
| Connecting
| HandshakingTls
| HandshakingProxy
| Relaying
| Recovering
| Phase_Failed (error : ClientErrorKind).

Record ConnectionEvent : Type := mkConnectionEvent {
  ce_phase : ConnectionPhase;
  ce_target : option string;
  ce_note : option string;
  ce_at : Z
}.

Definition ConnectionEvent_new (phase : ConnectionPhase) (now : Z) : ConnectionEvent :=
  mkConnectionEvent phase None None now.

Record SessionState : Type := mkSessionState {
  session_phase : ConnectionPhase;
  session_events : list ConnectionEvent
}.

Definition SessionState_default (now : nat -> Z) : SessionState :=
  mkSessionState Idle [ConnectionEvent_new Idle (now 0%nat)].

Definition transition (phase : ConnectionPhase) (now : nat -> Z) (self : SessionState) : SessionState :=
  mkSessionState phase (session_events self ++ [ConnectionEvent_new phase (now 0%nat)]).

Definition session_fail (error : ClientErrorKind) (now : nat -> Z) (self : SessionState)
  : SessionState :=
  transition (Phase_Failed error) now self.

(** ** Labels *)

Definition profile_supports_udp (profile : OutboundProfile) : bool :=
  match profile_protocol profile with Http | Naive => false | _ => true end.

Definition transport_label (transport : TransportKind) : string :=
  match transport with
  | Transport_Tcp => "tcp"
  | Transport_WebSocket _ _ => "ws"
  | Transport_HttpUpgrade _ _ => "httpupgrade"
  | Transport_Http2 _ _ => "h2"
  | Transport_Grpc _ => "grpc"
  | Transport_Quic _ _ _ => "quic"
  end.

Definition security_label (security : SecurityKind) : string :=
  match security with Security_None => "none" | Security_Tls _ _ => "tls" end.

Definition tls_skip_verify (security : SecurityKind) : option bool :=
  match security with Security_None => None | Security_Tls _ skip_verify => Some skip_verify end.

(** ** Preflight *)

Record SubscriptionNodeCapability : Type := mkNodeCapability {
  cap_tag : string;
  cap_protocol : string;
  cap_transport : string;
  cap_security : string;
  cap_tls_skip_verify : option bool;
  cap_udp_supported : bool
}.

Definition capability_from_profile (profile : OutboundProfile) : SubscriptionNodeCapability :=
  {| cap_tag := profile_tag profile;
     cap_protocol := debug_protocol (profile_protocol profile);
     cap_transport := transport_label (profile_transport profile);
     cap_security := security_label (profile_security profile);
     cap_tls_skip_verify := tls_skip_verify (profile_security profile);
     cap_udp_supported := profile_supports_udp profile |}.

Record SkippedProfileSummary : Type := mkSkippedSummary {
  summary_name : string;
  summary_reason : string
}.

Record SubscriptionPreflightReport : Type := mkPreflight {
  supported_tags : list string;
  supported : list SubscriptionNodeCapability;
  preflight_skipped : list SkippedProfileSummary;
  default_outbound : option string
}.

Definition supported_count (self : SubscriptionPreflightReport) : Z := len (supported self).
Definition skipped_count (self : SubscriptionPreflightReport) : Z := len (preflight_skipped self).
Definition is_usable (self : SubscriptionPreflightReport) : bool :=
  negb (is_empty (supported_tags self)).

(** [tags.iter().any(|tag| tag == wanted)]. *)
Definition has_tag (wanted : string) (tags : list string) : bool :=
  existsb (fun tag => String.eqb tag wanted) tags.

Definition select_outbound (preferred : option string) (self : SubscriptionPreflightReport)
  : result ClientErrorKind string :=
  match preferred with
  | Some tag => if has_tag tag (supported_tags self) then Ok tag else Err (OutboundNotFound tag)
  | None => ok_or NoSupportedOutbounds (default_outbound self)
  end.

Section Preflight.
Context {L : ShareLibrary}.

Definition preflight_subscription_config (config_text : string)
  : result ClientErrorKind SubscriptionPreflightReport :=
  parsed <-? map_err (fun error => ConfigInvalid (subscription_error_text error))
    (parse_subscription_outbound_profiles config_text);
  let supported := map capability_from_profile (parsed_profiles parsed) in
  let supported_tags := map cap_tag supported in
  let default_outbound := head supported_tags in
  let skipped :=
    map (fun skipped => mkSkippedSummary (skipped_name skipped) (skipped_reason skipped))
      (parsed_skipped parsed) in
  Ok (mkPreflight supported_tags supported skipped default_outbound).

(** ** Connection plans *)

Record ConnectionPlan : Type := mkConnectionPlan {
  selected_outbound : string;
  plan_listen : string;
  plan_preflight : SubscriptionPreflightReport
}.

Definition build_connection_plan (config_text : string) (preferred_outbound : option string)
  (listen : string) : result ClientErrorKind ConnectionPlan :=
  preflight <-? preflight_subscription_config config_text;
  selected_outbound <-? select_outbound preferred_outbound preflight;
  Ok (mkConnectionPlan selected_outbound listen preflight).

Definition prepare_connection_plan (config_text : string) (preferred_outbound : option string)
  (listen : string) (now : nat -> Z) (self : SessionState)
  : SessionState * result ClientErrorKind ConnectionPlan :=
  match build_connection_plan config_text preferred_outbound listen with
  | Ok plan =>
      let event :=
        mkConnectionEvent (session_phase self) (Some (selected_outbound plan))
          (Some "connection plan ready") (now 0%nat) in
      (mkSessionState (session_phase self) (session_events self ++ [event]), Ok plan)
  | Err error => (session_fail error now self, Err error)
  | Panic => (self, Panic)
  end.

(** ** Updates *)

Inductive SubscriptionUpdateReason : Type :=
| InitialSubscription
| SelectedOutboundPreserved
| SelectedOutboundMissingUseDefault
| SelectedOutboundMissingNoDefault
| Update_NoSupportedOutbounds.

Definition update_reason_label (self : SubscriptionUpdateReason) : string :=
  match self with
  | InitialSubscription => "initial-subscription"
  | SelectedOutboundPreserved => "selected-outbound-preserved"
  | SelectedOutboundMissingUseDefault => "selected-outbound-missing-use-default"
  | SelectedOutboundMissingNoDefault => "selected-outbound-missing-no-default"
  | Update_NoSupportedOutbounds => "no-supported-outbounds"
  end.

Record SubscriptionUpdateReport : Type := mkUpdateReport {
  current_supported_count : Z;
  new_supported_count : Z;
  new_skipped_count : Z;
  current_default_outbound : option string;
  new_default_outbound : option string;
  current_selected_outbound : option string;
  planned_selected_outbound : option string;
  selected_outbound_preserved : bool;
  selected_outbound_changed : bool;
  usable : bool;
  added_tags : list string;
  removed_tags : list string;
  retained_tags : list string;
  update_reason : SubscriptionUpdateReason
}.

Definition tags_added (current new : list string) : list string :=
  List.filter (fun tag => negb (has_tag tag current)) new.

Definition tags_removed (current new : list string) : list string :=
  List.filter (fun tag => negb (has_tag tag new)) current.

Definition tags_retained (current new : list string) : list string :=
  List.filter (fun tag => has_tag tag current) new.

(** The planned outbound, whether it was kept, and why. *)
Definition plan_selection (new : SubscriptionPreflightReport)
  (effective_current_selected : option string)
  : option string * bool * SubscriptionUpdateReason :=
  if negb (is_usable new) then (None, false, Update_NoSupportedOutbounds)
  else
    match effective_current_selected with
    | Some selected =>
        if has_tag selected (supported_tags new) then (Some selected, true, SelectedOutboundPreserved)
        else
          match default_outbound new with
          | Some default_outbound =>
              (Some default_outbound, false, SelectedOutboundMissingUseDefault)
          | None => (None, false, SelectedOutboundMissingNoDefault)
          end
    | None => (default_outbound new, false, InitialSubscription)
    end.

Definition subscription_update_report_from_preflights
  (current : option SubscriptionPreflightReport) (new : SubscriptionPreflightReport)
  (current_selected : option string) : SubscriptionUpdateReport :=
  let current_tags := default [] (supported_tags <$> current) in
  let new_tags := supported_tags new in
  let current_default := current ≫= default_outbound in
  let effective_current_selected := or_else current_selected current_default in
  let '(planned, preserved, reason) := plan_selection new effective_current_selected in
  {| current_supported_count := default 0 (supported_count <$> current);
     new_supported_count := supported_count new;
     new_skipped_count := skipped_count new;
     current_default_outbound := current_default;
     new_default_outbound := default_outbound new;
     current_selected_outbound := effective_current_selected;
     planned_selected_outbound := planned;
     selected_outbound_preserved := preserved;
     selected_outbound_changed := negb (bool_decide (effective_current_selected = planned));
     usable := is_usable new;
     added_tags := tags_added current_tags new_tags;
     removed_tags := tags_removed current_tags new_tags;
     retained_tags := tags_retained current_tags new_tags;
     update_reason := reason |}.

Definition plan_subscription_update (current_config_text : option string)
  (new_config_text : string) (current_selected : option string)
  : result ClientErrorKind SubscriptionUpdateReport :=
  current_preflight <-?
    match current_config_text with
    | Some text => result_map Some (preflight_subscription_config text)
    | None => Ok None
    end;
  new_preflight <-? preflight_subscription_config new_config_text;
  Ok (subscription_update_report_from_preflights current_preflight new_preflight current_selected).

End Preflight.

(** ** The account *)

Inductive PanelAccountState : Type :=
| Account_Unknown
| Account_Active
| Account_Limited
| Account_Expired
| Account_Disabled.

Definition account_label (self : PanelAccountState) : string :=
  match self with
  | Account_Unknown => "unknown"
  | Account_Active => "active"
  | Account_Limited => "limited"
  | Account_Expired => "expired"
  | Account_Disabled => "disabled"
  end.

Inductive PanelRiskControlState : Type :=
| Risk_Unknown
| Risk_Clear
| Risk_Warning
| Risk_Restricted
| Risk_Blocked.

Definition risk_label (self : PanelRiskControlState) : string :=
  match self with
  | Risk_Unknown => "unknown"
  | Risk_Clear => "clear"
  | Risk_Warning => "warning"
  | Risk_Restricted => "restricted"
  | Risk_Blocked => "blocked"
  end.

Record PanelUserState : Type := mkPanelUserState {
  account_state : PanelAccountState;
  used_bytes : option Z;
  total_bytes : option Z;
  expires_at : option Z
}.

(** [u128::from(used) * 1000] does not overflow for 64-bit [used]. *)
Definition traffic_used_per_mille (self : PanelUserState) : option Z :=
  match used_bytes self, total_bytes self with
  | Some used, Some total =>
      if total =? 0 then None
      else
        let per_mille := used * 1000 / total in
        Some (as_u16 (Z.min per_mille u16_max))
  | _, _ => None
  end.

Definition quota_exhausted (self : PanelUserState) : bool :=
  match used_bytes self, total_bytes self with
  | Some used, Some total => (0 <? total) && (total <=? used)
  | _, _ => false
  end.

Record PanelState : Type := mkPanelState {
  panel_user : PanelUserState;
  risk_control : PanelRiskControlState;
  updated_at : Z;
  support_note : option string
}.

Definition PanelState_new (user : PanelUserState) (risk : PanelRiskControlState) (now : nat -> Z)
  : PanelState :=
  mkPanelState user risk (now 0%nat) None.

Definition with_support_note (note : string) (self : PanelState) : PanelState :=
  mkPanelState (panel_user self) (risk_control self) (updated_at self) (Some note).

Definition should_restrict_traffic (self : PanelState) : bool :=
  match account_state (panel_user self) with Account_Expired | Account_Disabled => true | _ => false end
  || quota_exhausted (panel_user self)
  || match risk_control self with Risk_Restricted | Risk_Blocked => true | _ => false end.

Definition traffic_restriction_error (self : PanelState) : option ClientErrorKind :=
  if should_restrict_traffic self then
    Some (PanelTrafficRestricted (account_label (account_state (panel_user self)))
            (risk_label (risk_control self)))
  else None.
