(* ===== verification/ClientRuntime.v ===== *)
(** * The client's runtime

    [ClientRuntime] of [crates/keli-client-core/src/lib.rs]: the state that is started,
    reloaded and stopped, and its bounded history of events. As in [ClientCore], [now k] is
    the clock reading number [k] of the call. The counters [generation] and [event_count]
    are 64-bit in the code; [generation] never exceeds [event_count], and one event per
    nanosecond would take centuries to reach the limit. *)

From stdpp Require Import base strings list numbers.
From S2P Require Import Prelude.
From S2P Require Import Profile.
From S2P Require Import Subscription.
From S2P Require Import ClientCore.
#[local] Open Scope Z_scope.

Record RuntimeConfig : Type := mkRuntimeConfig {
  config_text : string;
  preferred_outbound : option string;
  config_listen : string
}.

Inductive RuntimeStatus : Type :=
| Stopped
| Starting
| Running (generation : Z) (selected_outbound listen : string)
| Reloading (generation : Z)
| Stopping (generation : Z)
| Failed (error : ClientErrorKind).

(** ** Diagnostics *)

Record RuntimeTunPacketDroppedRouteDiagnostic : Type := mkDroppedRouteDiagnostic {
  dropped_flow : string;
  dropped_route_action : string;
  dropped_matched_rule : option string;
  dropped_dns_hijacked : bool
}.

Record RuntimeTunPacketLoopDiagnostic : Type := mkPacketLoopDiagnostic {
  loop_interface_name : string;
  loop_owns_device : bool;
  loop_processed_packets : Z;
  loop_idle_events : Z;
  loop_exit_reason : string;
  loop_stop_requested : bool;
  loop_packet_limit_reached : bool;
  loop_dns_responses_written : Z;
  loop_udp_relay_responses_written : Z;
  loop_tcp_resets_written : Z;
  loop_tcp_session_events : Z;
  loop_tcp_session_packets_written : Z;
  loop_tcp_max_active_sessions : Z;
  loop_tcp_session_limit_rejections : Z;
  loop_tcp_sessions_pruned : Z;
  loop_tcp_server_closed_sessions_pruned : Z;
  loop_tcp_post_closed_sessions_pruned : Z;
  loop_tcp_server_close_marker_resets : Z;
  loop_tcp_post_close_marker_resets : Z;
  loop_tcp_sessions_open : Z;
  loop_tcp_server_close_markers_open : Z;
  loop_tcp_post_close_markers_open : Z;
  loop_tcp_sessions_peak : Z;
  loop_tcp_server_close_markers_peak : Z;
  loop_tcp_post_close_markers_peak : Z;
  loop_relay_packets : Z;
  loop_tcp_relay_plans : Z;
  loop_udp_relay_plans : Z;
  loop_last_relay_route_action : option string;
  loop_last_relay_matched_rule : option string;
  loop_dropped_packets : Z;
  loop_recent_dropped_routes : list RuntimeTunPacketDroppedRouteDiagnostic;
  loop_recent_dns_hijacked_routes : list RuntimeTunPacketDroppedRouteDiagnostic;
  loop_last_dropped_flow : option string;
  loop_last_dropped_route_action : option string;
  loop_last_dropped_matched_rule : option string;
  loop_unsupported_packets : Z;
  loop_packet_errors : Z;
  loop_udp_relay_errors : Z;
  loop_tcp_session_errors : Z;
  loop_last_packet_error : option string;
  loop_last_udp_relay_error : option string;
  loop_last_tcp_session_error : option string
}.

Record RuntimeManagedMixedStopDrainDiagnostic : Type := mkStopDrainDiagnostic {
  drain_active_connections_shutdown : Z;
  drain_workers_before_shutdown : Z;
  drain_workers_drained : Z;
  drain_workers_remaining : Z;
  drain_drain_elapsed_ms : Z;
  drain_drain_timeout_ms : Z;
  drain_timed_out : bool
}.

Record RuntimeManagedNodeProbeSweepDiagnostic : Type := mkProbeSweepDiagnostic {
  sweep_target : string;
  sweep_inbound : string;
  sweep_elapsed_ms : Z;
  sweep_attempted_nodes : Z;
  sweep_successful_probes : Z;
  sweep_failed_probes : Z;
  sweep_node_count : Z;
  sweep_healthy_count : Z;
  sweep_unhealthy_count : Z;
  sweep_unknown_count : Z;
  sweep_checked_count : Z;
  sweep_unchecked_count : Z;
  sweep_selected_outbound : string;
  sweep_recommended_outbound : string;
  sweep_recommended_switch_ready : bool;
  sweep_recommended_switch_reason : string
}.

Inductive RuntimeDiagnostic : Type :=
| TunPacketLoop (diagnostic : RuntimeTunPacketLoopDiagnostic)
| ManagedMixedStopDrain (diagnostic : RuntimeManagedMixedStopDrainDiagnostic)
| ManagedNodeProbeSweep (diagnostic : RuntimeManagedNodeProbeSweepDiagnostic).

(** ** Events *)

Record RuntimeEvent : Type := mkRuntimeEvent {
  event_status : RuntimeStatus;
  event_note : option string;
  event_diagnostic : option RuntimeDiagnostic;
  event_at : Z
}.

Definition RuntimeEvent_new (status : RuntimeStatus) (note : option string) (now : Z) : RuntimeEvent :=
  mkRuntimeEvent status note None now.

Definition with_diagnostic (status : RuntimeStatus) (note : option string)
  (diagnostic : RuntimeDiagnostic) (now : Z) : RuntimeEvent :=
  mkRuntimeEvent status note (Some diagnostic) now.

Definition DEFAULT_RUNTIME_EVENT_HISTORY_LIMIT : Z := 256.

(** ** The state *)

Record ClientRuntime : Type := mkClientRuntime {
  status : RuntimeStatus;
  active_plan : option ConnectionPlan;
  active_config : option RuntimeConfig;
  generation : Z;
  started_at : option Z;
  last_error : option ClientErrorKind;
  event_count : Z;
  events : list RuntimeEvent
}.

#[export] Instance ClientRuntime_settable : Settable ClientRuntime := fun r =>
  mkClientRuntime (status r) (active_plan r) (active_config r) (generation r) (started_at r)
    (last_error r) (event_count r) (events r).

Definition ClientRuntime_default (now : nat -> Z) : ClientRuntime :=
  mkClientRuntime Stopped None None 0 None None 1
    [RuntimeEvent_new Stopped (Some "runtime initialized") (now 0%nat)].

(** [self.events.drain(0..excess)]. *)
Definition push_event (event : RuntimeEvent) (self : ClientRuntime) : ClientRuntime :=
  let self :=
    match event_status event with
    | Failed error => self <| last_error := Some error |>
    | _ => self
    end in
  let self := self <| event_count := event_count self + 1 |> in
  let self := self <| events := events self ++ [event] |> in
  if DEFAULT_RUNTIME_EVENT_HISTORY_LIMIT <? len (events self) then
    let excess := len (events self) - DEFAULT_RUNTIME_EVENT_HISTORY_LIMIT in
    self <| events := drop (Z.to_nat excess) (events self) |>
  else self.

Definition record (new_status : RuntimeStatus) (note : option string) (now : Z) (self : ClientRuntime)
  : ClientRuntime :=
  push_event (RuntimeEvent_new new_status note now) (self <| status := new_status |>).

Definition runtime_fail (error : ClientErrorKind) (now : Z) (self : ClientRuntime) : ClientRuntime :=
  let self := self <| active_plan := None |> in
  let self := self <| active_config := None |> in
  let self := self <| started_at := None |> in
  let self := self <| status := Failed error |> in
  push_event (RuntimeEvent_new (Failed error) (Some "runtime failed") now) self.

(** [now.duration_since(started_at).ok()]. *)
Definition uptime_at (now : Z) (self : ClientRuntime) : option Z :=
  started_at self ≫= fun started_at =>
    if started_at <=? now then Some (now - started_at) else None.

Definition uptime (now : nat -> Z) (self : ClientRuntime) : option Z := uptime_at (now 0%nat) self.

Section Runtime.
Context {L : ShareLibrary}.

Definition plan_of (config : RuntimeConfig) : result ClientErrorKind ConnectionPlan :=
  build_connection_plan (config_text config) (preferred_outbound config) (config_listen config).

Definition running (generation : Z) (plan : ConnectionPlan) : RuntimeStatus :=
  Running generation (selected_outbound plan) (plan_listen plan).

(** [Ok(self.active_plan.as_ref().expect("runtime plan is set"))]. *)
Definition expect_plan (self : ClientRuntime)
  : ClientRuntime * result ClientErrorKind ConnectionPlan :=
  (self, match active_plan self with Some plan => Ok plan | None => Panic end).

Definition start (config : RuntimeConfig) (now : nat -> Z) (self : ClientRuntime)
  : ClientRuntime * result ClientErrorKind ConnectionPlan :=
  let self := record Starting (Some "runtime starting") (now 0%nat) self in
  match plan_of config with
  | Err error => (runtime_fail error (now 1%nat) self, Err error)
  | Panic => (self, Panic)
  | Ok plan =>
      let self := self <| generation := generation self + 1 |> in
      let self := self <| started_at := Some (now 1%nat) |> in
      let self := self <| status := running (generation self) plan |> in
      let self := self <| active_plan := Some plan |> in
      let self := self <| active_config := Some config |> in
      let self :=
        push_event (RuntimeEvent_new (status self) (Some "runtime running") (now 2%nat)) self in
      expect_plan self
  end.

(** With a start time at hand the clock is read once less. *)
Definition reload (config : RuntimeConfig) (now : nat -> Z) (self : ClientRuntime)
  : ClientRuntime * result ClientErrorKind ConnectionPlan :=
  let previous_status := status self in
  let previous_plan := active_plan self in
  let previous_config := active_config self in
  let self := record (Reloading (generation self)) (Some "runtime reloading") (now 0%nat) self in
  match plan_of config with
  | Ok plan =>
      let self := self <| generation := generation self + 1 |> in
      let reading := if is_none (started_at self) then 2%nat else 1%nat in
      let self :=
        if is_none (started_at self) then self <| started_at := Some (now 1%nat) |> else self in
      let self := self <| status := running (generation self) plan |> in
      let self := self <| active_plan := Some plan |> in
      let self := self <| active_config := Some config |> in
      let self :=
        push_event (RuntimeEvent_new (status self) (Some "runtime reload applied") (now reading))
          self in
      expect_plan self
  | Err error =>
      let self := self <| status := previous_status |> in
      let self := self <| active_plan := previous_plan |> in
      let self := self <| active_config := previous_config |> in
      (push_event (RuntimeEvent_new (Failed error) (Some "runtime reload rejected") (now 1%nat)) self,
       Err error)
  | Panic => (self, Panic)
  end.

End Runtime.

Definition stop (now : nat -> Z) (self : ClientRuntime) : ClientRuntime :=
  match status self with
  | Stopped => self
  | _ =>
      let self := record (Stopping (generation self)) (Some "runtime stopping") (now 0%nat) self in
      let self := self <| active_plan := None |> in
      let self := self <| active_config := None |> in
      let self := self <| started_at := None |> in
      let self := self <| status := Stopped |> in
      push_event (RuntimeEvent_new Stopped (Some "runtime stopped") (now 1%nat)) self
  end.

Definition record_failure (error : ClientErrorKind) (now : nat -> Z) (self : ClientRuntime)
  : ClientRuntime :=
  runtime_fail error (now 0%nat) self.

Definition record_reload_rejected (error : ClientErrorKind) (now : nat -> Z) (self : ClientRuntime)
  : ClientRuntime :=
  push_event (RuntimeEvent_new (Failed error) (Some "runtime reload rejected") (now 0%nat)) self.

Definition record_control_rejected (error : ClientErrorKind) (note : string) (now : nat -> Z)
  (self : ClientRuntime) : ClientRuntime :=
  push_event (RuntimeEvent_new (Failed error) (Some note) (now 0%nat)) self.

Definition record_status_note (note : string) (now : nat -> Z) (self : ClientRuntime)
  : ClientRuntime :=
  push_event (RuntimeEvent_new (status self) (Some note) (now 0%nat)) self.

Definition record_status_diagnostic (note : string) (diagnostic : RuntimeDiagnostic)
  (now : nat -> Z) (self : ClientRuntime) : ClientRuntime :=
  push_event (with_diagnostic (status self) (Some note) diagnostic (now 0%nat)) self.
