(* ===== verification/ClientSpec.v ===== *)
(** * What the client core promises

    [ClientRuntime] implements an abstract machine: a mode (off, failed or serving one
    configuration), a generation and an unbounded history, of which the runtime keeps the
    last events and the last error. From it the invariant of every state the runtime can
    reach, and what start, reload and stop lead to. Plans and updates select a node the
    subscription has. *)

From stdpp Require Import base strings list numbers.
From S2P Require Import Prelude.
From S2P Require Import Profile.
From S2P Require Import Subscription.
From S2P Require Import SubscriptionSpec.
From S2P Require Import ClientCore.
From S2P Require Import ClientRuntime.
#[local] Open Scope Z_scope.

(** ** Plans *)

Lemma has_tag_spec tag tags : has_tag tag tags = true <-> tag ∈ tags.
Proof.
  unfold has_tag. rewrite existsb_exists, list_elem_of_In. split.
  - by intros (x & Hx & ->%String.eqb_eq).
  - intros H. exists tag. by rewrite String.eqb_refl.
Qed.

Section Plans.
Context {L : ShareLibrary}.

Lemma preflight_total text : preflight_subscription_config text <> Panic.
Proof.
  unfold preflight_subscription_config. pose proof (subscription_valid text) as Hv.
  by destruct (parse_subscription_outbound_profiles text).
Qed.

Lemma build_connection_plan_total text preferred listen :
  build_connection_plan text preferred listen <> Panic.
Proof.
  unfold build_connection_plan, select_outbound, ok_or. pose proof (preflight_total text).
  destruct (preflight_subscription_config text); cbn; [|done..]. repeat case_match; cbn; congruence.
Qed.

Lemma preflight_default text report :
  preflight_subscription_config text = Ok report ->
  default_outbound report = head (supported_tags report).
Proof.
  unfold preflight_subscription_config. intros (parsed & _ & [= <-])%result_bind_ok. done.
Qed.

Lemma select_outbound_ok preferred report tag :
  default_outbound report = head (supported_tags report) ->
  select_outbound preferred report = Ok tag <->
  tag ∈ supported_tags report /\
  match preferred with Some wanted => tag = wanted | None => head (supported_tags report) = Some tag end.
Proof.
  intros Hd. unfold select_outbound. destruct preferred as [wanted|].
  - destruct (has_tag wanted (supported_tags report)) eqn:Ht.
    + apply has_tag_spec in Ht. split; [by intros [= <-]|by intros [_ ->]].
    + split; [done|]. intros [Hin ->]. apply has_tag_spec in Hin. congruence.
  - rewrite Hd. destruct (supported_tags report) as [|first tags]; cbn; [by split; [|intros [_ ?]]|].
    split; [intros [= <-]; split; [by left|done]|by intros [_ [= <-]]].
Qed.

(** The plan of a connection has the configuration's node and address. *)
Lemma build_connection_plan_ok text preferred listen plan :
  build_connection_plan text preferred listen = Ok plan <->
  preflight_subscription_config text = Ok (plan_preflight plan) /\
  select_outbound preferred (plan_preflight plan) = Ok (selected_outbound plan) /\
  plan_listen plan = listen.
Proof.
  unfold build_connection_plan. rewrite result_bind_ok. setoid_rewrite result_bind_ok. split.
  - by intros (preflight & Hp & tag & Hs & [= <-]).
  - destruct plan as [tag l preflight]. cbn. intros (Hp & Hs & <-). eauto 10.
Qed.

Lemma plan_selects_supported text preferred listen plan :
  build_connection_plan text preferred listen = Ok plan ->
  selected_outbound plan ∈ supported_tags (plan_preflight plan).
Proof.
  intros (Hp & Hs & _)%build_connection_plan_ok.
  apply select_outbound_ok in Hs; [by destruct Hs|by eapply preflight_default].
Qed.

End Plans.

(** ** The abstract machine *)

Inductive Mode : Type :=
| Off
| Broken (error : ClientErrorKind)
| Serving (config : RuntimeConfig) (plan : ConnectionPlan) (since : Z).

Record Client : Type := mkClient { mode : Mode; client_generation : Z; history : list RuntimeEvent }.

Definition status_of (client : Client) : RuntimeStatus :=
  match mode client with
  | Off => Stopped
  | Broken error => Failed error
  | Serving _ plan _ => running (client_generation client) plan
  end.

Definition plan_in (m : Mode) : option ConnectionPlan :=
  match m with Serving _ plan _ => Some plan | _ => None end.
Definition config_in (m : Mode) : option RuntimeConfig :=
  match m with Serving config _ _ => Some config | _ => None end.
Definition since_in (m : Mode) : option Z :=
  match m with Serving _ _ since => Some since | _ => None end.

(** The error of the last failure of the history. *)
Definition see_failure (seen : option ClientErrorKind) (event : RuntimeEvent)
  : option ClientErrorKind :=
  match event_status event with Failed error => Some error | _ => seen end.

Definition last_failure (events : list RuntimeEvent) : option ClientErrorKind :=
  foldl see_failure None events.

(** The last [n] elements. *)
Definition last_n {A} (n : nat) (l : list A) : list A := drop (length l - n) l.

Definition history_limit : nat := 256.

(** What a runtime shows of the abstract client. *)
Definition shown (client : Client) : ClientRuntime :=
  {| status := status_of client;
     active_plan := plan_in (mode client);
     active_config := config_in (mode client);
     generation := client_generation client;
     started_at := since_in (mode client);
     last_error := last_failure (history client);
     event_count := len (history client);
     events := last_n history_limit (history client) |}.

Inductive Operation : Type :=
| Start (config : RuntimeConfig)
| Reload (config : RuntimeConfig)
| Stop
| RecordFailure (error : ClientErrorKind)
| RejectReload (error : ClientErrorKind)
| RejectControl (error : ClientErrorKind) (note : string)
| StatusNote (note : string)
| StatusDiagnostic (note : string) (diagnostic : RuntimeDiagnostic).

Section Machine.
Context {L : ShareLibrary}.

(** The operation on the runtime. *)
Definition step (operation : Operation) (now : nat -> Z) (self : ClientRuntime) : ClientRuntime :=
  match operation with
  | Start config => (start config now self).1
  | Reload config => (reload config now self).1
  | Stop => stop now self
  | RecordFailure error => record_failure error now self
  | RejectReload error => record_reload_rejected error now self
  | RejectControl error note => record_control_rejected error note now self
  | StatusNote note => record_status_note note now self
  | StatusDiagnostic note diagnostic => record_status_diagnostic note diagnostic now self
  end.

Definition tell (events : list RuntimeEvent) (client : Client) : Client :=
  mkClient (mode client) (client_generation client) (history client ++ events).

Definition enter (m : Mode) (client : Client) : Client :=
  mkClient m (client_generation client) (history client).

Definition serve (config : RuntimeConfig) (plan : ConnectionPlan) (since : Z) (client : Client)
  : Client :=
  mkClient (Serving config plan since) (client_generation client + 1) (history client).

(** The operation on the abstract client. *)
Definition abstract_step (operation : Operation) (now : nat -> Z) (client : Client) : Client :=
  let note := fun (k : nat) status text => RuntimeEvent_new status (Some text) (now k) in
  match operation with
  | Start config =>
      let client := tell [note 0%nat Starting "runtime starting"] client in
      match plan_of config with
      | Ok plan =>
          let client := serve config plan (now 1%nat) client in
          tell [note 2%nat (status_of client) "runtime running"] client
      | Err error => tell [note 1%nat (Failed error) "runtime failed"] (enter (Broken error) client)
      | Panic => client
      end
  | Reload config =>
      let client := tell [note 0%nat (Reloading (client_generation client)) "runtime reloading"] client in
      match plan_of config with
      | Ok plan =>
          let '(since, k) :=
            match since_in (mode client) with
            | Some since => (since, 1%nat)
            | None => (now 1%nat, 2%nat)
            end in
          let client := serve config plan since client in
          tell [note k (status_of client) "runtime reload applied"] client
      | Err error => tell [note 1%nat (Failed error) "runtime reload rejected"] client
      | Panic => client
      end
  | Stop =>
      match mode client with
      | Off => client
      | _ =>
          tell [note 0%nat (Stopping (client_generation client)) "runtime stopping";
                note 1%nat Stopped "runtime stopped"] (enter Off client)
      end
  | RecordFailure error => tell [note 0%nat (Failed error) "runtime failed"] (enter (Broken error) client)
  | RejectReload error => tell [note 0%nat (Failed error) "runtime reload rejected"] client
  | RejectControl error text => tell [note 0%nat (Failed error) text] client
  | StatusNote text => tell [note 0%nat (status_of client) text] client
  | StatusDiagnostic text diagnostic =>
      tell [with_diagnostic (status_of client) (Some text) diagnostic (now 0%nat)] client
  end.

Definition initial (now : nat -> Z) : Client :=
  mkClient Off 0 [RuntimeEvent_new Stopped (Some "runtime initialized") (now 0%nat)].

(** The states a runtime can be in between calls. *)
Inductive reachable : ClientRuntime -> Prop :=
| reachable_default now : reachable (ClientRuntime_default now)
| reachable_step runtime operation now :
    reachable runtime -> reachable (step operation now runtime).

End Machine.

#[local] Arguments last_n : simpl never.
#[local] Arguments last_failure : simpl never.
#[local] Arguments history_limit : simpl never.
#[local] Arguments push_event : simpl never.

(** ** Histories *)

Lemma last_n_push {A} n (l : list A) x :
  (0 < n)%nat -> last_n n (last_n n l ++ [x]) = last_n n (l ++ [x]).
Proof.
  intros Hn. unfold last_n. rewrite !length_app, length_drop. cbn [length].
  destruct (decide (length l <= n)%nat) as [Hl|Hl].
  - replace (length l - n)%nat with 0%nat by lia. rewrite drop_0. f_equal. lia.
  - rewrite !drop_app_le by (rewrite ?length_drop; lia). rewrite drop_drop. f_equal. f_equal. lia.
Qed.

Lemma length_last_n {A} n (l : list A) : (length (last_n n l) <= n)%nat.
Proof. unfold last_n. rewrite length_drop. lia. Qed.

Lemma last_failure_push past event : last_failure (past ++ [event]) = see_failure (last_failure past) event.
Proof. unfold last_failure. by rewrite foldl_app. Qed.

(** [push_event] keeps the last events, counts, and notes a failure. *)
Lemma push_event_eq event runtime :
  push_event event runtime =
  {| status := status runtime; active_plan := active_plan runtime;
     active_config := active_config runtime; generation := generation runtime;
     started_at := started_at runtime; last_error := see_failure (last_error runtime) event;
     event_count := event_count runtime + 1;
     events := last_n history_limit (events runtime ++ [event]) |}.
Proof.
  assert (Hn : forall l : list RuntimeEvent,
    (if DEFAULT_RUNTIME_EVENT_HISTORY_LIMIT <? len l
     then drop (Z.to_nat (len l - DEFAULT_RUNTIME_EVENT_HISTORY_LIMIT)) l else l) = last_n history_limit l).
  { intros l. unfold last_n, DEFAULT_RUNTIME_EVENT_HISTORY_LIMIT, history_limit, len.
    destruct (256 <? Z.of_nat (length l)) eqn:Hb.
    - f_equal. lia.
    - replace (length l - 256)%nat with 0%nat by lia. done. }
  rewrite <- Hn. unfold push_event, see_failure.
  destruct runtime, event as [[] ? ? ?]; cbn;
    by destruct (DEFAULT_RUNTIME_EVENT_HISTORY_LIMIT <? len _).
Qed.

(** Pushing an event on what is shown of a history shows the longer history. *)
Lemma push_event_shown event past plan config since_ g st :
  push_event event
    {| status := st; active_plan := plan; active_config := config; generation := g;
       started_at := since_; last_error := last_failure past;
       event_count := len past; events := last_n history_limit past |} =
  {| status := st; active_plan := plan; active_config := config; generation := g;
     started_at := since_; last_error := last_failure (past ++ [event]);
     event_count := len (past ++ [event]);
     events := last_n history_limit (past ++ [event]) |}.
Proof.
  rewrite push_event_eq. cbn. rewrite last_failure_push, len_app, last_n_push;
    [done|unfold history_limit; lia].
Qed.

(** ** The refinement *)

Section Refinement.
Context {L : ShareLibrary}.

Lemma plan_of_total config : plan_of config <> Panic.
Proof. apply build_connection_plan_total. Qed.

(** Field updates and a push on a runtime that shows a history. *)
Ltac fields :=
  cbv beta iota zeta delta [set_field shown status active_plan active_config generation started_at
    last_error event_count events].
Ltac show_push := fields; cbn; rewrite push_event_shown.

Lemma record_shown new_status note now client :
  record new_status note now (shown client) =
  (shown client) <| status := new_status |>
    <| last_error := last_failure (history client ++ [RuntimeEvent_new new_status note now]) |>
    <| event_count := len (history client ++ [RuntimeEvent_new new_status note now]) |>
    <| events := last_n history_limit (history client ++ [RuntimeEvent_new new_status note now]) |>.
Proof. unfold record. fields. apply push_event_shown. Qed.

(** One operation on the runtime is the operation on the abstract client. *)
Lemma step_shown operation now client :
  step operation now (shown client) = shown (abstract_step operation now client).
Proof.
  destruct operation; cbn [step abstract_step];
    unfold start, reload, stop, record_failure, record_reload_rejected, record_control_rejected,
      record_status_note, record_status_diagnostic; rewrite ?record_shown.
  - destruct (plan_of config) eqn:Hp; [| |by apply plan_of_total in Hp];
      unfold expect_plan, runtime_fail; show_push; done.
  - destruct (plan_of config) eqn:Hp; [| |by apply plan_of_total in Hp]; unfold expect_plan;
      destruct client as [[] g past]; show_push; done.
  - destruct client as [[] g past]; [done|..]; show_push; by rewrite <- app_assoc.
  - unfold runtime_fail. show_push. done.
  - show_push. done.
  - show_push. done.
  - show_push. done.
  - show_push. done.
Qed.

(** What holds of the abstract client: the plan is the plan of the configuration, and
    every generation left an event. *)
Definition client_ok (client : Client) : Prop :=
  0 <= client_generation client < len (history client) /\
  match mode client with
  | Serving config plan _ => plan_of config = Ok plan
  | _ => True
  end.

Lemma tell_ok events client : client_ok client -> client_ok (tell events client).
Proof.
  unfold client_ok, tell. cbn [client_generation history mode]. rewrite len_app. pose proof (len_nonneg events). intuition lia.
Qed.

Lemma serve_ok config plan since event client :
  plan_of config = Ok plan -> client_ok client ->
  client_ok (tell [event] (serve config plan since client)).
Proof.
  unfold client_ok, tell, serve. cbn [client_generation history mode].
  rewrite len_app, len_cons, (len_nil (A := RuntimeEvent)). intuition lia.
Qed.

Lemma enter_off_ok client : client_ok client -> client_ok (enter Off client).
Proof. unfold client_ok, enter. cbn. intuition. Qed.

Lemma enter_broken_ok error client : client_ok client -> client_ok (enter (Broken error) client).
Proof. unfold client_ok, enter. cbn. intuition. Qed.

#[local] Hint Resolve tell_ok serve_ok enter_off_ok enter_broken_ok : core.

Lemma abstract_step_ok operation now client :
  client_ok client -> client_ok (abstract_step operation now client).
Proof.
  intros Hok. destruct operation; cbn [abstract_step]; auto.
  - destruct (plan_of config) eqn:Hp; auto.
  - destruct (plan_of config) eqn:Hp; auto. case_match; auto.
  - case_match; auto.
Qed.

Lemma reachable_shown runtime : reachable runtime -> exists client, runtime = shown client /\ client_ok client.
Proof.
  induction 1 as [now|runtime operation now _ (client & -> & Hok)].
  - by exists (initial now).
  - exists (abstract_step operation now client). rewrite step_shown. auto using abstract_step_ok.
Qed.

(** The answer of [start] and [reload] is the plan of the configuration or its error. *)
Lemma push_event_plan event runtime : active_plan (push_event event runtime) = active_plan runtime.
Proof. by rewrite push_event_eq. Qed.

Lemma start_answer config now runtime : (start config now runtime).2 = plan_of config.
Proof. unfold start. destruct (plan_of config); cbn; by rewrite ?push_event_plan. Qed.

Lemma reload_answer config now runtime : (reload config now runtime).2 = plan_of config.
Proof. unfold reload. destruct (plan_of config); cbn; by rewrite ?push_event_plan. Qed.

End Refinement.

(** ** Properties *)

Section Properties.
Context {L : ShareLibrary}.

(** C9: [ClientRuntime] implements the abstract client (a mode, a generation and an
    unbounded history): whatever sequence of operations is called, with whatever clock
    readings, the runtime shows exactly what the abstract client is after the same
    operations: its status, plan, configuration, start time and generation, the error of
    its last failure, the number of all its events, and the last 256 of them. *)
Theorem client_runtime_refines operations :
  forall now0, fold_left (fun runtime '(operation, now) => step operation now runtime) operations
                 (ClientRuntime_default now0) =
               shown (fold_left (fun client '(operation, now) => abstract_step operation now client)
                        operations (initial now0)).
Proof.
  intros now0. change (ClientRuntime_default now0) with (shown (initial now0)).
  generalize (initial now0) as client. induction operations as [|[operation now] operations IH];
    intros client; [done|]. cbn [fold_left]. by rewrite step_shown, IH.
Qed.

(** In every state the runtime can be in between two calls, it is stopped, failed or
    running; it has a plan, a configuration and a start time exactly when it runs, and then
    the plan is the plan of that configuration, the status names its outbound, its address
    and the current generation, and the outbound is one of the nodes of the subscription;
    the history has at most 256 events and at least as many events were recorded as there
    were generations. *)
Theorem runtime_state_consistent runtime :
  reachable runtime ->
  (match status runtime with
   | Running g outbound listen =>
       exists config plan since,
         active_config runtime = Some config /\ active_plan runtime = Some plan /\
         started_at runtime = Some since /\ g = generation runtime /\
         plan_of config = Ok plan /\ outbound = selected_outbound plan /\
         outbound ∈ supported_tags (plan_preflight plan) /\
         listen = config_listen config
   | Stopped | Failed _ =>
       active_config runtime = None /\ active_plan runtime = None /\ started_at runtime = None
   | Starting | Reloading _ | Stopping _ => False
   end) /\
  len (events runtime) <= DEFAULT_RUNTIME_EVENT_HISTORY_LIMIT /\
  len (events runtime) <= event_count runtime /\ 0 <= generation runtime < event_count runtime.
Proof.
  intros (client & -> & Hg & Hm)%reachable_shown. cbn [shown status active_config active_plan
    started_at generation events event_count]. split.
  - destruct client as [[|error|config plan since] g past]; cbn in *; [done..|].
    exists config, plan, since. repeat (split; [done|]). split; [by eapply plan_selects_supported|].
    by apply build_connection_plan_ok in Hm as (_ & _ & ->).
  - pose proof (length_last_n history_limit (history client)) as Hn.
    assert (length (last_n history_limit (history client)) <= length (history client))%nat
      by (unfold last_n; rewrite length_drop; lia).
    unfold DEFAULT_RUNTIME_EVENT_HISTORY_LIMIT, history_limit, len in *. lia.
Qed.

(** A configuration that [reload] rejects changes nothing but the history: the status,
    the plan, the configuration, the generation and the start time are those of before, and
    the error is returned and kept as the last error. *)
Theorem reload_rejection_harmless config now runtime error :
  plan_of config = Err error ->
  let '(runtime', answer) := reload config now runtime in
  answer = Err error /\ status runtime' = status runtime /\
  active_plan runtime' = active_plan runtime /\ active_config runtime' = active_config runtime /\
  generation runtime' = generation runtime /\ started_at runtime' = started_at runtime /\
  last_error runtime' = Some error.
Proof.
  intros Hp. unfold reload, record. rewrite Hp, !push_event_eq. cbn. done.
Qed.

(** Stopped with nothing left of what was served. *)
Definition idle (generations : Z) (runtime : ClientRuntime) : Prop :=
  status runtime = Stopped /\ active_plan runtime = None /\ active_config runtime = None /\
  started_at runtime = None /\ generation runtime = generations.

Lemma stop_idle now runtime : reachable runtime -> idle (generation runtime) (stop now runtime).
Proof.
  intros (client & -> & _)%reachable_shown.
  change (stop now (shown client)) with (step Stop now (shown client)). rewrite step_shown.
  unfold idle. by destruct client as [[] g past].
Qed.

Lemma start_serves config plan now runtime :
  plan_of config = Ok plan ->
  let runtime' := (start config now runtime).1 in
  status runtime' = running (generation runtime + 1) plan /\ active_plan runtime' = Some plan /\
  active_config runtime' = Some config /\ started_at runtime' = Some (now 1%nat) /\
  generation runtime' = generation runtime + 1.
Proof. intros Hp. unfold start, record. rewrite Hp, push_event_eq. cbn. by rewrite push_event_eq. Qed.

(** C13: The runtime always comes back. In every state it can reach (stopped, running or
    failed, after any sequence of operations) [stop] leads to the stopped state with no
    plan, no configuration and no start time, in the generation it was in; and from
    that state as from the one before it, a configuration that has a plan can be started:
    the answer is that plan, which is served with that configuration in the next
    generation from then on, and which [stop] ends again. *)
Theorem runtime_recovers runtime from config plan earlier now later :
  reachable runtime -> plan_of config = Ok plan -> from = runtime \/ from = stop earlier runtime ->
  idle (generation runtime) (stop earlier runtime) /\
  let '(runtime', answer) := start config now from in
  answer = Ok plan /\ reachable runtime' /\
  status runtime' = running (generation runtime + 1) plan /\ active_plan runtime' = Some plan /\
  active_config runtime' = Some config /\ started_at runtime' = Some (now 1%nat) /\
  idle (generation runtime + 1) (stop later runtime') /\ uptime later (stop later runtime') = None.
Proof.
  intros Hr Hp Hfrom. pose proof (stop_idle earlier runtime Hr) as Hi. split; [done|].
  assert (Hf : reachable from /\ generation from = generation runtime).
  { destruct Hfrom as [->| ->]; [done|]. split; [exact (reachable_step runtime Stop earlier Hr)|apply Hi]. }
  destruct Hf as [Hrf Hg]. destruct (start config now from) as [runtime' answer] eqn:He.
  pose proof (start_answer config now from) as Ha.
  destruct (start_serves config plan now from Hp) as (Hs & Hplan & Hconfig & Hat & Hgen).
  pose proof (reachable_step from (Start config) now Hrf) as Hr'. cbn in Hr'.
  rewrite He in *. cbn [fst snd] in *. rewrite Hg in *. rewrite Hp in Ha.
  pose proof (stop_idle later runtime' Hr') as Hidle. rewrite Hgen in Hidle.
  repeat (split; [done|]). unfold uptime, uptime_at. destruct Hidle as (_ & _ & _ & -> & _). done.
Qed.

(** An update that is usable plans an outbound the new subscription has, the old one
    if it is still there and the first node otherwise, and the client can be started with
    it: the plan of a connection to the planned outbound succeeds. An update that is not
    usable plans none. *)
Theorem update_plan_can_be_started current_text new_text selected report listen :
  plan_subscription_update current_text new_text selected = Ok report ->
  match planned_selected_outbound report with
  | Some tag =>
      usable report = true /\
      exists plan,
        build_connection_plan new_text (Some tag) listen = Ok plan /\ selected_outbound plan = tag /\
        if selected_outbound_preserved report then current_selected_outbound report = Some tag
        else head (supported_tags (plan_preflight plan)) = Some tag
  | None => usable report = false /\ forall preferred, is_ok (build_connection_plan new_text preferred listen) = false
  end.
Proof.
  unfold plan_subscription_update.
  intros (current & _ & H)%result_bind_ok. apply result_bind_ok in H as (new & Hnew & [= <-]).
  pose proof (preflight_default _ _ Hnew) as Hd.
  unfold subscription_update_report_from_preflights.
  destruct (plan_selection new _) as [[planned preserved] reason] eqn:Hsel.
  cbn [planned_selected_outbound usable selected_outbound_preserved current_selected_outbound].
  revert Hsel. set (effective := or_else _ _). unfold plan_selection, is_usable. rewrite Hd.
  assert (Hbuild : forall tag, tag ∈ supported_tags new ->
    exists plan, build_connection_plan new_text (Some tag) listen = Ok plan /\
                 selected_outbound plan = tag /\ plan_preflight plan = new).
  { intros tag Hin. exists (mkConnectionPlan tag listen new). split; [|done].
    apply build_connection_plan_ok. split; [done|]. split; [|done].
    by apply select_outbound_ok. }
  destruct (supported_tags new) as [|first tags] eqn:Htags; cbn [is_empty negb head].
  { intros [= <- <- <-]. split; [done|]. intros preferred.
    unfold build_connection_plan. rewrite Hnew. cbn. unfold select_outbound. rewrite Hd, Htags.
    by destruct preferred. }
  destruct effective as [old|].
  - destruct (has_tag old (first :: tags)) eqn:Hold; intros [= <- <- <-]; (split; [done|]).
    + apply has_tag_spec in Hold. destruct (Hbuild old Hold) as (plan & ? & ? & ?). by exists plan.
    + destruct (Hbuild first) as (plan & ? & ? & Hpre); [by left|]. exists plan. by rewrite Hpre, Htags.
  - intros [= <- <- <-]. split; [done|].
    destruct (Hbuild first) as (plan & ? & ? & Hpre); [by left|]. exists plan. by rewrite Hpre, Htags.
Qed.

(** The tags of an update: added and retained are the new ones, removed and retained cover
    the old ones, and no tag is in two of the lists. *)
Lemma update_tags_partition current new :
  Permutation (tags_added current new ++ tags_retained current new) new /\
  (forall tag, tag ∈ current <-> tag ∈ tags_removed current new \/ tag ∈ tags_retained current new) /\
  (forall tag, tag ∈ tags_removed current new -> tag ∉ new).
Proof.
  unfold tags_added, tags_retained, tags_removed. split; [|split; [intros tag; split|intros tag]].
  - induction new as [|tag new IH]; [done|]. cbn. destruct (has_tag tag current); cbn.
    + rewrite <- Permutation_middle. by constructor.
    + by constructor.
  - rewrite !list_elem_of_In, !filter_In. intros H. destruct (has_tag tag new) eqn:Ht.
    + right. split; [by apply list_elem_of_In, has_tag_spec|by apply has_tag_spec, list_elem_of_In].
    + by left.
  - rewrite !list_elem_of_In, !filter_In. intros [[H _]|[_ H]]; [done|].
    by apply list_elem_of_In, has_tag_spec.
  - rewrite list_elem_of_In, filter_In, negb_true_iff. intros [_ H] Hin%has_tag_spec. congruence.
Qed.

(** Per mille of the quota: in range, and at 1000 exactly when the quota is used up. *)
Lemma traffic_per_mille_exhausted user p :
  (forall used, used_bytes user = Some used -> 0 <= used) ->
  (forall total, total_bytes user = Some total -> 0 <= total) ->
  traffic_used_per_mille user = Some p ->
  is_u16 p /\ (quota_exhausted user = true <-> 1000 <= p).
Proof.
  unfold traffic_used_per_mille, quota_exhausted, is_u16.
  intros Hu Ht. destruct (used_bytes user) as [used|]; [|done].
  destruct (total_bytes user) as [total|]; [|done].
  specialize (Hu used eq_refl). specialize (Ht total eq_refl).
  destruct (total =? 0) eqn:H0; [done|]. intros [= <-].
  assert (0 <= used * 1000 / total) by (apply Z.div_pos; lia).
  unfold as_u16, u16_max. rewrite Z.mod_small by lia. split; [lia|].
  assert (total <= used <-> 1000 <= used * 1000 / total).
  { split; intros.
    - apply Z.div_le_lower_bound; lia.
    - destruct (Z.le_gt_cases total used); [done|].
      assert (used * 1000 / total < 1000) by (apply Z.div_lt_upper_bound; lia). lia. }
  rewrite andb_true_iff, Z.ltb_lt, Z.leb_le. lia.
Qed.

End Properties.

(** ** Witnesses *)

Import Sample.

Definition vless_config : RuntimeConfig := mkRuntimeConfig vless_link None "127.0.0.1:7890".

Definition vless_preflight : SubscriptionPreflightReport :=
  mkPreflight ["vless-ws"] [capability_from_profile vless_profile] [] (Some "vless-ws").

Definition vless_plan : ConnectionPlan := mkConnectionPlan "vless-ws" "127.0.0.1:7890" vless_preflight.

Definition clock (k : nat) : Z := 1000 + Z.of_nat k.

Definition running_client : ClientRuntime :=
  step (L := library) (Start vless_config) clock (ClientRuntime_default clock).

Lemma running_client_reachable : reachable (L := library) running_client.
Proof. apply reachable_step, reachable_default. Defined.

Lemma runtime_state_consistent_witness :
  status running_client = Running 1 "vless-ws" "127.0.0.1:7890" /\ event_count running_client = 3 /\
  len (events running_client) <= DEFAULT_RUNTIME_EVENT_HISTORY_LIMIT.
Proof.
  split; [vm_compute; reflexivity|]. split; [vm_compute; reflexivity|].
  apply (runtime_state_consistent (L := library) running_client running_client_reachable).
Defined.

Lemma reload_rejection_harmless_witness :
  let '(runtime', answer) :=
    reload (L := library) (mkRuntimeConfig vless_link (Some "gone") "127.0.0.1:1") clock running_client in
  answer = Err (OutboundNotFound "gone") /\ status runtime' = status running_client.
Proof.
  pose proof (reload_rejection_harmless (L := library)
    (mkRuntimeConfig vless_link (Some "gone") "127.0.0.1:1") clock running_client
    (OutboundNotFound "gone")) as H.
  assert (Hp : plan_of (L := library) (mkRuntimeConfig vless_link (Some "gone") "127.0.0.1:1") =
               Err (OutboundNotFound "gone")) by (vm_compute; reflexivity).
  specialize (H Hp). destruct (reload _ _ _) as [runtime' answer].
  destruct H as (Ha & Hs & _). split; assumption.
Defined.

Definition failed_client : ClientRuntime := step (L := library) (RecordFailure RelayStalled) clock running_client.

Lemma failed_client_reachable : reachable (L := library) failed_client.
Proof. apply reachable_step, running_client_reachable. Qed.

Lemma runtime_recovers_witness :
  status failed_client = Failed RelayStalled /\
  status (stop clock failed_client) = Stopped /\ active_config (stop clock failed_client) = None /\
  let '(runtime', answer) := start (L := library) vless_config clock (stop clock failed_client) in
  answer = Ok vless_plan /\ status runtime' = Running 2 "vless-ws" "127.0.0.1:7890".
Proof.
  destruct (runtime_recovers (L := library) failed_client (stop clock failed_client) vless_config vless_plan
    clock clock clock) as [(Hs & _ & Hc & _) H].
  - exact failed_client_reachable.
  - vm_compute. reflexivity.
  - by right.
  - split; [vm_compute; reflexivity|]. split; [exact Hs|]. split; [exact Hc|].
    destruct (start _ _ _) as [runtime' answer]. destruct H as (Ha & _ & Hr & _).
    split; [exact Ha|]. rewrite Hr. vm_compute. reflexivity.
Defined.

Definition vless_update : SubscriptionUpdateReport :=
  {| current_supported_count := 0; new_supported_count := 1; new_skipped_count := 0;
     current_default_outbound := None; new_default_outbound := Some "vless-ws";
     current_selected_outbound := Some "old-node"; planned_selected_outbound := Some "vless-ws";
     selected_outbound_preserved := false; selected_outbound_changed := true; usable := true;
     added_tags := ["vless-ws"]; removed_tags := []; retained_tags := [];
     update_reason := SelectedOutboundMissingUseDefault |}.

Lemma update_plan_can_be_started_witness :
  plan_subscription_update (L := library) None vless_link (Some "old-node") = Ok vless_update /\
  exists plan,
    build_connection_plan (L := library) vless_link (Some "vless-ws") "127.0.0.1:1" = Ok plan /\
    selected_outbound plan = "vless-ws".
Proof.
  assert (Hu : plan_subscription_update (L := library) None vless_link (Some "old-node") = Ok vless_update)
    by (vm_compute; reflexivity).
  split; [exact Hu|].
  pose proof (update_plan_can_be_started (L := library) None vless_link (Some "old-node") vless_update
    "127.0.0.1:1" Hu) as H.
  destruct H as (_ & plan & Hb & Hs & _). exists plan. split; assumption.
Defined.
