(* ===== verification/Panel.v ===== *)
(** * The panel client

    [crates/keli-client-core/src/panel/]: the endpoints of a panel ([endpoint.rs]), its
    requests ([request.rs]), the session of a login ([auth.rs]), the answers as data
    ([models.rs], [parse.rs]) and the client that sends the requests ([client.rs] without
    the transport, which is in [PanelHttp]). *)

From Stdlib Require Import Ascii.
From stdpp Require Import base strings list numbers.
From S2P Require Import Prelude.
From S2P Require Import StdNet.
From S2P Require Import StdIo.
From S2P Require Import HttpProxy.
From S2P Require Import H2Stream.
From S2P Require Import Subscription.
#[local] Open Scope Z_scope.

(** What the panel client uses of the libraries: JSON text, URLs, and the lower case of a
    text by the Unicode tables. *)
Class PanelLibrary := {
  panel_number :: JsonNumber;
  panel_url :: UrlLibrary;
  json_from_str : string -> string + Value;
  json_to_string : Value -> string + string;
  unicode_lowercase : string -> string
}.

(** ** Numbers as text *)

Definition i64_min : Z := -9223372036854775808.
Definition i64_max : Z := 9223372036854775807.
Definition usize_max : Z := 18446744073709551615.

(** [i64::to_string]. *)
Definition i64_to_string (n : Z) : string :=
  if n <? 0 then "-" +:+ to_decimal (- n) else to_decimal n.

Fixpoint digits_value (value : Z) (s : string) : option Z :=
  match s with
  | EmptyString => Some value
  | String a s' =>
      match to_digit 10 a with
      | Some d => digits_value (value * 10 + d) s'
      | None => None
      end
  end.

Definition parse_digits (s : string) : option Z :=
  if String.eqb s "" then None else digits_value 0 s.

(** [s.parse::<i64>().ok()]. *)
Definition parse_i64 (s : string) : option Z :=
  n ← match s with
      | String "+"%char s' => parse_digits s'
      | String "-"%char s' => Z.opp <$> parse_digits s'
      | _ => parse_digits s
      end;
  if (i64_min <=? n) && (n <=? i64_max) then Some n else None.

(** [s.parse::<usize>().ok()]. *)
Definition parse_usize (s : string) : option Z :=
  n ← match s with String "+"%char s' => parse_digits s' | _ => parse_digits s end;
  if n <=? usize_max then Some n else None.

(** [a.saturating_add(b)] on [i64]. *)
Definition i64_saturating_add (a b : Z) : Z := Z.max i64_min (Z.min i64_max (a + b)).

(** ** Fields of an answer *)

Section Fields.
Context {Lib : PanelLibrary}.

(** [string_value] of [auth.rs], [endpoint.rs] and [parse.rs], which are the same. *)
Definition string_value (value : Value) (key : string) : option string :=
  text ← get value key ≫= as_str;
  let text := trim text in
  if String.eqb text "" then None else Some text.

Definition int_value (value : Value) (key : string) : option Z :=
  item ← get value key;
  match value_as_i64 item with
  | Some n => Some n
  | None => text ← as_str item; parse_i64 (trim text)
  end.

Definition bool_value (value : Value) (key : string) : option bool :=
  item ← get value key;
  match item with
  | Bool value => Some value
  | Num number => Some (negb (default 0 (as_i64 number) =? 0))
  | Str text => Some (one_of (to_ascii_lowercase (trim text)) ["1"; "true"; "yes"])
  | _ => None
  end.

Definition data_value (value : Value) : Value := default value (get value "data").

(** [items.iter().filter_map(Value::as_str).map(str::trim).filter(non-empty)]. *)
Definition trimmed_strings (items : list Value) : list string :=
  List.filter (fun item => negb (String.eqb item "")) (map trim (omap as_str items)).

Definition string_list (value : option Value) : list string :=
  match value with
  | Some (Array items) => trimmed_strings items
  | Some (Str items) => concat (map split_whitespace (split_on "," items))
  | _ => []
  end.

(** ** Endpoints *)

Record PanelEndpointCandidate : Type := mkEndpointCandidate {
  candidate_base_url : string;
  candidate_api_prefix : string;
  candidate_source : string
}.

Definition candidate_key (self : PanelEndpointCandidate) : string :=
  unicode_lowercase (candidate_base_url self) +:+ "|" +:+ candidate_api_prefix self.

Record PanelEndpointConfig : Type := mkEndpointConfig {
  endpoint_api_base : string;
  endpoint_api_prefix : string;
  backup_api_bases : list string;
  bootstrap_urls : list string;
  panel_host : option string;
  endpoint_source : string;
  endpoint_updated_at : Z;
  endpoint_ttl : Z;
  signature : option string
}.

Definition normalize_base_url (value : string) : option string :=
  let trimmed := trim_end_matches "/" (trim value) in
  if String.eqb trimmed "" then None
  else
    with_scheme ←
      (if starts_with trimmed "http://" || starts_with trimmed "https://" then Some trimmed
       else if contains trimmed "://" then None
       else Some ("https://" +:+ trimmed));
    match url_parse with_scheme with
    | inl _ => None
    | inr parsed => if one_of (url_scheme parsed) ["http"; "https"] then Some with_scheme else None
    end.

Definition normalize_api_prefix (value : string) : string :=
  let trimmed := trim_slashes (trim value) in
  if String.eqb trimmed "" then "/api/v1" else "/" +:+ trimmed.

Definition parses (item : string) : bool :=
  match url_parse item with inr _ => true | inl _ => false end.

(** Times are in seconds. *)
Definition from_discovery_json (value : Value) (now : Z) : option PanelEndpointConfig :=
  api_base ← string_value value "api_base";
  api_base ← normalize_base_url api_base;
  let api_prefix := normalize_api_prefix (default "/api/v1" (string_value value "api_prefix")) in
  let backups := omap normalize_base_url (string_list (get value "backup_api_bases")) in
  let bootstraps := List.filter parses (string_list (get value "bootstrap_urls")) in
  let host :=
    match unicode_lowercase <$> string_value value "panel_host" with
    | Some item => if String.eqb item "" then None else Some item
    | None => None
    end in
  let source := default "well-known" (string_value value "source") in
  let ttl_seconds := Z.max (default 3600 (get value "ttl" ≫= value_as_u64)) 60 in
  Some (mkEndpointConfig api_base api_prefix backups bootstraps host source now ttl_seconds
          (string_value value "signature")).

Definition primary_candidate (self : PanelEndpointConfig) : PanelEndpointCandidate :=
  mkEndpointCandidate (endpoint_api_base self) (endpoint_api_prefix self) (endpoint_source self).

Definition backup_candidates (self : PanelEndpointConfig) : list PanelEndpointCandidate :=
  map (fun base_url =>
         mkEndpointCandidate base_url (endpoint_api_prefix self) (endpoint_source self +:+ " backup"))
    (backup_api_bases self).

(** [updated_at.checked_add(ttl)] fails past the last time the system can represent. *)
Definition is_expired (latest_time now : Z) (self : PanelEndpointConfig) : bool :=
  let expires_at := endpoint_updated_at self + endpoint_ttl self in
  if expires_at <=? latest_time then expires_at <=? now else true.

(** ** Sessions *)

Record PanelSession : Type := mkPanelSession {
  session_api_base : string;
  session_api_prefix : string;
  session_token : string;
  session_email : option string
}.

Definition PanelSession_new (api_base api_prefix token : string) (email : option string)
  : PanelSession :=
  mkPanelSession (default (trim_end_matches "/" (trim api_base)) (normalize_base_url api_base))
    (normalize_api_prefix api_prefix) token email.

Definition authorization_header (self : PanelSession) : string := "Bearer " +:+ session_token self.

Definition token_is_empty (self : PanelSession) : bool :=
  String.eqb (trim (session_token self)) "".

Definition parse_login_session (value : Value) (api_base api_prefix : string)
  : option PanelSession :=
  let data := default value (get value "data") in
  token ← or_else (string_value data "auth_data") (string_value data "token");
  let email :=
    or_else (get data "user" ≫= fun user => string_value user "email") (string_value data "email") in
  Some (PanelSession_new api_base api_prefix token email).

(** ** Requests *)

Inductive PanelHttpMethod : Type := Get | Post.

Record PanelRequest : Type := mkPanelRequest {
  request_method : PanelHttpMethod;
  request_api_prefix : string;
  request_path : string;
  request_query : list (string * string);
  request_body : option Value;
  authenticated : bool
}.

Definition request_get (api_prefix path : string) (auth : bool) (query : list (string * string))
  : PanelRequest :=
  mkPanelRequest Get api_prefix path query None auth.

Definition request_post (api_prefix path : string) (auth : bool) (body : option Value)
  : PanelRequest :=
  mkPanelRequest Post api_prefix path [] body auth.

Definition login_request (email password : string) : PanelRequest :=
  request_post "/api/v2" "/passport/auth/login" false
    (Some (Object [("email", Str (trim email)); ("password", Str password)])).

Definition bootstrap_request : PanelRequest := request_get "/api/v1" "/app/bootstrap" true [].
Definition user_info_request : PanelRequest := request_get "/api/v1" "/user/info" true [].
Definition user_subscribe_request : PanelRequest :=
  request_get "/api/v1" "/user/getSubscribe" true [].
Definition servers_request : PanelRequest := request_get "/api/v1" "/user/server/fetch" true [].

Definition core_version_pair (core_version : option string) : list (string * string) :=
  match core_version with
  | Some core_version =>
      if String.eqb (trim core_version) "" then [] else [("core_version", trim core_version)]
  | None => []
  end.

Definition sing_box_config_for_server_request (server_id : Z) (platform : string)
  (core_version : option string) : PanelRequest :=
  let query :=
    [("core", "sing-box"); ("platform", platform); ("server_id", i64_to_string server_id)]
    ++ core_version_pair core_version in
  request_get "/api/v1" "/app/config" true query.

Definition sing_box_batch_config_request (platform : string) (core_version : option string)
  : PanelRequest :=
  let query := [("core", "sing-box"); ("platform", platform)] ++ core_version_pair core_version in
  request_get "/api/v1" "/app/config" true query.

Definition plans_request : PanelRequest := request_get "/api/v1" "/user/plan/fetch" true [].
Definition payment_methods_request : PanelRequest :=
  request_get "/api/v1" "/user/order/getPaymentMethod" true [].
Definition orders_request : PanelRequest := request_get "/api/v1" "/user/order/fetch" true [].
Definition announcements_request (current page_size : Z) : PanelRequest :=
  request_get "/api/v1" "/user/notice/fetch" true
    [("current", to_decimal current); ("pageSize", to_decimal page_size)].

(** ** Answers *)

Record PanelAppInfo : Type := mkAppInfo {
  app_name : option string;
  app_url : option string;
  app_logo : option string;
  app_tos_url : option string
}.

Record PanelAccount : Type := mkPanelAccount {
  account_email : string;
  account_plan_id : option Z;
  balance_cents : option Z;
  expired_at : option Z;
  banned : bool
}.

Record PanelSubscription : Type := mkPanelSubscription {
  sub_plan_id : option Z;
  sub_plan_name : option string;
  subscribe_url : option string;
  accelerated_subscribe_url : option string;
  sub_used_bytes : option Z;
  sub_total_bytes : option Z;
  device_limit : option Z;
  speed_limit : option Z;
  reset_day : option Z
}.

Record PanelNode : Type := mkPanelNode {
  node_id : Z;
  node_name : string;
  node_protocol : option string;
  node_transport : option string;
  node_tags : list string;
  node_online : option bool
}.

Record PanelBootstrapPayload : Type := mkBootstrapPayload {
  payload_app : PanelAppInfo;
  payload_account : PanelAccount;
  payload_subscription : PanelSubscription;
  payload_nodes : list PanelNode
}.

Definition PanelAppInfo_default : PanelAppInfo := mkAppInfo None None None None.
Definition PanelSubscription_default : PanelSubscription :=
  mkPanelSubscription None None None None None None None None None.

Definition parse_app (value : option Value) : PanelAppInfo :=
  match value with
  | None => PanelAppInfo_default
  | Some value =>
      mkAppInfo (string_value value "name") (string_value value "url") (string_value value "logo")
        (string_value value "tos_url")
  end.

Definition parse_account (value : Value) : option PanelAccount :=
  email ← string_value value "email";
  Some (mkPanelAccount email (int_value value "plan_id") (int_value value "balance")
          (int_value value "expired_at") (default false (bool_value value "banned"))).

Definition parse_subscription (value : option Value) : PanelSubscription :=
  match value with
  | None => PanelSubscription_default
  | Some value =>
      let uploaded := default 0 (int_value value "u") in
      let downloaded := default 0 (int_value value "d") in
      mkPanelSubscription (int_value value "plan_id")
        (get value "plan" ≫= fun plan => string_value plan "name")
        (string_value value "subscribe_url") (string_value value "accelerated_subscribe_url")
        (Some (i64_saturating_add uploaded downloaded)) (int_value value "transfer_enable")
        (int_value value "device_limit") (int_value value "speed_limit") (int_value value "reset_day")
  end.

Definition parse_node (value : Value) : option PanelNode :=
  id ← int_value value "id";
  name ← string_value value "name";
  Some (mkPanelNode id name
          (or_else (string_value value "protocol") (string_value value "type"))
          (string_value value "transport")
          (default [] (trimmed_strings <$> (get value "tags" ≫= as_array)))
          (or_else (bool_value value "is_online") (bool_value value "online"))).

Definition parse_nodes (value : Value) : option (list PanelNode) :=
  match data_value value with
  | Array items => Some (omap parse_node items)
  | Null => Some []
  | _ => None
  end.

Definition parse_bootstrap_payload (value : Value) : option PanelBootstrapPayload :=
  match data_value value with
  | Object data =>
      user ← field_of data "user";
      account ← parse_account user;
      let servers := default Null (or_else (field_of data "servers") (field_of data "nodes")) in
      Some (mkBootstrapPayload (parse_app (field_of data "app")) account
              (parse_subscription (field_of data "subscribe")) (default [] (parse_nodes servers)))
  | _ => None
  end.

Definition parse_legacy_bootstrap_payload (info subscribe servers : Value)
  : option PanelBootstrapPayload :=
  account ← parse_account (data_value info);
  Some (mkBootstrapPayload PanelAppInfo_default account
          (parse_subscription (Some (data_value subscribe))) (default [] (parse_nodes servers))).

(** ** The client *)

Record PanelApiError : Type := mkPanelApiError { error_kind : string; error_message : string }.

Definition http_status_error (operation : string) (status : Z) : PanelApiError :=
  mkPanelApiError "http-status"
    (operation +:+ " failed with HTTP status " +:+ to_decimal status).

Record PanelApiRequest : Type := mkApiRequest {
  api_method : PanelHttpMethod;
  api_url : string;
  api_body : option Value;
  authorization : option string
}.

Record PanelApiResponse : Type := mkApiResponse { response_status : Z; response_body : string }.

(** [PanelApiResponse::json], whose text is [null] when the value cannot be encoded. *)
Definition response_json (status : Z) (value : Value) : PanelApiResponse :=
  mkApiResponse status (match json_to_string value with inr text => text | inl _ => "null" end).

Definition is_success (self : PanelApiResponse) : bool := in_range 200 299 (response_status self).

Definition json_value (operation : string) (self : PanelApiResponse) : result PanelApiError Value :=
  of_library
    (fun error =>
       mkPanelApiError "json-parse" (operation +:+ " response JSON parse failed: " +:+ error))
    (json_from_str (response_body self)).

Definition require_success (operation : string) (response : PanelApiResponse)
  : result PanelApiError unit :=
  if is_success response then Ok tt
  else Err (http_status_error operation (response_status response)).

Definition build_url (api_base api_prefix path : string) (query : list (string * string))
  : result PanelApiError string :=
  url <-? of_library
    (fun error => mkPanelApiError "endpoint" ("invalid panel API base URL: " +:+ error))
    (url_parse api_base);
  let base_path := trim_slashes (url_path url) in
  let api_prefix := trim_slashes (normalize_api_prefix api_prefix) in
  let path := trim_slashes path in
  let full_path :=
    join "/" (List.filter (fun item => negb (String.eqb item "")) [base_path; api_prefix; path]) in
  let url := url_set_path ("/" +:+ full_path) url in
  let url := url_clear_query url in
  let url := foldl (fun url '(key, value) => url_append_pair key value url) url query in
  Ok (url_to_string url).

(** [trait PanelApiTransport]; [W] is the outside world. *)
Class PanelApiTransport (W : Type) := {
  send : PanelApiRequest -> SM W PanelApiError PanelApiResponse
}.

Section Client.
Context {W : Type} {Transport : PanelApiTransport W}.

(** [PanelApiClient]: the normalized base URL; the transport is the class. *)
Definition PanelApiClient_new (api_base : string) : result PanelApiError string :=
  ok_or (mkPanelApiError "endpoint" ("invalid panel API base URL: " +:+ api_base))
    (normalize_base_url api_base).

Definition send_request (api_base : string) (session : option PanelSession) (request : PanelRequest)
  : SM W PanelApiError PanelApiResponse :=
  let session := if authenticated request then session else None in
  let base := default api_base (session_api_base <$> session) in
  let prefix := default (request_api_prefix request) (session_api_prefix <$> session) in
  let authorization := authorization_header <$> session in
  url <-! sm_lift (build_url base prefix (request_path request) (request_query request));
  send (mkApiRequest (request_method request) url (request_body request) authorization).

Definition login (api_base email password : string) : SM W PanelApiError PanelSession :=
  response <-! send_request api_base None (login_request email password);
  do! sm_lift (require_success "login" response);
  value <-! sm_lift (json_value "login" response);
  sm_lift
    (ok_or (mkPanelApiError "auth" "login response did not include auth data")
       (match parse_login_session value api_base "/api/v1" with
        | Some session => if token_is_empty session then None else Some session
        | None => None
        end)).

Definition send_json_request (api_base : string) (session : PanelSession) (request : PanelRequest)
  (operation : string) : SM W PanelApiError Value :=
  response <-! send_request api_base (Some session) request;
  do! sm_lift (require_success operation response);
  sm_lift (json_value operation response).

Definition legacy_bootstrap (api_base : string) (session : PanelSession)
  : SM W PanelApiError PanelBootstrapPayload :=
  info <-! send_json_request api_base session user_info_request "user-info";
  subscribe <-! send_json_request api_base session user_subscribe_request "user-subscribe";
  servers <-! send_json_request api_base session servers_request "servers";
  sm_lift
    (ok_or (mkPanelApiError "bootstrap" "legacy bootstrap payload is invalid")
       (parse_legacy_bootstrap_payload info subscribe servers)).

(** The payload of the new endpoint, when it answers with one. *)
Definition bootstrap_payload (response : PanelApiResponse) : option PanelBootstrapPayload :=
  if is_success response then
    match json_value "bootstrap" response with
    | Ok value => parse_bootstrap_payload value
    | _ => None
    end
  else None.

Definition bootstrap (api_base : string) (session : PanelSession)
  : SM W PanelApiError PanelBootstrapPayload :=
  response <-! send_request api_base (Some session) bootstrap_request;
  match bootstrap_payload response with
  | Some payload => sm_ret payload
  | None => legacy_bootstrap api_base session
  end.

(** The text of a configuration, for both requests. *)
Definition fetch_config (api_base : string) (session : PanelSession) (request : PanelRequest)
  : SM W PanelApiError string :=
  response <-! send_request api_base (Some session) request;
  do! sm_lift (require_success "config" response);
  sm_ret (response_body response).

Definition sing_box_config_for_server (api_base : string) (session : PanelSession) (server_id : Z)
  (platform : string) (core_version : option string) : SM W PanelApiError string :=
  fetch_config api_base session
    (sing_box_config_for_server_request server_id platform core_version).

Definition sing_box_batch_config (api_base : string) (session : PanelSession) (platform : string)
  (core_version : option string) : SM W PanelApiError string :=
  fetch_config api_base session (sing_box_batch_config_request platform core_version).

End Client.
End Fields.
