(* ===== verification/PanelHttp.v ===== *)
(** * The HTTP transport of the panel client

    [PanelHttpTransport] of [crates/keli-client-core/src/panel/client.rs]: a request over a
    new connection, plain or with TLS, and the answer read to the end of the stream. The
    operating system and the TLS library are the class [PanelNetwork]. *)

From Stdlib Require Import Ascii.
From stdpp Require Import base strings list numbers.
From S2P Require Import Prelude.
From S2P Require Import StdNet.
From S2P Require Import StdIo.
From S2P Require Import HttpProxy.
From S2P Require Import Subscription.
From S2P Require Import Panel.
#[local] Open Scope Z_scope.

(** [Read::read] into a buffer of the given length: the bytes it put there. *)
Class RawRead (S : Type) := { raw_read : Z -> SM S IoError (list Z) }.

(** [W] is the outside world. A TLS connection is set up on a connected socket. *)
Class PanelNetwork (W : Type) := {
  PanelTcp : Type;
  panel_tcp_read :: RawRead PanelTcp;
  panel_tcp_write :: Write PanelTcp;
  PanelTls : Type;
  panel_tls_read :: RawRead PanelTls;
  panel_tls_write :: Write PanelTls;
  resolve_addresses : string -> Z -> SM W IoError (list SocketAddr);
  panel_connect_timeout : SocketAddr -> Z -> SM W IoError PanelTcp;
  panel_set_read_timeout : option Z -> SM PanelTcp IoError unit;
  panel_set_write_timeout : option Z -> SM PanelTcp IoError unit;
  server_name_error : string -> option string;
  tls_versions_error : option string;
  client_connection : string -> PanelTcp -> string + PanelTls
}.

(** ** Text of the standard library *)

(** [String::from_utf8_lossy]: every ill-formed sequence becomes U+FFFD. *)
Definition replacement_character : list Z := [239; 191; 189].

Fixpoint lossy_bytes (fuel : nat) (l : list Z) : list Z :=
  match fuel with
  | O => []
  | S fuel' =>
      match utf8_error 0 l with
      | None => l
      | Some (i, Some n) =>
          take (Z.to_nat i) l ++ replacement_character
          ++ lossy_bytes fuel' (drop (Z.to_nat (i + n)) l)
      | Some (i, None) => take (Z.to_nat i) l ++ replacement_character
      end
  end.

Definition from_utf8_lossy (l : list Z) : string :=
  string_of_bytes (lossy_bytes (S (length l)) l).

(** [usize::from_str_radix(text, 16)], the error as its text. *)
Fixpoint hex_digits (value : Z) (s : string) : string + Z :=
  match s with
  | EmptyString => inr value
  | String a s' =>
      match to_digit 16 a with
      | None => inl "invalid digit found in string"
      | Some d =>
          if usize_max <? value * 16 + d then inl "number too large to fit in target type"
          else hex_digits (value * 16 + d) s'
      end
  end.

Definition usize_from_hex (s : string) : string + Z :=
  match s with
  | EmptyString => inl "cannot parse integer from empty string"
  | String "+"%char EmptyString => inl "invalid digit found in string"
  | String "+"%char s' => hex_digits 0 s'
  | _ => hex_digits 0 s
  end.

(** [bytes.windows(needle.len()).position(|window| window == needle)]. *)
Fixpoint find_window (needle l : list Z) : option Z :=
  if bool_decide (take (length needle) l = needle) then Some 0
  else match l with [] => None | _ :: l' => Z.succ <$> find_window needle l' end.

Definition find_header_end (bytes : list Z) : option Z := find_window [13; 10; 13; 10] bytes.

Definition find_crlf (bytes : list Z) : option Z := find_window [13; 10] bytes.

(** [a.saturating_add(b)] on [usize]. *)
Definition usize_saturating_add (a b : Z) : Z := Z.min usize_max (a + b).

Definition panel_error (kind message : string) : PanelApiError := mkPanelApiError kind message.

(** ** The answer *)

Definition header_value (headers name : string) : option string :=
  find_map
    (fun line =>
       match split_once ":" line with
       | Some (key, value) =>
           if eq_ignore_ascii_case (trim key) name then Some (trim value) else None
       | None => None
       end)
    (lines headers).

(** One chunk from [cursor]: its bytes and the new cursor, or the end. *)
Definition read_chunk (bytes : list Z) (cursor : Z)
  : result PanelApiError (option (list Z * Z)) :=
  rest <-? slice bytes cursor (len bytes);
  line_end <-? ok_or (panel_error "http" "chunk size is incomplete") (find_crlf rest);
  let line_end := line_end + cursor in
  size_line <-? slice bytes cursor line_end;
  size_line <-? of_library (fun error => panel_error "utf8" ("chunk size UTF-8 failed: " +:+ error))
    (string_from_utf8 size_line);
  let size_text := trim (default "" (head (split_on ";" size_line))) in
  size <-? of_library (fun error => panel_error "http" ("chunk size invalid: " +:+ error))
    (usize_from_hex size_text);
  let cursor := line_end + 2 in
  if size =? 0 then Ok None
  else
    let chunk_end := usize_saturating_add cursor size in
    if len bytes <? chunk_end then Err (panel_error "http" "chunk body is incomplete")
    else
      chunk <-? slice bytes cursor chunk_end;
      let cursor := usize_saturating_add chunk_end 2 in
      if len bytes <? cursor then Err (panel_error "http" "chunk delimiter is incomplete")
      else Ok (Some (chunk, cursor)).

(** The loop; a round moves the cursor, so [length bytes + 1] rounds are enough. *)
Fixpoint decode_chunks (fuel : nat) (bytes : list Z) (cursor : Z) (decoded : list Z)
  : result PanelApiError (list Z) :=
  match fuel with
  | O => Panic
  | S fuel' =>
      chunk <-? read_chunk bytes cursor;
      match chunk with
      | None => Ok decoded
      | Some (chunk, cursor) => decode_chunks fuel' bytes cursor (decoded ++ chunk)
      end
  end.

Definition decode_chunked_body (bytes : list Z) : result PanelApiError (list Z) :=
  decode_chunks (S (length bytes)) bytes 0 [].

Definition response_status_line (headers : string) : option Z :=
  line ← head (lines headers);
  word ← split_whitespace line !! 1%nat;
  parse_u16 word.

Definition is_chunked (headers : string) : bool :=
  default false
    ((fun value => contains (to_ascii_lowercase value) "chunked") <$>
     header_value headers "transfer-encoding").

Definition parse_http_response (bytes : list Z) : result PanelApiError PanelApiResponse :=
  header_end <-? ok_or (panel_error "http" "response header is incomplete") (find_header_end bytes);
  headers <-? slice bytes 0 header_end;
  let headers := from_utf8_lossy headers in
  status <-? ok_or (panel_error "http" "response status is invalid") (response_status_line headers);
  body <-? slice bytes (header_end + 4) (len bytes);
  body <-?
    (if is_chunked headers then decode_chunked_body body
     else
       match header_value headers "content-length" ≫= parse_usize with
       | Some content_length => Ok (take (Z.to_nat (Z.min content_length (len body))) body)
       | None => Ok body
       end);
  body <-? of_library (fun error => panel_error "utf8" ("response body UTF-8 failed: " +:+ error))
    (string_from_utf8 body);
  Ok (mkApiResponse status body).

Section Stream.
Context {S : Type} {Reader : RawRead S} {Writer : Write S}.

(** The loop; a round that goes on adds a byte, so [limit + 1] rounds are enough. *)
Fixpoint read_limited (fuel : nat) (max_bytes : Z) (bytes : list Z) : SM S PanelApiError (list Z) :=
  match fuel with
  | O => sm_lift Panic
  | Datatypes.S fuel' =>
      buffer <-! sm_zoom id (fun s _ => s)
        (fun error => panel_error "network" ("read response failed: " +:+ io_message error))
        (raw_read 8192);
      if len buffer =? 0 then sm_ret bytes
      else
        let bytes := bytes ++ buffer in
        if usize_saturating_add max_bytes 65536 <? len bytes then
          sm_lift (Err (panel_error "body-too-large"
                          ("response exceeded " +:+ to_decimal max_bytes +:+ " bytes")))
        else read_limited fuel' max_bytes bytes
  end.

Definition read_limited_response (max_bytes : Z) : SM S PanelApiError (list Z) :=
  read_limited (Z.to_nat (usize_saturating_add max_bytes 65536 + 1)) max_bytes [].

End Stream.

(** ** The request *)

Section Request.
Context {Lib : PanelLibrary}.

Definition method_name (method : PanelHttpMethod) : string :=
  match method with Get => "GET" | Post => "POST" end.

Definition request_target (url : Url) : string :=
  match url_query url with
  | Some query => url_path url +:+ "?" +:+ query
  | None => if String.eqb (url_path url) "" then "/" else url_path url
  end.

(** [env!("CARGO_PKG_VERSION")]. *)
Definition CARGO_PKG_VERSION : string := "0.1.425".

Definition http_request_bytes (request : PanelApiRequest) (url : Url)
  : result PanelApiError (list Z) :=
  let method := method_name (api_method request) in
  let target := request_target url in
  host <-? ok_or (panel_error "endpoint" "request URL has no host") (url_host_str url);
  let host_header :=
    match url_port url with Some port => host +:+ ":" +:+ to_decimal port | None => host end in
  body <-?
    match api_body request with
    | Some body =>
        of_library (fun error => panel_error "json-encode" ("request JSON encode failed: " +:+ error))
          (json_to_string body)
    | None => Ok ""
    end;
  let headers :=
    method +:+ " " +:+ target +:+ " HTTP/1.1" +:+ crlf +:+ "Host: " +:+ host_header +:+ crlf
    +:+ "User-Agent: keli-native-client/" +:+ CARGO_PKG_VERSION +:+ crlf
    +:+ "Accept: application/json, text/plain, */*" +:+ crlf
    +:+ "Accept-Encoding: identity" +:+ crlf +:+ "Connection: close" +:+ crlf in
  let headers :=
    match authorization request with
    | Some authorization => headers +:+ "Authorization: " +:+ authorization +:+ crlf
    | None => headers
    end in
  let headers :=
    match api_body request with
    | Some _ =>
        headers +:+ "Content-Type: application/json" +:+ crlf
        +:+ "Content-Length: " +:+ to_decimal (len (as_bytes body)) +:+ crlf
    | None => headers
    end in
  let headers := headers +:+ crlf in
  Ok (as_bytes headers ++ as_bytes body).

(** ** The exchange *)

Definition on_stream {S A} (text : string) (m : SM S IoError A) : SM S PanelApiError A :=
  sm_zoom id (fun s _ => s) (fun error => panel_error "network" (text +:+ io_message error)) m.

Definition write_and_read_http {S} {Reader : RawRead S} {Writer : Write S}
  (request : PanelApiRequest) (url : Url) (max_bytes : Z) : SM S PanelApiError PanelApiResponse :=
  request_bytes <-! sm_lift (http_request_bytes request url);
  do! on_stream "write request failed: " (write_all request_bytes);
  do! on_stream "flush request failed: " flush;
  response_bytes <-! read_limited_response max_bytes;
  sm_lift (parse_http_response response_bytes).

Section Exchange.
Context {W : Type} {Net : PanelNetwork W}.

Fixpoint panel_connect_addresses (addresses : list SocketAddr) (timeout : Z) (last_error : option IoError)
  : SM W PanelApiError PanelTcp :=
  match addresses with
  | [] =>
      sm_lift (Err (panel_error "network"
        ("connect failed: " +:+ default "no resolved addresses" (io_message <$> last_error))))
  | address :: addresses' => fun w =>
      match panel_connect_timeout address timeout w with
      | (w, Ok stream) => (w, Ok stream)
      | (w, Err error) => panel_connect_addresses addresses' timeout (Some error) w
      | (w, Panic) => (w, Panic)
      end
  end.

Definition connect_tcp (host : string) (port timeout : Z) : SM W PanelApiError PanelTcp :=
  addresses <-! on_stream "resolve failed: " (resolve_addresses host port);
  panel_connect_addresses addresses timeout None.

(** A computation on a stream that the caller owns and drops at the end. *)
Definition on_owned {S A} (stream : S) (m : SM S PanelApiError A) : SM W PanelApiError (S * A) :=
  fun w => let '(stream, r) := m stream in (w, result_map (pair stream) r).

Definition send_blocking_http_request (request : PanelApiRequest) (timeout max_bytes : Z)
  : SM W PanelApiError PanelApiResponse :=
  url <-! sm_lift
    (of_library (fun error => panel_error "endpoint" ("invalid request URL: " +:+ error))
       (url_parse (api_url request)));
  host <-! sm_lift (ok_or (panel_error "endpoint" "request URL has no host") (url_host_str url));
  port <-! sm_lift
    (ok_or (panel_error "endpoint" "request URL has no port") (url_port_or_known_default url));
  tcp <-! connect_tcp host port timeout;
  '(tcp, _) <-! on_owned tcp
    (on_stream "set read timeout failed: " (panel_set_read_timeout (Some timeout)));
  '(tcp, _) <-! on_owned tcp
    (on_stream "set write timeout failed: " (panel_set_write_timeout (Some timeout)));
  if String.eqb (url_scheme url) "http" then
    '(_, response) <-! on_owned tcp (write_and_read_http request url max_bytes);
    sm_ret response
  else if String.eqb (url_scheme url) "https" then
    do! sm_lift
      (match server_name_error host with
       | Some error => Err (panel_error "tls" ("invalid TLS server name: " +:+ error))
       | None => Ok tt
       end);
    do! sm_lift
      (match tls_versions_error with
       | Some error => Err (panel_error "tls" ("TLS versions failed: " +:+ error))
       | None => Ok tt
       end);
    tls <-! sm_lift
      (of_library (fun error => panel_error "tls" ("TLS connect failed: " +:+ error))
         (client_connection host tcp));
    '(_, response) <-! on_owned tls (write_and_read_http request url max_bytes);
    sm_ret response
  else
    sm_lift (Err (panel_error "endpoint"
                    ("unsupported request URL scheme: " +:+ url_scheme url))).

(** [PanelHttpTransport]; times are in seconds. *)
Record PanelHttpTransport : Type := mkHttpTransport {
  transport_timeout : Z;
  transport_max_bytes : Z
}.

Definition PanelHttpTransport_default : PanelHttpTransport := mkHttpTransport 15 4194304.

Definition with_timeout (timeout : Z) (self : PanelHttpTransport) : PanelHttpTransport :=
  mkHttpTransport timeout (transport_max_bytes self).

Definition with_max_bytes (max_bytes : Z) (self : PanelHttpTransport) : PanelHttpTransport :=
  mkHttpTransport (transport_timeout self) max_bytes.

Definition http_transport (self : PanelHttpTransport) : PanelApiTransport W :=
  {| send := fun request =>
       send_blocking_http_request request (transport_timeout self) (transport_max_bytes self) |}.

End Exchange.
End Request.
