(* ===== verification/PanelSpec.v ===== *)
(** * What the panel client promises

    A response is understood in both framings and never makes the client panic or loop;
    the session's token goes to the session's own panel and nowhere else. *)

From Stdlib Require Import Ascii.
From stdpp Require Import base strings list numbers.
From S2P Require Import Prelude.
From S2P Require Import StdNet.
From S2P Require Import StdIo.
From S2P Require Import StdText.
From S2P Require Import HttpProxy.
From S2P Require Import Subscription.
From S2P Require Import SubscriptionSpec.
From S2P Require Import Panel.
From S2P Require Import PanelHttp.
#[local] Open Scope Z_scope.

(** ** Searching *)

Lemma find_window_bound needle l i :
  find_window needle l = Some i -> 0 <= i /\ i + len needle <= len l.
Proof.
  revert i. induction l as [|x l IH]; intros i; cbn [find_window]; case_bool_decide as Ht; try done.
  - intros [= <-]. rewrite <- Ht, take_nil. done.
  - intros [= <-]. split; [lia|]. apply (f_equal length) in Ht. rewrite length_take in Ht.
    unfold len. lia.
  - destruct (find_window needle l) as [j|]; [|done]. intros [= <-].
    destruct (IH j eq_refl). rewrite len_cons. lia.
Qed.

Lemma find_window_app needle l r i :
  find_window needle l = Some i -> find_window needle (l ++ r) = Some i.
Proof.
  revert i. induction l as [|x l IH]; intros i.
  - cbn [find_window]. case_bool_decide as Ht; [|done]. intros [= <-]. rewrite take_nil in Ht.
    subst needle. by destruct r.
  - pose proof (find_window_bound needle (x :: l) i) as Hb. cbn [find_window app] in *.
    case_bool_decide as Ht.
    + intros [= <-]. rewrite bool_decide_true; [done|].
      rewrite <- Ht at 2. change (x :: l ++ r) with ((x :: l) ++ r).
      rewrite take_app_le; [done|]. apply (f_equal length) in Ht. rewrite length_take in Ht. lia.
    + destruct (find_window needle l) as [j|] eqn:Hj; [|done]. intros [= <-].
      specialize (Hb eq_refl). rewrite len_cons in Hb. rewrite bool_decide_false.
      * by rewrite (IH j eq_refl).
      * change (x :: l ++ r) with ((x :: l) ++ r). rewrite take_app_le; [done|].
        unfold len in Hb. cbn [length]. lia.
Qed.

Lemma find_crlf_line line r : 13 ∉ line -> find_crlf (line ++ [13; 10] ++ r) = Some (len line).
Proof.
  unfold find_crlf. induction line as [|b line IH]; intros Hn; [done|].
  rewrite <- app_comm_cons. cbn [find_window]. apply not_elem_of_cons in Hn as [Hb Hn].
  rewrite bool_decide_false by (destruct line; cbn; congruence).
  rewrite IH by done. rewrite len_cons. cbn. f_equal. lia.
Qed.

Lemma slice_mid {E A} (p x r : list A) :
  @slice E A (p ++ x ++ r) (len p) (len p + len x) = Ok x.
Proof.
  unfold slice. pose proof (len_nonneg p). pose proof (len_nonneg x). pose proof (len_nonneg r).
  rewrite !len_app. unfold sub_list.
  replace ((0 <=? len p) && (len p <=? len p + len x) && (len p + len x <=? len p + (len x + len r)))
    with true by lia.
  f_equal. replace (Z.to_nat (len p)) with (length p) by (unfold len; lia).
  rewrite drop_app_length. replace (Z.to_nat (len p + len x - len p)) with (length x) by (unfold len; lia).
  by rewrite take_app_length.
Qed.

(** ** Chunks *)

(** A chunk as a server writes it: a line with the size in hexadecimal and, after a
    semicolon, extensions; the data; any two bytes where the line break belongs. *)
Record Chunk : Type := mkChunk { size_line : list Z; chunk_data : list Z; chunk_end : list Z }.

Definition denotes (line : list Z) (n : Z) : Prop :=
  (13 ∉ line) /\ utf8_valid line = true /\
  usize_from_hex (trim (default "" (head (split_on ";" (string_of_bytes line))))) = inr n.

Definition chunk_ok (chunk : Chunk) : Prop :=
  denotes (size_line chunk) (len (chunk_data chunk)) /\ chunk_data chunk <> [] /\
  length (chunk_end chunk) = 2%nat.

Definition chunk_bytes (chunk : Chunk) : list Z :=
  size_line chunk ++ [13; 10] ++ chunk_data chunk ++ chunk_end chunk.

(** The bytes of a body: its chunks, a line with size zero, and what follows it. *)
Definition chunked_body (chunks : list Chunk) (last_line trailer : list Z) : list Z :=
  concat (map chunk_bytes chunks) ++ last_line ++ [13; 10] ++ trailer.

Definition vec_limit : Z := i64_max.

Lemma string_from_utf8_valid l : utf8_valid l = true -> string_from_utf8 l = inr (string_of_bytes l).
Proof. intros H%utf8_error_none. unfold string_from_utf8. by rewrite H. Qed.

Lemma slice_rest {E A} (pre rest : list A) : @slice E A (pre ++ rest) (len pre) (len (pre ++ rest)) = Ok rest.
Proof. apply slice_app_tail; [done|]. apply len_app. Qed.

(** What a round of the loop does after the size line. *)
Lemma read_chunk_line pre line n rest :
  denotes line n ->
  let bytes := pre ++ line ++ [13; 10] ++ rest in
  read_chunk bytes (len pre) =
  (let cursor := len line + len pre + 2 in
   if n =? 0 then Ok None
   else
     let chunk_end := usize_saturating_add cursor n in
     if len bytes <? chunk_end then Err (panel_error "http" "chunk body is incomplete")
     else
       chunk <-? slice bytes cursor chunk_end;
       let cursor := usize_saturating_add chunk_end 2 in
       if len bytes <? cursor then Err (panel_error "http" "chunk delimiter is incomplete")
       else Ok (Some (chunk, cursor))).
Proof.
  intros (H13 & Hutf & Hsize). cbn zeta. unfold read_chunk.
  rewrite slice_rest. cbn [result_bind]. rewrite find_crlf_line by done. cbn [ok_or result_bind].
  rewrite (Z.add_comm (len line)), slice_mid. cbn [result_bind].
  rewrite string_from_utf8_valid by done. cbn [of_library result_bind]. rewrite Hsize.
  reflexivity.
Qed.

Lemma read_chunk_data pre chunk rest :
  chunk_ok chunk -> len (pre ++ chunk_bytes chunk ++ rest) <= vec_limit ->
  read_chunk (pre ++ chunk_bytes chunk ++ rest) (len pre) =
  Ok (Some (chunk_data chunk, len (pre ++ chunk_bytes chunk))).
Proof.
  destruct chunk as [line data delim]. intros (Hd & Hne & H2) Hlim. cbn [size_line chunk_data chunk_end] in *.
  unfold chunk_bytes in *. cbn [size_line chunk_data chunk_end] in *.
  assert (Hbytes : pre ++ (line ++ [13; 10] ++ data ++ delim) ++ rest =
                   pre ++ line ++ [13; 10] ++ (data ++ delim ++ rest)) by (by rewrite <- !app_assoc).
  rewrite Hbytes in *. rewrite read_chunk_line with (n := len data) by done. cbn zeta.
  assert (0 < len data) by (destruct data; [done|]; rewrite len_cons; pose proof (len_nonneg data); lia).
  assert (Hdelim : len delim = 2) by (unfold len; lia).
  replace (len data =? 0) with false by lia.
  rewrite !len_app, Hdelim in *. change (len [13; 10]) with 2 in *.
  pose proof (len_nonneg pre). pose proof (len_nonneg line). pose proof (len_nonneg rest).
  unfold usize_saturating_add, usize_max, vec_limit, i64_max in *.
  rewrite !Z.min_r by lia.
  replace (_ <? len line + len pre + 2 + len data) with false by lia.
  rewrite (app_assoc pre), (app_assoc (pre ++ line)).
  replace (len line + len pre + 2) with (len ((pre ++ line) ++ [13; 10]))
    by (rewrite !len_app; change (len [13; 10]) with 2; lia).
  rewrite slice_mid. cbn [result_bind]. rewrite !len_app. change (len [13; 10]) with 2.
  replace (_ <? len pre + len line + 2 + len data + 2) with false by lia.
  do 3 f_equal. lia.
Qed.

Lemma read_chunk_last pre line trailer :
  denotes line 0 -> read_chunk (pre ++ line ++ [13; 10] ++ trailer) (len pre) = Ok None.
Proof. intros Hd. by rewrite read_chunk_line with (n := 0). Qed.

Lemma decode_chunks_body fuel pre chunks line trailer decoded :
  Forall chunk_ok chunks -> denotes line 0 -> (length chunks < fuel)%nat ->
  len (pre ++ chunked_body chunks line trailer) <= vec_limit ->
  decode_chunks fuel (pre ++ chunked_body chunks line trailer) (len pre) decoded =
  Ok (decoded ++ concat (map chunk_data chunks)).
Proof.
  intros Hc Hl. revert fuel pre decoded.
  induction Hc as [|chunk chunks Hchunk Hc IH]; intros fuel pre decoded Hf Hlim;
    (destruct fuel as [|fuel]; [cbn in Hf; lia|]); cbn [decode_chunks].
  - change (chunked_body [] line trailer) with (line ++ [13; 10] ++ trailer).
    rewrite read_chunk_last by done. cbn. by rewrite app_nil_r.
  - assert (Hsplit : pre ++ chunked_body (chunk :: chunks) line trailer =
                     pre ++ chunk_bytes chunk ++ chunked_body chunks line trailer)
      by (unfold chunked_body; cbn [map concat]; by rewrite <- !app_assoc).
    rewrite Hsplit in *. rewrite read_chunk_data by done. cbn [result_bind].
    rewrite app_assoc in *. rewrite IH; [|cbn in Hf; lia|done]. cbn [map concat]. by rewrite <- app_assoc.
Qed.

(** A chunk takes a byte at least, and its data. *)
Lemma chunk_count chunks : Forall chunk_ok chunks -> (length chunks <= length (concat (map chunk_bytes chunks)))%nat.
Proof.
  intros Hc. induction Hc as [|chunk chunks (_ & Hne & _) _ IH]; [done|]. cbn [map concat length].
  rewrite length_app. unfold chunk_bytes at 1. rewrite !length_app. cbn [length].
  destruct (chunk_data chunk); [done|]. cbn [length]. lia.
Qed.

Lemma chunk_data_size chunks : len (concat (map chunk_data chunks)) <= len (concat (map chunk_bytes chunks)).
Proof.
  induction chunks as [|chunk chunks IH]; [done|]. cbn [map concat]. unfold chunk_bytes at 1.
  rewrite !len_app. pose proof (len_nonneg (size_line chunk)). pose proof (len_nonneg (chunk_end chunk)).
  change (len [13; 10]) with 2. lia.
Qed.

Lemma decode_chunked_body_ok chunks line trailer :
  Forall chunk_ok chunks -> denotes line 0 -> len (chunked_body chunks line trailer) <= vec_limit ->
  decode_chunked_body (chunked_body chunks line trailer) = Ok (concat (map chunk_data chunks)).
Proof.
  intros Hc Hl Hlim. unfold decode_chunked_body.
  apply (decode_chunks_body _ [] chunks line trailer []); [done..| |done].
  pose proof (chunk_count chunks Hc).
  unfold chunked_body. rewrite length_app. lia.
Qed.

(** ** Responses *)

Definition blank_line : list Z := [13; 10; 13; 10].

(** A header as a list of bytes with its status; the blank line ends it and is not
    earlier in it. *)
Definition head_ok (head : list Z) (status : Z) : Prop :=
  utf8_valid head = true /\ find_header_end (head ++ blank_line) = Some (len head) /\
  response_status_line (string_of_bytes head) = Some status.

Lemma from_utf8_lossy_valid l : utf8_valid l = true -> from_utf8_lossy l = string_of_bytes l.
Proof. intros H%utf8_error_none. unfold from_utf8_lossy. cbn [lossy_bytes]. by rewrite H. Qed.

(** The steps of [parse_http_response] up to the body. *)
Lemma parse_http_response_head head status body :
  head_ok head status ->
  parse_http_response (head ++ blank_line ++ body) =
  (decoded <-?
     (if is_chunked (string_of_bytes head) then decode_chunked_body body
      else
        match header_value (string_of_bytes head) "content-length" ≫= parse_usize with
        | Some content_length => Ok (take (Z.to_nat (Z.min content_length (len body))) body)
        | None => Ok body
        end);
   text <-? of_library (fun error => panel_error "utf8" ("response body UTF-8 failed: " +:+ error))
     (string_from_utf8 decoded);
   Ok (mkApiResponse status text)).
Proof.
  intros (Hutf & Hend & Hstatus). unfold parse_http_response.
  rewrite app_assoc, (find_window_app _ _ _ _ Hend), <- app_assoc. cbn [ok_or result_bind].
  pose proof (slice_mid (E := PanelApiError) [] head (blank_line ++ body)) as Hs.
  change (len (@nil Z)) with 0 in Hs. rewrite Z.add_0_l in Hs. cbn [app] in Hs.
  rewrite Hs. cbn [result_bind]. rewrite from_utf8_lossy_valid, Hstatus by done.
  cbn [ok_or result_bind].
  rewrite (app_assoc head), (slice_app_tail (head ++ blank_line) body);
    [reflexivity|by rewrite len_app|by rewrite len_app].
Qed.

(** ** Totality *)

Lemma hex_digits_nonneg value s n : 0 <= value -> hex_digits value s = inr n -> 0 <= n.
Proof.
  revert value. induction s as [|a s IH]; intros value Hv; cbn [hex_digits]; [by intros [= <-]|].
  destruct (to_digit 16 a) as [d|] eqn:Hd; [|done]. apply to_digit_nonneg in Hd.
  case_match; [done|]. apply IH. lia.
Qed.

Lemma usize_from_hex_nonneg s n : usize_from_hex s = inr n -> 0 <= n.
Proof.
  unfold usize_from_hex. intros H. repeat case_match; try done; by eapply hex_digits_nonneg; [|exact H].
Qed.

Lemma read_chunk_returns bytes cursor :
  len bytes <= vec_limit -> 0 <= cursor <= len bytes ->
  returns (read_chunk bytes cursor)
    (fun chunk => match chunk with
                  | Some (_, next) => cursor < next <= len bytes
                  | None => True
                  end).
Proof.
  intros Hlim Hc. unfold read_chunk.
  rewrite slice_ok by lia. cbn [result_bind].
  destruct (find_crlf (sub_list bytes cursor (len bytes))) as [i|] eqn:Hi; [|done]. cbn [ok_or result_bind].
  apply find_window_bound in Hi as [Hi0 Hi]. rewrite len_sub_list in Hi by lia.
  change (len [13; 10]) with 2 in Hi. rewrite slice_ok by lia. cbn [result_bind].
  destruct (string_from_utf8 _); [done|]. cbn [of_library result_bind].
  destruct (usize_from_hex _) as [|size] eqn:Hsize; [done|]. cbn [of_library result_bind].
  destruct (size =? 0) eqn:H0; [done|].
  assert (0 <= size) by (by eapply usize_from_hex_nonneg).
  unfold usize_saturating_add, usize_max, vec_limit, i64_max in *.
  destruct (len bytes <? _) eqn:Hb; [done|]. rewrite slice_ok by lia. cbn [result_bind].
  case_match; [done|]. cbn [returns]. lia.
Qed.

Lemma decode_chunks_total fuel bytes cursor decoded :
  len bytes <= vec_limit -> 0 <= cursor <= len bytes -> len bytes - cursor < Z.of_nat fuel ->
  decode_chunks fuel bytes cursor decoded <> Panic.
Proof.
  intros Hlim. revert cursor decoded. induction fuel as [|fuel IH]; intros cursor decoded Hc Hf; [lia|].
  cbn [decode_chunks]. pose proof (read_chunk_returns bytes cursor Hlim Hc) as Hr.
  destruct (read_chunk bytes cursor) as [[[chunk next]|]| |]; cbn in *; try done. apply IH; lia.
Qed.

Lemma parse_http_response_total bytes : len bytes <= vec_limit -> parse_http_response bytes <> Panic.
Proof.
  intros Hlim. unfold parse_http_response.
  destruct (find_header_end bytes) as [i|] eqn:Hi; [|done]. cbn [ok_or result_bind].
  apply find_window_bound in Hi as [Hi0 Hi]. change (len [13; 10; 13; 10]) with 4 in Hi.
  rewrite slice_ok by lia. cbn [result_bind].
  destruct (response_status_line _); [|done]. cbn [ok_or result_bind]. rewrite slice_ok by lia.
  cbn [result_bind]. set (body := sub_list bytes (i + 4) (len bytes)).
  assert (Hbody : len body <= vec_limit) by (unfold body; rewrite len_sub_list by lia; lia).
  apply bind_total.
  - clearbody body. pose proof (len_nonneg body). unfold decode_chunked_body.
    repeat case_match; try done. apply decode_chunks_total; [exact Hbody|lia|]. unfold len. lia.
  - intros decoded. by destruct (string_from_utf8 decoded).
Qed.

(** ** Exchanges *)

Definition never_panics {S E A} (m : SM S E A) : Prop := forall s, snd (m s) <> Panic.

Definition anywhere {S} (s : S) : Prop := True.

Lemma safe_never_panics {S E A} (m : SM S E A) Q : safe anywhere m Q -> never_panics m.
Proof. intros Hm s. destruct (Hm s I) as [_ Hr]. by destruct (snd (m s)). Qed.

Lemma on_stream_safe {S A} text (m : SM S IoError A) :
  never_panics m -> safe anywhere (on_stream text m) (fun _ _ => True).
Proof.
  intros Hm. unfold on_stream. apply (safe_zoom anywhere id (fun s _ => s) _ m (fun _ => True)).
  intros s _. split; [done|]. specialize (Hm s). unfold id. by destruct (snd (m s)).
Qed.

Section Exchanges.
Context {S : Type} {Reader : RawRead S} {Writer : Write S}.
Context (Hread : never_panics (raw_read (S := S) 8192)).

Lemma read_limited_safe fuel max_bytes bytes :
  let limit := usize_saturating_add max_bytes 65536 in
  len bytes <= limit -> limit - len bytes < Z.of_nat fuel ->
  safe anywhere (read_limited (S := S) fuel max_bytes bytes) (fun result _ => len result <= limit).
Proof.
  cbn zeta. revert bytes. induction fuel as [|fuel IH]; intros bytes Hb Hf; [lia|].
  cbn [read_limited]. eapply safe_bind with (P := fun _ => True).
  - by apply (on_stream_safe "read response failed: ").
  - intros buffer _. destruct (len buffer =? 0) eqn:H0.
    { intros s _. done. }
    pose proof (len_nonneg buffer).
    destruct (_ <? len (bytes ++ buffer)) eqn:Hl; [intros s _; done|].
    apply IH; rewrite len_app in *; lia.
Qed.

Lemma read_limited_response_safe max_bytes :
  0 <= max_bytes ->
  safe anywhere (read_limited_response (S := S) max_bytes)
    (fun bytes _ => len bytes <= usize_saturating_add max_bytes 65536).
Proof.
  intros Hm. unfold read_limited_response. apply read_limited_safe; rewrite len_nil;
    unfold usize_saturating_add, usize_max; lia.
Qed.

Lemma http_request_bytes_total {Lib : PanelLibrary} request url : http_request_bytes request url <> Panic.
Proof.
  unfold http_request_bytes. apply bind_total; [by destruct (url_host_str url)|]. intros host.
  apply bind_total; [|by destruct (authorization request), (api_body request)].
  destruct (api_body request) as [body|]; [by destruct (json_to_string body)|done].
Qed.

Context (Hwrite : forall bytes, never_panics (write_all (S := S) bytes)).
Context (Hflush : never_panics (flush (S := S))).

(** C12: An exchange with the panel ends without a panic, whatever the server sends and
    however the stream fails, and never takes more than the limit and 64 KiB: for a limit
    below 2^62, the loop that reads the answer ends, and no header, status line, chunk or
    body the server chooses makes the parser index out of bounds. *)
Theorem panel_exchange_safe {Lib : PanelLibrary} request url max_bytes :
  0 <= max_bytes < 2 ^ 62 ->
  never_panics (write_and_read_http (S := S) request url max_bytes) /\
  safe anywhere (read_limited_response (S := S) max_bytes) (fun bytes _ => len bytes <= max_bytes + 65536).
Proof.
  intros Hm. pose proof (read_limited_response_safe max_bytes ltac:(lia)) as Hr. split.
  - apply safe_never_panics with (Q := fun _ _ => True). unfold write_and_read_http.
    apply safe_bind with (P := fun _ => True).
    { apply (safe_lift anywhere _ (fun _ => True)). pose proof (http_request_bytes_total request url).
      by destruct (http_request_bytes request url). }
    intros bytes _. apply safe_bind with (P := fun _ => True); [by apply on_stream_safe|]. intros _ _.
    apply safe_bind with (P := fun _ => True); [by apply on_stream_safe|]. intros _ _.
    eapply safe_bind; [exact Hr|]. intros answer Ha.
    apply (safe_lift anywhere _ (fun _ => True)).
    pose proof (parse_http_response_total answer) as Ht.
    unfold vec_limit, i64_max, usize_saturating_add, usize_max in *.
    destruct (parse_http_response answer); try done. apply Ht; [lia|done].
  - eapply safe_mono; [exact Hr|]. cbn. intros bytes _ _. unfold usize_saturating_add, usize_max. lia.
Qed.

End Exchanges.

(** ** The token *)

Section Token.
Context {Lib : PanelLibrary} {W : Type} {Transport : PanelApiTransport W}.

(** A transport that keeps the requests it was given. *)
Definition logged : PanelApiTransport (W * list PanelApiRequest) :=
  {| send := fun request '(w, log) => let '(w, r) := send request w in ((w, log ++ [request]), r) |}.

(** The calls of a [PanelApiClient]. *)
Inductive ClientCall : Type :=
| CallLogin (email password : string)
| CallBootstrap (session : PanelSession)
| CallServerConfig (session : PanelSession) (server_id : Z) (platform : string)
    (core_version : option string)
| CallBatchConfig (session : PanelSession) (platform : string) (core_version : option string).

Definition perform (api_base : string) (call : ClientCall)
  : SM (W * list PanelApiRequest) PanelApiError unit :=
  match call with
  | CallLogin email password => do! login (Transport := logged) api_base email password; sm_ret tt
  | CallBootstrap session => do! bootstrap (Transport := logged) api_base session; sm_ret tt
  | CallServerConfig session server_id platform core_version =>
      do! sing_box_config_for_server (Transport := logged) api_base session server_id platform
            core_version;
      sm_ret tt
  | CallBatchConfig session platform core_version =>
      do! sing_box_batch_config (Transport := logged) api_base session platform core_version;
      sm_ret tt
  end.

(** Where a request may go: without a session, to the client's own base URL and without
    an authorization; with one, to the session's base URL and prefix, with its token. *)
Definition request_allowed (api_base : string) (session : option PanelSession)
  (request : PanelApiRequest) : Prop :=
  match session with
  | None =>
      authorization request = None /\
      exists prefix path query, build_url api_base prefix path query = Ok (api_url request)
  | Some session =>
      authorization request = Some (authorization_header session) /\
      exists path query,
        build_url (session_api_base session) (session_api_prefix session) path query =
        Ok (api_url request)
  end.

Definition session_of (call : ClientCall) : option PanelSession :=
  match call with
  | CallLogin _ _ => None
  | CallBootstrap session | CallServerConfig session _ _ _ | CallBatchConfig session _ _ => Some session
  end.

(** The computation only adds requests that are allowed. *)
Definition only_sends {A} (P : PanelApiRequest -> Prop)
  (m : SM (W * list PanelApiRequest) PanelApiError A) : Prop :=
  forall w log, exists sent, snd (fst (m (w, log))) = log ++ sent /\ Forall P sent.

Lemma only_sends_lift {A} P (r : result PanelApiError A) : only_sends P (sm_lift r).
Proof. intros w log. exists []. by rewrite app_nil_r. Qed.

Lemma only_sends_ret {A} P (a : A) : only_sends P (sm_ret a).
Proof. intros w log. exists []. by rewrite app_nil_r. Qed.

Lemma only_sends_bind {A B} P (m : SM _ _ A) (k : A -> SM _ _ B) :
  only_sends P m -> (forall a, only_sends P (k a)) -> only_sends P (sm_bind m k).
Proof.
  intros Hm Hk w log. unfold sm_bind. destruct (Hm w log) as (sent & Hs & HP).
  destruct (m (w, log)) as [[w' log'] [a|e|]]; cbn in *; subst log'; [|by exists sent..].
  destruct (Hk a w' (log ++ sent)) as (more & -> & Hmore). exists (sent ++ more).
  rewrite app_assoc. split; [done|]. by apply Forall_app.
Qed.

Lemma only_sends_request api_base session request :
  (session = None -> authenticated request = false) -> (is_Some session -> authenticated request = true) ->
  only_sends (request_allowed api_base session)
    (send_request (Transport := logged) api_base session request).
Proof.
  intros Hn Hs w log. unfold send_request, sm_bind, sm_lift. cbn.
  destruct session as [session|]; [rewrite Hs by done|rewrite Hn by done];
    cbn [default fmap option_fmap option_map];
    destruct (build_url _ _ _ _) as [url|e|] eqn:Hurl; cbn;
    try (by exists []; rewrite app_nil_r);
    destruct (send _ w) as [w' r]; cbn; (eexists [_]; split; [reflexivity|]);
    (constructor; [|constructor]); cbn; eauto.
Qed.

(** The requests of a call, one after the other. *)
Ltac sends :=
  repeat lazymatch goal with
    | |- only_sends _ (send_request _ _ _) => apply only_sends_request; [done|done]
    | |- only_sends _ (sm_bind _ _) => apply only_sends_bind; [|intros ?]
    | |- only_sends _ (sm_lift _) => apply only_sends_lift
    | |- only_sends _ (sm_ret _) => apply only_sends_ret
    | |- only_sends _ (match _ with _ => _ end) => case_match
    end.

Lemma send_json_request_sends api_base session request operation :
  authenticated request = true ->
  only_sends (request_allowed api_base (Some session))
    (send_json_request (Transport := logged) api_base session request operation).
Proof.
  intros Ha. unfold send_json_request. apply only_sends_bind; [by apply only_sends_request|].
  intros response. sends.
Qed.

(** C11: Whatever the answers are, a login sends the password without any token and to the
    base URL of the client only, and every request of a session, the fallbacks of the
    bootstrap included, goes to the panel of that session and carries its token: no call
    sends a token anywhere else. *)
Theorem token_stays_with_its_panel api_base call w :
  Forall (request_allowed api_base (session_of call)) (snd (fst (perform api_base call (w, [])))).
Proof.
  assert (H : only_sends (request_allowed api_base (session_of call)) (perform api_base call)).
  { destruct call; cbn [perform session_of]; (apply only_sends_bind; [|intros ?; apply only_sends_ret]).
    - unfold login. sends.
    - unfold bootstrap, legacy_bootstrap. sends; by apply send_json_request_sends.
    - unfold sing_box_config_for_server, fetch_config. sends.
    - unfold sing_box_batch_config, fetch_config. sends. }
  destruct (H w []) as (sent & -> & HP). done.
Qed.

End Token.

(** ** Framings *)

(** How a server marks the end of a body: by its length (with bytes after it that do not
    count), by closing the connection, or in chunks. *)
Inductive Framing : Type :=
| ByLength (extra : list Z)
| ByClose
| ByChunks (chunks : list Chunk) (last_line trailer : list Z).

Definition framed (framing : Framing) (body : list Z) : list Z :=
  match framing with
  | ByLength extra => body ++ extra
  | ByClose => body
  | ByChunks chunks last_line trailer => chunked_body chunks last_line trailer
  end.

Definition announces (headers : string) (framing : Framing) (body : list Z) : Prop :=
  let content_length := header_value headers "content-length" ≫= parse_usize in
  match framing with
  | ByLength _ => is_chunked headers = false /\ content_length = Some (len body)
  | ByClose => is_chunked headers = false /\ content_length = None
  | ByChunks chunks last_line trailer =>
      is_chunked headers = true /\ Forall chunk_ok chunks /\ denotes last_line 0 /\
      concat (map chunk_data chunks) = body /\
      len (chunked_body chunks last_line trailer) <= vec_limit
  end.

(** A response is understood as the server meant it: its status, and its body whether
    the end is marked by a length, by the end of the connection or by chunks, with any
    spelling of the sizes, with extensions, and with whatever follows the last chunk. *)
Theorem panel_response_understood head status framing body :
  head_ok head status -> announces (string_of_bytes head) framing body -> utf8_valid body = true ->
  parse_http_response (head ++ blank_line ++ framed framing body) =
  Ok (mkApiResponse status (string_of_bytes body)).
Proof.
  intros Hh Ha Hutf. rewrite (parse_http_response_head head status) by done.
  destruct framing as [extra| |chunks last_line trailer]; cbn [announces framed] in *.
  - destruct Ha as [-> ->]. rewrite len_app. pose proof (len_nonneg extra).
    rewrite Z.min_l by lia. unfold len. rewrite Nat2Z.id, take_app_length.
    cbn [result_bind]. by rewrite string_from_utf8_valid.
  - destruct Ha as [-> ->]. cbn [result_bind]. by rewrite string_from_utf8_valid.
  - destruct Ha as (-> & Hc & Hl & Hb & Hlim). rewrite decode_chunked_body_ok, Hb by done.
    cbn [result_bind]. by rewrite string_from_utf8_valid.
Qed.

(** A body that is cut off before the announced length is not noticed: the bytes that
    arrived are returned as the whole answer. *)
Theorem truncated_body_accepted head status announced body :
  head_ok head status -> is_chunked (string_of_bytes head) = false ->
  header_value (string_of_bytes head) "content-length" ≫= parse_usize = Some announced ->
  len body < announced -> utf8_valid body = true ->
  parse_http_response (head ++ blank_line ++ body) =
  Ok (mkApiResponse status (string_of_bytes body)).
Proof.
  intros Hh Hc Hl Hlt Hutf. rewrite (parse_http_response_head head status), Hc, Hl by done.
  rewrite Z.min_r by lia. unfold len. rewrite Nat2Z.id, firstn_all.
  cbn [result_bind]. by rewrite string_from_utf8_valid.
Qed.

(** ** Witnesses *)

Definition chunked_head : list Z :=
  as_bytes ("HTTP/1.1 200 OK" +:+ crlf +:+ "Content-Type: application/json" +:+ crlf
            +:+ "Transfer-Encoding: chunked").

Definition length_head : list Z :=
  as_bytes ("HTTP/1.1 200 OK" +:+ crlf +:+ "Content-Length: 20").

Definition two_chunks : list Chunk :=
  [mkChunk (as_bytes "0005;x=y") (as_bytes "hello") [13; 10];
   mkChunk (as_bytes "A") (as_bytes ", panel :)") [13; 10]].

Lemma panel_response_understood_witness :
  parse_http_response
    (chunked_head ++ blank_line
     ++ chunked_body two_chunks (as_bytes "0") (as_bytes ("X-Trailer: 1" +:+ crlf +:+ crlf))) =
  Ok (mkApiResponse 200 "hello, panel :)").
Proof.
  apply (panel_response_understood chunked_head 200
           (ByChunks two_chunks (as_bytes "0") (as_bytes ("X-Trailer: 1" +:+ crlf +:+ crlf)))
           (as_bytes "hello, panel :)")).
  - split; [vm_compute; reflexivity|]. split; vm_compute; reflexivity.
  - assert (Hdec : forall line n,
      bool_decide (13 ∈ line) = false -> utf8_valid line = true ->
      usize_from_hex (trim (default "" (head (split_on ";" (string_of_bytes line))))) = inr n ->
      denotes line n).
    { intros line n Hin Hutf Hsize. apply bool_decide_eq_false_1 in Hin. repeat split; assumption. }
    split; [vm_compute; reflexivity|]. split; [|split; [|split; [vm_compute; reflexivity|vm_compute; discriminate]]].
    + do 2 (apply List.Forall_cons;
        [split; [apply Hdec; vm_compute; reflexivity|split; [discriminate|reflexivity]]|]).
      apply List.Forall_nil.
    + apply Hdec; vm_compute; reflexivity.
  - vm_compute. reflexivity.
Defined.

Lemma truncated_body_accepted_witness :
  parse_http_response (length_head ++ blank_line ++ as_bytes "proxies:") =
  Ok (mkApiResponse 200 "proxies:").
Proof.
  apply (truncated_body_accepted length_head 200 20 (as_bytes "proxies:"));
    [split; [vm_compute; reflexivity|split; vm_compute; reflexivity]|vm_compute; reflexivity..].
Defined.

(** A stream that has the answer ready and takes everything. *)
Definition ready_read : RawRead (list Z) :=
  {| raw_read := fun n s => (drop (Z.to_nat n) s, Ok (take (Z.to_nat n) s)) |}.

Definition ready_write : Write (list Z) :=
  {| write_all := fun _ s => (s, Ok tt); flush := fun s => (s, Ok tt) |}.

Definition sample_panel : PanelLibrary :=
  {| panel_number := Sample.number; panel_url := Sample.url_library;
     json_from_str := fun _ => inl "expected value"; json_to_string := fun _ => inr "null";
     unicode_lowercase := to_ascii_lowercase |}.

Definition sample_url : @Url (@panel_url sample_panel) :=
  Sample.mkSampleUrl "http" "" None (Some "panel.example") None None [].

Lemma panel_exchange_safe_witness :
  snd (write_and_read_http (Reader := ready_read) (Writer := ready_write) (Lib := sample_panel)
         (mkApiRequest (Lib := sample_panel) Get "http://panel.example/" None None) sample_url 100
         (length_head ++ blank_line ++ as_bytes "twenty bytes of text")) <> Panic.
Proof.
  apply (panel_exchange_safe (Reader := ready_read) (Writer := ready_write)).
  - intros s. discriminate.
  - intros bytes s. discriminate.
  - intros s. discriminate.
  - lia.
Defined.
