(* ===== verification/MixedMetrics.v ===== *)
(** * What the mixed inbound counts

    [crates/keli-cli/src/lib.rs], lines 816 to 1220: the counters of finished connections
    ([ConnectionMetrics]), the gauge of workers ([ConnectionWorkerGauge]) and the registry
    of the client connections being served ([ActiveConnectionRegistry]).

    The state behind a mutex is a value that an operation takes and gives back; the lock
    is not poisoned (no operation panics while it holds it). [now] is the clock reading of
    the call. *)

From stdpp Require Import base strings list numbers gmap.
From S2P Require Import Prelude.
From S2P Require Import Route.
From S2P Require Import TunPacket.
From S2P Require Import Relay.
#[local] Open Scope Z_scope.

Definition u64_max : Z := 18446744073709551615.
Definition u128_max : Z := 340282366920938463463374607431768211455.

(** [a.saturating_add(b)] on [u64] and on [u128]. *)
Definition saturating_add64 (a b : Z) : Z := Z.min u64_max (a + b).
Definition saturating_add128 (a b : Z) : Z := Z.min u128_max (a + b).

#[export] Instance ConnectionErrorKind_eq_dec : EqDecision ConnectionErrorKind.
Proof. solve_decision. Defined.

(** ** Counters *)

(** [ConnectionErrorKindCount], [ConnectionRouteActionCount], [ConnectionInboundCount]: what
    is counted, and how often. *)
Definition Counts (K : Type) : Type := list (K * Z).

(** The entry with the key, or a new one at the end. *)
Fixpoint count_one {K} `{EqDecision K} (key : K) (counts : Counts K) : Counts K :=
  match counts with
  | [] => [(key, 1)]
  | (k, n) :: counts' =>
      if decide (k = key) then (k, saturating_add64 n 1) :: counts'
      else (k, n) :: count_one key counts'
  end.

Record ConnectionMetricsState : Type := mkMetricsState {
  total_connection_count : Z;
  success_count : Z;
  failure_count : Z;
  connection_limit_rejection_count : Z;
  error_kind_counts : Counts ConnectionErrorKind;
  route_action_counts : Counts RouteAction;
  inbound_counts : Counts string;
  total_upload_bytes : Z;
  total_download_bytes : Z;
  total_connect_ms : Z;
  timed_connect_count : Z;
  total_first_byte_ms : Z;
  timed_first_byte_count : Z;
  last_connection_at : option Z;
  last_success_at : option Z;
  last_failure_at : option Z;
  recent_connections : list ConnectionReport
}.

#[export] Instance ConnectionMetricsState_settable : Settable ConnectionMetricsState := fun r =>
  mkMetricsState (total_connection_count r) (success_count r) (failure_count r)
    (connection_limit_rejection_count r) (error_kind_counts r) (route_action_counts r)
    (inbound_counts r) (total_upload_bytes r) (total_download_bytes r) (total_connect_ms r)
    (timed_connect_count r) (total_first_byte_ms r) (timed_first_byte_count r)
    (last_connection_at r) (last_success_at r) (last_failure_at r) (recent_connections r).

Definition MetricsState_default : ConnectionMetricsState :=
  mkMetricsState 0 0 0 0 [] [] [] 0 0 0 0 0 0 None None None [].

Definition MANAGED_CONNECTION_REPORT_HISTORY_LIMIT : Z := 64.

(** [history_limit.max(1)] of [ConnectionMetrics::new]. *)
Definition metrics_history_limit (history_limit : Z) : Z := Z.max history_limit 1.

(** [ConnectionMetrics::record], up to the report's place in the history. *)
Definition metrics_count (report : ConnectionReport) (now : Z) (state : ConnectionMetricsState)
  : ConnectionMetricsState :=
  let recorded_at := now in
  let state := state <| last_connection_at := Some recorded_at |> in
  let state := state <| total_connection_count := saturating_add64 (total_connection_count state) 1 |> in
  let state := state <| inbound_counts := count_one (report_inbound report) (inbound_counts state) |> in
  let state :=
    state <| route_action_counts :=
      count_one (report_route_action report) (route_action_counts state) |> in
  let state :=
    state <| total_upload_bytes :=
      saturating_add64 (total_upload_bytes state) (report_upload_bytes report) |> in
  let state :=
    state <| total_download_bytes :=
      saturating_add64 (total_download_bytes state) (report_download_bytes report) |> in
  let state :=
    match report_connect_ms report with
    | Some connect_ms =>
        state <| total_connect_ms := saturating_add128 (total_connect_ms state) connect_ms |>
              <| timed_connect_count := saturating_add64 (timed_connect_count state) 1 |>
    | None => state
    end in
  let state :=
    match report_first_byte_ms report with
    | Some first_byte_ms =>
        state <| total_first_byte_ms := saturating_add128 (total_first_byte_ms state) first_byte_ms |>
              <| timed_first_byte_count := saturating_add64 (timed_first_byte_count state) 1 |>
    | None => state
    end in
  let state :=
    match report_error_kind report with
    | Some error_kind =>
        let state := state <| failure_count := saturating_add64 (failure_count state) 1 |> in
        let state := state <| last_failure_at := Some recorded_at |> in
        let state := state <| error_kind_counts := count_one error_kind (error_kind_counts state) |> in
        if bool_decide (error_kind = ConnectionLimitReached) then
          state <| connection_limit_rejection_count :=
            saturating_add64 (connection_limit_rejection_count state) 1 |>
        else state
    | None =>
        let state := state <| success_count := saturating_add64 (success_count state) 1 |> in
        state <| last_success_at := Some recorded_at |>
    end in
  state <| recent_connections := recent_connections state ++ [report] |>.

(** The whole of it. *)
Definition metrics_record (history_limit : Z) (report : ConnectionReport) (now : Z)
  (state : ConnectionMetricsState) : ConnectionMetricsState :=
  let state := metrics_count report now state in
  if history_limit <? len (recent_connections state) then
    let overflow := len (recent_connections state) - history_limit in
    state <| recent_connections := drop (Z.to_nat overflow) (recent_connections state) |>
  else state.

(** ** Snapshots *)

Definition route_action_sort_key (action : RouteAction) : string :=
  match action with
  | Route_Direct => "0:direct"
  | Route_Block => "1:block"
  | Route_HijackDns => "2:hijack-dns"
  | Route_Outbound tag => "3:outbound:" +:+ tag
  end.

(** [entries.sort_by_key(key)]: a stable sort by the order of strings. *)
Fixpoint insert_by {A} (key : A -> string) (a : A) (l : list A) : list A :=
  match l with
  | [] => [a]
  | b :: l' => if String.ltb (key b) (key a) then b :: insert_by key a l' else a :: l
  end.

Definition sort_by_key {A} (key : A -> string) (l : list A) : list A := foldr (insert_by key) [] l.

Record ConnectionMetricsSnapshot : Type := mkMetricsSnapshot {
  snapshot_state : ConnectionMetricsState;
  retained_connection_count : Z;
  connection_history_limit : Z
}.

(** [ConnectionMetrics::snapshot]: the counters, sorted, and the reports, the latest
    first. *)
Definition metrics_snapshot (history_limit : Z) (state : ConnectionMetricsState)
  : ConnectionMetricsSnapshot :=
  let recent := rev (recent_connections state) in
  let errors := sort_by_key (fun entry => error_kind_as_str entry.1) (error_kind_counts state) in
  let routes := sort_by_key (fun entry => route_action_sort_key entry.1) (route_action_counts state) in
  let inbounds := sort_by_key fst (inbound_counts state) in
  mkMetricsSnapshot
    (state <| error_kind_counts := errors |> <| route_action_counts := routes |>
           <| inbound_counts := inbounds |> <| recent_connections := recent |>)
    (len recent) history_limit.

Definition saturating_u128_to_u64 (value : Z) : Z := Z.min value u64_max.

Definition average_duration_ms (total_ms count : Z) : option Z :=
  if count =? 0 then None else Some (saturating_u128_to_u64 (total_ms / count)).

(** ** The gauge of workers *)

Record ConnectionWorkerGauge : Type := mkGauge { gauge_active : Z; gauge_peak : Z }.

Definition Gauge_default : ConnectionWorkerGauge := mkGauge 0 0.

(** [peak.fetch_update(|peak| (active_count > peak).then_some(active_count))]. *)
Definition raise_peak (active_count peak : Z) : Z :=
  if peak <? active_count then active_count else peak.

(** The two atomic steps of [start_worker]. *)
Definition gauge_fetch_add (self : ConnectionWorkerGauge) : ConnectionWorkerGauge :=
  mkGauge (gauge_active self + 1) (gauge_peak self).

Definition gauge_record_peak (active_count : Z) (self : ConnectionWorkerGauge)
  : ConnectionWorkerGauge :=
  mkGauge (gauge_active self) (raise_peak active_count (gauge_peak self)).

Definition finish_worker (self : ConnectionWorkerGauge) : ConnectionWorkerGauge :=
  mkGauge (Z.max 0 (gauge_active self - 1)) (gauge_peak self).

(** ** The registry of client connections *)

Section Registry.
(** The streams: a clone of the client's socket. *)
Context {Stream : Type}.

Record ActiveConnectionRegistry : Type := mkActiveRegistry {
  next_id : nat;
  registry_peak : Z;
  registry_streams : gmap nat Stream
}.

Definition ActiveRegistry_default : ActiveConnectionRegistry := mkActiveRegistry 0 0 ∅.

Definition active_count (self : ActiveConnectionRegistry) : Z := Z.of_nat (size (registry_streams self)).

(** [register], with the clone at hand: the lease is the identifier. *)
Definition register (stream : Stream) (self : ActiveConnectionRegistry)
  : ActiveConnectionRegistry * nat :=
  let id := next_id self in
  let streams := <[id := stream]> (registry_streams self) in
  (mkActiveRegistry (S id) (raise_peak (Z.of_nat (size streams)) (registry_peak self)) streams, id).

(** [unregister], by the drop of the lease. *)
Definition unregister (id : nat) (self : ActiveConnectionRegistry) : ActiveConnectionRegistry :=
  mkActiveRegistry (next_id self) (registry_peak self) (delete id (registry_streams self)).

(** [shutdown_all]: the streams that are shut down, and how many. *)
Definition shutdown_all (self : ActiveConnectionRegistry)
  : ActiveConnectionRegistry * list Stream * Z :=
  (mkActiveRegistry (next_id self) (registry_peak self) ∅,
   map snd (map_to_list (registry_streams self)), active_count self).

End Registry.
Arguments ActiveConnectionRegistry : clear implicits.

(** [available_connection_worker_slots]. *)
Definition available_connection_worker_slots (max_connection_workers : Z)
  (gauge : ConnectionWorkerGauge) : Z :=
  Z.max 0 (Z.max max_connection_workers 1 - gauge_active gauge).
