(* ===== verification/MixedServer.v ===== *)
(** * The accept loop of the mixed inbound

    [serve_mixed_listener_until] of [crates/keli-cli/src/lib.rs] with its workers, as
    interleaved steps of the accepting thread and of one thread per connection. A step is
    what one thread does without another being able to look: an atomic update of the gauge,
    a change of the registry under its lock, the start or the end of a thread. The workers
    share the gauge and the registry; what they do with the connection is in [Mixed]. *)

From stdpp Require Import base strings list numbers gmap.
From S2P Require Import Prelude.
From S2P Require Import Route.
From S2P Require Import TunPacket.
From S2P Require Import Relay.
From S2P Require Import ClientRuntime.
From S2P Require Import MixedMetrics.
#[local] Open Scope Z_scope.

(** ** The list of workers *)

(** [workers.swap_remove(index)]. *)
Definition swap_remove {A} (index : nat) (l : list A) : list A :=
  match last l with
  | Some x => take (length l - 1) (<[index := x]> l)
  | None => l
  end.

(** [reap_finished_mixed_connection_workers], where [finished] says which threads had ended
    when they were looked at; each thread is looked at once. *)
Fixpoint reap_from {A} (fuel : nat) (finished : A -> bool) (index : nat) (workers : list A) : list A :=
  match fuel with
  | O => workers
  | S fuel' =>
      match workers !! index with
      | None => workers
      | Some worker =>
          if finished worker then reap_from fuel' finished index (swap_remove index workers)
          else reap_from fuel' finished (S index) workers
      end
  end.

Definition reap_finished_mixed_connection_workers {A} (finished : A -> bool) (workers : list A)
  : list A :=
  reap_from (length workers) finished 0 workers.

(** One turn of [drain_mixed_connection_workers]: the time since the start when the
    condition is checked, and the threads that have ended in the turn. [elapsed] is the
    clock reading after the loop. *)
Record DrainTurn (A : Type) : Type := mkDrainTurn { turn_elapsed : Z; turn_finished : A -> bool }.
Arguments mkDrainTurn {A}.
Arguments turn_elapsed {A}.
Arguments turn_finished {A}.

(** [None] if the loop still runs after the given turns. *)
Fixpoint drain_mixed_connection_workers {A} (timeout : Z) (turns : list (DrainTurn A)) (elapsed : Z)
  (workers : list A) : option (list A * Z) :=
  match turns with
  | [] => None
  | turn :: turns' =>
      if negb (is_empty workers) && (turn_elapsed turn <? timeout) then
        drain_mixed_connection_workers timeout turns' elapsed
          (reap_finished_mixed_connection_workers (turn_finished turn) workers)
      else Some (workers, elapsed)
  end.

Definition MANAGED_CONNECTION_DRAIN_TIMEOUT : Z := 500.

(** The end of [serve_mixed_listener_until]; times are in milliseconds. *)
Definition stop_drain {A} (shutdown_count : Z) (finished : A -> bool) (turns : list (DrainTurn A)) (elapsed : Z)
  (workers : list A) : option RuntimeManagedMixedStopDrainDiagnostic :=
  let workers_before_shutdown := len workers in
  let workers := reap_finished_mixed_connection_workers finished workers in
  match drain_mixed_connection_workers MANAGED_CONNECTION_DRAIN_TIMEOUT turns elapsed workers with
  | None => None
  | Some (workers, elapsed) =>
      let workers_remaining := len workers in
      let workers_drained := Z.max 0 (workers_before_shutdown - workers_remaining) in
      Some (mkStopDrainDiagnostic shutdown_count workers_before_shutdown workers_drained
              workers_remaining elapsed MANAGED_CONNECTION_DRAIN_TIMEOUT (0 <? workers_remaining))
  end.

(** ** Threads *)

(** A worker serves, then drops its leases in the reverse order of their declaration, the
    gauge's first, and ends. *)
Inductive WorkerPhase : Type := Serving | WorkerLeaseDropped | Finished.

(** The accepting thread: at the head of the loop, or on the way from an accepted
    connection to its worker: registered, counted, and with the peak recorded. *)
Inductive AcceptorPhase : Type :=
| AtLoop
| Registered (connection : nat)
| Counted (connection : nat) (active : Z)
| PeakRecorded (connection : nat)
| Stopped.

Section Server.
Context {Stream : Type}.

Record Server : Type := mkServer {
  acceptor : AcceptorPhase;
  workers : list nat;
  phases : gmap nat WorkerPhase;
  gauge : ConnectionWorkerGauge;
  registry : ActiveConnectionRegistry Stream;
  rejections : Z
}.

Definition Server_start : Server := mkServer AtLoop [] ∅ Gauge_default ActiveRegistry_default 0.

Definition is_finished (server : Server) (worker : nat) : bool :=
  match phases server !! worker with Some Finished => true | _ => false end.

(** The worker of a connection has the connection's identifier. [max] is
    [runtime.max_connection_workers]. *)
Inductive server_step (max : Z) : Server -> Server -> Prop :=
| step_reap server :
    acceptor server = AtLoop ->
    server_step max server
      (mkServer AtLoop
         (reap_finished_mixed_connection_workers (is_finished server) (workers server))
         (phases server) (gauge server) (registry server) (rejections server))
| step_reject server :
    acceptor server = AtLoop -> Z.max max 1 <= len (workers server) ->
    server_step max server
      (mkServer AtLoop (workers server) (phases server) (gauge server) (registry server)
         (rejections server + 1))
| step_register server stream registry' id :
    acceptor server = AtLoop -> len (workers server) < Z.max max 1 ->
    register stream (registry server) = (registry', id) ->
    server_step max server
      (mkServer (Registered id) (workers server) (phases server) (gauge server) registry'
         (rejections server))
| step_count server id :
    acceptor server = Registered id ->
    server_step max server
      (mkServer (Counted id (gauge_active (gauge server) + 1)) (workers server) (phases server)
         (gauge_fetch_add (gauge server)) (registry server) (rejections server))
| step_peak server id active :
    acceptor server = Counted id active ->
    server_step max server
      (mkServer (PeakRecorded id) (workers server) (phases server)
         (gauge_record_peak active (gauge server)) (registry server) (rejections server))
| step_spawn server id :
    acceptor server = PeakRecorded id ->
    server_step max server
      (mkServer AtLoop (workers server ++ [id]) (<[id := Serving]> (phases server)) (gauge server)
         (registry server) (rejections server))
| step_finish_worker server id :
    phases server !! id = Some Serving ->
    server_step max server
      (mkServer (acceptor server) (workers server) (<[id := WorkerLeaseDropped]> (phases server))
         (finish_worker (gauge server)) (registry server) (rejections server))
| step_unregister server id :
    phases server !! id = Some WorkerLeaseDropped ->
    server_step max server
      (mkServer (acceptor server) (workers server) (<[id := Finished]> (phases server))
         (gauge server) (unregister id (registry server)) (rejections server))
| step_stop server :
    acceptor server = AtLoop ->
    server_step max server
      (mkServer Stopped (workers server) (phases server) (gauge server)
         (shutdown_all (registry server)).1.1 (rejections server)).

Inductive server_reachable (max : Z) : Server -> Prop :=
| server_reachable_start : server_reachable max Server_start
| server_reachable_step server server' :
    server_reachable max server -> server_step max server server' -> server_reachable max server'.

End Server.
Arguments Server : clear implicits.
