(* ===== verification/MixedServerSpec.v ===== *)
(** * Limits of the mixed inbound

    The invariant of the accept loop and its workers under every interleaving: the limit
    on workers holds, the gauge and the registry count what is there, and everything is
    given back. The counters of connections are those of the history of reports. *)

From stdpp Require Import base strings list numbers gmap.
From S2P Require Import Prelude.
From S2P Require Import Route.
From S2P Require Import TunPacket.
From S2P Require Import Relay.
From S2P Require Import ClientRuntime.
From S2P Require Import ClientSpec.
From S2P Require Import MixedMetrics.
From S2P Require Import MixedServer.
#[local] Open Scope Z_scope.

(** ** Reaping *)

Lemma Permutation_filter_list {A} (f : A -> bool) (l k : list A) :
  Permutation l k -> Permutation (List.filter f l) (List.filter f k).
Proof.
  induction 1 as [|x l k _ IH|x y l|l k m _ IH1 _ IH2]; cbn; [done| | |by rewrite IH1].
  - destruct (f x); [by constructor|done].
  - destruct (f x), (f y); try done. apply Permutation_swap.
Qed.

Lemma swap_remove_perm {A} index (l : list A) x :
  l !! index = Some x -> Permutation l (x :: swap_remove index l).
Proof.
  intros Hx. unfold swap_remove. destruct l as [|y l _] using rev_ind; [done|].
  rewrite last_snoc, length_app. cbn [length]. replace (length l + 1 - 1)%nat with (length l) by lia.
  destruct (decide (index < length l)%nat) as [Hi|Hi].
  - rewrite lookup_app_l in Hx by done. rewrite insert_app_l, take_app_length' by (rewrite ?length_insert; done || lia).
    rewrite <- (take_drop_middle l index x Hx) at 1. rewrite insert_take_drop by done.
    rewrite <- !app_assoc. cbn [app]. rewrite <- !Permutation_middle. constructor.
    by rewrite (Permutation_app_comm (drop _ _)).
  - apply lookup_lt_Some in Hx as Hlt. rewrite length_app in Hlt. cbn in Hlt.
    replace index with (length l) in * by lia.
    rewrite lookup_app_r, Nat.sub_diag in Hx by lia. injection Hx as ->.
    rewrite insert_app_r_alt, Nat.sub_diag by lia. cbn. rewrite take_app_length.
    by rewrite Permutation_app_comm.
Qed.

Lemma swap_remove_prefix {A} index (l : list A) x :
  l !! index = Some x -> take index (swap_remove index l) = take index l /\
  S (length (swap_remove index l)) = length l.
Proof.
  intros Hx. pose proof (Permutation_length (swap_remove_perm index l x Hx)) as Hlen. cbn in Hlen.
  split; [|done]. unfold swap_remove in *. apply lookup_lt_Some in Hx as Hlt.
  destruct (last l); [|done]. rewrite take_take, take_insert_ge by lia. f_equal. lia.
Qed.

Lemma reap_from_perm {A} fuel (finished : A -> bool) index l :
  (length l <= fuel + index)%nat -> (index <= length l)%nat ->
  Permutation (reap_from fuel finished index l)
    (take index l ++ List.filter (fun w => negb (finished w)) (drop index l)).
Proof.
  revert index l. induction fuel as [|fuel IH]; intros index l Hf Hi; cbn [reap_from].
  { rewrite take_ge, drop_ge by lia. by rewrite app_nil_r. }
  destruct (l !! index) as [w|] eqn:Hw.
  2:{ apply lookup_ge_None in Hw. rewrite take_ge, drop_ge by lia. by rewrite app_nil_r. }
  apply lookup_lt_Some in Hw as Hlt. destruct (finished w) eqn:Hfin.
  - destruct (swap_remove_prefix index l w Hw) as [Htake Hlen].
    rewrite IH by lia. rewrite Htake. apply Permutation_app_head.
    assert (Hd : Permutation (drop index l) (w :: drop index (swap_remove index l))).
    { apply (Permutation_app_inv_l (take index l)). rewrite take_drop.
      transitivity (w :: swap_remove index l); [by apply swap_remove_perm|].
      rewrite <- Permutation_middle, <- Htake, take_drop. done. }
    rewrite (Permutation_filter_list _ _ _ Hd). cbn. by rewrite Hfin.
  - rewrite IH by lia. rewrite (drop_S l w index Hw), (take_S_r l index w Hw), <- app_assoc.
    cbn. by rewrite Hfin.
Qed.

(** Reaping removes the threads that have ended and no other. *)
Lemma reap_perm {A} (finished : A -> bool) (workers : list A) :
  Permutation (reap_finished_mixed_connection_workers finished workers)
    (List.filter (fun w => negb (finished w)) workers).
Proof. unfold reap_finished_mixed_connection_workers. rewrite reap_from_perm by lia. by rewrite take_0, drop_0. Qed.

Lemma length_filter_le {A} (f : A -> bool) l : (length (List.filter f l) <= length l)%nat.
Proof. induction l as [|x l IH]; cbn; [done|]. destruct (f x); cbn; lia. Qed.

Lemma filter_all_false {A} (f : A -> bool) l :
  (forall x, x ∈ l -> f x = false) -> List.filter f l = [].
Proof.
  intros H. induction l as [|x l IH]; [done|]. cbn. rewrite H by (by left).
  apply IH. intros y Hy. apply H. by right.
Qed.

(** ** The invariant *)

Section Invariant.
Context {Stream : Type} (max : Z).

Definition limit : Z := Z.max max 1.

Definition serves (phases : gmap nat WorkerPhase) (worker : nat) : bool :=
  match phases !! worker with Some Serving => true | _ => false end.

Definition serving (server : Server Stream) : list nat :=
  List.filter (serves (phases server)) (workers server).

(** The connection that the accepting thread holds, and whether it is counted. *)
Definition pending (server : Server Stream) : list nat :=
  match acceptor server with
  | AtLoop | Stopped => []
  | Registered id | Counted id _ | PeakRecorded id => [id]
  end.

Definition counted (server : Server Stream) : Z :=
  match acceptor server with Counted _ _ | PeakRecorded _ => 1 | _ => 0 end.

(** The connections whose lease is not dropped. *)
Definition holders (server : Server Stream) : list nat :=
  List.filter (fun w => negb (is_finished server w)) (workers server) ++ pending server.

Record server_ok (server : Server Stream) : Prop := {
  ok_nodup : NoDup (workers server ++ pending server);
  ok_known : forall w, w ∈ workers server -> is_Some (phases server !! w);
  ok_listed : forall w, is_Some (phases server !! w) -> is_finished server w = false -> w ∈ workers server;
  ok_fresh : forall w, w ∈ workers server ++ pending server \/ is_Some (phases server !! w) ->
             (w < next_id (registry server))%nat;
  ok_pending : forall w, w ∈ pending server -> phases server !! w = None;
  ok_limit : len (workers server ++ pending server) <= limit;
  ok_active : gauge_active (gauge server) = len (serving server) + counted server;
  ok_counted : match acceptor server with Counted _ active => active <= limit | _ => True end;
  ok_peak : 0 <= gauge_peak (gauge server) <= limit;
  ok_streams : forall w, w ∈ dom (registry_streams (registry server)) -> w ∈ holders server;
  ok_registry_peak : 0 <= registry_peak (registry server) <= limit
}.

Lemma serving_active server : server_ok server -> gauge_active (gauge server) <= limit.
Proof.
  intros Hok. rewrite (ok_active _ Hok). pose proof (ok_limit _ Hok) as Hl. rewrite len_app in Hl.
  pose proof (length_filter_le (serves (phases server)) (workers server)) as Hf.
  unfold serving, counted, pending, len in *. destruct (acceptor server); cbn [length] in *; lia.
Qed.

Lemma size_list_to_set_le (l : list nat) : (size (list_to_set l : gset nat) <= length l)%nat.
Proof.
  induction l as [|x l IH]; [done|]. cbn [list_to_set length].
  rewrite size_union_alt, size_singleton.
  assert (size ((list_to_set l : gset nat) ∖ {[x]}) <= size (list_to_set l : gset nat))%nat
    by (apply subseteq_size; set_solver).
  lia.
Qed.

Lemma size_dom_le (m : gmap nat Stream) (l : list nat) :
  (forall w, w ∈ dom m -> w ∈ l) -> (size m <= length l)%nat.
Proof.
  intros H. rewrite <- size_dom. transitivity (size (list_to_set l : gset nat)).
  - apply subseteq_size. intros w Hw. by apply elem_of_list_to_set, H.
  - apply size_list_to_set_le.
Qed.

Lemma holders_limit server : server_ok server -> len (holders server) <= limit.
Proof.
  intros Hok. pose proof (ok_limit _ Hok) as Hl. unfold holders. rewrite !len_app in *.
  pose proof (length_filter_le (fun w => negb (is_finished server w)) (workers server)).
  unfold len in *. lia.
Qed.

Lemma registry_active server : server_ok server -> active_count (registry server) <= limit.
Proof.
  intros Hok. pose proof (holders_limit _ Hok) as Hl. unfold active_count.
  pose proof (size_dom_le _ _ (ok_streams _ Hok)). unfold len in Hl. lia.
Qed.

Lemma raise_peak_limit active peak : 0 <= peak <= limit -> active <= limit -> 0 <= raise_peak active peak <= limit.
Proof. unfold raise_peak. case_match; lia. Qed.

(** ** Steps *)

Lemma start_ok : server_ok (Server_start (Stream := Stream)).
Proof.
  split; unfold holders, pending, limit; cbn; try done; try lia.
  - constructor.
  - intros w Hw. by apply not_elem_of_nil in Hw.
  - intros w [? Hw]. by rewrite lookup_empty in Hw.
  - intros w [Hw|[? Hw]]; [by apply not_elem_of_nil in Hw|by rewrite lookup_empty in Hw].
  - rewrite len_nil. lia.
Qed.

Lemma serves_unfinished (server : Server Stream) l :
  List.filter (serves (phases server)) (List.filter (fun w => negb (is_finished server w)) l) =
  List.filter (serves (phases server)) l.
Proof.
  induction l as [|w l IH]; [done|]. cbn. unfold is_finished, serves in *.
  destruct (phases server !! w) as [[]|] eqn:Hw; cbn; rewrite ?Hw; by rewrite IH.
Qed.

Lemma reap_ok server :
  acceptor server = AtLoop -> server_ok server ->
  server_ok (mkServer AtLoop
    (reap_finished_mixed_connection_workers (is_finished server) (workers server))
    (phases server) (gauge server) (registry server) (rejections server)).
Proof.
  intros Ha [Hnd Hk Hl Hf Hp Hlim Hact Hc Hpk Hs Hrp]. unfold holders, pending, counted in *.
  rewrite Ha in *. rewrite app_nil_r in *. set (ws := reap_finished_mixed_connection_workers _ _).
  assert (Hws : Permutation ws (List.filter (fun w => negb (is_finished server w)) (workers server)))
    by apply reap_perm.
  assert (Hin : forall w, w ∈ ws <-> w ∈ workers server /\ is_finished server w = false).
  { intros w. rewrite Hws, !list_elem_of_In, filter_In, negb_true_iff. done. }
  split; unfold holders, pending, counted, serving; cbn; rewrite ?app_nil_r; try done.
  - rewrite Hws. apply NoDup_ListNoDup, List.NoDup_filter. by apply NoDup_ListNoDup.
  - intros w [Hw _]%Hin. auto.
  - intros w Hw Hfin. apply Hin. auto.
  - intros w [[Hw _]%Hin|Hw]; apply Hf; auto.
  - pose proof (Permutation_length Hws) as Hlen. unfold len in *. rewrite Hlen.
    pose proof (length_filter_le (fun w => negb (is_finished server w)) (workers server)). lia.
  - rewrite Hact. unfold serving, len.
    pose proof (Permutation_length (Permutation_filter_list (serves (phases server)) _ _ Hws)) as Hlen.
    rewrite serves_unfinished in Hlen. lia.
  - intros w Hw. specialize (Hs w Hw). revert Hs. rewrite !list_elem_of_In, !filter_In.
    intros [Hw' Hfin]. split; [|done]. apply list_elem_of_In, Hin. rewrite <- negb_true_iff.
    split; [by apply list_elem_of_In|done].
Qed.

(** The accepting thread takes a connection on. *)
Lemma register_ok server stream registry' id :
  acceptor server = AtLoop -> len (workers server) < limit ->
  register stream (registry server) = (registry', id) -> server_ok server ->
  server_ok (mkServer (Registered id) (workers server) (phases server) (gauge server) registry'
               (rejections server)).
Proof.
  intros Ha Hlen [= <- <-] Hok. pose proof (registry_active _ Hok) as Hreg.
  destruct Hok as [Hnd Hk Hl Hf Hp Hlim Hact Hc Hpk Hs Hrp].
  unfold holders, pending, counted in *. rewrite Ha, app_nil_r in *.
  assert (Hfresh : next_id (registry server) ∉ workers server).
  { intros Hin. specialize (Hf _ (or_introl Hin)). lia. }
  assert (Hnone : phases server !! next_id (registry server) = None).
  { apply eq_None_not_Some. intros Hsome. specialize (Hf _ (or_intror Hsome)). lia. }
  assert (Hsize : len (List.filter (fun w => negb (is_finished server w)) (workers server)) <= len (workers server)).
  { unfold len. pose proof (length_filter_le (fun w => negb (is_finished server w)) (workers server)). lia. }
  assert (Hdom : forall w, w ∈ dom (<[next_id (registry server) := stream]> (registry_streams (registry server))) ->
    w ∈ List.filter (fun w => negb (is_finished server w)) (workers server) ++ [next_id (registry server)]).
  { intros w. rewrite dom_insert, elem_of_union, elem_of_singleton, elem_of_app, list_elem_of_singleton.
    intros [->|Hw]; [by right|left; auto]. }
  split; unfold holders, pending, counted; cbn; rewrite ?len_app, ?len_cons, ?len_nil; try done; try lia.
  - apply NoDup_app. split; [done|]. split; [|apply NoDup_singleton].
    intros w Hw Heq%list_elem_of_singleton. by subst w.
  - intros w [[Hw|Hw%list_elem_of_singleton]%elem_of_app|Hw];
      [specialize (Hf w (or_introl Hw))|subst w|specialize (Hf w (or_intror Hw))]; lia.
  - intros w Hw%list_elem_of_singleton. by subst w.
  - apply raise_peak_limit; [done|]. pose proof (size_dom_le _ _ Hdom) as Hn.
    rewrite length_app in Hn. cbn [length] in Hn. unfold len in *. lia.
Qed.

(** A step of the accepting thread that keeps the connection it holds. *)
Lemma acceptor_ok server phase gauge' :
  pending (mkServer phase (workers server) (phases server) gauge' (registry server) (rejections server)) =
  pending server ->
  gauge_active gauge' - gauge_active (gauge server) =
  counted (mkServer phase (workers server) (phases server) gauge' (registry server) (rejections server)) -
  counted server ->
  match phase with Counted _ active => active <= limit | _ => True end ->
  0 <= gauge_peak gauge' <= limit -> server_ok server ->
  server_ok (mkServer phase (workers server) (phases server) gauge' (registry server) (rejections server)).
Proof.
  intros Hpend Hg Hphase Hpeak [Hnd Hk Hl Hf Hp Hlim Hact Hc Hpk Hs Hrp].
  split; try done; rewrite ?Hpend; try done.
  - cbn [gauge]. unfold serving in *. cbn [phases workers]. lia.
  - intros w Hw. specialize (Hs w Hw). unfold holders in *. by rewrite Hpend.
Qed.

(** The connection becomes a worker. *)
Lemma spawn_ok server id :
  acceptor server = PeakRecorded id -> server_ok server ->
  server_ok (mkServer AtLoop (workers server ++ [id]) (<[id := Serving]> (phases server)) (gauge server)
               (registry server) (rejections server)).
Proof.
  intros Ha [Hnd Hk Hl Hf Hp Hlim Hact Hc Hpk Hs Hrp].
  unfold holders, pending, counted in *. rewrite Ha in *.
  assert (Hid : id ∉ workers server).
  { apply NoDup_app in Hnd as (_ & Hnd & _). intros Hin. apply (Hnd id Hin). by left. }
  assert (Hother : forall w, w ∈ workers server -> <[id := Serving]> (phases server) !! w = phases server !! w).
  { intros w Hw. apply lookup_insert_ne. intros ->. done. }
  split; unfold holders, pending, counted; cbn; rewrite ?app_nil_r; try done.
  - intros w [Hw|Hw%list_elem_of_singleton]%elem_of_app; [rewrite Hother by done; auto|].
    subst w. by rewrite lookup_insert_eq.
  - intros w Hw Hfin. destruct (decide (w = id)) as [->|Hne]; [apply elem_of_app; right; by left|].
    rewrite lookup_insert_ne in Hw by done. unfold is_finished in *. cbn in Hfin.
    rewrite lookup_insert_ne in Hfin by done. apply elem_of_app. left. auto.
  - intros w [Hw|Hw]; [by apply Hf; left|]. destruct (decide (w = id)) as [->|Hne].
    + apply Hf. left. apply elem_of_app. right. by left.
    + rewrite lookup_insert_ne in Hw by done. apply Hf. by right.
  - intros w Hw. by apply not_elem_of_nil in Hw.
  - rewrite Hact. unfold serving. cbn [phases workers]. rewrite List.filter_app. cbn [List.filter].
    unfold serves at 3. rewrite lookup_insert_eq. rewrite len_app, len_cons, len_nil.
    assert (Heq : List.filter (serves (<[id:=Serving]> (phases server))) (workers server) =
                  List.filter (serves (phases server)) (workers server)).
    { apply List.filter_ext_in. intros w Hw%list_elem_of_In. unfold serves. by rewrite Hother. }
    rewrite Heq. lia.
  - intros w Hw. specialize (Hs w Hw). rewrite List.filter_app. revert Hs. rewrite !elem_of_app.
    intros [Hw'|Hw'%list_elem_of_singleton]; [|subst w].
    + left. revert Hw'. rewrite !list_elem_of_In, !filter_In. intros [Hin Hfin]. split; [done|].
      unfold is_finished in *. cbn. rewrite Hother by (by apply list_elem_of_In). done.
    + right. cbn. unfold is_finished. cbn. rewrite lookup_insert_eq. by left.
Qed.

(** What a change of a worker's phase does to the lists of workers. *)
Lemma filter_phase (f : nat -> bool) (f' : nat -> bool) id l :
  NoDup l -> id ∈ l -> f id = true -> f' id = false -> (forall w, w <> id -> f' w = f w) ->
  S (length (List.filter f' l)) = length (List.filter f l).
Proof.
  induction 1 as [|w l Hw Hnd IH]; intros Hin Ht Hf Hne; [by apply not_elem_of_nil in Hin|].
  cbn. apply elem_of_cons in Hin as [<-|Hin].
  - rewrite Ht, Hf. cbn. f_equal. f_equal. apply List.filter_ext_in.
    intros v Hv%list_elem_of_In. apply Hne. by intros ->.
  - rewrite Hne by (by intros ->). destruct (f w); cbn; by rewrite <- (IH Hin Ht Hf Hne).
Qed.

Lemma phase_known id phase' (server : Server Stream) :
  server_ok server -> is_Some (phases server !! id) ->
  (forall w, w ∈ workers server -> is_Some (<[id := phase']> (phases server) !! w)) /\
  (forall w, w ∈ workers server ++ pending server \/ is_Some (<[id := phase']> (phases server) !! w) ->
   (w < next_id (registry server))%nat) /\
  (forall w, w ∈ pending server -> <[id := phase']> (phases server) !! w = None).
Proof.
  intros Hok Hid. split; [|split].
  - intros w Hw. rewrite lookup_insert_is_Some'. right. by apply (ok_known _ Hok).
  - intros w [Hw|Hw]; apply (ok_fresh _ Hok); [by left|right].
    destruct (decide (id = w)) as [->|Hne]; [done|]. by rewrite lookup_insert_ne in Hw.
  - intros w Hw. pose proof (ok_pending _ Hok w Hw) as Hnone. rewrite lookup_insert_ne; [done|].
    intros ->. rewrite Hnone in Hid. by destruct Hid.
Qed.

(** A worker's gauge lease is dropped. *)
Lemma finish_worker_ok server id :
  phases server !! id = Some Serving -> server_ok server ->
  server_ok (mkServer (acceptor server) (workers server) (<[id := WorkerLeaseDropped]> (phases server))
               (finish_worker (gauge server)) (registry server) (rejections server)).
Proof.
  intros Hid Hok. pose proof (phase_known id WorkerLeaseDropped server Hok ltac:(by rewrite Hid)) as (Hk' & Hf' & Hp').
  assert (Hfin : forall w, is_finished (mkServer (acceptor server) (workers server)
    (<[id := WorkerLeaseDropped]> (phases server)) (finish_worker (gauge server)) (registry server)
    (rejections server)) w = is_finished server w).
  { intros w. unfold is_finished. cbn. destruct (decide (id = w)) as [<-|Hne];
      [by rewrite lookup_insert_eq, Hid|by rewrite lookup_insert_ne]. }
  assert (Hin : id ∈ workers server).
  { apply (ok_listed _ Hok); [by rewrite Hid|]. unfold is_finished. by rewrite Hid. }
  destruct Hok as [Hnd Hk Hl Hf Hp Hlim Hact Hc Hpk Hs Hrp].
  split; try done.
  - intros w Hw Hun. rewrite Hfin in Hun. apply Hl; [|done]. cbn [phases] in Hw.
    destruct (decide (id = w)) as [<-|Hne]; [by rewrite Hid|by rewrite lookup_insert_ne in Hw].
  - pose proof (filter_phase (serves (phases server)) (serves (<[id := WorkerLeaseDropped]> (phases server)))
      id (workers server)) as Hlen.
    unfold serving, counted, finish_worker, len in *. cbn [gauge gauge_active acceptor phases workers].
    rewrite Hact, <- Hlen; [destruct (acceptor server); lia| |done| | |].
    + by apply NoDup_app in Hnd as [Hnd _].
    + unfold serves. by rewrite Hid.
    + unfold serves. by rewrite lookup_insert_eq.
    + intros w Hne. unfold serves. by rewrite lookup_insert_ne.
  - intros w Hw. specialize (Hs w Hw). unfold holders in *. cbn [workers].
    by rewrite (List.filter_ext _ _ (fun w => f_equal negb (Hfin w))).
Qed.

(** A worker's connection lease is dropped, and the thread ends. *)
Lemma unregister_ok server id :
  phases server !! id = Some WorkerLeaseDropped -> server_ok server ->
  server_ok (mkServer (acceptor server) (workers server) (<[id := Finished]> (phases server))
               (gauge server) (unregister id (registry server)) (rejections server)).
Proof.
  intros Hid Hok. pose proof (phase_known id Finished server Hok ltac:(by rewrite Hid)) as (Hk' & Hf' & Hp').
  destruct Hok as [Hnd Hk Hl Hf Hp Hlim Hact Hc Hpk Hs Hrp].
  split; try done; unfold holders, serving, counted, pending in *; cbn.
  - intros w Hw Hun. unfold is_finished in *. cbn in Hun.
    destruct (decide (id = w)) as [<-|Hne]; [by rewrite lookup_insert_eq in Hun|].
    rewrite lookup_insert_ne in Hw, Hun by done. auto.
  - rewrite Hact. f_equal. unfold len. do 2 f_equal. apply List.filter_ext. intros w. unfold serves.
    destruct (decide (id = w)) as [<-|Hne]; [by rewrite lookup_insert_eq, Hid|by rewrite lookup_insert_ne].
  - intros w. rewrite dom_delete, elem_of_difference, elem_of_singleton. intros [Hw Hne].
    specialize (Hs w Hw). revert Hs. rewrite !elem_of_app, !list_elem_of_In, !filter_In.
    unfold is_finished. cbn. by rewrite lookup_insert_ne.
Qed.

Lemma server_step_ok server server' : server_step max server server' -> server_ok server -> server_ok server'.
Proof.
  intros Hstep Hok. destruct Hstep.
  - by apply reap_ok.
  - destruct server. cbn in *. subst. by destruct Hok.
  - by eapply register_ok.
  - apply acceptor_ok; unfold pending, counted; cbn; rewrite ?H; try done; [lia| |by apply ok_peak].
    pose proof (ok_active _ Hok) as Hact. pose proof (ok_limit _ Hok) as Hlim.
    pose proof (length_filter_le (serves (phases server)) (workers server)).
    unfold serving, counted, pending, len in *. rewrite H, ?length_app in *. cbn in *. lia.
  - apply acceptor_ok; unfold pending, counted; cbn; rewrite ?H; try done; [lia|].
    apply raise_peak_limit; [by apply ok_peak|]. pose proof (ok_counted _ Hok) as Hc. by rewrite H in Hc.
  - by apply spawn_ok.
  - by apply finish_worker_ok.
  - by apply unregister_ok.
  - destruct server. cbn in *. subst. destruct Hok. split; unfold holders, pending in *; cbn in *; done.
Qed.

Lemma server_reachable_ok server : server_reachable max server -> server_ok server.
Proof. induction 1 as [|server server' _ IH Hstep]; [apply start_ok|by eapply server_step_ok]. Qed.

End Invariant.

(** ** What the limits promise *)

(** C14: however the accepting thread and the workers interleave, no more than the configured
    number of workers run at a time (a limit of 0 counts as 1): the gauge, its peak, the
    registry and its peak all stay within it. Once every worker has ended and the accepting
    thread holds no connection, the gauge is back at 0 and no client socket is registered. *)
Theorem workers_within_limit Stream max (server : Server Stream) :
  server_reachable max server ->
  (0 <= gauge_active (gauge server) <= Z.max max 1 /\
   0 <= gauge_peak (gauge server) <= Z.max max 1 /\
   len (workers server) <= Z.max max 1 /\
   active_count (registry server) <= Z.max max 1 /\
   0 <= registry_peak (registry server) <= Z.max max 1) /\
  (pending server = [] -> (forall w, w ∈ workers server -> is_finished server w = true) ->
   gauge_active (gauge server) = 0 /\ registry_streams (registry server) = ∅ /\
   available_connection_worker_slots max (gauge server) = Z.max max 1).
Proof.
  intros Hok%server_reachable_ok. split; [split_and!|].
  - rewrite (ok_active _ _ Hok). unfold counted, len. destruct (acceptor server); lia.
  - by apply serving_active.
  - apply (ok_peak _ _ Hok).
  - apply (ok_peak _ _ Hok).
  - pose proof (ok_limit _ _ Hok) as Hl. rewrite len_app in Hl. unfold limit, len in *. lia.
  - by apply registry_active.
  - apply (ok_registry_peak _ _ Hok).
  - apply (ok_registry_peak _ _ Hok).
  - intros Hp Hall.
    assert (Hg : gauge_active (gauge server) = 0).
    { rewrite (ok_active _ _ Hok). unfold serving. rewrite (filter_all_false (serves (phases server))).
      - unfold counted, pending in *. by destruct (acceptor server).
      - intros w Hw. specialize (Hall w Hw). unfold is_finished, serves in *. by repeat case_match. }
    split_and!; [done| |unfold available_connection_worker_slots; lia].
    apply dom_empty_iff_L. apply set_eq. intros w. split; [|set_solver].
    intros Hw%(ok_streams _ _ Hok). unfold holders in Hw. rewrite Hp, app_nil_r in Hw.
    rewrite filter_all_false in Hw by (intros v Hv; by rewrite Hall).
    by apply not_elem_of_nil in Hw.
Qed.

Lemma reachable_via {Stream} max (server server' server'' : Server Stream) :
  server_reachable max server -> server_step max server server' -> server' = server'' ->
  server_reachable max server''.
Proof. intros Hr Hs <-. by eapply server_reachable_step. Qed.

(** A connection served with a limit of one, up to the end of its worker. *)
Lemma one_connection_served :
  server_reachable 1 (mkServer AtLoop [0%nat] {[ 0%nat := Finished ]} (mkGauge 0 1)
                        (mkActiveRegistry 1 1 (∅ : gmap nat unit)) 0).
Proof.
  assert (r1 : server_reachable 1 (mkServer (Registered 0) [] ∅ Gauge_default
                 (mkActiveRegistry 1 1 {[ 0%nat := tt ]}) 0)).
  { eapply reachable_via; [apply server_reachable_start|by apply (step_register 1 _ tt)|done]. }
  assert (r2 : server_reachable 1 (mkServer (PeakRecorded 0) [] ∅ (mkGauge 1 1)
                 (mkActiveRegistry 1 1 {[ 0%nat := tt ]}) 0)).
  { eapply reachable_via; [eapply reachable_via; [apply r1|by apply step_count|done]|by apply step_peak|done]. }
  assert (r3 : server_reachable 1 (mkServer AtLoop [0%nat] {[ 0%nat := Serving ]} (mkGauge 1 1)
                 (mkActiveRegistry 1 1 {[ 0%nat := tt ]}) 0)).
  { eapply reachable_via; [apply r2|by apply step_spawn|done]. }
  assert (r4 : server_reachable 1 (mkServer AtLoop [0%nat] {[ 0%nat := WorkerLeaseDropped ]} (mkGauge 0 1)
                 (mkActiveRegistry 1 1 {[ 0%nat := tt ]}) 0)).
  { eapply reachable_via; [apply r3|by apply (step_finish_worker 1 _ 0%nat)|done]. }
  eapply reachable_via; [apply r4|by apply (step_unregister 1 _ 0%nat)|done].
Qed.

Lemma workers_within_limit_witness :
  exists server : Server unit, server_reachable 1 server /\ registry_peak (registry server) = 1 /\
  gauge_active (gauge server) = 0.
Proof.
  eexists. split; [exact one_connection_served|]. split; [done|].
  apply (workers_within_limit unit 1 _ one_connection_served); [done|].
  intros w Hw%list_elem_of_singleton. by subst w.
Defined.

(** ** Stopping *)

Lemma drain_shrinks {A} timeout turns elapsed (workers rest : list A) t :
  drain_mixed_connection_workers timeout turns elapsed workers = Some (rest, t) ->
  (length rest <= length workers)%nat /\ t = elapsed.
Proof.
  revert workers. induction turns as [|turn turns IH]; intros workers H; cbn in H; [done|].
  destruct (negb (is_empty workers) && (turn_elapsed turn <? timeout)); [|by injection H as -> ->].
  apply IH in H as [Hl ->]. split; [|done]. rewrite (Permutation_length (reap_perm _ _)) in Hl.
  pose proof (length_filter_le (fun w => negb (turn_finished turn w)) workers). lia.
Qed.

(** The drain ends: at the latest with the first turn past the timeout. *)
Lemma drain_ends {A} timeout turns elapsed (workers : list A) :
  Exists (fun turn => timeout <= turn_elapsed turn) turns ->
  is_Some (drain_mixed_connection_workers timeout turns elapsed workers).
Proof.
  revert workers. induction turns as [|turn turns IH]; intros workers H; cbn.
  { by apply Exists_nil in H. }
  destruct (negb (is_empty workers) && (turn_elapsed turn <? timeout)) eqn:Hc; [|done].
  apply IH. apply Exists_cons in H as [H|H]; [|done].
  apply andb_prop in Hc as [_ Hc%Z.ltb_lt]. lia.
Qed.

(** Stopping the inbound ends, and its diagnostic adds up: what was running before is what
    has ended and what remains, and it is a time-out exactly if something remains. *)
Lemma stop_drain_adds_up {A} shutdown finished turns elapsed (workers : list A) :
  Exists (fun turn => MANAGED_CONNECTION_DRAIN_TIMEOUT <= turn_elapsed turn) turns ->
  exists diagnostic, stop_drain shutdown finished turns elapsed workers = Some diagnostic /\
    drain_workers_before_shutdown diagnostic = len workers /\
    drain_workers_drained diagnostic + drain_workers_remaining diagnostic = len workers /\
    0 <= drain_workers_drained diagnostic /\ 0 <= drain_workers_remaining diagnostic /\
    (drain_timed_out diagnostic = true <-> 0 < drain_workers_remaining diagnostic).
Proof.
  intros H. unfold stop_drain.
  destruct (drain_ends MANAGED_CONNECTION_DRAIN_TIMEOUT turns elapsed
              (reap_finished_mixed_connection_workers finished workers) H) as [[rest t] Hd].
  rewrite Hd. apply drain_shrinks in Hd as [Hl _]. rewrite (Permutation_length (reap_perm _ _)) in Hl.
  pose proof (length_filter_le (fun w => negb (finished w)) workers).
  eexists. split; [done|]. cbn. unfold len. rewrite Z.ltb_lt. lia.
Qed.

(** ** The counters and the history of reports *)

(** The number of reports with a property, the sum of a quantity. *)
Definition reports_count (p : ConnectionReport -> bool) (history : list (ConnectionReport * Z)) : Z :=
  len (List.filter (fun entry => p entry.1) history).

Definition reports_sum (f : ConnectionReport -> Z) (history : list (ConnectionReport * Z)) : Z :=
  foldr (fun entry sum => f entry.1 + sum) 0 history.

Definition metrics_after (history_limit : Z) (history : list (ConnectionReport * Z))
  : ConnectionMetricsState :=
  foldl (fun state entry => metrics_record history_limit entry.1 entry.2 state)
    MetricsState_default history.

Fixpoint count_of {K} `{EqDecision K} (key : K) (counts : Counts K) : Z :=
  match counts with
  | [] => 0
  | (k, n) :: counts' => if decide (k = key) then n else count_of key counts'
  end.

Lemma count_of_one {K} `{EqDecision K} (key key' : K) counts :
  count_of key' (count_one key counts) =
  if decide (key = key') then Z.min u64_max (count_of key' counts + 1) else count_of key' counts.
Proof.
  induction counts as [|[k n] counts IH]; cbn.
  { by destruct (decide (key = key')). }
  destruct (decide (k = key)) as [->|Hne]; cbn.
  - by destruct (decide (key = key')).
  - destruct (decide (k = key')) as [<-|]; [|done]. by rewrite decide_False.
Qed.

Lemma reports_count_snoc p history report at_ :
  reports_count p (history ++ [(report, at_)]) = reports_count p history + if p report then 1 else 0.
Proof.
  unfold reports_count. rewrite List.filter_app, len_app. cbn. by destruct (p report).
Qed.

Lemma reports_sum_snoc f history report at_ :
  reports_sum f (history ++ [(report, at_)]) = reports_sum f history + f report.
Proof. unfold reports_sum. induction history as [|e history IH]; cbn in *; lia. Qed.

Lemma reports_count_nonneg p history : 0 <= reports_count p history.
Proof. unfold reports_count, len. lia. Qed.

Lemma reports_sum_nonneg f history :
  Forall (fun entry => 0 <= f entry.1) history -> 0 <= reports_sum f history.
Proof. unfold reports_sum. induction 1; cbn; lia. Qed.

Definition failed (report : ConnectionReport) : bool := is_some (report_error_kind report).
Definition failed_with (kind : ConnectionErrorKind) (report : ConnectionReport) : bool :=
  bool_decide (report_error_kind report = Some kind).
Definition connect_timed (report : ConnectionReport) : bool := is_some (report_connect_ms report).
Definition connect_ms_of (report : ConnectionReport) : Z := default 0 (report_connect_ms report).
Definition first_byte_timed (report : ConnectionReport) : bool := is_some (report_first_byte_ms report).
Definition first_byte_ms_of (report : ConnectionReport) : Z := default 0 (report_first_byte_ms report).

(** The time of the latest report of a class. *)
Definition latest (p : ConnectionReport -> bool) (history : list (ConnectionReport * Z)) : option Z :=
  foldl (fun seen entry => if p entry.1 then Some entry.2 else seen) None history.

Lemma latest_snoc p history report now :
  latest p (history ++ [(report, now)]) = if p report then Some now else latest p history.
Proof. unfold latest. by rewrite foldl_app. Qed.

(** What one report does to the counters. *)
Record counted_in (report : ConnectionReport) (state state' : ConnectionMetricsState) : Prop := {
  in_total : total_connection_count state' = saturating_add64 (total_connection_count state) 1;
  in_success : success_count state' =
    if negb (failed report) then saturating_add64 (success_count state) 1 else success_count state;
  in_failure : failure_count state' =
    if failed report then saturating_add64 (failure_count state) 1 else failure_count state;
  in_rejection : connection_limit_rejection_count state' =
    if failed_with ConnectionLimitReached report
    then saturating_add64 (connection_limit_rejection_count state) 1 else connection_limit_rejection_count state;
  in_kind : error_kind_counts state' =
    match report_error_kind report with
    | Some kind => count_one kind (error_kind_counts state)
    | None => error_kind_counts state
    end;
  in_action : route_action_counts state' = count_one (report_route_action report) (route_action_counts state);
  in_inbound : inbound_counts state' = count_one (report_inbound report) (inbound_counts state);
  in_upload : total_upload_bytes state' =
    saturating_add64 (total_upload_bytes state) (report_upload_bytes report);
  in_download : total_download_bytes state' =
    saturating_add64 (total_download_bytes state) (report_download_bytes report);
  in_connects : timed_connect_count state' =
    if connect_timed report then saturating_add64 (timed_connect_count state) 1 else timed_connect_count state;
  in_connect_ms : total_connect_ms state' =
    if connect_timed report then saturating_add128 (total_connect_ms state) (connect_ms_of report)
    else total_connect_ms state;
  in_first_bytes : timed_first_byte_count state' =
    if first_byte_timed report then saturating_add64 (timed_first_byte_count state) 1
    else timed_first_byte_count state;
  in_first_byte_ms : total_first_byte_ms state' =
    if first_byte_timed report then saturating_add128 (total_first_byte_ms state) (first_byte_ms_of report)
    else total_first_byte_ms state
}.

(** The times it leaves. *)
Definition stamped_in (report : ConnectionReport) (now : Z) (state state' : ConnectionMetricsState) : Prop :=
  last_connection_at state' = Some now /\
  last_success_at state' = (if failed report then last_success_at state else Some now) /\
  last_failure_at state' = (if failed report then Some now else last_failure_at state).

Lemma metrics_record_stamped limit report now state :
  stamped_in report now state (metrics_record limit report now state).
Proof.
  unfold metrics_record. cbn zeta.
  case_match; destruct report as [? ? ? [] [] ? ? [[]|] ?]; split_and!; reflexivity.
Qed.

Lemma metrics_count_counted report now state :
  counted_in report state (metrics_count report now state).
Proof. split; destruct report as [? ? ? [] [] ? ? [[]|] ?]; reflexivity. Qed.

Lemma metrics_count_recent report now state :
  recent_connections (metrics_count report now state) = recent_connections state ++ [report].
Proof. destruct report as [? ? ? [] [] ? ? [[]|] ?]; reflexivity. Qed.

#[local] Opaque metrics_count.

(** The history's bound leaves the counters alone. *)
Lemma counted_in_recent report state state' recent :
  counted_in report state state' -> counted_in report state (state' <| recent_connections := recent |>).
Proof. intros []. by split. Qed.

Lemma metrics_record_counted limit report now state :
  counted_in report state (metrics_record limit report now state).
Proof.
  pose proof (metrics_count_counted report now state). unfold metrics_record.
  case_match; [by apply counted_in_recent|done].
Qed.

Lemma metrics_record_recent limit report now state :
  0 <= limit ->
  recent_connections (metrics_record limit report now state) =
  drop (length (recent_connections state) + 1 - Z.to_nat limit) (recent_connections state ++ [report]).
Proof.
  intros Hlimit. unfold metrics_record. rewrite metrics_count_recent, len_app.
  change (len [report]) with 1. unfold len. case_match eqn:Hl.
  - apply Z.ltb_lt in Hl. cbn. f_equal. lia.
  - apply Z.ltb_ge in Hl. rewrite metrics_count_recent.
    replace (length (recent_connections state) + 1 - Z.to_nat limit)%nat with 0%nat by lia.
    by rewrite drop_0.
Qed.

Lemma saturating_min maximum sum amount :
  0 <= amount -> Z.min maximum (Z.min maximum sum + amount) = Z.min maximum (sum + amount).
Proof. lia. Qed.

Lemma saturating_min_if maximum sum (b : bool) :
  (if b then Z.min maximum (Z.min maximum sum + 1) else Z.min maximum sum) =
  Z.min maximum (sum + if b then 1 else 0).
Proof. destruct b; [by apply saturating_min|by rewrite Z.add_0_r]. Qed.

Lemma drop_snoc_bounded {A} (l : list A) n x :
  (0 < n)%nat ->
  drop (length (drop (length l - n) l) + 1 - n) (drop (length l - n) l ++ [x]) =
  drop (length (l ++ [x]) - n) (l ++ [x]).
Proof.
  intros Hn. rewrite length_drop, length_app. cbn [length].
  rewrite <- (drop_app_le l [x] (length l - n)) by lia. rewrite drop_drop. f_equal. lia.
Qed.

Definition report_measured (entry : ConnectionReport * Z) : Prop :=
  0 <= report_upload_bytes entry.1 /\ 0 <= report_download_bytes entry.1 /\
  0 <= connect_ms_of entry.1 /\ 0 <= first_byte_ms_of entry.1.

Lemma timed_min maximum sum (timed : option Z) :
  (if is_some timed then Z.min maximum (sum + default 0 timed) else Z.min maximum sum) =
  Z.min maximum (sum + default 0 timed).
Proof. destruct timed; [done|]. cbn. by rewrite Z.add_0_r. Qed.

Lemma metrics_after_snoc limit history report now :
  metrics_after limit (history ++ [(report, now)]) = metrics_record limit report now (metrics_after limit history).
Proof. unfold metrics_after. by rewrite foldl_app. Qed.

(** C16: the counters of the mixed inbound are those of the history of reports: every total is
    the number of reports of its class (for each error kind, route action and inbound alike,
    and for the connections whose connect or first byte was timed) or the sum of their bytes,
    saturated at [u64::MAX], or of their milliseconds, saturated at [u128::MAX]; the times kept
    are those of the latest report, the latest success and the latest failure; and the retained
    reports are the latest [history_limit.max(1)], in order. The bytes and milliseconds of a
    report are not negative. *)
Theorem metrics_count_history history_limit history :
  Forall report_measured history ->
  let limit := metrics_history_limit history_limit in
  let state := metrics_after limit history in
  total_connection_count state = Z.min u64_max (len history) /\
  success_count state = Z.min u64_max (reports_count (fun r => negb (failed r)) history) /\
  failure_count state = Z.min u64_max (reports_count failed history) /\
  connection_limit_rejection_count state =
    Z.min u64_max (reports_count (failed_with ConnectionLimitReached) history) /\
  (forall kind, count_of kind (error_kind_counts state) =
     Z.min u64_max (reports_count (failed_with kind) history)) /\
  (forall action, count_of action (route_action_counts state) =
     Z.min u64_max (reports_count (fun r => bool_decide (report_route_action r = action)) history)) /\
  (forall inbound, count_of inbound (inbound_counts state) =
     Z.min u64_max (reports_count (fun r => bool_decide (report_inbound r = inbound)) history)) /\
  total_upload_bytes state = Z.min u64_max (reports_sum report_upload_bytes history) /\
  total_download_bytes state = Z.min u64_max (reports_sum report_download_bytes history) /\
  recent_connections state = drop (length history - Z.to_nat limit) (map fst history) /\
  timed_connect_count state = Z.min u64_max (reports_count connect_timed history) /\
  total_connect_ms state = Z.min u128_max (reports_sum connect_ms_of history) /\
  timed_first_byte_count state = Z.min u64_max (reports_count first_byte_timed history) /\
  total_first_byte_ms state = Z.min u128_max (reports_sum first_byte_ms_of history) /\
  last_connection_at state = latest (fun _ => true) history /\
  last_success_at state = latest (fun r => negb (failed r)) history /\
  last_failure_at state = latest failed history.
Proof.
  intros Hm limit state. assert (Hlimit : 0 < limit) by (unfold limit, metrics_history_limit; lia).
  unfold state. clear state. induction history as [|[report now] history IH] using rev_ind.
  { split_and!; try done. }
  apply Forall_app in Hm as [Hm [(Hup & Hdown & Hcms & Hfms) _]%Forall_cons]. cbn in Hup, Hdown, Hcms, Hfms.
  specialize (IH Hm) as (Ht & Hs & Hf & Hr & He & Ha & Hi & Hu & Hd & Hrec & Hc & Hcs & Hb & Hbs & Hlc & Hls & Hlf).
  rewrite metrics_after_snoc.
  destruct (metrics_record_counted limit report now (metrics_after limit history))
    as [Ft Fs Ff Fr Fe Fa Fi Fu Fd Fc Fcs Fb Fbs].
  destruct (metrics_record_stamped limit report now (metrics_after limit history)) as (Fl & Fls & Flf).
  rewrite len_app, !reports_count_snoc, !reports_sum_snoc, !latest_snoc, Ft, Fs, Ff, Fr, Fe, Fa, Fi, Fu, Fd, Fc,
    Fcs, Fb, Fbs, Fl, Fls, Flf, Ht, Hs, Hf, Hr, Hu, Hd, Hc, Hcs, Hb, Hbs, Hls, Hlf.
  unfold saturating_add64, saturating_add128. rewrite !saturating_min_if, !saturating_min by done.
  split_and!; try done.
  - intros kind. rewrite reports_count_snoc, <- saturating_min_if, <- He. unfold failed_with.
    destruct (report_error_kind report) as [kind'|]; [|done]. rewrite count_of_one.
    by case_decide; case_bool_decide; try congruence.
  - intros action. rewrite reports_count_snoc, count_of_one, <- saturating_min_if, <- Ha.
    by case_decide; case_bool_decide.
  - intros inbound. rewrite reports_count_snoc, count_of_one, <- saturating_min_if, <- Hi.
    by case_decide; case_bool_decide.
  - rewrite metrics_record_recent, Hrec by lia. rewrite map_app, <- !(length_map fst history).
    rewrite drop_snoc_bounded by lia. f_equal. rewrite !length_app, length_map. done.
  - apply timed_min.
  - apply timed_min.
  - by destruct (failed report).
Qed.

Definition sample_reports : list (ConnectionReport * Z) :=
  [(mkConnectionReport "socks5" (mkOutboundTarget "a.example" 443) Route_Direct (Some 3) None 10 20 None None, 5);
   (mkConnectionReport "mixed" (mkOutboundTarget "connection-worker-limit" 0) Route_Direct None None 0 0
      (Some ConnectionLimitReached) None, 6);
   (mkConnectionReport "http" (mkOutboundTarget "b.example" 80) Route_Block None None 0 0
      (Some RouteBlocked) None, 7)].

Lemma metrics_count_history_witness :
  failure_count (metrics_after 1 sample_reports) = 2 /\
  count_of RouteBlocked (error_kind_counts (metrics_after 1 sample_reports)) = 1 /\
  recent_connections (metrics_after 1 sample_reports) = drop 2 (map fst sample_reports) /\
  total_connect_ms (metrics_after 1 sample_reports) = 3.
Proof.
  destruct (metrics_count_history 0 sample_reports) as (_ & _ & Hf & _ & He & _ & _ & _ & _ & Hr & _ & Hc & _).
  - repeat constructor; cbn; lia.
  - split_and!; [exact Hf|exact (He RouteBlocked)|exact Hr|exact Hc].
Defined.
