(* ===== verification/Mixed.v ===== *)
(** * The handlers of the mixed inbound

    [crates/keli-cli/src/lib.rs], lines 66444 to 67040 and 68370 to 68441: what a worker of
    the mixed inbound does with a client: it looks at the first byte, speaks SOCKS5 or HTTP,
    routes the target, connects, and relays; or it relays the datagrams of a SOCKS5
    association. Messages on the standard error stream are not modelled. *)

From stdpp Require Import base strings list numbers.
From S2P Require Import Prelude.
From S2P Require Import StdNet.
From S2P Require Import StdIo.
From S2P Require Import Route.
From S2P Require Import Dns.
From S2P Require Import TunPacket.
From S2P Require Import TunLoop.
From S2P Require Import Socks5.
From S2P Require Import HttpConnect.
From S2P Require Import HttpProxy.
From S2P Require Import Relay.
From S2P Require Import Profile.
From S2P Require Import Codec.
From S2P Require Import ProxyWire.
From S2P Require Import Framed.
From S2P Require Import Vmess.
From S2P Require Import Network.
From S2P Require Import Outbound.
From S2P Require Import Registry.
From S2P Require Import TunRelay.
From S2P Require Import MixedMetrics.
#[local] Open Scope Z_scope.

(** ** Texts of errors *)

Definition Socks5Error_fmt (error : Socks5Error) : string :=
  match error with
  | Socks5_Io error => "SOCKS5 I/O error: " +:+ io_message error
  | UnsupportedVersion version => "unsupported SOCKS version: " +:+ to_decimal version
  | UnsupportedCommand command => "unsupported SOCKS5 command: " +:+ to_decimal command
  | UnsupportedAddressType address_type => "unsupported SOCKS5 address type: " +:+ to_decimal address_type
  | EmptyMethodList => "SOCKS5 handshake has no methods"
  | EmptyDomain => "SOCKS5 request has an empty domain"
  | InvalidDomain => "SOCKS5 request domain is not valid UTF-8"
  | FragmentedUdpDatagram => "SOCKS5 fragmented UDP datagrams are not supported"
  | DomainTooLong => "SOCKS5 domain is too long"
  | TruncatedUdpDatagram => "SOCKS5 UDP datagram is truncated"
  end.

Definition HttpConnectError_fmt (error : HttpConnectError) : string :=
  match error with
  | Connect_Io error => "HTTP CONNECT I/O error: " +:+ error
  | Connect_HeaderTooLarge => "HTTP CONNECT header is too large"
  | Connect_InvalidUtf8 => "HTTP CONNECT header is not valid UTF-8"
  | Connect_MissingRequestLine => "HTTP CONNECT request line is missing"
  | Connect_InvalidRequestLine => "HTTP CONNECT request line is invalid"
  | UnsupportedMethod method => "unsupported HTTP proxy method: " +:+ method
  | MissingTargetPort => "HTTP CONNECT target must include a port"
  | Connect_InvalidPort port => "HTTP CONNECT target port is invalid: " +:+ port
  | Connect_EmptyHost => "HTTP CONNECT target host is empty"
  end.

Definition HttpProxyError_fmt (error : HttpProxyError) : string :=
  match error with
  | Proxy_Io error => "HTTP proxy I/O error: " +:+ error
  | Proxy_HeaderTooLarge => "HTTP proxy header is too large"
  | Proxy_InvalidUtf8 => "HTTP proxy header is not valid UTF-8"
  | Proxy_MissingRequestLine => "HTTP proxy request line is missing"
  | Proxy_InvalidRequestLine => "HTTP proxy request line is invalid"
  | UnsupportedScheme scheme => "unsupported HTTP proxy URL scheme: " +:+ scheme
  | MissingHost => "HTTP proxy request is missing a host"
  | Proxy_EmptyHost => "HTTP proxy target host is empty"
  | Proxy_InvalidPort port => "HTTP proxy target port is invalid: " +:+ port
  end.

Definition DnsWireError_fmt (error : DnsWireError) : string :=
  match error with
  | Dns_PacketTooShort => "DNS packet is too short"
  | Dns_ResponsePacket => "DNS packet is already a response"
  | Dns_UnsupportedOpcode opcode => "unsupported DNS opcode: " +:+ to_decimal opcode
  | Dns_QuestionCount count => "unsupported DNS question count: " +:+ to_decimal count
  | Dns_LabelOutOfBounds => "DNS question label is out of bounds"
  | Dns_CompressedQuestionName => "compressed DNS question names are unsupported"
  | Dns_InvalidLabel => "DNS question label is invalid"
  | Dns_QuestionTooShort => "DNS question is too short"
  | Dns_UnsupportedClass class => "unsupported DNS question class: " +:+ to_decimal class
  end.

Definition RelayError_fmt (error : RelayError) : string :=
  error_kind_as_str (relay_error_kind error) +:+ ": " +:+ io_message (relay_error_source error).

(** [to_io_error], with the error's text at hand. *)
Definition to_io_error (text : string) : IoError := mkIoError InvalidData text.

(** ** Targets *)

Definition socks5_host (address : Socks5Address) : string :=
  match address with
  | Socks5_Ipv4 ip => ip_to_string (V4 ip)
  | Socks5_Domain domain => domain
  | Socks5_Ipv6 ip => ip_to_string (V6 ip)
  end.

Definition target_from_socks5_request (request : Socks5Request) : OutboundTarget :=
  mkOutboundTarget (socks5_host (request_address request)) (request_port request).

Definition outbound_target_from_socks5_udp (address : Socks5Address) (port : Z) : OutboundTarget :=
  mkOutboundTarget (socks5_host address) port.

(** [OutboundTarget::route_target] and [route_destination]. *)
Definition target_route_target (self : OutboundTarget) : RouteTarget :=
  match parse_ip_addr (target_host self) with
  | Some ip => Target_Ip ip
  | None => Target_Domain (target_host self)
  end.

Definition target_route_destination (self : OutboundTarget) : RouteDestination :=
  RouteDestination_new (target_route_target self) (target_port self).

Definition socks5_udp_response_source_for_target (target : OutboundTarget) : SocketAddr :=
  match parse_ip_addr (target_host target) with
  | Some ip => mkSocketAddr ip (target_port target)
  | None => mkSocketAddr (V4 0) (target_port target)
  end.

Definition socks5_address_from_ip (ip : IpAddr) : Socks5Address :=
  match ip with V4 ip => Socks5_Ipv4 ip | V6 ip => Socks5_Ipv6 ip end.

Definition socks5_success_reply_for_bound_addr (bound_addr : SocketAddr) : list Z :=
  [5; 0; 0]
  ++ match sa_ip bound_addr with
     | V4 ip => 1 :: v4_octets ip
     | V6 ip => 4 :: v6_octets ip
     end
  ++ to_be_bytes 2 (sa_port bound_addr).

Definition http_forbidden_response : list Z :=
  as_bytes ("HTTP/1.1 403 Forbidden" +:+ crlf +:+ crlf).

(** ** The runtime *)

Record MixedDnsOptions : Type := mkMixedDnsOptions {
  local_resolution_policy : DnsLocalResolutionPolicy;
  address_family_policy : DnsAddressFamilyPolicy;
  dns_cache_ttl : Z
}.

Definition MixedDnsOptions_default : MixedDnsOptions :=
  mkMixedDnsOptions AllowSystem DualStack (from_secs 60).

(** What the handlers use of [MixedProxyRuntime]; the history limit is that of its
    [ConnectionMetrics]. *)
Record MixedProxyRuntime : Type := mkMixedRuntime {
  runtime_routes : RouteEngine;
  runtime_relay_options : RelayOptions;
  runtime_outbounds : OutboundRegistry;
  runtime_dns_options : MixedDnsOptions;
  runtime_tun_tcp_max_active_sessions : Z;
  runtime_history_limit : Z;
  runtime_max_connection_workers : Z
}.

#[export] Instance MixedProxyRuntime_settable : Settable MixedProxyRuntime := fun r =>
  mkMixedRuntime (runtime_routes r) (runtime_relay_options r) (runtime_outbounds r)
    (runtime_dns_options r) (runtime_tun_tcp_max_active_sessions r) (runtime_history_limit r)
    (runtime_max_connection_workers r).

Definition DEFAULT_FIRST_BYTE_TIMEOUT : Z := from_secs 30.
Definition DEFAULT_IDLE_TIMEOUT : Z := from_secs 300.
Definition DEFAULT_MANAGED_MIXED_MAX_CONNECTION_WORKERS : Z := 1024.
Definition UDP_RELAY_POLL_INTERVAL : Z := 200000000.

Definition default_relay_options : RelayOptions :=
  mkRelayOptions (Some DEFAULT_FIRST_BYTE_TIMEOUT) (Some DEFAULT_IDLE_TIMEOUT).

(** ** Sockets *)

(** What the handlers use of the sockets beside [Network]: [peek] into a buffer of one byte,
    a clone of the socket (of which only the failure is seen: the clone is the same
    socket), and the address a socket is bound to. *)
Class MixedSockets (W : Type) {Net : Network W} := {
  tcp_peek : SM TcpStream IoError (list Z);
  tcp_try_clone : TcpStream -> result IoError unit;
  udp_local_addr : UdpSocket -> SM W IoError SocketAddr
}.

(** The outcome of a computation as a value. *)
Definition sm_catch {S E F A} (m : SM S E A) : SM S F (E + A) :=
  fun s =>
    match m s with
    | (s, Ok a) => (s, Ok (inr a))
    | (s, Err e) => (s, Ok (inl e))
    | (s, Panic) => (s, Panic)
    end.

(** A worker: the client's socket, the system, the counters that it shares with the other
    workers, and the connection to the target once there is one. *)
Record Inbound {W : Type} {Net : Network W} : Type := mkInbound {
  ib_client : TcpStream;
  ib_world : W;
  ib_metrics : ConnectionMetricsState;
  ib_remote : option (OutboundConnection W)
}.
Arguments Inbound W {Net}.

#[export] Instance Inbound_settable {W} {Net : Network W} : Settable (Inbound W) := fun r =>
  mkInbound W Net (ib_client r) (ib_world r) (ib_metrics r) (ib_remote r).

Inductive RouteConnect {W : Type} {Net : Network W} : Type :=
| RouteConnect_Direct (stream : OutboundConnection W) (route_action : RouteAction)
    (connect_duration : Z)
| RouteConnect_Blocked (route_action : RouteAction)
| RouteConnect_UnsupportedOutbound (tag : string) (route_action : RouteAction).
Arguments RouteConnect W {Net}.

Section Handlers.
Context {W : Type} {Net : Network W} {Sockets : MixedSockets W}.
Context {SsCrypto : ShadowsocksCrypto} {Crypto : VmessCrypto}.
(** The turns given to the loops, and the clock readings of a relay. *)
Context (turns : nat) (clocks : nat -> RoundClock).

Definition MixedM (A : Type) : Type := SM (Inbound W) IoError A.

Definition on_client {E A} (f : E -> IoError) (m : SM TcpStream E A) : MixedM A :=
  sm_zoom ib_client (fun client s => s <| ib_client := client |>) f m.

Definition on_world {A} (m : SM W IoError A) : MixedM A :=
  sm_zoom ib_world (fun w s => s <| ib_world := w |>) id m.

Definition reply (bytes : list Z) : MixedM unit := on_client id (write_all bytes).

Definition now : MixedM Z := s <-! sm_get; sm_ret (instant_now (ib_world s)).

(** [emit_connection_report]. The moment of the record is in seconds. *)
Definition emit_connection_report (runtime : MixedProxyRuntime) (report : ConnectionReport)
  : MixedM unit :=
  sm_modify (fun s => s <| ib_metrics :=
    metrics_record (runtime_history_limit runtime) report (unix_timestamp (ib_world s)) (ib_metrics s) |>).

(** [MixedDnsOptions::engine], at one moment of the system. *)
Definition dns_options_engine (options : MixedDnsOptions) (w : W) : DnsEngine SystemDnsResolver :=
  DnsEngine_with_policies (mkSystemDnsResolver (to_socket_addrs w))
    (DnsCache_new (dns_cache_ttl options)) (local_resolution_policy options)
    (address_family_policy options).

(** A computation with [runtime.dns_options.engine()]. *)
Definition with_engine {A} (options : MixedDnsOptions) (m : NM W SystemDnsResolver A)
  : SM W IoError A :=
  fun w => let '(s, r) := m (dns_options_engine options w, w) in (snd s, r).

(** ** Connections *)

Definition connect_by_route (target : OutboundTarget) (runtime : MixedProxyRuntime)
  : SM W IoError (RouteConnect W) :=
  let decision :=
    RouteEngine_decide_destination (runtime_routes runtime) (target_route_destination target) in
  match decision_action decision with
  | Route_Direct =>
      w <-! sm_get;
      let started := instant_now w in
      stream <-! with_engine (runtime_dns_options runtime)
                   (DirectTcpConnector_connect_with_dns target (from_secs 10));
      w <-! sm_get;
      sm_ret (RouteConnect_Direct (Connection_Tcp stream) Route_Direct (instant_now w - started))
  | Route_Block => sm_ret (RouteConnect_Blocked Route_Block)
  | Route_Outbound tag =>
      w <-! sm_get;
      let started := instant_now w in
      outcome <-! sm_catch (with_engine (runtime_dns_options runtime)
                    (registry_connect_with_dns (runtime_outbounds runtime) tag target (from_secs 10)));
      match outcome with
      | inr stream =>
          w <-! sm_get;
          sm_ret (RouteConnect_Direct stream (Route_Outbound tag) (instant_now w - started))
      | inl error =>
          if bool_decide (io_kind error = Unsupported)
          then sm_ret (RouteConnect_UnsupportedOutbound tag (Route_Outbound tag))
          else sm_lift (Err error)
      end
  | Route_HijackDns =>
      io_fail Unsupported "hijack-dns route action is not valid for TCP proxy relay"
  end.

(** The [match connect_by_route(...)] of the handlers, which differ in their answers: the
    connection with the report to go on with, or [None] if the client has been answered. *)
Definition connect_or_answer (runtime : MixedProxyRuntime) (blocked unsupported failed : list Z)
  (target : OutboundTarget) (report : ConnectionReport)
  : MixedM (option (OutboundConnection W * ConnectionReport)) :=
  outcome <-! sm_catch (on_world (connect_by_route target runtime));
  match outcome with
  | inr (RouteConnect_Direct remote route_action connect_duration) =>
      let report := report <| report_route_action := route_action |> in
      let report := record_connect_duration connect_duration report in
      sm_ret (Some (remote, report))
  | inr (RouteConnect_Blocked route_action) =>
      let report := report <| report_route_action := route_action |> in
      let report := record_error RouteBlocked report in
      do! emit_connection_report runtime report;
      do! reply blocked;
      sm_ret None
  | inr (RouteConnect_UnsupportedOutbound tag route_action) =>
      let report := report <| report_route_action := route_action |> in
      let report := record_error UnsupportedOutbound report in
      do! emit_connection_report runtime report;
      do! reply unsupported;
      io_fail Unsupported ("outbound route is not implemented: " +:+ tag)
  | inl error =>
      let report := record_error (from_io error) report in
      do! emit_connection_report runtime report;
      do! reply failed;
      sm_lift (Err error)
  end.

(** [relay_with_report]: [None] if the relay still runs after the given turns. *)
Definition relay_with_report (remote : OutboundConnection W) (report : ConnectionReport)
  (runtime : MixedProxyRuntime) : MixedM (option unit) :=
  s <-! sm_get;
  let '(relay, outcome) :=
    relay_owned_bidirectional_with_options turns (runtime_relay_options runtime)
      (instant_now (ib_world s)) clocks (ib_client s) remote in
  do! sm_modify (fun s => s <| ib_client := r_client relay |> <| ib_remote := Some (r_remote relay) |>);
  match outcome with
  | Ok (Some stats) =>
      let report := record_relay_stats stats report in
      do! emit_connection_report runtime report;
      sm_ret (Some tt)
  | Ok None => sm_ret None
  | Err error =>
      let report := record_error (relay_error_kind error) report in
      do! emit_connection_report runtime report;
      io_fail OtherKind (RelayError_fmt error)
  | Panic => sm_lift Panic
  end.

(** [stream.try_clone()?]. *)
Definition try_clone : MixedM unit := s <-! sm_get; sm_lift (tcp_try_clone (ib_client s)).

(** ** Datagrams of a SOCKS5 association *)

(** [build_hijacked_dns_response]. *)
Definition build_hijacked_dns_response (payload : list Z)
  : NM W SystemDnsResolver (list Z) :=
  question <-! sm_lift (map_err (fun error => to_io_error (DnsWireError_fmt error)) (parse_dns_query payload));
  match q_question_type question with
  | QType_Unsupported _ => sm_ret (build_dns_error_response question 4)
  | _ =>
      outcome <-! sm_catch (fun s => sm_zoom fst (fun dns s => (dns, snd s)) id
                     (DnsEngine_resolve (q_name question) 0 (instant_now (snd s))) s);
      match outcome with
      | inr addresses =>
          sm_ret (build_dns_response question (map resolved_ip addresses) 60)
      | inl (LocalResolutionBlocked _ _) | inl (AddressFamilyFiltered _ _) | inl (NoRecords _) =>
          sm_ret (build_dns_error_response question 3)
      | inl error => io_fail NotFound (DnsError_fmt error)
      end
  end.

Definition send_socks5_udp_response (relay : UdpSocket) (client_udp_addr response_from : SocketAddr)
  (payload : list Z) : MixedM unit :=
  let response_address := socks5_address_from_ip (sa_ip response_from) in
  response <-! sm_lift (map_err (fun error => to_io_error (Socks5Error_fmt error))
                 (encode_socks5_udp_datagram response_address (sa_port response_from) payload));
  do! on_world (udp_send_to relay response client_udp_addr);
  sm_ret tt.

(** [resolve_udp_socket_addr]; the kind of a failed lookup is none of those that are
    looked for. *)
Definition resolve_udp_socket_addr (target : OutboundTarget) (w : W) : result IoError SocketAddr :=
  match parse_ip_addr (target_host target) with
  | Some ip => Ok (mkSocketAddr ip (target_port target))
  | None =>
      addresses <-? map_err (mkIoError OtherKind) (to_socket_addrs w (target_host target));
      match addresses with
      | ip :: _ => Ok (mkSocketAddr ip (target_port target))
      | [] => Err (no_address "" (target_host target) (target_port target))
      end
  end.

(** A failure that is reported and otherwise ignored. *)
Definition report_failure (runtime : MixedProxyRuntime) (report : ConnectionReport) (error : IoError)
  : MixedM unit :=
  emit_connection_report runtime (record_error (from_io error) report).

(** The branches [Outbound], [HijackDns] and [Direct] of [relay_socks5_udp_datagram]. *)
Definition relay_udp_outbound (runtime : MixedProxyRuntime) (relay : UdpSocket) (tag : string)
  (target : OutboundTarget) (payload : list Z) (client_udp_addr : SocketAddr)
  (response_timeout : Z) (report : ConnectionReport) : MixedM unit :=
  let report := report <| report_route_action := Route_Outbound tag |> in
  started <-! now;
  outcome <-! sm_catch (on_world (registry_relay_udp_datagram (runtime_outbounds runtime) tag target
                                    payload response_timeout));
  match outcome with
  | inl error => report_failure runtime report error
  | inr response =>
      let report := report <| report_upload_bytes := len payload |> in
      ended <-! now;
      let report := record_first_byte_duration (ended - started) report in
      let report := report <| report_download_bytes := len (relay_payload response) |> in
      do! send_socks5_udp_response relay client_udp_addr (relay_source response)
            (relay_payload response);
      emit_connection_report runtime report
  end.

Definition relay_udp_hijacked (runtime : MixedProxyRuntime) (relay : UdpSocket)
  (target : OutboundTarget) (payload : list Z) (client_udp_addr : SocketAddr)
  (report : ConnectionReport) : MixedM unit :=
  let report := report <| report_route_action := Route_HijackDns |> in
  started <-! now;
  outcome <-! sm_catch (on_world (with_engine (runtime_dns_options runtime)
                                    (build_hijacked_dns_response payload)));
  match outcome with
  | inl error =>
      emit_connection_report runtime (record_error_detail (from_io error) (io_message error) report)
  | inr response =>
      let report := report <| report_upload_bytes := len payload |> in
      ended <-! now;
      let report := record_first_byte_duration (ended - started) report in
      let report := report <| report_download_bytes := len response |> in
      do! send_socks5_udp_response relay client_udp_addr
            (socks5_udp_response_source_for_target target) response;
      emit_connection_report runtime report
  end.

Definition relay_udp_direct (runtime : MixedProxyRuntime) (relay outbound : UdpSocket)
  (target : OutboundTarget) (payload : list Z) (client_udp_addr : SocketAddr)
  (report : ConnectionReport) : MixedM unit :=
  s <-! sm_get;
  resolved <-! sm_catch (sm_lift (resolve_udp_socket_addr target (ib_world s)));
  match resolved with
  | inl error => report_failure runtime report error
  | inr remote_addr =>
      started <-! now;
      sent <-! sm_catch (on_world (udp_send_to outbound payload remote_addr));
      match sent with
      | inl error => report_failure runtime report error
      | inr _ =>
          let report := report <| report_upload_bytes := len payload |> in
          received <-! sm_catch (on_world (udp_recv_from outbound 65535));
          match received with
          | inl error => report_failure runtime report error
          | inr (response, response_from) =>
              ended <-! now;
              let report := record_first_byte_duration (ended - started) report in
              let report := report <| report_download_bytes := len response |> in
              do! send_socks5_udp_response relay client_udp_addr response_from response;
              emit_connection_report runtime report
          end
      end
  end.

Definition relay_socks5_udp_datagram (runtime : MixedProxyRuntime) (relay outbound : UdpSocket)
  (request : list Z) (client_udp_addr : SocketAddr) (response_timeout : Z) : MixedM unit :=
  datagram <-! sm_lift (map_err (fun error => to_io_error (Socks5Error_fmt error))
                          (parse_socks5_udp_datagram request));
  let target :=
    outbound_target_from_socks5_udp (datagram_address datagram) (datagram_port datagram) in
  let report := ConnectionReport_new "socks5-udp" target Route_Direct in
  match decision_action
          (RouteEngine_decide_destination (runtime_routes runtime) (target_route_destination target)) with
  | Route_Direct =>
      relay_udp_direct runtime relay outbound target (datagram_payload datagram) client_udp_addr report
  | Route_Block =>
      let report := report <| report_route_action := Route_Block |> in
      emit_connection_report runtime (record_error RouteBlocked report)
  | Route_Outbound tag =>
      relay_udp_outbound runtime relay tag target (datagram_payload datagram) client_udp_addr
        response_timeout report
  | Route_HijackDns =>
      relay_udp_hijacked runtime relay target (datagram_payload datagram) client_udp_addr report
  end.

Definition is_pause (error : IoError) : bool :=
  bool_decide (io_kind error = WouldBlock) || bool_decide (io_kind error = TimedOut).

Definition socks5_udp_control_is_closed : MixedM bool :=
  outcome <-! sm_catch (on_client id tcp_peek);
  match outcome with
  | inr bytes => sm_ret (is_empty bytes)
  | inl error =>
      if is_pause error then sm_ret false
      else if bool_decide (io_kind error = ConnectionReset) then sm_ret true
      else sm_lift (Err error)
  end.

(** The loop of [relay_socks5_udp_session]; [None] if it still runs. *)
Fixpoint udp_session_loop (left : nat) (runtime : MixedProxyRuntime) (relay outbound : UdpSocket)
  (first_byte_timeout idle_timeout started last_activity : Z) (received_datagram : bool)
  : MixedM (option unit) :=
  match left with
  | O => sm_ret None
  | S left' =>
      closed <-! socks5_udp_control_is_closed;
      if (closed : bool) then sm_ret (Some tt)
      else
        outcome <-! sm_catch (on_world (udp_recv_from relay 65535));
        match outcome with
        | inr (request, client_udp_addr) =>
            do! relay_socks5_udp_datagram runtime relay outbound request client_udp_addr
                  first_byte_timeout;
            last_activity <-! now;
            udp_session_loop left' runtime relay outbound first_byte_timeout idle_timeout started
              last_activity true
        | inl error =>
            if is_pause error then
              closed <-! socks5_udp_control_is_closed;
              if (closed : bool) then sm_ret (Some tt)
              else
                let timeout := if received_datagram then idle_timeout else first_byte_timeout in
                let reference := if received_datagram then last_activity else started in
                t <-! now;
                if timeout <=? t - reference then sm_ret (Some tt)
                else
                  udp_session_loop left' runtime relay outbound first_byte_timeout idle_timeout
                    started last_activity received_datagram
            else sm_lift (Err error)
        end
  end.

Definition relay_socks5_udp_session (runtime : MixedProxyRuntime) (relay outbound : UdpSocket)
  (first_byte_timeout idle_timeout : Z) : MixedM (option unit) :=
  started <-! now;
  udp_session_loop turns runtime relay outbound first_byte_timeout idle_timeout started started false.

Definition localhost_any_port : SocketAddr := mkSocketAddr (V4 2130706433) 0.
Definition unspecified_any_port : SocketAddr := mkSocketAddr (V4 0) 0.

Definition handle_socks5_udp_associate (runtime : MixedProxyRuntime) : MixedM (option unit) :=
  relay <-! on_world (udp_bind localhost_any_port);
  let first_byte_timeout :=
    default DEFAULT_FIRST_BYTE_TIMEOUT (first_byte_timeout (runtime_relay_options runtime)) in
  let idle_timeout := default DEFAULT_IDLE_TIMEOUT (idle_timeout (runtime_relay_options runtime)) in
  do! on_world (udp_set_read_timeout relay (Some UDP_RELAY_POLL_INTERVAL));
  outbound <-! on_world (udp_bind unspecified_any_port);
  do! on_world (udp_set_read_timeout outbound (Some first_byte_timeout));
  bound_addr <-! on_world (udp_local_addr relay);
  do! reply (socks5_success_reply_for_bound_addr bound_addr);
  do! on_client id (set_nonblocking_mode true);
  fun s =>
    let '(s, session_result) :=
      relay_socks5_udp_session runtime relay outbound first_byte_timeout idle_timeout s in
    let '(s, _) := on_client id (set_nonblocking_mode false) s in
    (s, session_result).

(** ** The handlers *)

Definition handle_socks5_connection_with_routes (runtime : MixedProxyRuntime) : MixedM (option unit) :=
  let socks5_io := fun error => to_io_error (Socks5Error_fmt error) in
  handshake <-! on_client socks5_io parse_socks5_handshake;
  if negb (bool_decide (0 ∈ methods handshake)) then
    do! reply [5; 255];
    sm_ret (Some tt)
  else
    do! reply socks5_no_auth_response;
    request <-! on_client socks5_io parse_socks5_request;
    match request_command request with
    | UdpAssociate => handle_socks5_udp_associate runtime
    | Bind =>
        do! reply (socks5_reply CommandNotSupported);
        sm_ret (Some tt)
    | Connect =>
        let target := target_from_socks5_request request in
        let report := ConnectionReport_new "socks5" target Route_Direct in
        connected <-! connect_or_answer runtime (socks5_reply ConnectionNotAllowed)
                        (socks5_reply CommandNotSupported) (socks5_reply HostUnreachable) target report;
        match connected with
        | None => sm_ret (Some tt)
        | Some (remote, report) =>
            do! reply (socks5_reply Succeeded);
            do! try_clone;
            relay_with_report remote report runtime
        end
    end.

Definition handle_http_connect_connection (runtime : MixedProxyRuntime) : MixedM (option unit) :=
  parsed <-! sm_catch (on_client (fun error => to_io_error (HttpConnectError_fmt error))
                         parse_http_connect_request);
  match parsed with
  | inl error =>
      do! reply http_connect_bad_request_response;
      sm_lift (Err error)
  | inr request =>
      let target := mkOutboundTarget (connect_host request) (connect_port request) in
      let report := ConnectionReport_new "http-connect" target Route_Direct in
      connected <-! connect_or_answer runtime http_forbidden_response
                      http_connect_bad_request_response http_connect_bad_request_response target report;
      match connected with
      | None => sm_ret (Some tt)
      | Some (remote, report) =>
          do! reply http_connect_success_response;
          do! try_clone;
          relay_with_report remote report runtime
      end
  end.

Definition handle_http_proxy_connection (runtime : MixedProxyRuntime) : MixedM (option unit) :=
  parsed <-! sm_catch (on_client (fun error => to_io_error (HttpProxyError_fmt error))
                         parse_http_proxy_request);
  match parsed with
  | inl error =>
      do! reply http_proxy_bad_request_response;
      sm_lift (Err error)
  | inr request =>
      let target := mkOutboundTarget (proxy_host request) (proxy_port request) in
      let report := ConnectionReport_new "http-proxy" target Route_Direct in
      connected <-! connect_or_answer runtime http_forbidden_response
                      http_proxy_bad_request_response http_proxy_bad_request_response target report;
      match connected with
      | None => sm_ret (Some tt)
      | Some (remote, report) =>
          '(remote, _) <-! using_stream remote (connection_write_all turns (rewritten_header request));
          do! try_clone;
          relay_with_report remote report runtime
      end
  end.

(** [b'D' | b'd' | b'G' | ...]. *)
Definition http_method_initials : list Z :=
  [68; 100; 71; 103; 72; 104; 79; 111; 80; 112; 84; 116].

Definition handle_mixed_connection_with_routes (runtime : MixedProxyRuntime) : MixedM (option unit) :=
  peeked <-! on_client id tcp_peek;
  let first := default 0 (head peeked) in
  if first =? 5 then handle_socks5_connection_with_routes runtime
  else if (first =? 67) || (first =? 99) then handle_http_connect_connection runtime
  else if bool_decide (first ∈ http_method_initials) then handle_http_proxy_connection runtime
  else
    do! reply http_connect_bad_request_response;
    io_fail InvalidData "mixed inbound received an unsupported protocol".

(** [record_mixed_connection_worker_limit_rejection]. *)
Definition record_mixed_connection_worker_limit_rejection (runtime : MixedProxyRuntime) : MixedM unit :=
  let report :=
    ConnectionReport_new "mixed" (mkOutboundTarget "connection-worker-limit" 0) Route_Direct in
  let report :=
    record_error_detail ConnectionLimitReached "managed mixed connection worker limit reached" report in
  do! emit_connection_report runtime report;
  do! sm_catch (F := IoError) (on_client id shutdown_both);
  sm_ret tt.
End Handlers.
