(* ===== verification/MixedConfig.v ===== *)
(** * The configuration of the mixed inbound

    [crates/keli-cli/src/lib.rs]: the blocking rules of the command line, as the texts that
    they are handed on as and as rules of the route engine ([routes_from_cli]); the profiles
    that the registry supports; and the runtime made from a subscription. *)

From Stdlib Require Import Ascii.
From stdpp Require Import base strings list numbers.
From S2P Require Import Prelude.
From S2P Require Import StdNet.
From S2P Require Import StdIo.
From S2P Require Import Route.
From S2P Require Import Dns.
From S2P Require Import TunPacket.
From S2P Require Import TunSession.
From S2P Require Import Relay.
From S2P Require Import Profile.
From S2P Require Import Network.
From S2P Require Import Registry.
From S2P Require Import Subscription.
From S2P Require Import MixedMetrics.
From S2P Require Import Mixed.
#[local] Open Scope Z_scope.

(** ** Blocking rules *)

Definition BLOCK_CIDR_RULE_PREFIX : string := "cidr:".
Definition BLOCK_PORT_RULE_PREFIX : string := "port:".

Record CliPortRange : Type := mkCliPortRange { range_start : Z; range_end : Z }.

Definition range_label (self : CliPortRange) : string :=
  if range_start self =? range_end self then to_decimal (range_start self)
  else to_decimal (range_start self) +:+ "-" +:+ to_decimal (range_end self).

(** [s.parse::<u8>().ok()]: that of [u16] with a value below 2^8. *)
Definition parse_u8 (s : string) : option Z :=
  match parse_u16 s with
  | Some value => if value <=? 255 then Some value else None
  | None => None
  end.

Definition RouteCidrError_fmt (error : RouteCidrError) : string :=
  match error with
  | InvalidPrefixLength network prefix_len =>
      "invalid CIDR prefix length " +:+ to_decimal prefix_len +:+ " for " +:+ ip_to_string network
  end.

Definition parse_cli_block_cidr (input : string) : result string RouteIpCidr :=
  match split_once "/"%char input with
  | None => Err ("invalid --block-cidr value: " +:+ input +:+ "; expected ip/prefix")
  | Some (network, prefix_len) =>
      network <-? ok_or ("invalid --block-cidr IP address: " +:+ input) (parse_ip_addr network);
      prefix_len <-? ok_or ("invalid --block-cidr prefix length: " +:+ input) (parse_u8 prefix_len);
      map_err (fun error => "invalid --block-cidr value: " +:+ RouteCidrError_fmt error)
        (RouteIpCidr_new network prefix_len)
  end.

(** The closure [parse_port]. *)
Definition parse_block_port (input value : string) : result string Z :=
  port <-? ok_or ("invalid --block-port value: " +:+ input) (parse_u16 value);
  if port =? 0 then Err "--block-port must be between 1 and 65535" else Ok port.

Definition parse_cli_block_port (input : string) : result string CliPortRange :=
  match split_once "-"%char input with
  | Some (start, end_) =>
      start <-? parse_block_port input start;
      end_ <-? parse_block_port input end_;
      if end_ <? start then Err ("invalid --block-port range: " +:+ input)
      else Ok (mkCliPortRange start end_)
  | None =>
      port <-? parse_block_port input input;
      Ok (mkCliPortRange port port)
  end.

Definition cidr_text (cidr : RouteIpCidr) : string :=
  ip_to_string (cidr_network cidr) +:+ "/" +:+ to_decimal (cidr_prefix_len cidr).

Definition block_cidr_rule_value (cidr : RouteIpCidr) : string :=
  BLOCK_CIDR_RULE_PREFIX +:+ cidr_text cidr.

Definition block_port_rule_value (range : CliPortRange) : string :=
  BLOCK_PORT_RULE_PREFIX +:+ range_label range.

Definition block_cidr_rule (cidr : RouteIpCidr) : RouteRule :=
  mkRouteRule ("block-cidr:" +:+ cidr_text cidr) (IpCidr cidr) Route_Block.

Definition block_port_rule (range : CliPortRange) : RouteRule :=
  let matcher :=
    if range_start range =? range_end range then PortExact (range_start range)
    else PortRange (range_start range) (range_end range) in
  mkRouteRule ("block-port:" +:+ range_label range) matcher Route_Block.

Definition block_domain_rule (rule : string) : RouteRule :=
  mkRouteRule ("block-domain:" +:+ rule) (DomainSuffix rule) Route_Block.

(** One turn of the loop of [routes_from_cli]: the rule that a text stands for. A text with
    a prefix that does not parse goes on to the next case. *)
Definition as_cidr (rule : string) : option RouteIpCidr :=
  match strip_prefix BLOCK_CIDR_RULE_PREFIX rule with
  | Some cidr => match parse_cli_block_cidr cidr with Ok cidr => Some cidr | _ => None end
  | None => None
  end.

Definition as_port (rule : string) : option CliPortRange :=
  match strip_prefix BLOCK_PORT_RULE_PREFIX rule with
  | Some port => match parse_cli_block_port port with Ok range => Some range | _ => None end
  | None => None
  end.

Definition route_rule_of (rule : string) : RouteRule :=
  match as_cidr rule with
  | Some cidr => block_cidr_rule cidr
  | None =>
      match as_port rule with
      | Some range => block_port_rule range
      | None => block_domain_rule rule
      end
  end.

Definition routes_from_cli (block_domains : list string) (default_action : RouteAction) : RouteEngine :=
  foldl (fun routes rule => RouteEngine_add_rule routes (route_rule_of rule))
    (RouteEngine_new default_action) block_domains.

(** ** Runtimes *)

Definition mixed_runtime_from_cli (block_domains : list string) (relay_options : RelayOptions)
  (dns_options : MixedDnsOptions) : MixedProxyRuntime :=
  mkMixedRuntime (routes_from_cli block_domains Route_Direct) relay_options OutboundRegistry_new
    dns_options DEFAULT_TUN_TCP_MAX_ACTIVE_SESSIONS MANAGED_CONNECTION_REPORT_HISTORY_LIMIT
    DEFAULT_MANAGED_MIXED_MAX_CONNECTION_WORKERS.

Section Profiles.
(** [Display] of [OutboundProfileError], which shows parts by their derived [Debug]. *)
Context (profile_error_text : OutboundProfileError -> string).

(** The loop of [profiles_with_registry_supported_outbounds]. *)
Fixpoint supported_profiles (profiles : list OutboundProfile) (skipped : list SkippedOutboundProfile)
  : result string ParsedOutboundProfiles :=
  match profiles with
  | [] => Ok (mkParsed [] skipped)
  | profile :: profiles' =>
      match from_profiles [profile] with
      | Ok _ =>
          parsed <-? supported_profiles profiles' skipped;
          Ok (mkParsed (profile :: parsed_profiles parsed) (parsed_skipped parsed))
      | Err error =>
          supported_profiles profiles'
            (skipped ++ [mkSkipped (profile_tag profile)
                           ("registry unsupported: " +:+ profile_error_text error)])
      | Panic => Panic
      end
  end.

Definition profiles_with_registry_supported_outbounds (parsed : ParsedOutboundProfiles)
  : result string ParsedOutboundProfiles :=
  supported_profiles (parsed_profiles parsed) (parsed_skipped parsed).

Definition mixed_runtime_from_parsed_profiles (parsed : ParsedOutboundProfiles)
  (block_domains : list string) (relay_options : RelayOptions) (outbound_tag : option string)
  (dns_options : MixedDnsOptions) : result string MixedProxyRuntime :=
  let available_tags := map profile_tag (parsed_profiles parsed) in
  selected_tag <-?
    match outbound_tag with
    | Some tag => Ok tag
    | None => ok_or "profile config did not contain supported outbounds" (head available_tags)
    end;
  if negb (existsb (fun tag => String.eqb tag selected_tag) available_tags) then
    Err ("outbound tag not found: " +:+ selected_tag +:+ "; available: " +:+ join ", " available_tags)
  else
    outbounds <-? map_err (fun error => "profile config contains unsupported outbound: "
                                        +:+ profile_error_text error)
                    (from_profiles (parsed_profiles parsed));
    Ok (mkMixedRuntime (routes_from_cli block_domains (Route_Outbound selected_tag)) relay_options
          outbounds dns_options DEFAULT_TUN_TCP_MAX_ACTIVE_SESSIONS
          MANAGED_CONNECTION_REPORT_HISTORY_LIMIT
          DEFAULT_MANAGED_MIXED_MAX_CONNECTION_WORKERS).

Context {L : ShareLibrary}.

Definition mixed_runtime_from_subscription_config_text_with_dns_options (config_text : string)
  (block_domains : list string) (relay_options : RelayOptions) (outbound_tag : option string)
  (dns_options : MixedDnsOptions) : result string MixedProxyRuntime :=
  parsed <-? map_err (fun error => "profile config parse failed: " +:+ subscription_error_text error)
               (parse_subscription_outbound_profiles config_text);
  mixed_runtime_from_parsed_profiles parsed block_domains relay_options outbound_tag dns_options.

Definition mixed_runtime_from_mihomo_config_text_with_dns_options (config_text : string)
  (block_domains : list string) (relay_options : RelayOptions) (outbound_tag : option string)
  (dns_options : MixedDnsOptions) : result string MixedProxyRuntime :=
  parsed <-? map_err (fun error => "profile config parse failed: " +:+ subscription_error_text error)
               (parse_mihomo_outbound_profiles config_text);
  mixed_runtime_from_parsed_profiles parsed block_domains relay_options outbound_tag dns_options.
End Profiles.

(** ** The address of the system proxy *)

(** [SocketAddr::to_string]. *)
Definition socket_addr_to_string (addr : SocketAddr) : string :=
  match sa_ip addr with
  | V4 _ => ip_to_string (sa_ip addr) +:+ ":" +:+ to_decimal (sa_port addr)
  | V6 _ => "[" +:+ ip_to_string (sa_ip addr) +:+ "]:" +:+ to_decimal (sa_port addr)
  end.

Definition system_proxy_server_for_listener (addr : SocketAddr) : string :=
  match sa_ip addr with
  | V4 ip =>
      if ip =? 0 then socket_addr_to_string (mkSocketAddr (V4 2130706433) (sa_port addr))
      else socket_addr_to_string addr
  | V6 ip =>
      if ip =? 0 then socket_addr_to_string (mkSocketAddr (V6 1) (sa_port addr))
      else socket_addr_to_string addr
  end.
