(* ===== verification/MixedSpec.v ===== *)
(** * What the mixed inbound promises

    Routes are respected by every handler, blocked targets are refused without a step of the
    network, every connection is reported at most once; the blocking rules survive their
    text; what the registry supports of a subscription makes a runtime; an idle SOCKS5
    association ends. *)

From Stdlib Require Import Ascii.
From stdpp Require Import base strings list numbers.
From S2P Require Import Prelude.
From S2P Require Import StdNet.
From S2P Require Import StdIo.
From S2P Require Import StdText.
From S2P Require Import Route.
From S2P Require Import Dns.
From S2P Require Import TunPacket.
From S2P Require Import TunLoop.
From S2P Require Import Socks5.
From S2P Require Import HttpConnect.
From S2P Require Import HttpProxy.
From S2P Require Import Relay.
From S2P Require Import Profile.
From S2P Require Import Codec.
From S2P Require Import ProxyWire.
From S2P Require Import Framed.
From S2P Require Import Vmess.
From S2P Require Import Network.
From S2P Require Import Outbound.
From S2P Require Import Registry.
From S2P Require Import RegistrySpec.
From S2P Require Import HttpSpec.
From S2P Require Import TunRelay.
From S2P Require Import ScriptedNetwork.
From S2P Require Import Subscription.
From S2P Require Import MixedMetrics.
From S2P Require Import Mixed.
From S2P Require Import MixedConfig.
#[local] Open Scope Z_scope.

(** ** Routes *)

Section Routes.
Context {W : Type} {Net : Network W} {Sockets : MixedSockets W}.
Context {SsCrypto : ShadowsocksCrypto} {Crypto : VmessCrypto}.
Context (turns : nat) (clocks : nat -> RoundClock).

Definition route_of (runtime : MixedProxyRuntime) (target : OutboundTarget) : RouteAction :=
  decision_action
    (RouteEngine_decide_destination (runtime_routes runtime) (target_route_destination target)).

(** The state after a report and an answer. *)
Definition refused_state (runtime : MixedProxyRuntime) (answer : list Z) (report : ConnectionReport)
  (s : Inbound W) : Inbound W :=
  mkInbound W Net (write_all answer (ib_client s)).1 (ib_world s)
    (metrics_record (runtime_history_limit runtime) report (unix_timestamp (ib_world s)) (ib_metrics s))
    (ib_remote s).

Definition blocked_report (inbound : string) (target : OutboundTarget) : ConnectionReport :=
  mkConnectionReport inbound target Route_Block None None 0 0 (Some RouteBlocked) None.

Lemma connect_blocked runtime blocked unsupported failed inbound target s :
  route_of runtime target = Route_Block ->
  connect_or_answer runtime blocked unsupported failed target
    (ConnectionReport_new inbound target Route_Direct) s =
  (refused_state runtime blocked (blocked_report inbound target) s,
   result_map (fun _ => None) (write_all blocked (ib_client s)).2).
Proof.
  intros H. unfold connect_or_answer, connect_by_route. unfold route_of in H. rewrite H.
  unfold sm_bind at 1. unfold sm_catch, on_world, sm_zoom, sm_ret at 1. cbn.
  unfold sm_bind, emit_connection_report, sm_modify, reply, on_client, sm_zoom, sm_ret. cbn.
  unfold refused_state. destruct (write_all blocked (ib_client s)) as [c [[]|e|]]; done.
Qed.

Definition settled (r : result IoError unit) : result IoError (option unit) := result_map Some r.

(** The SOCKS5 dialogue up to the request, on the client's socket. *)
Definition socks5_dialogue : SM TcpStream Socks5Error (option Socks5Request) :=
  handshake <-! parse_socks5_handshake;
  if negb (bool_decide (0 ∈ methods handshake)) then sm_ret None
  else
    do! sm_zoom id (fun s _ => s) Socks5_Io (write_all socks5_no_auth_response);
    request <-! parse_socks5_request;
    sm_ret (Some request).

(** What each kind of client asks for: the inbound's name, the answer to a blocked target,
    the reader of the request and the handler. *)
Inductive asks_for : string -> list Z -> TcpStream -> TcpStream -> OutboundTarget ->
    (MixedProxyRuntime -> MixedM (option unit)) -> Prop :=
| asks_socks5 client client' request :
    socks5_dialogue client = (client', Ok (Some request)) ->
    request_command request = Connect ->
    asks_for "socks5" (socks5_reply ConnectionNotAllowed) client client'
      (target_from_socks5_request request) (handle_socks5_connection_with_routes turns clocks)
| asks_http_connect client client' request :
    parse_http_connect_request client = (client', Ok request) ->
    asks_for "http-connect" http_forbidden_response client client'
      (mkOutboundTarget (connect_host request) (connect_port request))
      (handle_http_connect_connection turns clocks)
| asks_http_proxy client client' request :
    parse_http_proxy_request client = (client', Ok request) ->
    asks_for "http-proxy" http_forbidden_response client client'
      (mkOutboundTarget (proxy_host request) (proxy_port request))
      (handle_http_proxy_connection turns clocks).

Lemma sm_bind_ok {S E A B} (m : SM S E A) (k : A -> SM S E B) s s' a :
  m s = (s', Ok a) -> sm_bind m k s = k a s'.
Proof. intros H. unfold sm_bind. by rewrite H. Qed.

Lemma sm_catch_ok {S E F A} (m : SM S E A) s s' a : m s = (s', Ok a) -> sm_catch (F := F) m s = (s', Ok (inr a)).
Proof. intros H. unfold sm_catch. by rewrite H. Qed.

Lemma on_client_ok {E A} (f : E -> IoError) (m : SM TcpStream E A) s c a :
  m (ib_client s) = (c, Ok a) -> on_client f m s = (s <| ib_client := c |>, Ok a).
Proof. intros H. unfold on_client, sm_zoom. by rewrite H. Qed.

(** ** Reports *)

#[local] Opaque metrics_record.

(** The counters with one report of the connection more. *)
Definition reported (runtime : MixedProxyRuntime) (inbound : string) (target : OutboundTarget)
  (metrics metrics' : ConnectionMetricsState) : Prop :=
  exists report at_, report_inbound report = inbound /\ report_target report = target /\
    metrics' = metrics_record (runtime_history_limit runtime) report at_ metrics.

(** A computation of the connection that reports it at most once, and exactly once if it
    ends without an error. *)
Definition reports_once (runtime : MixedProxyRuntime) (inbound : string) (target : OutboundTarget)
  (s : Inbound W) (outcome : Inbound W * result IoError (option unit)) : Prop :=
  (ib_metrics outcome.1 = ib_metrics s \/ reported runtime inbound target (ib_metrics s) (ib_metrics outcome.1)) /\
  (outcome.2 = Ok (Some tt) -> reported runtime inbound target (ib_metrics s) (ib_metrics outcome.1)).

Definition silent {A} (m : MixedM A) : Prop := forall s, ib_metrics (m s).1 = ib_metrics s.

Lemma on_client_silent {E A} (f : E -> IoError) (m : SM TcpStream E A) : silent (on_client f m).
Proof. intros s. unfold on_client, sm_zoom. by destruct (m (ib_client s)). Qed.

Lemma on_world_silent {A} (m : SM W IoError A) : silent (on_world m).
Proof. intros s. unfold on_world, sm_zoom. by destruct (m (ib_world s)). Qed.

Lemma silent_then {A} runtime inbound target (m : MixedM A) (k : A -> MixedM (option unit)) s :
  silent m -> (forall a s, reports_once runtime inbound target s (k a s)) ->
  reports_once runtime inbound target s (sm_bind m k s).
Proof.
  intros Hm Hk. specialize (Hm s). unfold sm_bind. destruct (m s) as [s' [a|e|]]; cbn in Hm.
  - pose proof (Hk a s') as H. unfold reports_once in *. by rewrite Hm in H.
  - split; [by left|done].
  - split; [by left|done].
Qed.

Lemma relay_reports_once runtime remote report s :
  reports_once runtime (report_inbound report) (report_target report) s
    (relay_with_report turns clocks remote report runtime s).
Proof.
  unfold relay_with_report, sm_bind at 1, sm_get.
  destruct (relay_owned_bidirectional_with_options _ _ _ _ _ _) as [relay [[stats|]|error|]]; cbn.
  - assert (Hr : reported runtime (report_inbound report) (report_target report) (ib_metrics s)
      (metrics_record (runtime_history_limit runtime) (record_relay_stats stats report)
         (unix_timestamp (ib_world s)) (ib_metrics s))).
    { do 2 eexists. split_and!; [..|reflexivity]; unfold record_relay_stats; by case_match. }
    split; [by right|done].
  - split; [by left|done].
  - split; [right|done]. do 2 eexists. split_and!; [..|reflexivity]; done.
  - split; [by left|done].
Qed.

(** What a handler does with the connection that it has got. *)
Definition goes_on (runtime : MixedProxyRuntime)
  (go : OutboundConnection W * ConnectionReport -> MixedM (option unit)) : Prop :=
  forall remote report s,
    reports_once runtime (report_inbound report) (report_target report) s (go (remote, report) s).

Ltac solve_goes_on :=
  intros remote report s0;
  repeat first
    [ apply relay_reports_once
    | apply silent_then; [|intros ? ?]
    | apply on_client_silent
    | (intros s1; unfold try_clone, sm_bind, sm_get, sm_lift; by destruct (tcp_try_clone _))
    | (intros s1; unfold using_stream; by destruct (connection_write_all _ _ _) as [? []])
    | case_match ].

(** What the handler of a request comes to. *)
Lemma asks_for_handler inbound blocked client client' target handler runtime s :
  asks_for inbound blocked client client' target handler -> ib_client s = client ->
  exists unsupported failed (go : OutboundConnection W * ConnectionReport -> MixedM (option unit)),
  goes_on runtime go /\
  handler runtime s =
  (connected <-! connect_or_answer runtime blocked unsupported failed target
                   (ConnectionReport_new inbound target Route_Direct);
   match connected with None => sm_ret (Some tt) | Some c => go c end)
    (s <| ib_client := client' |>).
Proof.
  intros Hasks Hs. destruct s as [c w m r]. cbn in Hs. subst c.
  destruct Hasks as [client client' request Hd Hc|client client' request Hp|client client' request Hp].
  - do 2 eexists.
    exists (fun '(remote, report) =>
      do! reply (socks5_reply Succeeded); do! try_clone; relay_with_report turns clocks remote report runtime).
    split; [solve_goes_on|].
    unfold socks5_dialogue, sm_bind, sm_zoom in Hd.
    destruct (parse_socks5_handshake client) as [c1 [handshake|e|]] eqn:H1; try done.
    destruct (negb (bool_decide (0 ∈ methods handshake))) eqn:Hm; [done|].
    cbn in Hd. destruct (write_all socks5_no_auth_response c1) as [c2 [[]|e|]] eqn:H2; try done.
    cbn in Hd. destruct (parse_socks5_request c2) as [c3 [request'|e|]] eqn:H3; try done.
    injection Hd as -> ->. unfold handle_socks5_connection_with_routes.
    erewrite sm_bind_ok by (apply on_client_ok; exact H1). rewrite Hm.
    erewrite sm_bind_ok by (apply on_client_ok; exact H2).
    erewrite sm_bind_ok by (apply on_client_ok; exact H3). rewrite Hc. reflexivity.
  - do 2 eexists.
    exists (fun '(remote, report) =>
      do! reply http_connect_success_response; do! try_clone; relay_with_report turns clocks remote report runtime).
    split; [solve_goes_on|].
    unfold handle_http_connect_connection.
    by erewrite sm_bind_ok by (apply sm_catch_ok, on_client_ok; exact Hp).
  - do 2 eexists.
    exists (fun '(remote, report) =>
      '(remote, _) <-! using_stream remote (connection_write_all turns (rewritten_header request));
      do! try_clone; relay_with_report turns clocks remote report runtime).
    split; [solve_goes_on|].
    unfold handle_http_proxy_connection.
    by erewrite sm_bind_ok by (apply sm_catch_ok, on_client_ok; exact Hp).
Qed.

Lemma answered_reports {A} runtime report answer (r : result IoError A) s :
  let outcome := (do! emit_connection_report runtime report; do! reply answer; sm_lift r) s in
  reported runtime (report_inbound report) (report_target report) (ib_metrics s) (ib_metrics outcome.1) /\
  (outcome.2 = r \/ forall a, outcome.2 <> Ok a).
Proof.
  cbv zeta. unfold sm_bind, emit_connection_report, sm_modify, reply, sm_lift.
  set (s1 := _ <| ib_metrics := _ |>).
  pose proof (on_client_silent id (write_all answer) s1) as H.
  destruct (on_client _ _ s1) as [s' [[]|e|]]; cbn in *; rewrite H;
    (split; [do 2 eexists; split_and!; reflexivity|]); [by left|by right..].
Qed.

(** The report of a connection keeps its inbound and its target on the way. *)
Lemma connect_or_answer_reports runtime blocked unsupported failed target report s :
  match connect_or_answer runtime blocked unsupported failed target report s with
  | (s', Ok (Some (remote, report'))) =>
      ib_metrics s' = ib_metrics s /\ report_inbound report' = report_inbound report /\
      report_target report' = report_target report
  | (s', Panic) => ib_metrics s' = ib_metrics s \/
      reported runtime (report_inbound report) (report_target report) (ib_metrics s) (ib_metrics s')
  | (s', _) =>
      reported runtime (report_inbound report) (report_target report) (ib_metrics s) (ib_metrics s')
  end.
Proof.
  unfold connect_or_answer, sm_bind at 1, sm_catch.
  pose proof (on_world_silent (connect_by_route target runtime) s) as Hsilent.
  destruct (on_world _ s) as [s' [[remote action duration|action|tag action]|error|]]; cbn in Hsilent;
    rewrite <- Hsilent.
  - done.
  - destruct (answered_reports (A := option (OutboundConnection W * ConnectionReport)) runtime
      (record_error RouteBlocked (report <| report_route_action := action |>)) blocked (Ok None) s')
      as [H Hr]. cbv zeta. unfold sm_ret. unfold sm_lift in *.
    destruct (sm_bind _ _ s') as [s'' [[[]|]|e|]]; cbn in *; naive_solver.
  - destruct (answered_reports (A := option (OutboundConnection W * ConnectionReport)) runtime
      (record_error UnsupportedOutbound (report <| report_route_action := action |>)) unsupported
      (Err (mkIoError Unsupported ("outbound route is not implemented: " +:+ tag))) s')
      as [H Hr]. cbv zeta. unfold io_fail. unfold sm_lift in *.
    destruct (sm_bind _ _ s') as [s'' [[[]|]|e|]]; cbn in *; naive_solver.
  - destruct (answered_reports (A := option (OutboundConnection W * ConnectionReport)) runtime
      (record_error (from_io error) report) failed (Err error) s') as [H Hr]. cbv zeta.
    destruct (sm_bind _ _ s') as [s'' [[[]|]|e|]]; cbn in *; naive_solver.
  - by left.
Qed.
End Routes.

(** C15: a target whose route is [Block] is refused, for every kind of client. A stream
    whose request (SOCKS5 CONNECT, HTTP CONNECT, HTTP proxy) is read and names the target
    gets the refusal of its protocol and nothing else happens: no step of the network, no
    connection, one report of the error kind [route_blocked]. And, whatever the state of the
    control stream, a well-formed datagram of a SOCKS5 association for the target is dropped:
    nothing is sent, the one report is made, and the call returns without an error. *)
Theorem blocked_target_refused {W} {Net : Network W} {Sockets : MixedSockets W}
  {SsCrypto : ShadowsocksCrypto} {Crypto : VmessCrypto} turns clocks runtime target (s : Inbound W)
  (Hblock : route_of runtime target = Route_Block) :
  (forall inbound answer client' handler,
     asks_for turns clocks inbound answer (ib_client s) client' target handler ->
     handler runtime s =
       (mkInbound W Net (write_all answer client').1 (ib_world s)
          (metrics_record (runtime_history_limit runtime) (blocked_report inbound target)
             (unix_timestamp (ib_world s)) (ib_metrics s)) (ib_remote s),
        result_map Some (write_all answer client').2)) /\
  (forall relay outbound request client_addr timeout datagram,
     parse_socks5_udp_datagram request = Ok datagram ->
     target = outbound_target_from_socks5_udp (datagram_address datagram) (datagram_port datagram) ->
     relay_socks5_udp_datagram runtime relay outbound request client_addr timeout s =
       (mkInbound W Net (ib_client s) (ib_world s)
          (metrics_record (runtime_history_limit runtime) (blocked_report "socks5-udp" target)
             (unix_timestamp (ib_world s)) (ib_metrics s)) (ib_remote s), Ok tt)).
Proof.
  split.
  - intros inbound answer client' handler Hasks.
    destruct (asks_for_handler _ _ _ _ _ _ _ _ runtime s Hasks eq_refl)
      as (unsupported & failed & go & _ & ->).
    unfold sm_bind at 1. rewrite connect_blocked by done. unfold refused_state. cbn.
    by destruct (write_all answer client') as [c [[]|e|]].
  - intros relay outbound request client_addr timeout datagram Hp ->.
    unfold relay_socks5_udp_datagram, sm_bind, sm_lift. rewrite Hp. cbn [map_err].
    unfold route_of in Hblock. by rewrite Hblock.
Qed.

(** C17: a handler whose client's request was read (a SOCKS5 CONNECT, an HTTP CONNECT or an
    HTTP proxy request) reports the connection at most once, under the inbound and the target
    of the request, and exactly once when it ends without an error; the counters change in no
    other way. The other ends of a handler (no acceptable SOCKS5 method, BIND, a request that
    cannot be read) and the associations of UDP ASSOCIATE are not connections in this sense. *)
Theorem connection_reported_once {W} {Net : Network W} {Sockets : MixedSockets W}
  {SsCrypto : ShadowsocksCrypto} {Crypto : VmessCrypto} turns clocks runtime inbound answer
  client client' target handler (s : Inbound W)
  (Hasks : asks_for turns clocks inbound answer client client' target handler)
  (Hclient : ib_client s = client) :
  reports_once runtime inbound target s (handler runtime s).
Proof.
  destruct (asks_for_handler _ _ _ _ _ _ _ _ runtime s Hasks Hclient)
    as (unsupported & failed & go & Hgo & ->).
  unfold sm_bind at 1.
  pose proof (connect_or_answer_reports turns clocks runtime answer unsupported failed target
    (ConnectionReport_new inbound target Route_Direct) (s <| ib_client := client' |>)) as H.
  destruct (connect_or_answer _ _ _ _ _ _ _) as [s' [[[remote report]|]|e|]].
  - destruct H as (Hm & Hi & Ht). specialize (Hgo remote report s'). cbn in Hi, Ht, Hm.
    unfold reports_once in *. by rewrite Hi, Ht, Hm in Hgo.
  - split; [by right|done].
  - split; [by right|done].
  - split; [done|done].
Qed.

(** A connection that could not be made is reported with the route action [Direct],
    whatever its route: the counters of a failing outbound are those of direct
    connections. *)
Theorem failed_connection_counted_as_direct {W} {Net : Network W} {Sockets : MixedSockets W}
  {SsCrypto : ShadowsocksCrypto} {Crypto : VmessCrypto} turns clocks runtime inbound answer
  client client' target handler (s : Inbound W) w' error
  (Hasks : asks_for turns clocks inbound answer client client' target handler)
  (Hclient : ib_client s = client)
  (Hfail : connect_by_route target runtime (ib_world s) = (w', Err error)) :
  ib_metrics (handler runtime s).1 =
  metrics_record (runtime_history_limit runtime)
    (mkConnectionReport inbound target Route_Direct None None 0 0 (Some (from_io error)) None)
    (unix_timestamp w') (ib_metrics s).
Proof.
  destruct (asks_for_handler _ _ _ _ _ _ _ _ runtime s Hasks Hclient)
    as (unsupported & failed & go & _ & ->).
  unfold sm_bind at 1, connect_or_answer, sm_bind at 1, sm_catch, on_world, sm_zoom. cbn [ib_world set_field].
  unfold set_field at 1. cbn [ib_world]. rewrite Hfail. cbn.
  unfold sm_bind, reply, on_client, sm_zoom. cbn. by destruct (write_all failed client') as [c [[]|e|]].
Qed.

(** ** On the scripted network *)

#[export] Instance Script_sockets : MixedSockets Script := {
  tcp_peek p :=
    if is_empty (incoming p) && bool_decide (io_kind (at_end p) = WouldBlock) then (p, Err (at_end p))
    else (p, Ok (take 1 (incoming p)));
  tcp_try_clone _ := Ok tt;
  udp_local_addr _ := sm_ret (mkSocketAddr (V4 2130706433) 1080)
}.

Definition sample_clocks (_ : nat) : RoundClock := mkRoundClock 0 0 0.

Definition sample_runtime : MixedProxyRuntime := mixed_runtime_from_cli ["blocked.example"] default_relay_options
  MixedDnsOptions_default.

Definition sample_client (request : string) : Pipe :=
  mkPipe (as_bytes (request +:+ crlf +:+ crlf)) end_of_stream [].

Definition sample_worker (request : string) : Inbound Script :=
  mkInbound Script _ (sample_client request) (mkScript [] [] 0) MetricsState_default None.

(** A datagram for www.blocked.example, and an association's control stream that is silent. *)
Definition blocked_datagram : list Z :=
  [0; 0; 0; 3; 19] ++ as_bytes "www.blocked.example" ++ [1; 187; 7].

Definition silent_association : Inbound Script :=
  mkInbound Script _ (mkPipe [] end_of_stream [] : TcpStream) (mkScript [] [] 0) MetricsState_default None.

Lemma blocked_target_refused_witness :
  outgoing (ib_client (handle_http_connect_connection 9 sample_clocks sample_runtime
    (sample_worker "CONNECT www.blocked.example:443 HTTP/1.1")).1) = http_forbidden_response /\
  (relay_socks5_udp_datagram (Net := Script_network) sample_runtime tt tt blocked_datagram (mkSocketAddr (V4 1) 5) 1000
    silent_association).2 = Ok tt.
Proof.
  split.
  - destruct (blocked_target_refused (W := Script) (Net := Script_network) 9 sample_clocks sample_runtime
      (mkOutboundTarget "www.blocked.example" 443)
      (sample_worker "CONNECT www.blocked.example:443 HTTP/1.1")) as [H _].
    + vm_compute. reflexivity.
    + rewrite (H "http-connect" http_forbidden_response (mkPipe [] end_of_stream [])
        (handle_http_connect_connection 9 sample_clocks)); [reflexivity|].
      apply (asks_http_connect (W := Script) (Net := Script_network) 9 sample_clocks _ _ (mkHttpConnectRequest "www.blocked.example" 443 "HTTP/1.1")).
      vm_compute. reflexivity.
  - destruct (blocked_target_refused (W := Script) (Net := Script_network) 9 sample_clocks sample_runtime
      (mkOutboundTarget "www.blocked.example" 443)
      silent_association) as [_ H].
    + vm_compute. reflexivity.
    + rewrite (H _ _ _ _ _ (mkSocks5UdpDatagram (Socks5_Domain "www.blocked.example") 443 [7]));
        [reflexivity|vm_compute; reflexivity|reflexivity].
Defined.

Lemma connection_reported_once_witness :
  total_connection_count (ib_metrics (handle_http_connect_connection 9 sample_clocks sample_runtime
    (sample_worker "CONNECT www.blocked.example:443 HTTP/1.1")).1) = 1.
Proof.
  destruct (connection_reported_once (W := Script) (Net := Script_network) 9 sample_clocks sample_runtime "http-connect" http_forbidden_response
    (sample_client "CONNECT www.blocked.example:443 HTTP/1.1") (mkPipe [] end_of_stream [])
    (mkOutboundTarget "www.blocked.example" 443) (handle_http_connect_connection 9 sample_clocks)
    (sample_worker "CONNECT www.blocked.example:443 HTTP/1.1")) as [_ H].
  - apply (asks_http_connect (W := Script) (Net := Script_network) 9 sample_clocks _ _ (mkHttpConnectRequest "www.blocked.example" 443 "HTTP/1.1")).
    vm_compute. reflexivity.
  - reflexivity.
  - destruct H as (report & at_ & _ & _ & ->); [vm_compute; reflexivity|].
    destruct report as [? ? ? [] [] ? ? [[]|] ?]; reflexivity.
Defined.

Lemma failed_connection_counted_as_direct_witness :
  error_kind_counts (ib_metrics (handle_http_connect_connection 9 sample_clocks sample_runtime
    (sample_worker "CONNECT nowhere.example:443 HTTP/1.1")).1) = [(DnsResolveFailed, 1)].
Proof.
  rewrite (failed_connection_counted_as_direct (W := Script) (Net := Script_network) 9 sample_clocks sample_runtime "http-connect"
    http_forbidden_response (sample_client "CONNECT nowhere.example:443 HTTP/1.1")
    (mkPipe [] end_of_stream []) (mkOutboundTarget "nowhere.example" 443)
    (handle_http_connect_connection 9 sample_clocks)
    (sample_worker "CONNECT nowhere.example:443 HTTP/1.1") (mkScript [] [] 0)
    (dns_to_io (ResolveFailed "nowhere.example" "no such name"))).
  - reflexivity.
  - apply (asks_http_connect (W := Script) (Net := Script_network) 9 sample_clocks _ _ (mkHttpConnectRequest "nowhere.example" 443 "HTTP/1.1")).
    vm_compute. reflexivity.
  - reflexivity.
  - vm_compute. reflexivity.
Defined.

(** ** Names *)

Definition with_dns_options (options : MixedDnsOptions) (runtime : MixedProxyRuntime) : MixedProxyRuntime :=
  mkMixedRuntime (runtime_routes runtime) (runtime_relay_options runtime) (runtime_outbounds runtime)
    options (runtime_tun_tcp_max_active_sessions runtime) (runtime_history_limit runtime) (runtime_max_connection_workers runtime).

Definition public_name (host : string) : Prop :=
  parse_ip_addr host = None /\ parse_ip_addr (normalize_host host) = None /\
  normalize_host host <> "localhost".

(** Under the policy [PreventPublicLeak] a direct connection to a public name fails
    before any step of the network; but a direct datagram of a SOCKS5 association to the
    same name is sent to the address that the system's resolver gives, whatever the DNS
    options are. *)
Theorem dns_policy_spares_datagrams {W} {Net : Network W} {SsCrypto : ShadowsocksCrypto}
  {Crypto : VmessCrypto} runtime target (w : W)
  (Hroute : route_of runtime target = Route_Direct) (Hname : public_name (target_host target))
  (Hpolicy : local_resolution_policy (runtime_dns_options runtime) = PreventPublicLeak) :
  connect_by_route target runtime w =
    (w, Err (dns_to_io (LocalResolutionBlocked (normalize_host (target_host target)) PreventPublicLeak))) /\
  (forall ip addresses, to_socket_addrs w (target_host target) = Ok (ip :: addresses) ->
     resolve_udp_socket_addr target w = Ok (mkSocketAddr ip (target_port target))) /\
  (forall relay outbound request client_addr timeout datagram options s,
     parse_socks5_udp_datagram request = Ok datagram ->
     target = outbound_target_from_socks5_udp (datagram_address datagram) (datagram_port datagram) ->
     relay_socks5_udp_datagram runtime relay outbound request client_addr timeout s =
     relay_socks5_udp_datagram (with_dns_options options runtime) relay outbound request client_addr timeout s).
Proof.
  destruct Hname as (Hip & Hnorm & Hlocal). split_and!.
  - unfold connect_by_route. unfold route_of in Hroute. rewrite Hroute.
    unfold with_engine, DirectTcpConnector_connect_with_dns, dns_resolve, sm_bind, sm_get, sm_zoom.
    unfold DnsEngine_resolve, sm_bind, sm_get. cbn. rewrite Hnorm, Hpolicy. cbn.
    by rewrite (proj2 (String.eqb_neq _ _) Hlocal).
  - intros ip addresses H. unfold resolve_udp_socket_addr. by rewrite Hip, H.
  - intros relay outbound request client_addr timeout datagram options s Hp ->.
    unfold relay_socks5_udp_datagram. rewrite Hp. unfold sm_lift. cbn [map_err]. unfold sm_bind.
    unfold route_of in Hroute. cbn [runtime_routes with_dns_options]. rewrite Hroute. done.
Qed.

Lemma dns_policy_spares_datagrams_witness :
  resolve_udp_socket_addr (W := Script) (mkOutboundTarget "server.example" 53) (mkScript [] [] 0) =
  Ok (mkSocketAddr (V4 3221225985) 53).
Proof.
  destruct (dns_policy_spares_datagrams
    (with_dns_options (mkMixedDnsOptions PreventPublicLeak DualStack 0) sample_runtime)
    (mkOutboundTarget "server.example" 53) (mkScript [] [] 0)) as (_ & H & _).
  - vm_compute. reflexivity.
  - split_and!; [vm_compute; reflexivity..|vm_compute; discriminate].
  - reflexivity.
  - apply (H _ []). reflexivity.
Defined.

(** ** The end of an association *)

Section Session.
Context {W : Type} {Net : Network W} {Sockets : MixedSockets W}.
Context {SsCrypto : ShadowsocksCrypto} {Crypto : VmessCrypto}.

(** A client that keeps its control connection open and sends nothing, on a system whose
    clock advances by at least a millisecond with every wait for a datagram. *)
Record idle_client (relay : UdpSocket) (open : TcpStream -> Prop) (quiet : W -> Prop) : Prop := {
  idle_peek : forall client, open client -> exists client' error,
    tcp_peek client = (client', Err error) /\ is_pause error = true /\ open client';
  idle_wait : forall w, quiet w -> exists w' error,
    udp_recv_from relay 65535 w = (w', Err error) /\ is_pause error = true /\ quiet w' /\
    instant_now w + 1000000 <= instant_now w'
}.

Context (relay : UdpSocket) (open : TcpStream -> Prop) (quiet : W -> Prop).
Context (Hidle : idle_client relay open quiet).

Lemma control_open s :
  open (ib_client s) -> exists client',
  socks5_udp_control_is_closed s = (s <| ib_client := client' |>, Ok false) /\ open client'.
Proof.
  intros H. destruct (idle_peek _ _ _ Hidle (ib_client s) H) as (client' & error & Hp & He & Ho).
  exists client'. unfold socks5_udp_control_is_closed, sm_bind, sm_catch, on_client, sm_zoom.
  rewrite Hp. cbn. unfold id. by rewrite He.
Qed.

Lemma session_loop_ends left runtime outbound first idle started last received s :
  open (ib_client s) -> quiet (ib_world s) ->
  Z.max 0 ((if received : bool then idle else first) -
           (instant_now (ib_world s) - (if received : bool then last else started)))
    < Z.of_nat left * 1000000 ->
  exists s', udp_session_loop left runtime relay outbound first idle started last received s =
             (s', Ok (Some tt)) /\ ib_metrics s' = ib_metrics s /\ ib_remote s' = ib_remote s.
Proof.
  revert s. induction left as [|left IH]; intros s Hopen Hquiet Hleft; [lia|].
  cbn [udp_session_loop]. destruct (control_open s Hopen) as (c1 & H1 & Ho1).
  unfold sm_bind at 1. rewrite H1. unfold sm_bind at 1, sm_catch at 1, on_world at 1, sm_zoom at 1.
  unfold set_field at 1. cbn [ib_world].
  destruct (idle_wait _ _ _ Hidle (ib_world s) Hquiet) as (w' & error & Hr & He & Hq & Ht). rewrite Hr.
  cbn [map_err]. unfold id. rewrite He. unfold set_field. cbn [ib_client ib_world ib_metrics ib_remote].
  match goal with |- context [sm_bind socks5_udp_control_is_closed _ ?t] => set (s1 := t) end.
  destruct (control_open s1 Ho1) as (c2 & H2 & Ho2). unfold sm_bind at 1. rewrite H2.
  unfold sm_bind at 1. unfold now at 1, sm_bind at 1, sm_get at 1, sm_ret at 1.
  unfold set_field. cbn [ib_client ib_world ib_metrics ib_remote].
  destruct (_ <=? _) eqn:Hend; [eexists; split_and!; reflexivity|].
  apply Z.leb_gt in Hend. cbn [ib_world s1] in Hend.
  match goal with |- context [udp_session_loop left _ _ _ _ _ _ _ _ ?t] =>
    destruct (IH t) as (s' & Hs' & Hm) end; [done|done| |by exists s'].
  cbn [ib_world s1]. destruct received; lia.
Qed.
End Session.

(** A datagram that does not parse, a fragment for example, ends the association: the error
    of the parser is that of the session. *)
Lemma malformed_datagram_ends_association {W} {Net : Network W} {Sockets : MixedSockets W}
  {SsCrypto : ShadowsocksCrypto} {Crypto : VmessCrypto} left runtime relay outbound first idle
  started last received (s s1 : Inbound W) w' request client_addr error :
  socks5_udp_control_is_closed s = (s1, Ok false) ->
  udp_recv_from relay 65535 (ib_world s1) = (w', Ok (request, client_addr)) ->
  parse_socks5_udp_datagram request = Err error ->
  udp_session_loop (S left) runtime relay outbound first idle started last received s =
  (s1 <| ib_world := w' |>, Err (to_io_error (Socks5Error_fmt error))).
Proof.
  intros H1 H2 H3. cbn [udp_session_loop]. unfold sm_bind at 1. rewrite H1.
  unfold sm_bind at 1, sm_catch, on_world, sm_zoom. rewrite H2. cbn.
  unfold sm_bind at 1. unfold relay_socks5_udp_datagram, sm_bind at 1, sm_lift. by rewrite H3.
Qed.

(** An association whose client stays silent ends without an error, within as many turns
    as there are milliseconds in the time limit for the first datagram (30 seconds by
    default): the worker is given back, and nothing is reported. *)
Theorem idle_association_ends {W} {Net : Network W} {Sockets : MixedSockets W}
  {SsCrypto : ShadowsocksCrypto} {Crypto : VmessCrypto} turns runtime relay outbound open quiet
  first idle (s : Inbound W)
  (Hidle : idle_client relay open quiet) (Hopen : open (ib_client s)) (Hquiet : quiet (ib_world s))
  (Hturns : Z.max 0 first < Z.of_nat turns * 1000000) :
  exists s', relay_socks5_udp_session turns runtime relay outbound first idle s = (s', Ok (Some tt)) /\
             ib_metrics s' = ib_metrics s /\ ib_remote s' = ib_remote s.
Proof.
  unfold relay_socks5_udp_session, sm_bind, now, sm_bind, sm_get, sm_ret.
  apply (session_loop_ends relay open quiet Hidle); [done..|]. cbn. lia.
Qed.

Definition quiet_worker : Inbound Script :=
  mkInbound Script _ (mkPipe [] no_data_yet []) (mkScript [] [] 0) MetricsState_default None.

Lemma idle_association_ends_witness :
  exists s', relay_socks5_udp_session (W := Script) 501 sample_runtime tt tt 500000000
               DEFAULT_IDLE_TIMEOUT quiet_worker = (s', Ok (Some tt)) /\
             ib_metrics s' = MetricsState_default /\ ib_remote s' = None.
Proof.
  apply (idle_association_ends (W := Script) (Net := Script_network) 501 sample_runtime tt tt
    (fun client => client = mkPipe [] no_data_yet []) (fun w => script_datagram w = [])).
  - split.
    + intros client ->. do 2 eexists. split; [reflexivity|done].
    + intros [bytes datagram t] Hd. cbn in Hd. subst datagram. do 2 eexists.
      split; [reflexivity|]. split; [done|]. split; [done|]. cbn. lia.
  - reflexivity.
  - reflexivity.
  - lia.
Defined.

(** ** Blocking rules and their texts *)

(** What the options of the command line say. *)
Inductive BlockOption : Type :=
| Block_Domain (suffix : string)
| Block_Cidr (cidr : RouteIpCidr)
| Block_Port (range : CliPortRange).

Definition block_option_value (option : BlockOption) : string :=
  match option with
  | Block_Domain suffix => suffix
  | Block_Cidr cidr => block_cidr_rule_value cidr
  | Block_Port range => block_port_rule_value range
  end.

Definition block_option_rule (option : BlockOption) : RouteRule :=
  match option with
  | Block_Domain suffix => block_domain_rule suffix
  | Block_Cidr cidr => block_cidr_rule cidr
  | Block_Port range => block_port_rule range
  end.

(** A suffix that is not taken for another rule, an IPv4 block that [RouteIpCidr::new] made,
    ports that [parse_cli_block_port] accepts. *)
Definition block_option_ok (option : BlockOption) : Prop :=
  match option with
  | Block_Domain suffix =>
      strip_prefix BLOCK_CIDR_RULE_PREFIX suffix = None /\ strip_prefix BLOCK_PORT_RULE_PREFIX suffix = None
  | Block_Cidr cidr =>
      exists network prefix_len, 0 <= network < 2 ^ 32 /\ 0 <= prefix_len <= 32 /\
        RouteIpCidr_new (V4 network) prefix_len = Ok cidr
  | Block_Port range => 1 <= range_start range <= range_end range /\ range_end range <= 65535
  end.

Lemma strip_prefix_app p s : strip_prefix p (p +:+ s) = Some s.
Proof.
  induction p as [|a p IH]; [done|]. change (String a p +:+ s) with (String a (p +:+ s)).
  cbn [strip_prefix]. by rewrite (proj2 (Ascii.eqb_eq a a) eq_refl).
Qed.

Lemma split_once_none c s : has_char c s = false -> split_once c s = None.
Proof.
  induction s as [|a s IH]; [done|]. cbn. destruct (Ascii.eqb a c); [done|]. intros H. by rewrite IH.
Qed.

(** A character that is no digit is not in a decimal number. *)
Definition not_digit (c : Ascii.ascii) : Prop := forall d, 0 <= d < 10 -> Ascii.eqb (digit_char d) c = false.

Ltac solve_not_digit :=
  intros d Hd;
  assert (d = 0 \/ d = 1 \/ d = 2 \/ d = 3 \/ d = 4 \/ d = 5 \/ d = 6 \/ d = 7 \/ d = 8 \/ d = 9) as Hc by lia;
  by destruct_or! Hc; subst d.

Lemma slash_not_digit : not_digit "/"%char.
Proof. solve_not_digit. Qed.

Lemma minus_not_digit : not_digit "-"%char.
Proof. solve_not_digit. Qed.

Lemma digits_acc_without c fuel n acc :
  not_digit c -> 0 <= n -> has_char c (digits_acc fuel 10 n acc) = has_char c acc.
Proof.
  intros Hc. revert n acc. induction fuel as [|fuel IH]; intros n acc Hn; [done|]. cbn [digits_acc].
  pose proof (Hc (n mod 10) (Z.mod_pos_bound n 10 ltac:(lia))) as Hd.
  case_match; [|rewrite IH by (apply Z.div_pos; lia)]; cbn; by rewrite Hd.
Qed.

Lemma to_decimal_without c n : not_digit c -> 0 <= n -> has_char c (to_decimal n) = false.
Proof. intros Hc Hn. unfold to_decimal. by rewrite digits_acc_without. Qed.

Lemma join_without c sep parts :
  has_char c sep = false -> Forall (fun part => has_char c part = false) parts ->
  has_char c (join sep parts) = false.
Proof.
  intros Hs Hp. unfold join. induction Hp as [|part parts Hpart Hp IH]; [done|].
  destruct parts as [|next parts]; [done|].
  change (String.concat sep (part :: next :: parts)) with (part +:+ sep +:+ String.concat sep (next :: parts)).
  by rewrite !has_char_app, Hpart, Hs, IH.
Qed.

Lemma v4_text_without c a :
  not_digit c -> Ascii.eqb "."%char c = false -> has_char c (v4_to_string a) = false.
Proof.
  intros Hc Hdot. unfold v4_to_string. apply join_without; [unfold has_char; by rewrite Hdot|].
  apply Forall_map. apply (List.Forall_impl _ (P := is_u8)); [|apply (to_be_bytes_ok 4 a)].
  intros n Hn. apply to_decimal_without; [done|]. unfold is_u8 in Hn. lia.
Qed.

(** ** What the texts stand for *)

Lemma parse_u8_text n : 0 <= n <= 255 -> parse_u8 (to_decimal n) = Some n.
Proof.
  intros Hn. unfold parse_u8. destruct (port_text n) as (-> & _); [unfold is_u16; lia|].
  by replace (n <=? 255) with true by lia.
Qed.

Lemma land_below n a m : 0 <= n -> 0 <= a < 2 ^ n -> 0 <= Z.land a m < 2 ^ n.
Proof.
  intros Hn Ha. rewrite <- (Z.mod_small a (2 ^ n)) by done. rewrite <- Z.land_ones by done.
  rewrite (Z.land_comm a), <- Z.land_assoc, Z.land_comm, Z.land_ones by done.
  apply Z.mod_pos_bound. lia.
Qed.

Lemma parse_cidr_text network prefix_len cidr :
  0 <= network < 2 ^ 32 -> 0 <= prefix_len <= 32 -> RouteIpCidr_new (V4 network) prefix_len = Ok cidr ->
  parse_cli_block_cidr (cidr_text cidr) = Ok cidr.
Proof.
  intros Hn Hp [_ ->]%RouteIpCidr_new_Ok. unfold cidr_text, parse_cli_block_cidr.
  cbn [cidr_network cidr_prefix_len mask_ip ip_to_string].
  set (masked := Z.land network _).
  assert (Hm : 0 <= masked < 2 ^ 32) by (by apply land_below).
  change ("/" +:+ to_decimal prefix_len) with (String "/" (to_decimal prefix_len)).
  rewrite split_once_first by (apply v4_text_without; [apply slash_not_digit|done]).
  change (v4_to_string masked) with (ip_to_string (V4 masked)).
  rewrite parse_v4_to_string by done. cbn [ok_or result_bind].
  rewrite parse_u8_text by lia. cbn [ok_or result_bind].
  unfold RouteIpCidr_new. replace (32 <? prefix_len) with false by lia. cbn [map_err]. do 2 f_equal.
  apply (mask_ip_idem (V4 network)).
Qed.

Lemma parse_block_port_text input n : 1 <= n <= 65535 -> parse_block_port input (to_decimal n) = Ok n.
Proof.
  intros Hn. unfold parse_block_port. destruct (port_text n) as (-> & _); [unfold is_u16; lia|].
  cbn. by replace (n =? 0) with false by lia.
Qed.

Lemma parse_port_text range :
  1 <= range_start range <= range_end range -> range_end range <= 65535 ->
  parse_cli_block_port (range_label range) = Ok range.
Proof.
  intros Hs He. destruct range as [start end_]. cbn in Hs, He. unfold range_label, parse_cli_block_port.
  cbn [range_start range_end]. destruct (Z.eqb_spec start end_) as [<-|Hne].
  - rewrite split_once_none by (apply to_decimal_without; [apply minus_not_digit|lia]).
    by rewrite parse_block_port_text by lia.
  - change ("-" +:+ to_decimal end_) with (String "-" (to_decimal end_)).
    rewrite split_once_first by (apply to_decimal_without; [apply minus_not_digit|lia]).
    rewrite !parse_block_port_text by lia. cbn [result_bind]. by replace (end_ <? start) with false by lia.
Qed.

Lemma route_rule_of_option option :
  block_option_ok option -> route_rule_of (block_option_value option) = block_option_rule option.
Proof.
  destruct option as [suffix|cidr|range]; cbn [block_option_ok block_option_value block_option_rule];
    unfold route_rule_of, as_cidr, as_port.
  - intros [-> ->]. done.
  - intros (network & prefix_len & Hn & Hp & Hc). unfold block_cidr_rule_value.
    by rewrite strip_prefix_app, (parse_cidr_text network prefix_len).
  - intros [Hs He]. unfold block_port_rule_value. rewrite strip_prefix_app, parse_port_text by done. done.
Qed.

Lemma routes_from_cli_rules block_domains default_action :
  routes_from_cli block_domains default_action =
  mkRouteEngine (map route_rule_of block_domains) default_action.
Proof.
  unfold routes_from_cli.
  assert (H : forall rules, foldl (fun routes rule => RouteEngine_add_rule routes (route_rule_of rule))
    (mkRouteEngine rules default_action) block_domains =
    mkRouteEngine (rules ++ map route_rule_of block_domains) default_action).
  { induction block_domains as [|rule block_domains IH]; intros rules; cbn; [by rewrite app_nil_r|].
    unfold RouteEngine_add_rule at 2. cbn. by rewrite IH, <- app_assoc. }
  apply (H []).
Qed.

(** The blocking options of the command line survive the texts that they are handed on
    as: every domain, address block and port range becomes exactly the rule it was, in the
    same order, before the default action. *)
Theorem block_options_roundtrip options default_action
  (Hok : Forall block_option_ok options) :
  routes_from_cli (map block_option_value options) default_action =
  mkRouteEngine (map block_option_rule options) default_action.
Proof.
  rewrite routes_from_cli_rules, map_map. f_equal. induction Hok as [|option options Ho _ IH]; [done|].
  cbn [map]. by rewrite route_rule_of_option, IH.
Qed.

Lemma block_options_roundtrip_witness :
  decision_action (RouteEngine_decide_destination
    (routes_from_cli ["ads.example"; "cidr:10.0.0.0/8"; "port:25"; "port:6881-6999"] Route_Direct)
    (RouteDestination_new (Target_Ip (V4 167837698)) 6900)) = Route_Block.
Proof.
  pose proof (block_options_roundtrip
    [Block_Domain "ads.example"; Block_Cidr (mkRouteIpCidr (V4 167772160) 8);
     Block_Port (mkCliPortRange 25 25); Block_Port (mkCliPortRange 6881 6999)] Route_Direct) as H.
  change (map block_option_value _) with ["ads.example"; "cidr:10.0.0.0/8"; "port:25"; "port:6881-6999"] in H.
  rewrite H; [vm_compute; reflexivity|].
  repeat constructor; cbn; try lia.
  exists 167772160, 8. split; [lia|]. split; [lia|]. vm_compute. reflexivity.
Defined.

(** ** Runtimes *)

Lemma from_profiles_returns profiles : from_profiles profiles <> Panic.
Proof.
  unfold from_profiles. generalize OutboundRegistry_new as r.
  induction profiles as [|profile profiles IH]; intros r; [done|].
  cbn [add_profiles]. unfold sm_bind.
  destruct (add_profile_effect profile) as [(f & _ & H)|(e & H)]; rewrite H; [apply IH|done].
Qed.

Lemma from_profiles_succeeds profiles :
  Forall acceptable profiles <-> exists registry, from_profiles profiles = Ok registry.
Proof.
  rewrite <- (add_profiles_accepts profiles OutboundRegistry_new). unfold succeeds. split.
  - intros (registry & [] & H). exists registry. by apply from_profiles_ok.
  - intros (registry & H). exists registry, tt. by apply from_profiles_ok.
Qed.

Lemma supported_profiles_spec text profiles skipped :
  exists kept dropped,
  supported_profiles text profiles skipped = Ok (mkParsed kept (skipped ++ dropped)) /\
  Forall acceptable kept /\ sublist kept profiles /\
  (forall profile, profile ∈ profiles ->
     (acceptable profile /\ profile ∈ kept) \/
     (~ acceptable profile /\ profile_tag profile ∈ map skipped_name dropped)).
Proof.
  revert skipped. induction profiles as [|profile profiles IH]; intros skipped; cbn [supported_profiles].
  { exists [], []. rewrite app_nil_r. split_and!; [done|constructor|constructor|].
    intros profile Hp. by apply not_elem_of_nil in Hp. }
  pose proof (from_profiles_succeeds [profile]) as Hacc. rewrite Forall_singleton in Hacc.
  destruct (from_profiles [profile]) as [registry|error|] eqn:Hf.
  - destruct (IH skipped) as (kept & dropped & -> & Hk & Hsub & Hall). exists (profile :: kept), dropped.
    assert (Hp : acceptable profile) by (apply Hacc; by exists registry).
    split_and!; [done|by constructor|by constructor|].
    intros p [->|Hin]%elem_of_cons; [left; split; [done|by left]|].
    destruct (Hall p Hin) as [[? ?]|?]; [left; split; [done|by right]|by right].
  - destruct (IH (skipped ++ [mkSkipped (profile_tag profile) ("registry unsupported: " +:+ text error)]))
      as (kept & dropped & -> & Hk & Hsub & Hall).
    exists kept, (mkSkipped (profile_tag profile) ("registry unsupported: " +:+ text error) :: dropped).
    assert (Hp : ~ acceptable profile) by (intros [registry ?]%Hacc; congruence).
    rewrite <- app_assoc. split_and!; [done|done|by constructor|].
    intros p [->|Hin]%elem_of_cons; [right; split; [done|by left]|].
    destruct (Hall p Hin) as [?|[? ?]]; [by left|right; split; [done|by right]].
  - by destruct (from_profiles_returns [profile]).
Qed.

(** What the registry supports of a subscription always makes a runtime. The filter ends
    without an error; it keeps, in order, exactly the profiles the registry takes and names
    every other one as skipped; and if any is left, the runtime for it is made: its rules
    come first, and what they let through goes to the first profile, or to the chosen tag
    if it is there. A tag that is not there is the only refusal. *)
Theorem supported_profiles_make_runtime text parsed block_domains relay_options dns_options :
  exists kept dropped,
  profiles_with_registry_supported_outbounds text parsed =
    Ok (mkParsed kept (parsed_skipped parsed ++ dropped)) /\
  sublist kept (parsed_profiles parsed) /\
  (forall profile, profile ∈ parsed_profiles parsed ->
     (acceptable profile /\ profile ∈ kept) \/
     (~ acceptable profile /\ profile_tag profile ∈ map skipped_name dropped)) /\
  (forall tag,
     (tag ∈ map profile_tag kept /\
      exists runtime registry,
        mixed_runtime_from_parsed_profiles text (mkParsed kept (parsed_skipped parsed ++ dropped))
          block_domains relay_options (Some tag) dns_options = Ok runtime /\
        from_profiles kept = Ok registry /\ runtime_outbounds runtime = registry /\
        runtime_routes runtime = mkRouteEngine (map route_rule_of block_domains) (Route_Outbound tag)) \/
     (tag ∉ map profile_tag kept /\
      mixed_runtime_from_parsed_profiles text (mkParsed kept (parsed_skipped parsed ++ dropped))
        block_domains relay_options (Some tag) dns_options =
      Err ("outbound tag not found: " +:+ tag +:+ "; available: " +:+ join ", " (map profile_tag kept)))) /\
  mixed_runtime_from_parsed_profiles text (mkParsed kept (parsed_skipped parsed ++ dropped))
    block_domains relay_options None dns_options =
  match kept with
  | [] => Err "profile config did not contain supported outbounds"
  | first :: _ =>
      mixed_runtime_from_parsed_profiles text (mkParsed kept (parsed_skipped parsed ++ dropped))
        block_domains relay_options (Some (profile_tag first)) dns_options
  end.
Proof.
  destruct (supported_profiles_spec text (parsed_profiles parsed) (parsed_skipped parsed))
    as (kept & dropped & Hf & Hk & Hsub & Hall).
  exists kept, dropped. split_and!; [done..| |by destruct kept].
  intros tag. unfold mixed_runtime_from_parsed_profiles. cbn [parsed_profiles result_bind].
  destruct (existsb _ _) eqn:Hex; cbn [negb].
  - left. apply existsb_exists in Hex as (tag' & Hin & ->%String.eqb_eq).
    split; [by apply list_elem_of_In|].
    apply from_profiles_succeeds in Hk as [registry Hr]. rewrite Hr. cbn [map_err result_bind].
    do 2 eexists. split_and!; [reflexivity|done|done|apply routes_from_cli_rules].
  - right. split; [|done]. intros Hin. apply not_true_iff_false in Hex. apply Hex, existsb_exists.
    exists tag. split; [by apply list_elem_of_In|apply String.eqb_refl].
Qed.
