(* ===== verification/Platform.v ===== *)
(** * The platform

    [crates/keli-platform/src/lib.rs]: the configuration of the system proxy and of the TUN
    device with their validation, the traits of their controllers, and the preflight of a
    device. The controllers of Windows are in [PlatformWindows] and [PlatformTun]. *)

From Stdlib Require Import Ascii.
From stdpp Require Import base strings list numbers.
From S2P Require Import Prelude.
From S2P Require Import StdNet.
From S2P Require Import StdIo.
From S2P Require Import MixedConfig.
#[local] Open Scope Z_scope.

Inductive PlatformKind : Type := Windows | Android | Macos | Linux | Unknown.

#[export] Instance PlatformKind_eq_dec : EqDecision PlatformKind.
Proof. solve_decision. Defined.

(** [{platform:?}]. *)
Definition platform_debug (platform : PlatformKind) : string :=
  match platform with
  | Windows => "Windows"
  | Android => "Android"
  | Macos => "Macos"
  | Linux => "Linux"
  | Unknown => "Unknown"
  end.

Record PlatformCapabilities : Type := mkPlatformCapabilities {
  capability_platform : PlatformKind;
  capability_system_proxy : bool;
  capability_tun : bool;
  capability_secure_storage : bool;
  capability_process_supervision : bool
}.

(** [PlatformCapabilities::detect], for the platform of the build. *)
Definition capabilities_detect (current : PlatformKind) : PlatformCapabilities :=
  match current with
  | Windows => mkPlatformCapabilities Windows true true true true
  | Android => mkPlatformCapabilities Android false true true true
  | platform => mkPlatformCapabilities platform false false false false
  end.

(** ** Text *)

(** [s.contains(char::is_whitespace)], on the bytes. *)
Fixpoint has_whitespace (l : list Z) : bool :=
  match l with
  | [] => false
  | b0 :: l1 =>
      is_ws1 b0
      || match l1 with
         | b1 :: l2 => is_ws2 b0 b1 || match l2 with b2 :: _ => is_ws3 b0 b1 b2 | [] => false end
         | [] => false
         end
      || has_whitespace l1
  end.

(** [s.split_once(char::is_whitespace)]: what follows the first white space. *)
Fixpoint after_whitespace (l : list Z) : option (list Z) :=
  match l with
  | [] => None
  | b0 :: l1 =>
      if is_ws1 b0 then Some l1
      else
        match l1 with
        | [] => None
        | b1 :: l2 =>
            if is_ws2 b0 b1 then Some l2
            else
              match l2 with
              | [] => after_whitespace l1
              | b2 :: l3 => if is_ws3 b0 b1 b2 then Some l3 else after_whitespace l1
              end
        end
  end.

(** [i32::to_string]. *)
Definition signed_text (n : Z) : string :=
  if n <? 0 then "-" +:+ to_decimal (- n) else to_decimal n.

(** [u32::from_str_radix(s, radix)] and [s.parse::<u32>()]. *)
Definition u32_max : Z := 4294967295.

Fixpoint digits_value (radix value : Z) (s : string) : option Z :=
  match s with
  | EmptyString => Some value
  | String a s' =>
      match to_digit radix a with
      | Some d =>
          if u32_max <? value * radix + d then None else digits_value radix (value * radix + d) s'
      | None => None
      end
  end.

Definition u32_from_str_radix (radix : Z) (s : string) : option Z :=
  let digits := match s with String "+"%char s' => s' | _ => s end in
  if String.eqb digits "" then None else digits_value radix 0 digits.

(** ** The system proxy *)

Inductive SystemProxyError : Type :=
| Proxy_UnsupportedPlatform (platform : PlatformKind)
| InvalidProxyServer (server : string)
| Proxy_IoError (error : string)
| CommandFailed (program : string) (code : option Z) (stderr : string).

Definition SystemProxyError_fmt (error : SystemProxyError) : string :=
  match error with
  | Proxy_UnsupportedPlatform platform => "system proxy is unsupported on " +:+ platform_debug platform
  | InvalidProxyServer server => "invalid system proxy server: " +:+ server
  | Proxy_IoError error => "system proxy command failed: " +:+ error
  | CommandFailed program code stderr =>
      program +:+ " exited with code "
      +:+ match code with Some code => signed_text code | None => "unknown" end +:+ ": " +:+ stderr
  end.

(** [!host.trim_matches(['[', ']']).is_empty() && port.parse::<u16>().is_ok_and(...)]. *)
Definition proxy_host_port_ok (trimmed : string) : bool :=
  match rsplit_once ":"%char trimmed with
  | Some (host, port) =>
      negb (String.eqb (trim_brackets host) "")
      && match parse_u16 port with Some port => negb (port =? 0) | None => false end
  | None => false
  end.

Definition validate_proxy_server (server : string) : result SystemProxyError unit :=
  let trimmed := trim server in
  if String.eqb trimmed "" || has_whitespace (as_bytes trimmed) || negb (proxy_host_port_ok trimmed)
  then Err (InvalidProxyServer server) else Ok tt.

Record SystemProxyConfig : Type := mkSystemProxyConfig {
  proxy_config_server : string;
  proxy_config_bypass : list string
}.

Definition SystemProxyConfig_new (server : string) : result SystemProxyError SystemProxyConfig :=
  _ <-? validate_proxy_server server;
  Ok (mkSystemProxyConfig server []).

Definition SystemProxyConfig_mixed_inbound (listen : string) (port : Z)
  : result SystemProxyError SystemProxyConfig :=
  SystemProxyConfig_new (listen +:+ ":" +:+ to_decimal port).

Definition with_bypass (bypass : list string) (self : SystemProxyConfig) : SystemProxyConfig :=
  mkSystemProxyConfig (proxy_config_server self) bypass.

Definition bypass_value (self : SystemProxyConfig) : option string :=
  if is_empty (proxy_config_bypass self) then None else Some (join ";" (proxy_config_bypass self)).

Record SystemProxySnapshot : Type := mkSystemProxySnapshot {
  proxy_enable : option Z;
  proxy_server : option string;
  proxy_override : option string
}.

(** [SystemProxySnapshot::enabled]. *)
Definition snapshot_enabled (self : SystemProxySnapshot) : bool :=
  negb (default 0 (proxy_enable self) =? 0).

(** The trait. *)
Class SystemProxyController (W : Type) := {
  controller_snapshot : SM W SystemProxyError SystemProxySnapshot;
  controller_apply : SystemProxyConfig -> SM W SystemProxyError SystemProxySnapshot;
  controller_restore : SystemProxySnapshot -> SM W SystemProxyError unit
}.

(** ** The TUN device *)

Inductive TunDeviceError : Type :=
| Tun_UnsupportedPlatform (platform : PlatformKind)
| LifecycleUnavailableOn (platform : PlatformKind)
| InvalidInterfaceName (name : string)
| InvalidAddressCidr (address : string)
| InvalidMtu (mtu : Z)
| Tun_Io (error : string).

Definition TunDeviceError_fmt (error : TunDeviceError) : string :=
  match error with
  | Tun_UnsupportedPlatform platform => "TUN is unsupported on " +:+ platform_debug platform
  | LifecycleUnavailableOn platform =>
      "TUN lifecycle backend is unavailable on " +:+ platform_debug platform
  | InvalidInterfaceName name => "invalid TUN interface name: " +:+ name
  | InvalidAddressCidr address => "invalid TUN address CIDR: " +:+ address
  | InvalidMtu mtu => "invalid TUN MTU: " +:+ to_decimal mtu
  | Tun_Io error => "TUN command failed: " +:+ error
  end.

Record TunDeviceConfig : Type := mkTunDeviceConfig {
  tun_interface_name : string;
  tun_address_cidr : string;
  tun_mtu : Z;
  tun_dns_hijack : bool
}.

#[export] Instance TunDeviceConfig_eq_dec : EqDecision TunDeviceConfig.
Proof. solve_decision. Defined.

Definition validate_tun_interface_name (name : string) : result TunDeviceError unit :=
  let trimmed := trim name in
  if String.eqb trimmed "" || (64 <? len (as_bytes trimmed)) || has_whitespace (as_bytes trimmed)
     || contains trimmed "/" || contains trimmed "\" || contains trimmed ":"
  then Err (InvalidInterfaceName name) else Ok tt.

Definition validate_tun_address_cidr (address_cidr : string) : result TunDeviceError unit :=
  match split_once "/"%char address_cidr with
  | None => Err (InvalidAddressCidr address_cidr)
  | Some (address, prefix) =>
      address <-? ok_or (InvalidAddressCidr address_cidr) (parse_ip_addr address);
      prefix <-? ok_or (InvalidAddressCidr address_cidr) (parse_u8 prefix);
      let max_prefix := match address with V4 _ => 32 | V6 _ => 128 end in
      if max_prefix <? prefix then Err (InvalidAddressCidr address_cidr) else Ok tt
  end.

Definition validate_tun_mtu (mtu : Z) : result TunDeviceError unit :=
  if (1280 <=? mtu) && (mtu <=? 9000) then Ok tt else Err (InvalidMtu mtu).

(** [TunDeviceConfig::validate]. *)
Definition validate_tun_config (self : TunDeviceConfig) : result TunDeviceError unit :=
  _ <-? validate_tun_interface_name (tun_interface_name self);
  _ <-? validate_tun_address_cidr (tun_address_cidr self);
  _ <-? validate_tun_mtu (tun_mtu self);
  Ok tt.

Definition TunDeviceConfig_new (interface_name address_cidr : string) (mtu : Z)
  : result TunDeviceError TunDeviceConfig :=
  let config := mkTunDeviceConfig interface_name address_cidr mtu false in
  _ <-? validate_tun_config config;
  Ok config.

Definition with_dns_hijack (dns_hijack : bool) (self : TunDeviceConfig) : TunDeviceConfig :=
  mkTunDeviceConfig (tun_interface_name self) (tun_address_cidr self) (tun_mtu self) dns_hijack.

Record TunDeviceSnapshot : Type := mkTunDeviceSnapshot {
  snap_supported : bool;
  snap_lifecycle_available : bool;
  snap_packet_io_available : bool;
  snap_running : bool;
  snap_interface_name : option string;
  snap_address_cidr : option string;
  snap_mtu : option Z;
  snap_dns_hijack : option bool
}.

Definition snapshot_unsupported : TunDeviceSnapshot :=
  mkTunDeviceSnapshot false false false false None None None None.

Definition stopped_supported_without_backend : TunDeviceSnapshot :=
  mkTunDeviceSnapshot true false false false None None None None.

Definition snapshot_running (config : TunDeviceConfig) : TunDeviceSnapshot :=
  mkTunDeviceSnapshot true true true true (Some (tun_interface_name config))
    (Some (tun_address_cidr config)) (Some (tun_mtu config)) (Some (tun_dns_hijack config)).

(** [TunDeviceStatus]: the fields of a snapshot and an error. *)
Record TunDeviceStatus : Type := mkTunDeviceStatus {
  tun_status_snapshot : TunDeviceSnapshot;
  tun_status_error : option string
}.

(** [TunDeviceStatus::from_snapshot]. *)
Definition status_from_snapshot (snapshot : TunDeviceSnapshot) (error : option TunDeviceError)
  : TunDeviceStatus :=
  mkTunDeviceStatus snapshot (TunDeviceError_fmt <$> error).

(** The trait. *)
Class TunDeviceController (W : Type) := {
  tun_snapshot : SM W TunDeviceError TunDeviceSnapshot;
  tun_start : TunDeviceConfig -> SM W TunDeviceError TunDeviceSnapshot;
  tun_stop : SM W TunDeviceError TunDeviceSnapshot
}.

(** ** Preflight *)

Inductive TunDeviceReadiness : Type :=
| Ready
| AlreadyRunning
| RunningConflict
| LifecycleUnavailable
| PacketIoUnavailable
| ReadinessUnsupported
| InvalidConfig
| SnapshotFailed.

#[export] Instance TunDeviceReadiness_eq_dec : EqDecision TunDeviceReadiness.
Proof. solve_decision. Defined.

Definition readiness_label (self : TunDeviceReadiness) : string :=
  match self with
  | Ready => "ready"
  | AlreadyRunning => "already-running"
  | RunningConflict => "running-conflict"
  | LifecycleUnavailable => "lifecycle-unavailable"
  | PacketIoUnavailable => "packet-io-unavailable"
  | ReadinessUnsupported => "unsupported"
  | InvalidConfig => "invalid-config"
  | SnapshotFailed => "snapshot-failed"
  end.

Definition readiness_is_ready (self : TunDeviceReadiness) : bool :=
  match self with Ready | AlreadyRunning => true | _ => false end.

Definition tun_snapshot_matches_config (snapshot : TunDeviceSnapshot) (config : TunDeviceConfig) : bool :=
  bool_decide (snap_interface_name snapshot = Some (tun_interface_name config))
  && bool_decide (snap_address_cidr snapshot = Some (tun_address_cidr config))
  && bool_decide (snap_mtu snapshot = Some (tun_mtu config))
  && bool_decide (snap_dns_hijack snapshot = Some (tun_dns_hijack config)).

Definition tun_readiness_from_snapshot (snapshot : TunDeviceSnapshot) (config : TunDeviceConfig)
  : TunDeviceReadiness :=
  if negb (snap_supported snapshot) then ReadinessUnsupported
  else if negb (snap_lifecycle_available snapshot) then LifecycleUnavailable
  else if negb (snap_packet_io_available snapshot) then PacketIoUnavailable
  else if snap_running snapshot then
    if tun_snapshot_matches_config snapshot config then AlreadyRunning else RunningConflict
  else Ready.

Definition bool_text (b : bool) : string := if b then "true" else "false".

Definition tun_readiness_reason (readiness : TunDeviceReadiness) (snapshot : TunDeviceSnapshot)
  (error : option TunDeviceError) : option string :=
  match readiness with
  | Ready => None
  | AlreadyRunning => Some "TUN device is already running with the requested config"
  | RunningConflict =>
      Some ("TUN device is already running with interface=" +:+ default "-" (snap_interface_name snapshot)
            +:+ ", address=" +:+ default "-" (snap_address_cidr snapshot)
            +:+ ", mtu=" +:+ default "-" (to_decimal <$> snap_mtu snapshot)
            +:+ ", dns_hijack=" +:+ default "-" (bool_text <$> snap_dns_hijack snapshot))
  | LifecycleUnavailable => Some "TUN lifecycle backend is unavailable"
  | PacketIoUnavailable => Some "TUN packet I/O backend is unavailable"
  | ReadinessUnsupported => Some "TUN is unsupported on this platform"
  | InvalidConfig | SnapshotFailed => TunDeviceError_fmt <$> error
  end.

Record TunDevicePreflight : Type := mkTunDevicePreflight {
  preflight_config : TunDeviceConfig;
  preflight_status : TunDeviceStatus;
  preflight_readiness : TunDeviceReadiness;
  preflight_ready : bool;
  preflight_reason : option string
}.

(** [TunDevicePreflight::from_parts]. *)
Definition preflight_from_parts (config : TunDeviceConfig) (status : TunDeviceStatus)
  (readiness : TunDeviceReadiness) (reason : option string) : TunDevicePreflight :=
  mkTunDevicePreflight config status readiness (readiness_is_ready readiness) reason.

(** [TunDevicePreflight::check]. *)
Definition preflight_check {W} {Controller : TunDeviceController W} (config : TunDeviceConfig)
  : SM W TunDeviceError TunDevicePreflight :=
  match validate_tun_config config with
  | Err error =>
      sm_ret (preflight_from_parts config (status_from_snapshot snapshot_unsupported (Some error))
                InvalidConfig (Some (TunDeviceError_fmt error)))
  | Panic => sm_lift Panic
  | Ok _ =>
      fun w =>
        match tun_snapshot w with
        | (w, Ok snapshot) =>
            let readiness := tun_readiness_from_snapshot snapshot config in
            let reason := tun_readiness_reason readiness snapshot None in
            (w, Ok (preflight_from_parts config (status_from_snapshot snapshot None) readiness reason))
        | (w, Err (Tun_UnsupportedPlatform platform)) =>
            let error := Tun_UnsupportedPlatform platform in
            (w, Ok (preflight_from_parts config (status_from_snapshot snapshot_unsupported None)
                      ReadinessUnsupported (Some (TunDeviceError_fmt error))))
        | (w, Err error) =>
            (w, Ok (preflight_from_parts config (status_from_snapshot snapshot_unsupported (Some error))
                      SnapshotFailed (Some (TunDeviceError_fmt error))))
        | (w, Panic) => (w, Panic)
        end
  end.
