(* ===== verification/PlatformWindows.v ===== *)
(** * The controllers of Windows

    [crates/keli-platform/src/lib.rs]: the system proxy in the registry, through the [reg]
    program ([NativeSystemProxyController]), and the commands of [netsh] that set up the
    interface of the TUN device and take over the default routes. *)

From Stdlib Require Import Ascii.
From stdpp Require Import base strings list numbers.
From S2P Require Import Prelude.
From S2P Require Import StdNet.
From S2P Require Import StdIo.
From S2P Require Import MixedConfig.
From S2P Require Import Platform.
#[local] Open Scope Z_scope.

(** [std::process::Output]. *)
Record CommandOutput : Type := mkCommandOutput {
  output_code : option Z;
  output_stdout : list Z;
  output_stderr : list Z
}.

(** [Command::new(program).args(args).output()] and the replacement of invalid UTF-8
    ([String::from_utf8_lossy]). *)
Class PlatformSystem (W : Type) := {
  command_output : string -> list string -> W -> W * (string + CommandOutput);
  from_utf8_lossy : list Z -> string
}.

(** [output.status.success()]. *)
Definition output_success (output : CommandOutput) : bool := bool_decide (output_code output = Some 0).

Section Windows.
Context {W : Type} {System : PlatformSystem W}.

(** ** Commands of the registry *)

Definition ProxyM (A : Type) : Type := SM W SystemProxyError A.

(** [run_command]; the two Chinese texts are as the UTF-8 bytes of the source. *)
Definition not_found_texts : list string :=
  ["The system was unable to find";
   string_of_bytes [230; 137; 190; 228; 184; 141; 229; 136; 176];
   string_of_bytes [230; 151; 160; 230; 179; 149; 230; 137; 190; 229; 136; 176]].

Definition run_command (program : string) (args : list string) : ProxyM string :=
  fun w =>
    match command_output program args w with
    | (w, inl error) => (w, Err (Proxy_IoError error))
    | (w, inr output) =>
        if output_success output then (w, Ok (from_utf8_lossy (output_stdout output)))
        else
          let stderr := trim (from_utf8_lossy (output_stderr output)) in
          if bool_decide (output_code output = Some 1) && existsb (contains stderr) not_found_texts
          then (w, Ok "")
          else (w, Err (CommandFailed program (output_code output) stderr))
    end.

Definition run_command_checked (program : string) (args : list string) : ProxyM unit :=
  _ <-! run_command program args; sm_ret tt.

Definition run_optional_registry_command (program : string) (args : list string) : ProxyM string :=
  fun w =>
    match run_command program args w with
    | (w, Err (CommandFailed _ (Some code) _ as error)) =>
        if code =? 1 then (w, Ok "") else (w, Err error)
    | outcome => outcome
    end.

Definition WINDOWS_INTERNET_SETTINGS_KEY : string :=
  "HKCU\Software\Microsoft\Windows\CurrentVersion\Internet Settings".

(** The closure of [parse_reg_value]. *)
Definition reg_value_of_line (name line : string) : option string :=
  let trimmed := trim line in
  rest ← strip_prefix name trimmed;
  rest ← strip_prefix "REG_" (trim_start_text rest);
  value ← after_whitespace (as_bytes rest);
  Some (trim (string_of_bytes value)).

Fixpoint first_some {A B} (f : A -> option B) (l : list A) : option B :=
  match l with
  | [] => None
  | a :: l' => match f a with Some b => Some b | None => first_some f l' end
  end.

Definition parse_reg_value (output name : string) : option string :=
  first_some (reg_value_of_line name) (lines output).

Definition parse_reg_dword (value : string) : option Z :=
  match match strip_prefix "0x" value with
        | Some hex => u32_from_str_radix 16 hex
        | None => None
        end with
  | Some n => Some n
  | None => u32_from_str_radix 10 value
  end.

Definition query_args (name : string) : list string :=
  ["query"; WINDOWS_INTERNET_SETTINGS_KEY; "/v"; name].

Definition windows_query_registry_dword (name : string) : ProxyM (option Z) :=
  output <-! run_optional_registry_command "reg" (query_args name);
  sm_ret (value ← parse_reg_value output name; parse_reg_dword value).

Definition windows_query_registry_string (name : string) : ProxyM (option string) :=
  output <-! run_optional_registry_command "reg" (query_args name);
  sm_ret (parse_reg_value output name).

Definition add_args (name type data : string) : list string :=
  ["add"; WINDOWS_INTERNET_SETTINGS_KEY; "/v"; name; "/t"; type; "/d"; data; "/f"].

Definition windows_set_registry_dword (name : string) (value : Z) : ProxyM unit :=
  run_command_checked "reg" (add_args name "REG_DWORD" (to_decimal value)).

Definition windows_set_registry_string (name value : string) : ProxyM unit :=
  run_command_checked "reg" (add_args name "REG_SZ" value).

Definition delete_args (name : string) : list string :=
  ["delete"; WINDOWS_INTERNET_SETTINGS_KEY; "/v"; name; "/f"].

Definition windows_delete_registry_value (name : string) : ProxyM unit :=
  _ <-! run_optional_registry_command "reg" (delete_args name); sm_ret tt.

Definition restore_windows_dword (name : string) (value : option Z) : ProxyM unit :=
  match value with
  | Some value => windows_set_registry_dword name value
  | None => windows_delete_registry_value name
  end.

Definition restore_windows_string (name : string) (value : option string) : ProxyM unit :=
  match value with
  | Some value => windows_set_registry_string name value
  | None => windows_delete_registry_value name
  end.

Definition windows_system_proxy_snapshot : ProxyM SystemProxySnapshot :=
  proxy_enable <-! windows_query_registry_dword "ProxyEnable";
  proxy_server <-! windows_query_registry_string "ProxyServer";
  proxy_override <-! windows_query_registry_string "ProxyOverride";
  sm_ret (mkSystemProxySnapshot proxy_enable proxy_server proxy_override).

(** ** [NativeSystemProxyController] *)

Definition native_proxy_snapshot (platform : PlatformKind) : ProxyM SystemProxySnapshot :=
  match platform with
  | Windows => windows_system_proxy_snapshot
  | platform => sm_lift (Err (Proxy_UnsupportedPlatform platform))
  end.

Definition native_proxy_apply (platform : PlatformKind) (config : SystemProxyConfig)
  : ProxyM SystemProxySnapshot :=
  _ <-! sm_lift (validate_proxy_server (proxy_config_server config));
  snapshot <-! native_proxy_snapshot platform;
  match platform with
  | Windows =>
      do! windows_set_registry_dword "ProxyEnable" 1;
      do! windows_set_registry_string "ProxyServer" (proxy_config_server config);
      do! match bypass_value config with
          | Some value => windows_set_registry_string "ProxyOverride" value
          | None => windows_delete_registry_value "ProxyOverride"
          end;
      sm_ret snapshot
  | platform => sm_lift (Err (Proxy_UnsupportedPlatform platform))
  end.

Definition native_proxy_restore (platform : PlatformKind) (snapshot : SystemProxySnapshot) : ProxyM unit :=
  match platform with
  | Windows =>
      do! restore_windows_dword "ProxyEnable" (proxy_enable snapshot);
      do! restore_windows_string "ProxyServer" (proxy_server snapshot);
      restore_windows_string "ProxyOverride" (proxy_override snapshot)
  | platform => sm_lift (Err (Proxy_UnsupportedPlatform platform))
  end.

Record SystemProxyStatus : Type := mkSystemProxyStatus {
  proxy_status_supported : bool;
  proxy_status_enabled : option bool;
  proxy_status_server : option string;
  proxy_status_error : option string
}.

(** [SystemProxyStatus::detect]. *)
Definition proxy_status_detect (current : PlatformKind) : SM W SystemProxyError SystemProxyStatus :=
  fun w =>
    match native_proxy_snapshot current w with
    | (w, Ok snapshot) =>
        (w, Ok (mkSystemProxyStatus true (Some (snapshot_enabled snapshot)) (proxy_server snapshot) None))
    | (w, Err (Proxy_UnsupportedPlatform _)) => (w, Ok (mkSystemProxyStatus false None None None))
    | (w, Err error) =>
        (w, Ok (mkSystemProxyStatus true None None (Some (SystemProxyError_fmt error))))
    | (w, Panic) => (w, Panic)
    end.

(** ** Commands of the device *)

Definition TunM (A : Type) : Type := SM W TunDeviceError A.

Definition command_failure (program : string) (output : CommandOutput) : TunDeviceError :=
  Tun_Io (program +:+ " exited with code "
          +:+ match output_code output with Some code => signed_text code | None => "unknown" end
          +:+ ": " +:+ trim (from_utf8_lossy (output_stderr output))).

Definition run_tun_command_output (program : string) (args : list string) : TunM string :=
  fun w =>
    match command_output program args w with
    | (w, inl error) => (w, Err (Tun_Io error))
    | (w, inr output) =>
        if output_success output then (w, Ok (from_utf8_lossy (output_stdout output)))
        else (w, Err (command_failure program output))
    end.

Definition run_tun_command_checked (program : string) (args : list string) : TunM unit :=
  fun w =>
    match command_output program args w with
    | (w, inl error) => (w, Err (Tun_Io error))
    | (w, inr output) =>
        if output_success output then (w, Ok tt) else (w, Err (command_failure program output))
    end.

Record WindowsTunCommand : Type := mkWindowsTunCommand {
  command_program : string;
  command_args : list string
}.

(** [WindowsTunCommand::run]. *)
Definition command_run (self : WindowsTunCommand) : TunM unit :=
  run_tun_command_checked (command_program self) (command_args self).

(** [WindowsTunRouteTakeoverState]: the commands that take the routes back. *)
Definition WindowsTunRouteTakeoverState : Type := list WindowsTunCommand.

(** The loop of [restore], over the commands in the order they are run. *)
Fixpoint run_all (commands : list WindowsTunCommand) : SM W TunDeviceError (list string) :=
  match commands with
  | [] => sm_ret []
  | command :: commands' =>
      fun w =>
        match command_run command w with
        | (w, Ok _) => run_all commands' w
        | (w, Err error) => (errors <-! run_all commands'; sm_ret (TunDeviceError_fmt error :: errors)) w
        | (w, Panic) => (w, Panic)
        end
  end.

Definition takeover_restore (self : WindowsTunRouteTakeoverState) : TunM unit :=
  errors <-! run_all (rev self);
  if is_empty errors then sm_ret tt
  else sm_lift (Err (Tun_Io ("restore TUN routes: " +:+ join "; " errors))).

Record WindowsTunRouteTakeoverStep : Type := mkTakeoverStep {
  step_add : WindowsTunCommand;
  step_remove : WindowsTunCommand
}.

Definition parse_tun_address_cidr_parts (address_cidr : string) : result TunDeviceError (IpAddr * Z) :=
  match split_once "/"%char address_cidr with
  | None => Err (InvalidAddressCidr address_cidr)
  | Some (address, prefix) =>
      address <-? ok_or (InvalidAddressCidr address_cidr) (parse_ip_addr address);
      prefix <-? ok_or (InvalidAddressCidr address_cidr) (parse_u8 prefix);
      Ok (address, prefix)
  end.

(** [u32::MAX << (32 - prefix)]. *)
Definition ipv4_prefix_to_netmask (prefix : Z) : result TunDeviceError Z :=
  if 32 <? prefix then Err (InvalidAddressCidr ("ipv4/" +:+ to_decimal prefix))
  else Ok (if prefix =? 0 then 0 else Z.land (Z.shiftl u32_max (32 - prefix)) u32_max).

Definition family_name (address : IpAddr) : string :=
  match address with V4 _ => "ipv4" | V6 _ => "ipv6" end.

Definition windows_tun_interface_config_commands (config : TunDeviceConfig)
  : result TunDeviceError (list WindowsTunCommand) :=
  '(address, prefix) <-? parse_tun_address_cidr_parts (tun_address_cidr config);
  let name := tun_interface_name config in
  match address with
  | V4 _ =>
      netmask <-? ipv4_prefix_to_netmask prefix;
      Ok [mkWindowsTunCommand "netsh"
            ["interface"; "ipv4"; "set"; "interface"; "interface=" +:+ name; "dadtransmits=0";
             "store=active"];
          mkWindowsTunCommand "netsh"
            ["interface"; "ipv4"; "set"; "address"; "name=" +:+ name; "source=static";
             "address=" +:+ ip_to_string address; "mask=" +:+ ip_to_string (V4 netmask);
             "gateway=none"; "store=active"];
          mkWindowsTunCommand "netsh"
            ["interface"; "ipv4"; "set"; "subinterface"; "interface=" +:+ name;
             "mtu=" +:+ to_decimal (tun_mtu config); "store=active"]]
  | V6 _ =>
      Ok [mkWindowsTunCommand "netsh"
            ["interface"; "ipv6"; "set"; "interface"; "interface=" +:+ name; "dadtransmits=0";
             "store=active"];
          mkWindowsTunCommand "netsh"
            ["interface"; "ipv6"; "set"; "address"; "interface=" +:+ name;
             "address=" +:+ ip_to_string address +:+ "/" +:+ to_decimal prefix; "store=active"];
          mkWindowsTunCommand "netsh"
            ["interface"; "ipv6"; "set"; "subinterface"; "interface=" +:+ name;
             "mtu=" +:+ to_decimal (tun_mtu config); "store=active"]]
  end.

Definition tun_route_takeover_expected_prefixes (config : TunDeviceConfig)
  : result TunDeviceError (list string) :=
  '(address, _) <-? parse_tun_address_cidr_parts (tun_address_cidr config);
  Ok match address with
     | V4 _ => ["0.0.0.0/1"; "128.0.0.0/1"]
     | V6 _ => ["::/1"; "8000::/1"]
     end.

Definition windows_tun_route_takeover_step (interface_name : string) (address : IpAddr)
  (prefix : string) : WindowsTunRouteTakeoverStep :=
  let nexthop := match address with V4 _ => ["nexthop=0.0.0.0"] | V6 _ => [] end in
  mkTakeoverStep
    (mkWindowsTunCommand "netsh"
       (["interface"; family_name address; "add"; "route"; "prefix=" +:+ prefix;
         "interface=" +:+ interface_name] ++ nexthop ++ ["metric=1"; "store=active"]))
    (mkWindowsTunCommand "netsh"
       (["interface"; family_name address; "delete"; "route"; "prefix=" +:+ prefix;
         "interface=" +:+ interface_name] ++ nexthop)).

Definition windows_tun_route_takeover_steps (config : TunDeviceConfig)
  : result TunDeviceError (list WindowsTunRouteTakeoverStep) :=
  '(address, _) <-? parse_tun_address_cidr_parts (tun_address_cidr config);
  prefixes <-? tun_route_takeover_expected_prefixes config;
  Ok (map (windows_tun_route_takeover_step (tun_interface_name config) address) prefixes).

(** The loop of [apply_windows_tun_route_takeover]. *)
Fixpoint takeover_steps (steps : list WindowsTunRouteTakeoverStep) (restore_commands : list WindowsTunCommand)
  : TunM WindowsTunRouteTakeoverState :=
  match steps with
  | [] => sm_ret restore_commands
  | step :: steps' =>
      fun w =>
        match command_run (step_add step) w with
        | (w, Ok _) => takeover_steps steps' (restore_commands ++ [step_remove step]) w
        | (w, Err error) =>
            match takeover_restore restore_commands w with
            | (w, Err restore_error) =>
                (w, Err (Tun_Io (TunDeviceError_fmt error +:+ "; " +:+ TunDeviceError_fmt restore_error)))
            | (w, Ok _) => (w, Err error)
            | (w, Panic) => (w, Panic)
            end
        | (w, Panic) => (w, Panic)
        end
  end.

Definition apply_windows_tun_route_takeover (config : TunDeviceConfig) : TunM WindowsTunRouteTakeoverState :=
  steps <-! sm_lift (windows_tun_route_takeover_steps config);
  takeover_steps steps [].

(** The loop [command.run()?]. *)
Fixpoint run_each (commands : list WindowsTunCommand) : TunM unit :=
  match commands with
  | [] => sm_ret tt
  | command :: commands' => do! command_run command; run_each commands'
  end.

Definition windows_configure_tun_interface (config : TunDeviceConfig) : TunM WindowsTunRouteTakeoverState :=
  commands <-! sm_lift (windows_tun_interface_config_commands config);
  do! run_each commands;
  apply_windows_tun_route_takeover config.

(** ** Which routes are there *)

Record TunRouteTakeoverSnapshot : Type := mkTakeoverSnapshot {
  takeover_supported : bool;
  takeover_interface_name : string;
  expected_prefixes : list string;
  observed_prefixes : list string;
  missing_prefixes : list string;
  expected_prefixes_present : bool;
  takeover_command : option (list string);
  takeover_raw_output : option string;
  takeover_error : option string
}.

Definition tun_route_takeover_snapshot_from_output (config : TunDeviceConfig) (expected : list string)
  (command : option (list string)) (raw_output error : option string) : TunRouteTakeoverSnapshot :=
  let output := default "" raw_output in
  let observed :=
    List.filter
      (fun prefix =>
         existsb (fun line => contains line prefix && contains line (tun_interface_name config))
           (lines output)) expected in
  let missing := List.filter (fun prefix => negb (bool_decide (prefix ∈ observed))) expected in
  mkTakeoverSnapshot true (tun_interface_name config) expected observed missing
    (is_none error && is_empty missing) command raw_output error.

Definition unsupported_takeover (config : TunDeviceConfig) (expected : list string) (error : string)
  : TunRouteTakeoverSnapshot :=
  mkTakeoverSnapshot false (tun_interface_name config) expected [] [] false None None (Some error).

Definition snapshot_tun_route_takeover (current : PlatformKind) (config : TunDeviceConfig)
  : SM W TunDeviceError TunRouteTakeoverSnapshot :=
  match tun_route_takeover_expected_prefixes config with
  | Err error => sm_ret (unsupported_takeover config [] (TunDeviceError_fmt error))
  | Panic => sm_lift Panic
  | Ok expected =>
      if negb (bool_decide (current = Windows)) then
        sm_ret (unsupported_takeover config expected
                  ("route takeover snapshot is unsupported on " +:+ platform_debug current))
      else
        match parse_tun_address_cidr_parts (tun_address_cidr config) with
        | Err error => sm_ret (unsupported_takeover config expected (TunDeviceError_fmt error))
        | Panic => sm_lift Panic
        | Ok (address, _) =>
            let args := ["interface"; family_name address; "show"; "route"; "store=active"] in
            let command := "netsh" :: args in
            fun w =>
              match run_tun_command_output "netsh" args w with
              | (w, Ok output) =>
                  (w, Ok (tun_route_takeover_snapshot_from_output config expected (Some command)
                            (Some output) None))
              | (w, Err error) =>
                  (w, Ok (tun_route_takeover_snapshot_from_output config expected (Some command)
                            None (Some (TunDeviceError_fmt error))))
              | (w, Panic) => (w, Panic)
              end
        end
  end.

End Windows.

(** [impl SystemProxyController for NativeSystemProxyController], for a platform. *)
Definition NativeSystemProxyController {W} `{PlatformSystem W} (platform : PlatformKind)
  : SystemProxyController W :=
  {| controller_snapshot := native_proxy_snapshot platform;
     controller_apply := native_proxy_apply platform;
     controller_restore := native_proxy_restore platform |}.
