(* ===== verification/PlatformTun.v ===== *)
(** * The TUN device of Windows

    [crates/keli-platform/src/lib.rs]: the Wintun library, its adapters and sessions
    ([windows_tun]), the status of the backend, and the controller of the device
    ([NativeTunDeviceController]) with the state its mutex guards. The definitions are those
    of a build for Windows.

    The functions of [kernel32] and of the loaded library, and what the file system says, are
    the class [WintunApi]; a handle is a number, null is 0. *)

From stdpp Require Import base strings list numbers.
From S2P Require Import Prelude.
From S2P Require Import StdNet.
From S2P Require Import StdIo.
From S2P Require Import Platform.
From S2P Require Import PlatformWindows.
#[local] Open Scope Z_scope.

Definition Handle : Type := Z.

(** What the library exports is called through the module it was resolved in. A received
    packet is its handle and its bytes. *)
Class WintunApi (W : Type) := {
  LoadLibraryW : string -> W -> W * Handle;
  FreeLibrary : Handle -> W -> W;
  GetProcAddress : Handle -> string -> W -> W * Handle;
  GetLastError : W -> Z;
  WintunCreateAdapter : Handle -> string -> string -> W -> W * Handle;
  WintunOpenAdapter : Handle -> string -> W -> W * Handle;
  WintunCloseAdapter : Handle -> Handle -> W -> W;
  WintunStartSession : Handle -> Handle -> Z -> W -> W * Handle;
  WintunEndSession : Handle -> Handle -> W -> W;
  WintunReceivePacket : Handle -> Handle -> W -> W * (Handle * list Z);
  WintunReleaseReceivePacket : Handle -> Handle -> Handle -> W -> W;
  WintunAllocateSendPacket : Handle -> Handle -> Z -> W -> W * Handle;
  WintunSendPacket : Handle -> Handle -> Handle -> list Z -> W -> W;
  windows_tun_library_search_paths : W -> list string;
  is_file : W -> string -> bool
}.

Definition WINDOWS_TUNNEL_TYPE : string := "Keli".
Definition WINTUN_RING_CAPACITY : Z := 0x200000.
Definition WINTUN_MAX_IP_PACKET_SIZE : Z := 0xFFFF.
Definition ERROR_NO_MORE_ITEMS : Z := 259.

(** The exports [load_from_path] resolves, in its order. *)
Definition wintun_exports : list string :=
  ["WintunCreateAdapter"; "WintunOpenAdapter"; "WintunCloseAdapter"; "WintunGetRunningDriverVersion";
   "WintunStartSession"; "WintunEndSession"; "WintunGetReadWaitEvent"; "WintunReceivePacket";
   "WintunReleaseReceivePacket"; "WintunAllocateSendPacket"; "WintunSendPacket"].

(** [WintunLibrary]; the module is freed when the last clone is dropped. *)
Record WintunLibrary : Type := mkWintunLibrary { library_module : Handle; library_path : string }.

Record WintunAdapter : Type := mkWintunAdapter {
  adapter_library : WintunLibrary;
  adapter_handle : Handle
}.

Record WintunSession : Type := mkWintunSession {
  session_adapter : WintunAdapter;
  session_handle : Handle
}.

Section Wintun.
Context {W : Type} {Api : WintunApi W}.

Definition WintunM (A : Type) : Type := SM W TunDeviceError A.

(** [format!("... failed with Windows error {}", last_error())]. *)
Definition windows_failure {A} (what : string) : WintunM A :=
  fun w => (w, Err (Tun_Io (what +:+ " failed with Windows error " +:+ to_decimal (GetLastError w)))).

Definition resolve (module : Handle) (name : string) : WintunM unit :=
  fun w =>
    let '(w, proc) := GetProcAddress module name w in
    if proc =? 0 then windows_failure ("resolve " +:+ name) w else (w, Ok tt).

Fixpoint resolve_all (module : Handle) (names : list string) : WintunM unit :=
  match names with
  | [] => sm_ret tt
  | name :: names' => do! resolve module name; resolve_all module names'
  end.

Definition load_from_path (path : string) : WintunM WintunLibrary :=
  fun w =>
    let '(w, module) := LoadLibraryW path w in
    if module =? 0 then windows_failure ("load " +:+ path) w
    else
      match resolve_all module wintun_exports w with
      | (w, Ok _) => (w, Ok (mkWintunLibrary module path))
      | (w, Err error) => (FreeLibrary module w, Err error)
      | (w, Panic) => (w, Panic)
      end.

(** [Drop for WintunLibraryInner]. *)
Definition library_drop (self : WintunLibrary) (w : W) : W := FreeLibrary (library_module self) w.

Definition load_first : WintunM WintunLibrary :=
  fun w =>
    match List.find (is_file w) (windows_tun_library_search_paths w) with
    | None => (w, Err (LifecycleUnavailableOn Windows))
    | Some path => load_from_path path w
    end.

Definition create_adapter (self : WintunLibrary) (config : TunDeviceConfig) : WintunM Handle :=
  fun w =>
    let '(w, adapter) :=
      WintunCreateAdapter (library_module self) (tun_interface_name config) WINDOWS_TUNNEL_TYPE w in
    if adapter =? 0 then windows_failure ("WintunCreateAdapter(" +:+ tun_interface_name config +:+ ")") w
    else (w, Ok adapter).

Definition open_adapter (self : WintunLibrary) (interface_name : string) : WintunM Handle :=
  fun w =>
    let '(w, adapter) := WintunOpenAdapter (library_module self) interface_name w in
    if adapter =? 0 then windows_failure ("WintunOpenAdapter(" +:+ interface_name +:+ ")") w
    else (w, Ok adapter).

(** [WintunAdapter::open_or_create]; the library is dropped when there is no adapter. *)
Definition open_or_create (config : TunDeviceConfig) : WintunM WintunAdapter :=
  library <-! load_first;
  fun w =>
    match open_adapter library (tun_interface_name config) w with
    | (w, Ok handle) => (w, Ok (mkWintunAdapter library handle))
    | (w, Err _) =>
        match create_adapter library config w with
        | (w, Ok handle) => (w, Ok (mkWintunAdapter library handle))
        | (w, Err error) => (library_drop library w, Err error)
        | (w, Panic) => (w, Panic)
        end
    | (w, Panic) => (w, Panic)
    end.

(** [Drop for WintunAdapter], then its library. *)
Definition adapter_drop (self : WintunAdapter) (w : W) : W :=
  library_drop (adapter_library self)
    (WintunCloseAdapter (library_module (adapter_library self)) (adapter_handle self) w).

Definition start_session (self : WintunAdapter) : WintunM WintunSession :=
  fun w =>
    let '(w, session) :=
      WintunStartSession (library_module (adapter_library self)) (adapter_handle self)
        WINTUN_RING_CAPACITY w in
    if session =? 0 then windows_failure "WintunStartSession" w
    else (w, Ok (mkWintunSession self session)).

Definition session_module (self : WintunSession) : Handle :=
  library_module (adapter_library (session_adapter self)).

(** [WintunSession::read_packet]. *)
Definition session_read_packet (self : WintunSession) : WintunM (option (list Z)) :=
  fun w =>
    let '(w, (packet, bytes)) := WintunReceivePacket (session_module self) (session_handle self) w in
    if packet =? 0 then
      if GetLastError w =? ERROR_NO_MORE_ITEMS then (w, Ok None)
      else windows_failure "WintunReceivePacket" w
    else
      (WintunReleaseReceivePacket (session_module self) (session_handle self) packet w, Ok (Some bytes)).

(** [WintunSession::write_packet]. *)
Definition session_write_packet (self : WintunSession) (packet : list Z) : WintunM unit :=
  fun w =>
    if WINTUN_MAX_IP_PACKET_SIZE <? len packet then
      (w, Err (Tun_Io ("Wintun packet is too large: " +:+ to_decimal (len packet) +:+ " bytes")))
    else
      let '(w, out) := WintunAllocateSendPacket (session_module self) (session_handle self) (len packet) w in
      if out =? 0 then windows_failure "WintunAllocateSendPacket" w
      else (WintunSendPacket (session_module self) (session_handle self) out packet w, Ok tt).

(** ** The status of the backend *)

Record TunBackendStatus : Type := mkTunBackendStatus {
  backend_platform : PlatformKind;
  backend_name : string;
  backend_supported : bool;
  lifecycle_wired : bool;
  packet_io_wired : bool;
  route_takeover_wired : bool;
  driver_library_present : bool;
  driver_api_available : bool;
  driver_library_path : option string;
  driver_api_error : option string;
  install_required : bool;
  searched_paths : list string;
  backend_reason : option string
}.

(** [windows_tun_driver_api_available]: the library is loaded and dropped. *)
Definition windows_tun_driver_api_available (path : string) : SM W string unit :=
  fun w =>
    match load_from_path path w with
    | (w, Ok library) => (library_drop library w, Ok tt)
    | (w, Err error) => (w, Err (TunDeviceError_fmt error))
    | (w, Panic) => (w, Panic)
    end.

Definition backend_status_of (search_paths : list string) (found_path : option string)
  (available : bool) (error : option string) : TunBackendStatus :=
  let present := is_some found_path in
  mkTunBackendStatus Windows "wintun" true true true true present available found_path error
    (negb present || negb available) search_paths
    (Some (if negb present then "Wintun library was not found; bundle a valid wintun.dll"
           else match error with
                | Some error => "Wintun library was found, but its API could not be loaded: " +:+ error
                | None => "Wintun lifecycle and packet I/O bridge is wired"
                end)).

Definition windows_tun_backend_status (search_paths : list string) : WintunM TunBackendStatus :=
  fun w =>
    match List.find (is_file w) search_paths with
    | None => (w, Ok (backend_status_of search_paths None false None))
    | Some path =>
        match windows_tun_driver_api_available path w with
        | (w, Ok _) => (w, Ok (backend_status_of search_paths (Some path) true None))
        | (w, Err error) => (w, Ok (backend_status_of search_paths (Some path) false (Some error)))
        | (w, Panic) => (w, Panic)
        end
    end.

(** [NativeTunDeviceController::backend_status]. *)
Definition backend_status (platform : PlatformKind) : WintunM TunBackendStatus :=
  match platform with
  | Windows => fun w => windows_tun_backend_status (windows_tun_library_search_paths w) w
  | Android =>
      sm_ret (mkTunBackendStatus Android "android-vpn-service" true false false false false false None
                None false [] (Some "Android VpnService bridge is not wired yet"))
  | platform =>
      sm_ret (mkTunBackendStatus platform "unsupported" false false false false false false None None
                false [] (Some ("TUN backend is unsupported on " +:+ platform_debug platform)))
  end.

Definition windows_tun_stopped_snapshot : WintunM TunDeviceSnapshot :=
  backend <-! (fun w => windows_tun_backend_status (windows_tun_library_search_paths w) w);
  sm_ret (if driver_api_available backend
          then mkTunDeviceSnapshot true true true false None None None None
          else stopped_supported_without_backend).

End Wintun.

(** ** [NativeTunDeviceController] *)

(** [NativeTunControllerState]. *)
Record NativeTunControllerState : Type := mkNativeTunControllerState {
  tun_active_config : option TunDeviceConfig;
  windows_adapter : option WintunAdapter;
  windows_route_takeover : option WindowsTunRouteTakeoverState
}.

Definition NativeTunControllerState_default : NativeTunControllerState :=
  mkNativeTunControllerState None None None.

Section Controller.
Context {W : Type} {System : PlatformSystem W} {Api : WintunApi W}.

(** The state of the controller and the system it acts on. Nothing panics while the lock is
    held, so that it is never poisoned. *)
Definition TunWorld : Type := NativeTunControllerState * W.
Definition NativeTunM (A : Type) : Type := SM TunWorld TunDeviceError A.

Definition on_system {A} (m : SM W TunDeviceError A) : NativeTunM A :=
  fun s => let '(w, r) := m s.2 in ((s.1, w), r).

Definition drop_adapter (adapter : option WintunAdapter) (w : W) : W :=
  match adapter with Some adapter => adapter_drop adapter w | None => w end.

Definition native_tun_snapshot (platform : PlatformKind) : NativeTunM TunDeviceSnapshot :=
  match platform with
  | Windows =>
      fun s =>
        match tun_active_config s.1 with
        | Some config => (s, Ok (snapshot_running config))
        | None => on_system windows_tun_stopped_snapshot s
        end
  | Android => sm_ret stopped_supported_without_backend
  | platform => sm_lift (Err (Tun_UnsupportedPlatform platform))
  end.

(** An adapter the state held is dropped by the assignment; the new one when the interface
    cannot be set up. *)
Definition native_tun_start (platform : PlatformKind) (config : TunDeviceConfig)
  : NativeTunM TunDeviceSnapshot :=
  do! sm_lift (validate_tun_config config);
  match platform with
  | Windows =>
      adapter <-! on_system (open_or_create config);
      fun s =>
        match on_system (windows_configure_tun_interface config) s with
        | (s, Ok route_takeover) =>
            ((mkNativeTunControllerState (Some config) (Some adapter) (Some route_takeover),
              drop_adapter (windows_adapter s.1) s.2), Ok (snapshot_running config))
        | (s, Err error) => ((s.1, adapter_drop adapter s.2), Err error)
        | (s, Panic) => (s, Panic)
        end
  | Android => sm_lift (Err (LifecycleUnavailableOn Android))
  | platform => sm_lift (Err (Tun_UnsupportedPlatform platform))
  end.

(** The adapter is dropped whether or not the routes could be restored. *)
Definition native_tun_stop (platform : PlatformKind) : NativeTunM TunDeviceSnapshot :=
  match platform with
  | Windows =>
      fun s =>
        let route_takeover := windows_route_takeover s.1 in
        let adapter := windows_adapter s.1 in
        let s := (NativeTunControllerState_default, s.2) in
        match match route_takeover with
              | Some route_takeover => on_system (takeover_restore route_takeover) s
              | None => (s, Ok tt)
              end with
        | (s, Ok _) =>
            on_system windows_tun_stopped_snapshot (s.1, drop_adapter adapter s.2)
        | (s, Err error) => ((s.1, drop_adapter adapter s.2), Err error)
        | (s, Panic) => (s, Panic)
        end
  | Android => native_tun_snapshot Android
  | platform => sm_lift (Err (Tun_UnsupportedPlatform platform))
  end.

(** [open_packet_io]; the session holds the adapter. *)
Definition open_packet_io (platform : PlatformKind) (config : TunDeviceConfig)
  : NativeTunM WintunSession :=
  do! sm_lift (validate_tun_config config);
  match platform with
  | Windows =>
      fun s =>
        match tun_active_config s.1 with
        | None => (s, Err (LifecycleUnavailableOn Windows))
        | Some active =>
            if negb (bool_decide (active = config)) then
              (s, Err (Tun_Io ("active TUN config is " +:+ tun_interface_name active +:+ ", not "
                               +:+ tun_interface_name config)))
            else
              match windows_adapter s.1 with
              | None => (s, Err (LifecycleUnavailableOn Windows))
              | Some adapter => on_system (start_session adapter) s
              end
        end
  | Android => sm_lift (Err (LifecycleUnavailableOn Android))
  | platform => sm_lift (Err (Tun_UnsupportedPlatform platform))
  end.

(** [impl TunDeviceController for NativeTunDeviceController], for a platform. *)
Definition NativeTunDeviceController (platform : PlatformKind) : TunDeviceController TunWorld :=
  {| tun_snapshot := native_tun_snapshot platform;
     tun_start := native_tun_start platform;
     tun_stop := native_tun_stop platform |}.

End Controller.

Arguments TunWorld W : clear implicits.
