(* ===== verification/PlatformSpec.v ===== *)
(** * What the controllers of Windows promise

    The system proxy that is applied and restored leaves the registry as it was; a takeover of
    the routes that fails is undone; the preflight of a device is ready exactly when the
    device can be started; the state of the controller keeps its parts together.

    What [reg] and [netsh] are documented to do are the classes [Registry] and [RouteTable];
    each has an instance that runs. *)

From Stdlib Require Import Ascii.
From stdpp Require Import base strings list numbers gmap.
From S2P Require Import Prelude.
From S2P Require Import StdNet.
From S2P Require Import StdIo.
From S2P Require Import StdText.
From S2P Require Import HttpSpec.
From S2P Require Import MixedConfig.
From S2P Require Import MixedSpec.
From S2P Require Import Platform.
From S2P Require Import PlatformWindows.
From S2P Require Import PlatformTun.
#[local] Open Scope Z_scope.

(** ** Numbers of the registry *)

Lemma digit_of_radix radix d :
  radix = 10 \/ radix = 16 -> 0 <= d < radix ->
  to_digit radix (digit_char d) = Some d /\ digit_char d <> "+"%char.
Proof.
  intros Hr Hd.
  assert (d = 0 \/ d = 1 \/ d = 2 \/ d = 3 \/ d = 4 \/ d = 5 \/ d = 6 \/ d = 7 \/ d = 8 \/ d = 9 \/
          d = 10 \/ d = 11 \/ d = 12 \/ d = 13 \/ d = 14 \/ d = 15) as Hc by lia.
  destruct Hr; subst radix; destruct_or! Hc; subst d; (split; [done|discriminate]) || lia.
Qed.

Lemma digits_radix_value radix fuel n acc :
  radix = 10 \/ radix = 16 -> 0 <= n <= u32_max -> n < radix ^ Z.of_nat fuel ->
  digits_value radix 0 (digits_acc fuel radix n acc) = digits_value radix n acc.
Proof.
  intros Hr. revert n acc. induction fuel as [|fuel IH]; intros n acc Hn Hf.
  { rewrite Z.pow_0_r in Hf. by replace n with 0 by lia. }
  rewrite Nat2Z.inj_succ, Z.pow_succ_r in Hf by lia. cbn [digits_acc].
  pose proof (Z.div_mod n radix ltac:(lia)). pose proof (Z.mod_pos_bound n radix ltac:(lia)).
  destruct (digit_of_radix radix (n mod radix) Hr) as [Hd _]; [done|].
  assert (Hq : digits_value radix (n / radix) (String (digit_char (n mod radix)) acc) = digits_value radix n acc).
  { cbn [digits_value]. rewrite Hd. replace (n / radix * radix + n mod radix) with n by lia.
    by replace (_ <? _) with false by lia. }
  destruct (Z.eqb_spec (n / radix) 0) as [E|_]; [by rewrite E in Hq|].
  rewrite IH; [done| |]; [split; [apply Z.div_pos|]; nia|]. apply Z.div_lt_upper_bound; lia.
Qed.

Lemma digits_radix_head radix fuel n acc :
  radix = 10 \/ radix = 16 -> 0 <= n -> (0 < fuel)%nat ->
  exists d t, 0 <= d < radix /\ digits_acc fuel radix n acc = String (digit_char d) t.
Proof.
  intros Hr. revert n acc. induction fuel as [|fuel IH]; intros n acc Hn Hf; [lia|]. cbn [digits_acc].
  pose proof (Z.mod_pos_bound n radix ltac:(lia)). pose proof (Z.div_pos n radix ltac:(lia) ltac:(lia)).
  case_match; [by eauto|]. destruct fuel as [|fuel]; [cbn; by eauto|]. apply IH; lia.
Qed.

(** A number of 32 bits reads back from its digits. *)
Lemma u32_text_reads radix n :
  radix = 10 \/ radix = 16 -> 0 <= n <= u32_max ->
  u32_from_str_radix radix (digits_acc 128 radix n "") = Some n.
Proof.
  intros Hr Hn. unfold u32_from_str_radix.
  assert (Hbig : n < radix ^ Z.of_nat 128).
  { apply Z.le_lt_trans with u32_max; [lia|]. by destruct Hr; subst radix. }
  pose proof (digits_radix_value radix 128 n "" Hr Hn Hbig) as Hval.
  destruct (digits_radix_head radix 128 n "" Hr ltac:(lia) ltac:(lia)) as (d & t & Hd & E).
  rewrite E in *. destruct (digit_of_radix radix d Hr Hd) as [_ Hp].
  destruct (digit_char d) as [[] [] [] [] [] [] [] []]; solve [done | by destruct Hp].
Qed.

Lemma digits_radix_word radix fuel n acc :
  radix = 10 \/ radix = 16 -> 0 <= n -> all_chars word_char acc = true ->
  all_chars word_char (digits_acc fuel radix n acc) = true.
Proof.
  intros Hr. revert n acc. induction fuel as [|fuel IH]; intros n acc Hn Hacc; [done|]. cbn [digits_acc].
  assert (Hd : word_char (byte_of_ascii (digit_char (n mod radix))) = true).
  { pose proof (Z.mod_pos_bound n radix ltac:(lia)) as Hm. revert Hm. generalize (n mod radix). intros d Hm.
    assert (d = 0 \/ d = 1 \/ d = 2 \/ d = 3 \/ d = 4 \/ d = 5 \/ d = 6 \/ d = 7 \/ d = 8 \/ d = 9 \/
            d = 10 \/ d = 11 \/ d = 12 \/ d = 13 \/ d = 14 \/ d = 15) as Hc by lia.
    by destruct_or! Hc; subst d. }
  case_match; [cbn [all_chars]; by rewrite Hd|]. apply IH; [apply Z.div_pos; lia|].
  cbn [all_chars]. by rewrite Hd.
Qed.

Lemma hex_word n : 0 <= n -> word ("0x" +:+ to_hex n).
Proof.
  intros Hn. split; [done|]. apply (digits_radix_word 16 128 n "" ltac:(lia) Hn eq_refl).
Qed.

(** ** What [reg] prints and the code reads *)

Inductive RegValue : Type := RegDword (n : Z) | RegSz (text : string).

#[export] Instance RegValue_eq_dec : EqDecision RegValue.
Proof. solve_decision. Defined.

Definition reg_type (value : RegValue) : string :=
  match value with RegDword _ => "DWORD" | RegSz _ => "SZ" end.

Definition reg_data (value : RegValue) : string :=
  match value with RegDword n => "0x" +:+ to_hex n | RegSz text => text end.

Definition value_line (name : string) (value : RegValue) : string :=
  "    " +:+ name +:+ "    REG_" +:+ reg_type value +:+ "    " +:+ reg_data value.

(** The output of [reg query KEY /v NAME]. *)
Definition query_text (name : string) (value : RegValue) : string :=
  "" +:+ crlf +:+ "HKEY_CURRENT_USER\Software\Microsoft\Windows\CurrentVersion\Internet Settings"
  +:+ crlf +:+ value_line name value +:+ crlf +:+ "" +:+ crlf +:+ "".

Definition proxy_value_name (name : string) : Prop :=
  name = "ProxyEnable" \/ name = "ProxyServer" \/ name = "ProxyOverride".

(** A text that [reg] prints on its line as it is: printable, not empty, no white space at
    its ends. *)
Definition plain_text (text : string) : Prop := line text /\ trim text = text.

Lemma ascii_bytes s : all_chars line_char s = true -> Forall (fun b => 32 <= b <= 126) (as_bytes s).
Proof.
  induction s as [|a s IH]; intros Hs; [by constructor|]. cbn [all_chars] in Hs.
  apply andb_true_iff in Hs as [Ha Hs]. constructor; [|by apply IH].
  unfold line_char, in_range in Ha. lia.
Qed.

Lemma trim_end_rev_app l k :
  Forall (fun b => 32 <= b <= 126) l -> l <> [] -> trim_end_rev l = l -> trim_end_rev (l ++ k) = l ++ k.
Proof.
  intros Hl Hne Ht. destruct l as [|b0 l]; [done|]. apply Forall_cons in Hl as [Hb _].
  assert (Hw : is_ws1 b0 = false).
  { cbn [trim_end_rev] in Ht. destruct (is_ws1 b0); [|done].
    pose proof (trim_end_length l) as Hlen. rewrite Ht in Hlen. cbn [length] in Hlen. lia. }
  change ((b0 :: l) ++ k) with (b0 :: (l ++ k)). cbn [trim_end_rev]. rewrite Hw.
  destruct (l ++ k) as [|b1 [|b2 r]]; [done|..]; replace (is_ws2 b1 b0) with false by (unfold is_ws2; lia);
    [done|]. by replace (is_ws3 b2 b1 b0) with false by (unfold is_ws3, in_range; lia).
Qed.

(** White space before a text and a text in front of it. *)
Lemma trim_before p text :
  plain_text text -> trim_start (as_bytes p ++ as_bytes text) = as_bytes p ++ as_bytes text ->
  trim (p +:+ text) = p +:+ text.
Proof.
  intros [[Hne Hl] Ht] Hp. unfold trim, trim_bytes. rewrite as_bytes_app, Hp.
  assert (Hend : trim_end_rev (rev (as_bytes text)) = rev (as_bytes text)).
  { assert (Htb : trim_bytes (as_bytes text) = as_bytes text) by (by rewrite <- as_bytes_trim, Ht).
    unfold trim_bytes in Htb. assert (Hs : trim_start (as_bytes text) = as_bytes text).
    { destruct (trim_start_suffix_aux (S (length (as_bytes text))) (as_bytes text)) as [q Hq]; [lia|].
      pose proof (trim_end_length (rev (trim_start (as_bytes text)))) as H1.
      apply (f_equal length) in Htb. rewrite length_rev in Htb, H1.
      apply (f_equal length) in Hq as Hq'. rewrite length_app in Hq'.
      assert (q = []) as -> by (apply length_zero_iff_nil; lia). by rewrite Hq at 2. }
    rewrite Hs in Htb. rewrite <- Htb at 2. by rewrite rev_involutive. }
  rewrite rev_app_distr, trim_end_rev_app, <- rev_app_distr, rev_involutive, <- as_bytes_app; auto.
  - apply string_of_as_bytes.
  - apply List.Forall_rev, ascii_bytes, Hl.
  - destruct text as [|a s]; [done|]. cbn [as_bytes rev]. intros H. by apply app_eq_nil in H as [_ H].
Qed.

Lemma trim_spaces p text : Forall (fun b => b = 32) (as_bytes p) -> trim (p +:+ text) = trim text.
Proof.
  intros Hp. unfold trim, trim_bytes. rewrite as_bytes_app. induction Hp as [|b l -> _ IH]; [done|].
  exact IH.
Qed.

(** The line of an empty text has no data: it is read as an absent value. *)
Lemma empty_value_read_as_absent name :
  proxy_value_name name -> parse_reg_value (query_text name (RegSz "")) name = None.
Proof. intros [->|[->| ->]]; vm_compute; reflexivity. Qed.

(** The data of a value the registry of the proxy holds. *)
Definition plain_value (value : RegValue) : Prop :=
  match value with RegDword n => 0 <= n <= u32_max | RegSz text => plain_text text end.

Lemma reg_data_plain value : plain_value value -> plain_text (reg_data value).
Proof.
  destruct value as [n|text]; [|done]. cbn [plain_value reg_data]. intros Hn.
  pose proof (hex_word n ltac:(lia)) as Hw. split; [by apply word_is_line|by apply trim_word].
Qed.

(** The line of a value gives its data. *)
Lemma reg_value_of_value_line name value :
  proxy_value_name name -> plain_value value ->
  reg_value_of_line name (value_line name value) = Some (reg_data value).
Proof.
  intros Hn Hv. apply reg_data_plain in Hv. revert Hv. unfold value_line. generalize (reg_data value).
  intros text Ht. unfold reg_value_of_line.
  rewrite trim_spaces by (repeat constructor). rewrite <- !string_app_assoc, trim_before; [|done|].
  2: { destruct Hn as [->|[->| ->]], value; reflexivity. }
  rewrite !string_app_assoc, strip_prefix_app. cbn [mbind option_bind].
  assert (trim_start_text ("    REG_" +:+ reg_type value +:+ "    " +:+ text) =
          "REG_" +:+ reg_type value +:+ "    " +:+ text) as ->.
  { exact (string_of_as_bytes ("REG_" +:+ reg_type value +:+ "    " +:+ text)). }
  rewrite strip_prefix_app. cbn [mbind option_bind].
  assert (after_whitespace (as_bytes (reg_type value +:+ "    " +:+ text)) = Some (as_bytes ("   " +:+ text)))
    as -> by (by destruct value).
  cbn [mbind option_bind]. rewrite string_of_as_bytes, trim_spaces by (repeat constructor).
  by rewrite (proj2 Ht).
Qed.

Lemma value_line_line name value :
  proxy_value_name name -> plain_value value -> all_chars line_char (value_line name value) = true.
Proof.
  intros Hn Hv. apply reg_data_plain in Hv as [[_ Hl] _]. unfold value_line.
  destruct Hn as [->|[->| ->]], value; exact Hl.
Qed.

(** What [reg] prints of a value is read as its data. *)
Lemma parse_query_text name value :
  proxy_value_name name -> plain_value value ->
  parse_reg_value (query_text name value) name = Some (reg_data value).
Proof.
  intros Hn Hv. unfold parse_reg_value, query_text.
  rewrite lines_cons by done. rewrite lines_cons by done. rewrite lines_cons by (by apply value_line_line).
  cbn [first_some]. rewrite (reg_value_of_value_line name value Hn Hv).
  by destruct Hn as [->|[->| ->]].
Qed.

Lemma parse_reg_dword_text n : 0 <= n <= u32_max -> parse_reg_dword ("0x" +:+ to_hex n) = Some n.
Proof.
  intros Hn. unfold parse_reg_dword. rewrite strip_prefix_app. unfold to_hex.
  by rewrite u32_text_reads by (auto; lia).
Qed.

(** ** The registry *)

(** The documented behaviour of [reg query], [reg add /f] and [reg delete /f] on the values of
    the key: exit code 0 when the operation was successful, 1 when it failed, as for a value
    that is not there. *)
Class Registry (W : Type) `{PlatformSystem W} := {
  registry : W -> gmap string RegValue;
  reg_query_found w name value :
    registry w !! name = Some value ->
    exists w' output, command_output "reg" (query_args name) w = (w', inr output) /\
      output_code output = Some 0 /\ from_utf8_lossy (output_stdout output) = query_text name value /\
      registry w' = registry w;
  reg_query_absent w name :
    registry w !! name = None ->
    exists w' output, command_output "reg" (query_args name) w = (w', inr output) /\
      output_code output = Some 1 /\ registry w' = registry w;
  reg_add_dword w name n :
    0 <= n <= u32_max ->
    exists w' output, command_output "reg" (add_args name "REG_DWORD" (to_decimal n)) w = (w', inr output) /\
      output_code output = Some 0 /\ registry w' = <[name := RegDword n]> (registry w);
  reg_add_sz w name text :
    exists w' output, command_output "reg" (add_args name "REG_SZ" text) w = (w', inr output) /\
      output_code output = Some 0 /\ registry w' = <[name := RegSz text]> (registry w);
  reg_delete_found w name :
    is_Some (registry w !! name) ->
    exists w' output, command_output "reg" (delete_args name) w = (w', inr output) /\
      output_code output = Some 0 /\ registry w' = delete name (registry w);
  reg_delete_absent w name :
    registry w !! name = None ->
    exists w' output, command_output "reg" (delete_args name) w = (w', inr output) /\
      output_code output = Some 1 /\ registry w' = registry w
}.

Section RegistryLemmas.
Context {W : Type} `{Registry W}.

Lemma run_command_success program args w w' output :
  command_output program args w = (w', inr output) -> output_code output = Some 0 ->
  run_command program args w = (w', Ok (from_utf8_lossy (output_stdout output))).
Proof. intros Hc Hs. unfold run_command. rewrite Hc. unfold output_success. by rewrite bool_decide_eq_true_2. Qed.

Lemma optional_success program args w w' output :
  command_output program args w = (w', inr output) -> output_code output = Some 0 ->
  run_optional_registry_command program args w = (w', Ok (from_utf8_lossy (output_stdout output))).
Proof. intros Hc Hs. unfold run_optional_registry_command. by rewrite (run_command_success _ _ _ _ _ Hc Hs). Qed.

Lemma optional_absent program args w w' output :
  command_output program args w = (w', inr output) -> output_code output = Some 1 ->
  run_optional_registry_command program args w = (w', Ok "").
Proof.
  intros Hc Hs. unfold run_optional_registry_command, run_command. rewrite Hc. unfold output_success.
  rewrite Hs, bool_decide_eq_false_2 by done. rewrite bool_decide_eq_true_2 by done. by destruct (existsb _ _).
Qed.

(** What a query reads of a registry. *)
Definition read_value (name : string) (r : gmap string RegValue) : option string := reg_data <$> r !! name.

Definition values_ok (r : gmap string RegValue) : Prop :=
  forall name value, proxy_value_name name -> r !! name = Some value -> plain_value value.

Lemma query_reads name w :
  proxy_value_name name -> values_ok (registry w) ->
  exists w' output, run_optional_registry_command "reg" (query_args name) w = (w', Ok output) /\
    parse_reg_value output name = read_value name (registry w) /\ registry w' = registry w.
Proof.
  intros Hn Hok. unfold read_value. destruct (registry w !! name) as [value|] eqn:E.
  - destruct (reg_query_found w name value E) as (w' & output & Hc & Hs & Ht & Hr).
    exists w', (query_text name value). rewrite (optional_success _ _ _ _ _ Hc Hs), Ht.
    split_and!; [done| |done]. by rewrite parse_query_text by eauto.
  - destruct (reg_query_absent w name E) as (w' & output & Hc & Hs & Hr).
    exists w', "". rewrite (optional_absent _ _ _ _ _ Hc Hs). by split_and!.
Qed.

(** The types the values of the proxy have. *)
Definition proxy_registry_ok (r : gmap string RegValue) : Prop :=
  (forall value, r !! "ProxyEnable" = Some value -> exists n, value = RegDword n /\ 0 <= n <= u32_max) /\
  (forall name value, name = "ProxyServer" \/ name = "ProxyOverride" -> r !! name = Some value ->
     exists text, value = RegSz text /\ plain_text text).

Lemma proxy_registry_values r : proxy_registry_ok r -> values_ok r.
Proof.
  intros [He Hs] name value [->|Hn] Hl.
  - by destruct (He value Hl) as (n & -> & Hn).
  - destruct (Hs name value) as (text & -> & Ht); auto.
Qed.

Definition dword_of (value : RegValue) : option Z := match value with RegDword n => Some n | RegSz _ => None end.
Definition text_of (value : RegValue) : option string := match value with RegSz text => Some text | RegDword _ => None end.

(** The snapshot of a registry. *)
Definition snapshot_of (r : gmap string RegValue) : SystemProxySnapshot :=
  mkSystemProxySnapshot (r !! "ProxyEnable" ≫= dword_of) (r !! "ProxyServer" ≫= text_of)
    (r !! "ProxyOverride" ≫= text_of).

Lemma snapshot_reads w :
  proxy_registry_ok (registry w) ->
  exists w', windows_system_proxy_snapshot w = (w', Ok (snapshot_of (registry w))) /\
    registry w' = registry w.
Proof.
  intros Hok. pose proof (proxy_registry_values _ Hok) as Hv. destruct Hok as [He Hs].
  unfold windows_system_proxy_snapshot, windows_query_registry_dword, windows_query_registry_string.
  destruct (query_reads "ProxyEnable" w) as (w1 & o1 & R1 & P1 & E1); [by left|done|].
  destruct (query_reads "ProxyServer" w1) as (w2 & o2 & R2 & P2 & E2); [by right; left|by rewrite E1|].
  destruct (query_reads "ProxyOverride" w2) as (w3 & o3 & R3 & P3 & E3); [by right; right|by rewrite E2, E1|].
  exists w3. split; [|by rewrite E3, E2].
  unfold sm_bind, sm_ret. rewrite R1, R2, R3, P1, P2, P3. do 2 f_equal. rewrite E2, E1. unfold snapshot_of, read_value.
  f_equal.
  - destruct (registry w !! "ProxyEnable") as [value|]; [|done].
    destruct (He value eq_refl) as (n & -> & Hn). exact (parse_reg_dword_text n Hn).
  - destruct (registry w !! "ProxyServer") as [value|] eqn:E; [|done].
    by destruct (Hs "ProxyServer" value) as (text & -> & _); [left|..].
  - destruct (registry w !! "ProxyOverride") as [value|] eqn:E; [|done].
    by destruct (Hs "ProxyOverride" value) as (text & -> & _); [right|..].
Qed.

Lemma set_dword_writes name n w :
  0 <= n <= u32_max ->
  exists w', windows_set_registry_dword name n w = (w', Ok tt) /\
    registry w' = <[name := RegDword n]> (registry w).
Proof.
  intros Hn. destruct (reg_add_dword w name n Hn) as (w' & output & Hc & Hs & Hr). exists w'.
  split; [|done]. unfold windows_set_registry_dword, run_command_checked, sm_bind.
  by rewrite (run_command_success _ _ _ _ _ Hc Hs).
Qed.

Lemma set_string_writes name text w :
  exists w', windows_set_registry_string name text w = (w', Ok tt) /\
    registry w' = <[name := RegSz text]> (registry w).
Proof.
  destruct (reg_add_sz w name text) as (w' & output & Hc & Hs & Hr). exists w'.
  split; [|done]. unfold windows_set_registry_string, run_command_checked, sm_bind.
  by rewrite (run_command_success _ _ _ _ _ Hc Hs).
Qed.

Lemma delete_removes name w :
  exists w', windows_delete_registry_value name w = (w', Ok tt) /\ registry w' = delete name (registry w).
Proof.
  unfold windows_delete_registry_value, sm_bind. destruct (registry w !! name) as [value|] eqn:E.
  - destruct (reg_delete_found w name) as (w' & output & Hc & Hs & Hr); [by rewrite E|]. exists w'.
    by rewrite (optional_success _ _ _ _ _ Hc Hs).
  - destruct (reg_delete_absent w name E) as (w' & output & Hc & Hs & Hr). exists w'.
    rewrite (optional_absent _ _ _ _ _ Hc Hs). by rewrite delete_id, Hr.
Qed.

(** What [apply] makes of a registry. *)
Definition applied (config : SystemProxyConfig) (r : gmap string RegValue) : gmap string RegValue :=
  partial_alter (fun _ => RegSz <$> bypass_value config) "ProxyOverride"
    (<["ProxyServer" := RegSz (proxy_config_server config)]> (<["ProxyEnable" := RegDword 1]> r)).

Lemma apply_writes config w :
  validate_proxy_server (proxy_config_server config) = Ok tt -> proxy_registry_ok (registry w) ->
  exists w', native_proxy_apply Windows config w = (w', Ok (snapshot_of (registry w))) /\
    registry w' = applied config (registry w).
Proof.
  intros Hc Hok. unfold native_proxy_apply, native_proxy_snapshot. rewrite Hc.
  destruct (snapshot_reads w Hok) as (w1 & S1 & E1).
  destruct (set_dword_writes "ProxyEnable" 1 w1) as (w2 & S2 & E2); [unfold u32_max; lia|].
  destruct (set_string_writes "ProxyServer" (proxy_config_server config) w2) as (w3 & S3 & E3).
  unfold sm_bind, sm_lift, sm_ret. rewrite S1, S2, S3. unfold applied.
  destruct (bypass_value config) as [value|].
  - destruct (set_string_writes "ProxyOverride" value w3) as (w4 & S4 & E4). exists w4. rewrite S4.
    split; [done|]. by rewrite E4, E3, E2, E1.
  - destruct (delete_removes "ProxyOverride" w3) as (w4 & S4 & E4). exists w4. rewrite S4.
    split; [done|]. by rewrite E4, E3, E2, E1.
Qed.

(** What [restore] makes of a registry. *)
Definition restored (snapshot : SystemProxySnapshot) (r : gmap string RegValue) : gmap string RegValue :=
  partial_alter (fun _ => RegSz <$> proxy_override snapshot) "ProxyOverride"
    (partial_alter (fun _ => RegSz <$> proxy_server snapshot) "ProxyServer"
       (partial_alter (fun _ => RegDword <$> proxy_enable snapshot) "ProxyEnable" r)).

Lemma restore_string_writes name value w :
  exists w', restore_windows_string name value w = (w', Ok tt) /\
    registry w' = partial_alter (fun _ => RegSz <$> value) name (registry w).
Proof.
  destruct value as [text|]; cbn [restore_windows_string fmap option_fmap option_map].
  - apply set_string_writes.
  - apply delete_removes.
Qed.

Lemma restore_dword_writes name value w :
  (forall n, value = Some n -> 0 <= n <= u32_max) ->
  exists w', restore_windows_dword name value w = (w', Ok tt) /\
    registry w' = partial_alter (fun _ => RegDword <$> value) name (registry w).
Proof.
  intros Hv. destruct value as [n|]; cbn [restore_windows_dword fmap option_fmap option_map].
  - apply set_dword_writes. auto.
  - apply delete_removes.
Qed.

Lemma restore_writes snapshot w :
  (forall n, proxy_enable snapshot = Some n -> 0 <= n <= u32_max) ->
  exists w', native_proxy_restore Windows snapshot w = (w', Ok tt) /\
    registry w' = restored snapshot (registry w).
Proof.
  intros Hn. unfold native_proxy_restore, sm_bind.
  destruct (restore_dword_writes "ProxyEnable" _ w Hn) as (w1 & S1 & E1).
  destruct (restore_string_writes "ProxyServer" (proxy_server snapshot) w1) as (w2 & S2 & E2).
  destruct (restore_string_writes "ProxyOverride" (proxy_override snapshot) w2) as (w3 & S3 & E3).
  exists w3. rewrite S1, S2. split; [exact S3|]. unfold restored. by rewrite E3, E2, E1.
Qed.

Lemma restored_applied config r : proxy_registry_ok r -> restored (snapshot_of r) (applied config r) = r.
Proof.
  intros [He Hs]. apply map_eq. intros name. unfold restored, applied, snapshot_of. cbn [proxy_enable proxy_server proxy_override].
  destruct (decide (name = "ProxyOverride")) as [->|H1].
  { rewrite lookup_partial_alter_eq. destruct (r !! "ProxyOverride") as [value|] eqn:E; [|done].
    by destruct (Hs "ProxyOverride" value) as (text & -> & _); [right|..]. }
  rewrite lookup_partial_alter_ne by done.
  destruct (decide (name = "ProxyServer")) as [->|H2].
  { rewrite lookup_partial_alter_eq. destruct (r !! "ProxyServer") as [value|] eqn:E; [|done].
    by destruct (Hs "ProxyServer" value) as (text & -> & _); [left|..]. }
  rewrite lookup_partial_alter_ne by done.
  destruct (decide (name = "ProxyEnable")) as [->|H3].
  { rewrite lookup_partial_alter_eq. destruct (r !! "ProxyEnable") as [value|]; [|done].
    by destruct (He value eq_refl) as (n & -> & _). }
  rewrite !lookup_partial_alter_ne, !lookup_insert_ne by done. done.
Qed.

End RegistryLemmas.

(** C21: On a system where [reg] works as documented, applying a valid system proxy writes
    the enabled flag, the server and the bypass list and nothing else, and restoring the
    snapshot that [apply] returned gives back the registry as it was before, values that
    were absent included. Before, the values have the types Windows gives them, and the server
    and the bypass list, where they are there, are non-empty printable texts on one line
    without white space at their ends (an empty one is read as absent, and restore
    deletes it). *)
Theorem system_proxy_roundtrip {W} `{Registry W} (config : SystemProxyConfig) (w : W) :
  validate_proxy_server (proxy_config_server config) = Ok tt -> proxy_registry_ok (registry w) ->
  exists w1 w2 snapshot,
    native_proxy_apply Windows config w = (w1, Ok snapshot) /\
    registry w1 = applied config (registry w) /\
    native_proxy_restore Windows snapshot w1 = (w2, Ok tt) /\ registry w2 = registry w.
Proof.
  intros Hc Hok. destruct (apply_writes config w Hc Hok) as (w1 & S1 & E1).
  destruct (restore_writes (snapshot_of (registry w)) w1) as (w2 & S2 & E2).
  { intros n Hn. destruct Hok as [He _]. unfold snapshot_of in Hn. cbn [proxy_enable] in Hn.
    destruct (registry w !! "ProxyEnable") as [value|]; [|done].
    destruct (He value eq_refl) as (m & -> & Hm). by simplify_eq/=. }
  exists w1, w2, (snapshot_of (registry w)). split_and!; [done..|].
  by rewrite E2, E1, restored_applied.
Qed.

(** ** The routes *)

(** The documented behaviour of [netsh interface add route] and [delete route]: a route that
    is there cannot be added again, one that is there can be deleted, and a command that
    fails changes nothing. *)
Class RouteTable (W : Type) `{PlatformSystem W} := {
  routes : W -> gset (string * string);
  route_added w w' name address prefix :
    command_run (step_add (windows_tun_route_takeover_step name address prefix)) w = (w', Ok tt) ->
    (prefix, name) ∉ routes w /\ routes w' = {[(prefix, name)]} ∪ routes w;
  route_not_added w w' name address prefix error :
    command_run (step_add (windows_tun_route_takeover_step name address prefix)) w = (w', Err error) ->
    routes w' = routes w;
  route_removed w name address prefix :
    (prefix, name) ∈ routes w ->
    exists w', command_run (step_remove (windows_tun_route_takeover_step name address prefix)) w = (w', Ok tt) /\
      routes w' = routes w ∖ {[(prefix, name)]}
}.

Section RouteLemmas.
Context {W : Type} `{RouteTable W}.

Lemma command_run_total command w :
  exists w' r, command_run command w = (w', r) /\ (r = Ok tt \/ exists error, r = Err error).
Proof.
  unfold command_run, run_tun_command_checked. destruct (command_output _ _ w) as [w' [error|output]]; [by eauto 6|].
  destruct (output_success output); eauto 6.
Qed.

Context (name : string) (address : IpAddr).

Definition step_of (prefix : string) : WindowsTunRouteTakeoverStep :=
  windows_tun_route_takeover_step name address prefix.

Definition keys (prefixes : list string) : gset (string * string) :=
  list_to_set (map (fun prefix => (prefix, name)) prefixes).

Lemma elem_of_keys prefixes prefix : (prefix, name) ∈ keys prefixes <-> prefix ∈ prefixes.
Proof.
  unfold keys. rewrite elem_of_list_to_set. rewrite !list_elem_of_In, in_map_iff. split; [|by eauto].
  by intros (p & [= ->] & Hp).
Qed.

Lemma keys_rev prefixes : keys (rev prefixes) = keys prefixes.
Proof.
  unfold keys. rewrite map_rev. apply set_eq. intros x. by rewrite !elem_of_list_to_set, !list_elem_of_In, <- in_rev.
Qed.

Lemma remove_all prefixes base w :
  NoDup prefixes -> keys prefixes ## base -> routes w = keys prefixes ∪ base ->
  exists w', run_all (map (fun prefix => step_remove (step_of prefix)) prefixes) w = (w', Ok []) /\
    routes w' = base.
Proof.
  intros Hnd Hdis. revert w. induction Hnd as [|prefix prefixes Hin Hnd IH]; intros w Hw.
  { exists w. split; [done|]. rewrite Hw. set_solver. }
  change (keys (prefix :: prefixes)) with ({[(prefix, name)]} ∪ keys prefixes) in *.
  destruct (route_removed w name address prefix) as (w1 & R1 & E1); [rewrite Hw; set_solver|].
  cbn [map run_all]. unfold step_of at 1. rewrite R1. apply IH; [set_solver|].
  rewrite E1, Hw. assert ((prefix, name) ∉ keys prefixes) by (by rewrite elem_of_keys). set_solver.
Qed.

Lemma takeover_undone prefixes base w :
  NoDup prefixes -> keys prefixes ## base -> routes w = keys prefixes ∪ base ->
  exists w', takeover_restore (map (fun prefix => step_remove (step_of prefix)) prefixes) w = (w', Ok tt) /\
    routes w' = base.
Proof.
  intros Hnd Hdis Hw. unfold takeover_restore. rewrite <- map_rev.
  destruct (remove_all (rev prefixes) base w) as (w' & R & E); [..|by rewrite keys_rev|].
  - by apply NoDup_ListNoDup, NoDup_rev, NoDup_ListNoDup.
  - by rewrite keys_rev.
  - exists w'. unfold sm_bind. by rewrite R.
Qed.

Lemma takeover_steps_routes prefixes done_ base w w' r :
  NoDup done_ -> keys done_ ## base -> routes w = keys done_ ∪ base ->
  takeover_steps (map step_of prefixes) (map (fun prefix => step_remove (step_of prefix)) done_) w = (w', r) ->
  match r with
  | Ok state =>
      state = map (fun prefix => step_remove (step_of prefix)) (done_ ++ prefixes) /\
      NoDup (done_ ++ prefixes) /\ keys (done_ ++ prefixes) ## base /\
      routes w' = keys (done_ ++ prefixes) ∪ base
  | Err _ => routes w' = base
  | Panic => False
  end.
Proof.
  revert done_ w. induction prefixes as [|prefix prefixes IH]; intros done_ w Hnd Hdis Hw Hs.
  { injection Hs as <- <-. by rewrite app_nil_r. }
  cbn [map takeover_steps] in Hs.
  destruct (command_run_total (step_add (step_of prefix)) w) as (w1 & r1 & R1 & [->|[error ->]]); rewrite R1 in Hs.
  - destruct (route_added _ _ _ _ _ R1) as [Hnew Hw1].
    assert (Hk : keys (done_ ++ [prefix]) = keys done_ ∪ {[(prefix, name)]}).
    { unfold keys. rewrite map_app, list_to_set_app_L. cbn. by rewrite union_empty_r_L. }
    rewrite (cons_middle prefix done_ prefixes), (assoc_L (++)).
    apply (IH (done_ ++ [prefix]) w1).
    + apply NoDup_app. split_and!; [done| |apply NoDup_singleton]. intros p Hp ->%list_elem_of_singleton.
      apply Hnew. rewrite Hw. apply elem_of_union_l. by apply elem_of_keys.
    + rewrite Hk. set_solver.
    + rewrite Hk, Hw1, Hw. set_solver.
    + rewrite map_app. exact Hs.
  - apply route_not_added in R1 as Hw1.
    destruct (takeover_undone done_ base w1) as (w2 & R2 & E2); [done..|by rewrite Hw1|].
    rewrite R2 in Hs. by injection Hs as <- <-.
Qed.

End RouteLemmas.

(** C22: Taking over the default routes is all or nothing: when a route cannot be added, the
    ones added before are removed again and the table is as it was; when all are added the
    table has exactly them besides, and restoring the state that is returned gives back the
    table as it was. *)
Theorem route_takeover_all_or_nothing {W} `{RouteTable W} (config : TunDeviceConfig) (w w' : W) r :
  apply_windows_tun_route_takeover config w = (w', r) ->
  match r with
  | Ok state =>
      exists prefixes w'',
        tun_route_takeover_expected_prefixes config = Ok prefixes /\
        routes w' = keys (tun_interface_name config) prefixes ∪ routes w /\
        takeover_restore state w' = (w'', Ok tt) /\ routes w'' = routes w
  | Err _ => routes w' = routes w
  | Panic => False
  end.
Proof.
  unfold apply_windows_tun_route_takeover, windows_tun_route_takeover_steps, tun_route_takeover_expected_prefixes.
  destruct (parse_tun_address_cidr_parts (tun_address_cidr config)) as [[address plen]|error|] eqn:E.
  2: { intros Hs. by injection Hs as <- <-. }
  2: { exfalso. revert E. unfold parse_tun_address_cidr_parts. destruct (split_once _ _) as [[a p]|]; [|done].
       by destruct (parse_ip_addr a), (parse_u8 p). }
  cbn [result_bind]. set (prefixes := match address with V4 _ => _ | V6 _ => _ end).
  intros Hs. unfold sm_bind, sm_lift in Hs.
  apply (takeover_steps_routes (tun_interface_name config) address prefixes [] (routes w)) in Hs;
    [|by constructor|set_solver|set_solver].
  destruct r as [state|error|]; [|done..]. destruct Hs as (-> & Hnd & Hdis & Hw).
  destruct (takeover_undone (tun_interface_name config) address prefixes (routes w) w') as (w'' & R & E''); [done..|].
  by exists prefixes, w''.
Qed.

(** ** The preflight and the validation *)

(** The preflight of a device is ready exactly when its configuration is valid and the
    controller reports a backend with lifecycle and packet I/O on which nothing runs, or the
    very configuration that is asked for; it never fails and never changes the device. *)
Theorem preflight_ready_iff {W} {Controller : TunDeviceController W} (config : TunDeviceConfig) (w w' : W) r :
  tun_snapshot w = (w', r) -> r <> Panic ->
  exists w1 p,
    preflight_check config w = (w1, Ok p) /\ (w1 = w \/ w1 = w') /\
    (preflight_ready p = true <->
     validate_tun_config config = Ok tt /\
     exists snapshot, r = Ok snapshot /\ snap_supported snapshot = true /\
       snap_lifecycle_available snapshot = true /\ snap_packet_io_available snapshot = true /\
       (snap_running snapshot = false \/ tun_snapshot_matches_config snapshot config = true)).
Proof.
  intros Hs Hp. unfold preflight_check. destruct (validate_tun_config config) as [[]|error|] eqn:Hv.
  - rewrite Hs. destruct r as [snapshot|error|]; [| |done].
    + eexists _, _. split; [done|]. split; [by right|]. cbn [preflight_ready preflight_from_parts].
      unfold tun_readiness_from_snapshot.
      split; [|by intros (_ & s & [= <-] & -> & -> & -> & [->| ->]); [|destruct (snap_running snapshot)]].
      intros Hr. split; [done|]. exists snapshot.
      destruct (snap_supported snapshot), (snap_lifecycle_available snapshot), (snap_packet_io_available snapshot),
        (snap_running snapshot), (tun_snapshot_matches_config snapshot config); try done; auto 10.
    + destruct error; eexists _, _; (split; [done|]; split; [by right|]); cbn;
        (split; [done|]; by intros (_ & s & [=] & _)).
  - eexists _, _. split; [done|]. split; [by left|]. cbn. split; [done|]. by intros [[=] _].
  - exfalso. revert Hv. unfold validate_tun_config, validate_tun_interface_name, validate_tun_address_cidr, validate_tun_mtu.
    clear. repeat (case_match; cbn [result_bind ok_or]; try done).
    all: try (destruct (parse_ip_addr _), (parse_u8 _); cbn [result_bind ok_or]; repeat case_match; done).
Qed.

(** A valid configuration has the commands of its interface and of its routes. *)
Lemma valid_config_has_commands config :
  validate_tun_config config = Ok tt ->
  (exists commands, windows_tun_interface_config_commands config = Ok commands /\ length commands = 3%nat) /\
  (exists steps, windows_tun_route_takeover_steps config = Ok steps /\ length steps = 2%nat).
Proof.
  unfold validate_tun_config, validate_tun_address_cidr, windows_tun_interface_config_commands,
    windows_tun_route_takeover_steps, tun_route_takeover_expected_prefixes, parse_tun_address_cidr_parts.
  destruct (validate_tun_interface_name _) as [[]|?|]; cbn [result_bind]; [|done..].
  destruct (split_once _ _) as [[a p]|]; cbn [result_bind]; [|done].
  destruct (parse_ip_addr a) as [[v4|v6]|], (parse_u8 p) as [plen|]; cbn [ok_or result_bind]; try done.
  - destruct (32 <? plen) eqn:E; [done|]. intros _. unfold ipv4_prefix_to_netmask. rewrite E. cbn [result_bind].
    split; by eauto.
  - intros _. split; by eauto.
Qed.

(** ** The state of the controller *)

Section ControllerLemmas.
Context {W : Type} {System : PlatformSystem W} {Api : WintunApi W}.

(** A configuration is active with an adapter and the routes taken over, or nothing is. *)
Definition parts_together (state : NativeTunControllerState) : Prop :=
  match tun_active_config state with
  | Some _ => is_Some (windows_adapter state) /\ is_Some (windows_route_takeover state)
  | None => windows_adapter state = None /\ windows_route_takeover state = None
  end.

(** The states the operations lead to from the one of [new]. *)
Inductive controller_reaches (platform : PlatformKind) : NativeTunControllerState -> Prop :=
| reaches_new : controller_reaches platform NativeTunControllerState_default
| reaches_start state w config state' w' r :
    controller_reaches platform state ->
    native_tun_start platform config (state, w) = ((state', w'), r) -> controller_reaches platform state'
| reaches_stop state w state' w' r :
    controller_reaches platform state ->
    native_tun_stop platform (state, w) = ((state', w'), r) -> controller_reaches platform state'
| reaches_open state w config state' w' r :
    controller_reaches platform state ->
    open_packet_io platform config (state, w) = ((state', w'), r) -> controller_reaches platform state'.

Lemma on_system_state {A} (m : SM W TunDeviceError A) s s' r : on_system m s = (s', r) -> s'.1 = s.1.
Proof. unfold on_system. destruct (m s.2). by intros [= <- _]. Qed.

Lemma start_state platform config s s' r :
  native_tun_start platform config s = (s', r) ->
  match r with
  | Ok snapshot =>
      snapshot = snapshot_running config /\ tun_active_config s'.1 = Some config /\ parts_together s'.1
  | _ => s'.1 = s.1
  end.
Proof.
  unfold native_tun_start, sm_bind, sm_lift.
  destruct (validate_tun_config config) as [[]|error|]; [|by intros [= <- <-]..].
  destruct platform; try by intros [= <- <-].
  destruct (on_system (open_or_create config) s) as [s1 [adapter|error|]] eqn:E1; apply on_system_state in E1;
    [|by intros [= <- <-]..].
  destruct (on_system (windows_configure_tun_interface config) s1) as [s2 [takeover|error|]] eqn:E2;
    apply on_system_state in E2; intros [= <- <-]; cbn [fst]; [|by rewrite E2..].
  split_and!; [done..|]. by split; eexists.
Qed.

Lemma stop_state s s' r :
  native_tun_stop Windows s = (s', r) -> s'.1 = NativeTunControllerState_default.
Proof.
  unfold native_tun_stop. destruct (windows_route_takeover s.1) as [takeover|].
  - destruct (on_system (takeover_restore takeover) _) as [s1 [[]|error|]] eqn:E1; apply on_system_state in E1.
    + intros E2%on_system_state. by rewrite E2.
    + by intros [= <- _].
    + by intros [= <- _].
  - by intros E%on_system_state.
Qed.

Lemma open_state platform config s s' r :
  open_packet_io platform config s = (s', r) -> s'.1 = s.1.
Proof.
  unfold open_packet_io, sm_bind, sm_lift.
  destruct (validate_tun_config config) as [[]|error|]; [|by intros [= <- _]..].
  destruct platform; try by intros [= <- _].
  repeat case_match; solve [by intros [= <- _] | by intros E%on_system_state].
Qed.

Lemma other_stop platform s s' r :
  platform <> Windows -> native_tun_stop platform s = (s', r) -> s'.1 = s.1.
Proof. intros Hp. destruct platform; [done|..]; by intros [= <- _]. Qed.

End ControllerLemmas.

(** Whatever sequence of [start], [stop] and [open_packet_io] was called, with whatever
    outcomes of the commands and of the driver, the controller holds an adapter and the
    commands that take the routes back exactly while a configuration is active: a device it
    reports running can be opened and its routes can be restored. *)
Theorem tun_controller_invariant {W} {System : PlatformSystem W} {Api : WintunApi W}
  (platform : PlatformKind) (state : NativeTunControllerState) :
  controller_reaches (W := W) platform state -> parts_together state.
Proof.
  induction 1 as [|state w config state' w' r _ IH Hs|state w state' w' r _ IH Hs|state w config state' w' r _ IH Hs].
  - done.
  - apply start_state in Hs. cbn in Hs. destruct r; [by destruct Hs as (_ & _ & Hs)|by rewrite Hs..].
  - destruct (decide (platform = Windows)) as [->|Hp].
    + apply stop_state in Hs. cbn in Hs. by rewrite Hs.
    + apply other_stop in Hs; [|done]. cbn in Hs. by rewrite Hs.
  - apply open_state in Hs. cbn in Hs. by rewrite Hs.
Qed.

(** A stop that fails to restore the routes forgets how to: the state is cleared before
    the commands run, so that a second stop runs none of them and reports the device
    stopped. *)
Theorem failed_stop_is_not_retried {W} {System : PlatformSystem W} {Api : WintunApi W}
  (s s' : TunWorld W) error :
  native_tun_stop Windows s = (s', Err error) ->
  native_tun_stop Windows s' = on_system windows_tun_stopped_snapshot s'.
Proof.
  intros Hs. apply stop_state in Hs. destruct s' as [state w]. cbn in Hs. by subst state.
Qed.

(** ** A machine that runs the commands *)

Record Machine : Type := mkMachine {
  machine_registry : gmap string RegValue;
  machine_routes : gset (string * string)
}.

Definition succeeded (stdout : string) : CommandOutput := mkCommandOutput (Some 0) (as_bytes stdout) [].
Definition failed (code : Z) (stderr : string) : CommandOutput := mkCommandOutput (Some code) [] (as_bytes stderr).

Definition with_registry (r : gmap string RegValue) (m : Machine) : Machine := mkMachine r (machine_routes m).
Definition with_routes (r : gset (string * string)) (m : Machine) : Machine := mkMachine (machine_registry m) r.

(** [reg query], [reg delete] and [reg add]; the values named by [denied] cannot be
    written. *)
Definition run_reg (denied : string -> bool) (args : list string) (m : Machine) : Machine * CommandOutput :=
  match args with
  | [_; _; _; name] =>
      match machine_registry m !! name with
      | Some value => (m, succeeded (query_text name value))
      | None => (m, failed 1 "ERROR: The system was unable to find the specified registry key or value.")
      end
  | [_; _; _; name; _] =>
      match machine_registry m !! name with
      | Some _ => (with_registry (delete name (machine_registry m)) m, succeeded "")
      | None => (m, failed 1 "ERROR: The system was unable to find the specified registry key or value.")
      end
  | [_; _; _; name; _; type; _; data; _] =>
      if denied name then (m, failed 5 "ERROR: Access is denied.")
      else if String.eqb type "REG_DWORD" then
        match u32_from_str_radix 10 data with
        | Some n => (with_registry (<[name := RegDword n]> (machine_registry m)) m, succeeded "")
        | None => (m, failed 1 "ERROR: Invalid syntax.")
        end
      else (with_registry (<[name := RegSz data]> (machine_registry m)) m, succeeded "")
  | _ => (m, failed 1 "ERROR: Invalid syntax.")
  end.

(** [netsh interface add route] and [delete route]; the routes of the prefixes named by
    [denied] cannot be added, those named by [stuck] cannot be removed. *)
Definition run_netsh (denied stuck : string -> bool) (args : list string) (m : Machine)
  : Machine * CommandOutput :=
  match args with
  | _ :: _ :: verb :: _ :: prefix :: name :: _ =>
      match strip_prefix "prefix=" prefix, strip_prefix "interface=" name with
      | Some prefix, Some name =>
          if String.eqb verb "add" then
            if denied prefix || bool_decide ((prefix, name) ∈ machine_routes m)
            then (m, failed 1 "The object already exists.")
            else (with_routes ({[(prefix, name)]} ∪ machine_routes m) m, succeeded "Ok.")
          else if negb (stuck prefix) && bool_decide ((prefix, name) ∈ machine_routes m)
          then (with_routes (machine_routes m ∖ {[(prefix, name)]}) m, succeeded "Ok.")
          else (m, failed 1 "Element not found.")
      | _, _ => (m, succeeded "Ok.")
      end
  | _ => (m, failed 1 "The syntax supplied for this command is not valid.")
  end.

Definition MachineSystem (denied stuck : string -> bool) : PlatformSystem Machine :=
  {| command_output program args m :=
       let '(m, output) :=
         if String.eqb program "reg" then run_reg denied args m else run_netsh denied stuck args m in
       (m, inr output);
     from_utf8_lossy := string_of_bytes |}.

Definition never (name : string) : bool := false.

#[local, refine] Instance machine_registry_laws : Registry Machine (H := MachineSystem never never) :=
  {| registry := machine_registry |}.
Proof.
  - intros m name value E. cbn. rewrite E. eexists _, _. split_and!; [done..| |done]. cbn.
    apply string_of_as_bytes.
  - intros m name E. cbn. rewrite E. by eexists _, _.
  - intros m name n Hn. cbn -[u32_from_str_radix to_decimal]. unfold to_decimal.
    rewrite u32_text_reads by (auto; lia). by eexists _, _.
  - intros m name text. cbn. by eexists _, _.
  - intros m name [value E]. cbn. rewrite E. by eexists _, _.
  - intros m name E. cbn. rewrite E. by eexists _, _.
Defined.

#[local, refine] Instance machine_route_laws (denied : string -> bool) : RouteTable Machine (H := MachineSystem denied never) :=
  {| routes := machine_routes |}.
Proof.
  - intros m m' name address prefix. unfold command_run, run_tun_command_checked. cbn -[strip_prefix String.append].
    rewrite !strip_prefix_app. cbn. destruct (denied prefix); [done|]. cbn.
    case_bool_decide; [done|]. by intros [= <-].
  - intros m m' name address prefix error. unfold command_run, run_tun_command_checked. cbn -[strip_prefix String.append].
    rewrite !strip_prefix_app. cbn. destruct (denied prefix); [by intros [= <-]|]. cbn.
    case_bool_decide; [by intros [= <-]|done].
  - intros m name address prefix Hin. unfold command_run, run_tun_command_checked. cbn -[strip_prefix String.append].
    rewrite !strip_prefix_app. cbn. rewrite bool_decide_eq_true_2 by done. by eexists.
Defined.

(** A driver that is always there. *)
Definition machine_driver : WintunApi Machine :=
  {| LoadLibraryW _ m := (m, 1);
     FreeLibrary _ m := m;
     GetProcAddress _ _ m := (m, 1);
     GetLastError _ := 0;
     WintunCreateAdapter _ _ _ m := (m, 1);
     WintunOpenAdapter _ _ m := (m, 0);
     WintunCloseAdapter _ _ m := m;
     WintunStartSession _ _ _ m := (m, 1);
     WintunEndSession _ _ m := m;
     WintunReceivePacket _ _ m := (m, (0, []));
     WintunReleaseReceivePacket _ _ _ m := m;
     WintunAllocateSendPacket _ _ _ m := (m, 1);
     WintunSendPacket _ _ _ _ m := m;
     windows_tun_library_search_paths _ := ["C:\Windows\System32\wintun.dll"];
     is_file _ _ := true |}.

Definition sample_tun_config : TunDeviceConfig := mkTunDeviceConfig "keli-tun0" "10.255.0.1/30" 1500 true.

Definition sample_machine : Machine :=
  mkMachine (<["ProxyEnable" := RegDword 0]> (<["ProxyOverride" := RegSz "localhost;<local>"]> ∅)) ∅.

Definition sample_proxy : SystemProxyConfig := mkSystemProxyConfig "127.0.0.1:7890" ["localhost"; "127.*"].

Lemma sample_registry_ok : proxy_registry_ok (machine_registry sample_machine).
Proof.
  split.
  - intros value [= <-]. exists 0. split; [done|]. unfold u32_max. lia.
  - intros name value [->| ->]; [done|]. intros [= <-]. exists "localhost;<local>". by split_and!.
Qed.

Lemma system_proxy_roundtrip_witness :
  exists w1 w2 snapshot,
    native_proxy_apply (System := MachineSystem never never) Windows sample_proxy sample_machine = (w1, Ok snapshot) /\
    machine_registry w1 = applied sample_proxy (machine_registry sample_machine) /\
    native_proxy_restore (System := MachineSystem never never) Windows snapshot w1 = (w2, Ok tt) /\
    machine_registry w2 = machine_registry sample_machine.
Proof.
  apply (system_proxy_roundtrip (H := MachineSystem never never) (H0 := machine_registry_laws));
    [reflexivity|apply sample_registry_ok].
Defined.

Lemma route_takeover_all_or_nothing_witness :
  exists m' error,
    apply_windows_tun_route_takeover (System := MachineSystem (String.eqb "128.0.0.0/1") never)
      sample_tun_config sample_machine = (m', Err error) /\
    machine_routes m' = machine_routes sample_machine.
Proof.
  eexists _, _. split; [vm_compute; reflexivity|].
  exact (route_takeover_all_or_nothing (H := MachineSystem (String.eqb "128.0.0.0/1") never)
           (H0 := machine_route_laws (String.eqb "128.0.0.0/1")) sample_tun_config sample_machine _ _ eq_refl).
Defined.

Lemma preflight_ready_iff_witness :
  exists w1 p,
    preflight_check (Controller := NativeTunDeviceController (System := MachineSystem never never)
                                     (Api := machine_driver) Windows)
      sample_tun_config (NativeTunControllerState_default, sample_machine) = (w1, Ok p) /\
    preflight_ready p = true.
Proof.
  destruct (preflight_ready_iff (Controller := NativeTunDeviceController (System := MachineSystem never never)
              (Api := machine_driver) Windows) sample_tun_config (NativeTunControllerState_default, sample_machine)
              _ _ eq_refl) as (w1 & p & Hp & _ & Hr); [discriminate|].
  exists w1, p. split; [exact Hp|]. apply Hr. split; [reflexivity|]. eexists. split; [vm_compute; reflexivity|].
  repeat split. left. reflexivity.
Defined.

Lemma tun_controller_invariant_witness :
  parts_together
    (native_tun_start (System := MachineSystem never never) (Api := machine_driver) Windows sample_tun_config
       (NativeTunControllerState_default, sample_machine)).1.1.
Proof.
  refine (tun_controller_invariant (System := MachineSystem never never) (Api := machine_driver) Windows _ _).
  eapply (reaches_start Windows NativeTunControllerState_default sample_machine sample_tun_config);
    [constructor|]. vm_compute. reflexivity.
Defined.

(** A machine whose route of [0.0.0.0/1] cannot be removed, after a start. *)
Definition stuck_system : PlatformSystem Machine := MachineSystem never (String.eqb "0.0.0.0/1").

Definition stuck_world : TunWorld Machine :=
  (native_tun_start (System := stuck_system) (Api := machine_driver) Windows sample_tun_config
     (NativeTunControllerState_default, sample_machine)).1.

Lemma failed_stop_is_not_retried_witness :
  exists s1 s2 error snapshot,
    native_tun_stop (System := stuck_system) (Api := machine_driver) Windows stuck_world = (s1, Err error) /\
    native_tun_stop (System := stuck_system) (Api := machine_driver) Windows s1 = (s2, Ok snapshot) /\
    snap_running snapshot = false /\ bool_decide (("0.0.0.0/1", "keli-tun0") ∈ machine_routes s2.2) = true.
Proof.
  eexists _, _, _, _. split; [vm_compute; reflexivity|]. split.
  { erewrite (failed_stop_is_not_retried (System := stuck_system) (Api := machine_driver) stuck_world);
      vm_compute; reflexivity. }
  split; vm_compute; reflexivity.
Defined.

(** ** Behaviours worth knowing *)

(** An [apply] whose second write is refused fails with the proxy enabled: nothing of it is
    undone. *)
Lemma failed_apply_leaves_proxy_enabled :
  exists m' error,
    native_proxy_apply (System := MachineSystem (String.eqb "ProxyServer") never) Windows sample_proxy sample_machine
      = (m', Err error) /\
    machine_registry sample_machine !! "ProxyEnable" = Some (RegDword 0) /\
    machine_registry m' !! "ProxyEnable" = Some (RegDword 1).
Proof. eexists _, _. split; [vm_compute; reflexivity|]. by split. Qed.

(** A line of another prefix and of another interface counts as the route that is looked
    for: the texts are searched for in the line. *)
Lemma takeover_snapshot_matches_substrings :
  observed_prefixes
    (tun_route_takeover_snapshot_from_output (mkTunDeviceConfig "tun" "10.255.0.1/30" 1500 true)
       ["0.0.0.0/1"; "128.0.0.0/1"] None (Some "No       Manual    1    10.0.0.0/16    12  ethernet-tunnel") None) =
  ["0.0.0.0/1"].
Proof. reflexivity. Qed.
