(* ===== verification/TunText.v ===== *)
(** * What is printed of a TUN runtime

    The texts of the errors of the packet loop ([crates/keli-net-core/src/tun.rs]), and the
    note and the diagnostic that [crates/keli-cli/src/lib.rs] records of a loop that has
    ended. Derived [Debug] texts are written out; [str_debug] is the quoted and escaped text
    of a string. *)

From Stdlib Require Import Ascii.
From stdpp Require Import base strings list numbers.
From S2P Require Import Prelude.
From S2P Require Import StdNet.
From S2P Require Import StdIo.
From S2P Require Import Route.
From S2P Require Import Dns.
From S2P Require Import TunPacket.
From S2P Require Import TunPlan.
From S2P Require Import TunProcess.
From S2P Require Import TunSummary.
From S2P Require Import Network.
From S2P Require Import Mixed.
From S2P Require Import ClientRuntime.
From S2P Require Import Platform.
#[local] Open Scope Z_scope.

(** ** Errors *)

Definition protocol_debug (protocol : TunTransportProtocol) : string :=
  match protocol with
  | Proto_Tcp => "Tcp"
  | Proto_Udp => "Udp"
  | Proto_Icmp => "Icmp"
  | Proto_Icmpv6 => "Icmpv6"
  | Proto_Other value => "Other(" +:+ to_decimal value +:+ ")"
  end.

Definition version_debug (version : TunIpVersion) : string :=
  match version with Ipv4 => "Ipv4" | Ipv6 => "Ipv6" end.

(** [{:03x}]. *)
Definition hex3 (n : Z) : string :=
  let s := to_hex n in
  (if len (as_bytes s) <? 2 then "00" else if len (as_bytes s) <? 3 then "0" else "") +:+ s.

Definition port_or_dash (port : option Z) : string := default "-" (to_decimal <$> port).

Definition TunPacketError_fmt (error : TunPacketError) : string :=
  match error with
  | PacketTooShort => "TUN packet is too short"
  | UnsupportedIpVersion version => "unsupported TUN packet IP version: " +:+ to_decimal version
  | Ipv4HeaderTooShort header_len packet_len =>
      "IPv4 header length " +:+ to_decimal header_len +:+ " exceeds packet length " +:+ to_decimal packet_len
  | Ipv4TotalLengthTooShort total_length header_len =>
      "IPv4 total length " +:+ to_decimal total_length +:+ " is smaller than header length "
      +:+ to_decimal header_len
  | Ipv4PacketTruncated total_length packet_len =>
      "IPv4 packet length " +:+ to_decimal packet_len +:+ " is smaller than total length "
      +:+ to_decimal total_length
  | Ipv4FragmentedPacket fragment_offset more_fragments =>
      "fragmented IPv4 TUN packets are unsupported: offset=" +:+ to_decimal fragment_offset
      +:+ ", more_fragments=" +:+ bool_text more_fragments
  | Ipv6PacketTruncated total_length packet_len =>
      "IPv6 packet length " +:+ to_decimal packet_len +:+ " is smaller than total length "
      +:+ to_decimal total_length
  | Ipv6ExtensionHeaderUnsupported next_header =>
      "IPv6 extension header " +:+ to_decimal next_header +:+ " is unsupported in TUN packets"
  | Ipv6ExtensionHeaderTruncated next_header required_len available_len =>
      "IPv6 extension header " +:+ to_decimal next_header +:+ " is truncated: required "
      +:+ to_decimal required_len +:+ ", available " +:+ to_decimal available_len
  | TransportHeaderTooShort protocol required_len available_len =>
      "transport header for " +:+ protocol_debug protocol +:+ " is too short: required "
      +:+ to_decimal required_len +:+ ", available " +:+ to_decimal available_len
  | ExpectedUdpPayload protocol => "expected UDP TUN payload, got " +:+ protocol_debug protocol
  | ExpectedTcpSegment protocol => "expected TCP TUN segment, got " +:+ protocol_debug protocol
  | ExpectedTcpSynSegment flags => "expected initial TCP SYN segment, got flags=0x" +:+ hex3 (flag_bits flags)
  | TcpSessionLimitExceeded active_sessions max_active_sessions =>
      "TUN TCP active session limit exceeded: active_sessions=" +:+ to_decimal active_sessions
      +:+ ", max_active_sessions=" +:+ to_decimal max_active_sessions
  | TcpDataOffsetTooSmall data_offset =>
      "TCP data offset " +:+ to_decimal data_offset +:+ " is smaller than minimum header length 20"
  | TcpSegmentTruncated header_len available_len =>
      "TCP header length " +:+ to_decimal header_len +:+ " exceeds available transport bytes "
      +:+ to_decimal available_len
  | UdpLengthTooShort udp_length =>
      "UDP length " +:+ to_decimal udp_length +:+ " is smaller than header length 8"
  | UdpPacketTruncated udp_length available_len =>
      "UDP payload length " +:+ to_decimal udp_length +:+ " exceeds available transport bytes "
      +:+ to_decimal available_len
  | NotDnsHijackCandidate destination_port =>
      "TUN UDP packet is not a DNS hijack candidate: destination_port=" +:+ port_or_dash destination_port
  | MissingUdpSocketAddress => "TUN UDP flow is missing a socket address"
  | MissingTcpSocketAddress => "TUN TCP flow is missing a socket address"
  | IpVersionAddressMismatch ip_version source_ip destination_ip =>
      "TUN " +:+ version_debug ip_version +:+ " flow has mismatched addresses: source="
      +:+ ip_to_string source_ip +:+ ", destination=" +:+ ip_to_string destination_ip
  | UdpResponsePayloadTooLarge ip_version payload_len max_payload_len =>
      "TUN " +:+ version_debug ip_version +:+ " UDP response payload length " +:+ to_decimal payload_len
      +:+ " exceeds max " +:+ to_decimal max_payload_len
  | TcpResponsePayloadTooLarge ip_version payload_len max_payload_len =>
      "TUN " +:+ version_debug ip_version +:+ " TCP response payload length " +:+ to_decimal payload_len
      +:+ " exceeds max " +:+ to_decimal max_payload_len
  | DnsResolve error => "failed to resolve TUN DNS query: " +:+ DnsError_fmt error
  | DnsWire error => "failed to parse TUN DNS query: " +:+ DnsWireError_fmt error
  end.

Definition TunTcpSessionError_fmt (error : TunTcpSessionError) : string :=
  match error with
  | Session_Packet error => "failed to process TUN TCP session packet: " +:+ TunPacketError_fmt error
  | Session_Relay error => "TUN TCP session relay failed: " +:+ error
  end.

Definition optional_port_debug (port : option Z) : string :=
  match port with Some port => "Some(" +:+ to_decimal port +:+ ")" | None => "None" end.

(** [{flow:?}]. *)
Definition flow_debug (flow : TunPacketFlow) : string :=
  "TunPacketFlow { ip_version: " +:+ version_debug (flow_ip_version flow)
  +:+ ", protocol: " +:+ protocol_debug (flow_protocol flow)
  +:+ ", source_ip: " +:+ ip_to_string (flow_source_ip flow)
  +:+ ", destination_ip: " +:+ ip_to_string (flow_destination_ip flow)
  +:+ ", source_port: " +:+ optional_port_debug (flow_source_port flow)
  +:+ ", destination_port: " +:+ optional_port_debug (flow_destination_port flow) +:+ " }".

Section Text.
Context (str_debug : string -> string).

Definition target_debug (target : OutboundTarget) : string :=
  "OutboundTarget { host: " +:+ str_debug (target_host target)
  +:+ ", port: " +:+ to_decimal (target_port target) +:+ " }".

(** [{action:?}]. *)
Definition relay_action_debug (action : TunPacketRelayAction) : string :=
  match action with
  | Action_Drop => "Drop"
  | Action_HijackDns => "HijackDns"
  | Action_DirectTcp target => "DirectTcp { target: " +:+ target_debug target +:+ " }"
  | Action_DirectUdp target => "DirectUdp { target: " +:+ target_debug target +:+ " }"
  | Action_OutboundTcp tag target =>
      "OutboundTcp { tag: " +:+ str_debug tag +:+ ", target: " +:+ target_debug target +:+ " }"
  | Action_OutboundUdp tag target =>
      "OutboundUdp { tag: " +:+ str_debug tag +:+ ", target: " +:+ target_debug target +:+ " }"
  | Action_UnsupportedTransport protocol =>
      "UnsupportedTransport { protocol: " +:+ protocol_debug protocol +:+ " }"
  end.

Definition TunUdpRelayError_fmt (error : TunUdpRelayError) : string :=
  match error with
  | UnsupportedRelayAction action => "unsupported TUN UDP relay action: " +:+ relay_action_debug action
  | UdpRelay_Packet error => "failed to parse TUN UDP relay packet: " +:+ TunPacketError_fmt error
  | UdpRelay_ResponsePacket error =>
      "failed to build TUN UDP relay response packet: " +:+ TunPacketError_fmt error
  | PlanFlowMismatch packet_flow plan_flow =>
      "TUN UDP relay plan flow mismatch: packet=" +:+ flow_debug packet_flow +:+ " plan=" +:+ flow_debug plan_flow
  | UdpRelay_Relay error => "TUN UDP relay failed: " +:+ error
  end.

(** ** Values of a note *)

Definition MAX_RUNTIME_NOTE_VALUE_LEN : nat := 240.

Definition is_ascii_alphanumeric (b : Z) : bool :=
  in_range 48 57 b || in_range 65 90 b || in_range 97 122 b.

(** The characters that are kept: digits, letters and [-_.:=/,()]. *)
Definition is_note_byte (b : Z) : bool :=
  is_ascii_alphanumeric b || existsb (Z.eqb b) [45; 95; 46; 58; 61; 47; 44; 40; 41].

(** The loop over the characters: a character that is not ASCII is its first byte, what
    continues it is passed over. *)
Fixpoint sanitize_bytes (left : nat) (l : list Z) : list Z :=
  match l with
  | [] => []
  | b :: l' =>
      if in_range 128 191 b then sanitize_bytes left l'
      else
        match left with
        | O => []
        | S left' => (if is_note_byte b then b else 95) :: sanitize_bytes left' l'
        end
  end.

Definition sanitize_runtime_note_value (value : string) : string :=
  string_of_bytes (sanitize_bytes MAX_RUNTIME_NOTE_VALUE_LEN (as_bytes value)).

Definition route_action_note_value (action : RouteAction) : string :=
  match action with
  | Route_Direct => "direct"
  | Route_Block => "block"
  | Route_HijackDns => "hijack-dns"
  | Route_Outbound tag => "outbound:" +:+ sanitize_runtime_note_value tag
  end.

Definition tun_packet_flow_note_value (flow : TunPacketFlow) : string :=
  sanitize_runtime_note_value
    (ip_to_string (flow_source_ip flow) +:+ ":" +:+ port_or_dash (flow_source_port flow) +:+ "->"
     +:+ ip_to_string (flow_destination_ip flow) +:+ ":" +:+ port_or_dash (flow_destination_port flow)
     +:+ "/" +:+ to_decimal (ip_protocol_number (flow_protocol flow))).

Definition tun_runtime_note_error_value (error : option string) : string :=
  default "none" (sanitize_runtime_note_value <$> error).

(** ** The report *)

Record ManagedTunPacketLoopReport : Type := mkTunReport {
  report_config : TunDeviceConfig;
  report_start_snapshot : TunDeviceSnapshot;
  report_stop_snapshot : TunDeviceSnapshot;
  report_owns_device : bool;
  report_summary : TunPacketLoopSummary
}.

Definition managed_tun_runtime_report_note (report : ManagedTunPacketLoopReport) : string :=
  let s := report_summary report in
  let or_none := default "none" in
  let n := to_decimal in
  "managed TUN runtime stopped interface=" +:+ tun_interface_name (report_config report)
  +:+ " owns_device=" +:+ bool_text (report_owns_device report)
  +:+ " processed=" +:+ n (processed_packets s)
  +:+ " idle=" +:+ n (sum_idle_events s)
  +:+ " exit_reason=" +:+ exit_reason_label (exit_reason s)
  +:+ " stop_requested=" +:+ bool_text (sum_stop_requested s)
  +:+ " packet_limit_reached=" +:+ bool_text (sum_packet_limit_reached s)
  +:+ " dns_responses=" +:+ n (sum_dns_responses_written s)
  +:+ " dns_hijacked_routes=" +:+ n (len (sum_recent_dns_hijacked_routes s))
  +:+ " udp_responses=" +:+ n (sum_udp_relay_responses_written s)
  +:+ " tcp_resets=" +:+ n (sum_tcp_resets_written s)
  +:+ " tcp_session_events=" +:+ n (sum_tcp_session_events s)
  +:+ " tcp_session_writes=" +:+ n (sum_tcp_session_packets_written s)
  +:+ " tcp_max_active_sessions=" +:+ n (sum_tcp_max_active_sessions s)
  +:+ " tcp_session_limit_rejections=" +:+ n (sum_tcp_session_limit_rejections s)
  +:+ " tcp_sessions_pruned=" +:+ n (sum_tcp_sessions_pruned s)
  +:+ " tcp_server_closed_pruned=" +:+ n (sum_tcp_server_closed_sessions_pruned s)
  +:+ " tcp_post_closed_pruned=" +:+ n (sum_tcp_post_closed_sessions_pruned s)
  +:+ " tcp_server_close_rst_cleared=" +:+ n (sum_tcp_server_close_marker_resets s)
  +:+ " tcp_post_close_rst_cleared=" +:+ n (sum_tcp_post_close_marker_resets s)
  +:+ " tcp_sessions_open=" +:+ n (sum_tcp_sessions_open s)
  +:+ " tcp_server_close_markers_open=" +:+ n (sum_tcp_server_close_markers_open s)
  +:+ " tcp_post_close_markers_open=" +:+ n (sum_tcp_post_close_markers_open s)
  +:+ " tcp_sessions_peak=" +:+ n (sum_tcp_sessions_peak s)
  +:+ " tcp_server_close_markers_peak=" +:+ n (sum_tcp_server_close_markers_peak s)
  +:+ " tcp_post_close_markers_peak=" +:+ n (sum_tcp_post_close_markers_peak s)
  +:+ " relay_plans=" +:+ n (sum_relay_packets s)
  +:+ " tcp_relay_plans=" +:+ n (sum_tcp_relay_plans s)
  +:+ " udp_relay_plans=" +:+ n (sum_udp_relay_plans s)
  +:+ " last_relay_route_action=" +:+ or_none (route_action_note_value <$> sum_last_relay_route_action s)
  +:+ " last_relay_matched_rule=" +:+ or_none (sanitize_runtime_note_value <$> sum_last_relay_matched_rule s)
  +:+ " drops=" +:+ n (sum_dropped_packets s)
  +:+ " last_dropped_flow=" +:+ or_none (tun_packet_flow_note_value <$> sum_last_dropped_flow s)
  +:+ " last_dropped_route_action=" +:+ or_none (route_action_note_value <$> sum_last_dropped_route_action s)
  +:+ " last_dropped_matched_rule="
  +:+ or_none (sanitize_runtime_note_value <$> sum_last_dropped_matched_rule s)
  +:+ " unsupported=" +:+ n (sum_unsupported_packets s)
  +:+ " packet_errors=" +:+ n (sum_packet_errors s)
  +:+ " udp_relay_errors=" +:+ n (sum_udp_relay_errors s)
  +:+ " tcp_session_errors=" +:+ n (sum_tcp_session_errors s)
  +:+ " last_packet_error=" +:+ tun_runtime_note_error_value (TunPacketError_fmt <$> sum_last_packet_error s)
  +:+ " last_udp_relay_error="
  +:+ tun_runtime_note_error_value (TunUdpRelayError_fmt <$> sum_last_udp_relay_error s)
  +:+ " last_tcp_session_error="
  +:+ tun_runtime_note_error_value (TunTcpSessionError_fmt <$> sum_last_tcp_session_error s).

Definition tun_packet_route_decision_diagnostic (decision : TunPacketRouteDecision)
  : RuntimeTunPacketDroppedRouteDiagnostic :=
  mkDroppedRouteDiagnostic (tun_packet_flow_note_value (route_flow decision))
    (route_action_note_value (route_action decision))
    (sanitize_runtime_note_value <$> route_matched_rule decision) (route_dns_hijacked decision).

Definition managed_tun_runtime_report_diagnostic (report : ManagedTunPacketLoopReport) : RuntimeDiagnostic :=
  let s := report_summary report in
  TunPacketLoop
    {| loop_interface_name := tun_interface_name (report_config report);
       loop_owns_device := report_owns_device report;
       loop_processed_packets := processed_packets s;
       loop_idle_events := sum_idle_events s;
       loop_exit_reason := exit_reason_label (exit_reason s);
       loop_stop_requested := sum_stop_requested s;
       loop_packet_limit_reached := sum_packet_limit_reached s;
       loop_dns_responses_written := sum_dns_responses_written s;
       loop_udp_relay_responses_written := sum_udp_relay_responses_written s;
       loop_tcp_resets_written := sum_tcp_resets_written s;
       loop_tcp_session_events := sum_tcp_session_events s;
       loop_tcp_session_packets_written := sum_tcp_session_packets_written s;
       loop_tcp_max_active_sessions := sum_tcp_max_active_sessions s;
       loop_tcp_session_limit_rejections := sum_tcp_session_limit_rejections s;
       loop_tcp_sessions_pruned := sum_tcp_sessions_pruned s;
       loop_tcp_server_closed_sessions_pruned := sum_tcp_server_closed_sessions_pruned s;
       loop_tcp_post_closed_sessions_pruned := sum_tcp_post_closed_sessions_pruned s;
       loop_tcp_server_close_marker_resets := sum_tcp_server_close_marker_resets s;
       loop_tcp_post_close_marker_resets := sum_tcp_post_close_marker_resets s;
       loop_tcp_sessions_open := sum_tcp_sessions_open s;
       loop_tcp_server_close_markers_open := sum_tcp_server_close_markers_open s;
       loop_tcp_post_close_markers_open := sum_tcp_post_close_markers_open s;
       loop_tcp_sessions_peak := sum_tcp_sessions_peak s;
       loop_tcp_server_close_markers_peak := sum_tcp_server_close_markers_peak s;
       loop_tcp_post_close_markers_peak := sum_tcp_post_close_markers_peak s;
       loop_relay_packets := sum_relay_packets s;
       loop_tcp_relay_plans := sum_tcp_relay_plans s;
       loop_udp_relay_plans := sum_udp_relay_plans s;
       loop_last_relay_route_action := route_action_note_value <$> sum_last_relay_route_action s;
       loop_last_relay_matched_rule := sanitize_runtime_note_value <$> sum_last_relay_matched_rule s;
       loop_dropped_packets := sum_dropped_packets s;
       loop_recent_dropped_routes := map tun_packet_route_decision_diagnostic (sum_recent_dropped_routes s);
       loop_recent_dns_hijacked_routes :=
         map tun_packet_route_decision_diagnostic (sum_recent_dns_hijacked_routes s);
       loop_last_dropped_flow := tun_packet_flow_note_value <$> sum_last_dropped_flow s;
       loop_last_dropped_route_action := route_action_note_value <$> sum_last_dropped_route_action s;
       loop_last_dropped_matched_rule := sanitize_runtime_note_value <$> sum_last_dropped_matched_rule s;
       loop_unsupported_packets := sum_unsupported_packets s;
       loop_packet_errors := sum_packet_errors s;
       loop_udp_relay_errors := sum_udp_relay_errors s;
       loop_tcp_session_errors := sum_tcp_session_errors s;
       loop_last_packet_error :=
         sanitize_runtime_note_value ∘ TunPacketError_fmt <$> sum_last_packet_error s;
       loop_last_udp_relay_error :=
         sanitize_runtime_note_value ∘ TunUdpRelayError_fmt <$> sum_last_udp_relay_error s;
       loop_last_tcp_session_error :=
         sanitize_runtime_note_value ∘ TunTcpSessionError_fmt <$> sum_last_tcp_session_error s |}.

End Text.

(** ** The end of the listener *)

Definition managed_mixed_stop_drain_note (d : RuntimeManagedMixedStopDrainDiagnostic) : string :=
  "managed mixed stop drain active_connections_shutdown=" +:+ to_decimal (drain_active_connections_shutdown d)
  +:+ " workers_before_shutdown=" +:+ to_decimal (drain_workers_before_shutdown d)
  +:+ " workers_drained=" +:+ to_decimal (drain_workers_drained d)
  +:+ " workers_remaining=" +:+ to_decimal (drain_workers_remaining d)
  +:+ " drain_elapsed_ms=" +:+ to_decimal (drain_drain_elapsed_ms d)
  +:+ " drain_timeout_ms=" +:+ to_decimal (drain_drain_timeout_ms d)
  +:+ " timed_out=" +:+ bool_text (drain_timed_out d).

Definition managed_mixed_stop_drain_diagnostic (d : RuntimeManagedMixedStopDrainDiagnostic) : RuntimeDiagnostic :=
  ManagedMixedStopDrain d.

(** ** A value of a note is plain *)

(** No character of it can end the value, the note or its line. *)
Lemma sanitize_bytes_plain left l :
  (length (sanitize_bytes left l) <= left)%nat /\ Forall (fun b => is_note_byte b = true) (sanitize_bytes left l).
Proof.
  revert left. induction l as [|b l IH]; intros left; cbn [sanitize_bytes]; [split; [cbn; lia|constructor]|].
  destruct (in_range 128 191 b); [apply IH|]. destruct left as [|left]; [split; [cbn; lia|constructor]|].
  destruct (IH left) as [Hl Hf]. split; [cbn [length]; lia|].
  constructor; [destruct (is_note_byte b) eqn:E; [done|reflexivity]|done].
Qed.

Lemma sanitize_bytes_idem left l : sanitize_bytes left (sanitize_bytes left l) = sanitize_bytes left l.
Proof.
  revert left. induction l as [|b l IH]; intros left; cbn [sanitize_bytes]; [done|].
  destruct (in_range 128 191 b) eqn:Hb; [apply IH|]. destruct left as [|left]; [done|].
  assert (forall c, is_note_byte c = true -> in_range 128 191 c = false) as Hn.
  { intros c. unfold is_note_byte, is_ascii_alphanumeric, in_range. cbn [existsb]. lia. }
  destruct (is_note_byte b) eqn:E; cbn [sanitize_bytes].
  - by rewrite Hb, E, IH.
  - by rewrite IH.
Qed.
