(* ===== verification/ManagedHealth.v ===== *)
(** * The health of the nodes of a subscription

    [crates/keli-cli/src/lib.rs]: the health that was recorded for each node, the node it
    recommends, and the summary and status of the subscription that runs. Instants are
    nanoseconds; the clock is an argument of what reads it. *)

From stdpp Require Import base strings list numbers gmap.
From S2P Require Import Prelude.
From S2P Require Import StdNet.
From S2P Require Import StdIo.
From S2P Require Import Relay.
From S2P Require Import ClientCore.
#[local] Open Scope Z_scope.

Inductive ManagedNodeHealthState : Type := NodeUnknown | NodeHealthy | NodeUnhealthy.

#[export] Instance ManagedNodeHealthState_eq_dec : EqDecision ManagedNodeHealthState.
Proof. solve_decision. Defined.

Definition health_state_label (self : ManagedNodeHealthState) : string :=
  match self with
  | NodeUnknown => "unknown"
  | NodeHealthy => "healthy"
  | NodeUnhealthy => "unhealthy"
  end.

Record ManagedNodeHealthStatus : Type := mkNodeHealth {
  health_tag : string;
  health_state : ManagedNodeHealthState;
  health_tcp_available : option bool;
  health_udp_available : option bool;
  health_latency_ms : option Z;
  health_error_kind : option ConnectionErrorKind;
  health_error_detail : option string;
  health_checked_at : option Z
}.

Definition node_unknown (tag : string) : ManagedNodeHealthStatus :=
  mkNodeHealth tag NodeUnknown None None None None None None.

Definition node_healthy (tag : string) (latency_ms : option Z) (tcp_available udp_available : bool) (now : Z)
  : ManagedNodeHealthStatus :=
  mkNodeHealth tag NodeHealthy (Some tcp_available) (Some udp_available) latency_ms None None (Some now).

Definition node_unhealthy (tag : string) (error_kind : ConnectionErrorKind) (error_detail : option string)
  (now : Z) : ManagedNodeHealthStatus :=
  mkNodeHealth tag NodeUnhealthy (Some false) (Some false) None (Some error_kind) error_detail (Some now).

(** ** The recommendation *)

Definition managed_node_udp_recommendation_rank (udp_available : option bool) : Z :=
  match udp_available with Some true => 0 | None => 1 | Some false => 2 end.

Definition u128_max : Z := 2 ^ 128 - 1.

(** The key of [min_by_key], and its order: that of the tuple, [false] before [true]. *)
Definition recommendation_key (health : ManagedNodeHealthStatus) : Z * bool * Z :=
  (managed_node_udp_recommendation_rank (health_udp_available health),
   is_none (health_latency_ms health), default u128_max (health_latency_ms health)).

Definition key_ltb (a b : Z * bool * Z) : bool :=
  let '(r1, n1, l1) := a in
  let '(r2, n2, l2) := b in
  (r1 <? r2) || ((r1 =? r2) && ((negb n1 && n2) || (Bool.eqb n1 n2 && (l1 <? l2)))).

(** [Iterator::min_by_key]: the first of the least. *)
Fixpoint min_by_key {A} (key : A -> Z * bool * Z) (l : list A) : option A :=
  match l with
  | [] => None
  | a :: l' =>
      match min_by_key key l' with
      | Some b => Some (if key_ltb (key b) (key a) then b else a)
      | None => Some a
      end
  end.

(** The nodes that can be recommended. *)
Definition recommendable (health : ManagedNodeHealthStatus) : bool :=
  bool_decide (health_state health = NodeHealthy) && negb (bool_decide (health_tcp_available health = Some false)).

Definition recommend_managed_outbound_from_health (node_health : list ManagedNodeHealthStatus)
  (selected_outbound : string) : string :=
  default selected_outbound
    (health_tag <$> min_by_key recommendation_key (List.filter recommendable node_health)).

(** ** The summary *)

Inductive ManagedRecommendedSwitchReason : Type :=
| Switch_Ready
| AlreadySelected
| NoReadyAlternative
| RecommendedNotHealthy.

Definition switch_reason_label (self : ManagedRecommendedSwitchReason) : string :=
  match self with
  | Switch_Ready => "ready"
  | AlreadySelected => "already-selected"
  | NoReadyAlternative => "no-ready-alternative"
  | RecommendedNotHealthy => "recommended-not-healthy"
  end.

Record ManagedSubscriptionHealthSummary : Type := mkHealthSummary {
  node_count : Z;
  healthy_count : Z;
  unhealthy_count : Z;
  unknown_count : Z;
  checked_count : Z;
  unchecked_count : Z;
  udp_available_count : Z;
  udp_unavailable_count : Z;
  udp_unknown_count : Z;
  last_checked_at : option Z;
  selected_state : option ManagedNodeHealthState;
  recommended_state : option ManagedNodeHealthState;
  selected_udp_available : option bool;
  recommended_udp_available : option bool;
  recommended_is_selected : bool;
  switch_recommended : bool;
  selected_outbound_healthy : bool;
  recommended_outbound_healthy : bool;
  recommended_switch_ready : bool;
  recommended_switch_reason : ManagedRecommendedSwitchReason;
  fully_checked : bool
}.

(** The counters of the loop of [from_node_health]. *)
Record HealthCounters : Type := mkHealthCounters {
  c_healthy : Z;
  c_unhealthy : Z;
  c_unknown : Z;
  c_checked : Z;
  c_udp_available : Z;
  c_udp_unavailable : Z;
  c_udp_unknown : Z;
  c_last_checked_at : option Z
}.

#[export] Instance HealthCounters_settable : Settable HealthCounters := fun c =>
  mkHealthCounters (c_healthy c) (c_unhealthy c) (c_unknown c) (c_checked c) (c_udp_available c)
    (c_udp_unavailable c) (c_udp_unknown c) (c_last_checked_at c).

Definition count_health (c : HealthCounters) (health : ManagedNodeHealthStatus) : HealthCounters :=
  let c :=
    match health_state health with
    | NodeHealthy => c <| c_healthy := c_healthy c + 1 |>
    | NodeUnhealthy => c <| c_unhealthy := c_unhealthy c + 1 |>
    | NodeUnknown => c <| c_unknown := c_unknown c + 1 |>
    end in
  let c :=
    match health_checked_at health with
    | Some checked_at =>
        let c := c <| c_checked := c_checked c + 1 |> in
        c <| c_last_checked_at :=
          Some match c_last_checked_at c with Some latest => Z.max latest checked_at | None => checked_at end |>
    | None => c
    end in
  match health_udp_available health with
  | Some true => c <| c_udp_available := c_udp_available c + 1 |>
  | Some false => c <| c_udp_unavailable := c_udp_unavailable c + 1 |>
  | None => c <| c_udp_unknown := c_udp_unknown c + 1 |>
  end.

Definition count_all (node_health : list ManagedNodeHealthStatus) : HealthCounters :=
  foldl count_health (mkHealthCounters 0 0 0 0 0 0 0 None) node_health.

Definition health_of (node_health : list ManagedNodeHealthStatus) (tag : string)
  : option ManagedNodeHealthStatus :=
  List.find (fun health => String.eqb (health_tag health) tag) node_health.

Definition is_healthy (state : option ManagedNodeHealthState) : bool :=
  match state with Some NodeHealthy => true | _ => false end.

Definition from_node_health (node_health : list ManagedNodeHealthStatus)
  (selected_outbound recommended_outbound : string) : ManagedSubscriptionHealthSummary :=
  let c := count_all node_health in
  let selected := health_of node_health selected_outbound in
  let recommended := health_of node_health recommended_outbound in
  let is_selected := String.eqb selected_outbound recommended_outbound in
  let selected_healthy := is_healthy (health_state <$> selected) in
  let recommended_healthy := is_healthy (health_state <$> recommended) in
  let switch_ready := negb is_selected && recommended_healthy in
  let reason :=
    if switch_ready then Switch_Ready
    else if is_selected && selected_healthy then AlreadySelected
    else if is_selected then NoReadyAlternative
    else RecommendedNotHealthy in
  let unchecked := Z.max 0 (len node_health - c_checked c) in
  mkHealthSummary (len node_health) (c_healthy c) (c_unhealthy c) (c_unknown c) (c_checked c) unchecked
    (c_udp_available c) (c_udp_unavailable c) (c_udp_unknown c) (c_last_checked_at c)
    (health_state <$> selected) (health_state <$> recommended)
    (selected ≫= health_udp_available) (recommended ≫= health_udp_available)
    is_selected (negb is_selected) selected_healthy recommended_healthy switch_ready reason
    (unchecked =? 0).

(** ** The status of the subscription *)

Record ManagedSubscriptionStatus : Type := mkSubscriptionStatus {
  sub_usable : bool;
  sub_supported_tags : list string;
  sub_supported : list SubscriptionNodeCapability;
  sub_skipped : list SkippedProfileSummary;
  sub_default_outbound : option string;
  sub_selected_outbound : string;
  sub_recommended_outbound : string;
  sub_health_summary : ManagedSubscriptionHealthSummary;
  sub_node_health : list ManagedNodeHealthStatus
}.

(** [ManagedSubscriptionStatus::from_plan]. *)
Definition subscription_status_from_plan (plan : ConnectionPlan)
  (node_health : gmap string ManagedNodeHealthStatus) : ManagedSubscriptionStatus :=
  let preflight := plan_preflight plan in
  let tags := supported_tags preflight in
  let health := map (fun tag => default (node_unknown tag) (node_health !! tag)) tags in
  let selected := selected_outbound plan in
  let recommended := recommend_managed_outbound_from_health health selected in
  mkSubscriptionStatus (is_usable preflight) tags (supported preflight) (preflight_skipped preflight)
    (default_outbound preflight) selected recommended
    (from_node_health health selected recommended) health.

(** ** What a failed probe means *)

Definition classify_managed_probe_error (error : string) : ConnectionErrorKind :=
  let error := to_ascii_lowercase error in
  if contains error "refused" then Relay.TcpConnectionRefused
  else if contains error "timeout" || contains error "timed out" then
    if contains error "connect" then Relay.TcpConnectTimeout else Relay.FirstByteTimeout
  else if contains error "unsupported" || contains error "outboundnotfound" then Relay.UnsupportedOutbound
  else if contains error "dns" || contains error "resolve" then Relay.DnsResolveFailed
  else if contains error "mismatch" || contains error "invalid" then Relay.ProtocolError
  else Relay.RelayIo.
