(* ===== verification/ManagedLoop.v ===== *)
(** * The packet loops of the managed TUN runtime

    [crates/keli-cli/src/lib.rs]: the two loops that a thread of the program runs until it is
    told to stop, [run_managed_tun_packet_loop_io_until_stop] with one runtime for its whole
    life, and [run_managed_tun_packet_loop_shared_runtime_until_stop], which takes the runtime
    of each round from the lock that a reload writes to.

    What a round reads of the outside, the stop flag, the runtime in the lock and the clock,
    is a [ManagedEnv]. The texts of [Debug] are arguments as in [TunRelay]. *)

From stdpp Require Import base gmap strings list numbers.
From S2P Require Import Prelude.
From S2P Require Import StdNet.
From S2P Require Import StdIo.
From S2P Require Import Route.
From S2P Require Import Dns.
From S2P Require Import TunPacket.
From S2P Require Import TunPlan.
From S2P Require Import TunSession.
From S2P Require Import TunProcess.
From S2P Require Import TunSummary.
From S2P Require Import TunLoop.
From S2P Require Import Relay.
From S2P Require Import Framed.
From S2P Require Import Network.
From S2P Require Import Outbound.
From S2P Require Import Registry.
From S2P Require Import TunRelay.
From S2P Require Import Mixed.
From S2P Require Import Platform.
#[local] Open Scope Z_scope.

(** [MANAGED_TUN_IDLE_POLL_INTERVAL], in nanoseconds. *)
Definition MANAGED_TUN_IDLE_POLL_INTERVAL : Z := 10000000.
Definition DEFAULT_TUN_DNS_TTL_SECONDS : Z := 30.
Definition DEFAULT_TUN_TCP_SERVER_INITIAL_SEQUENCE_NUMBER : Z := 1.
Definition DEFAULT_TUN_TCP_WINDOW_SIZE : Z := 0x4000.

Definition TunPacketLoopError_fmt (error : TunPacketLoopError) : string :=
  match error with
  | Loop_Read error => "TUN packet read failed: " +:+ error
  | Loop_Write error => "TUN packet write failed: " +:+ error
  end.

(** [TunPacketIo], and [PlatformTunPacketDevice] over it. *)
Class TunPacketIo (I : Type) := {
  io_read_packet : SM I TunDeviceError (option (list Z));
  io_write_packet : list Z -> SM I TunDeviceError unit
}.

#[export] Instance PlatformTunPacketDevice {I} {Io : TunPacketIo I} : TunPacketDevice I := {
  read_packet := sm_zoom id (fun i _ => i) TunDeviceError_fmt io_read_packet;
  write_packet packet := sm_zoom id (fun i _ => i) TunDeviceError_fmt (io_write_packet packet)
}.

Record ManagedEnv : Type := mkManagedEnv {
  env_stop : bool;
  env_runtime : MixedProxyRuntime;
  env_round : RoundEnv
}.

Definition runtime_timeout (runtime : MixedProxyRuntime) : Z :=
  default DEFAULT_FIRST_BYTE_TIMEOUT (first_byte_timeout (runtime_relay_options runtime)).

Definition runtime_idle_timeout (runtime : MixedProxyRuntime) : Z :=
  default DEFAULT_IDLE_TIMEOUT (idle_timeout (runtime_relay_options runtime)).

(** The arguments of the calls of a round. *)
Definition managed_loop_config (config : TunDeviceConfig) (dns_ttl_seconds : Z) (runtime : MixedProxyRuntime)
  : LoopConfig :=
  mkLoopConfig (runtime_routes runtime) (tun_dns_hijack config) dns_ttl_seconds
    DEFAULT_TUN_TCP_SERVER_INITIAL_SEQUENCE_NUMBER DEFAULT_TUN_TCP_WINDOW_SIZE
    (runtime_idle_timeout runtime).

Section Loops.
Context {W : Type} {Net : Network W} {Sleep : ThreadSleep W}.
Context {SsCrypto : ShadowsocksCrypto} {Crypto : VmessCrypto}.
Context (turns : nat) (key_debug : TunTcpSessionKey -> string)
  (action_debug : TunPacketRelayAction -> string).
Context {I : Type} {Io : TunPacketIo I}.

#[local] Instance tcp_relay : TunTcpSessionRelay (RegistryTunTcpSessionRelay W SystemDnsResolver) :=
  registry_tcp_relay turns key_debug action_debug.

Definition LoopWorld : Type :=
  World I SystemDnsResolver (RegistryTunUdpRelay W SystemDnsResolver)
    (RegistryTunTcpSessionRelay W SystemDnsResolver).

(** The engines, the relays and the session table that a loop sets out with. *)
Definition managed_world (runtime : MixedProxyRuntime) (device : I) (sessions : TunTcpSessionTable) (w : W)
  : LoopWorld :=
  let engine := dns_options_engine (runtime_dns_options runtime) w in
  mkWorld device engine
    (mkRegistryTunUdpRelay W SystemDnsResolver (runtime_outbounds runtime) engine (runtime_timeout runtime) w)
    (RegistryTunTcpSessionRelay_new (runtime_outbounds runtime) engine (runtime_timeout runtime) w)
    sessions.

Definition is_udp_event (event : TunPacketLoopEvent) : bool :=
  match event with Event_WroteUdpRelayPacket _ | Event_UdpRelayError _ => true | _ => false end.

(** The system after a round: as the relay left it that the round used. *)
Definition system_after (event : TunPacketLoopEvent) (w : LoopWorld) : W :=
  let system := if is_udp_event event then udp_world (w_udp w) else tcp_world (w_tcp w) in
  if is_no_packet event then thread_sleep MANAGED_TUN_IDLE_POLL_INTERVAL system else system.

(** The body of both loops after the stop flag. *)
Definition managed_round (cfg : LoopConfig) (env : RoundEnv) (summary : TunPacketLoopSummary)
  : LM (TunPacketLoopSummary * TunPacketLoopEvent) :=
  prune_report <-! prune_sessions cfg env;
  let summary := record_tcp_session_prune_report summary prune_report in
  event <-! process_tun_device_packet_with_relays cfg env;
  let summary := record_event summary event in
  w <-! sm_get;
  sm_ret (record_tcp_session_table_state summary (w_sessions w), event).

Definition loop_failure {A} (error : TunPacketLoopError) : result string A :=
  Err ("run TUN packet loop: " +:+ TunPacketLoopError_fmt error).

(** *** One runtime *)

(** The system is one: what a round did to it, both relays see. *)
Definition with_system (system : W) (w : LoopWorld) : LoopWorld :=
  mkWorld (w_device w) (w_dns w) ((w_udp w) <| udp_world := system |>) ((w_tcp w) <| tcp_world := system |>)
    (w_sessions w).

Fixpoint io_rounds (cfg : LoopConfig) (envs : nat -> ManagedEnv) (i max_packets : nat)
  (summary : TunPacketLoopSummary) (w : LoopWorld) : LoopWorld * result string TunPacketLoopSummary :=
  match max_packets with
  | O => (w, Ok (record_packet_limit_reached summary))
  | S max_packets' =>
      if env_stop (envs i) then (w, Ok (record_stop_requested summary))
      else
        match managed_round cfg (env_round (envs i)) summary w with
        | (w, Ok (summary, event)) =>
            io_rounds cfg envs (S i) max_packets' summary (with_system (system_after event w) w)
        | (w, Err error) => (w, loop_failure error)
        | (w, Panic) => (w, Panic)
        end
  end.

Definition run_managed_tun_packet_loop_io_until_stop (device : I) (config : TunDeviceConfig)
  (runtime : MixedProxyRuntime) (dns_ttl_seconds : Z) (max_packets : nat) (envs : nat -> ManagedEnv) (w : W)
  : LoopWorld * result string TunPacketLoopSummary :=
  let sessions := with_max_active_sessions (runtime_tun_tcp_max_active_sessions runtime) in
  let '(w, r) :=
    io_rounds (managed_loop_config config dns_ttl_seconds runtime) envs 0 max_packets
      TunPacketLoopSummary_default (managed_world runtime device sessions w) in
  (w, summary <-? r; Ok (record_tcp_session_table_state summary (w_sessions w))).

(** *** The runtime of the lock *)

(** What outlives a round: the device, the session table and the system; the relays, with
    the connections they hold, are of the round. *)
Record SharedState : Type := mkShared {
  shared_device : I;
  shared_sessions : TunTcpSessionTable;
  shared_system : W
}.

Definition shared_world (env : ManagedEnv) (s : SharedState) : LoopWorld :=
  managed_world (env_runtime env) (shared_device s) (shared_sessions s) (shared_system s).

Definition shared_round (config : TunDeviceConfig) (dns_ttl_seconds : Z) (env : ManagedEnv)
  (summary : TunPacketLoopSummary) (s : SharedState)
  : SharedState * result string (TunPacketLoopSummary * TunPacketLoopEvent) :=
  match managed_round (managed_loop_config config dns_ttl_seconds (env_runtime env)) (env_round env) summary
          (shared_world env s) with
  | (w, Ok (summary, event)) =>
      (mkShared (w_device w) (w_sessions w) (system_after event w), Ok (summary, event))
  | (w, Err error) => (mkShared (w_device w) (w_sessions w) (tcp_world (w_tcp w)), loop_failure error)
  | (w, Panic) => (mkShared (w_device w) (w_sessions w) (tcp_world (w_tcp w)), Panic)
  end.

Fixpoint shared_rounds (config : TunDeviceConfig) (dns_ttl_seconds : Z) (envs : nat -> ManagedEnv)
  (i max_packets : nat) (summary : TunPacketLoopSummary) (s : SharedState)
  : SharedState * result string TunPacketLoopSummary :=
  match max_packets with
  | O => (s, Ok (record_packet_limit_reached summary))
  | S max_packets' =>
      if env_stop (envs i) then (s, Ok (record_stop_requested summary))
      else
        match shared_round config dns_ttl_seconds (envs i) summary s with
        | (s, Ok (summary, _)) => shared_rounds config dns_ttl_seconds envs (S i) max_packets' summary s
        | (s, Err error) => (s, Err error)
        | (s, Panic) => (s, Panic)
        end
  end.

Definition run_managed_tun_packet_loop_shared_runtime_until_stop (device : I) (config : TunDeviceConfig)
  (initial_runtime : MixedProxyRuntime) (dns_ttl_seconds : Z) (max_packets : nat) (envs : nat -> ManagedEnv)
  (w : W) : SharedState * result string TunPacketLoopSummary :=
  let sessions := with_max_active_sessions (runtime_tun_tcp_max_active_sessions initial_runtime) in
  let '(s, r) :=
    shared_rounds config dns_ttl_seconds envs 0 max_packets TunPacketLoopSummary_default
      (mkShared device sessions w) in
  (s, summary <-? r; Ok (record_tcp_session_table_state summary (shared_sessions s))).

End Loops.
