(* ===== verification/ManagedLoopSpec.v ===== *)
(** * What the managed TUN loops do with TCP

    The loop that takes its runtime from the lock makes its relays anew in every round, and
    with them loses the connections: only the segment that completes a handshake can carry
    bytes. The loop with one runtime keeps them. *)

From stdpp Require Import base gmap strings list numbers.
From S2P Require Import Prelude.
From S2P Require Import StdNet.
From S2P Require Import StdIo.
From S2P Require Import Route.
From S2P Require Import Dns.
From S2P Require Import TunPacket.
From S2P Require Import TunPlan.
From S2P Require Import TunSession.
From S2P Require Import TunProcess.
From S2P Require Import TunSummary.
From S2P Require Import TunLoop.
From S2P Require Import Relay.
From S2P Require Import Framed.
From S2P Require Import Network.
From S2P Require Import Outbound.
From S2P Require Import Registry.
From S2P Require Import TunRelay.
From S2P Require Import Mixed.
From S2P Require Import Platform.
From S2P Require Import TunPacketBuild.
From S2P Require Import ScriptedNetwork.
From S2P Require Import TunRelaySpec.
From S2P Require Import ManagedLoop.
#[local] Open Scope Z_scope.

(** A step in which bytes, or the end of them, went to the server or came from it. *)
Definition moves_data (step : TunTcpSessionStep) : bool :=
  match step with
  | Step_ClientPayload _ _ _ | Step_ClientPayloadClosed _ _ _ _ | Step_OverlappingClientPayload _ _ _
  | Step_ClientFinAck _ _ _ | Step_ServerPayload _ | Step_ClientFinDuplicateAck _ (Some _) _ => true
  | _ => false
  end.

Section Fresh.
Context {W : Type} {Net : Network W} {Sleep : ThreadSleep W}.
Context {SsCrypto : ShadowsocksCrypto} {Crypto : VmessCrypto}.
Context (turns : nat) (key_debug : TunTcpSessionKey -> string)
  (action_debug : TunPacketRelayAction -> string).

#[local] Instance relay_of : TunTcpSessionRelay (RegistryTunTcpSessionRelay W SystemDnsResolver) :=
  tcp_relay turns key_debug action_debug.

#[local] Notation TcpRelay := (RegistryTunTcpSessionRelay W SystemDnsResolver).

(** On a relay without connections [m] leaves it so and gives what [Q] says. *)
Definition quiet {A} (m : PM (R := TcpRelay) A) (Q : A -> Prop) : Prop :=
  forall r t r' t' a, tcp_sessions r = ∅ -> m (r, t) = ((r', t'), Ok a) -> tcp_sessions r' = ∅ /\ Q a.

Lemma quiet_ret {A} (a : A) (Q : A -> Prop) : Q a -> quiet (sm_ret a) Q.
Proof. by intros Ha r t r' t' b Hr [= <- <- <-]. Qed.

Lemma quiet_bind {A B} (m : PM A) (k : A -> PM B) (Q : A -> Prop) (P : B -> Prop) :
  quiet m Q -> (forall a, Q a -> quiet (k a) P) -> quiet (sm_bind m k) P.
Proof.
  intros Hm Hk r t r' t' b Hr Hb. apply sm_bind_Ok in Hb as ([r1 t1] & a & Ha & Hb).
  destruct (Hm _ _ _ _ _ Hr Ha) as [Hr1 HQ]. by apply (Hk a HQ r1 t1 r' t' b).
Qed.

Lemma quiet_table {A} (m : TableM A) : quiet (on_table m) (fun _ => True).
Proof.
  intros r t r' t' a Hr. unfold on_table, sm_zoom. cbn. destruct (m t) as [t1 [b| |]]; cbn; [|done..].
  by intros [= <- <- <-].
Qed.

Lemma quiet_relay {A} (m : RelayM TcpRelay A) (Q : A -> Prop) :
  (forall r r' a, tcp_sessions r = ∅ -> m r = (r', Ok a) -> tcp_sessions r' = ∅ /\ Q a) -> quiet (on_relay m) Q.
Proof.
  intros Hm r t r' t' a Hr. unfold on_relay, sm_zoom. cbn. destruct (m r) as [r1 [b| |]] eqn:E; cbn; [|done..].
  intros [= <- <- <-]. by apply (Hm r).
Qed.

Lemma on_session_empty {A} key (m : SM (OutboundConnection W) IoError A) (r r' : TcpRelay) a :
  tcp_sessions r = ∅ -> on_session key_debug key m r = (r', Ok a) -> False.
Proof. intros Hr. unfold on_session, sm_bind, sm_get. rewrite Hr, lookup_empty. done. Qed.

Lemma quiet_write frame : quiet (on_relay (write_client_payload frame)) (fun _ => False).
Proof.
  apply quiet_relay. intros r r' a Hr Hw. destruct (on_session_empty _ _ _ _ _ Hr Hw).
Qed.

Lemma quiet_shutdown session : quiet (on_relay (shutdown_client_write session)) (fun _ => False).
Proof.
  apply quiet_relay. intros r r' a Hr Hw. destruct (on_session_empty _ _ _ _ _ Hr Hw).
Qed.

Lemma quiet_close session : quiet (on_relay (close_session session)) (fun _ => True).
Proof.
  apply quiet_relay. intros r r' a Hr. cbn. unfold registry_close_session, close_key, sm_bind, sm_get.
  rewrite Hr, lookup_empty. by intros [= <-].
Qed.

Lemma read_until_empty session deadline (r r' : TcpRelay) a :
  tcp_sessions r = ∅ -> read_server_event_until turns session deadline r = (r', Ok a) ->
  tcp_sessions r' = ∅ /\ a = ServerRead_Closed.
Proof.
  intros Hr. unfold read_server_event_until, sm_bind, sm_get. destruct turns as [|n]; [done|].
  cbn [read_server_event_loop]. unfold sm_bind, sm_get. rewrite Hr, lookup_empty. by intros [= <- <-].
Qed.

Lemma quiet_read session : quiet (on_relay (read_server_event session)) (fun e => e = ServerRead_Closed).
Proof. apply quiet_relay. intros r r' a. apply read_until_empty. Qed.

Lemma quiet_poll session : quiet (on_relay (poll_server_event session)) (fun e => e = ServerRead_Closed).
Proof. apply quiet_relay. intros r r' a. apply read_until_empty. Qed.

Lemma quiet_try {A} (m : PM (option A)) some none P :
  quiet m (fun _ => True) -> (forall a, quiet (some a) P) -> quiet none P -> quiet (try_step m some none) P.
Proof. intros Hm Hs Hn. apply (quiet_bind _ _ _ _ Hm). intros [a|] _; auto. Qed.

Lemma quiet_server_close session now : quiet (close_tun_tcp_session_from_server session now) (fun _ => True).
Proof.
  apply (quiet_bind _ _ _ _ (quiet_table _)). intros [frame|] _; [|by apply quiet_ret].
  apply (quiet_bind _ _ _ _ (quiet_close _)). intros _ _. by apply quiet_ret.
Qed.

Lemma quiet_server_event session clk : quiet (read_tun_tcp_server_event session clk) (fun e => e.1 = None).
Proof.
  apply (quiet_bind _ _ _ _ (quiet_read _)). intros e ->.
  apply (quiet_bind _ _ _ _ (quiet_server_close _ _)). intros close _. by apply quiet_ret.
Qed.

Definition dry (m : PM (R := TcpRelay) TunTcpSessionStep) : Prop := quiet m (fun step => moves_data step = false).

Ltac dry_tables :=
  repeat match goal with
  | |- dry (try_step _ _ _) => apply quiet_try; [apply quiet_table|intros ?|]
  | |- quiet (try_step _ _ _) _ => apply quiet_try; [apply quiet_table|intros ?|]
  | |- quiet (sm_ret _) _ => by apply quiet_ret
  | |- dry (sm_ret _) => by apply quiet_ret
  end.

Lemma dry_duplicate_fin response clk : dry (answer_duplicate_client_fin response clk).
Proof.
  apply (quiet_bind _ _ _ _ (quiet_server_event _ _)). intros [sr sc] Hsr. cbn in Hsr. rewrite Hsr.
  case_match; by apply quiet_ret.
Qed.

Lemma dry_fin_with_payload segment clk next : dry next -> dry (process_fin_with_payload segment clk next).
Proof.
  intros Hn. unfold process_fin_with_payload. dry_tables; [apply dry_duplicate_fin| |done].
  destruct a as [frame response]. by apply (quiet_bind _ _ _ _ (quiet_write _)).
Qed.

Lemma dry_fin_without_payload segment clk next : dry next -> dry (process_fin_without_payload segment clk next).
Proof.
  intros Hn. unfold process_fin_without_payload. dry_tables; [apply dry_duplicate_fin| |done].
  by apply (quiet_bind _ _ _ _ (quiet_shutdown _)).
Qed.

Lemma dry_reset segment : dry (reset_segment segment).
Proof. apply (quiet_bind _ _ _ _ (quiet_table _)). intros response _. by apply quiet_ret. Qed.

Lemma dry_if (b : bool) m n : dry m -> dry n -> dry (if b then m else n).
Proof. by destruct b. Qed.

Lemma dry_rst segment : dry (process_rst_on_markers segment).
Proof. unfold process_rst_on_markers. dry_tables. Qed.

Lemma dry_unknown segment next :
  dry next -> dry (session <-! lookup_flow segment; if is_none session then reset_segment segment else next).
Proof.
  intros Hn. apply (quiet_bind _ _ _ _ (quiet_table _)). intros session _.
  apply dry_if; [apply dry_reset|done].
Qed.

Lemma dry_fin_on_markers segment clk next : dry next -> dry (process_fin_on_markers segment clk next).
Proof. intros Hn. unfold process_fin_on_markers. by dry_tables. Qed.

Lemma dry_on_close segment now next :
  dry next ->
  dry (try_step (table_method remove_on_close segment now)
         (fun '(session, response) =>
            do! on_relay (close_session session); sm_ret (Step_Closed session response)) next).
Proof.
  intros Hn. dry_tables; [|done]. destruct a as [session response].
  apply (quiet_bind _ _ _ _ (quiet_close _)). intros _ _. by apply quiet_ret.
Qed.

Lemma dry_close_segment segment clk : dry (process_close_segment segment clk).
Proof.
  unfold process_close_segment. cbv zeta.
  repeat first
    [ apply dry_if | apply dry_fin_with_payload | apply dry_fin_without_payload | apply dry_on_close
    | apply dry_fin_on_markers | apply dry_unknown | apply dry_rst | by apply quiet_ret ].
Qed.

Lemma dry_syn segment isn window clk : dry (process_syn_segment segment isn window clk).
Proof.
  unfold process_syn_segment. dry_tables. apply (quiet_bind _ _ _ _ (quiet_table _)). intros session _.
  apply dry_if; [by apply quiet_ret|]. apply (quiet_bind _ _ _ _ (quiet_table _)). intros response _. by apply quiet_ret.
Qed.

Lemma dry_client_payload segment clk next : dry next -> dry (process_client_payload segment clk next).
Proof.
  intros Hn. unfold process_client_payload. dry_tables; [..|done];
    by apply (quiet_bind _ _ _ _ (quiet_write _)).
Qed.

Lemma dry_client_ack segment clk next : dry next -> dry (process_client_ack segment clk next).
Proof.
  intros Hn. unfold process_client_ack. set (acknowledge := try_step (table_method acknowledge_client_ack _ _) _ _).
  assert (Ha : dry acknowledge) by (unfold acknowledge; dry_tables; done).
  dry_tables; [|done]. unfold poll_server. apply (quiet_bind _ _ _ _ (quiet_poll _)). intros e ->.
  apply quiet_try; [apply quiet_server_close|intros response; by apply quiet_ret|done].
Qed.

(** A segment that does not complete a handshake moves nothing on a relay without
    connections. *)
Lemma fresh_relay_is_dry segment plan isn window clk (r : TcpRelay) t s' step :
  tcp_sessions r = ∅ ->
  process_tun_tcp_session_segment_with_relay_plan segment plan isn window clk (r, t) = (s', Ok step) ->
  moves_data step = true ->
  exists t1 session, apply_ack segment (clk 9%nat) t = (t1, Ok (Some session)).
Proof.
  intros Hr Hs Hm. unfold process_tun_tcp_session_segment_with_relay_plan in Hs. destruct s' as [r' t'].
  destruct (flag_rst (seg_flags segment) || flag_fin (seg_flags segment)).
  { destruct (dry_close_segment segment clk r t r' t' step Hr Hs) as [_ H]. by rewrite Hm in H. }
  destruct (is_initial_tcp_syn_segment segment).
  { destruct (dry_syn segment isn window clk r t r' t' step Hr Hs) as [_ H]. by rewrite Hm in H. }
  apply sm_bind_Ok in Hs as ([r1 t1] & established & He & Hs).
  assert (Hcase : (r1 = r /\ established = None) \/
                  exists t1 session, apply_ack segment (clk 9%nat) t = (t1, Ok (Some session))).
  { unfold establish_on_ack in He. destruct (flag_ack _ && _); [|injection He as <- _ <-; by left].
    apply sm_bind_Ok in He as ([r2 t2] & o & Ha & He). unfold table_method, on_table, sm_zoom in Ha. cbn [fst snd] in Ha.
    destruct (apply_ack segment (clk 9%nat) t) as [t3 [[session|]| |]]; cbn [map_err] in Ha; simplify_eq.
    - right. by eauto.
    - apply sm_ret_Ok in He as [He ->]. simplify_eq. by left. }
  destruct Hcase as [[-> ->]|H]; [|done]. exfalso.
  assert (Hdry : dry (if should_reset_unknown_tun_tcp_session_segment segment
                      then sm_bind (lookup_flow segment)
                             (fun session => if is_none session then reset_segment segment else sm_ret Step_Noop)
                      else sm_ret Step_Noop)).
  { apply dry_if; [apply dry_unknown|]; by apply quiet_ret. }
  cbn [is_none] in Hs.
  destruct (dry_client_payload segment clk _ (dry_client_ack segment clk _ Hdry) r t1 r' t' step Hr Hs) as [_ H].
  by rewrite Hm in H.
Qed.

End Fresh.

(** ** A round of the loop with the lock *)

Section Round.
Context {W : Type} {Net : Network W} {Sleep : ThreadSleep W}.
Context {SsCrypto : ShadowsocksCrypto} {Crypto : VmessCrypto}.
Context (turns : nat) (key_debug : TunTcpSessionKey -> string)
  (action_debug : TunPacketRelayAction -> string).
Context {I : Type} {Io : TunPacketIo I}.

#[local] Instance round_relay : TunTcpSessionRelay (RegistryTunTcpSessionRelay W SystemDnsResolver) :=
  tcp_relay turns key_debug action_debug.

Lemma close_pruned_empty {E} sessions errors last (r : RegistryTunTcpSessionRelay W SystemDnsResolver) :
  tcp_sessions r = ∅ -> tcp_sessions (fst (close_pruned_sessions (E := E) sessions errors last r)) = ∅.
Proof.
  intros Hr. revert errors last. induction sessions as [|session sessions IH]; intros errors last; [done|].
  cbn [close_pruned_sessions]. change (close_session session r) with (registry_close_session session r).
  unfold registry_close_session, close_key, sm_bind, sm_get. rewrite Hr, lookup_empty. apply IH.
Qed.

(** The table that a round starts with. *)
Definition pruned_table (cfg : LoopConfig) (env : RoundEnv) (t : TunTcpSessionTable) : TunTcpSessionTable :=
  fst (prune_idle (env_order env t) (env_prune_now env) (cfg_session_idle_timeout cfg) t).

Lemma prune_empty cfg env (w w' : LoopWorld (W := W) (I := I)) report :
  tcp_sessions (w_tcp w) = ∅ -> prune_sessions cfg env w = (w', Ok report) ->
  tcp_sessions (w_tcp w') = ∅ /\ w_device w' = w_device w /\ w_sessions w' = pruned_table cfg env (w_sessions w).
Proof.
  intros Hw. unfold prune_sessions, sm_bind, sm_get, on_tcp, sm_zoom, prune_idle_tun_tcp_sessions.
  unfold pruned_table. cbn [fst snd w_tcp w_sessions]. destruct (prune_idle _ _ _ (w_sessions w)) as [t pruned].
  pose proof (close_pruned_empty (E := TunPacketLoopError) pruned 0 None (w_tcp w) Hw) as Hc.
  destruct (close_pruned_sessions pruned 0 None (w_tcp w)) as [r closed]. cbn [fst] in Hc. intros [= <- _]. done.
Qed.

Lemma or_event_Ok {E A} (m : SM (LoopWorld (W := W) (I := I)) E A) event (k : A -> LM TunPacketLoopEvent) w w' e :
  or_event m event k w = (w', Ok e) ->
  (exists error, e = event error) \/ exists a w1, m w = (w1, Ok a) /\ k a w1 = (w', Ok e).
Proof.
  unfold or_event. destruct (m w) as [w1 [a|error|]]; intros H; [right; by eauto| |done].
  left. injection H as _ <-. by eauto.
Qed.

(** What the event of a segment came from. *)
Lemma tcp_event_source cfg env (w w' : LoopWorld (W := W) (I := I)) plan step written :
  process_tun_device_packet_with_relays cfg env w = (w', Ok (Event_TcpSession plan step written)) ->
  exists device packet segment r' t',
    read_packet (w_device w) = (device, Ok (Some packet)) /\ parse_tun_tcp_segment packet = Ok segment /\
    process_tun_tcp_session_segment_with_relay_plan segment (Some plan)
      (cfg_server_initial_sequence_number cfg) (cfg_window_size cfg) (env_clk env) (w_tcp w, w_sessions w) =
    ((r', t'), Ok step).
Proof.
  intros H. unfold process_tun_device_packet_with_relays, process_device_packet in H.
  apply sm_bind_Ok in H as (w1 & packet & Hr & H).
  assert (Hw1 : w_tcp w1 = w_tcp w /\ w_sessions w1 = w_sessions w /\
                exists device, read_packet (w_device w) = (device, Ok packet)).
  { unfold device_read, on_device, sm_zoom in Hr. destruct (read_packet (w_device w)) as [d [o| |]]; [|done..].
    injection Hr as <- <-. by eauto. }
  destruct packet as [packet|]; [|by apply sm_ret_Ok in H as [_ [=]]].
  apply or_event_Ok in H as [[error [=]]|(action & w2 & Ha & H)].
  assert (Hw2 : w_tcp w2 = w_tcp w /\ w_sessions w2 = w_sessions w).
  { unfold on_dns, sm_zoom in Ha. destruct (process_tun_packet _ _ _ _ _ _) as [d rd]. injection Ha as <- _.
    by destruct Hw1 as (-> & -> & _). }
  destruct Hw1 as (_ & _ & device & Hdev).
  destruct action as [response|response|plan'].
  1, 2: apply sm_bind_Ok in H as (w3 & [] & _ & H); by apply sm_ret_Ok in H as [_ [=]].
  destruct (is_udp_action (plan_relay_action plan')).
  { unfold relay_udp_plan in H. apply or_event_Ok in H as [[error [=]]|(response & w3 & _ & H)].
    apply sm_bind_Ok in H as (w4 & [] & _ & H). by apply sm_ret_Ok in H as [_ [=]]. }
  destruct (is_tcp_action (plan_relay_action plan')).
  2: { apply sm_ret_Ok in H as [_ H]. unfold loop_event_for_relay_plan in H. by repeat case_match. }
  unfold relay_tcp_plan in H. apply or_event_Ok in H as [[error [=]]|(segment & w3 & Hp & H)].
  apply sm_lift_Ok in Hp as [-> Hp].
  apply or_event_Ok in H as [[error [=]]|(step' & w4 & Hs & H)].
  apply sm_bind_Ok in H as (w5 & [] & _ & H). apply sm_ret_Ok in H as [_ [= <- <- _]].
  unfold on_tcp, sm_zoom in Hs. destruct Hw2 as [<- <-]. exists device, packet, segment.
  destruct (process_tun_tcp_session_segment_with_relay_plan segment _ _ _ _ _) as [[r' t'] [s| |]] eqn:E; cbn in Hs;
    [|done..]. injection Hs as _ ->. by exists r', t'.
Qed.

End Round.

(** C23: in the loop that takes its runtime from the lock, a segment that is processed
    without an error moves bytes (or the end of them) to the server, or new bytes from the
    server to the client, only when it is the very segment that completes the handshake of its
    session: the relay of the round has none of the connections that earlier rounds opened.
    Acknowledgements of duplicates and of payloads out of order, retransmissions and closes
    are not such movements. *)
Theorem shared_loop_only_moves_data_in_handshake {W} {Net : Network W} {Sleep : ThreadSleep W}
  {SsCrypto : ShadowsocksCrypto} {Crypto : VmessCrypto} (turns : nat)
  (key_debug : TunTcpSessionKey -> string) (action_debug : TunPacketRelayAction -> string)
  {I} {Io : TunPacketIo I} config ttl env summary (s s' : SharedState (W := W) (I := I)) summary' plan step written :
  shared_round turns key_debug action_debug config ttl env summary s =
    (s', Ok (summary', Event_TcpSession plan step written)) ->
  moves_data step = true ->
  exists device packet segment sessions session,
    read_packet (shared_device s) = (device, Ok (Some packet)) /\ parse_tun_tcp_segment packet = Ok segment /\
    apply_ack segment (env_clk (env_round env) 9%nat)
      (pruned_table (managed_loop_config config ttl (env_runtime env)) (env_round env) (shared_sessions s)) =
    (sessions, Ok (Some session)).
Proof.
  intros H Hm. unfold shared_round in H.
  destruct (managed_round _ _ _ _ _ _ (shared_world env s)) as [w1 [[summary1 event]|error|]] eqn:E; [|done..].
  injection H as _ _ ->. unfold managed_round in E.
  apply sm_bind_Ok in E as (w2 & report & Hp & E). apply sm_bind_Ok in E as (w3 & event & He & E).
  apply sm_bind_Ok in E as (w4 & w5 & _ & E). apply sm_ret_Ok in E as [_ [= _ <-]].
  apply prune_empty in Hp as (Hw2 & Hd & Ht); [|done].
  apply tcp_event_source in He as (device & packet & segment & r' & t' & Hr & Hseg & He).
  destruct (fresh_relay_is_dry _ _ _ _ _ _ _ _ _ _ _ _ Hw2 He Hm) as (t1 & session & Ha).
  exists device, packet, segment, t1, session. rewrite Hd in Hr. rewrite Ht in Ha. by split_and!.
Qed.

(** ** A session *)

(** A device that delivers the packets of a list, and keeps what is written. *)
Record PacketQueue : Type := mkPacketQueue { queued : list (list Z); written_packets : list (list Z) }.

#[local] Instance queue_io : TunPacketIo PacketQueue := {
  io_read_packet q :=
    match queued q with
    | [] => (q, Ok None)
    | packet :: rest => (mkPacketQueue rest (written_packets q), Ok (Some packet))
    end;
  io_write_packet packet q := (mkPacketQueue (queued q) (written_packets q ++ [packet]), Ok tt)
}.

(** From 10.7.0.2:50000 to 192.0.2.1:80. *)
Definition client_flow : TunPacketFlow :=
  mkTunPacketFlow Ipv4 Proto_Tcp (V4 168230914) (V4 3221225985) (Some 50000) (Some 80).

Definition client_packet (sequence acknowledgment flags : Z) (payload : list Z) : list Z :=
  match build_tun_tcp_response_packet (reply_flow client_flow) sequence acknowledgment (from_bits flags) 65535 payload with
  | Ok packet => packet
  | _ => []
  end.

(** SYN, the ACK of the handshake, and a segment with three bytes. *)
Definition client_packets : list (list Z) :=
  [client_packet 100 0 2 []; client_packet 101 2 16 []; client_packet 101 2 24 [71; 69; 84]].

Definition direct_runtime : MixedProxyRuntime :=
  mkMixedRuntime (RouteEngine_new Route_Direct) default_relay_options OutboundRegistry_new MixedDnsOptions_default
    16 10 8.

Definition quiet_env (i : nat) : ManagedEnv :=
  mkManagedEnv false direct_runtime (mkRoundEnv 0 0 (fun _ => 0) (fun t => (map_to_list (tbl_sessions t)).*1)).

Definition sample_device : TunDeviceConfig := mkTunDeviceConfig "keli-tun0" "10.7.0.1/24" 1500 false.

Definition key_text (key : TunTcpSessionKey) : string := "session".
Definition action_text (action : TunPacketRelayAction) : string := "action".

Definition shared_run (packets : list (list Z)) :=
  run_managed_tun_packet_loop_shared_runtime_until_stop (W := Script) 9 key_text action_text
    (mkPacketQueue packets []) sample_device direct_runtime 30 (length packets) quiet_env (mkScript [79; 75] [] 0).

Definition io_run (packets : list (list Z)) :=
  run_managed_tun_packet_loop_io_until_stop (W := Script) 9 key_text action_text
    (mkPacketQueue packets []) sample_device direct_runtime 30 (length packets) quiet_env (mkScript [79; 75] [] 0).

Definition session_error_of {A} (outcome : A * result string TunPacketLoopSummary) : option (option TunTcpSessionError) :=
  match snd outcome with Ok summary => Some (sum_last_tcp_session_error summary) | _ => None end.

(** The three packets through both loops: the loop with the lock has lost the connection when
    the bytes come, the other one delivers them. *)
Lemma shared_loop_loses_the_connection :
  session_error_of (shared_run client_packets) =
    Some (Some (Session_Relay "TUN TCP session is not connected: session")) /\
  session_error_of (io_run client_packets) = Some None.
Proof. split; vm_compute; reflexivity. Qed.

(** A segment that completes the handshake and carries the bytes is served. *)
Definition opening_packets : list (list Z) := [client_packet 100 0 2 []; client_packet 101 2 24 [71; 69; 84]].

Definition after_syn : SharedState (W := Script) (I := PacketQueue) :=
  fst (shared_round 9 key_text action_text sample_device 30 (quiet_env 0) TunPacketLoopSummary_default
         (mkShared (mkPacketQueue opening_packets []) (with_max_active_sessions 16) (mkScript [79; 75] [] 0))).

Lemma shared_loop_only_moves_data_in_handshake_witness :
  exists device packet segment sessions session,
    read_packet (shared_device after_syn) = (device, Ok (Some packet)) /\
    parse_tun_tcp_segment packet = Ok segment /\
    apply_ack segment 0
      (pruned_table (managed_loop_config sample_device 30 direct_runtime) (env_round (quiet_env 1))
         (shared_sessions after_syn)) = (sessions, Ok (Some session)).
Proof.
  assert (exists s' summary plan step written,
    shared_round 9 key_text action_text sample_device 30 (quiet_env 1) TunPacketLoopSummary_default after_syn =
      (s', Ok (summary, Event_TcpSession plan step written)) /\ moves_data step = true)
    as (s' & summary & plan & step & written & Hs & Hm).
  { do 5 eexists. split; vm_compute; reflexivity. }
  exact (shared_loop_only_moves_data_in_handshake 9 key_text action_text sample_device 30 (quiet_env 1)
           TunPacketLoopSummary_default after_syn s' summary plan step written Hs Hm).
Defined.
