(* ===== verification/ManagedTun.v ===== *)
(** * The system proxy and the TUN device while the program runs

    [crates/keli-cli/src/lib.rs]: the guards that remember what to restore
    ([ManagedSystemProxyGuard], [ManagedTunDeviceGuard]), the runs that stop the device when
    they are over, and the background runtime of a device ([ManagedTunBackgroundRuntime]).

    The packet loop is an argument, [packet_loop]: what the loops do is in [TunLoop] and
    [ManagedLoop]. A loop that runs on a thread takes its steps by the time it is joined; the
    error of a thread that panicked is the one of the join. [run] is the work the caller
    hands in. *)

From stdpp Require Import base strings list numbers.
From S2P Require Import Prelude.
From S2P Require Import StdNet.
From S2P Require Import StdIo.
From S2P Require Import TunSummary.
From S2P Require Import MixedConfig.
From S2P Require Import Platform.
From S2P Require Import TunText.
#[local] Open Scope Z_scope.

(** [TunPacketIoController]; [open_io] is its [open_packet_io]. *)
Class TunPacketIoController (W : Type) `{TunDeviceController W} := {
  PacketIo : Type;
  open_io : TunDeviceConfig -> SM W TunDeviceError PacketIo
}.

(** [.map_err(|error| format!("{context}{error}"))]. *)
Definition with_context {W E A} (context : string) (fmt : E -> string) (m : SM W E A) : SM W string A :=
  fun w => let '(w, r) := m w in (w, map_err (fun error => context +:+ fmt error) r).

(** [thread.join().map_err(|_| message)], and the result of the thread. *)
Definition joined {W A} (message : string) (m : SM W string A) : SM W string A :=
  fun w => match m w with (w, Panic) => (w, Err message) | outcome => outcome end.

(** ** The system proxy *)

Record ManagedSystemProxyGuard : Type := mkProxyGuard {
  guard_proxy_snapshot : option SystemProxySnapshot;
  guard_proxy_config : SystemProxyConfig
}.

Section Proxy.
Context {W : Type} {Proxy : SystemProxyController W}.

Definition proxy_guard_restore (self : ManagedSystemProxyGuard) : SM W string unit :=
  match guard_proxy_snapshot self with
  | None => sm_ret tt
  | Some snapshot =>
      with_context "restore system proxy: " SystemProxyError_fmt (controller_restore snapshot)
  end.

(** [guard.take().map(ManagedSystemProxyGuard::restore).unwrap_or(Ok(()))]. *)
Definition restore_guard (guard : option ManagedSystemProxyGuard) : SM W string unit :=
  match guard with Some guard => proxy_guard_restore guard | None => sm_ret tt end.

(** [local_addr] is what the listener says of itself, with the text of an error. *)
Definition apply_system_proxy_for_listener (local_addr : result string SocketAddr) (bypass : list string)
  : SM W string ManagedSystemProxyGuard :=
  local_addr <-! sm_lift (map_err (fun error => "read mixed listener address: " +:+ error) local_addr);
  let server := system_proxy_server_for_listener local_addr in
  config <-! sm_lift (map_err (fun error => "build system proxy config: " +:+ SystemProxyError_fmt error)
                        (SystemProxyConfig_new server));
  let config := with_bypass bypass config in
  snapshot <-! with_context "apply system proxy: " SystemProxyError_fmt (controller_apply config);
  sm_ret (mkProxyGuard (Some snapshot) config).

(** [(Err(serve), Err(restore))] and the like: both are told. *)
Definition both_outcomes {A B} (first : result string A) (second : result string B) : result string (A * B) :=
  match first, second with
  | Ok a, Ok b => Ok (a, b)
  | Err first, Ok _ => Err first
  | Ok _, Err second => Err second
  | Err first, Err second => Err (first +:+ "; " +:+ second)
  | _, _ => Panic
  end.

(** [bound] is the listener, or the text of the error of [bind]; [serve] serves it. *)
Definition listen_mixed_with_system_proxy_controller (listen : string)
  (bound : result string (result string SocketAddr)) (serve : SM W string unit) (bypass : list string)
  : SM W string unit :=
  local_addr <-! sm_lift (map_err (fun error => "listen-mixed bind failed on " +:+ listen +:+ ": " +:+ error) bound);
  do! sm_lift (map_err (fun error => "read mixed listener address: " +:+ error) local_addr);
  guard <-! apply_system_proxy_for_listener local_addr bypass;
  fun w =>
    let '(w, serve_result) := with_context "listen-mixed failed: " id serve w in
    match serve_result with
    | Panic => (w, Panic)
    | _ =>
        let '(w, restore_result) := proxy_guard_restore guard w in
        (w, '(_, _) <-? both_outcomes serve_result restore_result; Ok tt)
    end.

End Proxy.

(** ** The device *)

Record ManagedTunDeviceGuard : Type := mkTunGuard {
  guard_tun_config : TunDeviceConfig;
  guard_tun_snapshot : TunDeviceSnapshot;
  guard_owns_device : bool
}.

Section Device.
Context {W : Type} `{Packets : TunPacketIoController W}.
Context (packet_loop : PacketIo -> TunDeviceConfig -> SM W string TunPacketLoopSummary).

Definition preflight_failure {A} (preflight : TunDevicePreflight) : SM W string A :=
  sm_lift (Err ("TUN preflight failed: status=" +:+ readiness_label (preflight_readiness preflight)
                +:+ " reason=" +:+ default "-" (preflight_reason preflight))).

Definition device_check (config : TunDeviceConfig) : SM W string TunDevicePreflight :=
  with_context "" TunDeviceError_fmt (preflight_check config).

Definition apply_tun_device_for_config (config : TunDeviceConfig) : SM W string ManagedTunDeviceGuard :=
  preflight <-! device_check config;
  if negb (preflight_ready preflight) then preflight_failure preflight
  else
    match preflight_readiness preflight with
    | AlreadyRunning =>
        sm_ret (mkTunGuard config (tun_status_snapshot (preflight_status preflight)) false)
    | Ready =>
        snapshot <-! with_context "start TUN device: " TunDeviceError_fmt (tun_start config);
        if negb (snap_running snapshot) then
          sm_lift (Err "start TUN device did not report a running device")
        else if negb (tun_snapshot_matches_config snapshot config) then
          sm_lift (Err "start TUN device returned a different running config")
        else sm_ret (mkTunGuard config snapshot true)
    | _ => preflight_failure preflight
    end.

Definition stop_device : SM W string TunDeviceSnapshot :=
  with_context "stop TUN device: " TunDeviceError_fmt tun_stop.

(** [ManagedTunDeviceGuard::stop]. *)
Definition tun_guard_stop (self : ManagedTunDeviceGuard) : SM W string TunDeviceSnapshot :=
  if negb (guard_owns_device self) then sm_ret (guard_tun_snapshot self) else stop_device.

(** [config.map(|config| apply_tun_device_for_config(..)).transpose()]. *)
Definition apply_optional (config : option TunDeviceConfig) : SM W string (option ManagedTunDeviceGuard) :=
  match config with
  | Some config => guard <-! apply_tun_device_for_config config; sm_ret (Some guard)
  | None => sm_ret None
  end.

(** [guard.map(|guard| guard.stop().map(Some)).unwrap_or(Ok(None))]. *)
Definition stop_optional (guard : option ManagedTunDeviceGuard) : SM W string (option TunDeviceSnapshot) :=
  match guard with
  | Some guard => snapshot <-! tun_guard_stop guard; sm_ret (Some snapshot)
  | None => sm_ret None
  end.

(** [work], then the device is stopped whatever came of it. *)
Definition then_stop {A} (guard : option ManagedTunDeviceGuard) (work : SM W string A)
  : SM W string (A * option TunDeviceSnapshot) :=
  fun w =>
    match work w with
    | (w, Panic) => (w, Panic)
    | (w, work_result) =>
        let '(w, stop_result) := stop_optional guard w in (w, both_outcomes work_result stop_result)
    end.

Definition run_with_optional_tun_device (config : option TunDeviceConfig) (run : SM W string unit)
  : SM W string unit :=
  guard <-! apply_optional config;
  '(_, _) <-! then_stop guard run;
  sm_ret tt.

(** The [run_managed_tun_packet_loop_inner] functions: the I/O is opened for the loop. *)
Definition packet_loop_inner (config : TunDeviceConfig) : SM W string TunPacketLoopSummary :=
  io <-! with_context "open TUN packet I/O: " TunDeviceError_fmt (open_io config);
  packet_loop io config.

(** [run_managed_tun_packet_loop] and its variants, which differ in the loop. *)
Definition run_managed_tun_packet_loop (config : TunDeviceConfig) : SM W string ManagedTunPacketLoopReport :=
  guard <-! apply_tun_device_for_config config;
  '(summary, stop_snapshot) <-! then_stop (Some guard) (packet_loop_inner (guard_tun_config guard));
  sm_ret (mkTunReport (guard_tun_config guard) (guard_tun_snapshot guard)
            (default (guard_tun_snapshot guard) stop_snapshot) (guard_owns_device guard) summary).

(** The loop, then the caller's work if it ended well. *)
Definition run_with_optional_tun_runtime {A} (config : option TunDeviceConfig) (run : SM W string A)
  : SM W string A :=
  guard <-! apply_optional config;
  '(output, _) <-! then_stop guard
    (do! match guard with
         | Some guard => do! packet_loop_inner (guard_tun_config guard); sm_ret tt
         | None => sm_ret tt
         end;
     run);
  sm_ret output.

(** The I/O of a device that was started for it: a device of one's own is stopped when the
    I/O cannot be opened. *)
Definition open_io_or_stop (guard : ManagedTunDeviceGuard) : SM W string PacketIo :=
  fun w =>
    match open_io (guard_tun_config guard) w with
    | (w, Ok io) => (w, Ok io)
    | (w, Err error) =>
        let open_error := "open TUN packet I/O: " +:+ TunDeviceError_fmt error in
        match (if guard_owns_device guard then do! stop_device; sm_ret tt else sm_ret tt) w with
        | (w, Ok _) => (w, Err open_error)
        | (w, Err stop_error) => (w, Err (open_error +:+ "; " +:+ stop_error))
        | (w, Panic) => (w, Panic)
        end
    | (w, Panic) => (w, Panic)
    end.

(** [errors.push(error)]. *)
Definition error_of {A} (r : result string A) : list string := match r with Err error => [error] | _ => [] end.
Definition value_of {A} (r : result string (option A)) : option A :=
  match r with Ok (Some a) => Some a | _ => None end.

(** The loop runs in its thread until the caller's work is done. *)
Definition background_summary (io : option (PacketIo * TunDeviceConfig))
  : SM W string (option TunPacketLoopSummary) :=
  match io with
  | Some (io, config) =>
      summary <-! joined "TUN packet loop thread panicked" (packet_loop io config);
      sm_ret (Some summary)
  | None => sm_ret None
  end.

(** What follows the start: the caller's work, the loop that is then told to stop, the
    device; the errors of all of them are told. *)
Definition background_work {A} (guard : option ManagedTunDeviceGuard) (io : option (PacketIo * TunDeviceConfig))
  (run : SM W string A) : SM W string (A * option ManagedTunPacketLoopReport) :=
  fun w =>
    match run w with
    | (w, Panic) => (w, Panic)
    | (w, run_result) =>
        let '(w, summary_result) := background_summary io w in
        let '(w, stop_result) := stop_optional guard w in
        match stop_result with
        | Panic => (w, Panic)
        | _ =>
            let errors := error_of run_result ++ error_of summary_result ++ error_of stop_result in
            if negb (is_empty errors) then (w, Err (join "; " errors))
            else
              let report :=
                match guard, value_of summary_result, value_of stop_result with
                | Some guard, Some summary, Some stop_snapshot =>
                    Some (mkTunReport (guard_tun_config guard) (guard_tun_snapshot guard) stop_snapshot
                            (guard_owns_device guard) summary)
                | _, _, _ => None
                end in
              match run_result with
              | Ok output => (w, Ok (output, report))
              | _ => (w, Err "managed TUN runtime finished without run output")
              end
        end
    end.

Definition run_with_optional_tun_runtime_background_report {A} (config : option TunDeviceConfig)
  (run : SM W string A) : SM W string (A * option ManagedTunPacketLoopReport) :=
  guard <-! apply_optional config;
  io <-! match guard with
         | Some guard => io <-! open_io_or_stop guard; sm_ret (Some (io, guard_tun_config guard))
         | None => sm_ret None
         end;
  background_work guard io run.

(** [run_with_optional_tun_runtime_background]. *)
Definition run_with_optional_tun_runtime_background {A} (config : option TunDeviceConfig)
  (run : SM W string A) : SM W string A :=
  '(output, _) <-! run_with_optional_tun_runtime_background_report config run;
  sm_ret output.

(** ** The device of a handle *)

(** [ManagedTunBackgroundRuntime]; [stop_device] is the guard's stop. The thread and the stop
    handler are there from the start until [stop] takes them. *)
Record ManagedTunBackgroundRuntime : Type := mkTunBackground {
  background_guard : ManagedTunDeviceGuard;
  background_io : PacketIo
}.

Definition start_managed_tun_background_runtime (config : TunDeviceConfig)
  : SM W string ManagedTunBackgroundRuntime :=
  guard <-! apply_tun_device_for_config config;
  io <-! open_io_or_stop guard;
  sm_ret (mkTunBackground guard io).

(** [ManagedTunBackgroundRuntime::stop]. *)
Definition background_stop (self : ManagedTunBackgroundRuntime) : SM W string ManagedTunPacketLoopReport :=
  let guard := background_guard self in
  summary <-! joined "managed TUN packet loop thread panicked"
                (packet_loop (background_io self) (guard_tun_config guard));
  stop_snapshot <-! tun_guard_stop guard;
  sm_ret (mkTunReport (guard_tun_config guard) (guard_tun_snapshot guard) stop_snapshot
            (guard_owns_device guard) summary).

End Device.

Arguments ManagedTunBackgroundRuntime W {_ _}.
