(* ===== verification/ManagedMixed.v ===== *)
(** * The managed core

    [crates/keli-cli/src/lib.rs]: the session that is started from a subscription
    ([ManagedMixedSession]), the handle of the core while it runs in the background
    ([ManagedMixedHandle]) with its reloads, probes and notes, and the controller that the
    desktop drives ([ManagedMixedController]), which holds at most one handle and lets the
    state of the account stop its operations.

    What the core does with the outside is the class [ManagedSystem]: the clock (the readings
    that the next call to a runtime makes), the listener, the thread that serves it, the
    probes of a node, the fetch of a subscription and the counters that the workers share. *)

From stdpp Require Import base strings list numbers gmap.
From S2P Require Import Prelude.
From S2P Require Import StdNet.
From S2P Require Import StdIo.
From S2P Require Import TunSession.
From S2P Require Import TunSummary.
From S2P Require Import Relay.
From S2P Require Import Profile.
From S2P Require Import Registry.
From S2P Require Import Subscription.
From S2P Require Import MixedMetrics.
From S2P Require Import Mixed.
From S2P Require Import MixedConfig.
From S2P Require Import ClientCore.
From S2P Require Import ClientRuntime.
From S2P Require Import Platform.
From S2P Require Import TunText.
From S2P Require Import ManagedHealth.
From S2P Require Import ManagedTun.
#[local] Open Scope Z_scope.

(** ** Options *)

Inductive SmokeInboundKind : Type := Smoke_Socks5 | Smoke_HttpConnect.

Definition smoke_inbound_label (self : SmokeInboundKind) : string :=
  match self with
  | Smoke_Socks5 => "mixed-socks5-smoke"
  | Smoke_HttpConnect => "mixed-http-connect-smoke"
  end.

Record ManagedMixedOptions : Type := mkManagedOptions {
  opt_listen : string;
  opt_block_domains : list string;
  opt_outbound_tag : option string;
  opt_relay_options : RelayOptions;
  opt_system_proxy : bool;
  opt_system_proxy_bypass : list string;
  opt_tun_device : option TunDeviceConfig;
  opt_dns_options : MixedDnsOptions;
  opt_tun_tcp_max_active_sessions : Z;
  opt_max_connection_workers : Z
}.

Definition ManagedMixedOptions_default : ManagedMixedOptions :=
  mkManagedOptions "127.0.0.1:7890" [] None default_relay_options false [] None MixedDnsOptions_default
    DEFAULT_TUN_TCP_MAX_ACTIVE_SESSIONS DEFAULT_MANAGED_MIXED_MAX_CONNECTION_WORKERS.

Record ManagedNodeUdpProbeOptions : Type := mkUdpProbe {
  udp_probe_target : string;
  udp_probe_payload : list Z;
  udp_probe_expect : list Z
}.

(** [ManagedNodeProbeSweepOptions]; [ManagedNodeProbeOptions] is one with the tag of a node. *)
Record ManagedNodeProbeSweepOptions : Type := mkSweepOptions {
  probe_target : string;
  probe_payload : list Z;
  probe_expect : list Z;
  probe_inbound : SmokeInboundKind;
  probe_first_byte_timeout : Z;
  probe_udp_available : option bool;
  probe_udp_probe : option ManagedNodeUdpProbeOptions
}.

(** ** The fetch of a subscription *)

Record ManagedSubscriptionUrlSource : Type := mkUrlSource {
  source_scheme : string;
  source_host : string;
  source_port : Z;
  source_default_port : bool;
  source_path_present : bool;
  source_query_present : bool
}.

(** [ManagedSubscriptionUrlSource::label]. *)
Definition url_source_label (self : ManagedSubscriptionUrlSource) : string :=
  source_scheme self +:+ "://" +:+ source_host self +:+ ":" +:+ to_decimal (source_port self)
  +:+ " default_port=" +:+ bool_text (source_default_port self)
  +:+ " path_present=" +:+ bool_text (source_path_present self)
  +:+ " query_present=" +:+ bool_text (source_query_present self).

Record ManagedSubscriptionUrlFetchOutcome : Type := mkFetchOutcome {
  fetch_ok : bool;
  fetch_source : option ManagedSubscriptionUrlSource;
  fetch_http_status : option Z;
  fetch_body_bytes : option Z;
  fetch_elapsed : option Z;
  fetch_error_kind : option string;
  fetch_error_detail : option string
}.

Record ManagedSubscriptionUrlUpdateStatus : Type := mkUrlUpdateStatus {
  url_update_at : Z;
  url_update_fetch : ManagedSubscriptionUrlFetchOutcome;
  url_update_update : option SubscriptionUpdateReport;
  url_update_applied : bool;
  url_update_error : option string
}.

(** ** The system *)

(** The counters the workers share: they outlive a reload. *)
Record ManagedGauges : Type := mkGauges {
  gauge_metrics : ConnectionMetricsSnapshot;
  gauge_active_connection_workers : Z;
  gauge_peak_connection_workers : Z;
  gauge_active_client_connections : Z;
  gauge_peak_client_connections : Z
}.

(** [bind_listener] binds and asks for the local address; [serve_listener] is
    [serve_mixed_listener]; [join_listener] stops the thread of [serve_mixed_listener_until]
    and gives what it returned; [smoke_connect] gives the time to the first byte and to the
    connection. Errors are their texts. *)
Class ManagedSystem (W : Type) := {
  read_clock : W -> W * (nat -> Z);
  bind_listener : string -> W -> W * result string (result string SocketAddr);
  serve_listener : bool -> MixedProxyRuntime -> SM W string unit;
  join_listener : SM W string RuntimeManagedMixedStopDrainDiagnostic;
  smoke_connect : string -> string -> ManagedNodeProbeSweepOptions -> SM W string (option Z * option Z);
  probe_udp : string -> string -> ManagedNodeUdpProbeOptions -> Z -> W -> W * bool;
  fetch_subscription_url_config_text :
    string -> Z -> Z -> W -> W * (ManagedSubscriptionUrlFetchOutcome * option string);
  shared_gauges : W -> ManagedGauges;
  profile_error_text : OutboundProfileError -> string;
  str_debug : string -> string
}.

(** [{error:?}]. *)
Definition client_error_debug (quote : string -> string) (error : ClientErrorKind) : string :=
  match error with
  | CoreNotStarted => "CoreNotStarted"
  | DnsTimeout => "DnsTimeout"
  | ClientCore.TcpConnectTimeout => "TcpConnectTimeout"
  | TlsHandshakeFailed => "TlsHandshakeFailed"
  | WebSocketUpgradeFailed => "WebSocketUpgradeFailed"
  | ProxyAuthFailed => "ProxyAuthFailed"
  | RelayStalled => "RelayStalled"
  | TunPermissionMissing => "TunPermissionMissing"
  | SystemProxyLoop => "SystemProxyLoop"
  | RouteNoOutbound => "RouteNoOutbound"
  | NoSupportedOutbounds => "NoSupportedOutbounds"
  | OutboundNotFound tag => "OutboundNotFound(" +:+ quote tag +:+ ")"
  | PanelTrafficRestricted account_state risk_control =>
      "PanelTrafficRestricted { account_state: " +:+ quote account_state
      +:+ ", risk_control: " +:+ quote risk_control +:+ " }"
  | ConfigInvalid error => "ConfigInvalid(" +:+ quote error +:+ ")"
  end.

(** ** The handle *)

Section Managed.
Context {W : Type} {System : ManagedSystem W} {Proxy : SystemProxyController W}
  `{Packets : TunPacketIoController W} {L : ShareLibrary}.
Context (packet_loop : PacketIo -> TunDeviceConfig -> SM W string TunPacketLoopSummary).

(** The listener thread is there until [stop] joins it. *)
Record ManagedMixedHandle : Type := mkHandle {
  handle_state : ClientRuntime;
  handle_listen_addr : SocketAddr;
  handle_selected_outbound : option string;
  handle_runtime : MixedProxyRuntime;
  handle_block_domains : list string;
  handle_relay_options : RelayOptions;
  handle_dns_options : MixedDnsOptions;
  handle_tun_tcp_max_active_sessions : Z;
  handle_node_health : gmap string ManagedNodeHealthStatus;
  handle_last_url_update : option ManagedSubscriptionUrlUpdateStatus;
  handle_proxy_guard : option ManagedSystemProxyGuard;
  handle_tun_runtime : option (ManagedTunBackgroundRuntime W)
}.

#[export] Instance ManagedMixedHandle_settable : Settable ManagedMixedHandle := fun h =>
  mkHandle (handle_state h) (handle_listen_addr h) (handle_selected_outbound h) (handle_runtime h)
    (handle_block_domains h) (handle_relay_options h) (handle_dns_options h)
    (handle_tun_tcp_max_active_sessions h) (handle_node_health h) (handle_last_url_update h)
    (handle_proxy_guard h) (handle_tun_runtime h).

Definition HandleM (A : Type) : Type := SM (ManagedMixedHandle * W) string A.

Definition fails {S A} (error : string) : SM S string A := sm_lift (Err error).

Definition on_world {A} (m : SM W string A) : HandleM A :=
  fun s => let '(w, r) := m s.2 in ((s.1, w), r).

(** A call to the runtime of the client, which reads the clock. *)
Definition on_state (f : (nat -> Z) -> ClientRuntime -> ClientRuntime) : HandleM unit :=
  fun s =>
    let '(w, now) := read_clock s.2 in
    ((s.1 <| handle_state := f now (handle_state s.1) |>, w), Ok tt).

Definition modify_handle (f : ManagedMixedHandle -> ManagedMixedHandle) : HandleM unit :=
  sm_modify (fun s => (f s.1, s.2)).

Definition status_note (note : string) : HandleM unit := on_state (record_status_note note).

Definition subscription_status (self : ManagedMixedHandle) : option ManagedSubscriptionStatus :=
  (fun plan => subscription_status_from_plan plan (handle_node_health self)) <$> active_plan (handle_state self).

Definition no_subscription : string := "managed mixed core has no active subscription".

Definition record_panel_state_note (panel_state : PanelState) : HandleM unit :=
  status_note ("panel state recorded: account=" +:+ account_label (account_state (panel_user panel_state))
               +:+ " risk=" +:+ risk_label (risk_control panel_state)
               +:+ " restrict_traffic=" +:+ bool_text (should_restrict_traffic panel_state)).

Definition record_panel_state_cleared : HandleM unit := status_note "panel state cleared".

Definition record_panel_traffic_restricted (error : ClientErrorKind) : HandleM unit :=
  on_state (record_control_rejected error "panel traffic restricted").

Definition source_text (status : ManagedSubscriptionUrlUpdateStatus) : string :=
  default "-" (url_source_label <$> fetch_source (url_update_fetch status)).

Definition record_subscription_url_fetch_rejected (status : ManagedSubscriptionUrlUpdateStatus)
  (error_message : string) : HandleM unit :=
  do! on_state (record_reload_rejected (ConfigInvalid error_message));
  do! status_note ("subscription URL update rejected: fetch_status=error error_kind="
                   +:+ default "unknown" (fetch_error_kind (url_update_fetch status))
                   +:+ " source=" +:+ source_text status);
  modify_handle (fun h => h <| handle_last_url_update := Some status |>).

Definition record_subscription_url_update_status (status : ManagedSubscriptionUrlUpdateStatus) : HandleM unit :=
  do! status_note ("subscription URL update status recorded: fetch_status="
                   +:+ (if fetch_ok (url_update_fetch status) then "ok" else "error")
                   +:+ " applied=" +:+ bool_text (url_update_applied status)
                   +:+ " update_reason="
                   +:+ default "-" (update_reason_label ∘ update_reason <$> url_update_update status)
                   +:+ " source=" +:+ source_text status);
  modify_handle (fun h => h <| handle_last_url_update := Some status |>).

Definition ensure_active_subscription_tag (tag : string) : HandleM unit :=
  fun s =>
    match active_plan (handle_state s.1) with
    | None => (s, Err no_subscription)
    | Some plan =>
        if has_tag tag (supported_tags (plan_preflight plan)) then (s, Ok tt)
        else (s, Err ("node health tag is not in active subscription: " +:+ tag))
    end.

Definition set_node_health (health : ManagedNodeHealthStatus) : HandleM unit :=
  do! modify_handle (fun h =>
    h <| handle_node_health := <[health_tag health := health]> (handle_node_health h) |>);
  status_note ("node health recorded: " +:+ health_tag health +:+ "=" +:+ health_state_label (health_state health)).

(** [ManagedMixedHandle::record_node_health]. *)
Definition handle_record_node_health (health : ManagedNodeHealthStatus) : HandleM unit :=
  do! ensure_active_subscription_tag (health_tag health);
  set_node_health health.

Definition active_config_text : HandleM string :=
  fun s => (s, ok_or no_subscription (config_text <$> active_config (handle_state s.1))).

(** [SystemTime::now()]. *)
Definition system_now : HandleM Z :=
  fun s => let '(w, now) := read_clock s.2 in ((s.1, w), Ok (now 0%nat)).

(** [ManagedMixedHandle::probe_node_health]. *)
Definition handle_probe_node_health (tag : string) (options : ManagedNodeProbeSweepOptions) : HandleM unit :=
  do! ensure_active_subscription_tag tag;
  text <-! active_config_text;
  fun s =>
    match on_world (smoke_connect text tag options) s with
    | (s, Ok (first_byte_ms, connect_ms)) =>
        (udp_available <-!
           match probe_udp_probe options with
           | Some udp_probe =>
               fun s =>
                 let '(w, available) := probe_udp text tag udp_probe (probe_first_byte_timeout options) s.2 in
                 ((s.1, w), Ok (Some available))
           | None => sm_ret (probe_udp_available options)
           end;
         checked_at <-! system_now;
         set_node_health (mkNodeHealth tag NodeHealthy (Some true) udp_available
                            (or_else first_byte_ms connect_ms) None None (Some checked_at))) s
    | (s, Err error) =>
        (checked_at <-! system_now;
         do! set_node_health (mkNodeHealth tag NodeUnhealthy (Some false) None None
                                (Some (classify_managed_probe_error error)) (Some error) (Some checked_at));
         fails error) s
    | (s, Panic) => (s, Panic)
    end.

(** The loop of [probe_all_node_health]: how many probes succeeded and failed. *)
Fixpoint probe_each (tags : list string) (options : ManagedNodeProbeSweepOptions) (successful failed : Z)
  : HandleM (Z * Z) :=
  match tags with
  | [] => sm_ret (successful, failed)
  | tag :: tags' =>
      fun s =>
        match handle_probe_node_health tag options s with
        | (s, Ok _) => probe_each tags' options (successful + 1) failed s
        | (s, Err _) => probe_each tags' options successful (failed + 1) s
        | (s, Panic) => (s, Panic)
        end
  end.

Definition sweep_note (options : ManagedNodeProbeSweepOptions) (attempted successful failed : Z)
  (status : ManagedSubscriptionStatus) : string :=
  let summary := sub_health_summary status in
  "node health sweep completed: target=" +:+ probe_target options
  +:+ " inbound=" +:+ smoke_inbound_label (probe_inbound options)
  +:+ " attempted=" +:+ to_decimal attempted
  +:+ " success=" +:+ to_decimal successful +:+ " failure=" +:+ to_decimal failed
  +:+ " healthy=" +:+ to_decimal (healthy_count summary)
  +:+ " unhealthy=" +:+ to_decimal (unhealthy_count summary)
  +:+ " unknown=" +:+ to_decimal (unknown_count summary)
  +:+ " recommended=" +:+ sub_recommended_outbound status
  +:+ " switch_ready=" +:+ bool_text (recommended_switch_ready summary)
  +:+ " reason=" +:+ switch_reason_label (recommended_switch_reason summary).

Definition sweep_diagnostic (options : ManagedNodeProbeSweepOptions) (elapsed_ms attempted successful failed : Z)
  (status : ManagedSubscriptionStatus) : RuntimeDiagnostic :=
  let summary := sub_health_summary status in
  ManagedNodeProbeSweep
    (mkProbeSweepDiagnostic (probe_target options) (smoke_inbound_label (probe_inbound options)) elapsed_ms
       attempted successful failed (node_count summary) (healthy_count summary) (unhealthy_count summary)
       (unknown_count summary) (checked_count summary) (unchecked_count summary)
       (sub_selected_outbound status) (sub_recommended_outbound status) (recommended_switch_ready summary)
       (switch_reason_label (recommended_switch_reason summary))).

(** [duration_millis], of nanoseconds. *)
Definition duration_millis (duration : Z) : Z := Z.min (duration / 1000000) (2 ^ 64 - 1).

(** [ManagedMixedHandle::probe_all_node_health]. *)
Definition handle_probe_all_node_health (options : ManagedNodeProbeSweepOptions) : HandleM unit :=
  started <-! system_now;
  s <-! sm_get;
  plan <-! sm_lift (ok_or no_subscription (active_plan (handle_state s.1)));
  let tags := supported_tags (plan_preflight plan) in
  if is_empty tags then fails "managed mixed core has no supported subscription nodes"
  else
    '(successful, failed) <-! probe_each tags options 0 0;
    s <-! sm_get;
    match subscription_status s.1 with
    | None => sm_ret tt
    | Some status =>
        ended <-! system_now;
        on_state (record_status_diagnostic (sweep_note options (len tags) successful failed status)
                    (sweep_diagnostic options (duration_millis (Z.max 0 (ended - started))) (len tags)
                       successful failed status))
    end.

Definition prune_node_health_to_active_plan : HandleM unit :=
  modify_handle (fun h =>
    h <| handle_node_health :=
      match active_plan (handle_state h) with
      | None => ∅
      | Some plan =>
          base.filter (fun '(tag, _) => has_tag tag (supported_tags (plan_preflight plan)) = true)
            (handle_node_health h)
      end |>).

(** The runtime that takes over from [runtime]: the counters and the limit of the workers
    stay. *)
Definition next_runtime (h : ManagedMixedHandle) (runtime : MixedProxyRuntime) : MixedProxyRuntime :=
  runtime <| runtime_tun_tcp_max_active_sessions := handle_tun_tcp_max_active_sessions h |>
          <| runtime_max_connection_workers := runtime_max_connection_workers (handle_runtime h) |>.

Definition reload_failure {A} (error : ClientErrorKind) : result string A :=
  Err ("runtime reload failed: " +:+ client_error_debug str_debug error).

(** [self.state.reload(config)]. *)
Definition state_reload (config : RuntimeConfig) : HandleM (result ClientErrorKind ConnectionPlan) :=
  fun s =>
    let '(w, now) := read_clock s.2 in
    let '(state, r) := reload config now (handle_state s.1) in
    ((s.1 <| handle_state := state |>, w), Ok r).

(** [ManagedMixedHandle::reload_from_subscription_config_text]. *)
Definition handle_reload (text : string) (outbound_tag : option string) : HandleM unit :=
  s <-! sm_get;
  let h := s.1 in
  let listen := socket_addr_to_string (handle_listen_addr h) in
  let config := mkRuntimeConfig text outbound_tag listen in
  match build_connection_plan text outbound_tag listen with
  | Err error => do! state_reload config; sm_lift (reload_failure error)
  | Panic => sm_lift Panic
  | Ok plan =>
      match mixed_runtime_from_subscription_config_text_with_dns_options profile_error_text text
              (handle_block_domains h) (handle_relay_options h) (Some (selected_outbound plan))
              (handle_dns_options h) with
      | Err error =>
          do! on_state (record_reload_rejected (ConfigInvalid error));
          fails ("runtime reload failed: " +:+ error)
      | Panic => sm_lift Panic
      | Ok runtime =>
          do! modify_handle (fun h => h <| handle_runtime := next_runtime h runtime |>);
          r <-! state_reload config;
          match r with
          | Err error => sm_lift (reload_failure error)
          | Panic => sm_lift Panic
          | Ok _ =>
              do! modify_handle (fun h => h <| handle_selected_outbound := Some (selected_outbound plan) |>);
              prune_node_health_to_active_plan
          end
      end
  end.

(** [ManagedMixedHandle::apply_recommended_outbound]. *)
Definition handle_apply_recommended_outbound : HandleM unit :=
  s <-! sm_get;
  plan <-! sm_lift (ok_or no_subscription (active_plan (handle_state s.1)));
  let status := subscription_status_from_plan plan (handle_node_health s.1) in
  let summary := sub_health_summary status in
  let details :=
    "reason=" +:+ switch_reason_label (recommended_switch_reason summary)
    +:+ " selected=" +:+ selected_outbound plan
    +:+ " recommended=" +:+ sub_recommended_outbound status in
  if negb (recommended_switch_ready summary) then
    status_note ("recommended outbound switch skipped: " +:+ details)
  else
    do! status_note ("recommended outbound switch applying: " +:+ details);
    text <-! active_config_text;
    handle_reload text (Some (sub_recommended_outbound status)).

(** [probe_all_node_health_and_apply_recommended]. *)
Definition handle_probe_and_apply (options : ManagedNodeProbeSweepOptions) : HandleM unit :=
  do! handle_probe_all_node_health options; handle_apply_recommended_outbound.

Definition subscription_update_report_from_config_text (text : string) (h : ManagedMixedHandle)
  : result string SubscriptionUpdateReport :=
  current <-? ok_or no_subscription (config_text <$> active_config (handle_state h));
  map_err (fun error => "subscription update plan failed: " +:+ client_error_debug str_debug error)
    (plan_subscription_update (Some current) text (selected_outbound <$> active_plan (handle_state h))).

(** [ManagedMixedHandle::reload_from_subscription_config_text_with_update_plan]. *)
Definition handle_reload_with_update_plan (text : string)
  : HandleM (SubscriptionUpdateReport * bool * option string) :=
  s <-! sm_get;
  match subscription_update_report_from_config_text text s.1 with
  | Panic => sm_lift Panic
  | Err error => do! on_state (record_reload_rejected (ConfigInvalid error)); fails error
  | Ok report =>
      match planned_selected_outbound report with
      | None =>
          let error := "subscription update rejected: no supported outbounds" in
          do! on_state (record_reload_rejected NoSupportedOutbounds);
          do! status_note (error +:+ " reason=" +:+ update_reason_label (update_reason report)
                           +:+ " new_supported=" +:+ to_decimal (new_supported_count report)
                           +:+ " new_skipped=" +:+ to_decimal (new_skipped_count report));
          sm_ret (report, false, Some error)
      | Some planned =>
          do! handle_reload text (Some planned);
          do! status_note ("subscription update applied: reason=" +:+ update_reason_label (update_reason report)
                           +:+ " preserved=" +:+ bool_text (selected_outbound_preserved report)
                           +:+ " changed=" +:+ bool_text (selected_outbound_changed report)
                           +:+ " added=" +:+ to_decimal (len (added_tags report))
                           +:+ " removed=" +:+ to_decimal (len (removed_tags report))
                           +:+ " retained=" +:+ to_decimal (len (retained_tags report)));
          sm_ret (report, true, None)
      end
  end.

(** What [stop] records of the listener and of the device. *)
Definition recorded_stop (serve_result : result string RuntimeManagedMixedStopDrainDiagnostic)
  (tun_result : result string (option ManagedTunPacketLoopReport)) (state : ClientRuntime) (w : W)
  : W * ClientRuntime :=
  let '(w, now) := read_clock w in
  let state :=
    match serve_result with
    | Ok diagnostic =>
        record_status_diagnostic (managed_mixed_stop_drain_note diagnostic)
          (managed_mixed_stop_drain_diagnostic diagnostic) now state
    | _ => state
    end in
  let '(w, now) := read_clock w in
  let state :=
    match tun_result with
    | Ok (Some report) =>
        record_status_diagnostic (managed_tun_runtime_report_note str_debug report)
          (managed_tun_runtime_report_diagnostic str_debug report) now state
    | _ => state
    end in
  let '(w, now) := read_clock w in
  (w, stop now state).

Definition stop_tun (tun_runtime : option (ManagedTunBackgroundRuntime W))
  : SM W string (option ManagedTunPacketLoopReport) :=
  match tun_runtime with
  | Some background => report <-! background_stop packet_loop background; sm_ret (Some report)
  | None => sm_ret None
  end.

(** [ManagedMixedHandle::stop]; the state is returned, or the errors told together. *)
Definition handle_stop (self : ManagedMixedHandle) : SM W string ClientRuntime :=
  fun w =>
    let '(w, serve_result) :=
      joined "managed mixed listener thread panicked"
        (with_context "managed mixed listener failed: " id join_listener) w in
    match stop_tun (handle_tun_runtime self) w with
    | (w, Panic) => (w, Panic)
    | (w, tun_result) =>
        match restore_guard (handle_proxy_guard self) w with
        | (w, Panic) => (w, Panic)
        | (w, restore_result) =>
            let '(w, state) := recorded_stop serve_result tun_result (handle_state self) w in
            let errors := error_of serve_result ++ error_of tun_result ++ error_of restore_result in
            if is_empty errors then (w, Ok state) else (w, Err (join "; " errors))
        end
    end.

(** ** The session *)

(** [ManagedMixedSession]; the listener is there until it is served. *)
Record ManagedMixedSession : Type := mkSession {
  session_state : ClientRuntime;
  session_listen_addr : SocketAddr;
  session_runtime : MixedProxyRuntime;
  session_block_domains : list string;
  session_relay_options : RelayOptions;
  session_dns_options : MixedDnsOptions;
  session_tun_tcp_max_active_sessions : Z;
  session_proxy_guard : option ManagedSystemProxyGuard
}.

(** What the session fails with is dropped with its runtime. *)
Definition session_start (text : string) (options : ManagedMixedOptions) : SM W string ManagedMixedSession :=
  bound <-! with_context ("listen-mixed bind failed on " +:+ opt_listen options +:+ ": ") id
              (bind_listener (opt_listen options));
  fun w =>
    (listen_addr <-! sm_lift (map_err (fun error => "read mixed listener address: " +:+ error) bound);
     let listen := socket_addr_to_string listen_addr in
     fun w =>
       let '(w, now0) := read_clock w in
       let '(w, now) := read_clock w in
       let '(state, started) :=
         start (mkRuntimeConfig text (opt_outbound_tag options) listen) now (ClientRuntime_default now0) in
       (plan <-! sm_lift (map_err (fun error => "runtime start failed: " +:+ client_error_debug str_debug error) started);
        runtime <-! sm_lift (mixed_runtime_from_subscription_config_text_with_dns_options profile_error_text text
                               (opt_block_domains options) (opt_relay_options options)
                               (Some (selected_outbound plan)) (opt_dns_options options));
        let runtime :=
          runtime <| runtime_tun_tcp_max_active_sessions := opt_tun_tcp_max_active_sessions options |>
                  <| runtime_max_connection_workers := Z.max (opt_max_connection_workers options) 1 |> in
        guard <-! (if opt_system_proxy options then
                     guard <-! apply_system_proxy_for_listener (Ok listen_addr) (opt_system_proxy_bypass options);
                     sm_ret (Some guard)
                   else sm_ret None);
        sm_ret (mkSession state listen_addr runtime (opt_block_domains options) (opt_relay_options options)
                  (opt_dns_options options) (opt_tun_tcp_max_active_sessions options) guard)) w) w.

(** [ManagedMixedSession::selected_outbound]. *)
Definition session_selected_outbound (self : ManagedMixedSession) : option string :=
  match status (session_state self) with Running _ selected _ => Some selected | _ => None end.

(** [ManagedMixedSession::stop]. *)
Definition session_stop (self : ManagedMixedSession) : SM W string ClientRuntime :=
  fun w =>
    let '(w, restore_result) := restore_guard (session_proxy_guard self) w in
    let '(w, now) := read_clock w in
    (w, _ <-? restore_result; Ok (stop now (session_state self))).

(** [ManagedMixedSession::serve]. *)
Definition session_serve (once : bool) (self : ManagedMixedSession) : SM W string ClientRuntime :=
  fun w =>
    match with_context "listen-mixed failed: " id (serve_listener once (session_runtime self)) w with
    | (w, Panic) => (w, Panic)
    | (w, serve_result) =>
        let '(w, stop_result) := session_stop self w in
        (w, '(_, state) <-? both_outcomes serve_result stop_result; Ok state)
    end.

(** [serve_with_optional_tun_controller_report]. *)
Definition session_serve_with_tun (once : bool) (tun_device : option TunDeviceConfig) (self : ManagedMixedSession)
  : SM W string (ClientRuntime * option ManagedTunPacketLoopReport) :=
  fun w =>
    match run_with_optional_tun_runtime_background_report packet_loop tun_device
            (with_context "listen-mixed failed: " id (serve_listener once (session_runtime self))) w with
    | (w, Panic) => (w, Panic)
    | (w, serve_result) =>
        let '(w, stop_result) := session_stop self w in
        let '(w, now) := read_clock w in
        (w, '((_, tun_report), state) <-? both_outcomes serve_result stop_result;
            let state :=
              match tun_report with
              | Some report =>
                  record_status_diagnostic (managed_tun_runtime_report_note str_debug report)
                    (managed_tun_runtime_report_diagnostic str_debug report) now state
              | None => state
              end in
            Ok (state, tun_report))
    end.

(** The handle of a session whose listener is served. *)
Definition handle_of_session (self : ManagedMixedSession) (tun_runtime : option (ManagedTunBackgroundRuntime W))
  : ManagedMixedHandle :=
  mkHandle (session_state self) (session_listen_addr self) (session_selected_outbound self)
    (session_runtime self) (session_block_domains self) (session_relay_options self)
    (session_dns_options self) (session_tun_tcp_max_active_sessions self) ∅ None
    (session_proxy_guard self) tun_runtime.

Definition spawn_background (self : ManagedMixedSession) : SM W string ManagedMixedHandle :=
  sm_ret (handle_of_session self None).

Definition spawn_background_with_optional_tun_controller (tun_device : option TunDeviceConfig)
  (self : ManagedMixedSession) : SM W string ManagedMixedHandle :=
  match tun_device with
  | None => sm_ret (handle_of_session self None)
  | Some config =>
      fun w =>
        match start_managed_tun_background_runtime config w with
        | (w, Ok tun_runtime) => (w, Ok (handle_of_session self (Some tun_runtime)))
        | (w, Err error) =>
            match restore_guard (session_proxy_guard self) w with
            | (w, Ok _) => (w, Err error)
            | (w, Err restore_error) => (w, Err (error +:+ "; " +:+ restore_error))
            | (w, Panic) => (w, Panic)
            end
        | (w, Panic) => (w, Panic)
        end
  end.

(** ** The status *)

Definition MANAGED_MIXED_RECENT_EVENT_LIMIT : nat := 5.

(** The counters of [ManagedMixedStatusSnapshot] are a [ManagedGauges]; the limits that are
    constants of the program are left to it. *)
Record ManagedMixedStatusSnapshot : Type := mkStatus {
  st_status : RuntimeStatus;
  st_listen_addr : option SocketAddr;
  st_selected_outbound : option string;
  st_generation : Z;
  st_started_at : option Z;
  st_uptime : option Z;
  st_event_count : Z;
  st_retained_event_count : Z;
  st_recent_events : list RuntimeEvent;
  st_last_error : option ClientErrorKind;
  st_system_proxy : option SystemProxyConfig;
  st_subscription : option ManagedSubscriptionStatus;
  st_last_url_update : option ManagedSubscriptionUrlUpdateStatus;
  st_dns_options : MixedDnsOptions;
  st_tun_tcp_max_active_sessions : Z;
  st_max_connection_workers : Z;
  st_gauges : option ManagedGauges;
  st_available_connection_worker_slots : Z;
  st_panel_state : option PanelState
}.

(** [events.iter().rev().take(MANAGED_MIXED_RECENT_EVENT_LIMIT)]. *)
Definition recent_of (state : ClientRuntime) : list RuntimeEvent :=
  take MANAGED_MIXED_RECENT_EVENT_LIMIT (rev (events state)).

(** [ManagedMixedStatusSnapshot::stopped]. *)
Definition status_stopped (panel_state : option PanelState) : ManagedMixedStatusSnapshot :=
  mkStatus Stopped None None 0 None None 0 0 [] None None None None MixedDnsOptions_default
    DEFAULT_TUN_TCP_MAX_ACTIVE_SESSIONS DEFAULT_MANAGED_MIXED_MAX_CONNECTION_WORKERS None
    DEFAULT_MANAGED_MIXED_MAX_CONNECTION_WORKERS panel_state.

(** [ManagedMixedStatusSnapshot::from_handle]. *)
Definition status_from_handle (handle : ManagedMixedHandle) (panel_state : option PanelState) (w : W)
  : W * ManagedMixedStatusSnapshot :=
  let '(w, now) := read_clock w in
  let gauges := shared_gauges w in
  let state := handle_state handle in
  let workers := runtime_max_connection_workers (handle_runtime handle) in
  (w, mkStatus (status state) (Some (handle_listen_addr handle)) (handle_selected_outbound handle)
        (generation state) (started_at state) (uptime now state) (event_count state) (len (events state))
        (recent_of state) (last_error state) (guard_proxy_config <$> handle_proxy_guard handle)
        (subscription_status handle) (handle_last_url_update handle) (handle_dns_options handle)
        (handle_tun_tcp_max_active_sessions handle) workers (Some gauges)
        (Z.max 0 (Z.max workers 1 - gauge_active_connection_workers gauges)) panel_state).

(** No worker and no client is left; the peaks and the metrics stay. *)
Definition idle_gauges (gauges : ManagedGauges) : ManagedGauges :=
  mkGauges (gauge_metrics gauges) 0 (gauge_peak_connection_workers gauges) 0
    (gauge_peak_client_connections gauges).

(** [ManagedMixedStatusSnapshot::from_stopped_runtime]. *)
Definition status_from_stopped_runtime (state : ClientRuntime) (previous : ManagedMixedStatusSnapshot)
  (panel_state : option PanelState) (now : nat -> Z) : ManagedMixedStatusSnapshot :=
  mkStatus (status state) None None (generation state) (started_at state) (uptime now state)
    (event_count state) (len (events state)) (recent_of state) (last_error state) None None
    (st_last_url_update previous) (st_dns_options previous) (st_tun_tcp_max_active_sessions previous)
    (st_max_connection_workers previous) (idle_gauges <$> st_gauges previous)
    (st_max_connection_workers previous) panel_state.

Definition with_panel_state (panel_state : option PanelState) (self : ManagedMixedStatusSnapshot)
  : ManagedMixedStatusSnapshot :=
  mkStatus (st_status self) (st_listen_addr self) (st_selected_outbound self) (st_generation self)
    (st_started_at self) (st_uptime self) (st_event_count self) (st_retained_event_count self)
    (st_recent_events self) (st_last_error self) (st_system_proxy self) (st_subscription self)
    (st_last_url_update self) (st_dns_options self) (st_tun_tcp_max_active_sessions self)
    (st_max_connection_workers self) (st_gauges self) (st_available_connection_worker_slots self) panel_state.

(** ** The controller *)

Record ManagedMixedController : Type := mkController {
  ctl_handle : option ManagedMixedHandle;
  ctl_last_stopped_status : option ManagedMixedStatusSnapshot;
  ctl_panel_state : option PanelState
}.

Definition ManagedMixedController_new : ManagedMixedController := mkController None None None.

Definition is_running (self : ManagedMixedController) : bool := is_some (ctl_handle self).

Definition ControllerM (A : Type) : Type := SM (ManagedMixedController * W) string A.

Definition not_running : string := "managed mixed core is not running".
Definition already_running : string := "managed mixed core is already running".

(** [ManagedMixedController::status]. *)
Definition controller_status : ControllerM ManagedMixedStatusSnapshot :=
  fun s =>
    let c := s.1 in
    match ctl_handle c with
    | Some handle =>
        let '(w, status) := status_from_handle handle (ctl_panel_state c) s.2 in ((c, w), Ok status)
    | None =>
        (s, Ok match ctl_last_stopped_status c with
               | Some status => with_panel_state (ctl_panel_state c) status
               | None => status_stopped (ctl_panel_state c)
               end)
    end.

(** A method of the handle, if there is one. *)
Definition on_handle {A} (m : HandleM A) : ControllerM A :=
  fun s =>
    match ctl_handle s.1 with
    | None => (s, Err not_running)
    | Some handle =>
        let '((handle, w), r) := m (handle, s.2) in
        ((mkController (Some handle) (ctl_last_stopped_status s.1) (ctl_panel_state s.1), w), r)
    end.

(** [if let Some(handle) = self.handle.as_mut() { .. }]. *)
Definition if_handle (m : HandleM unit) : ControllerM unit :=
  fun s => match ctl_handle s.1 with Some _ => on_handle m s | None => (s, Ok tt) end.

Definition on_system {A} (m : SM W string A) : ControllerM A :=
  fun s => let '(w, r) := m s.2 in ((s.1, w), r).

Definition ensure_panel_allows_traffic : ControllerM unit :=
  fun s =>
    match ctl_panel_state s.1 ≫= traffic_restriction_error with
    | None => (s, Ok tt)
    | Some error =>
        (do! if_handle (record_panel_traffic_restricted error);
         fails ("managed mixed core traffic restricted by panel: " +:+ client_error_debug str_debug error)) s
    end.

Definition ensure_stopped : ControllerM unit :=
  fun s => (s, if is_running s.1 then Err already_running else Ok tt).

(** [self.handle = Some(..); self.last_stopped_status = None]. *)
Definition install_handle (handle : ManagedMixedHandle) : ControllerM unit :=
  sm_modify (fun s => (mkController (Some handle) None (ctl_panel_state s.1), s.2)).

(** [start_from_subscription_config_text]. *)
Definition controller_start (text : string) (options : ManagedMixedOptions)
  : ControllerM ManagedMixedStatusSnapshot :=
  if is_some (opt_tun_device options) then fails "managed mixed TUN start requires a TUN controller"
  else
    do! ensure_stopped;
    do! ensure_panel_allows_traffic;
    session <-! on_system (session_start text options);
    handle <-! on_system (spawn_background session);
    do! install_handle handle;
    controller_status.

(** [start_from_subscription_config_text_with_tun_controller]. *)
Definition controller_start_with_tun (text : string) (options : ManagedMixedOptions)
  : ControllerM ManagedMixedStatusSnapshot :=
  do! ensure_stopped;
  do! ensure_panel_allows_traffic;
  session <-! on_system (session_start text options);
  handle <-! on_system (spawn_background_with_optional_tun_controller (opt_tun_device options) session);
  do! install_handle handle;
  controller_status.

(** A method of the handle that the account must allow, then the status. *)
Definition allowed {A} (m : HandleM A) : ControllerM ManagedMixedStatusSnapshot :=
  do! ensure_panel_allows_traffic;
  do! on_handle m;
  controller_status.

Definition controller_reload (text : string) (outbound_tag : option string)
  : ControllerM ManagedMixedStatusSnapshot :=
  allowed (handle_reload text outbound_tag).

Definition controller_reload_with_update_plan (text : string)
  : ControllerM (SubscriptionUpdateReport * ManagedMixedStatusSnapshot * bool * option string) :=
  do! ensure_panel_allows_traffic;
  '(report, applied, error) <-! on_handle (handle_reload_with_update_plan text);
  status <-! controller_status;
  sm_ret (report, status, applied, error).

(** [ManagedSubscriptionUrlConfigUpdateOutcome]. *)
Record UrlConfigUpdateOutcome : Type := mkUrlOutcome {
  outcome_fetch : ManagedSubscriptionUrlFetchOutcome;
  outcome_update : option SubscriptionUpdateReport;
  outcome_status : ManagedMixedStatusSnapshot;
  outcome_applied : bool;
  outcome_error : option string;
  fetched_config_text : option string;
  applied_config_text : option string
}.

Definition clock_now : ControllerM Z :=
  fun s => let '(w, now) := read_clock s.2 in ((s.1, w), Ok (now 0%nat)).

(** [reload_from_subscription_url_with_update_plan_and_config_text]. *)
Definition controller_reload_from_url (url : string) (timeout max_bytes : Z) : ControllerM UrlConfigUpdateOutcome :=
  do! ensure_panel_allows_traffic;
  s <-! sm_get;
  if negb (is_running s.1) then fails not_running
  else
    fun s =>
      let '(w, (fetch, text)) := fetch_subscription_url_config_text url timeout max_bytes s.2 in
      match text with
      | None =>
          let message := "subscription URL fetch failed: " +:+ default "unknown" (fetch_error_kind fetch) in
          (at_ <-! clock_now;
           do! if_handle (record_subscription_url_fetch_rejected
                            (mkUrlUpdateStatus at_ fetch None false (Some message)) message);
           status <-! controller_status;
           sm_ret (mkUrlOutcome fetch None status false (Some message) None None)) (s.1, w)
      | Some text =>
          match controller_reload_with_update_plan text (s.1, w) with
          | (s, Ok (report, _, applied, error)) =>
              (at_ <-! clock_now;
               do! if_handle (record_subscription_url_update_status
                                (mkUrlUpdateStatus at_ fetch (Some report) applied error));
               status <-! controller_status;
               sm_ret (mkUrlOutcome fetch (Some report) status applied error (Some text)
                         (if applied then Some text else None))) s
          | (s, Err error) =>
              (at_ <-! clock_now;
               do! if_handle (record_subscription_url_update_status
                                (mkUrlUpdateStatus at_ fetch None false (Some error)));
               status <-! controller_status;
               sm_ret (mkUrlOutcome fetch None status false (Some error) (Some text) None)) s
          | (s, Panic) => (s, Panic)
          end
      end.

Definition controller_record_node_health (health : ManagedNodeHealthStatus)
  : ControllerM ManagedMixedStatusSnapshot :=
  do! on_handle (handle_record_node_health health);
  controller_status.

Definition controller_probe_node_health (tag : string) (options : ManagedNodeProbeSweepOptions)
  : ControllerM ManagedMixedStatusSnapshot :=
  allowed (handle_probe_node_health tag options).

Definition controller_probe_all_node_health (options : ManagedNodeProbeSweepOptions)
  : ControllerM ManagedMixedStatusSnapshot :=
  allowed (handle_probe_all_node_health options).

Definition controller_probe_and_apply (options : ManagedNodeProbeSweepOptions)
  : ControllerM ManagedMixedStatusSnapshot :=
  allowed (handle_probe_and_apply options).

Definition controller_apply_recommended : ControllerM ManagedMixedStatusSnapshot :=
  allowed handle_apply_recommended_outbound.

Definition set_panel_state (panel_state : option PanelState) : ControllerM unit :=
  sm_modify (fun s => (mkController (ctl_handle s.1) (ctl_last_stopped_status s.1) panel_state, s.2)).

(** [ManagedMixedController::record_panel_state]. *)
Definition controller_record_panel_state (panel_state : PanelState) : ControllerM ManagedMixedStatusSnapshot :=
  do! if_handle (record_panel_state_note panel_state);
  do! set_panel_state (Some panel_state);
  controller_status.

Definition clear_panel_state : ControllerM ManagedMixedStatusSnapshot :=
  do! if_handle record_panel_state_cleared;
  do! set_panel_state None;
  controller_status.

(** [ManagedMixedController::stop]: the handle is taken before it is stopped. *)
Definition controller_stop : ControllerM ClientRuntime :=
  fun s =>
    match ctl_handle s.1 with
    | None => (s, Err not_running)
    | Some handle =>
        let c := mkController None (ctl_last_stopped_status s.1) (ctl_panel_state s.1) in
        let '(w, pre_stop_status) := status_from_handle handle (ctl_panel_state s.1) s.2 in
        match handle_stop handle w with
        | (w, Ok state) =>
            let '(w, now) := read_clock w in
            ((mkController None
                (Some (status_from_stopped_runtime state pre_stop_status (ctl_panel_state c) now))
                (ctl_panel_state c), w), Ok state)
        | (w, Err error) => ((c, w), Err error)
        | (w, Panic) => ((c, w), Panic)
        end
    end.

End Managed.

Arguments ManagedMixedHandle W {_ _}.
Arguments HandleM W {_ _} A.
Arguments ManagedMixedController W {_ _}.
Arguments ControllerM W {_ _} A.
