(* ===== verification/ManagedSpec.v ===== *)
(** * What the managed core promises

    The recommendation is the best healthy node; the handle of a running core keeps its
    parts in step through every operation, and a rejected reload touches nothing of the
    traffic; the account stops the operations that would need traffic; a device and a proxy
    that were set up are taken down again, and where the code does not do so. *)

From stdpp Require Import base strings list numbers gmap.
From S2P Require Import Prelude.
From S2P Require Import StdNet.
From S2P Require Import StdIo.
From S2P Require Import TunSession.
From S2P Require Import TunSummary.
From S2P Require Import Relay.
From S2P Require Import Subscription.
From S2P Require Import SubscriptionSpec.
From S2P Require Import MixedMetrics.
From S2P Require Import Mixed.
From S2P Require Import MixedConfig.
From S2P Require Import Registry.
From S2P Require Import HttpSpec.
From S2P Require Import MixedSpec.
From S2P Require Import ClientCore.
From S2P Require Import ClientRuntime.
From S2P Require Import ClientSpec.
From S2P Require Import Platform.
From S2P Require Import TunText.
From S2P Require Import ManagedHealth.
From S2P Require Import ManagedTun.
From S2P Require Import ManagedMixed.
#[local] Open Scope Z_scope.

(** ** The recommendation *)

Lemma min_by_key_spec {A} (key : A -> Z * bool * Z) (l : list A) :
  match min_by_key key l with
  | None => l = []
  | Some a => exists before after, l = before ++ a :: after /\
      Forall (fun b => key_ltb (key a) (key b) = true) before /\
      Forall (fun b => key_ltb (key b) (key a) = false) after
  end.
Proof.
  assert (Htrans : forall x y z, key_ltb x y = false -> key_ltb y z = false -> key_ltb x z = false).
  { intros [[r1 n1] l1] [[r2 n2] l2] [[r3 n3] l3]. unfold key_ltb. destruct n1, n2, n3; cbn; lia. }
  assert (Hmix : forall x y z, key_ltb x y = true -> key_ltb x z = false -> key_ltb y z = false).
  { intros [[r1 n1] l1] [[r2 n2] l2] [[r3 n3] l3]. unfold key_ltb. destruct n1, n2, n3; cbn; lia. }
  induction l as [|a l IH]; [done|]. cbn [min_by_key]. destruct (min_by_key key l) as [b|].
  - destruct IH as (before & after & -> & Hb & Ha). destruct (key_ltb (key b) (key a)) eqn:E.
    + exists (a :: before), after. split_and!; [done| |done]. by constructor.
    + exists [], (before ++ b :: after). split_and!; [done|constructor|].
      apply Forall_app. split; [|constructor; [done|]].
      * eapply Forall_impl; [exact Hb|]. cbn. intros c Hc. by apply (Hmix (key b)).
      * eapply Forall_impl; [exact Ha|]. cbn. intros c Hc. by apply (Htrans _ (key b)).
  - subst l. exists [], []. by split_and!.
Qed.

(** The recommended node is healthy, can carry TCP, and no such node of the subscription
    ranks before it, where a node with UDP ranks before one of which it is not known, and
    that before one without, then a measured latency before none and the lower before the
    higher; among equals it is the first. Without such a node it is the one selected. *)
Theorem recommended_outbound_best (node_health : list ManagedNodeHealthStatus) (selected : string) :
  match min_by_key recommendation_key (List.filter recommendable node_health) with
  | Some best =>
      recommend_managed_outbound_from_health node_health selected = health_tag best /\
      In best node_health /\ health_state best = NodeHealthy /\ health_tcp_available best <> Some false /\
      exists before after, List.filter recommendable node_health = before ++ best :: after /\
        Forall (fun other => key_ltb (recommendation_key best) (recommendation_key other) = true) before /\
        Forall (fun other => key_ltb (recommendation_key other) (recommendation_key best) = false) after
  | None =>
      recommend_managed_outbound_from_health node_health selected = selected /\
      forall health, In health node_health -> recommendable health = false
  end.
Proof.
  unfold recommend_managed_outbound_from_health.
  pose proof (min_by_key_spec recommendation_key (List.filter recommendable node_health)) as Hs.
  destruct (min_by_key _ _) as [best|].
  - destruct Hs as (before & after & Hl & Hb & Ha).
    assert (Hin : In best (List.filter recommendable node_health)) by (rewrite Hl; apply in_elt).
    apply filter_In in Hin as [Hin Hr]. unfold recommendable in Hr. apply andb_true_iff in Hr as [Hh Ht].
    apply bool_decide_eq_true in Hh. split_and!; [done..| |by eauto].
    intros E. by rewrite bool_decide_eq_true_2 in Ht.
  - split; [done|]. intros health Hin. destruct (recommendable health) eqn:E; [|done].
    assert (H : In health (List.filter recommendable node_health)) by (by apply filter_In). by rewrite Hs in H.
Qed.

(** ** The summary *)

Definition counts_from (c c' : HealthCounters) (n : Z) : Prop :=
  c_healthy c' + c_unhealthy c' + c_unknown c' = c_healthy c + c_unhealthy c + c_unknown c + n /\
  c_udp_available c' + c_udp_unavailable c' + c_udp_unknown c' =
    c_udp_available c + c_udp_unavailable c + c_udp_unknown c + n /\
  c_checked c <= c_checked c' <= c_checked c + n.

Lemma count_health_counts c health : counts_from c (count_health c health) 1.
Proof.
  unfold counts_from, count_health.
  destruct health as [tag [] tcp [[]|] lat ek ed [at_|]]; cbn; lia.
Qed.

Lemma count_all_counts node_health c : counts_from c (foldl count_health c node_health) (len node_health).
Proof.
  revert c. induction node_health as [|health l IH]; intros c; cbn [foldl].
  - unfold counts_from, len. cbn. lia.
  - pose proof (IH (count_health c health)) as H1. pose proof (count_health_counts c health) as H2.
    unfold counts_from in *. rewrite len_cons. lia.
Qed.

(** Each node is counted once by its state and once by its UDP, and the nodes that were
    checked and those that were not are all of them. *)
Lemma health_summary_adds_up node_health selected recommended :
  let s := from_node_health node_health selected recommended in
  healthy_count s + unhealthy_count s + unknown_count s = len node_health /\
  udp_available_count s + udp_unavailable_count s + udp_unknown_count s = len node_health /\
  checked_count s + unchecked_count s = len node_health /\
  (recommended_switch_ready s = true <->
   selected <> recommended /\ exists health, health_of node_health recommended = Some health /\
     health_state health = NodeHealthy).
Proof.
  cbn. pose proof (count_all_counts node_health (mkHealthCounters 0 0 0 0 0 0 0 None)) as (H1 & H2 & H3).
  cbn in H1, H2, H3. fold (count_all node_health) in *. split_and!; [lia..|].
  rewrite andb_true_iff, negb_true_iff, String.eqb_neq. split.
  - intros [Hne Hh]. split; [done|]. destruct (health_of node_health recommended) as [health|]; [|done].
    exists health. split; [done|]. cbn in Hh. by destruct (health_state health).
  - intros [Hne (health & -> & Hs)]. split; [done|]. cbn. by rewrite Hs.
Qed.

(** ** The handle *)

Create HintDb managed.

Section Handle.
Context {W : Type} {System : ManagedSystem W} {Proxy : SystemProxyController W}
  `{Packets : TunPacketIoController W} {L : ShareLibrary}.

Definition runtime_for (h : ManagedMixedHandle W) (text selected : string) : result string MixedProxyRuntime :=
  mixed_runtime_from_subscription_config_text_with_dns_options profile_error_text text
    (handle_block_domains h) (handle_relay_options h) (Some selected) (handle_dns_options h).

(** The parts of a handle are in step: the runtime of the client runs the plan of its
    configuration on the address of the listener, the outbound that is shown and the routes
    of the traffic are the plan's, and health is known of nodes of the plan only, under
    their own tags. *)
Definition handle_ok (h : ManagedMixedHandle W) : Prop :=
  exists plan config generation runtime,
    status (handle_state h) = running generation plan /\
    active_plan (handle_state h) = Some plan /\ active_config (handle_state h) = Some config /\
    plan_of config = Ok plan /\ config_listen config = socket_addr_to_string (handle_listen_addr h) /\
    handle_selected_outbound h = Some (selected_outbound plan) /\
    runtime_for h (config_text config) (selected_outbound plan) = Ok runtime /\
    handle_runtime h = next_runtime h runtime /\
    (forall tag health, handle_node_health h !! tag = Some health ->
       health_tag health = tag /\ has_tag tag (supported_tags (plan_preflight plan)) = true).

(** Only the history of the client's runtime differs. *)
Definition same_core (s s' : ClientRuntime) : Prop :=
  status s' = status s /\ active_plan s' = active_plan s /\ active_config s' = active_config s.

Lemma push_event_core event s : same_core s (push_event event s).
Proof. rewrite push_event_eq. by split_and!. Qed.

Definition traffic_unchanged (h h' : ManagedMixedHandle W) : Prop :=
  same_core (handle_state h) (handle_state h') /\
  h' = h <| handle_state := handle_state h' |> <| handle_last_url_update := handle_last_url_update h' |>.

Lemma traffic_refl h : traffic_unchanged h h.
Proof. split; [by split_and!|]. by destruct h. Qed.

Lemma traffic_trans h1 h2 h3 : traffic_unchanged h1 h2 -> traffic_unchanged h2 h3 -> traffic_unchanged h1 h3.
Proof.
  intros [(A1 & A2 & A3) E1] [(B1 & B2 & B3) E2]. split.
  - split_and!; congruence.
  - rewrite E2, E1. by destruct h1.
Qed.

Lemma traffic_ok h h' : traffic_unchanged h h' -> handle_ok h -> handle_ok h'.
Proof.
  intros [(A1 & A2 & A3) E] (plan & config & g & runtime & Hparts).
  exists plan, config, g, runtime. rewrite A1, A2, A3. rewrite E. exact Hparts.
Qed.

(** [m] leaves the traffic alone, whatever it gives. *)
Definition harmless {A} (m : HandleM W A) : Prop :=
  forall h w h' w' r, m (h, w) = ((h', w'), r) -> traffic_unchanged h h'.

Lemma harmless_bind {A B} (m : HandleM W A) (k : A -> HandleM W B) :
  harmless m -> (forall a, harmless (k a)) -> harmless (sm_bind m k).
Proof.
  intros Hm Hk h w h' w' r. unfold sm_bind. destruct (m (h, w)) as [[h1 w1] [a| |]] eqn:E; apply Hm in E.
  - intros H1. eapply traffic_trans; [exact E|]. by eapply Hk.
  - by intros [= <- _ _].
  - by intros [= <- _ _].
Qed.

Lemma harmless_lift {A} (r : result string A) : harmless (sm_lift r).
Proof. intros h w h' w' r'. intros [= <- _ _]. apply traffic_refl. Qed.

Lemma harmless_ret {A} (a : A) : harmless (sm_ret a).
Proof. apply (harmless_lift (Ok a)). Qed.

Lemma on_state_eq f h w :
  on_state f (h, w) =
    ((h <| handle_state := f (snd (read_clock w)) (handle_state h) |>, fst (read_clock w)), Ok tt).
Proof. unfold on_state. cbn. by destruct (read_clock w). Qed.

Lemma harmless_state f :
  (forall now s, same_core s (f now s)) -> harmless (on_state f).
Proof.
  intros Hf h w h' w' r. unfold on_state. cbn. destruct (read_clock w) as [w1 now]. intros [= <- _ _].
  split; [apply Hf|]. by destruct h.
Qed.

Lemma harmless_note note : harmless (status_note note).
Proof. apply harmless_state. intros now s. apply push_event_core. Qed.

Lemma harmless_rejected error : harmless (on_state (record_reload_rejected error)).
Proof. apply harmless_state. intros now s. apply push_event_core. Qed.

Lemma harmless_url_status status : harmless (record_subscription_url_update_status status).
Proof.
  apply harmless_bind; [apply harmless_note|]. intros _ h w h' w' r [= <- _ _]. split; [by split_and!|].
  by destruct h.
Qed.

Lemma harmless_url_rejected status message : harmless (record_subscription_url_fetch_rejected status message).
Proof.
  apply harmless_bind; [apply harmless_rejected|]. intros _. apply harmless_bind; [apply harmless_note|].
  intros _ h w h' w' r [= <- _ _]. split; [by split_and!|]. by destruct h.
Qed.

Lemma reload_rejected_core config now s error :
  plan_of config = Err error -> same_core s (reload config now s).1.
Proof.
  intros Hp. unfold reload. rewrite Hp. cbn [fst]. rewrite push_event_eq. by split_and!.
Qed.

(** What a reload of the client's runtime leaves. *)
Lemma reload_accepted config now s plan :
  plan_of config = Ok plan ->
  exists generation, status (reload config now s).1 = running generation plan /\
    active_plan (reload config now s).1 = Some plan /\ active_config (reload config now s).1 = Some config.
Proof.
  intros Hp. unfold reload. rewrite Hp. cbn [expect_plan fst]. rewrite push_event_eq. cbn. by eexists.
Qed.

Lemma state_reload_eq config h w :
  state_reload config (h, w) =
    ((h <| handle_state := (reload config (snd (read_clock w)) (handle_state h)).1 |>, fst (read_clock w)),
     Ok (plan_of config)).
Proof.
  unfold state_reload. cbn. destruct (read_clock w) as [w1 now]. cbn.
  pose proof (reload_answer config now (handle_state h)) as Ha.
  destruct (reload config now (handle_state h)) as [state r]. cbn in Ha. by subst r.
Qed.

Lemma runtime_for_total h text selected : runtime_for h text selected <> Panic.
Proof.
  unfold runtime_for, mixed_runtime_from_subscription_config_text_with_dns_options,
    mixed_runtime_from_parsed_profiles.
  pose proof (subscription_valid text) as Hv.
  destruct (parse_subscription_outbound_profiles text) as [parsed| |]; cbn; [|done..].
  case_match; [done|]. pose proof (from_profiles_returns (parsed_profiles parsed)).
  by destruct (from_profiles (parsed_profiles parsed)).
Qed.

(** The outcome of a reload: rejected with the traffic as it was, or the plan and the
    runtime of the new text. *)
Lemma handle_reload_outcome text tag h w h' w' r :
  handle_ok h -> handle_reload text tag (h, w) = ((h', w'), r) ->
  match r with
  | Ok _ =>
      exists plan runtime,
        build_connection_plan text tag (socket_addr_to_string (handle_listen_addr h)) = Ok plan /\
        runtime_for h text (selected_outbound plan) = Ok runtime /\ handle_ok h' /\
        handle_runtime h' = next_runtime h runtime /\ handle_selected_outbound h' = Some (selected_outbound plan) /\
        config_text <$> active_config (handle_state h') = Some text /\
        (forall tag, handle_node_health h' !! tag =
           if has_tag tag (supported_tags (plan_preflight plan)) then handle_node_health h !! tag else None)
  | Err _ =>
      traffic_unchanged h h' /\
      ((exists error, build_connection_plan text tag (socket_addr_to_string (handle_listen_addr h)) = Err error) \/
       exists plan error,
         build_connection_plan text tag (socket_addr_to_string (handle_listen_addr h)) = Ok plan /\
         runtime_for h text (selected_outbound plan) = Err error)
  | Panic => False
  end.
Proof.
  intros Hok. unfold handle_reload, sm_bind at 1, sm_get. cbn [fst].
  set (listen := socket_addr_to_string (handle_listen_addr h)).
  set (config := mkRuntimeConfig text tag listen).
  assert (Hplan : plan_of config = build_connection_plan text tag listen) by done.
  destruct (build_connection_plan text tag listen) as [plan|error|] eqn:Eb.
  2: { unfold sm_bind. rewrite state_reload_eq. intros [= <- _ <-]. split; [|by left; exists error].
       split; [|by destruct h]. apply (reload_rejected_core config _ (handle_state h) error Hplan). }
  2: { exfalso. by apply (build_connection_plan_total text tag listen). }
  fold (runtime_for h text (selected_outbound plan)).
  destruct (runtime_for h text (selected_outbound plan)) as [runtime|error|] eqn:Er.
  - unfold sm_bind, modify_handle at 1, sm_modify. cbn [fst snd]. rewrite state_reload_eq, Hplan.
    unfold modify_handle, prune_node_health_to_active_plan, sm_modify. cbn [fst snd].
    destruct (reload_accepted config (snd (read_clock w)) (handle_state h) plan Hplan) as (g & Hs & Hp & Hc).
    intros [= <- _ <-]. exists plan, runtime.
    assert (Hhealth : forall tag0,
      base.filter (fun '(t, _) => has_tag t (supported_tags (plan_preflight plan)) = true) (handle_node_health h) !! tag0 =
      if has_tag tag0 (supported_tags (plan_preflight plan)) then handle_node_health h !! tag0 else None).
    { intros tag0. destruct (has_tag tag0 _) eqn:Et.
      - destruct (handle_node_health h !! tag0) as [health|] eqn:El.
        + apply map_lookup_filter_Some. by split.
        + apply map_lookup_filter_None. by left.
      - apply map_lookup_filter_None. right. intros health _. by rewrite Et. }
    cbn. rewrite Hp, ?Hc. split_and!; try done.
    exists plan, config, g, runtime. cbn. rewrite Hp. split_and!; try done.
    intros tag0 health Hl. rewrite Hhealth in Hl. destruct (has_tag tag0 _); [|done].
    destruct Hok as (? & ? & ? & ? & _ & _ & _ & _ & _ & _ & _ & _ & Hh). split; [by eapply Hh|done].
  - unfold sm_bind. destruct (on_state _ (h, w)) as [[h1 w1] [[]|error'|]] eqn:Es.
    + apply harmless_rejected in Es. intros [= <- _ <-]. split; [done|]. right. by exists plan, error.
    + by rewrite on_state_eq in Es.
    + by rewrite on_state_eq in Es.
  - by apply runtime_for_total in Er.
Qed.

(** ** Operations keep the handle in step *)

(** From a handle with [P], [m] leaves one with [Q] if it succeeds and one in step if not. *)
Definition keeps {A} (P Q : ManagedMixedHandle W -> Prop) (m : HandleM W A) : Prop :=
  forall h w, P h ->
    match m (h, w) with
    | ((h', _), Ok _) => Q h'
    | ((h', _), _) => handle_ok h'
    end.

Lemma keeps_then {A B} P R Q (m : HandleM W A) (k : A -> HandleM W B) :
  keeps P R m -> (forall a, keeps R Q (k a)) -> keeps P Q (sm_bind m k).
Proof.
  intros Hm Hk h w HP. specialize (Hm h w HP). unfold sm_bind.
  destruct (m (h, w)) as [[h1 w1] [a| |]]; [by apply Hk|done..].
Qed.

Lemma keeps_harmless {A} (m : HandleM W A) : harmless m -> keeps handle_ok handle_ok m.
Proof.
  intros Hm h w Hok. destruct (m (h, w)) as [[h' w'] r] eqn:E. apply Hm in E.
  pose proof (traffic_ok _ _ E Hok). by destruct r.
Qed.

Lemma keeps_any {A} P Q (m : HandleM W A) : keeps P Q m -> (forall h, Q h -> handle_ok h) ->
  forall h w, P h -> handle_ok (m (h, w)).1.1.
Proof. intros Hm HQ h w HP. specialize (Hm h w HP). destruct (m (h, w)) as [[h' w'] [a| |]]; auto. Qed.

(** [m] does not touch the handle. *)
Definition reads {A} (m : HandleM W A) : Prop := forall h w, (m (h, w)).1.1 = h.

Lemma keeps_reads {A} (P : ManagedMixedHandle W -> Prop) (m : HandleM W A) :
  (forall h, P h -> handle_ok h) -> reads m -> keeps P P m.
Proof.
  intros HP Hm h w H1. specialize (Hm h w). destruct (m (h, w)) as [[h' w'] [a| |]]; cbn in Hm; subst h'; auto.
Qed.

Lemma reads_result {A} (r : result string A) : reads (sm_lift r).
Proof. done. Qed.

Lemma reads_get : reads sm_get.
Proof. done. Qed.

Lemma reads_now : reads system_now.
Proof. intros h w. unfold system_now. cbn. by destruct (read_clock w). Qed.

Lemma reads_config_text : reads active_config_text.
Proof. done. Qed.

Lemma reads_world {A} (m : SM W string A) : reads (on_world m).
Proof. intros h w. unfold on_world. cbn. by destruct (m w). Qed.

Definition tag_ok (tag : string) (h : ManagedMixedHandle W) : Prop :=
  handle_ok h /\ exists plan, active_plan (handle_state h) = Some plan /\
    has_tag tag (supported_tags (plan_preflight plan)) = true.

Lemma tag_ok_ok tag h : tag_ok tag h -> handle_ok h.
Proof. by intros []. Qed.

Hint Resolve keeps_reads keeps_harmless reads_result reads_get reads_now reads_config_text reads_world
  harmless_note harmless_rejected harmless_lift harmless_ret tag_ok_ok : managed.

Lemma keeps_ensure_tag tag : keeps handle_ok (tag_ok tag) (ensure_active_subscription_tag tag).
Proof.
  intros h w Hok. unfold ensure_active_subscription_tag. cbn.
  destruct (active_plan (handle_state h)) as [plan|] eqn:Ep; [|done].
  destruct (has_tag tag _) eqn:Et; [|done]. split; [done|]. by exists plan.
Qed.

Lemma keeps_set_health tag health :
  health_tag health = tag -> keeps (tag_ok tag) handle_ok (set_node_health health).
Proof.
  intros <-. apply (keeps_then _ handle_ok); [|auto with managed].
  intros h w [(plan & config & g & runtime & Hs & Hp & Hc & Hpl & Hl & Hsel & Hr & Hrt & Hh) (plan' & Hp' & Ht)].
  cbn. exists plan, config, g, runtime. split_and!; try done.
  intros tag health'. cbn. destruct (decide (tag = health_tag health)) as [->|Hne].
  - rewrite lookup_insert_eq. intros [= <-]. split; congruence.
  - rewrite lookup_insert_ne by done. apply Hh.
Qed.

Lemma keeps_record_health health : keeps handle_ok handle_ok (handle_record_node_health health).
Proof. eapply keeps_then; [apply keeps_ensure_tag|]. intros _. by apply keeps_set_health. Qed.

Lemma keeps_probe tag options : keeps handle_ok handle_ok (handle_probe_node_health tag options).
Proof.
  eapply keeps_then; [apply keeps_ensure_tag|]. intros _.
  eapply keeps_then; [by eauto using keeps_reads, tag_ok_ok, reads_config_text|]. intros text h w Hok.
  pose proof (reads_world (smoke_connect text tag options) h w) as Hw.
  destruct (on_world (smoke_connect text tag options) (h, w)) as [[h1 w1] [[first connect]|error|]];
    cbn in Hw; subst h1; [| |by eapply tag_ok_ok].
  - revert Hok. generalize w1 as w2. clear w w1. intros w. revert h w.
    eapply keeps_then; [apply keeps_reads; [eauto using tag_ok_ok|]|].
    { destruct (probe_udp_probe options); [|done]. intros h w. cbn. by destruct (probe_udp _ _ _ _ w). }
    intros udp. eapply keeps_then; [by eauto using keeps_reads, tag_ok_ok, reads_now|]. intros at_.
    by apply keeps_set_health.
  - revert Hok. generalize w1 as w2. clear w w1. intros w. revert h w.
    eapply keeps_then; [by eauto using keeps_reads, tag_ok_ok, reads_now|]. intros at_.
    eapply keeps_then; [by apply keeps_set_health|]. intros _. by apply keeps_reads.
Qed.

Lemma keeps_probe_each tags options successful failed :
  keeps handle_ok handle_ok (probe_each tags options successful failed).
Proof.
  revert successful failed. induction tags as [|tag tags IH]; intros successful failed.
  - apply keeps_harmless, harmless_ret.
  - intros h w Hok. cbn [probe_each]. pose proof (keeps_probe tag options h w Hok) as Hp.
    destruct (handle_probe_node_health tag options (h, w)) as [[h1 w1] [a| |]]; [by apply IH..|done].
Qed.

Lemma keeps_probe_all options : keeps handle_ok handle_ok (handle_probe_all_node_health options).
Proof.
  eapply keeps_then; [by eauto with managed|]. intros started. eapply keeps_then; [by eauto with managed|].
  intros s. eapply keeps_then; [by eauto with managed|]. intros plan.
  cbn zeta. case_match; [by apply keeps_harmless, harmless_lift|].
  eapply keeps_then; [apply keeps_probe_each|]. intros [successful failed].
  eapply keeps_then; [by eauto with managed|]. intros s'.
  destruct (subscription_status s'.1); [|apply keeps_harmless, harmless_ret].
  eapply keeps_then; [by eauto with managed|]. intros ended.
  apply keeps_harmless, harmless_state. intros now state. apply push_event_core.
Qed.

Lemma keeps_reload text tag : keeps handle_ok handle_ok (handle_reload text tag).
Proof.
  intros h w Hok. destruct (handle_reload text tag (h, w)) as [[h' w'] r] eqn:E.
  apply handle_reload_outcome in E; [|done]. destruct r as [[]|error|].
  - by destruct E as (plan & runtime & _ & _ & Hok' & _).
  - eapply traffic_ok; [apply E|done].
  - done.
Qed.

Hint Resolve keeps_reload keeps_probe_all : managed.

Lemma keeps_apply_recommended : keeps handle_ok handle_ok handle_apply_recommended_outbound.
Proof.
  eapply keeps_then; [by eauto with managed|]. intros s. eapply keeps_then; [by eauto with managed|].
  intros plan. cbn zeta. case_match; [by apply keeps_harmless, harmless_note|].
  eapply keeps_then; [by apply keeps_harmless, harmless_note|]. intros _.
  eapply keeps_then; [by eauto with managed|]. intros text. auto with managed.
Qed.

Lemma keeps_probe_and_apply options : keeps handle_ok handle_ok (handle_probe_and_apply options).
Proof. eapply keeps_then; [apply keeps_probe_all|]. intros _. apply keeps_apply_recommended. Qed.

Lemma keeps_update_plan text : keeps handle_ok handle_ok (handle_reload_with_update_plan text).
Proof.
  eapply keeps_then; [by eauto with managed|]. intros s. case_match.
  - case_match.
    + eapply keeps_then; [by auto with managed|]. intros _.
      eapply keeps_then; [by apply keeps_harmless, harmless_note|]. intros _. apply keeps_harmless, harmless_ret.
    + eapply keeps_then; [by apply keeps_harmless, harmless_rejected|]. intros _.
      eapply keeps_then; [by apply keeps_harmless, harmless_note|]. intros _. apply keeps_harmless, harmless_ret.
  - eapply keeps_then; [by apply keeps_harmless, harmless_rejected|]. intros _. apply keeps_harmless, harmless_lift.
  - apply keeps_harmless, harmless_lift.
Qed.

(** ** The session *)

Lemma start_accepted config now s plan :
  plan_of config = Ok plan ->
  exists generation, status (start config now s).1 = running generation plan /\
    active_plan (start config now s).1 = Some plan /\ active_config (start config now s).1 = Some config.
Proof.
  intros Hp. unfold start. rewrite Hp. cbn [expect_plan fst]. rewrite push_event_eq. cbn. by eexists.
Qed.

Lemma session_start_ok text options w w' session tun :
  session_start text options w = (w', Ok session) ->
  handle_ok (handle_of_session session tun) /\
  exists listen, active_config (session_state session) =
                 Some (mkRuntimeConfig text (opt_outbound_tag options) listen).
Proof.
  unfold session_start. intros (w1 & bound & _ & H1)%sm_bind_Ok.
  apply sm_bind_Ok in H1 as (w2 & addr & _ & H1).
  destruct (read_clock w2) as [w3 now0]. destruct (read_clock w3) as [w4 now].
  set (config := mkRuntimeConfig text (opt_outbound_tag options) (socket_addr_to_string addr)) in *.
  pose proof (start_answer config now (ClientRuntime_default now0)) as Ha.
  pose proof (start_accepted config now (ClientRuntime_default now0)) as Hst.
  destruct (start config now (ClientRuntime_default now0)) as [state started]. cbn in Ha, Hst.
  apply sm_bind_Ok in H1 as (w5 & plan & [= _ Hplan] & H1).
  destruct started as [plan'| |]; [|done..]. injection Hplan as ->.
  destruct (Hst plan) as (g & Hs & Hp & Hc); [done|].
  apply sm_bind_Ok in H1 as (w6 & runtime & [= _ Hrt] & H1).
  apply sm_bind_Ok in H1 as (w7 & guard & _ & [= _ <-]). split; [|by exists (socket_addr_to_string addr)].
  exists plan, config, g, runtime. unfold handle_of_session, session_selected_outbound. cbn.
  rewrite Hs, Hp, Hc. unfold runtime_for, next_runtime. cbn. rewrite Hrt. split_and!; try done.
Qed.

(** ** The controller *)

Definition controller_ok (c : ManagedMixedController W) : Prop :=
  match ctl_handle c with Some h => handle_ok h | None => True end.

Definition steady {A} (m : ControllerM W A) : Prop :=
  forall c w, controller_ok c -> controller_ok (m (c, w)).1.1.

Lemma steady_bind {A B} (m : ControllerM W A) (k : A -> ControllerM W B) :
  steady m -> (forall a, steady (k a)) -> steady (sm_bind m k).
Proof.
  intros Hm Hk c w Hok. specialize (Hm c w Hok). unfold sm_bind.
  destruct (m (c, w)) as [[c1 w1] [a| |]]; [by apply Hk|done..].
Qed.

Lemma steady_lift {A} (r : result string A) : steady (sm_lift r).
Proof. by intros c w. Qed.

Lemma steady_ret {A} (a : A) : steady (sm_ret a).
Proof. by intros c w. Qed.

Lemma steady_get : steady sm_get.
Proof. by intros c w. Qed.

Lemma steady_status : steady controller_status.
Proof.
  intros c w Hok. unfold controller_status. cbn. destruct (ctl_handle c) eqn:E; [|done].
  by destruct (status_from_handle _ _ w).
Qed.

Lemma steady_clock : steady clock_now.
Proof. intros c w Hok. unfold clock_now. cbn. by destruct (read_clock w). Qed.

Lemma steady_handle {A} (m : HandleM W A) : keeps handle_ok handle_ok m -> steady (on_handle m).
Proof.
  intros Hm c w Hok. unfold on_handle, controller_ok in *. cbn. destruct (ctl_handle c) as [h|] eqn:E.
  - specialize (Hm h w Hok). destruct (m (h, w)) as [[h' w'] [a| |]]; done.
  - cbn. by rewrite E.
Qed.

Lemma steady_if_handle (m : HandleM W unit) : harmless m -> steady (if_handle m).
Proof.
  intros Hm c w Hok. unfold if_handle. cbn. destruct (ctl_handle c) eqn:E; [|done].
  apply steady_handle; [by apply keeps_harmless|done].
Qed.

Lemma steady_system {A} (m : SM W string A) : steady (on_system m).
Proof. intros c w Hok. unfold on_system. cbn. by destruct (m w). Qed.

Lemma harmless_restricted error : harmless (record_panel_traffic_restricted error).
Proof. apply harmless_state. intros now s. apply push_event_core. Qed.

Lemma steady_panel : steady ensure_panel_allows_traffic.
Proof.
  intros c w. unfold ensure_panel_allows_traffic. cbn. destruct (ctl_panel_state c ≫= _); [|done].
  apply steady_bind; [apply steady_if_handle, harmless_restricted|intros _; apply steady_lift].
Qed.

Lemma steady_allowed {A} (m : HandleM W A) : keeps handle_ok handle_ok m -> steady (allowed m).
Proof.
  intros Hm. apply steady_bind; [apply steady_panel|]. intros _.
  apply steady_bind; [by apply steady_handle|]. intros _. apply steady_status.
Qed.

Lemma steady_ensure_stopped : steady ensure_stopped.
Proof. by intros c w. Qed.

Hint Resolve steady_lift steady_ret steady_get steady_status steady_clock steady_system steady_panel
  steady_ensure_stopped harmless_url_status harmless_url_rejected steady_if_handle : managed.

Lemma steady_reload_with_update_plan text : steady (controller_reload_with_update_plan text).
Proof.
  apply steady_bind; [auto with managed|]. intros _.
  apply steady_bind; [apply steady_handle, keeps_update_plan|]. intros [[report applied] error].
  apply steady_bind; auto with managed.
Qed.

Lemma steady_reload_from_url url timeout max_bytes : steady (controller_reload_from_url url timeout max_bytes).
Proof.
  apply steady_bind; [auto with managed|]. intros _. apply steady_bind; [auto with managed|]. intros s.
  case_match; [auto with managed|]. intros c w Hok. cbn.
  destruct (fetch_subscription_url_config_text url timeout max_bytes w) as [w1 [fetch [text|]]].
  - pose proof (steady_reload_with_update_plan text c w1 Hok) as Hc.
    destruct (controller_reload_with_update_plan text (c, w1)) as [[c1 w2] [[[[report st] applied] error]|error|]];
      [revert Hc; revert c1 w2..|done].
    + repeat (apply steady_bind; [auto with managed|intros ?]). auto with managed.
    + repeat (apply steady_bind; [auto with managed|intros ?]). auto with managed.
  - revert Hok. revert c w1. repeat (apply steady_bind; [auto with managed|intros ?]). auto with managed.
Qed.

(** The start of both kinds: the handle that is installed is the one of a session. *)
Lemma steady_install text options (spawn : ManagedMixedSession -> SM W string (ManagedMixedHandle W)) :
  (forall session w w' h, spawn session w = (w', Ok h) -> exists tun, h = handle_of_session session tun) ->
  steady (session <-! on_system (session_start text options);
          handle <-! on_system (spawn session);
          do! install_handle handle;
          controller_status).
Proof.
  intros Hspawn c w Hok. unfold sm_bind at 1. unfold on_system at 1. cbn [fst snd].
  destruct (session_start text options w) as [w1 [session| |]] eqn:Es; [|done..].
  unfold sm_bind at 1. unfold on_system. cbn [fst snd].
  destruct (spawn session w1) as [w2 [h| |]] eqn:Eh; [|done..].
  apply Hspawn in Eh as (tun & ->).
  unfold sm_bind, install_handle, sm_modify. cbn [fst snd]. apply steady_status.
  exact (proj1 (session_start_ok _ _ _ _ _ tun Es)).
Qed.

Lemma steady_start text options : steady (controller_start text options).
Proof.
  unfold controller_start. case_match; [auto with managed|].
  do 2 (apply steady_bind; [auto with managed|intros _]). apply steady_install.
  intros session w w' h [= _ <-]. by exists None.
Qed.

Lemma steady_start_with_tun text options : steady (controller_start_with_tun text options).
Proof.
  do 2 (apply steady_bind; [auto with managed|intros _]). apply steady_install.
  intros session w w' h. unfold spawn_background_with_optional_tun_controller.
  destruct (opt_tun_device options) as [config|]; [|intros [= _ <-]; by exists None].
  destruct (start_managed_tun_background_runtime config w) as [w1 [tun|error|]]; [|by repeat case_match..].
  intros [= _ <-]. by exists (Some tun).
Qed.

Lemma steady_set_panel_state panel_state : steady (set_panel_state panel_state).
Proof. by intros c w. Qed.

Context (packet_loop : PacketIo -> TunDeviceConfig -> SM W string TunPacketLoopSummary).

(** What the desktop asks of the controller. *)
Inductive controller_op : Type :=
| Op_start (text : string) (options : ManagedMixedOptions)
| Op_start_with_tun (text : string) (options : ManagedMixedOptions)
| Op_status
| Op_reload (text : string) (outbound_tag : option string)
| Op_reload_with_update_plan (text : string)
| Op_reload_from_url (url : string) (timeout max_bytes : Z)
| Op_record_node_health (health : ManagedNodeHealthStatus)
| Op_probe_node_health (tag : string) (options : ManagedNodeProbeSweepOptions)
| Op_probe_all_node_health (options : ManagedNodeProbeSweepOptions)
| Op_probe_and_apply (options : ManagedNodeProbeSweepOptions)
| Op_apply_recommended
| Op_record_panel_state (panel_state : PanelState)
| Op_clear_panel_state
| Op_stop.

Definition forget {A} (m : ControllerM W A) : ControllerM W unit := do! m; sm_ret tt.

Definition run_op (op : controller_op) : ControllerM W unit :=
  match op with
  | Op_start text options => forget (controller_start text options)
  | Op_start_with_tun text options => forget (controller_start_with_tun text options)
  | Op_status => forget controller_status
  | Op_reload text outbound_tag => forget (controller_reload text outbound_tag)
  | Op_reload_with_update_plan text => forget (controller_reload_with_update_plan text)
  | Op_reload_from_url url timeout max_bytes => forget (controller_reload_from_url url timeout max_bytes)
  | Op_record_node_health health => forget (controller_record_node_health health)
  | Op_probe_node_health tag options => forget (controller_probe_node_health tag options)
  | Op_probe_all_node_health options => forget (controller_probe_all_node_health options)
  | Op_probe_and_apply options => forget (controller_probe_and_apply options)
  | Op_apply_recommended => forget controller_apply_recommended
  | Op_record_panel_state panel_state => forget (controller_record_panel_state panel_state)
  | Op_clear_panel_state => forget clear_panel_state
  | Op_stop => forget (controller_stop packet_loop)
  end.

Lemma steady_forget {A} (m : ControllerM W A) : steady m -> steady (forget m).
Proof. intros Hm. apply steady_bind; [done|]. intros a. apply steady_ret. Qed.

Lemma steady_stop : steady (controller_stop packet_loop).
Proof.
  intros c w Hok. unfold controller_stop. cbn. destruct (ctl_handle c) as [h|] eqn:E; [|done].
  destruct (status_from_handle h (ctl_panel_state c) w) as [w1 st].
  destruct (handle_stop packet_loop h w1) as [w2 [state|error|]]; [|done..].
  by destruct (read_clock w2).
Qed.

Lemma run_op_steady op : steady (run_op op).
Proof.
  destruct op; apply steady_forget.
  - apply steady_start.
  - apply steady_start_with_tun.
  - apply steady_status.
  - apply steady_allowed, keeps_reload.
  - apply steady_reload_with_update_plan.
  - apply steady_reload_from_url.
  - apply steady_bind; [apply steady_handle, keeps_record_health|]. intros _. apply steady_status.
  - apply steady_allowed, keeps_probe.
  - apply steady_allowed, keeps_probe_all.
  - apply steady_allowed, keeps_probe_and_apply.
  - apply steady_allowed, keeps_apply_recommended.
  - apply steady_bind; [apply steady_if_handle, harmless_note|]. intros _.
    apply steady_bind; [apply steady_set_panel_state|]. intros _. apply steady_status.
  - apply steady_bind; [apply steady_if_handle, harmless_note|]. intros _.
    apply steady_bind; [apply steady_set_panel_state|]. intros _. apply steady_status.
  - apply steady_stop.
Qed.

(** The controllers that the program can have, in any world: a new one, and what an
    operation leaves, whether it succeeds or not. *)
Inductive reachable : ManagedMixedController W -> Prop :=
| reachable_new : reachable ManagedMixedController_new
| reachable_op c op w : reachable c -> reachable (run_op op (c, w)).1.1.

Lemma reachable_ok c : reachable c -> controller_ok c.
Proof. induction 1 as [|c op w _ IH]; [done|]. by apply run_op_steady. Qed.

(** ** The recommendation that is applied *)

(** A node that is healthy in the status was recorded so under its tag. *)
Lemma healthy_was_recorded h plan tag health :
  handle_ok h -> active_plan (handle_state h) = Some plan ->
  health_of (sub_node_health (subscription_status_from_plan plan (handle_node_health h))) tag = Some health ->
  health_state health = NodeHealthy -> handle_node_health h !! tag = Some health.
Proof.
  intros (? & ? & ? & ? & _ & _ & _ & _ & _ & _ & _ & _ & Hh) _ Hf Hs.
  apply find_some in Hf as [Hin Ht%String.eqb_eq]. cbn in Hin.
  apply in_map_iff in Hin as (t & <- & _). destruct (handle_node_health h !! t) as [found|] eqn:El; [|done].
  cbn in *. destruct (Hh _ _ El) as [Htag _]. congruence.
Qed.

Lemma apply_recommended_outcome h w h' w' plan :
  handle_ok h -> active_plan (handle_state h) = Some plan ->
  handle_apply_recommended_outbound (h, w) = ((h', w'), Ok tt) ->
  let subscription := subscription_status_from_plan plan (handle_node_health h) in
  if recommended_switch_ready (sub_health_summary subscription) then
    handle_selected_outbound h' = Some (sub_recommended_outbound subscription) /\
    config_text <$> active_config (handle_state h') = config_text <$> active_config (handle_state h) /\
    (exists health, handle_node_health h !! sub_recommended_outbound subscription = Some health /\
       health_state health = NodeHealthy) /\
    handle_ok h'
  else traffic_unchanged h h'.
Proof.
  intros Hok Hp Hrun subscription. pose proof (healthy_was_recorded h plan) as Hrec.
  unfold handle_apply_recommended_outbound, sm_bind at 1, sm_get in Hrun. cbn [fst] in Hrun.
  unfold sm_bind at 1, sm_lift in Hrun. rewrite Hp in Hrun. cbn [ok_or] in Hrun.
  fold subscription in Hrun. destruct (recommended_switch_ready _) eqn:Er; cbn [negb] in Hrun.
  - apply health_summary_adds_up in Er as (Hne & health & Hh & Hs).
    apply sm_bind_Ok in Hrun as ([h1 w1] & [] & H1 & Hrun). apply harmless_note in H1.
    apply sm_bind_Ok in Hrun as ([h2 w2] & text & H2 & Hrun). injection H2 as <- <- H2.
    assert (Htext : config_text <$> active_config (handle_state h1) = Some text).
    { by destruct (active_config (handle_state h1)) as [config|]; [injection H2 as <-|]. }
    apply handle_reload_outcome in Hrun as (plan' & runtime & Hb & _ & Hok' & _ & Hsel & Htext' & _);
      [|by eapply traffic_ok].
    apply build_connection_plan_ok in Hb as (_ & Hb & _). unfold select_outbound in Hb.
    destruct (has_tag _ _); [|done]. injection Hb as Hb.
    split_and!; [by rewrite Hsel, <- Hb| |by eauto|done].
    destruct H1 as [(_ & _ & Hc) _]. by rewrite Htext', <- Hc, Htext.
  - by apply harmless_note in Hrun.
Qed.

(** ** What the account refuses *)

(** The operations that need traffic. *)
Definition guarded (op : controller_op) : bool :=
  match op with
  | Op_status | Op_record_node_health _ | Op_record_panel_state _ | Op_clear_panel_state | Op_stop => false
  | _ => true
  end.

(** The panel and the last status are as they were, and so is the traffic of the handle. *)
Definition controller_unchanged (c c' : ManagedMixedController W) : Prop :=
  ctl_panel_state c' = ctl_panel_state c /\ ctl_last_stopped_status c' = ctl_last_stopped_status c /\
  match ctl_handle c, ctl_handle c' with
  | Some h, Some h' => traffic_unchanged h h'
  | None, None => True
  | _, _ => False
  end.

Lemma controller_unchanged_refl c : controller_unchanged c c.
Proof. split_and!; try done. destruct (ctl_handle c); [apply traffic_refl|done]. Qed.

(** [m] fails and has done no more than to read the clock. *)
Definition refused {A} (m : ControllerM W A) (c : ManagedMixedController W) (w : W) : Prop :=
  exists c' w' error, m (c, w) = ((c', w'), Err error) /\ controller_unchanged c c' /\
    (w' = w \/ w' = (read_clock w).1).

Lemma refused_bind {A B} (m : ControllerM W A) (k : A -> ControllerM W B) c w :
  refused m c w -> refused (sm_bind m k) c w.
Proof. intros (c' & w' & error & E & Hc). exists c', w', error. unfold sm_bind. by rewrite E. Qed.

Lemma refused_error {A} error c w : refused (A := A) (fails error) c w.
Proof. exists c, w, error. split_and!; [done|apply controller_unchanged_refl|by left]. Qed.

Lemma refused_panel c w error :
  ctl_panel_state c ≫= traffic_restriction_error = Some error -> refused ensure_panel_allows_traffic c w.
Proof.
  intros Hp. unfold ensure_panel_allows_traffic, refused. cbn. rewrite Hp.
  unfold sm_bind, if_handle. cbn. destruct (ctl_handle c) as [h|] eqn:Eh.
  - unfold on_handle. cbn. rewrite Eh. unfold record_panel_traffic_restricted. rewrite on_state_eq. cbn.
    do 3 eexists. split; [done|]. split; [|by right]. split_and!; [done..|]. rewrite Eh.
    split; [apply push_event_core|]. by destruct h.
  - do 3 eexists. split; [done|]. split; [apply controller_unchanged_refl|by left].
Qed.

Lemma refused_start {A} (k : ControllerM W A) c w error :
  ctl_panel_state c ≫= traffic_restriction_error = Some error ->
  refused (do! ensure_stopped; do! ensure_panel_allows_traffic; k) c w.
Proof.
  intros Hp. unfold refused, sm_bind at 1, ensure_stopped. cbn [fst].
  destruct (is_running c).
  - apply (refused_error (A := A)).
  - eapply refused_bind, refused_panel, Hp.
Qed.

Lemma guarded_refused op c w error :
  guarded op = true -> ctl_panel_state c ≫= traffic_restriction_error = Some error -> refused (run_op op) c w.
Proof.
  intros Hg Hp. destruct op; try done; apply refused_bind;
    try (eapply refused_bind, refused_panel, Hp); [|by eapply refused_start].
  unfold controller_start. case_match; [apply refused_error|by eapply refused_start].
Qed.

(** ** What is taken down *)

Lemma join_snoc sep parts last : exists before, join sep (parts ++ [last]) = before +:+ last.
Proof.
  induction parts as [|part parts (before & IH)]; [by exists ""|]. unfold join in *.
  destruct parts as [|next parts]; cbn in *.
  - exists (part +:+ sep). by rewrite string_app_assoc.
  - exists (part +:+ sep +:+ before). rewrite !string_app_assoc, <- IH. done.
Qed.

(** Once a proxy that can be put back has been: the mark that a restoration leaves. *)
Lemma handle_stop_restores (restored : W -> Prop) h guard snapshot w w' r :
  handle_proxy_guard h = Some guard -> guard_proxy_snapshot guard = Some snapshot ->
  (forall w1 w2, controller_restore snapshot w1 = (w2, Ok tt) -> restored w2) ->
  (forall w1, restored w1 -> restored (read_clock w1).1) ->
  handle_stop packet_loop h w = (w', r) ->
  match r with
  | Ok _ => restored w'
  | Err error => restored w' \/ exists before error', error = before +:+ "restore system proxy: " +:+ error'
  | Panic => True
  end.
Proof.
  intros Hg Hs Hrestore Hclock. unfold handle_stop. destruct (joined _ _ w) as [w1 serve].
  assert (Hrec : forall serve tun state w0, restored w0 -> restored (recorded_stop serve tun state w0).1).
  { intros s t state w0 H0. unfold recorded_stop. pose proof (Hclock _ H0) as H1.
    destruct (read_clock w0) as [w3 n3]. pose proof (Hclock _ H1) as H2. cbn in H2.
    destruct (read_clock w3) as [w4 n4]. pose proof (Hclock _ H2) as H3. cbn in H3.
    by destruct (read_clock w4). }
  destruct (stop_tun packet_loop (handle_tun_runtime h) w1) as [w2 tun].
  rewrite Hg. cbn [restore_guard]. unfold proxy_guard_restore, with_context. rewrite Hs.
  destruct (controller_restore snapshot w2) as [w3 restore] eqn:Er.
  destruct restore as [[]|error|]; cbn [map_err]; [| |by destruct tun; intros [= <- <-]].
  - apply Hrestore in Er. specialize (Hrec serve tun (handle_state h) w3 Er).
    destruct (recorded_stop serve tun (handle_state h) w3) as [w4 state]. cbn in Hrec.
    destruct tun; try (by intros [= <- <-]); case_match; intros [= <- <-]; [done|by left|done|by left].
  - destruct (recorded_stop serve tun (handle_state h) w3) as [w4 state].
    destruct tun; try (by intros [= <- <-]); cbn [error_of]; rewrite ?app_assoc;
      (case_match; intros [= <- <-];
        [exfalso; revert H0; by destruct (error_of serve)|right;
         edestruct (join_snoc "; ") as (before & ->); by exists before, (SystemProxyError_fmt error)]).
Qed.

(** The device was stopped, or the error says at its end that it could not be. *)
Definition device_down (stopped : W -> Prop) {A} (w : W) (r : result string A) : Prop :=
  match r with
  | Ok _ => stopped w
  | Err error => stopped w \/ exists before error', error = before +:+ "stop TUN device: " +:+ error'
  | Panic => True
  end.

(** The last step of the background run: the caller's work, the loop, the device. *)
Lemma work_then_stops {A} (stopped : W -> Prop) (run : SM W string A) io guard w w' r :
  guard_owns_device guard = true ->
  (forall w2 w3 snapshot, tun_stop w2 = (w3, Ok snapshot) -> stopped w3) ->
  background_work packet_loop (Some guard) io run w = (w', r) ->
  device_down stopped w' r.
Proof.
  intros Ho Hstop. unfold background_work. destruct (run w) as [w1 run_result]. destruct run_result as [a|error|] eqn:Er.
  3: by intros [= <- <-].
  all: rewrite <- Er; clear Er.
  all: destruct (background_summary packet_loop io w1) as [w2 summary_result].
  all: unfold stop_optional, tun_guard_stop, stop_device, with_context, sm_bind; rewrite Ho; cbn [negb].
  all: destruct (tun_stop w2) as [w3 [snapshot|error'|]] eqn:Et; cbn [map_err sm_ret sm_lift]; [apply Hstop in Et| |].
  all: try (by intros [= <- <-]).
  all: try (repeat case_match; intros [= <- <-]; by first [done|left]).
  all: cbn [error_of]; rewrite app_assoc.
  all: case_match; intros [= <- <-]; [right|exfalso].
  all: try (edestruct (join_snoc "; ") as (before & ->); by exists before, (TunDeviceError_fmt error')).
  all: match goal with E : negb _ = false |- _ => revert E end; by destruct (error_of _ ++ error_of _).
Qed.

Lemma background_report_stops {A} (stopped : W -> Prop) config (run : SM W string A) guard w w1 w' r :
  apply_tun_device_for_config config w = (w1, Ok guard) -> guard_owns_device guard = true ->
  (forall w2 w3 snapshot, tun_stop w2 = (w3, Ok snapshot) -> stopped w3) ->
  run_with_optional_tun_runtime_background_report packet_loop (Some config) run w = (w', r) ->
  device_down stopped w' r.
Proof.
  intros Ha Ho Hstop. unfold run_with_optional_tun_runtime_background_report, sm_bind at 1.
  cbn [apply_optional]. unfold sm_bind at 1. rewrite Ha. cbn [sm_ret sm_lift].
  unfold sm_bind at 1. destruct (sm_bind (open_io_or_stop guard) _ w1) as [w2 [io|error|]] eqn:Ei.
  - intros Hrun. apply (work_then_stops stopped run io guard w2 w' r Ho Hstop). exact Hrun.
  - intros [= <- <-]. revert Ei. unfold sm_bind, open_io_or_stop. rewrite Ho.
    destruct (open_io (guard_tun_config guard) w1) as [w3 [io|error'|]]; [done| |done].
    unfold stop_device, with_context, sm_bind, sm_ret, sm_lift.
    destruct (tun_stop w3) as [w4 [snapshot|error''|]] eqn:Et; cbn; intros [= <- <-].
    + left. by eapply Hstop.
    + right. exists ("open TUN packet I/O: " +:+ TunDeviceError_fmt error' +:+ "; "), (TunDeviceError_fmt error'').
      by rewrite !string_app_assoc.
  - by intros [= <- <-].
Qed.

End Handle.

(** ** Properties *)

Section Properties.
Context {W : Type} {System : ManagedSystem W} {Proxy : SystemProxyController W}
  `{Packets : TunPacketIoController W} {L : ShareLibrary}.
Context (packet_loop : PacketIo -> TunDeviceConfig -> SM W string TunPacketLoopSummary).

(** C19: Whatever the operations asked of a new controller and whatever the outside answers
    them, the handle it holds is in step: its client runs the plan of its configuration on
    the address of its listener, the outbound it shows and the routes and outbounds of its
    traffic are that plan's, and it knows the health of nodes of that plan only. *)
Theorem managed_core_in_step c h :
  reachable packet_loop c -> ctl_handle c = Some h -> handle_ok h.
Proof. intros Hr Hc. apply reachable_ok in Hr. unfold controller_ok in Hr. by rewrite Hc in Hr. Qed.

(** C20: A reload is all or nothing. If it fails, the new text has no plan or no outbounds,
    and nothing of the traffic has changed: the status, plan and configuration of the client,
    the outbound, the runtime and the health of the nodes. If it succeeds, the runtime is
    that of the new text, and health is kept of the nodes it still has. *)
Theorem reload_is_all_or_nothing text tag (h : ManagedMixedHandle W) w h' w' r :
  handle_ok h -> handle_reload text tag (h, w) = ((h', w'), r) ->
  match r with
  | Ok _ =>
      exists plan runtime,
        build_connection_plan text tag (socket_addr_to_string (handle_listen_addr h)) = Ok plan /\
        runtime_for h text (selected_outbound plan) = Ok runtime /\ handle_ok h' /\
        handle_runtime h' = next_runtime h runtime /\ handle_selected_outbound h' = Some (selected_outbound plan) /\
        config_text <$> active_config (handle_state h') = Some text /\
        (forall tag, handle_node_health h' !! tag =
           if has_tag tag (supported_tags (plan_preflight plan)) then handle_node_health h !! tag else None)
  | Err _ =>
      traffic_unchanged h h' /\
      ((exists error, build_connection_plan text tag (socket_addr_to_string (handle_listen_addr h)) = Err error) \/
       exists plan error,
         build_connection_plan text tag (socket_addr_to_string (handle_listen_addr h)) = Ok plan /\
         runtime_for h text (selected_outbound plan) = Err error)
  | Panic => False
  end.
Proof. apply handle_reload_outcome. Qed.

(** C24: When the recommendation is applied, the core moves to a node that was recorded as
    healthy, with the same subscription, and only if the summary calls the switch ready;
    otherwise the traffic stays as it is. *)
Theorem recommended_switch_is_to_healthy_node (h : ManagedMixedHandle W) w h' w' plan :
  handle_ok h -> active_plan (handle_state h) = Some plan ->
  handle_apply_recommended_outbound (h, w) = ((h', w'), Ok tt) ->
  let subscription := subscription_status_from_plan plan (handle_node_health h) in
  if recommended_switch_ready (sub_health_summary subscription) then
    handle_selected_outbound h' = Some (sub_recommended_outbound subscription) /\
    config_text <$> active_config (handle_state h') = config_text <$> active_config (handle_state h) /\
    (exists health, handle_node_health h !! sub_recommended_outbound subscription = Some health /\
       health_state health = NodeHealthy) /\
    handle_ok h'
  else traffic_unchanged h h'.
Proof. apply apply_recommended_outcome. Qed.

(** While the panel restricts the account, every operation that needs traffic (a start,
    a reload, a fetch, a probe, a switch) fails, does no more to the outside than read the
    clock, and leaves the traffic of a core that runs as it was. *)
Theorem restricted_account_is_refused op (c : ManagedMixedController W) w error :
  guarded op = true -> ctl_panel_state c ≫= traffic_restriction_error = Some error ->
  exists c' w' message, run_op packet_loop op (c, w) = ((c', w'), Err message) /\
    controller_unchanged c c' /\ (w' = w \/ w' = (read_clock w).1).
Proof. apply guarded_refused. Qed.

(** C26: Stopping the core puts the system proxy back even if the listener or the device
    failed to stop, or its error ends with what kept the proxy from being put back. *)
Theorem stop_restores_proxy (restored : W -> Prop) (h : ManagedMixedHandle W) guard snapshot w w' r :
  handle_proxy_guard h = Some guard -> guard_proxy_snapshot guard = Some snapshot ->
  (forall w1 w2, controller_restore snapshot w1 = (w2, Ok tt) -> restored w2) ->
  (forall w1, restored w1 -> restored (read_clock w1).1) ->
  handle_stop packet_loop h w = (w', r) ->
  match r with
  | Ok _ => restored w'
  | Err error => restored w' \/ exists before error', error = before +:+ "restore system proxy: " +:+ error'
  | Panic => True
  end.
Proof. apply handle_stop_restores. Qed.

(** C25: A run with a device of its own stops it in the end, whether the packet I/O could be
    opened, the work and the packet loop succeeded or failed, or its error ends with what
    kept the device from being stopped. *)
Theorem background_run_stops_device {A} (stopped : W -> Prop) config (run : SM W string A) guard w w1 w' r :
  apply_tun_device_for_config config w = (w1, Ok guard) -> guard_owns_device guard = true ->
  (forall w2 w3 snapshot, tun_stop w2 = (w3, Ok snapshot) -> stopped w3) ->
  run_with_optional_tun_runtime_background_report packet_loop (Some config) run w = (w', r) ->
  device_down stopped w' r.
Proof. apply background_report_stops. Qed.

End Properties.

(** ** Witnesses *)

(** A desk: whether its device is up and its proxy is ours; [desk_loop] is what becomes of
    the packet loop. *)
Module Desk.

Record Desk : Type := mkDesk { device_up : bool; proxy_set : bool }.

Definition desk_config : TunDeviceConfig := mkTunDeviceConfig "keli-tun0" "10.7.0.2/24" 1500 false.

Definition desk_snapshot (d : Desk) : TunDeviceSnapshot :=
  if device_up d then snapshot_running desk_config
  else mkTunDeviceSnapshot true true true false None None None None.

#[export] Instance desk_device : TunDeviceController Desk := {
  tun_snapshot := fun d => (d, Ok (desk_snapshot d));
  tun_start := fun _ d => let d := mkDesk true (proxy_set d) in (d, Ok (desk_snapshot d));
  tun_stop := fun d => let d := mkDesk false (proxy_set d) in (d, Ok (desk_snapshot d))
}.

#[export] Instance desk_packets : TunPacketIoController Desk := {
  PacketIo := unit;
  open_io := fun _ d => (d, Ok tt)
}.

Definition no_proxy : SystemProxySnapshot := mkSystemProxySnapshot None None None.

#[export] Instance desk_proxy : SystemProxyController Desk := {
  controller_snapshot := fun d => (d, Ok no_proxy);
  controller_apply := fun _ d => (mkDesk (device_up d) true, Ok no_proxy);
  controller_restore := fun _ d => (mkDesk (device_up d) false, Ok tt)
}.

Definition desk_drain : RuntimeManagedMixedStopDrainDiagnostic := mkStopDrainDiagnostic 0 0 0 0 0 1000 false.

#[export] Instance desk_system : ManagedSystem Desk := {
  read_clock := fun d => (d, fun n => Z.of_nat n);
  bind_listener := fun _ d => (d, Ok (Ok (mkSocketAddr (V4 2130706433) 7890)));
  serve_listener := fun _ _ => sm_ret tt;
  join_listener := fun d => (d, Err "accept failed");
  smoke_connect := fun _ _ _ => sm_ret (Some 20, Some 30);
  probe_udp := fun _ _ _ _ d => (d, true);
  fetch_subscription_url_config_text := fun _ _ _ d => (d, (mkFetchOutcome false None None None None None None, None));
  shared_gauges := fun _ => mkGauges (metrics_snapshot 0 MetricsState_default) 0 0 0 0;
  profile_error_text := fun _ => "unsupported";
  str_debug := fun s => s
}.

Definition desk_loop (outcome : result string TunPacketLoopSummary)
  : PacketIo -> TunDeviceConfig -> SM Desk string TunPacketLoopSummary :=
  fun _ _ d => (d, outcome).

Definition second_link : string :=
  "vless://00112233-4455-6677-8899-aabbccddeeff@two.example:443?security=tls&sni=edge.example&type=ws&host=host.example&path=/vless#vless-two".

Definition two_nodes : string := Sample.vless_link +:+ crlf +:+ second_link.

Definition desk_options : ManagedMixedOptions :=
  mkManagedOptions "127.0.0.1:7890" [] None default_relay_options true [] None MixedDnsOptions_default
    DEFAULT_TUN_TCP_MAX_ACTIVE_SESSIONS 8.

Definition idle_desk : Desk := mkDesk false false.

Definition ended_loop := desk_loop (Ok TunPacketLoopSummary_default).

Definition first_health : ManagedNodeHealthStatus :=
  mkNodeHealth "vless-two" NodeHealthy (Some true) (Some true) (Some 20) None None (Some 1).

(** The controller with two nodes, one of them known to be healthy. *)
Definition desk_ops : list controller_op :=
  [Op_start two_nodes desk_options; Op_record_node_health first_health].

Definition desk_controller : ManagedMixedController Desk :=
  foldl (fun c op => (run_op (L := Sample.library) ended_loop op (c, idle_desk)).1.1)
    ManagedMixedController_new desk_ops.

End Desk.

Import Desk.

Lemma desk_reachable : reachable (L := Sample.library) ended_loop desk_controller.
Proof.
  apply (reachable_op ended_loop _ (Op_record_node_health first_health) idle_desk).
  apply (reachable_op ended_loop _ (Op_start two_nodes desk_options) idle_desk). apply reachable_new.
Defined.

Definition desk_handle : ManagedMixedHandle Desk :=
  Eval vm_compute in
  match ctl_handle desk_controller with
  | Some h => h
  | None => handle_of_session (mkSession (ClientRuntime_default (fun _ => 0)) (mkSocketAddr (V4 0) 0)
                                 (mixed_runtime_from_cli [] default_relay_options MixedDnsOptions_default)
                                 [] default_relay_options MixedDnsOptions_default 0 None) None
  end.

Lemma desk_controller_handle : ctl_handle desk_controller = Some desk_handle.
Proof. vm_compute. reflexivity. Qed.

Lemma managed_core_in_step_witness :
  handle_selected_outbound desk_handle = Some "vless-ws" /\ handle_ok (L := Sample.library) desk_handle.
Proof.
  split; [reflexivity|]. apply (managed_core_in_step ended_loop desk_controller desk_handle desk_reachable).
  vm_compute. reflexivity.
Defined.

Lemma desk_handle_ok : handle_ok (L := Sample.library) desk_handle.
Proof.
  pose proof (reachable_ok ended_loop desk_controller desk_reachable) as Hok. unfold controller_ok in Hok.
  by rewrite desk_controller_handle in Hok.
Qed.

(** A tag that the text does not have is refused. *)
Lemma reload_is_all_or_nothing_witness :
  exists h' w' error,
    handle_reload (L := Sample.library) Sample.vless_link (Some "vless-two") (desk_handle, idle_desk) =
      ((h', w'), Err error) /\ traffic_unchanged desk_handle h'.
Proof.
  destruct (handle_reload (L := Sample.library) Sample.vless_link (Some "vless-two") (desk_handle, idle_desk))
    as [[h' w'] r] eqn:E.
  pose proof (reload_is_all_or_nothing (L := Sample.library) _ _ _ _ _ _ _ desk_handle_ok E) as Hr.
  assert (Hn : is_ok r = false).
  { change (is_ok (h', w', r).2 = false). rewrite <- E. vm_compute. reflexivity. }
  destruct r as [a|error|]; [discriminate Hn| |destruct Hr].
  exists h', w', error. split; [reflexivity|apply Hr].
Defined.

Definition desk_plan : ConnectionPlan :=
  Eval vm_compute in default vless_plan (active_plan (handle_state desk_handle)).

Lemma recommended_switch_is_to_healthy_node_witness :
  exists h' w',
    handle_apply_recommended_outbound (L := Sample.library) (desk_handle, idle_desk) = ((h', w'), Ok tt) /\
    handle_selected_outbound h' = Some "vless-two".
Proof.
  destruct (handle_apply_recommended_outbound (L := Sample.library) (desk_handle, idle_desk)) as [[h' w'] r] eqn:E.
  assert (Hn : is_ok r = true).
  { change (is_ok (h', w', r).2 = true). rewrite <- E. vm_compute. reflexivity. }
  destruct r as [[]|error|]; [|discriminate Hn..]. exists h', w'. split; [reflexivity|].
  assert (Hp : active_plan (handle_state desk_handle) = Some desk_plan) by (vm_compute; reflexivity).
  pose proof (recommended_switch_is_to_healthy_node (L := Sample.library) _ _ _ _ _ desk_handle_ok Hp E) as Hr.
  assert (Hready : recommended_switch_ready (sub_health_summary
     (subscription_status_from_plan desk_plan (handle_node_health desk_handle))) = true)
    by (vm_compute; reflexivity).
  cbv zeta in Hr. rewrite Hready in Hr. destruct Hr as [Hr _]. rewrite Hr. vm_compute. reflexivity.
Defined.

Definition blocked_panel : PanelState :=
  PanelState_new (mkPanelUserState Account_Active None None None) Risk_Blocked (fun _ => 0).

Definition blocked_controller : ManagedMixedController Desk :=
  mkController (Some desk_handle) None (Some blocked_panel).

Lemma restricted_account_is_refused_witness :
  exists c' w' message,
    run_op (L := Sample.library) ended_loop (Op_reload two_nodes None) (blocked_controller, idle_desk) =
      ((c', w'), Err message) /\ controller_unchanged blocked_controller c' /\ w' = idle_desk.
Proof.
  destruct (restricted_account_is_refused (L := Sample.library) ended_loop (Op_reload two_nodes None)
    blocked_controller idle_desk (PanelTrafficRestricted "active" "blocked") eq_refl eq_refl)
    as (c' & w' & message & E & Hc & Hw).
  exists c', w', message. split; [exact E|]. split; [exact Hc|]. destruct Hw as [Hw|Hw]; exact Hw.
Defined.

(** The listener of the desk fails; its proxy is put back. *)
Lemma stop_restores_proxy_witness :
  exists w' error, handle_stop ended_loop desk_handle (mkDesk false true) = (w', Err error) /\
    (proxy_set w' = false \/ exists before error', error = before +:+ "restore system proxy: " +:+ error').
Proof.
  destruct (handle_stop ended_loop desk_handle (mkDesk false true)) as [w' r] eqn:E.
  assert (Hn : is_ok r = false).
  { change (is_ok (w', r).2 = false). rewrite <- E. vm_compute. reflexivity. }
  assert (Hr : match r with Panic => False | _ => True end).
  { change (match (w', r).2 with Panic => False | _ => True end). rewrite <- E. vm_compute. exact I. }
  destruct r as [a|error|]; [discriminate Hn| |destruct Hr]. exists w', error. split; [reflexivity|].
  refine (stop_restores_proxy ended_loop (fun d => proxy_set d = false) desk_handle
    (default (mkProxyGuard None (mkSystemProxyConfig "" [])) (handle_proxy_guard desk_handle)) no_proxy
    (mkDesk false true) w' (Err error) eq_refl eq_refl _ _ E).
  - intros w1 w2 [= <-]. reflexivity.
  - intros w1 H1. exact H1.
Defined.

(** The loop fails; the device is stopped. *)
Lemma background_run_stops_device_witness :
  exists w' r,
    run_with_optional_tun_runtime_background_report (desk_loop (Err "read failed")) (Some desk_config)
      (sm_ret tt) idle_desk = (w', r) /\
    device_down (fun d => device_up d = false) w' r.
Proof.
  destruct (run_with_optional_tun_runtime_background_report (desk_loop (Err "read failed")) (Some desk_config)
      (sm_ret tt) idle_desk) as [w' r] eqn:E.
  exists w', r. split; [reflexivity|].
  refine (background_run_stops_device (desk_loop (Err "read failed")) (fun d => device_up d = false) desk_config
    (sm_ret tt) (mkTunGuard desk_config (snapshot_running desk_config) true) idle_desk (mkDesk true false) w' r
    _ eq_refl _ E).
  - vm_compute. reflexivity.
  - intros w2 w3 snapshot [= <- _]. reflexivity.
Defined.

(** The device of a handle is stopped only if its packet loop ended well: if the loop failed,
    the error is told and the device stays up, with nothing left that could stop it. *)
Lemma failed_loop_leaves_the_device_up :
  exists background,
    start_managed_tun_background_runtime desk_config idle_desk = (mkDesk true false, Ok background) /\
    background_stop (desk_loop (Err "read failed")) background (mkDesk true false) =
      (mkDesk true false, Err "read failed").
Proof.
  exists (mkTunBackground (Packets := desk_packets) (mkTunGuard desk_config (snapshot_running desk_config) true) tt).
  split; vm_compute; reflexivity.
Qed.
