(* ===== verification/SubscriptionFetch.v ===== *)
(** * The fetch of a subscription

    [fetch_subscription_url_config_text] of [crates/keli-cli/src/lib.rs] and what it calls:
    the address of the server, the request, the limited reader and the parser of the answer.
    The operating system and the TLS library are the class [PanelNetwork], as for the panel;
    [url::Url] is the class [UrlLibrary]. The theorems are at the end. *)

From Stdlib Require Import Ascii.
From stdpp Require Import base strings list numbers.
From S2P Require Import Prelude.
From S2P Require Import StdNet.
From S2P Require Import StdIo.
From S2P Require Import StdText.
From S2P Require Import HttpProxy.
From S2P Require Import Subscription.
From S2P Require Import SubscriptionSpec.
From S2P Require Import Panel.
From S2P Require Import PanelHttp.
From S2P Require Import PanelSpec.
From S2P Require Import ManagedMixed.
#[local] Open Scope Z_scope.

(** ** Data *)

Record SubscriptionFetchOptions : Type := mkFetchOptions {
  fo_url : string;
  fo_timeout : Z;
  fo_max_bytes : Z;
  fo_user_agent : string
}.

Record SubscriptionFetchSource : Type := mkFetchSource {
  fs_scheme : string;
  fs_host : string;
  fs_port : Z;
  fs_default_port : bool;
  fs_path_present : bool;
  fs_query_present : bool
}.

Record SubscriptionFetchResponse : Type := mkFetchResponse {
  fr_source : SubscriptionFetchSource;
  fr_status_code : Z;
  fr_body : string;
  fr_body_bytes : Z;
  fr_elapsed : Z
}.

Inductive SubscriptionFetchErrorKind : Type :=
| Fetch_InvalidUrl
| Fetch_UnsupportedScheme
| Fetch_MissingHost
| Fetch_Resolve
| Fetch_Connect
| Fetch_Tls
| Fetch_Write
| Fetch_Read
| Fetch_ResponseTooLarge
| Fetch_InvalidResponse
| Fetch_HttpStatus
| Fetch_Utf8.

Definition fetch_error_label (self : SubscriptionFetchErrorKind) : string :=
  match self with
  | Fetch_InvalidUrl => "invalid-url"
  | Fetch_UnsupportedScheme => "unsupported-scheme"
  | Fetch_MissingHost => "missing-host"
  | Fetch_Resolve => "resolve"
  | Fetch_Connect => "connect"
  | Fetch_Tls => "tls"
  | Fetch_Write => "write"
  | Fetch_Read => "read"
  | Fetch_ResponseTooLarge => "response-too-large"
  | Fetch_InvalidResponse => "invalid-response"
  | Fetch_HttpStatus => "http-status"
  | Fetch_Utf8 => "utf8"
  end.

Record SubscriptionFetchError : Type := mkFetchError {
  fe_kind : SubscriptionFetchErrorKind;
  fe_detail : string;
  fe_source : option SubscriptionFetchSource
}.

(** [ManagedSubscriptionUrlSource::from_fetch_source]. *)
Definition from_fetch_source (source : SubscriptionFetchSource) : ManagedSubscriptionUrlSource :=
  mkUrlSource (fs_scheme source) (fs_host source) (fs_port source) (fs_default_port source)
    (fs_path_present source) (fs_query_present source).

(** [ManagedSubscriptionUrlFetchOutcome::from_response] and [from_error]. *)
Definition fetch_from_response (response : SubscriptionFetchResponse) : ManagedSubscriptionUrlFetchOutcome :=
  mkFetchOutcome true (Some (from_fetch_source (fr_source response))) (Some (fr_status_code response))
    (Some (fr_body_bytes response)) (Some (fr_elapsed response)) None None.

Definition fetch_from_error (error : SubscriptionFetchError) : ManagedSubscriptionUrlFetchOutcome :=
  mkFetchOutcome false (from_fetch_source <$> fe_source error) None None None
    (Some (fetch_error_label (fe_kind error))) (Some (fe_detail error)).

(** An error of a known server. *)
Definition fetch_error_at (source : SubscriptionFetchSource) (kind : SubscriptionFetchErrorKind) (detail : string)
  : SubscriptionFetchError :=
  mkFetchError kind detail (Some source).

Definition subscription_fetch_io_error (kind : SubscriptionFetchErrorKind) (error : IoError)
  (source : SubscriptionFetchSource) : SubscriptionFetchError :=
  fetch_error_at source kind (io_message error).

(** ** The answer *)

Definition find_http_header_end (response : list Z) : option Z := find_window [13; 10; 13; 10] response.

Definition parse_http_status_code (status_line : string) : option Z :=
  match split_whitespace status_line with
  | version :: parts =>
      if negb (starts_with version "HTTP/") then None else head parts ≫= parse_u16
  | [] => None
  end.

(** The value of the first [transfer-encoding], of the lines after the status line. *)
Definition fetch_transfer_encoding (headers : list string) : option string :=
  find_map
    (fun line =>
       match split_once ":" line with
       | Some (name, value) =>
           if eq_ignore_ascii_case name "transfer-encoding" then Some (to_ascii_lowercase (trim value)) else None
       | None => None
       end)
    headers.

(** [a + b] on [usize]. Where it overflows, the build with checks panics; the one without
    goes on with a bound below the start of a slice, and panics there. *)
Definition usize_sum {E} (a b : Z) : result E Z := if usize_max <? a + b then Panic else Ok (a + b).

(** One chunk from [offset]: its bytes and the new offset, or the end. [taken] is the length
    of what is decoded so far. *)
Definition fetch_chunk (body : list Z) (offset taken max_bytes : Z) (source : SubscriptionFetchSource)
  : result SubscriptionFetchError (option (list Z * Z)) :=
  let invalid detail := fetch_error_at source Fetch_InvalidResponse detail in
  rest <-? slice body offset (len body);
  index <-? ok_or (invalid "chunked subscription response is missing a chunk length") (find_window [13; 10] rest);
  let line_end := offset + index in
  length_line <-? slice body offset line_end;
  let length_hex := trim (default "" (head (split_on ";" (from_utf8_lossy length_line)))) in
  length <-? of_library (fun _ => invalid "chunked subscription response has an invalid chunk length")
    (usize_from_hex length_hex);
  let offset := line_end + 2 in
  if length =? 0 then Ok None
  else if usize_max <? offset + length then Err (invalid "chunked subscription response length overflowed")
  else
    let chunk_end := offset + length in
    after <-? usize_sum chunk_end 2;
    let truncated := invalid "chunked subscription response is truncated" in
    if len body <? after then Err truncated
    else
      delimiter <-? slice body chunk_end after;
      if negb (bool_decide (delimiter = [13; 10])) then Err truncated
      else if max_bytes <? usize_saturating_add taken length then
        Err (fetch_error_at source Fetch_ResponseTooLarge
               ("decoded subscription body exceeded max-bytes limit: " +:+ to_decimal max_bytes))
      else
        chunk <-? slice body offset chunk_end;
        Ok (Some (chunk, after)).

(** The loop; a round moves the offset, so [length body + 1] rounds are enough. *)
Fixpoint fetch_chunks (fuel : nat) (body : list Z) (offset : Z) (decoded : list Z) (max_bytes : Z)
  (source : SubscriptionFetchSource) : result SubscriptionFetchError (list Z) :=
  match fuel with
  | O => Panic
  | S fuel' =>
      chunk <-? fetch_chunk body offset (len decoded) max_bytes source;
      match chunk with
      | None => Ok decoded
      | Some (chunk, offset) => fetch_chunks fuel' body offset (decoded ++ chunk) max_bytes source
      end
  end.

Definition decode_chunked_subscription_body (body : list Z) (max_bytes : Z) (source : SubscriptionFetchSource)
  : result SubscriptionFetchError (list Z) :=
  fetch_chunks (S (length body)) body 0 [] max_bytes source.

Definition is_chunked_fetch (headers : list string) : bool :=
  default false ((fun encoding => contains encoding "chunked") <$> fetch_transfer_encoding headers).

(** [elapsed] is what [started.elapsed()] gives at the end. *)
Definition parse_subscription_fetch_response (response : list Z) (source : SubscriptionFetchSource)
  (elapsed max_bytes : Z) : result SubscriptionFetchError SubscriptionFetchResponse :=
  let invalid detail := fetch_error_at source Fetch_InvalidResponse detail in
  header_end <-? ok_or (invalid "subscription fetch response is missing HTTP headers") (find_http_header_end response);
  headers <-? slice response 0 header_end;
  let header_lines := lines (from_utf8_lossy headers) in
  status_code <-? ok_or (invalid "subscription fetch response has an invalid HTTP status line")
    (parse_http_status_code (default "" (head header_lines)));
  if negb ((200 <=? status_code) && (status_code <? 300)) then
    Err (fetch_error_at source Fetch_HttpStatus
           ("subscription fetch returned HTTP status " +:+ to_decimal status_code))
  else
    body <-? slice response (header_end + 4) (len response);
    body <-? (if is_chunked_fetch (tail header_lines) then decode_chunked_subscription_body body max_bytes source
              else Ok body);
    text <-? of_library (fun error => fetch_error_at source Fetch_Utf8 ("subscription body is not UTF-8: " +:+ error))
      (string_from_utf8 body);
    Ok (mkFetchResponse source status_code text (len body) elapsed).

(** ** The exchange *)

Definition fetch_io {S A} (kind : SubscriptionFetchErrorKind) (source : SubscriptionFetchSource) (m : SM S IoError A)
  : SM S SubscriptionFetchError A :=
  sm_zoom id (fun s _ => s) (fun error => subscription_fetch_io_error kind error source) m.

Section Stream.
Context {S : Type} {Reader : RawRead S} {Writer : Write S}.

(** The loop; a round that goes on adds a byte, so [max_bytes + 1] rounds are enough. *)
Fixpoint read_fetch (fuel : nat) (max_bytes : Z) (source : SubscriptionFetchSource) (response : list Z)
  : SM S SubscriptionFetchError (list Z) :=
  match fuel with
  | O => sm_lift Panic
  | Datatypes.S fuel' =>
      buffer <-! fetch_io Fetch_Read source (raw_read 8192);
      if len buffer =? 0 then sm_ret response
      else if max_bytes <? usize_saturating_add (len response) (len buffer) then
        sm_lift (Err (fetch_error_at source Fetch_ResponseTooLarge
                        ("subscription response exceeded max-bytes limit: " +:+ to_decimal max_bytes)))
      else read_fetch fuel' max_bytes source (response ++ buffer)
  end.

Definition read_subscription_fetch_response (max_bytes : Z) (source : SubscriptionFetchSource)
  : SM S SubscriptionFetchError (list Z) :=
  read_fetch (Z.to_nat (max_bytes + 1)) max_bytes source [].

End Stream.

Definition subscription_fetch_host_header (source : SubscriptionFetchSource) : string :=
  let host :=
    if contains (fs_host source) ":" && negb (starts_with (fs_host source) "[") then "[" +:+ fs_host source +:+ "]"
    else fs_host source in
  if fs_default_port source then host else host +:+ ":" +:+ to_decimal (fs_port source).

Section Fetch.
Context {Lib : UrlLibrary}.

(** The text of the request. *)
Definition fetch_request_text (url : Url) (source : SubscriptionFetchSource) (user_agent : string) : string :=
  let path := if String.eqb (url_path url) "" then "/" else url_path url in
  let target := match url_query url with Some query => path +:+ "?" +:+ query | None => path end in
  "GET " +:+ target +:+ " HTTP/1.1" +:+ crlf
  +:+ "Host: " +:+ subscription_fetch_host_header source +:+ crlf
  +:+ "User-Agent: " +:+ user_agent +:+ crlf
  +:+ "Accept: text/plain, application/yaml, application/octet-stream, */*" +:+ crlf
  +:+ "Connection: close" +:+ crlf +:+ crlf.

(** [write!] hands the pieces of the text to [write_all]; here they are one. *)
Definition write_subscription_fetch_request {S} {Writer : Write S} (url : Url) (source : SubscriptionFetchSource)
  (user_agent : string) : SM S IoError unit :=
  do! write_all (as_bytes (fetch_request_text url source user_agent));
  flush.

(** The request, the answer and its parser, over either stream. *)
Definition fetch_exchange {S} {Reader : RawRead S} {Writer : Write S} (url : Url) (source : SubscriptionFetchSource)
  (options : SubscriptionFetchOptions) (elapsed : Z) : SM S SubscriptionFetchError SubscriptionFetchResponse :=
  do! fetch_io Fetch_Write source (write_subscription_fetch_request url source (fo_user_agent options));
  response <-! read_subscription_fetch_response (fo_max_bytes options) source;
  sm_lift (parse_subscription_fetch_response response source elapsed (fo_max_bytes options)).

Definition subscription_fetch_source_from_url (url : Url) : result SubscriptionFetchError SubscriptionFetchSource :=
  host <-? ok_or (mkFetchError Fetch_MissingHost "subscription URL must include a host" None) (url_host_str url);
  port <-? ok_or (mkFetchError Fetch_UnsupportedScheme
                    ("unsupported subscription URL scheme: " +:+ url_scheme url) None)
    (url_port_or_known_default url);
  let path_present := negb (String.eqb (url_path url) "") && negb (String.eqb (url_path url) "/") in
  Ok (mkFetchSource (url_scheme url) host port (is_none (url_port url)) path_present (is_some (url_query url))).

Definition subscription_fetch_options (url : string) (timeout max_bytes : Z) : SubscriptionFetchOptions :=
  mkFetchOptions url timeout max_bytes ("keli-native-client/" +:+ CARGO_PKG_VERSION).

Section Connect.
Context {W : Type} {Net : PanelNetwork W}.

(** A computation on a stream that the caller owns. *)
Definition on_fetch_stream {S A} (stream : S) (m : SM S SubscriptionFetchError A)
  : SM W SubscriptionFetchError (S * A) :=
  fun w => let '(stream, r) := m stream in (w, result_map (pair stream) r).

Definition fetch_timeouts (source : SubscriptionFetchSource) (timeout : Z) : SM PanelTcp SubscriptionFetchError unit :=
  do! fetch_io Fetch_Read source (panel_set_read_timeout (Some timeout));
  fetch_io Fetch_Write source (panel_set_write_timeout (Some timeout)).

Fixpoint fetch_connect_addresses (addresses : list SocketAddr) (source : SubscriptionFetchSource) (timeout : Z)
  (last_error : option IoError) : SM W SubscriptionFetchError PanelTcp :=
  match addresses with
  | [] =>
      sm_lift (Err (fetch_error_at source Fetch_Connect (default "connect failed" (io_message <$> last_error))))
  | address :: addresses' => fun w =>
      match panel_connect_timeout address timeout w with
      | (w, Ok stream) => ('(stream, _) <-! on_fetch_stream stream (fetch_timeouts source timeout); sm_ret stream) w
      | (w, Err error) => fetch_connect_addresses addresses' source timeout (Some error) w
      | (w, Panic) => (w, Panic)
      end
  end.

Definition connect_subscription_fetch_socket (source : SubscriptionFetchSource) (timeout : Z)
  : SM W SubscriptionFetchError PanelTcp :=
  addresses <-! fetch_io Fetch_Resolve source (resolve_addresses (fs_host source) (fs_port source));
  if is_empty addresses then
    sm_lift (Err (fetch_error_at source Fetch_Resolve "subscription host did not resolve to any socket address"))
  else fetch_connect_addresses addresses source timeout None.

Definition fetch_subscription_over_http (url : Url) (source : SubscriptionFetchSource)
  (options : SubscriptionFetchOptions) (elapsed : Z) : SM W SubscriptionFetchError SubscriptionFetchResponse :=
  stream <-! connect_subscription_fetch_socket source (fo_timeout options);
  '(_, response) <-! on_fetch_stream stream (fetch_exchange url source options elapsed);
  sm_ret response.

(** [subscription_fetch_tls_config] fails with the versions of TLS only. *)
Definition subscription_fetch_tls_config : result SubscriptionFetchError unit :=
  match tls_versions_error with
  | Some error => Err (mkFetchError Fetch_Tls ("build TLS protocol versions: " +:+ error) None)
  | None => Ok tt
  end.

Definition fetch_subscription_over_https (url : Url) (source : SubscriptionFetchSource)
  (options : SubscriptionFetchOptions) (elapsed : Z) : SM W SubscriptionFetchError SubscriptionFetchResponse :=
  stream <-! connect_subscription_fetch_socket source (fo_timeout options);
  do! sm_lift
    (match server_name_error (fs_host source) with
     | Some error => Err (fetch_error_at source Fetch_Tls ("invalid TLS server name: " +:+ error))
     | None => Ok tt
     end);
  do! sm_lift subscription_fetch_tls_config;
  stream <-! sm_lift
    (of_library (fun error => fetch_error_at source Fetch_Tls ("create TLS connection: " +:+ error))
       (client_connection (fs_host source) stream));
  '(_, response) <-! on_fetch_stream stream (fetch_exchange url source options elapsed);
  sm_ret response.

Definition fetch_subscription_config_text (options : SubscriptionFetchOptions) (elapsed : Z)
  : SM W SubscriptionFetchError SubscriptionFetchResponse :=
  url <-! sm_lift
    (of_library (fun error => mkFetchError Fetch_InvalidUrl ("invalid subscription URL: " +:+ error) None)
       (url_parse (fo_url options)));
  source <-! sm_lift (subscription_fetch_source_from_url url);
  if String.eqb (url_scheme url) "http" then fetch_subscription_over_http url source options elapsed
  else if String.eqb (url_scheme url) "https" then fetch_subscription_over_https url source options elapsed
  else
    sm_lift (Err (fetch_error_at source Fetch_UnsupportedScheme
                    ("unsupported subscription URL scheme: " +:+ url_scheme url))).

(** [fetch_subscription_url_config_text]: what the managed core is given, and [None] for a
    panic. *)
Definition fetch_url_config_text (elapsed : Z) (url : string) (timeout max_bytes : Z) (w : W)
  : W * option (ManagedSubscriptionUrlFetchOutcome * option string) :=
  match fetch_subscription_config_text (subscription_fetch_options url timeout max_bytes) elapsed w with
  | (w, Ok response) => (w, Some (fetch_from_response response, Some (fr_body response)))
  | (w, Err error) => (w, Some (fetch_from_error error, None))
  | (w, Panic) => (w, None)
  end.

End Connect.
End Fetch.

(** ** The size of what is fetched *)

Lemma string_of_bytes_size l : Z.of_nat (String.length (string_of_bytes l)) = len l.
Proof. unfold len. induction l as [|b l IH]; cbn; lia. Qed.

Lemma string_from_utf8_size l text : string_from_utf8 l = inr text -> Z.of_nat (String.length text) = len l.
Proof. unfold string_from_utf8. case_match; [done|]. intros [= <-]. apply string_of_bytes_size. Qed.

(** A chunk that is taken has the length that was announced, and it fits. *)
Lemma fetch_chunk_size body offset taken max_bytes source chunk next :
  0 <= taken -> max_bytes < usize_max ->
  fetch_chunk body offset taken max_bytes source = Ok (Some (chunk, next)) -> taken + len chunk <= max_bytes.
Proof.
  intros Ht Hmax. unfold fetch_chunk. intros (rest & _ & H)%result_bind_ok.
  apply result_bind_ok in H as (index & _ & H). apply result_bind_ok in H as (line & _ & H).
  apply result_bind_ok in H as (n & _ & H). destruct (n =? 0); [done|].
  destruct (usize_max <? _); [done|]. apply result_bind_ok in H as (after & Ha & H).
  destruct (len body <? after); [done|]. apply result_bind_ok in H as (delimiter & _ & H).
  destruct (negb _); [done|]. destruct (max_bytes <? usize_saturating_add taken n) eqn:Hl; [done|].
  apply result_bind_ok in H as (piece & Hs & [= -> _]). unfold slice in Hs.
  destruct (_ && _ && _) eqn:Hb; [|done]. injection Hs as <-.
  rewrite len_sub_list by lia. unfold usize_saturating_add in Hl. lia.
Qed.

Lemma fetch_chunks_size fuel body offset decoded max_bytes source result :
  max_bytes < usize_max -> len decoded <= max_bytes ->
  fetch_chunks fuel body offset decoded max_bytes source = Ok result -> len result <= max_bytes.
Proof.
  intros Hmax. revert offset decoded. induction fuel as [|fuel IH]; intros offset decoded Hd; [done|].
  cbn [fetch_chunks]. intros (chunk & Hc & H)%result_bind_ok. destruct chunk as [[chunk next]|].
  - apply IH in H; [done|]. rewrite len_app.
    apply fetch_chunk_size in Hc; [lia|apply len_nonneg|done].
  - by injection H as <-.
Qed.

Lemma parse_fetch_size response source elapsed max_bytes parsed :
  max_bytes < usize_max -> 0 <= max_bytes -> len response <= max_bytes ->
  parse_subscription_fetch_response response source elapsed max_bytes = Ok parsed ->
  200 <= fr_status_code parsed < 300 /\ fr_source parsed = source /\
  Z.of_nat (String.length (fr_body parsed)) = fr_body_bytes parsed /\ fr_body_bytes parsed <= max_bytes.
Proof.
  intros Hmax H0 Hr. unfold parse_subscription_fetch_response. intros (header_end & Hh & H)%result_bind_ok.
  apply result_bind_ok in H as (headers & _ & H). apply result_bind_ok in H as (status & _ & H).
  destruct (negb _) eqn:Hs; [done|]. apply result_bind_ok in H as (body & Hb & H).
  apply result_bind_ok in H as (decoded & Hd & H). apply result_bind_ok in H as (text & Ht & [= <-]). cbn.
  assert (Htext : Z.of_nat (String.length text) = len decoded).
  { destruct (string_from_utf8 decoded) as [error|text'] eqn:Eu; [done|]. injection Ht as <-.
    by apply string_from_utf8_size in Eu. }
  split_and!; [lia|lia|done|done|].
  destruct (is_chunked_fetch _); [eapply fetch_chunks_size; [done|by rewrite len_nil|exact Hd]|]. injection Hd as <-.
  unfold slice in Hb. destruct (_ && _ && _) eqn:E; [|done]. injection Hb as <-.
  destruct (find_http_header_end response) as [i|] eqn:Ei; [|done]. injection Hh as <-.
  apply find_window_bound in Ei. rewrite len_sub_list by lia. lia.
Qed.

(** ** Totality *)

(** Where the text of a chunk length is cut from, it is below 2^63. *)
Definition modest_lengths (response : list Z) : Prop :=
  forall a b n, usize_from_hex (trim (default "" (head (split_on ";" (from_utf8_lossy (sub_list response a b)))))) = inr n ->
    n < 2 ^ 63.

Lemma fetch_chunk_returns body offset taken max_bytes source :
  len body <= 2 ^ 62 -> modest_lengths body -> 0 <= offset <= len body ->
  returns (fetch_chunk body offset taken max_bytes source)
    (fun chunk => match chunk with Some (_, next) => offset < next <= len body | None => True end).
Proof.
  intros Hlim Hm Ho. unfold fetch_chunk. rewrite slice_ok by lia. cbn [result_bind].
  destruct (find_window _ _) as [i|] eqn:Hi; [|done]. cbn [ok_or result_bind].
  apply find_window_bound in Hi as [Hi0 Hi]. rewrite len_sub_list in Hi by lia.
  change (len [13; 10]) with 2 in Hi. rewrite slice_ok by lia. cbn [result_bind].
  destruct (usize_from_hex _) as [|n] eqn:Hn; [done|]. cbn [of_library result_bind].
  pose proof (usize_from_hex_nonneg _ _ Hn). apply Hm in Hn.
  destruct (n =? 0) eqn:H0; [done|]. destruct (usize_max <? _) eqn:Hu; [done|].
  unfold usize_sum, usize_max in *. replace (_ <? offset + i + 2 + n + 2) with false by lia. cbn [result_bind].
  destruct (len body <? _) eqn:Hb; [done|]. rewrite slice_ok by lia. cbn [result_bind].
  destruct (negb _); [done|]. case_match; [done|]. rewrite slice_ok by lia. cbn. lia.
Qed.

Lemma fetch_chunks_total fuel body offset decoded max_bytes source :
  len body <= 2 ^ 62 -> modest_lengths body -> 0 <= offset <= len body -> len body - offset < Z.of_nat fuel ->
  fetch_chunks fuel body offset decoded max_bytes source <> Panic.
Proof.
  intros Hlim Hm. revert offset decoded. induction fuel as [|fuel IH]; intros offset decoded Ho Hf; [lia|].
  cbn [fetch_chunks]. pose proof (fetch_chunk_returns body offset (len decoded) max_bytes source Hlim Hm Ho) as Hr.
  destruct (fetch_chunk _ _ _ _ _) as [[[chunk next]|]| |]; cbn in *; try done. apply IH; lia.
Qed.

Lemma modest_tail response i : 0 <= i <= len response -> modest_lengths response -> modest_lengths (sub_list response i (len response)).
Proof.
  intros Hi Hm a b n.
  assert (E : sub_list (sub_list response i (len response)) a b =
              sub_list response (i + Z.max a 0) (i + Z.max a 0 + (b - a))).
  { unfold sub_list. rewrite (take_ge (drop (Z.to_nat i) response)) by (rewrite length_drop; unfold len; lia).
    rewrite drop_drop. f_equal; [lia|]. f_equal. lia. }
  rewrite E. apply Hm.
Qed.

Lemma parse_fetch_total response source elapsed max_bytes :
  len response <= 2 ^ 62 -> modest_lengths response ->
  parse_subscription_fetch_response response source elapsed max_bytes <> Panic.
Proof.
  intros Hlim Hm. unfold parse_subscription_fetch_response.
  destruct (find_http_header_end response) as [i|] eqn:Hi; [|done]. cbn [ok_or result_bind].
  apply find_window_bound in Hi as [Hi0 Hi]. change (len [13; 10; 13; 10]) with 4 in Hi.
  rewrite slice_ok by lia. cbn [result_bind]. destruct (parse_http_status_code _); [|done]. cbn [ok_or result_bind].
  case_match; [done|]. rewrite slice_ok by lia. cbn [result_bind].
  pose proof (modest_tail response (i + 4) ltac:(lia) Hm) as Hb.
  assert (Hlen : len (sub_list response (i + 4) (len response)) <= 2 ^ 62) by (rewrite len_sub_list by lia; lia).
  set (body := sub_list response (i + 4) (len response)) in *. clearbody body. pose proof (len_nonneg body).
  apply bind_total.
  - case_match; [|done]. apply fetch_chunks_total; [done|done|lia|]. unfold len. lia.
  - intros decoded. by destruct (string_from_utf8 decoded).
Qed.

(** ** The exchange *)

Section Exchanges.
Context {S : Type} {Reader : RawRead S} {Writer : Write S}.

Lemma fetch_io_safe {A} kind source (m : SM S IoError A) :
  never_panics m -> safe anywhere (fetch_io kind source m) (fun _ _ => True).
Proof.
  intros Hm. apply (safe_zoom anywhere id (fun s _ => s) _ m (fun _ => True)).
  intros s _. split; [done|]. specialize (Hm s). unfold id. by destruct (snd (m s)).
Qed.

Lemma read_fetch_safe fuel max_bytes source response :
  never_panics (raw_read (S := S) 8192) -> max_bytes < usize_max ->
  len response <= max_bytes -> max_bytes - len response < Z.of_nat fuel ->
  safe anywhere (read_fetch (S := S) fuel max_bytes source response) (fun result _ => len result <= max_bytes).
Proof.
  intros Hread Hmax. revert response. induction fuel as [|fuel IH]; intros response Hb Hf; [lia|].
  cbn [read_fetch]. eapply safe_bind with (P := fun _ => True); [by apply fetch_io_safe|].
  intros buffer _. destruct (len buffer =? 0) eqn:H0; [by intros s _|].
  pose proof (len_nonneg buffer). unfold usize_saturating_add.
  destruct (max_bytes <? _) eqn:Hl; [by intros s _|]. apply IH; rewrite len_app; lia.
Qed.

(** What is read fits the limit, whether or not the stream panics. *)
Lemma read_fetch_size fuel max_bytes source response s s' result :
  max_bytes < usize_max -> len response <= max_bytes ->
  read_fetch (S := S) fuel max_bytes source response s = (s', Ok result) -> len result <= max_bytes.
Proof.
  intros Hmax. revert response s. induction fuel as [|fuel IH]; intros response s Hb; [done|].
  cbn [read_fetch]. intros (s1 & buffer & _ & Hr)%sm_bind_Ok. destruct (len buffer =? 0); [by injection Hr as _ <-|].
  unfold usize_saturating_add in Hr. destruct (max_bytes <? _) eqn:Hl; [done|].
  apply IH in Hr; [done|]. rewrite len_app. lia.
Qed.

(** ** What is taken from the stream *)

(** The stream, with the bytes that were read from it. *)
#[local] Instance metered_read : RawRead (S * list Z) :=
  {| raw_read := fun n '(s, seen) =>
       match raw_read n s with
       | (s, Ok bytes) => ((s, seen ++ bytes), Ok bytes)
       | (s, Err error) => ((s, seen), Err error)
       | (s, Panic) => ((s, seen), Panic)
       end |}.

#[local] Instance metered_write : Write (S * list Z) :=
  {| write_all := fun bytes => sm_zoom fst (fun s p => (s, snd p)) id (write_all bytes);
     flush := sm_zoom fst (fun s p => (s, snd p)) id flush |}.

(** The contract of [Read::read]: no more bytes than the buffer has. *)
Definition read_contract : Prop :=
  forall s s' bytes, raw_read (S := S) 8192 s = (s', Ok bytes) -> len bytes <= 8192.

Definition seen_of {E A} (outcome : (S * list Z) * result E A) : list Z := snd (fst outcome).

Lemma metered_request {Lib : UrlLibrary} (url : Url) source agent s seen :
  seen_of (fetch_io Fetch_Write source (write_subscription_fetch_request url source agent) (s, seen)) = seen.
Proof.
  unfold seen_of, fetch_io, write_subscription_fetch_request, sm_zoom, sm_bind, id. cbn. unfold sm_zoom, id. cbn.
  destruct (write_all _ s) as [s1 [[]| |]]; cbn; try done. unfold sm_zoom. cbn. by destruct (flush s1) as [s2 [[]| |]].
Qed.

(** The loop keeps all it reads, and stops within one buffer behind the limit. *)
Lemma read_fetch_seen fuel max_bytes source response s seen :
  read_contract -> max_bytes < usize_max -> len response <= max_bytes ->
  let outcome := read_fetch (S := S * list Z) fuel max_bytes source response (s, seen) in
  exists more, seen_of outcome = seen ++ more /\ len response + len more <= max_bytes + 8192 /\
    forall result, outcome.2 = Ok result -> result = response ++ more /\ len result <= max_bytes.
Proof.
  intros Hread Hmax. revert response s seen. induction fuel as [|fuel IH]; intros response s seen Hb; cbn zeta.
  { exists []. rewrite app_nil_r, len_nil. by split_and!; [|lia|]. }
  cbn [read_fetch]. unfold sm_bind at 1 2. unfold fetch_io, sm_zoom, id. cbn [raw_read metered_read].
  destruct (raw_read 8192 s) as [s1 [buffer|error|]] eqn:Hr; cbn [map_err];
    [|exists []; rewrite app_nil_r, len_nil; by split_and!; [|lia|]..].
  apply Hread in Hr. pose proof (len_nonneg buffer). destruct (len buffer =? 0) eqn:H0.
  { assert (buffer = []) as -> by (destruct buffer; [done|]; rewrite len_cons in *; pose proof (len_nonneg buffer); lia).
    exists []. rewrite !app_nil_r, len_nil. split_and!; [done|lia|]. by intros result [= <-]. }
  unfold usize_saturating_add. destruct (max_bytes <? _) eqn:Hl.
  { exists buffer. split_and!; [done|lia|done]. }
  destruct (IH (response ++ buffer) s1 (seen ++ buffer)) as (more & Hs & Hn & Hres); [rewrite len_app; lia|].
  exists (buffer ++ more). rewrite Hs, <- app_assoc. rewrite len_app in *. split_and!; [done|lia|].
  intros result Ho. destruct (Hres result Ho) as [-> Hle]. rewrite <- app_assoc in *. done.
Qed.

(** C30: A fetched subscription is within the limit the caller gave (one below 2^62), whatever
    the server sends, framed or not. The whole answer, header included, is what was read from
    the stream, and it has no more bytes than the limit: what is returned is what the parser
    makes of all of it, comes with a status of success, and its length, which is reported, is
    within the limit too. However the exchange ends, at most the limit and one buffer of 8 KiB
    are read from the stream, and the loop that reads them ends. The stream keeps to the
    contract of [Read]. *)
Theorem fetch_stays_within_limit {Lib : UrlLibrary} (url : Url) (source : SubscriptionFetchSource)
  (options : SubscriptionFetchOptions) (elapsed : Z) (s : S) :
  0 <= fo_max_bytes options < 2 ^ 62 -> never_panics (raw_read (S := S) 8192) -> read_contract ->
  never_panics (read_subscription_fetch_response (S := S) (fo_max_bytes options) source) /\
  let outcome := fetch_exchange url source options elapsed (s, []) in
  len (seen_of outcome) <= fo_max_bytes options + 8192 /\
  forall response, outcome.2 = Ok response ->
    len (seen_of outcome) <= fo_max_bytes options /\
    parse_subscription_fetch_response (seen_of outcome) source elapsed (fo_max_bytes options) = Ok response /\
    200 <= fr_status_code response < 300 /\ fr_source response = source /\
    Z.of_nat (String.length (fr_body response)) = fr_body_bytes response /\
    fr_body_bytes response <= fo_max_bytes options.
Proof.
  intros Hm Hread Hc. assert (Hmax : fo_max_bytes options < usize_max) by (unfold usize_max; lia). split.
  { eapply safe_never_panics, read_fetch_safe; rewrite ?len_nil; [done|done|lia|lia]. }
  cbn zeta. destruct (fetch_exchange url source options elapsed (s, [])) as [[s' seen] outcome] eqn:E.
  unfold fetch_exchange, sm_bind at 1 in E. unfold seen_of. cbn [fst snd].
  pose proof (metered_request url source (fo_user_agent options) s []) as Hw.
  destruct (fetch_io Fetch_Write source _ _) as [[s1 seen1] [[]|error|]]; unfold seen_of in Hw; cbn in Hw; subst seen1;
    [|injection E as _ <- <-; rewrite len_nil; split; [lia|done]..].
  destruct (read_fetch_seen (Z.to_nat (fo_max_bytes options + 1)) (fo_max_bytes options) source [] s1 []) as
    (more & Hs & Hn & Hres); [done|done|by rewrite len_nil; lia|].
  change (read_fetch (S := S * list Z) _ _ _ _) with
    (read_subscription_fetch_response (S := S * list Z) (fo_max_bytes options) source) in *.
  unfold sm_bind in E. destruct (read_subscription_fetch_response _ source (s1, [])) as [[s2 seen2] answer].
  unfold seen_of in Hs. cbn in Hs, Hres. subst seen2. rewrite len_nil in Hn.
  destruct answer as [bytes|error|]; [|injection E as _ <- <-; split; [lia|done]..].
  destruct (Hres bytes eq_refl) as [-> Hlen]. injection E as _ <- <-. split; [lia|]. intros response Hp.
  pose proof (parse_fetch_size _ _ _ _ _ Hmax (proj1 Hm) Hlen Hp) as (? & ? & ? & ?). done.
Qed.

End Exchanges.

(** ** Answers *)

(** An answer of success, with its body up to the end of the stream or in chunks. *)
Inductive FetchFraming : Type :=
| UntilClose
| InChunks (chunks : list Chunk) (last_line trailer : list Z).

Definition fetch_framed (framing : FetchFraming) (body : list Z) : list Z :=
  match framing with
  | UntilClose => body
  | InChunks chunks last_line trailer => chunked_body chunks last_line trailer
  end.

Definition fetch_announces (head : list Z) (framing : FetchFraming) (body : list Z) : Prop :=
  let chunked := is_chunked_fetch (tail (lines (string_of_bytes head))) in
  match framing with
  | UntilClose => chunked = false
  | InChunks chunks last_line trailer =>
      chunked = true /\ Forall chunk_ok chunks /\ Forall (fun chunk => chunk_end chunk = [13; 10]) chunks /\
      denotes last_line 0 /\ concat (map chunk_data chunks) = body
  end.

Definition fetch_head_ok (head : list Z) (status : Z) : Prop :=
  utf8_valid head = true /\ find_http_header_end (head ++ blank_line) = Some (len head) /\
  parse_http_status_code (default "" (List.hd_error (lines (string_of_bytes head)))) = Some status.

(** What a round of the loop does after the line with the length. *)
Lemma fetch_chunk_line pre line n rest taken max_bytes source :
  denotes line n ->
  fetch_chunk (pre ++ line ++ [13; 10] ++ rest) (len pre) taken max_bytes source =
  (let body := pre ++ line ++ [13; 10] ++ rest in
   let offset := len pre + len line + 2 in
   let truncated := fetch_error_at source Fetch_InvalidResponse "chunked subscription response is truncated" in
   if n =? 0 then Ok None
   else if usize_max <? offset + n then
     Err (fetch_error_at source Fetch_InvalidResponse "chunked subscription response length overflowed")
   else
     after <-? usize_sum (offset + n) 2;
     if len body <? after then Err truncated
     else
       delimiter <-? slice body (offset + n) after;
       if negb (bool_decide (delimiter = [13; 10])) then Err truncated
       else if max_bytes <? usize_saturating_add taken n then
         Err (fetch_error_at source Fetch_ResponseTooLarge
                ("decoded subscription body exceeded max-bytes limit: " +:+ to_decimal max_bytes))
       else chunk <-? slice body offset (offset + n); Ok (Some (chunk, after))).
Proof.
  intros (H13 & Hutf & Hsize). unfold fetch_chunk.
  rewrite slice_rest. cbn [result_bind]. rewrite (find_crlf_line line rest H13 : find_window [13; 10] _ = _).
  cbn [ok_or result_bind]. rewrite slice_mid. cbn [result_bind].
  rewrite from_utf8_lossy_valid, Hsize by done. reflexivity.
Qed.

Lemma fetch_chunk_data pre chunk rest taken max_bytes source :
  chunk_ok chunk -> chunk_end chunk = [13; 10] -> len (pre ++ chunk_bytes chunk ++ rest) <= 2 ^ 62 ->
  0 <= taken -> taken + len (chunk_data chunk) <= max_bytes -> max_bytes < 2 ^ 62 ->
  fetch_chunk (pre ++ chunk_bytes chunk ++ rest) (len pre) taken max_bytes source =
  Ok (Some (chunk_data chunk, len (pre ++ chunk_bytes chunk))).
Proof.
  destruct chunk as [line data delim]. unfold chunk_bytes. cbn [size_line chunk_data chunk_end].
  intros (Hd & Hne & _) -> Hlim Ht Hfit Hmax. cbn [size_line chunk_data] in *.
  assert (Hbytes : pre ++ (line ++ [13; 10] ++ data ++ [13; 10]) ++ rest =
                   pre ++ line ++ [13; 10] ++ (data ++ [13; 10] ++ rest)) by (by rewrite <- !app_assoc).
  rewrite Hbytes in *. rewrite fetch_chunk_line with (n := len data) by done. cbn zeta.
  assert (0 < len data) by (destruct data; [done|]; rewrite len_cons; pose proof (len_nonneg data); lia).
  pose proof (len_nonneg pre). pose proof (len_nonneg line). pose proof (len_nonneg rest).
  assert (Hsum : len (pre ++ line ++ [13; 10] ++ data ++ [13; 10] ++ rest) =
                 len pre + len line + 2 + len data + 2 + len rest)
    by (rewrite !len_app; change (len [13; 10]) with 2; lia).
  rewrite Hsum in *. unfold usize_sum, usize_saturating_add, usize_max in *.
  replace (len data =? 0) with false by lia. replace (_ <? len pre + len line + 2 + len data) with false by lia.
  replace (_ <? len pre + len line + 2 + len data + 2) with false by lia. cbn [result_bind].
  replace (_ <? len pre + len line + 2 + len data + 2) with false by lia.
  assert (Hpre : len ((pre ++ line) ++ [13; 10]) = len pre + len line + 2)
    by (rewrite !len_app; change (len [13; 10]) with 2; lia).
  assert (Hdelim : slice (E := SubscriptionFetchError) (pre ++ line ++ [13; 10] ++ data ++ [13; 10] ++ rest)
    (len pre + len line + 2 + len data) (len pre + len line + 2 + len data + 2) = Ok [13; 10]).
  { replace (pre ++ line ++ [13; 10] ++ data ++ [13; 10] ++ rest)
      with ((((pre ++ line) ++ [13; 10]) ++ data) ++ [13; 10] ++ rest) by (by rewrite <- !app_assoc).
    replace (len pre + len line + 2 + len data) with (len (((pre ++ line) ++ [13; 10]) ++ data))
      by (rewrite len_app, Hpre; lia). apply slice_mid. }
  rewrite Hdelim. cbn [result_bind]. rewrite bool_decide_true by done. cbn [negb].
  replace (max_bytes <? _) with false by lia.
  rewrite (app_assoc pre), (app_assoc (pre ++ line)), <- Hpre, slice_mid. cbn [result_bind].
  do 3 f_equal. rewrite !len_app. change (len [13; 10]) with 2. lia.
Qed.

(** Chunks in front of whatever follows. *)
Lemma fetch_chunks_skip fuel pre chunks rest decoded max_bytes source :
  Forall chunk_ok chunks -> Forall (fun chunk => chunk_end chunk = [13; 10]) chunks ->
  len (pre ++ concat (map chunk_bytes chunks) ++ rest) <= 2 ^ 62 ->
  len decoded + len (concat (map chunk_data chunks)) <= max_bytes -> max_bytes < 2 ^ 62 ->
  fetch_chunks (length chunks + fuel) (pre ++ concat (map chunk_bytes chunks) ++ rest) (len pre) decoded max_bytes source =
  fetch_chunks fuel (pre ++ concat (map chunk_bytes chunks) ++ rest) (len (pre ++ concat (map chunk_bytes chunks)))
    (decoded ++ concat (map chunk_data chunks)) max_bytes source.
Proof.
  intros Hc He. revert pre decoded.
  induction Hc as [|chunk chunks Hchunk Hc IH]; intros pre decoded Hlim Hfit Hmax; cbn [map concat length Nat.add].
  { by rewrite !app_nil_r. }
  cbn [fetch_chunks]. pose proof (Forall_inv He) as Hend. apply Forall_inv_tail in He. cbn beta in Hend.
  cbn [map concat] in *. rewrite <- (app_assoc (chunk_bytes chunk)) in *. rewrite len_app in Hfit.
  pose proof (len_nonneg decoded). pose proof (len_nonneg (concat (map chunk_data chunks))).
  rewrite fetch_chunk_data by (done || lia). cbn [result_bind].
  rewrite !(app_assoc pre) in *. rewrite IH; [|done|done|rewrite len_app; lia|done]. by rewrite <- !app_assoc.
Qed.

Lemma fetch_chunks_body fuel pre chunks line trailer decoded max_bytes source :
  Forall chunk_ok chunks -> Forall (fun chunk => chunk_end chunk = [13; 10]) chunks -> denotes line 0 ->
  (length chunks < fuel)%nat -> len (pre ++ chunked_body chunks line trailer) <= 2 ^ 62 ->
  len decoded + len (concat (map chunk_data chunks)) <= max_bytes -> max_bytes < 2 ^ 62 ->
  fetch_chunks fuel (pre ++ chunked_body chunks line trailer) (len pre) decoded max_bytes source =
  Ok (decoded ++ concat (map chunk_data chunks)).
Proof.
  intros Hc He Hl Hf Hlim Hfit Hmax. unfold chunked_body in *.
  replace fuel with (length chunks + S (fuel - length chunks - 1))%nat by lia.
  rewrite fetch_chunks_skip by done. rewrite app_assoc. cbn [fetch_chunks].
  by rewrite fetch_chunk_line with (n := 0).
Qed.

(** What is left to do once the header is read. *)
Lemma parse_fetch_head head status tail_bytes source elapsed max_bytes :
  fetch_head_ok head status -> 200 <= status < 300 ->
  parse_subscription_fetch_response (head ++ blank_line ++ tail_bytes) source elapsed max_bytes =
  (body <-? (if is_chunked_fetch (tail (lines (string_of_bytes head)))
             then decode_chunked_subscription_body tail_bytes max_bytes source else Ok tail_bytes);
   text <-? of_library (fun error => fetch_error_at source Fetch_Utf8 ("subscription body is not UTF-8: " +:+ error))
     (string_from_utf8 body);
   Ok (mkFetchResponse source status text (len body) elapsed)).
Proof.
  intros (Hutf & Hend & Hstatus) Hs. unfold parse_subscription_fetch_response.
  rewrite app_assoc, (find_window_app _ _ _ _ Hend), <- app_assoc. cbn [ok_or result_bind].
  pose proof (slice_mid (E := SubscriptionFetchError) [] head (blank_line ++ tail_bytes)) as Hh.
  change (len (@nil Z)) with 0 in Hh. rewrite Z.add_0_l in Hh. cbn [app] in Hh. rewrite Hh. cbn [result_bind].
  rewrite from_utf8_lossy_valid, Hstatus by done. cbn [ok_or result_bind].
  replace ((200 <=? status) && (status <? 300)) with true by lia. cbn [negb].
  rewrite (app_assoc head), (slice_app_tail (E := SubscriptionFetchError)); [done|rewrite len_app; done|by rewrite !len_app].
Qed.

(** An answer is understood in both framings: the text that is returned is the body the
    server sent, however it cut it into chunks. *)
Theorem fetched_subscription_understood head status framing body source elapsed max_bytes :
  fetch_head_ok head status -> 200 <= status < 300 -> fetch_announces head framing body -> utf8_valid body = true ->
  len (head ++ blank_line ++ fetch_framed framing body) <= max_bytes -> max_bytes < 2 ^ 62 ->
  parse_subscription_fetch_response (head ++ blank_line ++ fetch_framed framing body) source elapsed max_bytes =
  Ok (mkFetchResponse source status (string_of_bytes body) (len body) elapsed).
Proof.
  intros Hhead Hs Ha Hbody Hlim Hmax. rewrite (parse_fetch_head head status) by done.
  rewrite !len_app in Hlim. pose proof (len_nonneg head). change (len blank_line) with 4 in Hlim.
  destruct framing as [|chunks last_line trailer]; cbn [fetch_announces fetch_framed] in *.
  - rewrite Ha. cbn [result_bind]. by rewrite string_from_utf8_valid.
  - destruct Ha as (-> & Hc & He & Hl & <-). unfold decode_chunked_subscription_body.
    pose proof (chunk_count chunks Hc) as Hle. pose proof (chunk_data_size chunks) as Hdata.
    assert (Hbytes : len (concat (map chunk_bytes chunks)) <= len (chunked_body chunks last_line trailer)).
    { unfold chunked_body. rewrite len_app. pose proof (len_nonneg (last_line ++ [13; 10] ++ trailer)). lia. }
    rewrite (fetch_chunks_body _ [] chunks last_line trailer []); [|done..| |cbn [app]; lia|rewrite len_nil; lia|done].
    + cbn [result_bind app]. by rewrite string_from_utf8_valid.
    + unfold chunked_body. rewrite length_app. lia.
Qed.

(** C31: A server can make the client panic. Let an answer of success that the reader took
    (so that it is within the limit, which is below 2^62) announce chunks, send any number of
    good ones and then a line with a length that ends in the last two places of the address
    space: its sum with the offset passes the check for overflow, the sum with the two bytes of
    the line break does not, and the whole exchange panics. *)
Theorem huge_chunk_panics {S} {Reader : RawRead S} {Writer : Write S} {Lib : UrlLibrary} (url : Url)
  source options elapsed (s s1 s2 : S) head status chunks line n rest :
  fo_max_bytes options < 2 ^ 62 ->
  fetch_head_ok head status -> 200 <= status < 300 ->
  is_chunked_fetch (tail (lines (string_of_bytes head))) = true ->
  Forall chunk_ok chunks -> Forall (fun chunk => chunk_end chunk = [13; 10]) chunks ->
  denotes line n ->
  usize_max - 2 < len (concat (map chunk_bytes chunks)) + len line + 2 + n <= usize_max ->
  fetch_io Fetch_Write source (write_subscription_fetch_request url source (fo_user_agent options)) s = (s1, Ok tt) ->
  read_subscription_fetch_response (fo_max_bytes options) source s1 =
    (s2, Ok (head ++ blank_line ++ concat (map chunk_bytes chunks) ++ line ++ [13; 10] ++ rest)) ->
  0 <= fo_max_bytes options ->
  fetch_exchange url source options elapsed s = (s2, Panic).
Proof.
  intros Hmax Hhead Hs Hchunked Hc He Hline Hn Hw Hr H0.
  apply read_fetch_size in Hr as Hlen; [|unfold usize_max; lia|by rewrite len_nil].
  unfold fetch_exchange, sm_bind at 1. rewrite Hw. unfold sm_bind. rewrite Hr. unfold sm_lift. f_equal.
  rewrite (parse_fetch_head head status), Hchunked by done. unfold decode_chunked_subscription_body.
  set (body := concat _ ++ _). pose proof (chunk_count chunks Hc) as Hcount. pose proof (chunk_data_size chunks) as Hdata.
  rewrite (len_app head), (len_app blank_line) in Hlen. fold body in Hlen. pose proof (len_nonneg head). change (len blank_line) with 4 in Hlen.
  pose proof (len_nonneg line). pose proof (len_nonneg rest).
  assert (Hbody : len (concat (map chunk_bytes chunks)) + len line <= len body)
    by (unfold body; rewrite !len_app; change (len [13; 10]) with 2; lia).
  replace (Datatypes.S (length body)) with (length chunks + Datatypes.S (length body - length chunks))%nat
    by (unfold len in *; lia).
  rewrite (fetch_chunks_skip _ [] chunks (line ++ [13; 10] ++ rest) []); [|done|done|change (len body <= 2 ^ 62); lia|rewrite len_nil; lia|done].
  rewrite !app_nil_l. cbn [fetch_chunks]. rewrite fetch_chunk_line with (n := n) by done. cbn zeta.
  replace (n =? 0) with false by (unfold usize_max in *; lia).
  replace (usize_max <? _) with false by lia. unfold usize_sum. by replace (usize_max <? _) with true by lia.
Qed.

(** The client of the panel, which saturates, refuses such an answer. *)
Example panel_refuses_huge_chunk :
  parse_http_response (chunked_head ++ blank_line ++ as_bytes ("ffffffffffffffed" +:+ crlf)) =
    Err (panel_error "http" "chunk body is incomplete").
Proof. vm_compute. reflexivity. Qed.

(** A body without a length is what arrived: an announced length is not looked at. *)
Example cut_body_accepted source elapsed :
  parse_subscription_fetch_response (length_head ++ blank_line ++ as_bytes "proxies:") source elapsed 1000 =
  Ok (mkFetchResponse source 200 "proxies:" 8 elapsed).
Proof. vm_compute. reflexivity. Qed.

Definition sample_source : SubscriptionFetchSource := mkFetchSource "http" "panel.example" 80 true false false.

Definition sample_options : SubscriptionFetchOptions :=
  subscription_fetch_options "http://panel.example/" 15000000000 200.

Definition two_chunk_body : list Z := chunked_body two_chunks (as_bytes "0") (as_bytes (crlf +:+ crlf)).

Lemma ready_read_contract n s s' bytes :
  0 <= n -> raw_read (RawRead := ready_read) n s = (s', Ok bytes) -> len bytes <= n.
Proof. intros Hn [= _ <-]. unfold len. rewrite length_take. lia. Qed.

(** A chunked answer over a stream that has it ready. *)
Lemma fetch_stays_within_limit_witness :
  exists response,
    let outcome := fetch_exchange (Reader := metered_read (Reader := ready_read))
      (Writer := metered_write (Writer := ready_write)) (Lib := @panel_url sample_panel) sample_url
      sample_source sample_options 3 (chunked_head ++ blank_line ++ two_chunk_body, []) in
    outcome.2 = Ok response /\ fr_body response = "hello, panel :)" /\
    len (seen_of outcome) <= 200.
Proof.
  exists (mkFetchResponse sample_source 200 "hello, panel :)" 15 3). cbn zeta.
  assert (Hr : (fetch_exchange (Reader := metered_read (Reader := ready_read))
      (Writer := metered_write (Writer := ready_write)) (Lib := @panel_url sample_panel) sample_url
      sample_source sample_options 3 (chunked_head ++ blank_line ++ two_chunk_body, [])).2 =
      Ok (mkFetchResponse sample_source 200 "hello, panel :)" 15 3)) by (vm_compute; reflexivity).
  split; [exact Hr|]. split; [reflexivity|].
  destruct (fetch_stays_within_limit (Reader := ready_read) (Writer := ready_write) (Lib := @panel_url sample_panel)
    sample_url sample_source sample_options 3 (chunked_head ++ blank_line ++ two_chunk_body)) as [_ [_ H]].
  - cbn. lia.
  - intros s. discriminate.
  - intros s s' bytes. by apply ready_read_contract.
  - apply (H _ Hr).
Defined.

(** A line denotes its length. *)
Ltac sample_length :=
  split; [apply (bool_decide_unpack _); vm_compute; exact I|split; vm_compute; reflexivity].

(** A huge length after a chunk that is good. *)
Definition huge_answer : list Z :=
  chunked_head ++ blank_line ++ concat (map chunk_bytes (take 1 two_chunks))
  ++ as_bytes "ffffffffffffffdc" ++ [13; 10] ++ [].

Lemma huge_chunk_panics_witness :
  (fetch_exchange (Reader := ready_read) (Writer := ready_write) (Lib := @panel_url sample_panel) sample_url
    sample_source sample_options 3 huge_answer).2 = Panic.
Proof.
  erewrite (huge_chunk_panics (Reader := ready_read) (Writer := ready_write) (Lib := @panel_url sample_panel) sample_url
    sample_source sample_options 3 huge_answer huge_answer [] chunked_head 200 (take 1 two_chunks)
    (as_bytes "ffffffffffffffdc") 18446744073709551580 []).
  - reflexivity.
  - reflexivity.
  - vm_compute. done.
  - lia.
  - vm_compute. reflexivity.
  - constructor; [|constructor]. split; [sample_length|]. split; [done|reflexivity].
  - constructor; [reflexivity|constructor].
  - sample_length.
  - vm_compute. split; congruence.
  - vm_compute. reflexivity.
  - vm_compute. reflexivity.
  - cbn. lia.
Defined.
