(* ===== verification/Desktop.v ===== *)
(** * The desktop: what it shows

    [crates/keli-desktop/src]: the status of the core ([status.rs]), the summaries of a
    subscription and of its updates ([subscription.rs]), what the platform lacks
    ([readiness.rs], [dependencies.rs]), the account of the panel ([panel.rs]) and the
    diagnosis of a connection ([support.rs]). *)

From Stdlib Require Import Ascii.
From stdpp Require Import base strings list numbers gmap.
From S2P Require Import Prelude.
From S2P Require Import StdNet.
From S2P Require Import StdIo.
From S2P Require Import Relay.
From S2P Require Import Subscription.
From S2P Require Import MixedMetrics.
From S2P Require Import Mixed.
From S2P Require Import MixedConfig.
From S2P Require Import ClientCore.
From S2P Require Import ClientRuntime.
From S2P Require Import Panel.
From S2P Require Import Platform.
From S2P Require Import PlatformWindows.
From S2P Require Import PlatformTun.
From S2P Require Import ManagedHealth.
From S2P Require Import ManagedTun.
From S2P Require Import ManagedMixed.
#[local] Open Scope Z_scope.

(** ** Status *)

Inductive DesktopRunState : Type :=
| Desktop_Stopped | Desktop_Starting | Desktop_Running | Desktop_Reloading | Desktop_Stopping | Desktop_Failed.

Inductive DesktopTrafficMode : Type := Mode_SystemProxy | Mode_Tun | Mode_MixedInboundOnly.

#[export] Instance DesktopRunState_eq_dec : EqDecision DesktopRunState.
Proof. solve_decision. Defined.
#[export] Instance DesktopTrafficMode_eq_dec : EqDecision DesktopTrafficMode.
Proof. solve_decision. Defined.

Record DesktopConnectionMetricsSummary : Type := mkMetricsSummary {
  metrics_total : Z;
  metrics_success : Z;
  metrics_failure : Z;
  average_connect_ms : option Z;
  average_first_byte_ms : option Z
}.

Definition MetricsSummary_default : DesktopConnectionMetricsSummary := mkMetricsSummary 0 0 0 None None.

Record DesktopNodeHealthSummary : Type := mkDesktopHealth {
  dh_node_count : Z;
  dh_healthy_count : Z;
  dh_unhealthy_count : Z;
  dh_unknown_count : Z;
  dh_checked_count : Z;
  dh_unchecked_count : Z;
  dh_udp_available_count : Z;
  dh_selected_state : option string;
  dh_recommended_state : option string;
  dh_selected_outbound_healthy : bool;
  dh_recommended_switch_ready : bool
}.

Definition NodeHealthSummary_default : DesktopNodeHealthSummary :=
  mkDesktopHealth 0 0 0 0 0 0 0 None None false false.

Record DesktopRecentRuntimeEvent : Type := mkRecentEvent {
  recent_status : DesktopRunState;
  recent_note : option string
}.

Record DesktopStatusSnapshot : Type := mkDesktopStatus {
  ds_run_state : DesktopRunState;
  ds_traffic_mode : DesktopTrafficMode;
  ds_selected_outbound : option string;
  ds_listen : option string;
  ds_generation : Z;
  ds_event_count : Z;
  ds_last_error : option string;
  ds_connection_metrics : DesktopConnectionMetricsSummary;
  ds_node_health : DesktopNodeHealthSummary;
  ds_recent_events : list DesktopRecentRuntimeEvent
}.

Definition run_state (status : RuntimeStatus) : DesktopRunState :=
  match status with
  | Stopped => Desktop_Stopped
  | Starting => Desktop_Starting
  | Running _ _ _ => Desktop_Running
  | Reloading _ => Desktop_Reloading
  | Stopping _ => Desktop_Stopping
  | Failed _ => Desktop_Failed
  end.

(** [average_duration_ms] of [status.rs]. *)
Definition desktop_average_ms (total_ms count : Z) : option Z :=
  if count =? 0 then None else Some (Z.min (total_ms / count) (2 ^ 64 - 1)).

Definition from_metrics (metrics : ConnectionMetricsSnapshot) : DesktopConnectionMetricsSummary :=
  let state := snapshot_state metrics in
  mkMetricsSummary (total_connection_count state) (success_count state) (failure_count state)
    (desktop_average_ms (total_connect_ms state) (timed_connect_count state))
    (desktop_average_ms (total_first_byte_ms state) (timed_first_byte_count state)).

Definition from_health_summary (summary : ManagedSubscriptionHealthSummary) : DesktopNodeHealthSummary :=
  mkDesktopHealth (node_count summary) (healthy_count summary) (unhealthy_count summary)
    (unknown_count summary) (checked_count summary) (unchecked_count summary) (udp_available_count summary)
    (health_state_label <$> selected_state summary) (health_state_label <$> recommended_state summary)
    (selected_outbound_healthy summary) (recommended_switch_ready summary).

Definition from_runtime_event (event : RuntimeEvent) : DesktopRecentRuntimeEvent :=
  mkRecentEvent (run_state (event_status event)) (event_note event).

Section Status.
Context {W : Type} {System : ManagedSystem W}.

(** [DesktopStatusSnapshot::from_client_runtime]. *)
Definition from_client_runtime (runtime : ClientRuntime) (traffic_mode : DesktopTrafficMode)
  : DesktopStatusSnapshot :=
  let '(selected, listen) :=
    match status runtime with
    | Running _ selected listen => (Some selected, Some listen)
    | _ => (None, None)
    end in
  mkDesktopStatus (run_state (status runtime)) traffic_mode selected listen (generation runtime)
    (event_count runtime) (client_error_debug str_debug <$> last_error runtime) MetricsSummary_default
    NodeHealthSummary_default [].

(** [DesktopStatusSnapshot::from_managed_mixed_status]; a core that never ran has no
    counters, which are then all zero. *)
Definition from_managed_mixed_status (status : ManagedMixedStatusSnapshot) (traffic_mode : DesktopTrafficMode)
  : DesktopStatusSnapshot :=
  mkDesktopStatus (run_state (st_status status)) traffic_mode (st_selected_outbound status)
    (socket_addr_to_string <$> st_listen_addr status) (st_generation status) (st_event_count status)
    (client_error_debug str_debug <$> st_last_error status)
    (default MetricsSummary_default (from_metrics ∘ gauge_metrics <$> st_gauges status))
    (default NodeHealthSummary_default (from_health_summary ∘ sub_health_summary <$> st_subscription status))
    (map from_runtime_event (st_recent_events status)).

End Status.

(** ** Subscriptions *)

Record DesktopNodeSummary : Type := mkDesktopNode {
  dn_tag : string;
  dn_protocol : string;
  dn_transport : string;
  dn_security : string;
  dn_udp_supported : bool;
  dn_selected : bool;
  dn_recommended : bool;
  dn_health_state : option string;
  dn_tcp_available : option bool;
  dn_udp_available : option bool;
  dn_latency_ms : option Z;
  dn_health_error : option string
}.

Record DesktopSubscriptionSummary : Type := mkDesktopSubscription {
  dsub_usable : bool;
  dsub_supported_count : Z;
  dsub_skipped_count : Z;
  dsub_default_outbound : option string;
  dsub_selected_outbound : option string;
  dsub_recommended_outbound : option string;
  dsub_nodes : list DesktopNodeSummary;
  dsub_skipped : list string
}.

Record DesktopSubscriptionUpdateSummary : Type := mkDesktopUpdate {
  du_applied : bool;
  du_error : option string;
  du_reason : string;
  du_current_supported_count : Z;
  du_new_supported_count : Z;
  du_new_skipped_count : Z;
  du_current_selected_outbound : option string;
  du_planned_selected_outbound : option string;
  du_selected_outbound_preserved : bool;
  du_selected_outbound_changed : bool;
  du_added_tags : list string;
  du_removed_tags : list string;
  du_retained_tags : list string;
  du_subscription : DesktopSubscriptionSummary
}.

Record DesktopSubscriptionUrlFetchSummary : Type := mkDesktopFetch {
  df_ok : bool;
  df_scheme : option string;
  df_host : option string;
  df_port : option Z;
  df_default_port : option bool;
  df_path_present : option bool;
  df_query_present : option bool;
  df_http_status : option Z;
  df_body_bytes : option Z;
  df_elapsed_ms : option Z;
  df_error_kind : option string;
  df_error_detail : option string
}.

Record DesktopSubscriptionUrlImportSummary : Type := mkUrlImport {
  import_fetch : DesktopSubscriptionUrlFetchSummary;
  import_subscription : option DesktopSubscriptionSummary;
  import_error : option string
}.

Record DesktopSubscriptionUrlUpdateSummary : Type := mkUrlUpdate {
  uu_applied : bool;
  uu_error : option string;
  uu_fetch : DesktopSubscriptionUrlFetchSummary;
  uu_update : option DesktopSubscriptionUpdateSummary;
  uu_runtime_status : DesktopStatusSnapshot
}.

(** [DesktopSubscriptionUrlFetchSummary::from_managed]. *)
Definition fetch_from_managed (fetch : ManagedSubscriptionUrlFetchOutcome) : DesktopSubscriptionUrlFetchSummary :=
  let source := fetch_source fetch in
  mkDesktopFetch (fetch_ok fetch) (source_scheme <$> source) (source_host <$> source) (source_port <$> source)
    (source_default_port <$> source) (source_path_present <$> source) (source_query_present <$> source)
    (fetch_http_status fetch) (fetch_body_bytes fetch)
    (duration_millis <$> fetch_elapsed fetch) (fetch_error_kind fetch) (fetch_error_detail fetch).

(** [DesktopSubscriptionUrlImportSummary::fetch_error]. *)
Definition import_fetch_error (fetch : DesktopSubscriptionUrlFetchSummary) : DesktopSubscriptionUrlImportSummary :=
  mkUrlImport fetch None
    (Some ("subscription URL fetch failed: " +:+ default "unknown" (df_error_kind fetch))).

Definition skipped_text (skipped : SkippedProfileSummary) : string :=
  summary_name skipped +:+ ": " +:+ summary_reason skipped.

Definition is_tag (selected : option string) (tag : string) : bool :=
  match selected with Some selected => String.eqb selected tag | None => false end.

(** [DesktopSubscriptionSummary::from_preflight]. *)
Definition summary_from_preflight (report : SubscriptionPreflightReport) (selected recommended : option string)
  : DesktopSubscriptionSummary :=
  let selected := or_else selected (default_outbound report) in
  let recommended := or_else recommended selected in
  let nodes :=
    map (fun node =>
           mkDesktopNode (cap_tag node) (cap_protocol node) (cap_transport node) (cap_security node)
             (cap_udp_supported node) (is_tag selected (cap_tag node)) (is_tag recommended (cap_tag node))
             (Some "unknown") None None None None)
      (supported report) in
  mkDesktopSubscription (is_usable report) (supported_count report) (skipped_count report)
    (default_outbound report) selected recommended nodes (map skipped_text (preflight_skipped report)).

(** [{error_kind:?}]. *)
Definition connection_error_debug (error : ConnectionErrorKind) : string :=
  match error with
  | DnsResolveFailed => "DnsResolveFailed"
  | Relay.TcpConnectTimeout => "TcpConnectTimeout"
  | TcpConnectionRefused => "TcpConnectionRefused"
  | FirstByteTimeout => "FirstByteTimeout"
  | IdleTimeout => "IdleTimeout"
  | RouteBlocked => "RouteBlocked"
  | UnsupportedOutbound => "UnsupportedOutbound"
  | ConnectionLimitReached => "ConnectionLimitReached"
  | RelayIo => "RelayIo"
  | ProtocolError => "ProtocolError"
  end.

(** A node with what is known of its health. *)
Definition managed_node_summary (status : ManagedSubscriptionStatus) (node : SubscriptionNodeCapability)
  : DesktopNodeSummary :=
  let selected := String.eqb (sub_selected_outbound status) (cap_tag node) in
  let recommended := String.eqb (sub_recommended_outbound status) (cap_tag node) in
  let described :=
    mkDesktopNode (cap_tag node) (cap_protocol node) (cap_transport node) (cap_security node)
      (cap_udp_supported node) selected recommended in
  match health_of (sub_node_health status) (cap_tag node) with
  | Some health =>
      described (Some (health_state_label (health_state health))) (health_tcp_available health)
        (health_udp_available health) ((fun ms => Z.min ms (2 ^ 64 - 1)) <$> health_latency_ms health)
        (or_else (health_error_detail health) (connection_error_debug <$> health_error_kind health))
  | None => described (Some "unknown") None None None None
  end.

(** [DesktopSubscriptionSummary::from_managed]. *)
Definition summary_from_managed (status : ManagedSubscriptionStatus) : DesktopSubscriptionSummary :=
  mkDesktopSubscription (sub_usable status) (len (sub_supported status)) (len (sub_skipped status))
    (sub_default_outbound status) (Some (sub_selected_outbound status)) (Some (sub_recommended_outbound status))
    (map (managed_node_summary status) (sub_supported status)) (map skipped_text (sub_skipped status)).

(** [DesktopSubscriptionUpdateSummary::from_report]. *)
Definition update_from_report (report : SubscriptionUpdateReport) (applied : bool) (error : option string)
  (subscription : DesktopSubscriptionSummary) : DesktopSubscriptionUpdateSummary :=
  mkDesktopUpdate applied error (update_reason_label (update_reason report)) (current_supported_count report)
    (new_supported_count report) (new_skipped_count report) (current_selected_outbound report)
    (planned_selected_outbound report) (selected_outbound_preserved report) (selected_outbound_changed report)
    (added_tags report) (removed_tags report) (retained_tags report) subscription.

(** [DesktopSubscriptionUrlUpdateSummary::from_managed]. *)
Definition url_update_from_managed {W} {System : ManagedSystem W} (outcome : UrlConfigUpdateOutcome)
  (update : option DesktopSubscriptionUpdateSummary) (traffic_mode : DesktopTrafficMode)
  : DesktopSubscriptionUrlUpdateSummary :=
  mkUrlUpdate (outcome_applied outcome) (outcome_error outcome) (fetch_from_managed (outcome_fetch outcome)) update
    (from_managed_mixed_status (outcome_status outcome) traffic_mode).

(** ** Dependencies *)

Record DesktopBlocker : Type := mkBlocker {
  blocker_code : string;
  blocker_message : string;
  blocker_action : option string
}.

Record DesktopFirstRunReport : Type := mkFirstRun {
  first_run_platform : string;
  system_proxy_ready : bool;
  tun_ready : bool;
  can_start_system_proxy_mode : bool;
  can_start_tun_mode : bool;
  blockers : list DesktopBlocker
}.

(** [TunBackendStatus::is_ready]. *)
Definition backend_is_ready (self : TunBackendStatus) : bool :=
  backend_supported self && lifecycle_wired self && packet_io_wired self && route_takeover_wired self
  && driver_api_available self && negb (install_required self).

(** [DesktopFirstRunReport::from_platform]. *)
Definition first_run_from_platform (capabilities : PlatformCapabilities) (system_proxy : SystemProxyStatus)
  (tun_backend : TunBackendStatus) : DesktopFirstRunReport :=
  let proxy_ready :=
    capability_system_proxy capabilities && proxy_status_supported system_proxy
    && is_none (proxy_status_error system_proxy) in
  let tun_ready := capability_tun capabilities && backend_is_ready tun_backend in
  let proxy_blockers :=
    if proxy_ready then []
    else
      [mkBlocker "system-proxy-unavailable"
         (default "System proxy control is unavailable on this machine" (proxy_status_error system_proxy))
         (Some "check-system-proxy")] in
  let tun_blockers :=
    if tun_ready then []
    else
      [mkBlocker (if install_required tun_backend then "wintun-missing" else "tun-unavailable")
         (default "TUN mode is unavailable on this machine" (backend_reason tun_backend))
         (Some (if install_required tun_backend then "install-wintun" else "check-tun"))] in
  mkFirstRun (platform_debug (capability_platform capabilities)) proxy_ready tun_ready proxy_ready tun_ready
    (proxy_blockers ++ tun_blockers).

Record DesktopSystemProxyDependency : Type := mkProxyDependency {
  pd_state : string;
  pd_supported : bool;
  pd_ready : bool;
  pd_enabled : option bool;
  pd_server : option string;
  pd_error : option string;
  pd_action : option string
}.

(** [DesktopSystemProxyDependency::from_platform_status]. *)
Definition proxy_dependency_from_status (status : SystemProxyStatus) : DesktopSystemProxyDependency :=
  let ready := proxy_status_supported status && is_none (proxy_status_error status) in
  mkProxyDependency (if ready then "ready" else "unavailable") (proxy_status_supported status) ready
    (proxy_status_enabled status) (proxy_status_server status) (proxy_status_error status)
    (if negb ready then Some "check-system-proxy" else None).

(** [DesktopTunBackendDependency]: the fields of the status of the backend, with a state and
    an action. *)
Record DesktopTunBackendDependency : Type := mkTunDependency {
  td_state : string;
  td_platform : string;
  td_status : TunBackendStatus;
  td_action : option string
}.

(** [DesktopTunBackendDependency::from_platform_status]. *)
Definition tun_dependency_from_status (status : TunBackendStatus) : DesktopTunBackendDependency :=
  let ready := backend_is_ready status in
  mkTunDependency
    (if ready then "ready" else if install_required status then "install-required" else "unavailable")
    (platform_debug (backend_platform status)) status
    (if ready then None else if install_required status then Some "install-wintun" else Some "check-tun").

Record DesktopDependencyReport : Type := mkDependencies {
  first_run : DesktopFirstRunReport;
  dep_system_proxy : DesktopSystemProxyDependency;
  dep_tun_backend : DesktopTunBackendDependency
}.

(** [DesktopDependencyReport::from_platform]. *)
Definition dependencies_from_platform (capabilities : PlatformCapabilities) (system_proxy : SystemProxyStatus)
  (tun_backend : TunBackendStatus) : DesktopDependencyReport :=
  mkDependencies (first_run_from_platform capabilities system_proxy tun_backend)
    (proxy_dependency_from_status system_proxy) (tun_dependency_from_status tun_backend).

(** ** The panel *)

Record DesktopPanelEndpointSummary : Type := mkPanelEndpoint {
  panel_host : string;
  api_base_redacted : string;
  panel_api_prefix : string;
  panel_source : string
}.

Record DesktopPanelAccountSummary : Type := mkPanelAccountSummary {
  email_redacted : string;
  pa_plan_id : option Z;
  pa_balance_cents : option Z;
  pa_expired_at : option Z;
  pa_blocked : bool
}.

Record DesktopPanelSubscriptionSummary : Type := mkPanelSubscriptionSummary {
  psub_plan_name : option string;
  psub_used_bytes : option Z;
  psub_total_bytes : option Z;
  psub_device_limit : option Z;
  psub_speed_limit : option Z;
  psub_reset_day : option Z;
  has_subscribe_url : bool;
  has_accelerated_subscribe_url : bool
}.

Record DesktopPanelNodeSummary : Type := mkPanelNodeSummary {
  pn_id : Z;
  pn_name : string;
  pn_protocol : option string;
  pn_tags : list string;
  pn_online : option bool
}.

(** [DesktopPanelSnapshot]; there are no notices yet. *)
Record DesktopPanelSnapshot : Type := mkPanelSnapshot {
  ps_endpoint : DesktopPanelEndpointSummary;
  ps_account : DesktopPanelAccountSummary;
  ps_subscription : DesktopPanelSubscriptionSummary;
  ps_nodes : list DesktopPanelNodeSummary
}.

Record DesktopPanelConfigImportSummary : Type := mkPanelImport {
  pi_server_id : Z;
  pi_server_name : string;
  pi_selected_outbound : option string;
  pi_usable : bool;
  pi_subscription : DesktopSubscriptionSummary
}.

(** [DesktopPanelConfigImportSummary::from_subscription]. *)
Definition panel_import_from_subscription (server_id : Z) (server_name : string)
  (subscription : DesktopSubscriptionSummary) : DesktopPanelConfigImportSummary :=
  mkPanelImport server_id server_name (dsub_selected_outbound subscription) (dsub_usable subscription) subscription.

(** The first character, with the bytes that continue it. *)
Fixpoint continuation (l : list Z) : list Z :=
  match l with b :: l' => if in_range 128 191 b then b :: continuation l' else [] | [] => [] end.

Definition first_char (s : string) : string :=
  match as_bytes s with
  | [] => "*"
  | b :: l => string_of_bytes (b :: continuation l)
  end.

Definition redact_email (email : string) : string :=
  match split_once "@"%char email with
  | None => "***"
  | Some (name, domain) => first_char name +:+ "***@" +:+ domain
  end.

(** [DesktopPanelNodeSummary::from_panel]. *)
Definition node_from_panel (node : PanelNode) : DesktopPanelNodeSummary :=
  mkPanelNodeSummary (node_id node) (node_name node) (node_protocol node) (node_tags node) (node_online node).

(** [DesktopPanelSnapshot::from_bootstrap]. *)
Definition snapshot_from_bootstrap (endpoint : DesktopPanelEndpointSummary) (payload : PanelBootstrapPayload)
  : DesktopPanelSnapshot :=
  let account := payload_account payload in
  let subscription := payload_subscription payload in
  mkPanelSnapshot endpoint
    (mkPanelAccountSummary (redact_email (account_email account)) (account_plan_id account)
       (balance_cents account) (expired_at account) (banned account))
    (mkPanelSubscriptionSummary (sub_plan_name subscription) (sub_used_bytes subscription)
       (sub_total_bytes subscription) (device_limit subscription) (speed_limit subscription)
       (reset_day subscription) (is_some (subscribe_url subscription))
       (is_some (accelerated_subscribe_url subscription)))
    (map node_from_panel (payload_nodes payload)).

(** ** The diagnosis of a connection *)

Section Diagnosis.
(** [str::to_lowercase], which knows letters beyond ASCII. *)
Context (to_lowercase : string -> string).

Definition error_contains_any (error : string) (needles : list string) : bool :=
  let error := to_lowercase error in existsb (contains error) needles.

Definition is_port_conflict_error (error : string) : bool :=
  error_contains_any error
    ["bind"; "listen"; "address already in use"; "addrinuse"; "os error 10048"; "端口"; "占用"].

Definition is_node_unreachable_error (error : string) : bool :=
  error_contains_any error
    ["dial"; "connect"; "timeout"; "timed out"; "refused"; "unreachable"; "connection reset"; "no route"].

Definition selected_node_unhealthy (status : DesktopStatusSnapshot) : bool :=
  match dh_selected_state (ds_node_health status) with
  | Some state => String.eqb state "failed" || String.eqb state "unhealthy"
  | None => false
  end.

Definition system_proxy_takeover_error (status : DesktopStatusSnapshot) (dependencies : DesktopDependencyReport)
  : option string :=
  if negb (bool_decide (ds_traffic_mode status = Mode_SystemProxy)) then None
  else if negb (bool_decide (ds_run_state status = Desktop_Running)) then None
  else
    listen ← ds_listen status;
    let proxy := dep_system_proxy dependencies in
    if negb (bool_decide (pd_enabled proxy = Some true)) then Some "系统代理未接管：系统代理未启用"
    else
      match pd_server proxy with
      | None => Some "系统代理未接管：没有代理服务器"
      | Some server =>
          if negb (String.eqb server listen) then Some ("系统代理未接管：当前指向 " +:+ server) else None
      end.

(** Level, title, detail and action of [connection_diagnosis_value]; the evidence beside them
    is the status. *)
Record ConnectionDiagnosis : Type := mkDiagnosis {
  diagnosis_level : string;
  diagnosis_title : string;
  diagnosis_detail : string;
  diagnosis_action : string
}.

Definition connection_diagnosis_value (status : DesktopStatusSnapshot) (dependencies : DesktopDependencyReport)
  : ConnectionDiagnosis :=
  match ds_last_error status with
  | Some error =>
      if is_port_conflict_error error then
        mkDiagnosis "port-conflict" "端口被占用"
          ("最后错误：" +:+ error +:+ "；请关闭占用端口的程序，或切换本地监听") "关闭占用端口或切换本地监听"
      else if is_node_unreachable_error error || selected_node_unhealthy status then
        mkDiagnosis "node-unreachable" "节点不可用"
          ("最后错误：" +:+ error +:+ "；请测试节点或切换推荐节点") "测试节点或切换到推荐节点"
      else mkDiagnosis "error" "核心失败" error "查看诊断或刷新状态"
  | None =>
      match system_proxy_takeover_error status dependencies with
      | Some detail => mkDiagnosis "proxy-takeover" "系统代理未接管" detail "打开代理设置或切换本地入站"
      | None =>
          if negb (is_empty (blockers (first_run dependencies))) then
            mkDiagnosis "blocked" "依赖阻塞"
              (join "；" (map blocker_message (blockers (first_run dependencies)))) "先处理依赖动作"
          else if bool_decide (ds_run_state status = Desktop_Running) then
            mkDiagnosis "healthy" "连接正常"
              ("当前节点 " +:+ default "未选择节点" (ds_selected_outbound status) +:+ "，监听 "
               +:+ default "未监听" (ds_listen status)) "需要切换时先测试节点健康"
          else mkDiagnosis "ready" "可以启动" "连接条件已就绪" "点击启动核心"
      end
  end.

End Diagnosis.
