(* ===== verification/DesktopService.v ===== *)
(** * The desktop: its service

    [crates/keli-desktop/src]: the core as the desktop uses it ([managed.rs]), the service
    that keeps the subscription, the node and the mode between runs ([service.rs]), the
    commands over it with the session of the panel ([commands.rs]), and the subscription on
    disk ([persistence.rs]). *)

From Stdlib Require Import Ascii.
From stdpp Require Import base strings list numbers gmap.
From S2P Require Import Prelude.
From S2P Require Import StdNet.
From S2P Require Import StdIo.
From S2P Require Import TunSession.
From S2P Require Import TunSummary.
From S2P Require Import Relay.
From S2P Require Import Subscription.
From S2P Require Import Mixed.
From S2P Require Import MixedConfig.
From S2P Require Import ClientCore.
From S2P Require Import ClientRuntime.
From S2P Require Import Panel.
From S2P Require Import Platform.
From S2P Require Import ManagedHealth.
From S2P Require Import ManagedTun.
From S2P Require Import ManagedMixed.
From S2P Require Import Desktop.
#[local] Open Scope Z_scope.

(** ** The core *)

Record DesktopManagedStartOptions : Type := mkStartOptions {
  so_config_text : string;
  so_selected_outbound : option string;
  so_listen : string;
  so_system_proxy : bool;
  so_tun_device : option TunDeviceConfig
}.

Definition mixed_inbound_only (config_text : string) (selected : option string) : DesktopManagedStartOptions :=
  mkStartOptions config_text selected "127.0.0.1:7890" false None.

Definition system_proxy_mode (config_text : string) (selected : option string) : DesktopManagedStartOptions :=
  mkStartOptions config_text selected "127.0.0.1:7890" true None.

Definition tun_mode (config_text : string) (selected : option string) (tun_device : TunDeviceConfig)
  : DesktopManagedStartOptions :=
  mkStartOptions config_text selected "127.0.0.1:7890" false (Some tun_device).

Definition with_listen (listen : string) (self : DesktopManagedStartOptions) : DesktopManagedStartOptions :=
  mkStartOptions (so_config_text self) (so_selected_outbound self) listen (so_system_proxy self)
    (so_tun_device self).

(** [ManagedMixedOptions { listen, .., ..ManagedMixedOptions::default() }]. *)
Definition managed_options (options : DesktopManagedStartOptions) : ManagedMixedOptions :=
  mkManagedOptions (so_listen options) (opt_block_domains ManagedMixedOptions_default)
    (so_selected_outbound options) (opt_relay_options ManagedMixedOptions_default) (so_system_proxy options)
    (opt_system_proxy_bypass ManagedMixedOptions_default) (so_tun_device options)
    (opt_dns_options ManagedMixedOptions_default)
    (opt_tun_tcp_max_active_sessions ManagedMixedOptions_default)
    (opt_max_connection_workers ManagedMixedOptions_default).

Definition default_desktop_node_probe_sweep_options : ManagedNodeProbeSweepOptions :=
  mkSweepOptions "example.com:443" [] [] Smoke_Socks5 750000000 None None.

Inductive DesktopRuntimeError : Type :=
| Desktop_Client (error : ClientErrorKind)
| Desktop_Managed (error : string).

Definition default_desktop_tun_device_config : result DesktopRuntimeError TunDeviceConfig :=
  map_err (fun error => Desktop_Managed ("build default TUN config: " +:+ TunDeviceError_fmt error))
    (TunDeviceConfig_new "keli-tun0" "10.7.0.1/24" 1500).

Record DesktopPersistedSubscription : Type := mkPersisted {
  persisted_config_text : string;
  persisted_selected_outbound : option string
}.

Section Service.
Context {W : Type} {System : ManagedSystem W} {Proxy : SystemProxyController W}
  `{Packets : TunPacketIoController W} {L : ShareLibrary}.
Context (packet_loop : PacketIo -> TunDeviceConfig -> SM W string TunPacketLoopSummary).

(** [DesktopManagedCoreService]. *)
Record DesktopManagedCoreService : Type := mkCoreService {
  cs_core : ManagedMixedController W;
  cs_traffic_mode : DesktopTrafficMode
}.

Definition CoreM (A : Type) : Type := SM (DesktopManagedCoreService * W) string A.

(** A method of the controller. *)
Definition on_core {A} (m : ControllerM W A) : CoreM A :=
  fun s => let '((core, w), r) := m (cs_core s.1, s.2) in ((mkCoreService core (cs_traffic_mode s.1), w), r).

Definition start_mode (options : DesktopManagedStartOptions) : DesktopTrafficMode :=
  if is_some (so_tun_device options) then Mode_Tun
  else if so_system_proxy options then Mode_SystemProxy
  else Mode_MixedInboundOnly.

(** The start, then the mode it was in. *)
Definition core_started (options : DesktopManagedStartOptions) (start : ControllerM W ManagedMixedStatusSnapshot)
  : CoreM DesktopStatusSnapshot :=
  status <-! on_core start;
  do! sm_modify (fun s => (mkCoreService (cs_core s.1) (start_mode options), s.2));
  sm_ret (from_managed_mixed_status status (start_mode options)).

(** [DesktopManagedCoreService::start], with [start_without_tun]. *)
Definition core_start (options : DesktopManagedStartOptions) : CoreM DesktopStatusSnapshot :=
  if is_some (so_tun_device options) then fails "desktop managed TUN start requires a TUN controller"
  else core_started options (controller_start (so_config_text options) (managed_options options)).

Definition core_start_with_tun_controller (options : DesktopManagedStartOptions) : CoreM DesktopStatusSnapshot :=
  core_started options (controller_start_with_tun (so_config_text options) (managed_options options)).

(** [DesktopManagedCoreService::status]. *)
Definition core_status : CoreM DesktopStatusSnapshot :=
  status <-! on_core controller_status;
  s <-! sm_get;
  sm_ret (from_managed_mixed_status status (cs_traffic_mode s.1)).

Definition core_reload (config_text : string) (selected : option string) : CoreM DesktopStatusSnapshot :=
  status <-! on_core (controller_reload config_text selected);
  s <-! sm_get;
  sm_ret (from_managed_mixed_status status (cs_traffic_mode s.1)).

Definition core_refresh_node_health : CoreM ManagedMixedStatusSnapshot :=
  on_core (controller_probe_all_node_health default_desktop_node_probe_sweep_options).

Definition core_stop : CoreM DesktopStatusSnapshot := do! on_core (controller_stop packet_loop); core_status.

(** ** The service *)

(** [DesktopRuntimeService]. *)
Record DesktopRuntimeService : Type := mkService {
  svc_core : DesktopManagedCoreService;
  svc_tun_controller : bool;
  svc_subscription_config : option string;
  svc_selected_outbound : option string;
  svc_traffic_mode : DesktopTrafficMode;
  svc_listen : string
}.

#[export] Instance DesktopRuntimeService_settable : Settable DesktopRuntimeService := fun s =>
  mkService (svc_core s) (svc_tun_controller s) (svc_subscription_config s) (svc_selected_outbound s)
    (svc_traffic_mode s) (svc_listen s).

(** [new] has no controller of a device, [new_with_tun_controller] has. *)
Definition service_new (tun_controller : bool) : DesktopRuntimeService :=
  mkService (mkCoreService ManagedMixedController_new Mode_MixedInboundOnly) tun_controller None None
    Mode_MixedInboundOnly "127.0.0.1:7890".

Definition ServiceM (A : Type) : Type := SM (DesktopRuntimeService * W) DesktopRuntimeError A.

Definition on_service_core {A} (m : CoreM A) : ServiceM A :=
  fun s =>
    let '((core, w), r) := m (svc_core s.1, s.2) in
    ((s.1 <| svc_core := core |>, w), map_err Desktop_Managed r).

Definition client_result {A} (r : result ClientErrorKind A) : ServiceM A := sm_lift (map_err Desktop_Client r).

Definition modify_service (f : DesktopRuntimeService -> DesktopRuntimeService) : ServiceM unit :=
  sm_modify (fun s => (f s.1, s.2)).

Definition service_is_running (self : DesktopRuntimeService) : bool := is_running (cs_core (svc_core self)).

(** [self.subscription_config = ..; self.selected_outbound = ..]. *)
Definition remember (config_text : string) (selected : option string) : ServiceM unit :=
  modify_service (fun s => s <| svc_subscription_config := Some config_text |> <| svc_selected_outbound := selected |>).

(** [import_subscription_config]: whether the core runs is not asked. *)
Definition service_import (config_text : string) : ServiceM DesktopSubscriptionSummary :=
  report <-! client_result (preflight_subscription_config config_text);
  let selected := default_outbound report in
  do! remember config_text selected;
  sm_ret (summary_from_preflight report selected selected).

(** [self.subscription_config.clone().ok_or(ClientErrorKind::NoSupportedOutbounds)?]. *)
Definition stored_config : ServiceM string :=
  s <-! sm_get; client_result (ok_or NoSupportedOutbounds (svc_subscription_config s.1)).

(** [select_node]. *)
Definition service_select_node (tag : string) : ServiceM DesktopSubscriptionSummary :=
  config_text <-! stored_config;
  report <-! client_result (preflight_subscription_config config_text);
  do! client_result (select_outbound (Some tag) report);
  s <-! sm_get;
  do! (if service_is_running s.1 then do! on_service_core (core_reload config_text (Some tag)); sm_ret tt
       else sm_ret tt);
  do! modify_service (fun s => s <| svc_selected_outbound := Some tag |>);
  sm_ret (summary_from_preflight report (Some tag) (Some tag)).

(** The subscription the core shows, or that of a text. *)
Definition shown_subscription (status : ManagedMixedStatusSnapshot) (config_text : string) (planned : option string)
  : ServiceM DesktopSubscriptionSummary :=
  match st_subscription status with
  | Some subscription => sm_ret (summary_from_managed subscription)
  | None =>
      preflight <-! client_result (preflight_subscription_config config_text);
      sm_ret (summary_from_preflight preflight planned planned)
  end.

(** [update_subscription_config]. *)
Definition service_update (config_text : string) : ServiceM DesktopSubscriptionUpdateSummary :=
  s <-! sm_get;
  if service_is_running s.1 then
    '(report, status, applied, error) <-!
      on_service_core (on_core (controller_reload_with_update_plan config_text));
    subscription <-! shown_subscription status config_text (planned_selected_outbound report);
    do! (if applied then remember config_text (st_selected_outbound status) else sm_ret tt);
    sm_ret (update_from_report report applied error subscription)
  else
    preflight <-! client_result (preflight_subscription_config config_text);
    report <-! client_result (plan_subscription_update (svc_subscription_config s.1) config_text
                                (svc_selected_outbound s.1));
    let selected := planned_selected_outbound report in
    let subscription := summary_from_preflight preflight selected selected in
    do! remember config_text selected;
    sm_ret (update_from_report report true None subscription).

(** [import_panel_config]. *)
Definition service_import_panel_config (server_id : Z) (server_name config_text : string)
  : ServiceM DesktopPanelConfigImportSummary :=
  s <-! sm_get;
  subscription <-!
    (if service_is_running s.1 then
       summary <-! service_update config_text; sm_ret (du_subscription summary)
     else service_import config_text);
  subscription <-!
    (if existsb (fun node => String.eqb (dn_tag node) server_name) (dsub_nodes subscription)
        && negb (bool_decide (dsub_selected_outbound subscription = Some server_name))
     then service_select_node server_name
     else sm_ret subscription);
  sm_ret (panel_import_from_subscription server_id server_name subscription).

(** [import_subscription_url]. *)
Definition service_import_url (url : string) (timeout max_bytes : Z) : ServiceM DesktopSubscriptionUrlImportSummary :=
  s <-! sm_get;
  if service_is_running s.1 then
    sm_lift (Err (Desktop_Managed "desktop subscription URL import requires stopped core"))
  else
    fun s =>
      let '(w, (fetch, text)) := fetch_subscription_url_config_text url timeout max_bytes s.2 in
      (let fetch := fetch_from_managed fetch in
       match text with
       | None => sm_ret (import_fetch_error fetch)
       | Some text =>
           subscription <-! service_import text;
           sm_ret (mkUrlImport fetch (Some subscription) None)
       end) (s.1, w).

(** The summary of the update, when a text was fetched and planned. *)
Definition url_update_of (outcome : UrlConfigUpdateOutcome)
  : ServiceM (option DesktopSubscriptionUpdateSummary) :=
  match outcome_update outcome, fetched_config_text outcome with
  | Some report, Some config_text =>
      subscription <-! shown_subscription (outcome_status outcome) config_text (planned_selected_outbound report);
      sm_ret (Some (update_from_report report (outcome_applied outcome) (outcome_error outcome) subscription))
  | _, _ => sm_ret None
  end.

(** [update_subscription_url]. *)
Definition service_update_url (url : string) (timeout max_bytes : Z) : ServiceM DesktopSubscriptionUrlUpdateSummary :=
  s <-! sm_get;
  if negb (service_is_running s.1) then
    sm_lift (Err (Desktop_Managed "desktop subscription URL update requires running core"))
  else
    outcome <-! on_service_core (on_core (controller_reload_from_url url timeout max_bytes));
    update <-! url_update_of outcome;
    do! (if outcome_applied outcome then
           do! match applied_config_text outcome with
               | Some config_text => modify_service (fun s => s <| svc_subscription_config := Some config_text |>)
               | None => sm_ret tt
               end;
           modify_service (fun s => s <| svc_selected_outbound := st_selected_outbound (outcome_status outcome) |>)
         else sm_ret tt);
    s <-! sm_get;
    sm_ret (url_update_from_managed outcome update (svc_traffic_mode s.1)).

(** [refresh_node_health]. *)
Definition service_refresh_node_health : ServiceM DesktopSubscriptionSummary :=
  status <-! on_service_core core_refresh_node_health;
  do! modify_service (fun s => s <| svc_selected_outbound := st_selected_outbound status |>);
  sm_lift (ok_or (Desktop_Managed "managed mixed core has no active subscription")
             (summary_from_managed <$> st_subscription status)).

Definition persisted_subscription (self : DesktopRuntimeService) : option DesktopPersistedSubscription :=
  (fun config_text => mkPersisted config_text (svc_selected_outbound self)) <$> svc_subscription_config self.

Definition service_set_traffic_mode (traffic_mode : DesktopTrafficMode) : ServiceM unit :=
  modify_service (fun s => s <| svc_traffic_mode := traffic_mode |>).

Definition service_set_listen (listen : string) : ServiceM unit :=
  modify_service (fun s => s <| svc_listen := listen |>).

(** [start]. *)
Definition service_start : ServiceM DesktopStatusSnapshot :=
  config_text <-! stored_config;
  s <-! sm_get;
  let selected := svc_selected_outbound s.1 in
  match svc_traffic_mode s.1 with
  | Mode_Tun =>
      if negb (svc_tun_controller s.1) then
        sm_lift (Err (Desktop_Managed "desktop TUN mode requires a TUN controller"))
      else
        config <-! sm_lift default_desktop_tun_device_config;
        on_service_core (core_start_with_tun_controller (with_listen (svc_listen s.1) (tun_mode config_text selected config)))
  | Mode_SystemProxy =>
      on_service_core (core_start (with_listen (svc_listen s.1) (system_proxy_mode config_text selected)))
  | Mode_MixedInboundOnly =>
      on_service_core (core_start (with_listen (svc_listen s.1) (mixed_inbound_only config_text selected)))
  end.

(** [status]: the mode is the one that was set, not the one the core runs in. *)
Definition service_status : ServiceM DesktopStatusSnapshot :=
  status <-! on_service_core core_status;
  s <-! sm_get;
  sm_ret (mkDesktopStatus (ds_run_state status) (svc_traffic_mode s.1)
            (or_else (ds_selected_outbound status) (svc_selected_outbound s.1)) (ds_listen status)
            (ds_generation status) (ds_event_count status) (ds_last_error status) (ds_connection_metrics status)
            (ds_node_health status) (ds_recent_events status)).

(** [stop]. *)
Definition service_stop : ServiceM DesktopStatusSnapshot :=
  s <-! sm_get;
  do! (if service_is_running s.1 then do! on_service_core core_stop; sm_ret tt else sm_ret tt);
  service_status.

End Service.

Arguments DesktopManagedCoreService W {_ _}.
Arguments DesktopRuntimeService W {_ _}.
Arguments ServiceM W {_ _} A.

(** ** Commands *)

Record DesktopCommandError : Type := mkCommandError {
  command_operation : string;
  command_kind : string;
  command_message : string
}.

(** [DesktopCommandError::panel]. *)
Definition panel_command_error (operation : string) (error : PanelApiError) : DesktopCommandError :=
  mkCommandError operation (error_kind error) (error_message error).

(** [trim_start_matches] of a text. *)
Fixpoint trim_prefixes (fuel : nat) (prefix s : string) : string :=
  match fuel with
  | O => s
  | S fuel' => match strip_prefix prefix s with Some rest => trim_prefixes fuel' prefix rest | None => s end
  end.

Definition trim_start_text_matches (prefix s : string) : string := trim_prefixes (String.length s) prefix s.

Definition panel_host_from_api_base (api_base : string) : string :=
  let text := trim_start_text_matches "http://" (trim_start_text_matches "https://" (trim api_base)) in
  match head (split_on "/"%char text) with
  | Some host => if String.eqb host "" then api_base else host
  | None => api_base
  end.

Definition NO_PANEL_SESSION : string := "请先登录面板".

Section Commands.
Context {W : Type} {System : ManagedSystem W} {Proxy : SystemProxyController W}
  `{Packets : TunPacketIoController W} {L : ShareLibrary} {Lib : PanelLibrary} {Transport : PanelApiTransport W}.
Context (packet_loop : PacketIo -> TunDeviceConfig -> SM W string TunPacketLoopSummary).

(** [DesktopCommandError::runtime]. *)
Definition runtime_command_error (operation : string) (error : DesktopRuntimeError) : DesktopCommandError :=
  match error with
  | Desktop_Client error => mkCommandError operation "client" (client_error_debug str_debug error)
  | Desktop_Managed error => mkCommandError operation "managed" error
  end.

(** [DesktopNativeCommandService]; [DesktopCommandService] is its service. *)
Record DesktopNativeCommandService : Type := mkCommands {
  commands_service : DesktopRuntimeService W;
  commands_panel_session : option PanelSession
}.

Definition commands_new : DesktopNativeCommandService := mkCommands (service_new true) None.

Definition CommandM (A : Type) : Type := SM (DesktopNativeCommandService * W) DesktopCommandError A.

(** A method of the service, under the name of an operation. *)
Definition command {A} (operation : string) (m : ServiceM W A) : CommandM A :=
  fun s =>
    let '((service, w), r) := m (commands_service s.1, s.2) in
    ((mkCommands service (commands_panel_session s.1), w), map_err (runtime_command_error operation) r).

(** A request to the panel. *)
Definition panel_call {A} (operation : string) (m : SM W PanelApiError A) : CommandM A :=
  fun s => let '(w, r) := m s.2 in ((s.1, w), map_err (panel_command_error operation) r).

Definition command_import_subscription (config_text : string) : CommandM DesktopSubscriptionSummary :=
  command "import-subscription" (service_import config_text).
Definition command_import_panel_config (server_id : Z) (server_name config_text : string)
  : CommandM DesktopPanelConfigImportSummary :=
  command "import-panel-config" (service_import_panel_config server_id server_name config_text).
Definition command_import_url (url : string) (timeout max_bytes : Z) : CommandM DesktopSubscriptionUrlImportSummary :=
  command "import-subscription-url" (service_import_url url timeout max_bytes).
Definition command_select_node (tag : string) : CommandM DesktopSubscriptionSummary :=
  command "select-node" (service_select_node tag).
Definition command_update_url (url : string) (timeout max_bytes : Z) : CommandM DesktopSubscriptionUrlUpdateSummary :=
  command "update-subscription-url" (service_update_url url timeout max_bytes).
Definition command_refresh_node_health : CommandM DesktopSubscriptionSummary :=
  command "refresh-node-health" service_refresh_node_health.
Definition command_start : CommandM DesktopStatusSnapshot := command "start" service_start.
Definition command_stop : CommandM DesktopStatusSnapshot := command "stop" (service_stop packet_loop).

(** [connect_panel]: the session is kept once the account is known. *)
Definition connect_panel (endpoint email password : string) : CommandM DesktopPanelSnapshot :=
  let operation := "connect-panel" in
  api_base <-! panel_call operation (sm_lift (PanelApiClient_new endpoint));
  session <-! panel_call operation (login api_base email password);
  payload <-! panel_call operation (bootstrap api_base session);
  do! sm_modify (fun s => (mkCommands (commands_service s.1) (Some session), s.2));
  sm_ret (snapshot_from_bootstrap
            (mkPanelEndpoint (panel_host_from_api_base (session_api_base session)) (session_api_base session)
               (session_api_prefix session) "login") payload).

(** The session of the panel, or the error of an operation. *)
Definition panel_session (operation : string) : CommandM PanelSession :=
  s <-! sm_get;
  sm_lift (ok_or (mkCommandError operation "panel-session" NO_PANEL_SESSION) (commands_panel_session s.1)).

Definition import_panel_session_config (server_id : Z) (server_name : string)
  : CommandM DesktopPanelConfigImportSummary :=
  let operation := "import-panel-session-config" in
  session <-! panel_session operation;
  api_base <-! panel_call operation (sm_lift (PanelApiClient_new (session_api_base session)));
  config_text <-! panel_call operation (sing_box_config_for_server api_base session server_id "windows" None);
  command_import_panel_config server_id server_name config_text.

Definition import_panel_session_batch_config : CommandM DesktopSubscriptionSummary :=
  let operation := "import-panel-session-batch-config" in
  session <-! panel_session operation;
  api_base <-! panel_call operation (sm_lift (PanelApiClient_new (session_api_base session)));
  config_text <-! panel_call operation (sing_box_batch_config api_base session "windows" None);
  command_import_subscription config_text.

End Commands.

Arguments DesktopNativeCommandService W {_ _}.
Arguments CommandM W {_ _} A.
