(* ===== verification/DesktopShell.v ===== *)
(** * The desktop: shell and controller

    [crates/keli-desktop/src]: the state of the shell with what is derived from it
    ([shell.rs]), the subscription on disk ([persistence.rs]) and the controller that carries
    out what the user asks for ([app.rs]), over the class [DesktopShellCommandHost], of which
    the commands of [DesktopService] are an instance. The texts on the standard error stream
    are left out. *)

From stdpp Require Import base strings list numbers gmap.
From S2P Require Import Prelude.
From S2P Require Import StdIo.
From S2P Require Import TunSummary.
From S2P Require Import Subscription.
From S2P Require Import ClientCore.
From S2P Require Import Panel.
From S2P Require Import Platform.
From S2P Require Import ManagedTun.
From S2P Require Import ManagedMixed.
From S2P Require Import Desktop.
From S2P Require Import DesktopService.
#[local] Open Scope Z_scope.

(** ** The shell *)

Definition MISSING_SUBSCRIPTION_REASON : string := "请先导入订阅，再启动 Keli".

Inductive DesktopShellAction : Type :=
| ShowMainWindow | HideMainWindow | ToggleMainWindow | OpenDiagnostics | CloseDiagnostics
| RequestStart | RequestStop | RequestQuit | CancelQuit.

Inductive DesktopShellPrimaryCommand : Type :=
| Primary_Start | Primary_Stop | Primary_Busy | Primary_Retry | Primary_Blocked.

#[export] Instance PrimaryCommand_eq_dec : EqDecision DesktopShellPrimaryCommand.
Proof. solve_decision. Defined.

Record DesktopShellPrimaryAction : Type := mkPrimaryAction {
  action_id : string;
  action_command : DesktopShellPrimaryCommand;
  action_label : string;
  action_enabled : bool;
  action_reason : option string
}.

Record DesktopShellWindowState : Type := mkWindow {
  main_visible : bool;
  diagnostics_visible : bool
}.

Record DesktopShellTrayItem : Type := mkTrayItem {
  tray_id : string;
  tray_label : string;
  tray_enabled : bool;
  tray_checked : bool;
  tray_action : DesktopShellAction
}.

Record DesktopShellState : Type := mkShell {
  shell_window : DesktopShellWindowState;
  shell_status : DesktopStatusSnapshot;
  shell_dependencies : DesktopDependencyReport;
  shell_panel : option DesktopPanelSnapshot;
  shell_subscription : option DesktopSubscriptionSummary;
  shell_primary_action : DesktopShellPrimaryAction;
  shell_tray_menu : list DesktopShellTrayItem;
  shell_can_start : bool;
  shell_quit_requested : bool
}.

#[export] Instance DesktopShellState_settable : Settable DesktopShellState := fun s =>
  mkShell (shell_window s) (shell_status s) (shell_dependencies s) (shell_panel s) (shell_subscription s)
    (shell_primary_action s) (shell_tray_menu s) (shell_can_start s) (shell_quit_requested s).

Definition has_usable_subscription (subscription : option DesktopSubscriptionSummary) : bool :=
  match subscription with
  | Some subscription =>
      dsub_usable subscription && (0 <? dsub_supported_count subscription) && negb (is_empty (dsub_nodes subscription))
  | None => false
  end.

Definition can_start_for_traffic_mode (status : DesktopStatusSnapshot) (dependencies : DesktopDependencyReport)
  : bool :=
  match ds_traffic_mode status with
  | Mode_MixedInboundOnly => true
  | Mode_SystemProxy => can_start_system_proxy_mode (first_run dependencies)
  | Mode_Tun => can_start_tun_mode (first_run dependencies)
  end.

Definition can_start_for_shell (status : DesktopStatusSnapshot) (dependencies : DesktopDependencyReport)
  (subscription : option DesktopSubscriptionSummary) : bool :=
  has_usable_subscription subscription && can_start_for_traffic_mode status dependencies.

Definition busy_primary_action (label : string) : DesktopShellPrimaryAction :=
  mkPrimaryAction "busy-service" Primary_Busy label false None.

Definition missing_subscription_primary_action : DesktopShellPrimaryAction :=
  mkPrimaryAction "blocked-service" Primary_Blocked "启动受阻" false (Some MISSING_SUBSCRIPTION_REASON).

Definition blocked_reason (dependencies : DesktopDependencyReport) : string :=
  let blockers := blockers (first_run dependencies) in
  if is_empty blockers then "没有可用的流量模式" else join "; " (map blocker_message blockers).

Definition blocked_primary_action (dependencies : DesktopDependencyReport) : DesktopShellPrimaryAction :=
  mkPrimaryAction "blocked-service" Primary_Blocked "启动受阻" false (Some (blocked_reason dependencies)).

Definition derive_primary_action (status : DesktopStatusSnapshot) (dependencies : DesktopDependencyReport)
  (subscription : option DesktopSubscriptionSummary) : DesktopShellPrimaryAction :=
  let has_subscription := has_usable_subscription subscription in
  let can_start := has_subscription && can_start_for_traffic_mode status dependencies in
  let or_blocked action :=
    if can_start then action
    else if negb has_subscription then missing_subscription_primary_action
    else blocked_primary_action dependencies in
  match ds_run_state status with
  | Desktop_Stopped => or_blocked (mkPrimaryAction "start-service" Primary_Start "启动 Keli" true None)
  | Desktop_Running => mkPrimaryAction "stop-service" Primary_Stop "停止 Keli" true None
  | Desktop_Starting => busy_primary_action "正在启动"
  | Desktop_Reloading => busy_primary_action "正在更新"
  | Desktop_Stopping => busy_primary_action "正在停止"
  | Desktop_Failed => or_blocked (mkPrimaryAction "retry-service" Primary_Retry "重试" true (ds_last_error status))
  end.

Definition derive_tray_menu (window : DesktopShellWindowState) (action : DesktopShellPrimaryAction)
  : list DesktopShellTrayItem :=
  [mkTrayItem "show-main-window" (if main_visible window then "隐藏 Keli" else "显示 Keli") true
     (main_visible window) (if main_visible window then HideMainWindow else ShowMainWindow);
   mkTrayItem "toggle-service" (action_label action) (action_enabled action)
     (bool_decide (action_command action = Primary_Stop))
     (match action_command action with Primary_Stop => RequestStop | _ => RequestStart end);
   mkTrayItem "open-diagnostics" "诊断" true (diagnostics_visible window) OpenDiagnostics;
   mkTrayItem "quit" "退出 Keli" true false RequestQuit].

(** [DesktopShellState::new]. *)
Definition shell_new (status : DesktopStatusSnapshot) (dependencies : DesktopDependencyReport) : DesktopShellState :=
  let window := mkWindow false false in
  let action := derive_primary_action status dependencies None in
  mkShell window status dependencies None None action (derive_tray_menu window action)
    (can_start_for_shell status dependencies None) false.

Definition rebuild_derived (self : DesktopShellState) : DesktopShellState :=
  let self :=
    self <| shell_can_start :=
      can_start_for_shell (shell_status self) (shell_dependencies self) (shell_subscription self) |> in
  let self :=
    self <| shell_primary_action :=
      derive_primary_action (shell_status self) (shell_dependencies self) (shell_subscription self) |> in
  self <| shell_tray_menu := derive_tray_menu (shell_window self) (shell_primary_action self) |>.

(** [DesktopShellState::apply]. *)
Definition shell_apply (action : DesktopShellAction) (self : DesktopShellState) : DesktopShellState :=
  let window := shell_window self in
  rebuild_derived
    match action with
    | ShowMainWindow => self <| shell_window := mkWindow true (diagnostics_visible window) |>
    | HideMainWindow => self <| shell_window := mkWindow false (diagnostics_visible window) |>
    | ToggleMainWindow => self <| shell_window := mkWindow (negb (main_visible window)) (diagnostics_visible window) |>
    | OpenDiagnostics => self <| shell_window := mkWindow true true |>
    | CloseDiagnostics => self <| shell_window := mkWindow (main_visible window) false |>
    | RequestQuit => self <| shell_quit_requested := true |>
    | CancelQuit => self <| shell_quit_requested := false |>
    | RequestStart | RequestStop => self
    end.

Definition refresh_status (status : DesktopStatusSnapshot) (self : DesktopShellState) : DesktopShellState :=
  rebuild_derived (self <| shell_status := status |>).
Definition refresh_dependencies (dependencies : DesktopDependencyReport) (self : DesktopShellState)
  : DesktopShellState :=
  rebuild_derived (self <| shell_dependencies := dependencies |>).
Definition refresh_subscription (subscription : option DesktopSubscriptionSummary) (self : DesktopShellState)
  : DesktopShellState :=
  rebuild_derived (self <| shell_subscription := subscription |>).
Definition refresh_panel (panel : option DesktopPanelSnapshot) (self : DesktopShellState) : DesktopShellState :=
  rebuild_derived (self <| shell_panel := panel |>).

(** ** The subscription on disk *)

(** A file system and [serde_json] of a persisted subscription; an error is its text. *)
Class SubscriptionDisk (H : Type) := {
  disk_read : string -> SM H string (option string);
  disk_make_parent : string -> SM H string unit;
  disk_write : string -> string -> SM H string unit;
  persisted_to_json : DesktopPersistedSubscription -> result string string;
  persisted_from_json : string -> result string DesktopPersistedSubscription
}.

Section Store.
Context {H : Type} {Disk : SubscriptionDisk H}.

(** [DesktopSubscriptionStore::load]: a file that is not there is no subscription. *)
Definition store_load (path : string) : SM H string (option DesktopPersistedSubscription) :=
  contents <-! disk_read path;
  match contents with
  | Some contents => persisted <-! sm_lift (persisted_from_json contents); sm_ret (Some persisted)
  | None => sm_ret None
  end.

(** [DesktopSubscriptionStore::save]. *)
Definition store_save (path : string) (subscription : DesktopPersistedSubscription) : SM H string unit :=
  do! disk_make_parent path;
  json <-! sm_lift (persisted_to_json subscription);
  disk_write path json.

End Store.

(** ** The controller *)

Definition DEFAULT_SUBSCRIPTION_URL_TIMEOUT : Z := 15000000000.
Definition DEFAULT_SUBSCRIPTION_URL_MAX_BYTES : Z := 4 * 1024 * 1024.

(** The trait; [H] is the host with the system it acts on. *)
Class DesktopShellCommandHost (H : Type) := {
  host_status : H -> H * DesktopStatusSnapshot;
  host_dependency_report : H -> H * DesktopDependencyReport;
  host_start : SM H DesktopCommandError DesktopStatusSnapshot;
  host_stop : SM H DesktopCommandError DesktopStatusSnapshot;
  host_import_subscription : string -> SM H DesktopCommandError DesktopSubscriptionSummary;
  host_connect_panel : string -> string -> string -> SM H DesktopCommandError DesktopPanelSnapshot;
  host_import_panel_config : Z -> string -> string -> SM H DesktopCommandError DesktopPanelConfigImportSummary;
  host_import_panel_session_config : Z -> string -> SM H DesktopCommandError DesktopPanelConfigImportSummary;
  host_import_panel_session_batch_config : SM H DesktopCommandError DesktopSubscriptionSummary;
  host_import_url : string -> Z -> Z -> SM H DesktopCommandError DesktopSubscriptionUrlImportSummary;
  host_update_url : string -> Z -> Z -> SM H DesktopCommandError DesktopSubscriptionUrlUpdateSummary;
  host_select_node : string -> SM H DesktopCommandError DesktopSubscriptionSummary;
  host_refresh_node_health : SM H DesktopCommandError DesktopSubscriptionSummary;
  host_set_traffic_mode : DesktopTrafficMode -> H -> H;
  host_set_listen : string -> H -> H;
  host_persisted_subscription : H -> option DesktopPersistedSubscription
}.

Section Controller.
Context {H : Type} {Host : DesktopShellCommandHost H} {Disk : SubscriptionDisk H}.

(** [DesktopShellController]; the store is its path. *)
Record DesktopShellController : Type := mkShellController {
  app_host : H;
  app_shell : DesktopShellState;
  app_store : option string
}.

(** The error of the controller has the fields of the error of a command. *)
Definition AppM (A : Type) : Type := SM DesktopShellController DesktopCommandError A.

Definition shell_blocked (operation message : string) : DesktopCommandError :=
  mkCommandError operation "shell-blocked" message.

Definition on_host {A} (m : SM H DesktopCommandError A) : AppM A :=
  fun c => let '(host, r) := m (app_host c) in (mkShellController host (app_shell c) (app_store c), r).

Definition modify_shell (f : DesktopShellState -> DesktopShellState) : AppM unit :=
  sm_modify (fun c => mkShellController (app_host c) (f (app_shell c)) (app_store c)).

(** [self.shell.refresh_status(self.host.status())]. *)
Definition show_status : AppM unit :=
  fun c =>
    let '(host, status) := host_status (app_host c) in
    (mkShellController host (refresh_status status (app_shell c)) (app_store c), Ok tt).

Definition show_dependencies : AppM unit :=
  fun c =>
    let '(host, dependencies) := host_dependency_report (app_host c) in
    (mkShellController host (refresh_dependencies dependencies (app_shell c)) (app_store c), Ok tt).

Definition show_subscription (subscription : DesktopSubscriptionSummary) : AppM unit :=
  modify_shell (refresh_subscription (Some subscription)).

(** [Ok(self.shell.clone())]. *)
Definition shell_clone : AppM DesktopShellState := c <-! sm_get; sm_ret (app_shell c).

Definition persist_current_subscription : AppM unit :=
  fun c =>
    match app_store c, host_persisted_subscription (app_host c) with
    | Some path, Some subscription =>
        let '(host, _) := store_save path subscription (app_host c) in
        (mkShellController host (app_shell c) (app_store c), Ok tt)
    | _, _ => (c, Ok tt)
    end.

(** A command whose error is only written to the standard error stream. *)
Definition on_host_quietly {A} (m : SM H DesktopCommandError A) (k : A -> AppM unit) (otherwise : AppM unit)
  : AppM unit :=
  fun c =>
    match on_host m c with
    | (c, Ok a) => k a c
    | (c, Err _) => otherwise c
    | (c, Panic) => (c, Panic)
    end.

Definition restore_persisted_subscription : AppM unit :=
  fun c =>
    match app_store c with
    | None => (c, Ok tt)
    | Some path =>
        match store_load path (app_host c) with
        | (host, Ok (Some persisted)) =>
            on_host_quietly (host_import_subscription (persisted_config_text persisted))
              (fun subscription =>
                 do! show_subscription subscription;
                 do! match persisted_selected_outbound persisted with
                     | Some selected => on_host_quietly (host_select_node selected) show_subscription (sm_ret tt)
                     | None => sm_ret tt
                     end;
                 show_status)
              (sm_ret tt) (mkShellController host (app_shell c) (app_store c))
        | (host, Panic) => (mkShellController host (app_shell c) (app_store c), Panic)
        | (host, _) => (mkShellController host (app_shell c) (app_store c), Ok tt)
        end
    end.

(** [from_parts]. *)
Definition app_from_parts (host : H) (store : option string) : DesktopShellController * result DesktopCommandError unit :=
  let '(host, status) := host_status host in
  let '(host, dependencies) := host_dependency_report host in
  restore_persisted_subscription (mkShellController host (shell_new status dependencies) store).

Definition app_refresh : AppM DesktopShellState :=
  fun c =>
    let '(host, status) := host_status (app_host c) in
    let '(host, dependencies) := host_dependency_report host in
    let shell := refresh_dependencies dependencies (refresh_status status (app_shell c)) in
    (mkShellController host shell (app_store c), Ok shell).

Definition app_refresh_panel (panel : option DesktopPanelSnapshot) : AppM DesktopShellState :=
  do! modify_shell (refresh_panel panel); shell_clone.

Definition app_import_subscription (config_text : string) : AppM DesktopShellState :=
  subscription <-! on_host (host_import_subscription config_text);
  do! show_subscription subscription;
  do! show_status;
  do! persist_current_subscription;
  shell_clone.

Definition app_connect_panel (endpoint email password : string) : AppM DesktopShellState :=
  panel <-! on_host (host_connect_panel endpoint email password);
  do! modify_shell (refresh_panel (Some panel));
  subscription <-! on_host host_import_panel_session_batch_config;
  do! show_subscription subscription;
  do! show_status;
  do! persist_current_subscription;
  shell_clone.

(** The configuration of a node is shown, and not saved. *)
Definition app_imported (m : SM H DesktopCommandError DesktopPanelConfigImportSummary)
  : AppM DesktopPanelConfigImportSummary :=
  imported <-! on_host m;
  do! show_subscription (pi_subscription imported);
  do! show_status;
  sm_ret imported.

Definition app_import_panel_config (server_id : Z) (server_name config_text : string)
  : AppM DesktopPanelConfigImportSummary :=
  app_imported (host_import_panel_config server_id server_name config_text).

Definition app_import_panel_session_config (server_id : Z) (server_name : string)
  : AppM DesktopPanelConfigImportSummary :=
  app_imported (host_import_panel_session_config server_id server_name).

Definition app_import_url (url : string) : AppM DesktopSubscriptionUrlImportSummary :=
  imported <-! on_host (host_import_url url DEFAULT_SUBSCRIPTION_URL_TIMEOUT DEFAULT_SUBSCRIPTION_URL_MAX_BYTES);
  do! match import_subscription imported with
      | Some subscription =>
          do! show_subscription subscription;
          do! show_status;
          persist_current_subscription
      | None => sm_ret tt
      end;
  sm_ret imported.

Definition app_update_url (url : string) : AppM DesktopSubscriptionUrlUpdateSummary :=
  updated <-! on_host (host_update_url url DEFAULT_SUBSCRIPTION_URL_TIMEOUT DEFAULT_SUBSCRIPTION_URL_MAX_BYTES);
  do! (if uu_applied updated then
         do! match uu_update updated with
             | Some update => show_subscription (du_subscription update)
             | None => sm_ret tt
             end;
         persist_current_subscription
       else sm_ret tt);
  do! modify_shell (refresh_status (uu_runtime_status updated));
  sm_ret updated.

Definition app_select_node (tag : string) : AppM DesktopShellState :=
  subscription <-! on_host (host_select_node tag);
  do! show_subscription subscription;
  do! show_status;
  do! persist_current_subscription;
  shell_clone.

Definition app_refresh_node_health : AppM DesktopShellState :=
  subscription <-! on_host host_refresh_node_health;
  do! show_subscription subscription;
  do! show_status;
  shell_clone.

Definition modify_host (f : H -> H) : AppM unit :=
  sm_modify (fun c => mkShellController (f (app_host c)) (app_shell c) (app_store c)).

Definition app_set_traffic_mode (traffic_mode : DesktopTrafficMode) : AppM DesktopShellState :=
  do! modify_host (host_set_traffic_mode traffic_mode); do! show_status; shell_clone.

Definition app_set_listen (listen : string) : AppM DesktopShellState :=
  do! modify_host (host_set_listen listen); do! show_status; shell_clone.

Definition blocked {A} (operation otherwise : string) : AppM A :=
  c <-! sm_get;
  sm_lift (Err (shell_blocked operation (default otherwise (action_reason (shell_primary_action (app_shell c)))))).

(** The command, then what it left. *)
Definition carry_out (m : SM H DesktopCommandError DesktopStatusSnapshot) : AppM DesktopShellState :=
  status <-! on_host m;
  do! modify_shell (refresh_status status);
  do! show_dependencies;
  shell_clone.

Definition request_start : AppM DesktopShellState :=
  c <-! sm_get;
  let action := shell_primary_action (app_shell c) in
  if negb (action_enabled action)
     || negb (match action_command action with Primary_Start | Primary_Retry => true | _ => false end)
  then blocked "request-start" "start is not available in the current shell state"
  else carry_out host_start.

Definition request_stop : AppM DesktopShellState :=
  c <-! sm_get;
  let action := shell_primary_action (app_shell c) in
  if negb (action_enabled action) || negb (bool_decide (action_command action = Primary_Stop))
  then blocked "request-stop" "stop is not available in the current shell state"
  else carry_out host_stop.

Definition dispatch (action : DesktopShellAction) : AppM DesktopShellState :=
  match action with
  | RequestStart => request_start
  | RequestStop => request_stop
  | action => do! modify_shell (shell_apply action); shell_clone
  end.

End Controller.

Arguments DesktopShellController H : clear implicits.
Arguments AppM H A : clear implicits.

(** ** The native host *)

Section Native.
Context {W : Type} {System : ManagedSystem W} {Proxy : SystemProxyController W}
  `{Packets : TunPacketIoController W} {L : ShareLibrary} {Lib : PanelLibrary} {Transport : PanelApiTransport W}.
Context (packet_loop : PacketIo -> TunDeviceConfig -> SM W string TunPacketLoopSummary).
(** [DesktopDependencyReport::detect_native]. *)
Context (detect_native : W -> W * DesktopDependencyReport).

Definition NativeHost : Type := DesktopNativeCommandService W * W.

(** [status], which does not fail. *)
Definition native_status (h : NativeHost) : NativeHost * DesktopStatusSnapshot :=
  match command "status" service_status h with
  | (h, Ok status) => (h, status)
  | (h, _) => (h, from_managed_mixed_status (status_stopped None) Mode_MixedInboundOnly)
  end.

Definition native_modify (f : DesktopRuntimeService W -> DesktopRuntimeService W) (h : NativeHost) : NativeHost :=
  (mkCommands (f (commands_service h.1)) (commands_panel_session h.1), h.2).

#[local] Instance native_host : DesktopShellCommandHost NativeHost := {
  host_status := native_status;
  host_dependency_report := fun h => let '(w, report) := detect_native h.2 in ((h.1, w), report);
  host_start := command_start;
  host_stop := command_stop packet_loop;
  host_import_subscription := command_import_subscription;
  host_connect_panel := connect_panel;
  host_import_panel_config := command_import_panel_config;
  host_import_panel_session_config := import_panel_session_config;
  host_import_panel_session_batch_config := import_panel_session_batch_config;
  host_import_url := command_import_url;
  host_update_url := command_update_url;
  host_select_node := command_select_node;
  host_refresh_node_health := command_refresh_node_health;
  host_set_traffic_mode := fun mode => native_modify (fun s => s <| svc_traffic_mode := mode |>);
  host_set_listen := fun listen => native_modify (fun s => s <| svc_listen := listen |>);
  host_persisted_subscription := fun h => persisted_subscription (commands_service h.1)
}.

(** [DesktopShellController::new_native]. *)
Definition app_new_native {Disk : SubscriptionDisk NativeHost} (path : string) (w : W)
  : DesktopShellController NativeHost * result DesktopCommandError unit :=
  app_from_parts (commands_new, w) (Some path).

End Native.

Arguments NativeHost W {_ _}.
