(* ===== verification/DesktopSpec.v ===== *)
(** * What the desktop promises

    The shell's buttons are those of what it shows, and a start reaches the host only when
    what is shown allows it; the service keeps the subscription and the node that its core
    runs, as long as a subscription is imported into a stopped core only; what is saved is
    what is restored. *)

From stdpp Require Import base strings list numbers gmap.
From S2P Require Import Prelude.
From S2P Require Import StdNet.
From S2P Require Import StdIo.
From S2P Require Import TunSession.
From S2P Require Import TunSummary.
From S2P Require Import Relay.
From S2P Require Import Subscription.
From S2P Require Import SubscriptionSpec.
From S2P Require Import MixedMetrics.
From S2P Require Import Mixed.
From S2P Require Import MixedConfig.
From S2P Require Import ClientCore.
From S2P Require Import ClientRuntime.
From S2P Require Import ClientSpec.
From S2P Require Import Panel.
From S2P Require Import PanelHttp.
From S2P Require Import PanelSpec.
From S2P Require Import Platform.
From S2P Require Import PlatformWindows.
From S2P Require Import PlatformTun.
From S2P Require Import ManagedHealth.
From S2P Require Import ManagedTun.
From S2P Require Import ManagedMixed.
From S2P Require Import ManagedSpec.
From S2P Require Import Desktop.
From S2P Require Import DesktopService.
From S2P Require Import DesktopShell.
#[local] Open Scope Z_scope.

Create HintDb desktop.

(** ** The shell *)

(** What is derived is derived from what is shown. *)
Definition shell_ok (shell : DesktopShellState) : Prop := rebuild_derived shell = shell.

Lemma rebuild_idem shell : shell_ok (rebuild_derived shell).
Proof. by destruct shell. Qed.

Lemma shell_apply_ok action shell : shell_ok (shell_apply action shell).
Proof. apply rebuild_idem. Qed.
Lemma refresh_status_ok status shell : shell_ok (refresh_status status shell).
Proof. apply rebuild_idem. Qed.
Lemma refresh_panel_ok panel shell : shell_ok (refresh_panel panel shell).
Proof. apply rebuild_idem. Qed.

(** ** Requests *)

(** What a start needs: the core is down, a subscription with a node is there, and the mode
    that was chosen can be had. *)
Definition startable (shell : DesktopShellState) : Prop :=
  (ds_run_state (shell_status shell) = Desktop_Stopped \/ ds_run_state (shell_status shell) = Desktop_Failed) /\
  (exists subscription, shell_subscription shell = Some subscription /\ dsub_usable subscription = true /\
     0 < dsub_supported_count subscription /\ dsub_nodes subscription <> []) /\
  match ds_traffic_mode (shell_status shell) with
  | Mode_MixedInboundOnly => True
  | Mode_SystemProxy => can_start_system_proxy_mode (first_run (shell_dependencies shell)) = true
  | Mode_Tun => can_start_tun_mode (first_run (shell_dependencies shell)) = true
  end.

Definition running (shell : DesktopShellState) : Prop := ds_run_state (shell_status shell) = Desktop_Running.

Definition can_start_request (action : DesktopShellPrimaryAction) : bool :=
  action_enabled action && match action_command action with Primary_Start | Primary_Retry => true | _ => false end.

Definition can_stop_request (action : DesktopShellPrimaryAction) : bool :=
  action_enabled action && bool_decide (action_command action = Primary_Stop).

Lemma usable_subscription_spec subscription :
  has_usable_subscription subscription = true <->
  exists s, subscription = Some s /\ dsub_usable s = true /\ 0 < dsub_supported_count s /\ dsub_nodes s <> [].
Proof.
  destruct subscription as [s|]; cbn; [|split; [done|by intros (? & ? & _)]].
  rewrite !andb_true_iff, negb_true_iff, Z.ltb_lt. split.
  - intros [[Hu Hc] Hn]. exists s. split_and!; [done..|]. by intros E; rewrite E in Hn.
  - intros (s' & [= <-] & Hu & Hc & Hn). split; [done|]. by destruct (dsub_nodes s).
Qed.

Lemma mode_ready_spec shell :
  can_start_for_traffic_mode (shell_status shell) (shell_dependencies shell) = true <->
  match ds_traffic_mode (shell_status shell) with
  | Mode_MixedInboundOnly => True
  | Mode_SystemProxy => can_start_system_proxy_mode (first_run (shell_dependencies shell)) = true
  | Mode_Tun => can_start_tun_mode (first_run (shell_dependencies shell)) = true
  end.
Proof. unfold can_start_for_traffic_mode. by case_match. Qed.

Lemma action_of_shell shell : shell_ok shell ->
  shell_primary_action shell = derive_primary_action (shell_status shell) (shell_dependencies shell) (shell_subscription shell).
Proof. intros Hs. unfold shell_ok in Hs. by rewrite <- Hs at 1. Qed.

Lemma start_offered shell : shell_ok shell -> can_start_request (shell_primary_action shell) = true <-> startable shell.
Proof.
  intros ->%action_of_shell. unfold startable. rewrite <- mode_ready_spec, <- usable_subscription_spec.
  unfold derive_primary_action. destruct (ds_run_state (shell_status shell));
    destruct (has_usable_subscription (shell_subscription shell)),
      (can_start_for_traffic_mode (shell_status shell) (shell_dependencies shell)); cbn; naive_solver.
Qed.

Lemma stop_offered shell : shell_ok shell -> can_stop_request (shell_primary_action shell) = true <-> running shell.
Proof.
  intros ->%action_of_shell. unfold running, derive_primary_action.
  destruct (ds_run_state (shell_status shell));
    destruct (has_usable_subscription (shell_subscription shell)),
      (can_start_for_traffic_mode (shell_status shell) (shell_dependencies shell)); cbn; naive_solver.
Qed.

Section Shell.
Context {H : Type} {Host : DesktopShellCommandHost H} {Disk : SubscriptionDisk H}.

(** [m] leaves the shell in step, whatever it gives. *)
Definition tidy {A} (m : AppM H A) : Prop := forall c, shell_ok (app_shell c) -> shell_ok (app_shell (m c).1).

Lemma tidy_bind {A B} (m : AppM H A) (k : A -> AppM H B) : tidy m -> (forall a, tidy (k a)) -> tidy (sm_bind m k).
Proof.
  intros Hm Hk c Hc. specialize (Hm c Hc). unfold sm_bind. destruct (m c) as [c1 [a| |]]; [by apply Hk|done..].
Qed.

Lemma tidy_lift {A} (r : result DesktopCommandError A) : tidy (sm_lift r).
Proof. by intros c. Qed.

Lemma tidy_get : tidy sm_get.
Proof. by intros c. Qed.

Lemma tidy_host {A} (m : SM H DesktopCommandError A) : tidy (on_host m).
Proof. intros c Hc. unfold on_host. by destruct (m (app_host c)). Qed.

Lemma tidy_shell f : (forall shell, shell_ok (f shell)) -> tidy (modify_shell f).
Proof. intros Hf c Hc. apply Hf. Qed.

Lemma tidy_status : tidy show_status.
Proof. intros c Hc. unfold show_status. destruct (host_status (app_host c)). apply rebuild_idem. Qed.

Lemma tidy_dependencies : tidy show_dependencies.
Proof. intros c Hc. unfold show_dependencies. destruct (host_dependency_report (app_host c)). apply rebuild_idem. Qed.

Lemma tidy_persist : tidy persist_current_subscription.
Proof.
  intros c Hc. unfold persist_current_subscription. by repeat case_match.
Qed.

Lemma tidy_modify_host f : tidy (modify_host f).
Proof. by intros c. Qed.

Lemma tidy_subscription subscription : tidy (show_subscription subscription).
Proof. apply tidy_shell. intros shell. apply rebuild_idem. Qed.

Hint Resolve tidy_lift tidy_get tidy_host tidy_status tidy_dependencies tidy_persist tidy_modify_host
  tidy_subscription tidy_shell shell_apply_ok refresh_status_ok refresh_panel_ok : desktop.

Ltac tidy :=
  repeat first
    [ solve [auto with desktop]
    | apply tidy_bind; [|intros ?]
    | progress cbn zeta
    | case_match ].

Lemma tidy_quietly {A} (m : SM H DesktopCommandError A) k otherwise :
  (forall a, tidy (k a)) -> tidy otherwise -> tidy (on_host_quietly m k otherwise).
Proof.
  intros Hk Ho c Hc. unfold on_host_quietly. pose proof (tidy_host m c Hc) as Hm.
  destruct (on_host m c) as [c1 [a|error|]]; [by apply Hk|by apply Ho|done].
Qed.

Lemma tidy_restore : tidy restore_persisted_subscription.
Proof.
  intros c Hc. unfold restore_persisted_subscription. destruct (app_store c) as [path|]; [|done].
  destruct (store_load path (app_host c)) as [host [[persisted|]|error|]]; [|done..].
  apply tidy_quietly; [|by apply tidy_lift|done]. intros subscription.
  apply tidy_bind; [apply tidy_subscription|]. intros _. apply tidy_bind; [|intros _; apply tidy_status].
  destruct (persisted_selected_outbound persisted); [|by apply tidy_lift].
  apply tidy_quietly; [apply tidy_subscription|by apply tidy_lift].
Qed.

(** What the user can ask of the controller. *)
Inductive app_op : Type :=
| App_refresh
| App_refresh_panel (panel : option DesktopPanelSnapshot)
| App_dispatch (action : DesktopShellAction)
| App_import_subscription (config_text : string)
| App_connect_panel (endpoint email password : string)
| App_import_panel_config (server_id : Z) (server_name config_text : string)
| App_import_panel_session_config (server_id : Z) (server_name : string)
| App_import_url (url : string)
| App_update_url (url : string)
| App_select_node (tag : string)
| App_refresh_node_health
| App_set_traffic_mode (traffic_mode : DesktopTrafficMode)
| App_set_listen (listen : string).

Definition drop_answer {A} (m : AppM H A) : AppM H unit := do! m; sm_ret tt.

Definition run_app (op : app_op) : AppM H unit :=
  match op with
  | App_refresh => drop_answer app_refresh
  | App_refresh_panel panel => drop_answer (app_refresh_panel panel)
  | App_dispatch action => drop_answer (dispatch action)
  | App_import_subscription config_text => drop_answer (app_import_subscription config_text)
  | App_connect_panel endpoint email password => drop_answer (app_connect_panel endpoint email password)
  | App_import_panel_config server_id server_name config_text =>
      drop_answer (app_import_panel_config server_id server_name config_text)
  | App_import_panel_session_config server_id server_name =>
      drop_answer (app_import_panel_session_config server_id server_name)
  | App_import_url url => drop_answer (app_import_url url)
  | App_update_url url => drop_answer (app_update_url url)
  | App_select_node tag => drop_answer (app_select_node tag)
  | App_refresh_node_health => drop_answer app_refresh_node_health
  | App_set_traffic_mode traffic_mode => drop_answer (app_set_traffic_mode traffic_mode)
  | App_set_listen listen => drop_answer (app_set_listen listen)
  end.

Lemma tidy_dispatch action : tidy (dispatch action).
Proof.
  destruct action; cbn [dispatch]; unfold request_start, request_stop, blocked, carry_out, shell_clone; tidy.
Qed.

Lemma run_app_tidy op : tidy (run_app op).
Proof.
  destruct op; apply tidy_bind; try (intros ?; by apply tidy_lift).
  - intros c Hc. unfold app_refresh. destruct (host_status (app_host c)) as [h st].
    destruct (host_dependency_report h). apply rebuild_idem.
  - unfold app_refresh_panel, shell_clone. tidy.
  - apply tidy_dispatch.
  - unfold app_import_subscription, shell_clone. tidy.
  - unfold app_connect_panel, shell_clone. tidy.
  - unfold app_import_panel_config, app_imported. tidy.
  - unfold app_import_panel_session_config, app_imported. tidy.
  - unfold app_import_url. tidy.
  - unfold app_update_url. tidy.
  - unfold app_select_node, shell_clone. tidy.
  - unfold app_refresh_node_health, shell_clone. tidy.
  - unfold app_set_traffic_mode, shell_clone. tidy.
  - unfold app_set_listen, shell_clone. tidy.
Qed.

Inductive app_reachable : DesktopShellController H -> Prop :=
| app_new host store : app_reachable (app_from_parts host store).1
| app_step c op : app_reachable c -> app_reachable (run_app op c).1.

Lemma app_reachable_ok c : app_reachable c -> shell_ok (app_shell c).
Proof.
  induction 1 as [host store|c op _ IH]; [|by apply run_app_tidy].
  unfold app_from_parts. destruct (host_status host) as [h st]. destruct (host_dependency_report h) as [h' deps].
  by apply tidy_restore.
Qed.

(** A request that is refused reaches nothing. *)
Definition request_refused (operation : string) (m : AppM H DesktopShellState) (c : DesktopShellController H) : Prop :=
  exists reason, m c = (c, Err (mkCommandError operation "shell-blocked" reason)).

Lemma request_start_eq c :
  if can_start_request (shell_primary_action (app_shell c)) then request_start c = carry_out host_start c
  else request_refused "request-start" request_start c.
Proof.
  unfold request_refused, request_start, can_start_request, sm_bind at 1, sm_get. cbn.
  destruct (action_enabled (shell_primary_action (app_shell c))); [|cbn; by eexists].
  destruct (action_command (shell_primary_action (app_shell c))); cbn; try done; by eexists.
Qed.

Lemma request_stop_eq c :
  if can_stop_request (shell_primary_action (app_shell c)) then request_stop c = carry_out host_stop c
  else request_refused "request-stop" request_stop c.
Proof.
  unfold request_refused, request_stop, can_stop_request, sm_bind at 1, sm_get. cbn.
  destruct (action_enabled (shell_primary_action (app_shell c))); [|cbn; by eexists]. case_bool_decide; cbn; [done|by eexists].
Qed.

(** C28: Whatever the user has asked before, and whatever the host answered, a request to
    start reaches the host exactly when what the shell shows allows it: the core is down, a
    subscription with at least one node is there, and the mode that was chosen has what it
    needs of the system. A request to stop reaches it exactly when the core is shown to run.
    Any other request is refused with a reason and changes neither the host nor the shell. *)
Theorem requests_follow_the_shell (c : DesktopShellController H) :
  app_reachable c ->
  (startable (app_shell c) -> request_start c = carry_out host_start c) /\
  (~ startable (app_shell c) -> request_refused "request-start" request_start c) /\
  (running (app_shell c) -> request_stop c = carry_out host_stop c) /\
  (~ running (app_shell c) -> request_refused "request-stop" request_stop c).
Proof.
  intros Hok%app_reachable_ok. pose proof (start_offered _ Hok) as Hstart. pose proof (stop_offered _ Hok) as Hstop.
  pose proof (request_start_eq c) as Es. pose proof (request_stop_eq c) as Et.
  destruct (can_start_request _), (can_stop_request _); naive_solver.
Qed.

End Shell.

(** ** The choice of a handle *)

(** The subscription a handle runs and the node it shows. *)
Definition choice {W} `{TunPacketIoController W} (h : ManagedMixedHandle W) : option string * option string :=
  (config_text <$> active_config (handle_state h), handle_selected_outbound h).

Section Service.
Context {W : Type} {System : ManagedSystem W} {Proxy : SystemProxyController W}
  `{Packets : TunPacketIoController W} {L : ShareLibrary}.
Context (packet_loop : PacketIo -> TunDeviceConfig -> SM W string TunPacketLoopSummary).

Lemma traffic_choice (h h' : ManagedMixedHandle W) : traffic_unchanged h h' -> choice h' = choice h.
Proof. intros [(_ & _ & Hc) E]. unfold choice. rewrite Hc. by rewrite E. Qed.

(** [m] leaves the choice alone. *)
Definition keeps_choice {A} (m : HandleM W A) : Prop := forall h w, choice (m (h, w)).1.1 = choice h.

Lemma keeps_choice_bind {A B} (m : HandleM W A) (k : A -> HandleM W B) :
  keeps_choice m -> (forall a, keeps_choice (k a)) -> keeps_choice (sm_bind m k).
Proof.
  intros Hm Hk h w. specialize (Hm h w). unfold sm_bind.
  destruct (m (h, w)) as [[h1 w1] [a| |]]; [|done..]. rewrite (Hk a h1 w1). done.
Qed.

Lemma keeps_choice_harmless {A} (m : HandleM W A) : harmless m -> keeps_choice m.
Proof. intros Hm h w. destruct (m (h, w)) as [[h' w'] r] eqn:E. by apply traffic_choice, (Hm _ _ _ _ _ E). Qed.

Lemma keeps_choice_reads {A} (m : HandleM W A) : reads m -> keeps_choice m.
Proof. intros Hm h w. by rewrite (Hm h w). Qed.

Lemma keeps_choice_health health : keeps_choice (set_node_health health).
Proof. apply keeps_choice_bind; [done|]. intros _. apply keeps_choice_harmless, harmless_note. Qed.

Lemma keeps_choice_fails {A} error : keeps_choice (A := A) (fails error).
Proof. done. Qed.

Lemma keeps_choice_ret {A} (a : A) : keeps_choice (sm_ret a).
Proof. done. Qed.

Hint Resolve keeps_choice_fails keeps_choice_ret keeps_choice_reads keeps_choice_health reads_now reads_get reads_result reads_config_text : desktop.

Lemma keeps_choice_tag tag : keeps_choice (ensure_active_subscription_tag tag).
Proof. intros h w. unfold ensure_active_subscription_tag. cbn. by repeat case_match. Qed.

Lemma keeps_choice_probe tag options : keeps_choice (handle_probe_node_health tag options).
Proof.
  apply keeps_choice_bind; [apply keeps_choice_tag|]. intros _.
  apply keeps_choice_bind; [auto with desktop|]. intros text h w.
  pose proof (reads_world (smoke_connect text tag options) h w) as Hw.
  destruct (on_world (smoke_connect text tag options) (h, w)) as [[h1 w1] [[first connect]|error|]];
    cbn in Hw; subst h1; [| |done].
  - revert h w1. apply keeps_choice_bind; [|intros udp].
    { apply keeps_choice_reads. destruct (probe_udp_probe options); [|done]. intros h0 w0. cbn.
      by destruct (probe_udp _ _ _ _ w0). }
    apply keeps_choice_bind; auto with desktop.
  - revert h w1. repeat (apply keeps_choice_bind; [auto with desktop|intros ?]). auto with desktop.
Qed.

Lemma keeps_choice_each tags options successful failed : keeps_choice (probe_each tags options successful failed).
Proof.
  revert successful failed. induction tags as [|tag tags IH]; intros successful failed h w; [done|].
  cbn [probe_each]. pose proof (keeps_choice_probe tag options h w) as Hp.
  destruct (handle_probe_node_health tag options (h, w)) as [[h1 w1] [a| |]]; cbn in Hp; rewrite <- Hp;
    [apply IH..|done].
Qed.

Lemma keeps_choice_probe_all options : keeps_choice (handle_probe_all_node_health options).
Proof.
  do 3 (apply keeps_choice_bind; [auto with desktop|intros ?]). cbn zeta. case_match; [auto with desktop|].
  apply keeps_choice_bind; [apply keeps_choice_each|]. intros [successful failed].
  apply keeps_choice_bind; [auto with desktop|]. intros s. case_match; [|auto with desktop].
  apply keeps_choice_bind; [auto with desktop|]. intros ended.
  apply keeps_choice_harmless, harmless_state. intros now state. apply push_event_core.
Qed.

(** ** The choice of a controller *)

(** The choice of the handle, if there is one. *)
Definition chosen (c : ManagedMixedController W) : option (option string * option string) := choice <$> ctl_handle c.

Lemma chosen_status c w : (controller_status (c, w)).1.1 = c.
Proof.
  unfold controller_status. cbn. destruct (ctl_handle c); [|done]. by destruct (status_from_handle _ _ w).
Qed.

(** The status shows the outbound of the handle. *)
Lemma status_shows c w : exists w' status,
  controller_status (c, w) = ((c, w'), Ok status) /\
  (forall h, ctl_handle c = Some h ->
     st_selected_outbound status = handle_selected_outbound h /\ st_subscription status = subscription_status h).
Proof.
  unfold controller_status. cbn. destruct (ctl_handle c) as [h|] eqn:E.
  - unfold status_from_handle. destruct (read_clock w) as [w1 now]. do 2 eexists. split; [done|].
    by intros h' [= <-].
  - do 2 eexists. by split.
Qed.

Lemma chosen_handle {A} (m : HandleM W A) c w :
  keeps_choice m -> chosen (on_handle m (c, w)).1.1 = chosen c.
Proof.
  intros Hm. unfold on_handle, chosen. cbn. destruct (ctl_handle c) as [h|] eqn:E; [|by cbn; rewrite E].
  specialize (Hm h w). destruct (m (h, w)) as [[h' w'] r]. cbn in *. by rewrite Hm.
Qed.

Lemma chosen_if_handle (m : HandleM W unit) c w : harmless m -> chosen (if_handle m (c, w)).1.1 = chosen c.
Proof.
  intros Hm. unfold if_handle. cbn. destruct (ctl_handle c) eqn:E; [|done].
  by apply chosen_handle, keeps_choice_harmless.
Qed.

Lemma chosen_panel c w : chosen (ensure_panel_allows_traffic (c, w)).1.1 = chosen c.
Proof.
  unfold ensure_panel_allows_traffic. cbn. destruct (ctl_panel_state c ≫= traffic_restriction_error); [|done].
  pose proof (chosen_if_handle (record_panel_traffic_restricted c0) c w (harmless_restricted c0)) as Hc.
  unfold sm_bind. destruct (if_handle _ (c, w)) as [[c1 w1] [a| |]]; done.
Qed.

Lemma panel_allows c w c1 w1 a :
  ensure_panel_allows_traffic (c, w) = ((c1, w1), Ok a) -> c1 = c /\ w1 = w.
Proof.
  unfold ensure_panel_allows_traffic. cbn. destruct (ctl_panel_state c ≫= traffic_restriction_error).
  - unfold sm_bind. by destruct (if_handle _ (c, w)) as [[c2 w2] [b| |]].
  - by intros [= <- <- _].
Qed.

(** The controller runs a node of a text, which is the one the text's plan selects. *)
Definition runs (text : string) (preferred : option string) (c : ManagedMixedController W) : Prop :=
  exists h plan listen,
    ctl_handle c = Some h /\ build_connection_plan text preferred listen = Ok plan /\
    choice h = (Some text, Some (selected_outbound plan)).

Lemma allowed_choice {A} (m : HandleM W A) (P : ManagedMixedHandle W -> Prop) c w c' w' r :
  (forall h w1, ctl_handle c = Some h ->
     match m (h, w1) with
     | ((h', _), Ok _) => P h'
     | ((h', _), _) => choice h' = choice h
     end) ->
  allowed m (c, w) = ((c', w'), r) ->
  match r with
  | Ok status => exists h', ctl_handle c' = Some h' /\ P h' /\
      st_selected_outbound status = handle_selected_outbound h' /\ st_subscription status = subscription_status h'
  | _ => chosen c' = chosen c
  end.
Proof.
  intros Hm. unfold allowed, sm_bind at 1. pose proof (chosen_panel c w) as Hp.
  destruct (ensure_panel_allows_traffic (c, w)) as [[c1 w1] [[]|error|]] eqn:Ep; [|by intros [= <- _ <-]..].
  apply panel_allows in Ep as [-> ->]. unfold sm_bind, on_handle. cbn [fst snd].
  destruct (ctl_handle c) as [h|] eqn:Eh; [|by intros [= <- _ <-]].
  specialize (Hm h w eq_refl). destruct (m (h, w)) as [[h' w2] [a|error|]].
  - edestruct status_shows as (w3 & st & Hs & Hsel). rewrite Hs. intros [= <- _ <-].
    exists h'. split_and!; [done|done|by apply (Hsel h')..].
  - intros [= <- _ <-]. unfold chosen. cbn. by rewrite Hm, Eh.
  - intros [= <- _ <-]. unfold chosen. cbn. by rewrite Hm, Eh.
Qed.

Lemma reload_choice text tag (h : ManagedMixedHandle W) w :
  handle_ok h ->
  match handle_reload text tag (h, w) with
  | ((h', _), Ok _) => exists plan listen, build_connection_plan text tag listen = Ok plan /\
      choice h' = (Some text, Some (selected_outbound plan))
  | ((h', _), _) => choice h' = choice h
  end.
Proof.
  intros Hok. destruct (handle_reload text tag (h, w)) as [[h' w'] r] eqn:E.
  apply handle_reload_outcome in E; [|done]. destruct r as [[]|error|]; [| |done].
  - destruct E as (plan & runtime & Hb & _ & _ & _ & Hsel & Ht & _). exists plan, (socket_addr_to_string (handle_listen_addr h)).
    split; [done|]. unfold choice. by rewrite Ht, Hsel.
  - apply traffic_choice, E.
Qed.

Lemma controller_handle_ok c h : controller_ok c -> ctl_handle c = Some h -> handle_ok h.
Proof. intros Hok Hh. unfold controller_ok in Hok. by rewrite Hh in Hok. Qed.

Lemma controller_reload_choice text tag c w c' w' r :
  controller_ok c -> controller_reload text tag (c, w) = ((c', w'), r) ->
  match r with Ok _ => runs text tag c' | _ => chosen c' = chosen c end.
Proof.
  intros Hok Hr. eapply allowed_choice in Hr.
  2: { intros h w1 Hh. apply (reload_choice text tag h w1). by eapply controller_handle_ok. }
  destruct r; [|done..]. destruct Hr as (h' & Hh & (plan & listen & Hb & Hc) & _). by exists h', plan, listen.
Qed.

(** [m] succeeds and leaves the choice alone. *)
Lemma note_ok note (h : ManagedMixedHandle W) w : exists h' w',
  status_note note (h, w) = ((h', w'), Ok tt) /\ choice h' = choice h.
Proof.
  unfold status_note. rewrite on_state_eq. do 2 eexists. split; [done|].
  apply traffic_choice. split; [apply push_event_core|by destruct h].
Qed.

Lemma update_plan_choice text (h : ManagedMixedHandle W) w :
  handle_ok h ->
  match handle_reload_with_update_plan text (h, w) with
  | ((h', _), Ok (report, true, _)) => exists tag plan listen, build_connection_plan text (Some tag) listen = Ok plan /\
      choice h' = (Some text, Some (selected_outbound plan))
  | ((h', _), _) => choice h' = choice h
  end.
Proof.
  intros Hok. unfold handle_reload_with_update_plan, sm_bind at 1, sm_get. cbn [fst].
  destruct (subscription_update_report_from_config_text text h) as [report|error|].
  - destruct (planned_selected_outbound report) as [tag|].
    + unfold sm_bind at 1. pose proof (reload_choice text (Some tag) h w Hok) as Hr.
      destruct (handle_reload text (Some tag) (h, w)) as [[h1 w1] [[]| |]]; [|done..].
      unfold sm_bind. edestruct note_ok as (h2 & w2 & -> & Hc). cbn. rewrite Hc. by exists tag.
    + unfold sm_bind at 1. rewrite on_state_eq.
      match goal with |- context [sm_bind (status_note ?note) _ (?h1, ?w1)] =>
        destruct (note_ok note h1 w1) as (h2 & w2 & E2 & Hc) end.
      unfold sm_bind. rewrite E2. cbn. rewrite Hc. apply traffic_choice. split; [apply push_event_core|by destruct h].
  - unfold sm_bind. rewrite on_state_eq. cbn. apply traffic_choice. split; [apply push_event_core|by destruct h].
  - done.
Qed.

(** What an update that was applied leaves, and the outbound it shows. *)
Definition updated (text : string) (shown : option string) (c : ManagedMixedController W) : Prop :=
  exists tag, runs text (Some tag) c /\ exists h, ctl_handle c = Some h /\ shown = handle_selected_outbound h.

(** A handle in step has a subscription to show. *)
Lemma handle_shows (h : ManagedMixedHandle W) : handle_ok h -> is_Some (subscription_status h).
Proof.
  intros (plan & config & g & runtime & _ & Hp & _). unfold subscription_status. rewrite Hp. by eexists.
Qed.

Lemma controller_update_choice text c w c' w' r :
  controller_ok c -> controller_reload_with_update_plan text (c, w) = ((c', w'), r) ->
  match r with
  | Ok (_, status, applied, _) =>
      is_Some (st_subscription status) /\
      if applied then updated text (st_selected_outbound status) c' else chosen c' = chosen c
  | _ => chosen c' = chosen c
  end.
Proof.
  intros Hok. unfold controller_reload_with_update_plan, sm_bind at 1. pose proof (chosen_panel c w) as Hp.
  destruct (ensure_panel_allows_traffic (c, w)) as [[c1 w1] [[]|error|]] eqn:Ep; [|by intros [= <- _ <-]..].
  apply panel_allows in Ep as [-> ->]. unfold sm_bind at 1, on_handle. cbn [fst snd].
  destruct (ctl_handle c) as [h|] eqn:Eh; [|by intros [= <- _ <-]].
  pose proof (update_plan_choice text h w (controller_handle_ok c h Hok Eh)) as Hu.
  pose proof (keeps_update_plan text h w (controller_handle_ok c h Hok Eh)) as Hk.
  destruct (handle_reload_with_update_plan text (h, w)) as [[h' w2] [[[report applied] error]|error|]].
  - unfold sm_bind. edestruct status_shows as (w3 & st & Hs & Hsel). rewrite Hs. intros [= <- _ <-].
    destruct (Hsel h' eq_refl) as [Hsel1 Hsel2]. rewrite Hsel2. split; [by apply handle_shows|].
    destruct applied; [|unfold chosen; cbn; by rewrite Hu, Eh].
    destruct Hu as (tag & plan & listen & Hb & Hc). exists tag. split; [by exists h', plan, listen|].
    by exists h'.
  - intros [= <- _ <-]. unfold chosen. cbn. by rewrite Hu, Eh.
  - intros [= <- _ <-]. unfold chosen. cbn. by rewrite Hu, Eh.
Qed.

(** A note on the handle that is there. *)
Lemma if_handle_note (m : HandleM W unit) c w :
  harmless m -> (forall h w1, exists s, m (h, w1) = (s, Ok tt)) ->
  exists c1 w1, if_handle m (c, w) = ((c1, w1), Ok tt) /\ chosen c1 = chosen c /\
    (forall h, ctl_handle c = Some h -> exists h1, ctl_handle c1 = Some h1 /\ traffic_unchanged h h1).
Proof.
  intros Hm Hok. unfold if_handle, on_handle. cbn. destruct (ctl_handle c) as [h|] eqn:E.
  - destruct (Hok h w) as [[h1 w1] Eh]. pose proof (Hm _ _ _ _ _ Eh) as Ht. rewrite Eh. do 2 eexists.
    split; [done|]. split; [unfold chosen; cbn; by rewrite E, (traffic_choice h h1)|].
    intros h0 [= <-]. by exists h1.
  - do 2 eexists. split; [done|]. split; [done|]. by intros h0.
Qed.

Lemma url_status_returns status (h : ManagedMixedHandle W) w :
  exists s, record_subscription_url_update_status status (h, w) = (s, Ok tt).
Proof.
  unfold record_subscription_url_update_status, sm_bind. edestruct note_ok as (h1 & w1 & -> & _). by eexists.
Qed.

Lemma url_rejected_returns status message (h : ManagedMixedHandle W) w :
  exists s, record_subscription_url_fetch_rejected status message (h, w) = (s, Ok tt).
Proof.
  unfold record_subscription_url_fetch_rejected, sm_bind at 1. rewrite on_state_eq.
  unfold sm_bind. edestruct note_ok as (h1 & w1 & -> & _). by eexists.
Qed.

(** The clock, a note and the status: the answer shows the outbound of the handle. *)
Lemma noted_answer {A} (note : Z -> HandleM W unit) (answer : ManagedMixedStatusSnapshot -> A) c w c' w' r :
  (forall at_, harmless (note at_)) -> (forall at_ h w1, exists s, note at_ (h, w1) = (s, Ok tt)) ->
  (at_ <-! clock_now; do! if_handle (note at_); status <-! controller_status; sm_ret (answer status)) (c, w) =
    ((c', w'), r) ->
  chosen c' = chosen c /\ exists status, r = Ok (answer status) /\
    (forall h, ctl_handle c = Some h ->
       exists h', ctl_handle c' = Some h' /\ traffic_unchanged h h' /\
         st_selected_outbound status = handle_selected_outbound h' /\ st_subscription status = subscription_status h').
Proof.
  intros Hm Hok. unfold sm_bind at 1, clock_now. cbn [fst snd]. destruct (read_clock w) as [w1 now].
  unfold sm_bind at 1. destruct (if_handle_note (note (now 0%nat)) c w1 (Hm _) (Hok _)) as (c1 & w2 & -> & Hc & Hh).
  unfold sm_bind. destruct (status_shows c1 w2) as (w3 & st & -> & Hsel). intros [= <- _ <-]. split; [done|].
  exists st. split; [done|]. intros h Eh. destruct (Hh h Eh) as (h1 & E1 & Ht). exists h1. destruct (Hsel h1 E1). split_and!; auto.
Qed.

(** The answer about a controller in step that runs shows a subscription. *)
Lemma noted_subscription (c c' : ManagedMixedController W) (status : ManagedMixedStatusSnapshot) :
  controller_ok c -> is_running c = true ->
  (forall h, ctl_handle c = Some h ->
     exists h', ctl_handle c' = Some h' /\ traffic_unchanged h h' /\
       st_selected_outbound status = handle_selected_outbound h' /\ st_subscription status = subscription_status h') ->
  is_Some (st_subscription status).
Proof.
  unfold is_running. intros Hok Hr Hst. destruct (ctl_handle c) as [h|] eqn:Eh; [|done].
  destruct (Hst h eq_refl) as (h' & _ & Ht & _ & ->). eapply handle_shows, traffic_ok; [done|].
  by eapply controller_handle_ok.
Qed.

Lemma chosen_running (c c' : ManagedMixedController W) : chosen c' = chosen c -> is_running c' = is_running c.
Proof. unfold chosen, is_running. by destruct (ctl_handle c), (ctl_handle c'). Qed.

Lemma updated_running text shown (c : ManagedMixedController W) : updated text shown c -> is_running c = true.
Proof. intros (tag & (h & plan & listen & Hh & _) & _). unfold is_running. by rewrite Hh. Qed.

(** A note after an update keeps what the update left. *)
Lemma updated_noted text shown c c' status :
  updated text shown c ->
  (forall h, ctl_handle c = Some h ->
     exists h', ctl_handle c' = Some h' /\ traffic_unchanged h h' /\
       st_selected_outbound status = handle_selected_outbound h' /\ st_subscription status = subscription_status h') ->
  updated text (st_selected_outbound status) c'.
Proof.
  intros (tag & (h & plan & listen & Hh & Hb & Hc) & _) Hst. destruct (Hst h Hh) as (h' & Hh' & Ht & Hsel & _).
  exists tag. split; [exists h', plan, listen; split_and!; [done..|]; by rewrite (traffic_choice h h')|]. by exists h'.
Qed.

Lemma controller_url_choice url timeout max_bytes c w c' w' r :
  controller_ok c -> controller_reload_from_url url timeout max_bytes (c, w) = ((c', w'), r) ->
  match r with
  | Ok outcome =>
      is_Some (st_subscription (outcome_status outcome)) /\
      if outcome_applied outcome then
        exists text, applied_config_text outcome = Some text /\
          updated text (st_selected_outbound (outcome_status outcome)) c'
      else chosen c' = chosen c
  | _ => chosen c' = chosen c
  end.
Proof.
  intros Hok. unfold controller_reload_from_url, sm_bind at 1. pose proof (chosen_panel c w) as Hp.
  destruct (ensure_panel_allows_traffic (c, w)) as [[c1 w1] [[]|error|]] eqn:Ep; [|by intros [= <- _ <-]..].
  apply panel_allows in Ep as [-> ->]. unfold sm_bind at 1, sm_get. cbn [fst snd].
  destruct (is_running c) eqn:Er; cbn [negb fst snd]; [|by intros [= <- _ <-]].
  destruct (fetch_subscription_url_config_text url timeout max_bytes w) as [w1 [fetch [text|]]].
  - pose proof (steady_reload_with_update_plan text c w1 Hok) as Hok1.
    destruct (controller_reload_with_update_plan text (c, w1)) as [[c1 w2] r1] eqn:Eu. cbn in Hok1.
    apply controller_update_choice in Eu; [|done].
    destruct r1 as [[[[report st] applied] error]|error|]; [| |cbn; by intros [= <- _ <-]].
    + intros Hn. apply (noted_answer (fun at_ => record_subscription_url_update_status _)) in Hn as (Hc & status & -> & Hst);
        [|intros; apply harmless_url_status|intros; apply url_status_returns]. cbn. destruct Eu as [_ Eu]. split.
      * eapply noted_subscription; [apply Hok1| |apply Hst].
        destruct applied; [by eapply updated_running|by rewrite (chosen_running _ _ Eu)].
      * destruct applied; [|by rewrite Hc]. exists text. split; [done|]. by eapply updated_noted.
    + intros Hn. apply (noted_answer (fun at_ => record_subscription_url_update_status _)) in Hn as (Hc & status & -> & Hst);
        [|intros; apply harmless_url_status|intros; apply url_status_returns]. cbn.
      split; [|by rewrite Hc]. eapply noted_subscription; [apply Hok1| |apply Hst]. by rewrite (chosen_running _ _ Eu).
  - intros Hn. apply (noted_answer (fun at_ => record_subscription_url_fetch_rejected _ _)) in Hn as (Hc & status & -> & Hst);
      [|intros; apply harmless_url_rejected|intros; apply url_rejected_returns].
    split; [|done]. by eapply noted_subscription.
Qed.

(** ** Starts and stops *)

Lemma started_choice text options (spawn : ManagedMixedSession -> SM W string (ManagedMixedHandle W)) c w c' w' r :
  (forall session w0 w1 h, spawn session w0 = (w1, Ok h) -> exists tun, h = handle_of_session session tun) ->
  (do! ensure_stopped; do! ensure_panel_allows_traffic;
   session <-! on_system (session_start text options);
   handle <-! on_system (spawn session);
   do! install_handle handle;
   controller_status) (c, w) = ((c', w'), r) ->
  match r with Ok _ => runs text (opt_outbound_tag options) c' | _ => chosen c' = chosen c end.
Proof.
  intros Hspawn. unfold sm_bind at 1, ensure_stopped. cbn [fst]. destruct (is_running c); [by intros [= <- _ <-]|].
  unfold sm_bind at 1. pose proof (chosen_panel c w) as Hp.
  destruct (ensure_panel_allows_traffic (c, w)) as [[c1 w1] [[]|error|]] eqn:Ep; [|by intros [= <- _ <-]..].
  apply panel_allows in Ep as [-> ->]. unfold sm_bind at 1. unfold on_system at 1. cbn [fst snd].
  destruct (session_start text options w) as [w1 [session| |]] eqn:Es; [|by intros [= <- _ <-]..].
  unfold sm_bind at 1. unfold on_system. cbn [fst snd].
  destruct (spawn session w1) as [w2 [h| |]] eqn:Eh; [|by intros [= <- _ <-]..].
  apply Hspawn in Eh as (tun & ->). unfold sm_bind, install_handle, sm_modify. cbn [fst snd].
  destruct (session_start_ok _ _ _ _ _ tun Es) as [Hok (listen & Hc)].
  edestruct status_shows as (w3 & st & Hs & _). rewrite Hs. intros [= <- _ <-].
  destruct Hok as (plan & config & g & runtime & _ & _ & Hc' & Hplan & _ & Hsel & _).
  cbn in Hc'. rewrite Hc in Hc'. injection Hc' as <-.
  exists (handle_of_session session tun), plan, listen. split; [done|]. split; [done|].
  unfold choice. cbn [handle_of_session handle_state] in *. rewrite Hc. cbn. by rewrite <- Hsel.
Qed.

Lemma controller_start_choice text options c w c' w' r :
  controller_start text options (c, w) = ((c', w'), r) ->
  match r with Ok _ => runs text (opt_outbound_tag options) c' | _ => chosen c' = chosen c end.
Proof.
  unfold controller_start. case_match; [by intros [= <- _ <-]|]. apply started_choice.
  intros session w0 w1 h [= _ <-]. by exists None.
Qed.

Lemma controller_start_with_tun_choice text options c w c' w' r :
  controller_start_with_tun text options (c, w) = ((c', w'), r) ->
  match r with Ok _ => runs text (opt_outbound_tag options) c' | _ => chosen c' = chosen c end.
Proof.
  apply started_choice. intros session w0 w1 h. unfold spawn_background_with_optional_tun_controller.
  destruct (opt_tun_device options) as [config|]; [|intros [= _ <-]; by exists None].
  destruct (start_managed_tun_background_runtime config w0) as [w2 [tun|error|]]; [|by repeat case_match..].
  intros [= _ <-]. by exists (Some tun).
Qed.

Lemma controller_stop_choice c w : ctl_handle (controller_stop packet_loop (c, w)).1.1 = None.
Proof.
  unfold controller_stop. cbn. destruct (ctl_handle c) as [h|] eqn:E; [|done].
  destruct (status_from_handle h (ctl_panel_state c) w) as [w1 st].
  destruct (handle_stop packet_loop h w1) as [w2 [state|error|]]; [by destruct (read_clock w2)|done..].
Qed.

(** ** The service *)

(** The node is one of the subscription, and none only if it has none. *)
Definition node_ok (text : string) (selected : option string) : Prop :=
  exists report, preflight_subscription_config text = Ok report /\
    match selected with
    | Some tag => has_tag tag (supported_tags report) = true
    | None => supported_tags report = []
    end.

(** What the service remembers is what its core runs. *)
Definition service_ok (s : DesktopRuntimeService W) : Prop :=
  let core := cs_core (svc_core s) in
  controller_ok core /\
  match svc_subscription_config s with
  | None => ctl_handle core = None /\ svc_selected_outbound s = None
  | Some text =>
      node_ok text (svc_selected_outbound s) /\
      forall h, ctl_handle core = Some h -> choice h = (Some text, svc_selected_outbound s)
  end.

Lemma preflight_node text report :
  preflight_subscription_config text = Ok report -> node_ok text (default_outbound report).
Proof.
  intros Hp. exists report. split; [done|]. rewrite (preflight_default _ _ Hp).
  destruct (supported_tags report) as [|tag tags]; cbn; [done|]. by rewrite String.eqb_refl.
Qed.

Lemma plan_node text preferred listen plan :
  build_connection_plan text preferred listen = Ok plan -> node_ok text (Some (selected_outbound plan)).
Proof.
  intros Hb. pose proof (plan_selects_supported _ _ _ _ Hb) as Hin.
  apply build_connection_plan_ok in Hb as (Hp & _ & _). exists (plan_preflight plan). split; [done|].
  by apply has_tag_spec.
Qed.

Lemma plan_preferred text tag listen plan :
  build_connection_plan text (Some tag) listen = Ok plan -> selected_outbound plan = tag.
Proof.
  intros (_ & Hs & _)%build_connection_plan_ok. unfold select_outbound in Hs.
  destruct (has_tag _ _); [|done]. by injection Hs.
Qed.

Lemma planned_node current text selected report :
  plan_subscription_update current text selected = Ok report -> node_ok text (planned_selected_outbound report).
Proof.
  unfold plan_subscription_update. intros (old & _ & Hu)%result_bind_ok. apply result_bind_ok in Hu as (new & Hnew & [= <-]).
  exists new. split; [done|]. pose proof (preflight_default _ _ Hnew) as Hd.
  unfold subscription_update_report_from_preflights.
  destruct (plan_selection new _) as [[planned preserved] reason] eqn:Hsel. cbn. revert Hsel.
  set (effective := or_else _ _). unfold plan_selection, is_usable. rewrite Hd.
  destruct (supported_tags new) as [|first tags]; cbn [is_empty negb head]; [by intros [= <- _ _]|].
  destruct effective as [old_tag|]; [|intros [= <- _ _]; cbn; by rewrite String.eqb_refl].
  destruct (has_tag old_tag (first :: tags)) eqn:Hold; intros [= <- _ _]; [done|]. cbn. by rewrite String.eqb_refl.
Qed.

(** A plan with the node that is remembered is a plan with no other. *)
Lemma plan_remembered text selected listen plan :
  node_ok text selected -> build_connection_plan text selected listen = Ok plan ->
  selected = Some (selected_outbound plan).
Proof.
  intros (report & Hp & Hn) Hb. destruct selected as [tag|]; [by rewrite (plan_preferred _ _ _ _ Hb)|].
  pose proof (plan_selects_supported _ _ _ _ Hb) as Hin. apply build_connection_plan_ok in Hb as (Hp' & _ & _).
  rewrite Hp in Hp'. injection Hp' as ->. rewrite Hn in Hin. by apply elem_of_nil in Hin.
Qed.

Definition core_of (s : DesktopRuntimeService W) : ManagedMixedController W := cs_core (svc_core s).

(** The service after its core has moved. *)
Lemma same_choice_ok s core mode :
  service_ok s -> controller_ok core -> chosen core = chosen (core_of s) ->
  service_ok (s <| svc_core := mkCoreService core mode |>).
Proof.
  intros [_ Hs] Hok Hc. split; [done|]. cbn. unfold chosen, core_of in Hc.
  destruct (svc_subscription_config s) as [text|].
  - destruct Hs as [Hn Hh]. split; [done|]. intros h Eh. rewrite Eh in Hc.
    destruct (ctl_handle (cs_core (svc_core s))) as [h0|]; [|done].
    rewrite <- (Hh h0 eq_refl). by apply (inj Some).
  - destruct Hs as [Hn Hsel]. split; [|done]. rewrite Hn in Hc. by destruct (ctl_handle core).
Qed.

(** The service after its core has come to run a node of a text that is remembered with it. *)
Lemma running_ok s text preferred selected :
  controller_ok (core_of s) -> runs text preferred (core_of s) ->
  svc_subscription_config s = Some text -> svc_selected_outbound s = selected ->
  (forall plan listen, build_connection_plan text preferred listen = Ok plan -> choice <$> ctl_handle (core_of s) =
     Some (Some text, Some (selected_outbound plan)) -> selected = Some (selected_outbound plan)) ->
  service_ok s.
Proof.
  intros Hok (h & plan & listen & Hh & Hb & Hc) Ht Hs Hsel. unfold core_of in *. split; [done|]. rewrite Ht, Hs.
  rewrite Hh in Hsel. cbn in Hsel. rewrite Hc in Hsel. specialize (Hsel plan listen Hb eq_refl). rewrite Hsel.
  split; [by eapply plan_node|]. intros h0 Eh0. rewrite Hh in Eh0. by injection Eh0 as <-.
Qed.

(** ** What keeps the service in step *)

Definition in_step {A} (m : ServiceM W A) : Prop := forall s w, service_ok s -> service_ok (m (s, w)).1.1.

Lemma in_step_bind {A B} (m : ServiceM W A) (k : A -> ServiceM W B) :
  in_step m -> (forall a, in_step (k a)) -> in_step (sm_bind m k).
Proof.
  intros Hm Hk s w Hs. specialize (Hm s w Hs). unfold sm_bind.
  destruct (m (s, w)) as [[s1 w1] [a| |]]; [by apply Hk|done..].
Qed.

Lemma in_step_lift {A} (r : result DesktopRuntimeError A) : in_step (sm_lift r).
Proof. by intros s w Hs. Qed.
Lemma in_step_client {A} (r : result ClientErrorKind A) : in_step (client_result r).
Proof. by intros s w Hs. Qed.
Lemma in_step_ret {A} (a : A) : in_step (sm_ret a).
Proof. by intros s w Hs. Qed.
Lemma in_step_get : in_step sm_get.
Proof. by intros s w Hs. Qed.

Hint Resolve in_step_lift in_step_client in_step_ret in_step_get : desktop.

(** A method of the core that leaves its choice alone. *)
Lemma in_step_core {A} (m : CoreM A) :
  (forall core w, controller_ok (cs_core core) ->
     controller_ok (cs_core (m (core, w)).1.1) /\ chosen (cs_core (m (core, w)).1.1) = chosen (cs_core core)) ->
  in_step (on_service_core m).
Proof.
  intros Hm s w Hs. unfold on_service_core. cbn. destruct (Hm (svc_core s) w (proj1 Hs)) as [Hok Hc].
  destruct (m (svc_core s, w)) as [[[core mode] w1] r]. cbn in *. by apply same_choice_ok.
Qed.

Lemma in_step_core_status : in_step (on_service_core core_status).
Proof.
  apply in_step_core. intros core w Hok. unfold core_status, on_core, sm_bind. cbn.
  pose proof (chosen_status (cs_core core) w) as E.
  destruct (controller_status (cs_core core, w)) as [[c1 w1] r]. cbn in E. subst c1. by destruct r.
Qed.

Lemma in_step_status : in_step service_status.
Proof. repeat (apply in_step_bind; [auto using in_step_core_status with desktop|intros ?]). auto with desktop. Qed.

Lemma in_step_stop : in_step (service_stop packet_loop).
Proof.
  apply in_step_bind; [auto with desktop|]. intros s0. apply in_step_bind; [|intros _; apply in_step_status].
  case_match; [|auto with desktop]. apply in_step_bind; [|auto with desktop]. clear. intros s w [Hok Hs].
  unfold on_service_core, core_stop, core_status, on_core, sm_bind. cbn.
  pose proof (controller_stop_choice (cs_core (svc_core s)) w) as Hn.
  destruct (controller_stop packet_loop (cs_core (svc_core s), w)) as [[c1 w1] r]. cbn in Hn.
  assert (Hdown : service_ok (s <| svc_core := mkCoreService c1 (cs_traffic_mode (svc_core s)) |>)).
  { split; [unfold controller_ok; cbn; by rewrite Hn|]. cbn. destruct (svc_subscription_config s); [|by split; [|apply Hs]].
    split; [apply Hs|]. intros h Eh. congruence. }
  destruct r; [|done..]. cbn.
  pose proof (chosen_status c1 w1) as E. destruct (controller_status (c1, w1)) as [[c2 w2] r2]. cbn in E. subst c2.
  by destruct r2.
Qed.

(** ** The operations that choose *)

Lemma stored_config_ok s w s' w' text :
  stored_config (s, w) = ((s', w'), Ok text) -> s' = s /\ w' = w /\ svc_subscription_config s = Some text.
Proof.
  unfold stored_config, client_result, sm_bind. cbn. destruct (svc_subscription_config s); [|done].
  by intros [= <- <- <-].
Qed.

Lemma stored_config_state s w : (stored_config (s, w)).1 = (s, w).
Proof. by unfold stored_config, client_result, sm_bind; cbn; destruct (svc_subscription_config s). Qed.

(** Start: the core comes to run what is remembered, or runs what it ran. *)
Lemma in_step_started options start s w text :
  (forall c w1 c' w' r, start (c, w1) = ((c', w'), r) ->
     match r with Ok _ => runs text (svc_selected_outbound s) c' | _ => chosen c' = chosen c end) ->
  steady start -> svc_subscription_config s = Some text -> service_ok s ->
  service_ok (on_service_core (core_started options start) (s, w)).1.1.
Proof.
  intros Hstart Hsteady Ht Hs. unfold on_service_core, core_started, on_core, sm_bind. cbn.
  pose proof (Hsteady (cs_core (svc_core s)) w (proj1 Hs)) as Hok.
  destruct (start (cs_core (svc_core s), w)) as [[c1 w1] r] eqn:Er. apply Hstart in Er. cbn in Hok.
  destruct r as [status|error|]; [|by apply same_choice_ok..]. cbn.
  eapply running_ok; [done|exact Er|done|done|]. intros plan listen Hb _. eapply plan_remembered; [|done].
  destruct Hs as [_ Hs]. rewrite Ht in Hs. apply Hs.
Qed.

Lemma in_step_start : in_step service_start.
Proof.
  intros s w Hs. unfold service_start, sm_bind at 1. pose proof (stored_config_state s w) as Es.
  destruct (stored_config (s, w)) as [[s1 w1] [text| |]] eqn:Et; cbn in Es; injection Es as -> ->; [|done..].
  apply stored_config_ok in Et as (_ & _ & Ht). unfold sm_bind at 1, sm_get. cbn [fst snd].
  destruct (svc_traffic_mode s).
  2: { destruct (svc_tun_controller s); cbn [negb]; [|done].
       unfold sm_bind, sm_lift. destruct default_desktop_tun_device_config as [config|error|]; [|done..].
       apply in_step_started with text; [|apply steady_start_with_tun|done|done].
       intros ?????. apply controller_start_with_tun_choice. }
  all: apply in_step_started with text; [|apply steady_start|done|done]; intros ?????; apply controller_start_choice.
Qed.

(** A preflight that succeeds, then what is remembered of it. *)
Lemma remembered_ok s w text selected :
  controller_ok (core_of s) -> is_running (core_of s) = false -> node_ok text selected ->
  service_ok (remember text selected (s, w)).1.1.
Proof.
  intros Hok Hr Hn. split; [done|]. cbn. split; [done|]. intros h Eh. unfold is_running, core_of in Hr.
  by rewrite Eh in Hr.
Qed.

Lemma import_in_step text s w :
  service_ok s -> service_is_running s = false -> service_ok (service_import text (s, w)).1.1.
Proof.
  intros Hs Hr. unfold service_import, sm_bind at 1, client_result, sm_lift.
  destruct (preflight_subscription_config text) as [report|error|] eqn:Ep; [|done..]. cbn [map_err].
  unfold sm_bind. cbn [remember modify_service sm_modify fst snd].
  apply (remembered_ok s w text (default_outbound report) (proj1 Hs) Hr). by apply preflight_node.
Qed.

Lemma in_step_select_node tag : in_step (service_select_node tag).
Proof.
  intros s w Hs. unfold service_select_node, sm_bind at 1. pose proof (stored_config_state s w) as Es.
  destruct (stored_config (s, w)) as [[s1 w1] [text| |]] eqn:Et; cbn in Es; injection Es as -> ->; [|done..].
  apply stored_config_ok in Et as (_ & _ & Ht). unfold sm_bind at 1, client_result, sm_lift at 1.
  destruct (preflight_subscription_config text) as [report|error|] eqn:Ep; [|done..]. cbn [map_err].
  unfold sm_bind at 1, sm_lift. destruct (select_outbound (Some tag) report) as [t|error|] eqn:Esel; [|done..].
  cbn [map_err]. unfold select_outbound in Esel. destruct (has_tag tag (supported_tags report)) eqn:Htag; [|done].
  unfold sm_bind at 1, sm_get. cbn [fst snd]. destruct (service_is_running s) eqn:Er.
  - unfold sm_bind at 2, on_service_core, core_reload, on_core, sm_bind. cbn.
    pose proof (steady_allowed _ (keeps_reload text (Some tag)) (cs_core (svc_core s)) w (proj1 Hs)) as Hok.
    change (allowed (handle_reload text (Some tag))) with (controller_reload text (Some tag)) in Hok.
    destruct (controller_reload text (Some tag) (cs_core (svc_core s), w)) as [[c1 w1] r] eqn:Ec. cbn in Hok.
    apply controller_reload_choice in Ec; [|apply Hs]. destruct r as [status|error|]; cbn; [|by apply same_choice_ok..].
    eapply running_ok; [done|exact Ec|done|done|]. intros plan listen Hb _. by rewrite (plan_preferred _ _ _ _ Hb).
  - unfold sm_bind. cbn. destruct Hs as [Hok Hs]. split; [done|]. cbn. rewrite Ht in *. split; [by exists report|].
    intros h Eh. unfold service_is_running, is_running in Er. by rewrite Eh in Er.
Qed.

Lemma in_step_refresh : in_step service_refresh_node_health.
Proof.
  intros s w Hs. unfold service_refresh_node_health, sm_bind at 1, on_service_core, core_refresh_node_health, on_core. cbn.
  pose proof (steady_allowed _ (keeps_probe_all default_desktop_node_probe_sweep_options) (cs_core (svc_core s)) w (proj1 Hs)) as Hok.
  destruct (controller_probe_all_node_health default_desktop_node_probe_sweep_options (cs_core (svc_core s), w))
    as [[c1 w1] r] eqn:Ec. unfold controller_probe_all_node_health in Ec. rewrite Ec in Hok. cbn in Hok.
  apply (allowed_choice _ (fun h' => Some (choice h') = chosen (cs_core (svc_core s)))) in Ec.
  2: { intros h w0 Eh. pose proof (keeps_choice_probe_all default_desktop_node_probe_sweep_options h w0) as Hc.
       destruct (handle_probe_all_node_health _ (h, w0)) as [[h' w2] r0]. cbn in Hc. unfold chosen. rewrite Eh. cbn.
       rewrite Hc. by destruct r0. }
  destruct r as [status|error|]; cbn; [|by apply same_choice_ok..].
  destruct Ec as (h' & Hh' & Hc & Hsel & _). destruct Hs as [Hok0 Hs]. split; [done|]. cbn.
  unfold chosen in Hc. destruct (ctl_handle (cs_core (svc_core s))) as [h0|] eqn:E0; [|done]. cbn in Hc.
  apply (inj Some) in Hc. destruct (svc_subscription_config s) as [text|]; [|by destruct Hs]. destruct Hs as [Hn Hh].
  specialize (Hh h0 eq_refl). rewrite <- Hc in Hh. pose proof Hh as Hh2. unfold choice in Hh2. injection Hh2 as _ Hh2.
  rewrite Hsel, Hh2. split; [done|]. intros h Eh. rewrite Hh' in Eh. by injection Eh as <-.
Qed.

(** ** Updates *)

Lemma shown_subscription_ok status text planned s w :
  is_Some (st_subscription status) ->
  exists summary, shown_subscription (W := W) status text planned (s, w) = ((s, w), Ok summary).
Proof. intros [subscription Hs]. unfold shown_subscription. rewrite Hs. by eexists. Qed.

Lemma url_update_shown outcome s w :
  is_Some (st_subscription (outcome_status outcome)) ->
  exists update, url_update_of (W := W) outcome (s, w) = ((s, w), Ok update).
Proof.
  intros Hsub. unfold url_update_of. repeat case_match; [|by eexists..]. unfold sm_bind.
  edestruct shown_subscription_ok as [summary ->]; [exact Hsub|]. by eexists.
Qed.

(** The service once an applied update is remembered. *)
Lemma updated_ok s text shown :
  controller_ok (core_of s) -> updated text shown (core_of s) ->
  service_ok (s <| svc_subscription_config := Some text |> <| svc_selected_outbound := shown |>).
Proof.
  intros Hok (tag & Hr & h & Hh & ->). eapply running_ok; [done|exact Hr|done|done|]. cbn.
  intros plan listen _ Hc. unfold core_of in *. cbn in Hc. rewrite Hh in Hc. unfold choice in Hc. by injection Hc.
Qed.

Lemma in_step_update text : in_step (service_update text).
Proof.
  intros s w Hs. unfold service_update, sm_bind at 1, sm_get. cbn [fst snd].
  destruct (service_is_running s) eqn:Er.
  - unfold sm_bind at 1. unfold on_service_core, on_core. cbn.
    pose proof (steady_reload_with_update_plan text (cs_core (svc_core s)) w (proj1 Hs)) as Hok.
    destruct (controller_reload_with_update_plan text (cs_core (svc_core s), w)) as [[c1 w1] r] eqn:Ec. cbn in Hok.
    apply controller_update_choice in Ec; [|apply Hs].
    destruct r as [[[[report status] applied] error]|error|]; cbn; [|by apply same_choice_ok..].
    destruct Ec as [Hsub Ec]. unfold sm_bind at 1.
    edestruct shown_subscription_ok as [summary E]; [exact Hsub|]. rewrite E. clear E. unfold sm_bind.
    destruct applied; cbn; [|by apply same_choice_ok]. by apply updated_ok.
  - unfold sm_bind at 1, client_result, sm_lift.
    destruct (preflight_subscription_config text) as [preflight|error|]; [|done..]. cbn [map_err].
    unfold sm_bind at 1. destruct (plan_subscription_update _ _ _) as [report|error|] eqn:Ep; [|done..]. cbn [map_err].
    apply (remembered_ok s w text (planned_selected_outbound report) (proj1 Hs) Er). by eapply planned_node.
Qed.

Lemma in_step_update_url url timeout max_bytes : in_step (service_update_url url timeout max_bytes).
Proof.
  intros s w Hs. unfold service_update_url, sm_bind at 1, sm_get at 1. cbn [fst snd].
  destruct (service_is_running s) eqn:Er; cbn [negb]; [|done].
  unfold sm_bind at 1. unfold on_service_core, on_core. cbn.
  pose proof (steady_reload_from_url url timeout max_bytes (cs_core (svc_core s)) w (proj1 Hs)) as Hok.
  destruct (controller_reload_from_url url timeout max_bytes (cs_core (svc_core s), w)) as [[c1 w1] r] eqn:Ec. cbn in Hok.
  apply controller_url_choice in Ec; [|apply Hs].
  destruct r as [outcome|error|]; cbn; [|by apply same_choice_ok..]. destruct Ec as [Hsub Ec].
  unfold sm_bind at 1. set (s1 := s <| svc_core := _ |>).
  destruct (url_update_shown outcome s1 w1 Hsub) as [update ->].
  destruct (outcome_applied outcome); cbn; [|by apply same_choice_ok].
  destruct Ec as (text & Ht & Hu). unfold sm_bind. rewrite Ht. cbn. by apply (updated_ok s1).
Qed.

Lemma in_step_import_panel server_id server_name text : in_step (service_import_panel_config server_id server_name text).
Proof.
  intros s w Hs. unfold service_import_panel_config, sm_bind at 1, sm_get. cbn [fst snd]. revert s w Hs.
  assert (Hrest : forall subscription, in_step
    (subscription <-!
       (if existsb (fun node => String.eqb (dn_tag node) server_name) (dsub_nodes subscription)
           && negb (bool_decide (dsub_selected_outbound subscription = Some server_name))
        then service_select_node server_name else sm_ret subscription);
     sm_ret (panel_import_from_subscription server_id server_name subscription))).
  { intros subscription. apply in_step_bind; [|auto with desktop].
    case_match; [apply in_step_select_node|auto with desktop]. }
  intros s w Hs. destruct (service_is_running s) eqn:Er.
  - revert s w Hs Er. cut (in_step (subscription <-! (summary <-! service_update text; sm_ret (du_subscription summary));
      subscription <-!
       (if existsb (fun node => String.eqb (dn_tag node) server_name) (dsub_nodes subscription)
           && negb (bool_decide (dsub_selected_outbound subscription = Some server_name))
        then service_select_node server_name else sm_ret subscription);
      sm_ret (panel_import_from_subscription server_id server_name subscription))); [by intros Hi s w Hs _; apply Hi|].
    apply in_step_bind; [|done]. apply in_step_bind; [apply in_step_update|auto with desktop].
  - unfold sm_bind at 1. pose proof (import_in_step text s w Hs Er) as Hi.
    destruct (service_import text (s, w)) as [[s1 w1] [subscription| |]]; [|done..]. by apply Hrest.
Qed.

Lemma in_step_import_url url timeout max_bytes : in_step (service_import_url url timeout max_bytes).
Proof.
  intros s w Hs. unfold service_import_url, sm_bind at 1, sm_get. cbn [fst snd].
  destruct (service_is_running s) eqn:Er; [done|]. cbn.
  destruct (fetch_subscription_url_config_text url timeout max_bytes w) as [w1 [fetch [text|]]]; [|done].
  unfold sm_bind. pose proof (import_in_step text s w1 Hs Er) as Hi.
  by destruct (service_import text (s, w1)) as [[s1 w2] [subscription| |]].
Qed.

(** ** The service over time *)

Inductive service_op : Type :=
| Svc_import (text : string)
| Svc_select_node (tag : string)
| Svc_update (text : string)
| Svc_import_panel_config (server_id : Z) (server_name text : string)
| Svc_import_url (url : string) (timeout max_bytes : Z)
| Svc_update_url (url : string) (timeout max_bytes : Z)
| Svc_refresh_node_health
| Svc_set_traffic_mode (mode : DesktopTrafficMode)
| Svc_set_listen (listen : string)
| Svc_start
| Svc_status
| Svc_stop.

Definition unit_of {A} (m : ServiceM W A) : ServiceM W unit := sm_bind m (fun _ => sm_ret tt).

Definition run_service (op : service_op) : ServiceM W unit :=
  match op with
  | Svc_import text => unit_of (service_import text)
  | Svc_select_node tag => unit_of (service_select_node tag)
  | Svc_update text => unit_of (service_update text)
  | Svc_import_panel_config server_id server_name text =>
      unit_of (service_import_panel_config server_id server_name text)
  | Svc_import_url url timeout max_bytes => unit_of (service_import_url url timeout max_bytes)
  | Svc_update_url url timeout max_bytes => unit_of (service_update_url url timeout max_bytes)
  | Svc_refresh_node_health => unit_of service_refresh_node_health
  | Svc_set_traffic_mode mode => service_set_traffic_mode mode
  | Svc_set_listen listen => service_set_listen listen
  | Svc_start => unit_of service_start
  | Svc_status => unit_of service_status
  | Svc_stop => unit_of (service_stop packet_loop)
  end.

(** A subscription is imported as a text while the core is stopped only. *)
Definition op_allowed (op : service_op) (s : DesktopRuntimeService W) : bool :=
  match op with Svc_import _ => negb (service_is_running s) | _ => true end.

Inductive service_reachable (has_tun : bool) : DesktopRuntimeService W -> Prop :=
| svc_new : service_reachable has_tun (service_new has_tun)
| svc_step s op w :
    service_reachable has_tun s -> op_allowed op s = true -> service_reachable has_tun (run_service op (s, w)).1.1.

Lemma in_step_unit {A} (m : ServiceM W A) : in_step m -> in_step (unit_of m).
Proof. intros Hm. apply in_step_bind; [done|auto with desktop]. Qed.

Lemma run_service_in_step op s w : op_allowed op s = true -> service_ok s -> service_ok (run_service op (s, w)).1.1.
Proof.
  destruct op as [text| | | | | | |mode|listen| | |]; cbn [op_allowed run_service]; intros Ha.
  - intros Hs. apply negb_true_iff in Ha. pose proof (import_in_step text s w Hs Ha) as Hi.
    unfold unit_of, sm_bind. by destruct (service_import text (s, w)) as [[s1 w1] [a| |]].
  - by apply in_step_unit, in_step_select_node.
  - by apply in_step_unit, in_step_update.
  - by apply in_step_unit, in_step_import_panel.
  - by apply in_step_unit, in_step_import_url.
  - by apply in_step_unit, in_step_update_url.
  - by apply in_step_unit, in_step_refresh.
  - done.
  - done.
  - by apply in_step_unit, in_step_start.
  - by apply in_step_unit, in_step_status.
  - by apply in_step_unit, in_step_stop.
Qed.

Lemma service_reachable_ok has_tun s : service_reachable has_tun s -> service_ok s.
Proof. induction 1 as [|s op w _ IH Ha]; [done|]. by apply run_service_in_step. Qed.

(** C27: The service and its core agree: from a new service, whatever the operations, what
    they answer and what the world does between them, the subscription and the node that
    the service remembers (and saves) are the ones its core runs, and the node is one that
    the subscription has; the core is itself in step, and without a subscription nothing
    runs. The one condition is that a text is imported into a stopped core. *)
Theorem service_runs_what_it_remembers (has_tun : bool) (s : DesktopRuntimeService W) :
  service_reachable has_tun s -> service_ok s.
Proof. apply service_reachable_ok. Qed.

End Service.

(** ** What is saved is restored *)

Section Restored.
Context {W : Type} {System : ManagedSystem W} {Proxy : SystemProxyController W}
  `{Packets : TunPacketIoController W} {L : ShareLibrary} {Lib : PanelLibrary} {Transport : PanelApiTransport W}.
Context (packet_loop : PacketIo -> TunDeviceConfig -> SM W string TunPacketLoopSummary).
Context (detect_native : W -> W * DesktopDependencyReport).
Context {Disk : SubscriptionDisk (NativeHost W)}.

#[local] Existing Instance native_host.

(** What the host keeps of a subscription. *)
Definition kept (h : NativeHost W) : option DesktopPersistedSubscription := persisted_subscription (commands_service h.1).

(** A service that has not been used but for its status. *)
Lemma new_status w : native_status (W := W) (commands_new, w) = ((commands_new, w), (native_status (W := W) (commands_new, w)).2).
Proof. done. Qed.

(** The status keeps what is remembered. *)
Lemma status_kept (h : NativeHost W) : kept (native_status h).1 = kept h.
Proof.
  unfold kept, native_status, command. cbn.
  assert (Hs : forall s w, persisted_subscription (service_status (W := W) (s, w)).1.1 = persisted_subscription s).
  { intros s w. unfold service_status, sm_bind, on_service_core. cbn.
    by destruct (core_status (svc_core s, w)) as [[core w1] [status| |]]. }
  specialize (Hs (commands_service h.1) h.2).
  by destruct (service_status (commands_service h.1, h.2)) as [[s w] [status| |]].
Qed.

(** A subscription that the service had is imported again. *)
Lemma import_again text selected w :
  node_ok text selected -> exists s summary,
    command_import_subscription text (commands_new, w) = ((mkCommands s None, w), Ok summary) /\
    service_is_running s = false /\ svc_subscription_config s = Some text /\
    (selected = None -> svc_selected_outbound s = None /\ dsub_selected_outbound summary = None).
Proof.
  intros (report & Hp & Hn). unfold command_import_subscription, command, service_import, client_result, sm_bind, sm_lift.
  cbn. rewrite Hp. cbn. do 2 eexists. split; [done|]. split; [done|]. split; [done|]. intros ->. cbn.
  by rewrite (preflight_default _ _ Hp), Hn.
Qed.

(** Its node is selected again. *)
Lemma select_again text tag s w :
  node_ok text (Some tag) -> service_is_running s = false -> svc_subscription_config s = Some text ->
  exists s' summary,
    command_select_node (W := W) tag (mkCommands s None, w) = ((mkCommands s' None, w), Ok summary) /\
    svc_subscription_config s' = Some text /\ svc_selected_outbound s' = Some tag /\
    dsub_selected_outbound summary = Some tag.
Proof.
  intros (report & Hp & Hn) Hr Ht.
  unfold command_select_node, command, service_select_node, stored_config, client_result, sm_bind, sm_lift. cbn.
  rewrite Ht. cbn. rewrite Hp. cbn. rewrite Hn. cbn. rewrite Hr. cbn. do 2 eexists. by split_and!.
Qed.

(** The controller after a restoration that found a subscription. *)
Definition restored (p : DesktopPersistedSubscription) (c : DesktopShellController (NativeHost W)) : Prop :=
  kept (app_host c) = Some p /\
  exists summary, shell_subscription (app_shell c) = Some summary /\
    dsub_selected_outbound summary = persisted_selected_outbound p.

Lemma shown_restored p c :
  restored p c -> restored p (show_status (Host := native_host packet_loop detect_native) c).1.
Proof.
  intros [Hk Hs]. unfold show_status. cbn. pose proof (status_kept (app_host c)) as E.
  destruct (native_status (app_host c)) as [h status]. cbn in E. split; [cbn; by rewrite E|done].
Qed.

Lemma restore_loaded path p (h0 : NativeHost W) w shell :
  h0 = (commands_new, w) -> node_ok (persisted_config_text p) (persisted_selected_outbound p) ->
  store_load path h0 = (h0, Ok (Some p)) ->
  exists c, restore_persisted_subscription (Host := native_host packet_loop detect_native)
              (mkShellController h0 shell (Some path)) = (c, Ok tt) /\ restored p c.
Proof.
  intros Eh Hn Hl. unfold restore_persisted_subscription. cbn [app_store app_host app_shell]. rewrite Hl, Eh.
  destruct (import_again _ _ w Hn) as (s & summary & Hi & Hr & Ht & Hnone).
  unfold on_host_quietly at 1, on_host. cbn [app_host host_import_subscription native_host]. rewrite Hi.
  set (c1 := mkShellController _ _ _).
  assert (Hrest : exists c2, (do! show_subscription summary;
     match persisted_selected_outbound p with
     | Some selected =>
         on_host_quietly (host_select_node (DesktopShellCommandHost := native_host packet_loop detect_native) selected)
           show_subscription (sm_ret tt)
     | None => sm_ret tt
     end) c1 = (c2, Ok tt) /\ restored p c2).
  { unfold sm_bind. cbn [show_subscription modify_shell sm_modify]. destruct p as [text [tag|]]; cbn in *.
    - destruct (select_again text tag s w Hn Hr Ht) as (s' & summary' & Hsel & Ht' & Hsel' & Hsum).
      unfold on_host_quietly, on_host. cbn. rewrite Hsel. eexists. split; [done|].
      split; [|by eexists]. unfold kept, persisted_subscription. cbn. by rewrite Ht', Hsel'.
    - destruct (Hnone eq_refl) as [Hs0 Hd]. eexists. split; [done|].
      split; [|by eexists]. unfold kept, persisted_subscription. cbn. by rewrite Ht, Hs0. }
  destruct Hrest as (c2 & H2 & Hres). revert H2. unfold sm_bind.
  cbn [show_subscription modify_shell sm_modify]. intros H2. rewrite H2.
  pose proof (shown_restored p c2 Hres) as Hshown. unfold show_status in *.
  destruct (host_status _) as [host status]. by eexists.
Qed.

(** C29: Round trip over a restart: what the subscription store saved of a service that was
    reached from a new one is what the next process restores. The new controller remembers the
    same text and the same node, its shell shows that node, and the restoration does not fail.
    The operations that led to the service imported no text while its core was running (the
    other operations are free); the disk is a map of files, the file is not touched between, and
    the JSON of the record reads back as the record. *)
Theorem saved_subscription_is_restored (file : W -> string -> option string) (has_tun : bool)
  (path : string) (h h' : NativeHost W) (p : DesktopPersistedSubscription) (w1 : W) :
  (exists json, persisted_to_json p = Ok json /\ persisted_from_json json = Ok p) ->
  (forall path (h : NativeHost W), disk_read path h = (h, Ok (file h.2 path))) ->
  (forall path json (h h' : NativeHost W), disk_write path json h = (h', Ok tt) -> file h'.2 path = Some json) ->
  (forall w, file (detect_native w).1 path = file w path) ->
  service_reachable packet_loop has_tun (commands_service h.1) -> kept h = Some p ->
  store_save path p h = (h', Ok tt) -> file w1 path = file h'.2 path ->
  exists c, app_new_native packet_loop detect_native path w1 = (c, Ok tt) /\ restored p c.
Proof.
  intros Hjson Hread Hwrite Hdetect Hs Hk Hsave Hfile. apply service_reachable_ok in Hs as [_ Hs].
  unfold kept, persisted_subscription in Hk. destruct (svc_subscription_config _) as [text|]; [|done].
  injection Hk as Hp. destruct Hs as [Hn _]. rewrite <- Hp in Hsave, Hjson |- *. clear Hp p.
  set (p := mkPersisted text _) in *. destruct Hjson as (json & Hto & Hfrom).
  unfold store_save in Hsave. apply sm_bind_Ok in Hsave as (h1 & [] & _ & Hsave).
  unfold sm_bind, sm_lift in Hsave. rewrite Hto in Hsave. apply Hwrite in Hsave.
  unfold app_new_native, app_from_parts. cbn [host_status native_host]. rewrite new_status.
  generalize (native_status (W := W) (commands_new, w1)).2. intros status.
  cbn [host_dependency_report native_host fst snd]. specialize (Hdetect w1).
  destruct (detect_native w1) as [w2 dependencies]. generalize (shell_new status dependencies). intros shell.
  assert (Hl : store_load (H := NativeHost W) path (commands_new, w2) = ((commands_new, w2), Ok (Some p))).
  { unfold store_load, sm_bind, sm_lift. rewrite Hread. cbn [fst snd] in *. rewrite Hdetect, Hfile, Hsave.
    cbv beta iota. by rewrite Hfrom. }
  exact (restore_loaded path p (commands_new, w2) w2 shell eq_refl Hn Hl).
Qed.

End Restored.

(** ** A desk with a disk *)

Module Office.

Import Desk.

Record Office : Type := mkOffice { office_desk : Desk; office_file : option string }.

Definition at_desk {E A} (m : SM Desk E A) : SM Office E A :=
  fun o => let '(d, r) := m (office_desk o) in (mkOffice d (office_file o), r).

Definition beside {A} (m : Desk -> Desk * A) (o : Office) : Office * A :=
  let '(d, a) := m (office_desk o) in (mkOffice d (office_file o), a).

#[export] Instance office_device : TunDeviceController Office := {
  tun_snapshot := at_desk tun_snapshot;
  tun_start := fun config => at_desk (tun_start config);
  tun_stop := at_desk tun_stop
}.

#[export] Instance office_packets : TunPacketIoController Office := {
  PacketIo := unit;
  open_io := fun config => at_desk (open_io config)
}.

#[export] Instance office_proxy : SystemProxyController Office := {
  controller_snapshot := at_desk controller_snapshot;
  controller_apply := fun config => at_desk (controller_apply config);
  controller_restore := fun snapshot => at_desk (controller_restore snapshot)
}.

#[export] Instance office_system : ManagedSystem Office := {
  read_clock := beside read_clock;
  bind_listener := fun listen => beside (bind_listener listen);
  serve_listener := fun flag runtime => at_desk (serve_listener flag runtime);
  join_listener := at_desk join_listener;
  smoke_connect := fun text tag options => at_desk (smoke_connect text tag options);
  probe_udp := fun text tag options timeout => beside (probe_udp text tag options timeout);
  fetch_subscription_url_config_text := fun url timeout max_bytes =>
    beside (fetch_subscription_url_config_text url timeout max_bytes);
  shared_gauges := fun o => shared_gauges (office_desk o);
  profile_error_text := profile_error_text (W := Desk);
  str_debug := str_debug (W := Desk)
}.

#[export] Instance office_transport : PanelApiTransport (Lib := sample_panel) Office := {
  send := fun _ => sm_lift (Err (mkPanelApiError "transport" "offline"))
}.

#[export] Instance office_library : ShareLibrary := Sample.library.

Definition office_loop : PacketIo -> TunDeviceConfig -> SM Office string TunPacketLoopSummary :=
  fun _ _ o => (o, Ok TunPacketLoopSummary_default).

Definition newline : Ascii.ascii := Ascii.Ascii false true false true false false false false.

(** One file, the node on its first line and the subscription on the rest. *)
#[export] Instance office_disk : SubscriptionDisk (NativeHost Office) := {
  disk_read := fun _ h => (h, Ok (office_file h.2));
  disk_make_parent := fun _ => sm_ret tt;
  disk_write := fun _ contents h => ((h.1, mkOffice (office_desk h.2) (Some contents)), Ok tt);
  persisted_to_json := fun p =>
    Ok (default "" (persisted_selected_outbound p) +:+ String newline (persisted_config_text p));
  persisted_from_json := fun contents =>
    match split_once newline contents with
    | Some (tag, text) => Ok (mkPersisted text (if String.eqb tag "" then None else Some tag))
    | None => Err "expected a line"
    end
}.

Definition quiet_office : Office := mkOffice idle_desk None.

Definition office_dependencies : DesktopDependencyReport :=
  dependencies_from_platform (capabilities_detect Windows) (mkSystemProxyStatus true (Some false) None None)
    (mkTunBackendStatus Windows "wintun" true true true true false false None None true [] None).

Definition detect_office (o : Office) : Office * DesktopDependencyReport := (o, office_dependencies).

(** Two nodes are imported, the core is started, and the other node is selected. *)
Definition office_ops : list service_op :=
  [Svc_import two_nodes; Svc_start; Svc_select_node "vless-two"].

Definition office_service (ops : list service_op) : DesktopRuntimeService Office :=
  foldl (fun s op => (run_service office_loop op (s, quiet_office)).1.1) (service_new true) ops.

End Office.

Import Desk Office.

Lemma office_service_reachable : service_reachable office_loop true (office_service office_ops).
Proof.
  apply (svc_step office_loop true _ (Svc_select_node "vless-two") quiet_office); [|reflexivity].
  apply (svc_step office_loop true _ Svc_start quiet_office); [|reflexivity].
  apply (svc_step office_loop true _ (Svc_import two_nodes) quiet_office); [|reflexivity].
  apply svc_new.
Defined.

(** The other node is remembered and runs. *)
Lemma service_runs_what_it_remembers_witness :
  svc_selected_outbound (office_service office_ops) = Some "vless-two" /\
  is_running (cs_core (svc_core (office_service office_ops))) = true /\
  service_ok (office_service office_ops).
Proof.
  split_and!; [vm_compute; reflexivity|vm_compute; reflexivity|].
  apply (service_runs_what_it_remembers office_loop true). apply office_service_reachable.
Defined.

(** ** The import into a core that runs *)

(** The condition is needed. A subscription imported as a text while the core runs
    (as a connection to the panel does) is remembered and saved at once, and the core goes
    on with the old one: the service saves one node and runs another, which the new
    subscription does not have. *)
Theorem import_while_running_diverges :
  let s := office_service [Svc_import Sample.vless_link; Svc_start; Svc_import second_link] in
  persisted_subscription s = Some (mkPersisted second_link (Some "vless-two")) /\
  chosen (cs_core (svc_core s)) = Some (Some Sample.vless_link, Some "vless-ws") /\
  ~ service_ok s.
Proof.
  cbv zeta. set (s := office_service _).
  assert (Hp : persisted_subscription s = Some (mkPersisted second_link (Some "vless-two"))) by (vm_compute; reflexivity).
  assert (Hc : chosen (cs_core (svc_core s)) = Some (Some Sample.vless_link, Some "vless-ws")) by (vm_compute; reflexivity).
  clearbody s. split_and!; [done..|]. intros [_ Hs]. unfold persisted_subscription in Hp.
  destruct (svc_subscription_config s) as [text|]; [|done]. injection Hp as -> Hsel. destruct Hs as [_ Hh].
  unfold chosen in Hc. destruct (ctl_handle (cs_core (svc_core s))) as [h|]; [|done]. apply (inj Some) in Hc.
  rewrite (Hh h eq_refl), Hsel in Hc. by injection Hc.
Qed.

(** The application at the desk, once a subscription was imported into it. *)
Definition office_host : DesktopShellCommandHost (NativeHost Office) :=
  native_host (Lib := sample_panel) office_loop detect_office.

Definition office_app : DesktopShellController (NativeHost Office) :=
  (run_app (Host := office_host) (App_import_subscription two_nodes)
     (app_from_parts (Host := office_host) (commands_new, quiet_office) (Some "subscription.json")).1).1.

Lemma office_app_reachable : app_reachable (Host := office_host) office_app.
Proof.
  apply (app_step (Host := office_host) _ (App_import_subscription two_nodes)).
  apply (app_new (Host := office_host) (commands_new, quiet_office) (Some "subscription.json")).
Defined.

Lemma office_startable : startable (app_shell office_app).
Proof.
  split; [left; vm_compute; reflexivity|]. split; [|vm_compute; exact I].
  assert (Hs : is_some (shell_subscription (app_shell office_app)) = true) by (vm_compute; reflexivity).
  assert (Hu : has_usable_subscription (shell_subscription (app_shell office_app)) = true) by (vm_compute; reflexivity).
  by apply usable_subscription_spec.
Qed.

Lemma requests_follow_the_shell_witness :
  request_start (Host := office_host) office_app = carry_out (Host := office_host) (host_start (DesktopShellCommandHost := office_host)) office_app /\
  request_refused "request-stop" (request_stop (Host := office_host)) office_app.
Proof.
  destruct (requests_follow_the_shell (Host := office_host) office_app office_app_reachable) as (Hstart & _ & _ & Hstop).
  split; [exact (Hstart office_startable)|]. apply Hstop. unfold running. vm_compute. discriminate.
Defined.

Definition office_saved : DesktopPersistedSubscription := mkPersisted two_nodes (Some "vless-two").

(** The two nodes with the second one selected survive a restart. *)
Lemma saved_subscription_is_restored_witness :
  exists c,
    app_new_native (Lib := sample_panel) office_loop detect_office "subscription.json"
      (mkOffice idle_desk (Some ("vless-two" +:+ String newline two_nodes))) = (c, Ok tt) /\ restored office_saved c.
Proof.
  apply (saved_subscription_is_restored (Lib := sample_panel) office_loop detect_office (fun o _ => office_file o) true
           "subscription.json"
           (mkCommands (office_service office_ops) None, quiet_office)
           (mkCommands (office_service office_ops) None,
            mkOffice idle_desk (Some ("vless-two" +:+ String newline two_nodes)))).
  - exists ("vless-two" +:+ String newline two_nodes). split; vm_compute; reflexivity.
  - reflexivity.
  - intros path json h h' E. injection E as <-. reflexivity.
  - reflexivity.
  - exact office_service_reachable.
  - vm_compute. reflexivity.
  - reflexivity.
  - reflexivity.
Defined.
